(* ===== verification/_CoqProject ===== *)
-Q . S2P
Prelude.v
Shared.v
Effects.v
Hlc.v
Text.v
Civil.v
Literal.v
Netip.v
Token.v
Session.v
SessionChain.v
Setting.v
Password.v
SignInPolicy.v
WorkspacePolicy.v
Calendar.v
Timer.v
Sla.v
SlaClocks.v
Backup.v
Planning.v
SetElement.v
Ordering.v
Sync.v
Push.v
Access.v
Assignment.v
Item.v
Container.v
Hierarchy.v
Workflow.v
Approval.v
Retention.v
Purge.v
RuleSweep.v
Query.v
Line.v
LineTrip.v
Resolve.v
