(* ===== verification/Prelude.v ===== *)
(** * Hubtask: a verification development of its domain core

    Hubtask is a work management server: workspaces hold hubs, hubs hold
    collections, collections hold trees of entries; people reach them with
    roles and custom permissions, from browsers, calendars, agents and from
    devices that work offline and synchronise later.  The Go program keeps its
    rules in a domain of pure functions (src/core/domain), composes them in use
    cases (src/core/application/service) over interfaces (the ports and the
    repositories), and implements the interfaces in src/infrastructure.  This
    library models the domain's core, the use cases that carry its hard
    behaviour, and of the infrastructure only the statements a theorem rests
    on.  It follows the source name by name: a definition is called as its
    function where Rocq allows it, with the type in front where Go has methods
    of one name on several types ([ContainerArchived], [DefinitionEqual]).

    ** Conventions

    A fallible function answers a [result]: [Ok], [Err] with the error value
    the source returns - category, code, detail, parameters, fields -, or
    [Panic] where the program would stop on an index out of range, a division
    by zero or an exhausted stack.  Errors are compared whole, so a theorem
    about a refusal says which refusal.  A string is its bytes.  A Go [int] is
    a [Z]: the counters and positions modelled stay far within 64 bits; where a
    width matters (the clock's counter, a duration, [strconv.ParseUint]) it is
    written out.  An instant is its nanoseconds since 1970 in UTC.  A Go map is
    a [gmap], a map literal with a fixed order of keys an association list, a
    map iterated over is iterated in some order and what is proved holds for
    the outcome whatever the order.  A port is a parameter - a function, or a
    field of a record of them - and what is assumed of it is a named class or
    hypothesis that states its documented behaviour, with an instance.

    ** The parts

    - Prelude.v, this file: results, comparisons as a class of total orders,
      byte strings, slices, sorting, tactics; Shared.v: errors, identifiers,
      instants and durations (core/domain/model/shared/Errors.go, ID.go);
      Civil.v: the calendar of Go's time package, its RFC 3339 texts.
    - Hlc.v, the hybrid logical clock (shared/HLC.go): the readings every
      change carries.  The text of a reading sorts as the reading does and
      parses back, and ticks only go forward.
    - SetElement.v, replicated sets (work/SetElement.go): the merge is a join -
      idempotent, commutative, associative - and presence is "added later than
      removed".  Uses Hlc.
    - Ordering.v, rank keys (service/Ordering.go): a key strictly between any
      two storable bounds, no panic, no exhausted recursion; and the one dead
      end at the bottom of the key space.
    - Sync.v, the merge rules (sync/Mutation.go, Merge.go, Entity.go): the
      bound on device clocks, the families of fields, the decision field by
      field, which makes concurrent writes converge.  Uses Hlc.
    - Push.v, a device's queue (application/service/sync): one mutation from
      its look-up in the operation log to its recorded answer, all appliers,
      in a state and error monad with transactions.  The state of the server
      is abstract, [Ports] are the interfaces, [LogLaws] what the operation
      log promises.  Answers survive the log, a replay changes nothing, a
      failure leaves nothing half done, a patch writes its winners.  Uses
      Sync, SetElement, Hlc.
    - Access.v, roles and permissions (identity/Membership.go,
      service/Authorization.go, ItemAccess.go, PermissionCatalogue.go): what
      memberships add up to along a path, who may grant and hand out what, how
      far an account reaches for an entry, which permission names exist.
    - Assignment.v, assignment by policy and roll-ups (work/AutoAssignPolicy.go,
      CompletionPolicy.go, service/Assignment.go, Completion.go, and the pool
      and draw of application/service/work/AutoAssignWorkItem.go).
    - Item.v, an entry (work/CapabilityProfile.go, Item.go, Lifecycle.go): what
      its type may do, its path, its completion, assignment and lifecycle as a
      step relation.
    - Container.v, hubs and collections (work/Container.go, Lifecycle.go,
      service/ContainerScopes.go): the same for containers, and the archived
      state a collection inherits from its hub through the read.
    - Hierarchy.v, the tree (service/Hierarchy.go; the create and the move of
      application/service/work; the rows a move rewrites, of
      infrastructure/postgres/ItemRepository.go and db/queries/Work.sql).  Uses
      Item for entries, Container for where they may go.
    - Text.v, what people type (shared/Text.go, LabelTokens.go): UTF-8, trimming,
      counting; a normal form is a [Normalizer], and [NormalForm] what is
      assumed of it.
    - Workflow.v, the statuses of an entry and the steps between them
      (work/Workflow.go, StepApproval.go): the checks of a shape, a workflow's
      life, the moves another workflow asks for.  Uses Text.
    - Approval.v, the approval of a step (servicedesk/Approval.go and the answer
      of application/service/servicedesk/Approvals.go): levels, rules, delegates
      as a step relation.  Uses Workflow.
    - Calendar.v, working time (calendar/BusinessCalendar.go, shared/Zone.go) on
      Civil's dates, and Timer.v, the clocks that count it (calendar/Timer.go).
      A zone is a parameter, and [Orderly] what a zone has to do for the sums of
      working time to be right; every zone of one offset is orderly, and the
      examples at the end of Calendar show what happens in New York's spring
      night, which is not.
    - Effects.v, the monad of a server's steps, which Push and SlaClocks write
      their handlers in.
    - Sla.v, what an entry is promised (servicedesk/Sla.go), and SlaClocks.v, the
      clocks that keep the promise in step with the entry's events
      (application/service/servicedesk/Clocks.go over the clocks of
      application/service/calendar/Timers.go): the workspace's live timers and
      records are the state, a delivered event or a fired timer a step of it.
      Uses Timer.
    - Backup.v, which backups stay (backup/Schedule.go, Expiry.go, and the pass
      of application/service/backup/Perform.go that deletes): the walks over
      sorted archives and over Go maps, refined to a specification without
      walks.  Uses Civil for the days, weeks and months of a zone.
    - Planning.v, plans (planning/Schedule.go): the queue that orders the
      dependencies, the forward and backward pass, the roll-up, working days.
    - Retention.v, what may be deleted and when (core/domain/model/lifecycle):
      the catalogue of kinds, policies, legal holds, rules and what each
      reaches; the correction of a rule.  Uses Text for the texts people give.
    - Purge.v, the removal of what is in the trash
      (application/service/lifecycle/Purge.go, PurgeWorkItem.go): a workspace's
      rows with their foreign keys are the state, the safeguards and the
      statements of infrastructure/postgres are read and written as the code
      does, page by page.  Uses Retention, and Hierarchy's paths.
    - RuleSweep.v, one pass of the rules (RetentionSweep.go and the markings'
      statements): marking what a rule has reached and telling the devices, then
      acting on the markings whose grace is over.  The same state as Purge's.
    - Literal.v, the literals of Go's strconv and time packages: floats and their
      decimal texts, RFC 3339 instants.
    - Query.v, what a query may ask (view/Field.go, Filter.go, Cost.go,
      QuerySpec.go, the reading of Placeholder.go): the catalogue of fields, the
      filter tree, its bounds and price, the order.  Line.v, the same as a line
      of text (view/Line.go): lexer, parser, printer; LineTrip.v, the proof that
      they fit.  Resolve.v, what a query's placeholders stand for when it is
      answered (the rest of Placeholder.go).  Uses Civil, Text and Literal.
    - Netip.v, addresses and networks as Go's net/netip reads and writes them.
    - Token.v, the credentials people and devices present (identity/Token.go,
      AccessToken.go, the texts of identity/Session.go): a mark, the tenant's
      digits, the secret; and a personal access token's own rules.
    - Session.v, a sign-in (identity/Session.go; Session.go, Sessions.go and
      AuthenticateToken.go of application/service/identity; the statements of
      infrastructure/postgres/SessionRepository.go): the exchange of a refresh
      token, the ledger of failed attempts, listing and ending sessions, the
      decision about an access token.  The tables are the state, row level
      security is the scope of a statement, a transaction takes back what a
      refusal wrote.  SessionChain.v, the theorems: a world of devices whose
      exchanges have read and not yet written, as a step relation.  Uses Effects,
      Token, Netip and Literal.
    - Setting.v, the settings catalogue (core/domain/model/setting): one resolver
      for every setting, level by level, and the question a writer asks.
    - Password.v, what a password must meet (identity/PasswordRules.go).
      SignInPolicy.v, the sign-in rule (identity/SignInPolicy.go,
      SignInSettings.go, ValueDeclaration.go): twenty switches, each a setting
      resolved through installation, plan and workspace, and the product's bounds
      over the outcome.  WorkspacePolicy.v, a workspace's save of it
      ([Tightened], and the sign-in half of
      application/service/identity/WorkspacePolicy.go).  Uses Setting, Password,
      Session.

    ** What the theorems show

    Convergence and replay: [lww_converges], [set_merge_converges],
    [set_merge_present], [decide_partition], [push_replay],
    [push_failure_atomic], [patch_writes_winners], [result_record_roundtrip]
    say that devices which work apart end up with the same data, that sending
    twice is sending once, and that what the server answered is what it will
    answer; [hlc_ticks_increase], [hlc_string_order], [hlc_parse_string] and
    [bound_within_skew] are what the clock contributes.  Structure:
    [tree_preserved] and [depth_budget] are proved by induction over any
    sequence of creates, moves and edits ([tree_step]); [placement_rule] and
    [path_roundtrip] are the single steps; [container_invariants],
    [container_read_only], [archive_hub_roundtrip], [item_invariants] and
    [lifecycle_undo] do the same for the states of containers and entries.
    Ranks: [order_key_between].  Access: [access_is_union],
    [effective_role_strongest], [item_reach_widest], [grant_ceiling],
    [hand_out_ceiling], [held_is_allowed], [permission_grammar].  Hand-outs:
    [auto_assign_pool] is the specification of the pool and the refinement of
    its loops to it, [auto_assign_draw] that a draw cannot fail on it,
    [rotation_fair] that the rotation starves nobody, [roll_up_settles] that a
    roll-up is done once.  Workflows: [workflow_shape_checked] is the type
    invariant of a shape, [workflow_life] that every operation keeps it,
    [status_moves_settle] that a plan of moves leaves nothing to move,
    [workflow_copy] which workflows can be copied.  Approvals: [approval_fair]
    is the invariant of every order of answers, [approval_reaches_end] that an
    approval cannot get stuck.  Time: [working_time_adds_up], [work_done_first]
    specify the walk over days by the sum of all working stretches, and
    [timer_spends_working_time] a timer by the working time that passed.
    Service levels: [sla_targets_bounded] and [sla_policy_copies] are what a
    checked policy is worth, [policy_chosen] which one counts; [clocks_in_step]
    is the invariant of every reachable workspace, [promise_kept] the moves a
    record may make, [events_settle_goals] what a completion, a status and a
    timer that runs out do.
    Backups: [retention_keeps_needed] is the refinement of a plan's loops to an
    inductive specification of what is needed, whatever order the maps are
    walked in, [expire_spares] that the deleting pass never breaks a chain,
    [schedule_checked] what a schedule may be.  Plans: [plan_answered] is
    termination and the decision of loops, [dependencies_kept] and
    [floats_latest] say that the two passes find the least and the greatest
    dates, [roll_up_spans] that the roll-up reaches its fixpoint,
    [workdays_counted] that adding days and counting them agree.
    Deletion: [rule_checked] is the type invariant of a rule, [holds_bind] and
    [effective_narrowest] what holds and rules reach; [sweep_safe],
    [subtree_safe] and [act_safe] say that nothing disappears that a hold
    reaches or that was not due, and that what disappears is recorded and
    announced, [marks_told] that nothing is marked in silence;
    [sweep_finds_due], [sweep_answers] and [pass_ends] that the loops over
    pages end and find what one read would.
    Queries: [filter_checked] and [sort_checked] are the type invariants of what
    the parsers let through, [filter_refusal] and [line_total] what they answer
    otherwise; [line_roundtrip] says that the line and the tree are two spellings
    of one query, [format_parse] that a float's shortest text reads back;
    [resolve_safe] that no placeholder survives and nobody's queue but one's own
    is read, [week_anchors] what a week is.
    Sessions: [token_roundtrip] says what a credential's text carries;
    [exchange_once] and [revoked_for_good] are proved over every interleaving of
    transactions from an installation without sessions, [refresh_rotates] is the
    one exchange, [listed_accepted] the agreement of the list with the door,
    [guess_paced] the pace of guessing one after the other.

    Settings: [writer_agrees] says that what a writer lets through is what readers
    find, [resolve_sound] that a lock binds and a value in force lies inside every
    restriction; [workspace_tightens] that a workspace can only make the sign-in
    rule stricter whatever is stored for it, [stricter_passes] what stricter
    means for a password, [saved_is_in_force] that an accepted save is what the
    next sign-in reads.

    Where the code does not do what it says, the theorem says what it does:
    [order_key_dead_end], [bound_lets_device_through], [grant_above_own],
    [approval_of_nobody], [milestone_day_late], [reuse_rolled_back], the last halves of
    [hand_out_ceiling], [held_is_allowed], [permission_grammar],
    [workflow_copy] and [work_done_first]; and the examples at the end of Retention, Purge and
    RuleSweep, which are rules nobody can correct and passes that can never
    succeed, of LineTrip, which are filters no line spells, and of SessionChain,
    which are a stolen token's chain that goes on and an idle session revived;
    and of WorkspacePolicy, which are a list of ways in that brings back what the
    installation took away and a rule no password meets.

    ** Recursion

    Few functions recurse on something other than their data.
    [Ordering.midpoint] has fuel one more than the two keys' lengths together,
    and [order_key_between] proves that it is never used up (running out is
    [Panic], which the theorem excludes).  [Hlc.decimal] has one unit
    of fuel more than the number has bits, hence more than it has digits.
    [Assignment.rotate] runs once per configured candidate, as the loop of the
    source does.  [Text.runes] has as much fuel as the text has bytes.  The walks
    of [Calendar.Add] and [AddWorkingDays] are bounded by the 400 * 366 days of
    the source ([WalkBound]); [Between] has no bound in the source, and a turn's
    fuel for every twelve hours between its instants, which [Between_over] proves
    enough in an orderly zone.  The queue of [Planning.topological] has a turn
    per task, which [drain_spec] proves enough, and its axis the reach of the
    source; [grown_day_axis] relates the axis grown on demand to the whole one.
    The reads of [Purge.read_pages] and [RuleSweep.walk] have a page for every
    row and one more; [sweep_answers] and [pass_ends] prove that enough.
    [Query.parseNode] is structural on the levels a filter may still go down, the
    line's parser on the nesting it may, and its loops have the tokens left as
    fuel, which [line_total] proves enough.  [FormatFloat] tries one to seventeen
    digits and then takes the exact decimal.

    ** What is not modelled

    The titles, names and descriptions of entries and containers and what checks
    them; the gates of a collection's structure and forms, which are parameters
    that may refuse; the expressions of a workflow's checks, which another
    package evaluates; what is made of an authenticated session (its scopes,
    elevation, views of another account) around the decisions of Access; events,
    audit and history written beside a change; the wire formats; of the service levels the teams' promises and the re-arming after a
    restore; of the lifecycle the preview of a rule, the use cases around holds,
    the documents' sweep and the kinds whose rows are only counted and deleted.
    A collection's structure (work/Structure*.go, Form.go, CustomField.go) is
    typed values in layers of JSON documents and stays behind the gates of
    Hierarchy; pulling the change log is a page of SQL per call; the steps of a
    sign-in before its tail, second factors and identity providers are decided by
    the ports they call; of a password's rules the lists of common and breached
    ones and the history are stores, and of the sign-in rule the legal links
    beside it and the installation's own save are left out; automation rests on an expression language of another
    package; the transports, generated code and the clients in other languages
    render what is modelled here. *)

From Stdlib Require Import ZArith Lia String Ascii List Bool Sorting.Sorted.
From stdpp Require Import base option list strings gmap.
From stdpp Require sorting.

Open Scope Z_scope.

#[global] Arguments String.append !_ _ / : simpl nomatch.

(** ** Results

    A Go function returns a value and an error, or stops the goroutine with a
    run-time panic.  [Err] carries the error value, [Panic] stands for the
    panic (an index out of range, a division by zero, a stack overflow): a
    model that reaches it says that the program would crash there. *)

Inductive result (E A : Type) : Type :=
  | Ok (a : A)
  | Err (e : E)
  | Panic.
Arguments Ok {E A} a.
Arguments Err {E A} e.
Arguments Panic {E A}.

#[export] Instance result_ret {E} : MRet (result E) := fun A a => Ok a.
#[export] Instance result_bind {E} : MBind (result E) := fun A B f r =>
  match r with Ok a => f a | Err e => Err e | Panic => Panic end.
#[export] Instance result_map {E} : FMap (result E) := fun A B f r =>
  match r with Ok a => Ok (f a) | Err e => Err e | Panic => Panic end.

Definition is_ok {E A} (r : result E A) : bool :=
  match r with Ok _ => true | _ => false end.

(** [refuse_when c e k] is Go's [if c { return ..., e }; k]. *)
Definition refuse_when {E A} (c : bool) (e : E) (k : result E A) : result E A :=
  if c then Err e else k.

(** A loop over a list whose body may refuse: Go's [for _, x := range xs] with
    an early return. *)
Fixpoint fold_result {E S X} (f : S -> X -> result E S) (s : S) (xs : list X) : result E S :=
  match xs with
  | [] => Ok s
  | x :: rest => s' ← f s x; fold_result f s' rest
  end.

(** ** Comparison functions

    Go orders values with three-way comparisons ([strings.Compare],
    [time.Time.Compare], [cmp.Compare], the [Compare] methods).  The class
    says that such a comparison is a total order whose ties are equalities. *)

Class TotalCompare {A : Type} (cmp : A -> A -> comparison) : Prop := {
  cmp_eq_iff : forall x y, cmp x y = Eq <-> x = y;
  cmp_opp : forall x y, cmp y x = CompOpp (cmp x y);
  cmp_trans : forall x y z, cmp x y = Lt -> cmp y z = Lt -> cmp x z = Lt
}.

(** Lexicographic combination, Go's [cmp.Or]. *)
Definition cmp_or (c d : comparison) : comparison :=
  match c with Eq => d | _ => c end.

Definition cmp_pair {A B} (ca : A -> A -> comparison) (cb : B -> B -> comparison)
    (x y : A * B) : comparison :=
  cmp_or (ca x.1 y.1) (cb x.2 y.2).

Definition cmp_on {A B} (f : A -> B) (c : B -> B -> comparison) (x y : A) : comparison :=
  c (f x) (f y).

(** The larger of two values under a comparison, the second one winning only
    when it is strictly larger. *)
Definition cmp_max {A} (cmp : A -> A -> comparison) (x y : A) : A :=
  match cmp y x with Gt => y | _ => x end.

(** Go's string comparison operators. *)
Definition str_ltb (a b : string) : bool :=
  match String.compare a b with Lt => true | _ => false end.
Definition str_leb (a b : string) : bool :=
  match String.compare a b with Gt => false | _ => true end.

(** ** Slices of strings: [s[n:]], [s[:n]], [strings.HasPrefix], ... *)

Fixpoint str_drop (n : nat) (s : string) : string :=
  match n, s with
  | O, _ => s
  | S n', String _ s' => str_drop n' s'
  | S _, EmptyString => EmptyString
  end.

Fixpoint str_take (n : nat) (s : string) : string :=
  match n, s with
  | S n', String c s' => String c (str_take n' s')
  | _, _ => EmptyString
  end.

Fixpoint str_has_prefix (p s : string) : bool :=
  match p, s with
  | EmptyString, _ => true
  | String c p', String d s' => Ascii.eqb c d && str_has_prefix p' s'
  | String _ _, EmptyString => false
  end.

(** [strings.Cut]: the text around the first occurrence of a byte. *)
Fixpoint str_cut (sep : ascii) (s : string) : option (string * string) :=
  match s with
  | EmptyString => None
  | String c rest =>
      if Ascii.eqb c sep then Some (EmptyString, rest)
      else match str_cut sep rest with
           | Some (before, after) => Some (String c before, after)
           | None => None
           end
  end.

Fixpoint str_contains (c : ascii) (s : string) : bool :=
  match s with
  | EmptyString => false
  | String d rest => Ascii.eqb d c || str_contains c rest
  end.

Fixpoint str_forallb (f : ascii -> bool) (s : string) : bool :=
  match s with
  | EmptyString => true
  | String c rest => f c && str_forallb f rest
  end.

(** The last byte of a string, which [strings.HasSuffix] with a one-byte
    suffix looks at. *)
Fixpoint str_last (s : string) : option ascii :=
  match s with
  | EmptyString => None
  | String c EmptyString => Some c
  | String _ rest => str_last rest
  end.

Definition str_ends_with (c : ascii) (s : string) : bool :=
  match str_last s with Some d => Ascii.eqb d c | None => false end.

(** [slices.Contains]. *)
Definition contains {A} `{EqDecision A} (xs : list A) (x : A) : bool :=
  existsb (fun y => bool_decide (y = x)) xs.

(** [xs[i]]: an index out of range stops the program. *)
Definition at_index {E A} (xs : list A) (i : Z) : result E A :=
  if i <? 0 then Panic
  else match xs !! Z.to_nat i with Some x => Ok x | None => Panic end.

(** [slices.SortFunc] as insertion sort.  Go's sort is not stable, so a model
    that uses it either sorts by a comparison without ties or states its
    theorems up to permutation. *)
Fixpoint insert_by {A} (cmp : A -> A -> comparison) (x : A) (xs : list A) : list A :=
  match xs with
  | [] => [x]
  | y :: rest => match cmp x y with Gt => y :: insert_by cmp x rest | _ => x :: xs end
  end.

Fixpoint sort_by {A} (cmp : A -> A -> comparison) (xs : list A) : list A :=
  match xs with
  | [] => []
  | x :: rest => insert_by cmp x (sort_by cmp rest)
  end.

(** ** Automation *)

Create HintDb hub.

Ltac break_match :=
  match goal with
  | |- context [match ?x with _ => _ end] => destruct x eqn:?
  | H : context [match ?x with _ => _ end] |- _ => destruct x eqn:?
  end.

Ltac break_goal :=
  match goal with
  | |- context [match ?x with _ => _ end] => destruct x eqn:?
  end.

(** Turns boolean tests on integers and booleans into propositions. *)
Ltac bools :=
  repeat match goal with
  | H : _ && _ = true |- _ => apply andb_true_iff in H; destruct H
  | H : _ || _ = false |- _ => apply orb_false_iff in H; destruct H
  | H : negb _ = true |- _ => apply negb_true_iff in H
  | H : negb _ = false |- _ => apply negb_false_iff in H
  | H : (_ <? _) = true |- _ => apply Z.ltb_lt in H
  | H : (_ <? _) = false |- _ => apply Z.ltb_ge in H
  | H : (_ <=? _) = true |- _ => apply Z.leb_le in H
  | H : (_ <=? _) = false |- _ => apply Z.leb_gt in H
  | H : (_ =? _) = true |- _ => apply Z.eqb_eq in H
  | H : (_ =? _) = false |- _ => apply Z.eqb_neq in H
  | H : bool_decide _ = true |- _ => apply bool_decide_eq_true in H
  | H : bool_decide _ = false |- _ => apply bool_decide_eq_false in H
  | H : String.eqb _ _ = true |- _ => apply String.eqb_eq in H
  | H : String.eqb _ _ = false |- _ => apply String.eqb_neq in H
  | H : Ascii.eqb _ _ = true |- _ => apply Ascii.eqb_eq in H
  | H : Ascii.eqb _ _ = false |- _ => apply Ascii.eqb_neq in H
  end.

(** ** Results: inversion lemmas *)

Lemma bind_ok {E A B} (r : result E A) (f : A -> result E B) (b : B) :
  (r ≫= f) = Ok b -> exists a, r = Ok a /\ f a = Ok b.
Proof. destruct r; cbn; intros H; try discriminate. eauto. Qed.

Lemma refuse_when_ok {E A} (c : bool) (e : E) (k : result E A) (a : A) :
  refuse_when c e k = Ok a <-> c = false /\ k = Ok a.
Proof. unfold refuse_when. destruct c; split; intros H; intuition congruence. Qed.

Lemma at_index_ok {E A} (xs : list A) i (x : A) :
  at_index (E := E) xs i = Ok x <-> 0 <= i /\ xs !! Z.to_nat i = Some x.
Proof.
  unfold at_index. destruct (Z.ltb_spec i 0); [split; [done|lia]|].
  destruct (xs !! Z.to_nat i); split; intros H'; intuition congruence.
Qed.

Lemma at_index_in {E A} (xs : list A) i :
  0 <= i < Z.of_nat (List.length xs) -> exists x, at_index (E := E) xs i = Ok x /\ x ∈ xs.
Proof.
  intros [H0 H1]. destruct (lookup_lt_is_Some_2 xs (Z.to_nat i)) as [x Hx]; [lia|].
  exists x. split; [by apply at_index_ok|]. by eapply list_elem_of_lookup_2.
Qed.

Lemma fold_result_app {E S X} (f : S -> X -> result E S) (s : S) (xs ys : list X) :
  fold_result f s (xs ++ ys) = (s' ← fold_result f s xs; fold_result f s' ys).
Proof.
  revert s. induction xs as [|x xs IH]; intros s; [done|]. cbn.
  destruct (f s x); [apply IH| |]; reflexivity.
Qed.

(** An invariant of the loop state holds at the end of the loop. *)
Lemma fold_result_inv {E S X} (f : S -> X -> result E S) (P : S -> Prop) xs :
  (forall s x s', P s -> x ∈ xs -> f s x = Ok s' -> P s') ->
  forall s s', P s -> fold_result f s xs = Ok s' -> P s'.
Proof.
  induction xs as [|x xs IH]; intros Hstep s s' HP H; cbn in H.
  - congruence.
  - destruct (f s x) as [s1| |] eqn:E1; try discriminate. cbn in H.
    eapply IH; [| |exact H].
    + intros. eapply Hstep; eauto. by right.
    + eapply Hstep; eauto. by left.
Qed.

(** ** Loops that collect

    A loop that appends one checked element to what it has for each element it
    sees, with the index beside it: [grow acc] is the state that has collected
    [acc]. *)

Section Grow.
Context {E S X : Type} (grow : list X -> S) (f : S * Z -> X -> result E (S * Z)).

(** What every turn makes sure of the element it adds, given those collected
    before it, holds of each element at the end. *)
Lemma fold_grow_inv {Y} (g : S * Z -> Y -> result E (S * Z)) (P : list X -> X -> Prop) (xs : list Y) :
  (forall acc i x r, x ∈ xs -> g (grow acc, i) x = Ok r -> exists y, r = (grow (acc ++ [y]), i + 1) /\ P acc y) ->
  forall acc0 i r, fold_result g (grow acc0, i) xs = Ok r ->
  exists ys, r.1 = grow (acc0 ++ ys) /\ List.length ys = List.length xs /\
    forall acc y rest, ys = acc ++ y :: rest -> P (acc0 ++ acc) y.
Proof.
  induction xs as [|x xs IH]; intros Hg acc0 i r H; cbn in H.
  - injection H as <-. exists []. rewrite app_nil_r. split; [done|]. split; [done|]. intros [|? ?] ? ? [=].
  - apply bind_ok in H as [r1 [H1 H2]]. destruct (Hg acc0 i x r1) as [y [-> Hy]]; [by left|done|].
    destruct (IH (fun acc i x' r Hin => Hg acc i x' r (list_elem_of_further _ _ _ Hin)) _ _ _ H2) as [ys [-> [Hlen Hys]]].
    exists (y :: ys). cbn. rewrite <- (app_assoc acc0 [y] ys), Hlen. split; [done|]. split; [done|].
    intros [|y' acc] z rest [= -> Heq]; [by rewrite app_nil_r|].
    pose proof (Hys _ _ _ Heq) as Hz. by rewrite <- app_assoc in Hz.
Qed.

(** When every turn keeps the element as it is, the loop keeps the list. *)
Lemma fold_grow_id ys :
  forall acc0 i,
  (forall acc y rest j, ys = acc ++ y :: rest ->
     f (grow (acc0 ++ acc), j) y = Ok (grow (acc0 ++ acc ++ [y]), j + 1)) ->
  exists n, fold_result f (grow acc0, i) ys = Ok (grow (acc0 ++ ys), n).
Proof.
  induction ys as [|y ys IH]; intros acc0 i H; cbn.
  - exists i. by rewrite app_nil_r.
  - pose proof (H [] y ys i eq_refl) as H1. rewrite app_nil_r in H1. rewrite H1. cbn.
    destruct (IH (acc0 ++ [y]) (i + 1)) as [n Hn].
    + intros acc z rest j ->. rewrite <- !app_assoc. by apply (H (y :: acc) z rest j).
    + exists n. by rewrite Hn, <- app_assoc.
Qed.
End Grow.

(** What holds at every split of a list. *)
Lemma split_forall {A} (P : A -> Prop) xs :
  (forall acc y rest, xs = acc ++ y :: rest -> P y) -> Forall P xs.
Proof.
  intros H. apply Forall_forall. intros y Hy. apply list_elem_of_split in Hy as [acc [rest ->]]. by eapply H.
Qed.

Lemma forall_split {A} (P : A -> Prop) acc y rest : Forall P (acc ++ y :: rest) -> P y.
Proof. by intros [_ [Hy _]%Forall_cons]%Forall_app. Qed.

Lemma split_nodup {A K} (key : A -> K) xs :
  (forall acc y rest, xs = acc ++ y :: rest -> key y ∉ key <$> acc) -> NoDup (key <$> xs).
Proof.
  induction xs as [|x xs IH] using rev_ind; intros H; [constructor|].
  rewrite fmap_app. apply NoDup_app. split; [|split; [|apply NoDup_singleton]].
  - apply IH. intros acc y rest ->. apply (H acc y (rest ++ [x])). by rewrite <- app_assoc.
  - intros k Hk Hx. apply list_elem_of_singleton in Hx as ->. by apply (H xs x []).
Qed.

Lemma nodup_split {A K} (key : A -> K) acc y rest :
  NoDup (key <$> (acc ++ y :: rest)) -> key y ∉ key <$> acc.
Proof. rewrite fmap_app. intros (_ & Hd & _)%NoDup_app Hin. apply (Hd _ Hin). by left. Qed.

(** A loop that keeps what is new of what it checks, as [slices.Contains]
    guards an append. *)
Definition add_new {A} `{EqDecision A} (kept : list A) (x : A) : list A :=
  if contains kept x then kept else kept ++ [x].

Lemma contains_in {A} `{EqDecision A} (xs : list A) (x : A) : contains xs x = true <-> x ∈ xs.
Proof.
  unfold contains. rewrite existsb_exists. split.
  - intros [y [Hin Hy]]. apply bool_decide_eq_true in Hy as ->. by apply list_elem_of_In.
  - intros H. exists x. split; [by apply list_elem_of_In|]. by apply bool_decide_eq_true.
Qed.

Section AddNew.
Context {E A : Type} `{EqDecision A} (P : A -> Prop) (f : list A -> A -> result E (list A)).

Lemma add_new_keeps kept x : NoDup kept /\ Forall P kept -> P x -> NoDup (add_new kept x) /\ Forall P (add_new kept x).
Proof.
  intros [Hn Hall] Hx. unfold add_new. destruct (contains kept x) eqn:E'; [done|]. split.
  - apply NoDup_app. split; [done|]. split; [|apply NoDup_singleton].
    intros y Hy ->%list_elem_of_singleton. apply contains_in in Hy. congruence.
  - apply Forall_app. by split; [|constructor].
Qed.

Lemma fold_add_new_keeps xs :
  (forall s x s', f s x = Ok s' -> s' = s \/ exists y, P y /\ s' = add_new s y) ->
  forall s', fold_result f [] xs = Ok s' -> NoDup s' /\ Forall P s'.
Proof.
  intros Hf s'. apply (fold_result_inv f (fun s => NoDup s /\ Forall P s)); [|split; constructor].
  intros s x t Hs _ Ht. destruct (Hf _ _ _ Ht) as [->|[y [Hy ->]]]; [done|]. by apply add_new_keeps.
Qed.

Lemma add_new_fresh (kept : list A) x rest : NoDup (kept ++ x :: rest) -> add_new kept x = kept ++ [x].
Proof.
  intros Hn. unfold add_new. destruct (contains kept x) eqn:E'; [|done]. apply contains_in in E'.
  apply NoDup_app in Hn as [_ [Hn _]]. destruct (Hn x E'). by left.
Qed.

Lemma fold_add_new_id xs :
  (forall s x, P x -> f s x = Ok (add_new s x)) ->
  NoDup xs -> Forall P xs -> fold_result f [] xs = Ok xs.
Proof.
  intros Hf Hn Hall. change xs with ([] ++ xs) at 2. change xs with ([] ++ xs) in Hn. revert Hn.
  generalize (@nil A) as kept. induction Hall as [|x xs Hx Hall IH]; intros kept Hn; cbn.
  - by rewrite app_nil_r.
  - rewrite (Hf kept x Hx), (add_new_fresh kept x xs Hn). cbn. rewrite IH by by rewrite <- app_assoc.
    by rewrite <- app_assoc.
Qed.
End AddNew.

(** ** Comparisons: the derived order *)

Section Compare.
Context {A : Type} (cmp : A -> A -> comparison) `{!TotalCompare cmp}.

Lemma cmp_refl x : cmp x x = Eq.
Proof. by apply cmp_eq_iff. Qed.

Lemma cmp_gt_lt x y : cmp x y = Gt <-> cmp y x = Lt.
Proof. rewrite (cmp_opp (cmp := cmp) x y). destruct (cmp x y); cbn; split; congruence. Qed.

Lemma cmp_gt_trans x y z : cmp x y = Gt -> cmp y z = Gt -> cmp x z = Gt.
Proof. rewrite !cmp_gt_lt. intros H1 H2. by apply (cmp_trans (cmp := cmp) z y x). Qed.

Lemma cmp_max_comm x y : cmp_max cmp x y = cmp_max cmp y x.
Proof.
  unfold cmp_max. rewrite (cmp_opp (cmp := cmp) x y).
  destruct (cmp x y) eqn:E; cbn; try done. by apply cmp_eq_iff.
Qed.

Lemma cmp_max_idem x : cmp_max cmp x x = x.
Proof. unfold cmp_max. by rewrite cmp_refl. Qed.

Lemma cmp_max_cases x y :
  (cmp_max cmp x y = x /\ cmp y x <> Gt) \/ (cmp_max cmp x y = y /\ cmp y x = Gt).
Proof. unfold cmp_max. destruct (cmp y x); intuition congruence. Qed.

(** The maximum is an upper bound, and the least one. *)
Lemma cmp_max_le_l x y : cmp x (cmp_max cmp x y) <> Gt.
Proof.
  unfold cmp_max. destruct (cmp y x) eqn:E; rewrite ?cmp_refl; try done.
  rewrite (cmp_opp (cmp := cmp) y x), E. done.
Qed.

Lemma cmp_max_le_r x y : cmp y (cmp_max cmp x y) <> Gt.
Proof. rewrite cmp_max_comm. apply cmp_max_le_l. Qed.

Lemma cmp_le_trans x y z : cmp x y <> Gt -> cmp y z <> Gt -> cmp x z <> Gt.
Proof.
  intros H1 H2. destruct (cmp x y) eqn:E1; [| |done].
  - apply cmp_eq_iff in E1. by subst.
  - destruct (cmp y z) eqn:E2; [| |done].
    + apply cmp_eq_iff in E2. subst. congruence.
    + rewrite (cmp_trans (cmp := cmp) x y z); done.
Qed.

Lemma cmp_le_antisym x y : cmp x y <> Gt -> cmp y x <> Gt -> x = y.
Proof.
  rewrite (cmp_opp (cmp := cmp) x y). destruct (cmp x y) eqn:E; cbn; try done.
  by apply cmp_eq_iff in E.
Qed.

Lemma cmp_max_lub x y z : cmp x z <> Gt -> cmp y z <> Gt -> cmp (cmp_max cmp x y) z <> Gt.
Proof. unfold cmp_max. destruct (cmp y x); auto. Qed.

Lemma cmp_max_assoc x y z :
  cmp_max cmp x (cmp_max cmp y z) = cmp_max cmp (cmp_max cmp x y) z.
Proof.
  apply cmp_le_antisym; repeat apply cmp_max_lub;
    eauto using cmp_le_trans, cmp_max_le_l, cmp_max_le_r.
Qed.
End Compare.

#[export] Instance z_total_compare : TotalCompare Z.compare.
Proof.
  split.
  - intros. apply Z.compare_eq_iff.
  - intros. apply Z.compare_antisym.
  - intros x y z. rewrite !Z.compare_lt_iff. lia.
Qed.

Lemma ascii_compare_eq a b : Ascii.compare a b = Eq <-> a = b.
Proof.
  unfold Ascii.compare. rewrite N.compare_eq_iff. split; [|congruence].
  intros H. rewrite <- (ascii_N_embedding a), <- (ascii_N_embedding b). congruence.
Qed.

Lemma str_compare_refl s : String.compare s s = Eq.
Proof. induction s as [|c s IH]; cbn; [done|]. by rewrite (proj2 (ascii_compare_eq c c)). Qed.

#[export] Instance str_total_compare : TotalCompare String.compare.
Proof.
  split.
  - intros x y. split; [|intros ->; apply str_compare_refl].
    revert y. induction x as [|a x IH]; destruct y as [|b y]; cbn; try done.
    destruct (Ascii.compare a b) eqn:E; try done.
    apply ascii_compare_eq in E. intros H. f_equal; auto.
  - intros x y. apply String.compare_antisym.
  - intros x. induction x as [|a x IH]; destruct y as [|b y]; destruct z as [|c z]; cbn; try done.
    destruct (Ascii.compare a b) eqn:E1; destruct (Ascii.compare b c) eqn:E2; try done;
      try apply ascii_compare_eq in E1; try apply ascii_compare_eq in E2; subst.
    + rewrite (proj2 (ascii_compare_eq c c)) by done. eauto.
    + by rewrite E2.
    + by rewrite E1.
    + assert (Ascii.compare a c = Lt) as ->; [|done].
      unfold Ascii.compare in *. rewrite N.compare_lt_iff in *. lia.
Qed.

#[export] Instance cmp_pair_total {A B} (ca : A -> A -> comparison) (cb : B -> B -> comparison)
  `{!TotalCompare ca, !TotalCompare cb} : TotalCompare (cmp_pair ca cb).
Proof.
  unfold cmp_pair, cmp_or. split.
  - intros [a b] [c d]; cbn. split.
    + destruct (ca a c) eqn:E; try done. intros H.
      apply cmp_eq_iff in E. apply cmp_eq_iff in H. congruence.
    + intros [= -> ->]. by rewrite !cmp_refl.
  - intros [a b] [c d]; cbn. rewrite (cmp_opp (cmp := ca) a c), (cmp_opp (cmp := cb) b d). by destruct (ca a c).
  - intros [a b] [c d] [e f]; cbn. intros H1 H2.
    destruct (ca a c) eqn:E1; try done.
    + apply cmp_eq_iff in E1 as ->. destruct (ca c e); try done.
      by apply (cmp_trans (cmp := cb) b d f).
    + destruct (ca c e) eqn:E2; try done.
      * apply cmp_eq_iff in E2 as ->. by rewrite E1.
      * by rewrite (cmp_trans (cmp := ca) a c e).
Qed.

Lemma cmp_on_total {A B} (f : A -> B) (c : B -> B -> comparison) `{!TotalCompare c} :
  (forall x y, f x = f y -> x = y) -> TotalCompare (cmp_on f c).
Proof.
  intros Hinj. unfold cmp_on. split.
  - intros x y. rewrite cmp_eq_iff. split; [apply Hinj|congruence].
  - intros. apply cmp_opp.
  - intros x y z. apply cmp_trans.
Qed.

(** ** Strings *)

Lemma str_app_assoc (a b c : string) : (a +:+ (b +:+ c)) = ((a +:+ b) +:+ c).
Proof. induction a as [|x a IH]; cbn; [done|]. by rewrite IH. Qed.

Lemma str_app_nil_r (a : string) : (a +:+ "") = a.
Proof. induction a as [|x a IH]; cbn; [done|]. by rewrite IH. Qed.

Lemma str_app_length (a b : string) :
  String.length (a +:+ b) = (String.length a + String.length b)%nat.
Proof. induction a as [|x a IH]; cbn; [done|]. by rewrite IH. Qed.

Lemma str_contains_app c (a b : string) :
  str_contains c (a +:+ b) = str_contains c a || str_contains c b.
Proof. induction a as [|x a IH]; cbn; [done|]. by rewrite IH, orb_assoc. Qed.

Lemma str_forallb_app f (a b : string) : str_forallb f (a +:+ b) = str_forallb f a && str_forallb f b.
Proof. induction a as [|c a IH]; cbn; [done|]. by rewrite IH, andb_assoc. Qed.

Lemma str_cut_app c (a b : string) :
  str_contains c a = false -> str_cut c (a +:+ String c b) = Some (a, b).
Proof.
  induction a as [|x a IH]; cbn; intros H.
  - by rewrite Ascii.eqb_refl.
  - apply orb_false_iff in H as [-> H]. by rewrite (IH H).
Qed.

Lemma has_prefix_split p s : str_has_prefix p s = true -> s = p +:+ str_drop (String.length p) s.
Proof.
  revert s. induction p as [|c p IH]; intros s H; [by destruct s|]. destruct s as [|d s]; cbn in H; [done|].
  apply andb_true_iff in H as [E H]. apply Ascii.eqb_eq in E as ->. cbn. by rewrite <- IH.
Qed.

Lemma has_prefix_app p s : str_has_prefix p (p +:+ s) = true.
Proof. induction p as [|c p IH]; cbn; [done|]. by rewrite Ascii.eqb_refl. Qed.

Lemma str_drop_app p s : str_drop (String.length p) (p +:+ s) = s.
Proof. induction p as [|c p IH]; cbn; [by destruct s|done]. Qed.

Lemma str_ltb_lt a b : str_ltb a b = true <-> String.compare a b = Lt.
Proof. unfold str_ltb. destruct (String.compare a b); split; congruence. Qed.

Lemma str_ltb_trans a b c : str_ltb a b = true -> str_ltb b c = true -> str_ltb a c = true.
Proof. rewrite !str_ltb_lt. apply (cmp_trans (cmp := String.compare)). Qed.

Lemma str_ltb_irrefl a : str_ltb a a = false.
Proof. unfold str_ltb. by rewrite str_compare_refl. Qed.

Lemma str_compare_cons c a b : String.compare (String c a) (String c b) = String.compare a b.
Proof. cbn. by rewrite (proj2 (ascii_compare_eq c c)). Qed.

Lemma filter_perm {A} (P : A -> bool) (xs ys : list A) : xs ≡ₚ ys -> List.filter P xs ≡ₚ List.filter P ys.
Proof.
  induction 1 as [|x xs ys _ IH|x y xs|xs ys zs _ IH1 _ IH2]; cbn; [done| | |by etrans].
  - destruct (P x); [by constructor|done].
  - destruct (P x), (P y); try done. apply perm_swap.
Qed.

Lemma nodup_filtered {A K} (f : A -> K) (P : A -> bool) xs : NoDup (map f xs) -> NoDup (map f (List.filter P xs)).
Proof.
  induction xs as [|x xs IH]; cbn; [done|]. intros [Hx Hnd]%NoDup_cons. destruct (P x); cbn; [|by apply IH]. apply NoDup_cons.
  split; [|by apply IH]. intros (y & E & Hy)%list_elem_of_fmap. apply Hx. rewrite E. apply list_elem_of_fmap_2.
  apply list_elem_of_In, filter_In in Hy as [Hy _]. by apply list_elem_of_In.
Qed.

(** ** Sorting *)

Section Sorting.
Context {A K : Type} (f : A -> K) (c : K -> K -> comparison) `{!TotalCompare c}.
Let cmp := cmp_on f c.

Lemma insert_by_perm (x : A) xs : insert_by cmp x xs ≡ₚ x :: xs.
Proof.
  induction xs as [|y xs IH]; cbn; [done|].
  destruct (cmp x y); try done. rewrite IH. apply Permutation_swap.
Qed.

Lemma sort_by_perm xs : sort_by cmp xs ≡ₚ xs.
Proof. induction xs as [|x xs IH]; cbn; [done|]. by rewrite insert_by_perm, IH. Qed.

Lemma insert_by_sorted x xs :
  StronglySorted (fun a b => c (f a) (f b) <> Gt) xs ->
  StronglySorted (fun a b => c (f a) (f b) <> Gt) (insert_by cmp x xs).
Proof.
  induction 1 as [|y xs Hs IH Hall]; cbn [insert_by]; [repeat constructor|].
  unfold cmp at 1, cmp_on at 1. destruct (c (f x) (f y)) eqn:E.
  1,2: constructor; [by constructor|]; constructor; [congruence|];
    eapply Forall_impl; [exact Hall|]; cbn; intros z Hz;
    eapply (cmp_le_trans c); [|exact Hz]; congruence.
  constructor; [done|]. rewrite insert_by_perm. constructor; [|done].
  rewrite (cmp_opp (cmp := c) (f x) (f y)), E. done.
Qed.

Lemma sort_by_sorted xs : StronglySorted (fun a b => c (f a) (f b) <> Gt) (sort_by cmp xs).
Proof. induction xs as [|x xs IH]; cbn; [constructor|]. by apply insert_by_sorted. Qed.

(** With distinct keys the outcome is strictly sorted. *)
Lemma sort_by_strict xs : NoDup (f <$> xs) ->
  StronglySorted (fun a b => c (f a) (f b) = Lt) (sort_by cmp xs).
Proof.
  intros Hnd. assert (Hnd' : NoDup (f <$> sort_by cmp xs)) by (by rewrite sort_by_perm).
  pose proof (sort_by_sorted xs) as Hs. revert Hnd' Hs.
  induction (sort_by cmp xs) as [|x l IH]; intros Hnd' Hs; [constructor|].
  apply NoDup_cons in Hnd' as [Hnin Hnd']. inversion Hs as [|? ? Hs' Hall]; subst.
  constructor; [by apply IH|]. apply Forall_forall. intros y Hy.
  rewrite Forall_forall in Hall. specialize (Hall y Hy).
  destruct (c (f x) (f y)) eqn:E; try done.
  apply cmp_eq_iff in E. destruct Hnin. rewrite E. by apply list_elem_of_fmap_2.
Qed.

(** A list with distinct keys has one sorted form. *)
Lemma sort_by_same xs ys : NoDup (f <$> xs) -> xs ≡ₚ ys -> sort_by cmp xs = sort_by cmp ys.
Proof.
  intros Hnd Hp. apply (sorting.StronglySorted_unique_strong (fun a b => c (f a) (f b) = Lt)).
  - intros x y _ _ Hxy Hyx. rewrite (cmp_opp (cmp := c) (f x) (f y)), Hxy in Hyx. done.
  - by apply sort_by_strict.
  - apply sort_by_strict. by rewrite <- Hp.
  - by rewrite !sort_by_perm.
Qed.

(** The first of the sorted list that passes a test is the least that does. *)
Lemma find_least (P : A -> bool) xs : NoDup (f <$> xs) ->
  match List.find P (sort_by cmp xs) with
  | Some x => x ∈ xs /\ P x = true /\ forall y, y ∈ xs -> P y = true -> y = x \/ c (f x) (f y) = Lt
  | None => forall y, y ∈ xs -> P y = false
  end.
Proof.
  intros Hnd. pose proof (sort_by_strict xs Hnd) as Hs.
  assert (Hin : forall y, y ∈ xs <-> y ∈ sort_by cmp xs) by (intros y; by rewrite sort_by_perm).
  enough (match List.find P (sort_by cmp xs) with
          | Some x => x ∈ sort_by cmp xs /\ P x = true /\ forall y, y ∈ sort_by cmp xs -> P y = true -> y = x \/ c (f x) (f y) = Lt
          | None => forall y, y ∈ sort_by cmp xs -> P y = false
          end) as H.
  { destruct (List.find _ _) as [x|]; [|intros y Hy; by apply H, Hin]. destruct H as (H1 & H2 & H3).
    split; [by apply Hin|]. split; [done|]. intros y Hy. by apply H3, Hin. }
  clear Hin Hnd. induction Hs as [|x l Hs IH Hall]; cbn [List.find]; [by intros y Hy%elem_of_nil|].
  rewrite Forall_forall in Hall. destruct (P x) eqn:E.
  - split; [by left|]. split; [done|]. intros y [->|Hy]%elem_of_cons _; [by left|]. right. by apply Hall.
  - destruct (List.find P l) as [z|].
    + destruct IH as (Hz & HPz & Hl). split; [by right|]. split; [done|].
      intros y [->|Hy]%elem_of_cons HPy; [congruence|]. by apply Hl.
    + intros y [->|Hy]%elem_of_cons; [done|]. by apply IH.
Qed.

Lemma filter_sorted (P : A -> bool) (R : A -> A -> Prop) xs : StronglySorted R xs -> StronglySorted R (List.filter P xs).
Proof.
  induction 1 as [|x xs Hs IH Hall]; cbn; [constructor|]. destruct (P x); [|done]. constructor; [done|].
  rewrite List.Forall_forall in *. intros y [Hy _]%filter_In. by apply Hall.
Qed.

(** What is taken of a sorted list, and what is taken and then sorted. *)
Lemma filter_sort_by (P : A -> bool) xs : NoDup (f <$> xs) -> List.filter P (sort_by cmp xs) = sort_by cmp (List.filter P xs).
Proof.
  intros Hnd. apply (sorting.StronglySorted_unique_strong (fun a b => c (f a) (f b) = Lt)).
  - intros x y _ _ Hxy Hyx. rewrite (cmp_opp (cmp := c) (f x) (f y)), Hxy in Hyx. done.
  - by apply filter_sorted, sort_by_strict.
  - by apply sort_by_strict, nodup_filtered.
  - etransitivity; [apply filter_perm, sort_by_perm|]. by rewrite sort_by_perm.
Qed.

(** What comes after an element of the sorted list is what is greater. *)
Lemma sorted_after p a q : StronglySorted (fun a b => c (f a) (f b) = Lt) (p ++ a :: q) ->
  List.filter (fun b => match c (f b) (f a) with Gt => true | _ => false end) (p ++ a :: q) = q.
Proof.
  induction p as [|x p IH]; intros H; cbn [app List.filter] in *; inversion H as [|? ? Hs Hall]; subst.
  - rewrite (cmp_refl c). clear H Hs. induction q as [|y q IH]; [done|].
    apply Forall_cons in Hall as [H Hall]. cbn [List.filter]. rewrite (cmp_opp (cmp := c) (f a) (f y)), H. cbn. f_equal. by apply IH.
  - rewrite Forall_forall in Hall. rewrite (Hall a) by set_solver. by apply IH.
Qed.

(** What comes before an element of the sorted list is what is less. *)
Lemma sorted_before p a q : StronglySorted (fun a b => c (f a) (f b) = Lt) (p ++ a :: q) ->
  List.filter (fun b => match c (f b) (f a) with Lt => true | _ => false end) (p ++ a :: q) = p.
Proof.
  induction p as [|x p IH]; intros H; cbn [app List.filter] in *.
  - rewrite (cmp_refl c). inversion H as [|? ? _ Hall]; subst. clear H. induction q as [|y q IH]; [done|].
    apply Forall_cons in Hall as [H Hall]. cbn [List.filter]. rewrite (cmp_opp (cmp := c) (f a) (f y)), H. by apply IH.
  - inversion H as [|? ? Hs Hall]; subst. rewrite Forall_forall in Hall. rewrite (Hall a) by set_solver. f_equal. by apply IH.
Qed.
End Sorting.

Lemma cmp_flip_total {K} (c : K -> K -> comparison) `{!TotalCompare c} : TotalCompare (fun x y => c y x).
Proof.
  split.
  - intros x y. rewrite cmp_eq_iff. by split.
  - intros x y. apply cmp_opp.
  - intros x y z H1 H2. by apply (cmp_trans (cmp := c) z y x).
Qed.

(** The elements of a list a decidable property holds of, as a set of keys. *)
Lemma size_of_keys {A K} `{Countable K} (key : A -> K) (P : A -> bool) (xs : list A) (S : gset K) :
  NoDup (key <$> xs) -> (forall k, k ∈ S <-> exists a, a ∈ xs /\ key a = k /\ P a = true) ->
  size S = List.length (List.filter P xs).
Proof.
  intros Hnd HS. assert (Hkeys : NoDup (key <$> List.filter P xs)).
  { clear HS. induction xs as [|x xs IH]; [constructor|]. rewrite fmap_cons in Hnd. apply NoDup_cons in Hnd as [Hx Hnd].
    cbn. destruct (P x); [|by apply IH]. rewrite fmap_cons. apply NoDup_cons. split; [|by apply IH].
    intros Hin. apply list_elem_of_fmap in Hin as (y & E & Hy). apply Hx. rewrite E.
    apply list_elem_of_In, filter_In in Hy as [Hy _]. apply list_elem_of_fmap. exists y. split; [done|by apply list_elem_of_In]. }
  rewrite <- (length_fmap key), <- (size_list_to_set (C := gset K) _ Hkeys). f_equal. apply set_eq. intros k.
  rewrite HS, elem_of_list_to_set, list_elem_of_fmap. split.
  - intros (a & Ha & <- & HP). exists a. split; [done|]. by apply list_elem_of_In, filter_In; split; [apply list_elem_of_In|].
  - intros (a & -> & Ha). apply list_elem_of_In, filter_In in Ha as [Ha HP]. exists a. split; [by apply list_elem_of_In|done].
Qed.
