(* ===== verification/Shared.v ===== *)
(** * The shared kernel: errors, identifiers, instants

    Models core/domain/model/shared/Errors.go and ID.go, and the part of Go's
    [time] package the domain uses.  An error is the value the domain returns:
    its category, stable code, detail code, parameters and field errors; the
    wrapped cause is for logs only and is not modelled.  The parameter maps of
    the source are literals with distinct keys, kept here as association
    lists. *)

From Stdlib Require Import ZArith Lia String Ascii List Bool.
From stdpp Require Import base list strings pretty.
From S2P Require Import Prelude.

Open Scope string_scope.
Open Scope list_scope.
Open Scope Z_scope.

(** ** Errors.go *)

Inductive Category : Type :=
  | CategoryValidation | CategoryNotFound | CategoryConflict | CategoryForbidden
  | CategoryUnauthenticated | CategoryGone | CategoryRateLimited | CategoryUnavailable
  | CategoryInternal.

#[export] Instance category_eq_dec : EqDecision Category.
Proof. solve_decision. Defined.

Definition params := list (string * string).

Record FieldError := mkFieldError { fe_path : string; fe_code : string; fe_params : params }.

Record Error := mkError {
  err_category : Category;
  err_code : string;
  err_detail : string;
  err_params : params;
  err_fields : list FieldError
}.

#[export] Instance field_error_eq_dec : EqDecision FieldError.
Proof. solve_decision. Defined.
#[export] Instance error_eq_dec : EqDecision Error.
Proof. solve_decision. Defined.

(** The type of a fallible domain function. *)
Abbreviation res := (result Error).

Definition New (category : Category) (code : string) : Error := mkError category code "" [] [].
Definition WithParams (e : Error) (p : params) : Error :=
  mkError (err_category e) (err_code e) (err_detail e) p (err_fields e).
Definition WithDetail (e : Error) (d : string) : Error :=
  mkError (err_category e) (err_code e) d (err_params e) (err_fields e).
Definition WithFields (e : Error) (f : list FieldError) : Error :=
  mkError (err_category e) (err_code e) (err_detail e) (err_params e) f.

Definition ErrValidation := New CategoryValidation "validation_failed".
Definition ErrNotFound := New CategoryNotFound "not_found".
Definition ErrConflict := New CategoryConflict "conflict".
Definition ErrVersionConflict := New CategoryConflict "version_conflict".
Definition ErrForbidden := New CategoryForbidden "forbidden".
Definition ErrUnauthenticated := New CategoryUnauthenticated "unauthenticated".
Definition ErrRateLimited := New CategoryRateLimited "rate_limited".
Definition ErrGone := New CategoryGone "gone".
Definition ErrUnavailable := New CategoryUnavailable "dependency_unavailable".
Definition ErrInternal := New CategoryInternal "internal".
Definition ErrCapabilityNotSupported := New CategoryValidation "capability_not_supported".

(** [errors.Is(err, shared.ErrNotFound)]: code and category agree ([Error.Is]). *)
Definition is_not_found (e : Error) : bool :=
  String.eqb (err_code e) (err_code ErrNotFound) && bool_decide (err_category e = err_category ErrNotFound).

(** The two shapes the domain builds again and again: an error with a detail
    code, and a validation error that names the field it is about. *)
Definition detailed (e : Error) (code : string) (p : params) : Error :=
  WithParams (WithDetail e code) p.
Definition field_refused (e : Error) (path code : string) (p : params) : Error :=
  WithFields (detailed e code p) [mkFieldError path code []].

(** [strconv.Itoa]. *)
Definition itoa (z : Z) : string := pretty z.

(** ** ID.go *)

Abbreviation ID := string.

Definition id_is_zero (id : ID) : bool := String.eqb id "".

Definition uuidLength : nat := 36.

Definition is_uuid_char (i : nat) (c : ascii) : bool :=
  if existsb (Nat.eqb i) [8; 13; 18; 23]%nat then Ascii.eqb c "-"
  else
    let n := N_of_ascii c in
    ((48 <=? n) && (n <=? 57) || (97 <=? n) && (n <=? 102))%N.

Fixpoint all_uuid_chars (i : nat) (raw : string) : bool :=
  match raw with
  | EmptyString => true
  | String c rest => is_uuid_char i c && all_uuid_chars (S i) rest
  end.

Definition looksLikeUUID (raw : string) : bool :=
  Nat.eqb (String.length raw) uuidLength && all_uuid_chars 0 raw.

Definition ParseID (raw : string) : res ID :=
  if looksLikeUUID raw then Ok raw
  else Err (detailed ErrValidation "shared.id_malformed" [("value", raw)]).

Definition IsUUIDv7 (id : ID) : bool :=
  Nat.eqb (String.length id) uuidLength && str_has_prefix "7" (str_drop 14 id).

(** ** Instants and durations

    An instant is a count of nanoseconds since the Unix epoch, in UTC; the
    zero [time.Time] is the first instant of year 1.  A duration is a count of
    nanoseconds in a signed 64-bit integer. *)

Abbreviation Time := Z (only parsing).
Abbreviation Duration := Z (only parsing).

Definition nanosecond : Z := 1.
Definition Millisecond : Z := 1000000.
Definition Second : Z := 1000 * Millisecond.
Definition Minute : Z := 60 * Second.
Definition Hour : Z := 60 * Minute.

Definition zero_time : Z := -62135596800 * Second.
Definition time_is_zero (t : Z) : bool := t =? zero_time.

(** [time.Time.Truncate(time.Millisecond)]: down to the millisecond, counted
    from the zero time, which is itself a whole millisecond. *)
Definition truncate_ms (t : Z) : Z := t - t mod Millisecond.

Definition max_duration : Z := 2 ^ 63 - 1.
Definition min_duration : Z := - 2 ^ 63.

(** [time.Time.Sub] saturates at the ends of the duration range. *)
Definition time_sub (t u : Z) : Z := Z.max min_duration (Z.min max_duration (t - u)).

(** Negation of an [int64] wraps at its least value. *)
Definition neg_int64 (d : Z) : Z := if d =? min_duration then min_duration else - d.

(** A product of durations wraps in its 64 bits. *)
Definition wrap_int64 (z : Z) : Z := (z + 2 ^ 63) mod 2 ^ 64 - 2 ^ 63.

(** ** Lemmas *)

Lemma wrap_int64_id z : min_duration <= z <= max_duration -> wrap_int64 z = z.
Proof. unfold wrap_int64, min_duration, max_duration. intros H. rewrite Z.mod_small; lia. Qed.

Lemma truncate_ms_idem t : truncate_ms (truncate_ms t) = truncate_ms t.
Proof.
  unfold truncate_ms. rewrite <- (Z.mul_1_l (t mod _)) at 2.
  replace ((t - 1 * (t mod Millisecond)) mod Millisecond) with 0; [lia|].
  rewrite Zminus_mod, Z.mul_1_l, Z.mod_mod by done. by rewrite Z.sub_diag.
Qed.

Lemma truncate_ms_div t : truncate_ms t = Millisecond * (t / Millisecond).
Proof. unfold truncate_ms. pose proof (Z.div_mod t Millisecond). unfold Millisecond in *. lia. Qed.
