(* ===== verification/Effects.v ===== *)
(** * Effects: steps of a server

    A use case takes the state of the server and gives the state it leaves with
    a value or an error.  This file has the monad of such steps, the loop over a
    list, and the two shapes the application services handle errors in: a unit
    of work that takes back what a refused step changed, and a call whose "not
    found" is looked at rather than passed on. *)

From Stdlib Require Import String List.
From stdpp Require Import base list.
From S2P Require Import Prelude Shared.

(** ** Steps

    A step of the server takes its state and gives the state it leaves and a
    value or an error.  A step that refuses may have changed the state before
    it did; [within] is the unit of work, which takes that back. *)

Section Effects.
Context {W : Type}.

Definition M (A : Type) : Type := W -> W * res A.

Definition ret {A} (a : A) : M A := fun w => (w, Ok a).
Definition fail {A} (e : Error) : M A := fun w => (w, Err e).
Definition bind {A B} (c : M A) (k : A -> M B) : M B := fun w =>
  match c w with
  | (w', Ok a) => k a w'
  | (w', Err e) => (w', Err e)
  | (w', Panic) => (w', Panic)
  end.
Definition lift {A} (r : res A) : M A := fun w => (w, r).
Definition query {A} (f : W -> res A) : M A := fun w => (w, f w).
Definition within {A} (c : M A) : M A := fun w =>
  match c w with (w', Ok a) => (w', Ok a) | (_, r) => (w, r) end.
(** The call's error is looked at rather than passed on. *)
Definition attempt {A} (c : M A) : M (A + Error) := fun w =>
  match c w with
  | (w', Ok a) => (w', Ok (inl a))
  | (w', Err e) => (w', Ok (inr e))
  | (w', Panic) => (w', Panic)
  end.
Definition skip : M unit := ret tt.

(** A loop whose first error ends it. *)
Fixpoint for_each {X} (f : X -> M unit) (xs : list X) : M unit :=
  match xs with [] => skip | x :: rest => bind (f x) (fun _ => for_each f rest) end.

(** [errors.Is(err, shared.ErrNotFound)] after a call: nothing for what is not
    there, any other error is passed on. *)
Definition found {A} (c : M A) : M (option A) := fun w =>
  match c w with
  | (w', Ok a) => (w', Ok (Some a))
  | (w', Err e) => if is_not_found e then (w', Ok None) else (w', Err e)
  | (w', Panic) => (w', Panic)
  end.
End Effects.
Arguments M W A : clear implicits.

Declare Scope effect_scope.
Notation "x <~ c ; k" := (bind c (fun x => k)) (at level 100, c at next level, right associativity) : effect_scope.
Notation "c ;; k" := (bind c (fun _ => k)) (at level 100, right associativity) : effect_scope.

(** ** Steps that answer *)

Lemma bind_run {W A B} (c : M W A) (k : A -> M W B) w w' b : bind c k w = (w', Ok b) ->
  exists a w1, c w = (w1, Ok a) /\ k a w1 = (w', Ok b).
Proof. unfold bind. destruct (c w) as [w1 [a|e|]]; intros H; try discriminate. by exists a, w1. Qed.

Lemma found_run {W A} (c : M W A) w w' o : found c w = (w', Ok o) ->
  match o with
  | Some a => c w = (w', Ok a)
  | None => exists e, is_not_found e = true /\ c w = (w', Err e)
  end.
Proof.
  unfold found. destruct (c w) as [w1 [a|e|]]; [by intros [= <- <-]| |done].
  destruct (is_not_found e) eqn:E; [|done]. intros [= <- <-]. by exists e.
Qed.

Lemma lift_run {W A} (r : res A) (w w' : W) a : lift r w = (w', Ok a) -> w' = w /\ r = Ok a.
Proof. by intros [= <- ->]. Qed.

(** Splits a run that answered into the runs of its parts. *)
Ltac runs :=
  repeat match goal with
  | H : bind _ _ _ = (_, Ok _) |- _ => let a := fresh "a" in let w := fresh "w" in apply bind_run in H as (a & w & ? & H)
  | H : lift _ _ = (_, Ok _) |- _ => apply lift_run in H as [-> H]
  | H : ret _ _ = (_, Ok _) |- _ => injection H as <- <-
  | H : skip _ = (_, Ok _) |- _ => injection H as <- <-
  end.
