(* ===== verification/Hlc.v ===== *)
(** * The hybrid logical clock

    Models core/domain/model/shared/HLC.go: the clock reading every field
    change carries, its advance ([Tick]), its textual form and its order.  The
    theorems: the order is total and the textual form is faithful to it (a
    database index over the text sorts readings in clock order), the text
    parses back to the reading, and ticks only move forward. *)

From Stdlib Require Import ZArith Lia String Ascii List Bool Sorting.Sorted.
From stdpp Require Import base list strings.
From S2P Require Import Prelude Shared.

Open Scope string_scope.
Open Scope list_scope.
Open Scope Z_scope.

(** ** Decimal digits: [fmt.Sprintf] with [%0*d], [strconv.ParseInt],
    [strconv.ParseUint] *)

Definition digit_char (d : Z) : ascii := ascii_of_N (Z.to_N (48 + d)).

(** The decimal digits of [n] in front of [acc]; [fuel] bounds their number. *)
Fixpoint decimal (fuel : nat) (n : Z) (acc : string) : string :=
  match fuel with
  | O => acc
  | S fuel' =>
      let acc' := String (digit_char (n mod 10)) acc in
      if n / 10 =? 0 then acc' else decimal fuel' (n / 10) acc'
  end.

(** A decimal number has at most as many digits as it has bits, plus one. *)
Definition decimal_of (n : Z) : string := decimal (S (Z.to_nat (Z.log2 n))) n "".

Fixpoint zeros (n : nat) : string :=
  match n with O => "" | S n' => String "0" (zeros n') end.

(** [fmt.Sprintf("%0*d", width, n)]: the sign counts towards the width. *)
Definition pad0 (width : nat) (n : Z) : string :=
  if n <? 0 then
    let s := decimal_of (- n) in
    String "-" (zeros (width - 1 - String.length s) +:+ s)
  else
    let s := decimal_of n in
    zeros (width - String.length s) +:+ s.

Definition digit_value (c : ascii) : option Z :=
  let n := Z.of_N (N_of_ascii c) in
  if (48 <=? n) && (n <=? 57) then Some (n - 48) else None.

Fixpoint parse_digits (acc : Z) (s : string) : option Z :=
  match s with
  | EmptyString => Some acc
  | String c rest =>
      match digit_value c with
      | Some d => parse_digits (10 * acc + d) rest
      | None => None
      end
  end.

Definition parse_nonempty (s : string) : option Z :=
  match s with EmptyString => None | _ => parse_digits 0 s end.

(** [strconv.ParseInt(s, 10, 64)]: an optional sign, digits, and the range of
    a signed 64-bit integer. *)
Definition ParseInt (s : string) : option Z :=
  let '(negative, digits) :=
    match s with
    | String c rest =>
        if Ascii.eqb c "-" then (true, rest)
        else if Ascii.eqb c "+" then (false, rest)
        else (false, s)
    | EmptyString => (false, s)
    end in
  match parse_nonempty digits with
  | None => None
  | Some n =>
      if negative then if n <=? 2 ^ 63 then Some (- n) else None
      else if n <=? 2 ^ 63 - 1 then Some n else None
  end.

(** [strconv.ParseUint(s, 10, 32)]: digits only. *)
Definition ParseUint32 (s : string) : option Z :=
  match parse_nonempty s with
  | Some n => if n <=? 2 ^ 32 - 1 then Some n else None
  | None => None
  end.

(** ** The clock *)

Record HLC := mkHLC { hlc_physical : Z; hlc_counter : Z; hlc_device : string }.

#[export] Instance hlc_eq_dec : EqDecision HLC.
Proof. solve_decision. Defined.

(** [HLC{}], the absent reading. *)
Definition zero_hlc : HLC := mkHLC zero_time 0 "".

Definition hlcPhysicalDigits : nat := 13.
Definition hlcCounterDigits : nat := 5.
Definition hlcMaxCounter : Z := 99999.

Definition hlc_is_zero (h : HLC) : bool := time_is_zero (hlc_physical h).

Definition NewHLC (physical counter : Z) (device : string) : res HLC :=
  if time_is_zero physical then Err (detailed ErrInternal "sync.hlc_incomplete" [])
  else if String.eqb device "" || str_contains ":" device then
    Err (detailed ErrInternal "sync.hlc_device_malformed" [("device", device)])
  else if hlcMaxCounter <? counter then
    Err (detailed ErrInternal "sync.hlc_counter_exhausted" [])
  else Ok (mkHLC (truncate_ms physical) counter device).

Definition Tick (h : HLC) (now : Z) (device : string) : res HLC :=
  let now := truncate_ms now in
  if hlc_is_zero h || (hlc_physical h <? now) then NewHLC now 0 device
  else if hlcMaxCounter <=? hlc_counter h then
    NewHLC (hlc_physical h + Millisecond) 0 device
  else NewHLC (hlc_physical h) (hlc_counter h + 1) device.

(** [UnixMilli] of the instant: whole milliseconds since the epoch. *)
Definition unix_milli (t : Z) : Z := t / Millisecond.

Definition hlc_string (h : HLC) : string :=
  if hlc_is_zero h then ""
  else pad0 hlcPhysicalDigits (unix_milli (hlc_physical h)) +:+
       String ":" (pad0 hlcCounterDigits (hlc_counter h) +:+ String ":" (hlc_device h)).

Definition ParseHLC (raw : string) : res HLC :=
  let malformed := detailed ErrValidation "sync.hlc_malformed" [("value", raw)] in
  match str_cut ":" raw with
  | None => Err malformed
  | Some (physical, rest) =>
      match str_cut ":" rest with
      | None => Err malformed
      | Some (counter, device) =>
          if String.eqb device "" then Err malformed
          else match ParseInt physical with
          | None => Err malformed
          | Some milliseconds =>
              if milliseconds <? 0 then Err malformed
              else match ParseUint32 counter with
              | None => Err malformed
              | Some ticks =>
                  if hlcMaxCounter <? ticks then Err malformed
                  else Ok (mkHLC (milliseconds * Millisecond) ticks device)
              end
          end
      end
  end.

(** The comparison of two readings; the source answers -1, 0 and 1. *)
Definition hlc_compare (h other : HLC) : comparison :=
  if negb (hlc_physical h =? hlc_physical other) then
    if hlc_physical h <? hlc_physical other then Lt else Gt
  else if negb (hlc_counter h =? hlc_counter other) then
    if hlc_counter h <? hlc_counter other then Lt else Gt
  else String.compare (hlc_device h) (hlc_device other).

Definition After (h other : HLC) : bool :=
  match hlc_compare h other with Gt => true | _ => false end.

(** A reading the textual form can carry: a whole millisecond of the years
    1970 to 2286, a counter in range, a device without the separator. *)
Definition hlc_storable (h : HLC) : Prop :=
  hlc_physical h mod Millisecond = 0 /\
  0 <= unix_milli (hlc_physical h) < 10 ^ 13 /\
  0 <= hlc_counter h <= hlcMaxCounter /\
  hlc_device h <> "" /\ str_contains ":" (hlc_device h) = false.

(** ** The order *)

Definition hlc_key (h : HLC) : Z * (Z * string) :=
  (hlc_physical h, (hlc_counter h, hlc_device h)).

Lemma hlc_compare_key a b :
  hlc_compare a b =
  cmp_on hlc_key (cmp_pair Z.compare (cmp_pair Z.compare String.compare)) a b.
Proof.
  destruct a as [p c d], b as [p' c' d'].
  unfold hlc_compare, cmp_on, cmp_pair, cmp_or; cbn.
  destruct (Z.compare_spec p p'), (Z.compare_spec c c'); subst; rewrite ?Z.eqb_refl; cbn; try done;
    repeat match goal with |- context [?x =? ?y] => destruct (Z.eqb_spec x y); cbn; try lia end;
    repeat match goal with |- context [?x <? ?y] => destruct (Z.ltb_spec x y); cbn; try lia end; done.
Qed.

#[export] Instance hlc_total_compare : TotalCompare hlc_compare.
Proof.
  assert (H : TotalCompare (cmp_on hlc_key (cmp_pair Z.compare (cmp_pair Z.compare String.compare)))).
  { apply cmp_on_total; [apply _|]. unfold hlc_key. intros [] []; cbn. congruence. }
  split; intros; rewrite !hlc_compare_key in *.
  - apply (cmp_eq_iff (TotalCompare := H)).
  - apply (cmp_opp (TotalCompare := H)).
  - by eapply (cmp_trans (TotalCompare := H)).
Qed.

Lemma after_gt a b : After a b = true <-> hlc_compare a b = Gt.
Proof. unfold After. destruct (hlc_compare a b); split; congruence || done. Qed.

Lemma after_irrefl a : After a a = false.
Proof. unfold After. by rewrite (cmp_refl hlc_compare). Qed.

Lemma after_trans a b c : After a b = true -> After b c = true -> After a c = true.
Proof. rewrite !after_gt. apply (cmp_gt_trans hlc_compare). Qed.

Lemma after_asym a b : After a b = true -> After b a = false.
Proof.
  intros H. destruct (After b a) eqn:E; [|done].
  pose proof (after_trans _ _ _ H E). by rewrite after_irrefl in *.
Qed.

(** ** Fixed-width decimals *)

(** The [w] low decimal digits of [n]. *)
Fixpoint fixed (w : nat) (n : Z) : string :=
  match w with
  | O => ""
  | S w' => fixed w' (n / 10) +:+ String (digit_char (n mod 10)) ""
  end.

Lemma digit_char_N d : 0 <= d < 10 -> N_of_ascii (digit_char d) = Z.to_N (48 + d).
Proof. intros H. unfold digit_char. apply N_ascii_embedding. lia. Qed.

Lemma digit_char_value d : 0 <= d < 10 -> digit_value (digit_char d) = Some d.
Proof.
  intros H. unfold digit_value. rewrite digit_char_N by done. rewrite Z2N.id by lia.
  destruct (Z.leb_spec 48 (48 + d)), (Z.leb_spec (48 + d) 57); cbn; try lia. f_equal; lia.
Qed.

Lemma digit_char_compare d e : 0 <= d < 10 -> 0 <= e < 10 ->
  Ascii.compare (digit_char d) (digit_char e) = (d ?= e).
Proof.
  intros Hd He. unfold Ascii.compare. rewrite !digit_char_N by done.
  destruct (Z.compare_spec d e); subst.
  - apply N.compare_refl.
  - apply N.compare_lt_iff. lia.
  - apply N.compare_gt_iff. lia.
Qed.

Lemma pow10_S w : 10 ^ Z.of_nat (S w) = 10 * 10 ^ Z.of_nat w.
Proof. rewrite Nat2Z.inj_succ, Z.pow_succ_r by lia. done. Qed.

Lemma div10_lt w n : n < 10 ^ Z.of_nat (S w) -> n / 10 < 10 ^ Z.of_nat w.
Proof. rewrite pow10_S. intros H. apply Z.div_lt_upper_bound; lia. Qed.

Lemma mod10_bound n : 0 <= n mod 10 < 10.
Proof. apply Z.mod_pos_bound. lia. Qed.
#[export] Hint Resolve mod10_bound div10_lt : hub.

Lemma zeros_snoc j : zeros j +:+ "0" = zeros (S j).
Proof. induction j as [|j IH]; [done|]. cbn in *. by rewrite IH. Qed.

Lemma fixed_zeros j k n : 0 <= n < 10 ^ Z.of_nat k ->
  fixed (j + k) n = zeros j +:+ fixed k n.
Proof.
  revert n. induction k as [|k IH]; intros n Hn.
  - rewrite Nat.add_0_r. assert (n = 0) as -> by (cbn in Hn; lia). rewrite str_app_nil_r.
    clear Hn. induction j as [|j IH]; [done|].
    change (fixed (S j) 0) with (fixed j 0 +:+ "0"). by rewrite IH, zeros_snoc.
  - rewrite Nat.add_succ_r. cbn [fixed]. rewrite IH, str_app_assoc; [done|].
    split; [apply Z.div_pos; lia|]. apply div10_lt. lia.
Qed.

Lemma fixed_length w n : String.length (fixed w n) = w.
Proof. revert n. induction w as [|w IH]; intros n; cbn; [done|]. rewrite str_app_length, IH. cbn. lia. Qed.

Lemma decimal_fixed fuel n acc : 0 <= n < 10 ^ Z.of_nat fuel -> fuel <> O ->
  exists k, decimal fuel n acc = fixed k n +:+ acc /\ 0 <= n < 10 ^ Z.of_nat k /\
            (n <> 0 -> 10 ^ (Z.of_nat k - 1) <= n) /\ (n = 0 -> k = 1%nat) /\ k <> O.
Proof.
  revert n acc. induction fuel as [|fuel IH]; intros n acc Hn Hf; [done|]. cbn [decimal].
  pose proof (Z.div_mod n 10). pose proof (mod10_bound n).
  destruct (Z.eqb_spec (n / 10) 0) as [E|E].
  - exists 1%nat. cbn. split; [done|]. repeat split; try lia.
  - assert (0 < n / 10) by (pose proof (Z.div_pos n 10); lia).
    destruct fuel as [|fuel]; [cbn in Hn; lia|].
    destruct (IH (n / 10) (String (digit_char (n mod 10)) acc)) as (k & Hk & Hb & Hl & _ & Hk0); [|done|].
    { split; [lia|]. apply div10_lt. lia. }
    exists (S k). cbn [fixed]. rewrite Hk, <- str_app_assoc. split; [done|].
    rewrite pow10_S. specialize (Hl E).
    replace (Z.of_nat (S k) - 1) with (Z.succ (Z.of_nat k - 1)) by lia.
    rewrite Z.pow_succ_r by lia. repeat split; lia.
Qed.

Lemma decimal_of_bound n : 0 <= n -> n < 10 ^ Z.of_nat (S (Z.to_nat (Z.log2 n))).
Proof.
  intros Hn. destruct (Z.eq_dec n 0) as [->|Hz]; [done|].
  destruct (Z.log2_spec n) as [_ H]; [lia|].
  eapply Z.lt_le_trans; [exact H|].
  rewrite Nat2Z.inj_succ, Z2Nat.id by apply Z.log2_nonneg.
  apply Z.pow_le_mono_l. pose proof (Z.log2_nonneg n). lia.
Qed.

(** Zero padding to [w] digits is exact for a number of at most [w] digits. *)
Lemma pad0_fixed w n : w <> O -> 0 <= n < 10 ^ Z.of_nat w -> pad0 w n = fixed w n.
Proof.
  intros Hw Hn. unfold pad0. destruct (Z.ltb_spec n 0); [lia|].
  unfold decimal_of.
  destruct (decimal_fixed (S (Z.to_nat (Z.log2 n))) n "") as (k & Hk & Hb & Hl & Hz & Hk0); [|done|].
  { split; [lia|]. by apply decimal_of_bound. }
  rewrite Hk, str_app_nil_r, fixed_length.
  assert (k <= w)%nat.
  { destruct (Z.eq_dec n 0) as [E|E]; [rewrite Hz by done; lia|].
    specialize (Hl E). assert (Z.of_nat k - 1 < Z.of_nat w); [|lia].
    apply (Z.pow_lt_mono_r_iff 10); lia. }
  rewrite <- fixed_zeros by done. f_equal. lia.
Qed.

Lemma fixed_compare w a b s t :
  0 <= a < 10 ^ Z.of_nat w -> 0 <= b < 10 ^ Z.of_nat w ->
  String.compare (fixed w a +:+ s) (fixed w b +:+ t) = cmp_or (a ?= b) (String.compare s t).
Proof.
  revert a b s t. induction w as [|w IH]; intros a b s t Ha Hb.
  - cbn in *. assert (a = 0) as -> by lia. assert (b = 0) as -> by lia. done.
  - cbn [fixed]. rewrite <- !str_app_assoc, IH; cbn [String.append String.compare].
    + rewrite digit_char_compare by apply mod10_bound.
      pose proof (Z.div_mod a 10). pose proof (Z.div_mod b 10).
      pose proof (mod10_bound a). pose proof (mod10_bound b). unfold cmp_or.
      destruct (Z.compare_spec a b), (Z.compare_spec (a / 10) (b / 10)),
        (Z.compare_spec (a mod 10) (b mod 10)); try done; exfalso; subst; lia.
    + split; [apply Z.div_pos; lia|apply div10_lt; lia].
    + split; [apply Z.div_pos; lia|apply div10_lt; lia].
Qed.

Lemma parse_digits_fixed w n acc r : 0 <= n < 10 ^ Z.of_nat w ->
  parse_digits acc (fixed w n +:+ r) = parse_digits (acc * 10 ^ Z.of_nat w + n) r.
Proof.
  revert n acc r. induction w as [|w IH]; intros n acc r Hn.
  - cbn in *. f_equal. lia.
  - cbn [fixed]. rewrite <- str_app_assoc, IH; cbn [String.append parse_digits].
    + rewrite digit_char_value by apply mod10_bound. f_equal. rewrite pow10_S.
      pose proof (Z.div_mod n 10). lia.
    + split; [apply Z.div_pos; lia|apply div10_lt; lia].
Qed.

Lemma fixed_no_char c w n : digit_value c = None -> str_contains c (fixed w n) = false.
Proof.
  intros Hc. revert n. induction w as [|w IH]; intros n; cbn; [done|].
  rewrite str_contains_app, IH. cbn. rewrite orb_false_r. apply Ascii.eqb_neq. intros E.
  rewrite <- E, digit_char_value in Hc by apply mod10_bound. done.
Qed.

(** ** The textual form *)

Lemma pow10_counter : hlcMaxCounter < 10 ^ Z.of_nat hlcCounterDigits.
Proof. done. Qed.

(** The text of a storable reading, field by field. *)
Lemma hlc_string_storable h : hlc_storable h ->
  hlc_string h = fixed hlcPhysicalDigits (unix_milli (hlc_physical h)) +:+
    String ":" (fixed hlcCounterDigits (hlc_counter h) +:+ String ":" (hlc_device h)).
Proof.
  intros (Hms & Hp & Hc & _ & _). unfold hlc_string.
  assert (hlc_is_zero h = false) as ->.
  { unfold hlc_is_zero, time_is_zero. apply Z.eqb_neq. intros E. rewrite E in Hp.
    destruct Hp as [Hp _]. vm_compute in Hp. congruence. }
  pose proof pow10_counter. rewrite !pad0_fixed; (done || split; try lia).
Qed.

Lemma storable_physical h : hlc_storable h ->
  unix_milli (hlc_physical h) * Millisecond = hlc_physical h.
Proof.
  intros (Hms & _). unfold unix_milli. pose proof (Z.div_mod (hlc_physical h) Millisecond).
  unfold Millisecond in *. lia.
Qed.

Lemma parse_int_fixed w n : w <> O -> 0 <= n < 10 ^ Z.of_nat w -> n <= 2 ^ 63 - 1 ->
  ParseInt (fixed w n) = Some n.
Proof.
  intros Hw Hn Hmax.
  assert (Hsign : forall c, digit_value c = None -> str_contains c (fixed w n) = false)
    by (intros; by apply fixed_no_char).
  pose proof (Hsign "-"%char eq_refl) as Hminus. pose proof (Hsign "+"%char eq_refl) as Hplus.
  pose proof (parse_digits_fixed w n 0 "" Hn) as Hparse. rewrite str_app_nil_r in Hparse.
  pose proof (fixed_length w n) as Hlen. unfold ParseInt.
  destruct (fixed w n) as [|c s]; [cbn in Hlen; lia|]. cbn in Hminus, Hplus.
  apply orb_false_iff in Hminus as [-> _]. apply orb_false_iff in Hplus as [-> _].
  unfold parse_nonempty. rewrite Hparse. cbn [parse_digits].
  rewrite Z.mul_0_l, Z.add_0_l. by rewrite (proj2 (Z.leb_le _ _) Hmax).
Qed.

Lemma parse_uint_fixed w n : w <> O -> 0 <= n < 10 ^ Z.of_nat w -> n <= 2 ^ 32 - 1 ->
  ParseUint32 (fixed w n) = Some n.
Proof.
  intros Hw Hn Hmax. unfold ParseUint32, parse_nonempty.
  pose proof (parse_digits_fixed w n 0 "" Hn) as Hparse. rewrite str_app_nil_r in Hparse.
  pose proof (fixed_length w n) as Hlen.
  destruct (fixed w n); [cbn in Hlen; lia|]. rewrite Hparse. cbn [parse_digits].
  rewrite Z.mul_0_l, Z.add_0_l. by rewrite (proj2 (Z.leb_le _ _) Hmax).
Qed.

(** ** Ticks *)

(** What the clock maintains about its last reading. *)
Definition hlc_wf (h : HLC) : Prop :=
  hlc_physical h mod Millisecond = 0 /\ zero_time <= hlc_physical h /\
  0 <= hlc_counter h <= hlcMaxCounter.

Definition device_ok (device : string) : Prop :=
  device <> "" /\ str_contains ":" device = false.

Lemma new_hlc_ok physical counter device :
  physical <> zero_time -> device_ok device -> counter <= hlcMaxCounter ->
  NewHLC physical counter device = Ok (mkHLC (truncate_ms physical) counter device).
Proof.
  intros Hp [Hd Hc] Hmax. unfold NewHLC, time_is_zero.
  rewrite (proj2 (Z.eqb_neq _ _) Hp), (proj2 (String.eqb_neq _ _) Hd), Hc. cbn [orb].
  by rewrite (proj2 (Z.ltb_ge _ _) Hmax).
Qed.

Lemma truncate_ms_whole t : t mod Millisecond = 0 -> truncate_ms t = t.
Proof. unfold truncate_ms. lia. Qed.

Lemma truncate_ms_mod t : truncate_ms t mod Millisecond = 0.
Proof. rewrite truncate_ms_div, Z.mul_comm. apply Z.mod_mul. done. Qed.

Lemma compare_physical_gt a b : hlc_physical b < hlc_physical a -> After a b = true.
Proof.
  intros H. unfold After, hlc_compare. destruct (Z.eqb_spec (hlc_physical a) (hlc_physical b)); cbn; [lia|].
  destruct (Z.ltb_spec (hlc_physical a) (hlc_physical b)); [lia|done].
Qed.

Lemma compare_counter_gt a b :
  hlc_physical b = hlc_physical a -> hlc_counter b < hlc_counter a -> After a b = true.
Proof.
  intros Hp H. unfold After, hlc_compare. rewrite Hp, Z.eqb_refl. cbn.
  destruct (Z.eqb_spec (hlc_counter a) (hlc_counter b)); cbn; [lia|].
  destruct (Z.ltb_spec (hlc_counter a) (hlc_counter b)); [lia|done].
Qed.

Lemma tick_step h now device :
  hlc_wf h -> zero_time < truncate_ms now -> device_ok device ->
  exists h', Tick h now device = Ok h' /\ hlc_wf h' /\ After h' h = true /\
             hlc_device h' = device /\ truncate_ms now <= hlc_physical h'.
Proof.
  intros (Hms & Hz & Hc) Hnow Hd. unfold Tick, hlc_is_zero, time_is_zero.
  destruct ((hlc_physical h =? zero_time) || (hlc_physical h <? truncate_ms now)) eqn:Hcase.
  - rewrite new_hlc_ok by (done || lia). rewrite truncate_ms_idem.
    eexists; split; [done|]. unfold hlc_wf; cbn. rewrite truncate_ms_mod.
    repeat split; try lia. apply compare_physical_gt. cbn.
    apply orb_true_iff in Hcase as [Hcase|Hcase]; bools; lia.
  - bools. destruct (Z.leb_spec hlcMaxCounter (hlc_counter h)).
    + rewrite new_hlc_ok by (done || (unfold hlcMaxCounter, Millisecond; lia)).
      rewrite truncate_ms_whole
        by (rewrite <- Z.add_mod_idemp_l, Hms by done; done).
      eexists; split; [done|]. unfold hlc_wf; cbn.
      rewrite <- Z.add_mod_idemp_l, Hms by done. unfold Millisecond in *.
      repeat split; try (done || lia). apply compare_physical_gt. cbn. unfold Millisecond. lia.
    + rewrite new_hlc_ok by (done || lia). rewrite truncate_ms_whole by done.
      eexists; split; [done|]. unfold hlc_wf; cbn. repeat split; try (done || lia).
      apply compare_counter_gt; cbn; lia.
Qed.

(** The readings a device stamps for a sequence of wall-clock times. *)
Fixpoint stamps (h : HLC) (device : string) (nows : list Z) : res (list HLC) :=
  match nows with
  | [] => Ok []
  | now :: rest => h' ← Tick h now device; hs ← stamps h' device rest; Ok (h' :: hs)
  end.

(** ** Properties *)

(** The textual form of two storable readings compares, as a string, the way the
    readings do, so a text column sorts by time. *)
Theorem hlc_string_order a b :
  hlc_storable a -> hlc_storable b ->
  String.compare (hlc_string a) (hlc_string b) = hlc_compare a b.
Proof.
  intros Ha Hb. rewrite !hlc_string_storable by done.
  assert (Hp : (unix_milli (hlc_physical a) ?= unix_milli (hlc_physical b))
               = (hlc_physical a ?= hlc_physical b)).
  { rewrite (Zmult_compare_compat_r _ _ Millisecond) by done. by rewrite !storable_physical. }
  pose proof pow10_counter. destruct Ha as (_ & ? & ? & _), Hb as (_ & ? & ? & _).
  rewrite fixed_compare by done. rewrite str_compare_cons.
  rewrite fixed_compare by (split; lia). rewrite str_compare_cons, hlc_compare_key, Hp.
  unfold cmp_on, cmp_pair, hlc_key. done.
Qed.

(** The text of a storable reading parses back to that reading. *)
Theorem hlc_parse_string h : hlc_storable h -> ParseHLC (hlc_string h) = Ok h.
Proof.
  intros Hs. rewrite hlc_string_storable by done. pose proof (storable_physical h Hs) as Hms.
  destruct Hs as (_ & Hp & Hc & Hd & Hcolon). pose proof pow10_counter. unfold ParseHLC.
  rewrite !str_cut_app by (by apply fixed_no_char).
  rewrite (proj2 (String.eqb_neq _ _) Hd).
  rewrite parse_int_fixed, parse_uint_fixed by (done || lia || (unfold hlcMaxCounter in *; lia)).
  destruct (Z.ltb_spec (unix_milli (hlc_physical h)) 0); [lia|].
  destruct (Z.ltb_spec hlcMaxCounter (hlc_counter h)); [lia|].
  rewrite Hms. by destruct h.
Qed.

(** C6. However the wall clock moves between them, the readings a device stamps
    one after the other strictly increase, each is after the one the device
    started from, and each is well formed. *)
Theorem hlc_ticks_increase h device nows :
  hlc_wf h -> device_ok device -> Forall (fun now => zero_time < truncate_ms now) nows ->
  exists hs, stamps h device nows = Ok hs /\ length hs = length nows /\
    Forall (fun h' => After h' h = true /\ hlc_wf h') hs /\
    StronglySorted (fun a b => After b a = true) hs.
Proof.
  intros Hw Hd Hn. revert h Hw. induction Hn as [|now rest Hnow _ IH]; intros h Hw.
  - exists []. repeat constructor.
  - destruct (tick_step h now device Hw Hnow Hd) as (h' & E & Hw' & Ha & _).
    destruct (IH h' Hw') as (hs & E' & Hlen & Hall & Hsort).
    exists (h' :: hs). cbn. rewrite E. cbn. rewrite E'. cbn.
    split; [done|]. split; [by rewrite Hlen|]. split; constructor; try done.
    + eapply Forall_impl; [exact Hall|]. cbn. intros x [Hx ?]. split; [by eapply after_trans|done].
    + eapply Forall_impl; [exact Hall|]. by intros x [? _].
Qed.

(** *** Witnesses *)

Definition example_reading (ms counter : Z) : HLC := mkHLC (ms * Millisecond) counter "device-a".

Lemma example_reading_storable ms counter :
  0 <= ms < 10 ^ 13 -> 0 <= counter <= hlcMaxCounter -> hlc_storable (example_reading ms counter).
Proof.
  intros Hms Hc. unfold hlc_storable, unix_milli; cbn.
  rewrite Z.mod_mul, Z.div_mul by done. repeat split; (lia || done).
Qed.

Lemma hlc_string_order_witness :
  String.compare (hlc_string (example_reading 1700000000000 7))
                 (hlc_string (example_reading 999999999999 12)) = Gt.
Proof.
  rewrite (hlc_string_order (example_reading 1700000000000 7) (example_reading 999999999999 12)).
  - vm_compute. reflexivity.
  - apply example_reading_storable; vm_compute; split; congruence.
  - apply example_reading_storable; vm_compute; split; congruence.
Defined.

Lemma hlc_parse_string_witness :
  ParseHLC "1700000000000:00007:device-a" = Ok (example_reading 1700000000000 7).
Proof.
  apply (hlc_parse_string (example_reading 1700000000000 7)).
  apply example_reading_storable; vm_compute; split; congruence.
Defined.

Lemma hlc_ticks_increase_witness :
  exists hs, stamps (example_reading 1700000000000 99999) "device-a" [0; 5; 0] = Ok hs /\ length hs = 3%nat.
Proof.
  destruct (hlc_ticks_increase (example_reading 1700000000000 99999) "device-a" [0; 5; 0])
    as (hs & H1 & H2 & _).
  - vm_compute. repeat split; congruence.
  - split; [discriminate|reflexivity].
  - repeat constructor.
  - exists hs. split; assumption.
Defined.
