(* ===== verification/Text.v ===== *)
(** * Texts: runes, spaces and what a person may type

    The part of Go's [strings], [unicode] and [unicode/utf8] the domain checks
    texts with - decoding UTF-8 with an invalid byte read as the replacement
    character, [strings.TrimSpace], [utf8.RuneCountInString] -, and the
    domain's own checks over them: core/domain/model/shared/Text.go and
    LabelTokens.go, and the control characters of work/Container.go.  The
    Unicode normal form is a port (core/port/text) and so a parameter. *)

From Stdlib Require Import ZArith Lia String Ascii List Bool.
From stdpp Require Import base list strings.
From S2P Require Import Prelude Shared.

Open Scope string_scope.
Open Scope list_scope.
Open Scope Z_scope.

(** ** UTF-8 *)

Definition byte_of (c : ascii) : Z := Z.of_N (N_of_ascii c).

Definition RuneError : Z := 65533.

(** A continuation byte in a range; the second byte of some sequences has a
    narrower one. *)
Definition within_ (low high : Z) (c : ascii) : bool := (low <=? byte_of c) && (byte_of c <=? high).
Definition payload (c : ascii) : Z := Z.land (byte_of c) 63.

(** [utf8.DecodeRuneInString] of a string that is not empty: the rune and what
    follows it; an invalid byte is [RuneError] and one byte. *)
Definition decode_tail (c : ascii) (rest : string) : Z * string :=
  let b := byte_of c in
  let invalid := (RuneError, rest) in
  if b <? 128 then (b, rest)
  else if (194 <=? b) && (b <=? 223) then
    match rest with
    | String c1 r1 => if within_ 128 191 c1 then (Z.lor (Z.shiftl (Z.land b 31) 6) (payload c1), r1) else invalid
    | _ => invalid
    end
  else if (224 <=? b) && (b <=? 239) then
    match rest with
    | String c1 (String c2 r2) =>
        if within_ (if b =? 224 then 160 else 128) (if b =? 237 then 159 else 191) c1 && within_ 128 191 c2 then
          (Z.lor (Z.shiftl (Z.land b 15) 12) (Z.lor (Z.shiftl (payload c1) 6) (payload c2)), r2)
        else invalid
    | _ => invalid
    end
  else if (240 <=? b) && (b <=? 244) then
    match rest with
    | String c1 (String c2 (String c3 r3)) =>
        if within_ (if b =? 240 then 144 else 128) (if b =? 244 then 143 else 191) c1 &&
           within_ 128 191 c2 && within_ 128 191 c3 then
          (Z.lor (Z.shiftl (Z.land b 7) 18)
             (Z.lor (Z.shiftl (payload c1) 12) (Z.lor (Z.shiftl (payload c2) 6) (payload c3))), r3)
        else invalid
    | _ => invalid
    end
  else invalid.

(** Go's [range] over a string; every rune takes at least a byte, so the length
    is fuel enough. *)
Fixpoint runes_from (fuel : nat) (s : string) : list Z :=
  match fuel, s with
  | S fuel', String c rest => let '(r, rest') := decode_tail c rest in r :: runes_from fuel' rest'
  | _, _ => []
  end.
Definition runes (s : string) : list Z := runes_from (String.length s) s.

Definition RuneCountInString (s : string) : Z := Z.of_nat (List.length (runes s)).

(** [unicode.IsSpace]. *)
Definition IsSpace (r : Z) : bool :=
  (9 <=? r) && (r <=? 13) || (r =? 32) || (r =? 133) || (r =? 160) || (r =? 5760) ||
  (8192 <=? r) && (r <=? 8202) || (r =? 8232) || (r =? 8233) || (r =? 8239) || (r =? 8287) || (r =? 12288).

(** [strings.TrimSpace]: leading spaces go rune by rune, and then the longest
    end that is spaces only. *)
Fixpoint trim_space_left (fuel : nat) (s : string) : string :=
  match fuel, s with
  | S fuel', String c rest =>
      let '(r, rest') := decode_tail c rest in
      if IsSpace r then trim_space_left fuel' rest' else s
  | _, _ => s
  end.

Definition only_spaces (s : string) : bool := forallb IsSpace (runes s).

Fixpoint trim_space_right (s : string) : string :=
  match s with
  | EmptyString => EmptyString
  | String c rest => if only_spaces s then EmptyString else String c (trim_space_right rest)
  end.

Definition TrimSpace (s : string) : string := trim_space_right (trim_space_left (String.length s) s).

(** ** Text.go *)

Definition isASCII (s : string) : bool := str_forallb (fun c => byte_of c <? 128) s.

(** A normaliser, when one is wired. *)
Abbreviation Normalizer := (option (string -> string)) (only parsing).

Definition NFC (raw : string) (form : Normalizer) : res string :=
  match form with
  | None => if isASCII raw then Ok raw else Err (detailed ErrInternal "text.normalizer_missing" [])
  | Some nfc => Ok (nfc raw)
  end.

(** ** Container.go: control characters *)

Definition hasControlCharacter (s : string) : bool :=
  existsb (fun r => (r <? 32) || (127 <=? r) && (r <=? 159)) (runes s).

(** ** LabelTokens.go *)

Definition LabelTokens : list string :=
  ["slate"; "blue"; "teal"; "green"; "lime"; "amber"; "orange"; "red"; "magenta"; "violet"].

Definition IsLabelToken (name : string) : bool := existsb (fun token => String.eqb token name) LabelTokens.

(** Structure.go. *)
Definition knownColorToken (token code : string) : res unit :=
  if String.eqb token "" || IsLabelToken token then Ok tt
  else Err (field_refused ErrValidation "/color_token" code []).

(** The keys a person gives to configurable things, [^[a-z][a-z0-9_]{0,n}$]. *)
Definition lower_byte (c : ascii) : bool := (97 <=? byte_of c) && (byte_of c <=? 122).
Definition key_byte (c : ascii) : bool :=
  lower_byte c || (48 <=? byte_of c) && (byte_of c <=? 57) || (byte_of c =? 95).
Definition key_shaped (most : nat) (key : string) : bool :=
  match key with
  | String first rest => lower_byte first && str_forallb key_byte rest && Nat.leb (String.length rest) most
  | EmptyString => false
  end.

Example trim_both : TrimSpace (String "009" "  a b " +:+ String "194" (String "160" "")) = "a b".
Proof. reflexivity. Qed.
Example runes_mixed : runes ("a" +:+ String "195" (String "169" (String "255" ""))) = [97; 233; RuneError].
Proof. reflexivity. Qed.

(** ** Trimming is done once

    A rune that is not the replacement character was read from a whole
    sequence, so what follows a string does not change how its start decodes. *)

Lemma decode_tail_app c rest r rest' b :
  decode_tail c rest = (r, rest') -> r <> RuneError -> decode_tail c (rest +:+ b) = (r, rest' +:+ b).
Proof.
  unfold decode_tail. intros H Hr. revert H.
  destruct (byte_of c <? 128); [by intros [= <- <-]|].
  destruct (_ && _); [|destruct (_ && _); [|destruct (_ && _); [|by intros [= <- <-]]]];
    destruct rest as [|c1 [|c2 [|c3 rest]]]; cbn [String.append]; try by intros [= <- <-].
  all: repeat match goal with
       | |- context [within_ ?l ?h ?x] => destruct (within_ l h x); cbn [andb]; try by intros [= <- <-]
       end.
Qed.

Lemma decode_tail_shorter c rest : (String.length (decode_tail c rest).2 <= String.length rest)%nat.
Proof. unfold decode_tail. repeat (case_match; cbn in *; try lia). Qed.

Lemma space_not_error r : IsSpace r = true -> r <> RuneError.
Proof. intros H ->. done. Qed.

Lemma runes_from_fuel n m s :
  (String.length s <= n)%nat -> (String.length s <= m)%nat -> runes_from n s = runes_from m s.
Proof.
  revert m s. induction n as [|n IH]; intros m s Hn Hm; [by destruct s, m; cbn in *; try lia|].
  destruct s as [|c s], m as [|m]; cbn in *; try done; try lia.
  pose proof (decode_tail_shorter c s) as Hl. destruct (decode_tail c s) as [r s'] eqn:E. cbn in Hl.
  f_equal. apply IH; lia.
Qed.

Lemma only_spaces_cons c rest :
  only_spaces (String c rest) = IsSpace (decode_tail c rest).1 && only_spaces (decode_tail c rest).2.
Proof.
  unfold only_spaces, runes. cbn. pose proof (decode_tail_shorter c rest) as Hl.
  destruct (decode_tail c rest) as [r s']. cbn in *. by rewrite (runes_from_fuel _ (String.length s')).
Qed.

Lemma only_spaces_app a b : only_spaces a = true -> only_spaces b = true -> only_spaces (a +:+ b) = true.
Proof.
  remember (String.length a) as n eqn:Hn. assert (Hle : (String.length a <= n)%nat) by lia. clear Hn.
  revert a Hle. induction n as [|n IH]; intros [|c a] Hle Ha Hb; cbn in Hle; try done; try lia.
  change (String c a +:+ b) with (String c (a +:+ b)). rewrite only_spaces_cons in Ha |- *. bools.
  pose proof (decode_tail_shorter c a) as Hl. destruct (decode_tail c a) as [r a'] eqn:E. cbn in *.
  rewrite (decode_tail_app c a r a' b E) by by apply space_not_error. cbn. rewrite H. apply IH; [lia|done..].
Qed.

Lemma trim_right_split s : exists spaces, s = trim_space_right s +:+ spaces /\ only_spaces spaces = true.
Proof.
  induction s as [|c s [sp [IH Hsp]]]; [by exists ""|]. cbn [trim_space_right].
  destruct (only_spaces (String c s)) eqn:E; [by exists (String c s)|].
  exists sp. split; [|done]. cbn. by rewrite <- IH.
Qed.

Lemma trim_right_idem s : trim_space_right (trim_space_right s) = trim_space_right s.
Proof.
  induction s as [|c s IH]; [done|]. cbn [trim_space_right].
  destruct (only_spaces (String c s)) eqn:E; [done|]. cbn [trim_space_right]. rewrite IH.
  destruct (only_spaces (String c (trim_space_right s))) eqn:E'; [|done].
  destruct (trim_right_split s) as [sp [Hs Hsp]].
  pose proof (only_spaces_app _ sp E' Hsp) as H. cbn [String.append] in H. rewrite <- Hs in H. congruence.
Qed.

(** Starts with a rune that is not a space, or is empty. *)
Definition left_trimmed (s : string) : bool :=
  match s with EmptyString => true | String c rest => negb (IsSpace (decode_tail c rest).1) end.

Lemma trim_left_trimmed n s : (String.length s <= n)%nat -> left_trimmed (trim_space_left n s) = true.
Proof.
  revert s. induction n as [|n IH]; intros [|c s] Hn; cbn in *; try done; try lia.
  pose proof (decode_tail_shorter c s) as Hl. destruct (decode_tail c s) as [r s'] eqn:E. cbn [snd] in Hl.
  destruct (IsSpace r) eqn:Hr; [apply IH; lia|]. cbn [left_trimmed]. by rewrite E; cbn [fst]; rewrite Hr.
Qed.

Lemma trim_left_id n s : left_trimmed s = true -> trim_space_left n s = s.
Proof.
  destruct s as [|c s], n as [|n]; cbn [left_trimmed trim_space_left]; try done.
  destruct (decode_tail c s) as [r s']. cbn [fst]. by destruct (IsSpace r).
Qed.

Lemma left_trimmed_prefix a b : left_trimmed (a +:+ b) = true -> left_trimmed a = true.
Proof.
  destruct a as [|c a]; [done|]. cbn [left_trimmed String.append]. intros H. apply negb_true_iff in H.
  apply negb_true_iff. destruct (decode_tail c a) as [r a'] eqn:E. cbn [fst].
  destruct (IsSpace r) eqn:Hr; [|done].
  rewrite (decode_tail_app c a r a' b E) in H by by apply space_not_error. cbn [fst] in H. congruence.
Qed.

Lemma TrimSpace_idem s : TrimSpace (TrimSpace s) = TrimSpace s.
Proof.
  unfold TrimSpace at 1 3. set (t := trim_space_left (String.length s) s).
  rewrite (trim_left_id _ (TrimSpace s)); unfold TrimSpace; fold t; [apply trim_right_idem|].
  destruct (trim_right_split t) as [sp [Ht _]]. apply (left_trimmed_prefix _ sp). rewrite <- Ht.
  by apply trim_left_trimmed.
Qed.

(** A text of visible ASCII has nothing to trim. *)
Definition visible (c : ascii) : bool := (33 <=? byte_of c) && (byte_of c <? 127).

Lemma visible_decode c rest : visible c = true -> IsSpace (decode_tail c rest).1 = false.
Proof.
  unfold visible, decode_tail. intros H. bools. assert (E : (byte_of c <? 128) = true) by lia. rewrite E. cbn.
  unfold IsSpace. lia.
Qed.

Lemma trim_visible s : str_forallb visible s = true -> TrimSpace s = s.
Proof.
  intros H. unfold TrimSpace. rewrite trim_left_id.
  - induction s as [|c s IH]; [done|]. cbn [trim_space_right]. cbn in H. bools.
    rewrite only_spaces_cons, visible_decode by done. cbn. by rewrite IH.
  - destruct s as [|c s]; [done|]. cbn in *. bools. by rewrite visible_decode.
Qed.

Lemma str_forallb_impl (f g : ascii -> bool) s :
  (forall c, f c = true -> g c = true) -> str_forallb f s = true -> str_forallb g s = true.
Proof. intros Hfg. induction s as [|c s IH]; [done|]. cbn. intros H. bools. by rewrite Hfg, IH. Qed.

Lemma key_byte_visible c : key_byte c = true -> visible c = true.
Proof. unfold key_byte, lower_byte, visible. lia. Qed.

Lemma trim_key n key : key_shaped n key = true -> TrimSpace key = key.
Proof.
  destruct key as [|c key]; [done|]. cbn [key_shaped]. intros H. bools. apply trim_visible. cbn [str_forallb].
  rewrite (str_forallb_impl _ visible key key_byte_visible) by done.
  rewrite key_byte_visible; [done|]. unfold key_byte. rewrite H. done.
Qed.

(** ** The normal form

    What the domain relies on of a normaliser: it is done once, it makes no new
    spaces at the ends, and nothing but the empty text becomes empty. *)
Class NormalForm (form : Normalizer) : Prop := {
  normal_idem : forall nfc s, form = Some nfc -> nfc (nfc s) = nfc s;
  normal_trimmed : forall nfc s, form = Some nfc -> TrimSpace s = s -> TrimSpace (nfc s) = nfc s;
  normal_empty : forall nfc, form = Some nfc -> nfc "" = "";
  normal_kept : forall nfc s, form = Some nfc -> nfc s = "" -> s = ""
}.

#[export] Instance normal_none : NormalForm None.
Proof. by split. Qed.
#[export] Instance normal_id : NormalForm (Some (fun s => s)).
Proof. split; intros; simplify_eq; done. Qed.

(** A text that was trimmed and normalised passes through both again. *)
Lemma NFC_trim_idem form raw name : NormalForm form ->
  NFC (TrimSpace raw) form = Ok name -> NFC (TrimSpace name) form = Ok name.
Proof.
  intros Hf H. destruct form as [nfc|]; cbn in *.
  - injection H as <-. rewrite (normal_trimmed nfc) by (done || apply TrimSpace_idem).
    by rewrite (normal_idem nfc).
  - destruct (isASCII (TrimSpace raw)) eqn:E; [|done]. injection H as <-. by rewrite TrimSpace_idem, E.
Qed.

Lemma NFC_empty form raw name : NormalForm form -> NFC raw form = Ok name -> (name = "" <-> raw = "").
Proof.
  intros Hf H. destruct form as [nfc|]; cbn in H.
  - injection H as <-. split; [by apply (normal_kept nfc)|intros ->; by apply normal_empty].
  - destruct (isASCII raw); [|done]. by injection H as <-.
Qed.
