(* ===== verification/Civil.v ===== *)
(** * Civil dates and zones

    The part of Go's [time] package the domain relies on: the date of an
    instant, the instant of a date ([time.Date], which takes a day or a minute
    out of its range into the next one), the weekday, RFC 3339.  A location is
    what the zone database knows of it: its offset and the half-open range of
    instants the offset holds in. *)

From Stdlib Require Import ZArith Lia String Ascii List Bool.
From stdpp Require Import base list strings.
From S2P Require Import Prelude Shared Hlc.

Open Scope string_scope.
Open Scope list_scope.
Open Scope Z_scope.

Definition day_seconds : Z := 86400.

(** Days since 1970-01-01 of a date of the proleptic Gregorian calendar, the
    day of the month being any integer. *)
Definition days_from_civil (y m d : Z) : Z :=
  let y' := if m <=? 2 then y - 1 else y in
  let era := y' / 400 in
  let yoe := y' mod 400 in
  let doy := (153 * (if 2 <? m then m - 3 else m + 9) + 2) / 5 in
  era * 146097 + (yoe * 365 + yoe / 4 - yoe / 100 + doy) + (d - 1) - 719468.

Definition civil_from_days (z : Z) : Z * Z * Z :=
  let z' := z + 719468 in
  let era := z' / 146097 in
  let doe := z' mod 146097 in
  let yoe := (doe - doe / 1460 + doe / 36524 - doe / 146096) / 365 in
  let doy := doe - (365 * yoe + yoe / 4 - yoe / 100) in
  let mp := (5 * doy + 2) / 153 in
  let d := doy - (153 * mp + 2) / 5 + 1 in
  let m := if mp <? 10 then mp + 3 else mp - 9 in
  ((if m <=? 2 then yoe + era * 400 + 1 else yoe + era * 400), m, d).

(** The month of [time.Date] is normalised before the day is counted. *)
Definition date_days (y m d : Z) : Z :=
  days_from_civil (y + (m - 1) / 12) ((m - 1) mod 12 + 1) d.

(** [time.Weekday]: Sunday is 0; 1970-01-01 was a Thursday. *)
Definition weekday (days : Z) : Z := (days + 4) mod 7.

(** ** Locations *)

(** What [Location.lookup] answers for a second: offset, start, end. *)
Definition Location : Type := Z -> Z * Z * Z.

Definition alpha : Z := - 2 ^ 63.
Definition omega : Z := 2 ^ 63 - 1.

(** A location with one offset for all time, such as UTC. *)
Definition fixed_zone (offset : Z) : Location := fun _ => (offset, alpha, omega).
Definition UTC : Location := fixed_zone 0.

Definition zone_offset (l : Location) (sec : Z) : Z := (l sec).1.1.

(** The local second of an instant. *)
Definition local_second (l : Location) (t : Z) : Z :=
  let sec := t / Second in sec + zone_offset l sec.

(** [t.In(l).Date()] and [Clock()]. *)
Definition date_in (l : Location) (t : Z) : Z * Z * Z :=
  civil_from_days (local_second l t / day_seconds).
Definition clock_in (l : Location) (t : Z) : Z * Z * Z :=
  let s := local_second l t mod day_seconds in (s / 3600, s mod 3600 / 60, s mod 60).
Definition nanosecond_of (t : Z) : Z := t mod Second.

(** [time.Date(y, m, d, hour, min, sec, nsec, l)]. *)
Definition go_date (l : Location) (y m d hour min sec nsec : Z) : Z :=
  let sec := sec + nsec / Second in
  let nsec := nsec mod Second in
  let unix := date_days y m d * day_seconds + hour * 3600 + min * 60 + sec in
  let '(offset, start, end_) := l unix in
  let unix :=
    if negb (offset =? 0) then
      let utc := unix - offset in
      if (utc <? start) || (end_ <=? utc) then unix - zone_offset l utc else utc
    else unix in
  unix * Second + nsec.

(** [time.RFC3339] of an instant in UTC, years of four digits or more. *)
Definition format_rfc3339 (t : Z) : string :=
  let '(y, m, d) := date_in UTC t in
  let '(hh, mm, ss) := clock_in UTC t in
  pad0 4 y +:+ "-" +:+ pad0 2 m +:+ "-" +:+ pad0 2 d +:+ "T" +:+
  pad0 2 hh +:+ ":" +:+ pad0 2 mm +:+ ":" +:+ pad0 2 ss +:+ "Z".

Example format_epoch : format_rfc3339 (1784548920 * Second + 5) = "2026-07-20T12:02:00Z".
Proof. vm_compute. reflexivity. Qed.

(** [time.RFC3339Nano]: the fraction without its trailing zeros. *)
Fixpoint trim_zeros (s : string) : string :=
  match s with
  | EmptyString => EmptyString
  | String c rest =>
      let rest' := trim_zeros rest in
      if String.eqb rest' "" && Ascii.eqb c "0" then EmptyString else String c rest'
  end.

Definition format_rfc3339_nano (t : Z) : string :=
  let seconds := format_rfc3339 t in
  let fraction := trim_zeros (pad0 9 (nanosecond_of t)) in
  if String.eqb fraction "" then seconds
  else str_take (String.length seconds - 1) seconds +:+ "." +:+ fraction +:+ "Z".

Example format_nano : format_rfc3339_nano (1784548920 * Second + 120000000) = "2026-07-20T12:02:00.12Z".
Proof. vm_compute. reflexivity. Qed.

(** ** Dates and day numbers *)

(** The year of a day of the 400 year cycle, and the day of that year. *)
Lemma cycle_year doe : 0 <= doe < 146097 ->
  let yoe := (doe - doe / 1460 + doe / 36524 - doe / 146096) / 365 in
  0 <= yoe < 400 /\ 0 <= doe - (365 * yoe + yoe / 4 - yoe / 100) < 366.
Proof.
  intros H yoe. subst yoe.
  assert (Hc : doe / 36524 = 0 \/ doe / 36524 = 1 \/ doe / 36524 = 2 \/ doe / 36524 = 3 \/ doe / 36524 = 4)
    by (Z.to_euclidean_division_equations; lia).
  assert (Hd : doe / 146096 = 0 \/ doe / 146096 = 1) by (Z.to_euclidean_division_equations; lia).
  destruct Hd as [Hd|Hd]; rewrite Hd.
  - destruct Hc as [Hc|[Hc|[Hc|[Hc|Hc]]]]; rewrite Hc; Z.to_euclidean_division_equations; lia.
  - replace doe with 146096 by (Z.to_euclidean_division_equations; lia). vm_compute. repeat split; congruence.
Qed.

(** The month of a day of a year that starts in March, and the day of it. *)
Lemma year_month doy : 0 <= doy < 366 ->
  let mp := (5 * doy + 2) / 153 in
  0 <= mp < 12 /\ 0 <= doy - (153 * mp + 2) / 5 < 31.
Proof. intros H mp. subst mp. Z.to_euclidean_division_equations; lia. Qed.

(** The date of a day number gives the day number back. *)
Lemma days_of_civil z : let '(y, m, d) := civil_from_days z in
  days_from_civil y m d = z /\ 1 <= m <= 12 /\ 1 <= d <= 31.
Proof.
  unfold civil_from_days. pose proof (Z.div_mod (z + 719468) 146097 ltac:(lia)) as Hz.
  set (era := (z + 719468) / 146097) in *. set (doe := (z + 719468) mod 146097) in *.
  assert (Hdoe : 0 <= doe < 146097) by (apply Z.mod_pos_bound; lia). clearbody era doe.
  pose proof (cycle_year doe Hdoe) as [Hyoe Hdoy]. cbv zeta in Hyoe, Hdoy |- *.
  set (yoe := (doe - doe / 1460 + doe / 36524 - doe / 146096) / 365) in *. clearbody yoe.
  set (doy := doe - (365 * yoe + yoe / 4 - yoe / 100)) in *.
  assert (Hsum : doe = yoe * 365 + yoe / 4 - yoe / 100 + doy) by (subst doy; lia). clearbody doy.
  pose proof (year_month doy Hdoy) as [Hmp Hd]. cbv zeta in Hmp, Hd.
  set (mp := (5 * doy + 2) / 153) in *. clearbody mp.
  assert (Hera : (yoe + era * 400) / 400 = era) by (rewrite Z.div_add by lia; rewrite Z.div_small by lia; lia).
  assert (Hmod : (yoe + era * 400) mod 400 = yoe) by (rewrite Z.mod_add by lia; apply Z.mod_small; lia).
  split; [|destruct (Z.ltb_spec mp 10); lia]. unfold days_from_civil.
  destruct (Z.ltb_spec mp 10) as [Hm|Hm].
  - rewrite (proj2 (Z.leb_gt (mp + 3) 2)), (proj2 (Z.ltb_lt 2 (mp + 3))) by lia.
    rewrite Hera, Hmod. replace (mp + 3 - 3) with mp by lia. lia.
  - rewrite (proj2 (Z.leb_le (mp - 9) 2)), (proj2 (Z.ltb_ge 2 (mp - 9))) by lia.
    replace (yoe + era * 400 + 1 - 1) with (yoe + era * 400) by lia.
    rewrite Hera, Hmod. replace (mp - 9 + 9) with mp by lia. lia.
Qed.

Lemma days_from_civil_day y m d k : days_from_civil y m (d + k) = days_from_civil y m d + k.
Proof. unfold days_from_civil. lia. Qed.

(** Stepping a date by [k] days with [time.Date] steps its day number. *)
Lemma date_days_step z k : let '(y, m, d) := civil_from_days z in date_days y m (d + k) = z + k.
Proof.
  pose proof (days_of_civil z) as H. destruct (civil_from_days z) as [[y m] d].
  destruct H as (H & Hm & _). unfold date_days. rewrite Z.div_small, Z.mod_small, Z.sub_add by lia.
  by rewrite Z.add_0_r, days_from_civil_day, H.
Qed.
