(* ===== verification/Literal.v ===== *)
(** * Numbers and instants as texts

    The part of Go's [strconv] and [time] the query language reads its values
    with: a finite [float64] as a mantissa and an exponent, [strconv.ParseFloat]
    and [strconv.FormatFloat(x, 'f', -1, 64)], the conversions between
    [float64] and [int64], and [time.Parse] for RFC 3339 and for a date.  A
    JSON document holds finite numbers only, so the infinities and NaN are no
    values here: a text that reads as one of them is [None], as a text that is
    no number is, and the callers treat the two alike. *)

From Stdlib Require Import ZArith Lia String Ascii List Bool.
From stdpp Require Import base list strings.
From S2P Require Import Prelude Shared Hlc Civil.

Open Scope string_scope.
Open Scope list_scope.
Open Scope Z_scope.

(** ** float64 *)

(** [(-1)^neg * mant * 2^exp]. *)
Record float64 := mkFloat { fl_neg : bool; fl_mant : Z; fl_exp : Z }.

#[export] Instance float64_eq_dec : EqDecision float64.
Proof. solve_decision. Defined.

Definition mant_bits : Z := 52.
Definition min_exp : Z := -1074.
Definition max_exp : Z := 971.

(** The one representation of a finite value: a mantissa of 53 bits, or the
    least exponent. *)
Definition canonical (x : float64) : bool :=
  (0 <=? fl_mant x) && (fl_mant x <? 2 ^ (mant_bits + 1)) && (min_exp <=? fl_exp x) && (fl_exp x <=? max_exp) &&
  ((2 ^ mant_bits <=? fl_mant x) || (fl_exp x =? min_exp)).

(** [b^k] divides or multiplies a ratio, whatever the sign of [k]. *)
Definition scaled (b k n d : Z) : Z * Z :=
  if 0 <=? k then (n * b ^ k, d) else (n, d * b ^ (- k)).

(** The [k] with [2^k <= n/d < 2^(k+1)]. *)
Definition log2_ratio (n d : Z) : Z :=
  let k := Z.log2 n - Z.log2 d in
  let '(n', d') := scaled 2 (- k) n d in
  if d' <=? n' then k else k - 1.

(** The float64 nearest to [n/d], ties to the even mantissa; [None] beyond the
    largest. *)
Definition round_ratio (neg : bool) (n d : Z) : option float64 :=
  if n =? 0 then Some (mkFloat neg 0 min_exp)
  else
    let e := Z.max (log2_ratio n d - mant_bits) min_exp in
    let '(n', d') := scaled 2 (- e) n d in
    let q := n' / d' in
    let r := n' mod d' in
    let m := if (d' <? 2 * r) || (d' =? 2 * r) && Z.odd q then q + 1 else q in
    let '(m, e) := if m =? 2 ^ (mant_bits + 1) then (2 ^ mant_bits, e + 1) else (m, e) in
    if max_exp <? e then None else Some (mkFloat neg m e).

(** [float64(n)] of an [int64]. *)
Definition float_of_int64 (n : Z) : float64 :=
  match round_ratio (n <? 0) (Z.abs n) 1 with
  | Some x => x
  | None => mkFloat false 0 min_exp
  end.

(** The magnitude of a value as a ratio. *)
Definition float_ratio (x : float64) : Z * Z := scaled 2 (fl_exp x) (fl_mant x) 1.

(** [int64(x)]: the fraction is dropped; a value out of range is the least
    [int64], as on amd64 (the language leaves it to the processor). *)
Definition int64_of_float (x : float64) : Z :=
  let '(n, d) := float_ratio x in
  let v := if fl_neg x then - (n / d) else n / d in
  if (- 2 ^ 63 <=? v) && (v <=? 2 ^ 63 - 1) then v else - 2 ^ 63.

(** [x == y] on float64: the two zeros are equal. *)
Definition float_eqb (x y : float64) : bool :=
  (fl_mant x =? 0) && (fl_mant y =? 0) || bool_decide (x = y).

(** ** strconv.ParseFloat *)

Definition char_code (c : ascii) : Z := Z.of_N (N_of_ascii c).
(** [c | ('x' - 'X')]. *)
Definition lower (c : ascii) : Z := Z.lor (char_code c) 32.

Definition hex_value (c : ascii) : option Z :=
  match digit_value c with
  | Some d => Some d
  | None => if (97 <=? lower c) && (lower c <=? 102) then Some (lower c - 87) else None
  end.

Definition base_digit (hex : bool) (c : ascii) : option Z := if hex then hex_value c else digit_value c.

(** The mantissa: its digits, how many of them follow the point, whether there
    was one at all, and what is left. *)
Fixpoint scan_mantissa (hex dot digits : bool) (mant frac : Z) (s : string) : Z * Z * bool * string :=
  match s with
  | EmptyString => (mant, frac, digits, s)
  | String c rest =>
      if Ascii.eqb c "_" then scan_mantissa hex dot digits mant frac rest
      else if Ascii.eqb c "." then
        if dot then (mant, frac, digits, s) else scan_mantissa hex true digits mant frac rest
      else match base_digit hex c with
           | Some d => scan_mantissa hex dot true (mant * (if hex then 16 else 10) + d)
                                     (if dot then frac + 1 else frac) rest
           | None => (mant, frac, digits, s)
           end
  end.

(** The digits of the exponent, which stop counting at 10000. *)
Fixpoint scan_exponent (e : Z) (s : string) : Z * string :=
  match s with
  | EmptyString => (e, s)
  | String c rest =>
      if Ascii.eqb c "_" then scan_exponent e rest
      else match digit_value c with
           | Some d => scan_exponent (if e <? 10000 then e * 10 + d else e) rest
           | None => (e, s)
           end
  end.

(** [underscoreOK]: an underscore stands between digits, or after the base
    prefix.  [saw] is the last character's class: [^] the beginning, [0] a
    digit or the prefix, [_], or [!]. *)
Fixpoint underscore_scan (hex : bool) (saw : ascii) (s : string) : bool :=
  match s with
  | EmptyString => negb (Ascii.eqb saw "_")
  | String c rest =>
      match base_digit hex c with
      | Some _ => underscore_scan hex "0" rest
      | None =>
          if Ascii.eqb c "_" then Ascii.eqb saw "0" && underscore_scan hex "_" rest
          else negb (Ascii.eqb saw "_") && underscore_scan hex "!" rest
      end
  end.

Definition underscoreOK (unsigned : string) : bool :=
  match unsigned with
  | String c0 (String c1 rest) =>
      if Ascii.eqb c0 "0" && ((lower c1 =? 98) || (lower c1 =? 111) || (lower c1 =? 120)) then
        underscore_scan (lower c1 =? 120) "0" rest
      else underscore_scan false "^" unsigned
  | _ => underscore_scan false "^" unsigned
  end.

(** An optional sign, and what follows it. *)
Definition split_sign (s : string) : bool * string :=
  match s with
  | String c rest =>
      if Ascii.eqb c "-" then (true, rest) else if Ascii.eqb c "+" then (false, rest) else (false, s)
  | EmptyString => (false, s)
  end.

Definition hex_prefixed (s : string) : bool :=
  match s with
  | String c0 (String c1 (String _ _)) => Ascii.eqb c0 "0" && (lower c1 =? 120)
  | _ => false
  end.

(** The exponent after the mantissa, when the text has one: its value, or that
    the text is no number. *)
Definition read_exponent (hex : bool) (s : string) : option Z :=
  match s with
  | EmptyString => if hex then None else Some 0
  | String c rest =>
      if lower c =? (if hex then 112 else 101) then
        let '(neg, digits) := split_sign rest in
        match digits with
        | String d _ =>
            match digit_value d with
            | Some _ =>
                let '(e, tail) := scan_exponent 0 digits in
                if String.eqb tail "" then Some (if neg then - e else e) else None
            | None => None
            end
        | EmptyString => None
        end
      else None
  end.

Definition ParseFloat (s : string) : option float64 :=
  let '(neg, unsigned) := split_sign s in
  let hex := hex_prefixed unsigned in
  let '(mant, frac, digits, rest) := scan_mantissa hex false false 0 0 (if hex then str_drop 2 unsigned else unsigned) in
  if negb digits then None
  else match read_exponent hex rest with
       | None => None
       | Some e =>
           if str_contains "_" unsigned && negb (underscoreOK unsigned) then None
           else let '(n, d) := if hex then scaled 2 (e - 4 * frac) mant 1 else scaled 10 (e - frac) mant 1 in
                round_ratio neg n d
       end.

(** ** strconv.FormatFloat(x, 'f', -1, 64) *)

(** [c * 10^q] with no zero at the end of its fraction. *)
Fixpoint strip_zeros (fuel : nat) (c q : Z) : Z * Z :=
  match fuel with
  | S fuel' => if (q <? 0) && (c mod 10 =? 0) then strip_zeros fuel' (c / 10) (q + 1) else (c, q)
  | O => (c, q)
  end.

(** The decimal [c * 10^q] without an exponent ([fmtF]). *)
Definition decimal_text (neg : bool) (c q : Z) : string :=
  let '(c, q) := strip_zeros (Z.to_nat (- q)) c q in
  (if neg then "-" else "") +:+
  (if 0 <=? q then decimal_of (c * 10 ^ q)
   else decimal_of (c / 10 ^ (- q)) +:+ String "." (fixed (Z.to_nat (- q)) (c mod 10 ^ (- q)))).

(** The [p] with [10^(p-1) <= n/d < 10^p]. *)
Fixpoint small_exponent (fuel : nat) (n d p : Z) : Z :=
  match fuel with
  | S fuel' => if n <? d then small_exponent fuel' (n * 10) d (p - 1) else p
  | O => p
  end.
Definition decimal_exponent (n d : Z) : Z :=
  if d <=? n then Z.of_nat (String.length (decimal_of (n / d))) else small_exponent 330 n d 1.

(** The decimals of [k] digits around [n/d], the nearer one first. *)
Definition around (n d k : Z) : list (Z * Z) :=
  let q := decimal_exponent n d - k in
  let '(n', d') := scaled 10 (- q) n d in
  let c := n' / d' in
  if 2 * (n' mod d') <=? d' then [(c, q); (c + 1, q)] else [(c + 1, q); (c, q)].

Definition reads_back (x : float64) (c q : Z) : bool :=
  bool_decide (ParseFloat (decimal_text (fl_neg x) c q) = Some x).

(** The value itself as a decimal: every power of two has one. *)
Definition exact_decimal (x : float64) : Z * Z :=
  if 0 <=? fl_exp x then (fl_mant x * 2 ^ fl_exp x, 0) else (fl_mant x * 5 ^ (- fl_exp x), fl_exp x).

(** The fewest digits that read back as the value. *)
Fixpoint shortest (k : nat) (digits : Z) (x : float64) : Z * Z :=
  match k with
  | O => exact_decimal x
  | S k' =>
      let '(n, d) := float_ratio x in
      match List.filter (fun cq => reads_back x cq.1 cq.2) (around n d digits) with
      | cq :: _ => cq
      | [] => shortest k' (digits + 1) x
      end
  end.

(** Seventeen digits tell any two float64 apart. *)
Definition FormatFloat (x : float64) : string :=
  if fl_mant x =? 0 then decimal_text (fl_neg x) 0 0
  else let '(c, q) := shortest 17 1 x in decimal_text (fl_neg x) c q.

Example format_tenth : FormatFloat (mkFloat false 7205759403792794 (-56)) = "0.1".
Proof. vm_compute. reflexivity. Qed.
Example format_2_62 : FormatFloat (float_of_int64 (2 ^ 62)) = "4611686018427388000".
Proof. vm_compute. reflexivity. Qed.
Example format_third : option_map FormatFloat (ParseFloat "-0.333333333333333314829616256247390992939472198486328125") = Some "-0.3333333333333333".
Proof. vm_compute. reflexivity. Qed.
Example parse_spellings : map ParseFloat ["3"; "3."; "+.3e+1"; "0x1.8p1"; "1_0e-1"; "x"; ""; "Inf"; "1e999"; "0x3"; "3_"] =
  let three := Some (mkFloat false 6755399441055744 (-51)) in
  [three; three; three; three; Some (mkFloat false 4503599627370496 (-52)); None; None; None; None; None; None].
Proof. vm_compute. reflexivity. Qed.
Example format_ends : map FormatFloat [mkFloat false 1 min_exp; mkFloat true 0 min_exp] =
  ["0." +:+ zeros 323 +:+ "5"; "-0"].
Proof. vm_compute. reflexivity. Qed.

(** ** time.Parse *)

Definition digit_at (s : string) : option (Z * string) :=
  match s with
  | String c rest => match digit_value c with Some d => Some (d, rest) | None => None end
  | EmptyString => None
  end.

(** [getnum]: two digits, or one where the layout does not fix two. *)
Definition getnum (s : string) (fixed_ : bool) : option (Z * string) :=
  match digit_at s with
  | None => None
  | Some (a, rest) =>
      match digit_at rest with
      | Some (b, rest') => Some (a * 10 + b, rest')
      | None => if fixed_ then None else Some (a, rest)
      end
  end.

Definition skip_char (c : ascii) (s : string) : option string :=
  match s with
  | String c' rest => if Ascii.eqb c c' then Some rest else None
  | EmptyString => None
  end.

Definition within (low high : Z) (r : option (Z * string)) : option (Z * string) :=
  match r with
  | Some (v, rest) => if (low <=? v) && (v <=? high) then Some (v, rest) else None
  | None => None
  end.

Definition is_leap (y : Z) : bool := (y mod 4 =? 0) && (negb (y mod 100 =? 0) || (y mod 400 =? 0)).
Definition days_in (m y : Z) : Z :=
  if m =? 2 then if is_leap y then 29 else 28
  else if existsb (Z.eqb m) [4; 6; 9; 11] then 30 else 31.

(** The date of a text, with the day of a month that has it. *)
Definition parse_date (s : string) : option (Z * Z * Z * string) :=
  match parse_nonempty (str_take 4 s), Nat.leb 4 (String.length s) with
  | Some y, true =>
      match skip_char "-" (str_drop 4 s) ≫= (fun s1 => within 1 12 (getnum s1 true)) with
      | Some (m, s2) =>
          match skip_char "-" s2 ≫= (fun s3 => getnum s3 true) with
          | Some (d, s4) => if (1 <=? d) && (d <=? days_in m y) then Some (y, m, d, s4) else None
          | None => None
          end
      | None => None
      end
  | _, _ => None
  end.

Fixpoint leading_digits (s : string) : string * string :=
  match s with
  | String c rest =>
      match digit_value c with
      | Some _ => let '(ds, tail) := leading_digits rest in (String c ds, tail)
      | None => (EmptyString, s)
      end
  | EmptyString => (EmptyString, EmptyString)
  end.

(** A fraction of a second is read whether or not the layout has one; the
    digits after the ninth are dropped. *)
Definition parse_fraction (s : string) : Z * string :=
  match s with
  | String c rest =>
      let '(ds, tail) := leading_digits rest in
      if (Ascii.eqb c "." || Ascii.eqb c ",") && negb (String.eqb ds "") then
        let kept := str_take 9 ds in
        (default 0 (parse_nonempty kept) * 10 ^ (9 - Z.of_nat (String.length kept)), tail)
      else (0, s)
  | EmptyString => (0, s)
  end.

(** [Z07:00]: the offset in seconds; an hour of 24 and a minute of 60 are let
    through, as the standard library does. *)
Definition parse_zone (s : string) : option (Z * string) :=
  match s with
  | String c rest =>
      if Ascii.eqb c "Z" then Some (0, rest)
      else
        match within 0 24 (getnum rest true) with
        | Some (hh, rest') =>
            match skip_char ":" rest' ≫= (fun r => within 0 60 (getnum r true)) with
            | Some (mm, rest'') =>
                let offset := (hh * 60 + mm) * 60 in
                if Ascii.eqb c "+" then Some (offset, rest'')
                else if Ascii.eqb c "-" then Some (- offset, rest'') else None
            | None => None
            end
        | None => None
        end
  | EmptyString => None
  end.

(** [time.Parse(time.RFC3339, s)] and [time.Parse(time.RFC3339Nano, s)]. *)
Definition parse_rfc3339 (s : string) : option Z :=
  match parse_date s with
  | None => None
  | Some (y, m, d, s1) =>
      match skip_char "T" s1 ≫= (fun r => within 0 23 (getnum r false)) with
      | None => None
      | Some (hh, s2) =>
          match skip_char ":" s2 ≫= (fun r => within 0 59 (getnum r true)) with
          | None => None
          | Some (mm, s3) =>
              match skip_char ":" s3 ≫= (fun r => within 0 59 (getnum r true)) with
              | None => None
              | Some (ss, s4) =>
                  let '(ns, s5) := parse_fraction s4 in
                  match parse_zone s5 with
                  | Some (offset, EmptyString) => Some (go_date UTC y m d hh mm ss ns - offset * Second)
                  | _ => None
                  end
              end
          end
      end
  end.

(** [time.Parse(time.DateOnly, s)]. *)
Definition parse_date_only (s : string) : option Z :=
  match parse_date s with
  | Some (y, m, d, EmptyString) => Some (go_date UTC y m d 0 0 0 0)
  | _ => None
  end.

Example parse_instants : map parse_rfc3339
  ["2026-07-20T12:02:00Z"; "2026-07-20T14:02:00.000000005+02:00"; "2026-07-20T9:02:00,5Z"; "2026-02-29T00:00:00Z";
   "2026-07-20T24:00:00Z"; "2026-07-20T12:02:00"; "2026-07-20"] =
  [Some (1784548920 * Second); Some (1784548920 * Second + 5); Some (1784538120 * Second + 500000000); None; None; None; None].
Proof. vm_compute. reflexivity. Qed.

(** ** A value reads back *)

Lemma pow2_pos k : 0 <= k -> 0 < 2 ^ k.
Proof. intros. by apply Z.pow_pos_nonneg. Qed.

(** [n/d] is [m * 2^e]; [s] makes both exponents natural. *)
Definition ratio_is (n d m e : Z) : Prop := forall s, 0 <= s -> 0 <= e + s -> n * 2 ^ s = m * d * 2 ^ (e + s).

Lemma ratio_is_intro n d m e : (if 0 <=? e then n = m * 2 ^ e * d else n * 2 ^ (- e) = m * d) -> ratio_is n d m e.
Proof.
  intros H s Hs Hes. destruct (Z.leb_spec 0 e) as [He|He].
  - rewrite Z.pow_add_r by lia. subst n. ring.
  - replace s with (- e + (e + s)) at 1 by lia. rewrite (Z.pow_add_r 2 (- e)) by lia. rewrite Z.mul_assoc, H. ring.
Qed.

(** The scaled comparison, free of the sign of the exponent. *)
Lemma scaled_two n d k s : 0 <= s -> 0 <= k + s ->
  let '(n', d') := scaled 2 (- k) n d in n' * 2 ^ (k + s) * d = n * 2 ^ s * d' /\ (0 < d -> 0 < d').
Proof.
  intros Hs Hks. unfold scaled. destruct (Z.leb_spec 0 (- k)).
  - replace s with (- k + (k + s)) at 2 by lia. rewrite (Z.pow_add_r 2 (- k)) by lia. split; [ring|done].
  - rewrite (Z.opp_involutive k), (Z.pow_add_r 2 k) by lia. split; [ring|].
    intros. pose proof (pow2_pos k). nia.
Qed.

Lemma scaled_le n d k s : 0 < d -> 0 <= s -> 0 <= k + s ->
  let '(n', d') := scaled 2 (- k) n d in d' <= n' <-> d * 2 ^ (k + s) <= n * 2 ^ s.
Proof.
  intros Hd Hs Hks. pose proof (scaled_two n d k s Hs Hks) as H.
  destruct (scaled 2 (- k) n d) as [n' d']. destruct H as [H Hd']. specialize (Hd' Hd).
  pose proof (pow2_pos (k + s) Hks) as Hp. split; intros Hle.
  - apply (Z.mul_le_mono_pos_r _ _ d'); [done|]. rewrite <- H.
    transitivity (d' * (2 ^ (k + s) * d)); [lia|]. rewrite <- (Z.mul_assoc n'). apply Z.mul_le_mono_nonneg_r; nia.
  - apply (Z.mul_le_mono_pos_r _ _ (2 ^ (k + s) * d)); [nia|].
    rewrite (Z.mul_assoc n'), H. transitivity (d * 2 ^ (k + s) * d'); [lia|]. apply Z.mul_le_mono_nonneg_r; lia.
Qed.

Lemma log2_bounds n : 0 < n -> 0 <= Z.log2 n /\ 2 ^ Z.log2 n <= n < 2 ^ (Z.log2 n + 1).
Proof. intros H. pose proof (Z.log2_spec n H). pose proof (Z.log2_nonneg n). lia. Qed.

(** The logarithm of an exact value. *)
Lemma log2_ratio_exact n d m e : 0 < n -> 0 < d -> 0 < m -> ratio_is n d m e -> log2_ratio n d = Z.log2 m + e.
Proof.
  intros Hn Hd Hm Hr. unfold log2_ratio.
  destruct (log2_bounds n Hn) as (Ha0 & Ha). destruct (log2_bounds d Hd) as (Hb0 & Hb).
  destruct (log2_bounds m Hm) as (Hc0 & Hc).
  set (a := Z.log2 n) in *. set (b := Z.log2 d) in *. set (c := Z.log2 m) in *.
  set (s := Z.abs e + a + b). assert (0 <= s /\ 0 <= e + s /\ 0 <= a - b + s) as (Hs & Hes & Hks) by lia.
  specialize (Hr s Hs Hes). pose proof (pow2_pos s Hs). pose proof (pow2_pos (e + s) Hes).
  assert (Hlow : d * 2 ^ (c + e + s) <= n * 2 ^ s).
  { rewrite Hr. replace (c + e + s) with (c + (e + s)) by lia. rewrite (Z.pow_add_r 2 c) by lia.
    replace (d * (2 ^ c * 2 ^ (e + s))) with (2 ^ c * (d * 2 ^ (e + s))) by ring.
    rewrite <- Z.mul_assoc. apply Z.mul_le_mono_nonneg_r; nia. }
  assert (Hhigh : n * 2 ^ s < d * 2 ^ (c + e + s + 1)).
  { rewrite Hr. replace (c + e + s + 1) with (c + 1 + (e + s)) by lia. rewrite (Z.pow_add_r 2 (c + 1)) by lia.
    replace (d * (2 ^ (c + 1) * 2 ^ (e + s))) with (2 ^ (c + 1) * (d * 2 ^ (e + s))) by ring.
    rewrite <- Z.mul_assoc. apply Z.mul_lt_mono_pos_r; nia. }
  assert (Hle : c + e <= a - b).
  { destruct (Z.le_gt_cases (c + e) (a - b)); [done|exfalso].
    assert (2 ^ (b + (c + e + s)) < 2 ^ (a + 1 + s)).
    { rewrite (Z.pow_add_r 2 b), (Z.pow_add_r 2 (a + 1)) by lia. pose proof (pow2_pos (c + e + s) ltac:(lia)). nia. }
    pose proof (Z.pow_le_mono_r 2 (a + 1 + s) (b + (c + e + s)) ltac:(lia)). lia. }
  assert (Hge : a - b - 1 <= c + e).
  { destruct (Z.le_gt_cases (a - b - 1) (c + e)); [done|exfalso].
    assert (2 ^ (a + s) < 2 ^ (b + 1 + (c + e + s + 1))).
    { rewrite (Z.pow_add_r 2 a), (Z.pow_add_r 2 (b + 1)) by lia. pose proof (pow2_pos (c + e + s + 1) ltac:(lia)). nia. }
    pose proof (Z.pow_le_mono_r 2 (b + 1 + (c + e + s + 1)) (a + s) ltac:(lia)). lia. }
  pose proof (scaled_le n d (a - b) s Hd Hs Hks) as Ht. destruct (scaled 2 (- (a - b)) n d) as [n' d'].
  destruct (Z.leb_spec d' n') as [Hdn|Hdn].
  - apply Ht in Hdn. destruct (Z.eq_dec (c + e) (a - b)); [lia|exfalso].
    pose proof (Z.pow_le_mono_r 2 (c + e + s + 1) (a - b + s) ltac:(lia)). nia.
  - destruct (Z.eq_dec (c + e) (a - b)) as [E|E]; [exfalso|lia].
    replace (c + e + s) with (a - b + s) in Hlow by lia. apply Ht in Hlow. lia.
Qed.

(** A representable value is rounded to itself. *)
Lemma round_exact neg n d m e : canonical (mkFloat neg m e) = true -> 0 <= n -> 0 < d -> ratio_is n d m e ->
  n <> 0 -> round_ratio neg n d = Some (mkFloat neg m e).
Proof.
  unfold canonical. intros Hcan Hn Hd Hr Hn0. cbn in Hcan. bools.
  assert (Hm : 0 < m).
  { destruct (Z.eq_dec m 0) as [->|]; [exfalso|lia].
    specialize (Hr (Z.abs e) ltac:(lia) ltac:(lia)). pose proof (pow2_pos (Z.abs e)). nia. }
  unfold round_ratio. rewrite (proj2 (Z.eqb_neq n 0)) by done.
  rewrite (log2_ratio_exact n d m e) by (lia || done).
  assert (Z.max (Z.log2 m + e - mant_bits) min_exp = e) as ->.
  { unfold mant_bits, min_exp in *. assert (Z.log2 m < 53) by (apply Z.log2_lt_pow2; lia).
    match goal with H : (_ || _) = true |- _ => apply orb_true_iff in H; destruct H end; bools; [|lia].
    assert (52 <= Z.log2 m) by (apply Z.log2_le_pow2; lia). lia. }
  pose proof (scaled_two n d e (Z.abs e) ltac:(lia) ltac:(lia)) as Ht.
  specialize (Hr (Z.abs e) ltac:(lia) ltac:(lia)).
  destruct (scaled 2 (- e) n d) as [n' d']. destruct Ht as [Ht Hd']. specialize (Hd' Hd).
  assert (n' = m * d') as ->.
  { pose proof (pow2_pos (e + Z.abs e) ltac:(lia)). apply (Z.mul_reg_r _ _ (2 ^ (e + Z.abs e) * d)); [nia|].
    rewrite (Z.mul_assoc n'), Ht, Hr. ring. }
  rewrite Z.div_mul, Z.mod_mul by lia. cbv zeta.
  rewrite (proj2 (Z.ltb_ge d' (2 * 0))), (proj2 (Z.eqb_neq d' (2 * 0))) by lia. cbn [orb andb].
  rewrite (proj2 (Z.eqb_neq m _)) by lia. rewrite (proj2 (Z.ltb_ge max_exp e)) by lia. done.
Qed.

(** ** The text of a decimal reads as the decimal *)

Definition decimal_char (c : ascii) : bool := Ascii.eqb c "." || match digit_value c with Some _ => true | None => false end.

Lemma digit_value_char d : 0 <= d < 10 -> digit_value (digit_char d) = Some d.
Proof. apply digit_char_value. Qed.

Lemma fixed_digits f w n : (forall d, 0 <= d < 10 -> f (digit_char d) = true) -> str_forallb f (fixed w n) = true.
Proof.
  intros Hf. revert n. induction w as [|w IH]; intros n; cbn [fixed]; [done|].
  rewrite str_forallb_app, IH. cbn. rewrite andb_true_r. apply Hf, mod10_bound.
Qed.

(** A decimal is written in a fixed number of digits, one at least. *)
Lemma decimal_of_fixed n : 0 <= n -> exists k, decimal_of n = fixed k n /\ 0 <= n < 10 ^ Z.of_nat k /\ k <> O.
Proof.
  intros Hn. destruct (decimal_fixed (S (Z.to_nat (Z.log2 n))) n "") as (k & Hk & Hb & _ & _ & Hk0); [|done|].
  { split; [done|]. by apply decimal_of_bound. }
  exists k. unfold decimal_of. by rewrite Hk, str_app_nil_r.
Qed.

Lemma scan_fixed dot digits mant frac w n r : 0 <= n < 10 ^ Z.of_nat w ->
  scan_mantissa false dot digits mant frac (fixed w n +:+ r) =
  scan_mantissa false dot (digits || negb (Nat.eqb w 0)) (mant * 10 ^ Z.of_nat w + n)
                (if dot then frac + Z.of_nat w else frac) r.
Proof.
  revert n digits mant frac r. induction w as [|w IH]; intros n digits mant frac r Hn.
  - cbn in *. rewrite orb_false_r. replace n with 0 by lia. f_equal; [lia|]. destruct dot; lia.
  - cbn [fixed]. pose proof (Z.div_mod n 10). pose proof (mod10_bound n) as Hd.
    rewrite <- str_app_assoc, IH by (split; [apply Z.div_pos; lia|apply div10_lt; lia]).
    cbn [String.append scan_mantissa base_digit].
    pose proof (digit_value_char _ Hd) as Hv.
    destruct (Ascii.eqb_spec (digit_char (n mod 10)) "_") as [E|_]; [by rewrite E in Hv|].
    destruct (Ascii.eqb_spec (digit_char (n mod 10)) ".") as [E|_]; [by rewrite E in Hv|].
    rewrite Hv, pow10_S. f_equal; [by rewrite orb_true_r|lia|]. destruct dot; lia.
Qed.

Lemma strip_zeros_value fuel c q : 0 <= c -> q <= 0 ->
  let '(c', q') := strip_zeros fuel c q in 0 <= c' /\ q <= q' <= 0 /\ c = c' * 10 ^ (q' - q).
Proof.
  revert c q. induction fuel as [|fuel IH]; intros c q Hc Hq; cbn [strip_zeros].
  - rewrite Z.sub_diag. lia.
  - destruct (Z.ltb_spec q 0); [|cbn; rewrite Z.sub_diag; lia].
    destruct (Z.eqb_spec (c mod 10) 0) as [E|]; [|cbn; rewrite Z.sub_diag; lia]. cbn [andb].
    specialize (IH (c / 10) (q + 1) ltac:(apply Z.div_pos; lia) ltac:(lia)).
    destruct (strip_zeros fuel (c / 10) (q + 1)) as [c' q']. destruct IH as (Hc' & Hq' & IH).
    split; [done|]. split; [lia|]. pose proof (Z.div_mod c 10 ltac:(lia)).
    replace (q' - q) with (Z.succ (q' - (q + 1))) by lia. rewrite Z.pow_succ_r by lia. lia.
Qed.

(** The text of [c * 10^q] without its sign. *)
Definition unsigned_text (c q : Z) : string :=
  if 0 <=? q then decimal_of (c * 10 ^ q)
  else decimal_of (c / 10 ^ (- q)) +:+ String "." (fixed (Z.to_nat (- q)) (c mod 10 ^ (- q))).

Lemma decimal_digits f fuel : (forall d, 0 <= d < 10 -> f (digit_char d) = true) -> forall n acc,
  str_forallb f acc = true -> str_forallb f (decimal fuel n acc) = true /\ (fuel <> O -> decimal fuel n acc <> "").
Proof.
  intros Hf. induction fuel as [|fuel IH]; intros n acc Ha; cbn [decimal]; [done|].
  assert (Hc : str_forallb f (String (digit_char (n mod 10)) acc) = true) by (cbn; by rewrite Hf by apply mod10_bound).
  destruct (n / 10 =? 0); [done|]. destruct (IH (n / 10) _ Hc) as [H1 H2]. split; [done|]. intros _.
  destruct fuel; [done|]. by apply H2.
Qed.

Lemma unsigned_chars c q : str_forallb decimal_char (unsigned_text c q) = true /\ unsigned_text c q <> "".
Proof.
  assert (Hd : forall d, 0 <= d < 10 -> decimal_char (digit_char d) = true).
  { intros d Hd. unfold decimal_char. rewrite digit_value_char by done. apply orb_true_r. }
  assert (Hn : forall n, str_forallb decimal_char (decimal_of n) = true /\ decimal_of n <> "").
  { intros n. destruct (decimal_digits decimal_char (S (Z.to_nat (Z.log2 n))) Hd n "" eq_refl) as [H1 H2]. auto. }
  unfold unsigned_text. destruct (0 <=? q); [done|]. destruct (Hn (c / 10 ^ (- q))) as [H1 H2]. split.
  - rewrite str_forallb_app, H1. cbn. by rewrite fixed_digits.
  - destruct (decimal_of (c / 10 ^ (- q))); done.
Qed.

Lemma scan_unsigned c q : 0 <= c -> q <= 0 ->
  scan_mantissa false false false 0 0 (unsigned_text c q) = (c, - q, true, "").
Proof.
  intros Hc Hq. unfold unsigned_text. destruct (Z.leb_spec 0 q) as [Hq0|Hq0].
  - assert (q = 0) as -> by lia. rewrite Z.mul_1_r.
    destruct (decimal_of_fixed c Hc) as (k & -> & Hk & Hk0). rewrite <- (str_app_nil_r (fixed k c)), scan_fixed by done.
    cbn. by destruct k.
  - assert (Hp : 0 < 10 ^ (- q)) by (apply Z.pow_pos_nonneg; lia).
    destruct (decimal_of_fixed (c / 10 ^ (- q))) as (k & -> & Hk & Hk0); [apply Z.div_pos; lia|].
    rewrite scan_fixed by done. cbn [scan_mantissa Ascii.eqb Bool.eqb]. cbn.
    rewrite <- (str_app_nil_r (fixed _ (c mod _))), scan_fixed.
    + cbn. rewrite Z2Nat.id by lia.
      repeat (apply pair_equal_spec; split); [| |by destruct k|done].
      * pose proof (Z.div_mod c (10 ^ (- q))). lia.
      * lia.
    + rewrite Z2Nat.id by lia. by apply Z.mod_pos_bound.
Qed.

(** A text of decimal characters has no sign and no hexadecimal prefix. *)
Lemma chars_split s : str_forallb decimal_char s = true -> split_sign s = (false, s) /\ hex_prefixed s = false /\ str_contains "_" s = false.
Proof.
  intros H.
  assert (Hno : forall c, decimal_char c = false -> str_contains c s = false).
  { intros c Hc. induction s as [|c' s IH]; [done|]. cbn in H |- *. bools. rewrite IH by done. rewrite orb_false_r.
    apply Ascii.eqb_neq. intros ->. congruence. }
  split; [|split; [|by apply Hno]].
  - destruct s as [|c s]; [done|]. cbn [split_sign].
    destruct (Ascii.eqb_spec c "-") as [->|_]; [by specialize (Hno "-"%char eq_refl)|].
    by destruct (Ascii.eqb_spec c "+") as [->|_]; [specialize (Hno "+"%char eq_refl)|].
  - destruct s as [|c0 [|c1 [|c2 s]]]; cbn [hex_prefixed]; try done.
    apply andb_false_iff. right. apply Z.eqb_neq. intros E.
    pose proof (Hno "x"%char eq_refl) as H1. pose proof (Hno "X"%char eq_refl) as H2. cbn [str_contains] in H1, H2.
    apply orb_false_iff in H1 as [_ H1], H2 as [_ H2]. apply orb_false_iff in H1 as [H1 _], H2 as [H2 _].
    apply Ascii.eqb_neq in H1, H2. unfold lower, char_code in E. clear -E H1 H2.
    destruct c1 as [[] [] [] [] [] [] [] []]; vm_compute in E; congruence.
Qed.

Lemma split_negative (neg : bool) s : str_forallb decimal_char s = true ->
  split_sign ((if neg then "-" else "") +:+ s) = (neg, s).
Proof. intros H. destruct neg; cbn; [done|]. by apply chars_split. Qed.

(** The exact decimal of a value reads back as the value. *)
Lemma parse_decimal_text x c q : canonical x = true -> fl_mant x <> 0 -> 0 <= c -> q <= 0 ->
  (forall c' q', q <= q' <= 0 -> c = c' * 10 ^ (q' - q) -> 0 <= c' -> ratio_is c' (10 ^ (- q')) (fl_mant x) (fl_exp x)) ->
  ParseFloat (decimal_text (fl_neg x) c q) = Some x.
Proof.
  intros Hcan Hm Hc Hq Hr. unfold decimal_text.
  pose proof (strip_zeros_value (Z.to_nat (- q)) c q Hc Hq) as Hs.
  destruct (strip_zeros (Z.to_nat (- q)) c q) as [c' q']. destruct Hs as (Hc' & Hq' & Hv).
  specialize (Hr c' q' Hq' Hv Hc'). change (if 0 <=? q' then _ else _) with (unsigned_text c' q').
  destruct (unsigned_chars c' q') as [Hchars _]. unfold ParseFloat. rewrite split_negative by done.
  destruct (chars_split _ Hchars) as (_ & -> & ->). rewrite scan_unsigned by lia. cbn [negb read_exponent andb].
  rewrite Z.sub_opp_r, Z.add_0_l. unfold scaled.
  destruct (Z.leb_spec 0 q') as [Hq0|Hq0].
  - assert (q' = 0) as -> by lia. rewrite Z.mul_1_r. change (10 ^ (- 0)) with 1 in Hr.
    destruct x as [neg m e]. cbn in *. apply round_exact; try (done || lia).
    intros ->. specialize (Hr (Z.abs e) ltac:(lia) ltac:(lia)). pose proof (pow2_pos (e + Z.abs e)). nia.
  - rewrite Z.mul_1_l. assert (0 < 10 ^ (- q')) by (apply Z.pow_pos_nonneg; lia).
    destruct x as [neg m e]. cbn in *. apply round_exact; try (done || lia).
    intros ->. specialize (Hr (Z.abs e) ltac:(lia) ltac:(lia)). pose proof (pow2_pos (e + Z.abs e)). nia.
Qed.

Lemma parse_exact x : canonical x = true -> fl_mant x <> 0 ->
  let '(c, q) := exact_decimal x in ParseFloat (decimal_text (fl_neg x) c q) = Some x.
Proof.
  intros Hcan Hm. assert (0 <= fl_mant x) by (unfold canonical in Hcan; bools; lia).
  unfold exact_decimal. destruct (Z.leb_spec 0 (fl_exp x)) as [He|He].
  - pose proof (pow2_pos (fl_exp x) He). apply parse_decimal_text; try (done || lia || nia).
    intros c' q' Hq' Hv Hc'. assert (q' = 0) as -> by lia. rewrite Z.mul_1_r in Hv. subst c'.
    apply ratio_is_intro. rewrite (proj2 (Z.leb_le 0 (fl_exp x))) by done. cbn. lia.
  - assert (0 < 5 ^ (- fl_exp x)) by (apply Z.pow_pos_nonneg; lia).
    apply parse_decimal_text; try (done || lia || nia).
    intros c' q' Hq' Hv Hc'. apply ratio_is_intro. rewrite (proj2 (Z.leb_gt 0 (fl_exp x))) by done.
    assert (Hp : 0 < 10 ^ (q' - fl_exp x)) by (apply Z.pow_pos_nonneg; lia).
    apply (Z.mul_reg_r _ _ (10 ^ (q' - fl_exp x))); [lia|].
    transitivity (c' * 10 ^ (q' - fl_exp x) * 2 ^ (- fl_exp x)); [ring|].
    rewrite <- Hv. transitivity (fl_mant x * (10 ^ (- q') * 10 ^ (q' - fl_exp x))); [|ring].
    rewrite <- Z.pow_add_r by lia. replace (- q' + (q' - fl_exp x)) with (- fl_exp x) by lia.
    rewrite <- Z.mul_assoc, <- Z.pow_mul_l. done.
Qed.

Lemma shortest_parse k digits x : canonical x = true -> fl_mant x <> 0 ->
  let '(c, q) := shortest k digits x in ParseFloat (decimal_text (fl_neg x) c q) = Some x.
Proof.
  intros Hcan Hm. revert digits. induction k as [|k IH]; intros digits; cbn [shortest].
  - by apply parse_exact.
  - destruct (float_ratio x) as [n d].
    destruct (List.filter _ _) as [|[c q] rest] eqn:E; [apply IH|].
    assert (Hin : In (c, q) ((c, q) :: rest)) by (left; reflexivity). rewrite <- E in Hin.
    apply filter_In in Hin as [_ Hin]. unfold reads_back in Hin. cbn in Hin. by bools.
Qed.

(** [strconv]: the text of a value parses to the value. *)
Lemma format_parse x : canonical x = true -> ParseFloat (FormatFloat x) = Some x.
Proof.
  intros Hcan. unfold FormatFloat. destruct (Z.eqb_spec (fl_mant x) 0) as [E|E].
  - destruct x as [neg m e]. cbn in E |- *. subst m. unfold canonical in Hcan. cbn [fl_mant fl_exp] in Hcan.
    assert (e = min_exp) as ->.
    { destruct (Z.eqb_spec e min_exp) as [Ee|]; [exact Ee|]. change (2 ^ mant_bits <=? 0) with false in Hcan.
      cbn [orb] in Hcan. by rewrite andb_false_r in Hcan. }
    by destruct neg.
  - pose proof (shortest_parse 17 1 x Hcan E) as H. by destruct (shortest 17 1 x) as [c q].
Qed.

(** A number's text: a sign, perhaps, and decimal characters. *)
Lemma format_chars x : exists neg u, FormatFloat x = (if neg : bool then "-" else "") +:+ u /\
  str_forallb decimal_char u = true /\ u <> "".
Proof.
  assert (H : forall neg c q, exists u, decimal_text neg c q = (if neg : bool then "-" else "") +:+ u /\
    str_forallb decimal_char u = true /\ u <> "").
  { intros neg c q. unfold decimal_text. destruct (strip_zeros _ c q) as [c' q'].
    exists (unsigned_text c' q'). split; [done|apply unsigned_chars]. }
  exists (fl_neg x). unfold FormatFloat. destruct (fl_mant x =? 0); [apply H|].
  destruct (shortest 17 1 x) as [c q]. apply H.
Qed.

(** ** Integers among the numbers *)

Lemma digits_scan s acc dg n : parse_digits acc s = Some n ->
  scan_mantissa false false dg acc 0 s = (n, 0, dg || negb (String.eqb s ""), "") /\ str_forallb decimal_char s = true.
Proof.
  revert acc dg. induction s as [|c s IH]; intros acc dg H; cbn in H |- *.
  - injection H as ->. by rewrite orb_false_r.
  - destruct (digit_value c) as [d|] eqn:Hd; [|done].
    destruct (Ascii.eqb_spec c "_") as [->|_]; [done|]. destruct (Ascii.eqb_spec c ".") as [->|Hdot]; [done|].
    destruct (IH _ true H) as [IHs IHc]. rewrite (Z.mul_comm acc 10), IHs. split; [by rewrite orb_true_r|].
    unfold decimal_char at 1. rewrite Hd, IHc. by rewrite orb_true_r.
Qed.

(** A text that is an [int64] is the same number as a float. *)
Lemma parse_int_float s n : ParseInt s = Some n ->
  exists neg, ParseFloat s = round_ratio neg (Z.abs n) 1 /\ (n <> 0 -> neg = (n <? 0)).
Proof.
  unfold ParseInt, ParseFloat. change (match s with String _ _ => _ | EmptyString => _ end) with (split_sign s) at 1.
  destruct (split_sign s) as [neg u]. unfold parse_nonempty.
  destruct u as [|c u]; [done|]. destruct (parse_digits 0 (String c u)) as [k|] eqn:Hp; [|done].
  destruct (digits_scan _ _ false _ Hp) as [Hs Hc]. destruct (chars_split _ Hc) as (_ & Hx & Hu).
  rewrite Hx, Hs, Hu. cbn [negb orb String.eqb read_exponent andb]. unfold scaled. cbn [Z.leb Z.sub Z.opp Z.add].
  cbn. rewrite Z.mul_1_r.
  assert (Hk : 0 <= k).
  { clear -Hp. assert (Hg : forall s acc, 0 <= acc -> forall k, parse_digits acc s = Some k -> 0 <= k).
    { clear. induction s as [|c s IH]; intros acc Ha k; cbn; [congruence|].
      unfold digit_value. destruct (_ && _) eqn:E; [|done]. bools. apply IH. lia. }
    eapply Hg; [|exact Hp]; lia. }
  intros H. exists neg. destruct neg.
  - destruct (k <=? _); [|done]. injection H as <-. rewrite Z.abs_opp, Z.abs_eq by done. split; [done|].
    intros. symmetry. apply Z.ltb_lt. lia.
  - destruct (k <=? _); [|done]. injection H as <-. rewrite Z.abs_eq by done. split; [done|].
    intros. symmetry. apply Z.ltb_ge. lia.
Qed.
