(* ===== verification/Netip.v ===== *)
(** * Network addresses

    The part of Go's net/netip a session's client network is made with: reading
    an address with or without a port, its text, and the network of its leading
    bits.  An address is a number of 32 or 128 bits, the longer kind with a zone. *)

From Stdlib Require Import ZArith Lia String Ascii List Bool.
From stdpp Require Import base list strings.
From S2P Require Import Prelude Shared Hlc Text Literal.

Open Scope string_scope.
Open Scope list_scope.
Open Scope Z_scope.

Inductive addr : Type :=
  | Addr4 (n : Z)
  | Addr6 (n : Z) (zone : string).

#[export] Instance addr_eq_dec : EqDecision addr.
Proof. solve_decision. Defined.

(** ** Reading *)

(** The four fields: [digits] are those of the field being read, [fields] the
    complete ones, [acc] their bytes. *)
Fixpoint parse_fields (s : string) (value digits fields acc : Z) : option Z :=
  match s with
  | EmptyString => if fields <? 3 then None else Some (acc * 256 + value)
  | String c rest =>
      match digit_value c with
      | Some d =>
          if (digits =? 1) && (value =? 0) then None
          else if 255 <? value * 10 + d then None
          else parse_fields rest (value * 10 + d) (digits + 1) fields acc
      | None =>
          if Ascii.eqb c "." then
            if (digits =? 0) || String.eqb rest "" || (fields =? 3) then None
            else parse_fields rest 0 0 (fields + 1) (acc * 256 + value)
          else None
      end
  end.

Definition parseIPv4 (s : string) : option Z := parse_fields s 0 0 0 0.

(** The leading hexadecimal digits, how many and their value. *)
Fixpoint hex_run (s : string) (count value : Z) : Z * Z * string :=
  match s with
  | String c rest =>
      match hex_value c with
      | Some d => hex_run rest (count + 1) (value * 16 + d)
      | None => (count, value, s)
      end
  | EmptyString => (count, value, s)
  end.

(** The groups of 16 bits; [ellipsis] is the number of groups before the double
    colon. [room] is how many still fit. *)
Fixpoint parse_groups (room : nat) (s : string) (groups : list Z) (ellipsis : option nat) :
    option (list Z * option nat * string) :=
  match room with
  | O => Some (groups, ellipsis, s)
  | S room' =>
      let '(count, value, rest) := hex_run s 0 0 in
      if (count =? 0) || (4 <? count) then None
      else
        match rest with
        | String "." _ =>
            if (match ellipsis with None => negb (Nat.eqb (List.length groups) 6) | Some _ => false end) ||
               Nat.ltb 8 (List.length groups + 2) then None
            else match parseIPv4 s with
                 | Some n => Some (groups ++ [n / 65536; n mod 65536], ellipsis, "")
                 | None => None
                 end
        | EmptyString => Some (groups ++ [value], ellipsis, "")
        | String ":" EmptyString => None
        | String ":" (String ":" rest') =>
            match ellipsis with
            | Some _ => None
            | None =>
                let groups := groups ++ [value] in
                if String.eqb rest' "" then Some (groups, Some (List.length groups), "")
                else parse_groups room' rest' groups (Some (List.length groups))
            end
        | String ":" rest' => parse_groups room' rest' (groups ++ [value]) ellipsis
        | _ => None
        end
  end.

Definition of_groups (groups : list Z) : Z := fold_left (fun acc g => acc * 65536 + g) groups 0.

Definition finish_groups (groups : list Z) (ellipsis : option nat) (rest : string) : option Z :=
  if negb (String.eqb rest "") then None
  else match ellipsis with
       | None => if Nat.ltb (List.length groups) 8 then None else Some (of_groups groups)
       | Some e =>
           if Nat.ltb (List.length groups) 8 then
             Some (of_groups (take e groups ++ replicate (8 - List.length groups) 0 ++ drop e groups))
           else None
       end.

Definition parseIPv6 (raw : string) : option addr :=
  match (match str_cut "%" raw with
         | Some (s, zone) => if String.eqb zone "" then None else Some (s, zone)
         | None => Some (raw, "")
         end) with
  | None => None
  | Some (s, zone) =>
      let leading := str_has_prefix "::" s in
      if leading && String.eqb (str_drop 2 s) "" then Some (Addr6 0 zone)
      else
        match (if leading then parse_groups 8 (str_drop 2 s) [] (Some O) else parse_groups 8 s [] None) with
        | Some (groups, ellipsis, rest) => option_map (fun n => Addr6 n zone) (finish_groups groups ellipsis rest)
        | None => None
        end
  end.

(** The first dot, colon or percent sign decides. *)
Fixpoint address_kind (s : string) : option bool :=
  match s with
  | EmptyString => None
  | String c rest =>
      if Ascii.eqb c "." then Some false
      else if Ascii.eqb c ":" then Some true
      else if Ascii.eqb c "%" then None
      else address_kind rest
  end.

Definition ParseAddr (s : string) : option addr :=
  match address_kind s with
  | Some false => option_map Addr4 (parseIPv4 s)
  | Some true => parseIPv6 s
  | None => None
  end.

(** The text before and after the last colon. *)
Fixpoint cut_last (sep : ascii) (s : string) : option (string * string) :=
  match s with
  | EmptyString => None
  | String c rest =>
      match cut_last sep rest with
      | Some (before, after) => Some (String c before, after)
      | None => if Ascii.eqb c sep then Some ("", rest) else None
      end
  end.

Definition is_v6 (a : addr) : bool := match a with Addr6 _ _ => true | Addr4 _ => false end.

(** [ParseAddrPort], of which only the address is asked for. *)
Definition ParseAddrPort (s : string) : option addr :=
  match cut_last ":" s with
  | None => None
  | Some (ip, port) =>
      if String.eqb ip "" || String.eqb port "" then None
      else
        let bracketed := str_has_prefix "[" ip in
        if bracketed && (Nat.ltb (String.length ip) 2 || negb (str_ends_with "]" ip)) then None
        else
          let ip := if bracketed then str_take (String.length ip - 2) (str_drop 1 ip) else ip in
          match parse_nonempty port with
          | Some p =>
              if 65535 <? p then None
              else match ParseAddr ip with
                   | Some a => if Bool.eqb bracketed (is_v6 a) then Some a else None
                   | None => None
                   end
          | None => None
          end
  end.

(** ** Writing *)

Definition dotted (n : Z) : string :=
  decimal_of (n / 16777216) +:+ "." +:+ decimal_of (n / 65536 mod 256) +:+ "." +:+
  decimal_of (n / 256 mod 256) +:+ "." +:+ decimal_of (n mod 256).

Definition hex_char_of (d : Z) : ascii := ascii_of_N (Z.to_N (if d <? 10 then 48 + d else 87 + d)).

Definition hex_text (g : Z) : string :=
  (if 4096 <=? g then String (hex_char_of (g / 4096)) "" else "") +:+
  (if 256 <=? g then String (hex_char_of (g / 256 mod 16)) "" else "") +:+
  (if 16 <=? g then String (hex_char_of (g / 16 mod 16)) "" else "") +:+
  String (hex_char_of (g mod 16)) "".

(** The groups of an address, the first one first. *)
Definition groups_of (n : Z) : list Z := map (fun i => n / 65536 ^ (7 - Z.of_nat i) mod 65536) (seq 0 8).

Fixpoint leading_zeros (groups : list Z) : nat :=
  match groups with
  | g :: rest => if g =? 0 then S (leading_zeros rest) else O
  | [] => O
  end.

(** The first of the longest runs of at least two zero groups. *)
Definition zero_run (groups : list Z) : option (nat * nat) :=
  fold_left (fun best i =>
    let l := leading_zeros (drop i groups) in
    if Nat.leb 2 l && Nat.ltb (match best with Some (_, b) => b | None => 0%nat end) l then Some (i, l) else best)
    (seq 0 8) None.

Definition colons (groups : list Z) : string := String.concat ":" (map hex_text groups).

Definition zone_text (zone : string) : string := if String.eqb zone "" then "" else "%" +:+ zone.

Definition is_4in6 (n : Z) : bool := n / 4294967296 =? 65535.

Definition addr_string (a : addr) : string :=
  match a with
  | Addr4 n => dotted n
  | Addr6 n zone =>
      if is_4in6 n then "::ffff:" +:+ dotted (n mod 4294967296) +:+ zone_text zone
      else
        let groups := groups_of n in
        match zero_run groups with
        | None => colons groups +:+ zone_text zone
        | Some (i, l) => colons (take i groups) +:+ "::" +:+ colons (drop (i + l) groups) +:+ zone_text zone
        end
  end.

(** [Unmap]: an IPv4 address in an IPv6 one is that address. *)
Definition Unmap (a : addr) : addr :=
  match a with
  | Addr6 n _ => if is_4in6 n then Addr4 (n mod 4294967296) else a
  | Addr4 _ => a
  end.

(** [Prefix(bits)]: the leading bits, without a zone, and its text. *)
Definition masked (a : addr) (bits : Z) : addr :=
  match a with
  | Addr4 n => Addr4 (n - n mod 2 ^ (32 - bits))
  | Addr6 n _ => Addr6 (n - n mod 2 ^ (128 - bits)) ""
  end.
Definition prefix_string (a : addr) (bits : Z) : string := addr_string (masked a bits) +:+ "/" +:+ itoa bits.

(** ** Small runs *)

Example addresses_read : map ParseAddr
  ["192.0.2.7"; "192.0.02.7"; "256.0.0.1"; "1.2.3"; "1.2.3.4.5"; "::"; "::1"; "2001:db8::7"; "1:2:3:4:5:6:7:8";
   "1:2:3:4:5:6:7::8"; "::ffff:192.0.2.7"; "fe80::1%eth0"; "fe80::1%"; "12345::"; "1::2::3"; ":1"; "1:"; ""] =
  [Some (Addr4 3221225991); None; None; None; None; Some (Addr6 0 ""); Some (Addr6 1 "");
   Some (Addr6 42540766411282592856903984951653826567 ""); Some (Addr6 5192455318486707404433266433261576 "");
   None; Some (Addr6 281473902969351 ""); Some (Addr6 338288524927261089654018896841347694593 "eth0");
   None; None; None; None; None; None].
Proof. vm_compute. reflexivity. Qed.

Example addresses_written : map (fun s => option_map addr_string (ParseAddr s))
  ["192.0.2.7"; "::"; "1:0:0:2:0:0:0:3"; "::ffff:192.0.2.7"; "FE80::0001%eth0"; "1:0:2:3:4:5:6:7"; "2001:DB8::"] =
  map Some ["192.0.2.7"; "::"; "1:0:0:2::3"; "::ffff:192.0.2.7"; "fe80::1%eth0"; "1:0:2:3:4:5:6:7"; "2001:db8::"].
Proof. vm_compute. reflexivity. Qed.

Example ports_read : map (fun s => option_map addr_string (ParseAddrPort s))
  ["192.0.2.7:443"; "[2001:db8::7]:443"; "2001:db8::7:443"; "192.0.2.7"; "[192.0.2.7]:443"; "192.0.2.7:65536"] =
  [Some "192.0.2.7"; Some "2001:db8::7"; None; None; None; None].
Proof. vm_compute. reflexivity. Qed.
