(* ===== verification/Token.v ===== *)
(** * Presented credentials

    Models core/domain/model/identity/Token.go, the three stored shapes of
    Session.go built on it (refresh and redemption tokens), and AccessToken.go:
    what a token is made of, how it is read, and when a personal access token
    may be used.  The randomness is handed in, as in the source; base64 is the
    URL alphabet of Go's encoding/base64 without padding. *)

From Stdlib Require Import ZArith Lia String Ascii List Bool.
From stdpp Require Import base list strings.
From S2P Require Import Prelude Shared Text.

Open Scope string_scope.
Open Scope list_scope.
Open Scope Z_scope.

(** ** base64.RawURLEncoding *)

Definition byte_char (n : Z) : ascii := ascii_of_N (Z.to_N n).

Definition base64_char (n : Z) : ascii :=
  if n <? 26 then byte_char (65 + n)
  else if n <? 52 then byte_char (97 + (n - 26))
  else if n <? 62 then byte_char (48 + (n - 52))
  else if n =? 62 then "-" else "_".

(** Three bytes are four characters; one left over is two, two are three. *)
Fixpoint encode64 (s : string) : string :=
  match s with
  | String a (String b (String c rest)) =>
      let n := byte_of a * 65536 + byte_of b * 256 + byte_of c in
      String (base64_char (n / 262144)) (String (base64_char (n / 4096 mod 64))
        (String (base64_char (n / 64 mod 64)) (String (base64_char (n mod 64)) (encode64 rest))))
  | String a (String b EmptyString) =>
      let n := byte_of a * 65536 + byte_of b * 256 in
      String (base64_char (n / 262144)) (String (base64_char (n / 4096 mod 64))
        (String (base64_char (n / 64 mod 64)) EmptyString))
  | String a EmptyString =>
      let n := byte_of a * 65536 in
      String (base64_char (n / 262144)) (String (base64_char (n / 4096 mod 64)) EmptyString)
  | EmptyString => EmptyString
  end.

(** ** Token.go *)

Definition TokenPrefix : string := "hbt_pat_".
Definition RefreshTokenPrefix : string := "hbt_srt_".
Definition RedemptionTokenPrefix : string := "hbt_inv_".
Definition SessionAccessTokenPrefix : string := "hbt_sat_".
Definition TokenSecretBytes : nat := 32.
Definition tokenSecretLength : nat := 43.
Definition tenantHexLength : nat := 32.

Record Token := mkToken { to_tenant : ID; to_raw : string }.

Definition Secret (t : Token) : string := to_raw t.
Definition token_is_zero (t : Token) : bool := String.eqb (to_raw t) "".

Definition errTokenMalformed : Error := WithDetail ErrUnauthenticated "access.token_malformed".

Definition hex_char (c : ascii) : bool :=
  (48 <=? byte_of c) && (byte_of c <=? 57) || (97 <=? byte_of c) && (byte_of c <=? 102).

(** The groups of 8, 4, 4, 4 and 12 digits with hyphens between them. *)
Fixpoint grouped (groups : list nat) (hex : string) : string :=
  match groups with
  | [] => ""
  | [n] => str_take n hex
  | n :: rest => str_take n hex +:+ "-" +:+ grouped rest (str_drop n hex)
  end.

Definition tenantFromHex (hex : string) : res ID :=
  if negb (str_forallb hex_char hex) then Err errTokenMalformed
  else ParseID (grouped [8; 4; 4; 4; 12]%nat hex).

Definition base64url_char (c : ascii) : bool :=
  (97 <=? byte_of c) && (byte_of c <=? 122) || (65 <=? byte_of c) && (byte_of c <=? 90) ||
  (48 <=? byte_of c) && (byte_of c <=? 57) || (byte_of c =? 45) || (byte_of c =? 95).

Definition isBase64URL (s : string) : bool := str_forallb base64url_char s.

(** [ParseToken] and [parsePrefixed] are one function of the prefix: the tenant's
    digits, an underscore, the secret. *)
Definition parsePrefixed (raw prefix : string) : res Token :=
  if negb (str_has_prefix prefix raw) then Err errTokenMalformed
  else
    match str_cut "_" (str_drop (String.length prefix) raw) with
    | None => Err errTokenMalformed
    | Some (tenantHex, secret) =>
        if negb (Nat.eqb (String.length tenantHex) tenantHexLength) ||
           negb (Nat.eqb (String.length secret) tokenSecretLength) || negb (isBase64URL secret) then
          Err errTokenMalformed
        else match tenantFromHex tenantHex with
             | Ok tenant => Ok (mkToken tenant raw)
             | _ => Err errTokenMalformed
             end
    end.

Definition ParseToken (raw : string) : res Token := parsePrefixed raw TokenPrefix.
Definition ParseRefreshToken (raw : string) : res Token := parsePrefixed raw RefreshTokenPrefix.
Definition ParseRedemptionToken (raw : string) : res Token := parsePrefixed raw RedemptionTokenPrefix.

(** [strings.ReplaceAll(id, "-", "")]. *)
Fixpoint without_hyphens (s : string) : string :=
  match s with
  | EmptyString => EmptyString
  | String c rest => if Ascii.eqb c "-" then without_hyphens rest else String c (without_hyphens rest)
  end.

Definition NewToken (tenantID : ID) (secret : string) : res Token :=
  if id_is_zero tenantID then Err (WithDetail ErrValidation "access.token_tenant_missing")
  else if negb (Nat.eqb (String.length secret) TokenSecretBytes) then
    Err (WithDetail ErrValidation "access.token_secret_short")
  else Ok (mkToken tenantID (TokenPrefix +:+ without_hyphens tenantID +:+ "_" +:+ encode64 secret)).

(** [strings.TrimPrefix]. *)
Definition trim_prefix (prefix s : string) : string :=
  if str_has_prefix prefix s then str_drop (String.length prefix) s else s.

Definition newPrefixed (prefix : string) (tenantID : ID) (secret : string) : res Token :=
  token ← NewToken tenantID secret;
  Ok (mkToken tenantID (prefix +:+ trim_prefix TokenPrefix (to_raw token))).

Definition NewRefreshToken (tenantID : ID) (secret : string) : res Token := newPrefixed RefreshTokenPrefix tenantID secret.
Definition NewRedemptionToken (tenantID : ID) (secret : string) : res Token :=
  newPrefixed RedemptionTokenPrefix tenantID secret.

(** ** AccessToken.go *)

Inductive AccountStatus : Type :=
  | AccountActive | AccountInvited | AccountDisabled | AccountRestricted | AccountAnonymized
  | StatusOther (text : string).

#[export] Instance account_status_eq_dec : EqDecision AccountStatus.
Proof. solve_decision. Defined.

Definition status_text (s : AccountStatus) : string :=
  match s with
  | AccountActive => "ACTIVE" | AccountInvited => "INVITED" | AccountDisabled => "DISABLED"
  | AccountRestricted => "RESTRICTED" | AccountAnonymized => "ANONYMIZED" | StatusOther text => text
  end.

Definition MayAct (s : AccountStatus) : bool :=
  match s with AccountActive | AccountRestricted => true | _ => false end.
Definition ProcessingAllowed (s : AccountStatus) : bool :=
  match s with AccountRestricted | AccountAnonymized => false | _ => true end.
Definition RestrictionApplies (s : AccountStatus) : bool :=
  match s with AccountActive | AccountRestricted => true | _ => false end.

(** [Account.Verify], of the account's status. *)
Definition account_verify (s : AccountStatus) : res unit :=
  if MayAct s then Ok tt
  else Err (detailed ErrForbidden "access.account_not_active" [("status", status_text s)]).

Definition MaxTokenLifetime : Z := 365 * 24 * Hour.
Definition MaxTokenNameLength : nat := 200.

Record AccessToken := mkAccessToken {
  ac_id : ID;
  ac_tenant : ID;
  ac_account : ID;
  ac_name : string;
  ac_scopes : list string;
  ac_expires_at : Time;
  ac_revoked_at : Time;
  ac_last_used_at : Time;
  ac_created_at : Time
}.

Definition token_field (path code : string) : Error := field_refused ErrValidation path code [].

Definition checkExpiry (expiresAt now : Time) : res unit :=
  if time_is_zero expiresAt then Err (token_field "/expires_at" "access.token_expiry_required")
  else if expiresAt <=? now then Err (token_field "/expires_at" "access.token_expiry_past")
  else if now + MaxTokenLifetime <? expiresAt then
    Err (field_refused ErrValidation "/expires_at" "access.token_expiry_too_far" [("max_days", "365")])
  else Ok tt.

(** Repeats and blanks are dropped, the rest is sorted. *)
Definition normaliseScopes (requested : list string) : res (list string) :=
  let scopes := fold_left (fun kept scope => let s := TrimSpace scope in
    if String.eqb s "" then kept else add_new kept s) requested [] in
  match scopes with
  | [] => Err (token_field "/scopes" "access.token_scopes_required")
  | _ => Ok (sort_by String.compare scopes)
  end.

Record NewAccessTokenInput := mkNewAccessToken {
  na_id : ID; na_tenant : ID; na_account : ID; na_name : string; na_scopes : list string;
  na_expires_at : Time; na_now : Time
}.

Definition NewAccessToken (form : Normalizer) (inp : NewAccessTokenInput) : res AccessToken :=
  name ← NFC (TrimSpace (na_name inp)) form;
  if id_is_zero (na_id inp) || id_is_zero (na_tenant inp) || id_is_zero (na_account inp) then
    Err (WithDetail ErrInternal "access.token_incomplete")
  else if String.eqb name "" then Err (token_field "/name" "access.token_name_required")
  else if Nat.ltb MaxTokenNameLength (String.length name) then Err (token_field "/name" "access.token_name_too_long")
  else if hasControlCharacter name then Err (token_field "/name" "access.token_name_malformed")
  else
    scopes ← normaliseScopes (na_scopes inp);
    checkExpiry (na_expires_at inp) (na_now inp);;
    Ok (mkAccessToken (na_id inp) (na_tenant inp) (na_account inp) name scopes (na_expires_at inp)
          zero_time zero_time (na_now inp)).

Definition access_revoked (t : AccessToken) (at_ : Time) : AccessToken :=
  if negb (time_is_zero (ac_revoked_at t)) then t
  else mkAccessToken (ac_id t) (ac_tenant t) (ac_account t) (ac_name t) (ac_scopes t) (ac_expires_at t)
         at_ (ac_last_used_at t) (ac_created_at t).

Definition access_is_revoked (t : AccessToken) : bool := negb (time_is_zero (ac_revoked_at t)).

Definition access_verify (t : AccessToken) (now : Time) : res unit :=
  if negb (time_is_zero (ac_revoked_at t)) && (ac_revoked_at t <=? now) then
    Err (WithDetail ErrUnauthenticated "access.token_revoked")
  else if time_is_zero (ac_expires_at t) || (ac_expires_at t <=? now) then
    Err (WithDetail ErrUnauthenticated "access.token_expired")
  else Ok tt.

Definition access_needs_touch (t : AccessToken) (now : Time) (interval : Duration) : bool :=
  time_is_zero (ac_last_used_at t) || (interval <=? time_sub now (ac_last_used_at t)).

(** ** What a token is made of *)

Lemma hex_uuid_char i c : existsb (Nat.eqb i) [8; 13; 18; 23]%nat = false -> is_uuid_char i c = hex_char c.
Proof. unfold is_uuid_char, hex_char, byte_of. intros ->. apply eq_iff_eq_true. rewrite !orb_true_iff, !andb_true_iff, !N.leb_le, !Z.leb_le. lia. Qed.

Lemma hex_not_hyphen c : hex_char c = true -> Ascii.eqb c "-" = false.
Proof. intros H. destruct (Ascii.eqb_spec c "-") as [->|]; [done|done]. Qed.

(** A run of digits between two hyphens of an identifier. *)
Lemma uuid_run n : forall i s, forallb (fun j => negb (existsb (Nat.eqb j) [8; 13; 18; 23]%nat)) (seq i n) = true ->
  all_uuid_chars i s = true -> (n <= String.length s)%nat ->
  without_hyphens s = str_take n s +:+ without_hyphens (str_drop n s) /\
  str_forallb hex_char (str_take n s) = true /\ String.length (str_take n s) = n /\
  all_uuid_chars (i + n) (str_drop n s) = true.
Proof.
  induction n as [|n IH]; intros i s Hj Hs Hn.
  - cbn. rewrite Nat.add_0_r. by destruct s.
  - destruct s as [|c s]; [cbn in Hn; lia|]. cbn [seq forallb] in Hj. apply andb_true_iff in Hj as [Hi Hj].
    apply negb_true_iff in Hi. cbn [all_uuid_chars] in Hs. apply andb_true_iff in Hs as [Hc Hs].
    rewrite hex_uuid_char in Hc by done. cbn [String.length] in Hn.
    destruct (IH (S i) s Hj Hs ltac:(lia)) as (Hw & Hf & Hl & Ha).
    cbn [without_hyphens str_take str_drop str_forallb String.length]. rewrite (hex_not_hyphen _ Hc), Hw, Hf, Hc, Hl.
    rewrite Nat.add_succ_r. by repeat split.
Qed.

Lemma uuid_hyphen i s : existsb (Nat.eqb i) [8; 13; 18; 23]%nat = true -> all_uuid_chars i s = true -> s <> "" ->
  s = String "-" (str_drop 1 s) /\ without_hyphens s = without_hyphens (str_drop 1 s) /\ all_uuid_chars (S i) (str_drop 1 s) = true.
Proof.
  intros Hi Hs Hne. destruct s as [|c s]; [done|]. cbn [all_uuid_chars] in Hs. unfold is_uuid_char in Hs. rewrite Hi in Hs.
  apply andb_true_iff in Hs as [Hc Hs]. apply Ascii.eqb_eq in Hc as ->. cbn. by destruct s.
Qed.

Lemma str_take_drop n s : str_take n s +:+ str_drop n s = s.
Proof. revert s. induction n as [|n IH]; intros [|c s]; cbn; [done..|]. by rewrite IH. Qed.
Lemma str_take_app g s : str_take (String.length g) (g +:+ s) = g.
Proof. induction g as [|c g IH]; cbn; [by destruct s|]. by rewrite IH. Qed.

(** A group of digits with the hyphen after it. *)
Lemma uuid_group n i s : forallb (fun j => negb (existsb (Nat.eqb j) [8; 13; 18; 23]%nat)) (seq i n) = true ->
  existsb (Nat.eqb (i + n)) [8; 13; 18; 23]%nat = true -> all_uuid_chars i s = true -> (n < String.length s)%nat ->
  exists g s', s = g +:+ "-" +:+ s' /\ without_hyphens s = g +:+ without_hyphens s' /\ String.length g = n /\
    str_forallb hex_char g = true /\ all_uuid_chars (S (i + n)) s' = true.
Proof.
  intros Hj Hi Hs Hn. destruct (uuid_run n i s Hj Hs ltac:(lia)) as (Hw & Hf & Hl & Ha).
  destruct (uuid_hyphen (i + n) (str_drop n s) Hi Ha) as (Hh & Hw' & Ha').
  { intros E. pose proof (str_take_drop n s) as H. rewrite E, str_app_nil_r in H. rewrite <- H, Hl in Hn. lia. }
  exists (str_take n s), (str_drop 1 (str_drop n s)). split; [|by rewrite Hw, Hw'].
  rewrite <- (str_take_drop n s) at 1. by rewrite Hh at 1.
Qed.

Lemma grouped_cons n g w k rest : String.length g = n -> grouped (n :: k :: rest) (g +:+ w) = g +:+ "-" +:+ grouped (k :: rest) w.
Proof. intros <-. cbn [grouped]. by rewrite str_take_app, str_drop_app. Qed.

(** An identifier's digits, grouped again, are the identifier. *)
Lemma uuid_grouped id : looksLikeUUID id = true ->
  grouped [8; 4; 4; 4; 12]%nat (without_hyphens id) = id /\ str_forallb hex_char (without_hyphens id) = true /\
  String.length (without_hyphens id) = tenantHexLength.
Proof.
  unfold looksLikeUUID, uuidLength. intros H. bools. match goal with H : Nat.eqb _ _ = true |- _ => apply Nat.eqb_eq in H as Hlen end.
  match goal with H : all_uuid_chars _ _ = true |- _ => rename H into Hs end.
  apply (uuid_group 8) in Hs as (g1 & s1 & -> & W1 & L1 & F1 & Hs); [|done|done|lia].
  rewrite !str_app_length, L1 in Hlen. cbn in Hlen.
  apply (uuid_group 4) in Hs as (g2 & s2 & -> & W2 & L2 & F2 & Hs); [|done|done|lia].
  rewrite !str_app_length, L2 in Hlen. cbn in Hlen.
  apply (uuid_group 4) in Hs as (g3 & s3 & -> & W3 & L3 & F3 & Hs); [|done|done|lia].
  rewrite !str_app_length, L3 in Hlen. cbn in Hlen.
  apply (uuid_group 4) in Hs as (g4 & s4 & -> & W4 & L4 & F4 & Hs); [|done|done|lia].
  rewrite !str_app_length, L4 in Hlen. cbn in Hlen.
  apply (uuid_run 12) in Hs as (W5 & F5 & L5 & Hs); [|done|lia].
  rewrite W1, W2, W3, W4, W5. assert (E : str_drop 12 s4 = "").
  { pose proof (str_app_length (str_take 12 s4) (str_drop 12 s4)) as Hl. rewrite str_take_drop, L5 in Hl. destruct (str_drop 12 s4); [done|cbn in Hl; lia]. }
  rewrite E. cbn [without_hyphens]. rewrite str_app_nil_r. rewrite !grouped_cons by done. split; [|split].
  - cbn [grouped]. repeat f_equal. rewrite <- (str_app_nil_r (str_take 12 s4)) at 1. rewrite <- L5 at 1. rewrite str_take_app.
    rewrite <- (str_take_drop 12 s4) at 2. by rewrite E, str_app_nil_r.
  - by rewrite !str_forallb_app, F1, F2, F3, F4, F5.
  - by rewrite !str_app_length, L1, L2, L3, L4, L5.
Qed.

(** ** The text of a secret *)

Lemma by_threes (P : string -> Prop) : P "" -> (forall a, P (String a "")) -> (forall a b, P (String a (String b ""))) ->
  (forall a b c s, P s -> P (String a (String b (String c s)))) -> forall s, P s.
Proof.
  intros H0 H1 H2 H3. fix IH 1. intros [|a [|b [|c s]]]; [exact H0|apply H1|apply H2|apply H3, IH].
Qed.

Definition base64_value (c : ascii) : Z :=
  let n := byte_of c in
  if n =? 45 then 62 else if n =? 95 then 63 else if n <? 58 then n - 48 + 52 else if n <? 91 then n - 65 else n - 97 + 26.

Lemma base64_char_ok n : 0 <= n < 64 -> base64_value (base64_char n) = n /\ base64url_char (base64_char n) = true.
Proof.
  intros Hn. assert (Hall : forallb (fun k => (base64_value (base64_char (Z.of_nat k)) =? Z.of_nat k) &&
    base64url_char (base64_char (Z.of_nat k))) (seq 0 64) = true) by (vm_compute; reflexivity).
  rewrite forallb_forall in Hall. specialize (Hall (Z.to_nat n) ltac:(apply in_seq; lia)).
  rewrite Z2Nat.id in Hall by lia. apply andb_true_iff in Hall as [H1 H2]. by apply Z.eqb_eq in H1.
Qed.

Lemma base64_char_inj n m : 0 <= n < 64 -> 0 <= m < 64 -> base64_char n = base64_char m -> n = m.
Proof. intros Hn Hm E. rewrite <- (proj1 (base64_char_ok n Hn)), <- (proj1 (base64_char_ok m Hm)). by rewrite E. Qed.

Lemma byte_bound c : 0 <= byte_of c < 256.
Proof. unfold byte_of. pose proof (N_ascii_bounded c). lia. Qed.

Lemma byte_of_inj a b : byte_of a = byte_of b -> a = b.
Proof. unfold byte_of. intros H. rewrite <- (ascii_N_embedding a), <- (ascii_N_embedding b). f_equal. lia. Qed.

(** Three bytes in four digits of base 64. *)
Lemma sextets n : 0 <= n < 16777216 ->
  n = n / 262144 * 262144 + n / 4096 mod 64 * 4096 + n / 64 mod 64 * 64 + n mod 64 /\
  0 <= n / 262144 < 64 /\ 0 <= n / 4096 mod 64 < 64 /\ 0 <= n / 64 mod 64 < 64 /\ 0 <= n mod 64 < 64.
Proof. intros Hn. Z.to_euclidean_division_equations. lia. Qed.

Lemma encode64_inj s : forall t, encode64 s = encode64 t -> s = t.
Proof.
  assert (Hinj : forall a b a' b' c c' : ascii,
    byte_of a * 65536 + byte_of b * 256 + byte_of c = byte_of a' * 65536 + byte_of b' * 256 + byte_of c' -> a = a' /\ b = b' /\ c = c').
  { intros a b a' b' c c' E. pose proof (byte_bound a). pose proof (byte_bound b). pose proof (byte_bound c).
    pose proof (byte_bound a'). pose proof (byte_bound b'). pose proof (byte_bound c').
    repeat split; apply byte_of_inj; lia. }
  assert (Hz : forall n m, 0 <= n < 16777216 -> 0 <= m < 16777216 -> base64_char (n / 262144) = base64_char (m / 262144) ->
    base64_char (n / 4096 mod 64) = base64_char (m / 4096 mod 64) ->
    base64_char (n / 64 mod 64) = base64_char (m / 64 mod 64) -> base64_char (n mod 64) = base64_char (m mod 64) -> n = m).
  { intros n m Hn Hm E1 E2 E3 E4. destruct (sextets n Hn) as (En & ? & ? & ? & ?). destruct (sextets m Hm) as (Em & ? & ? & ? & ?).
    apply base64_char_inj in E1, E2, E3, E4; [|done..]. rewrite En, Em, E1, E2, E3, E4. done. }
  assert (Hb : forall a b c, 0 <= byte_of a * 65536 + byte_of b * 256 + byte_of c < 16777216).
  { intros a b c. pose proof (byte_bound a). pose proof (byte_bound b). pose proof (byte_bound c). lia. }
  assert (H0 : byte_of "000"%char = 0) by done.
  induction s as [|a|a b|a b c s IH] using by_threes; intros [|a' [|b' [|c' t]]]; cbn [encode64]; try done;
    intros [= E1 E2].
  - assert (E : byte_of a * 65536 = byte_of a' * 65536); [|f_equal; apply byte_of_inj; lia].
    pose proof (Hb a "000"%char "000"%char) as B. pose proof (Hb a' "000"%char "000"%char) as B'. rewrite H0 in B, B'.
    apply Hz; [lia|lia|done|done| |]; f_equal; clear; Z.to_euclidean_division_equations; lia.
  - assert (E : byte_of a * 65536 + byte_of b * 256 = byte_of a' * 65536 + byte_of b' * 256).
    { pose proof (Hb a b "000"%char) as B. pose proof (Hb a' b' "000"%char) as B'. rewrite H0 in B, B'.
      apply Hz; [lia|lia|done..|]. f_equal. clear. Z.to_euclidean_division_equations; lia. }
    destruct (Hinj a b a' b' "000"%char "000"%char) as (-> & -> & _); [lia|done].
  - apply Hz in E1; [|done..]. apply Hinj in E1 as (-> & -> & ->). do 3 f_equal. by apply IH.
Qed.

Lemma encode64_length s : String.length (encode64 s) = ((4 * String.length s + 2) / 3)%nat.
Proof.
  induction s as [|a|a b|a b c s IH] using by_threes; try done.
  cbn [encode64 String.length]. rewrite IH.
  replace (4 * S (S (S (String.length s))) + 2)%nat with (4 * 3 + (4 * String.length s + 2))%nat by lia.
  by rewrite Nat.div_add_l.
Qed.

Lemma encode64_chars s : isBase64URL (encode64 s) = true.
Proof.
  assert (Hb : forall a b c, 0 <= byte_of a * 65536 + byte_of b * 256 + byte_of c < 16777216).
  { intros a b c. pose proof (byte_bound a). pose proof (byte_bound b). pose proof (byte_bound c). lia. }
  assert (Hc : forall n, 0 <= n < 64 -> base64url_char (base64_char n) = true) by (intros; by apply base64_char_ok).
  assert (H0 : byte_of "000"%char = 0) by done. unfold isBase64URL.
  induction s as [|a|a b|a b c s IH] using by_threes; [done|..]; cbn [encode64 str_forallb].
  - pose proof (Hb a "000"%char "000"%char) as B. rewrite H0 in B. destruct (sextets (byte_of a * 65536)) as (_ & ? & ? & ? & ?); [lia|].
    by rewrite !Hc.
  - pose proof (Hb a b "000"%char) as B. rewrite H0 in B.
    destruct (sextets (byte_of a * 65536 + byte_of b * 256)) as (_ & ? & ? & ? & ?); [lia|]. by rewrite !Hc.
  - destruct (sextets _ (Hb a b c)) as (_ & ? & ? & ? & ?). by rewrite !Hc, IH.
Qed.

(** ** Round trips *)

(** The kinds of stored credentials, by the mark their texts start with. *)
Definition token_marks : list string := [TokenPrefix; RefreshTokenPrefix; RedemptionTokenPrefix].

Definition token_text (mark tenant secret : string) : string := mark +:+ without_hyphens tenant +:+ "_" +:+ encode64 secret.

Lemma new_prefixed_text mark tenant secret t : newPrefixed mark tenant secret = Ok t ->
  t = mkToken tenant (token_text mark tenant secret) /\ String.length secret = TokenSecretBytes.
Proof.
  unfold newPrefixed, NewToken. destruct (id_is_zero tenant); [done|].
  destruct (Nat.eqb_spec (String.length secret) TokenSecretBytes); [|done]. intros [= <-]. split; [|done].
  reflexivity.
Qed.

Lemma other_mark mark other text : mark ∈ token_marks -> other ∈ token_marks ->
  str_has_prefix other (mark +:+ text) = bool_decide (other = mark).
Proof. unfold token_marks. rewrite !elem_of_cons, elem_of_nil. intros Hm Ho. destruct_or?; try done; try (by apply not_elem_of_nil in Hm); try (by apply not_elem_of_nil in Ho); subst; reflexivity. Qed.

Lemma id_not_zero id : looksLikeUUID id = true -> id_is_zero id = false.
Proof. by destruct id. Qed.

Lemma hex_no_underscore s : str_forallb hex_char s = true -> str_contains "_" s = false.
Proof.
  induction s as [|c s IH]; cbn; [done|]. intros H. apply andb_true_iff in H as [Hc Hs]. rewrite IH by done.
  destruct (Ascii.eqb_spec c "_") as [->|]; [done|done].
Qed.

Lemma parse_text mark tenant secret : looksLikeUUID tenant = true -> String.length secret = TokenSecretBytes ->
  parsePrefixed (token_text mark tenant secret) mark = Ok (mkToken tenant (token_text mark tenant secret)).
Proof.
  intros Ht Hs. destruct (uuid_grouped tenant Ht) as (Hg & Hh & Hl). unfold parsePrefixed, token_text.
  rewrite has_prefix_app, str_drop_app. cbn [negb String.append].
  rewrite str_cut_app by (by apply hex_no_underscore). rewrite Hl, Nat.eqb_refl, encode64_length, Hs, encode64_chars. cbn [negb orb].
  unfold tenantFromHex, ParseID. rewrite Hh, Hg, Ht. done.
Qed.

(** C18. A credential reads back as what it was made of: its text parses to the
    token with its tenant under its own mark and under no other, and only the
    same tenant, secret and kind give that text. *)
Theorem token_roundtrip mark tenant secret : mark ∈ token_marks ->
  looksLikeUUID tenant = true -> String.length secret = TokenSecretBytes ->
  exists t, newPrefixed mark tenant secret = Ok t /\ to_tenant t = tenant /\
    parsePrefixed (Secret t) mark = Ok t /\
    (forall other, other ∈ token_marks -> other <> mark -> parsePrefixed (Secret t) other = Err errTokenMalformed) /\
    (forall mark' tenant' secret' t', mark' ∈ token_marks -> looksLikeUUID tenant' = true ->
       newPrefixed mark' tenant' secret' = Ok t' -> Secret t' = Secret t ->
       mark' = mark /\ tenant' = tenant /\ secret' = secret).
Proof.
  intros Hm Ht Hs. exists (mkToken tenant (token_text mark tenant secret)). cbn [to_tenant Secret to_raw].
  split; [|split; [done|split; [by apply parse_text|split]]].
  - unfold newPrefixed, NewToken. rewrite id_not_zero, Hs by done. reflexivity.
  - intros other Ho Hne. unfold parsePrefixed, token_text, Secret. cbn [to_raw]. rewrite other_mark by done.
    by rewrite bool_decide_eq_false_2.
  - intros mark' tenant' secret' t' Hm' Ht' Hn E. apply new_prefixed_text in Hn as [-> Hs'].
    unfold Secret in E. cbn [to_raw] in E. assert (mark' = mark) as ->.
    { pose proof (other_mark mark' mark' (without_hyphens tenant' +:+ "_" +:+ encode64 secret') Hm' Hm') as H.
      rewrite bool_decide_eq_true_2 in H by done. fold (token_text mark' tenant' secret') in H. rewrite E in H.
      unfold token_text in H. rewrite other_mark in H by done. by apply bool_decide_eq_true in H. }
    split; [done|]. unfold token_text in E. apply (f_equal (str_drop (String.length mark))) in E. rewrite !str_drop_app in E.
    destruct (uuid_grouped tenant Ht) as (Hg & Hh & Hl). destruct (uuid_grouped tenant' Ht') as (Hg' & Hh' & Hl').
    pose proof (f_equal (str_cut "_") E) as C. cbn [String.append] in C.
    rewrite !str_cut_app in C by (by apply hex_no_underscore). injection C as C1 C2.
    split; [by rewrite <- Hg', C1, Hg|by apply encode64_inj].
Qed.

Definition some_tenant : ID := "01920000-0000-7000-8000-00000000000a".
Definition some_secret : string := "0123456789abcdef0123456789ABCDEF".

Example refresh_text : option_map Secret (match NewRefreshToken some_tenant some_secret with Ok t => Some t | _ => None end) =
  Some "hbt_srt_0192000000007000800000000000000a_MDEyMzQ1Njc4OWFiY2RlZjAxMjM0NTY3ODlBQkNERUY".
Proof. vm_compute. reflexivity. Qed.

Lemma token_roundtrip_witness : exists t, newPrefixed RefreshTokenPrefix some_tenant some_secret = Ok t /\
  to_tenant t = some_tenant /\ parsePrefixed (Secret t) RefreshTokenPrefix = Ok t.
Proof.
  destruct (token_roundtrip RefreshTokenPrefix some_tenant some_secret) as (t & H1 & H2 & H3 & _);
    [by right; left|vm_compute; reflexivity..|]. by exists t.
Defined.

(** A token that parses names its tenant's digits, whatever made it. *)
Lemma parsed_names_tenant raw prefix t : parsePrefixed raw prefix = Ok t ->
  to_raw t = raw /\ looksLikeUUID (to_tenant t) = true.
Proof.
  unfold parsePrefixed. destruct (negb _); [done|]. destruct (str_cut _ _) as [[hex secret]|]; [|done].
  destruct (_ || _ || _); [done|]. destruct (tenantFromHex hex) as [tenant| |] eqn:E; [|done..]. intros [= <-]. split; [done|].
  cbn. unfold tenantFromHex, ParseID in E. destruct (negb _); [done|]. destruct (looksLikeUUID _) eqn:Hu; [|done].
  by injection E as <-.
Qed.

(** A minted personal access token may be used until its end, which is at most a
    year away, and a withdrawn one not from the moment of its withdrawal. *)
Lemma access_token_ends form inp t now : NewAccessToken form inp = Ok t -> na_now inp <> zero_time ->
  na_now inp < ac_expires_at t <= na_now inp + MaxTokenLifetime /\ ac_scopes t <> [] /\
  (access_verify t now = Ok tt <-> now < ac_expires_at t) /\
  (forall at_, at_ <> zero_time -> at_ <= now -> access_verify (access_revoked t at_) now = Err (WithDetail ErrUnauthenticated "access.token_revoked")).
Proof.
  unfold NewAccessToken. intros H Hz. apply bind_ok in H as (name & _ & H).
  destruct (_ || _); [done|]. destruct (String.eqb name ""); [done|]. destruct (Nat.ltb _ _); [done|].
  destruct (hasControlCharacter name); [done|]. apply bind_ok in H as (scopes & Hs & H). apply bind_ok in H as ([] & He & [= <-]).
  unfold checkExpiry in He. destruct (time_is_zero (na_expires_at inp)) eqn:Ez; [done|].
  destruct (Z.leb_spec (na_expires_at inp) (na_now inp)); [done|].
  destruct (Z.ltb_spec (na_now inp + MaxTokenLifetime) (na_expires_at inp)); [done|]. cbn [ac_expires_at ac_scopes].
  split; [lia|]. split.
  - unfold normaliseScopes in Hs. destruct (fold_left _ _ _) as [|s ss]; [done|]. injection Hs as <-.
    cbn [sort_by]. destruct (sort_by String.compare ss) as [|x xs]; cbn; [done|]. by destruct (String.compare s x).
  - split.
    + unfold access_verify. cbn [ac_revoked_at ac_expires_at]. rewrite Ez. cbn.
      destruct (Z.leb_spec (na_expires_at inp) now); split; try done; lia.
    + intros at_ Hat Hle. assert (Hn : time_is_zero at_ = false) by (by apply Z.eqb_neq).
      unfold access_verify, access_revoked. cbn [ac_revoked_at]. replace (time_is_zero zero_time) with true by done.
      cbn [negb ac_revoked_at]. rewrite Hn. by rewrite (proj2 (Z.leb_le at_ now)).
Qed.
