(* ===== verification/Session.v ===== *)
(** * Sessions

    Models core/domain/model/identity/Session.go - a sign-in, its refresh tokens,
    the bounds it answers to, the delay after failed attempts - and of
    core/application/service/identity the exchange of a refresh token, the tail of
    every sign-in and the ledger of attempts (Session.go), the list and the ending
    of sessions (Sessions.go) and the decision about a presented access token
    (AuthenticateToken.go), over the rows and statements of
    infrastructure/postgres/SessionRepository.go and db/queries/Session.sql.

    A row has an optional column where the table has a nullable one; the domain's
    value has Go's zero there.  Row level security is the [scope] every statement
    takes: the tenant of the running transaction.  The hashes of the adapter, the
    signature of an access token, randomness, fresh identifiers and the clock's
    reading are parameters. *)

From Stdlib Require Import ZArith Lia String Ascii List Bool.
From stdpp Require Import base option list strings gmap.
From S2P Require Import Prelude Shared Effects Text Literal Netip Token.

Open Scope string_scope.
Open Scope list_scope.
Open Scope Z_scope.
Open Scope effect_scope.

(** ** Session.go *)

Definition AccessTokenLifetime : Z := 15 * Minute.
Definition RefreshTokenLifetime : Z := 30 * 24 * Hour.
Definition MaxUserAgentLength : nat := 400.
Definition ViewAsLifetime : Z := 30 * Minute.
Definition ElevationLifetime : Z := Hour.

Record Session := mkSession {
  se_id : ID;
  se_tenant : ID;
  se_account : ID;
  se_created_at : Time;
  se_last_seen_at : Time;
  se_user_agent : string;
  se_ip_class : string;
  se_expires_at : Time;
  se_revoked_at : Time;
  se_grant : ID;
  se_scopes : option (list string);
  se_hard_expires_at : Time;
  se_idle_minutes : Z;
  se_signed_in_with : string;
  se_signed_in_via : ID;
  se_elevated_until : Time;
  se_viewing_as : ID;
  se_viewing_as_until : Time
}.

Definition IsViewingAs (s : Session) (now : Time) : bool :=
  negb (id_is_zero (se_viewing_as s)) && (now <? se_viewing_as_until s).

Definition IsElevated (s : Session) (now : Time) : bool :=
  negb (time_is_zero (se_elevated_until s)) && (now <? se_elevated_until s).

Definition Elevated (s : Session) (now : Time) : Session :=
  mkSession (se_id s) (se_tenant s) (se_account s) (se_created_at s) (se_last_seen_at s) (se_user_agent s) (se_ip_class s)
    (se_expires_at s) (se_revoked_at s) (se_grant s) (se_scopes s) (se_hard_expires_at s) (se_idle_minutes s)
    (se_signed_in_with s) (se_signed_in_via s) (now + ElevationLifetime) (se_viewing_as s) (se_viewing_as_until s).

(** An IPv4 network of 24 bits, an IPv6 network of 48, nothing for an address
    that does not parse; [host:port] is read as its host. *)
Definition IPClass (remoteAddr : string) : string :=
  let raw := TrimSpace remoteAddr in
  if String.eqb raw "" then ""
  else
    let raw := match ParseAddrPort raw with Some a => addr_string a | None => raw end in
    match ParseAddr raw with
    | None => ""
    | Some a =>
        let a := Unmap a in
        prefix_string a (if is_v6 a then 48 else 24)
    end.

(** [string(runes[:n])] writes each of them in UTF-8; of a text that does not
    decode, the replacement character. *)
Definition encode_rune (r : Z) : string :=
  let b n := ascii_of_N (Z.to_N n) in
  if r <? 128 then String (b r) ""
  else if r <? 2048 then String (b (192 + r / 64)) (String (b (128 + r mod 64)) "")
  else if r <? 65536 then
    String (b (224 + r / 4096)) (String (b (128 + r / 64 mod 64)) (String (b (128 + r mod 64)) ""))
  else String (b (240 + r / 262144)) (String (b (128 + r / 4096 mod 64))
         (String (b (128 + r / 64 mod 64)) (String (b (128 + r mod 64)) ""))).

Definition boundedUserAgent (raw : string) : string :=
  let agent := TrimSpace raw in
  if RuneCountInString agent <=? Z.of_nat MaxUserAgentLength then agent
  else String.concat "" (map encode_rune (take MaxUserAgentLength (runes agent))).

(** SignInPolicy.go: a workspace's two bounds of a session; none is 0. *)
Record SessionPolicy := mkPolicy { sp_max_days : Z; sp_idle_minutes : Z }.

Record NewSessionInput := mkNewSession {
  ns_id : ID; ns_tenant : ID; ns_account : ID; ns_user_agent : string; ns_remote_addr : string; ns_now : Time;
  ns_bounds : SessionPolicy; ns_method : string; ns_via : ID
}.

Definition NewSession (inp : NewSessionInput) : res Session :=
  if id_is_zero (ns_id inp) || id_is_zero (ns_tenant inp) || id_is_zero (ns_account inp) then
    Err (WithDetail ErrInternal "auth.session_incomplete")
  else
    let now := ns_now inp in
    let hard := if 0 <? sp_max_days (ns_bounds inp) then now + wrap_int64 (wrap_int64 (sp_max_days (ns_bounds inp) * 24) * Hour)
                else zero_time in
    Ok (mkSession (ns_id inp) (ns_tenant inp) (ns_account inp) now zero_time (boundedUserAgent (ns_user_agent inp))
          (IPClass (ns_remote_addr inp)) (now + RefreshTokenLifetime) zero_time "" None hard
          (sp_idle_minutes (ns_bounds inp)) (ns_method inp) (ns_via inp) zero_time "" zero_time).

Definition unauthenticated (detail : string) : Error := WithDetail ErrUnauthenticated detail.

(** Revoked before run out, then the two bounds of the workspace. *)
Definition Verify (s : Session) (now : Time) : res unit :=
  if negb (time_is_zero (se_revoked_at s)) && (se_revoked_at s <=? now) then Err (unauthenticated "auth.session_revoked")
  else if time_is_zero (se_expires_at s) || (se_expires_at s <=? now) then Err (unauthenticated "auth.session_expired")
  else if negb (time_is_zero (se_hard_expires_at s)) && (se_hard_expires_at s <=? now) then
    Err (unauthenticated "auth.session_too_old")
  else if (0 <? se_idle_minutes s) && negb (time_is_zero (se_last_seen_at s)) &&
          (wrap_int64 (se_idle_minutes s * Minute) <=? time_sub now (se_last_seen_at s)) then
    Err (unauthenticated "auth.session_idle")
  else Ok tt.

Definition VerifyAgainstRotation (s : Session) (rotationFrom : Time) : res unit :=
  if time_is_zero rotationFrom || (rotationFrom <=? se_created_at s) then Ok tt
  else Err (unauthenticated "auth.session_rotated").

Definition VerifyOpen (s : Session) (now rotationFrom : Time) : res unit :=
  _ ← Verify s now;
  VerifyAgainstRotation s rotationFrom.

Definition Revoked (s : Session) (at_ : Time) : Session :=
  if negb (time_is_zero (se_revoked_at s)) then s
  else mkSession (se_id s) (se_tenant s) (se_account s) (se_created_at s) (se_last_seen_at s) (se_user_agent s) (se_ip_class s)
    (se_expires_at s) at_ (se_grant s) (se_scopes s) (se_hard_expires_at s) (se_idle_minutes s)
    (se_signed_in_with s) (se_signed_in_via s) (se_elevated_until s) (se_viewing_as s) (se_viewing_as_until s).

Definition expiring (s : Session) (at_ : Time) : Session :=
  mkSession (se_id s) (se_tenant s) (se_account s) (se_created_at s) (se_last_seen_at s) (se_user_agent s) (se_ip_class s)
    at_ (se_revoked_at s) (se_grant s) (se_scopes s) (se_hard_expires_at s) (se_idle_minutes s)
    (se_signed_in_with s) (se_signed_in_via s) (se_elevated_until s) (se_viewing_as s) (se_viewing_as_until s).

Definition Rotated (s : Session) (now : Time) : Session := expiring s (now + RefreshTokenLifetime).

Definition seen (s : Session) (at_ : Time) : Session :=
  mkSession (se_id s) (se_tenant s) (se_account s) (se_created_at s) at_ (se_user_agent s) (se_ip_class s)
    (se_expires_at s) (se_revoked_at s) (se_grant s) (se_scopes s) (se_hard_expires_at s) (se_idle_minutes s)
    (se_signed_in_with s) (se_signed_in_via s) (se_elevated_until s) (se_viewing_as s) (se_viewing_as_until s).

Definition NeedsTouch (s : Session) (now : Time) (interval : Duration) : bool :=
  time_is_zero (se_last_seen_at s) || (interval <=? time_sub now (se_last_seen_at s)).

Record RefreshToken := mkRefresh {
  rt_id : ID; rt_tenant : ID; rt_session : ID; rt_created_at : Time; rt_expires_at : Time; rt_rotated_at : Time
}.

Definition IsRotated (t : RefreshToken) : bool := negb (time_is_zero (rt_rotated_at t)).

Definition refresh_verify (t : RefreshToken) (now : Time) : res unit :=
  if time_is_zero (rt_expires_at t) || (rt_expires_at t <=? now) then Err (unauthenticated "auth.refresh_token_expired")
  else Ok tt.

(** The delay after failures: three are free, then it doubles up to the ceiling. *)
Definition lockoutFreeAttempts : Z := 3.
Definition lockoutBaseDelay : Z := Second.
Definition LockoutCeiling : Z := 15 * Minute.

Definition LockoutDelay (failures : Z) : Duration :=
  if failures <=? lockoutFreeAttempts then 0
  else
    let exceeded := failures - lockoutFreeAttempts - 1 in
    if 10 <=? exceeded then LockoutCeiling
    else
      let delay := Z.shiftl lockoutBaseDelay exceeded in
      if LockoutCeiling <? delay then LockoutCeiling else delay.

Definition LockedUntil (failures : Z) (lastFailure : Time) : Time :=
  let delay := LockoutDelay failures in
  if delay =? 0 then zero_time else lastFailure + delay.

Definition ErrSignInFailed : Error := unauthenticated "auth.sign_in_failed".

(** ** The rows *)

Record SessionRow := mkSessionRow {
  sr_id : ID;
  sr_tenant : ID;
  sr_account : ID;
  sr_created_at : Time;
  sr_last_seen_at : option Time;
  sr_user_agent : string;
  sr_ip_class : string;
  sr_expires_at : Time;
  sr_revoked_at : option Time;
  sr_grant : ID;
  sr_scopes : option (list string);
  sr_hard_expires_at : option Time;
  sr_idle_minutes : option Z;
  sr_signed_in_with : string;
  sr_signed_in_via : ID;
  sr_elevated_until : option Time;
  sr_viewing_as : ID;
  sr_viewing_as_until : option Time
}.

(** The columns the statements write. *)
Definition with_last_seen (r : SessionRow) (at_ : option Time) : SessionRow :=
  mkSessionRow (sr_id r) (sr_tenant r) (sr_account r) (sr_created_at r) at_ (sr_user_agent r) (sr_ip_class r)
    (sr_expires_at r) (sr_revoked_at r) (sr_grant r) (sr_scopes r) (sr_hard_expires_at r) (sr_idle_minutes r)
    (sr_signed_in_with r) (sr_signed_in_via r) (sr_elevated_until r) (sr_viewing_as r) (sr_viewing_as_until r).
Definition with_expires (r : SessionRow) (at_ : Time) : SessionRow :=
  mkSessionRow (sr_id r) (sr_tenant r) (sr_account r) (sr_created_at r) (sr_last_seen_at r) (sr_user_agent r) (sr_ip_class r)
    at_ (sr_revoked_at r) (sr_grant r) (sr_scopes r) (sr_hard_expires_at r) (sr_idle_minutes r)
    (sr_signed_in_with r) (sr_signed_in_via r) (sr_elevated_until r) (sr_viewing_as r) (sr_viewing_as_until r).
Definition with_revoked (r : SessionRow) (at_ : option Time) : SessionRow :=
  mkSessionRow (sr_id r) (sr_tenant r) (sr_account r) (sr_created_at r) (sr_last_seen_at r) (sr_user_agent r) (sr_ip_class r)
    (sr_expires_at r) at_ (sr_grant r) (sr_scopes r) (sr_hard_expires_at r) (sr_idle_minutes r)
    (sr_signed_in_with r) (sr_signed_in_via r) (sr_elevated_until r) (sr_viewing_as r) (sr_viewing_as_until r).

Record RefreshRow := mkRefreshRow {
  rf_id : ID; rf_tenant : ID; rf_session : ID; rf_created_at : Time; rf_expires_at : Time; rf_rotated_at : option Time
}.

Record AccountRow := mkAccountRow { ar_tenant : ID; ar_name : string; ar_status : AccountStatus; ar_deleted : bool }.

Record TenantRow := mkTenantRow { tn_status : string; tn_rotation_from : option string }.

(** An OAuth grant; [gr_app] says its client is one of the installed apps. *)
Record GrantRow := mkGrantRow { gr_tenant : ID; gr_client : ID; gr_app : bool; gr_revoked_at : option Time }.

(** One subject's standing in the ledger of attempts. *)
Record AuthAttempt := mkAttempt { at_failures : Z; at_last_failure : option Time; at_locked_until : option Time }.

Record AuditEntry := mkAudit {
  au_tenant : ID; au_occurred_at : Time; au_action : string; au_outcome : string; au_severity : string;
  au_actor : ID; au_target : ID
}.

(** The tables; a refresh token's key is its hash, which is unique in the
    installation, an attempt's the tenant and the subject's hash. *)
Record Rows := mkRows {
  rw_tenants : gmap ID TenantRow;
  rw_accounts : gmap ID AccountRow;
  rw_sessions : gmap ID SessionRow;
  rw_refresh : gmap string RefreshRow;
  rw_grants : gmap ID GrantRow;
  rw_attempts : gmap (ID * string) AuthAttempt;
  rw_audit : list AuditEntry
}.

Definition with_sessions (w : Rows) (m : gmap ID SessionRow) : Rows :=
  mkRows (rw_tenants w) (rw_accounts w) m (rw_refresh w) (rw_grants w) (rw_attempts w) (rw_audit w).
Definition with_refresh (w : Rows) (m : gmap string RefreshRow) : Rows :=
  mkRows (rw_tenants w) (rw_accounts w) (rw_sessions w) m (rw_grants w) (rw_attempts w) (rw_audit w).
Definition with_grants (w : Rows) (m : gmap ID GrantRow) : Rows :=
  mkRows (rw_tenants w) (rw_accounts w) (rw_sessions w) (rw_refresh w) m (rw_attempts w) (rw_audit w).
Definition with_attempts (w : Rows) (m : gmap (ID * string) AuthAttempt) : Rows :=
  mkRows (rw_tenants w) (rw_accounts w) (rw_sessions w) (rw_refresh w) (rw_grants w) m (rw_audit w).
Definition with_audit (w : Rows) (entries : list AuditEntry) : Rows :=
  mkRows (rw_tenants w) (rw_accounts w) (rw_sessions w) (rw_refresh w) (rw_grants w) (rw_attempts w) entries.

(** The server: its rows, and the counted failures, which no transaction takes
    back. *)
Record Server := mkServer { sv_rows : Rows; sv_signals : list string }.

Abbreviation T := (M Server) (only parsing).

(** [UnitOfWork.Within]: whatever is not an answer rolls the rows back. *)
Definition transaction {A} (c : T A) : T A := fun w =>
  match c w with
  | (w', Ok a) => (w', Ok a)
  | (w', r) => (mkServer (sv_rows w) (sv_signals w'), r)
  end.

Definition read {A} (f : Rows -> res A) : T A := query (fun w => f (sv_rows w)).
Definition write (f : Rows -> Rows) : T unit := fun w => (mkServer (f (sv_rows w)) (sv_signals w), Ok tt).

Definition failure (reason : string) : T unit := fun w => (mkServer (sv_rows w) (sv_signals w ++ [reason]), Ok tt).

(** A statement the database refuses. *)
Definition query_failed : Error := WithDetail ErrUnavailable "postgres.query_failed".

(** ** SessionRepository.go and Session.sql *)

Definition timeFrom (column : option Time) : Time := default zero_time column.
Definition intFrom (column : option Z) : Z := default 0 column.
Definition nullableTime (t : Time) : option Time := if time_is_zero t then None else Some t.
Definition nullableInt32 (n : Z) : option Z := if n <=? 0 then None else Some n.

(** The rotation cutoff of a workspace's settings; what does not parse is none. *)
Definition momentFrom (raw : option string) : Time :=
  match raw with
  | Some text => if String.eqb text "" then zero_time else default zero_time (parse_rfc3339 text)
  | None => zero_time
  end.

(** [UPDATE session]: the rows a condition selects, and how many. *)
Definition update_sessions (p : SessionRow -> bool) (f : SessionRow -> SessionRow) (w : Rows) : Rows :=
  with_sessions w ((fun r => if p r then f r else r) <$> rw_sessions w).
Definition count_sessions (p : SessionRow -> bool) (w : Rows) : Z :=
  Z.of_nat (List.length (List.filter (fun kr => p kr.2) (map_to_list (rw_sessions w)))).

Definition InsertSession (scope : ID) (s : Session) : T unit :=
  failed <~ read (fun w => Ok (match rw_sessions w !! se_id s with Some _ => true | None => false end));
  if (failed : bool) then fail query_failed
  else write (fun w => with_sessions w (<[se_id s :=
         mkSessionRow (se_id s) scope (se_account s) (se_created_at s) None (se_user_agent s) (se_ip_class s)
           (se_expires_at s) None (se_grant s) (se_scopes s) (nullableTime (se_hard_expires_at s))
           (nullableInt32 (se_idle_minutes s)) (se_signed_in_with s) (se_signed_in_via s) None "" None]> (rw_sessions w))).

Definition TouchLastSeen (scope sessionID : ID) (at_ : Time) : T unit :=
  write (update_sessions (fun r => String.eqb (sr_tenant r) scope && String.eqb (sr_id r) sessionID)
           (fun r => with_last_seen r (Some at_))).

Definition Extend (scope sessionID : ID) (expiresAt : Time) : T unit :=
  write (update_sessions (fun r => String.eqb (sr_tenant r) scope && String.eqb (sr_id r) sessionID)
           (fun r => with_expires r expiresAt)).

Definition unrevoked (scope account : ID) (r : SessionRow) : bool :=
  String.eqb (sr_tenant r) scope && String.eqb (sr_account r) account &&
  match sr_revoked_at r with None => true | Some _ => false end.

(** The three endings; each answers how many rows it stamped. *)
Definition revoke_where (p : SessionRow -> bool) (at_ : Time) : T Z :=
  ended <~ read (fun w => Ok (count_sessions p w));
  write (update_sessions p (fun r => with_revoked r (Some at_)));;
  ret ended.

Definition Revoke (scope sessionID accountID : ID) (at_ : Time) : T bool :=
  ended <~ revoke_where (fun r => unrevoked scope accountID r && String.eqb (sr_id r) sessionID) at_;
  ret (0 <? ended).
Definition RevokeAll (scope accountID : ID) (at_ : Time) : T Z := revoke_where (unrevoked scope accountID) at_.
Definition RevokeOthers (scope accountID keep : ID) (at_ : Time) : T Z :=
  revoke_where (fun r => unrevoked scope accountID r && (id_is_zero keep || negb (String.eqb (sr_id r) keep))) at_.

(** Withdraws the grant of an installed app behind a session; answers it and its
    client, or nothing. *)
Definition RevokeAppGrant (scope sessionID accountID : ID) (at_ : Time) : T (ID * ID) :=
  found_ <~ read (fun w => Ok (
    match rw_sessions w !! sessionID with
    | Some r =>
        if String.eqb (sr_tenant r) scope && String.eqb (sr_account r) accountID then
          match rw_grants w !! sr_grant r with
          | Some g => if String.eqb (gr_tenant g) scope && gr_app g && match gr_revoked_at g with None => true | _ => false end
                      then Some (sr_grant r, g) else None
          | None => None
          end
        else None
    | None => None
    end));
  match found_ with
  | None => ret ("", "")
  | Some (id, g) =>
      write (fun w => with_grants w (<[id := mkGrantRow (gr_tenant g) (gr_client g) (gr_app g) (Some at_)]> (rw_grants w)));;
      ret (id, gr_client g)
  end.

(** What a request's authentication reads. *)
Record SessionCredential := mkCredential {
  cr_session : Session; cr_account : ID; cr_status : AccountStatus; cr_tenant_status : string; cr_rotation_from : Time
}.

(** A session with its account, which is not deleted, and its tenant. *)
Definition joined (w : Rows) (scope sessionID : ID) : option (SessionRow * AccountRow * TenantRow) :=
  match rw_sessions w !! sessionID with
  | Some r =>
      match rw_accounts w !! sr_account r, rw_tenants w !! sr_tenant r with
      | Some a, Some t => if String.eqb (sr_tenant r) scope && negb (ar_deleted a) then Some (r, a, t) else None
      | _, _ => None
      end
  | None => None
  end.

Definition auth_session (r : SessionRow) : Session :=
  mkSession (sr_id r) (sr_tenant r) (sr_account r) (sr_created_at r) (timeFrom (sr_last_seen_at r)) "" ""
    (sr_expires_at r) (timeFrom (sr_revoked_at r)) (sr_grant r) (sr_scopes r) (timeFrom (sr_hard_expires_at r))
    (intFrom (sr_idle_minutes r)) (sr_signed_in_with r) "" (timeFrom (sr_elevated_until r)) (sr_viewing_as r)
    (timeFrom (sr_viewing_as_until r)).

Definition FindForAuth (scope sessionID : ID) : T SessionCredential :=
  read (fun w =>
    match joined w scope sessionID with
    | Some (r, a, t) => Ok (mkCredential (auth_session r) (sr_account r) (ar_status a) (tn_status t) (momentFrom (tn_rotation_from t)))
    | None => Err (WithDetail ErrNotFound "auth.session_not_found")
    end).

Definition listed_session (r : SessionRow) : Session :=
  mkSession (sr_id r) "" (sr_account r) (sr_created_at r) (timeFrom (sr_last_seen_at r)) (sr_user_agent r) (sr_ip_class r)
    (sr_expires_at r) (timeFrom (sr_revoked_at r)) "" None (timeFrom (sr_hard_expires_at r)) (intFrom (sr_idle_minutes r))
    (sr_signed_in_with r) (sr_signed_in_via r) zero_time "" zero_time.

(** Newest first, ties by identifier. *)
Definition newest_first (a b : SessionRow) : comparison :=
  match sr_created_at b ?= sr_created_at a with Eq => String.compare (sr_id b) (sr_id a) | c => c end.

Definition ForAccount (scope accountID : ID) (now : Time) : T (list Session * Time) :=
  read (fun w =>
    let rows := sort_by newest_first (List.filter (fun r => unrevoked scope accountID r && (now <? sr_expires_at r) &&
      match rw_tenants w !! sr_tenant r with Some _ => true | None => false end)
      (map snd (map_to_list (rw_sessions w)))) in
    Ok (map listed_session rows,
        match rows with [] => zero_time | r :: _ => momentFrom (rw_tenants w !! sr_tenant r ≫= tn_rotation_from) end)).

(** ** The refresh chain *)

Record Account := mkAccount { acc_id : ID; acc_name : string; acc_status : AccountStatus }.

Record RefreshCredential := mkRefreshCredential {
  rc_token : RefreshToken; rc_session : Session; rc_account : Account; rc_tenant_status : string
}.

(** [TenantStatus.Verify]. *)
Definition tenant_verify (status : string) : res unit :=
  if String.eqb status "ACTIVE" then Ok tt
  else if String.eqb status "PENDING_DELETION" then Err (WithDetail ErrForbidden "access.tenant_pending_deletion")
  else Err (WithDetail ErrForbidden "access.tenant_suspended").

Definition LastUsedInterval : Z := 5 * Minute.

Definition SignedInAction : string := "auth.signed_in".
Definition SessionRefreshedAction : string := "auth.session_refreshed".
Definition RefreshReuseAction : string := "auth.refresh_reuse_detected".
Definition SessionRevokedAction : string := "auth.session_revoked".
Definition SessionsRevokedAction : string := "auth.sessions_revoked".
Definition OauthGrantRevokedAction : string := "oauth.grant_revoked".
Definition FailureWrongCredential : string := "wrong_credential".
Definition FailureLocked : string := "locked".
Definition FailureRefreshRefused : string := "refresh_refused".
Definition FailureRefreshReused : string := "refresh_reused".

(** [Audit.Append], in the caller's transaction; the outcomes, severities and actor
    kinds written here are ones the trail knows. *)
Definition Append (e : AuditEntry) : T unit :=
  if id_is_zero (au_tenant e) || String.eqb (au_action e) "" || time_is_zero (au_occurred_at e) then fail (WithDetail ErrInternal "audit.entry_incomplete")
  else write (fun w => with_audit w (rw_audit w ++ [e])).

Definition recordSessionAudit (action outcome severity : string) (s : Session) (a : Account) (at_ : Time) : T unit :=
  Append (mkAudit (se_tenant s) at_ action outcome severity (acc_id a) (se_id s)).

Definition refreshRefused : Error := unauthenticated "auth.refresh_failed".

Record SessionClaims := mkClaims { cl_tenant : ID; cl_session : ID; cl_account : ID; cl_expires_at : Time }.

Record SessionPair := mkPair {
  pr_access : string; pr_access_expires_at : Time; pr_refresh : string; pr_refresh_expires_at : Time; pr_session : Session
}.

Section sessions.
Context (hash : string -> string) (subject_hash : string -> string) (sign : SessionClaims -> string)
  (Enqueue : ID -> Time -> res unit).

(** The session of the refresh token's read: the columns that statement has. *)
Definition refresh_session (r : SessionRow) : Session :=
  mkSession (sr_id r) (sr_tenant r) (sr_account r) (sr_created_at r) (timeFrom (sr_last_seen_at r)) (sr_user_agent r)
    (sr_ip_class r) (sr_expires_at r) (timeFrom (sr_revoked_at r)) "" None zero_time 0 "" "" zero_time "" zero_time.

Definition FindByToken (scope : ID) (token : Token) : T RefreshCredential :=
  read (fun w =>
    let missing := Err (WithDetail ErrNotFound "auth.refresh_failed") in
    match rw_refresh w !! hash (Secret token) with
    | None => missing
    | Some rf =>
        if negb (String.eqb (rf_tenant rf) scope) then missing
        else match joined w scope (rf_session rf) with
             | Some (r, a, t) =>
                 Ok (mkRefreshCredential
                       (mkRefresh (rf_id rf) (sr_tenant r) (rf_session rf) (rf_created_at rf) (rf_expires_at rf) (timeFrom (rf_rotated_at rf)))
                       (refresh_session r) (mkAccount (sr_account r) (ar_name a) (ar_status a)) (tn_status t))
             | None => missing
             end
    end).

(** The hash and the identifier are unique, and the session has to be there. *)
Definition InsertRefreshToken (scope : ID) (t : RefreshToken) (presented : Token) : T unit :=
  refused <~ read (fun w => Ok (
    match rw_refresh w !! hash (Secret presented) with Some _ => true | None => false end ||
    existsb (fun kr => String.eqb (rf_id kr.2) (rt_id t)) (map_to_list (rw_refresh w)) ||
    match rw_sessions w !! rt_session t with Some r => negb (String.eqb (sr_tenant r) scope) | None => true end));
  if (refused : bool) then fail query_failed
  else write (fun w => with_refresh w (<[hash (Secret presented) :=
         mkRefreshRow (rt_id t) scope (rt_session t) (rt_created_at t) (rt_expires_at t) None]> (rw_refresh w))).

(** Only the first exchange finds the token unrotated. *)
Definition rotating (scope tokenID : ID) (rf : RefreshRow) : bool :=
  String.eqb (rf_tenant rf) scope && String.eqb (rf_id rf) tokenID &&
  match rf_rotated_at rf with None => true | Some _ => false end.

Definition rotate_row (scope tokenID : ID) (at_ : Time) (rf : RefreshRow) : RefreshRow :=
  if rotating scope tokenID rf then
    mkRefreshRow (rf_id rf) (rf_tenant rf) (rf_session rf) (rf_created_at rf) (rf_expires_at rf) (Some at_)
  else rf.

Definition Rotate (scope tokenID : ID) (at_ : Time) : T bool :=
  changed <~ read (fun w => Ok (existsb (fun kr => rotating scope tokenID kr.2) (map_to_list (rw_refresh w))));
  write (fun w => with_refresh w (rotate_row scope tokenID at_ <$> rw_refresh w));;
  ret changed.

(** ** Session.go of the application *)

(** The whole family is ended and the caller told what an unknown token is told. *)
Definition familyDies {A} (scope : ID) (c : RefreshCredential) (now : Time) : T A :=
  Revoke scope (se_id (rc_session c)) (se_account (rc_session c)) now;;
  recordSessionAudit RefreshReuseAction "DENIED" "WARNING" (Revoked (rc_session c) now) (rc_account c) now;;
  failure FailureRefreshReused;;
  fail refreshRefused.

Definition mintRefresh (s : Session) (material : string) (fresh : ID) (now : Time) : res (RefreshToken * Token) :=
  presented ← NewRefreshToken (se_tenant s) material;
  Ok (mkRefresh fresh (se_tenant s) (se_id s) now (now + RefreshTokenLifetime) zero_time, presented).

Definition pairFor (s : Session) (a : Account) (presented : Token) (refresh : RefreshToken) (now : Time) : SessionPair :=
  let accessExpiry := now + AccessTokenLifetime in
  mkPair (sign (mkClaims (se_tenant s) (se_id s) (acc_id a) accessExpiry)) accessExpiry (Secret presented)
    (rt_expires_at refresh) s.

(** A check that fails is counted before it is answered. *)
Definition counted (reason : string) (r : res unit) : T unit :=
  match r with Ok _ => skip | Err e => failure reason;; fail e | Panic => lift Panic end.

(** The read of the exchange: what the presented token names. *)
Definition find_presented (token : Token) : T RefreshCredential :=
  found_ <~ found (FindByToken (to_tenant token) token);
  match found_ with
  | None => failure FailureRefreshRefused;; fail refreshRefused
  | Some c => ret c
  end.

(** What the exchange does with what it read. *)
Definition exchange (scope : ID) (c : RefreshCredential) (material : string) (fresh : ID) (now : Time) : T SessionPair :=
  if IsRotated (rc_token c) then familyDies scope c now
  else
    counted FailureRefreshRefused (refresh_verify (rc_token c) now);;
    counted FailureRefreshRefused (Verify (rc_session c) now);;
    lift (account_verify (acc_status (rc_account c)));;
    lift (tenant_verify (rc_tenant_status c));;
    rotated <~ Rotate scope (rt_id (rc_token c)) now;
    if negb rotated then familyDies scope c now
    else
      minted <~ lift (mintRefresh (rc_session c) material fresh now);
      let '(next, presented) := minted in
      InsertRefreshToken scope next presented;;
      let session := Rotated (rc_session c) now in
      Extend scope (se_id session) (se_expires_at session);;
      session <~ (if NeedsTouch session now LastUsedInterval
                  then TouchLastSeen scope (se_id session) now;; ret (seen session now)
                  else ret session);
      recordSessionAudit SessionRefreshedAction "SUCCESS" "INFO" session (rc_account c) now;;
      ret (pairFor session (rc_account c) presented next now).

(** [RefreshSession.Execute]; [material] is what was drawn, if it could be. *)
Definition RefreshSession (raw header : string) (material : option string) (fresh : ID) (now : Time) : T SessionPair :=
  match ParseRefreshToken raw with
  | Ok token =>
      if negb (String.eqb header "") && negb (String.eqb header (to_tenant token)) then
        fail (WithDetail ErrForbidden "access.tenant_mismatch")
      else match material with
           | None => fail (WithDetail ErrInternal "auth.session_unmintable")
           | Some m => transaction (c <~ find_presented token; exchange (to_tenant token) c m fresh now)
           end
  | _ => failure FailureRefreshRefused;; fail refreshRefused
  end.

(** [openSessionVia]: the ledger wiped, the session, the first link of its chain. *)
Definition ClearAttempt (scope : ID) (subject : string) : T unit :=
  write (fun w => with_attempts w (delete (scope, subject_hash subject) (rw_attempts w))).

Definition openSessionVia (scope : ID) (a : Account) (inp : NewSessionInput) (action : string) (subjects : list string)
    (material : option string) (fresh : ID) : T SessionPair :=
  match material with
  | None => fail (WithDetail ErrInternal "auth.session_unmintable")
  | Some m =>
      transaction (
        for_each (ClearAttempt scope) subjects;;
        session <~ lift (NewSession inp);
        InsertSession scope session;;
        lift (Enqueue (ns_tenant inp) (ns_now inp));;
        minted <~ lift (mintRefresh session m fresh (ns_now inp));
        let '(first, presented) := minted in
        InsertRefreshToken scope first presented;;
        recordSessionAudit action "SUCCESS" "NOTICE" session a (ns_now inp);;
        ret (pairFor session a presented first (ns_now inp)))
  end.

(** The ledger of attempts: refused while any subject's window is open. *)
Definition FindAttempt (scope : ID) (subject : string) : T AuthAttempt :=
  read (fun w => Ok (default (mkAttempt 0 None None) (rw_attempts w !! (scope, subject_hash subject)))).

Fixpoint latest_lock (scope : ID) (subjects : list string) (until : Time) : T Time :=
  match subjects with
  | [] => ret until
  | subject :: rest =>
      attempt <~ FindAttempt scope subject;
      latest_lock scope rest (Z.max until (timeFrom (at_locked_until attempt)))
  end.

Definition checkLocked (scope : ID) (subjects : list string) (now : Time) : T unit :=
  until <~ latest_lock scope subjects zero_time;
  if now <? until then
    failure FailureLocked;;
    fail (detailed ErrRateLimited "auth.sign_in_locked"
            [("retry_after_seconds", itoa (time_sub until now / Second + 1))])
  else skip.

(** [CountAuthFailure] and [UpsertAuthAttempt], one after the other. *)
Definition fail_one (scope : ID) (now : Time) (subject : string) : T unit :=
  attempt <~ FindAttempt scope subject;
  let failures := at_failures attempt + 1 in
  write (fun w => with_attempts w (<[(scope, subject_hash subject) :=
    mkAttempt failures (Some now) (nullableTime (LockedUntil failures now))]> (rw_attempts w))).

Definition recordFailure (scope : ID) (subjects : list string) (now : Time) : T unit :=
  transaction (for_each (fail_one scope now) subjects).

(** ** Sessions.go and AuthenticateToken.go *)

(** What the use cases ask of who calls: the tenant, the account, the credential. *)
Record Actor := mkActor {
  ax_kind : string; ax_tenant : ID; ax_account : ID; ax_token : ID; ax_scopes : list string;
  ax_withheld : list string; ax_unreadable : bool
}.

Definition IsAuthenticated (a : Actor) : bool :=
  negb (String.eqb (ax_kind a) "") && negb (String.eqb (ax_kind a) "ANONYMOUS") && negb (id_is_zero (ax_tenant a)).

Definition RequireScope (a : Actor) (scope : string) : res unit :=
  if negb (IsAuthenticated a) then Err (unauthenticated "access.credential_required")
  else if negb (contains (ax_scopes a) scope) && contains (ax_withheld a) scope then
    if ax_unreadable a then Err (detailed ErrUnavailable "access.operator_register_unreadable" [("scope", scope)])
    else Err (detailed ErrForbidden "access.operator_register_required" [("scope", scope)])
  else if negb (contains (ax_scopes a) scope) then Err (detailed ErrForbidden "access.insufficient_scope" [("scope", scope)])
  else Ok tt.

Definition accountsRead : string := "accounts:read".
Definition accountRead : string := "accounts:write".

Definition owner_required : Error := WithDetail ErrForbidden "access.token_owner_required".

Definition ListSessions (actor : Actor) (now : Time) : T (list Session) :=
  lift (RequireScope actor accountsRead);;
  if id_is_zero (ax_account actor) then fail owner_required
  else transaction (
    found_ <~ ForAccount (ax_tenant actor) (ax_account actor) now;
    let '(sessions, rotationFrom) := found_ in
    ret (List.filter (fun s => is_ok (VerifyOpen s now rotationFrom)) sessions)).

Definition recordRevocation (actor : Actor) (action : string) (target : ID) (at_ : Time) : T unit :=
  Append (mkAudit (ax_tenant actor) at_ action "SUCCESS" "NOTICE" (ax_account actor) target).

Definition withdrawAppGrant (actor : Actor) (sessionID : ID) (at_ : Time) : T unit :=
  withdrawn <~ RevokeAppGrant (ax_tenant actor) sessionID (ax_account actor) at_;
  if id_is_zero withdrawn.1 then skip
  else Append (mkAudit (ax_tenant actor) at_ OauthGrantRevokedAction "SUCCESS" "NOTICE" (ax_account actor) withdrawn.1).

Definition session_not_found : Error := WithDetail ErrNotFound "auth.session_not_found".

Definition RevokeSession (actor : Actor) (sessionID : ID) (now : Time) : T unit :=
  lift (RequireScope actor accountRead);;
  if id_is_zero sessionID then
    fail (field_refused ErrValidation "/session_id" "auth.session_not_found" [])
  else transaction (
    changed <~ Revoke (ax_tenant actor) sessionID (ax_account actor) now;
    if (changed : bool) then
      recordRevocation actor SessionRevokedAction sessionID now;;
      withdrawAppGrant actor sessionID now
    else
      credential <~ attempt (FindForAuth (ax_tenant actor) sessionID);
      match credential with
      | inl c => if String.eqb (se_account (cr_session c)) (ax_account actor) then skip else fail session_not_found
      | inr _ => fail session_not_found
      end).

Definition RevokeAllSessions (actor : Actor) (now : Time) : T unit :=
  lift (RequireScope actor accountRead);;
  if id_is_zero (ax_account actor) then fail owner_required
  else transaction (
    ended <~ RevokeAll (ax_tenant actor) (ax_account actor) now;
    if ended =? 0 then skip else recordRevocation actor SessionsRevokedAction (ax_account actor) now).

Definition RevokeOtherSessions (actor : Actor) (now : Time) : T unit :=
  lift (RequireScope actor accountRead);;
  if id_is_zero (ax_account actor) then fail owner_required
  else transaction (
    keep <~ (if id_is_zero (ax_token actor) then ret ""
             else credential <~ found (FindForAuth (ax_tenant actor) (ax_token actor));
                  ret (match credential with
                       | Some c => if String.eqb (se_account (cr_session c)) (ax_account actor) then se_id (cr_session c) else ""
                       | None => ""
                       end));
    ended <~ RevokeOthers (ax_tenant actor) (ax_account actor) keep now;
    if ended =? 0 then skip else recordRevocation actor SessionsRevokedAction (ax_account actor) now).

(** The decision of [executeSession] about the claims of a verified access token:
    the session and account they stand for, and the last use written back.  That
    the request's host may name another workspace and the actor made of what was
    read are left out. *)
Definition token_unknown : Error := unauthenticated "access.token_unknown".

Definition authenticate (claims : SessionClaims) (now : Time) : T SessionCredential :=
  transaction (
    found_ <~ found (FindForAuth (cl_tenant claims) (cl_session claims));
    match found_ with
    | None => fail token_unknown
    | Some c =>
        if negb (String.eqb (se_account (cr_session c)) (cl_account claims)) then fail token_unknown
        else
          lift (VerifyOpen (cr_session c) now (cr_rotation_from c));;
          lift (account_verify (cr_status c));;
          lift (tenant_verify (cr_tenant_status c));;
          (if NeedsTouch (cr_session c) now LastUsedInterval then TouchLastSeen (cl_tenant claims) (se_id (cr_session c)) now else skip);;
          ret c
    end).
End sessions.

(** ** Small runs *)

Definition plain_hash (s : string) : string := s.
Definition unsigned_claims (c : SessionClaims) : string := SessionAccessTokenPrefix +:+ cl_session c.
Definition no_queue (tenant : ID) (at_ : Time) : res unit := Ok tt.

Definition acme : ID := "01920000-0000-7000-8000-00000000000a".
Definition anna : ID := "01920000-0000-7000-8000-0000000000aa".
Definition anna_phone : ID := "01920000-0000-7000-8000-0000000000b1".
Definition anna_account : Account := mkAccount anna "Anna" AccountActive.
Definition morning : Time := 1784548920 * Second.
Definition first_secret : string := "0123456789abcdef0123456789ABCDEF".
Definition second_secret : string := "fedcba9876543210fedcba9876543210".
Definition third_secret : string := "00000000000000000000000000000000".

Definition empty_server : Server :=
  mkServer (mkRows {[ acme := mkTenantRow "ACTIVE" None ]} {[ anna := mkAccountRow acme "Anna" AccountActive false ]}
    ∅ ∅ ∅ ∅ []) [].

Definition phone_input : NewSessionInput :=
  mkNewSession anna_phone acme anna "phone" "192.0.2.77:50000" morning (mkPolicy 7 30) "PASSWORD" "".

Definition signed_in : Server * res SessionPair := Eval vm_compute in
  openSessionVia plain_hash plain_hash unsigned_claims no_queue acme anna_account phone_input SignedInAction ["account:anna"] (Some first_secret) "r1" empty_server.

Definition the_pair (r : res SessionPair) : string := match r with Ok p => pr_refresh p | _ => "" end.

Example signed_in_pair : the_pair signed_in.2 = "hbt_srt_0192000000007000800000000000000a_MDEyMzQ1Njc4OWFiY2RlZjAxMjM0NTY3ODlBQkNERUY".
Proof. vm_compute. reflexivity. Qed.
Example signed_in_class : sr_ip_class <$> (rw_sessions (sv_rows signed_in.1) !! anna_phone) = Some "192.0.2.0/24".
Proof. vm_compute. reflexivity. Qed.
