(* ===== verification/SessionChain.v ===== *)
(** * The chain of a session's tokens

    The theorems about Session.v: what every interleaving of sign-ins, exchanges,
    revocations and requests keeps; that a refresh token is exchanged once and a
    revocation is final; what a reused token leaves behind; that the list of
    sessions is the list of those that work; and the pace the ledger of attempts
    forces on guessing. *)

From Stdlib Require Import ZArith Lia String Ascii List Bool.
From stdpp Require Import base option list strings gmap relations.
From S2P Require Import Prelude Shared Effects Text Literal Netip Token Session.

Open Scope string_scope.
Open Scope list_scope.
Open Scope Z_scope.
Open Scope effect_scope.

(** ** Runs *)

Lemma read_run {A} (f : Rows -> res A) sv sv' a : read f sv = (sv', Ok a) -> sv' = sv /\ f (sv_rows sv) = Ok a.
Proof. unfold read, query. by intros [= <- ->]. Qed.
Lemma write_run f sv sv' u : write f sv = (sv', Ok u) -> sv' = mkServer (f (sv_rows sv)) (sv_signals sv).
Proof. by intros [= <- _]. Qed.
Lemma transaction_run {A} (c : T A) sv sv' r : transaction c sv = (sv', r) ->
  (exists a, r = Ok a /\ c sv = (sv', Ok a)) \/ (is_ok r = false /\ sv_rows sv' = sv_rows sv).
Proof.
  unfold transaction. destruct (c sv) as [w [a|e|]]; intros [= <- <-]; [left; by exists a|by right..].
Qed.
Lemma counted_run reason r sv sv' u : counted reason r sv = (sv', Ok u) -> sv' = sv /\ r = Ok tt.
Proof. destruct r as [[]|e|]; cbn; unfold skip, bind, failure, fail, lift, ret; intros [= <- _]; done. Qed.
Lemma append_run e sv sv' u : Append e sv = (sv', Ok u) ->
  sv' = mkServer (with_audit (sv_rows sv) (rw_audit (sv_rows sv) ++ [e])) (sv_signals sv).
Proof. unfold Append. destruct (_ || _); [done|]. apply write_run. Qed.

Ltac steps :=
  repeat (runs; match goal with
  | H : read _ _ = (_, Ok _) |- _ => apply read_run in H as [-> H]
  | H : write _ _ = (_, Ok _) |- _ => apply write_run in H as ->
  | H : counted _ _ _ = (_, Ok _) |- _ => apply counted_run in H as [-> H]
  | H : Append _ _ = (_, Ok _) |- _ => apply append_run in H as ->
  | H : Ok _ = Ok _ |- _ => injection H as H
  end); runs.

(** ** The tables at all times *)

Definition live_link (rf : RefreshRow) : bool := match rf_rotated_at rf with None => true | Some _ => false end.

(** Keys and identifiers agree, every link hangs off a session of its tenant, and
    a session's chain has one live end. *)
Record rows_ok (w : Rows) : Prop := {
  ok_keys : forall k s, rw_sessions w !! k = Some s -> sr_id s = k;
  ok_ids : forall h1 r1 h2 r2, rw_refresh w !! h1 = Some r1 -> rw_refresh w !! h2 = Some r2 -> rf_id r1 = rf_id r2 -> h1 = h2;
  ok_session : forall h r, rw_refresh w !! h = Some r ->
    exists s, rw_sessions w !! rf_session r = Some s /\ sr_tenant s = rf_tenant r;
  ok_line : forall h1 r1 h2 r2, rw_refresh w !! h1 = Some r1 -> rw_refresh w !! h2 = Some r2 ->
    rf_session r1 = rf_session r2 -> live_link r1 = true -> live_link r2 = true -> h1 = h2
}.

(** What no operation takes back: a session stays, whose it is and its bounds,
    and its revocation; a link stays, and its rotation. *)
Record same_session (s s' : SessionRow) : Prop := {
  same_id : sr_id s' = sr_id s;
  same_tenant : sr_tenant s' = sr_tenant s;
  same_account : sr_account s' = sr_account s;
  same_created : sr_created_at s' = sr_created_at s;
  same_hard : sr_hard_expires_at s' = sr_hard_expires_at s;
  same_idle : sr_idle_minutes s' = sr_idle_minutes s;
  same_revoked : forall t, sr_revoked_at s = Some t -> sr_revoked_at s' = Some t
}.

Record same_link (r r' : RefreshRow) : Prop := {
  link_id : rf_id r' = rf_id r;
  link_tenant : rf_tenant r' = rf_tenant r;
  link_session : rf_session r' = rf_session r;
  link_rotated : forall t, rf_rotated_at r = Some t -> rf_rotated_at r' = Some t
}.

Record later (w w' : Rows) : Prop := {
  later_session : forall k s, rw_sessions w !! k = Some s -> exists s', rw_sessions w' !! k = Some s' /\ same_session s s';
  later_link : forall h r, rw_refresh w !! h = Some r -> exists r', rw_refresh w' !! h = Some r' /\ same_link r r'
}.

Lemma same_session_refl s : same_session s s.
Proof. by split. Qed.
Lemma same_session_trans a b c : same_session a b -> same_session b c -> same_session a c.
Proof. intros [] []. split; try congruence. auto. Qed.
Lemma same_link_refl r : same_link r r.
Proof. by split. Qed.
Lemma same_link_trans a b c : same_link a b -> same_link b c -> same_link a c.
Proof. intros [] []. split; try congruence. auto. Qed.

Lemma later_refl w : later w w.
Proof. split; intros; eexists; split; eauto using same_session_refl, same_link_refl. Qed.
Lemma later_trans a b c : later a b -> later b c -> later a c.
Proof.
  intros [S1 L1] [S2 L2]. split.
  - intros k s Hs. destruct (S1 _ _ Hs) as (s1 & H1 & Hs1). destruct (S2 _ _ H1) as (s2 & H2 & Hs2).
    exists s2. split; [done|]. by eapply same_session_trans.
  - intros h r Hr. destruct (L1 _ _ Hr) as (r1 & H1 & Hr1). destruct (L2 _ _ H1) as (r2 & H2 & Hr2).
    exists r2. split; [done|]. by eapply same_link_trans.
Qed.

(** A step that only goes forward. *)
Definition forward (w w' : Rows) : Prop := (rows_ok w -> rows_ok w') /\ later w w'.

Lemma forward_refl w : forward w w.
Proof. split; [done|apply later_refl]. Qed.
Lemma forward_trans a b c : forward a b -> forward b c -> forward a c.
Proof. intros [K1 L1] [K2 L2]. split; [auto|by eapply later_trans]. Qed.

(** A step that leaves both tables. *)
Lemma forward_same w w' : rw_sessions w' = rw_sessions w -> rw_refresh w' = rw_refresh w -> forward w w'.
Proof.
  intros Es Er. split.
  - intros [Hk Hi Hs Hl]. split; rewrite ?Es, ?Er; done.
  - split; intros; rewrite ?Es, ?Er; eexists; split; eauto using same_session_refl, same_link_refl.
Qed.

(** A step that changes sessions in place. *)
Lemma forward_sessions f w w' : (forall k s, rw_sessions w !! k = Some s -> same_session s (f s)) ->
  rw_sessions w' = f <$> rw_sessions w -> rw_refresh w' = rw_refresh w -> forward w w'.
Proof.
  intros Hf Es Er. split.
  - intros [Hk Hi Hs Hl]. split; rewrite ?Er; [|done| |done].
    + intros k s. rewrite Es, lookup_fmap, fmap_Some. intros (s0 & H0 & ->). rewrite (same_id _ _ (Hf _ _ H0)). by apply Hk.
    + intros h r Hr. destruct (Hs _ _ Hr) as (s & H & Ht). exists (f s). rewrite Es, lookup_fmap, H. split; [done|].
      by rewrite (same_tenant _ _ (Hf _ _ H)).
  - split.
    + intros k s Hs. exists (f s). rewrite Es, lookup_fmap, Hs. split; [done|by apply (Hf k)].
    + intros h r Hr. exists r. rewrite Er. split; [done|apply same_link_refl].
Qed.

(** The conditional update of a statement. *)
Lemma forward_update p f w : (forall s, p s = true -> same_session s (f s)) -> forward w (update_sessions p f w).
Proof.
  intros Hf. apply (forward_sessions (fun r => if p r then f r else r)); [|done..].
  intros k s _. destruct (p s) eqn:E; [by apply Hf|apply same_session_refl].
Qed.

Lemma revoke_same scope account at_ s : unrevoked scope account s = true -> same_session s (with_revoked s (Some at_)).
Proof.
  unfold unrevoked. intros H. apply andb_true_iff in H as [_ H]. split; try done.
  intros t E. by rewrite E in H.
Qed.
(** ** What an exchange does *)

Section chain.
Context (hash : string -> string) (subject_hash : string -> string) (sign : SessionClaims -> string)
  (Enqueue : ID -> Time -> res unit).

(** What the end of an exchange does to the session's row. *)
Definition slid (scope id : ID) (horizon : Time) (touched : option Time) (r : SessionRow) : SessionRow :=
  if String.eqb (sr_tenant r) scope && String.eqb (sr_id r) id then
    match touched with Some at_ => with_last_seen (with_expires r horizon) (Some at_) | None => with_expires r horizon end
  else r.

Definition exchanged_rows (scope : ID) (c : RefreshCredential) (now : Time) (next : RefreshToken) (presented : Token)
    (touched : option Time) (w w' : Rows) : Prop :=
  rw_refresh w' = <[hash (Secret presented) := mkRefreshRow (rt_id next) scope (rt_session next) (rt_created_at next) (rt_expires_at next) None]>
    (rotate_row scope (rt_id (rc_token c)) now <$> rw_refresh w) /\
  rw_sessions w' = slid scope (se_id (rc_session c)) (now + RefreshTokenLifetime) touched <$> rw_sessions w /\
  rw_accounts w' = rw_accounts w /\ rw_tenants w' = rw_tenants w /\ rw_grants w' = rw_grants w /\ rw_attempts w' = rw_attempts w.

Lemma family_refuses {A} scope c now sv sv' (a : A) : familyDies scope c now sv = (sv', Ok a) -> False.
Proof. unfold familyDies. intros H. steps. done. Qed.

Lemma rotate_run scope id now sv sv' b : Rotate scope id now sv = (sv', Ok b) ->
  sv' = mkServer (with_refresh (sv_rows sv) (rotate_row scope id now <$> rw_refresh (sv_rows sv))) (sv_signals sv) /\
  b = existsb (fun kr => rotating scope id kr.2) (map_to_list (rw_refresh (sv_rows sv))).
Proof. unfold Rotate. intros H. steps. by subst. Qed.

Lemma insert_refresh_run scope t presented sv sv' u : InsertRefreshToken hash scope t presented sv = (sv', Ok u) ->
  sv' = mkServer (with_refresh (sv_rows sv) (<[hash (Secret presented) :=
          mkRefreshRow (rt_id t) scope (rt_session t) (rt_created_at t) (rt_expires_at t) None]> (rw_refresh (sv_rows sv)))) (sv_signals sv) /\
  rw_refresh (sv_rows sv) !! hash (Secret presented) = None /\
  (forall h rf, rw_refresh (sv_rows sv) !! h = Some rf -> rf_id rf <> rt_id t) /\
  exists s, rw_sessions (sv_rows sv) !! rt_session t = Some s /\ sr_tenant s = scope.
Proof.
  unfold InsertRefreshToken. intros H. apply bind_run in H as (refused & sv1 & Hr & H). apply read_run in Hr as [-> Hr].
  injection Hr as Hr. destruct refused; [done|]. apply write_run in H as ->. split; [done|].
  apply orb_false_iff in Hr as [Hr Hs]. apply orb_false_iff in Hr as [Hh Hi].
  split; [by destruct (rw_refresh (sv_rows sv) !! hash (Secret presented))|]. split.
  - intros h rf Hl E. apply (eq_true_false_abs _ (proj2 (existsb_exists _ _) (ex_intro _ (h, rf) (conj
      (proj1 (list_elem_of_In _ _) (proj2 (elem_of_map_to_list _ _ _) Hl)) (proj2 (String.eqb_eq _ _) E)))) Hi).
  - destruct (rw_sessions (sv_rows sv) !! rt_session t) as [s|]; [|done]. exists s. split; [done|].
    apply negb_false_iff, String.eqb_eq in Hs. done.
Qed.

Lemma exists_rotating scope id w : existsb (fun kr => rotating scope id kr.2) (map_to_list (rw_refresh w)) = true ->
  exists h rf, rw_refresh w !! h = Some rf /\ rotating scope id rf = true.
Proof.
  intros H. apply existsb_exists in H as ([h rf] & Hin & Hr). exists h, rf. split; [|done].
  by apply elem_of_map_to_list, list_elem_of_In.
Qed.

Lemma rotate_row_id scope id now rf : rf_id (rotate_row scope id now rf) = rf_id rf.
Proof. unfold rotate_row. by destruct (rotating scope id rf). Qed.

Lemma exchange_run scope c material fresh now sv sv' pair :
  exchange hash sign scope c material fresh now sv = (sv', Ok pair) ->
  IsRotated (rc_token c) = false /\ refresh_verify (rc_token c) now = Ok tt /\ Verify (rc_session c) now = Ok tt /\
  MayAct (acc_status (rc_account c)) = true /\ tenant_verify (rc_tenant_status c) = Ok tt /\
  (exists h rf, rw_refresh (sv_rows sv) !! h = Some rf /\ rotating scope (rt_id (rc_token c)) rf = true) /\
  exists next presented touched, mintRefresh (rc_session c) material fresh now = Ok (next, presented) /\
    pr_refresh pair = Secret presented /\ pr_refresh_expires_at pair = now + RefreshTokenLifetime /\
    rw_refresh (sv_rows sv) !! hash (Secret presented) = None /\
    (forall h rf, rw_refresh (sv_rows sv) !! h = Some rf -> rf_id rf <> fresh) /\
    exchanged_rows scope c now next presented touched (sv_rows sv) (sv_rows sv') /\ sv_signals sv' = sv_signals sv.
Proof.
  unfold exchange. destruct (IsRotated (rc_token c)); [intros H; by apply family_refuses in H|]. intros H. steps.
  match goal with H : Rotate _ _ _ _ = _ |- _ => apply rotate_run in H as [-> ->] end.
  destruct (existsb _ _) eqn:Hrot; cbn [negb] in H; [|by apply family_refuses in H]. steps.
  match goal with p : (RefreshToken * Token)%type |- _ => destruct p as [next presented] end. steps.
  match goal with H : InsertRefreshToken _ _ _ _ _ = _ |- _ => apply insert_refresh_run in H as (-> & Hnone & Hids & Hsession) end.
  match goal with H : Extend _ _ _ _ = _ |- _ => apply write_run in H as -> end.
  destruct a1, a2.
  match goal with H : account_verify _ = Ok tt |- _ => unfold account_verify in H; destruct (MayAct _) eqn:Hact; [clear H|done] end.
  match goal with H : mintRefresh _ _ _ _ = _ |- _ => rename H into Hmint; pose proof Hmint as Hm end.
  unfold mintRefresh in Hm. apply bind_ok in Hm as (p & _ & [= <- ->]).
  destruct (exists_rotating _ _ _ Hrot) as (h & rf & Hh & Hrf).
  assert (Hfresh : forall h rf, rw_refresh (sv_rows sv) !! h = Some rf -> rf_id rf <> fresh).
  { intros h' rf' Hl. specialize (Hids h' (rotate_row scope (rt_id (rc_token c)) now rf')). cbn in Hids.
    rewrite lookup_fmap, Hl in Hids. specialize (Hids eq_refl). by rewrite rotate_row_id in Hids. }
  cbn in Hnone. rewrite lookup_fmap in Hnone. apply fmap_None in Hnone.
  destruct (NeedsTouch _ _ _); steps;
    try match goal with H : TouchLastSeen _ _ _ _ = _ |- _ => apply write_run in H as -> end; steps;
    repeat match goal with H : recordSessionAudit _ _ _ _ _ _ _ = _ |- _ => apply append_run in H as -> end;
    cbn; (do 5 (split; [done|])); (split; [by exists h, rf|]); eexists _, _.
  - exists (Some now). do 5 (split; [done|]). split; [|done]. repeat split. cbn.
    rewrite <- map_fmap_compose. apply map_fmap_ext. intros k r _. unfold compose, slid. cbn.
    destruct (String.eqb (sr_tenant r) scope && String.eqb (sr_id r) (se_id (rc_session c))) eqn:E; cbn; by rewrite E.
  - exists None. do 5 (split; [done|]). split; [|done]. repeat split.
Qed.

(** ** Every operation goes forward *)

(** A new link of a session that has no live one. *)
Lemma link_ok w h rf : rows_ok w -> rw_refresh w !! h = None ->
  (forall h' r, rw_refresh w !! h' = Some r -> rf_id r <> rf_id rf) ->
  (exists s, rw_sessions w !! rf_session rf = Some s /\ sr_tenant s = rf_tenant rf) ->
  (forall h' r, rw_refresh w !! h' = Some r -> rf_session r = rf_session rf -> live_link r = false) ->
  rows_ok (with_refresh w (<[h := rf]> (rw_refresh w))) /\ later w (with_refresh w (<[h := rf]> (rw_refresh w))).
Proof.
  intros [Hk Hi Hs Hl] Hh Hfresh Hsession Hlive. split; [split; cbn; [done|..]|].
  - intros h1 r1 h2 r2. rewrite !lookup_insert_Some. intros [[<- <-]|[Hn1 H1]] [[<- <-]|[Hn2 H2]] E; [done|..].
    + by apply Hfresh in H2.
    + by apply Hfresh in H1.
    + by eapply Hi.
  - intros h' r. rewrite lookup_insert_Some. intros [[<- <-]|[_ H]]; [done|by eapply Hs].
  - intros h1 r1 h2 r2. rewrite !lookup_insert_Some. intros [[<- <-]|[Hn1 H1]] [[<- <-]|[Hn2 H2]] E L1 L2; [done|..].
    + by rewrite (Hlive _ _ H2) in L2.
    + by rewrite (Hlive _ _ H1) in L1.
    + by eapply Hl.
  - split; cbn.
    + intros k s H. exists s. split; [done|apply same_session_refl].
    + intros h' r H. exists r. split; [|apply same_link_refl]. rewrite lookup_insert_ne; [done|]. intros ->. by rewrite Hh in H.
Qed.

Lemma rotate_same scope id at_ rf : same_link rf (rotate_row scope id at_ rf).
Proof.
  unfold rotate_row, rotating. destruct (_ && _ && _) eqn:E; [|apply same_link_refl].
  apply andb_true_iff in E as [_ E]. split; try done. intros t H. by rewrite H in E.
Qed.

Lemma rotated_dead scope id at_ rf : live_link (rotate_row scope id at_ rf) = true -> live_link rf = true /\ rotating scope id rf = false.
Proof.
  unfold rotate_row. destruct (rotating scope id rf) eqn:E; [done|]. done.
Qed.

(** The links after a rotation; one that was found has left its session without
    a live one. *)
Lemma forward_rotate scope id at_ w w' : rw_sessions w' = rw_sessions w ->
  rw_refresh w' = rotate_row scope id at_ <$> rw_refresh w -> forward w w'.
Proof.
  intros Es Er. assert (Hback : forall h r, rw_refresh w' !! h = Some r -> exists r0, rw_refresh w !! h = Some r0 /\ r = rotate_row scope id at_ r0).
  { intros h r. rewrite Er, lookup_fmap, fmap_Some. intros (r0 & H & ->). by exists r0. }
  split.
  - intros [Hk Hi Hs Hl]. split; rewrite ?Es; [done|..].
    + intros h1 r1 h2 r2 H1 H2 E. apply Hback in H1 as (a & Ha & ->), H2 as (b & Hb & ->). rewrite !rotate_row_id in E. by eapply Hi.
    + intros h r H. apply Hback in H as (a & Ha & ->). pose proof (rotate_same scope id at_ a) as L.
      rewrite (link_session _ _ L), (link_tenant _ _ L). by eapply Hs.
    + intros h1 r1 h2 r2 H1 H2 E L1 L2. apply Hback in H1 as (a & Ha & ->), H2 as (b & Hb & ->).
      rewrite !(link_session _ _ (rotate_same scope id at_ _)) in E. apply rotated_dead in L1 as [L1 _], L2 as [L2 _]. by eapply Hl.
  - split.
    + intros k s H. exists s. rewrite Es. split; [done|apply same_session_refl].
    + intros h r H. exists (rotate_row scope id at_ r). rewrite Er, lookup_fmap, H. split; [done|apply rotate_same].
Qed.

(** What an exchange under way has read: a link of its session and tenant. *)
Definition pending_ok (w : Rows) (token : Token) (c : RefreshCredential) : Prop :=
  se_tenant (rc_session c) = to_tenant token /\
  exists rf, rw_refresh w !! hash (Secret token) = Some rf /\ rf_id rf = rt_id (rc_token c) /\
    rf_session rf = se_id (rc_session c) /\ rf_tenant rf = to_tenant token.

Lemma pending_later w w' token c : later w w' -> pending_ok w token c -> pending_ok w' token c.
Proof.
  intros [_ Hl] (Ht & rf & Hr & Hi & Hs & Hn). split; [done|]. destruct (Hl _ _ Hr) as (rf' & Hr' & L).
  exists rf'. rewrite (link_id _ _ L), (link_session _ _ L), (link_tenant _ _ L). done.
Qed.

Lemma exchanged_forward token c now next presented touched w w' :
  rows_ok w -> pending_ok w token c ->
  (exists h rf, rw_refresh w !! h = Some rf /\ rotating (to_tenant token) (rt_id (rc_token c)) rf = true) ->
  rt_session next = se_id (rc_session c) ->
  rw_refresh w !! hash (Secret presented) = None -> (forall h rf, rw_refresh w !! h = Some rf -> rf_id rf <> rt_id next) ->
  exchanged_rows (to_tenant token) c now next presented touched w w' ->
  (rows_ok w' /\ later w w') /\
  exists rf, rw_refresh w !! hash (Secret token) = Some rf /\ live_link rf = true /\
    rw_refresh w' !! hash (Secret token) = Some (rotate_row (to_tenant token) (rt_id (rc_token c)) now rf) /\
    rotating (to_tenant token) (rt_id (rc_token c)) rf = true.
Proof.
  intros Hok (Ht & rf & Hr & Hid & Hse & Hte) (h & rf' & Hr' & Hrot) Hns Hnone Hids (Er & Es & _).
  assert (h = hash (Secret token) /\ rf' = rf) as [-> ->].
  { assert (h = hash (Secret token)) as ->; [|split; [done|congruence]].
    eapply (ok_ids _ Hok); eauto. unfold rotating in Hrot. apply andb_true_iff in Hrot as [Hrot _].
    apply andb_true_iff in Hrot as [_ Hrot]. apply String.eqb_eq in Hrot. by rewrite Hrot. }
  assert (Hl : live_link rf = true) by (unfold rotating in Hrot; apply andb_true_iff in Hrot as [_ Hrot]; exact Hrot).
  set (w1 := with_refresh w (rotate_row (to_tenant token) (rt_id (rc_token c)) now <$> rw_refresh w)).
  destruct (forward_rotate (to_tenant token) (rt_id (rc_token c)) now w w1 eq_refl eq_refl) as [K1 L1].
  specialize (K1 Hok). destruct (link_ok w1 (hash (Secret presented)) (mkRefreshRow (rt_id next) (to_tenant token) (rt_session next) (rt_created_at next) (rt_expires_at next) None)) as [K2 L2].
  { done. }
  { cbn. by rewrite lookup_fmap, Hnone. }
  { intros h r. cbn. rewrite lookup_fmap, fmap_Some. intros (r0 & H0 & ->). rewrite rotate_row_id. by eapply Hids. }
  { cbn. rewrite Hns, <- Hse. destruct (ok_session _ Hok _ _ Hr) as (s & Hs & E). exists s. by rewrite Hs, E, Hte. }
  { intros h r. cbn. rewrite lookup_fmap, fmap_Some. intros (r0 & H0 & ->). rewrite (link_session _ _ (rotate_same _ _ _ _)), Hns.
    intros E. destruct (live_link (rotate_row _ _ _ r0)) eqn:Hlive; [|done]. apply rotated_dead in Hlive as [Hlive Hno].
    assert (h = hash (Secret token)) as -> by (eapply (ok_line _ Hok); eauto; congruence).
    rewrite Hr in H0. injection H0 as <-. by rewrite Hrot in Hno. }
  set (w2 := with_refresh w1 _) in K2, L2.
  destruct (forward_sessions (slid (to_tenant token) (se_id (rc_session c)) (now + RefreshTokenLifetime) touched) w2 w') as [K3 L3]; [|done|done|].
  { intros k s _. unfold slid. destruct (_ && _); [|apply same_session_refl]. by destruct touched; split. }
  split; [split; [by apply K3|]|].
  - eapply later_trans; [exact L1|]. by eapply later_trans.
  - exists rf. split; [done|]. split; [done|]. split; [|done]. rewrite Er, lookup_insert_ne; [by rewrite lookup_fmap, Hr|].
    intros E. by rewrite E, Hr in Hnone.
Qed.

Lemma for_each_forward {X} (f : X -> T unit) xs :
  (forall x sv sv' u, f x sv = (sv', Ok u) -> forward (sv_rows sv) (sv_rows sv')) ->
  forall sv sv' u, for_each f xs sv = (sv', Ok u) -> forward (sv_rows sv) (sv_rows sv').
Proof.
  intros Hf. induction xs as [|x xs IH]; intros sv sv' u; cbn [for_each].
  - intros H. runs. apply forward_refl.
  - intros H. runs. eapply forward_trans; [by eapply Hf|by eapply IH].
Qed.

Lemma transaction_forward {A} (c : T A) sv sv' r : transaction c sv = (sv', r) ->
  (forall sv1 a, c sv = (sv1, Ok a) -> forward (sv_rows sv) (sv_rows sv1)) -> forward (sv_rows sv) (sv_rows sv').
Proof.
  intros H Hc. apply transaction_run in H as [(a & -> & H)|[_ ->]]; [by eapply Hc|apply forward_refl].
Qed.

Lemma append_forward e sv sv' u : Append e sv = (sv', Ok u) -> forward (sv_rows sv) (sv_rows sv').
Proof. intros H. apply append_run in H as ->. by apply forward_same. Qed.

Lemma revoke_forward p at_ sv sv' n : (forall s, p s = true -> same_session s (with_revoked s (Some at_))) ->
  revoke_where p at_ sv = (sv', Ok n) -> forward (sv_rows sv) (sv_rows sv').
Proof. intros Hp. unfold revoke_where. intros H. steps. by apply forward_update. Qed.

Lemma insert_session_forward scope s sv sv' u : InsertSession scope s sv = (sv', Ok u) ->
  forward (sv_rows sv) (sv_rows sv') /\
  rw_refresh (sv_rows sv') = rw_refresh (sv_rows sv) /\ rw_sessions (sv_rows sv) !! se_id s = None /\
  exists row, rw_sessions (sv_rows sv') !! se_id s = Some row /\ sr_tenant row = scope.
Proof.
  unfold InsertSession. intros H. apply bind_run in H as (b & sv1 & Hr & H). apply read_run in Hr as [-> Hr]. injection Hr as Hr.
  destruct (rw_sessions (sv_rows sv) !! se_id s) as [row|] eqn:E; subst b; [done|]. apply write_run in H as ->. cbn.
  split; [|split; [done|split; [done|eexists; rewrite lookup_insert_eq; by split]]]. split.
  - intros [Hk Hi Hs Hl]. split; cbn; [|done| |done].
    + intros k r. rewrite lookup_insert_Some. intros [[<- <-]|[_ H]]; [done|by apply Hk].
    + intros h r H. destruct (Hs _ _ H) as (r0 & H0 & Ht). exists r0. rewrite lookup_insert_ne; [done|]. intros Eq. by rewrite Eq, H0 in E.
  - split; cbn.
    + intros k r H. exists r. rewrite lookup_insert_ne; [split; [done|apply same_session_refl]|]. intros Eq. by rewrite Eq, H in E.
    + intros h r H. exists r. split; [done|apply same_link_refl].
Qed.

Lemma open_forward scope a inp action subjects material fresh sv sv' r :
  openSessionVia hash subject_hash sign Enqueue scope a inp action subjects material fresh sv = (sv', r) ->
  forward (sv_rows sv) (sv_rows sv').
Proof.
  unfold openSessionVia. destruct material as [m|]; [|intros [= <- _]; apply forward_refl].
  intros H. apply (transaction_forward _ _ _ _ H). clear H sv' r. intros sv' pair H. steps.
  match goal with H : for_each _ _ _ = _ |- _ => apply for_each_forward in H as F1 end.
  2: { intros x sv1 sv2 u Hc. apply write_run in Hc as ->. by apply forward_same. }
  match goal with H : NewSession _ = Ok ?s |- _ => rename s into session end.
  match goal with H : InsertSession _ _ _ = _ |- _ => apply insert_session_forward in H as (F2 & Er & Hnone & row & Hrow & Ht) end.
  match goal with p : (RefreshToken * Token)%type |- _ => destruct p as [first presented] end. steps.
  match goal with H : mintRefresh _ _ _ _ = _ |- _ => unfold mintRefresh in H; apply bind_ok in H as (k & _ & [= <- ->]) end.
  match goal with H : InsertRefreshToken _ _ _ _ _ = _ |- _ => apply insert_refresh_run in H as (-> & Hh & Hids & Hsession) end.
  match goal with H : recordSessionAudit _ _ _ _ _ _ _ = _ |- _ => apply append_forward in H as F4 end.
  eapply forward_trans; [exact F1|]. eapply forward_trans; [|exact F4]. destruct F2 as [K2 L2]. split.
  - intros Hok. apply link_ok; cbn; [by apply K2|done|done|by exists row; rewrite Hrow|].
    intros h rf Hr E. rewrite Er in Hr. destruct (ok_session _ Hok _ _ Hr) as (s & Hs & _). by rewrite E, Hnone in Hs.
  - eapply later_trans; [exact L2|]. split; cbn.
    + intros k s H. exists s. split; [done|apply same_session_refl].
    + intros h rf H. exists rf. split; [|apply same_link_refl]. rewrite lookup_insert_ne; [done|]. intros Eq. by rewrite Eq, H in Hh.
Qed.

Lemma unrevoked_of scope account p s at_ : (forall r, p r = true -> unrevoked scope account r = true) -> p s = true ->
  same_session s (with_revoked s (Some at_)).
Proof. intros Hp H. by apply (revoke_same scope account), Hp. Qed.

Lemma Revoke_forward scope id account at_ sv sv' b : Revoke scope id account at_ sv = (sv', Ok b) -> forward (sv_rows sv) (sv_rows sv').
Proof.
  unfold Revoke. intros H. steps. eapply revoke_forward; [|done]. intros s Hs. apply andb_true_iff in Hs as [Hs _]. by eapply revoke_same.
Qed.

Lemma revoke_grant_forward scope id account at_ sv sv' g : RevokeAppGrant scope id account at_ sv = (sv', Ok g) ->
  forward (sv_rows sv) (sv_rows sv').
Proof.
  unfold RevokeAppGrant. intros H. apply bind_run in H as (o & sv1 & Hr & H). apply read_run in Hr as [-> _].
  destruct o as [[i row]|]; steps; [by apply forward_same|apply forward_refl].
Qed.

Lemma find_same scope id sv sv' (r : res SessionCredential) : FindForAuth scope id sv = (sv', r) -> sv' = sv.
Proof. unfold FindForAuth, read, query. by intros [= <- _]. Qed.

Lemma revoke_session_forward actor id now sv sv' r : RevokeSession actor id now sv = (sv', r) -> forward (sv_rows sv) (sv_rows sv').
Proof.
  unfold RevokeSession, bind, lift. destruct (RequireScope _ _); [|intros [= <- _]; apply forward_refl..].
  destruct (id_is_zero id); [unfold fail; intros [= <- _]; apply forward_refl|].
  intros H. apply (transaction_forward _ _ _ _ H). clear H sv' r. intros sv' u0 H.
  apply bind_run in H as (changed & sv1 & Hr & H). apply Revoke_forward in Hr. eapply forward_trans; [exact Hr|]. destruct changed.
  - apply bind_run in H as (u & sv2 & Ha & H). apply append_forward in Ha. eapply forward_trans; [exact Ha|].
    unfold withdrawAppGrant in H. apply bind_run in H as (g & sv3 & Hg & H). apply revoke_grant_forward in Hg.
    eapply forward_trans; [exact Hg|]. destruct (id_is_zero g.1); [steps; apply forward_refl|by apply append_forward in H].
  - apply bind_run in H as (o & sv2 & Ha & H). assert (sv2 = sv1) as ->.
    { unfold attempt in Ha. destruct (FindForAuth _ _ sv1) as [w [x|e|]] eqn:E; apply find_same in E as ->; by injection Ha as <- _. }
    destruct o as [c|e]; [destruct (String.eqb _ _)|]; try done. steps. apply forward_refl.
Qed.

Lemma scoped {A} (r : res unit) (c : T A) sv sv' ra : (lift r;; c) sv = (sv', ra) -> sv' = sv \/ c sv = (sv', ra).
Proof. unfold bind, lift. destruct r; [by right|intros [= <- _]; by left..]. Qed.

Lemma ended_forward actor (ended : T Z) now target sv sv' u :
  (forall sv1 n, ended sv = (sv1, Ok n) -> forward (sv_rows sv) (sv_rows sv1)) ->
  (n <~ ended; if n =? 0 then skip else recordRevocation actor SessionsRevokedAction target now) sv = (sv', Ok u) ->
  forward (sv_rows sv) (sv_rows sv').
Proof.
  intros He H. apply bind_run in H as (n & sv1 & Hn & H). apply He in Hn. eapply forward_trans; [exact Hn|].
  destruct (n =? 0); [steps; apply forward_refl|by apply append_forward in H].
Qed.

Lemma revoke_all_forward actor now sv sv' r : RevokeAllSessions actor now sv = (sv', r) -> forward (sv_rows sv) (sv_rows sv').
Proof.
  unfold RevokeAllSessions. intros H. apply scoped in H as [->|H]; [apply forward_refl|].
  destruct (id_is_zero _); [injection H as <- _; apply forward_refl|].
  apply (transaction_forward _ _ _ _ H). clear H sv' r. intros sv' u H. eapply ended_forward; [|exact H].
  intros sv1 n. unfold RevokeAll. apply revoke_forward. intros s. apply revoke_same.
Qed.

Lemma revoke_others_forward actor now sv sv' r : RevokeOtherSessions actor now sv = (sv', r) -> forward (sv_rows sv) (sv_rows sv').
Proof.
  unfold RevokeOtherSessions. intros H. apply scoped in H as [->|H]; [apply forward_refl|].
  destruct (id_is_zero (ax_account actor)); [injection H as <- _; apply forward_refl|].
  apply (transaction_forward _ _ _ _ H). clear H sv' r. intros sv' u H.
  apply bind_run in H as (keep & sv1 & Hk & H). assert (sv1 = sv) as ->.
  { destruct (id_is_zero (ax_token actor)); [by injection Hk as <- _|]. apply bind_run in Hk as (o & sv2 & Ho & Hk).
    unfold found in Ho. destruct (FindForAuth _ _ sv) as [w [x|e|]] eqn:E; apply find_same in E as ->; try done.
    - injection Ho as <- <-. by injection Hk as <- _.
    - destruct (is_not_found e); [|done]. injection Ho as <- <-. by injection Hk as <- _. }
  eapply ended_forward; [|exact H]. intros sv1 n. unfold RevokeOthers. apply revoke_forward.
  intros s Hs. apply andb_true_iff in Hs as [Hs _]. by eapply revoke_same.
Qed.

Lemma authenticate_forward claims now sv sv' r : authenticate claims now sv = (sv', r) -> forward (sv_rows sv) (sv_rows sv').
Proof.
  unfold authenticate. intros H. apply (transaction_forward _ _ _ _ H). clear H sv' r. intros sv' c H.
  apply bind_run in H as (o & sv1 & Ho & H). assert (sv1 = sv) as ->.
  { unfold found in Ho. destruct (FindForAuth _ _ sv) as [w [x|e|]] eqn:E; apply find_same in E as ->; try done.
    - by injection Ho as <- _.
    - destruct (is_not_found e); [|done]. by injection Ho as <- _. }
  destruct o as [x|]; [|done]. destruct (negb _); [done|]. steps.
  match goal with H : (if _ then TouchLastSeen _ _ _ else skip) _ = _ |- _ => rename H into Ht end.
  destruct (NeedsTouch _ _ _); [|steps; apply forward_refl]. apply write_run in Ht as ->. apply forward_update. by split.
Qed.

Lemma record_failure_forward scope subjects now sv sv' r : recordFailure subject_hash scope subjects now sv = (sv', r) ->
  forward (sv_rows sv) (sv_rows sv').
Proof.
  intros H. apply (transaction_forward _ _ _ _ H). intros sv1 u. apply for_each_forward.
  intros x sv2 sv3 u' Hf. unfold fail_one, FindAttempt in Hf. steps. by apply forward_same.
Qed.

(** ** Devices at once

    A transaction reads a refresh token and later writes what it makes of it;
    others commit in between.  [wo_pending] are the exchanges that have read,
    [wo_exchanged] the hashes of the tokens exchanged. *)

Record Pending := mkPending {
  pe_token : Token; pe_credential : RefreshCredential; pe_material : string; pe_fresh : ID; pe_now : Time
}.

Record World := mkWorld { wo_server : Server; wo_pending : list Pending; wo_exchanged : list string }.

Inductive moves : World -> World -> Prop :=
  | move_open sv sv' ps ex scope a inp action subjects material fresh r :
      openSessionVia hash subject_hash sign Enqueue scope a inp action subjects material fresh sv = (sv', r) ->
      moves (mkWorld sv ps ex) (mkWorld sv' ps ex)
  | move_present sv sv' ps ex raw token c material fresh now :
      ParseRefreshToken raw = Ok token -> find_presented hash token sv = (sv', Ok c) ->
      moves (mkWorld sv ps ex) (mkWorld sv' (mkPending token c material fresh now :: ps) ex)
  | move_exchange sv sv' before p after ex r :
      transaction (exchange hash sign (to_tenant (pe_token p)) (pe_credential p) (pe_material p) (pe_fresh p) (pe_now p)) sv = (sv', r) ->
      moves (mkWorld sv (before ++ p :: after) ex)
        (mkWorld sv' (before ++ after) (if is_ok r then hash (Secret (pe_token p)) :: ex else ex))
  | move_revoke sv sv' ps ex actor id now r :
      RevokeSession actor id now sv = (sv', r) -> moves (mkWorld sv ps ex) (mkWorld sv' ps ex)
  | move_revoke_all sv sv' ps ex actor now r :
      RevokeAllSessions actor now sv = (sv', r) -> moves (mkWorld sv ps ex) (mkWorld sv' ps ex)
  | move_revoke_others sv sv' ps ex actor now r :
      RevokeOtherSessions actor now sv = (sv', r) -> moves (mkWorld sv ps ex) (mkWorld sv' ps ex)
  | move_authenticate sv sv' ps ex claims now r :
      authenticate claims now sv = (sv', r) -> moves (mkWorld sv ps ex) (mkWorld sv' ps ex)
  | move_failure sv sv' ps ex scope subjects now r :
      recordFailure subject_hash scope subjects now sv = (sv', r) -> moves (mkWorld sv ps ex) (mkWorld sv' ps ex).

(** What every world reached is: exchanges under way have read links, and an
    exchanged token is a rotated one. *)
Record world_ok (w : World) : Prop := {
  world_rows : rows_ok (sv_rows (wo_server w));
  world_pending : Forall (fun p => pending_ok (sv_rows (wo_server w)) (pe_token p) (pe_credential p)) (wo_pending w);
  world_once : NoDup (wo_exchanged w);
  world_rotated : Forall (fun h => exists rf, rw_refresh (sv_rows (wo_server w)) !! h = Some rf /\ live_link rf = false) (wo_exchanged w)
}.

Lemma find_presented_run token sv sv' c : rows_ok (sv_rows sv) -> find_presented hash token sv = (sv', Ok c) ->
  sv' = sv /\ pending_ok (sv_rows sv) token c.
Proof.
  unfold find_presented. intros Hok H. apply bind_run in H as (o & sv1 & Ho & H). destruct o as [c'|]; [|by steps].
  apply found_run in Ho. unfold FindByToken in Ho. apply read_run in Ho as [-> Ho]. injection H as <- <-. split; [done|].
  destruct (rw_refresh (sv_rows sv) !! hash (Secret token)) as [rf|] eqn:Hr; [|done].
  destruct (String.eqb_spec (rf_tenant rf) (to_tenant token)) as [Et|]; [|done]. cbn [negb] in Ho.
  unfold joined in Ho. destruct (rw_sessions (sv_rows sv) !! rf_session rf) as [r|] eqn:Hs; [|done].
  destruct (rw_accounts (sv_rows sv) !! sr_account r) as [a|]; [|done].
  destruct (rw_tenants (sv_rows sv) !! sr_tenant r) as [t|]; [|done].
  destruct (String.eqb_spec (sr_tenant r) (to_tenant token)) as [Er|]; [|done]. destruct (negb (ar_deleted a)); [|done].
  injection Ho as <-. cbn. split; [done|]. exists rf. cbn. by rewrite (ok_keys _ Hok _ _ Hs).
Qed.

Lemma world_later w w' ps ex : forward w w' ->
  (rows_ok w /\ Forall (fun p => pending_ok w (pe_token p) (pe_credential p)) ps /\ NoDup ex /\
   Forall (fun h => exists rf, rw_refresh w !! h = Some rf /\ live_link rf = false) ex) ->
  forall sg, world_ok (mkWorld (mkServer w' sg) ps ex).
Proof.
  intros [K L] (Hok & Hp & Hn & Hr) sg. split; cbn; [by apply K| |done|].
  - eapply Forall_impl; [exact Hp|]. intros p. by apply pending_later.
  - eapply Forall_impl; [exact Hr|]. cbn. intros h (rf & H & Hd). destruct (later_link _ _ L _ _ H) as (rf' & H' & S).
    exists rf'. split; [done|]. unfold live_link in *. destruct (rf_rotated_at rf) as [t|] eqn:E; [|done].
    by rewrite (link_rotated _ _ S _ E).
Qed.

Lemma exchange_ok sv sv' before p after ex r :
  transaction (exchange hash sign (to_tenant (pe_token p)) (pe_credential p) (pe_material p) (pe_fresh p) (pe_now p)) sv = (sv', r) ->
  world_ok (mkWorld sv (before ++ p :: after) ex) ->
  world_ok (mkWorld sv' (before ++ after) (if is_ok r then hash (Secret (pe_token p)) :: ex else ex)).
Proof.
  intros H [Hok Hp Hn Hr]. cbn in *. apply Forall_app in Hp as [Hb Ha]. apply Forall_cons in Ha as [Hpe Ha].
  assert (Hps : Forall (fun p => pending_ok (sv_rows sv) (pe_token p) (pe_credential p)) (before ++ after)) by (apply Forall_app; by split).
  apply transaction_run in H as [(pair & -> & H)|[-> E]]; [|destruct sv' as [w1 sg]; cbn in E; subst w1; by apply (world_later _ _ _ _ (forward_refl _))].
  apply exchange_run in H as (_ & _ & _ & _ & _ & Hrot & next & presented & touched & Hm & _ & _ & Hnone & Hids & Hx & _).
  unfold mintRefresh in Hm. apply bind_ok in Hm as (k & _ & [= <- ->]).
  eapply exchanged_forward in Hx as [[K L] (rf & Hrf & Hlive & Hrf' & Hro)]; [|done..].
  destruct sv' as [w1 sg]. pose proof (world_later _ w1 (before ++ after) ex (conj (fun _ => K) L) (conj Hok (conj Hps (conj Hn Hr))) sg) as W.
  destruct W as [W1 W2 W3 W4]. cbn in *. split; cbn; [done|done| |].
  - constructor; [|done]. intros Hin. rewrite Forall_forall in Hr. destruct (Hr _ Hin) as (rf' & H' & Hd).
    rewrite Hrf in H'. injection H' as <-. by rewrite Hlive in Hd.
  - constructor; [|done]. eexists. split; [exact Hrf'|]. destruct (live_link (rotate_row _ _ _ rf)) eqn:Hl; [|done].
    apply rotated_dead in Hl as [_ Hl]. by rewrite Hro in Hl.
Qed.

Lemma moves_ok w w' : moves w w' -> world_ok w -> world_ok w'.
Proof.
  assert (Hgo : forall sv sv' ps ex, forward (sv_rows sv) (sv_rows sv') -> world_ok (mkWorld sv ps ex) -> world_ok (mkWorld sv' ps ex)).
  { intros sv [w1 sg] ps ex F [H1 H2 H3 H4]. by eapply world_later. }
  intros Hm Hok. destruct Hm.
  - eapply Hgo; [by eapply open_forward|done].
  - destruct Hok as [H1 H2 H3 H4]. cbn in *. match goal with H : find_presented _ _ _ = _ |- _ => apply find_presented_run in H as [-> Hp]; [|done] end.
    split; cbn; [done| |done|done]. by constructor.
  - by eapply exchange_ok.
  - eapply Hgo; [by eapply revoke_session_forward|done].
  - eapply Hgo; [by eapply revoke_all_forward|done].
  - eapply Hgo; [by eapply revoke_others_forward|done].
  - eapply Hgo; [by eapply authenticate_forward|done].
  - eapply Hgo; [by eapply record_failure_forward|done].
Qed.

(** Whatever happened since the server held no session. *)
Definition reached (w : World) : Prop :=
  exists sv, rw_sessions (sv_rows sv) = ∅ /\ rw_refresh (sv_rows sv) = ∅ /\ rtc moves (mkWorld sv [] []) w.

Lemma every_world_ok w : reached w -> world_ok w.
Proof.
  intros (sv & Hs & Hr & H). assert (Hok : world_ok (mkWorld sv [] [])).
  { split; cbn; [split; rewrite ?Hs, ?Hr|..]; try constructor; intros; by rewrite lookup_empty in *. }
  remember (mkWorld sv [] []) as w0 eqn:E. clear E Hs Hr. revert Hok. induction H as [|a b c Hm _ IH]; [done|].
  intros Hok. by apply IH, (moves_ok a).
Qed.

(** C11. However many devices exchange at once, and whatever is opened, revoked
    and used in between, a refresh token is exchanged at most once, an
    exchanged one is rotated for good, and a session's chain of tokens has at
    most one live end. *)
Theorem exchange_once w : reached w ->
  NoDup (wo_exchanged w) /\
  (forall h, h ∈ wo_exchanged w -> exists rf, rw_refresh (sv_rows (wo_server w)) !! h = Some rf /\ live_link rf = false) /\
  (forall h1 r1 h2 r2, rw_refresh (sv_rows (wo_server w)) !! h1 = Some r1 -> rw_refresh (sv_rows (wo_server w)) !! h2 = Some r2 ->
     rf_session r1 = rf_session r2 -> live_link r1 = true -> live_link r2 = true -> h1 = h2).
Proof.
  intros Hr. destruct (every_world_ok w Hr) as [Hok _ Hn Hx]. split; [done|]. split; [by apply Forall_forall|apply (ok_line _ Hok)].
Qed.

Lemma moves_later w w' : moves w w' -> world_ok w -> later (sv_rows (wo_server w)) (sv_rows (wo_server w')).
Proof.
  intros Hm [Hok Hp _ _]. destruct Hm; cbn in *.
  - match goal with H : _ = _ |- _ => by apply open_forward in H as [_ H] end.
  - match goal with H : find_presented _ _ _ = _ |- _ => apply find_presented_run in H as [-> _]; [apply later_refl|done] end.
  - apply Forall_app in Hp as [_ Hp]. apply Forall_cons in Hp as [Hpe _].
    match goal with H : transaction _ _ = _ |- _ => apply transaction_run in H as [(pair & -> & H)|[_ ->]]; [|apply later_refl];
      apply exchange_run in H as (_ & _ & _ & _ & _ & Hrot & next & presented & touched & Hm & _ & _ & Hnone & Hids & Hx & _) end.
    unfold mintRefresh in Hm. apply bind_ok in Hm as (k & _ & [= <- ->]).
    by eapply exchanged_forward in Hx as [[_ L] _].
  - match goal with H : _ = _ |- _ => by apply revoke_session_forward in H as [_ H] end.
  - match goal with H : _ = _ |- _ => by apply revoke_all_forward in H as [_ H] end.
  - match goal with H : _ = _ |- _ => by apply revoke_others_forward in H as [_ H] end.
  - match goal with H : _ = _ |- _ => by apply authenticate_forward in H as [_ H] end.
  - match goal with H : _ = _ |- _ => by apply record_failure_forward in H as [_ H] end.
Qed.

Lemma rtc_later w w' : rtc moves w w' -> world_ok w -> later (sv_rows (wo_server w)) (sv_rows (wo_server w')).
Proof.
  induction 1 as [w|a b c Hm _ IH]; intros Hok; [apply later_refl|].
  eapply later_trans; [by eapply moves_later|]. by apply IH, (moves_ok a).
Qed.

Lemma revoked_verify s t now : se_revoked_at s = t -> t <> zero_time -> t <= now -> Verify s now = Err (unauthenticated "auth.session_revoked").
Proof.
  intros <- Hz Hle. unfold Verify, time_is_zero. rewrite (proj2 (Z.eqb_neq _ _) Hz). by rewrite (proj2 (Z.leb_le _ _) Hle).
Qed.

Lemma find_for_auth_run scope id sv sv' c : FindForAuth scope id sv = (sv', Ok c) ->
  sv' = sv /\ exists r a t, joined (sv_rows sv) scope id = Some (r, a, t) /\
    c = mkCredential (auth_session r) (sr_account r) (ar_status a) (tn_status t) (momentFrom (tn_rotation_from t)).
Proof.
  unfold FindForAuth. intros H. apply read_run in H as [-> H]. split; [done|].
  destruct (joined _ _ _) as [[[r a] t]|]; [|done]. injection H as <-. by exists r, a, t.
Qed.

Lemma joined_row w scope id r a t : joined w scope id = Some (r, a, t) ->
  rw_sessions w !! id = Some r /\ rw_accounts w !! sr_account r = Some a /\ rw_tenants w !! sr_tenant r = Some t /\
  sr_tenant r = scope /\ ar_deleted a = false.
Proof.
  unfold joined. destruct (rw_sessions w !! id) as [r'|] eqn:Hr; [|done]. destruct (rw_accounts w !! _) as [a'|] eqn:Ha; [|done].
  destruct (rw_tenants w !! _) as [t'|] eqn:Ht; [|done]. destruct (String.eqb_spec (sr_tenant r') scope); [|done].
  destruct (ar_deleted a') eqn:Hd; [done|]. by intros [= <- <- <-].
Qed.

(** What authenticating lets through. *)
Lemma authenticate_run claims now sv sv' c : authenticate claims now sv = (sv', Ok c) ->
  exists r a t, joined (sv_rows sv) (cl_tenant claims) (cl_session claims) = Some (r, a, t) /\
    sr_account r = cl_account claims /\ VerifyOpen (auth_session r) now (momentFrom (tn_rotation_from t)) = Ok tt /\
    MayAct (ar_status a) = true /\ tn_status t = "ACTIVE".
Proof.
  unfold authenticate. intros H. apply transaction_run in H as [(c' & [= <-] & H)|[H _]]; [|done].
  apply bind_run in H as (o & sv1 & Ho & H). destruct o as [x|]; [|done]. apply found_run in Ho.
  apply find_for_auth_run in Ho as (-> & r & a & t & Hj & ->).
  cbn [cr_session cr_status cr_tenant_status cr_rotation_from auth_session se_account] in H.
  destruct (String.eqb_spec (sr_account r) (cl_account claims)) as [Ea|]; [|done]. cbn [negb] in H. steps.
  match goal with H : account_verify _ = Ok _ |- _ => unfold account_verify in H; destruct (MayAct _) eqn:Hact; [|done] end.
  match goal with H : tenant_verify _ = Ok _ |- _ => unfold tenant_verify in H; destruct (String.eqb_spec (tn_status t) "ACTIVE") as [Et|] end.
  2: { match goal with H : (if _ then _ else _) = Ok _ |- _ => by destruct (String.eqb (tn_status t) "PENDING_DELETION") end. }
  exists r, a, t. match goal with H : VerifyOpen _ _ _ = Ok ?u |- _ => destruct u; by repeat split end.
Qed.

(** A refresh token that was presented, as far as its session's row. *)
Lemma find_by_token_run scope token sv sv' c : FindByToken hash scope token sv = (sv', Ok c) ->
  sv' = sv /\ exists rf r a t, rw_refresh (sv_rows sv) !! hash (Secret token) = Some rf /\ rf_tenant rf = scope /\
    joined (sv_rows sv) scope (rf_session rf) = Some (r, a, t) /\
    c = mkRefreshCredential
          (mkRefresh (rf_id rf) (sr_tenant r) (rf_session rf) (rf_created_at rf) (rf_expires_at rf) (timeFrom (rf_rotated_at rf)))
          (refresh_session r) (mkAccount (sr_account r) (ar_name a) (ar_status a)) (tn_status t).
Proof.
  unfold FindByToken. intros H. apply read_run in H as [-> H]. split; [done|].
  destruct (rw_refresh (sv_rows sv) !! hash (Secret token)) as [rf|]; [|done].
  destruct (String.eqb_spec (rf_tenant rf) scope) as [Et|]; [|done]. cbn [negb] in H.
  destruct (joined _ _ _) as [[[r a] t]|] eqn:Hj; [|done]. injection H as <-. by exists rf, r, a, t.
Qed.

Lemma presented_run token sv sv' c : find_presented hash token sv = (sv', Ok c) ->
  FindByToken hash (to_tenant token) token sv = (sv', Ok c).
Proof.
  unfold find_presented. intros H. apply bind_run in H as (o & sv1 & Ho & H). destruct o as [c'|]; [|by steps].
  apply found_run in Ho. by injection H as <- <-.
Qed.

Lemma refresh_run raw header material fresh now sv sv' pair :
  RefreshSession hash sign raw header material fresh now sv = (sv', Ok pair) ->
  exists token m c, ParseRefreshToken raw = Ok token /\ material = Some m /\
    FindByToken hash (to_tenant token) token sv = (sv, Ok c) /\
    exchange hash sign (to_tenant token) c m fresh now sv = (sv', Ok pair).
Proof.
  unfold RefreshSession. destruct (ParseRefreshToken raw) as [token|e|]; [|intros H; by steps..].
  destruct (_ && _); [done|]. destruct material as [m|]; [|done]. intros H.
  apply transaction_run in H as [(p & [= <-] & H)|[H _]]; [|done]. apply bind_run in H as (c & sv1 & Hc & H).
  apply presented_run in Hc as Hf. pose proof (find_by_token_run _ _ _ _ _ Hf) as [-> _]. by exists token, m, c.
Qed.


Lemma parsed_tenant raw token : ParseRefreshToken raw = Ok token -> id_is_zero (to_tenant token) = false.
Proof. intros H. apply parsed_names_tenant in H as [_ H]. by apply id_not_zero. Qed.

Lemma family_run {A} scope c now sv : id_is_zero (se_tenant (rc_session c)) = false -> now <> zero_time ->
  exists w', familyDies scope c now sv = (mkServer w' (sv_signals sv ++ [FailureRefreshReused]), Err refreshRefused : res A).
Proof.
  intros Ht Hn. unfold familyDies, Revoke, revoke_where, read, write, query, bind, ret, recordSessionAudit, Append. cbn.
  assert (E : se_tenant (Revoked (rc_session c) now) = se_tenant (rc_session c)) by (unfold Revoked; by destruct (negb _)).
  unfold id_is_zero in *. rewrite E, Ht. unfold time_is_zero. rewrite (proj2 (Z.eqb_neq _ _) Hn). cbn. by eexists.
Qed.

Lemma found_presented token sv sv' c : FindByToken hash (to_tenant token) token sv = (sv', Ok c) ->
  find_presented hash token sv = (sv', Ok c).
Proof. intros H. unfold find_presented, bind, found. by rewrite H. Qed.

Lemma find_by_token_missing token sv sv' e : FindByToken hash (to_tenant token) token sv = (sv', Err e) ->
  sv' = sv /\ find_presented hash token sv = (mkServer (sv_rows sv) (sv_signals sv ++ [FailureRefreshRefused]), Err refreshRefused).
Proof.
  intros H. unfold find_presented, bind, found. rewrite H. unfold FindByToken, read, query in H. injection H as <- H. split; [done|].
  assert (e = WithDetail ErrNotFound "auth.refresh_failed") as ->; [|done].
  destruct (rw_refresh (sv_rows sv) !! _) as [rf|]; [|by injection H]. destruct (negb _); [by injection H|].
  destruct (joined _ _ _) as [[[r a] t]|]; [done|by injection H].
Qed.

(** C16. A refresh token that was exchanged before is refused with the words an
    unknown one is refused with, and the attempt is counted - but the refusal is
    an error, so the transaction it is returned from takes back everything
    written in it: the session is not revoked, nothing enters the audit trail,
    not one row changes. *)
Theorem reuse_rolled_back raw header material fresh now token sv : ParseRefreshToken raw = Ok token ->
  header = "" \/ header = to_tenant token -> now <> zero_time ->
  (rw_refresh (sv_rows sv) !! hash (Secret token) = None \/
   exists rf t, rw_refresh (sv_rows sv) !! hash (Secret token) = Some rf /\ rf_rotated_at rf = Some t /\ t <> zero_time) ->
  exists reason, RefreshSession hash sign raw header (Some material) fresh now sv =
    (mkServer (sv_rows sv) (sv_signals sv ++ [reason]), Err refreshRefused).
Proof.
  intros Hp Hh Hn Hrow. unfold RefreshSession. rewrite Hp.
  assert (Hhead : negb (String.eqb header "") && negb (String.eqb header (to_tenant token)) = false).
  { destruct Hh as [->| ->]; [done|]. by rewrite String.eqb_refl, andb_false_r. }
  rewrite Hhead. clear Hhead. destruct (FindByToken hash (to_tenant token) token sv) as [sv1 [c|e|]] eqn:Hf.
  - apply found_presented in Hf as Hf'. apply find_by_token_run in Hf as (-> & rf & r & a & t & Hrf & _ & Hj & ->).
    apply joined_row in Hj as (_ & _ & _ & Et & _). destruct Hrow as [Hrow|(rf' & t' & Hrf' & Hro & Hz)]; [by rewrite Hrow in Hrf|].
    rewrite Hrf in Hrf'. injection Hrf' as <-. unfold transaction, bind. rewrite Hf'. clear Hf'.
    assert (Hir : negb (time_is_zero (timeFrom (rf_rotated_at rf))) = true) by (rewrite Hro; by apply negb_true_iff, Z.eqb_neq).
    unfold exchange, IsRotated. cbn [rc_token rt_rotated_at]. rewrite Hir.
    match goal with |- context [familyDies ?s ?c ?n ?v] => destruct (family_run (A := SessionPair) s c n v) as [w' ->] end; [|done|by eexists].
    cbn. rewrite Et. by eapply parsed_tenant.
  - apply find_by_token_missing in Hf as [-> Hf]. unfold transaction, bind. rewrite Hf. by eexists.
  - unfold FindByToken, read, query in Hf. injection Hf as _ Hf.
    destruct (rw_refresh (sv_rows sv) !! _) as [rf|]; [|done]. destruct (negb _); [done|]. by destruct (joined _ _ _) as [[[r a] t]|].
Qed.

Lemma verify_passed s now : Verify s now = Ok tt ->
  now < se_expires_at s /\ (se_revoked_at s = zero_time \/ now < se_revoked_at s).
Proof.
  unfold Verify. destruct (time_is_zero (se_revoked_at s)) eqn:Ez.
  - cbn. apply Z.eqb_eq in Ez. destruct (time_is_zero (se_expires_at s)); [done|]. cbn.
    destruct (Z.leb_spec (se_expires_at s) now); [done|]. intros _. split; [done|by left].
  - cbn. destruct (Z.leb_spec (se_revoked_at s) now); [done|]. destruct (time_is_zero (se_expires_at s)); [done|]. cbn.
    destruct (Z.leb_spec (se_expires_at s) now); [done|]. intros _. split; [done|by right].
Qed.

Lemma rotated_map w h rf scope now : rows_ok w -> rw_refresh w !! h = Some rf -> rf_tenant rf = scope -> rf_rotated_at rf = None ->
  rotate_row scope (rf_id rf) now <$> rw_refresh w =
  <[h := mkRefreshRow (rf_id rf) (rf_tenant rf) (rf_session rf) (rf_created_at rf) (rf_expires_at rf) (Some now)]> (rw_refresh w).
Proof.
  intros Hok Hrf Ht Hl. apply map_eq. intros i. rewrite lookup_fmap. destruct (decide (i = h)) as [->|Hne].
  - rewrite Hrf, lookup_insert_eq. cbn. unfold rotate_row, rotating. by rewrite Hl, Ht, !String.eqb_refl.
  - rewrite lookup_insert_ne by done. destruct (rw_refresh w !! i) as [r|] eqn:Hr; [|done]. cbn. unfold rotate_row, rotating.
    destruct (String.eqb_spec (rf_id r) (rf_id rf)) as [E|]; [|by rewrite andb_false_r].
    by destruct Hne; eapply (ok_ids _ Hok).
Qed.

(** C15. An exchange answers only to a token that was not exchanged before and
    has not run out, of a session neither revoked nor run out, an account that
    may act and an active workspace; it retires that link, hangs one new one
    off the same session under the token it answers, moves the session's horizon
    with it and changes no other link and no other session. *)
Theorem refresh_rotates raw header material fresh now sv sv' pair : rows_ok (sv_rows sv) ->
  RefreshSession hash sign raw header material fresh now sv = (sv', Ok pair) ->
  exists token next rf row, ParseRefreshToken raw = Ok token /\ pr_refresh pair = Secret next /\ to_tenant next = to_tenant token /\
    rw_refresh (sv_rows sv) !! hash (Secret token) = Some rf /\ rf_rotated_at rf = None /\ now < rf_expires_at rf /\
    rw_sessions (sv_rows sv) !! rf_session rf = Some row /\ now < sr_expires_at row /\
    (forall t, sr_revoked_at row = Some t -> t = zero_time \/ now < t) /\
    (exists a, rw_accounts (sv_rows sv) !! sr_account row = Some a /\ ar_deleted a = false /\ MayAct (ar_status a) = true) /\
    rw_refresh (sv_rows sv') = <[hash (Secret next) := mkRefreshRow fresh (to_tenant token) (rf_session rf) now (now + RefreshTokenLifetime) None]>
      (<[hash (Secret token) := mkRefreshRow (rf_id rf) (rf_tenant rf) (rf_session rf) (rf_created_at rf) (rf_expires_at rf) (Some now)]>
        (rw_refresh (sv_rows sv))) /\
    exists row', rw_sessions (sv_rows sv') = <[rf_session rf := row']> (rw_sessions (sv_rows sv)) /\
      sr_expires_at row' = now + RefreshTokenLifetime /\ same_session row row'.
Proof.
  intros Hok H. apply refresh_run in H as (token & m & c & Hp & _ & Hf & Hx).
  apply find_by_token_run in Hf as (_ & rf & row & a & t & Hrf & Hte & Hj & ->). apply joined_row in Hj as (Hrow & Ha & _ & Et & Hd).
  apply exchange_run in Hx as (Hro & Hexp & Hv & Hact & _ & (h & rf' & Hh & Hrot) & next & presented & touched & Hm & Hpr & _ & Hnone & _ & (Er & Es & _) & _).
  unfold mintRefresh in Hm. apply bind_ok in Hm as (k & Hk & [= <- ->]).
  cbn [rc_token rc_session rt_id refresh_session se_id se_tenant] in *.
  assert (h = hash (Secret token) /\ rf' = rf) as [-> ->].
  { assert (h = hash (Secret token)) as ->; [|split; [done|congruence]]. eapply (ok_ids _ Hok); eauto.
    unfold rotating in Hrot. rewrite !andb_true_iff, !String.eqb_eq in Hrot. destruct Hrot as [[_ ->] _]. done. }
  assert (Hlive : rf_rotated_at rf = None) by (unfold rotating in Hrot; destruct (rf_rotated_at rf); [by rewrite andb_false_r in Hrot|done]).
  assert (Hid : sr_id row = rf_session rf) by (by eapply (ok_keys _ Hok)).
  apply new_prefixed_text in Hk as [-> _]. exists token, (mkToken (sr_tenant row) (token_text RefreshTokenPrefix (sr_tenant row) m)), rf, row.
  split; [done|]. split; [done|]. split; [done|]. split; [done|]. split; [done|]. split.
  { unfold refresh_verify in Hexp. cbn in Hexp. destruct (time_is_zero _); [done|]. cbn in Hexp. by destruct (Z.leb_spec (rf_expires_at rf) now). }
  split; [done|]. apply verify_passed in Hv as (Hv1 & Hv2). split; [done|]. split.
  { intros t0 E. cbn in Hv2. rewrite E in Hv2. exact Hv2. }
  split; [by exists a|]. split.
  - rewrite Er. f_equal; [by rewrite Hid|]. by apply rotated_map.
  - exists (slid (to_tenant token) (sr_id row) (now + RefreshTokenLifetime) touched row). rewrite Es. split; [|split].
    + apply map_eq. intros i. rewrite lookup_fmap. destruct (decide (i = rf_session rf)) as [->|Hne].
      * by rewrite Hrow, lookup_insert_eq.
      * rewrite lookup_insert_ne by done. destruct (rw_sessions (sv_rows sv) !! i) as [r|] eqn:Hr; [|done]. cbn.
        unfold slid. rewrite (ok_keys _ Hok _ _ Hr), Hid. destruct (String.eqb_spec i (rf_session rf)); [done|]. by rewrite andb_false_r.
    + unfold slid. rewrite Et, !String.eqb_refl. cbn. by destruct touched.
    + unfold slid. rewrite Et, !String.eqb_refl. cbn. by destruct touched; split.
Qed.

(** ** The list and the door *)

Lemma newest_first_perm rows : sort_by newest_first rows ≡ₚ rows.
Proof.
  apply (sort_by_perm (fun r => (sr_created_at r, sr_id r))
    (fun p q => match q.1 ?= p.1 with Eq => String.compare q.2 p.2 | c => c end)).
Qed.

Lemma for_account_run scope account now sv sv' listed from : ForAccount scope account now sv = (sv', Ok (listed, from)) ->
  sv' = sv /\ exists rows, listed = map listed_session rows /\
    (forall r, r ∈ rows <-> (exists k, rw_sessions (sv_rows sv) !! k = Some r) /\ unrevoked scope account r = true /\
       now < sr_expires_at r /\ is_Some (rw_tenants (sv_rows sv) !! sr_tenant r)) /\
    (forall r t, r ∈ rows -> rw_tenants (sv_rows sv) !! scope = Some t -> from = momentFrom (tn_rotation_from t)).
Proof.
  unfold ForAccount. intros H. apply read_run in H as [-> H]. split; [done|].
  match type of H with context [sort_by newest_first ?l] => set (xs := l) in H end.
  injection H as <- <-. exists (sort_by newest_first xs). split; [done|].
  assert (Hin : forall r, r ∈ xs <-> (exists k, rw_sessions (sv_rows sv) !! k = Some r) /\ unrevoked scope account r = true /\
       now < sr_expires_at r /\ is_Some (rw_tenants (sv_rows sv) !! sr_tenant r)).
  { intros r. unfold xs. rewrite list_elem_of_In, filter_In, in_map_iff, !andb_true_iff, Z.ltb_lt. split.
    - intros (([k r'] & <- & Hin) & ((Hu & He) & Ht)). cbn. split; [|split; [done|split; [done|]]].
      + exists k. by apply elem_of_map_to_list, list_elem_of_In.
      + cbn in Ht. destruct (rw_tenants (sv_rows sv) !! sr_tenant r'); [by eexists|done].
    - intros ((k & Hk) & Hu & He & [t Ht]). split; [|by rewrite Ht]. exists (k, r). split; [done|].
      by apply list_elem_of_In, elem_of_map_to_list. }
  split; [intros r; by rewrite newest_first_perm|].
  intros r t Hr Ht. destruct (sort_by newest_first xs) as [|r0 rest] eqn:E; [by apply not_elem_of_nil in Hr|].
  assert (H0 : r0 ∈ xs) by (rewrite <- newest_first_perm, E; left). apply Hin in H0 as (_ & Hu & _).
  unfold unrevoked in Hu. rewrite !andb_true_iff, !String.eqb_eq in Hu. destruct Hu as [[-> _] _]. by rewrite Ht.
Qed.

Lemma list_run actor now sv sv' listed : ListSessions actor now sv = (sv', Ok listed) ->
  exists rows from, listed = List.filter (fun s => is_ok (VerifyOpen s now from)) (map listed_session rows) /\
    ForAccount (ax_tenant actor) (ax_account actor) now sv = (sv', Ok (map listed_session rows, from)).
Proof.
  unfold ListSessions. intros H. apply bind_run in H as (u & sv1 & Hs & H). apply lift_run in Hs as [-> _].
  destruct (id_is_zero _); [done|]. apply transaction_run in H as [(l & [= <-] & H)|[H _]]; [|done].
  apply bind_run in H as ([all from] & sv1 & Hf & H). injection H as <- <-.
  pose proof (for_account_run _ _ _ _ _ _ _ Hf) as (_ & rows & -> & _). by exists rows, from.
Qed.

Lemma authenticate_passes claims now sv r a t : joined (sv_rows sv) (cl_tenant claims) (cl_session claims) = Some (r, a, t) ->
  sr_account r = cl_account claims -> VerifyOpen (auth_session r) now (momentFrom (tn_rotation_from t)) = Ok tt ->
  MayAct (ar_status a) = true -> tn_status t = "ACTIVE" ->
  exists sv' c, authenticate claims now sv = (sv', Ok c).
Proof.
  intros Hj Ea Hv Hact Ht. unfold authenticate, transaction, bind, found, FindForAuth, read, query, lift. rewrite Hj.
  cbn [cr_session cr_status cr_tenant_status cr_rotation_from auth_session se_account]. rewrite Ea, String.eqb_refl. cbn [negb].
  fold (auth_session r). rewrite Hv. unfold account_verify. rewrite Hact. unfold tenant_verify. rewrite Ht. cbn [String.eqb Ascii.eqb Bool.eqb].
  destruct (NeedsTouch _ _ _); by do 2 eexists.
Qed.

(** C28. The list of a person's sessions is the list of what works: a session of
    hers is on it exactly when an access token of that session is let through
    at the same moment - revocation, horizon, maximum age, idle time and the
    workspace's rotation are judged the same in both places. *)
Theorem listed_accepted actor now sv sv' listed row a t id expiry : rows_ok (sv_rows sv) ->
  ListSessions actor now sv = (sv', Ok listed) ->
  rw_sessions (sv_rows sv) !! id = Some row -> sr_tenant row = ax_tenant actor -> sr_account row = ax_account actor ->
  rw_accounts (sv_rows sv) !! ax_account actor = Some a -> ar_deleted a = false -> MayAct (ar_status a) = true ->
  rw_tenants (sv_rows sv) !! ax_tenant actor = Some t -> tn_status t = "ACTIVE" ->
  (forall at_, sr_revoked_at row = Some at_ -> at_ <> zero_time /\ at_ <= now) ->
  (exists s, s ∈ listed /\ se_id s = id) <->
  (exists sv'' c, authenticate (mkClaims (ax_tenant actor) id (ax_account actor) expiry) now sv = (sv'', Ok c)).
Proof.
  intros Hok Hl Hrow Ht Ha Hacc Hdel Hact Htn Hactive Hpast.
  assert (Hj : joined (sv_rows sv) (ax_tenant actor) id = Some (row, a, t)).
  { unfold joined. by rewrite Hrow, Ha, Hacc, Ht, Htn, String.eqb_refl, Hdel. }
  apply list_run in Hl as (rows & from & -> & Hf). apply for_account_run in Hf as (-> & rows' & Em & Hin & Hfrom).
  rewrite Em. clear Em rows. split.
  - intros (s & Hs & Eid). apply list_elem_of_In, filter_In in Hs as [Hs Hv]. apply in_map_iff in Hs as (r & <- & Hr).
    apply list_elem_of_In in Hr. pose proof (proj1 (Hin r) Hr) as ((k & Hk) & _). cbn in Eid.
    assert (k = id) as -> by (by rewrite <- (ok_keys _ Hok _ _ Hk)). rewrite Hrow in Hk. injection Hk as <-.
    rewrite (Hfrom _ t Hr Htn) in Hv. eapply authenticate_passes; cbn [cl_tenant cl_session cl_account]; [exact Hj|done| |done|done].
    change (VerifyOpen (listed_session row)) with (VerifyOpen (auth_session row)) in Hv.
    by destruct (VerifyOpen _ _ _) as [[]| |].
  - intros (sv'' & c & H). apply authenticate_run in H as (r & a' & t' & Hj' & _ & Hv & _). cbn [cl_tenant cl_session] in Hj'.
    rewrite Hj in Hj'. injection Hj' as <- <- <-.
    assert (Hr : row ∈ rows').
    { apply Hin. split; [by exists id|]. unfold VerifyOpen in Hv. apply bind_ok in Hv as ([] & Hv & _).
      destruct (verify_passed _ _ Hv) as [He _]. split; [|split; [exact He|by rewrite Ht, Htn]].
      unfold unrevoked. rewrite Ht, Ha, !String.eqb_refl. destruct (sr_revoked_at row) as [at_|] eqn:E; [|done].
      destruct (Hpast _ eq_refl) as [Hz Hle]. rewrite (revoked_verify _ at_) in Hv; [done| |done..]. cbn. by rewrite E. }
    exists (listed_session row). split; [|cbn; by apply (ok_keys _ Hok)].
    apply list_elem_of_In, filter_In. split; [by apply in_map, list_elem_of_In|]. rewrite (Hfrom _ t Hr Htn).
    change (VerifyOpen (listed_session row)) with (VerifyOpen (auth_session row)). by rewrite Hv.
Qed.

(** ** The pace of guessing *)

Lemma lockout_delay n : LockoutDelay n = if n <=? 3 then 0 else Z.min LockoutCeiling (2 ^ (n - 4) * Second).
Proof.
  unfold LockoutDelay, lockoutFreeAttempts. destruct (Z.leb_spec n 3); [done|].
  replace (n - 3 - 1) with (n - 4) by lia. destruct (Z.leb_spec 10 (n - 4)) as [Hb|Hb].
  - rewrite Z.min_l; [done|]. pose proof (Z.pow_le_mono_r 2 10 (n - 4) ltac:(lia) Hb) as Hp.
    change (2 ^ 10) with 1024 in Hp. unfold LockoutCeiling in *. change Minute with (60 * Second) in *. assert (0 < Second) by done. nia.
  - rewrite Z.shiftl_mul_pow2 by lia. unfold lockoutBaseDelay. rewrite (Z.mul_comm Second).
    destruct (Z.ltb_spec LockoutCeiling (2 ^ (n - 4) * Second)); [rewrite Z.min_l|rewrite Z.min_r]; first [done|lia].
Qed.

Lemma lockout_delay_nonneg n : 0 <= LockoutDelay n.
Proof.
  rewrite lockout_delay. destruct (Z.leb_spec n 3); [done|]. apply Z.min_glb; [done|].
  apply Z.mul_nonneg_nonneg; [by apply Z.pow_nonneg|done].
Qed.

(** A subject's standing. *)
Definition ledger (w : Rows) (scope : ID) (subject : string) : AuthAttempt :=
  default (mkAttempt 0 None None) (rw_attempts w !! (scope, subject_hash subject)).

Lemma latest_lock_run scope subjects edge sv sv' u : latest_lock subject_hash scope subjects edge sv = (sv', Ok u) ->
  sv' = sv /\ edge <= u /\ forall s, s ∈ subjects -> timeFrom (at_locked_until (ledger (sv_rows sv) scope s)) <= u.
Proof.
  revert edge. induction subjects as [|s subjects IH]; intros edge; cbn [latest_lock].
  - intros [= <- <-]. split; [done|]. split; [lia|]. intros s Hs. by apply not_elem_of_nil in Hs.
  - intros H. apply bind_run in H as (a & sv1 & Ha & H). unfold FindAttempt in Ha. apply read_run in Ha as [-> [= <-]].
    apply IH in H as (-> & Hle & Hall). split; [done|]. split; [lia|]. intros s' Hs. apply elem_of_cons in Hs as [->|Hs]; [|by apply Hall].
    fold (ledger (sv_rows sv) scope s) in Hle. lia.
Qed.

Lemma check_locked_run scope subjects now sv sv' u : checkLocked subject_hash scope subjects now sv = (sv', Ok u) ->
  sv' = sv /\ forall s, s ∈ subjects -> timeFrom (at_locked_until (ledger (sv_rows sv) scope s)) <= now.
Proof.
  unfold checkLocked. intros H. apply bind_run in H as (edge & sv1 & Hl & H). apply latest_lock_run in Hl as (-> & _ & Hall).
  destruct (Z.ltb_spec now edge); [by steps|]. injection H as <- _. split; [done|]. intros s Hs. specialize (Hall s Hs). lia.
Qed.

Definition after_failure (a : AuthAttempt) (now : Time) : AuthAttempt :=
  mkAttempt (at_failures a + 1) (Some now) (nullableTime (LockedUntil (at_failures a + 1) now)).

Lemma fail_all_run scope now subjects : forall sv sv' u, NoDup (map subject_hash subjects) ->
  for_each (fail_one subject_hash scope now) subjects sv = (sv', Ok u) ->
  (forall s, s ∈ subjects -> rw_attempts (sv_rows sv') !! (scope, subject_hash s) = Some (after_failure (ledger (sv_rows sv) scope s) now)) /\
  (forall h, h ∉ map subject_hash subjects -> rw_attempts (sv_rows sv') !! (scope, h) = rw_attempts (sv_rows sv) !! (scope, h)).
Proof.
  induction subjects as [|s subjects IH]; intros sv sv' u; cbn [for_each map].
  - intros _ [= <- _]. split; [|done]. intros s Hs. by apply not_elem_of_nil in Hs.
  - intros [Hn Hnd]%NoDup_cons H. apply bind_run in H as (u0 & sv1 & Hf & H). unfold fail_one, FindAttempt in Hf.
    apply bind_run in Hf as (a & sv2 & Ha & Hf). apply read_run in Ha as [-> [= <-]]. apply write_run in Hf as ->.
    apply IH in H as [Hin Hout]; [|done]. cbn in Hin, Hout. split.
    + intros s' Hs. apply elem_of_cons in Hs as [->|Hs].
      * rewrite Hout by done. by rewrite lookup_insert_eq.
      * rewrite Hin by done. unfold ledger. cbn. rewrite lookup_insert_ne; [done|]. intros [= E]. apply Hn. rewrite E.
        by apply list_elem_of_fmap_2.
    + intros h Hh. apply not_elem_of_cons in Hh as [Hne Hh]. rewrite Hout by done. apply lookup_insert_ne. intros [= E]. by apply Hne.
Qed.

(** Guesses one after the other, each let through by the luntilr and wrong. *)
Fixpoint guesses (scope : ID) (subjects : list string) (times : list Time) : T unit :=
  match times with
  | [] => skip
  | now :: rest =>
      checkLocked subject_hash scope subjects now;;
      recordFailure subject_hash scope subjects now;;
      guesses scope subjects rest
  end.

Lemma locked_until_column n t : zero_time < t -> timeFrom (nullableTime (LockedUntil n t)) = if LockoutDelay n =? 0 then zero_time else t + LockoutDelay n.
Proof.
  intros Ht. unfold LockedUntil. destruct (Z.eqb_spec (LockoutDelay n) 0); [done|]. unfold nullableTime, time_is_zero.
  pose proof (lockout_delay_nonneg n). destruct (Z.eqb_spec (t + LockoutDelay n) zero_time); [lia|done].
Qed.

Lemma guesses_paced scope subjects subject : subject ∈ subjects -> NoDup (map subject_hash subjects) ->
  forall times sv sv' u, Forall (fun t => zero_time < t) times -> guesses scope subjects times sv = (sv', Ok u) ->
  at_failures (ledger (sv_rows sv') scope subject) = at_failures (ledger (sv_rows sv) scope subject) + Z.of_nat (List.length times) /\
  (forall t, times !! 0%nat = Some t -> timeFrom (at_locked_until (ledger (sv_rows sv) scope subject)) <= t) /\
  forall i t t', times !! i = Some t -> times !! S i = Some t' ->
    LockoutDelay (at_failures (ledger (sv_rows sv) scope subject) + Z.of_nat i + 1) = 0 \/
    t + LockoutDelay (at_failures (ledger (sv_rows sv) scope subject) + Z.of_nat i + 1) <= t'.
Proof.
  intros Hs Hnd. induction times as [|now times IH]; intros sv sv' u Hz; cbn [guesses].
  - intros [= <- _]. cbn. split; [lia|]. split; [done|]. by intros.
  - apply Forall_cons in Hz as [Hnow Hz]. intros H. apply bind_run in H as (u0 & sv1 & Hc & H). apply check_locked_run in Hc as [-> Hc].
    apply bind_run in H as (u1 & sv1 & Hr & H). apply transaction_run in Hr as [(u2 & _ & Hr)|[Hr _]]; [|done].
    apply fail_all_run in Hr as [Hin _]; [|done]. specialize (Hin _ Hs).
    apply IH in H as (Hn & Hhead & Hrest); [|done].
    assert (El : ledger (sv_rows sv1) scope subject = after_failure (ledger (sv_rows sv) scope subject) now) by (unfold ledger at 1; by rewrite Hin).
    rewrite El in Hn, Hhead, Hrest. cbn [after_failure at_failures at_locked_until] in Hn, Hhead, Hrest. cbn [List.length].
    split; [lia|]. split; [cbn; intros t [= <-]; by apply Hc|]. intros [|i] t t' Ht Ht'.
    + cbn in Ht. injection Ht as <-. cbn in Ht'. specialize (Hhead _ Ht'). rewrite locked_until_column in Hhead by done.
      rewrite Z.add_0_r. destruct (Z.eqb_spec (LockoutDelay (at_failures (ledger (sv_rows sv) scope subject) + 1)) 0); [by left|by right].
    + cbn in Ht, Ht'. specialize (Hrest i t t' Ht Ht'). replace (at_failures (ledger (sv_rows sv) scope subject) + Z.of_nat (S i) + 1)
        with (at_failures (ledger (sv_rows sv) scope subject) + 1 + Z.of_nat i + 1) by lia. exact Hrest.
Qed.

(** Guessing gets slower: from the fourth wrong guess at a subject on, each
    is separated from the next one that is looked at by a second, doubled with
    every further failure and capped at a quarter of an hour; every guess looked
    at is counted, whatever subjects it names besides. *)
Theorem guess_paced scope subjects subject times sv sv' : subject ∈ subjects -> NoDup (map subject_hash subjects) ->
  rw_attempts (sv_rows sv) !! (scope, subject_hash subject) = None -> Forall (fun t => zero_time < t) times ->
  guesses scope subjects times sv = (sv', Ok tt) ->
  at_failures (ledger (sv_rows sv') scope subject) = Z.of_nat (List.length times) /\
  forall i t t', (3 <= i)%nat -> times !! i = Some t -> times !! S i = Some t' ->
    t + Z.min (15 * Minute) (2 ^ (Z.of_nat i - 3) * Second) <= t'.
Proof.
  intros Hs Hnd Hnew Hz H. destruct (guesses_paced _ _ _ Hs Hnd _ _ _ _ Hz H) as (Hn & _ & Hp).
  assert (E : at_failures (ledger (sv_rows sv) scope subject) = 0) by (unfold ledger; by rewrite Hnew).
  rewrite E in Hn, Hp. split; [exact Hn|]. intros i t t' Hi Ht Ht'. specialize (Hp i t t' Ht Ht'). rewrite !lockout_delay in Hp.
  destruct (Z.leb_spec (0 + Z.of_nat i + 1) 3); [lia|]. replace (0 + Z.of_nat i + 1 - 4) with (Z.of_nat i - 3) in Hp by lia.
  fold LockoutCeiling. destruct Hp as [Hp|Hp]; [|exact Hp].
  pose proof (Z.pow_pos_nonneg 2 (Z.of_nat i - 3) ltac:(lia) ltac:(lia)). assert (0 < 2 ^ (Z.of_nat i - 3) * Second) by (apply Z.mul_pos_pos; done).
  unfold LockoutCeiling in *. change Minute with (60 * Second) in *. assert (0 < Second) by done. nia.
Qed.
End chain.

(** ** Anna's sessions *)

Definition phone_pair : string := Eval vm_compute in the_pair signed_in.2.
Definition phone_token : Token := mkToken acme phone_pair.
Definition at_ten : Time := morning + 2 * Hour.

Definition anna_actor : Actor :=
  mkActor "USER" acme anna anna_phone ["accounts:read"; "accounts:write"] [] false.
Definition phone_claims : SessionClaims := mkClaims acme anna_phone anna (at_ten + AccessTokenLifetime).

Definition phone_server : Server := Eval vm_compute in signed_in.1.

Ltac by_running := match goal with |- _ = ?r => vm_cast_no_check (eq_refl r) end.

(** Two requests present the same token at once; the second to commit is
    refused. *)
Definition presented_credential : res RefreshCredential := Eval vm_compute in (find_presented plain_hash phone_token phone_server).2.
Definition phone_credential : RefreshCredential := Eval vm_compute in
  match presented_credential with Ok c => c | _ => mkRefreshCredential (mkRefresh "" "" "" 0 0 0)
    (refresh_session (mkSessionRow "" "" "" 0 None "" "" 0 None "" None None None "" "" None "" None)) anna_account "" end.
Definition one_request : Pending := mkPending phone_token phone_credential second_secret "r2" at_ten.
Definition other_request : Pending := mkPending phone_token phone_credential third_secret "r3" at_ten.

Definition exchange_of (p : Pending) : T SessionPair :=
  transaction (exchange plain_hash unsigned_claims (to_tenant (pe_token p)) (pe_credential p) (pe_material p) (pe_fresh p) (pe_now p)).

Definition first_commit : Server * res SessionPair := Eval vm_compute in exchange_of one_request phone_server.
Definition second_commit : Server * res SessionPair := Eval vm_compute in exchange_of other_request first_commit.1.

Example first_wins : is_ok first_commit.2 = true /\ second_commit.2 = Err refreshRefused /\
  sv_rows second_commit.1 = sv_rows first_commit.1.
Proof. repeat split; by_running. Qed.

Definition raced : World := mkWorld second_commit.1 [] [phone_pair].

Lemma sign_in_runs : openSessionVia plain_hash plain_hash unsigned_claims no_queue acme anna_account phone_input SignedInAction
  ["account:anna"] (Some first_secret) "r1" empty_server = (phone_server, signed_in.2).
Proof. by_running. Qed.
Lemma phone_parses : ParseRefreshToken phone_pair = Ok phone_token.
Proof. by_running. Qed.
Lemma phone_presents : find_presented plain_hash phone_token phone_server = (phone_server, Ok phone_credential).
Proof. by_running. Qed.
Lemma first_runs : exchange_of one_request phone_server = (first_commit.1, first_commit.2).
Proof. by_running. Qed.
Lemma second_runs : exchange_of other_request first_commit.1 = (second_commit.1, second_commit.2).
Proof. by_running. Qed.

Lemma signed_in_reached : reached plain_hash plain_hash unsigned_claims no_queue (mkWorld phone_server [] []).
Proof.
  exists empty_server. split; [reflexivity|]. split; [reflexivity|]. apply rtc_once. exact (move_open _ _ _ _ _ _ _ _ _ _ _ _ _ _ _ _ sign_in_runs).
Qed.

Lemma raced_reached : reached plain_hash plain_hash unsigned_claims no_queue raced.
Proof.
  destruct signed_in_reached as (sv & Hs & Hr & H). exists sv. split; [exact Hs|]. split; [exact Hr|].
  eapply rtc_trans; [exact H|].
  eapply rtc_l. { exact (move_present _ _ _ _ _ _ _ _ _ _ _ second_secret "r2" at_ten phone_parses phone_presents). }
  eapply rtc_l. { exact (move_present _ _ _ _ _ _ _ _ _ _ _ third_secret "r3" at_ten phone_parses phone_presents). }
  eapply rtc_l. { exact (move_exchange _ _ _ _ _ _ [other_request] one_request [] _ _ first_runs). }
  eapply rtc_once. exact (move_exchange _ _ _ _ _ _ [] other_request [] [phone_pair] _ second_runs).
Qed.

Lemma exchange_once_witness : NoDup (wo_exchanged raced) /\
  exists rf, rw_refresh (sv_rows (wo_server raced)) !! phone_pair = Some rf /\ live_link rf = false.
Proof.
  destruct (exchange_once plain_hash plain_hash unsigned_claims no_queue raced raced_reached) as (H1 & H2 & _).
  split; [exact H1|]. apply H2. apply list_elem_of_In. left. reflexivity.
Defined.

(** A token used twice: the second time nothing is left behind, and the session
    its chain belongs to goes on. *)
Definition refreshed : Server * res SessionPair := Eval vm_compute in
  RefreshSession plain_hash unsigned_claims phone_pair "" (Some second_secret) "r2" at_ten phone_server.

Lemma refresh_rotates_witness : exists row', rw_sessions (sv_rows refreshed.1) = <[anna_phone := row']> (rw_sessions (sv_rows phone_server)) /\
  sr_expires_at row' = at_ten + RefreshTokenLifetime.
Proof.
  destruct (refresh_rotates plain_hash unsigned_claims phone_pair "" (Some second_secret) "r2" at_ten phone_server refreshed.1
    (match refreshed.2 with Ok p => p | _ => mkPair "" 0 "" 0 (rc_session phone_credential) end))
    as (token & next & rf & row & Hp & _ & _ & Hrf & _ & _ & _ & _ & _ & _ & _ & row' & Hs & He & _);
    [apply (world_rows _ _ (every_world_ok _ _ _ _ _ signed_in_reached))|by_running|].
  vm_compute in Hp. injection Hp as <-. vm_compute in Hrf. injection Hrf as <-. exists row'. split; [exact Hs|exact He].
Defined.

Definition reused : Server * res SessionPair := Eval vm_compute in
  RefreshSession plain_hash unsigned_claims phone_pair "" (Some third_secret) "r3" (at_ten + Hour) refreshed.1.

Lemma reuse_rolled_back_witness : exists reason, RefreshSession plain_hash unsigned_claims phone_pair "" (Some third_secret) "r3" (at_ten + Hour) refreshed.1 =
  (mkServer (sv_rows refreshed.1) (sv_signals refreshed.1 ++ [reason]), Err refreshRefused).
Proof.
  apply (reuse_rolled_back plain_hash unsigned_claims phone_pair "" third_secret "r3" (at_ten + Hour) phone_token);
    [by_running|left; reflexivity|discriminate|].
  right. exists (mkRefreshRow "r1" acme anna_phone morning (morning + RefreshTokenLifetime) (Some at_ten)), at_ten. split; [by_running|]. split; [reflexivity|discriminate].
Defined.

Example thief_goes_on : is_ok (RefreshSession plain_hash unsigned_claims (the_pair refreshed.2) "" (Some third_secret) "r4" (at_ten + 2 * Hour) reused.1).2 = true /\
  rw_audit (sv_rows reused.1) = rw_audit (sv_rows refreshed.1) /\ sv_signals reused.1 = [FailureRefreshReused].
Proof. repeat split; by_running. Qed.

(** A session idle for longer than its workspace allows: its access tokens are
    turned away, its refresh token is exchanged, and it is accepted again. *)
Definition idle_server : Server := Eval vm_compute in (authenticate phone_claims (morning + Hour) phone_server).1.

Example idle_revived :
  (authenticate phone_claims at_ten idle_server).2 = Err (unauthenticated "auth.session_idle") /\
  match RefreshSession plain_hash unsigned_claims phone_pair "" (Some second_secret) "r2" at_ten idle_server with
  | (after, Ok _) => is_ok (authenticate phone_claims at_ten after).2
  | _ => false
  end = true.
Proof. repeat split; by_running. Qed.

(** The phone signed out. *)
Definition signed_out : Server := Eval vm_compute in (RevokeSession anna_actor anna_phone at_ten phone_server).1.
Definition signed_out_row : SessionRow := Eval vm_compute in
  default (mkSessionRow "" "" "" 0 None "" "" 0 None "" None None None "" "" None "" None) (rw_sessions (sv_rows signed_out) !! anna_phone).

Lemma signed_out_reached : reached plain_hash plain_hash unsigned_claims no_queue (mkWorld signed_out [] []).
Proof.
  destruct signed_in_reached as (sv & Hs & Hr & H). exists sv. split; [exact Hs|]. split; [exact Hr|].
  eapply rtc_r; [exact H|]. apply (move_revoke _ _ _ _ phone_server signed_out [] [] anna_actor anna_phone at_ten (Ok tt)). by_running.
Qed.


Lemma listed_accepted_witness :
  (exists s, s ∈ match (ListSessions anna_actor at_ten phone_server).2 with Ok l => l | _ => [] end /\ se_id s = anna_phone) <->
  (exists sv'' c, authenticate (mkClaims acme anna_phone anna 0) at_ten phone_server = (sv'', Ok c)).
Proof.
  apply (listed_accepted anna_actor at_ten phone_server phone_server _ 
    (default signed_out_row (rw_sessions (sv_rows phone_server) !! anna_phone)) (mkAccountRow acme "Anna" AccountActive false) (mkTenantRow "ACTIVE" None) anna_phone 0);
    [apply (world_rows _ _ (every_world_ok _ _ _ _ _ signed_in_reached))|by_running..|].
  intros at_ E. vm_compute in E. discriminate E.
Defined.

Definition wrong_guesses : list Time := [morning; morning; morning + Second; morning + Second; morning + 2 * Second; morning + 4 * Second].
Definition guessed : Server := Eval vm_compute in (guesses plain_hash acme ["account:anna"; "ip:192.0.2.0"] wrong_guesses phone_server).1.

Lemma guess_paced_witness : at_failures (ledger plain_hash (sv_rows guessed) acme "account:anna") = 6.
Proof.
  destruct (guess_paced plain_hash acme ["account:anna"; "ip:192.0.2.0"] "account:anna" wrong_guesses phone_server guessed) as [H _];
    [left|cbn; repeat constructor; rewrite ?elem_of_cons, ?elem_of_nil; naive_solver|by_running| |by_running|exact H].
  unfold wrong_guesses. repeat (apply Forall_cons; split; [reflexivity|]). apply Forall_nil. exact I.
Defined.

Example guess_refused : (checkLocked plain_hash acme ["account:anna"] (morning + 7 * Second) guessed).2 =
  Err (detailed ErrRateLimited "auth.sign_in_locked" [("retry_after_seconds", "2")]).
Proof. by_running. Qed.
