(* ===== verification/Setting.v ===== *)
(** * The settings catalogue and its resolver

    Models core/domain/model/setting: Setting.go (what a setting is - its key, its
    kind, the levels that may decide it and how), Resolve.go (the one resolver,
    which folds the levels top-down) and Catalogue.go (the declared settings and
    the writer's question).  A value is a count, a choice, choices, or a value of
    the setting's own package, which this one only carries; Go's nil is [None]. *)

From Stdlib Require Import ZArith Lia String Ascii List Bool.
From stdpp Require Import base option list strings gmap.
From S2P Require Import Prelude Shared.

Open Scope string_scope.
Open Scope list_scope.
Open Scope Z_scope.

(** ** Setting.go *)

Abbreviation Key := string (only parsing).
Abbreviation Level := string (only parsing).

Definition LevelDefault : Level := "DEFAULT".
Definition LevelInstance : Level := "INSTANCE".
Definition LevelPlan : Level := "PLAN".
Definition LevelWorkspace : Level := "WORKSPACE".
Definition LevelHub : Level := "HUB".
Definition LevelCollection : Level := "COLLECTION".
Definition LevelPerson : Level := "PERSON".

Definition levels : list Level :=
  [LevelDefault; LevelInstance; LevelPlan; LevelWorkspace; LevelHub; LevelCollection; LevelPerson].

Definition level_valid (l : Level) : bool := contains levels l.

(** [slices.Index]: -1 for what is not there. *)
Fixpoint index_of (xs : list string) (x : string) : Z :=
  match xs with
  | [] => -1
  | y :: rest => if String.eqb y x then 0 else let i := index_of rest x in if i <? 0 then -1 else i + 1
  end.

Definition Below (l other : Level) : bool := index_of levels other <? index_of levels l.

Definition kinds : list string :=
  ["COUNT"; "FLAG"; "CHOICE"; "CHOICES"; "LINK"; "TEXT"; "LOCALE"; "TIME_ZONE"; "DATE"; "STRUCTURE"].

Definition HoldSet : string := "SET".
Definition HoldLock : string := "LOCK".
Definition HoldRestrict : string := "RESTRICT".
Definition hold_valid (h : string) : bool :=
  String.eqb h HoldSet || String.eqb h HoldLock || String.eqb h HoldRestrict.

Definition MayTighten : string := "TIGHTEN".
Definition MayNeverLock : string := "".

Record Allowed := mkAllowed { al_minimum : option Z; al_maximum : option Z; al_options : option (list string) }.

Definition open_allowed : Allowed := mkAllowed None None None.
Definition IsOpen (a : Allowed) : bool :=
  match al_minimum a, al_maximum a, al_options a with None, None, None => true | _, _, _ => false end.

Section settings.
Context {V : Type}.

Inductive value : Type :=
  | Count (n : Z)
  | Choice (s : string)
  | Choices (l : list string)
  | Carried (v : V).

(** [Definition], whose name is a word of the prover. *)
Record Setting := mkSetting {
  st_key : Key;
  st_kind : string;
  st_options : list string;
  st_minimum : option Z;
  st_maximum : option Z;
  st_levels : list Level;
  st_lockable : bool;
  st_restrictable : bool;
  st_may : string;
  st_writers : list (Level * string);
  st_preview : string;
  st_default : option value;
  st_tightens : option (option value -> value -> bool);
  st_tighten_from : Level
}.

Definition heldToTighten (d : Setting) (level : Level) : bool :=
  match st_tightens d, st_levels d with
  | Some _, first :: _ =>
      if negb (String.eqb (st_may d) MayTighten) || String.eqb level first then false
      else String.eqb (st_tighten_from d) "" || String.eqb level (st_tighten_from d) || Below level (st_tighten_from d)
  | _, _ => false
  end.

Definition DecidedAt (d : Setting) (level : Level) : bool := contains (st_levels d) level.

Definition definition_invalid (key reason : string) : Error :=
  detailed ErrInternal "setting.definition_invalid" [("setting", key); ("reason", reason)].

Fixpoint levels_in_order (before : option Level) (ls : list Level) : result string unit :=
  match ls with
  | [] => Ok tt
  | l :: rest =>
      if negb (level_valid l) || String.eqb l LevelDefault then Err "level"
      else if match before with Some b => negb (Below l b) | None => false end then Err "order"
      else levels_in_order (Some l) rest
  end.

Definition Validate (d : Setting) : res unit :=
  let invalid reason := Err (definition_invalid (st_key d) reason) in
  if String.eqb (st_key d) "" then invalid "key"
  else if negb (contains kinds (st_kind d)) then invalid "kind"
  else match st_levels d with
       | [] => invalid "levels"
       | _ =>
           if match st_minimum d, st_maximum d with Some lo, Some hi => hi <? lo | _, _ => false end then invalid "bounds"
           else if String.eqb (st_may d) MayNeverLock && (st_lockable d || st_restrictable d) then invalid "lock"
           else match levels_in_order None (st_levels d) with
                | Err reason => invalid reason
                | _ => Ok tt
                end
       end.

Record Entry := mkEntry { en_value : option value; en_hold : string; en_allowed : Allowed; en_by : ID }.
Definition zero_entry : Entry := mkEntry None "" open_allowed "".

Record Layer := mkLayer { ly_level : Level; ly_entries : gmap string Entry }.

Record Resolution := mkResolution {
  re_key : Key;
  re_effective : option value;
  re_source : Level;
  re_locked_by : Level;
  re_locked_by_person : ID;
  re_allowed : Allowed
}.

Definition Locked (r : Resolution) : bool := negb (String.eqb (re_locked_by r) "").

(** ** Resolve.go *)

Definition at_least (bound : option Z) (n : Z) : bool := match bound with Some lo => lo <=? n | None => true end.
Definition at_most (bound : option Z) (n : Z) : bool := match bound with Some hi => n <=? hi | None => true end.

Definition allows (a : Allowed) (v : value) : bool :=
  match v with
  | Count n => at_least (al_minimum a) n && at_most (al_maximum a) n
  | Choice s => match al_options a with None => true | Some options => contains options s end
  | Choices l => match al_options a with None => true | Some options => forallb (contains options) l end
  | Carried _ => true
  end.

Definition narrow (upper lower : Allowed) : Allowed :=
  mkAllowed
    (match al_minimum lower, al_minimum upper with
     | Some lo, None => Some lo
     | Some lo, Some up => if up <? lo then Some lo else Some up
     | None, up => up
     end)
    (match al_maximum lower, al_maximum upper with
     | Some hi, None => Some hi
     | Some hi, Some up => if hi <? up then Some hi else Some up
     | None, up => up
     end)
    (match al_options lower, al_options upper with
     | Some options, None => Some options
     | Some options, Some up => Some (List.filter (contains options) up)
     | None, up => up
     end).

Definition within (v : value) (a : Allowed) : value :=
  match v with
  | Count n =>
      if negb (at_least (al_minimum a) n) then Count (default n (al_minimum a))
      else if negb (at_most (al_maximum a) n) then Count (default n (al_maximum a))
      else v
  | Choice s =>
      match al_options a with
      | Some (first :: rest) => if contains (first :: rest) s then v else Choice first
      | _ => v
      end
  | Choices l => match al_options a with Some options => Choices (List.filter (contains options) l) | None => v end
  | Carried _ => v
  end.

Definition admits (d : Setting) (level : Level) (inForce : Resolution) (v : value) : bool :=
  if negb (allows (re_allowed inForce) v) then false
  else if heldToTighten d level then
    match st_tightens d with Some tightens => tightens (re_effective inForce) v | None => true end
  else true.

(** One level's entry: its value where it is admitted, then its hold. *)
Definition take_value (d : Setting) (level : Level) (r : Resolution) (v : option value) : Resolution :=
  match v with
  | Some v =>
      if admits d level r v then
        mkResolution (re_key r) (Some v) level (re_locked_by r) (re_locked_by_person r) (re_allowed r)
      else r
  | None => r
  end.

Definition take_hold (d : Setting) (level : Level) (r : Resolution) (e : Entry) : Resolution :=
  if String.eqb (en_hold e) HoldLock then
    if st_lockable d then mkResolution (re_key r) (re_effective r) (re_source r) level (en_by e) (re_allowed r) else r
  else if String.eqb (en_hold e) HoldRestrict then
    if st_restrictable d then
      let allowed := narrow (re_allowed r) (en_allowed e) in
      mkResolution (re_key r) (option_map (fun v => within v allowed) (re_effective r)) (re_source r) (re_locked_by r)
        (re_locked_by_person r) allowed
    else r
  else r.

Definition resolve_layer (d : Setting) (r : Resolution) (layer : Layer) : Resolution :=
  match ly_entries layer !! st_key d with
  | None => r
  | Some e =>
      if negb (DecidedAt d (ly_level layer)) then r
      else if Locked r then r
      else take_hold d (ly_level layer) (take_value d (ly_level layer) r (en_value e)) e
  end.

Definition unresolved (d : Setting) : Resolution :=
  mkResolution (st_key d) (st_default d) LevelDefault "" "" open_allowed.

Definition Resolve (d : Setting) (layers : list Layer) : Resolution :=
  fold_left (resolve_layer d) layers (unresolved d).

(** ** Catalogue.go *)

Record Catalogue := mkCatalogue { ct_definitions : gmap string Setting; ct_order : list Key }.

Definition add_definition (c : Catalogue) (d : Setting) : res Catalogue :=
  _ ← Validate d;
  match ct_definitions c !! st_key d with
  | Some _ => Err (definition_invalid (st_key d) "duplicate")
  | None => Ok (mkCatalogue (<[st_key d := d]> (ct_definitions c)) (ct_order c ++ [st_key d]))
  end.

Definition NewCatalogue (definitions : list Setting) : res Catalogue :=
  fold_result add_definition (mkCatalogue ∅ []) definitions.

Definition Lookup (c : Catalogue) (key : Key) : option Setting := ct_definitions c !! key.
Definition Definitions (c : Catalogue) : list Setting := omap (Lookup c) (ct_order c).
Definition At (c : Catalogue) (level : Level) : list Setting :=
  List.filter (fun d => DecidedAt d level) (Definitions c).

Definition ErrUnknown (key : Key) : Error := detailed ErrNotFound "setting.unknown" [("setting", key)].
Definition ErrLocked (key : Key) (by_ : Level) : Error :=
  field_refused ErrValidation ("/" +:+ key) "setting.locked" [("setting", key); ("origin", by_)].
Definition ErrNotAllowed (key : Key) : Error :=
  field_refused ErrValidation ("/" +:+ key) "setting.not_allowed" [("setting", key)].

(** The writer's question. *)
Definition Check_entry (d : Setting) (level : Level) (above : Resolution) (e : Entry) : res unit :=
  if negb (DecidedAt d level) then Err (ErrUnknown (st_key d))
  else if Locked above then Err (ErrLocked (st_key d) (re_locked_by above))
  else if (String.eqb (en_hold e) HoldLock && negb (st_lockable d)) ||
          (String.eqb (en_hold e) HoldRestrict && negb (st_restrictable d)) || negb (hold_valid (en_hold e)) then
    Err (ErrNotAllowed (st_key d))
  else match en_value e with
       | Some v => if admits d level above v then Ok tt else Err (ErrNotAllowed (st_key d))
       | None => Ok tt
       end.
End settings.
Arguments value V : clear implicits.
Arguments Setting V : clear implicits.
Arguments Entry V : clear implicits.
Arguments Layer V : clear implicits.
Arguments Resolution V : clear implicits.
Arguments Catalogue V : clear implicits.

(** ** Properties *)

Section resolving.
Context {V : Type}.
Implicit Types (d : Setting V) (r : Resolution V) (v : value V).

(** What a level left is not nothing: a range with its ends in order, a choice
    with an option. *)
Definition roomy (a : Allowed) : Prop :=
  match al_minimum a, al_maximum a with Some lo, Some hi => lo <= hi | _, _ => True end /\ al_options a <> Some [].

Lemma narrow_roomy upper lower : roomy (narrow upper lower) -> roomy upper.
Proof.
  destruct upper as [ul uh uo], lower as [ll lh lo]. unfold roomy, narrow. cbn. intros [Hr Ho]. split.
  - destruct ul, uh, ll, lh; try done; cbn in *; repeat case_match; try lia; naive_solver lia.
  - destruct uo as [[|o uo]|], lo; done.
Qed.

Lemma within_allows a v : roomy a -> allows a (within v a) = true.
Proof.
  destruct a as [lo hi options]. unfold roomy. cbn [al_minimum al_maximum al_options]. intros [Hr Ho].
  destruct v as [n|s|l|v]; unfold within; cbn [al_minimum al_maximum al_options].
  - destruct lo as [lo|], hi as [hi|]; cbn; repeat case_match; cbn; bools; lia.
  - destruct options as [[|o options]|]; [done| |done]. destruct (contains (o :: options) s) eqn:E; [exact E|].
    unfold allows. cbn [al_options]. by apply contains_in; left.
  - destruct options as [options|]; [|done]. unfold allows. cbn [al_options]. apply forallb_forall. intros x. by rewrite filter_In; intros [_ H].
  - done.
Qed.

(** The value in force is one the restrictions leave. *)
Definition inside (r : Resolution V) : Prop :=
  roomy (re_allowed r) -> forall v, re_effective r = Some v -> allows (re_allowed r) v = true.

Lemma take_value_inside d level r o : inside r -> inside (take_value d level r o).
Proof.
  unfold take_value, admits. destruct o as [v|]; [|done]. destruct (allows (re_allowed r) v) eqn:E; [|done]. cbn.
  intros H. destruct (if heldToTighten d level then _ else true); [|done]. by intros Hr w [= <-].
Qed.

Lemma resolve_layer_inside d r layer : inside r -> inside (resolve_layer d r layer).
Proof.
  intros H. unfold resolve_layer. destruct (ly_entries layer !! st_key d) as [e|]; [|done]. destruct (negb _); [done|].
  destruct (Locked r); [done|]. apply (take_value_inside d (ly_level layer) r (en_value e)) in H. unfold take_hold.
  destruct (String.eqb _ HoldLock); [destruct (st_lockable d); done|]. destruct (String.eqb _ HoldRestrict); [|done].
  destruct (st_restrictable d); [|done]. intros Hr w. cbn in *. destruct (re_effective _) as [v|]; [|done]. intros [= <-].
  by apply within_allows.
Qed.

Lemma resolve_app d ls ms : Resolve d (ls ++ ms) = fold_left (resolve_layer d) ms (Resolve d ls).
Proof. apply fold_left_app. Qed.

Lemma locked_stays d r ms : Locked r = true -> fold_left (resolve_layer d) ms r = r.
Proof.
  intros H. induction ms as [|m ms IH]; [done|]. cbn. unfold resolve_layer at 2. rewrite H.
  destruct (ly_entries m !! st_key d); [destruct (negb _); exact IH|exact IH].
Qed.

Lemma resolve_inside d ls : inside (Resolve d ls).
Proof.
  induction ls as [|m ls IH] using rev_ind.
  - intros _ v. by destruct v.
  - rewrite resolve_app. by apply resolve_layer_inside.
Qed.

(** What a level that decides the setting stored for it. *)
Definition stored_at (d : Setting V) (ls : list (Layer V)) (level : Level) (v : value V) : Prop :=
  exists layer e, layer ∈ ls /\ ly_level layer = level /\ DecidedAt d level = true /\
    ly_entries layer !! st_key d = Some e /\ en_value e = Some v.

Definition sourced (d : Setting V) (ls : list (Layer V)) (r : Resolution V) : Prop :=
  (re_effective r = st_default d /\ re_source r = LevelDefault) \/
  exists v, re_effective r = Some v /\ stored_at d ls (re_source r) v.

Lemma stored_at_app d ls ms level v : stored_at d ls level v -> stored_at d (ls ++ ms) level v.
Proof. intros (layer & e & Hin & H). exists layer, e. split; [apply elem_of_app; by left|exact H]. Qed.

Lemma resolve_sourced d ls : st_restrictable d = false -> sourced d ls (Resolve d ls).
Proof.
  intros Hr. induction ls as [|m ls IH] using rev_ind; [by left|]. rewrite resolve_app. cbn.
  assert (Hk : sourced d (ls ++ [m]) (Resolve d ls)).
  { destruct IH as [IH|(v & Hv & Hs)]; [by left|]. right. exists v. split; [done|by apply stored_at_app]. }
  unfold resolve_layer. destruct (ly_entries m !! st_key d) as [e|] eqn:He; [|exact Hk].
  destruct (DecidedAt d (ly_level m)) eqn:Hd; cbn [negb]; [|exact Hk]. destruct (Locked (Resolve d ls)); [exact Hk|].
  unfold take_hold. rewrite Hr. destruct (String.eqb (en_hold e) HoldLock), (String.eqb (en_hold e) HoldRestrict), (st_lockable d);
    unfold take_value; (destruct (en_value e) as [v|] eqn:Hv; [destruct (admits _ _ _ _)|]); try exact Hk;
    right; exists v; (split; [done|]); exists m, e; rewrite elem_of_app, elem_of_cons; cbn; naive_solver.
Qed.

(** One answer for every setting at every place.  A lock binds every level
    below it: whatever they store, the resolution stays as it is, its origin
    included.  A value in force lies inside everything the levels restricted, as
    long as they left anything.  And of a setting that is not restricted it is
    the default, or what the level named as its source has stored. *)
Theorem resolve_sound d ls :
  (Locked (Resolve d ls) = true -> forall ms, Resolve d (ls ++ ms) = Resolve d ls) /\
  (roomy (re_allowed (Resolve d ls)) -> forall v, re_effective (Resolve d ls) = Some v -> allows (re_allowed (Resolve d ls)) v = true) /\
  (st_restrictable d = false -> sourced d ls (Resolve d ls)).
Proof.
  split; [|split; [apply resolve_inside|apply resolve_sourced]].
  intros H ms. rewrite resolve_app. by apply locked_stays.
Qed.

(** ** The writer and the reader *)

(** One level's entry for the setting, as a layer of its own. *)
Definition layer_of (d : Setting V) (level : Level) (e : Entry V) : Layer V := mkLayer level {[ st_key d := e ]}.

Lemma resolve_one d ls level e : DecidedAt d level = true -> Locked (Resolve d ls) = false ->
  Resolve d (ls ++ [layer_of d level e]) = take_hold d level (take_value d level (Resolve d ls) (en_value e)) e.
Proof.
  intros Hd Hl. rewrite resolve_app. cbn. unfold resolve_layer. cbn. by rewrite lookup_singleton_eq, Hd, Hl.
Qed.

(** C19. What a writer lets through is what readers then find: an entry that
    passes the check is in force at its level with its value - a restriction's
    own brought within it -, and its lock or restriction binds from there on.  A
    value the check turns down, because a level above locked it, restricted it
    or must not be loosened, changes nothing where it is stored all the same. *)
Theorem writer_agrees d ls level e :
  (Check_entry d level (Resolve d ls) e = Ok tt ->
     let r := Resolve d (ls ++ [layer_of d level e]) in
     (forall v, en_value e = Some v ->
        re_effective r = Some (if String.eqb (en_hold e) HoldRestrict then within v (re_allowed r) else v) /\ re_source r = level) /\
     (en_hold e = HoldLock -> re_locked_by r = level) /\
     (en_hold e = HoldRestrict -> re_allowed r = narrow (re_allowed (Resolve d ls)) (en_allowed e))) /\
  (forall refusal, Check_entry d level (Resolve d ls) e = Err refusal -> en_hold e = HoldSet ->
     Resolve d (ls ++ [layer_of d level e]) = Resolve d ls).
Proof.
  split.
  - unfold Check_entry. destruct (DecidedAt d level) eqn:Hd; [|done]. cbn [negb]. destruct (Locked (Resolve d ls)) eqn:Hl; [done|].
    rewrite resolve_one by done. destruct (_ || _ || _) eqn:Hh; [done|]. bools. intros Hc. cbn.
    assert (Hv : forall v, en_value e = Some v -> admits d level (Resolve d ls) v = true).
    { intros v E. rewrite E in Hc. by destruct (admits _ _ _ _). }
    unfold take_hold. split; [|split].
    + intros v E. specialize (Hv _ E). unfold take_value. rewrite E, Hv.
      destruct (String.eqb_spec (en_hold e) HoldLock) as [El|].
      { rewrite El. by destruct (st_lockable d). }
      destruct (String.eqb_spec (en_hold e) HoldRestrict) as [Er|]; [|done]. by destruct (st_restrictable d).
    + intros E. rewrite E in *. cbn in *. by destruct (st_lockable d).
    + intros E. rewrite E in *. cbn in *. destruct (st_restrictable d); [|done]. cbn. unfold take_value.
      by destruct (en_value e) as [v|]; [destruct (admits _ _ _ _)|].
  - intros refusal H Hs. destruct (DecidedAt d level) eqn:Hd.
    2: { rewrite resolve_app. cbn. unfold resolve_layer. cbn. by rewrite lookup_singleton_eq, Hd. }
    destruct (Locked (Resolve d ls)) eqn:Hl; [rewrite resolve_app; by apply locked_stays|].
    rewrite resolve_one by done. unfold Check_entry in H. rewrite Hd, Hl, Hs in H. cbn in H. unfold take_hold. rewrite Hs. cbn.
    unfold take_value. destruct (en_value e) as [v|]; [|done]. by destruct (admits _ _ _ _).
Qed.

(** ** Tightening *)

(** Below its first level a setting that may only be tightened moves in one
    direction. *)
Lemma resolve_tightens d tightens ls ms :
  st_may d = MayTighten -> st_restrictable d = false -> st_tighten_from d = "" -> st_tightens d = Some tightens ->
  (forall a b c, tightens a b = true -> tightens (Some b) c = true -> tightens a c = true) ->
  (forall m, m ∈ ms -> forall first rest, st_levels d = first :: rest -> ly_level m <> first) ->
  re_effective (Resolve d (ls ++ ms)) = re_effective (Resolve d ls) \/
  exists v, re_effective (Resolve d (ls ++ ms)) = Some v /\ tightens (re_effective (Resolve d ls)) v = true.
Proof.
  intros Hm Hr Hf Ht Htrans. induction ms as [|m ms IH] using rev_ind; intros Hms; [left; by rewrite app_nil_r|].
  rewrite app_assoc, resolve_app. cbn. set (r := Resolve d (ls ++ ms)) in *.
  assert (IH' := IH (fun m' Hin => Hms m' (proj2 (elem_of_app _ _ _) (or_introl Hin)))). clear IH.
  unfold resolve_layer. destruct (ly_entries m !! st_key d) as [e|]; [|exact IH'].
  destruct (DecidedAt d (ly_level m)) eqn:Hd; cbn [negb]; [|exact IH']. destruct (Locked r); [exact IH'|].
  assert (Hval : re_effective (take_hold d (ly_level m) (take_value d (ly_level m) r (en_value e)) e) =
                 re_effective (take_value d (ly_level m) r (en_value e))).
  { unfold take_hold. rewrite Hr. destruct (String.eqb _ HoldLock); [by destruct (st_lockable d)|]. by destruct (String.eqb _ HoldRestrict). }
  rewrite Hval. unfold take_value. destruct (en_value e) as [v|]; [|exact IH']. destruct (admits d (ly_level m) r v) eqn:Ha; [|exact IH'].
  right. exists v. split; [done|]. unfold admits in Ha. destruct (allows _ _); [|done]. cbn [negb] in Ha. unfold heldToTighten in Ha.
  rewrite Ht, Hm, Hf in Ha. unfold DecidedAt in Hd. destruct (st_levels d) as [|first rest] eqn:El; [done|].
  destruct (String.eqb_spec (ly_level m) first) as [E|_].
  { exfalso. apply (Hms m) with first rest; [apply elem_of_app; right; by left|done|done]. }
  cbn in Ha. destruct IH' as [<-|(w & Hw & Htw)]; [exact Ha|]. rewrite Hw in Ha. by eapply Htrans.
Qed.
End resolving.
