(* ===== verification/Password.v ===== *)
(** * What a password must meet

    Models core/domain/model/identity/PasswordRules.go - the form a password is
    counted in, its classes, its runs, the words it may not carry, and the rules
    it fails - with the policy it is held to (PasswordPolicy, of SignInPolicy.go).
    Go's Unicode tables and case mapping and the compatibility normal form of
    core/port/text are parameters. *)

From Stdlib Require Import ZArith Lia String Ascii List Bool.
From stdpp Require Import base option list strings.
From S2P Require Import Prelude Shared Text.

Open Scope string_scope.
Open Scope list_scope.
Open Scope Z_scope.

Definition MinPasswordLength : Z := 12.
Definition MaxPasswordLength : Z := 1024.

Record PasswordPolicy := mkPasswordPolicy {
  pp_min_length : Z;
  pp_min_lowercase : Z;
  pp_min_uppercase : Z;
  pp_min_digits : Z;
  pp_min_symbols : Z;
  pp_min_classes : Z;
  pp_max_repeat : Z;
  pp_common_passwords : bool;
  pp_context_words : bool;
  pp_breach_check : bool;
  pp_max_age_days : Z;
  pp_history_count : Z;
  pp_min_age_hours : Z
}.

(** Group.go: a loop over the digits of what is greater than 0. *)
Definition group_itoa (n : Z) : string := if n <? 0 then "" else itoa n.

Definition RuleMinLength : string := "min_length".
Definition RuleMinLowercase : string := "min_lowercase".
Definition RuleMinUppercase : string := "min_uppercase".
Definition RuleMinDigits : string := "min_digits".
Definition RuleMinSymbols : string := "min_symbols".
Definition RuleMinClasses : string := "min_classes".
Definition RuleMaxRepeat : string := "max_repeat".
Definition RuleContextWords : string := "context_words".

Definition PasswordRuleCode (rule : string) : string := "auth.password_rule." +:+ rule.

Record PasswordViolation := mkViolation { vi_rule : string; vi_params : params; vi_sentence : string }.

Definition violation_code (v : PasswordViolation) : string :=
  if String.eqb (vi_sentence v) "" then PasswordRuleCode (vi_rule v) else vi_sentence v.

Record PasswordContext := mkPasswordContext {
  px_email : string; px_sign_in_name : string; px_display_name : string; px_workspace_name : string; px_workspace_host : string
}.

Definition contextWordsViolation (context : PasswordContext) : PasswordViolation :=
  mkViolation RuleContextWords []
    (if negb (String.eqb (px_sign_in_name context) "") && String.eqb (px_email context) ""
     then PasswordRuleCode RuleContextWords +:+ "_name" else "").

(** [strings.Contains]. *)
Fixpoint contains_text (part s : string) : bool :=
  str_has_prefix part s || match s with EmptyString => false | String _ rest => contains_text part rest end.

(** [strings.Fields]: the runs between spaces; every rune takes a byte, so the
    length is fuel enough. *)
Fixpoint fields_from (fuel : nat) (s run : string) : list string :=
  let flush := if String.eqb run "" then [] else [run] in
  match fuel, s with
  | S fuel', String c rest =>
      let '(r, rest') := decode_tail c rest in
      if IsSpace r then flush ++ fields_from fuel' rest' ""
      else fields_from fuel' rest' (run +:+ str_take (String.length s - String.length rest') s)
  | _, _ => flush
  end.
Definition Fields (s : string) : list string := fields_from (String.length s) s "".

Definition leet_fold (c : ascii) : ascii :=
  if Ascii.eqb c "0" then "o" else if Ascii.eqb c "1" then "l" else if Ascii.eqb c "3" then "e"
  else if Ascii.eqb c "4" then "a" else if Ascii.eqb c "5" then "s" else if Ascii.eqb c "7" then "t"
  else if Ascii.eqb c "@" then "a" else if Ascii.eqb c "$" then "s" else if Ascii.eqb c "!" then "i" else c.

(** The replacer's old texts are single bytes, none of which is part of a longer rune. *)
Fixpoint leetFolds (s : string) : string :=
  match s with EmptyString => EmptyString | String c rest => String (leet_fold c) (leetFolds rest) end.

Record PasswordClasses := mkClasses { pc_lowercase : Z; pc_uppercase : Z; pc_digits : Z; pc_symbols : Z; pc_classes : Z }.

Section rules.
Context (nfkc : option (string -> string)) (ToLower : string -> string) (Ll Lu Nd : Z -> bool).

Definition NormalisePassword (password : string) : string :=
  match nfkc with Some form => form password | None => password end.

Definition FlattenPassword (value : string) : string := leetFolds (ToLower (NormalisePassword value)).

Definition count_rune (counted : PasswordClasses) (character : Z) : PasswordClasses :=
  let '(mkClasses lower upper digits symbols n) := counted in
  if Ll character then mkClasses (lower + 1) upper digits symbols n
  else if Lu character then mkClasses lower (upper + 1) digits symbols n
  else if Nd character then mkClasses lower upper (digits + 1) symbols n
  else mkClasses lower upper digits (symbols + 1) n.

Definition ClassesOf (password : string) : PasswordClasses :=
  let counted := fold_left count_rune (runes (NormalisePassword password)) (mkClasses 0 0 0 0 0) in
  mkClasses (pc_lowercase counted) (pc_uppercase counted) (pc_digits counted) (pc_symbols counted)
    (Z.of_nat (List.length (List.filter (fun n => 0 <? n)
      [pc_lowercase counted; pc_uppercase counted; pc_digits counted; pc_symbols counted]))).

(** The longest run so far, the running one, the character before. *)
Definition run_rune (state : Z * Z * option Z) (character : Z) : Z * Z * option Z :=
  let '(longest, run, previous) := state in
  let run := match previous with Some p => if character =? p then run + 1 else 1 | None => 1 end in
  (Z.max longest run, run, Some character).

Definition LongestRun (password : string) : Z :=
  (fold_left run_rune (runes (NormalisePassword password)) (0, 0, None)).1.1.

Definition ContextWords (context : PasswordContext) : list string :=
  let words := ["hubtask"] ++
    (match str_cut "@" (px_email context) with
     | Some (local, _) => if 3 <=? RuneCountInString local then [local] else []
     | None => []
     end) ++
    (if String.eqb (px_email context) "" then [] else [px_email context]) ++
    (if String.eqb (px_sign_in_name context) "" then [] else [px_sign_in_name context]) ++
    List.filter (fun part => 4 <=? RuneCountInString part) (Fields (px_display_name context) ++ Fields (px_workspace_name context)) ++
    (let label := match str_cut "." (px_workspace_host context) with Some (label, _) => label | None => px_workspace_host context end in
     if 4 <=? RuneCountInString label then [label] else []) in
  List.filter (fun flat => 3 <=? RuneCountInString flat) (map FlattenPassword words).

Definition CarriesContextWord (password : string) (context : PasswordContext) : bool :=
  let flat := FlattenPassword password in
  existsb (fun word => contains_text word flat) (ContextWords context).

Definition minimum_length (policy : PasswordPolicy) : Z :=
  if pp_min_length policy <=? 0 then MinPasswordLength else pp_min_length policy.

(** One of the five counts. *)
Definition count_violation (rule : string) (required counted : Z) : list PasswordViolation :=
  if (0 <? required) && (counted <? required) then [mkViolation rule [("count", group_itoa required)] ""] else [].

Definition LocalPasswordViolations (policy : PasswordPolicy) (password : string) (context : PasswordContext) : list PasswordViolation :=
  let normalised := NormalisePassword password in
  let counted := ClassesOf normalised in
  (if RuneCountInString normalised <? minimum_length policy
   then [mkViolation RuleMinLength [("minimum", group_itoa (minimum_length policy))] ""] else []) ++
  count_violation RuleMinLowercase (pp_min_lowercase policy) (pc_lowercase counted) ++
  count_violation RuleMinUppercase (pp_min_uppercase policy) (pc_uppercase counted) ++
  count_violation RuleMinDigits (pp_min_digits policy) (pc_digits counted) ++
  count_violation RuleMinSymbols (pp_min_symbols policy) (pc_symbols counted) ++
  count_violation RuleMinClasses (pp_min_classes policy) (pc_classes counted) ++
  (if (0 <? pp_max_repeat policy) && (pp_max_repeat policy <? LongestRun normalised)
   then [mkViolation RuleMaxRepeat [("count", group_itoa (pp_max_repeat policy))] ""] else []) ++
  (if pp_context_words policy && CarriesContextWord normalised context then [contextWordsViolation context] else []).

Definition PasswordRefused (violations : list PasswordViolation) : res unit :=
  match violations with
  | [] => Ok tt
  | _ =>
      Err (WithFields (detailed ErrValidation "auth.password_refused" [("rules", group_itoa (Z.of_nat (List.length violations)))])
             (map (fun v => mkFieldError "/password" (violation_code v) (vi_params v)) violations))
  end.

Definition CheckPasswordAgainst (policy : PasswordPolicy) (password : string) (context : PasswordContext) : res unit :=
  if MaxPasswordLength <? RuneCountInString (NormalisePassword password) then
    Err (field_refused ErrValidation "/password" "auth.password_too_long" [("maximum", group_itoa MaxPasswordLength)])
  else PasswordRefused (LocalPasswordViolations policy password context).

(** ** Stricter policies

    [stricter p q]: the first asks of a password at least what the second does. *)

Definition off_or_lower (proposed inForce : Z) : Prop := inForce <= 0 \/ 0 < proposed <= inForce.

Record stricter (p q : PasswordPolicy) : Prop := {
  stricter_length : minimum_length q <= minimum_length p;
  stricter_lowercase : pp_min_lowercase q <= pp_min_lowercase p;
  stricter_uppercase : pp_min_uppercase q <= pp_min_uppercase p;
  stricter_digits : pp_min_digits q <= pp_min_digits p;
  stricter_symbols : pp_min_symbols q <= pp_min_symbols p;
  stricter_classes : pp_min_classes q <= pp_min_classes p;
  stricter_repeat : off_or_lower (pp_max_repeat p) (pp_max_repeat q);
  stricter_common : pp_common_passwords q = true -> pp_common_passwords p = true;
  stricter_context : pp_context_words q = true -> pp_context_words p = true;
  stricter_breach : pp_breach_check q = true -> pp_breach_check p = true;
  stricter_age : off_or_lower (pp_max_age_days p) (pp_max_age_days q);
  stricter_history : pp_history_count q <= pp_history_count p;
  stricter_wait : pp_min_age_hours q <= pp_min_age_hours p
}.

Lemma count_violation_mono rule p q counted : q <= p -> count_violation rule p counted = [] -> count_violation rule q counted = [].
Proof.
  unfold count_violation. intros H. destruct (Z.ltb_spec 0 p), (Z.ltb_spec counted p); cbn; try done; intros _;
    destruct (Z.ltb_spec 0 q), (Z.ltb_spec counted q); cbn; (done || lia).
Qed.

(** What a stricter policy lets through a looser one does. *)
Lemma stricter_passes p q password context : stricter p q ->
  LocalPasswordViolations p password context = [] -> LocalPasswordViolations q password context = [].
Proof.
  intros H. unfold LocalPasswordViolations.
  rewrite !app_nil. intros (H1 & H2 & H3 & H4 & H5 & H6 & H7 & H8).
  split; [|split; [|split; [|split; [|split; [|split; [|split]]]]]]; try (eapply count_violation_mono; [|eassumption]; by apply H).
  - pose proof (stricter_length _ _ H). destruct (Z.ltb_spec (RuneCountInString (NormalisePassword password)) (minimum_length p)); [done|].
    destruct (Z.ltb_spec (RuneCountInString (NormalisePassword password)) (minimum_length q)); [lia|done].
  - destruct (stricter_repeat _ _ H) as [Hq|[Hp Hpq]].
    + by destruct (Z.ltb_spec 0 (pp_max_repeat q)); [lia|].
    + destruct (Z.ltb_spec 0 (pp_max_repeat p)); [|lia]. cbn in H7.
      destruct (Z.ltb_spec (pp_max_repeat p) (LongestRun (NormalisePassword password))); [done|].
      destruct (Z.ltb_spec (pp_max_repeat q) (LongestRun (NormalisePassword password))); [lia|]. by rewrite andb_false_r.
  - destruct (pp_context_words q) eqn:E; [|done]. by rewrite (stricter_context _ _ H E) in H8.
Qed.

(** ** Counting *)

Lemma count_runes characters : forall c,
  let counted := fold_left count_rune characters c in
  pc_lowercase counted + pc_uppercase counted + pc_digits counted + pc_symbols counted =
    pc_lowercase c + pc_uppercase c + pc_digits c + pc_symbols c + Z.of_nat (List.length characters) /\
  pc_lowercase c <= pc_lowercase counted /\ pc_uppercase c <= pc_uppercase counted /\
  pc_digits c <= pc_digits counted /\ pc_symbols c <= pc_symbols counted.
Proof.
  induction characters as [|x rest IH]; intros [l u n s k]; cbn [fold_left List.length]; [cbn; lia|].
  specialize (IH (count_rune (mkClasses l u n s k) x)). cbv zeta in *. set (counted := fold_left _ rest _) in *.
  clearbody counted. unfold count_rune in IH.
  destruct (Ll x), (Lu x), (Nd x); cbn [pc_lowercase pc_uppercase pc_digits pc_symbols] in *; lia.
Qed.

Lemma classes_of_counts password : let counted := ClassesOf password in
  0 <= pc_lowercase counted /\ 0 <= pc_uppercase counted /\ 0 <= pc_digits counted /\ 0 <= pc_symbols counted /\
  pc_lowercase counted + pc_uppercase counted + pc_digits counted + pc_symbols counted = RuneCountInString (NormalisePassword password).
Proof.
  pose proof (count_runes (runes (NormalisePassword password)) (mkClasses 0 0 0 0 0)) as H. unfold ClassesOf, RuneCountInString.
  cbv zeta in *. cbn [pc_lowercase pc_uppercase pc_digits pc_symbols] in *. lia.
Qed.

(** A policy that asks for more characters of the kinds than may be typed at all
    is one nobody meets. *)
Lemma nobody_meets policy password context : (forall form, nfkc = Some form -> forall s, form (form s) = form s) ->
  MaxPasswordLength < Z.max 0 (pp_min_lowercase policy) + Z.max 0 (pp_min_uppercase policy) + Z.max 0 (pp_min_digits policy) + Z.max 0 (pp_min_symbols policy) ->
  CheckPasswordAgainst policy password context <> Ok tt.
Proof.
  intros Hform Hmany. unfold CheckPasswordAgainst. destruct (Z.ltb_spec MaxPasswordLength (RuneCountInString (NormalisePassword password))) as [|Hle]; [done|].
  destruct (LocalPasswordViolations policy password context) as [|v vs] eqn:E; [|done]. exfalso. unfold LocalPasswordViolations in E.
  rewrite !app_nil in E. destruct E as (_ & H2 & H3 & H4 & H5 & _).
  destruct (classes_of_counts (NormalisePassword password)) as (B1 & B2 & B3 & B4 & Hsum).
  assert (Hi : NormalisePassword (NormalisePassword password) = NormalisePassword password).
  { unfold NormalisePassword. destruct nfkc as [form|] eqn:Ef; [by apply Hform|done]. }
  rewrite Hi in Hsum. unfold count_violation in H2, H3, H4, H5.
  repeat match goal with H : (if (0 <? ?r) && (?c <? ?r) then _ else _) = [] |- _ =>
    destruct (Z.ltb_spec 0 r), (Z.ltb_spec c r); cbn in H; try done; clear H end; lia.
Qed.
End rules.
