(* ===== verification/SignInPolicy.v ===== *)
(** * The sign-in rule: switches, levels, locks

    Models core/domain/model/identity/SignInPolicy.go - the switches, the patches
    of a level, the resolution of the levels and what a workspace's save may
    change - with SignInSettings.go, which makes each switch an entry of the
    settings catalogue, the declarations of ValueDeclaration.go, and of
    application/service/identity/WorkspacePolicy.go the sign-in half of a save.
    A patch's nil pointer is [None]. *)

From Stdlib Require Import ZArith Lia String Ascii List Bool.
From stdpp Require Import base option list strings gmap.
From S2P Require Import Prelude Shared Text Civil Session Setting Password.

Open Scope string_scope.
Open Scope list_scope.
Open Scope Z_scope.

Definition FloorMinLength : Z := 8.
Definition CeilingMinLength : Z := 128.
Definition CeilingHistoryCount : Z := 10.
Definition CeilingSessionMaxDays : Z := 30.
Definition CeilingMinAgeHours : Z := 24.
Definition FloorMaxAgeDays : Z := 1.

(** Go's string, which may be none of the three. *)
Abbreviation MfaRequirement := string (only parsing).
Definition MfaForNobody : MfaRequirement := "NONE".
Definition MfaForAdmins : MfaRequirement := "ADMINS".
Definition MfaForEveryone : MfaRequirement := "EVERYONE".

Definition rank (r : MfaRequirement) : Z :=
  if String.eqb r MfaForEveryone then 2 else if String.eqb r MfaForAdmins then 1 else 0.
Definition mfa_valid (r : MfaRequirement) : bool :=
  String.eqb r MfaForNobody || String.eqb r MfaForAdmins || String.eqb r MfaForEveryone.
Definition CoversAdmins (r : MfaRequirement) : bool := rank MfaForAdmins <=? rank r.

Definition RequirementForAdminFlag (flag : bool) (inForce : MfaRequirement) : MfaRequirement * bool :=
  if flag && CoversAdmins inForce then (inForce, false)
  else if flag then (MfaForAdmins, true)
  else if String.eqb inForce MfaForNobody then (MfaForNobody, false)
  else (MfaForNobody, true).

Definition MethodDirect : string := "PASSWORD".
Definition MethodOidc : string := "OIDC".
Definition MethodPasskey : string := "PASSKEY".
Definition methodOrder : list string := [MethodDirect; MethodOidc; MethodPasskey].

Definition KeepsAWayIn (methods : list string) : bool := contains methods MethodDirect || contains methods MethodOidc.

Record SignInPolicy := mkSignInPolicy {
  si_password : PasswordPolicy;
  si_mfa_required_for : MfaRequirement;
  si_methods : list string;
  si_sessions : SessionPolicy;
  si_managed_accounts : bool;
  si_private_hubs : bool;
  si_rotation_from : Time
}.

Definition DefaultSignInPolicy : SignInPolicy :=
  mkSignInPolicy (mkPasswordPolicy MinPasswordLength 0 0 0 0 0 0 true true false 0 0 0)
    MfaForNobody [MethodDirect; MethodOidc; MethodPasskey] (mkPolicy CeilingSessionMaxDays 0) true true zero_time.

(** ** The switches *)

Inductive PolicySwitch : Type :=
  | SwitchMinLength
  | SwitchMinLowercase
  | SwitchMinUppercase
  | SwitchMinDigits
  | SwitchMinSymbols
  | SwitchMinClasses
  | SwitchMaxRepeat
  | SwitchCommonPasswords
  | SwitchContextWords
  | SwitchBreachCheck
  | SwitchMaxAgeDays
  | SwitchHistoryCount
  | SwitchMinAgeHours
  | SwitchMfaRequiredFor
  | SwitchMethods
  | SwitchSessionMaxDays
  | SwitchSessionIdleMinutes
  | SwitchManagedAccounts
  | SwitchPrivateHubs
  | SwitchRotationFrom.

#[export] Instance switch_eq_dec : EqDecision PolicySwitch.
Proof. solve_decision. Defined.

Definition switch_text (name : PolicySwitch) : string :=
  match name with
  | SwitchMinLength => "min_length"
  | SwitchMinLowercase => "min_lowercase"
  | SwitchMinUppercase => "min_uppercase"
  | SwitchMinDigits => "min_digits"
  | SwitchMinSymbols => "min_symbols"
  | SwitchMinClasses => "min_classes"
  | SwitchMaxRepeat => "max_repeat"
  | SwitchCommonPasswords => "common_passwords"
  | SwitchContextWords => "context_words"
  | SwitchBreachCheck => "breach_check"
  | SwitchMaxAgeDays => "max_age_days"
  | SwitchHistoryCount => "history_count"
  | SwitchMinAgeHours => "min_age_hours"
  | SwitchMfaRequiredFor => "mfa_required_for"
  | SwitchMethods => "methods"
  | SwitchSessionMaxDays => "session_max_days"
  | SwitchSessionIdleMinutes => "session_idle_minutes"
  | SwitchManagedAccounts => "managed_accounts"
  | SwitchPrivateHubs => "private_hubs"
  | SwitchRotationFrom => "rotation_from"
  end.

Definition PolicySwitches : list PolicySwitch :=
  [SwitchMinLength; SwitchMinLowercase; SwitchMinUppercase; SwitchMinDigits; SwitchMinSymbols; SwitchMinClasses; SwitchMaxRepeat; SwitchCommonPasswords; SwitchContextWords; SwitchBreachCheck; SwitchMaxAgeDays; SwitchHistoryCount; SwitchMinAgeHours; SwitchMfaRequiredFor; SwitchMethods; SwitchSessionMaxDays; SwitchSessionIdleMinutes; SwitchManagedAccounts; SwitchPrivateHubs; SwitchRotationFrom].

Definition switch_of (text : string) : option PolicySwitch :=
  List.find (fun name => String.eqb (switch_text name) text) PolicySwitches.
#[export] Instance switch_countable : Countable PolicySwitch.
Proof. refine (inj_countable switch_text switch_of _). by intros []. Defined.

Definition LockNone : string := "".

(** ** Patches *)

Record PolicyPatch := mkPatch {
  pt_min_length : option (Z);
  pt_min_lowercase : option (Z);
  pt_min_uppercase : option (Z);
  pt_min_digits : option (Z);
  pt_min_symbols : option (Z);
  pt_min_classes : option (Z);
  pt_max_repeat : option (Z);
  pt_common_passwords : option (bool);
  pt_context_words : option (bool);
  pt_breach_check : option (bool);
  pt_max_age_days : option (Z);
  pt_history_count : option (Z);
  pt_min_age_hours : option (Z);
  pt_mfa_required_for : option (MfaRequirement);
  pt_methods : option (list string);
  pt_session_max_days : option (Z);
  pt_session_idle_minutes : option (Z);
  pt_managed_accounts : option (bool);
  pt_private_hubs : option (bool);
  pt_rotation_from : option (Time)
}.

Definition empty_patch : PolicyPatch :=
  mkPatch None None None None None None None None None None None None None None None None None None None None.

Definition is_some {A} (o : option A) : bool := match o with Some _ => true | None => false end.

Definition carries (p : PolicyPatch) (name : PolicySwitch) : bool :=
  match name with
  | SwitchMinLength => is_some (pt_min_length p)
  | SwitchMinLowercase => is_some (pt_min_lowercase p)
  | SwitchMinUppercase => is_some (pt_min_uppercase p)
  | SwitchMinDigits => is_some (pt_min_digits p)
  | SwitchMinSymbols => is_some (pt_min_symbols p)
  | SwitchMinClasses => is_some (pt_min_classes p)
  | SwitchMaxRepeat => is_some (pt_max_repeat p)
  | SwitchCommonPasswords => is_some (pt_common_passwords p)
  | SwitchContextWords => is_some (pt_context_words p)
  | SwitchBreachCheck => is_some (pt_breach_check p)
  | SwitchMaxAgeDays => is_some (pt_max_age_days p)
  | SwitchHistoryCount => is_some (pt_history_count p)
  | SwitchMinAgeHours => is_some (pt_min_age_hours p)
  | SwitchMfaRequiredFor => is_some (pt_mfa_required_for p)
  | SwitchMethods => is_some (pt_methods p)
  | SwitchSessionMaxDays => is_some (pt_session_max_days p)
  | SwitchSessionIdleMinutes => is_some (pt_session_idle_minutes p)
  | SwitchManagedAccounts => is_some (pt_managed_accounts p)
  | SwitchPrivateHubs => is_some (pt_private_hubs p)
  | SwitchRotationFrom => is_some (pt_rotation_from p)
  end.

Definition Decides (p : PolicyPatch) (name : PolicySwitch) : bool := carries p name.
Definition Decided (p : PolicyPatch) : list PolicySwitch := List.filter (carries p) PolicySwitches.
Definition IsEmpty (p : PolicyPatch) : bool := match Decided p with [] => true | _ => false end.

(** One switch's decision copied from another patch. *)
Definition take_switch (p : PolicyPatch) (name : PolicySwitch) (other : PolicyPatch) : PolicyPatch :=
  let f {A} (field : PolicyPatch -> option A) (here : PolicySwitch) : option A :=
    if bool_decide (name = here) then field other else field p in
  mkPatch
    (f pt_min_length SwitchMinLength)
    (f pt_min_lowercase SwitchMinLowercase)
    (f pt_min_uppercase SwitchMinUppercase)
    (f pt_min_digits SwitchMinDigits)
    (f pt_min_symbols SwitchMinSymbols)
    (f pt_min_classes SwitchMinClasses)
    (f pt_max_repeat SwitchMaxRepeat)
    (f pt_common_passwords SwitchCommonPasswords)
    (f pt_context_words SwitchContextWords)
    (f pt_breach_check SwitchBreachCheck)
    (f pt_max_age_days SwitchMaxAgeDays)
    (f pt_history_count SwitchHistoryCount)
    (f pt_min_age_hours SwitchMinAgeHours)
    (f pt_mfa_required_for SwitchMfaRequiredFor)
    (f pt_methods SwitchMethods)
    (f pt_session_max_days SwitchSessionMaxDays)
    (f pt_session_idle_minutes SwitchSessionIdleMinutes)
    (f pt_managed_accounts SwitchManagedAccounts)
    (f pt_private_hubs SwitchPrivateHubs)
    (f pt_rotation_from SwitchRotationFrom).

Definition Merge (p other : PolicyPatch) : PolicyPatch :=
  fold_left (fun merged name => take_switch merged name other) (Decided other) p.

Definition Only (p : PolicyPatch) (name : PolicySwitch) : PolicyPatch := take_switch empty_patch name p.

(** ** Values in force

    The source reads a patch's pointer where the switch is decided, which its
    callers have asked; [applySwitch] leaves the policy where it is not. *)

Definition with_password (p : SignInPolicy) (w : PasswordPolicy) : SignInPolicy :=
  mkSignInPolicy w (si_mfa_required_for p) (si_methods p) (si_sessions p) (si_managed_accounts p) (si_private_hubs p) (si_rotation_from p).
Definition with_sessions_policy (p : SignInPolicy) (s : SessionPolicy) : SignInPolicy :=
  mkSignInPolicy (si_password p) (si_mfa_required_for p) (si_methods p) s (si_managed_accounts p) (si_private_hubs p) (si_rotation_from p).

Definition applySwitch (policy : SignInPolicy) (name : PolicySwitch) (patch : PolicyPatch) : SignInPolicy :=
  let w := si_password policy in
  let f {A} (value : option A) (set : A -> SignInPolicy) : SignInPolicy :=
    match value with Some v => set v | None => policy end in
  match name with
  | SwitchMinLength => f (pt_min_length patch) (fun v => with_password policy (mkPasswordPolicy v (pp_min_lowercase w) (pp_min_uppercase w) (pp_min_digits w) (pp_min_symbols w) (pp_min_classes w) (pp_max_repeat w) (pp_common_passwords w) (pp_context_words w) (pp_breach_check w) (pp_max_age_days w) (pp_history_count w) (pp_min_age_hours w)))
  | SwitchMinLowercase => f (pt_min_lowercase patch) (fun v => with_password policy (mkPasswordPolicy (pp_min_length w) v (pp_min_uppercase w) (pp_min_digits w) (pp_min_symbols w) (pp_min_classes w) (pp_max_repeat w) (pp_common_passwords w) (pp_context_words w) (pp_breach_check w) (pp_max_age_days w) (pp_history_count w) (pp_min_age_hours w)))
  | SwitchMinUppercase => f (pt_min_uppercase patch) (fun v => with_password policy (mkPasswordPolicy (pp_min_length w) (pp_min_lowercase w) v (pp_min_digits w) (pp_min_symbols w) (pp_min_classes w) (pp_max_repeat w) (pp_common_passwords w) (pp_context_words w) (pp_breach_check w) (pp_max_age_days w) (pp_history_count w) (pp_min_age_hours w)))
  | SwitchMinDigits => f (pt_min_digits patch) (fun v => with_password policy (mkPasswordPolicy (pp_min_length w) (pp_min_lowercase w) (pp_min_uppercase w) v (pp_min_symbols w) (pp_min_classes w) (pp_max_repeat w) (pp_common_passwords w) (pp_context_words w) (pp_breach_check w) (pp_max_age_days w) (pp_history_count w) (pp_min_age_hours w)))
  | SwitchMinSymbols => f (pt_min_symbols patch) (fun v => with_password policy (mkPasswordPolicy (pp_min_length w) (pp_min_lowercase w) (pp_min_uppercase w) (pp_min_digits w) v (pp_min_classes w) (pp_max_repeat w) (pp_common_passwords w) (pp_context_words w) (pp_breach_check w) (pp_max_age_days w) (pp_history_count w) (pp_min_age_hours w)))
  | SwitchMinClasses => f (pt_min_classes patch) (fun v => with_password policy (mkPasswordPolicy (pp_min_length w) (pp_min_lowercase w) (pp_min_uppercase w) (pp_min_digits w) (pp_min_symbols w) v (pp_max_repeat w) (pp_common_passwords w) (pp_context_words w) (pp_breach_check w) (pp_max_age_days w) (pp_history_count w) (pp_min_age_hours w)))
  | SwitchMaxRepeat => f (pt_max_repeat patch) (fun v => with_password policy (mkPasswordPolicy (pp_min_length w) (pp_min_lowercase w) (pp_min_uppercase w) (pp_min_digits w) (pp_min_symbols w) (pp_min_classes w) v (pp_common_passwords w) (pp_context_words w) (pp_breach_check w) (pp_max_age_days w) (pp_history_count w) (pp_min_age_hours w)))
  | SwitchCommonPasswords => f (pt_common_passwords patch) (fun v => with_password policy (mkPasswordPolicy (pp_min_length w) (pp_min_lowercase w) (pp_min_uppercase w) (pp_min_digits w) (pp_min_symbols w) (pp_min_classes w) (pp_max_repeat w) v (pp_context_words w) (pp_breach_check w) (pp_max_age_days w) (pp_history_count w) (pp_min_age_hours w)))
  | SwitchContextWords => f (pt_context_words patch) (fun v => with_password policy (mkPasswordPolicy (pp_min_length w) (pp_min_lowercase w) (pp_min_uppercase w) (pp_min_digits w) (pp_min_symbols w) (pp_min_classes w) (pp_max_repeat w) (pp_common_passwords w) v (pp_breach_check w) (pp_max_age_days w) (pp_history_count w) (pp_min_age_hours w)))
  | SwitchBreachCheck => f (pt_breach_check patch) (fun v => with_password policy (mkPasswordPolicy (pp_min_length w) (pp_min_lowercase w) (pp_min_uppercase w) (pp_min_digits w) (pp_min_symbols w) (pp_min_classes w) (pp_max_repeat w) (pp_common_passwords w) (pp_context_words w) v (pp_max_age_days w) (pp_history_count w) (pp_min_age_hours w)))
  | SwitchMaxAgeDays => f (pt_max_age_days patch) (fun v => with_password policy (mkPasswordPolicy (pp_min_length w) (pp_min_lowercase w) (pp_min_uppercase w) (pp_min_digits w) (pp_min_symbols w) (pp_min_classes w) (pp_max_repeat w) (pp_common_passwords w) (pp_context_words w) (pp_breach_check w) v (pp_history_count w) (pp_min_age_hours w)))
  | SwitchHistoryCount => f (pt_history_count patch) (fun v => with_password policy (mkPasswordPolicy (pp_min_length w) (pp_min_lowercase w) (pp_min_uppercase w) (pp_min_digits w) (pp_min_symbols w) (pp_min_classes w) (pp_max_repeat w) (pp_common_passwords w) (pp_context_words w) (pp_breach_check w) (pp_max_age_days w) v (pp_min_age_hours w)))
  | SwitchMinAgeHours => f (pt_min_age_hours patch) (fun v => with_password policy (mkPasswordPolicy (pp_min_length w) (pp_min_lowercase w) (pp_min_uppercase w) (pp_min_digits w) (pp_min_symbols w) (pp_min_classes w) (pp_max_repeat w) (pp_common_passwords w) (pp_context_words w) (pp_breach_check w) (pp_max_age_days w) (pp_history_count w) v))
  | SwitchMfaRequiredFor => f (pt_mfa_required_for patch) (fun v => mkSignInPolicy w v (si_methods policy) (si_sessions policy) (si_managed_accounts policy) (si_private_hubs policy) (si_rotation_from policy))
  | SwitchMethods => f (pt_methods patch) (fun v => mkSignInPolicy w (si_mfa_required_for policy) v (si_sessions policy) (si_managed_accounts policy) (si_private_hubs policy) (si_rotation_from policy))
  | SwitchSessionMaxDays => f (pt_session_max_days patch) (fun v => with_sessions_policy policy (mkPolicy v (sp_idle_minutes (si_sessions policy))))
  | SwitchSessionIdleMinutes => f (pt_session_idle_minutes patch) (fun v => with_sessions_policy policy (mkPolicy (sp_max_days (si_sessions policy)) v))
  | SwitchManagedAccounts => f (pt_managed_accounts patch) (fun v => mkSignInPolicy w (si_mfa_required_for policy) (si_methods policy) (si_sessions policy) v (si_private_hubs policy) (si_rotation_from policy))
  | SwitchPrivateHubs => f (pt_private_hubs patch) (fun v => mkSignInPolicy w (si_mfa_required_for policy) (si_methods policy) (si_sessions policy) (si_managed_accounts policy) v (si_rotation_from policy))
  | SwitchRotationFrom => f (pt_rotation_from patch) (fun v => mkSignInPolicy w (si_mfa_required_for policy) (si_methods policy) (si_sessions policy) (si_managed_accounts policy) (si_private_hubs policy) v)
  end.

Definition clamp (value low high : Z) : Z := if value <? low then low else if high <? value then high else value.
Definition atLeast (value low : Z) : Z := if value <? low then low else value.

Definition boundedMethods (methods : list string) : list string :=
  let kept := List.filter (contains methods) methodOrder in
  if negb (KeepsAWayIn kept) then si_methods DefaultSignInPolicy else kept.

Definition bounded (policy : SignInPolicy) : SignInPolicy :=
  let w := si_password policy in
  mkSignInPolicy
    (mkPasswordPolicy (clamp (pp_min_length w) FloorMinLength CeilingMinLength) (atLeast (pp_min_lowercase w) 0)
       (atLeast (pp_min_uppercase w) 0) (atLeast (pp_min_digits w) 0) (atLeast (pp_min_symbols w) 0)
       (clamp (pp_min_classes w) 0 4) (atLeast (pp_max_repeat w) 0) (pp_common_passwords w) (pp_context_words w)
       (pp_breach_check w) (if 0 <? pp_max_age_days w then atLeast (pp_max_age_days w) FloorMaxAgeDays else 0)
       (clamp (pp_history_count w) 0 CeilingHistoryCount) (clamp (pp_min_age_hours w) 0 CeilingMinAgeHours))
    (if negb (mfa_valid (si_mfa_required_for policy)) then MfaForNobody else si_mfa_required_for policy)
    (boundedMethods (si_methods policy))
    (mkPolicy (clamp (sp_max_days (si_sessions policy)) 1 CeilingSessionMaxDays) (atLeast (sp_idle_minutes (si_sessions policy)) 0))
    (si_managed_accounts policy) (si_private_hubs policy) (si_rotation_from policy).

Definition boolText (b : bool) : string := if b then "true" else "false".
Definition joinComma (values : list string) : string := String.concat "," values.

Definition SwitchText (policy : SignInPolicy) (name : PolicySwitch) : string :=
  let w := si_password policy in
  match name with
  | SwitchMinLength => group_itoa (pp_min_length w)
  | SwitchMinLowercase => group_itoa (pp_min_lowercase w)
  | SwitchMinUppercase => group_itoa (pp_min_uppercase w)
  | SwitchMinDigits => group_itoa (pp_min_digits w)
  | SwitchMinSymbols => group_itoa (pp_min_symbols w)
  | SwitchMinClasses => group_itoa (pp_min_classes w)
  | SwitchMaxRepeat => group_itoa (pp_max_repeat w)
  | SwitchCommonPasswords => boolText (pp_common_passwords w)
  | SwitchContextWords => boolText (pp_context_words w)
  | SwitchBreachCheck => boolText (pp_breach_check w)
  | SwitchMaxAgeDays => group_itoa (pp_max_age_days w)
  | SwitchHistoryCount => group_itoa (pp_history_count w)
  | SwitchMinAgeHours => group_itoa (pp_min_age_hours w)
  | SwitchMfaRequiredFor => si_mfa_required_for policy
  | SwitchMethods => joinComma (sort_by String.compare (si_methods policy))
  | SwitchSessionMaxDays => group_itoa (sp_max_days (si_sessions policy))
  | SwitchSessionIdleMinutes => group_itoa (sp_idle_minutes (si_sessions policy))
  | SwitchManagedAccounts => boolText (si_managed_accounts policy)
  | SwitchPrivateHubs => boolText (si_private_hubs policy)
  | SwitchRotationFrom => if time_is_zero (si_rotation_from policy) then "" else format_rfc3339 (si_rotation_from policy)
  end.

(** A refusal at a switch. *)
Definition at_switch (name : PolicySwitch) (code : string) : Error :=
  field_refused ErrValidation ("/sign_in_policy/" +:+ switch_text name) code [("switch", switch_text name)].

Definition withinBounds (name : PolicySwitch) (proposed : SignInPolicy) : res unit :=
  if bool_decide (name = SwitchMethods) then Ok tt
  else if String.eqb (SwitchText (bounded proposed) name) (SwitchText proposed name) then Ok tt
  else Err (at_switch name "auth.policy_out_of_bounds").

Definition offOrLower (proposed inForce : Z) : bool :=
  if inForce =? 0 then true else (0 <? proposed) && (proposed <=? inForce).

Definition isSubset (proposed inForce : list string) : bool :=
  match inForce with
  | [] => true
  | _ => forallb (contains inForce) proposed && match proposed with [] => false | _ => true end
  end.

(** The direction of every switch; [None] is a pointer no caller hands over. *)
Definition tightens (name : PolicySwitch) (inForce : SignInPolicy) (proposed : PolicyPatch) : bool :=
  let w := si_password inForce in
  let f {A} (value : option A) (ok : A -> bool) : bool := match value with Some v => ok v | None => false end in
  match name with
  | SwitchMinLength => f (pt_min_length proposed) (fun v => pp_min_length w <=? v)
  | SwitchMinLowercase => f (pt_min_lowercase proposed) (fun v => pp_min_lowercase w <=? v)
  | SwitchMinUppercase => f (pt_min_uppercase proposed) (fun v => pp_min_uppercase w <=? v)
  | SwitchMinDigits => f (pt_min_digits proposed) (fun v => pp_min_digits w <=? v)
  | SwitchMinSymbols => f (pt_min_symbols proposed) (fun v => pp_min_symbols w <=? v)
  | SwitchMinClasses => f (pt_min_classes proposed) (fun v => pp_min_classes w <=? v)
  | SwitchMaxRepeat => f (pt_max_repeat proposed) (fun v => offOrLower v (pp_max_repeat w))
  | SwitchCommonPasswords => f (pt_common_passwords proposed) (fun v => v || negb (pp_common_passwords w))
  | SwitchContextWords => f (pt_context_words proposed) (fun v => v || negb (pp_context_words w))
  | SwitchBreachCheck => f (pt_breach_check proposed) (fun v => v || negb (pp_breach_check w))
  | SwitchMaxAgeDays => f (pt_max_age_days proposed) (fun v => offOrLower v (pp_max_age_days w))
  | SwitchHistoryCount => f (pt_history_count proposed) (fun v => pp_history_count w <=? v)
  | SwitchMinAgeHours => f (pt_min_age_hours proposed) (fun v => pp_min_age_hours w <=? v)
  | SwitchMfaRequiredFor => f (pt_mfa_required_for proposed) (fun v => rank (si_mfa_required_for inForce) <=? rank v)
  | SwitchMethods => f (pt_methods proposed) (fun v => isSubset v (si_methods inForce))
  | SwitchSessionMaxDays => f (pt_session_max_days proposed) (fun v => (v <=? sp_max_days (si_sessions inForce)) && (1 <=? v))
  | SwitchSessionIdleMinutes => f (pt_session_idle_minutes proposed) (fun v => offOrLower v (sp_idle_minutes (si_sessions inForce)))
  | SwitchManagedAccounts => f (pt_managed_accounts proposed) (fun v => negb v || si_managed_accounts inForce)
  | SwitchPrivateHubs => f (pt_private_hubs proposed) (fun v => negb v || si_private_hubs inForce)
  | SwitchRotationFrom => f (pt_rotation_from proposed) (fun v => negb (v <? si_rotation_from inForce))
  end.

Definition Tighten (name : PolicySwitch) (inForce : SignInPolicy) (proposed : PolicyPatch) : res unit :=
  if negb (carries proposed name) then Ok tt
  else if tightens name inForce proposed then Ok tt
  else Err (at_switch name "auth.policy_loosens").


(** ** SignInSettings.go: the switches as entries of the catalogue *)

Definition SettingArea : string := "sign_in".
Definition SwitchKey (name : PolicySwitch) : string := SettingArea +:+ "." +:+ switch_text name.

Record ValueDeclaration := mkDeclaration {
  vd_kind : string; vd_options : list string; vd_minimum : option Z; vd_maximum : option Z; vd_may : string; vd_one_of : list string
}.

Definition count_declaration (minimum : Z) (maximum : option Z) : ValueDeclaration :=
  mkDeclaration "COUNT" [] (Some minimum) maximum MayTighten [].

Definition DeclarationOfSwitch (name : PolicySwitch) : option ValueDeclaration :=
  match name with
  | SwitchMinLength => Some (count_declaration FloorMinLength (Some CeilingMinLength))
  | SwitchMinLowercase | SwitchMinUppercase | SwitchMinDigits | SwitchMinSymbols
  | SwitchMaxRepeat | SwitchSessionIdleMinutes | SwitchMaxAgeDays => Some (count_declaration 0 None)
  | SwitchMinClasses => Some (count_declaration 0 (Some 4))
  | SwitchHistoryCount => Some (count_declaration 0 (Some CeilingHistoryCount))
  | SwitchMinAgeHours => Some (count_declaration 0 (Some CeilingMinAgeHours))
  | SwitchSessionMaxDays => Some (count_declaration 1 (Some CeilingSessionMaxDays))
  | SwitchCommonPasswords | SwitchContextWords | SwitchBreachCheck | SwitchManagedAccounts | SwitchPrivateHubs =>
      Some (mkDeclaration "FLAG" [] None None MayTighten [])
  | SwitchMfaRequiredFor => Some (mkDeclaration "CHOICE" [MfaForNobody; MfaForAdmins; MfaForEveryone] None None MayTighten [])
  | SwitchMethods => Some (mkDeclaration "CHOICES" [MethodDirect; MethodOidc; MethodPasskey] None None MayTighten [MethodDirect; MethodOidc])
  | SwitchRotationFrom => None
  end.

(** What a value of the catalogue says to a switch's own comparison. *)
Definition switch_tightens (name : PolicySwitch) (inForce : option (value PolicyPatch)) (proposed : value PolicyPatch) : bool :=
  match proposed with
  | Carried patch =>
      if negb (Decides patch name) then false
      else
        let policy := match inForce with
                      | Some (Carried above) => applySwitch DefaultSignInPolicy name above
                      | _ => DefaultSignInPolicy
                      end in
        tightens name policy patch
  | _ => false
  end.

Definition SwitchDefinition (name : PolicySwitch) : Setting PolicyPatch :=
  let declaration := default (mkDeclaration "STRUCTURE" [] None None "" []) (DeclarationOfSwitch name) in
  mkSetting (SwitchKey name) (vd_kind declaration) (vd_options declaration) (vd_minimum declaration) (vd_maximum declaration)
    [LevelInstance; LevelPlan; LevelWorkspace] true false MayTighten
    [(LevelInstance, "admin:instance"); (LevelPlan, "admin:instance"); (LevelWorkspace, "MANAGE_MEMBERS")] "" None
    (Some (switch_tightens name)) "".

Record PolicyLayer := mkPolicyLayer { py_patch : PolicyPatch; py_locks : gmap PolicySwitch bool }.
Definition empty_layer : PolicyLayer := mkPolicyLayer empty_patch ∅.

Definition add_decision (layer : PolicyLayer) (entries : gmap string (Entry PolicyPatch)) (name : PolicySwitch) :
  gmap string (Entry PolicyPatch) :=
  <[SwitchKey name := mkEntry (Some (Carried (Only (py_patch layer) name))) HoldSet open_allowed ""]> entries.

Definition is_locked_in (layer : PolicyLayer) (name : PolicySwitch) : bool := default false (py_locks layer !! name).

Definition add_lock (entries : gmap string (Entry PolicyPatch)) (name : PolicySwitch) : gmap string (Entry PolicyPatch) :=
  let entry := default zero_entry (entries !! SwitchKey name) in
  <[SwitchKey name := mkEntry (en_value entry) HoldLock (en_allowed entry) (en_by entry)]> entries.

(** The source walks the locks in a map's order; every lock has a key of its own. *)
Definition policyLayerAt (level : Level) (layer : PolicyLayer) (locks : bool) : Layer PolicyPatch :=
  let entries := fold_left (add_decision layer) (Decided (py_patch layer)) ∅ in
  mkLayer level (if locks then fold_left add_lock (List.filter (is_locked_in layer) PolicySwitches) entries else entries).

(** ** The levels resolved *)

Record EffectivePolicy := mkEffective {
  ef_policy : SignInPolicy; ef_locks : gmap PolicySwitch string; ef_sources : gmap PolicySwitch string
}.

Definition LockOf (e : EffectivePolicy) (name : PolicySwitch) : string := default LockNone (ef_locks e !! name).
Definition SourceOf (e : EffectivePolicy) (name : PolicySwitch) : string := default LevelDefault (ef_sources e !! name).
Definition IsLocked (e : EffectivePolicy) (name : PolicySwitch) : bool := negb (String.eqb (LockOf e name) LockNone).
Definition ProvidersLockedIn (e : EffectivePolicy) : bool :=
  IsLocked e SwitchMethods && contains (si_methods (ef_policy e)) MethodOidc.

Definition policy_layers (instance plan workspace : PolicyLayer) : list (Layer PolicyPatch) :=
  [policyLayerAt LevelInstance instance true; policyLayerAt LevelPlan plan true; policyLayerAt LevelWorkspace workspace false].

Definition resolve_switch (layers : list (Layer PolicyPatch)) (e : EffectivePolicy) (name : PolicySwitch) : EffectivePolicy :=
  let resolution := Resolve (SwitchDefinition name) layers in
  let decided :=
    match re_effective resolution with
    | Some (Carried only) => if String.eqb (re_source resolution) LevelDefault then None else Some only
    | _ => None
    end in
  mkEffective
    (match decided with Some only => applySwitch (ef_policy e) name only | None => ef_policy e end)
    (if Locked resolution then <[name := re_locked_by resolution]> (ef_locks e) else ef_locks e)
    (match decided with Some _ => <[name := re_source resolution]> (ef_sources e) | None => ef_sources e end).

Definition resolved_switches (layers : list (Layer PolicyPatch)) : EffectivePolicy :=
  fold_left (resolve_switch layers) PolicySwitches (mkEffective DefaultSignInPolicy ∅ ∅).

Definition Effective (instance plan workspace : PolicyLayer) : EffectivePolicy :=
  let resolved := resolved_switches (policy_layers instance plan workspace) in
  mkEffective (bounded (ef_policy resolved)) (ef_locks resolved) (ef_sources resolved).


(** ** The levels, switch by switch *)

Lemma switch_text_inj a b : switch_text a = switch_text b -> a = b.
Proof. intros H. apply (f_equal switch_of) in H. destruct a, b; (reflexivity || discriminate H). Qed.

Lemma key_inj a b : SwitchKey a = SwitchKey b -> a = b.
Proof. unfold SwitchKey. cbn. intros [= H]. by apply switch_text_inj. Qed.

Lemma every_switch name : name ∈ PolicySwitches.
Proof. apply list_elem_of_In. destruct name; cbn; tauto. Qed.

Lemma fold_decisions layer names : forall m name,
  fold_left (add_decision layer) names m !! SwitchKey name =
  if contains names name then Some (mkEntry (Some (Carried (Only (py_patch layer) name))) HoldSet open_allowed "") else m !! SwitchKey name.
Proof.
  induction names as [|n names IH]; intros m name; [done|]. cbn [fold_left]. rewrite IH. unfold contains. cbn [existsb].
  destruct (existsb _ names) eqn:E; [by rewrite orb_true_r|]. rewrite orb_false_r. unfold add_decision.
  case_bool_decide as Hn; [subst; by rewrite lookup_insert_eq|]. rewrite lookup_insert_ne; [done|]. intros Hk. by apply Hn, key_inj.
Qed.

Definition locked_entry (o : option (Entry PolicyPatch)) : Entry PolicyPatch :=
  let e := default zero_entry o in mkEntry (en_value e) HoldLock (en_allowed e) (en_by e).

Lemma fold_locks names : forall m name, NoDup names ->
  fold_left add_lock names m !! SwitchKey name =
  if contains names name then Some (locked_entry (m !! SwitchKey name)) else m !! SwitchKey name.
Proof.
  induction names as [|n names IH]; intros m name Hnd; [done|]. apply NoDup_cons in Hnd as [Hn Hnd]. cbn [fold_left]. rewrite IH by done.
  unfold contains. cbn [existsb]. unfold add_lock. case_bool_decide as Heq.
  - subst n. assert (E : existsb (fun y => bool_decide (y = name)) names = false).
    { apply not_true_iff_false. intros E. apply Hn. by apply (contains_in names name). }
    rewrite E, lookup_insert_eq. done.
  - rewrite lookup_insert_ne by (intros Hk; by apply Heq, key_inj). done.
Qed.

Lemma contains_filter {A} `{EqDecision A} (P : A -> bool) xs x : x ∈ xs -> contains (List.filter P xs) x = P x.
Proof.
  intros Hx. destruct (P x) eqn:E.
  - apply contains_in. by apply list_elem_of_In, filter_In; split; [apply list_elem_of_In|].
  - apply not_true_iff_false. intros H. apply contains_in, list_elem_of_In, filter_In in H as [_ H]. by rewrite E in H.
Qed.

Lemma switches_nodup : NoDup PolicySwitches.
Proof. apply (bool_decide_unpack _). by vm_compute. Qed.

(** What a level says of one switch. *)
Definition said (layer : PolicyLayer) (locks : bool) (name : PolicySwitch) : option (Entry PolicyPatch) :=
  let set := if carries (py_patch layer) name
             then Some (mkEntry (Some (Carried (Only (py_patch layer) name))) HoldSet open_allowed "") else None in
  if locks && is_locked_in layer name then Some (locked_entry set) else set.

Lemma layer_says level layer locks name : ly_entries (policyLayerAt level layer locks) !! SwitchKey name = said layer locks name.
Proof.
  unfold policyLayerAt, said. cbn [ly_entries].
  assert (Hset : fold_left (add_decision layer) (Decided (py_patch layer)) ∅ !! SwitchKey name =
    if carries (py_patch layer) name then Some (mkEntry (Some (Carried (Only (py_patch layer) name))) HoldSet open_allowed "") else None).
  { rewrite fold_decisions. unfold Decided. rewrite contains_filter by apply every_switch. rewrite lookup_empty. done. }
  destruct locks; cbn [andb]; [|exact Hset]. rewrite fold_locks.
  - rewrite contains_filter by apply every_switch. rewrite Hset. done.
  - apply NoDup_ListNoDup, List.NoDup_filter, NoDup_ListNoDup, switches_nodup.
Qed.

(** A switch taken over, where it is decided. *)
Definition put (p : SignInPolicy) (name : PolicySwitch) (o : option PolicyPatch) : SignInPolicy :=
  match o with Some only => applySwitch p name only | None => p end.

Definition decided (layers : list (Layer PolicyPatch)) (name : PolicySwitch) : option PolicyPatch :=
  match re_effective (Resolve (SwitchDefinition name) layers) with
  | Some (Carried only) => if String.eqb (re_source (Resolve (SwitchDefinition name) layers)) LevelDefault then None else Some only
  | _ => None
  end.

Definition sign_in_levels : list Level := [LevelInstance; LevelPlan; LevelWorkspace].

Lemma admits_switch name r level v : re_allowed r = open_allowed -> level ∈ sign_in_levels ->
  admits (SwitchDefinition name) level r (Carried v) =
  (if String.eqb level LevelInstance then true else switch_tightens name (re_effective r) (Carried v)).
Proof.
  intros Ho Hl. unfold admits. rewrite Ho. cbn [allows negb]. unfold heldToTighten. cbn [SwitchDefinition st_tightens st_levels st_may st_tighten_from].
  change (String.eqb MayTighten MayTighten) with true. cbn [negb orb]. by destruct (String.eqb level LevelInstance).
Qed.

(** One level's step, with what it locks left aside. *)
Definition level_value (name : PolicySwitch) (r : Resolution PolicyPatch) (level : Level) (layer : PolicyLayer) : Resolution PolicyPatch :=
  if carries (py_patch layer) name &&
     (String.eqb level LevelInstance || switch_tightens name (re_effective r) (Carried (Only (py_patch layer) name)))
  then mkResolution (re_key r) (Some (Carried (Only (py_patch layer) name))) level (re_locked_by r) (re_locked_by_person r) (re_allowed r)
  else r.

Lemma level_step name r level layer locks : level ∈ sign_in_levels -> re_allowed r = open_allowed ->
  resolve_layer (SwitchDefinition name) r (policyLayerAt level layer locks) =
  if Locked r then r
  else let r1 := level_value name r level layer in
       if locks && is_locked_in layer name
       then mkResolution (re_key r1) (re_effective r1) (re_source r1) level "" (re_allowed r1) else r1.
Proof.
  intros Hl Ho. unfold resolve_layer. change (st_key (SwitchDefinition name)) with (SwitchKey name). rewrite layer_says.
  change (ly_level (policyLayerAt level layer locks)) with level.
  assert (Hd : DecidedAt (SwitchDefinition name) level = true).
  { unfold sign_in_levels in Hl. rewrite !elem_of_cons, elem_of_nil in Hl. destruct Hl as [->|[->|[->|[]]]]; reflexivity. }
  rewrite Hd. cbn [negb]. unfold said, level_value, locked_entry.
  destruct (carries (py_patch layer) name), (locks && is_locked_in layer name), (Locked r); cbn [andb from_option id en_value en_hold en_allowed en_by zero_entry take_value]; try reflexivity;
    rewrite ?admits_switch by done;
    destruct (String.eqb level LevelInstance); cbn [orb]; try reflexivity;
    destruct (switch_tightens name (re_effective r) (Carried (Only (py_patch layer) name))); reflexivity.
Qed.

(** ** A switch's value, of a policy and of a patch *)

Inductive switch_value : Type :=
  | Amount (z : Z)
  | Flag (b : bool)
  | Word (s : string)
  | Words (l : list string).

Definition sv (p : SignInPolicy) (name : PolicySwitch) : switch_value :=
  match name with
  | SwitchMinLength => Amount (pp_min_length (si_password p))
  | SwitchMinLowercase => Amount (pp_min_lowercase (si_password p))
  | SwitchMinUppercase => Amount (pp_min_uppercase (si_password p))
  | SwitchMinDigits => Amount (pp_min_digits (si_password p))
  | SwitchMinSymbols => Amount (pp_min_symbols (si_password p))
  | SwitchMinClasses => Amount (pp_min_classes (si_password p))
  | SwitchMaxRepeat => Amount (pp_max_repeat (si_password p))
  | SwitchCommonPasswords => Flag (pp_common_passwords (si_password p))
  | SwitchContextWords => Flag (pp_context_words (si_password p))
  | SwitchBreachCheck => Flag (pp_breach_check (si_password p))
  | SwitchMaxAgeDays => Amount (pp_max_age_days (si_password p))
  | SwitchHistoryCount => Amount (pp_history_count (si_password p))
  | SwitchMinAgeHours => Amount (pp_min_age_hours (si_password p))
  | SwitchMfaRequiredFor => Word (si_mfa_required_for p)
  | SwitchMethods => Words (si_methods p)
  | SwitchSessionMaxDays => Amount (sp_max_days (si_sessions p))
  | SwitchSessionIdleMinutes => Amount (sp_idle_minutes (si_sessions p))
  | SwitchManagedAccounts => Flag (si_managed_accounts p)
  | SwitchPrivateHubs => Flag (si_private_hubs p)
  | SwitchRotationFrom => Amount (si_rotation_from p)
  end.

Definition pv (p : PolicyPatch) (name : PolicySwitch) : option switch_value :=
  match name with
  | SwitchMinLength => Amount <$> pt_min_length p
  | SwitchMinLowercase => Amount <$> pt_min_lowercase p
  | SwitchMinUppercase => Amount <$> pt_min_uppercase p
  | SwitchMinDigits => Amount <$> pt_min_digits p
  | SwitchMinSymbols => Amount <$> pt_min_symbols p
  | SwitchMinClasses => Amount <$> pt_min_classes p
  | SwitchMaxRepeat => Amount <$> pt_max_repeat p
  | SwitchCommonPasswords => Flag <$> pt_common_passwords p
  | SwitchContextWords => Flag <$> pt_context_words p
  | SwitchBreachCheck => Flag <$> pt_breach_check p
  | SwitchMaxAgeDays => Amount <$> pt_max_age_days p
  | SwitchHistoryCount => Amount <$> pt_history_count p
  | SwitchMinAgeHours => Amount <$> pt_min_age_hours p
  | SwitchMfaRequiredFor => Word <$> pt_mfa_required_for p
  | SwitchMethods => Words <$> pt_methods p
  | SwitchSessionMaxDays => Amount <$> pt_session_max_days p
  | SwitchSessionIdleMinutes => Amount <$> pt_session_idle_minutes p
  | SwitchManagedAccounts => Flag <$> pt_managed_accounts p
  | SwitchPrivateHubs => Flag <$> pt_private_hubs p
  | SwitchRotationFrom => Amount <$> pt_rotation_from p
  end.

(** A policy read as a patch that decides everything. *)
Definition whole (p : SignInPolicy) : PolicyPatch :=
  mkPatch
    (Some (pp_min_length (si_password p))) (Some (pp_min_lowercase (si_password p))) (Some (pp_min_uppercase (si_password p))) (Some (pp_min_digits (si_password p)))
    (Some (pp_min_symbols (si_password p))) (Some (pp_min_classes (si_password p))) (Some (pp_max_repeat (si_password p))) (Some (pp_common_passwords (si_password p)))
    (Some (pp_context_words (si_password p))) (Some (pp_breach_check (si_password p))) (Some (pp_max_age_days (si_password p))) (Some (pp_history_count (si_password p)))
    (Some (pp_min_age_hours (si_password p))) (Some (si_mfa_required_for p)) (Some (si_methods p)) (Some (sp_max_days (si_sessions p)))
    (Some (sp_idle_minutes (si_sessions p))) (Some (si_managed_accounts p)) (Some (si_private_hubs p)) (Some (si_rotation_from p)).

Lemma carries_pv p name : carries p name = is_some (pv p name).
Proof. destruct name; cbn; by match goal with |- is_some ?o = _ => destruct o end. Qed.

Lemma whole_pv p name : pv (whole p) name = Some (sv p name).
Proof. by destruct name. Qed.

Lemma take_pv p n other name : pv (take_switch p n other) name = if decide (n = name) then pv other name else pv p name.
Proof. destruct name; unfold pv, take_switch; cbn; (case_bool_decide; case_decide; congruence). Qed.

Lemma only_pv p name : pv (Only p name) name = pv p name.
Proof. unfold Only. rewrite take_pv. by rewrite decide_True. Qed.

Lemma put_sv p n o name : sv (put p n o) name =
  if decide (n = name) then default (sv p name) (o ≫= fun only => pv only name) else sv p name.
Proof.
  destruct o as [only|]; [|by destruct (decide (n = name))]. cbn [put].
  destruct n, name; cbn; try reflexivity; by match goal with |- context [match ?o with Some _ => _ | None => _ end] => destruct o end.
Qed.

(** The fold of the levels writes each switch once. *)
Lemma fold_put (d : PolicySwitch -> option PolicyPatch) name names : NoDup names -> forall p,
  sv (fold_left (fun q n => put q n (d n)) names p) name =
  if contains names name then default (sv p name) (d name ≫= fun only => pv only name) else sv p name.
Proof.
  induction names as [|n names IH]; intros Hnd p; [done|]. apply NoDup_cons in Hnd as [Hn Hnd]. cbn [fold_left].
  rewrite IH, put_sv by done. unfold contains in *. cbn [existsb]. destruct (decide (n = name)) as [->|Hne].
  - rewrite bool_decide_eq_true_2 by done. cbn [orb]. assert (E : existsb (fun y => bool_decide (y = name)) names = false).
    { apply not_true_iff_false. intros E. apply Hn. by apply (contains_in names name). }
    by rewrite E.
  - rewrite (bool_decide_eq_false_2 (n = name)) by done. done.
Qed.

Lemma tightens_of name p p' q q' : sv p name = sv p' name -> pv q name = pv q' name -> tightens name p q = tightens name p' q'.
Proof.
  destruct name; cbn; intros [= E]; intros H; rewrite E;
  match goal with H : ?f <$> ?a = ?f <$> ?b |- _ => destruct a, b; try discriminate H; try (injection H as <-); reflexivity end.
Qed.

Lemma text_of name p p' : sv p name = sv p' name -> SwitchText p name = SwitchText p' name.
Proof. destruct name; cbn; intros [= E]; by rewrite E. Qed.

Lemma bounded_of name p p' : sv p name = sv p' name -> sv (bounded p) name = sv (bounded p') name.
Proof. destruct name; cbn; intros [= E]; by rewrite E. Qed.

(** ** The resolved policy *)

Definition raw_policy (instance plan workspace : PolicyLayer) : SignInPolicy :=
  fold_left (fun q n => put q n (decided (policy_layers instance plan workspace) n)) PolicySwitches DefaultSignInPolicy.

Lemma fold_resolved layers names : forall e,
  ef_policy (fold_left (resolve_switch layers) names e) = fold_left (fun q n => put q n (decided layers n)) names (ef_policy e).
Proof.
  induction names as [|n names IH]; intros e; [done|]. cbn [fold_left]. rewrite IH. f_equal.
Qed.

Lemma effective_raw i p w : ef_policy (Effective i p w) = bounded (raw_policy i p w).
Proof.
  assert (H : ef_policy (resolved_switches (policy_layers i p w)) = raw_policy i p w).
  { unfold resolved_switches, raw_policy. rewrite fold_resolved. cbn [ef_policy]. reflexivity. }
  rewrite <- H. reflexivity.
Qed.

Lemma effective_eq i p w : Effective i p w =
  mkEffective (bounded (ef_policy (resolved_switches (policy_layers i p w)))) (ef_locks (resolved_switches (policy_layers i p w)))
    (ef_sources (resolved_switches (policy_layers i p w))).
Proof. reflexivity. Qed.

Lemma made_locks policy locks sources : ef_locks (mkEffective policy locks sources) = locks.
Proof. reflexivity. Qed.

Lemma effective_locks i p w : ef_locks (Effective i p w) = ef_locks (resolved_switches (policy_layers i p w)).
Proof. rewrite effective_eq. apply made_locks. Qed.

Lemma raw_sv i p w name : sv (raw_policy i p w) name =
  default (sv DefaultSignInPolicy name) (decided (policy_layers i p w) name ≫= fun only => pv only name).
Proof. unfold raw_policy. rewrite fold_put by apply switches_nodup. by rewrite (proj2 (contains_in _ _) (every_switch name)). Qed.

(** ** Strictness, switch by switch *)

Lemma bounded_methods_in methods m : m ∈ boundedMethods methods -> m ∈ methodOrder.
Proof.
  unfold boundedMethods. destruct (KeepsAWayIn _); cbn [negb]; [|done].
  intros H. by apply list_elem_of_In, filter_In in H as [H _]; apply list_elem_of_In.
Qed.

Lemma kept_way methods : KeepsAWayIn (List.filter (contains methods) methodOrder) = KeepsAWayIn methods.
Proof.
  unfold KeepsAWayIn. rewrite !contains_filter by (apply list_elem_of_In; cbn; tauto). done.
Qed.

Lemma bounded_methods_keep methods : KeepsAWayIn (boundedMethods methods) = true.
Proof. unfold boundedMethods. destruct (KeepsAWayIn (List.filter _ _)) eqn:E; cbn [negb]; [exact E|done]. Qed.

Lemma kept_nonempty methods : KeepsAWayIn methods = true -> methods <> [].
Proof. by destruct methods. Qed.

Lemma subset_in xs ys : xs <> [] -> (forall x, x ∈ xs -> x ∈ ys) -> isSubset xs ys = true.
Proof.
  intros Hne H. unfold isSubset. destruct ys as [|y ys]; [done|]. apply andb_true_iff. split; [|by destruct xs].
  apply forallb_forall. intros x Hx. by apply contains_in, H, list_elem_of_In.
Qed.

Lemma in_subset xs ys : isSubset xs ys = true -> ys <> [] -> xs <> [] /\ forall x, x ∈ xs -> x ∈ ys.
Proof.
  unfold isSubset. destruct ys as [|y ys]; [done|]. intros H _. apply andb_true_iff in H as [H Hne]. split; [by destruct xs|].
  intros x Hx. rewrite forallb_forall in H. by apply contains_in, H, list_elem_of_In.
Qed.

Lemma keeps_in methods : KeepsAWayIn methods = true <-> MethodDirect ∈ methods \/ MethodOidc ∈ methods.
Proof. unfold KeepsAWayIn. rewrite orb_true_iff, !contains_in. done. Qed.

Lemma bounded_methods_mono xs ys : KeepsAWayIn xs = true -> isSubset xs ys = true -> isSubset (boundedMethods xs) (boundedMethods ys) = true.
Proof.
  intros Hk Hs. apply subset_in; [apply kept_nonempty, bounded_methods_keep|]. intros x Hx. destruct ys as [|y ys].
  { by apply bounded_methods_in in Hx. }
  destruct (in_subset _ _ Hs) as [_ Hin]; [done|]. set (l := y :: ys) in *.
  assert (Hl : KeepsAWayIn l = true). { apply keeps_in. apply keeps_in in Hk as [Hk|Hk]; [left|right]; by apply Hin. }
  unfold boundedMethods in *. rewrite !kept_way, Hk in *. rewrite Hl. cbn [negb] in *.
  apply list_elem_of_In, filter_In in Hx as [Hx Hc]. apply list_elem_of_In, filter_In. split; [done|]. by apply contains_in, Hin, contains_in.
Qed.

Lemma rank_bounded r : rank (if negb (mfa_valid r) then MfaForNobody else r) = rank r.
Proof.
  unfold mfa_valid, rank. destruct (String.eqb r MfaForEveryone) eqn:E1; [by rewrite orb_true_r; cbn; rewrite E1|].
  destruct (String.eqb r MfaForAdmins) eqn:E2; [by rewrite orb_true_r; cbn; rewrite E1, E2|].
  destruct (String.eqb r MfaForNobody); cbn; [by rewrite E1, E2|done].
Qed.

Ltac amounts := unfold clamp, atLeast, offOrLower, CeilingMinLength, FloorMinLength, CeilingHistoryCount, CeilingMinAgeHours,
  CeilingSessionMaxDays, FloorMaxAgeDays in *; repeat case_match; bools; try lia.

(** The bounds keep the direction of every switch; a list of ways in has to keep
    one a person can arrive by. *)
Lemma bounded_mono name p q : (name = SwitchMethods -> KeepsAWayIn (si_methods q) = true) ->
  tightens name p (whole q) = true -> tightens name (bounded p) (whole (bounded q)) = true.
Proof.
  destruct p as [[] r m [] a h t], q as [[] r' m' [] a' h' t']. intros Hk.
  destruct name; cbn; intros H; try done; try (by amounts).
  - by rewrite !rank_bounded.
  - by apply bounded_methods_mono; [apply Hk|].
Qed.

Lemma bounded_refl name p : tightens name (bounded p) (whole (bounded p)) = true.
Proof.
  destruct p as [[] r m [] a h t]. destruct name; cbn; try (by amounts); try (by rewrite Z.leb_refl);
    try (by match goal with |- context [negb ?b] => destruct b end); try (by match goal with |- ?b || negb ?b = true => destruct b end).
  apply subset_in; [apply kept_nonempty, bounded_methods_keep|done].
Qed.

(** ** The workspace's level over the levels above *)

(** What the resolution of a switch is at any level: nothing restricted, the
    default or a patch that decides it. *)
Record proper (name : PolicySwitch) (r : Resolution PolicyPatch) : Prop := {
  proper_open : re_allowed r = open_allowed;
  proper_value : (re_effective r = None /\ re_source r = LevelDefault) \/
    exists only, re_effective r = Some (Carried only) /\ carries only name = true /\ re_source r <> LevelDefault
}.

Definition decision (r : Resolution PolicyPatch) : option PolicyPatch :=
  match re_effective r with
  | Some (Carried only) => if String.eqb (re_source r) LevelDefault then None else Some only
  | _ => None
  end.

Lemma level_value_proper name r level layer : level ∈ sign_in_levels -> proper name r -> proper name (level_value name r level layer).
Proof.
  intros Hl [Ho Hv]. unfold level_value. destruct (carries (py_patch layer) name && _) eqn:E; [|by split].
  split; [exact Ho|]. right. exists (Only (py_patch layer) name). split; [done|]. bools. split; [by rewrite carries_pv, only_pv, <- carries_pv|].
  unfold sign_in_levels in Hl. rewrite !elem_of_cons, elem_of_nil in Hl. destruct Hl as [->|[->|[->|[]]]]; discriminate.
Qed.

Lemma step_proper name r level layer locks : level ∈ sign_in_levels -> proper name r ->
  proper name (resolve_layer (SwitchDefinition name) r (policyLayerAt level layer locks)).
Proof.
  intros Hl Hp. rewrite level_step by (done || apply Hp). destruct (Locked r); [done|].
  destruct (level_value_proper name r level layer Hl Hp) as [Ho Hv]. cbv zeta. destruct (locks && _); by split.
Qed.

Lemma switch_tightens_decision name r p : proper name r ->
  switch_tightens name (re_effective r) (Carried (Only p name)) =
  carries p name && tightens name (put DefaultSignInPolicy name (decision r)) p.
Proof.
  intros [_ Hv]. unfold switch_tightens, Decides, decision. rewrite carries_pv, only_pv, <- carries_pv.
  destruct (carries p name); [|done]. cbn [negb andb].
  assert (Ht : forall q, tightens name q (Only p name) = tightens name q p) by (intros q; apply tightens_of; [done|apply only_pv]).
  rewrite Ht. destruct Hv as [[-> _]|(only & -> & _ & Hs)]; [done|]. by rewrite (proj2 (String.eqb_neq _ _) Hs).
Qed.

(** The levels above a workspace. *)
Definition above_layers (instance plan : PolicyLayer) : list (Layer PolicyPatch) :=
  [policyLayerAt LevelInstance instance true; policyLayerAt LevelPlan plan true].
Definition above_of (instance plan : PolicyLayer) (name : PolicySwitch) : Resolution PolicyPatch :=
  Resolve (SwitchDefinition name) (above_layers instance plan).

Lemma above_proper i p name : proper name (above_of i p name).
Proof.
  unfold above_of, Resolve, above_layers. cbn [fold_left].
  do 2 (apply step_proper; [unfold sign_in_levels; rewrite !elem_of_cons; tauto|]). split; [done|]. by left.
Qed.

Local Opaque Resolve SwitchDefinition policyLayerAt PolicySwitches.

Lemma workspace_resolution i p w name : Resolve (SwitchDefinition name) (policy_layers i p w) =
  if Locked (above_of i p name) then above_of i p name else level_value name (above_of i p name) LevelWorkspace w.
Proof.
  assert (E : policy_layers i p w = above_layers i p ++ [policyLayerAt LevelWorkspace w false]) by reflexivity.
  rewrite E, resolve_app. fold (above_of i p name). cbn [fold_left].
  rewrite level_step; [done|unfold sign_in_levels; rewrite !elem_of_cons; tauto|apply above_proper].
Qed.

(** A workspace's say counts where no level above locked the switch and it
    tightens what they decided. *)
Definition counts_here (i p w : PolicyLayer) (name : PolicySwitch) : bool :=
  negb (Locked (above_of i p name)) && carries (py_patch w) name && tightens name (raw_policy i p empty_layer) (py_patch w).

Lemma empty_pv name : pv empty_patch name = None.
Proof. by destruct name. Qed.

Lemma above_decided i p name : decided (policy_layers i p empty_layer) name = decision (above_of i p name).
Proof.
  unfold decided. rewrite workspace_resolution. unfold level_value. rewrite carries_pv. cbn [empty_layer py_patch]. rewrite empty_pv. cbn [is_some andb].
  by destruct (Locked _).
Qed.

Lemma above_sv i p name : sv (put DefaultSignInPolicy name (decision (above_of i p name))) name = sv (raw_policy i p empty_layer) name.
Proof. rewrite raw_sv, above_decided, put_sv. by rewrite decide_True. Qed.

Lemma workspace_sv i p w name : sv (raw_policy i p w) name =
  if counts_here i p w name then default (sv DefaultSignInPolicy name) (pv (py_patch w) name) else sv (raw_policy i p empty_layer) name.
Proof.
  rewrite (raw_sv i p w). unfold counts_here.
  assert (Ht : tightens name (raw_policy i p empty_layer) (py_patch w) =
               tightens name (put DefaultSignInPolicy name (decision (above_of i p name))) (py_patch w))
    by (apply tightens_of; [by rewrite above_sv|done]).
  rewrite Ht. clear Ht. unfold decided. rewrite workspace_resolution. fold (decision (if Locked (above_of i p name) then above_of i p name else level_value name (above_of i p name) LevelWorkspace w)).
  assert (Ha : sv (raw_policy i p empty_layer) name = default (sv DefaultSignInPolicy name) (decision (above_of i p name) ≫= fun only => pv only name))
    by (by rewrite raw_sv, above_decided).
  destruct (Locked (above_of i p name)); cbn [negb andb]; [by rewrite Ha|].
  unfold level_value. change (String.eqb LevelWorkspace LevelInstance) with false. cbn [orb].
  rewrite switch_tightens_decision by apply above_proper. destruct (carries (py_patch w) name) eqn:Hc; cbn [andb]; [|by rewrite Ha].
  destruct (tightens _ _ _); [|by rewrite Ha]. cbn. by rewrite only_pv.
Qed.

(** ** Locks *)

Lemma fold_locked layers name names : NoDup names -> forall e,
  ef_locks (fold_left (resolve_switch layers) names e) !! name =
  if contains names name && Locked (Resolve (SwitchDefinition name) layers)
  then Some (re_locked_by (Resolve (SwitchDefinition name) layers)) else ef_locks e !! name.
Proof.
  induction names as [|n names IH]; intros Hnd e; [done|]. apply NoDup_cons in Hnd as [Hn Hnd]. cbn [fold_left].
  rewrite IH by done. unfold contains in *. cbn [existsb]. destruct (decide (n = name)) as [->|Hne].
  - rewrite bool_decide_eq_true_2 by done. cbn [orb andb]. assert (E : existsb (fun y => bool_decide (y = name)) names = false).
    { apply not_true_iff_false. intros E. apply Hn. by apply (contains_in names name). }
    rewrite E. cbn [andb]. unfold resolve_switch. cbv zeta. cbn [ef_locks].
    destruct (Locked (Resolve (SwitchDefinition name) layers)); [by rewrite lookup_insert_eq|done].
  - rewrite (bool_decide_eq_false_2 (n = name)) by done. cbn [orb].
    assert (E : ef_locks (resolve_switch layers e n) !! name = ef_locks e !! name).
    { unfold resolve_switch. cbv zeta. cbn [ef_locks]. destruct (Locked (Resolve (SwitchDefinition n) layers)); [by rewrite lookup_insert_ne|done]. }
    by rewrite E.
Qed.

Lemma level_value_lock name r level layer : re_locked_by (level_value name r level layer) = re_locked_by r.
Proof. unfold level_value. by destruct (carries (py_patch layer) name && _). Qed.

Lemma resolved_locks layers name : ef_locks (resolved_switches layers) !! name =
  if Locked (Resolve (SwitchDefinition name) layers) then Some (re_locked_by (Resolve (SwitchDefinition name) layers)) else None.
Proof.
  unfold resolved_switches. rewrite fold_locked by apply switches_nodup.
  assert (H : contains PolicySwitches name = true) by (apply contains_in, every_switch). rewrite H. reflexivity.
Qed.

Lemma default_lock (r : Resolution PolicyPatch) : default LockNone (if Locked r then Some (re_locked_by r) else None) = re_locked_by r.
Proof. unfold Locked. by destruct (String.eqb_spec (re_locked_by r) ""). Qed.

(** The locks are the levels' above, whatever the workspace stores. *)
Lemma lock_of i p w name : LockOf (Effective i p w) name = re_locked_by (above_of i p name).
Proof.
  unfold LockOf. rewrite effective_locks, resolved_locks, default_lock, workspace_resolution.
  destruct (Locked (above_of i p name)); [done|apply level_value_lock].
Qed.

(** ** What a workspace may do to the rule *)

(** The list of ways in a workspace stored keeps one a person can arrive by. *)
Definition list_keeps_in (w : PolicyLayer) : Prop :=
  forall methods, pt_methods (py_patch w) = Some methods -> KeepsAWayIn methods = true.

Lemma pv_sv_tightens name p q patch : pv patch name = Some (sv q name) -> tightens name p patch = tightens name p (whole q).
Proof. intros H. apply tightens_of; [done|by rewrite whole_pv]. Qed.

Lemma whole_of name p q q' : sv q name = sv q' name -> tightens name p (whole q) = tightens name p (whole q').
Proof. intros H. apply tightens_of; [done|by rewrite !whole_pv, H]. Qed.

Lemma counts_pv i p w name : counts_here i p w name = true -> pv (py_patch w) name = Some (sv (raw_policy i p w) name).
Proof.
  intros H. rewrite workspace_sv, H. unfold counts_here in H. bools. rewrite carries_pv in *. by destruct (pv (py_patch w) name).
Qed.

Lemma switch_tightened i p w name : (name = SwitchMethods -> list_keeps_in w) ->
  tightens name (ef_policy (Effective i p empty_layer)) (whole (ef_policy (Effective i p w))) = true.
Proof.
  intros Hm. rewrite !effective_raw. destruct (counts_here i p w name) eqn:E.
  - pose proof (counts_pv _ _ _ _ E) as Hp. apply bounded_mono.
    + intros ->. specialize (Hm eq_refl). unfold list_keeps_in in Hm. cbn in Hp.
      destruct (pt_methods (py_patch w)) as [ms|]; [|done]. injection Hp as <-. by apply Hm.
    + rewrite <- (pv_sv_tightens _ _ _ _ Hp). unfold counts_here in E. by bools.
  - rewrite (whole_of name _ (bounded (raw_policy i p w)) (bounded (raw_policy i p empty_layer))).
    + apply bounded_refl.
    + apply bounded_of. by rewrite workspace_sv, E.
Qed.

Lemma switch_locked i p w name : LockOf (Effective i p empty_layer) name <> LockNone ->
  sv (ef_policy (Effective i p w)) name = sv (ef_policy (Effective i p empty_layer)) name.
Proof.
  rewrite lock_of. intros Hl. rewrite !effective_raw. apply bounded_of. rewrite workspace_sv. unfold counts_here, Locked.
  assert (E : String.eqb (re_locked_by (above_of i p name)) "" = false) by (by apply String.eqb_neq).
  by rewrite E.
Qed.

Lemma off_or_lower_of v w : offOrLower v w = true -> off_or_lower v w.
Proof. unfold offOrLower, off_or_lower. intros H. repeat case_match; bools; lia. Qed.

Lemma implied a b : a || negb b = true -> b = true -> a = true.
Proof. by destruct a, b. Qed.

(** A rule every switch of which is tightened asks more of a password. *)
Lemma tightened_stricter above here : FloorMinLength <= pp_min_length (si_password above) ->
  (forall name, name <> SwitchMethods -> tightens name above (whole here) = true) -> stricter (si_password here) (si_password above).
Proof.
  unfold FloorMinLength. intros Hmin H. split.
  - specialize (H SwitchMinLength ltac:(done)). cbn in H. bools. unfold minimum_length. repeat case_match; bools; lia.
  - specialize (H SwitchMinLowercase ltac:(done)). cbn in H. by bools.
  - specialize (H SwitchMinUppercase ltac:(done)). cbn in H. by bools.
  - specialize (H SwitchMinDigits ltac:(done)). cbn in H. by bools.
  - specialize (H SwitchMinSymbols ltac:(done)). cbn in H. by bools.
  - specialize (H SwitchMinClasses ltac:(done)). cbn in H. by bools.
  - exact (off_or_lower_of _ _ (H SwitchMaxRepeat ltac:(done))).
  - exact (implied _ _ (H SwitchCommonPasswords ltac:(done))).
  - exact (implied _ _ (H SwitchContextWords ltac:(done))).
  - exact (implied _ _ (H SwitchBreachCheck ltac:(done))).
  - exact (off_or_lower_of _ _ (H SwitchMaxAgeDays ltac:(done))).
  - specialize (H SwitchHistoryCount ltac:(done)). cbn in H. by bools.
  - specialize (H SwitchMinAgeHours ltac:(done)). cbn in H. by bools.
Qed.

Lemma bounded_length p : FloorMinLength <= pp_min_length (si_password (bounded p)) <= CeilingMinLength.
Proof. cbn. by amounts. Qed.

Lemma stricter_accepted nfkc ToLower Ll Lu Nd p q password context : stricter p q ->
  CheckPasswordAgainst nfkc ToLower Ll Lu Nd p password context = Ok tt ->
  CheckPasswordAgainst nfkc ToLower Ll Lu Nd q password context = Ok tt.
Proof.
  intros H. unfold CheckPasswordAgainst. destruct (_ <? _); [done|]. unfold PasswordRefused at 1.
  destruct (LocalPasswordViolations _ _ _ _ _ p password context) eqn:E; [|done]. intros _.
  by rewrite (stricter_passes _ _ _ _ _ p q password context H E).
Qed.

(** C13. A workspace can only make the installation's rule stricter.  Whatever
    patch is stored for it - saved through the application or not - every switch
    but the ways in moves in its own direction from what the installation and the
    plan decide, so a password its people may set is one they could set without
    it; the ways in stay within the installation's as long as the stored list
    keeps one a person can arrive by; a switch locked above stands where it is,
    and the locks themselves are the ones of the levels above. *)
Theorem workspace_tightens i p w :
  let here := Effective i p w in
  let above := Effective i p empty_layer in
  (forall name, name <> SwitchMethods -> tightens name (ef_policy above) (whole (ef_policy here)) = true) /\
  (forall nfkc ToLower Ll Lu Nd password context,
     CheckPasswordAgainst nfkc ToLower Ll Lu Nd (si_password (ef_policy here)) password context = Ok tt ->
     CheckPasswordAgainst nfkc ToLower Ll Lu Nd (si_password (ef_policy above)) password context = Ok tt) /\
  (list_keeps_in w -> isSubset (si_methods (ef_policy here)) (si_methods (ef_policy above)) = true) /\
  (forall name, IsLocked above name = true -> sv (ef_policy here) name = sv (ef_policy above) name) /\
  (forall name, LockOf here name = LockOf above name).
Proof.
  intros here above.
  assert (Ht : forall name, name <> SwitchMethods -> tightens name (ef_policy above) (whole (ef_policy here)) = true)
    by (intros name Hn; apply switch_tightened; intros ->; by destruct Hn).
  split; [exact Ht|]. split; [|split; [|split]].
  - intros. eapply stricter_accepted; [|eassumption]. apply tightened_stricter; [|exact Ht].
    unfold above. rewrite effective_raw. apply bounded_length.
  - intros Hk. exact (switch_tightened i p w SwitchMethods (fun _ => Hk)).
  - intros name Hl. apply switch_locked. unfold IsLocked in Hl. bools. assumption.
  - intros name. unfold here, above. by rewrite !lock_of.
Qed.
