(* ===== verification/WorkspacePolicy.v ===== *)
(** * A workspace's save of the sign-in rule

    Models what a workspace may change of the sign-in rule: [Tightened] of
    core/domain/model/identity/SignInPolicy.go with Workspace.go's list of changes,
    and application/service/identity/WorkspacePolicy.go's sign-in half - the old
    administrator flag, the methods that did not move, the last way in, and what
    is stored.  Whether a provider is on is the caller's answer; the legal links
    beside the rule are not modelled. *)

From Stdlib Require Import ZArith Lia String Ascii List Bool.
From stdpp Require Import base option list strings gmap pretty.
From S2P Require Import Prelude Shared Text Civil Session Setting Password SignInPolicy.

Open Scope string_scope.
Open Scope list_scope.
Open Scope Z_scope.

(** ** A workspace's save *)

(** Workspace.go. *)
Record FieldChange := mkFieldChange { fc_field : string; fc_from : string; fc_to : string }.
Definition sortedChanges (moved : list FieldChange) : list FieldChange :=
  sort_by (cmp_on fc_field String.compare) moved.

Definition policy_locked (name : PolicySwitch) (origin : string) : Error :=
  WithFields (detailed ErrValidation "auth.policy_locked" [("switch", switch_text name); ("origin", origin)])
    [mkFieldError ("/sign_in_policy/" +:+ switch_text name) "auth.policy_locked" [("origin", origin)]].

Definition tighten_one (e : EffectivePolicy) (above : SignInPolicy) (patch : PolicyPatch)
    (state : SignInPolicy * list FieldChange) (name : PolicySwitch) : res (SignInPolicy * list FieldChange) :=
  let '(result, moved) := state in
  let before := SwitchText result name in
  let next := applySwitch result name patch in
  let after := SwitchText next name in
  if String.eqb after before then Ok (result, moved)
  else if negb (String.eqb (LockOf e name) LockNone) then Err (policy_locked name (LockOf e name))
  else
    _ ← Tighten name above patch;
    _ ← withinBounds name next;
    Ok (next, moved ++ [mkFieldChange (switch_text name) before after]).

Definition Tightened (e : EffectivePolicy) (above : SignInPolicy) (patch : PolicyPatch) : res (SignInPolicy * list FieldChange) :=
  '(result, moved) ← fold_result (tighten_one e above patch) (ef_policy e, []) (Decided patch);
  Ok (bounded result, sortedChanges moved).

(** WorkspacePolicy.go: methods that did not move are dropped from the patch. *)
Definition without_methods (p : PolicyPatch) : PolicyPatch := take_switch p SwitchMethods empty_patch.

Definition tightenedMethods (e : EffectivePolicy) (installation : SignInPolicy) (patch : PolicyPatch) : res (PolicyPatch * list FieldChange) :=
  '(_, moved) ← Tightened e installation patch;
  Ok (if is_some (pt_methods patch) && negb (existsb (fun c => String.eqb (fc_field c) (switch_text SwitchMethods)) moved)
      then without_methods patch else patch, moved).

(** The guard of the last way in; whether a provider is on here is the caller's. *)
Definition keepsAWayIn (providerOnHere : res bool) (patch : PolicyPatch) : res unit :=
  match pt_methods patch with
  | None => Ok tt
  | Some methods =>
      if contains methods MethodDirect then Ok tt
      else
        on ← providerOnHere;
        if (on : bool) then Ok tt
        else Err (WithFields (WithDetail ErrValidation "identity_provider.last_way_in")
                    [mkFieldError "/sign_in_policy/methods" "identity_provider.last_way_in" []])
  end.

(** The sign-in half of a workspace's settings; the boolean is the old name of
    "administrators or stricter". *)
Record RuleSettings := mkRuleSettings { rs_sign_in : PolicyPatch; rs_require_admin_totp : bool }.

Definition with_mfa (p : PolicyPatch) (r : MfaRequirement) : PolicyPatch :=
  take_switch p SwitchMfaRequiredFor
    (mkPatch None None None None None None None None None None None None None (Some r) None None None None None None).
Definition with_rotation (p : PolicyPatch) (now : Time) : PolicyPatch :=
  take_switch p SwitchRotationFrom
    (mkPatch None None None None None None None None None None None None None None None None None None None (Some now)).

Definition SignInLayer (s : RuleSettings) : PolicyLayer :=
  mkPolicyLayer
    (match pt_mfa_required_for (rs_sign_in s) with
     | None => if rs_require_admin_totp s then with_mfa (rs_sign_in s) MfaForAdmins else rs_sign_in s
     | Some _ => rs_sign_in s
     end) ∅.

Definition translateAdminFlag (inForce : MfaRequirement) (flag : bool) (change : PolicyPatch) : res PolicyPatch :=
  match pt_mfa_required_for change with
  | Some sent =>
      if negb (Bool.eqb (CoversAdmins sent) flag) then
        Err (WithFields (WithDetail ErrValidation "workspace.admin_flag_contradicts_rule")
               [mkFieldError "/require_admin_totp" "workspace.admin_flag_contradicts_rule" []])
      else Ok change
  | None =>
      let '(wanted, moves) := RequirementForAdminFlag flag inForce in
      Ok (if moves then with_mfa change wanted else change)
  end.

(** [applyPolicy], without the links beside the rule: the settings a workspace
    would store, and what moved. *)
Definition applyPolicy (instance plan : PolicyLayer) (providerOnHere : res bool) (stored : RuleSettings) (change : PolicyPatch)
    (rotateNow : bool) (now : Time) : res (RuleSettings * list FieldChange) :=
  if IsEmpty change && negb rotateNow then Ok (stored, [])
  else
    let e := Effective instance plan (SignInLayer stored) in
    let installation := ef_policy (Effective instance plan empty_layer) in
    let patch := if rotateNow then with_rotation change now else change in
    '(patch, moved) ← tightenedMethods e installation patch;
    _ ← keepsAWayIn providerOnHere patch;
    if (match moved with [] => false | _ => true end) || rotateNow then
      Ok (mkRuleSettings (Merge (rs_sign_in stored) patch)
            (match pt_mfa_required_for patch with
             | Some r => negb (String.eqb r MfaForNobody)
             | None => rs_require_admin_totp stored
             end), moved)
    else Ok (stored, moved).

(** ** One switch's save *)

(** Whether the switch would read otherwise. *)
Definition moves (policy : SignInPolicy) (patch : PolicyPatch) (name : PolicySwitch) : bool :=
  negb (String.eqb (SwitchText (applySwitch policy name patch) name) (SwitchText policy name)).

Lemma apply_sv p n patch name : sv (applySwitch p n patch) name =
  if decide (n = name) then default (sv p name) (pv patch name) else sv p name.
Proof. exact (put_sv p n (Some patch) name). Qed.

Lemma moves_of p p' patch patch' name : sv p name = sv p' name -> pv patch name = pv patch' name ->
  moves p patch name = moves p' patch' name.
Proof.
  intros H Hp. unfold moves. rewrite (text_of name p p' H).
  by rewrite (text_of name (applySwitch p name patch) (applySwitch p' name patch')) by (by rewrite !apply_sv, !decide_True, H, Hp).
Qed.

Lemma within_of p p' name : sv p name = sv p' name -> withinBounds name p = withinBounds name p'.
Proof.
  intros H. unfold withinBounds. case_bool_decide; [done|].
  by rewrite (text_of name p p' H), (text_of name (bounded p) (bounded p') (bounded_of _ _ _ H)).
Qed.

(** What a save asks of a switch that moves. *)
Definition may_move (e : EffectivePolicy) (above policy : SignInPolicy) (patch : PolicyPatch) (name : PolicySwitch) : Prop :=
  LockOf e name = LockNone /\ Tighten name above patch = Ok tt /\ withinBounds name (applySwitch policy name patch) = Ok tt.

Definition change_of (policy : SignInPolicy) (patch : PolicyPatch) (name : PolicySwitch) : FieldChange :=
  mkFieldChange (switch_text name) (SwitchText policy name) (SwitchText (applySwitch policy name patch) name).

Lemma tighten_step e above patch p moved n s' : tighten_one e above patch (p, moved) n = Ok s' ->
  (moves p patch n = false /\ s' = (p, moved)) \/
  (moves p patch n = true /\ may_move e above p patch n /\ s' = (applySwitch p n patch, moved ++ [change_of p patch n])).
Proof.
  unfold tighten_one, moves. destruct (String.eqb (SwitchText (applySwitch p n patch) n) (SwitchText p n)); [intros [= <-]; by left|].
  destruct (String.eqb_spec (LockOf e n) LockNone) as [Hl|]; [|done]. cbn [negb]. intros H.
  apply bind_ok in H as [[] [H1 H]]. apply bind_ok in H as [[] [H2 H]]. injection H as <-. by right.
Qed.

Lemma tighten_fold e above patch names : NoDup names -> forall p moved p' moved',
  fold_result (tighten_one e above patch) (p, moved) names = Ok (p', moved') ->
  (forall n, n ∈ names -> moves p patch n = true -> may_move e above p patch n) /\
  moved' = moved ++ map (change_of p patch) (List.filter (moves p patch) names).
Proof.
  induction names as [|n names IH]; intros Hnd p moved p' moved' H.
  { injection H as <- <-. split; [intros n Hn; by apply elem_of_nil in Hn|by rewrite app_nil_r]. }
  apply NoDup_cons in Hnd as [Hn Hnd]. cbn [fold_result] in H. apply bind_ok in H as [s [Hs H]]. cbn [List.filter].
  destruct (tighten_step _ _ _ _ _ _ _ Hs) as [[Em ->]|(Em & Hm & ->)]; rewrite Em;
    destruct (IH Hnd _ _ _ _ H) as [Hall ->].
  - split; [|done]. intros m Hin Hmv. apply elem_of_cons in Hin as [->|Hin]; [congruence|by apply Hall].
  - assert (Hsv : forall m, m ∈ names -> sv (applySwitch p n patch) m = sv p m).
    { intros m Hin. rewrite apply_sv. destruct (decide (n = m)) as [->|]; [done|done]. }
    assert (Htext : forall m, m ∈ names -> sv (applySwitch (applySwitch p n patch) m patch) m = sv (applySwitch p m patch) m).
    { intros m Hin. rewrite !(apply_sv _ m), !decide_True by done. by rewrite Hsv. }
    split.
    + intros m Hin Hmv. apply elem_of_cons in Hin as [->|Hin]; [exact Hm|].
      destruct (Hall m Hin) as (Hl & Ht & Hw); [by rewrite (moves_of _ p _ patch) by (by try apply Hsv)|].
      split; [exact Hl|]. split; [exact Ht|]. by rewrite <- (within_of _ _ _ (Htext m Hin)).
    + rewrite <- app_assoc. cbn [map app]. do 2 f_equal.
      assert (Hf : List.filter (moves (applySwitch p n patch) patch) names = List.filter (moves p patch) names).
      { apply filter_ext_in. intros m Hin. apply list_elem_of_In in Hin. apply moves_of; [by apply Hsv|done]. }
      rewrite Hf. apply map_ext_in. intros m Hin. apply filter_In in Hin as [Hin _]. apply list_elem_of_In in Hin.
      unfold change_of. by rewrite (text_of _ _ _ (Hsv m Hin)), (text_of _ _ _ (Htext m Hin)).
Qed.

Lemma decided_nodup p : NoDup (Decided p).
Proof. apply NoDup_ListNoDup, List.NoDup_filter, NoDup_ListNoDup, switches_nodup. Qed.

Lemma in_decided p name : name ∈ Decided p <-> carries p name = true.
Proof.
  unfold Decided. rewrite list_elem_of_In, filter_In. split; [by intros [_ H]|]. intros H. split; [|done].
  apply list_elem_of_In, every_switch.
Qed.

Lemma moves_carried p patch name : moves p patch name = true -> carries patch name = true.
Proof.
  intros H. destruct (carries patch name) eqn:E; [done|]. rewrite carries_pv in E. unfold moves in H.
  rewrite (text_of name (applySwitch p name patch) p) in H; [by rewrite String.eqb_refl in H|].
  rewrite apply_sv, decide_True by done. by destruct (pv patch name).
Qed.

Definition moved_of (policy : SignInPolicy) (patch : PolicyPatch) : list FieldChange :=
  sortedChanges (map (change_of policy patch) (List.filter (moves policy patch) (Decided patch))).

Lemma tightened_spec e above patch result moved : Tightened e above patch = Ok (result, moved) ->
  (forall name, moves (ef_policy e) patch name = true -> may_move e above (ef_policy e) patch name) /\
  moved = moved_of (ef_policy e) patch.
Proof.
  unfold Tightened. intros H. apply bind_ok in H as [[p ms] [H H2]]. injection H2 as <- <-.
  destruct (tighten_fold _ _ _ _ (decided_nodup patch) _ _ _ _ H) as [Hall ->]. split; [|unfold moved_of; reflexivity].
  intros name Hm. apply Hall; [|done]. by apply in_decided, (moves_carried (ef_policy e)).
Qed.

(** ** What reads alike is alike *)

Lemma go_nonempty x : forall s, s <> "" -> pretty_N_go x s <> "".
Proof.
  induction (N.lt_wf_0 x) as [x _ IH]. intros s Hs. destruct (decide (x = 0)%N) as [->|]; [by rewrite pretty_N_go_0|].
  rewrite pretty_N_go_step by lia. apply IH; [apply N.div_lt; lia|done].
Qed.

Lemma itoa_nonempty z : itoa z <> "".
Proof.
  assert (Hn : forall n, pretty (n : N) <> "").
  { intros n. unfold pretty, pretty_N. destruct (decide (n = 0)%N); [done|]. rewrite pretty_N_go_step by lia. by apply go_nonempty. }
  unfold itoa. destruct z as [|p|p]; [done|apply Hn|done].
Qed.

Lemma amount_text v b : 0 <= b -> group_itoa v = group_itoa b -> v = b.
Proof.
  unfold group_itoa. intros Hb. rewrite (proj2 (Z.ltb_ge b 0)) by lia. destruct (v <? 0).
  - intros H. by destruct (itoa_nonempty b).
  - unfold itoa. by intros H%(inj pretty).
Qed.

Lemma flag_text a b : boolText a = boolText b -> a = b.
Proof. by destruct a, b. Qed.

Definition plain (name : PolicySwitch) : Prop := name <> SwitchMethods /\ name <> SwitchRotationFrom.

Lemma text_inj name p q : plain name -> SwitchText p name = SwitchText (bounded q) name -> sv p name = sv (bounded q) name.
Proof.
  intros [Hm Hr]. destruct name; cbn; intros H; try done; f_equal; try exact H; try (by apply flag_text);
    (apply amount_text; [by amounts|exact H]).
Qed.

Lemma bounded_methods_idem methods : boundedMethods (boundedMethods methods) = boundedMethods methods.
Proof.
  unfold boundedMethods at 2 3. destruct (KeepsAWayIn (List.filter (contains methods) methodOrder)) eqn:E; [|done]. cbn [negb].
  set (kept := List.filter (contains methods) methodOrder) in *.
  assert (Hk : List.filter (contains kept) methodOrder = kept).
  { unfold kept at 2. apply filter_ext_in. intros m Hin. unfold kept. by rewrite contains_filter by by apply list_elem_of_In. }
  unfold boundedMethods. by rewrite Hk, E.
Qed.

Lemma bounded_idem name p : sv (bounded (bounded p)) name = sv (bounded p) name.
Proof.
  destruct p as [[] r m [] a h t]. destruct name; cbn; try done; f_equal; try (by amounts).
  - by destruct (mfa_valid r) eqn:E; cbn; rewrite ?E.
  - apply bounded_methods_idem.
Qed.

(** ** What is stored is in force *)

Lemma fold_take other names name : NoDup names -> forall p,
  pv (fold_left (fun merged n => take_switch merged n other) names p) name = if contains names name then pv other name else pv p name.
Proof.
  induction names as [|n names IH]; intros Hnd p; [done|]. apply NoDup_cons in Hnd as [Hn Hnd]. cbn [fold_left].
  rewrite IH, take_pv by done. unfold contains in *. cbn [existsb]. destruct (decide (n = name)) as [->|Hne].
  - rewrite bool_decide_eq_true_2 by done. cbn [orb]. by destruct (existsb _ names).
  - by rewrite (bool_decide_eq_false_2 (n = name)).
Qed.

Lemma merge_pv p other name : pv (Merge p other) name = if carries other name then pv other name else pv p name.
Proof.
  unfold Merge. rewrite fold_take by apply decided_nodup. unfold Decided. by rewrite contains_filter by apply every_switch.
Qed.

Lemma layer_pv s flag name : name <> SwitchMfaRequiredFor -> pv (py_patch (SignInLayer (mkRuleSettings s flag))) name = pv s name.
Proof.
  intros Hn. unfold SignInLayer. cbn [rs_sign_in rs_require_admin_totp py_patch]. destruct (pt_mfa_required_for s), flag; try done.
  unfold with_mfa. rewrite take_pv. by rewrite decide_False by congruence.
Qed.

(** The settings a save stores read as the ones before, with the patch over them. *)
Lemma saved_pv stored patch flag name :
  (pt_mfa_required_for patch = None -> flag = rs_require_admin_totp stored) ->
  pv (py_patch (SignInLayer (mkRuleSettings (Merge (rs_sign_in stored) patch) flag))) name =
  if carries patch name then pv patch name else pv (py_patch (SignInLayer stored)) name.
Proof.
  intros Hf. destruct stored as [s old]. cbn [rs_sign_in rs_require_admin_totp] in *.
  destruct (decide (name = SwitchMfaRequiredFor)) as [->|Hn]; [|by rewrite !layer_pv, merge_pv by done].
  pose proof (merge_pv s patch SwitchMfaRequiredFor) as Hm. rewrite carries_pv in *. cbn [pv] in Hm |- *.
  unfold SignInLayer. cbn [rs_sign_in rs_require_admin_totp py_patch].
  destruct (pt_mfa_required_for patch) as [r|] eqn:Ep; cbn [fmap option_fmap option_map is_some] in *.
  - destruct (pt_mfa_required_for (Merge s patch)) eqn:Em; [|done]. rewrite Em. exact Hm.
  - rewrite Hf by done. destruct (pt_mfa_required_for (Merge s patch)) eqn:Em, (pt_mfa_required_for s) eqn:Es; try discriminate Hm.
    + rewrite Em, Es. exact Hm.
    + by destruct old; [|rewrite Em, Es].
Qed.

Section in_force.
Context (i p : PolicyLayer) (stored : RuleSettings) (patch : PolicyPatch) (flag : bool).
Let installation := ef_policy (Effective i p empty_layer).
Let e := Effective i p (SignInLayer stored).
Let saved := SignInLayer (mkRuleSettings (Merge (rs_sign_in stored) patch) flag).
Context (Hflag : pt_mfa_required_for patch = None -> flag = rs_require_admin_totp stored).
Context (Hrange : bounded (raw_policy i p empty_layer) = raw_policy i p empty_layer).

Lemma installation_raw : installation = raw_policy i p empty_layer.
Proof. unfold installation. by rewrite effective_raw. Qed.

Lemma in_force_untouched name : carries patch name = false -> sv (ef_policy (Effective i p saved)) name = sv (ef_policy e) name.
Proof.
  intros Hc. unfold e. rewrite !effective_raw. apply bounded_of. rewrite (workspace_sv i p saved), (workspace_sv i p (SignInLayer stored)).
  assert (Hp : pv (py_patch saved) name = pv (py_patch (SignInLayer stored)) name) by (unfold saved; by rewrite saved_pv, Hc by done).
  unfold counts_here. rewrite !carries_pv, Hp. by rewrite (tightens_of name _ (raw_policy i p empty_layer) _ (py_patch (SignInLayer stored)) eq_refl Hp).
Qed.

(** A switch's patch counts where it is open above and tightens. *)
Lemma in_force_counted name v : pv patch name = Some v -> re_locked_by (above_of i p name) = LockNone ->
  tightens name installation patch = true -> sv (raw_policy i p saved) name = v.
Proof.
  intros Hv Hl Ht. assert (Hc : carries patch name = true) by (by rewrite carries_pv, Hv).
  assert (Hp : pv (py_patch saved) name = pv patch name) by (unfold saved; by rewrite saved_pv, Hc by done).
  rewrite (workspace_sv i p saved). assert (E : counts_here i p saved name = true).
  { unfold counts_here. rewrite carries_pv, Hp, Hv. unfold Locked. rewrite Hl. cbn [negb String.eqb is_some andb].
    rewrite (tightens_of name _ installation _ patch); [exact Ht|by rewrite installation_raw|exact Hp]. }
  by rewrite E, Hp, Hv.
Qed.

Lemma in_force_moved name : moves (ef_policy e) patch name = true -> may_move e installation (ef_policy e) patch name ->
  sv (ef_policy (Effective i p saved)) name = sv (bounded (applySwitch (ef_policy e) name patch)) name.
Proof.
  intros Hm (Hl & Ht & _). pose proof (moves_carried _ _ _ Hm) as Hc. unfold e in Hl. rewrite lock_of in Hl.
  rewrite effective_raw. apply bounded_of. rewrite apply_sv, decide_True by done.
  unfold Tighten in Ht. rewrite Hc in Ht. cbn [negb] in Ht. destruct (tightens name installation patch) eqn:E; [|done].
  rewrite carries_pv in Hc. destruct (pv patch name) as [v|] eqn:Hv; [|done]. by apply in_force_counted.
Qed.

Lemma in_force_same name : plain name -> moves (ef_policy e) patch name = false ->
  sv (ef_policy (Effective i p saved)) name = sv (ef_policy e) name.
Proof.
  intros Hpl Hm. destruct (carries patch name) eqn:Hc; [|by apply in_force_untouched].
  assert (Hv : pv patch name = Some (sv (ef_policy e) name)).
  { unfold moves in Hm. apply negb_false_iff, String.eqb_eq in Hm. unfold e in Hm |- *. rewrite effective_raw in Hm |- *.
    apply (text_inj name _ _ Hpl) in Hm. rewrite apply_sv, decide_True in Hm by done. rewrite carries_pv in Hc.
    destruct (pv patch name) as [v|]; [|discriminate Hc]. f_equal. exact Hm. }
  destruct (String.eqb_spec (re_locked_by (above_of i p name)) LockNone) as [Hl|Hl].
  - assert (Ht : tightens name installation patch = true).
    { rewrite (pv_sv_tightens name _ (ef_policy e) patch Hv). apply switch_tightened. intros ->. by destruct Hpl. }
    rewrite effective_raw. transitivity (sv (bounded (ef_policy e)) name).
    + apply bounded_of. by apply in_force_counted.
    + unfold e. rewrite effective_raw. apply bounded_idem.
  - assert (Hlock : LockOf (Effective i p empty_layer) name <> LockNone) by (by rewrite lock_of).
    unfold e. by rewrite (switch_locked i p saved name Hlock), (switch_locked i p (SignInLayer stored) name Hlock).
Qed.
End in_force.

(** ** The save as a whole *)

(** What is sent, the moment a rotation asks for included. *)
Definition sent_patch (change : PolicyPatch) (rotateNow : bool) (now : Time) : PolicyPatch :=
  if rotateNow then with_rotation change now else change.

Lemma moved_field policy patch name :
  existsb (fun c => String.eqb (fc_field c) (switch_text name)) (moved_of policy patch) = moves policy patch name.
Proof.
  apply eq_true_iff_eq. rewrite existsb_exists. split.
  - intros (c & Hc & E). apply String.eqb_eq in E. apply list_elem_of_In in Hc. unfold moved_of, sortedChanges in Hc.
    rewrite sort_by_perm in Hc. apply list_elem_of_In, in_map_iff in Hc as (n & <- & Hn). cbn in E. apply switch_text_inj in E as ->.
    by apply filter_In in Hn as [_ Hn].
  - intros Hm. exists (change_of policy patch name). split; [|by apply String.eqb_refl]. apply list_elem_of_In. unfold moved_of, sortedChanges.
    rewrite sort_by_perm. apply list_elem_of_In, in_map, filter_In. split; [|done].
    by apply list_elem_of_In, in_decided, (moves_carried policy).
Qed.

(** The patch that is stored: the methods where they moved. *)
Definition kept_patch (policy : SignInPolicy) (patch : PolicyPatch) : PolicyPatch :=
  if is_some (pt_methods patch) && negb (moves policy patch SwitchMethods) then without_methods patch else patch.

Lemma tightened_methods_ok e installation patch patch' moved : tightenedMethods e installation patch = Ok (patch', moved) ->
  patch' = kept_patch (ef_policy e) patch /\ moved = moved_of (ef_policy e) patch /\
  forall name, moves (ef_policy e) patch name = true -> may_move e installation (ef_policy e) patch name.
Proof.
  unfold tightenedMethods. intros H. apply bind_ok in H as [[result ms] [H H2]]. injection H2 as <- <-.
  destruct (tightened_spec _ _ _ _ _ H) as [Hall ->]. pose proof (moved_field (ef_policy e) patch SwitchMethods) as Hf.
  change (switch_text SwitchMethods) with "methods" in Hf. rewrite Hf. unfold kept_patch. by split; [|split].
Qed.

Lemma kept_pv policy patch name : name <> SwitchMethods -> pv (kept_patch policy patch) name = pv patch name.
Proof.
  intros Hn. unfold kept_patch. destruct (_ && _); [|done]. unfold without_methods. rewrite take_pv. by rewrite decide_False by congruence.
Qed.

Lemma kept_moved policy patch name : moves policy patch name = true -> pv (kept_patch policy patch) name = pv patch name.
Proof.
  intros Hm. destruct (decide (name = SwitchMethods)) as [->|]; [|by apply kept_pv]. unfold kept_patch. by rewrite Hm, andb_false_r.
Qed.

Lemma kept_dropped policy patch : moves policy patch SwitchMethods = false -> carries (kept_patch policy patch) SwitchMethods = false.
Proof. intros Hm. unfold kept_patch. rewrite Hm, andb_true_r. by destruct (pt_methods patch) eqn:E; cbn; rewrite ?E. Qed.

Lemma nothing_moved policy patch : moved_of policy patch = [] -> forall name, moves policy patch name = false.
Proof. intros H name. by rewrite <- moved_field, H. Qed.

Lemma ok_pair {A B} (a c : A) (b d : B) : (Ok (a, b) : res (A * B)) = Ok (c, d) -> c = a /\ d = b.
Proof. by intros [= -> ->]. Qed.

(** What an accepted save is: refused nowhere, and stored as kept, or not at all. *)
Lemma applied_ok i p providerOnHere stored change rotateNow now stored' moved :
  applyPolicy i p providerOnHere stored change rotateNow now = Ok (stored', moved) ->
  let e := Effective i p (SignInLayer stored) in
  let sent := sent_patch change rotateNow now in
  moved = moved_of (ef_policy e) sent /\
  (forall name, moves (ef_policy e) sent name = true -> may_move e (ef_policy (Effective i p empty_layer)) (ef_policy e) sent name) /\
  ((stored' = stored /\ forall name, moves (ef_policy e) sent name = false) \/
   exists flag, stored' = mkRuleSettings (Merge (rs_sign_in stored) (kept_patch (ef_policy e) sent)) flag /\
     (pt_mfa_required_for (kept_patch (ef_policy e) sent) = None -> flag = rs_require_admin_totp stored)).
Proof.
  unfold applyPolicy. cbv zeta. fold (sent_patch change rotateNow now). generalize (ef_policy (Effective i p empty_layer)) as installation.
  generalize (Effective i p (SignInLayer stored)) as e. intros e installation. destruct (IsEmpty change && negb rotateNow) eqn:Ee.
  - intros [= <- <-]. apply andb_true_iff in Ee as [Ee Er]. unfold IsEmpty in Ee. destruct (Decided change) as [|] eqn:Ed; [|done].
    destruct rotateNow; [done|]. unfold sent_patch.
    assert (Hm : forall policy name, moves policy change name = false).
    { intros policy name. apply not_true_iff_false. intros H. apply moves_carried, in_decided in H. rewrite Ed in H. by apply elem_of_nil in H. }
    split; [unfold moved_of; by rewrite Ed|]. split; [|by left]. intros name. by rewrite Hm.
  - intros H. apply bind_ok in H as [[patch ms] [H H2]]. apply bind_ok in H2 as [[] [_ H2]].
    destruct (tightened_methods_ok _ _ _ _ _ H) as (-> & -> & Hall).
    destruct (moved_of (ef_policy e) (sent_patch change rotateNow now)) as [|c cs] eqn:Em, rotateNow;
      cbn [orb] in H2; apply ok_pair in H2 as [-> ->]; (split; [done|]; split; [exact Hall|]).
    1,3,4: right; eexists; (split; [reflexivity|]); intros Hn; rewrite Hn; reflexivity.
    left. split; [done|]. by apply nothing_moved.
Qed.

Lemma within_sent name policy patch : name <> SwitchMethods -> withinBounds name (applySwitch policy name patch) = Ok tt ->
  sv (bounded (applySwitch policy name patch)) name = sv (applySwitch policy name patch) name.
Proof.
  intros Hm Hw. destruct (decide (name = SwitchRotationFrom)) as [->|Hr].
  - generalize (applySwitch policy SwitchRotationFrom patch) as q. by intros [].
  - unfold withinBounds in Hw. rewrite bool_decide_eq_false_2 in Hw by done. revert Hw.
    generalize (applySwitch policy name patch) as q. intros q Hw. destruct (String.eqb _ _) eqn:E; [|done]. apply String.eqb_eq in E.
    symmetry. by apply text_inj; [split|symmetry].
Qed.


(** ** Concrete levels *)

Definition example_instance : PolicyLayer :=
  mkPolicyLayer (mkPatch (Some 14) None None None None None None None None (Some true) None None None None
                   (Some [MethodOidc; MethodPasskey]) (Some 14) None None None None)
    {[ SwitchBreachCheck := true ]}.
Definition nothing_stored : RuleSettings := mkRuleSettings empty_patch true.
Definition example_change : PolicyPatch :=
  mkPatch (Some 16) None None None None None None None None None None None None None (Some [MethodOidc]) (Some 7) None None None None.
Definition example_saved : RuleSettings := mkRuleSettings example_change true.

Example example_save :
  applyPolicy example_instance empty_layer (Ok true) nothing_stored example_change false 0 =
  Ok (example_saved,
      [mkFieldChange "methods" "OIDC,PASSKEY" "OIDC"; mkFieldChange "min_length" "14" "16"; mkFieldChange "session_max_days" "14" "7"]).
Proof. vm_compute. reflexivity. Qed.

(** The installation locked the breach check; a workspace may not turn it off, and
    a shorter minimum is no tightening. *)
Example example_refusals :
  applyPolicy example_instance empty_layer (Ok true) nothing_stored
    (mkPatch None None None None None None None None None (Some false) None None None None None None None None None None) false 0 =
    Err (policy_locked SwitchBreachCheck LevelInstance) /\
  applyPolicy example_instance empty_layer (Ok true) nothing_stored
    (mkPatch (Some 12) None None None None None None None None None None None None None None None None None None None) false 0 =
    Err (at_switch SwitchMinLength "auth.policy_loosens").
Proof. vm_compute. split; reflexivity. Qed.


(** ** Where the rule does not hold *)

(** A list of ways in that keeps none a person can first arrive by reads as
    the product's own list, the ways the installation took away included: a
    workspace of an installation without passwords that keeps passkeys alone -
    accepted, since a provider is on - has passwords back. *)
Theorem passkeys_alone_widen :
  exists i stored change stored' moved,
    applyPolicy i empty_layer (Ok true) stored change false 0 = Ok (stored', moved) /\
    contains (si_methods (ef_policy (Effective i empty_layer (SignInLayer stored)))) MethodDirect = false /\
    si_methods (ef_policy (Effective i empty_layer (SignInLayer stored'))) = [MethodDirect; MethodOidc; MethodPasskey].
Proof.
  exists example_instance, nothing_stored,
    (mkPatch None None None None None None None None None None None None None None (Some [MethodPasskey]) None None None None None).
  do 2 eexists. split; [vm_compute; reflexivity|]. split; vm_compute; reflexivity.
Qed.

(** The counts of one kind of character have no ceiling: a workspace may save
    a rule that asks for more small letters than a password may have characters,
    it is within the bounds and in force, and no password meets it, whatever the
    tables and the normal form. *)
Theorem unmeetable_rule_saved :
  exists change stored' moved,
    applyPolicy empty_layer empty_layer (Ok false) (mkRuleSettings empty_patch false) change false 0 = Ok (stored', moved) /\
    forall nfkc ToLower Ll Lu Nd, (forall form, nfkc = Some form -> forall s, form (form s) = form s) -> forall password context,
      CheckPasswordAgainst nfkc ToLower Ll Lu Nd
        (si_password (ef_policy (Effective empty_layer empty_layer (SignInLayer stored')))) password context <> Ok tt.
Proof.
  exists (mkPatch None (Some 2000) None None None None None None None None None None None None None None None None None None).
  do 2 eexists. split; [vm_compute; reflexivity|]. intros nfkc ToLower Ll Lu Nd Hform password context.
  apply nobody_meets; [exact Hform|]. vm_compute. reflexivity.
Qed.
