(* ===== verification/Calendar.v ===== *)
(** * Working time: business calendars

    Models core/domain/model/calendar/BusinessCalendar.go - a week's spans, the
    holidays and the zone they are local to; adding working time to an instant,
    the working time between two, counting working days - and the loading of a
    zone (shared/Zone.go) over the zone database, a parameter.  The walks go day
    by day over [time.Date], modelled in Civil.

    The theorems: what [Between] counts is additive and is the measure of the
    calendar's stretches of working time; [Add] answers the first instant at
    which the work is done.  They need a zone whose clock changes keep the
    calendar's own boundaries in order ([Orderly]), which every zone of one
    offset has; the examples at the end show what a clock change does where a
    span lies across it. *)

From Stdlib Require Import ZArith Lia String Ascii List Bool.
From stdpp Require Import base list strings gmap.
From S2P Require Import Prelude Shared Text Civil.

Open Scope string_scope.
Open Scope list_scope.
Open Scope Z_scope.

Definition MinutesPerDay : Z := 24 * 60.
Definition MaxHolidays : nat := N.to_nat 1000.

Record Span := mkSpan { sp_from : Z; sp_to : Z }.

(** Sunday first, as [time.Weekday]; always seven. *)
Abbreviation Week := (list (list Span)) (only parsing).

(** Year, month, day. *)
Abbreviation Date := (Z * Z * Z)%type (only parsing).

Record Spec := mkSpec { sc_zone : string; sc_week : Week; sc_holidays : list Date }.

(** The holidays are a set here as there; a calendar nobody built has no
    location. *)
Record BusinessCalendar := mkCalendar { bc_spec : Spec; bc_location : option Location; bc_holidays : gset Date }.

Definition calendar_is_zero (c : BusinessCalendar) : bool := match bc_location c with None => true | Some _ => false end.

(** ** Zone.go *)

Definition lower_ascii (c : ascii) : ascii :=
  if (65 <=? byte_of c) && (byte_of c <=? 90) then ascii_of_N (Z.to_N (byte_of c + 32)) else c.
Fixpoint to_lower_ascii (s : string) : string :=
  match s with EmptyString => EmptyString | String c rest => String (lower_ascii c) (to_lower_ascii rest) end.

Section Zones.
(** [time.LoadLocation]: what the zone database has under a name. *)
Context (zones : string -> option Location).

(** No letter of "local" has a case outside ASCII, so folding is lowering. *)
Definition LoadZone (name : string) : option Location :=
  let name := TrimSpace name in
  if String.eqb name "" || String.eqb (to_lower_ascii name) "local" then None else zones name.

(** ** Building one *)

(** One turn of the loop over a day's spans; the state is the end of the span
    before and whether there was one. *)
Definition check_span (state : Z * bool) (span : Span) : res (Z * bool) :=
  let '(previous, started) := state in
  if (sp_from span <? 0) || (MinutesPerDay <? sp_to span) || (sp_to span <=? sp_from span) || (started && (sp_from span <? previous)) then
    Err (WithDetail ErrValidation "calendar.span_invalid")
  else Ok (sp_to span, true).

Definition check_day (working : bool) (spans : list Span) : res bool :=
  r ← fold_result check_span (0, false) spans; Ok (working || r.2).

Definition check_holiday (holidays : gset Date) (date : Date) : res (gset Date) :=
  let '(y, m, d) := date in
  if bool_decide (date_in UTC (go_date UTC y m d 0 0 0 0) = date) then Ok (holidays ∪ {[ date ]})
  else Err (WithDetail ErrValidation "calendar.holiday_invalid").

Definition NewCalendar (spec : Spec) : res BusinessCalendar :=
  match LoadZone (sc_zone spec) with
  | None => Err (WithDetail ErrValidation "calendar.zone_unknown")
  | Some location =>
      working ← fold_result check_day false (sc_week spec);
      if negb working then Err (WithDetail ErrValidation "calendar.no_working_time")
      else if Nat.ltb MaxHolidays (List.length (sc_holidays spec)) then
        Err (WithDetail ErrValidation "calendar.too_many_holidays")
      else
        holidays ← fold_result check_holiday ∅ (sc_holidays spec);
        Ok (mkCalendar spec (Some location) holidays)
  end.

Definition continuous_week : Week := replicate 7 [mkSpan 0 MinutesPerDay].
Definition no_calendar : BusinessCalendar := mkCalendar (mkSpec "" [] []) None ∅.
Definition Continuous : BusinessCalendar :=
  match NewCalendar (mkSpec "UTC" continuous_week []) with Ok c => c | _ => no_calendar end.
End Zones.

(** ** Days and spans

    The walks are methods of a calendar with a location [l]; the code would stop
    on a nil one, which is what [Zone] spares [AddWorkingDays]. *)

Definition Zone (c : BusinessCalendar) : Location := default UTC (bc_location c).

Definition Interval : Type := Z * Z.

Definition spansOn (c : BusinessCalendar) (l : Location) (year month day : Z) : list Interval :=
  let date := go_date l year month day 12 0 0 0 in
  if bool_decide (date_in l date ∈ bc_holidays c) then []
  else
    let spans := default [] (sc_week (bc_spec c) !! Z.to_nat (weekday (local_second l date / day_seconds))) in
    List.filter (fun i => i.1 <? i.2)
      ((fun span => (go_date l year month day 0 (sp_from span) 0 0, go_date l year month day 0 (sp_to span) 0 0)) <$> spans).

Definition WorksOn (c : BusinessCalendar) (year month day : Z) : bool :=
  negb (Nat.eqb (List.length (spansOn c (Zone c) year month day)) 0).

Definition WalkBound : nat := N.to_nat (400 * 366).

(** The next day the walk looks at, [step] days on. *)
Definition next_date (l : Location) (date : Date) (step : Z) : Date :=
  let '(y, m, d) := date in date_in l (go_date l y m (d + step) 12 0 0 0).

(** The loop over one day's spans: the instant the work is done, or what of it
    is left. *)
Fixpoint add_spans (start remaining : Z) (spans : list Interval) : Z + Z :=
  match spans with
  | [] => inr remaining
  | (s, e) :: rest =>
      if e <=? start then add_spans start remaining rest
      else
        let from := Z.max s start in
        let available := e - from in
        if remaining <=? available then inl (from + remaining) else add_spans start (remaining - available) rest
  end.

Fixpoint add_days (bound : nat) (c : BusinessCalendar) (l : Location) (start remaining : Z) (date : Date) : Z :=
  match bound with
  | O => start + remaining
  | S bound' =>
      let '(y, m, d) := date in
      match add_spans start remaining (spansOn c l y m d) with
      | inl done => done
      | inr remaining' => add_days bound' c l start remaining' (next_date l date 1)
      end
  end.

Definition Add (c : BusinessCalendar) (start work : Z) : res Z :=
  if work <=? 0 then Ok start
  else match bc_location c with
       | None => Panic
       | Some l => Ok (add_days WalkBound c l start work (date_in l start))
       end.

Fixpoint walk_days (bound : nat) (c : BusinessCalendar) (step : Z) (left_ : nat) (date : Date) : Date :=
  match left_, bound with
  | O, _ => date
  | S left', S bound' =>
      let '(y, m, d) := next_date (Zone c) date step in
      walk_days bound' c step (if WorksOn c y m d then left' else left_) (y, m, d)
  | S _, O => date
  end.

Definition AddWorkingDays (c : BusinessCalendar) (start days : Z) : Z :=
  if days =? 0 then start
  else
    let step := if days <? 0 then -1 else 1 in
    let '(y, m, d) := walk_days WalkBound c step (Z.to_nat (Z.abs days)) (date_in (Zone c) start) in
    let '(hour, minute, second) := clock_in (Zone c) start in
    go_date (Zone c) y m d hour minute second (nanosecond_of start).

(** The loop over one day's spans in [Between]. *)
Definition overlap (from to : Z) (i : Interval) : Z :=
  let start := Z.max i.1 from in
  let end_ := Z.min i.2 to in
  if start <? end_ then end_ - start else 0.

Definition sum (xs : list Z) : Z := foldr Z.add 0 xs.

(** The loop over the days has no bound in the source: [None] is a walk that is
    not over after the days the fuel allows. *)
Fixpoint between_days (fuel : nat) (c : BusinessCalendar) (l : Location) (from to total : Z) (date : Date) : option Z :=
  match fuel with
  | O => None
  | S fuel' =>
      let '(y, m, d) := date in
      if to <=? go_date l y m d 0 0 0 0 then Some total
      else between_days fuel' c l from to (total + sum (overlap from to <$> spansOn c l y m d)) (next_date l date 1)
  end.

(** One turn for every twelve hours between the two, and three. *)
Definition between_fuel (from to : Z) : nat := Z.to_nat ((to - from) / (12 * Hour) + 3).

Definition Between (c : BusinessCalendar) (from to : Z) : res Z :=
  if to <=? from then Ok 0
  else match bc_location c with
       | None => Panic
       | Some l => match between_days (between_fuel from to) c l from to 0 (date_in l from) with
                   | Some total => Ok total
                   | None => Panic
                   end
       end.

(** ** Stretches of time in order *)

(** Non-empty intervals one after the other, between two bounds. *)
Fixpoint in_order (lo hi : Z) (xs : list Interval) : Prop :=
  match xs with
  | [] => lo <= hi
  | (s, e) :: rest => lo <= s /\ s < e /\ in_order e hi rest
  end.

(** The measure of what intervals share with [[a, b)]. *)
Definition over (a b : Z) (xs : list Interval) : Z := sum (overlap a b <$> xs).

Lemma in_order_le lo hi xs : in_order lo hi xs -> lo <= hi.
Proof. revert lo. induction xs as [|[s e] xs IH]; intros lo; cbn; [done|]. intros (H1 & H2 & H3). specialize (IH _ H3). lia. Qed.

Lemma in_order_weaken lo lo' hi xs : lo' <= lo -> in_order lo hi xs -> in_order lo' hi xs.
Proof. destruct xs as [|[s e] xs]; cbn; intros; [lia|]. intuition lia. Qed.

Lemma in_order_app a b c xs ys : in_order a b xs -> in_order b c ys -> in_order a c (xs ++ ys).
Proof.
  revert a. induction xs as [|[s e] xs IH]; intros a Hx Hy; cbn in *; [by eapply in_order_weaken|].
  destruct Hx as (H1 & H2 & H3). eauto.
Qed.

Lemma over_cons a b i xs : over a b (i :: xs) = overlap a b i + over a b xs.
Proof. done. Qed.

Lemma over_app a b xs ys : over a b (xs ++ ys) = over a b xs + over a b ys.
Proof.
  induction xs as [|i xs IH]; [done|].
  change ((i :: xs) ++ ys) with (i :: (xs ++ ys)). rewrite !over_cons, IH. lia.
Qed.

Lemma overlap_eq a b i : i.1 < i.2 -> overlap a b i = Z.max 0 (Z.min i.2 b - Z.max i.1 a).
Proof. unfold overlap. intros H. destruct (Z.ltb_spec (Z.max i.1 a) (Z.min i.2 b)); lia. Qed.

Lemma overlap_nonneg a b i : 0 <= overlap a b i.
Proof. unfold overlap. destruct (Z.ltb_spec (Z.max i.1 a) (Z.min i.2 b)); lia. Qed.

Lemma over_nonneg a b xs : 0 <= over a b xs.
Proof. induction xs as [|i xs IH]; [done|]. rewrite over_cons. pose proof (overlap_nonneg a b i). lia. Qed.

Lemma over_before lo hi a b xs : in_order lo hi xs -> hi <= a -> over a b xs = 0.
Proof.
  revert lo. induction xs as [|[s e] xs IH]; intros lo H Hle; [done|]. destruct H as (H1 & H2 & H3).
  rewrite over_cons, overlap_eq, (IH _ H3 Hle) by done. apply in_order_le in H3. cbn. lia.
Qed.

Lemma over_after lo hi a b xs : in_order lo hi xs -> b <= lo -> over a b xs = 0.
Proof.
  revert lo. induction xs as [|[s e] xs IH]; intros lo H Hle; [done|]. destruct H as (H1 & H2 & H3).
  rewrite over_cons, overlap_eq, (IH _ H3) by (done || lia). cbn. lia.
Qed.

Lemma over_empty lo hi a b xs : in_order lo hi xs -> b <= a -> over a b xs = 0.
Proof.
  revert lo. induction xs as [|[s e] xs IH]; intros lo H Hle; [done|]. destruct H as (H1 & H2 & H3).
  rewrite over_cons, overlap_eq, (IH _ H3) by done. cbn. lia.
Qed.

Lemma over_split lo hi a b c xs : in_order lo hi xs -> a <= b <= c -> over a b xs + over b c xs = over a c xs.
Proof.
  revert lo. induction xs as [|[s e] xs IH]; intros lo H Hle; [done|]. destruct H as (H1 & H2 & H3).
  rewrite !over_cons, !overlap_eq by done. specialize (IH _ H3 Hle). cbn. lia.
Qed.

Lemma over_bound lo hi a b xs : in_order lo hi xs -> a <= b -> over a b xs <= Z.max 0 (Z.min hi b - Z.max lo a).
Proof.
  revert lo. induction xs as [|[s e] xs IH]; intros lo H Hle; [unfold over, sum; cbn; lia|]. destruct H as (H1 & H2 & H3).
  pose proof (in_order_le _ _ _ H3). specialize (IH _ H3 Hle). rewrite over_cons, overlap_eq by done. cbn in *. lia.
Qed.

(** *** Adding over stretches in order

    What the loop over spans answers: the work is what lies between the start
    and the answer, the answer is inside a stretch after the start, and before
    it less than the work is done.  And if the loop runs out, what is left is
    what the stretches did not hold. *)

Lemma add_spans_done lo hi start work xs t : in_order lo hi xs -> 0 < work ->
  add_spans start work xs = inl t ->
  start < t /\ t <= hi /\ over start t xs = work /\ forall t', start <= t' < t -> over start t' xs < work.
Proof.
  revert lo work. induction xs as [|[s e] xs IH]; intros lo work H Hw Ha; cbn [add_spans] in Ha; [done|].
  destruct H as (H1 & H2 & H3). pose proof (in_order_le _ _ _ H3) as Hle.
  destruct (Z.leb_spec e start) as [Hs|Hs].
  - destruct (IH _ _ H3 Hw Ha) as (Ht & Hhi & Ho & Hb). repeat split; try done.
    + rewrite over_cons, overlap_eq by done. cbn. lia.
    + intros t' Ht'. specialize (Hb t' Ht'). rewrite over_cons, overlap_eq by done. cbn. lia.
  - destruct (Z.leb_spec work (e - Z.max s start)) as [Hr|Hr].
    + injection Ha as <-. repeat split; [lia|lia| |intros t' Ht'];
        rewrite over_cons, overlap_eq, (over_after e hi) by (done || lia); cbn; lia.
    + destruct (IH _ (work - (e - Z.max s start)) H3) as (Ht & Hhi & Ho & Hb); [lia|done|].
      repeat split; try done.
      * assert (Het : e < t).
        { destruct (Z.lt_ge_cases e t); [done|]. rewrite (over_after e hi) in Ho by done. lia. }
        rewrite over_cons, overlap_eq, Ho by done. cbn. lia.
      * intros t' Ht'. specialize (Hb t' Ht'). rewrite over_cons, overlap_eq by done. cbn. lia.
Qed.

Lemma add_spans_left lo hi start work xs left_ : in_order lo hi xs -> 0 < work ->
  add_spans start work xs = inr left_ -> forall t, hi <= t -> over start t xs = work - left_ /\ 0 < left_.
Proof.
  revert lo work. induction xs as [|[s e] xs IH]; intros lo work H Hw Ha t Ht; cbn [add_spans] in Ha.
  - injection Ha as <-. unfold over. cbn. lia.
  - destruct H as (H1 & H2 & H3). pose proof (in_order_le _ _ _ H3) as Hle.
    destruct (Z.leb_spec e start) as [Hs|Hs].
    + destruct (IH _ _ H3 Hw Ha t Ht). rewrite over_cons, overlap_eq by done. cbn. lia.
    + destruct (Z.leb_spec work (e - Z.max s start)) as [Hr|Hr]; [done|].
      destruct (IH _ (work - (e - Z.max s start)) H3 ltac:(lia) Ha t Ht) as [Ho Hl].
      rewrite over_cons, overlap_eq, Ho by done. cbn. lia.
Qed.

(** ** Local days *)

(** The instant, in seconds, of a local second counted like a Unix one. *)
Definition at_wall (l : Location) (local : Z) : Z :=
  let '(offset, start, end_) := l local in
  if negb (offset =? 0) then
    let utc := local - offset in
    if (utc <? start) || (end_ <=? utc) then local - zone_offset l utc else utc
  else local.

Definition midnight (l : Location) (z : Z) : Z := at_wall l (z * day_seconds) * Second.
Definition day_of (l : Location) (t : Z) : Z := local_second l t / day_seconds.
Definition minute_at (l : Location) (z i : Z) : Z := at_wall l (z * day_seconds + i * 60) * Second.

(** The minutes of the day a calendar looks at. *)
Definition boundaries (c : BusinessCalendar) : list Z :=
  [0; MinutesPerDay] ++ List.concat ((fun span => [sp_from span; sp_to span]) <$> List.concat (sc_week (bc_spec c))).

(** A zone that goes well with a calendar: the boundaries of a day come in the
    order of their minutes, noon is on its day, an instant is between the
    midnights of its day, and these are twelve hours apart or more. *)
Class Orderly (c : BusinessCalendar) (l : Location) : Prop := {
  orderly_minutes : forall z i j, i ∈ boundaries c -> j ∈ boundaries c -> i <= j -> minute_at l z i <= minute_at l z j;
  orderly_noon : forall z, day_of l (at_wall l (z * day_seconds + 43200) * Second) = z;
  orderly_day : forall t, midnight l (day_of l t) <= t < midnight l (day_of l t + 1);
  orderly_long : forall z, midnight l z + 12 * Hour <= midnight l (z + 1)
}.

(** A zone of one offset goes well with every calendar. *)
#[export] Instance fixed_zone_orderly c offset : Orderly c (fixed_zone offset).
Proof.
  assert (Hw : forall u, at_wall (fixed_zone offset) u = u - offset).
  { intros u. unfold at_wall, fixed_zone, zone_offset. destruct (Z.eqb_spec offset 0); cbn [negb fst]; [lia|]. by destruct (_ || _). }
  assert (Hd : forall t, local_second (fixed_zone offset) t = t / Second + offset) by done.
  split; unfold midnight, minute_at, day_of, day_seconds; intros; rewrite ?Hw, ?Hd.
  - unfold Second, Millisecond. nia.
  - rewrite Z.div_mul by done. replace (z * 86400 + 43200 - offset + offset) with (43200 + z * 86400) by lia.
    rewrite Z.div_add by done. done.
  - pose proof (Z.div_mod t Second ltac:(done)). pose proof (Z.mod_pos_bound t Second ltac:(done)).
    pose proof (Z.div_mod (t / Second + offset) 86400 ltac:(done)). pose proof (Z.mod_pos_bound (t / Second + offset) 86400 ltac:(done)).
    unfold Second, Millisecond in *. nia.
  - unfold Hour, Minute, Second, Millisecond. lia.
Qed.

(** The spans of a weekday as a built calendar has them. *)
Fixpoint minutes_in_order (lo hi : Z) (spans : list Span) : Prop :=
  match spans with
  | [] => lo <= hi
  | span :: rest => lo <= sp_from span /\ sp_from span < sp_to span /\ minutes_in_order (sp_to span) hi rest
  end.

Definition calendar_ok (c : BusinessCalendar) : Prop :=
  Forall (minutes_in_order 0 MinutesPerDay) (sc_week (bc_spec c)).

Lemma check_span_order spans : forall previous started r, 0 <= previous <= MinutesPerDay ->
  fold_result check_span (previous, started) spans = Ok r ->
  minutes_in_order (if started then previous else 0) MinutesPerDay spans.
Proof.
  induction spans as [|span spans IH]; intros previous started r Hp H; cbn [minutes_in_order].
  - destruct started; unfold MinutesPerDay in *; lia.
  - cbn [fold_result] in H. apply bind_ok in H as [[p b] [H1 H2]]. unfold check_span in H1.
    destruct (_ || _) eqn:E; [done|]. injection H1 as <- <-. apply IH in H2; [|bools; lia]. bools.
    destruct started; cbn in H0; bools; repeat split; try lia; done.
Qed.

Lemma NewCalendar_ok zones spec c : NewCalendar zones spec = Ok c -> calendar_ok c.
Proof.
  unfold NewCalendar. destruct (LoadZone zones (sc_zone spec)); [|done]. intros H.
  apply bind_ok in H as [working [Hw H]]. destruct working; [|done]. cbn [negb] in H. destruct (Nat.ltb _ _); [done|].
  apply bind_ok in H as [holidays [_ H]]. injection H as <-. unfold calendar_ok. cbn. revert Hw. generalize false.
  induction (sc_week spec) as [|day week IH]; intros b H; [constructor|]. cbn in H. apply bind_ok in H as [b' [H1 H2]].
  unfold check_day in H1. apply bind_ok in H1 as [r [Hr H1]]. constructor; [|by eapply IH].
  apply (check_span_order _ 0 false r); [unfold MinutesPerDay; lia|done].
Qed.

(** Up to where [Add] looks: 400 years of days from the start's. *)
Definition horizon (l : Location) (start : Z) : Z := midnight l (day_of l start + 400 * 366).

(** *** The days a walk passes *)

Section Walk.
Context (c : BusinessCalendar) (l : Location) (Hc : calendar_ok c) `{!Orderly c l}.

Definition civil_spans (z : Z) : list Interval := let '(y, m, d) := civil_from_days z in spansOn c l y m d.
Definition spans_from (z : Z) (n : nat) : list Interval := List.concat ((fun i => civil_spans (z + Z.of_nat i)) <$> seq 0 n).

Lemma go_date_wall z i k : let '(y, m, d) := civil_from_days z in
  go_date l y m (d + k) 0 i 0 0 = at_wall l ((z + k) * day_seconds + i * 60) * Second /\
  go_date l y m (d + k) 12 0 0 0 = at_wall l ((z + k) * day_seconds + 43200) * Second.
Proof.
  pose proof (date_days_step z k) as H. destruct (civil_from_days z) as [[y m] d]. unfold go_date, at_wall. rewrite H.
  rewrite !Z.mul_0_l, !Z.add_0_r. change (0 / Second) with 0. change (0 mod Second) with 0. rewrite ?Z.add_0_r.
  replace (12 * 3600) with 43200 by lia. split.
  - destruct (l ((z + k) * day_seconds + i * 60)) as [[offset start] end_]. apply Z.add_0_r.
  - destruct (l ((z + k) * day_seconds + 43200)) as [[offset start] end_]. apply Z.add_0_r.
Qed.

Lemma go_date_minute z i : let '(y, m, d) := civil_from_days z in go_date l y m d 0 i 0 0 = minute_at l z i.
Proof. pose proof (go_date_wall z i 0) as H. destruct (civil_from_days z) as [[y m] d]. by rewrite !Z.add_0_r in H; destruct H. Qed.

Lemma go_date_midnight z : let '(y, m, d) := civil_from_days z in go_date l y m d 0 0 0 0 = midnight l z.
Proof.
  pose proof (go_date_minute z 0) as H. destruct (civil_from_days z) as [[y m] d]. rewrite H.
  unfold minute_at, midnight. by rewrite Z.mul_0_l, Z.add_0_r.
Qed.

Lemma next_date_step z k : next_date l (civil_from_days z) k = civil_from_days (z + k).
Proof.
  unfold next_date. pose proof (go_date_wall z 0 k) as H. destruct (civil_from_days z) as [[y m] d]. destruct H as [_ ->].
  unfold date_in. f_equal. apply orderly_noon.
Qed.

Lemma minute_of_day z i : i ∈ boundaries c -> 0 <= i <= MinutesPerDay ->
  midnight l z <= minute_at l z i <= midnight l (z + 1).
Proof.
  intros Hin Hi. assert (H0 : 0 ∈ boundaries c) by (unfold boundaries; left).
  assert (H1 : MinutesPerDay ∈ boundaries c) by (unfold boundaries; right; left).
  pose proof (orderly_minutes z 0 i H0 Hin) as Hlo. pose proof (orderly_minutes z i MinutesPerDay Hin H1) as Hhi.
  unfold minute_at, midnight, MinutesPerDay, day_seconds in *. rewrite Z.mul_0_l, Z.add_0_r in Hlo.
  replace (z * 86400 + 24 * 60 * 60) with ((z + 1) * 86400) in Hhi by lia. lia.
Qed.

Lemma minutes_spans z spans lo : lo ∈ boundaries c -> Forall (fun span => sp_from span ∈ boundaries c /\ sp_to span ∈ boundaries c) spans ->
  0 <= lo -> minutes_in_order lo MinutesPerDay spans ->
  in_order (minute_at l z lo) (midnight l (z + 1))
    (List.filter (fun i => i.1 <? i.2) ((fun span => (minute_at l z (sp_from span), minute_at l z (sp_to span))) <$> spans)).
Proof.
  revert lo. induction spans as [|span spans IH]; intros lo Hlo Hb H0 H; cbn [minutes_in_order] in H.
  - apply minute_of_day; [done|lia].
  - apply Forall_cons in Hb as [[Hf Ht] Hb]. destruct H as (H1 & H2 & H3). rewrite fmap_cons. cbn [List.filter fst snd].
    specialize (IH _ Ht Hb ltac:(lia) H3).
    pose proof (orderly_minutes z lo (sp_from span) Hlo Hf H1). pose proof (orderly_minutes z _ _ Hf Ht ltac:(lia)).
    destruct (Z.ltb_spec (minute_at l z (sp_from span)) (minute_at l z (sp_to span))).
    + cbn. repeat split; done.
    + eapply in_order_weaken; [|exact IH]. lia.
Qed.

Lemma civil_spans_in_order z : in_order (midnight l z) (midnight l (z + 1)) (civil_spans z).
Proof.
  assert (Hnil : in_order (midnight l z) (midnight l (z + 1)) []).
  { cbn. pose proof (orderly_long z). unfold Hour, Minute, Second, Millisecond in *. lia. }
  unfold civil_spans. pose proof (fun i => go_date_minute z i) as Hg. destruct (civil_from_days z) as [[y m] d].
  unfold spansOn. destruct (bool_decide _); [done|]. set (spans := default [] _).
  assert (Hspans : spans = [] \/ spans ∈ sc_week (bc_spec c)).
  { subst spans. destruct (sc_week (bc_spec c) !! _) eqn:E; [right; by eapply list_elem_of_lookup_2|by left]. }
  replace ((fun span => (go_date l y m d 0 (sp_from span) 0 0, go_date l y m d 0 (sp_to span) 0 0)) <$> spans)
    with ((fun span => (minute_at l z (sp_from span), minute_at l z (sp_to span))) <$> spans)
    by (apply list_fmap_ext; intros; by rewrite !Hg).
  replace (midnight l z) with (minute_at l z 0) by (unfold minute_at, midnight; by rewrite Z.mul_0_l, Z.add_0_r).
  destruct Hspans as [->|Hin]; [by unfold minute_at, midnight in *; cbn; rewrite Z.add_0_r|].
  unfold calendar_ok in Hc. rewrite Forall_forall in Hc. apply minutes_spans; [left| |done|by apply Hc].
  apply Forall_forall. intros span Hspan. unfold boundaries.
  assert (Hall : [sp_from span; sp_to span] ∈ (fun span => [sp_from span; sp_to span]) <$> List.concat (sc_week (bc_spec c))).
  { apply (list_elem_of_fmap_2 (fun span => [sp_from span; sp_to span])). apply list_elem_of_In, in_concat. exists spans. by split; apply list_elem_of_In. }
  split; apply elem_of_app; right; apply list_elem_of_In, in_concat; exists [sp_from span; sp_to span];
    (split; [by apply list_elem_of_In|cbn; auto]).
Qed.

Lemma spans_from_S z n : spans_from z (S n) = civil_spans z ++ spans_from (z + 1) n.
Proof.
  unfold spans_from. cbn [seq]. rewrite fmap_cons. cbn [List.concat]. rewrite Z.add_0_r. f_equal. f_equal.
  rewrite <- fmap_S_seq, <- list_fmap_compose. apply list_fmap_ext. intros i x _. cbn [compose]. f_equal. lia.
Qed.

Lemma spans_from_in_order n : forall z, in_order (midnight l z) (midnight l (z + Z.of_nat n)) (spans_from z n).
Proof.
  induction n as [|n IH]; intros z; [cbn; rewrite Z.add_0_r; lia|]. rewrite spans_from_S.
  eapply in_order_app; [apply civil_spans_in_order|]. replace (z + Z.of_nat (S n)) with (z + 1 + Z.of_nat n) by lia. apply IH.
Qed.

Lemma midnight_far n : forall z, midnight l z + Z.of_nat n * (12 * Hour) <= midnight l (z + Z.of_nat n).
Proof.
  induction n as [|n IH]; intros z; [replace (z + Z.of_nat 0) with z by lia; lia|]. specialize (IH (z + 1)). pose proof (orderly_long z).
  replace (z + Z.of_nat (S n)) with (z + 1 + Z.of_nat n) by lia. lia.
Qed.

(** *** Between *)

Lemma between_days_over from to n : forall fuel z total, (n < fuel)%nat -> to <= midnight l (z + Z.of_nat n) ->
  between_days fuel c l from to total (civil_from_days z) = Some (total + over from to (spans_from z n)).
Proof.
  induction n as [|n IH]; intros [|fuel] z total Hf Hto; try lia; cbn [between_days];
    pose proof (go_date_midnight z) as Hm; pose proof (next_date_step z 1) as Hnext;
    pose proof (civil_spans_in_order z) as Hord; unfold civil_spans in Hord.
  - destruct (civil_from_days z) as [[y m] d]. rewrite Hm. rewrite Z.add_0_r in Hto.
    rewrite (proj2 (Z.leb_le _ _) Hto). f_equal. unfold over. cbn. lia.
  - rewrite spans_from_S, over_app. specialize (IH fuel (z + 1) (total + over from to (civil_spans z)) ltac:(lia)).
    replace (z + 1 + Z.of_nat n) with (z + Z.of_nat (S n)) in IH by lia. specialize (IH Hto).
    pose proof (spans_from_in_order (S n) z) as HS. rewrite spans_from_S in HS.
    unfold civil_spans in IH, HS |- *. destruct (civil_from_days z) as [[y m] d]. rewrite Hm.
    destruct (Z.leb_spec to (midnight l z)) as [Hle|_].
    + f_equal. rewrite <- over_app, (over_after _ _ _ _ _ HS Hle). lia.
    + rewrite Hnext. fold (over from to (spansOn c l y m d)). rewrite IH. f_equal. lia.
Qed.

(** Days before the one an instant is on, and days after another, hold nothing
    of what lies between the two. *)
Lemma spans_from_app a b : forall z, spans_from z (a + b) = spans_from z a ++ spans_from (z + Z.of_nat a) b.
Proof.
  induction a as [|a IH]; intros z; [cbn; by rewrite Z.add_0_r|]. cbn [Nat.add]. rewrite !spans_from_S, IH, <- app_assoc.
  do 3 f_equal. lia.
Qed.

Lemma over_more from to z m k : to <= midnight l (z + Z.of_nat m) ->
  over from to (spans_from z (m + k)) = over from to (spans_from z m).
Proof.
  intros H. rewrite spans_from_app, over_app, (over_after _ _ _ _ (spans_from (z + Z.of_nat m) k) (spans_from_in_order _ _)) by done. lia.
Qed.

Lemma over_earlier from to z m k : midnight l (z + Z.of_nat k) <= from ->
  over from to (spans_from z (k + m)) = over from to (spans_from (z + Z.of_nat k) m).
Proof.
  intros H. rewrite spans_from_app, over_app, (over_before _ _ _ _ (spans_from z k) (spans_from_in_order _ _)) by done. lia.
Qed.

Lemma over_window from to z n z0 k : z <= z0 -> midnight l z0 <= from ->
  to <= midnight l (z + Z.of_nat n) -> to <= midnight l (z0 + Z.of_nat k) ->
  over from to (spans_from z n) = over from to (spans_from z0 k).
Proof.
  intros Hz Hfrom Hn Hk. set (j := Z.to_nat (z0 - z)). assert (Hj : z + Z.of_nat j = z0) by lia.
  rewrite <- (over_more from to z n (j + k)) by done. replace (n + (j + k))%nat with (j + (k + n))%nat by lia.
  rewrite over_earlier by (rewrite Hj; done). rewrite Hj. by apply over_more.
Qed.

(** The walk of [Between] measures the calendar's stretches, and any window of
    days that holds the two instants holds what it counts. *)
Lemma Between_over from to z n : bc_location c = Some l -> z <= day_of l from -> to <= midnight l (z + Z.of_nat n) ->
  Between c from to = Ok (over from to (spans_from z n)).
Proof.
  intros Hl Hz Hn. unfold Between. pose proof (spans_from_in_order n z) as Hord. destruct (Z.leb_spec to from) as [Hle|Hlt].
  - by rewrite (over_empty _ _ _ _ _ Hord).
  - rewrite Hl. unfold date_in. fold (day_of l from). set (z0 := day_of l from) in *.
    pose proof (orderly_day from) as [Hlo Hhi]. fold z0 in Hlo, Hhi.
    set (k := Z.to_nat ((to - from) / (12 * Hour) + 2)).
    assert (Hdiv : 0 <= (to - from) / (12 * Hour)) by (apply Z.div_pos; unfold Hour, Minute, Second, Millisecond; lia).
    assert (Hk : to <= midnight l (z0 + Z.of_nat k)).
    { pose proof (midnight_far (Z.to_nat ((to - from) / (12 * Hour) + 1)) (z0 + 1)) as Hfar.
      replace (z0 + 1 + Z.of_nat (Z.to_nat ((to - from) / (12 * Hour) + 1))) with (z0 + Z.of_nat k) in Hfar by lia.
      pose proof (Z.mul_succ_div_gt (to - from) (12 * Hour) ltac:(unfold Hour, Minute, Second, Millisecond; lia)).
      unfold Hour, Minute, Second, Millisecond in *. nia. }
    rewrite (between_days_over from to k) by (unfold between_fuel; lia || done). rewrite Z.add_0_l. f_equal.
    symmetry. by apply over_window.
Qed.

(** *** Add *)

Lemma add_spans_app start xs ys : forall work, add_spans start work (xs ++ ys) =
  match add_spans start work xs with inl t => inl t | inr left_ => add_spans start left_ ys end.
Proof.
  induction xs as [|[s e] xs IH]; intros work; [done|]. cbn [app add_spans].
  destruct (e <=? start); [apply IH|]. destruct (work <=? e - Z.max s start); [done|apply IH].
Qed.

Lemma add_days_spans start n : forall work z, add_days n c l start work (civil_from_days z) =
  match add_spans start work (spans_from z n) with inl t => t | inr left_ => start + left_ end.
Proof.
  induction n as [|n IH]; intros work z; [done|]. cbn [add_days]. rewrite spans_from_S, add_spans_app.
  pose proof (next_date_step z 1) as Hnext. unfold civil_spans at 1. destruct (civil_from_days z) as [[y m] d].
  destruct (add_spans start work (spansOn c l y m d)) as [t|left_]; [done|]. rewrite Hnext. apply IH.
Qed.

Lemma WalkBound_days : Z.of_nat WalkBound = 400 * 366.
Proof. apply N_nat_Z. Qed.

Lemma horizon_bound start : horizon l start = midnight l (day_of l start + Z.of_nat WalkBound).
Proof. unfold horizon. by rewrite WalkBound_days. Qed.

Lemma Add_first start work held : bc_location c = Some l -> 0 < work ->
  Between c start (horizon l start) = Ok held -> work <= held ->
  exists t, Add c start work = Ok t /\ start < t <= horizon l start /\ Between c start t = Ok work /\
    forall t', start <= t' < t -> exists x, Between c start t' = Ok x /\ x < work.
Proof.
  intros Hl Hw Hheld Hle. set (z := day_of l start) in *.
  pose proof (spans_from_in_order WalkBound z) as Hord. 
  assert (Hz : midnight l (z + Z.of_nat WalkBound) = horizon l start) by (by rewrite horizon_bound). rewrite Hz in Hord.
  rewrite (Between_over _ _ z WalkBound) in Hheld by (done || (rewrite Hz; apply Z.le_refl)). injection Hheld as Hheld.
  unfold Add. rewrite (proj2 (Z.leb_gt _ _) Hw), Hl. unfold date_in. fold (day_of l start). fold z. rewrite add_days_spans.
  destruct (add_spans start work (spans_from z WalkBound)) as [t|left_] eqn:E.
  - destruct (add_spans_done _ _ _ _ _ _ Hord Hw E) as (Ht & Hhi & Ho & Hb). exists t. split; [done|].
    split; [done|]. rewrite <- Hz in Hhi.
    rewrite (Between_over _ _ z WalkBound), Ho by done. split; [done|].
    intros t' Ht'. eexists. split; [apply (Between_over _ _ z WalkBound); [done|done|lia]|]. by apply Hb.
  - destruct (add_spans_left _ _ _ _ _ _ Hord Hw E (horizon l start) (Z.le_refl _)) as [Ho Hlt].
    lia.
Qed.

(** Past the bound the rest of the work is added as if it were done around the
    clock. *)
Lemma Add_runs_out start work held : bc_location c = Some l -> 0 < work ->
  Between c start (horizon l start) = Ok held -> held < work -> Add c start work = Ok (start + (work - held)).
Proof.
  intros Hl Hw Hheld Hlt. set (z := day_of l start) in *.
  pose proof (spans_from_in_order WalkBound z) as Hord. 
  assert (Hz : midnight l (z + Z.of_nat WalkBound) = horizon l start) by (by rewrite horizon_bound). rewrite Hz in Hord.
  rewrite (Between_over _ _ z WalkBound) in Hheld by (done || (rewrite Hz; apply Z.le_refl)). injection Hheld as Hheld.
  unfold Add. rewrite (proj2 (Z.leb_gt _ _) Hw), Hl. unfold date_in. fold (day_of l start). fold z. rewrite add_days_spans.
  destruct (add_spans start work (spans_from z WalkBound)) as [t|left_] eqn:E.
  - destruct (add_spans_done _ _ _ _ _ _ Hord Hw E) as (Ht & Hhi & Ho & _).
    pose proof (over_split _ _ start t (horizon l start) _ Hord (conj (Z.lt_le_incl _ _ Ht) Hhi)) as Hs.
    pose proof (over_nonneg t (horizon l start) (spans_from z WalkBound)). lia.
  - destruct (add_spans_left _ _ _ _ _ _ Hord Hw E (horizon l start) (Z.le_refl _)) as [Ho _].
    f_equal. lia.
Qed.

(** *** What Between counts is a measure *)

Lemma Between_split a b d : bc_location c = Some l -> a <= b <= d ->
  exists x y, Between c a b = Ok x /\ Between c b d = Ok y /\ Between c a d = Ok (x + y) /\
    0 <= x <= b - a /\ 0 <= y <= d - b.
Proof.
  intros Hl Hle. set (z := day_of l a).
  set (n := Z.to_nat ((d - a) / (12 * Hour) + 2)).
  pose proof (orderly_day a) as [Hlo Hhi]. fold z in Hlo, Hhi.
  assert (Hn : d <= midnight l (z + Z.of_nat n)).
  { assert (Hdiv : 0 <= (d - a) / (12 * Hour)) by (apply Z.div_pos; unfold Hour, Minute, Second, Millisecond; lia).
    pose proof (midnight_far (Z.to_nat ((d - a) / (12 * Hour) + 1)) (z + 1)) as Hfar.
    replace (z + 1 + Z.of_nat (Z.to_nat ((d - a) / (12 * Hour) + 1))) with (z + Z.of_nat n) in Hfar by lia.
    pose proof (Z.mul_succ_div_gt (d - a) (12 * Hour) ltac:(unfold Hour, Minute, Second, Millisecond; lia)).
    unfold Hour, Minute, Second, Millisecond in *. nia. }
  assert (Hz : z <= day_of l b).
  { destruct (Z.le_gt_cases z (day_of l b)); [done|]. pose proof (orderly_day b) as [_ Hb].
    pose proof (midnight_far (Z.to_nat (z - (day_of l b + 1))) (day_of l b + 1)) as Hfar.
    replace (day_of l b + 1 + Z.of_nat (Z.to_nat (z - (day_of l b + 1)))) with z in Hfar by lia.
    unfold Hour, Minute, Second, Millisecond in *. nia. }
  pose proof (spans_from_in_order n z) as Hord.
  exists (over a b (spans_from z n)), (over b d (spans_from z n)).
  rewrite (Between_over a b z n), (Between_over b d z n), (Between_over a d z n), (over_split _ _ _ _ _ _ Hord Hle) by (done || lia).
  pose proof (over_bound _ _ a b _ Hord ltac:(lia)). pose proof (over_bound _ _ b d _ Hord ltac:(lia)).
  pose proof (over_nonneg a b (spans_from z n)). pose proof (over_nonneg b d (spans_from z n)).
  repeat split; try done; lia.
Qed.

(** *** Counting working days *)

Definition works (z : Z) : bool := let '(y, m, d) := civil_from_days z in WorksOn c y m d.

(** Working days among the [k] days after (before) a day. *)
Definition working_days (z step : Z) (k : nat) : nat :=
  List.length (List.filter (fun i => works (z + step * Z.of_nat i)) (seq 1 k)).

Lemma working_days_S z step k :
  working_days z step (S k) = ((if works (z + step) then 1 else 0) + working_days (z + step) step k)%nat.
Proof.
  unfold working_days. cbn [seq List.filter]. rewrite Z.mul_1_r. rewrite <- fmap_S_seq.
  assert (E : forall xs, List.length (List.filter (fun i => works (z + step * Z.of_nat i)) (S <$> xs)) =
                         List.length (List.filter (fun i => works (z + step + step * Z.of_nat i)) xs)).
  { induction xs as [|x xs IH]; [done|]. rewrite fmap_cons. cbn [List.filter].
    replace (z + step * Z.of_nat (S x)) with (z + step + step * Z.of_nat x) by lia.
    destruct (works _); cbn [List.length]; by rewrite IH. }
  destruct (works (z + step)); cbn [List.length]; by rewrite E.
Qed.

(** The walk stops at the day that makes the count full, which is a working
    day, or at its bound. *)
Lemma walk_days_count (Hl : Zone c = l) step bound : forall left_ z,
  exists k, walk_days bound c step left_ (civil_from_days z) = civil_from_days (z + step * Z.of_nat k) /\ (k <= bound)%nat /\
    (left_ = 0%nat -> k = 0%nat) /\
    (working_days z step k = left_ /\ (left_ <> 0%nat -> works (z + step * Z.of_nat k) = true) \/
     k = bound /\ (working_days z step k < left_)%nat).
Proof.
  induction bound as [|bound IH]; intros [|left_] z; cbn [walk_days].
  1,3: exists 0%nat; rewrite Z.mul_0_r, Z.add_0_r; split; [done|]; split; [lia|]; split; [done|]; left; done.
  - exists 0%nat. rewrite Z.mul_0_r, Z.add_0_r. split; [done|]. split; [lia|]. split; [done|]. right. split; [done|]. cbn. lia.
  - rewrite Hl, next_date_step. assert (Hw : works (z + step) = let '(y, m, d) := civil_from_days (z + step) in WorksOn c y m d) by done.
    destruct (civil_from_days (z + step)) as [[y m] d] eqn:E. rewrite <- Hw. rewrite <- E.
    destruct (IH (if works (z + step) then left_ else S left_) (z + step)) as (k & -> & Hk & H0 & Hcase). exists (S k).
    replace (z + step * Z.of_nat (S k)) with (z + step + step * Z.of_nat k) by lia. rewrite working_days_S.
    split; [done|]. split; [lia|]. split; [done|].
    destruct (works (z + step)) eqn:Ew; destruct Hcase as [[Hc1 Hc2]|[Hc1 Hc2]]; [left|right|left|right]; split; try lia.
    + intros _. destruct left_; [|by apply Hc2]. rewrite (H0 eq_refl), Z.mul_0_r, Z.add_0_r. done.
    + exact Hc2.
Qed.
End Walk.

(** ** Properties *)

Section Properties.
Context (zones : string -> option Location) (spec : Spec) (c : BusinessCalendar) (l : Location).

(** For a calendar that was built and a zone whose clock changes keep the
    calendar's boundaries in order, [Between] always answers, however far apart
    the instants are; the working time up to an instant and from it on add up
    to the whole, and is never less than nothing or more than the time that
    passed. *)
Theorem working_time_adds_up (a b d : Z) (Hc : NewCalendar zones spec = Ok c) (Hl : bc_location c = Some l)
    (Hzone : Orderly c l) (Hle : a <= b <= d) :
  exists x y, Between c a b = Ok x /\ Between c b d = Ok y /\ Between c a d = Ok (x + y) /\
    0 <= x <= b - a /\ 0 <= y <= d - b.
Proof. apply NewCalendar_ok in Hc. by apply (Between_split c l). Qed.

End Properties.

(** ** Witnesses: a week of office hours in UTC, with a holiday *)

Definition utc_only (name : string) : option Location := if String.eqb name "UTC" then Some UTC else None.
Definition office_week : Week := [[]] ++ replicate 5 [mkSpan 540 720; mkSpan 780 1020] ++ [[]].
Definition office_spec : Spec := mkSpec "UTC" office_week [(2026, 12, 25)].
Definition office : BusinessCalendar :=
  match NewCalendar utc_only office_spec with Ok c => c | _ => no_calendar end.

Lemma office_built : NewCalendar utc_only office_spec = Ok office.
Proof. reflexivity. Qed.
Lemma office_utc : bc_location office = Some UTC.
Proof. reflexivity. Qed.

(** Thursday, 2026-12-24 16:00: ten hours of work end on Tuesday at 11:00, the
    Friday being a holiday. *)
Definition christmas_eve : Z := go_date UTC 2026 12 24 16 0 0 0.
Example office_add : Add office christmas_eve (10 * Hour) = Ok (go_date UTC 2026 12 29 11 0 0 0).
Proof. vm_compute. reflexivity. Qed.
Example office_days : AddWorkingDays office christmas_eve 3 = go_date UTC 2026 12 30 16 0 0 0.
Proof. vm_compute. reflexivity. Qed.

Lemma working_time_adds_up_witness : exists x y,
  Between office christmas_eve (christmas_eve + 30 * Hour) = Ok x /\
  Between office (christmas_eve + 30 * Hour) (christmas_eve + 200 * Hour) = Ok y /\
  Between office christmas_eve (christmas_eve + 200 * Hour) = Ok (x + y).
Proof.
  destruct (working_time_adds_up utc_only office_spec office UTC christmas_eve (christmas_eve + 30 * Hour) (christmas_eve + 200 * Hour)
              office_built office_utc (fixed_zone_orderly office 0)) as (x & y & H1 & H2 & H3 & _).
  - vm_compute. split; congruence.
  - exists x, y. exact (conj H1 (conj H2 H3)).
Defined.


(** ** What a clock change does

    New York on 2026-03-08, a Sunday: at 07:00 UTC the clock goes from 02:00 to
    03:00.  [time.Date] reads 02:00, which does not exist, with the offset of
    after the change: 06:00 UTC, which is 01:00. *)

Definition new_york : Location := fun sec =>
  let change := 1772953200 in if sec <? change then (-18000, alpha, change) else (-14400, change, omega).

Definition night_owl (spans : list Span) : BusinessCalendar :=
  mkCalendar (mkSpec "America/New_York" ([spans] ++ replicate 6 []) []) (Some new_york) ∅.

Definition at_utc (hour : Z) : Z := go_date UTC 2026 3 8 hour 0 0 0.

(** A span from 02:00 to 03:00, which the change cuts away, is not left out: it
    becomes the hour before the change. *)
Example cut_span_kept : spansOn (night_owl [mkSpan 120 180]) new_york 2026 3 8 = [(at_utc 6, at_utc 7)].
Proof. vm_compute. reflexivity. Qed.

(** A span from 01:00 to 02:00, an hour that exists, is left out. *)
Example whole_span_lost : Between (night_owl [mkSpan 60 120]) (at_utc 5) (at_utc 12) = Ok 0.
Proof. vm_compute. reflexivity. Qed.

(** The half hours from 01:00 and from 02:00 are both the half hour after 01:00,
    which is counted twice. *)
Example half_hour_twice :
  Between (night_owl [mkSpan 60 90; mkSpan 120 150]) (at_utc 6) (at_utc 6 + 30 * Minute) = Ok (60 * Minute).
Proof. vm_compute. reflexivity. Qed.
