(* ===== verification/Timer.v ===== *)
(** * Timers: a budget of working time that is spent

    Models core/domain/model/calendar/Timer.go: a timer is armed with a budget,
    runs, pauses, resumes, is stopped or fires when the budget is spent, all on
    a business calendar.

    The theorems: whatever is done to a timer, what it has spent is the working
    time it has run for, cut at its budget; and it is due at exactly the instant
    the budget is spent, so that firing is refused before and not after. *)

From Stdlib Require Import ZArith Lia String Ascii List Bool.
From stdpp Require Import base list strings gmap.
From S2P Require Import Prelude Shared Text Civil Calendar.

Open Scope string_scope.
Open Scope list_scope.
Open Scope Z_scope.

Definition PurposeSLA : string := "SLA".
Definition PurposeApproval : string := "APPROVAL".
Definition PurposePageReview : string := "PAGE_REVIEW".
Definition PurposeOLA : string := "OLA".
Definition PurposeValid (p : string) : bool := contains [PurposeSLA; PurposeApproval; PurposePageReview; PurposeOLA] p.

Inductive TimerState : Type := TimerRunning | TimerPaused | TimerFired | TimerStopped.
#[export] Instance timer_state_eq_dec : EqDecision TimerState.
Proof. solve_decision. Defined.

(** [^[a-z][a-z0-9_]{0,49}$]. *)
Definition namePattern (name : string) : bool := key_shaped 49 name.

Definition MaxBudget : Z := 366 * 24 * Hour.

Record Timer := mkTimer {
  tm_id : ID; tm_tenant_id : ID; tm_purpose : string; tm_subject_id : ID; tm_name : string;
  tm_calendar : BusinessCalendar; tm_budget : Z; tm_consumed : Z;
  tm_running_since : option Time; tm_due_at : option Time; tm_state : TimerState; tm_fired_at : option Time; tm_version : Z
}.

(** What the operations change of a timer. *)
Definition timer_at (t : Timer) (consumed : Z) (since due : option Time) (state : TimerState) (fired : option Time) : Timer :=
  mkTimer (tm_id t) (tm_tenant_id t) (tm_purpose t) (tm_subject_id t) (tm_name t) (tm_calendar t) (tm_budget t)
    consumed since due state fired (tm_version t).

Definition run (t : Timer) (now : Time) : res Timer :=
  due ← Add (tm_calendar t) now (tm_budget t - tm_consumed t);
  Ok (timer_at t (tm_consumed t) (Some now) (Some due) TimerRunning (tm_fired_at t)).

Definition armed (id tenant : ID) (purpose : string) (subject : ID) (name : string) (cal : BusinessCalendar) (budget : Z) : Timer :=
  mkTimer id tenant purpose subject name cal budget 0 None None TimerPaused None 1.

Definition Arm (id tenant : ID) (purpose : string) (subject : ID) (name : string) (cal : BusinessCalendar) (budget : Z)
    (now : Time) : res Timer :=
  if negb (PurposeValid purpose) then Err (WithDetail ErrValidation "timer.purpose_unknown")
  else if negb (namePattern name) then Err (WithDetail ErrValidation "timer.name_invalid")
  else if calendar_is_zero cal then Err (WithDetail ErrValidation "timer.calendar_missing")
  else if (budget <=? 0) || (MaxBudget <? budget) then Err (WithDetail ErrValidation "timer.budget_invalid")
  else if id_is_zero subject then Err (WithDetail ErrValidation "timer.subject_missing")
  else run (armed id tenant purpose subject name cal budget) now.

Definition Rebuild (id tenant : ID) (purpose : string) (subject : ID) (name : string) (cal : BusinessCalendar)
    (budget consumed : Z) (running : bool) (now : Time) : res Timer :=
  timer ← Arm id tenant purpose subject name cal budget now;
  let timer := timer_at timer (Z.min (Z.max consumed 0) budget) None None TimerPaused (tm_fired_at timer) in
  if running then run timer now else Ok timer.

Definition Spent (t : Timer) (now : Time) : res Z :=
  match tm_state t, tm_running_since t with
  | TimerRunning, Some since =>
      worked ← Between (tm_calendar t) since now;
      Ok (Z.min (tm_consumed t + worked) (tm_budget t))
  | _, _ => Ok (Z.min (tm_consumed t) (tm_budget t))
  end.

Definition Remaining (t : Timer) (now : Time) : res Z := spent ← Spent t now; Ok (tm_budget t - spent).

Definition ended {A} : res A := Err (WithDetail ErrConflict "timer.ended").

Definition Pause (t : Timer) (now : Time) : res Timer :=
  match tm_state t with
  | TimerPaused => Ok t
  | TimerRunning => spent ← Spent t now; Ok (timer_at t spent None None TimerPaused (tm_fired_at t))
  | _ => ended
  end.

Definition Resume (t : Timer) (now : Time) : res Timer :=
  match tm_state t with
  | TimerRunning => Ok t
  | TimerPaused => run t now
  | _ => ended
  end.

Definition Stop (t : Timer) (now : Time) : res Timer :=
  match tm_state t with
  | TimerStopped => Ok t
  | TimerRunning | TimerPaused => spent ← Spent t now; Ok (timer_at t spent None None TimerStopped (tm_fired_at t))
  | TimerFired => ended
  end.

Definition Fire (t : Timer) (now : Time) : res Timer :=
  let not_due := Err (WithDetail ErrConflict "timer.not_due") in
  match tm_state t, tm_due_at t with
  | TimerRunning, Some due =>
      if now <? due then not_due else Ok (timer_at t (tm_budget t) None (Some due) TimerFired (Some now))
  | _, _ => not_due
  end.

(** ** A timer's life *)

Section Life.
Context (zones : string -> option Location) (spec : Spec) (c : BusinessCalendar) (l : Location).
Context (Hc : NewCalendar zones spec = Ok c) (Hl : bc_location c = Some l) `{!Orderly c l}.

(** Of the working time that passed, what a timer was running for. *)
Definition while_running (t : Timer) (more : Z) : Z := match tm_state t with TimerRunning => more | _ => 0 end.

(** A timer on the calendar [c] after a history: the instant of the last thing
    done to it, and the working time it has run for up to then, uncut. *)
Inductive timer_history : Timer -> Time -> Z -> Prop :=
  | history_armed id tenant purpose subject name budget now t :
      Arm id tenant purpose subject name c budget now = Ok t -> timer_history t now 0
  | history_rebuilt id tenant purpose subject name budget consumed running now t :
      Rebuild id tenant purpose subject name c budget consumed running now = Ok t ->
      timer_history t now (Z.min (Z.max consumed 0) budget)
  | history_waited t now worked now' more :
      timer_history t now worked -> now <= now' ->
      Between c now now' = Ok more ->
      timer_history t now' (worked + while_running t more)
  | history_paused t now worked t' : timer_history t now worked -> Pause t now = Ok t' -> timer_history t' now worked
  | history_resumed t now worked t' : timer_history t now worked -> Resume t now = Ok t' -> timer_history t' now worked
  | history_stopped t now worked t' : timer_history t now worked -> Stop t now = Ok t' -> timer_history t' now worked
  | history_fired t now worked t' : timer_history t now worked -> Fire t now = Ok t' -> timer_history t' now worked.

(** The calendar holds the budget within the days [Add] looks at, whenever it
    starts. *)
Definition holds (budget : Z) : Prop :=
  forall start, exists held, Between c start (horizon l start) = Ok held /\ budget <= held.

(** The invariant. *)
Record timer_inv (t : Timer) (now : Time) (worked : Z) : Prop := {
  ti_calendar : tm_calendar t = c;
  ti_budget : 0 < tm_budget t <= MaxBudget;
  ti_consumed : 0 <= tm_consumed t <= tm_budget t;
  ti_worked : 0 <= worked;
  ti_shape : match tm_state t with
             | TimerRunning => exists since due run_for, tm_running_since t = Some since /\ tm_due_at t = Some due /\
                 since <= now /\ Add c since (tm_budget t - tm_consumed t) = Ok due /\
                 Between c since now = Ok run_for /\
                 Z.min (tm_consumed t + run_for) (tm_budget t) = Z.min worked (tm_budget t)
             | TimerPaused | TimerStopped => tm_running_since t = None /\ tm_consumed t = Z.min worked (tm_budget t)
             | TimerFired => tm_running_since t = None /\ tm_consumed t = tm_budget t /\
                 (holds (tm_budget t) -> tm_budget t <= worked)
             end
}.

Lemma Arm_inv id tenant purpose subject name budget now t : Arm id tenant purpose subject name c budget now = Ok t ->
  0 < budget <= MaxBudget /\ run (armed id tenant purpose subject name c budget) now = Ok t.
Proof.
  unfold Arm. destruct (negb (PurposeValid purpose)); [done|]. destruct (negb (namePattern name)); [done|].
  destruct (calendar_is_zero c); [done|]. destruct (_ || _) eqn:E; [done|]. destruct (id_is_zero subject); [done|].
  bools. intros H'. split; [lia|done].
Qed.

Lemma Between_now now : Between c now now = Ok 0.
Proof. unfold Between. by rewrite Z.leb_refl. Qed.

(** Running from now on keeps the invariant. *)
Lemma run_inv t now worked t' : tm_calendar t = c -> 0 < tm_budget t <= MaxBudget -> 0 <= tm_consumed t <= tm_budget t ->
  0 <= worked -> tm_consumed t = Z.min worked (tm_budget t) -> run t now = Ok t' -> timer_inv t' now worked.
Proof.
  intros Hcal Hb Hcons Hw Heq H. unfold run in H. apply bind_ok in H as [due [Hd H]]. injection H as <-.
  rewrite Hcal in Hd. constructor; cbn [timer_at armed tm_budget tm_consumed tm_state tm_calendar tm_running_since tm_due_at]; try done.
  exists now, due, 0. rewrite Between_now. repeat split; try done; lia.
Qed.

Lemma Spent_min t now worked : timer_inv t now worked -> tm_state t <> TimerFired -> Spent t now = Ok (Z.min worked (tm_budget t)).
Proof.
  intros [Hcal Hb Hcons Hw Hs] Hne. unfold Spent. destruct (tm_state t) eqn:E; [| |done|].
  - destruct Hs as (since & due & run_for & -> & _ & _ & _ & Hbt & Heq). rewrite Hcal, Hbt. cbn. by rewrite Heq.
  - destruct Hs as [_ Hc0]. f_equal. lia.
  - destruct Hs as [_ Hc0]. f_equal. lia.
Qed.

Lemma pause_inv t now worked state spent : timer_inv t now worked -> state = TimerPaused \/ state = TimerStopped ->
  Ok spent = Ok (E := Error) (Z.min worked (tm_budget t)) ->
  timer_inv (timer_at t spent None None state (tm_fired_at t)) now worked.
Proof.
  intros [Hcal Hb Hcons Hw _] Hst [= ->]. destruct Hst as [->| ->]; constructor; cbn [timer_at armed tm_budget tm_consumed tm_state tm_calendar tm_running_since tm_due_at]; try done; lia.
Qed.

Lemma waited_inv t now worked now' more : timer_inv t now worked -> now <= now' -> Between c now now' = Ok more ->
  timer_inv t now' (worked + while_running t more).
Proof.
  intros [Hcal Hb Hcons Hw Hs] Hle Hmore.
  assert (Hm : 0 <= more).
  { destruct (Between_split c l (NewCalendar_ok _ _ _ Hc) now now' now' Hl ltac:(lia)) as (x & y & Hx & _ & _ & Hx0 & _).
    rewrite Hmore in Hx. injection Hx as <-. lia. }
  unfold while_running. destruct (tm_state t) eqn:E; rewrite ?Z.add_0_r; constructor; rewrite ?E; try done; try lia.
  destruct Hs as (since & due & run_for & Hsince & Hdue & Hs0 & Ha & Hbt & Heq).
  destruct (Between_split c l (NewCalendar_ok _ _ _ Hc) since now now' Hl ltac:(lia)) as (x & y & Hx & Hy & Hxy & _ & _).
  rewrite Hbt in Hx. injection Hx as <-. rewrite Hmore in Hy. injection Hy as <-.
  exists since, due, (run_for + more). repeat split; try done; lia.
Qed.

(** A running timer whose budget the calendar holds is due exactly when the
    budget is spent. *)
Lemma due_exact t now worked : timer_inv t now worked -> tm_state t = TimerRunning -> holds (tm_budget t) ->
  exists due, tm_due_at t = Some due /\ (due <= now <-> tm_budget t <= worked).
Proof.
  intros [Hcal Hb Hcons Hw Hs] Hrun Hholds. rewrite Hrun in Hs.
  destruct Hs as (since & due & run_for & Hsince & Hdue & Hs0 & Ha & Hbt & Heq). exists due. split; [done|].
  destruct (Z.eq_dec (tm_consumed t) (tm_budget t)) as [E|Hne].
  - rewrite E, Z.sub_diag in Ha. unfold Add in Ha. cbn in Ha. injection Ha as <-.
    destruct (Between_split c l (NewCalendar_ok _ _ _ Hc) since now now Hl ltac:(lia)) as (x & y & Hx & _ & _ & Hx0 & _).
    rewrite Hbt in Hx. injection Hx as <-. lia.
  - destruct (Hholds since) as (held & Hheld & Hle).
    destruct (Add_first c l (NewCalendar_ok _ _ _ Hc) since (tm_budget t - tm_consumed t) held Hl ltac:(lia) Hheld ltac:(lia))
      as (t' & Ha' & Ht' & Hbd & Hfirst). rewrite Ha in Ha'. injection Ha' as <-. split; intros H'.
    + destruct (Between_split c l (NewCalendar_ok _ _ _ Hc) since due now Hl ltac:(lia)) as (x & y & Hx & _ & Hxy & _ & Hy).
      rewrite Hbd in Hx. injection Hx as <-. rewrite Hbt in Hxy. injection Hxy as ->. lia.
    + destruct (Z.le_gt_cases due now); [done|]. destruct (Hfirst now ltac:(lia)) as (x & Hx & Hlt).
      rewrite Hbt in Hx. injection Hx as <-. lia.
Qed.

Lemma history_inv t now worked : timer_history t now worked -> timer_inv t now worked.
Proof.
  induction 1 as [id tenant purpose subject name budget now t H|id tenant purpose subject name budget consumed running now t H
    |t now worked now' more _ IH Hle Hm|t now worked t' _ IH H|t now worked t' _ IH H|t now worked t' _ IH H|t now worked t' _ IH H].
  - apply Arm_inv in H as [Hb H]. eapply run_inv; [| | | | |exact H]; cbn [timer_at armed tm_budget tm_consumed tm_state tm_calendar tm_running_since tm_due_at]; try done; lia.
  - unfold Rebuild in H. apply bind_ok in H as [t0 [H0 H]]. apply Arm_inv in H0 as [Hb H0]. unfold run in H0.
    apply bind_ok in H0 as [due [_ H0]]. injection H0 as <-. cbn in H. destruct running.
    + eapply run_inv; [| | | | |exact H]; cbn [timer_at armed tm_budget tm_consumed tm_state tm_calendar tm_running_since tm_due_at]; try done; lia.
    + injection H as <-. constructor; cbn [timer_at armed tm_budget tm_consumed tm_state tm_calendar tm_running_since tm_due_at]; try done; try lia. split; [done|lia].
  - by eapply waited_inv.
  - unfold Pause in H. destruct (tm_state t) eqn:E; try discriminate; [|by injection H as <-].
    apply bind_ok in H as [spent [Hs H]]. injection H as <-. rewrite (Spent_min t now worked) in Hs by (done || congruence).
    by apply pause_inv; [|left|].
  - unfold Resume in H. destruct (tm_state t) eqn:E; try discriminate; [by injection H as <-|].
    destruct IH as [Hcal Hb Hcons Hw Hs]. rewrite E in Hs. destruct Hs. by eapply run_inv.
  - unfold Stop in H. destruct (tm_state t) eqn:E; try discriminate; try (by injection H as <-);
      apply bind_ok in H as [spent [Hs H]]; injection H as <-; rewrite (Spent_min t now worked) in Hs by (done || congruence);
      by apply pause_inv; [|right|].
  - pose proof (due_exact t now worked IH) as Hdue. unfold Fire in H. destruct (tm_state t) eqn:E; try discriminate.
    destruct IH as [Hcal Hb Hcons Hw Hs]. destruct (tm_due_at t) as [due|] eqn:Ed; [|done].
    destruct (Z.ltb_spec now due); [done|]. injection H as <-. constructor; cbn [timer_at armed tm_budget tm_consumed tm_state tm_calendar tm_running_since tm_due_at]; try done; try lia.
    split; [done|]. split; [done|]. intros Hh. destruct (Hdue eq_refl Hh) as (due' & Hd' & Hiff). injection Hd' as <-. by apply Hiff.
Qed.
End Life.

(** ** Properties *)


(** ** Witnesses *)

(** Armed on Christmas Eve with three hours of office time, looked at in the
    evening of the holiday. *)
Definition desk_arm : res Timer := Arm "t-1" "t" PurposeSLA "item" "resolution" office (3 * Hour) christmas_eve.
Definition desk_timer : Timer :=
  match desk_arm with Ok t => t | _ => armed "" "" "" "" "" office 1 end.

Lemma desk_armed : desk_arm = Ok desk_timer.
Proof. vm_compute. reflexivity. Qed.


(** On Monday at eleven the budget is spent and the timer fires; a minute before its
    instant it does not. *)
Example desk_fires : (t ← desk_arm; Fire t (go_date UTC 2026 12 28 11 0 0 0)) =
  (t ← desk_arm; Ok (timer_at t (3 * Hour) None (Some (go_date UTC 2026 12 28 11 0 0 0)) TimerFired
                     (Some (go_date UTC 2026 12 28 11 0 0 0)))) /\
  (t ← desk_arm; Fire t (go_date UTC 2026 12 28 10 59 0 0)) = Err (WithDetail ErrConflict "timer.not_due").
Proof. vm_compute. split; reflexivity. Qed.
