(* ===== verification/Sla.v ===== *)
(** * Service levels: what an entry is promised

    Models core/domain/model/servicedesk/Sla.go with [checkName] and [invalid] of
    servicedesk/Calendar.go: the goals of a policy and their targets per
    priority, how a policy is checked, changed and copied to a hub, which policy
    an entry is measured against, which teams' promises run beside it, and the
    record of what became of a goal.  What runs the clocks is SlaClocks.v.

    The theorems: a checked policy has each kind of goal once and in order, and
    no target or warning leaves a timer's bounds or 64 bits; and an entry's
    policy is the first that covers it, a hub's own before the workspace's,
    whatever order the policies are listed in. *)

From Stdlib Require Import ZArith Lia String Ascii List Bool.
From stdpp Require Import base list strings gmap sorting.
From S2P Require Import Prelude Shared Text Civil Calendar Timer.

Open Scope string_scope.
Open Scope list_scope.
Open Scope Z_scope.

(** ** Goals *)

Definition GoalFirstResponse : string := "FIRST_RESPONSE".
Definition GoalNextResponse : string := "NEXT_RESPONSE".
Definition GoalResolution : string := "RESOLUTION".
Definition goalKinds : list string := [GoalFirstResponse; GoalNextResponse; GoalResolution].

Definition GoalKindValid (k : string) : bool := contains goalKinds k.
Definition WaitsForRequester (k : string) : bool := String.eqb k GoalNextResponse.

Definition warnSuffix : string := "_warn".
(** [strings.ToLower]: the kinds are ASCII. *)
Definition TimerName (k : string) : string := to_lower_ascii k.
Definition WarnTimerName (k : string) : string := TimerName k +:+ warnSuffix.

(** [strings.CutSuffix]. *)
Fixpoint cut_suffix (suffix s : string) : option string :=
  if String.eqb s suffix then Some ""
  else match s with EmptyString => None | String c rest => String c <$> cut_suffix suffix rest end.

Definition GoalOfTimer (name : string) : option (string * bool) :=
  let '(base, warn) := match cut_suffix warnSuffix name with Some base => (base, true) | None => (name, false) end in
  (fun kind => (kind, warn)) <$> List.find (fun kind => String.eqb (TimerName kind) base) goalKinds.

Definition MaxPolicyEntryTypes : nat := 50.
Definition MaxPolicyOrganisations : nat := 20.
Definition MaxPriorityTargets : nat := 20.
Definition MaxPauseStatuses : nat := 20.
Definition MaxTargetMinutes : Z := MaxBudget `quot` Minute.
Definition SlaMaxNameLength : Z := 120.

Record SLAGoal := mkGoal {
  sg_kind : string; sg_minutes : Z; sg_by_priority : gmap string Z; sg_pause_statuses : list string; sg_warn_percent : Z
}.
Definition no_goal : SLAGoal := mkGoal "" 0 ∅ [] 0.

Definition in_minutes (minutes : Z) : Duration := wrap_int64 (minutes * Minute).

Definition Target (g : SLAGoal) (priority : string) : Duration :=
  match sg_by_priority g !! priority with
  | Some minutes => if String.eqb priority "" then in_minutes (sg_minutes g) else in_minutes minutes
  | None => in_minutes (sg_minutes g)
  end.

Definition Warning (g : SLAGoal) (priority : string) : option Duration :=
  if sg_warn_percent g =? 0 then None
  else
    let warning := wrap_int64 (Target g priority * sg_warn_percent g) `quot` 100 in
    if 0 <? warning then Some warning else None.

Definition Pauses (g : SLAGoal) (status : string) : bool :=
  negb (String.eqb status "") && contains (sg_pause_statuses g) status.

(** ** Policies *)

Record SLAPolicy := mkPolicy {
  sp_id : ID; sp_tenant_id : ID; sp_key : string; sp_name : string; sp_calendar_key : string;
  sp_entry_types : list string; sp_organisations : list string; sp_priority_field : string; sp_assignee_group : ID;
  sp_goals : list SLAGoal; sp_position : Z; sp_enabled : bool; sp_created_at : Time; sp_updated_at : Time;
  sp_version : Z; sp_hub_id : ID; sp_copied_from : string
}.

Record NewSLAPolicyInput := mkPolicyInput {
  pi_id : ID; pi_tenant_id : ID; pi_key : string; pi_name : string; pi_calendar_key : string;
  pi_entry_types : list string; pi_organisations : list string; pi_priority_field : string; pi_assignee_group : ID;
  pi_goals : list SLAGoal; pi_position : Z; pi_enabled : bool; pi_now : Time; pi_text : option (string -> string); pi_hub_id : ID
}.

Definition desk_invalid (path code : string) : Error := field_refused ErrValidation path code [].

Definition keyPattern (key : string) : bool := key_shaped 49 key.

(** [strings.ContainsAny(name, "\r\n\x00")]. *)
Definition breaks_line (name : string) : bool :=
  str_contains "013" name || str_contains "010" name || str_contains "000" name.

Definition checkDeskName (raw : string) (normalizer : option (string -> string)) (area : string) : res string :=
  let name := TrimSpace raw in
  let name := match normalizer with Some nfc => nfc name | None => name end in
  if String.eqb name "" then Err (desk_invalid "/name" (area +:+ ".name_required"))
  else if (SlaMaxNameLength <? RuneCountInString name) || breaks_line name then
    Err (desk_invalid "/name" (area +:+ ".name_invalid"))
  else Ok name.

(** One turn of [checkKeys]' loop: the keys kept so far and the index. *)
Definition check_key (at_ : string) (state : list string * Z) (raw : string) : res (list string * Z) :=
  let '(out, i) := state in
  let key := TrimSpace raw in
  if negb (keyPattern key) then Err (desk_invalid (at_ +:+ "/" +:+ itoa i) "sla_policies.key_malformed")
  else Ok (add_new out key, i + 1).

Definition checkKeys (raw : list string) (at_ : string) (bound : nat) : res (list string) :=
  if Nat.ltb bound (List.length raw) then Err (desk_invalid at_ "sla_policies.too_many")
  else r ← fold_result (check_key at_) ([], 0) raw; Ok r.1.

Definition in_bounds (minutes : Z) : bool := (0 <? minutes) && (minutes <=? MaxTargetMinutes).

Definition check_priority (targets : gmap string Z) (at_ : string) (out : gmap string Z) (priority : string) : res (gmap string Z) :=
  let minutes := default 0 (targets !! priority) in
  if String.eqb (TrimSpace priority) "" || Nat.ltb (Z.to_nat SlaMaxNameLength) (String.length priority) || str_contains "000" priority then
    Err (desk_invalid (at_ +:+ "/by_priority") "sla_policies.priority_malformed")
  else if negb (in_bounds minutes) then
    Err (desk_invalid (at_ +:+ "/by_priority/" +:+ priority) "sla_policies.target_invalid")
  else Ok (<[priority := minutes]> out).

Definition sorted_keys {A} (m : gmap string A) : list string := sort_by String.compare (fst <$> map_to_list m).

Definition checkGoal (goal : SLAGoal) (at_ : string) : res SLAGoal :=
  if negb (GoalKindValid (sg_kind goal)) then Err (desk_invalid (at_ +:+ "/kind") "sla_policies.goal_kind_unknown")
  else if negb (in_bounds (sg_minutes goal)) then Err (desk_invalid (at_ +:+ "/minutes") "sla_policies.target_invalid")
  else if Nat.ltb MaxPriorityTargets (size (sg_by_priority goal)) then
    Err (desk_invalid (at_ +:+ "/by_priority") "sla_policies.too_many_targets")
  else
    targets ← fold_result (check_priority (sg_by_priority goal) at_) ∅ (sorted_keys (sg_by_priority goal));
    pauses ← checkKeys (sg_pause_statuses goal) (at_ +:+ "/pause_statuses") MaxPauseStatuses;
    if (sg_warn_percent goal <? 0) || (99 <? sg_warn_percent goal) then
      Err (desk_invalid (at_ +:+ "/warn_percent") "sla_policies.warn_percent_invalid")
    else Ok (mkGoal (sg_kind goal) (sg_minutes goal) targets pauses (sg_warn_percent goal)).

(** One turn of the loop over the goals. *)
Definition check_goal_at (team : bool) (state : list SLAGoal * Z) (goal : SLAGoal) : res (list SLAGoal * Z) :=
  let '(goals, i) := state in
  let at_ := "/goals/" +:+ itoa i in
  checked ← checkGoal goal at_;
  if team && WaitsForRequester (sg_kind checked) then Err (desk_invalid (at_ +:+ "/kind") "sla_policies.ola_goal_unsupported")
  else if existsb (fun g => String.eqb (sg_kind g) (sg_kind checked)) goals then
    Err (desk_invalid (at_ +:+ "/kind") "sla_policies.goal_twice")
  else Ok (goals ++ [checked], i + 1).

(** [slices.Index(goalKinds[:], k)]. *)
Definition kind_index (k : string) : Z :=
  if String.eqb k GoalFirstResponse then 0 else if String.eqb k GoalNextResponse then 1
  else if String.eqb k GoalResolution then 2 else -1.

Definition NewSLAPolicy (i : NewSLAPolicyInput) : res SLAPolicy :=
  let team := negb (id_is_zero (pi_assignee_group i)) in
  if id_is_zero (pi_id i) || id_is_zero (pi_tenant_id i) then Err (WithDetail ErrInternal "sla_policies.identity_incomplete")
  else
    let key := TrimSpace (pi_key i) in
    if negb (keyPattern key) then Err (desk_invalid "/key" "sla_policies.key_malformed")
    else
      name ← checkDeskName (pi_name i) (pi_text i) "sla_policies";
      let calendarKey := TrimSpace (pi_calendar_key i) in
      let priorityField := TrimSpace (pi_priority_field i) in
      if negb (String.eqb calendarKey "") && negb (keyPattern calendarKey) then
        Err (desk_invalid "/calendar" "sla_policies.calendar_malformed")
      else if negb (String.eqb priorityField "") && negb (keyPattern priorityField) then
        Err (desk_invalid "/priority_field" "sla_policies.priority_field_malformed")
      else
        types ← checkKeys (pi_entry_types i) "/entry_types" MaxPolicyEntryTypes;
        if Nat.eqb (List.length types) 0 then Err (desk_invalid "/entry_types" "sla_policies.entry_types_required")
        else
          organisations ← checkKeys (pi_organisations i) "/organisations" MaxPolicyOrganisations;
          if Nat.eqb (List.length (pi_goals i)) 0 then Err (desk_invalid "/goals" "sla_policies.goals_required")
          else if team && negb (Nat.eqb (List.length organisations) 0) then
            Err (desk_invalid "/organisations" "sla_policies.ola_organisations")
          else
            goals ← fold_result (check_goal_at team) ([], 0) (pi_goals i);
            Ok (mkPolicy (pi_id i) (pi_tenant_id i) key name calendarKey types organisations priorityField
                  (pi_assignee_group i) (sort_by (cmp_on (fun g => kind_index (sg_kind g)) Z.compare) goals.1)
                  (pi_position i) (pi_enabled i) (pi_now i) (pi_now i) 1 (pi_hub_id i) "").

(** The receiver's identity in front of the input's. *)
Definition ChangePolicy (p : SLAPolicy) (i : NewSLAPolicyInput) : res SLAPolicy :=
  changed ← NewSLAPolicy (mkPolicyInput (sp_id p) (sp_tenant_id p) (sp_key p) (pi_name i) (pi_calendar_key i)
              (pi_entry_types i) (pi_organisations i) (pi_priority_field i) (pi_assignee_group i) (pi_goals i)
              (pi_position i) (pi_enabled i) (pi_now i) (pi_text i) (sp_hub_id p));
  Ok (mkPolicy (sp_id changed) (sp_tenant_id changed) (sp_key changed) (sp_name changed) (sp_calendar_key changed)
        (sp_entry_types changed) (sp_organisations changed) (sp_priority_field changed) (sp_assignee_group changed)
        (sp_goals changed) (sp_position changed) (sp_enabled changed) (sp_created_at p) (sp_updated_at changed)
        (sp_version p) (sp_hub_id changed) (sp_copied_from p)).

Definition PolicyUsableIn (p : SLAPolicy) (hub : ID) : bool := id_is_zero (sp_hub_id p) || String.eqb (sp_hub_id p) hub.
Definition PoliciesWithin (policies : list SLAPolicy) (hub : ID) : list SLAPolicy :=
  List.filter (fun p => PolicyUsableIn p hub) policies.

Record SLAPolicyCopy := mkPolicyCopy {
  pc_id : ID; pc_tenant_id : ID; pc_hub_id : ID; pc_key : string; pc_name : option string; pc_now : Time;
  pc_text : option (string -> string)
}.

Definition CopyPolicyAt (p : SLAPolicy) (i : SLAPolicyCopy) : res SLAPolicy :=
  if id_is_zero (pc_hub_id i) then Err (desk_invalid "/hub_id" "sla_policies.hub_required")
  else
    let tenantID := if id_is_zero (pc_tenant_id i) then sp_tenant_id p else pc_tenant_id i in
    copied ← NewSLAPolicy (mkPolicyInput (pc_id i) tenantID (pc_key i) (default (sp_name p) (pc_name i)) (sp_calendar_key p)
               (sp_entry_types p) (sp_organisations p) (sp_priority_field p) (sp_assignee_group p) (sp_goals p)
               (sp_position p) (sp_enabled p) (pc_now i) (pc_text i) (pc_hub_id i));
    Ok (mkPolicy (sp_id copied) (sp_tenant_id copied) (sp_key copied) (sp_name copied) (sp_calendar_key copied)
          (sp_entry_types copied) (sp_organisations copied) (sp_priority_field copied) (sp_assignee_group copied)
          (sp_goals copied) (sp_position copied) (sp_enabled copied) (sp_created_at copied) (sp_updated_at copied)
          (sp_version copied) (sp_hub_id copied) (sp_key p)).

Definition IsOLA (p : SLAPolicy) : bool := negb (id_is_zero (sp_assignee_group p)).

Definition PolicyCovers (p : SLAPolicy) (entryType organisation : string) : bool :=
  sp_enabled p && negb (String.eqb entryType "") && contains (sp_entry_types p) entryType &&
  (Nat.eqb (List.length (sp_organisations p)) 0 ||
   negb (String.eqb organisation "") && contains (sp_organisations p) organisation).

Definition ForOrganisations (policies : list SLAPolicy) : bool :=
  existsb (fun p => sp_enabled p && negb (Nat.eqb (List.length (sp_organisations p)) 0)) policies.

Definition PolicyGoal (p : SLAPolicy) (kind : string) : option SLAGoal :=
  List.find (fun goal => String.eqb (sg_kind goal) kind) (sp_goals p).

(** ** Choosing *)

Definition hubRank (p : SLAPolicy) : Z := if id_is_zero (sp_hub_id p) then 1 else 0.

Definition policy_rank (p : SLAPolicy) : Z * (Z * string) := (hubRank p, (sp_position p, sp_key p)).
Definition rank_compare : Z * (Z * string) -> Z * (Z * string) -> comparison :=
  cmp_pair Z.compare (cmp_pair Z.compare String.compare).

Definition Choose (policies : list SLAPolicy) (entryType organisation : string) : option SLAPolicy :=
  List.find (fun policy => negb (IsOLA policy) && PolicyCovers policy entryType organisation)
    (sort_by (cmp_on policy_rank rank_compare) policies).

Definition OLAsFor (policies : list SLAPolicy) (entryType : string) : list SLAPolicy :=
  sort_by (cmp_on sp_key String.compare) (List.filter (fun policy => IsOLA policy && PolicyCovers policy entryType "") policies).

(** ** What became of a goal *)

Inductive Standing : Type := StandingRunning | StandingPaused | StandingMet | StandingBreached.
#[export] Instance standing_eq_dec : EqDecision Standing.
Proof. solve_decision. Defined.

Definition StandingOf (timer : Timer) : Standing :=
  match tm_state timer with
  | TimerFired => StandingBreached
  | TimerStopped => StandingMet
  | TimerPaused => StandingPaused
  | TimerRunning => StandingRunning
  end.

Record EntrySLA := mkRecord {
  es_id : ID; es_tenant_id : ID; es_item_id : ID; es_goal : string; es_policy_key : string; es_group : ID;
  es_target : Duration; es_standing : Standing; es_armed_at : Time; es_due_at : option Time; es_at_risk_at : option Time;
  es_met_at : option Time; es_breached_at : option Time; es_consumed : Duration; es_version : Z
}.

Definition Follow (r : EntrySLA) (timer : Timer) (now : Time) : EntrySLA :=
  if bool_decide (es_standing r = StandingBreached) then r
  else
    let standing := StandingOf timer in
    mkRecord (es_id r) (es_tenant_id r) (es_item_id r) (es_goal r) (es_policy_key r) (es_group r) (es_target r)
      standing (es_armed_at r) (tm_due_at timer) (es_at_risk_at r)
      (match standing with StandingMet => Some now | _ => es_met_at r end)
      (match standing with StandingBreached => Some (default now (tm_fired_at timer)) | _ => es_breached_at r end)
      (tm_consumed timer) (es_version r).

Definition Rearm (r : EntrySLA) (target : Duration) (now : Time) : option EntrySLA :=
  if bool_decide (es_standing r = StandingMet) then
    Some (mkRecord (es_id r) (es_tenant_id r) (es_item_id r) (es_goal r) (es_policy_key r) (es_group r) target
            StandingRunning now None None None (es_breached_at r) (es_consumed r) (es_version r))
  else None.

(** ** Checked keys and goals *)

Definition good_key (key : string) : Prop := TrimSpace key = key /\ keyPattern key = true.

Lemma check_keys_kept at_ raw : forall out i r, NoDup out /\ Forall good_key out ->
  fold_result (check_key at_) (out, i) raw = Ok r ->
  (NoDup r.1 /\ Forall good_key r.1) /\ (List.length r.1 <= List.length out + List.length raw)%nat.
Proof.
  induction raw as [|x raw IH]; intros out i r Hout H; cbn in H; [injection H as <-; cbn; split; [done|lia]|].
  destruct (keyPattern (TrimSpace x)) eqn:Ek; [|done]. cbn in H.
  destruct (IH _ _ _ (add_new_keeps good_key out (TrimSpace x) Hout (conj (TrimSpace_idem x) Ek)) H) as [H1 H2].
  split; [done|]. cbn. enough (List.length (add_new out (TrimSpace x)) <= S (List.length out))%nat by lia.
  unfold add_new. destruct (contains _ _); [lia|]. rewrite length_app. cbn. lia.
Qed.

Lemma checkKeys_ok raw at_ bound out : checkKeys raw at_ bound = Ok out ->
  NoDup out /\ Forall good_key out /\ (List.length out <= bound)%nat.
Proof.
  unfold checkKeys. destruct (Nat.ltb_spec bound (List.length raw)); [done|]. intros H'. apply bind_ok in H' as (r & H' & [= <-]).
  apply check_keys_kept in H' as [[H1 H2] H3]; [|split; constructor]. cbn in H3. refine (conj H1 (conj H2 _)). lia.
Qed.

Lemma checkKeys_id keys at_ bound : NoDup keys -> Forall good_key keys -> (List.length keys <= bound)%nat ->
  checkKeys keys at_ bound = Ok keys.
Proof.
  intros Hn Hg Hl. unfold checkKeys. destruct (Nat.ltb_spec bound (List.length keys)); [lia|].
  enough (forall rest kept i, NoDup (kept ++ rest) -> Forall good_key rest ->
            exists n, fold_result (check_key at_) (kept, i) rest = Ok (kept ++ rest, n)) as Hloop.
  { by destruct (Hloop keys [] 0 Hn Hg) as (n & ->). }
  clear. induction rest as [|k rest IH]; intros kept i Hn Hg; cbn; [exists i; by rewrite app_nil_r|].
  apply Forall_cons in Hg as [[Ht Hk] Hg]. rewrite Ht, Hk, (add_new_fresh kept k rest Hn). cbn.
  destruct (IH (kept ++ [k]) (i + 1)) as (n & Hr); [by rewrite <- app_assoc|done|]. exists n. by rewrite Hr, <- app_assoc.
Qed.

Definition good_priority (targets : gmap string Z) (priority : string) : Prop :=
  exists minutes, targets !! priority = Some minutes /\ 0 < minutes <= MaxTargetMinutes /\ TrimSpace priority <> "" /\
    (String.length priority <= Z.to_nat SlaMaxNameLength)%nat /\ str_contains "000" priority = false.

Lemma sorted_keys_in {A} (m : gmap string A) k : k ∈ sorted_keys m <-> is_Some (m !! k).
Proof.
  unfold sorted_keys. change String.compare with (cmp_on (fun x : string => x) String.compare).
  rewrite (sort_by_perm (fun x : string => x)), list_elem_of_fmap. split.
  - intros ([k' x] & -> & H). apply elem_of_map_to_list in H. by exists x.
  - intros [x H]. exists (k, x). split; [done|]. by apply elem_of_map_to_list.
Qed.

Lemma check_priority_ok targets at_ out priority : (exists minutes, targets !! priority = Some minutes) ->
  forall r, check_priority targets at_ out priority = Ok r <->
  good_priority targets priority /\ r = <[priority := default 0 (targets !! priority)]> out.
Proof.
  intros [minutes Hm] r. unfold check_priority, good_priority, in_bounds. rewrite Hm. cbn [default]. split.
  - destruct (_ || _ || _) eqn:E1; [done|]. bools. destruct (_ && _) eqn:E2; [|done]. intros [= <-]. bools. split; [|done].
    exists minutes. repeat split; try done; try lia. by apply Nat.ltb_ge.
  - intros [(m & [= <-] & Hb & Ht & Hl & Hz) ->]. apply String.eqb_neq in Ht. rewrite Ht, Hz.
    destruct (Nat.ltb_spec (Z.to_nat SlaMaxNameLength) (String.length priority)); [lia|]. cbn.
    destruct (Z.ltb_spec 0 minutes), (Z.leb_spec minutes MaxTargetMinutes); try lia. done.
Qed.

(** The loop over the priorities answers the targets as they are, or refuses. *)
Lemma check_priorities targets at_ r :
  fold_result (check_priority targets at_) ∅ (sorted_keys targets) = Ok r <->
  r = targets /\ forall priority, is_Some (targets !! priority) -> good_priority targets priority.
Proof.
  enough (Hloop : forall keys out, Forall (fun k => is_Some (targets !! k)) keys ->
            forall r, fold_result (check_priority targets at_) out keys = Ok r <->
              Forall (good_priority targets) keys /\
              r = foldl (fun out k => <[k := default 0 (targets !! k)]> out) out keys).
  { rewrite Hloop by (apply Forall_forall; intros k; apply sorted_keys_in).
    assert (foldl (fun out k => <[k := default 0 (targets !! k)]> out) ∅ (sorted_keys targets) = targets) as ->.
    - apply map_eq. intros k.
      enough (forall keys out, foldl (fun out k => <[k := default 0 (targets !! k)]> out) out keys !! k =
                if bool_decide (k ∈ keys) then Some (default 0 (targets !! k)) else out !! k) as ->.
      + rewrite lookup_empty. destruct (bool_decide_reflect (k ∈ sorted_keys targets)) as [Hin|Hin].
        * apply sorted_keys_in in Hin as [x ->]. done.
        * rewrite sorted_keys_in in Hin. destruct (targets !! k) as [x|]; [destruct Hin; by exists x|done].
      + clear. induction keys as [|x keys IH]; intros out; cbn [foldl]; [done|]. rewrite IH.
        destruct (decide (k = x)) as [->|Hne].
        * rewrite (bool_decide_eq_true_2 (x ∈ x :: keys)) by by left. rewrite lookup_insert_eq. by case_bool_decide.
        * rewrite lookup_insert_ne by done. do 2 case_bool_decide; set_solver.
    - rewrite Forall_forall. split.
      + intros [H1 H2]. split; [done|]. intros k Hk. apply H1. by apply sorted_keys_in.
      + intros [H1 H2]. split; [|done]. intros k Hk. apply H2. by apply sorted_keys_in. }
  induction keys as [|k keys IH]; intros out Hall r'; cbn.
  - split; [intros [= <-]; split; [constructor|done]|by intros [_ ->]].
  - apply Forall_cons in Hall as [Hk Hall]. rewrite Forall_cons. split.
    + intros H. apply bind_ok in H as (o1 & H1 & H2). apply check_priority_ok in H1 as [Hg ->]; [|done].
      apply IH in H2 as [H2 ->]; done.
    + intros [[Hg Hgs] ->]. rewrite (proj2 (check_priority_ok targets at_ out k Hk _) (conj Hg eq_refl)). cbn. by apply IH.
Qed.

(** What [checkGoal] lets through, and nothing else. *)
Record good_goal (g : SLAGoal) : Prop := {
  gg_kind : GoalKindValid (sg_kind g) = true;
  gg_minutes : 0 < sg_minutes g <= MaxTargetMinutes;
  gg_size : (size (sg_by_priority g) <= MaxPriorityTargets)%nat;
  gg_priorities : forall priority, is_Some (sg_by_priority g !! priority) -> good_priority (sg_by_priority g) priority;
  gg_pauses : NoDup (sg_pause_statuses g) /\ Forall good_key (sg_pause_statuses g) /\ (List.length (sg_pause_statuses g) <= MaxPauseStatuses)%nat;
  gg_warn : 0 <= sg_warn_percent g <= 99
}.

Lemma checkGoal_ok goal at_ g : checkGoal goal at_ = Ok g ->
  good_goal g /\ sg_kind g = sg_kind goal.
Proof.
  unfold checkGoal, in_bounds. destruct (GoalKindValid _) eqn:Ek; [|done]. cbn [negb].
  destruct (_ && _) eqn:Em; [|done]. destruct (Nat.ltb_spec MaxPriorityTargets (size (sg_by_priority goal))); [done|]. cbn [negb].
  intros H'. apply bind_ok in H' as (targets & Ht & H'). apply check_priorities in Ht as [-> Ht].
  apply bind_ok in H' as (pauses & Hp & H'). apply checkKeys_ok in Hp.
  destruct (_ || _) eqn:Ew; [done|]. injection H' as <-. bools. split; [|done]. constructor; cbn; try done; lia.
Qed.

Lemma checkGoal_id g at_ : good_goal g -> checkGoal g at_ = Ok g.
Proof.
  intros [Hk Hm Hs Hp (Hn & Hg & Hl) Hw]. unfold checkGoal, in_bounds. rewrite Hk. cbn [negb].
  destruct (Z.ltb_spec 0 (sg_minutes g)), (Z.leb_spec (sg_minutes g) MaxTargetMinutes); try lia. cbn [negb andb].
  destruct (Nat.ltb_spec MaxPriorityTargets (size (sg_by_priority g))); [lia|].
  rewrite (proj2 (check_priorities (sg_by_priority g) at_ (sg_by_priority g)) (conj eq_refl Hp)). cbn.
  rewrite (checkKeys_id _ _ _ Hn Hg Hl). cbn.
  destruct (Z.ltb_spec (sg_warn_percent g) 0), (Z.ltb_spec 99 (sg_warn_percent g)); try lia. by destruct g.
Qed.

Definition team_goal (team : bool) (g : SLAGoal) : Prop := team = true -> WaitsForRequester (sg_kind g) = false.

(** The goals of a policy, of a team or not. *)
Record good_goals (team : bool) (goals : list SLAGoal) : Prop := {
  gs_each : Forall (fun g => good_goal g /\ team_goal team g) goals;
  gs_once : NoDup (sg_kind <$> goals)
}.

Lemma kind_taken kind goals : existsb (fun g => String.eqb (sg_kind g) kind) goals = false <-> kind ∉ sg_kind <$> goals.
Proof.
  rewrite <- not_true_iff_false, existsb_exists, list_elem_of_fmap. split; intros H H'; apply H.
  - destruct H' as (g & -> & Hg). exists g. by rewrite String.eqb_refl, <- list_elem_of_In.
  - destruct H' as (g & Hg & E). apply String.eqb_eq in E as <-. exists g. by rewrite list_elem_of_In.
Qed.

Lemma check_goal_at_ok team goals i goal r : good_goals team goals -> check_goal_at team (goals, i) goal = Ok r ->
  good_goals team r.1 /\ (1 <= List.length r.1)%nat.
Proof.
  intros [Hall Hn] H. unfold check_goal_at in H. apply bind_ok in H as (g & Hg & H). apply checkGoal_ok in Hg as [Hg _].
  destruct (team && _) eqn:Et; [done|]. destruct (existsb _ _) eqn:Ek; [done|]. injection H as <-. apply kind_taken in Ek. cbn. split.
  - split.
    + apply Forall_app. split; [done|]. constructor; [|constructor]. split; [done|]. intros ->. by destruct (WaitsForRequester _).
    + rewrite fmap_app. apply NoDup_app. split; [done|]. split; [|apply NoDup_singleton].
      intros k Hk ->%list_elem_of_singleton. done.
  - rewrite length_app. cbn. lia.
Qed.

Lemma check_goals_ok team raw r : raw <> [] -> fold_result (check_goal_at team) ([], 0) raw = Ok r ->
  good_goals team r.1 /\ r.1 <> [].
Proof.
  intros Hne H. destruct raw as [|goal raw]; [done|]. cbn [fold_result] in H. apply bind_ok in H as (s & Hs & H).
  apply check_goal_at_ok in Hs; [|split; constructor].
  enough (good_goals team r.1 /\ (1 <= List.length r.1)%nat) as [Hg Hl] by (split; [done|by destruct r.1; [cbn in Hl; lia|]]).
  revert H. apply (fold_result_inv _ (fun s => good_goals team s.1 /\ (1 <= List.length s.1)%nat)); [|done].
  intros [goals i] x s' [Hg _] _ Hx. by eapply check_goal_at_ok.
Qed.

Lemma check_goals_id team goals : good_goals team goals -> exists n, fold_result (check_goal_at team) ([], 0) goals = Ok (goals, n).
Proof.
  intros [Hall Hn]. apply (fold_grow_id (fun acc => acc) (check_goal_at team) goals [] 0).
  intros acc y rest j ->. unfold check_goal_at. apply forall_split in Hall as [Hy Ht]. rewrite (checkGoal_id y _ Hy). cbn.
  destruct (team && _) eqn:E; [bools; rewrite Ht in *; done|]. apply nodup_split in Hn. apply kind_taken in Hn. by rewrite Hn.
Qed.

Lemma goalKinds_cases k : k ∈ goalKinds -> k = GoalFirstResponse \/ k = GoalNextResponse \/ k = GoalResolution.
Proof. unfold goalKinds. set_solver. Qed.

Lemma kind_index_inj k k' : GoalKindValid k = true -> GoalKindValid k' = true -> kind_index k = kind_index k' -> k = k'.
Proof.
  intros H%contains_in%goalKinds_cases H'%contains_in%goalKinds_cases.
  destruct H as [->|[->| ->]], H' as [->|[->| ->]]; done.
Qed.

Definition sort_goals (goals : list SLAGoal) : list SLAGoal := sort_by (cmp_on (fun g => kind_index (sg_kind g)) Z.compare) goals.

Lemma good_goals_indices team goals : good_goals team goals -> NoDup ((fun g => kind_index (sg_kind g)) <$> goals).
Proof.
  intros [Hall Hn]. induction goals as [|g goals IH]; [constructor|]. cbn [fmap list_fmap] in Hn |- *.
  apply Forall_cons in Hall as [[Hg _] Hall]. apply NoDup_cons in Hn as [Hg' Hn]. constructor; [|by apply IH].
  intros Hin. apply list_elem_of_fmap in Hin as (g' & E & Hin). apply Hg'. rewrite Forall_forall in Hall.
  rewrite (kind_index_inj _ _ (gg_kind _ Hg) (gg_kind _ (proj1 (Hall g' Hin))) E). by apply list_elem_of_fmap_2.
Qed.

Lemma sort_goals_good team goals : good_goals team goals -> good_goals team (sort_goals goals) /\ sort_goals (sort_goals goals) = sort_goals goals.
Proof.
  intros Hg. pose proof (good_goals_indices team goals Hg) as Hi. destruct Hg as [Hall Hn].
  pose proof (sort_by_perm (fun g => kind_index (sg_kind g)) Z.compare goals) as Hp. fold (sort_goals goals) in Hp. split.
  - split; by rewrite Hp.
  - symmetry. apply sort_by_same; [apply _|done|]. by rewrite Hp.
Qed.

(** ** Checked policies *)

Definition optional_key (key : string) : Prop := TrimSpace key = key /\ (key = "" \/ keyPattern key = true).

Definition checked_keys (keys : list string) (bound : nat) : Prop :=
  NoDup keys /\ Forall good_key keys /\ (List.length keys <= bound)%nat.

(** What [NewSLAPolicy] lets through. *)
Record good_policy (form : option (string -> string)) (p : SLAPolicy) : Prop := {
  gp_ids : id_is_zero (sp_id p) = false /\ id_is_zero (sp_tenant_id p) = false;
  gp_key : good_key (sp_key p);
  gp_name : exists raw, checkDeskName raw form "sla_policies" = Ok (sp_name p);
  gp_calendar : optional_key (sp_calendar_key p);
  gp_priority : optional_key (sp_priority_field p);
  gp_types : checked_keys (sp_entry_types p) MaxPolicyEntryTypes /\ sp_entry_types p <> [];
  gp_organisations : checked_keys (sp_organisations p) MaxPolicyOrganisations /\ (IsOLA p = true -> sp_organisations p = []);
  gp_goals : good_goals (IsOLA p) (sp_goals p) /\ sp_goals p <> [] /\ sort_goals (sp_goals p) = sp_goals p
}.

Lemma checkDeskName_again raw form area name : NormalForm form -> checkDeskName raw form area = Ok name ->
  checkDeskName name form area = Ok name.
Proof.
  intros Hf. unfold checkDeskName.
  assert (Hn : forall n, n = match form with Some nfc => nfc (TrimSpace raw) | None => TrimSpace raw end ->
            match form with Some nfc => nfc (TrimSpace n) | None => TrimSpace n end = n).
  { intros n ->. destruct form as [nfc|]; [|apply TrimSpace_idem].
    rewrite (normal_trimmed nfc) by (done || apply TrimSpace_idem). by rewrite (normal_idem nfc). }
  specialize (Hn _ eq_refl). destruct (String.eqb _ "") eqn:E1; [done|]. destruct (_ || _) eqn:E2; [done|]. intros [= <-].
  by rewrite Hn, E1, E2.
Qed.

Lemma optional_key_checked raw : negb (String.eqb (TrimSpace raw) "") && negb (keyPattern (TrimSpace raw)) = false ->
  optional_key (TrimSpace raw).
Proof.
  intros H. split; [apply TrimSpace_idem|]. destruct (String.eqb _ "") eqn:E; bools; [by left|]. right. by destruct (keyPattern _).
Qed.

Lemma optional_key_passes key : optional_key key ->
  TrimSpace key = key /\ negb (String.eqb key "") && negb (keyPattern key) = false.
Proof. intros [Ht [->|H]]; (split; [done|]); [done|]. rewrite H. by destruct (String.eqb key ""). Qed.

Lemma length_zero {A} (xs : list A) : Nat.eqb (List.length xs) 0 = true <-> xs = [].
Proof. by destruct xs. Qed.

Lemma NewSLAPolicy_good i p : NewSLAPolicy i = Ok p -> good_policy (pi_text i) p.
Proof.
  intros H. unfold NewSLAPolicy in H. destruct (_ || _) eqn:Eid; [done|]. bools.
  destruct (keyPattern _) eqn:Ek; [|done]. cbn [negb] in H. apply bind_ok in H as (name & Hname & H).
  destruct (_ && _) eqn:Ec; [done|]. destruct (negb (String.eqb (TrimSpace (pi_priority_field i)) "") && _) eqn:Ep; [done|].
  apply bind_ok in H as (types & Ht & H). apply checkKeys_ok in Ht. destruct (Nat.eqb _ 0) eqn:E0; [done|].
  apply bind_ok in H as (orgs & Ho & H). apply checkKeys_ok in Ho. destruct (Nat.eqb (List.length (pi_goals i)) 0) eqn:Eg; [done|].
  destruct (_ && _) eqn:Eo in H; [done|]. apply bind_ok in H as (goals & Hg & H). injection H as <-.
  apply check_goals_ok in Hg as [Hg Hne]; [|intros E; by rewrite E in Eg]. destruct (sort_goals_good _ _ Hg) as [Hsg Hss].
  constructor; cbn -[IsOLA]; try done.
  - split; [apply TrimSpace_idem|done].
  - by exists (pi_name i).
  - by apply optional_key_checked.
  - by apply optional_key_checked.
  - split; [done|]. intros ->. done.
  - split; [done|]. intros Hola. change (negb (id_is_zero (pi_assignee_group i)) = true) in Hola. rewrite Hola in Eo. apply length_zero.
    by destruct (Nat.eqb (List.length orgs) 0).
  - split; [exact Hsg|]. split; [|exact Hss]. intros E. apply Hne. apply Permutation_nil.
    rewrite <- (sort_by_perm (fun g => kind_index (sg_kind g)) Z.compare goals.1). by rewrite E.
Qed.

(** The input that asks for a policy as it is. *)
Definition input_of (p : SLAPolicy) (id tenant : ID) (key : string) (now : Time) (form : option (string -> string)) (hub : ID) : NewSLAPolicyInput :=
  mkPolicyInput id tenant key (sp_name p) (sp_calendar_key p) (sp_entry_types p) (sp_organisations p) (sp_priority_field p)
    (sp_assignee_group p) (sp_goals p) (sp_position p) (sp_enabled p) now form hub.

Lemma NewSLAPolicy_again p form id tenant key now hub : NormalForm form -> good_policy form p -> id_is_zero id = false -> id_is_zero tenant = false ->
  good_key key ->
  NewSLAPolicy (input_of p id tenant key now form hub) =
    Ok (mkPolicy id tenant key (sp_name p) (sp_calendar_key p) (sp_entry_types p) (sp_organisations p) (sp_priority_field p)
          (sp_assignee_group p) (sp_goals p) (sp_position p) (sp_enabled p) now now 1 hub "").
Proof.
  intros Hf [_ _ [raw Hn] Hc Hp [(Ht1 & Ht2 & Ht3) Ht] [(Ho1 & Ho2 & Ho3) Ho] (Hg & Hgne & Hgs)] Hid Htn [Hk1 Hk2].
  apply (checkDeskName_again raw form _ _ Hf) in Hn. unfold NewSLAPolicy, input_of. cbn [pi_id pi_tenant_id pi_key pi_name pi_calendar_key pi_entry_types pi_organisations pi_priority_field pi_assignee_group pi_goals pi_position pi_enabled pi_now pi_text pi_hub_id]. rewrite Hid, Htn. cbn [orb].
  apply optional_key_passes in Hc as [-> ->], Hp as [-> ->].
  rewrite Hk1, Hk2, Hn. cbn [negb mbind result_bind]. rewrite (checkKeys_id _ _ _ Ht1 Ht2 Ht3). cbn [mbind result_bind].
  destruct (Nat.eqb (List.length (sp_entry_types p)) 0) eqn:E; [by apply length_zero in E|].
  rewrite (checkKeys_id _ _ _ Ho1 Ho2 Ho3). cbn [mbind result_bind].
  destruct (Nat.eqb (List.length (sp_goals p)) 0) eqn:E'; [by apply length_zero in E'|].
  assert (negb (id_is_zero (sp_assignee_group p)) && negb (Nat.eqb (List.length (sp_organisations p)) 0) = false) as ->.
  { destruct (negb (id_is_zero _)) eqn:Eo; [|done]. by rewrite Ho. }
  destruct (check_goals_id _ _ Hg) as (n & Hgo). unfold IsOLA in Hgo. rewrite Hgo. cbn. unfold sort_goals in Hgs. by rewrite Hgs.
Qed.

(** ** Properties *)

(** Whatever a policy's goals were given as, once it is checked no target
    and no warning leaves a timer's bounds: for every priority, one a person
    invents included, the target is a positive number of minutes, exactly, and
    at most the longest budget of a timer; and the warning, where the goal has
    one, comes strictly before the target, at the goal's percentage of it - the
    multiplication in 64-bit nanoseconds never wraps. *)
Theorem sla_targets_bounded (i : NewSLAPolicyInput) (p : SLAPolicy) (g : SLAGoal) (priority : string)
    (H : NewSLAPolicy i = Ok p) (Hg : g ∈ sp_goals p) :
  (exists minutes, Target g priority = minutes * Minute /\ 0 < minutes) /\ Target g priority <= MaxBudget /\
  match Warning g priority with
  | Some warning => 0 < warning < Target g priority /\ warning = Target g priority * sg_warn_percent g / 100
  | None => sg_warn_percent g = 0
  end.
Proof.
  apply NewSLAPolicy_good in H. destruct (gp_goals _ _ H) as ([Hall _] & _). rewrite Forall_forall in Hall.
  destruct (Hall g Hg) as [Hgood _].
  assert (Ht : exists minutes, Target g priority = minutes * Minute /\ 0 < minutes <= MaxTargetMinutes).
  { assert (Hm : forall m, 0 < m <= MaxTargetMinutes -> in_minutes m = m * Minute).
    { intros m Hm. apply wrap_int64_id. change MaxTargetMinutes with 527040 in Hm.
      unfold min_duration, max_duration, Minute, Second, Millisecond. lia. }
    pose proof (gg_minutes _ Hgood) as Hd. unfold Target. destruct (sg_by_priority g !! priority) as [m|] eqn:E.
    - destruct (String.eqb priority ""); [by exists (sg_minutes g); rewrite Hm|]. exists m.
      destruct (gg_priorities _ Hgood priority) as (m' & Hm' & Hb & _); [by exists m|]. rewrite E in Hm'. injection Hm' as <-.
      by rewrite Hm.
    - by exists (sg_minutes g); rewrite Hm. }
  destruct Ht as (m & Ht & Hm). pose proof (gg_warn _ Hgood) as Hw. change MaxTargetMinutes with 527040 in Hm.
  assert (HM : Minute = 60000000000) by done. split; [exists m; split; [done|lia]|]. split; [rewrite Ht; change MaxBudget with (527040 * Minute); lia|].
  unfold Warning. destruct (Z.eqb_spec (sg_warn_percent g) 0); [done|].
  rewrite wrap_int64_id by (unfold min_duration, max_duration; nia). rewrite Z.quot_div_nonneg by nia.
  assert (Hlo : 1 <= Target g priority * sg_warn_percent g / 100) by (apply Z.div_le_lower_bound; nia).
  destruct (Z.ltb_spec 0 (Target g priority * sg_warn_percent g / 100)); [|lia]. split; [|done]. split; [done|].
  apply Z.div_lt_upper_bound; nia.
Qed.

(** A policy that was accepted is accepted again: changing it to what it
    already is changes nothing but the moment, and a hub can always copy it -
    under a key of its own, with everything a workspace's policy says. *)
Theorem sla_policy_copies (i : NewSLAPolicyInput) (p : SLAPolicy) (Hf : NormalForm (pi_text i)) (H : NewSLAPolicy i = Ok p) :
  (forall now, ChangePolicy p (input_of p (sp_id p) (sp_tenant_id p) (sp_key p) now (pi_text i) (sp_hub_id p)) =
     Ok (mkPolicy (sp_id p) (sp_tenant_id p) (sp_key p) (sp_name p) (sp_calendar_key p) (sp_entry_types p) (sp_organisations p)
           (sp_priority_field p) (sp_assignee_group p) (sp_goals p) (sp_position p) (sp_enabled p) (sp_created_at p) now
           (sp_version p) (sp_hub_id p) (sp_copied_from p))) /\
  (forall id hub key now, id <> "" -> hub <> "" -> keyPattern key = true ->
     CopyPolicyAt p (mkPolicyCopy id "" hub key None now (pi_text i)) =
     Ok (mkPolicy id (sp_tenant_id p) key (sp_name p) (sp_calendar_key p) (sp_entry_types p) (sp_organisations p)
           (sp_priority_field p) (sp_assignee_group p) (sp_goals p) (sp_position p) (sp_enabled p) now now 1 hub (sp_key p))).
Proof.
  pose proof (NewSLAPolicy_good _ _ H) as Hgood. pose proof (gp_ids _ _ Hgood) as [Hid Htn].
  pose proof (gp_key _ _ Hgood) as Hk. split.
  - intros now. unfold ChangePolicy. change (mkPolicyInput _ _ _ _ _ _ _ _ _ _ _ _ _ _ _)
      with (input_of p (sp_id p) (sp_tenant_id p) (sp_key p) now (pi_text i) (sp_hub_id p)).
    by rewrite (NewSLAPolicy_again p _ _ _ _ now _ Hf Hgood Hid Htn Hk).
  - intros id hub key now Hne Hhub Hkey. apply String.eqb_neq in Hne, Hhub. unfold CopyPolicyAt.
    cbn [pc_hub_id pc_tenant_id pc_id pc_key pc_name pc_now pc_text default]. unfold id_is_zero at 1. rewrite Hhub.
    change (mkPolicyInput _ _ _ _ _ _ _ _ _ _ _ _ _ _ _) with (input_of p id (sp_tenant_id p) key now (pi_text i) hub).
    rewrite (NewSLAPolicy_again p _ _ _ _ now _ Hf Hgood Hne Htn); [done|]. split; [by apply (trim_key 49)|done].
Qed.

#[export] Instance rank_total : TotalCompare rank_compare.
Proof. unfold rank_compare. apply _. Qed.

Definition measures (p : SLAPolicy) (hub : ID) (entryType organisation : string) : bool :=
  PolicyUsableIn p hub && (negb (IsOLA p) && PolicyCovers p entryType organisation).

(** An entry is measured against one policy, whatever order the policies
    are listed in: of those usable in its hub that cover its type and its
    requester's organisation and are no team's, the least by hub, position and
    key - so never a workspace's while one of the hub's own covers it -, and
    none only if there is none. *)
Theorem policy_chosen (policies listed : list SLAPolicy) (hub : ID) (entryType organisation : string)
    (Hkeys : NoDup (sp_key <$> policies)) (Hlisted : listed ≡ₚ policies) :
  Choose (PoliciesWithin listed hub) entryType organisation = Choose (PoliciesWithin policies hub) entryType organisation /\
  match Choose (PoliciesWithin policies hub) entryType organisation with
  | Some p => p ∈ policies /\ measures p hub entryType organisation = true /\
      forall q, q ∈ policies -> measures q hub entryType organisation = true ->
        (q = p \/ rank_compare (policy_rank p) (policy_rank q) = Lt) /\ (sp_hub_id q = hub -> sp_hub_id p = hub)
  | None => forall q, q ∈ policies -> measures q hub entryType organisation = false
  end.
Proof.
  assert (Hnd : NoDup (policy_rank <$> PoliciesWithin policies hub)).
  { apply (NoDup_fmap_1 (fun r : Z * (Z * string) => r.2.2)). rewrite <- list_fmap_compose. unfold compose, policy_rank. cbn.
    revert Hkeys. unfold PoliciesWithin. clear. induction policies as [|p ps IH]; [constructor|]. cbn [fmap list_fmap List.filter].
    intros [Hp Hps]%NoDup_cons. destruct (PolicyUsableIn p hub); [|by apply IH]. cbn [fmap list_fmap]. constructor; [|by apply IH].
    intros Hin. apply Hp. apply list_elem_of_fmap in Hin as (q & -> & Hq). apply list_elem_of_fmap_2.
    by apply list_elem_of_In, filter_In in Hq as [Hq%list_elem_of_In _]. }
  assert (Hin : forall q, q ∈ PoliciesWithin policies hub <-> q ∈ policies /\ PolicyUsableIn q hub = true).
  { intros q. unfold PoliciesWithin. by rewrite list_elem_of_In, filter_In, <- list_elem_of_In. }
  split.
  - unfold Choose. f_equal. symmetry. apply sort_by_same; [apply _|done|]. unfold PoliciesWithin. symmetry.
    by apply filter_perm.
  - pose proof (find_least policy_rank rank_compare (fun p => negb (IsOLA p) && PolicyCovers p entryType organisation) _ Hnd) as H.
    unfold Choose, measures. destruct (List.find _ _) as [p|].
    + destruct H as (Hp & Hc & Hl). apply Hin in Hp as [Hp Hu]. split; [done|]. split; [by rewrite Hu|].
      intros q Hq Hm. apply andb_true_iff in Hm as [Huq Hm]. destruct (Hl q) as [->|Hlt]; [by apply Hin|done|by split; [left|]|].
      split; [by right|]. intros Hqh. unfold rank_compare, cmp_pair, policy_rank, hubRank in Hlt. cbn in Hlt. unfold PolicyUsableIn in Hu.
      destruct (id_is_zero (sp_hub_id p)) eqn:Ep; [|cbn in Hu; by bools]. apply String.eqb_eq in Ep.
      destruct (id_is_zero (sp_hub_id q)) eqn:Eq; [apply String.eqb_eq in Eq; congruence|]. done.
    + intros q Hq. destruct (PolicyUsableIn q hub) eqn:Eu; [|done]. apply H. by apply Hin.
Qed.

(** ** Witnesses *)

Definition desk_goals : list SLAGoal :=
  [mkGoal GoalResolution 480 {[ "urgent" := 60 ]} ["waiting"] 75; mkGoal GoalFirstResponse 30 ∅ [] 0].
Definition desk_input : NewSLAPolicyInput :=
  mkPolicyInput "p-1" "t" "incidents" " Incidents " "office" ["incident"; " incident"] [] "priority" "" desk_goals 1 true 7 None "".
Definition desk_policy : SLAPolicy :=
  mkPolicy "p-1" "t" "incidents" "Incidents" "office" ["incident"] [] "priority" ""
    [mkGoal GoalFirstResponse 30 ∅ [] 0; mkGoal GoalResolution 480 {[ "urgent" := 60 ]} ["waiting"] 75] 1 true 7 7 1 "" "".

Lemma desk_policy_made : NewSLAPolicy desk_input = Ok desk_policy.
Proof. vm_compute. reflexivity. Qed.

Lemma sla_targets_bounded_witness :
  exists g, g ∈ sp_goals desk_policy /\ Warning g "urgent" = Some (45 * Minute) /\ 0 < 45 * Minute < Target g "urgent".
Proof.
  exists (mkGoal GoalResolution 480 {[ "urgent" := 60 ]} ["waiting"] 75).
  assert (Hg : mkGoal GoalResolution 480 {[ "urgent" := 60 ]} ["waiting"] 75 ∈ sp_goals desk_policy) by (right; left).
  split; [exact Hg|]. split; [vm_compute; reflexivity|].
  destruct (sla_targets_bounded desk_input desk_policy _ "urgent" desk_policy_made Hg) as (_ & _ & H). exact (proj1 H).
Defined.

Lemma sla_policy_copies_witness :
  exists copied, CopyPolicyAt desk_policy (mkPolicyCopy "p-2" "" "hub-1" "incidents_own" None 9 None) = Ok copied /\
    sp_hub_id copied = "hub-1" /\ sp_copied_from copied = "incidents" /\ sp_goals copied = sp_goals desk_policy.
Proof.
  destruct (sla_policy_copies desk_input desk_policy normal_none desk_policy_made) as [_ H].
  eexists. split; [apply (H "p-2" "hub-1" "incidents_own" 9); [congruence|congruence|vm_compute; reflexivity]|]. done.
Defined.

(** The same policy at hub-1, a workspace's and another hub's, all of one type. *)
Definition at_hub (key : string) (hub : ID) (position : Z) : SLAPolicy :=
  mkPolicy key "t" key "Incidents" "" ["incident"] [] "" "" desk_goals position true 7 7 1 hub "".
Definition three_policies : list SLAPolicy := [at_hub "first" "" 0; at_hub "other" "hub-2" 0; at_hub "own" "hub-1" 5].

Lemma policy_chosen_witness :
  Choose (PoliciesWithin (rev three_policies) "hub-1") "incident" "" = Choose (PoliciesWithin three_policies "hub-1") "incident" "" /\
  Choose (PoliciesWithin three_policies "hub-1") "incident" "" = Some (at_hub "own" "hub-1" 5).
Proof.
  split; [|vm_compute; reflexivity].
  refine (proj1 (policy_chosen three_policies (rev three_policies) "hub-1" "incident" "" _ _)).
  - apply (bool_decide_unpack _). vm_compute. exact I.
  - symmetry. apply Permutation_rev.
Defined.

(** A policy of a team with a goal that waits for the requester, a kind twice, a
    target of no time and a warning at the whole are refused. *)
Example policies_refused :
  (exists e, NewSLAPolicy (mkPolicyInput "p" "t" "ola" "OLA" "" ["incident"] [] "" "g" [mkGoal GoalNextResponse 5 ∅ [] 0] 0 true 7 None "") = Err e /\
     err_detail e = "sla_policies.ola_goal_unsupported") /\
  (exists e, checkGoal (mkGoal GoalResolution 0 ∅ [] 0) "/goals/0" = Err e /\ err_detail e = "sla_policies.target_invalid") /\
  (exists e, checkGoal (mkGoal GoalResolution 1 ∅ [] 100) "/goals/0" = Err e /\ err_detail e = "sla_policies.warn_percent_invalid") /\
  (exists e, fold_result (check_goal_at false) ([], 0) [mkGoal GoalResolution 1 ∅ [] 0; mkGoal GoalResolution 2 ∅ [] 0] = Err e /\
     err_detail e = "sla_policies.goal_twice").
Proof. repeat split; eexists; (split; [vm_compute; reflexivity|reflexivity]). Qed.

(** Every timer a goal has names its goal, and no other timer does. *)
Example timers_name_goals :
  Forall (fun k => GoalOfTimer (TimerName k) = Some (k, false) /\ GoalOfTimer (WarnTimerName k) = Some (k, true)) goalKinds /\
  GoalOfTimer "level_1_due" = None.
Proof. split; [repeat constructor|reflexivity]. Qed.
