(* ===== verification/SlaClocks.v ===== *)
(** * Service level clocks: keeping an entry's promises in step with it

    Models core/application/service/servicedesk/Clocks.go - the subscriber that
    arms, pauses, resumes, retargets and meets an entry's goals as its events
    are delivered, and what a timer that runs out means -, [policiesFor] of
    PolicyCopy.go, [organisationOf] of Portal.go with [DomainOfAddress], and of
    application/service/calendar/Timers.go the [Clocks] every method goes
    through and the firing of one timer.

    The state is the workspace's [Desk]: the live timers by purpose, subject and
    name, of which the database allows one each, the records by entry and goal,
    the firings asked of the job queue, the announcements in the outbox, and how
    many identifiers were minted.  What a delivery only reads is [Reads].

    The theorems: after any sequence of deliveries, firings and purges, every
    goal's record says what its timer does and no timer outlives its goal; a
    goal moves only as a promise may - a broken one stays broken, and a met one
    runs again only for the requester's next words; a completion leaves no goal
    of the entry open; and a status the goal pauses in stands its clock still. *)

From Stdlib Require Import ZArith Lia String Ascii List Bool.
From stdpp Require Import base list strings gmap pretty.
From S2P Require Import Prelude Shared Effects Text Civil Calendar Timer Sla.

Open Scope string_scope.
Open Scope list_scope.
Open Scope Z_scope.
Open Scope effect_scope.

(** ** The state *)

(** What the outbox takes of an announcement: [true] at risk, [false] breached. *)
Record SLAMoment := mkMoment {
  mo_event_id : ID; mo_at_risk : bool; mo_tenant : ID; mo_item_id : ID; mo_collection_id : ID; mo_policy_key : string;
  mo_goal : string; mo_target_secs : Z; mo_due_at : option Time; mo_at : Time
}.

Abbreviation timer_key := (string * (ID * string))%type.

Record Desk := mkDesk {
  dk_timers : gmap timer_key Timer;
  dk_records : gmap (ID * string) EntrySLA;
  dk_jobs : list (ID * Time);
  dk_outbox : list SLAMoment;
  dk_minted : nat
}.

Definition with_timers (w : Desk) (timers : gmap timer_key Timer) : Desk :=
  mkDesk timers (dk_records w) (dk_jobs w) (dk_outbox w) (dk_minted w).
Definition with_records (w : Desk) (records : gmap (ID * string) EntrySLA) : Desk :=
  mkDesk (dk_timers w) records (dk_jobs w) (dk_outbox w) (dk_minted w).

(** A stored custom field value: of one that is no text only what [fmt.Sprint]
    makes of it is looked at. *)
Inductive CustomValue : Type := CustomText (s : string) | CustomOther (printed : string).

(** What the clocks look at of a work item. *)
Record SlaItem := mkSlaItem {
  si_id : ID; si_tenant_id : ID; si_collection_id : ID; si_entry_type : string; si_status : string;
  si_custom_fields : gmap string CustomValue; si_completed : bool; si_deleted_at : option Time; si_created_by : ID
}.

(** What the ports that are only read answer during one delivery; an optional
    one is [nil] in the source when it is not wired. *)
Record Reads := mkReads {
  rd_policies : res (list SLAPolicy);
  rd_item : ID -> res SlaItem;
  rd_calendar : string -> res BusinessCalendar;
  rd_hub_calendar : option (ID -> string -> res BusinessCalendar);
  rd_container_parent : option (ID -> res ID);
  rd_addresses : option (ID -> res (list string));
  rd_account_email : option (ID -> res string);
  rd_organisation_key : option (string -> res string)
}.

Definition ItemCreated : string := "de.hubtask.work.item.created.v1".
Definition ItemUpdated : string := "de.hubtask.work.item.updated.v1".
Definition ItemCompleted : string := "de.hubtask.work.item.completed.v1".
Definition CommentCreated : string := "de.hubtask.work.comment.created.v1".
Definition ItemTrashed : string := "de.hubtask.work.item.trashed.v1".
Definition ItemRestored : string := "de.hubtask.work.item.restored.v1".
Definition ItemPurged : string := "de.hubtask.work.item.purged.v1".

(** An event with what is read of its payload. *)
Record Envelope := mkEnvelope {
  ev_type : string; ev_subject : string; ev_occurred_at : Time;
  ev_item_id : ID; ev_author_id : ID; ev_internal : bool; ev_by_requester : bool; ev_change_set : list string
}.

Definition Wants (eventType : string) : bool :=
  contains [ItemCreated; ItemUpdated; ItemCompleted; CommentCreated; ItemTrashed; ItemRestored; ItemPurged] eventType.

Definition ItemOf (e : Envelope) : ID :=
  if str_has_prefix "item/" (ev_subject e) then str_drop 5 (ev_subject e) else "".

Section Clocks.
Context (new_id : nat -> ID) (zones : string -> option Location).

(** ** Timers.go *)

Definition NewID : M Desk ID := fun w =>
  (mkDesk (dk_timers w) (dk_records w) (dk_jobs w) (dk_outbox w) (S (dk_minted w)), Ok (new_id (dk_minted w))).

Definition key_of (t : Timer) : timer_key := (tm_purpose t, (tm_subject_id t, tm_name t)).

Definition timer_live (t : Timer) : bool :=
  match tm_state t with TimerRunning | TimerPaused => true | _ => false end.

(** The repository of live timers: [Insert], [FindLive] and [Update]. *)
Definition InsertTimer (t : Timer) : M Desk unit := fun w =>
  match dk_timers w !! key_of t with
  | Some _ => (w, Err (WithDetail ErrConflict "timer.already_running"))
  | None => (with_timers w (<[key_of t := t]> (dk_timers w)), Ok tt)
  end.

Definition FindLive (purpose : string) (subject : ID) (name : string) : M Desk Timer :=
  query (fun w => match dk_timers w !! (purpose, (subject, name)) with Some t => Ok t | None => Err ErrNotFound end).

Definition timer_versioned (t : Timer) (version : Z) : Timer :=
  mkTimer (tm_id t) (tm_tenant_id t) (tm_purpose t) (tm_subject_id t) (tm_name t) (tm_calendar t) (tm_budget t)
    (tm_consumed t) (tm_running_since t) (tm_due_at t) (tm_state t) (tm_fired_at t) version.

Definition UpdateTimer (t : Timer) (expected : Z) : M Desk unit := fun w =>
  let stored := timer_versioned t (expected + 1) in
  match dk_timers w !! key_of t with
  | Some held =>
      if String.eqb (tm_id held) (tm_id t) && (tm_version held =? expected) then
        (with_timers w (if timer_live t then <[key_of t := stored]> (dk_timers w) else delete (key_of t) (dk_timers w)), Ok tt)
      else (w, Err (WithDetail ErrVersionConflict "timer.version_conflict"))
  | None => (w, Err (WithDetail ErrVersionConflict "timer.version_conflict"))
  end.

Definition schedule (tenant : ID) (at_ : option Time) : M Desk unit :=
  match at_ with
  | None => skip
  | Some at_ => fun w => (mkDesk (dk_timers w) (dk_records w) (dk_jobs w ++ [(tenant, at_)]) (dk_outbox w) (dk_minted w), Ok tt)
  end.

Definition ClocksArm (tenant : ID) (purpose : string) (subject : ID) (name : string) (cal : BusinessCalendar) (budget : Duration)
    (now : Time) : M Desk Timer :=
  id <~ NewID;
  timer <~ lift (Arm id tenant purpose subject name cal budget now);
  InsertTimer timer;;
  schedule tenant (tm_due_at timer);;
  ret timer.

Definition ClocksChange (act : Timer -> Time -> res Timer) (purpose : string) (subject : ID) (name : string) (now : Time) : M Desk Timer :=
  current <~ FindLive purpose subject name;
  next <~ lift (act current now);
  if bool_decide (tm_state next = tm_state current) then ret current
  else
    UpdateTimer next (tm_version current);;
    schedule (tm_tenant_id next) (tm_due_at next);;
    ret (timer_versioned next (tm_version current + 1)).

Definition ClocksRebuild (tenant : ID) (purpose : string) (subject : ID) (name : string) (cal : BusinessCalendar)
    (budget consumed : Duration) (running : bool) (now : Time) : M Desk Timer :=
  found (ClocksChange Stop purpose subject name now);;
  id <~ NewID;
  timer <~ lift (Rebuild id tenant purpose subject name cal budget consumed running now);
  InsertTimer timer;;
  schedule tenant (tm_due_at timer);;
  ret timer.

(** [FireTimers.fire]: one claimed timer, and its purpose's handler, if it has one. *)
Definition fire (elapsed : string -> option (Timer -> M Desk unit)) (timer : Timer) (now : Time) : M Desk bool :=
  fired <~ lift (Fire timer now);
  UpdateTimer fired (tm_version timer);;
  let fired := timer_versioned fired (tm_version timer + 1) in
  match elapsed (tm_purpose fired) with
  | None => ret false
  | Some handler => handler fired;; ret true
  end.

(** ** Records *)

Definition SaveRecord (r : EntrySLA) : M Desk unit := fun w =>
  (with_records w (<[(es_item_id r, es_goal r) := r]> (dk_records w)), Ok tt).

Definition records_of (w : Desk) (item : ID) : list EntrySLA := omap (fun k => dk_records w !! (item, k)) goalKinds.
Definition OfItem (item : ID) : M Desk (list EntrySLA) := query (fun w => Ok (records_of w item)).

Definition live (r : EntrySLA) : bool :=
  match es_standing r with StandingRunning | StandingPaused => true | _ => false end.
Definition record_held (records : list EntrySLA) (kind : string) : bool := existsb (fun r => String.eqb (es_goal r) kind) records.

(** ** Which policy, which calendar *)

(** What is there, with "not found" as nothing. *)
Definition if_found {A} (r : res A) : res (option A) :=
  match r with
  | Ok a => Ok (Some a)
  | Err e => if is_not_found e then Ok None else Err e
  | Panic => Panic
  end.

Definition calendarOf (r : Reads) (policy : SLAPolicy) (item : SlaItem) : res BusinessCalendar :=
  if String.eqb (sp_calendar_key policy) "" then Ok (Continuous zones)
  else
    own ← match rd_hub_calendar r, rd_container_parent r with
          | Some hub_calendar, Some parent_of =>
              parent ← if_found (parent_of (si_collection_id item));
              match parent with
              | Some hub => if id_is_zero hub then Ok None else if_found (hub_calendar hub (sp_calendar_key policy))
              | None => Ok None
              end
          | _, _ => Ok None
          end;
    match own with Some cal => Ok cal | None => rd_calendar r (sp_calendar_key policy) end.

Definition policiesFor (r : Reads) (item : SlaItem) (policies : list SLAPolicy) : res (list SLAPolicy) :=
  hub ← match rd_container_parent r with
        | None => Ok ""
        | Some parent_of => parent ← if_found (parent_of (si_collection_id item)); Ok (default "" parent)
        end;
  Ok (PoliciesWithin policies hub).

(** [strings.LastIndexByte(address, '@')] and what follows it. *)
Fixpoint after_last_at (s : string) : option string :=
  match s with
  | EmptyString => None
  | String c rest => match after_last_at rest with Some tail => Some tail | None => if Ascii.eqb c "@" then Some rest else None end
  end.

(** [strings.ToLower] of a domain, which is ASCII. *)
Definition DomainOfAddress (address : string) : string :=
  match after_last_at address with Some domain => to_lower_ascii (TrimSpace domain) | None => "" end.

(** The key of the requester's organisation, empty for none. *)
Definition organisationOf (r : Reads) (account : ID) : res string :=
  match rd_account_email r, rd_organisation_key r with
  | Some email_of, Some organisation_key =>
      if id_is_zero account then Ok ""
      else
        email ← if_found (email_of account);
        match email with
        | None => Ok ""
        | Some email =>
            let mailDomain := DomainOfAddress email in
            if String.eqb mailDomain "" then Ok ""
            else key ← if_found (organisation_key mailDomain); Ok (default "" key)
        end
  | _, _ => Ok ""
  end.

Definition filed_by_mail (r : Reads) (item : ID) : res bool :=
  match rd_addresses r with
  | None => Ok false
  | Some addresses_on => addresses ← addresses_on item; Ok (negb (Nat.eqb (List.length addresses) 0))
  end.

Definition choose (r : Reads) (item : SlaItem) (policies : list SLAPolicy) : res (option SLAPolicy) :=
  organisation ← (if ForOrganisations policies then
                    filed ← filed_by_mail r (si_id item);
                    if filed : bool then Ok "" else organisationOf r (si_created_by item)
                  else Ok "");
  within_ ← policiesFor r item policies;
  Ok (Choose within_ (si_entry_type item) organisation).

Definition PriorityOf (item : SlaItem) (policy : SLAPolicy) : string :=
  if String.eqb (sp_priority_field policy) "" then ""
  else match si_custom_fields item !! sp_priority_field policy with
       | Some (CustomText s) => s
       | Some (CustomOther printed) => printed
       | None => ""
       end.

(** ** The clocks of one goal *)

Definition pause (item : ID) (kind : string) (now : Time) : M Desk Timer :=
  found (ClocksChange Pause PurposeSLA item (WarnTimerName kind) now);;
  ClocksChange Pause PurposeSLA item (TimerName kind) now.

Definition resume (item : ID) (kind : string) (now : Time) : M Desk Timer :=
  found (ClocksChange Resume PurposeSLA item (WarnTimerName kind) now);;
  ClocksChange Resume PurposeSLA item (TimerName kind) now.

Definition start (item : SlaItem) (goal : SLAGoal) (priority : string) (cal : BusinessCalendar) (record : EntrySLA) (now : Time) : M Desk unit :=
  timer <~ ClocksArm (si_tenant_id item) PurposeSLA (si_id item) (TimerName (sg_kind goal)) cal (es_target record) now;
  match Warning goal priority with
  | Some warning => ClocksArm (si_tenant_id item) PurposeSLA (si_id item) (WarnTimerName (sg_kind goal)) cal warning now;; skip
  | None => skip
  end;;
  timer <~ (if Pauses goal (si_status item) then pause (si_id item) (sg_kind goal) now else ret timer);
  SaveRecord (Follow record timer now).

Definition gone_or_done (item : SlaItem) : bool := si_completed item || match si_deleted_at item with Some _ => true | None => false end.

Definition new_record (id : ID) (item : SlaItem) (kind : string) (policy : SLAPolicy) (target : Duration) (now : Time) : EntrySLA :=
  mkRecord id (si_tenant_id item) (si_id item) kind (sp_key policy) "" target StandingRunning now None None None None 0 0.

(** A new record's [Standing] is the empty text until it follows its timer, in
    the same step; nothing reads it before. *)
Definition arm_goal (r : Reads) (item : SlaItem) (policy : SLAPolicy) (cal : BusinessCalendar) (records : list EntrySLA) (now : Time)
    (goal : SLAGoal) : M Desk unit :=
  if record_held records (sg_kind goal) || WaitsForRequester (sg_kind goal) then skip
  else
    id <~ NewID;
    start item goal (PriorityOf item policy) cal
      (new_record id item (sg_kind goal) policy (Target goal (PriorityOf item policy)) now) now.

Definition arm (r : Reads) (item : SlaItem) (policies : list SLAPolicy) (records : list EntrySLA) (now : Time) : M Desk unit :=
  if gone_or_done item then skip
  else
    chosen <~ lift (choose r item policies);
    match chosen with
    | None => skip
    | Some policy =>
        cal <~ found (lift (calendarOf r policy item));
        match cal with
        | None => skip
        | Some cal => for_each (arm_goal r item policy cal records now) (sp_goals policy)
        end
    end.

(** A live timer with a new budget, the time it counted and whether it runs kept. *)
Definition rebuild (item : SlaItem) (cal : BusinessCalendar) (name : string) (budget : Duration) (now : Time) : M Desk (option Timer) :=
  current <~ found (FindLive PurposeSLA (si_id item) name);
  match current with
  | None => ret None
  | Some current =>
      spent <~ lift (Spent current now);
      timer <~ ClocksRebuild (si_tenant_id item) PurposeSLA (si_id item) name cal budget spent
                 (bool_decide (tm_state current = TimerRunning)) now;
      ret (Some timer)
  end.

Definition retargeted (r : EntrySLA) (target : Duration) : EntrySLA :=
  mkRecord (es_id r) (es_tenant_id r) (es_item_id r) (es_goal r) (es_policy_key r) (es_group r) target (es_standing r)
    (es_armed_at r) (es_due_at r) (es_at_risk_at r) (es_met_at r) (es_breached_at r) (es_consumed r) (es_version r).

(** One turn of [retarget]'s loop; [false] is its early return. *)
Definition retarget_one (r : Reads) (item : SlaItem) (policies : list SLAPolicy) (now : Time) (record : EntrySLA) : M Desk bool :=
  if negb (live record) then ret true
  else match List.find (fun p => String.eqb (sp_key p) (es_policy_key record)) policies with
  | None => ret true
  | Some policy =>
      if String.eqb (sp_priority_field policy) "" then ret true
      else
        let priority := PriorityOf item policy in
        match PolicyGoal policy (es_goal record) with
        | None => ret true
        | Some goal =>
            if Target goal priority =? es_target record then ret true
            else
              cal <~ found (lift (calendarOf r policy item));
              match cal with
              | None => ret true
              | Some cal =>
                  rebuilt <~ rebuild item cal (TimerName (sg_kind goal)) (Target goal priority) now;
                  match rebuilt with
                  | None => ret false
                  | Some timer =>
                      match Warning goal priority with
                      | Some warning => rebuild item cal (WarnTimerName (sg_kind goal)) warning now;; skip
                      | None => skip
                      end;;
                      SaveRecord (Follow (retargeted record (Target goal priority)) timer now);;
                      ret true
                  end
              end
        end
  end.

Fixpoint retarget (r : Reads) (item : SlaItem) (policies : list SLAPolicy) (now : Time) (records : list EntrySLA) : M Desk unit :=
  match records with
  | [] => skip
  | record :: rest =>
      more <~ retarget_one r item policies now record;
      if more : bool then retarget r item policies now rest else skip
  end.

(** The loop over the records in [awaitNext]: [None] is its early return, else
    the record to start with. *)
Fixpoint next_round (policy : SLAPolicy) (now : Time) (record : EntrySLA) (records : list EntrySLA) : option EntrySLA :=
  match records with
  | [] => Some record
  | held :: rest =>
      if String.eqb (es_goal held) GoalFirstResponse && live held then None
      else if String.eqb (es_goal held) GoalNextResponse then
        match Rearm held (es_target record) now with
        | None => None
        | Some again =>
            next_round policy now
              (mkRecord (es_id again) (es_tenant_id again) (es_item_id again) (es_goal again) (sp_key policy) (es_group again)
                 (es_target again) (es_standing again) (es_armed_at again) (es_due_at again) (es_at_risk_at again)
                 (es_met_at again) (es_breached_at again) (es_consumed again) (es_version again)) rest
        end
      else next_round policy now record rest
  end.

Definition awaitNext (r : Reads) (item : SlaItem) (policies : list SLAPolicy) (records : list EntrySLA) (now : Time) : M Desk unit :=
  if gone_or_done item then skip
  else
    chosen <~ lift (choose r item policies);
    match chosen with
    | None => skip
    | Some policy =>
        match PolicyGoal policy GoalNextResponse with
        | None => skip
        | Some goal =>
            id <~ NewID;
            match next_round policy now
                    (new_record id item (sg_kind goal) policy (Target goal (PriorityOf item policy)) now) records with
            | None => skip
            | Some record =>
                cal <~ found (lift (calendarOf r policy item));
                match cal with
                | None => skip
                | Some cal => start item goal (PriorityOf item policy) cal record now
                end
            end
        end
    end.

Definition fromRequester (r : Reads) (e : Envelope) (item : SlaItem) : res bool :=
  if ev_by_requester e then Ok true
  else if negb (String.eqb (ev_author_id e) (si_created_by item)) then Ok false
  else filed ← filed_by_mail r (si_id item); Ok (negb filed).

(** The goal of a record in its policy as it is now, the last of that key: [None]
    where no policy of the key is left. *)
Definition measured_by (policies : list SLAPolicy) (record : EntrySLA) : option SLAGoal :=
  foldl (fun found policy => if String.eqb (sp_key policy) (es_policy_key record)
                             then Some (default no_goal (PolicyGoal policy (es_goal record))) else found) None policies.

Definition sameMoment (a b : option Time) : bool :=
  match a, b with Some x, Some y => x =? y | None, None => true | _, _ => false end.

Definition follow_one (item : SlaItem) (policies : list SLAPolicy) (now : Time) (record : EntrySLA) : M Desk unit :=
  if negb (live record) then skip
  else match measured_by policies record with
  | None => skip
  | Some goal =>
      timer <~ found (if Pauses goal (si_status item) then pause (si_id item) (es_goal record) now
                      else resume (si_id item) (es_goal record) now);
      match timer with
      | None => skip
      | Some timer =>
          let next := Follow record timer now in
          if bool_decide (es_standing next = es_standing record) && sameMoment (es_due_at next) (es_due_at record) then skip
          else SaveRecord next
      end
  end.

Definition follow (item : SlaItem) (policies : list SLAPolicy) (records : list EntrySLA) (now : Time) : M Desk unit :=
  for_each (follow_one item policies now) records.

Definition meet_one (kind : string) (now : Time) (record : EntrySLA) : M Desk unit :=
  if negb (String.eqb (es_goal record) kind) || negb (live record) then skip
  else
    found (ClocksChange Stop PurposeSLA (es_item_id record) (WarnTimerName kind) now);;
    timer <~ found (ClocksChange Stop PurposeSLA (es_item_id record) (TimerName kind) now);
    match timer with
    | None => skip
    | Some timer => SaveRecord (Follow record timer now)
    end.

Definition meet (records : list EntrySLA) (kind : string) (now : Time) : M Desk unit := for_each (meet_one kind now) records.

Definition stopAll (item : ID) (records : list EntrySLA) (met : bool) (now : Time) : M Desk unit :=
  for_each (fun kind =>
    if met then meet records kind now
    else for_each (fun name => found (ClocksChange Stop PurposeSLA item name now);; skip) [WarnTimerName kind; TimerName kind]) goalKinds.

Definition pause_one (now : Time) (record : EntrySLA) : M Desk unit :=
  if negb (live record) then skip
  else
    timer <~ found (pause (es_item_id record) (es_goal record) now);
    match timer with
    | None => skip
    | Some timer => SaveRecord (Follow record timer now)
    end.

Definition pauseAll (records : list EntrySLA) (now : Time) : M Desk unit := for_each (pause_one now) records.

(** ** Deliveries *)

Definition FieldCustomFields : string := "custom_fields".
Definition changed (e : Envelope) (field : string) : bool := contains (ev_change_set e) field.

Definition on_item (r : Reads) (e : Envelope) (itemID : ID) (item : SlaItem) (policies : list SLAPolicy) (records : list EntrySLA) : M Desk unit :=
  let now := ev_occurred_at e in
  if String.eqb (ev_type e) ItemCreated then arm r item policies records now
  else if String.eqb (ev_type e) ItemUpdated then
    records <~ (if changed e "entry_type" then arm r item policies records now;; OfItem itemID else ret records);
    records <~ (if changed e FieldCustomFields then retarget r item policies now records;; OfItem itemID else ret records);
    follow item policies records now
  else if String.eqb (ev_type e) ItemCompleted then stopAll itemID records true now
  else if String.eqb (ev_type e) CommentCreated then
    if ev_internal e then skip
    else
      requester <~ lift (fromRequester r e item);
      if requester : bool then awaitNext r item policies records now
      else meet records GoalFirstResponse now;; meet records GoalNextResponse now
  else if String.eqb (ev_type e) ItemTrashed then pauseAll records now
  else if String.eqb (ev_type e) ItemRestored then follow item policies records now
  else skip.

Definition Deliver (r : Reads) (e : Envelope) : M Desk unit :=
  let itemID := if String.eqb (ev_type e) CommentCreated then ev_item_id e else ItemOf e in
  if id_is_zero itemID then skip
  else
    policies <~ lift (rd_policies r);
    records <~ OfItem itemID;
    if Nat.eqb (List.length policies) 0 && Nat.eqb (List.length records) 0 then skip
    else if String.eqb (ev_type e) ItemPurged then stopAll itemID records false (ev_occurred_at e)
    else
      item <~ found (lift (rd_item r itemID));
      match item with
      | None => stopAll itemID records false (ev_occurred_at e)
      | Some item => on_item r e itemID item policies records
      end.

(** ** A timer ran out *)

Definition at_risk (r : EntrySLA) (now : Time) : EntrySLA :=
  mkRecord (es_id r) (es_tenant_id r) (es_item_id r) (es_goal r) (es_policy_key r) (es_group r) (es_target r) (es_standing r)
    (es_armed_at r) (es_due_at r) (Some now) (es_met_at r) (es_breached_at r) (es_consumed r) (es_version r).

Definition announce (m : SLAMoment) : M Desk unit := fun w =>
  (mkDesk (dk_timers w) (dk_records w) (dk_jobs w) (dk_outbox w ++ [m]) (dk_minted w), Ok tt).

(** [event.NewItemSLAAtRisk] and [NewItemSLABreached]: an envelope needs an id, a
    tenant, a subject - the entry's, never empty - and a moment. *)
Definition moment_of (id : ID) (warn : bool) (timer : Timer) (item : SlaItem) (record : EntrySLA) (kind : string) (now : Time) : res SLAMoment :=
  if id_is_zero id || id_is_zero (tm_tenant_id timer) || time_is_zero now then Err (WithDetail ErrInternal "events.envelope_incomplete")
  else Ok (mkMoment id warn (tm_tenant_id timer) (si_id item) (si_collection_id item) (es_policy_key record) kind
             (es_target record `quot` Second) (es_due_at record) now).

Definition Elapsed (r : Reads) (timer : Timer) : M Desk unit :=
  match GoalOfTimer (tm_name timer) with
  | None => skip
  | Some (kind, warn) =>
      records <~ OfItem (tm_subject_id timer);
      match last (List.filter (fun r => String.eqb (es_goal r) kind) records), tm_fired_at timer with
      | Some record, Some now =>
          if id_is_zero (es_id record) || negb (live record) then skip
          else if warn && match es_at_risk_at record with Some _ => true | None => false end then skip
          else
            let record := if warn then at_risk record now else Follow record timer now in
            SaveRecord record;;
            item <~ found (lift (rd_item r (es_item_id record)));
            match item with
            | None => skip
            | Some item =>
                id <~ NewID;
                moment <~ lift (moment_of id warn timer item record kind now);
                announce moment
            end
      | _, _ => skip
      end
  end.

(** The handlers a workspace fires its timers with: this file's for a service
    level, [others] for the rest. *)
Definition handlers (r : Reads) (others : string -> option (Timer -> M Desk unit)) (purpose : string) : option (Timer -> M Desk unit) :=
  if String.eqb purpose PurposeSLA then Some (Elapsed r) else others purpose.
End Clocks.

(** ** What the acts do to a timer *)

Record act_to (act : Timer -> Time -> res Timer) (state : TimerState) : Prop := {
  act_same : forall t now n, timer_live t = true -> act t now = Ok n ->
    tm_state n = state /\ key_of n = key_of t /\ tm_tenant_id n = tm_tenant_id t /\ tm_id n = tm_id t /\ (tm_state t = state -> n = t) /\
    (tm_state t <> state -> match state with TimerRunning => exists due, tm_due_at n = Some due | _ => tm_due_at n = None end);
  act_there : forall t now e, timer_live t = true -> act t now = Err e -> is_not_found e = false
}.

Lemma run_facts t now n : run t now = Ok n ->
  tm_state n = TimerRunning /\ key_of n = key_of t /\ tm_tenant_id n = tm_tenant_id t /\ tm_id n = tm_id t /\ exists due, tm_due_at n = Some due.
Proof. unfold run. intros H. apply bind_ok in H as (due & _ & [= <-]). cbn. repeat split. by exists due. Qed.

Lemma Add_found c start work e : Add c start work <> Err e.
Proof. unfold Add. destruct (work <=? 0); [done|]. by destruct (bc_location c). Qed.

Lemma Between_found c from to e : Between c from to <> Err e.
Proof. unfold Between. destruct (to <=? from); [done|]. destruct (bc_location c); [|done]. by destruct (between_days _ _ _ _ _ _ _). Qed.

Lemma run_found t now e : run t now <> Err e.
Proof. unfold run. intros H. destruct (Add _ _ _) eqn:E; [done| |done]. by apply Add_found in E. Qed.

Lemma Spent_found t now e : Spent t now <> Err e.
Proof.
  unfold Spent. intros H. destruct (tm_state t), (tm_running_since t); try done.
  destruct (Between _ _ _) eqn:E; [done| |done]. by apply Between_found in E.
Qed.

#[local] Hint Unfold timer_live key_of timer_at : core.

Lemma pause_to : act_to Pause TimerPaused.
Proof.
  split.
  - intros t now n Hl H. unfold Pause in H. destruct (tm_state t) eqn:E; try discriminate.
    + apply bind_ok in H as (spent & _ & [= <-]). cbn. repeat split; congruence.
    + injection H as <-. repeat split; congruence.
  - intros t now e Hl H. unfold Pause in H. unfold timer_live in Hl. destruct (tm_state t); try done.
    destruct (Spent t now) eqn:E; [done| |done]. by apply Spent_found in E.
Qed.

Lemma resume_to : act_to Resume TimerRunning.
Proof.
  split.
  - intros t now n Hl H. unfold Resume in H. destruct (tm_state t) eqn:E; try discriminate.
    + injection H as <-. repeat split; congruence.
    + apply run_facts in H as (H1 & H2 & H3 & H4 & H5). repeat split; congruence.
  - intros t now e Hl H. unfold Resume in H. unfold timer_live in Hl. destruct (tm_state t); try done. by apply run_found in H.
Qed.

Lemma stop_to : act_to Stop TimerStopped.
Proof.
  split.
  - intros t now n Hl H. unfold Stop in H. unfold timer_live in Hl.
    destruct (tm_state t) eqn:E; try discriminate; apply bind_ok in H as (spent & _ & [= <-]); cbn; repeat split; congruence.
  - intros t now e Hl H. unfold Stop in H. unfold timer_live in Hl. destruct (tm_state t); try done;
      (destruct (Spent t now) eqn:E; [done| |done]); by apply Spent_found in E.
Qed.

Lemma Arm_facts id tenant purpose subject name cal budget now t : Arm id tenant purpose subject name cal budget now = Ok t ->
  tm_state t = TimerRunning /\ key_of t = (purpose, (subject, name)) /\ tm_tenant_id t = tenant /\ exists due, tm_due_at t = Some due.
Proof.
  unfold Arm. repeat case_match; try done. intros H'. by apply run_facts in H' as (? & ? & ? & _ & ?).
Qed.

Lemma Rebuild_facts id tenant purpose subject name cal budget consumed running now t :
  Rebuild id tenant purpose subject name cal budget consumed running now = Ok t ->
  tm_state t = (if running then TimerRunning else TimerPaused) /\ key_of t = (purpose, (subject, name)) /\ tm_tenant_id t = tenant /\
  if running then exists due, tm_due_at t = Some due else tm_due_at t = None.
Proof.
  unfold Rebuild. intros H. apply bind_ok in H as (t0 & H0 & H). apply Arm_facts in H0 as (_ & Hk & Ht & _).
  destruct running; [|injection H as <-; done]. apply run_facts in H as (H1 & H2 & H3 & _ & H5).
  by rewrite H2, H3.
Qed.

(** ** The store of live timers *)

(** Every timer is under its own key and live, and where it runs, the firing at
    its due instant was asked for. *)
Definition timers_ok (w : Desk) : Prop := forall key t, dk_timers w !! key = Some t ->
  key_of t = key /\ timer_live t = true /\
  match tm_state t with
  | TimerRunning => exists due, tm_due_at t = Some due /\ (tm_tenant_id t, due) ∈ dk_jobs w
  | _ => tm_due_at t = None
  end.

(** Only the timers under [keys] and the records of goals in [goals] changed. *)
Definition changes (keys : list timer_key) (goals : list (ID * string)) (w w' : Desk) : Prop :=
  (forall key, key ∉ keys -> dk_timers w' !! key = dk_timers w !! key) /\
  (forall goal, goal ∉ goals -> dk_records w' !! goal = dk_records w !! goal).

Lemma changes_refl keys goals w : changes keys goals w w.
Proof. by split. Qed.
Lemma changes_trans keys goals w1 w2 w3 : changes keys goals w1 w2 -> changes keys goals w2 w3 -> changes keys goals w1 w3.
Proof. intros [H1 H2] [H3 H4]. split; intros x Hx; [rewrite H3, H1|rewrite H4, H2]; done. Qed.
Lemma changes_more keys goals keys' goals' w w' : changes keys goals w w' -> keys ⊆ keys' -> goals ⊆ goals' -> changes keys' goals' w w'.
Proof. intros [H1 H2] Hk Hg. split; intros x Hx; [apply H1|apply H2]; set_solver. Qed.

Lemma timer_versioned_id t : timer_versioned t (tm_version t) = t.
Proof. by destruct t. Qed.

Definition due_asked (jobs : list (ID * Time)) (t : Timer) : Prop :=
  match tm_state t with
  | TimerRunning => exists due, tm_due_at t = Some due /\ (tm_tenant_id t, due) ∈ jobs
  | _ => tm_due_at t = None
  end.

Lemma timers_ok_put w w' timers t : timers_ok w -> dk_timers w' = timers -> (forall key, key <> key_of t -> timers !! key = dk_timers w !! key) ->
  (forall t', timers !! key_of t = Some t' -> key_of t' = key_of t /\ timer_live t' = true /\ due_asked (dk_jobs w') t') ->
  (forall x, x ∈ dk_jobs w -> x ∈ dk_jobs w') -> timers_ok w'.
Proof.
  intros Hw Ht Hother Hthis Hjobs key t' Hl. rewrite Ht in Hl. destruct (decide (key = key_of t)) as [->|Hne]; [by apply Hthis|].
  rewrite Hother in Hl by done. destruct (Hw key t' Hl) as (Hk & Hlive & Hdue). split; [done|]. split; [done|].
  destruct (tm_state t'); try done. destruct Hdue as (due & Hd & Hin). exists due. split; [done|]. by apply Hjobs.
Qed.

Lemma timers_ok_same w w' : timers_ok w -> dk_timers w' = dk_timers w -> (forall x, x ∈ dk_jobs w -> x ∈ dk_jobs w') -> timers_ok w'.
Proof.
  intros Hw Ht Hjobs key t Hl. rewrite Ht in Hl. destruct (Hw key t Hl) as (Hk & Hlive & Hdue). split; [done|]. split; [done|].
  destruct (tm_state t); try done. destruct Hdue as (due & Hd & Hin). exists due. split; [done|]. by apply Hjobs.
Qed.

Lemma schedule_run tenant at_ w : exists w', schedule tenant at_ w = (w', Ok tt) /\ dk_timers w' = dk_timers w /\
  dk_records w' = dk_records w /\ (forall x, x ∈ dk_jobs w -> x ∈ dk_jobs w') /\ (forall due, at_ = Some due -> (tenant, due) ∈ dk_jobs w').
Proof.
  destruct at_ as [due|]; [|by exists w]. eexists. split; [reflexivity|]. cbn. repeat split; [set_solver|].
  intros ? [= <-]. set_solver.
Qed.

(** A new timer, asked for, under a key of its own. *)
Lemma insert_run t w : timers_ok w -> timer_live t = true ->
  match tm_state t with TimerRunning => exists due, tm_due_at t = Some due | _ => tm_due_at t = None end ->
  let c := InsertTimer t;; schedule (tm_tenant_id t) (tm_due_at t);; ret t in
  match c w with
  | (w', Ok t') => t' = t /\ timers_ok w' /\ dk_timers w !! key_of t = None /\ dk_timers w' = <[key_of t := t]> (dk_timers w) /\
      dk_records w' = dk_records w
  | (w', Err _) => w' = w /\ is_Some (dk_timers w !! key_of t)
  | (_, Panic) => False
  end.
Proof.
  intros Hw Hlive Hdue c. unfold c, bind, InsertTimer. destruct (dk_timers w !! key_of t) as [held|] eqn:E; [by split; [|exists held]|].
  destruct (schedule_run (tm_tenant_id t) (tm_due_at t) (with_timers w (<[key_of t := t]> (dk_timers w)))) as (w' & -> & Ht & Hr & Hj & Ha).
  cbn [ret]. split; [done|]. split; [|done]. eapply (timers_ok_put w w' _ t Hw Ht); [|intros t'|exact Hj].
  - intros key Hne. cbn. by rewrite lookup_insert_ne.
  - cbn. rewrite lookup_insert_eq. intros [= <-]. split; [done|]. split; [done|]. unfold due_asked. destruct (tm_state t); try done.
    destruct Hdue as (due & Hd). exists due. split; [done|]. by apply Ha.
Qed.

Lemma ClocksArm_spec (new_id : nat -> ID) tenant purpose subject name cal budget now w : timers_ok w ->
  match ClocksArm new_id tenant purpose subject name cal budget now w with
  | (w', Ok t) => timers_ok w' /\ tm_state t = TimerRunning /\ dk_timers w !! (purpose, (subject, name)) = None /\
      dk_timers w' = <[(purpose, (subject, name)) := t]> (dk_timers w) /\ dk_records w' = dk_records w
  | (w', _) => timers_ok w'
  end.
Proof.
  intros Hw. unfold ClocksArm. unfold bind at 1. cbn [NewID]. set (w1 := mkDesk _ _ _ _ _).
  assert (Hw1 : timers_ok w1) by by apply (timers_ok_same w). unfold bind at 1, lift. destruct (Arm _ _ _ _ _ _ _ _) as [t|e|] eqn:E; [|done..].
  apply Arm_facts in E as (Hs & Hk & Ht & Hd). pose proof (insert_run t w1 Hw1) as H. rewrite Hs in H.
  specialize (H ltac:(unfold timer_live; by rewrite Hs) Hd). cbn zeta in H. rewrite Ht, Hk in H.
  destruct ((InsertTimer t;; _) w1) as [w' [t'|e|]]; [|by destruct H as [-> _]|done].
  destruct H as (-> & Hok & Hn & Hins & Hr). done.
Qed.

Lemma UpdateTimer_spec t expected w w' r : UpdateTimer t expected w = (w', r) ->
  match r with
  | Ok _ => is_Some (dk_timers w !! key_of t) /\
      w' = with_timers w (if timer_live t then <[key_of t := timer_versioned t (expected + 1)]> (dk_timers w) else delete (key_of t) (dk_timers w))
  | Err e => w' = w /\ is_not_found e = false
  | Panic => False
  end.
Proof.
  unfold UpdateTimer. destruct (dk_timers w !! key_of t) as [held|]; [|by intros [= <- <-]].
  destruct (_ && _); intros [= <- <-]; [|done]. split; [by exists held|done].
Qed.

(** What a change of a live timer leaves under its key, and what it answers. *)
Lemma ClocksChange_spec act state purpose subject name now w : act_to act state -> timers_ok w ->
  match ClocksChange act purpose subject name now w with
  | (w', Ok t) => timers_ok w' /\ tm_state t = state /\ key_of t = (purpose, (subject, name)) /\
      is_Some (dk_timers w !! (purpose, (subject, name))) /\
      dk_timers w' !! (purpose, (subject, name)) = (if timer_live t then Some t else None) /\
      changes [(purpose, (subject, name))] [] w w'
  | (w', Err e) => timers_ok w' /\ (is_not_found e = true -> w' = w /\ dk_timers w !! (purpose, (subject, name)) = None)
  | (w', Panic) => timers_ok w'
  end.
Proof.
  intros Hact Hw. unfold ClocksChange, bind at 1, FindLive, query. destruct (dk_timers w !! _) as [c|] eqn:Ec; [|done].
  destruct (Hw _ _ Ec) as (Hk & Hlive & Hdue). unfold bind at 1, lift. destruct (act c now) as [n|e|] eqn:Ea; [| |done].
  2:{ split; [done|]. rewrite (act_there act state Hact c now e Hlive Ea). done. }
  destruct (act_same act state Hact c now n Hlive Ea) as (Hs & Hkn & Htn & Hid & Hsame & Hnew).
  destruct (bool_decide_reflect (tm_state n = tm_state c)) as [E|Hne].
  - assert (n = c) as -> by (apply Hsame; congruence). cbn [ret]. rewrite Hlive, Ec. split; [done|]. split; [done|].
    split; [done|]. split; [by exists c|]. split; [done|]. apply changes_refl.
  - unfold bind at 1. destruct (UpdateTimer n (tm_version c) w) as [w1 [[]|e|]] eqn:Eu; apply UpdateTimer_spec in Eu; [| |done].
    2:{ destruct Eu as [-> He]. split; [done|]. by rewrite He. }
    assert (Hkey : key_of n = (purpose, (subject, name))) by congruence. rewrite Hkey in Eu.
    destruct Eu as [_ ->]. set (stored := timer_versioned n (tm_version c + 1)) in *. set (w1 := with_timers w _).
    unfold bind. destruct (schedule_run (tm_tenant_id n) (tm_due_at n) w1) as (w' & -> & Ht & Hr & Hj & Hasked). cbn [ret].
    change (timer_live stored) with (timer_live n). assert (Hat : dk_timers w' !! (purpose, (subject, name)) = if timer_live n then Some stored else None).
    { rewrite Ht. unfold w1. cbn. destruct (timer_live n); [by rewrite lookup_insert_eq|by rewrite lookup_delete_eq]. }
    assert (Hother : forall key, key <> (purpose, (subject, name)) -> dk_timers w' !! key = dk_timers w !! key).
    { intros key Hn. rewrite Ht. unfold w1. cbn. destruct (timer_live n); [by rewrite lookup_insert_ne|by rewrite lookup_delete_ne]. }
    split; [|repeat split; try done].
    + eapply (timers_ok_put w w' (dk_timers w') n Hw eq_refl); [rewrite Hkey; exact Hother| |exact Hj].
      intros t'. rewrite Hkey, Hat. destruct (timer_live n) eqn:El; [|done]. intros [= <-]. split; [done|]. split; [done|].
      unfold due_asked. change (tm_state stored) with (tm_state n). rewrite Hs. specialize (Hnew ltac:(congruence)).
      destruct state; try done. destruct Hnew as (due & Hd). exists due. split; [done|]. by apply Hasked.
    + intros key Hn. apply Hother. set_solver.
    + intros goal _. by rewrite Hr.
Qed.

Lemma found_change act state purpose subject name now w w' o : act_to act state -> timers_ok w ->
  found (ClocksChange act purpose subject name now) w = (w', Ok o) ->
  timers_ok w' /\ changes [(purpose, (subject, name))] [] w w' /\
  match o with
  | Some t => tm_state t = state /\ is_Some (dk_timers w !! (purpose, (subject, name))) /\
      dk_timers w' !! (purpose, (subject, name)) = (if timer_live t then Some t else None)
  | None => w' = w /\ dk_timers w !! (purpose, (subject, name)) = None
  end.
Proof.
  intros Hact Hw H. pose proof (ClocksChange_spec act state purpose subject name now w Hact Hw) as Hc. apply found_run in H.
  destruct o as [t|]; [rewrite H in Hc; by destruct Hc as (? & ? & ? & ? & ? & ?)|]. destruct H as (e & He & H). rewrite H in Hc.
  destruct Hc as [Hok Hc]. destruct (Hc He) as [-> Hn]. split; [done|]. split; [apply changes_refl|done].
Qed.

Lemma ClocksRebuild_run (new_id : nat -> ID) tenant purpose subject name cal budget consumed running now w w' t : timers_ok w ->
  ClocksRebuild new_id tenant purpose subject name cal budget consumed running now w = (w', Ok t) ->
  timers_ok w' /\ tm_state t = (if running then TimerRunning else TimerPaused) /\
  dk_timers w' !! (purpose, (subject, name)) = Some t /\ changes [(purpose, (subject, name))] [] w w'.
Proof.
  intros Hw H. unfold ClocksRebuild in H. apply bind_run in H as (o & w1 & Hs & H).
  apply (found_change Stop TimerStopped) in Hs as (Hw1 & Hc1 & _); [|apply stop_to|done].
  apply bind_run in H as (id & w2 & [= <- <-] & H). set (w2 := mkDesk _ _ _ _ _) in *.
  assert (Hw2 : timers_ok w2) by by apply (timers_ok_same w1). apply bind_run in H as (n & w3 & Hr & H). apply lift_run in Hr as [-> Hr].
  apply Rebuild_facts in Hr as (Hst & Hk & Ht & Hd). pose proof (insert_run n w2 Hw2) as Hi. cbn zeta in Hi. rewrite Ht, Hk in Hi.
  rewrite H in Hi. destruct Hi as (-> & Hw' & Hn & Hins & Hrec).
  - unfold timer_live. rewrite Hst. by destruct running.
  - rewrite Hst. by destruct running.
  - split; [done|]. split; [done|]. split; [by rewrite Hins, lookup_insert_eq|]. apply (changes_trans _ _ _ w1); [done|].
    split; [|by rewrite Hrec]. intros key Hkey. rewrite Hins, lookup_insert_ne by set_solver. done.
Qed.

(** ** One goal of one entry *)

Definition gkey (i : ID) (k : string) : timer_key := (PurposeSLA, (i, TimerName k)).
Definition wkey (i : ID) (k : string) : timer_key := (PurposeSLA, (i, WarnTimerName k)).
Definition goal_keys (i : ID) (k : string) : list timer_key := [gkey i k; wkey i k].

Lemma names_apart k k' : k ∈ goalKinds -> k' ∈ goalKinds ->
  TimerName k <> WarnTimerName k' /\ (TimerName k = TimerName k' -> k = k') /\ (WarnTimerName k = WarnTimerName k' -> k = k').
Proof.
  intros [->|[->| ->]]%goalKinds_cases [->|[->| ->]]%goalKinds_cases; vm_compute; (split; [|split]); intros E; (reflexivity || discriminate E).
Qed.

Lemma keys_apart i k j k' key : k ∈ goalKinds -> k' ∈ goalKinds -> (i, k) <> (j, k') -> key ∈ goal_keys i k -> key ∉ goal_keys j k'.
Proof.
  intros Hk Hk' Hne Hin Hin'. destruct (names_apart k k' Hk Hk') as (H1 & H2 & H3). destruct (names_apart k' k Hk' Hk) as (H4 & _ & _).
  unfold goal_keys, gkey, wkey in *. rewrite !elem_of_cons, elem_of_nil in Hin, Hin'.
  destruct Hin as [->|[->|[]]], Hin' as [E|[E|[]]]; injection E as ? E; subst; try congruence; apply Hne; f_equal; auto.
Qed.

(** The record of the goal [k] of the entry [i], as the database checks it. *)
Record record_ok (i : ID) (k : string) (r : EntrySLA) : Prop := {
  ro_item : es_item_id r = i;
  ro_goal : es_goal r = k;
  ro_id : es_id r <> "";
  ro_met : es_standing r = StandingMet <-> is_Some (es_met_at r);
  ro_breached : es_standing r = StandingBreached <-> is_Some (es_breached_at r)
}.

(** A goal in step: without a record it has no timers; with one, its timer is
    there exactly while the record is live and says the same; and a met goal has
    no warning left. *)
Definition goal_ok (i : ID) (k : string) (w : Desk) : Prop :=
  match dk_records w !! (i, k) with
  | None => dk_timers w !! gkey i k = None /\ dk_timers w !! wkey i k = None
  | Some r => record_ok i k r /\
      match dk_timers w !! gkey i k with
      | Some t => es_standing r = StandingOf t /\ es_due_at r = tm_due_at t
      | None => live r = false
      end /\ (es_standing r = StandingMet -> dk_timers w !! wkey i k = None)
  end.

(** How the record of a goal may move. *)
Inductive goal_move (k : string) : option EntrySLA -> option EntrySLA -> Prop :=
  | move_armed r : live r = true -> goal_move k None (Some r)
  | move_live r r' : live r = true -> es_id r' = es_id r -> es_armed_at r' = es_armed_at r -> goal_move k (Some r) (Some r')
  | move_again r r' : k = GoalNextResponse -> es_standing r = StandingMet -> live r' = true -> es_id r' = es_id r ->
      goal_move k (Some r) (Some r').

(** One goal was worked on: it is in step, its record moved as it may, and
    nothing else changed. *)
Record piece (i : ID) (k : string) (w w' : Desk) : Prop := {
  pc_timers : timers_ok w';
  pc_changes : changes (goal_keys i k) [(i, k)] w w';
  pc_goal : goal_ok i k w';
  pc_move : rtc (goal_move k) (dk_records w !! (i, k)) (dk_records w' !! (i, k))
}.

Lemma piece_refl i k w : timers_ok w -> goal_ok i k w -> piece i k w w.
Proof. intros Ht Hg. split; [done|apply changes_refl|done|apply rtc_refl]. Qed.

Lemma live_states r : live r = true <-> es_standing r <> StandingMet /\ es_standing r <> StandingBreached.
Proof. unfold live. destruct (es_standing r); split; intuition congruence. Qed.

Lemma Follow_live r t now : live r = true ->
  es_standing (Follow r t now) = StandingOf t /\ es_due_at (Follow r t now) = tm_due_at t /\
  es_id (Follow r t now) = es_id r /\ es_armed_at (Follow r t now) = es_armed_at r.
Proof. intros [_ Hne]%live_states. unfold Follow. by rewrite bool_decide_eq_false_2. Qed.

Lemma Follow_ok i k r t now : record_ok i k r -> live r = true -> record_ok i k (Follow r t now).
Proof.
  intros [Hi Hk Hid Hm Hb] [Hnm Hnb]%live_states. unfold Follow. rewrite bool_decide_eq_false_2 by done.
  assert (Hm0 : ~ is_Some (es_met_at r)) by by intros H%Hm. assert (Hb0 : ~ is_Some (es_breached_at r)) by by intros H%Hb.
  split; cbn; try done; destruct (StandingOf t); split; intros H; try done; try (by eexists).
Qed.

Lemma live_standing t : timer_live t = true <-> StandingOf t <> StandingMet /\ StandingOf t <> StandingBreached.
Proof. unfold timer_live, StandingOf. destruct (tm_state t); split; intuition congruence. Qed.

Lemma save_followed i k w w1 r t now : record_ok i k r -> live r = true -> timers_ok w1 ->
  changes (goal_keys i k) [(i, k)] w w1 -> dk_timers w1 !! gkey i k = (if timer_live t then Some t else None) ->
  (tm_state t = TimerStopped -> dk_timers w1 !! wkey i k = None) ->
  rtc (goal_move k) (dk_records w !! (i, k)) (Some (Follow r t now)) ->
  piece i k w (SaveRecord (Follow r t now) w1).1.
Proof.
  intros Hr Hl Ht Hc Hg Hw Hm. pose proof (Follow_ok i k r t now Hr Hl) as Hf. destruct (Follow_live r t now Hl) as (Hs & Hd & _ & _).
  assert (Hkey : (es_item_id (Follow r t now), es_goal (Follow r t now)) = (i, k)) by (by rewrite (ro_item _ _ _ Hf), (ro_goal _ _ _ Hf)).
  unfold SaveRecord. cbn [fst]. rewrite Hkey. split.
  - by apply (timers_ok_same w1).
  - destruct Hc as [H1 H2]. split; [done|]. intros goal Hne. cbn. rewrite lookup_insert_ne by set_solver. by apply H2.
  - unfold goal_ok. cbn. rewrite lookup_insert_eq. split; [done|]. rewrite Hg, Hs, Hd. split.
    + destruct (timer_live t) eqn:E; [done|]. apply not_true_iff_false. rewrite live_states, Hs, <- live_standing. congruence.
    + unfold StandingOf. intros E. apply Hw. by destruct (tm_state t).
  - cbn. by rewrite lookup_insert_eq.
Qed.

(** A change of a goal's two timers, the warning's first. *)
Definition both (act : Timer -> Time -> res Timer) (i : ID) (k : string) (now : Time) : M Desk Timer :=
  found (ClocksChange act PurposeSLA i (WarnTimerName k) now);; ClocksChange act PurposeSLA i (TimerName k) now.

Lemma gkey_wkey i k : gkey i k <> wkey i k.
Proof.
  unfold gkey, wkey, WarnTimerName. intros [= E]. apply (f_equal String.length) in E. rewrite str_app_length in E. cbn in E. lia.
Qed.

Lemma both_run act state i k now w w' t : act_to act state -> timers_ok w -> both act i k now w = (w', Ok t) ->
  timers_ok w' /\ changes (goal_keys i k) [] w w' /\ tm_state t = state /\ is_Some (dk_timers w !! gkey i k) /\
  dk_timers w' !! gkey i k = (if timer_live t then Some t else None) /\ (state = TimerStopped -> dk_timers w' !! wkey i k = None).
Proof.
  intros Hact Hw H. unfold both in H. apply bind_run in H as (o & w1 & Hwarn & H).
  apply (found_change act state) in Hwarn as (Hw1 & Hc1 & Ho); [|done|done].
  pose proof (ClocksChange_spec act state PurposeSLA i (TimerName k) now w1 Hact Hw1) as Hs. rewrite H in Hs.
  destruct Hs as (Hw' & Hst & _ & Hthere & Hat & Hc2). fold (gkey i k) in *. fold (wkey i k) in *.
  assert (Hsame : dk_timers w1 !! gkey i k = dk_timers w !! gkey i k).
  { apply Hc1. pose proof (gkey_wkey i k). set_solver. }
  split; [done|]. split; [|split; [done|split; [by rewrite <- Hsame|split; [done|]]]].
  - apply (changes_trans _ _ _ w1); [eapply (changes_more _ _ _ _ _ _ Hc1)|eapply (changes_more _ _ _ _ _ _ Hc2)];
      unfold goal_keys; set_solver.
  - intros ->. destruct Hc2 as [Hc2 _]. rewrite Hc2 by (pose proof (gkey_wkey i k); set_solver).
    destruct o as [t'|]; [|by destruct Ho as [-> ->]]. destruct Ho as (Hs' & _ & ->). unfold timer_live. by rewrite Hs'.
Qed.

(** It is refused as not found only where the goal's timer is not there. *)
Lemma both_missing act state i k now w w' : act_to act state -> timers_ok w -> found (both act i k now) w = (w', Ok None) ->
  dk_timers w !! gkey i k = None.
Proof.
  intros Hact Hw H. apply found_run in H as (e & He & H). unfold both, bind in H.
  destruct (found _ w) as [w1 [o|e1|]] eqn:Hwarn; [| |done].
  - apply (found_change act state) in Hwarn as (Hw1 & [Hc1 _] & _); [|done|done].
    pose proof (ClocksChange_spec act state PurposeSLA i (TimerName k) now w1 Hact Hw1) as Hs. rewrite H in Hs.
    destruct (proj2 Hs He) as [_ Hn]. fold (gkey i k) in Hn. rewrite Hc1 in Hn; [done|].
    fold (wkey i k). pose proof (gkey_wkey i k). set_solver.
  - injection H as -> ->. unfold found in Hwarn. destruct (ClocksChange _ _ _ _ _ _) as [w2 [t|e2|]]; [done| |done].
    destruct (is_not_found e2) eqn:E; [done|]. injection Hwarn as -> ->. congruence.
Qed.

Lemma goal_live i k w r : goal_ok i k w -> dk_records w !! (i, k) = Some r -> live r = true ->
  record_ok i k r /\ is_Some (dk_timers w !! gkey i k).
Proof.
  unfold goal_ok. intros H Hr Hl. rewrite Hr in H. destruct H as (Hok & Ht & _). split; [done|].
  destruct (dk_timers w !! gkey i k); [by eexists|congruence].
Qed.

Lemma goal_missing act state i k now w w' r : act_to act state -> timers_ok w -> goal_ok i k w ->
  dk_records w !! (i, k) = Some r -> live r = true -> found (both act i k now) w = (w', Ok None) -> False.
Proof.
  intros Hact Hw Hg Hr Hl H. apply (both_missing act state) in H; [|done|done].
  destruct (goal_live i k w r Hg Hr Hl) as [_ [t Ht]]. congruence.
Qed.

(** A live goal's timers are changed and its record follows. *)
Lemma both_followed act state i k now w w' r t : act_to act state -> timers_ok w -> goal_ok i k w ->
  dk_records w !! (i, k) = Some r -> live r = true -> both act i k now w = (w', Ok t) ->
  piece i k w (SaveRecord (Follow r t now) w').1 /\ es_standing (Follow r t now) = StandingOf t /\ tm_state t = state.
Proof.
  intros Hact Hw Hg Hr Hl H. apply (both_run act state) in H as (Hw' & Hc & Hs & _ & Hat & Hwarn); [|done|done].
  destruct (goal_live i k w r Hg Hr Hl) as [Hok _]. destruct (Follow_live r t now Hl) as (Hst & _ & Hid & Harm).
  split; [|done]. apply save_followed; try done.
  - apply (changes_more _ _ _ _ _ _ Hc); set_solver.
  - intros E. apply Hwarn. congruence.
  - rewrite Hr. apply rtc_once. by apply move_live.
Qed.

(** ** The pieces of a delivery *)

(** The database's clauses with what the handlers know of a record they start:
    [goal_move] from what is stored to every record that follows its timer. *)
Definition may_follow (k : string) (old : option EntrySLA) (r : EntrySLA) : Prop :=
  forall r', live r' = true -> es_id r' = es_id r -> es_armed_at r' = es_armed_at r -> rtc (goal_move k) old (Some r').

Lemma follow_moves k old r t now : may_follow k old r -> live r = true -> timer_live t = true ->
  rtc (goal_move k) old (Some (Follow r t now)).
Proof.
  intros Hm Hl Ht. destruct (Follow_live r t now Hl) as (Hs & _ & Hid & Ha). apply Hm; [|done|done].
  apply live_states. rewrite Hs. by apply live_standing.
Qed.

Section Pieces.
Context (new_id : nat -> ID) (zones : string -> option Location).

Lemma warn_arm_run (warning : option Duration) tenant i k cal now w w' : timers_ok w ->
  (match warning with
   | Some warning => ClocksArm new_id tenant PurposeSLA i (WarnTimerName k) cal warning now;; skip
   | None => skip
   end) w = (w', Ok tt) ->
  timers_ok w' /\ changes [wkey i k] [] w w'.
Proof.
  intros Hw H. destruct warning as [warning|]; [|injection H as <-; split; [done|apply changes_refl]].
  apply bind_run in H as (t & w1 & Ha & [= <-]).
  pose proof (ClocksArm_spec new_id tenant PurposeSLA i (WarnTimerName k) cal warning now w Hw) as Hs. rewrite Ha in Hs.
  destruct Hs as (Hw1 & _ & _ & Ht & Hr). split; [done|]. split; [|by rewrite Hr].
  intros key Hkey. rewrite Ht, lookup_insert_ne; [done|]. unfold wkey in Hkey. set_solver.
Qed.

Lemma start_free item goal priority cal r now w w' : timers_ok w ->
  start new_id item goal priority cal r now w = (w', Ok tt) -> dk_timers w !! gkey (si_id item) (sg_kind goal) = None.
Proof.
  intros Hw H. unfold start in H. apply bind_run in H as (t & w1 & Ha & _).
  pose proof (ClocksArm_spec new_id (si_tenant_id item) PurposeSLA (si_id item) (TimerName (sg_kind goal)) cal (es_target r) now w Hw) as Hs.
  rewrite Ha in Hs. by destruct Hs as (_ & _ & Hnone & _).
Qed.

Lemma start_piece item goal priority cal r now w w' : let k := sg_kind goal in let i := si_id item in
  timers_ok w -> record_ok i k r -> live r = true -> may_follow k (dk_records w !! (i, k)) r ->
  start new_id item goal priority cal r now w = (w', Ok tt) ->
  piece i k w w' /\ exists r', dk_records w' !! (i, k) = Some r' /\ live r' = true.
Proof.
  intros k i Hw Hr Hl Hm H. unfold start in H. apply bind_run in H as (t & w1 & Ha & H).
  pose proof (ClocksArm_spec new_id (si_tenant_id item) PurposeSLA i (TimerName k) cal (es_target r) now w Hw) as Hs.
  unfold i, k in Hs. rewrite Ha in Hs. destruct Hs as (Hw1 & Hst & _ & Ht & Hrec). fold i k in Ht.
  fold (gkey i k) in Ht. apply bind_run in H as ([] & w2 & Hwarn & H). fold i k in H, Hwarn.
  apply warn_arm_run in Hwarn as (Hw2 & Hc2); [|done].
  assert (Hc : changes (goal_keys i k) [(i, k)] w w2).
  { apply (changes_trans _ _ _ w1); [|eapply changes_more; [exact Hc2|unfold goal_keys; set_solver|set_solver]].
    split; [|by rewrite Hrec]. intros key Hkey. rewrite Ht, lookup_insert_ne; [done|]. unfold goal_keys in Hkey. set_solver. }
  assert (Hat : dk_timers w2 !! gkey i k = Some t).
  { destruct Hc2 as [Hc2 _]. rewrite Hc2 by (pose proof (gkey_wkey i k); set_solver). by rewrite Ht, lookup_insert_eq. }
  assert (Hlive : timer_live t = true) by (unfold timer_live; by rewrite Hst).
  apply bind_run in H as (t' & w3 & Hp & [= <-]).
  assert (Hsaved : timer_live t' = true -> exists r', dk_records (SaveRecord (Follow r t' now) w3).1 !! (i, k) = Some r' /\ live r' = true).
  { intros Htl. exists (Follow r t' now). destruct (Follow_ok i k r t' now Hr Hl) as [Hi Hk _ _ _]. cbn. rewrite Hi, Hk, lookup_insert_eq.
    split; [done|]. destruct (Follow_live r t' now Hl) as (Hs & _). apply live_states. rewrite Hs. by apply live_standing. }
  destruct (Pauses goal (si_status item)).
  - change (both Pause i k now w2 = (w3, Ok t')) in Hp.
    apply (both_run Pause TimerPaused) in Hp as (Hw3 & Hc3 & Hs3 & _ & Hat3 & _); [|apply pause_to|done].
    assert (Hlive' : timer_live t' = true) by (unfold timer_live; by rewrite Hs3).
    split; [|by apply Hsaved]. apply (save_followed i k w w3 r t' now); try done; [|congruence|by apply follow_moves].
    apply (changes_trans _ _ _ w2); [done|]. eapply changes_more; [exact Hc3|done|set_solver].
  - injection Hp as <- <-. split; [|by apply Hsaved]. apply (save_followed i k w w2 r t now); try done; [by rewrite Hlive|congruence|by apply follow_moves].
Qed.

Lemma rebuild_run item cal k name budget now w w' o : timers_ok w -> (name = TimerName k \/ name = WarnTimerName k) ->
  rebuild new_id item cal name budget now w = (w', Ok o) ->
  timers_ok w' /\ changes [(PurposeSLA, (si_id item, name))] [] w w' /\
  match o with
  | Some t => timer_live t = true /\ dk_timers w' !! (PurposeSLA, (si_id item, name)) = Some t
  | None => w' = w /\ dk_timers w !! (PurposeSLA, (si_id item, name)) = None
  end.
Proof.
  intros Hw Hname H. unfold rebuild in H. apply bind_run in H as (c & w1 & Hf & H). apply found_run in Hf.
  unfold FindLive, query in Hf. destruct c as [c|].
  - injection Hf as <- Hc. apply bind_run in H as (spent & w2 & Hs & H). apply lift_run in Hs as [-> _].
    apply bind_run in H as (t & w3 & Hb & [= <- <-]).
    apply (ClocksRebuild_run new_id) in Hb as (Hw3 & Hst & Hat & Hch); [|done]. split; [done|]. split; [done|]. split; [|done].
    unfold timer_live. rewrite Hst. by destruct (bool_decide _).
  - destruct Hf as (e & He & [= <- Hn]). injection H as <- <-. split; [done|]. split; [apply changes_refl|]. split; [done|].
    by destruct (dk_timers w !! _).
Qed.

Lemma find_kind policy kind goal : PolicyGoal policy kind = Some goal -> sg_kind goal = kind.
Proof. unfold PolicyGoal. intros [_ H]%find_some. by apply String.eqb_eq in H. Qed.

(** One record: what the loops do to it. *)
Lemma retarget_piece r item policies now record w w' more : let i := si_id item in let k := es_goal record in
  timers_ok w -> goal_ok i k w -> dk_records w !! (i, k) = Some record ->
  retarget_one new_id zones r item policies now record w = (w', Ok more) -> piece i k w w' /\ more = true.
Proof.
  intros i k Hw Hg Hr H. unfold retarget_one in H.
  assert (Hstay : forall b, ret b w = (w', Ok more) -> b = true -> piece i k w w' /\ more = true).
  { intros b [= <- <-] ->. split; [by apply piece_refl|done]. }
  destruct (live record) eqn:Hl; cbn [negb] in H; [|by eapply Hstay].
  destruct (List.find _ policies) as [policy|]; [|by eapply Hstay]. destruct (String.eqb (sp_priority_field policy) ""); [by eapply Hstay|].
  destruct (PolicyGoal policy (es_goal record)) as [goal|] eqn:Hgoal; [|by eapply Hstay]. apply find_kind in Hgoal.
  destruct (_ =? _); [by eapply Hstay|]. apply bind_run in H as (cal & w1 & Hc & H). apply found_run in Hc.
  assert (w1 = w) as -> by (destruct cal; [by injection Hc|by destruct Hc as (e & _ & [= ->])]). clear Hc.
  destruct cal as [cal|]; [|by eapply Hstay]. apply bind_run in H as (o & w2 & Hb & H). rewrite Hgoal in *. fold k in Hb, H.
  destruct (goal_live i k w record Hg Hr Hl) as [Hok [t0 Ht0]].
  apply (rebuild_run _ _ k) in Hb as (Hw2 & Hc2 & Ho); [|done|by left]. fold i in Hc2, Ho. fold (gkey i k) in Hc2, Ho.
  destruct o as [t|]; [|destruct Ho; congruence]. destruct Ho as [Htl Hat].
  apply bind_run in H as ([] & w3 & Hwarn & H). apply bind_run in H as ([] & w4 & [= <-] & [= <- <-]). split; [|done].
  assert (Hc3 : timers_ok w3 /\ changes [wkey i k] [] w2 w3).
  { destruct (Warning goal _); [|injection Hwarn as <-; split; [done|apply changes_refl]].
    apply bind_run in Hwarn as (o & w4 & Hb & [= <-]). apply (rebuild_run _ _ k) in Hb as (Hw4 & Hc4 & _); [|done|by right]. done. }
  destruct Hc3 as [Hw3 Hc3].
  assert (Hl' : live (retargeted record (Target goal (PriorityOf item policy))) = true) by done.
  apply (save_followed i k w w3 _ t now); [by destruct Hok|done|done| | |unfold timer_live in Htl; by destruct (tm_state t)|].
  - apply (changes_trans _ _ _ w2); (eapply changes_more; [eassumption|unfold goal_keys; set_solver|set_solver]).
  - rewrite Htl. destruct Hc3 as [Hc3 _]. rewrite Hc3; [done|]. pose proof (gkey_wkey i k). set_solver.
  - rewrite Hr. apply rtc_once. destruct (Follow_live (retargeted record (Target goal (PriorityOf item policy))) t now Hl') as (_ & _ & Hid & Ha).
    by apply move_live.
Qed.

Lemma follow_piece item policies now record w w' : let i := si_id item in let k := es_goal record in
  timers_ok w -> goal_ok i k w -> dk_records w !! (i, k) = Some record ->
  follow_one item policies now record w = (w', Ok tt) ->
  piece i k w w' /\
  (live record = true -> forall goal, measured_by policies record = Some goal ->
     exists r', dk_records w' !! (i, k) = Some r' /\ es_standing r' = if Pauses goal (si_status item) then StandingPaused else StandingRunning).
Proof.
  intros i k Hw Hg Hr H. unfold follow_one in H. destruct (live record) eqn:Hl; cbn [negb] in H.
  2:{ injection H as <-. split; [by apply piece_refl|done]. }
  destruct (measured_by policies record) as [goal|]; [|injection H as <-; split; [by apply piece_refl|done]].
  apply bind_run in H as (o & w1 & Hf & H). set (paused := Pauses goal (si_status item)) in *.
  assert (Hact : exists act state, (if paused then pause (si_id item) (es_goal record) now else resume (si_id item) (es_goal record) now) = both act i k now /\
            act_to act state /\ state = if paused then TimerPaused else TimerRunning).
  { destruct paused; [exists Pause, TimerPaused|exists Resume, TimerRunning]; (split; [done|split; [|done]]); [apply pause_to|apply resume_to]. }
  destruct Hact as (act & state & Heq & Hact & Hstate). rewrite Heq in Hf.
  destruct o as [t|]; [|exfalso; by eapply goal_missing]. apply found_run in Hf.
  destruct (both_followed act state i k now w w1 record t Hact Hw Hg Hr Hl Hf) as (Hp & Hst & Hts).
  assert (Hfollow : es_standing (Follow record t now) = if paused then StandingPaused else StandingRunning).
  { rewrite Hst. unfold StandingOf. rewrite Hts, Hstate. by destruct paused. }
  destruct (_ && _) eqn:Esame.
  - injection H as <-. bools. unfold sameMoment in *. apply (both_run act state) in Hf as (Hw1 & Hc & _ & _ & Hat & Hwarn); [|done|done].
    destruct (goal_live i k w record Hg Hr Hl) as [Hok _].
    assert (Hr1 : dk_records w1 !! (i, k) = Some record) by (rewrite <- Hr; apply Hc; set_solver).
    assert (Htl : timer_live t = true) by (unfold timer_live; rewrite Hts, Hstate; by destruct paused).
    assert (Hrs : es_standing record = StandingOf t) by congruence. split.
    + split; [done|eapply changes_more; [exact Hc|done|set_solver]| |].
      * unfold goal_ok. rewrite Hr1, Hat, Htl. split; [done|]. split; [split; [done|]|].
        -- destruct (Follow_live record t now Hl) as (_ & Hd & _). rewrite Hd in *.
           destruct (tm_due_at t), (es_due_at record); try done. by bools; subst.
        -- intros E. rewrite Hrs in E. by apply live_standing in Htl as [? _].
      * rewrite Hr, Hr1. apply rtc_refl.
    + intros _ g [= <-]. exists record. split; [done|]. rewrite Hrs, <- Hst. exact Hfollow.
  - injection H as <-. split; [done|]. intros _ g [= <-]. eexists. split; [|exact Hfollow].
    destruct (goal_live i k w record Hg Hr Hl) as [Hok _].
    destruct (Follow_ok i k record t now Hok Hl) as [Hi Hk _ _ _]. cbn. rewrite Hi, Hk. by rewrite lookup_insert_eq.
Qed.
End Pieces.

Lemma found_both {A B C} (a : M Desk A) (b : M Desk B) (k : option B -> M Desk C) w :
  (found a;; x <~ found b; k x) w = (x <~ found (found a;; b); k x) w.
Proof.
  unfold found, bind. destruct (a w) as [w1 [x|e|]]; [done| |done]. destruct (is_not_found e) eqn:E; [done|]. by rewrite E.
Qed.

(** A live goal whose timers are acted on and whose record is then saved. *)
Lemma acted_piece act state i k now record w w' : act_to act state -> timers_ok w -> goal_ok i k w ->
  dk_records w !! (i, k) = Some record -> live record = true ->
  (timer <~ found (both act i k now); match timer with None => skip | Some timer => SaveRecord (Follow record timer now) end) w = (w', Ok tt) ->
  piece i k w w' /\ exists r' t, dk_records w' !! (i, k) = Some r' /\ r' = Follow record t now /\ es_standing r' = StandingOf t /\ tm_state t = state.
Proof.
  intros Hact Hw Hg Hr Hl H. apply bind_run in H as (o & w1 & Hf & H). destruct o as [t|]; [|exfalso; by eapply goal_missing].
  apply found_run in Hf. injection H as <-.
  destruct (both_followed act state i k now w w1 record t Hact Hw Hg Hr Hl Hf) as (Hp & Hst & Hts). split; [done|].
  exists (Follow record t now), t. split; [|done]. destruct (goal_live i k w record Hg Hr Hl) as [Hok _].
  destruct (Follow_ok i k record t now Hok Hl) as [Hi Hk _ _ _]. cbn. by rewrite Hi, Hk, lookup_insert_eq.
Qed.

Lemma meet_piece i k now record w w' : timers_ok w -> goal_ok i k w -> dk_records w !! (i, k) = Some record -> record_ok i k record ->
  meet_one k now record w = (w', Ok tt) ->
  piece i k w w' /\ (live record = true -> exists r', dk_records w' !! (i, k) = Some r' /\ es_standing r' = StandingMet /\ es_met_at r' = Some now).
Proof.
  intros Hw Hg Hr Hok H. unfold meet_one in H. rewrite (ro_goal _ _ _ Hok), (ro_item _ _ _ Hok), String.eqb_refl in H. cbn [negb orb] in H.
  destruct (live record) eqn:Hl; [|injection H as <-; split; [by apply piece_refl|done]]. cbn [negb] in H.
  assert (H' : (timer <~ found (both Stop i k now); match timer with None => skip | Some timer => SaveRecord (Follow record timer now) end) w = (w', Ok tt)).
  { rewrite <- H. unfold both. by rewrite <- found_both. }
  apply (acted_piece Stop TimerStopped) in H' as [Hp (r' & t & Hr' & -> & Hs & Ht)]; [|apply stop_to|done..].
  split; [done|]. intros _. exists (Follow record t now). split; [done|]. unfold StandingOf in Hs. rewrite Ht in Hs. split; [done|].
  apply live_states in Hl as [_ Hne]. unfold Follow. rewrite bool_decide_eq_false_2 by done. cbn. unfold StandingOf. by rewrite Ht.
Qed.

Lemma pause_piece i k now record w w' : timers_ok w -> goal_ok i k w -> dk_records w !! (i, k) = Some record -> record_ok i k record ->
  pause_one now record w = (w', Ok tt) ->
  piece i k w w' /\ (live record = true -> exists r', dk_records w' !! (i, k) = Some r' /\ es_standing r' = StandingPaused).
Proof.
  intros Hw Hg Hr Hok H. unfold pause_one in H. rewrite (ro_goal _ _ _ Hok), (ro_item _ _ _ Hok) in H.
  destruct (live record) eqn:Hl; [|injection H as <-; split; [by apply piece_refl|done]]. cbn [negb] in H.
  change (pause i k now) with (both Pause i k now) in H.
  apply (acted_piece Pause TimerPaused) in H as [Hp (r' & t & Hr' & -> & Hs & Ht)]; [|apply pause_to|done..].
  split; [done|]. intros _. exists (Follow record t now). split; [done|]. unfold StandingOf in Hs. by rewrite Ht in Hs.
Qed.

(** ** Whole deliveries *)

(** The workspace in step: the entries in [gone] were purged, with their
    records; every goal of every other is in step. *)
Record desk_ok (gone : gset ID) (w : Desk) : Prop := {
  do_timers : timers_ok w;
  do_known : forall i k r, dk_records w !! (i, k) = Some r -> k ∈ goalKinds /\ i ∉ gone;
  do_goals : forall i k, k ∈ goalKinds -> i ∉ gone -> goal_ok i k w
}.

(** What may become of the records, seen from [w0]. *)
Definition moved (w0 w : Desk) : Prop := forall i k, rtc (goal_move k) (dk_records w0 !! (i, k)) (dk_records w !! (i, k)).

Lemma moved_refl w : moved w w.
Proof. intros i k. apply rtc_refl. Qed.
Lemma moved_trans w1 w2 w3 : moved w1 w2 -> moved w2 w3 -> moved w1 w3.
Proof. intros H1 H2 i k. etrans; [apply H1|apply H2]. Qed.

Lemma goal_ok_frame i k w w' : goal_ok i k w -> dk_records w' !! (i, k) = dk_records w !! (i, k) ->
  dk_timers w' !! gkey i k = dk_timers w !! gkey i k -> dk_timers w' !! wkey i k = dk_timers w !! wkey i k -> goal_ok i k w'.
Proof. unfold goal_ok. by intros H -> -> ->. Qed.

Lemma piece_other i k w w' j k' : k ∈ goalKinds -> k' ∈ goalKinds -> (j, k') <> (i, k) -> piece i k w w' ->
  dk_records w' !! (j, k') = dk_records w !! (j, k') /\ dk_timers w' !! gkey j k' = dk_timers w !! gkey j k' /\
  dk_timers w' !! wkey j k' = dk_timers w !! wkey j k'.
Proof.
  intros Hk Hk' Hne [_ [Ht Hr] _ _]. split; [apply Hr; set_solver|].
  split; apply Ht; (eapply keys_apart; [exact Hk'|exact Hk|exact Hne|unfold goal_keys; set_solver]).
Qed.

Lemma piece_desk gone i k w w' : k ∈ goalKinds -> i ∉ gone -> desk_ok gone w -> piece i k w w' -> desk_ok gone w' /\ moved w w'.
Proof.
  intros Hk Hi [Ht Hkn Hg] Hp. pose proof Hp as [Ht' [Hct Hcr] Hg' Hm]. split; [split; [done| |]|].
  - intros j k' r Hr. destruct (decide ((j, k') = (i, k))) as [[= -> ->]|Hne]; [done|].
    rewrite Hcr in Hr by set_solver. by eapply Hkn.
  - intros j k' Hk' Hj. destruct (decide ((j, k') = (i, k))) as [[= -> ->]|Hne]; [done|].
    destruct (piece_other i k w w' j k' Hk Hk' Hne Hp) as (H1 & H2 & H3). eapply goal_ok_frame; [by apply Hg|done..].
  - intros j k'. destruct (decide ((j, k') = (i, k))) as [[= -> ->]|Hne]; [done|]. rewrite Hcr by set_solver. apply rtc_refl.
Qed.

(** ** Loops over an entry's records *)

Definition stored (i : ID) (w : Desk) (r : EntrySLA) : Prop := dk_records w !! (i, es_goal r) = Some r.

Lemma records_of_stored w i : (forall k r, dk_records w !! (i, k) = Some r -> es_goal r = k) ->
  Forall (stored i w) (records_of w i) /\ NoDup (es_goal <$> records_of w i) /\
  forall k r, k ∈ goalKinds -> dk_records w !! (i, k) = Some r -> r ∈ records_of w i.
Proof.
  intros Hg. assert (Hkeys : forall r, r ∈ records_of w i <-> exists k, k ∈ goalKinds /\ dk_records w !! (i, k) = Some r).
  { intros r. unfold records_of. by rewrite list_elem_of_omap. }
  split; [|split].
  - apply Forall_forall. intros r (k & _ & Hr)%Hkeys. unfold stored. by rewrite (Hg k r Hr).
  - unfold records_of. assert (Hnd : NoDup goalKinds) by (apply (bool_decide_unpack _); vm_compute; exact I).
    revert Hnd. generalize goalKinds. clear Hkeys. induction l as [|k l IH]; [constructor|]. intros [Hk Hnd]%NoDup_cons.
    cbn [omap list_omap]. destruct (dk_records w !! (i, k)) as [r|] eqn:E; [|by apply IH]. cbn [fmap list_fmap]. constructor; [|by apply IH].
    rewrite (Hg _ _ E). intros Hin. apply list_elem_of_fmap in Hin as (r' & Hr' & Hin). apply list_elem_of_omap in Hin as (k' & Hk' & E').
    rewrite (Hg _ _ E') in Hr'. by subst.
  - intros k r Hk Hr. apply Hkeys. by exists k.
Qed.

(** One turn: what it works on is in step after it, the records still to come
    are as they were read. *)
Lemma turn gone i r rs w w1 : i ∉ gone -> desk_ok gone w -> Forall (stored i w) (r :: rs) -> NoDup (es_goal <$> r :: rs) ->
  piece i (es_goal r) w w1 ->
  desk_ok gone w1 /\ moved w w1 /\ Forall (stored i w1) rs /\ NoDup (es_goal <$> rs) /\
  (forall key, key <> (i, es_goal r) -> dk_records w1 !! key = dk_records w !! key).
Proof.
  intros Hi Hw [Hr Hall]%Forall_cons Hnd Hp. cbn [fmap list_fmap] in Hnd. apply NoDup_cons in Hnd as [Hfresh Hnd].
  destruct (do_known gone w Hw _ _ _ Hr) as [Hk _]. destruct (piece_desk gone i (es_goal r) w w1 Hk Hi Hw Hp) as [Hw1 Hm1].
  assert (Hother : forall key, key <> (i, es_goal r) -> dk_records w1 !! key = dk_records w !! key).
  { intros key Hne. destruct Hp as [_ [_ Hc] _ _]. apply Hc. set_solver. }
  split; [done|]. split; [done|]. split; [|done]. apply Forall_forall. intros r' Hr'. unfold stored.
  rewrite Hother; [by rewrite Forall_forall in Hall; apply Hall|]. intros [= E]. apply Hfresh. rewrite <- E. by apply list_elem_of_fmap_2.
Qed.

(** Each turn works on the goal of its record; what a turn leaves of it stays. *)
Lemma loop_pieces gone i (f : EntrySLA -> M Desk unit) (Q : EntrySLA -> option EntrySLA -> Prop) rs : i ∉ gone ->
  (forall r w w', es_goal r ∈ goalKinds -> desk_ok gone w -> stored i w r -> f r w = (w', Ok tt) ->
     piece i (es_goal r) w w' /\ Q r (dk_records w' !! (i, es_goal r))) ->
  forall w w', desk_ok gone w -> Forall (stored i w) rs -> NoDup (es_goal <$> rs) -> for_each f rs w = (w', Ok tt) ->
  desk_ok gone w' /\ moved w w' /\ Forall (fun r => Q r (dk_records w' !! (i, es_goal r))) rs /\
  (forall key, key.1 <> i \/ key.2 ∉ es_goal <$> rs -> dk_records w' !! key = dk_records w !! key).
Proof.
  intros Hi Hf. induction rs as [|r rs IH]; intros w w' Hw Hall Hnd H; cbn in H.
  - injection H as <-. split; [done|]. split; [apply moved_refl|]. split; [constructor|done].
  - apply bind_run in H as ([] & w1 & H1 & H). pose proof Hall as [Hr _]%Forall_cons.
    destruct (do_known gone w Hw _ _ _ Hr) as [Hk _]. destruct (Hf r w w1 Hk Hw Hr H1) as [Hp Hq].
    destruct (turn gone i r rs w w1 Hi Hw Hall Hnd Hp) as (Hw1 & Hm1 & Hall1 & Hnd1 & Hother).
    destruct (IH w1 w' Hw1 Hall1 Hnd1 H) as (Hw' & Hm' & HQ & Hrest). split; [done|]. split; [by eapply moved_trans|].
    cbn [fmap list_fmap] in Hnd |- *. apply NoDup_cons in Hnd as [Hfresh _]. split.
    + constructor; [|done]. by rewrite Hrest by by right.
    + intros [j k'] Hkey. cbn in Hkey. rewrite Hrest by (cbn; set_solver). apply Hother. intros [= -> ->]. set_solver.
Qed.

(** ** The handlers *)

Lemma desk_same gone w w' : desk_ok gone w -> dk_timers w' = dk_timers w -> dk_records w' = dk_records w ->
  (forall x, x ∈ dk_jobs w -> x ∈ dk_jobs w') -> desk_ok gone w'.
Proof.
  intros [Ht Hk Hg] Et Er Hj. split.
  - by apply (timers_ok_same w).
  - intros i k r. rewrite Er. apply Hk.
  - intros i k Hkind Hi. eapply goal_ok_frame; [by apply Hg|by rewrite ?Et, ?Er..].
Qed.

(** Every goal of the policies read is of a kind. *)
Definition kinds_known (policies : list SLAPolicy) : Prop :=
  forall p g, p ∈ policies -> g ∈ sp_goals p -> sg_kind g ∈ goalKinds.

Section Handlers.
Context (new_id : nat -> ID) (zones : string -> option Location) (Hnew : forall n, new_id n <> "") (gone : gset ID).

Definition answers (w : Desk) (w' : Desk) : Prop := desk_ok gone w' /\ moved w w'.

Lemma answers_refl w : desk_ok gone w -> answers w w.
Proof. intros H. split; [done|apply moved_refl]. Qed.
Lemma answers_trans w1 w2 w3 : answers w1 w2 -> answers w2 w3 -> answers w1 w3.
Proof. intros [_ H1] [H2 H3]. split; [done|]. by eapply moved_trans. Qed.

Lemma NewID_run w w1 id : NewID new_id w = (w1, Ok id) -> id <> "" /\ dk_timers w1 = dk_timers w /\ dk_records w1 = dk_records w /\
  (desk_ok gone w -> answers w w1).
Proof.
  intros [= <- <-]. split; [apply Hnew|]. split; [done|]. split; [done|]. intros H.
  split; [by apply (desk_same gone w)|]. intros i k. apply rtc_refl.
Qed.

Lemma Choose_in policies entryType organisation p : Choose policies entryType organisation = Some p -> p ∈ policies.
Proof.
  unfold Choose. intros [H _]%find_some. apply list_elem_of_In in H. by rewrite (sort_by_perm policy_rank rank_compare) in H.
Qed.

Lemma choose_in r item policies p : choose r item policies = Ok (Some p) -> p ∈ policies.
Proof.
  unfold choose. intros H. apply bind_ok in H as (organisation & _ & H). apply bind_ok in H as (within_ & Hw & [= H]).
  apply Choose_in in H. unfold policiesFor in Hw. apply bind_ok in Hw as (hub & _ & [= <-]).
  unfold PoliciesWithin in H. apply list_elem_of_In, filter_In in H as [H _]. by apply list_elem_of_In.
Qed.

Lemma new_record_ok id item k policy target now : id <> "" -> record_ok (si_id item) k (new_record id item k policy target now).
Proof. intros H. split; cbn; try done; (split; [done|by intros [? ?]]). Qed.

(** The records the snapshot does not have were armed since. *)
Definition armed_since (i : ID) (records : list EntrySLA) (w : Desk) : Prop :=
  forall k r, dk_records w !! (i, k) = Some r -> record_held records k = true \/ live r = true.

Lemma arm_goal_run r item policy cal records now goal w w' : si_id item ∉ gone -> sg_kind goal ∈ goalKinds ->
  desk_ok gone w -> armed_since (si_id item) records w ->
  arm_goal new_id r item policy cal records now goal w = (w', Ok tt) ->
  answers w w' /\ armed_since (si_id item) records w'.
Proof.
  intros Hi Hk Hw Hs H. unfold arm_goal in H. destruct (_ || _) eqn:Eh; [injection H as <-; by split; [apply answers_refl|]|].
  apply orb_false_iff in Eh as [Eh _]. apply bind_run in H as (id & w1 & Hid & H).
  destruct (NewID_run w w1 id Hid) as (Hne & Et & Er & Hok). destruct (Hok Hw) as [Hw1 Hm1].
  set (k := sg_kind goal) in *. set (i := si_id item) in *. pose proof (do_timers _ _ Hw1) as Ht1.
  pose proof (start_free new_id _ _ _ _ _ _ _ _ Ht1 H) as Hfree. fold i k in Hfree.
  assert (Hnone : dk_records w1 !! (i, k) = None).
  { pose proof (do_goals _ _ Hw1 i k Hk Hi) as Hg. unfold goal_ok in Hg. destruct (dk_records w1 !! (i, k)) as [r0|] eqn:E; [|done].
    rewrite Hfree in Hg. destruct Hg as (_ & Hl & _). rewrite Er in E. destruct (Hs k r0 E); congruence. }
  assert (Hm : may_follow k (dk_records w1 !! (i, k)) (new_record id item k policy (Target goal (PriorityOf item policy)) now)).
  { intros r' Hl' _ _. rewrite Hnone. apply rtc_once. by apply move_armed. }
  destruct (start_piece new_id zones item goal _ _ _ _ _ _ Ht1 (new_record_ok id item k policy _ now Hne) eq_refl Hm H) as [Hp (r' & Hr' & Hl')].
  destruct (piece_desk gone i k w1 w' Hk Hi Hw1 Hp) as [Hw' Hm']. split; [by apply (answers_trans w w1); split|].
  intros k' r0 Hr0. destruct (decide (k' = k)) as [->|Hne']; [right; fold i k in Hr'; congruence|].
  destruct Hp as [_ [_ Hc] _ _]. rewrite Hc in Hr0 by set_solver. rewrite Er in Hr0. by eapply Hs.
Qed.

Lemma arm_run r item policies records now w w' : si_id item ∉ gone -> kinds_known policies ->
  desk_ok gone w -> armed_since (si_id item) records w ->
  arm new_id zones r item policies records now w = (w', Ok tt) -> answers w w'.
Proof.
  intros Hi Hkinds Hw Hs H. unfold arm in H. destruct (gone_or_done item); [injection H as <-; by apply answers_refl|].
  apply bind_run in H as (chosen & w1 & Hc & H). apply lift_run in Hc as [-> Hc].
  destruct chosen as [policy|]; [|injection H as <-; by apply answers_refl]. apply choose_in in Hc.
  apply bind_run in H as (cal & w1 & Hcal & H). apply found_run in Hcal.
  assert (w1 = w) as -> by (destruct cal; [by injection Hcal|by destruct Hcal as (e & _ & [= ->])]). clear Hcal.
  destruct cal as [cal|]; [|injection H as <-; by apply answers_refl].
  assert (Hg : forall g, g ∈ sp_goals policy -> sg_kind g ∈ goalKinds) by (intros g Hg; by eapply Hkinds).
  revert w Hw Hs H Hg. generalize (sp_goals policy). intros goals. induction goals as [|g goals IH]; intros w Hw Hs H Hg; cbn in H.
  - injection H as <-. by apply answers_refl.
  - apply bind_run in H as ([] & w1 & H1 & H). destruct (arm_goal_run _ _ _ _ _ _ _ _ _ Hi (Hg g ltac:(by left)) Hw Hs H1) as [Ha Hs1].
    eapply answers_trans; [exact Ha|]. apply IH; [by destruct Ha|done|done|]. intros g' Hg'. apply Hg. by right.
Qed.

Lemma retarget_run r item policies now records w w' : si_id item ∉ gone -> desk_ok gone w ->
  Forall (stored (si_id item) w) records -> NoDup (es_goal <$> records) ->
  retarget new_id zones r item policies now records w = (w', Ok tt) -> answers w w'.
Proof.
  intros Hi. revert w. induction records as [|record rest IH]; intros w Hw Hall Hnd H; cbn in H; [injection H as <-; by apply answers_refl|].
  apply bind_run in H as (more & w1 & H1 & H). pose proof Hall as [Hr _]%Forall_cons. destruct (do_known gone w Hw _ _ _ Hr) as [Hk _].
  destruct (retarget_piece new_id zones r item policies now record w w1 more (do_timers _ _ Hw) (do_goals _ _ Hw _ _ Hk Hi) Hr H1) as [Hp ->].
  destruct (turn gone _ record rest w w1 Hi Hw Hall Hnd Hp) as (Hw1 & Hm1 & Hall1 & Hnd1 & _).
  apply (answers_trans w w1); [by split|]. by apply IH.
Qed.

Lemma next_round_spec policy now record w i : i ∉ gone -> desk_ok gone w ->
  match next_round policy now record (records_of w i) with
  | None => True
  | Some r' => match dk_records w !! (i, GoalNextResponse) with
               | None => r' = record
               | Some held => es_standing held = StandingMet /\ es_standing r' = StandingRunning /\ es_met_at r' = None /\
                   es_breached_at r' = es_breached_at held /\ es_id r' = es_id held /\ es_item_id r' = es_item_id held /\ es_goal r' = es_goal held
               end
  end.
Proof.
  intros Hi Hw. assert (Hg : forall k r, dk_records w !! (i, k) = Some r -> es_goal r = k).
  { intros k r Hr. destruct (do_known gone w Hw _ _ _ Hr) as [Hk _]. pose proof (do_goals _ _ Hw i k Hk Hi) as H. unfold goal_ok in H.
    rewrite Hr in H. by destruct H as [[_ H _ _ _] _]. }
  unfold records_of, goalKinds. cbn [omap list_omap].
  assert (Hlast : forall rec, match match dk_records w !! (i, GoalResolution) with Some y => [y] | None => [] end with
                              | l => next_round policy now rec l end = Some rec).
  { intros rec. destruct (dk_records w !! (i, GoalResolution)) as [r3|] eqn:E3; [|done]. cbn. by rewrite (Hg _ _ E3). }
  assert (Hrest : match next_round policy now record (match dk_records w !! (i, GoalNextResponse) with
                    | Some y => y :: match dk_records w !! (i, GoalResolution) with Some y => [y] | None => [] end
                    | None => match dk_records w !! (i, GoalResolution) with Some y => [y] | None => [] end end) with
                  | None => True
                  | Some r' => match dk_records w !! (i, GoalNextResponse) with
                      | None => r' = record
                      | Some held => es_standing held = StandingMet /\ es_standing r' = StandingRunning /\ es_met_at r' = None /\
                          es_breached_at r' = es_breached_at held /\ es_id r' = es_id held /\ es_item_id r' = es_item_id held /\ es_goal r' = es_goal held
                      end
                  end).
  { destruct (dk_records w !! (i, GoalNextResponse)) as [r2|] eqn:E2; [|by rewrite Hlast].
    cbn [next_round]. rewrite (Hg _ _ E2). cbn. unfold Rearm. destruct (bool_decide_reflect (es_standing r2 = StandingMet)); [|done].
    rewrite Hlast. repeat split; try done. by rewrite (Hg _ _ E2). }
  destruct (dk_records w !! (i, GoalFirstResponse)) as [r1|] eqn:E1; [|exact Hrest].
  cbn [next_round]. rewrite (Hg _ _ E1). cbn. destruct (live r1); [done|exact Hrest].
Qed.

Lemma awaitNext_run r item policies now w w' : si_id item ∉ gone -> desk_ok gone w ->
  awaitNext new_id zones r item policies (records_of w (si_id item)) now w = (w', Ok tt) -> answers w w'.
Proof.
  intros Hi Hw H. unfold awaitNext in H. destruct (gone_or_done item); [injection H as <-; by apply answers_refl|].
  apply bind_run in H as (chosen & w1 & Hc & H). apply lift_run in Hc as [-> _].
  destruct chosen as [policy|]; [|injection H as <-; by apply answers_refl].
  destruct (PolicyGoal policy GoalNextResponse) as [goal|] eqn:Eg; [|injection H as <-; by apply answers_refl].
  apply find_kind in Eg. apply bind_run in H as (id & w1 & Hid & H). destruct (NewID_run w w1 id Hid) as (Hne & Et & Er & Hok).
  pose proof (Hok Hw) as Hw1. pose proof (next_round_spec policy now
    (new_record id item (sg_kind goal) policy (Target goal (PriorityOf item policy)) now) w (si_id item) Hi Hw) as Hn.
  destruct (next_round _ _ _ _) as [record|]; [|injection H as <-; done]. apply bind_run in H as (cal & w2 & Hcal & H).
  apply found_run in Hcal. assert (w2 = w1) as -> by (destruct cal; [by injection Hcal|by destruct Hcal as (e & _ & [= ->])]). clear Hcal.
  destruct cal as [cal|]; [|injection H as <-; done]. set (i := si_id item) in *.
  assert (Hk : sg_kind goal ∈ goalKinds) by (rewrite Eg; set_solver).
  pose proof (do_goals _ _ (proj1 Hw1) i _ Hk Hi) as Hg. rewrite <- Er, <- Eg in Hn.
  assert (Hrec : record_ok i (sg_kind goal) record /\ live record = true /\ may_follow (sg_kind goal) (dk_records w1 !! (i, sg_kind goal)) record).
  { unfold goal_ok in Hg. destruct (dk_records w1 !! (i, sg_kind goal)) as [held|] eqn:Eh.
    - destruct Hn as (Hmet & Hrun & Hma & Hba & Hid' & Hit & Hgo), Hg as ([H1 H2 H3 H4 H5] & _). split; [|split].
      + split; [congruence|congruence|congruence|rewrite Hrun, Hma; split; [done|by intros [? ?]]|].
        rewrite Hrun, Hba, <- H5. split; [done|congruence].
      + unfold live. by rewrite Hrun.
      + intros r' Hl' Hid'' _. apply rtc_once. apply move_again; [done|done|done|congruence].
    - subst record. split; [by apply new_record_ok|]. split; [done|]. intros r' Hl' _ _. apply rtc_once. by apply move_armed. }
  destruct Hrec as (Hro & Hl & Hm). destruct (start_piece new_id zones item goal _ _ _ _ _ _ (do_timers _ _ (proj1 Hw1)) Hro Hl Hm H) as [Hp _].
  destruct (piece_desk gone i _ w1 w' Hk Hi (proj1 Hw1) Hp) as [Hw' Hm']. by apply (answers_trans w w1).
Qed.
End Handlers.

Section Ends.
Context (gone : gset ID).

(** [meet] is at most one record's turn. *)
Lemma meet_turn records kind now w w' : NoDup (es_goal <$> records) -> meet records kind now w = (w', Ok tt) ->
  (exists r, r ∈ records /\ es_goal r = kind /\ meet_one kind now r w = (w', Ok tt)) \/ ((kind ∉ es_goal <$> records) /\ w' = w).
Proof.
  assert (Hskip : forall r v, es_goal r <> kind -> meet_one kind now r v = (v, Ok tt)).
  { intros r v Hne. unfold meet_one. apply String.eqb_neq in Hne. by rewrite Hne. }
  unfold meet. revert w. induction records as [|r rest IH]; intros w Hnd H; cbn in H; [injection H as <-; right; split; [set_solver|done]|].
  cbn [fmap list_fmap] in *. apply NoDup_cons in Hnd as [Hfresh Hnd]. apply bind_run in H as ([] & w1 & H1 & H).
  destruct (decide (es_goal r = kind)) as [E|Hne].
  - left. exists r. split; [by left|]. split; [done|]. assert (w1 = w') as <-; [|done].
    destruct (IH w1 Hnd H) as [(r' & Hr' & E' & _)|[_ ->]]; [|done]. destruct Hfresh. rewrite E, <- E'. by apply list_elem_of_fmap_2.
  - rewrite Hskip in H1 by done. injection H1 as <-. destruct (IH w Hnd H) as [(r' & Hr' & E' & Hm)|[Hk ->]].
    + left. exists r'. split; [by right|done].
    + right. split; [set_solver|done].
Qed.

Lemma meet_run i records kind now w w' : i ∉ gone -> desk_ok gone w -> NoDup (es_goal <$> records) ->
  (forall r, r ∈ records -> es_goal r = kind -> stored i w r) -> meet records kind now w = (w', Ok tt) ->
  answers gone w w' /\ (forall key, key <> (i, kind) -> dk_records w' !! key = dk_records w !! key) /\
  (forall r, r ∈ records -> es_goal r = kind -> live r = true ->
     exists r', dk_records w' !! (i, kind) = Some r' /\ es_standing r' = StandingMet /\ es_met_at r' = Some now) /\
  (forall r, r ∈ records -> es_goal r = kind -> live r = false -> dk_records w' !! (i, kind) = Some r).
Proof.
  intros Hi Hw Hnd Hst H. destruct (meet_turn records kind now w w' Hnd H) as [(r & Hr & Hk & Hm)|[Hk ->]].
  - pose proof (Hst r Hr Hk) as Hs. unfold stored in Hs. rewrite Hk in Hs. destruct (do_known gone w Hw _ _ _ Hs) as [Hkind _].
    pose proof (do_goals gone w Hw i kind Hkind Hi) as Hg. assert (Hro : record_ok i kind r) by (unfold goal_ok in Hg; rewrite Hs in Hg; by destruct Hg).
    destruct (meet_piece i kind now r w w' (do_timers _ _ Hw) Hg Hs Hro Hm) as [Hp Hmet].
    destruct (piece_desk gone i kind w w' Hkind Hi Hw Hp) as [Hw' Hmv]. split; [done|]. split; [|split].
    + intros key Hne. destruct Hp as [_ [_ Hc] _ _]. apply Hc. set_solver.
    + intros r' Hr' Hk' Hl. assert (r' = r) as -> by (pose proof (Hst r' Hr' Hk') as E; unfold stored in E; rewrite Hk' in E; congruence).
      by apply Hmet.
    + intros r' Hr' Hk' Hl. assert (r' = r) as -> by (pose proof (Hst r' Hr' Hk') as E; unfold stored in E; rewrite Hk' in E; congruence).
      unfold meet_one in Hm. rewrite Hl, orb_true_r in Hm. by injection Hm as <-.
  - split; [split; [done|apply moved_refl]|]. split; [done|].
    split; intros r Hr E; destruct Hk; rewrite <- E; by apply list_elem_of_fmap_2.
Qed.

Lemma desk_goals w i k r : desk_ok gone w -> dk_records w !! (i, k) = Some r -> record_ok i k r.
Proof.
  intros Hw Hr. destruct (do_known gone w Hw _ _ _ Hr) as [Hk Hi]. pose proof (do_goals gone w Hw i k Hk Hi) as H.
  unfold goal_ok in H. rewrite Hr in H. by destruct H.
Qed.

Lemma snapshot w i : desk_ok gone w ->
  Forall (stored i w) (records_of w i) /\ NoDup (es_goal <$> records_of w i) /\
  forall k r, dk_records w !! (i, k) = Some r -> r ∈ records_of w i.
Proof.
  intros Hw. destruct (records_of_stored w i) as (H1 & H2 & H3).
  - intros k r Hr. by apply (desk_goals w i k r Hw) in Hr as [_ ? _ _ _].
  - split; [done|]. split; [done|]. intros k r Hr. apply (H3 k r); [|done]. by destruct (do_known gone w Hw _ _ _ Hr).
Qed.

(** A completion: every goal of the entry that was open is met, the others are
    as they were. *)
Lemma stopAll_met i now w w' : i ∉ gone -> desk_ok gone w -> stopAll i (records_of w i) true now w = (w', Ok tt) ->
  answers gone w w' /\ forall k r, dk_records w !! (i, k) = Some r ->
    exists r', dk_records w' !! (i, k) = Some r' /\ if live r then es_standing r' = StandingMet /\ es_met_at r' = Some now else r' = r.
Proof.
  intros Hi Hw H. destruct (snapshot w i Hw) as (Hst & Hnd & Hin). rewrite Forall_forall in Hst. unfold stopAll in H.
  set (rs := records_of w i) in *. cbn [for_each goalKinds] in H.
  apply bind_run in H as ([] & w1 & H1 & H). apply bind_run in H as ([] & w2 & H2 & H). apply bind_run in H as ([] & w3 & H3 & [= <-]).
  destruct (meet_run i rs _ now w w1 Hi Hw Hnd (fun r Hr _ => Hst r Hr) H1) as (Ha1 & Ho1 & Hm1 & Hs1).
  assert (Hst1 : forall r, r ∈ rs -> es_goal r = GoalNextResponse -> stored i w1 r).
  { intros r Hr E. unfold stored. rewrite Ho1; [by apply Hst|]. rewrite E. done. }
  destruct (meet_run i rs _ now w1 w2 Hi (proj1 Ha1) Hnd Hst1 H2) as (Ha2 & Ho2 & Hm2 & Hs2).
  assert (Hst2 : forall r, r ∈ rs -> es_goal r = GoalResolution -> stored i w2 r).
  { intros r Hr E. unfold stored. rewrite Ho2, Ho1; [by apply Hst|rewrite E; done..]. }
  destruct (meet_run i rs _ now w2 w3 Hi (proj1 Ha2) Hnd Hst2 H3) as (Ha3 & Ho3 & Hm3 & Hs3).
  split; [eapply answers_trans; [exact Ha1|eapply answers_trans; [exact Ha2|exact Ha3]]|].
  intros k r Hr. pose proof (Hin k r Hr) as Hrs. assert (Hk : es_goal r = k) by by apply (desk_goals w i k r Hw) in Hr as [_ ? _ _ _].
  destruct (do_known gone w Hw _ _ _ Hr) as [Hkind _]. apply goalKinds_cases in Hkind.
  destruct Hkind as [->|[->| ->]]; rewrite ?Ho3, ?Ho2 by done; destruct (live r) eqn:El; eauto.
Qed.

Lemma pauseAll_run i now w w' : i ∉ gone -> desk_ok gone w -> pauseAll (records_of w i) now w = (w', Ok tt) ->
  answers gone w w' /\ forall k r, dk_records w !! (i, k) = Some r -> live r = true ->
    exists r', dk_records w' !! (i, k) = Some r' /\ es_standing r' = StandingPaused.
Proof.
  intros Hi Hw H. destruct (snapshot w i Hw) as (Hst & Hnd & Hin).
  assert (Hf : forall r v v', es_goal r ∈ goalKinds -> desk_ok gone v -> stored i v r -> pause_one now r v = (v', Ok tt) ->
      piece i (es_goal r) v v' /\ (live r = true -> exists r', dk_records v' !! (i, es_goal r) = Some r' /\ es_standing r' = StandingPaused)).
  { intros r v v' Hk Hv Hs Hf. pose proof (desk_goals v i _ r Hv Hs) as Hro.
    exact (pause_piece i _ now r v v' (do_timers _ _ Hv) (do_goals _ _ Hv i _ Hk Hi) Hs Hro Hf). }
  destruct (loop_pieces gone i (pause_one now) (fun r o => live r = true -> exists r', o = Some r' /\ es_standing r' = StandingPaused)
              (records_of w i) Hi Hf w w' Hw Hst Hnd H) as (Hw' & Hm & Hall & _).
  split; [done|]. intros k r Hr Hl. rewrite Forall_forall in Hall. pose proof (Hall r (Hin k r Hr) Hl) as HQ.
    apply (desk_goals w i k r Hw) in Hr as [_ Hk _ _ _]. by rewrite Hk in HQ.
Qed.

Lemma follow_run item policies now w w' : si_id item ∉ gone -> desk_ok gone w ->
  follow item policies (records_of w (si_id item)) now w = (w', Ok tt) ->
  answers gone w w' /\ forall k r goal, dk_records w !! (si_id item, k) = Some r -> live r = true -> measured_by policies r = Some goal ->
    exists r', dk_records w' !! (si_id item, k) = Some r' /\
      es_standing r' = if Pauses goal (si_status item) then StandingPaused else StandingRunning.
Proof.
  intros Hi Hw H. destruct (snapshot w (si_id item) Hw) as (Hst & Hnd & Hin).
  set (Q := fun (r : EntrySLA) (o : option EntrySLA) => live r = true -> forall goal, measured_by policies r = Some goal ->
    exists r', o = Some r' /\ es_standing r' = if Pauses goal (si_status item) then StandingPaused else StandingRunning).
  assert (Hf : forall r v v', es_goal r ∈ goalKinds -> desk_ok gone v -> stored (si_id item) v r -> follow_one item policies now r v = (v', Ok tt) ->
      piece (si_id item) (es_goal r) v v' /\ Q r (dk_records v' !! (si_id item, es_goal r))).
  { intros r v v' Hk Hv Hs Hf. exact (follow_piece item policies now r v v' (do_timers _ _ Hv) (do_goals _ _ Hv _ _ Hk Hi) Hs Hf). }
  destruct (loop_pieces gone _ _ Q (records_of w (si_id item)) Hi Hf w w' Hw Hst Hnd H) as (Hw' & Hm & Hall & _).
  split; [done|]. intros k r goal Hr Hl Hg. rewrite Forall_forall in Hall. pose proof (Hall r (Hin k r Hr) Hl goal Hg) as HQ.
    apply (desk_goals w _ k r Hw) in Hr as [_ Hk _ _ _]. by rewrite Hk in HQ.
Qed.

(** Of an entry that is gone only timers are stopped. *)
Lemma stopAll_gone i now w w' : i ∈ gone -> desk_ok gone w -> stopAll i (records_of w i) false now w = (w', Ok tt) -> answers gone w w'.
Proof.
  intros Hi Hw. unfold stopAll. generalize (records_of w i). intros rs.
  assert (Hone : forall name v v', desk_ok gone v -> (exists k, k ∈ goalKinds /\ (PurposeSLA, (i, name)) ∈ goal_keys i k) ->
            (found (ClocksChange Stop PurposeSLA i name now);; skip) v = (v', Ok tt) -> answers gone v v').
  { intros name v v' Hv (k & Hk & Hkey) H. apply bind_run in H as (o & v1 & Hf & [= <-]).
    apply (found_change Stop TimerStopped) in Hf as (Ht & [Hc Hr] & _); [|apply stop_to|by apply (do_timers gone)].
    assert (Hrec : forall key, dk_records v1 !! key = dk_records v !! key) by (intros key; apply Hr; set_solver).
    split; [split; [done| |]|].
    - intros j k' r. rewrite Hrec. apply (do_known gone v Hv).
    - intros j k' Hk' Hj. assert (Hne : (i, k) <> (j, k')) by (intros [= -> ->]; done).
      assert (Hother : forall key, key ∈ goal_keys j k' -> dk_timers v1 !! key = dk_timers v !! key).
      { intros key Hin. apply Hc. intros ->%list_elem_of_singleton. by eapply (keys_apart i k j k'). }
      eapply goal_ok_frame; [by apply (do_goals gone v Hv)|by rewrite Hrec|apply Hother; unfold goal_keys; set_solver..].
    - intros j k'. rewrite Hrec. apply rtc_refl. }
  assert (Hkinds : forall k, k ∈ goalKinds -> k ∈ goalKinds) by done. revert Hkinds. generalize goalKinds at 1 3. intros kinds Hkinds.
  revert w Hw. induction kinds as [|k kinds IH]; intros w Hw H; cbn [for_each] in H; [injection H as <-; by apply answers_refl|].
  apply bind_run in H as ([] & w1 & H1 & H). assert (Hk : k ∈ goalKinds) by (apply Hkinds; by left).
  cbn [for_each] in H1. apply bind_run in H1 as ([] & w2 & H1 & H2). apply bind_run in H2 as ([] & w3 & H2 & [= <-]).
  assert (Ha : answers gone w w2) by (eapply Hone; [done| |exact H1]; exists k; split; [done|unfold goal_keys, wkey; set_solver]).
  assert (Hb : answers gone w2 w3) by (eapply Hone; [apply Ha| |exact H2]; exists k; split; [done|unfold goal_keys, gkey; set_solver]).
  eapply answers_trans; [exact Ha|]. eapply answers_trans; [exact Hb|]. apply IH; [intros k' Hk'; apply Hkinds; by right|apply Hb|done].
Qed.
End Ends.

(** ** Reachable workspaces *)

(** What the ports answer about the entries: an entry is not found exactly once
    it was purged, and is found under its own id; the policies were checked. *)
Record reads_ok (gone : gset ID) (r : Reads) : Prop := {
  rk_found : forall i item, rd_item r i = Ok item -> si_id item = i /\ i ∉ gone;
  rk_gone : forall i e, rd_item r i = Err e -> is_not_found e = true -> i ∈ gone;
  rk_policies : forall policies, rd_policies r = Ok policies -> kinds_known policies
}.

Section Runs.
Context (new_id : nat -> ID) (zones : string -> option Location) (Hnew : forall n, new_id n <> "").

Lemma OfItem_run item w w' rs : OfItem item w = (w', Ok rs) -> w' = w /\ rs = records_of w item.
Proof. by intros [= <- <-]. Qed.

Lemma snapshot_armed i w : (forall k r, dk_records w !! (i, k) = Some r -> r ∈ records_of w i /\ es_goal r = k) ->
  armed_since i (records_of w i) w.
Proof.
  intros H k r Hr. left. destruct (H k r Hr) as [Hin Hk]. unfold record_held. apply existsb_exists. exists r.
  rewrite <- list_elem_of_In. split; [done|]. by apply String.eqb_eq.
Qed.

Lemma on_item_run gone r e i item policies w w' : i ∉ gone -> si_id item = i -> kinds_known policies -> desk_ok gone w ->
  on_item new_id zones r e i item policies (records_of w i) w = (w', Ok tt) -> answers gone w w'.
Proof.
  intros Hi Hid Hkinds Hw H. unfold on_item in H. rewrite <- Hid in *.
  assert (Harmed : forall v, desk_ok gone v -> armed_since (si_id item) (records_of v (si_id item)) v).
  { intros v Hv. apply snapshot_armed. intros k rec Hr. destruct (snapshot gone v (si_id item) Hv) as (_ & _ & Hin).
    split; [by eapply Hin|]. by apply (desk_goals gone v _ k rec Hv) in Hr as [_ ? _ _ _]. }
  destruct (String.eqb (ev_type e) ItemCreated).
  { by eapply (arm_run new_id zones Hnew gone); [| | |apply Harmed|exact H]. }
  destruct (String.eqb (ev_type e) ItemUpdated).
  { apply bind_run in H as (rs1 & w1 & H1 & H). apply bind_run in H as (rs2 & w2 & H2 & H).
    assert (Ha1 : answers gone w w1 /\ rs1 = records_of w1 (si_id item)).
    { destruct (changed e "entry_type"); [|injection H1 as <- <-; by split; [apply answers_refl|]].
      apply bind_run in H1 as ([] & v & Ha & [-> ->]%OfItem_run). split; [|done].
      by eapply (arm_run new_id zones Hnew gone); [| | |apply Harmed|exact Ha]. }
    destruct Ha1 as [Ha1 ->]. assert (Ha2 : answers gone w1 w2 /\ rs2 = records_of w2 (si_id item)).
    { destruct (changed e FieldCustomFields); [|injection H2 as <- <-; by split; [apply answers_refl, Ha1|]].
      apply bind_run in H2 as ([] & v & Ha & [-> ->]%OfItem_run). split; [|done].
      destruct (snapshot gone w1 (si_id item) (proj1 Ha1)) as (Hst & Hnd & _).
      exact (retarget_run new_id zones gone r item policies _ _ _ _ Hi (proj1 Ha1) Hst Hnd Ha). }
    destruct Ha2 as [Ha2 ->]. destruct (follow_run gone item policies _ w2 w' Hi (proj1 Ha2) H) as [Ha3 _].
    eapply answers_trans; [exact Ha1|]. eapply answers_trans; [exact Ha2|exact Ha3]. }
  destruct (String.eqb (ev_type e) ItemCompleted); [by destruct (stopAll_met gone _ _ w w' Hi Hw H)|].
  destruct (String.eqb (ev_type e) CommentCreated).
  { destruct (ev_internal e); [injection H as <-; by apply answers_refl|]. apply bind_run in H as (requester & w1 & Hq & H).
    apply lift_run in Hq as [-> _]. destruct requester; [by eapply (awaitNext_run new_id zones Hnew gone)|].
    apply bind_run in H as ([] & w1 & H1 & H). destruct (snapshot gone w (si_id item) Hw) as (Hst & Hnd & _). rewrite Forall_forall in Hst.
    destruct (meet_run gone _ _ _ _ w w1 Hi Hw Hnd (fun rec Hr _ => Hst rec Hr) H1) as (Ha1 & Ho & _).
    assert (Hst1 : forall rec, rec ∈ records_of w (si_id item) -> es_goal rec = GoalNextResponse -> stored (si_id item) w1 rec).
    { intros rec Hr E. unfold stored. rewrite Ho; [by apply Hst|]. by rewrite E. }
    destruct (meet_run gone _ _ _ _ w1 w' Hi (proj1 Ha1) Hnd Hst1 H) as (Ha2 & _). by eapply answers_trans. }
  destruct (String.eqb (ev_type e) ItemTrashed); [by destruct (pauseAll_run gone _ _ w w' Hi Hw H)|].
  destruct (String.eqb (ev_type e) ItemRestored); [by destruct (follow_run gone item policies _ w w' Hi Hw H)|].
  injection H as <-. by apply answers_refl.
Qed.

Lemma Deliver_run gone r e w w' : reads_ok gone r -> (ev_type e = ItemPurged -> ItemOf e = "" \/ ItemOf e ∈ gone) -> desk_ok gone w ->
  Deliver new_id zones r e w = (w', Ok tt) -> answers gone w w'.
Proof.
  intros Hr Hpurged Hw H. unfold Deliver in H. set (i := if String.eqb (ev_type e) CommentCreated then _ else _) in *.
  destruct (id_is_zero i) eqn:Ei; [injection H as <-; by apply answers_refl|]. apply String.eqb_neq in Ei.
  apply bind_run in H as (policies & w1 & Hp & H). apply lift_run in Hp as [-> Hp].
  apply bind_run in H as (rs & w1 & [-> ->]%OfItem_run & H). destruct (_ && _); [injection H as <-; by apply answers_refl|].
  destruct (String.eqb_spec (ev_type e) ItemPurged) as [E|_].
  { eapply (stopAll_gone gone i); [|exact Hw|exact H]. unfold i in *. rewrite E in *. destruct (Hpurged eq_refl); [done|done]. }
  apply bind_run in H as (o & w1 & Hf & H). apply found_run in Hf. destruct o as [item|].
  - apply lift_run in Hf as [-> Hf]. destruct (rk_found gone r Hr _ _ Hf) as [Hid Hi].
    exact (on_item_run gone r e i item policies w w' Hi Hid (rk_policies gone r Hr _ Hp) Hw H).
  - destruct Hf as (er & He & Hf). injection Hf as <- Hf. exact (stopAll_gone gone i _ w w' (rk_gone gone r Hr _ _ Hf He) Hw H).
Qed.

(** ** A timer that fires *)

Lemma cut_suffix_app suffix s base : cut_suffix suffix s = Some base -> s = base +:+ suffix.
Proof.
  revert base. induction s as [|c s IH]; intros base; cbn [cut_suffix].
  - destruct (String.eqb "" suffix) eqn:E; [|done]. intros [= <-]. by apply String.eqb_eq in E as <-.
  - destruct (String.eqb (String c s) suffix) eqn:E; [intros [= <-]; by apply String.eqb_eq in E as <-|].
    destruct (cut_suffix suffix s) as [b|] eqn:Eb; [|done]. intros [= <-]. cbn. by rewrite (IH b eq_refl).
Qed.

Lemma GoalOfTimer_some name k warn : GoalOfTimer name = Some (k, warn) ->
  k ∈ goalKinds /\ name = if warn then WarnTimerName k else TimerName k.
Proof.
  unfold GoalOfTimer. destruct (cut_suffix warnSuffix name) as [base|] eqn:Ec; destruct (List.find _ goalKinds) as [k'|] eqn:Ef; try done;
    apply find_some in Ef as [Hin E]; apply String.eqb_eq in E; intros [= <- <-]; (split; [by apply list_elem_of_In|]).
  - apply cut_suffix_app in Ec. unfold WarnTimerName. by rewrite E.
  - done.
Qed.

Lemma GoalOfTimer_goal k : k ∈ goalKinds -> GoalOfTimer (TimerName k) = Some (k, false) /\ GoalOfTimer (WarnTimerName k) = Some (k, true).
Proof. by intros [->|[->| ->]]%goalKinds_cases. Qed.

Lemma announce_run r i record warn kind t now w w' :
  (item <~ found (lift (rd_item r i));
   match item with
   | None => skip
   | Some item => id <~ NewID new_id; moment <~ lift (moment_of id warn t item record kind now); announce moment
   end) w = (w', Ok tt) ->
  dk_timers w' = dk_timers w /\ dk_records w' = dk_records w /\ dk_jobs w' = dk_jobs w.
Proof.
  intros H. apply bind_run in H as (o & w1 & Hf & H). apply found_run in Hf.
  assert (w1 = w) as -> by (destruct o; [by injection Hf|by destruct Hf as (e & _ & [= ->])]).
  destruct o as [item|]; [|by injection H as <-]. apply bind_run in H as (id & w1 & [= <- <-] & H).
  apply bind_run in H as (m & w2 & Hm & H). apply lift_run in Hm as [-> _]. by injection H as <-.
Qed.

Lemma last_of_goal rs k r : NoDup (es_goal <$> rs) -> r ∈ rs -> es_goal r = k ->
  last (List.filter (fun r => String.eqb (es_goal r) k) rs) = Some r.
Proof.
  intros Hnd Hr Hk. enough (List.filter (fun r => String.eqb (es_goal r) k) rs = [r]) as -> by done.
  induction rs as [|x rs IH]; [by apply elem_of_nil in Hr|]. cbn [fmap list_fmap] in Hnd. apply NoDup_cons in Hnd as [Hx Hnd]. cbn [List.filter].
  apply elem_of_cons in Hr as [->|Hr].
  - rewrite Hk, String.eqb_refl. f_equal. clear IH. induction rs as [|y rs IH]; [done|]. cbn [List.filter].
    destruct (String.eqb_spec (es_goal y) k) as [E|_]; [destruct Hx; rewrite Hk, <- E; by left|].
    apply NoDup_cons in Hnd as [_ Hnd]. apply IH; [|done]. intros Hin. apply Hx. by right.
  - destruct (String.eqb_spec (es_goal x) k) as [E|_]; [|by apply IH]. destruct Hx. rewrite E, <- Hk. by apply list_elem_of_fmap_2.
Qed.

Lemma last_none i k w : dk_records w !! (i, k) = None -> (forall k r, dk_records w !! (i, k) = Some r -> es_goal r = k) ->
  last (List.filter (fun r => String.eqb (es_goal r) k) (records_of w i)) = None.
Proof.
  intros Hn Hg. enough (List.filter (fun r => String.eqb (es_goal r) k) (records_of w i) = []) as -> by done.
  unfold records_of. generalize goalKinds. induction l as [|k' l IH]; [done|]. cbn [omap list_omap].
  destruct (dk_records w !! (i, k')) as [r|] eqn:E; [|exact IH]. cbn [List.filter].
  destruct (String.eqb_spec (es_goal r) k) as [Er|_]; [|exact IH]. rewrite (Hg _ _ E) in Er. subst. congruence.
Qed.

Lemma Fire_facts t now n : Fire t now = Ok n ->
  tm_state t = TimerRunning /\ tm_state n = TimerFired /\ key_of n = key_of t /\ tm_fired_at n = Some now.
Proof. unfold Fire. destruct (tm_state t); try done. destruct (tm_due_at t); [|done]. destruct (_ <? _); [done|]. by intros [= <-]. Qed.

Lemma delete_timer w key : timers_ok w -> timers_ok (with_timers w (delete key (dk_timers w))).
Proof. intros Hw key' t Ht. cbn in Ht. apply lookup_delete_Some in Ht as [_ Ht]. by apply Hw. Qed.

(** A timer that is no goal's goes. *)
Lemma delete_other gone w key : desk_ok gone w -> (forall j k, j ∉ gone -> k ∈ goalKinds -> key ∉ goal_keys j k) ->
  answers gone w (with_timers w (delete key (dk_timers w))).
Proof.
  intros Hw Hkey. split; [|intros j k; apply rtc_refl]. split; [by apply delete_timer, (do_timers gone)|apply (do_known gone w Hw)|].
  intros j k Hk Hj. pose proof (Hkey j k Hj Hk) as Hn. unfold goal_keys in Hn.
  eapply goal_ok_frame; [by apply (do_goals gone w Hw)|done|cbn; rewrite lookup_delete_ne; [done|set_solver]..].
Qed.

(** A goal whose warning's timer goes, its record the same but for the mark. *)
Lemma warned_piece i k w w' r r' : timers_ok w -> goal_ok i k w -> dk_records w !! (i, k) = Some r ->
  es_standing r' = es_standing r -> es_due_at r' = es_due_at r -> record_ok i k r' -> rtc (goal_move k) (Some r) (Some r') ->
  dk_timers w' = delete (wkey i k) (dk_timers w) -> dk_jobs w' = dk_jobs w -> dk_records w' = <[(i, k) := r']> (dk_records w) ->
  piece i k w w'.
Proof.
  intros Hw Hg Hr Hs Hd Hok Hm Et Ej Er. split.
  - eapply (timers_ok_same (with_timers w (delete (wkey i k) (dk_timers w)))); [by apply delete_timer|done|by rewrite Ej].
  - split; intros key Hkey; [rewrite Et, lookup_delete_ne; [done|unfold goal_keys in Hkey; set_solver]|].
    rewrite Er, lookup_insert_ne; [done|set_solver].
  - unfold goal_ok in Hg |- *. rewrite Hr in Hg. rewrite Er, lookup_insert_eq, Et, lookup_delete_eq.
    rewrite lookup_delete_ne by (intros E; by apply (gkey_wkey i k)). destruct Hg as (_ & Hl & _). split; [done|]. split; [|done].
    rewrite Hs, Hd. destruct (dk_timers w !! gkey i k); [done|]. unfold live in *. by rewrite Hs.
  - by rewrite Hr, Er, lookup_insert_eq.
Qed.

Lemma at_risk_ok i k r now : record_ok i k r -> record_ok i k (at_risk r now).
Proof. intros [H1 H2 H3 H4 H5]. by split. Qed.

Lemma fire_run gone r others t now w w' b : desk_ok gone w -> dk_timers w !! key_of t = Some t -> tm_purpose t = PurposeSLA ->
  fire (handlers new_id r others) t now w = (w', Ok b) ->
  answers gone w w' /\
  (tm_subject_id t ∉ gone -> forall k, k ∈ goalKinds -> tm_name t = TimerName k ->
     exists rec, dk_records w' !! (tm_subject_id t, k) = Some rec /\ es_standing rec = StandingBreached /\ es_breached_at rec = Some now).
Proof.
  intros Hw Ht Hp H. unfold fire in H. apply bind_run in H as (n & w1 & Hf & H). apply lift_run in Hf as [-> Hf].
  apply Fire_facts in Hf as (Hrun & Hst & Hk & Hfired). apply bind_run in H as ([] & w1 & Hu & H). apply UpdateTimer_spec in Hu as [_ ->].
  assert (Hdead : timer_live n = false) by (unfold timer_live; by rewrite Hst). rewrite Hdead, Hk in H.
  set (i := tm_subject_id t) in *. set (w1 := with_timers w (delete (key_of t) (dk_timers w))) in *. set (n' := timer_versioned n _) in *.
  assert (Hn' : tm_purpose n' = PurposeSLA /\ tm_subject_id n' = i /\ tm_name n' = tm_name t).
  { unfold key_of in Hk. injection Hk as E1 E2 E3. cbn. unfold i. by rewrite E1, E2, E3. }
  destruct Hn' as (Ep & Es & En). unfold handlers in H. rewrite Ep, String.eqb_refl in H. apply bind_run in H as ([] & w2 & H & [= <- _]).
  unfold Elapsed in H. rewrite En, Es in H. change (tm_fired_at n') with (tm_fired_at n) in H. rewrite Hfired in H.
  assert (Hkey : key_of t = (PurposeSLA, (i, tm_name t))) by (unfold key_of; by rewrite Hp).
  destruct (GoalOfTimer (tm_name t)) as [[k warn]|] eqn:Eg.
  2:{ injection H as <-. split.
      - apply (delete_other gone w); [done|]. intros j k Hj Hk' Hin. rewrite Hkey in Hin. destruct (GoalOfTimer_goal k Hk') as [E1 E2].
        unfold goal_keys, gkey, wkey in Hin. apply elem_of_cons in Hin as [[= _ E]|[[= _ E]|[]%elem_of_nil]%elem_of_cons];
          rewrite E in Eg; congruence.
      - intros _ k Hk' E. rewrite E in Eg. destruct (GoalOfTimer_goal k Hk'). congruence. }
  destruct (GoalOfTimer_some _ _ _ Eg) as [Hkind Ename]. apply bind_run in H as (rs & v & [-> ->]%OfItem_run & H).
  assert (Hrs : records_of w1 i = records_of w i) by done. rewrite Hrs in H. clear Hrs.
  assert (Hgoals : forall k r, dk_records w !! (i, k) = Some r -> es_goal r = k).
  { intros k' r' Hr'. by apply (desk_goals gone w i k' r' Hw) in Hr' as [_ ? _ _ _]. }
  assert (Hsame : forall k', k' ∈ goalKinds -> tm_name t = TimerName k' -> warn = false /\ k' = k).
  { intros k' Hk' E. destruct (GoalOfTimer_goal k' Hk') as [E1 _]. rewrite E in Eg. rewrite Eg in E1. by injection E1 as -> ->. }
  destruct (decide (i ∈ gone)) as [Hgone|Hi].
  { rewrite last_none in H; [|destruct (dk_records w !! (i, k)) eqn:E; [by destruct (do_known gone w Hw _ _ _ E)|done]|exact Hgoals].
    injection H as <-. split; [|done]. apply (delete_other gone w); [done|]. intros j k' Hj Hk'.
    apply (keys_apart i k j k'); [done|done|intros [= -> ->]; done|]. rewrite Hkey, Ename. unfold goal_keys, gkey, wkey. destruct warn; set_solver. }
  pose proof (do_goals gone w Hw i k Hkind Hi) as Hg. pose proof Hg as Hg'. unfold goal_ok in Hg'. rewrite Hkey, Ename in Ht.
  destruct (dk_records w !! (i, k)) as [rec|] eqn:Er; [|destruct Hg' as [E1 E2]; unfold gkey, wkey in *; by destruct warn; congruence].
  destruct Hg' as (Hro & Hin & _). destruct (snapshot gone w i Hw) as (_ & Hnd & Hall).
  rewrite (last_of_goal _ k rec Hnd (Hall k rec Er) (ro_goal _ _ _ Hro)) in H.
  assert (Hid : id_is_zero (es_id rec) = false) by (apply String.eqb_neq, (ro_id _ _ _ Hro)). rewrite Hid in H. cbn [orb] in H.
  destruct warn.
  - assert (Hw1t : dk_timers w1 = delete (wkey i k) (dk_timers w)) by (unfold w1; by rewrite Hkey, Ename).
    assert (Hkeep : piece i k w w1).
    { eapply (warned_piece i k w w1 rec rec); try done; [exact (do_timers gone w Hw)|]. symmetry. by apply insert_id. }
    split; [|intros _ k' Hk' E; by destruct (Hsame k' Hk' E)].
    destruct (live rec) eqn:El; cbn [negb] in H; [|injection H as <-; by apply (piece_desk gone i k)].
    destruct (es_at_risk_at rec); cbn [andb] in H; [injection H as <-; by apply (piece_desk gone i k)|].
    apply bind_run in H as ([] & w3 & [= <-] & H). apply announce_run in H as (E1 & E2 & E3).
    apply (piece_desk gone i k); [done..|]. eapply (warned_piece i k w w2 rec (at_risk rec now)); try done.
    + exact (do_timers gone w Hw).
    + by apply at_risk_ok.
    + apply rtc_once. by apply move_live.
    + by rewrite E1, <- Hw1t.
    + rewrite E2. cbn. by rewrite (ro_item _ _ _ Hro), (ro_goal _ _ _ Hro).
  - assert (Hgk : dk_timers w !! gkey i k = Some t) by done. rewrite Hgk in Hin. destruct Hin as [Hstand _].
    assert (El : live rec = true) by (unfold live; rewrite Hstand; unfold StandingOf; by rewrite Hrun). rewrite El in H. cbn [negb andb] in H.
    apply bind_run in H as ([] & w3 & [= <-] & H). apply announce_run in H as (E1 & E2 & E3).
    assert (Hpc : piece i k w (SaveRecord (Follow rec n' now) w1).1).
    { apply (save_followed i k w w1 rec n' now); try done.
      - by apply delete_timer, (do_timers gone).
      - split; [|done]. intros key Hne. unfold w1. cbn. rewrite Hkey, Ename, lookup_delete_ne; [done|]. unfold goal_keys, gkey in Hne. set_solver.
      - change (timer_live n') with (timer_live n). rewrite Hdead. unfold w1. cbn. rewrite Hkey, Ename. apply lookup_delete_eq.
      - cbn. congruence.
      - rewrite Er. destruct (Follow_live rec n' now El) as (_ & _ & ? & ?). apply rtc_once. by apply move_live. }
    destruct (piece_desk gone i k w _ Hkind Hi Hw Hpc) as [Hw3 Hm3]. split.
    + split; [apply (desk_same gone _ w2 Hw3 E1 E2); by rewrite E3|]. intros j k'. rewrite E2. apply Hm3.
    + intros _ k' Hk' E. destruct (Hsame k' Hk' E) as [_ ->]. destruct (Follow_ok i k rec n' now Hro El) as [Hi' Hk'' _ _ _].
      exists (Follow rec n' now). rewrite E2. cbn. rewrite Hi', Hk'', lookup_insert_eq. split; [done|].
      apply live_states in El as [_ Hne]. unfold Follow. rewrite bool_decide_eq_false_2 by done. cbn. unfold StandingOf.
      change (tm_state n') with (tm_state n). rewrite Hst, Hfired. done.
Qed.
End Runs.

(** ** Runs of a workspace *)

Section Reach.
Context (new_id : nat -> ID) (zones : string -> option Location).

(** The rest of the program: it touches no timer of a service level and no
    record, and keeps the store of timers as it must be. *)
Definition others_work (w w' : Desk) : Prop :=
  timers_ok w' /\ dk_records w' = dk_records w /\ forall key, key.1 = PurposeSLA -> dk_timers w' !! key = dk_timers w !! key.

Definition without_entry (i : ID) (w : Desk) : Desk := with_records w (filter (fun kv => kv.1.1 <> i) (dk_records w)).

(** One transaction that committed: an event delivered, a timer of a service
    level fired, an entry purged - its records go with it -, or something else.
    One that is refused leaves everything as it was. *)
Inductive desk_step (gone : gset ID) (w : Desk) : gset ID -> Desk -> Prop :=
  | step_delivered r e w' : reads_ok gone r -> Wants (ev_type e) = true ->
      (ev_type e = ItemPurged -> ItemOf e = "" \/ ItemOf e ∈ gone) ->
      Deliver new_id zones r e w = (w', Ok tt) -> desk_step gone w gone w'
  | step_fired r others t now w' b : dk_timers w !! key_of t = Some t -> tm_purpose t = PurposeSLA ->
      fire (handlers new_id r others) t now w = (w', Ok b) -> desk_step gone w gone w'
  | step_purged i : desk_step gone w ({[i]} ∪ gone) (without_entry i w)
  | step_other w' : others_work w w' -> desk_step gone w gone w'.

Inductive reached : gset ID -> Desk -> Prop :=
  | reached_start : reached ∅ (mkDesk ∅ ∅ [] [] 0)
  | reached_step gone w gone' w' : reached gone w -> desk_step gone w gone' w' -> reached gone' w'.

Lemma without_entry_lookup i w j k : dk_records (without_entry i w) !! (j, k) = if decide (j = i) then None else dk_records w !! (j, k).
Proof.
  unfold without_entry. cbn. destruct (decide (j = i)) as [->|Hne].
  - apply map_lookup_filter_None. right. intros x _ H. by apply H.
  - destruct (dk_records w !! (j, k)) as [r|] eqn:E; [by apply map_lookup_filter_Some|]. apply map_lookup_filter_None. by left.
Qed.

Lemma purged_ok gone w i : desk_ok gone w -> desk_ok ({[i]} ∪ gone) (without_entry i w).
Proof.
  intros [Ht Hk Hg]. split; [by apply (timers_ok_same w)| |].
  - intros j k r. rewrite without_entry_lookup. destruct (decide (j = i)); [done|]. intros Hr. destruct (Hk j k r Hr). set_solver.
  - intros j k Hkind Hj. apply (goal_ok_frame j k w); [apply Hg; set_solver| |done..].
    rewrite without_entry_lookup. destruct (decide (j = i)); [set_solver|done].
Qed.

Lemma step_answers gone w gone' w' : (forall n, new_id n <> "") -> desk_ok gone w -> desk_step gone w gone' w' ->
  desk_ok gone' w' /\ forall i k, i ∉ gone' -> rtc (goal_move k) (dk_records w !! (i, k)) (dk_records w' !! (i, k)).
Proof.
  intros Hnew Hw. intros [r e w1 Hr _ Hp H|r others t now w1 b Ht Hp H|i|w1 (Ht & Hr & Hs)].
  - destruct (Deliver_run new_id zones Hnew gone r e w w1 Hr Hp Hw H) as [H1 H2]. split; [done|]. intros i k _. apply H2.
  - destruct (fire_run new_id zones Hnew gone r others t now w w1 b Hw Ht Hp H) as [[H1 H2] _]. split; [done|]. intros i k _. apply H2.
  - split; [by apply purged_ok|]. intros j k Hj. rewrite without_entry_lookup. destruct (decide (j = i)); [set_solver|apply rtc_refl].
  - split; [split; [done| |]|].
    + intros i k rec. rewrite Hr. apply (do_known gone w Hw).
    + intros i k Hk Hi. apply (goal_ok_frame i k w); [by apply (do_goals gone w Hw)|by rewrite Hr|by apply Hs..].
    + intros i k _. rewrite Hr. apply rtc_refl.
Qed.

Lemma start_ok : desk_ok ∅ (mkDesk ∅ ∅ [] [] 0).
Proof. split; [by intros key t|by intros i k r|]. intros i k _ _. by split. Qed.

Lemma reached_ok gone w : (forall n, new_id n <> "") -> reached gone w -> desk_ok gone w.
Proof. intros Hnew. induction 1 as [|gone w gone' w' _ IH H]; [apply start_ok|]. by destruct (step_answers gone w gone' w' Hnew IH H). Qed.
End Reach.

Lemma moves_kept k o o' : rtc (goal_move k) o o' -> forall r, o = Some r ->
  exists r', o' = Some r' /\ es_id r' = es_id r /\ (es_standing r = StandingBreached -> r' = r) /\
    (es_standing r = StandingMet -> k <> GoalNextResponse -> r' = r).
Proof.
  induction 1 as [o|o o1 o' H _ IH]; intros r Er; [by exists r|]. subst o. inversion H as [|? r1 Hl Hid _|? r1 Hk Hm _ Hid]; subst.
  - destruct (IH r1 eq_refl) as (r' & -> & Hid' & _). exists r'. split; [done|]. split; [congruence|].
    apply live_states in Hl as [? ?]. by split.
  - destruct (IH r1 eq_refl) as (r' & -> & Hid' & _). exists r'. split; [done|]. split; [congruence|]. split; [congruence|done].
Qed.

(** A delivery about an entry that is there is [on_item]. *)
Lemma delivered_item new_id zones r e item policies w w' rec :
  ev_type e ∈ [ItemCompleted; ItemTrashed; ItemUpdated] -> ItemOf e <> "" -> rd_policies r = Ok policies ->
  rd_item r (ItemOf e) = Ok item -> rec ∈ records_of w (ItemOf e) -> Deliver new_id zones r e w = (w', Ok tt) ->
  on_item new_id zones r e (ItemOf e) item policies (records_of w (ItemOf e)) w = (w', Ok tt).
Proof.
  intros He Hi Hp Hit Hrec H. unfold Deliver in H. assert (E1 : String.eqb (ev_type e) CommentCreated = false) by (apply String.eqb_neq; intros E; rewrite E in He; set_solver by done).
  assert (E2 : String.eqb (ev_type e) ItemPurged = false) by (apply String.eqb_neq; intros E; rewrite E in He; set_solver by done).
  apply String.eqb_neq in Hi. unfold id_is_zero in H. rewrite E1, Hi in H.
  apply bind_run in H as (ps & w1 & H1 & H). apply lift_run in H1 as [-> H1]. rewrite Hp in H1. injection H1 as <-.
  apply bind_run in H as (rs & w1 & [-> ->]%OfItem_run & H). rewrite E2 in H.
  assert (Hsome : Nat.eqb (List.length (records_of w (ItemOf e))) 0 = false) by (destruct (records_of w (ItemOf e)); [by apply elem_of_nil in Hrec|done]).
  rewrite Hsome, andb_false_r in H. apply bind_run in H as (o & w1 & Hf & H). apply found_run in Hf.
  destruct o as [x|]; [|destruct Hf as (er & _ & Hf); injection Hf as _ Hf; congruence].
  apply lift_run in Hf as [-> Hf]. rewrite Hit in Hf. by injection Hf as <-.
Qed.

(** ** Properties *)



(** What the events mean.  A completion meets every goal of the entry that
    was still open, at the event's own moment, and leaves the others as they
    are.  A change of the entry - its type and its custom fields apart - stands
    every open goal's clock still exactly if the goal pauses in the status the
    entry is in now; a trashed entry's clocks stand still all.  And a goal whose
    timer runs out is broken at that moment. *)
Theorem events_settle_goals (new_id : nat -> ID) (zones : string -> option Location) (gone : gset ID) (w : Desk)
    (Hnew : forall n, new_id n <> "") (H : reached new_id zones gone w) :
  (forall r e item policies w', reads_ok gone r -> ev_type e ∈ [ItemCompleted; ItemTrashed; ItemUpdated] -> ItemOf e <> "" ->
     rd_policies r = Ok policies -> rd_item r (ItemOf e) = Ok item -> Deliver new_id zones r e w = (w', Ok tt) ->
     forall k rec, dk_records w !! (ItemOf e, k) = Some rec -> exists rec', dk_records w' !! (ItemOf e, k) = Some rec' /\
       (ev_type e = ItemCompleted ->
          if live rec then es_standing rec' = StandingMet /\ es_met_at rec' = Some (ev_occurred_at e) else rec' = rec) /\
       (ev_type e = ItemTrashed -> live rec = true -> es_standing rec' = StandingPaused) /\
       (ev_type e = ItemUpdated -> changed e "entry_type" = false -> changed e FieldCustomFields = false -> live rec = true ->
          forall goal, measured_by policies rec = Some goal ->
            es_standing rec' = if Pauses goal (si_status item) then StandingPaused else StandingRunning)) /\
  (forall r others t now w' b k, dk_timers w !! key_of t = Some t -> tm_purpose t = PurposeSLA -> tm_subject_id t ∉ gone ->
     k ∈ goalKinds -> tm_name t = TimerName k -> fire (handlers new_id r others) t now w = (w', Ok b) ->
     exists rec, dk_records w' !! (tm_subject_id t, k) = Some rec /\ es_standing rec = StandingBreached /\ es_breached_at rec = Some now).
Proof.
  apply (reached_ok new_id zones gone w Hnew) in H as Hw. split.
  - intros r e item policies w' Hr He Hi0 Hp Hit Hd k rec Hrec. destruct (rk_found gone r Hr _ _ Hit) as [Hid Hi].
    assert (Hpurged : ev_type e = ItemPurged -> ItemOf e = "" \/ ItemOf e ∈ gone) by (intros E; rewrite E in He; set_solver by done).
    destruct (Deliver_run new_id zones Hnew gone r e w w' Hr Hpurged Hw Hd) as [_ Hm].
    destruct (moves_kept k _ _ (Hm (ItemOf e) k) rec Hrec) as (rec' & Hrec' & _). exists rec'. split; [done|].
    destruct (snapshot gone w (ItemOf e) Hw) as (_ & _ & Hin). specialize (Hin k rec Hrec).
    apply (delivered_item new_id zones r e item policies w w' rec) in Hd; [|done..].
    unfold on_item in Hd. split; [|split]; [intros E|intros E|intros E Et Ec]; rewrite E in Hd; cbn in Hd.
    + destruct (stopAll_met gone _ _ w w' Hi Hw Hd) as [_ Hx]. destruct (Hx k rec Hrec) as (x & Hx' & Hl). by simplify_eq.
    + intros Hl. destruct (pauseAll_run gone _ _ w w' Hi Hw Hd) as [_ Hx]. destruct (Hx k rec Hrec Hl) as (x & Hx' & Hs). by simplify_eq.
    + intros Hl goal Hg. rewrite Et, Ec in Hd. apply bind_run in Hd as (? & ? & [= <- <-] & Hd). apply bind_run in Hd as (? & ? & [= <- <-] & Hd).
      rewrite <- Hid in *. destruct (follow_run gone item policies _ w w' Hi Hw Hd) as [_ Hx].
      destruct (Hx k rec goal Hrec Hl Hg) as (x & Hx' & Hs). by simplify_eq.
  - intros r others t now w' b k Ht Hp Hg Hk Hn Hf. destruct (fire_run new_id zones Hnew gone r others t now w w' b Hw Ht Hp Hf) as [_ Hb]. by eapply Hb.
Qed.

(** ** Witnesses *)

Definition minted (n : nat) : ID := "id-" +:+ pretty n.
Lemma minted_set n : minted n <> "".
Proof. done. Qed.

Definition clock_policy : SLAPolicy :=
  mkPolicy "p-1" "t" "incidents" "Incidents" "" ["incident"] [] "priority" ""
    [mkGoal GoalFirstResponse 30 ∅ [] 0; mkGoal GoalNextResponse 60 ∅ [] 0;
     mkGoal GoalResolution 480 {[ "urgent" := 60 ]} ["waiting"] 75] 1 true 7 7 1 "" "".
Definition clock_item (status priority : string) (i : ID) : SlaItem :=
  mkSlaItem i "t" "c" "incident" status {[ "priority" := CustomText priority ]} false None "ann".
Definition clock_reads (status priority : string) : Reads :=
  mkReads (Ok [clock_policy]) (fun i => Ok (clock_item status priority i)) (fun _ => Err ErrNotFound) None None None None None.
Definition clock_event (kind : string) (minute : Z) (author : ID) (fields : list string) : Envelope :=
  mkEnvelope kind "item/item-1" (minute * Minute) "item-1" author false false fields.

Lemma clock_reads_ok status priority : reads_ok ∅ (clock_reads status priority).
Proof.
  split; cbn.
  - intros i item [= <-]. by split.
  - done.
  - intros policies [= <-] p g Hp%list_elem_of_singleton Hg. subst p. cbn in Hg. unfold goalKinds.
    rewrite !elem_of_cons, elem_of_nil in Hg. destruct Hg as [->|[->|[->|[]]]]; set_solver.
Qed.

Definition delivered (status priority kind : string) (minute : Z) (author : ID) (fields : list string) (w : Desk) : Desk :=
  (Deliver minted utc_only (clock_reads status priority) (clock_event kind minute author fields) w).1.

(** Raised, put to waiting for ten minutes to a hundred, answered, asked again,
    made urgent, done. *)
Definition desk0 : Desk := mkDesk ∅ ∅ [] [] 0.
Definition desk1 : Desk := Eval vm_compute in delivered "open" "low" ItemCreated 0 "ann" [] desk0.
Definition desk2 : Desk := Eval vm_compute in delivered "waiting" "low" ItemUpdated 10 "bob" ["status"] desk1.
Definition desk3 : Desk := Eval vm_compute in delivered "open" "low" ItemUpdated 100 "bob" ["status"] desk2.
Definition desk4 : Desk := Eval vm_compute in delivered "open" "low" CommentCreated 110 "bob" [] desk3.

Lemma delivered_step status priority kind minute author fields w w' :
  Wants kind = true -> kind <> ItemPurged ->
  Deliver minted utc_only (clock_reads status priority) (clock_event kind minute author fields) w = (w', Ok tt) ->
  desk_step minted utc_only ∅ w ∅ w'.
Proof.
  intros Hw Hp H. apply (step_delivered minted utc_only ∅ w (clock_reads status priority) (clock_event kind minute author fields));
    [apply clock_reads_ok|done| |done]. cbn. done.
Qed.

Lemma desk1_reached : reached minted utc_only ∅ desk1.
Proof.
  eapply reached_step; [apply reached_start|]. apply (delivered_step "open" "low" ItemCreated 0 "ann" []); [done|done|]. vm_compute. reflexivity.
Qed.
Lemma desk2_reached : reached minted utc_only ∅ desk2.
Proof.
  eapply reached_step; [apply desk1_reached|]. apply (delivered_step "waiting" "low" ItemUpdated 10 "bob" ["status"]); [done|done|]. vm_compute. reflexivity.
Qed.
Lemma desk3_reached : reached minted utc_only ∅ desk3.
Proof.
  eapply reached_step; [apply desk2_reached|]. apply (delivered_step "open" "low" ItemUpdated 100 "bob" ["status"]); [done|done|]. vm_compute. reflexivity.
Qed.
Lemma desk4_step : desk_step minted utc_only ∅ desk3 ∅ desk4.
Proof. apply (delivered_step "open" "low" CommentCreated 110 "bob" []); [done|done|]. vm_compute. reflexivity. Qed.
Lemma desk4_reached : reached minted utc_only ∅ desk4.
Proof. eapply reached_step; [apply desk3_reached|apply desk4_step]. Qed.

(** The record of an entry's goal, where it has one. *)
Definition standing_at (w : Desk) (k : string) : option (Standing * Z) :=
  (fun r => (es_standing r, es_consumed r `div` Minute)) <$> dk_records w !! ("item-1", k).



Definition desk_done : Desk := Eval vm_compute in delivered "open" "low" ItemCompleted 126 "bob" [] desk4.
Lemma done_delivered : Deliver minted utc_only (clock_reads "open" "low") (clock_event ItemCompleted 126 "bob" []) desk4 = (desk_done, Ok tt).
Proof. vm_compute. reflexivity. Qed.
Definition open_resolution : EntrySLA := Eval vm_compute in default (new_record "" (clock_item "" "" "") "" clock_policy 0 0) (dk_records desk4 !! ("item-1", GoalResolution)).
Lemma resolution_open : dk_records desk4 !! ("item-1", GoalResolution) = Some open_resolution /\ live open_resolution = true.
Proof. vm_compute. split; reflexivity. Qed.

Lemma events_settle_goals_witness :
  exists rec, dk_records desk_done !! ("item-1", GoalResolution) = Some rec /\ es_standing rec = StandingMet /\ es_met_at rec = Some (126 * Minute).
Proof.
  destruct (events_settle_goals minted utc_only ∅ desk4 minted_set desk4_reached) as [H _].
  destruct (H (clock_reads "open" "low") (clock_event ItemCompleted 126 "bob" []) (clock_item "open" "low" "item-1") [clock_policy] desk_done
              (clock_reads_ok "open" "low") (list_elem_of_here _ _) ltac:(discriminate) eq_refl eq_refl done_delivered GoalResolution open_resolution
              (proj1 resolution_open)) as (rec & Hrec & Hdone & _).
  exists rec. split; [exact Hrec|]. pose proof (Hdone eq_refl) as Hd. rewrite (proj2 resolution_open) in Hd. exact Hd.
Defined.

(** The waiting is not counted, the answer meets the first response, the next
    question is owed an answer, and the urgency moves the target only. *)
Example desk_told :
  standing_at desk3 GoalResolution = Some (StandingRunning, 10) /\ standing_at desk4 GoalFirstResponse = Some (StandingMet, 30) /\
  (let desk5 := delivered "open" "low" CommentCreated 120 "ann" [] desk4 in
   standing_at desk5 GoalNextResponse = Some (StandingRunning, 0) /\
   let desk6 := delivered "open" "urgent" ItemUpdated 125 "bob" ["custom_fields"] desk5 in
   standing_at desk6 GoalResolution = Some (StandingRunning, 35) /\
   let desk7 := delivered "open" "urgent" ItemCompleted 126 "bob" [] desk6 in
   standing_at desk7 GoalResolution = Some (StandingMet, 36) /\ dk_timers desk7 = ∅).
Proof. vm_compute. repeat split; reflexivity. Qed.

(** A goal whose timer is not there - after a restore, which brings records but
    no timers - ends [retarget] for the goals after it: the early return where
    its siblings go on to the next record. *)
Definition restored : Desk := with_timers desk3 (delete (gkey "item-1" GoalFirstResponse) (dk_timers desk3)).
Definition two_priorities : SLAPolicy :=
  mkPolicy "p-1" "t" "incidents" "Incidents" "" ["incident"] [] "priority" ""
    [mkGoal GoalFirstResponse 30 {[ "urgent" := 10 ]} [] 0; mkGoal GoalResolution 480 {[ "urgent" := 60 ]} ["waiting"] 75] 1 true 7 7 1 "" "".
Example retarget_stops_early :
  let item := clock_item "open" "urgent" "item-1" in
  let run w := (retarget minted utc_only (clock_reads "open" "urgent") item [two_priorities] (101 * Minute) (records_of w "item-1") w).1 in
  (fun r => es_target r) <$> dk_records (run desk3) !! ("item-1", GoalResolution) = Some (60 * Minute) /\
  (fun r => es_target r) <$> dk_records (run restored) !! ("item-1", GoalResolution) = Some (480 * Minute).
Proof. vm_compute. split; reflexivity. Qed.
