(* ===== verification/Backup.v ===== *)
(** * Backups: schedules, retention, expiry

    Models core/domain/model/backup/Schedule.go (the schedule and its checks)
    and Expiry.go (which archives a generation plan keeps), and of
    core/application/service/backup/Perform.go the pass that deletes the
    others.  A plan's walk over a Go map is a walk in an order the caller of
    the model picks, and what is proved holds for every order. *)

From Stdlib Require Import ZArith Lia String Ascii List Bool Sorting.Sorted.
From stdpp Require Import base option list strings gmap.
From stdpp Require sorting.
From S2P Require Import Prelude Shared Hlc Text Civil Calendar.

Open Scope string_scope.
Open Scope list_scope.
Open Scope Z_scope.

(** ** Schedule.go *)

Definition ScopeInstance : string := "INSTANCE".
Definition BackupScopeTenant : string := "TENANT".
Definition BackupScopeHub : string := "HUB".
Definition BackupScopeCollection : string := "COLLECTION".
Definition scheduleScopes : list string := [ScopeInstance; BackupScopeTenant; BackupScopeHub; BackupScopeCollection].
Definition ScheduleScopeValid (s : string) : bool := contains scheduleScopes s.

Definition ModeFull : string := "FULL".
Definition ModeIncremental : string := "INCREMENTAL".
Definition ModeValid (m : string) : bool := String.eqb m ModeFull || String.eqb m ModeIncremental.

Definition NotifyFailure : string := "FAILURE".
Definition NotifySuccess : string := "SUCCESS".
Definition NotifyFirstSuccessAfterFailure : string := "FIRST_SUCCESS_AFTER_FAILURE".
Definition notifications : list string := [NotifyFailure; NotifySuccess; NotifyFirstSuccessAfterFailure].
Definition NotificationValid (n : string) : bool := contains notifications n.

Record Retention := mkRetention {
  KeepLast : Z; KeepDaily : Z; KeepWeekly : Z; KeepMonthly : Z; KeepYearly : Z; MinKeep : Z
}.

Definition DefaultRetention : Retention := mkRetention 7 14 8 12 3 3.

(** A field error without parameters ([field] of Target.go). *)
Definition field (path code : string) : FieldError := mkFieldError path code [].

Definition CodeScheduleInvalid : string := "backup.schedule_invalid".
Definition CodeRetentionNegative : string := "backup.retention_negative".
Definition CodeRetentionFloorRequired : string := "backup.retention_floor_required".

(** The map literal of [problems]; its order is the map's. *)
Definition retention_counts (r : Retention) : list (string * Z) :=
  [("/retention/keep_last", KeepLast r); ("/retention/keep_daily", KeepDaily r); ("/retention/keep_weekly", KeepWeekly r);
   ("/retention/keep_monthly", KeepMonthly r); ("/retention/keep_yearly", KeepYearly r)].

Definition by_path : FieldError -> FieldError -> comparison := cmp_on fe_path String.compare.

(** [counts] is the map in the order it is walked in. *)
Definition problems_in (counts : list (string * Z)) (r : Retention) : list FieldError :=
  let negative := (fun pv => field pv.1 CodeRetentionNegative) <$> List.filter (fun pv => pv.2 <? 0) counts in
  sort_by by_path (negative ++ if MinKeep r <? 1 then [field "/retention/min_keep" CodeRetentionFloorRequired] else []).
Definition problems (r : Retention) : list FieldError := problems_in (retention_counts r) r.

Record Schedule := mkSchedule {
  sd_id : ID; sd_target_id : ID; sd_tenant_id : ID; sd_scope : string; sd_scope_id : ID;
  sd_rrule : string; sd_time_zone : string; sd_mode : string; sd_full_rrule : string;
  sd_include_media : bool; sd_include_audit : bool; sd_trial_restore : bool;
  sd_retention : Retention; sd_notify_on : list string; sd_enabled : bool;
  sd_next_run_at : Time; sd_created_at : Time; sd_version : Z
}.

Record NewScheduleInput := mkScheduleInput {
  si_id : ID; si_target_id : ID; si_tenant_id : ID; si_scope : string; si_scope_id : ID;
  si_rrule : string; si_time_zone : string; si_mode : string; si_full_rrule : string;
  si_include_media : bool; si_include_audit : bool; si_trial_restore : bool;
  si_retention : Retention; si_notify_on : list string; si_now : Time
}.

(** [add] under its condition. *)
Definition add_when (c : bool) (path code : string) : list FieldError := if c then [field path code] else [].

Definition default_mode (m : string) : string := if String.eqb m "" then ModeIncremental else m.

Definition schedule_problems (in_ : NewScheduleInput) : list FieldError :=
  add_when (id_is_zero (si_target_id in_)) "/target_id" "backup.schedule_target_required" ++
  add_when (negb (ScheduleScopeValid (si_scope in_))) "/scope/kind" "backup.schedule_scope_invalid" ++
  add_when (String.eqb (si_scope in_) ScopeInstance && negb (id_is_zero (si_tenant_id in_)))
    "/scope/kind" "backup.schedule_instance_has_no_tenant" ++
  add_when (negb (String.eqb (si_scope in_) ScopeInstance) && id_is_zero (si_tenant_id in_))
    "/scope/kind" "backup.schedule_tenant_required" ++
  add_when ((String.eqb (si_scope in_) BackupScopeHub || String.eqb (si_scope in_) BackupScopeCollection) &&
            id_is_zero (si_scope_id in_)) "/scope/id" "backup.schedule_scope_id_required" ++
  add_when (String.eqb (TrimSpace (si_rrule in_)) "") "/rrule" "backup.schedule_rule_required" ++
  add_when (String.eqb (TrimSpace (si_time_zone in_)) "") "/timezone" "backup.schedule_time_zone_required" ++
  add_when (negb (ModeValid (default_mode (si_mode in_)))) "/mode" "backup.schedule_mode_invalid" ++
  List.concat ((fun occasion => add_when (negb (NotificationValid occasion)) "/notify_on" "backup.schedule_notification_invalid")
               <$> si_notify_on in_) ++
  problems (si_retention in_).

Definition NewSchedule (in_ : NewScheduleInput) : res Schedule :=
  match schedule_problems in_ with
  | [] =>
      let notify := match si_notify_on in_ with [] => [NotifyFailure] | given => given end in
      Ok (mkSchedule (si_id in_) (si_target_id in_) (si_tenant_id in_) (si_scope in_) (si_scope_id in_)
            (TrimSpace (si_rrule in_)) (TrimSpace (si_time_zone in_)) (default_mode (si_mode in_)) (TrimSpace (si_full_rrule in_))
            (si_include_media in_) (si_include_audit in_) (si_trial_restore in_)
            (si_retention in_) notify true zero_time (si_now in_) 1)
  | fields => Err (WithFields (WithDetail ErrValidation CodeScheduleInvalid) fields)
  end.

Definition Anchor (s : Schedule) : Time := sd_created_at s.

(** ** Texts of dates *)

(** [appendInt] of the time package: a sign, then at least [width] digits. *)
Definition append_int (width : nat) (z : Z) : string :=
  if z <? 0 then "-" +:+ pad0 width (- z) else pad0 width z.
(** [%0nd] of fmt: the sign counts for the width. *)
Definition fmt_0d (width : nat) (z : Z) : string :=
  if z <? 0 then "-" +:+ pad0 (width - 1) (- z) else pad0 width z.

Definition dayOf (l : Location) (t : Time) : string :=
  let '(y, m, d) := date_in l t in append_int 4 y +:+ "-" +:+ pad0 2 m +:+ "-" +:+ pad0 2 d.
Definition monthOf (l : Location) (t : Time) : string :=
  let '(y, m, _) := date_in l t in append_int 4 y +:+ "-" +:+ pad0 2 m.
Definition yearOf (l : Location) (t : Time) : string := append_int 4 (date_in l t).1.1.

(** [Time.ISOWeek]: the year of the week's Thursday, and its week of seven days. *)
Definition iso_week (l : Location) (t : Time) : Z * Z :=
  let day := local_second l t / day_seconds in
  let shift := if weekday day =? 0 then -3 else 4 - weekday day in
  let '(y, _, _) := civil_from_days (day + shift) in
  (y, (day + shift - days_from_civil y 1 1) / 7 + 1).
Definition weekOf (l : Location) (t : Time) : string :=
  let '(year, week) := iso_week l t in fmt_0d 4 year +:+ "-W" +:+ fmt_0d 2 week.

Example week_of_new_year : weekOf UTC (go_date UTC 2027 1 3 12 0 0 0) = "2026-W53".
Proof. vm_compute. reflexivity. Qed.
Example week_of_december : weekOf UTC (go_date UTC 2024 12 30 0 0 0 0) = "2025-W01".
Proof. vm_compute. reflexivity. Qed.

Definition IsFullOn (s : Schedule) (occurrence : Time) (fullDays : list Time) (zone : option Location) : bool :=
  if String.eqb (sd_mode s) ModeFull then true
  else match zone with
       | Some l => negb (String.eqb (sd_full_rrule s) "") &&
                   existsb (fun day => String.eqb (dayOf l day) (dayOf l occurrence)) fullDays
       | None => false
       end.

(** ** Expiry.go *)

Record Archive := mkArchive { ar_id : ID; ar_taken_at : Time; ar_mode : string; ar_parent_id : ID }.
#[export] Instance archive_eq_dec : EqDecision Archive.
Proof. solve_decision. Defined.

Record Expiry := mkExpiry {
  ex_keep : list Archive; ex_expire : list Archive; ex_floor_held : bool; ex_chain_held : list Archive
}.

(** The order of [Apply]: newest first, a tie by identity. *)
Definition archive_key (a : Archive) : Z * string := (ar_taken_at a, ar_id a).
Definition newest_first : Archive -> Archive -> comparison :=
  cmp_on archive_key (fun a b => cmp_pair Z.compare String.compare b a).

#[export] Instance archive_order : TotalCompare (fun a b => cmp_pair Z.compare String.compare b a).
Proof. apply cmp_flip_total. apply _. Qed.

(** The loop of [keepNewestPerBucket]. *)
Fixpoint newest_per_bucket (count : Z) (bucket : Time -> string) (seen : gset string) (kept : gset ID)
    (ordered : list Archive) : gset ID :=
  match ordered with
  | [] => kept
  | archive :: rest =>
      let key := bucket (ar_taken_at archive) in
      if bool_decide (key ∈ seen) then newest_per_bucket count bucket seen kept rest
      else if count <=? Z.of_nat (size seen) then kept
      else newest_per_bucket count bucket ({[ key ]} ∪ seen) ({[ ar_id archive ]} ∪ kept) rest
  end.
Definition keepNewestPerBucket (ordered : list Archive) (count : Z) (bucket : Time -> string) (kept : gset ID) : gset ID :=
  if count <=? 0 then kept else newest_per_bucket count bucket ∅ kept ordered.

(** The loop of the floor. *)
Fixpoint hold_floor (min_keep : Z) (kept : gset ID) (held : bool) (ordered : list Archive) : gset ID * bool :=
  match ordered with
  | [] => (kept, held)
  | archive :: rest =>
      if Z.of_nat (size kept) <? min_keep then
        if bool_decide (ar_id archive ∈ kept) then hold_floor min_keep kept held rest
        else hold_floor min_keep ({[ ar_id archive ]} ∪ kept) true rest
      else (kept, held)
  end.

(** The map from an archive to the one it continues; of two with one identity
    the later in the list stays. *)
Definition parents_of (ordered : list Archive) : gmap ID ID :=
  fold_left (fun parents archive => if id_is_zero (ar_parent_id archive) then parents
                                    else <[ ar_id archive := ar_parent_id archive ]> parents) ordered ∅.

(** One visit of [range kept], which inserts into the map it walks.  An
    identity the map does not hold is not visited. *)
Definition visit (parents : gmap ID ID) (state : gset ID * list ID) (id : ID) : gset ID * list ID :=
  let '(kept, held) := state in
  if bool_decide (id ∈ kept) then
    match parents !! id with
    | Some parent => if bool_decide (parent ∈ kept) then state else ({[ parent ]} ∪ kept, held ++ [parent])
    | None => state
    end
  else state.

(** The rounds; [order] is the walk of each round - the identities of the map
    in some order, and of those inserted during the walk whichever it meets. *)
Fixpoint ancestor_rounds (rounds : nat) (order : nat -> gset ID -> list ID) (parents : gmap ID ID)
    (kept : gset ID) (held : list ID) : gset ID * list ID :=
  match rounds with
  | O => (kept, held)
  | S rounds' =>
      let '(kept', held') := fold_left (visit parents) (order rounds kept) (kept, held) in
      if Nat.eqb (List.length held') (List.length held) then (kept', held')
      else ancestor_rounds rounds' order parents kept' held'
  end.

Definition keepAncestors (order : nat -> gset ID -> list ID) (ordered : list Archive) (kept : gset ID) : gset ID * list ID :=
  let '(kept, held) := ancestor_rounds (List.length ordered) order (parents_of ordered) kept [] in
  (kept, sort_by String.compare held).

(** What Go promises of [range] over a map: every identity it holds is met. *)
Class Walks (order : nat -> gset ID -> list ID) : Prop :=
  walks_all : forall round kept id, id ∈ kept -> id ∈ order round kept.

#[export] Instance walk_elements : Walks (fun _ kept => elements kept).
Proof. intros round kept id H. by apply elem_of_elements. Qed.

(** What the generations keep, before the floor. *)
Definition generations (r : Retention) (ordered : list Archive) (l : Location) : gset ID :=
  let kept := list_to_set (ar_id <$> firstn (Z.to_nat (KeepLast r)) ordered) in
  let kept := keepNewestPerBucket ordered (KeepDaily r) (dayOf l) kept in
  let kept := keepNewestPerBucket ordered (KeepWeekly r) (weekOf l) kept in
  let kept := keepNewestPerBucket ordered (KeepMonthly r) (monthOf l) kept in
  keepNewestPerBucket ordered (KeepYearly r) (yearOf l) kept.

Definition Apply (order : nat -> gset ID -> list ID) (r : Retention) (archives : list Archive) (zone : option Location) : Expiry :=
  let l := default UTC zone in
  let ordered := sort_by newest_first archives in
  let '(kept, floorHeld) := hold_floor (MinKeep r) (generations r ordered l) false ordered in
  let '(kept, chainHeld) := keepAncestors order ordered kept in
  let stays archive := bool_decide (ar_id archive ∈ kept) in
  mkExpiry (List.filter stays ordered) (rev (List.filter (fun archive => negb (stays archive)) ordered)) floorHeld
    (omap (fun id => List.find (fun archive => String.eqb (ar_id archive) id) ordered) chainHeld).

(** ** Perform.go: the pass that deletes *)

(** What the archive reader says of one archive at the target. *)
Record Description := mkDescription {
  dn_prefix : string; dn_complete : bool; dn_archive_id : string; dn_parent_id : string; dn_snapshot_at : Time; dn_mode : string
}.

Definition archive_prefix (scope : ID) : string := "hubtask-backup-" +:+ scope +:+ "-".

Definition modeBack (mode : string) : string := if String.eqb mode ModeFull then ModeFull else ModeIncremental.

(** The archive of a description, with its place; [None] where it is not the
    plan's to count. *)
Definition counted (scope : ID) (d : Description) : option (string * Archive) :=
  if negb (str_has_prefix (archive_prefix scope) (dn_prefix d)) then None
  else if negb (dn_complete d) then None
  else match ParseID (dn_archive_id d) with
       | Ok id =>
           let parent := match ParseID (dn_parent_id d) with Ok parent => parent | _ => "" end in
           Some (dn_prefix d, mkArchive id (dn_snapshot_at d) (modeBack (dn_mode d)) parent)
       | _ => None
       end.

(** [byPath] in the order [pathOf] walks it. *)
Definition pathOf (byPath : list (string * ID)) (id : ID) : string :=
  match List.find (fun place => String.eqb place.2 id) byPath with Some place => place.1 | None => "" end.

(** The pass over what expires: the archives deleted or touched, in order, and
    the error that stopped it.  [delete] and [mark] are the storage and the
    table of runs. *)
Fixpoint delete_expired (delete : string -> res unit) (mark : ID -> res unit) (byPath : list (string * ID))
    (going : list Archive) : list string * option Error :=
  match going with
  | [] => ([], None)
  | archive :: rest =>
      let prefix := pathOf byPath (ar_id archive) in
      if String.eqb prefix "" then delete_expired delete mark byPath rest
      else match (_ ← delete prefix; mark (ar_id archive)) with
           | Ok _ => let '(touched, failed) := delete_expired delete mark byPath rest in (prefix :: touched, failed)
           | Err e => ([prefix], Some e)
           | Panic => ([prefix], None)
           end
  end.

Definition Expire (delete : string -> res unit) (mark : ID -> res unit) (order : nat -> gset ID -> list ID)
    (plan : Retention) (scope : ID) (zone : option Location) (described : list Description) : Expiry * (list string * option Error) :=
  let found := omap (counted scope) described in
  let expiry := Apply order plan (found.*2) zone in
  (expiry, delete_expired delete mark ((fun place => (place.1, ar_id place.2)) <$> found) (ex_expire expiry)).

(** ** What a plan keeps

    The specification does not walk: an archive is judged by the archives that
    are newer than it. *)

Definition newer (archives : list Archive) (a : Archive) : list Archive :=
  List.filter (fun b => match newest_first b a with Lt => true | _ => false end) archives.

(** Of its period no archive is newer, and the newer ones fall in fewer than
    [count] periods. *)
Definition newest_of_recent (count : Z) (bucket : Time -> string) (archives : list Archive) (a : Archive) : bool :=
  let periods : gset string := list_to_set ((fun b => bucket (ar_taken_at b)) <$> newer archives a) in
  bool_decide (bucket (ar_taken_at a) ∉ periods) && (Z.of_nat (size periods) <? count).

Definition by_generation (r : Retention) (l : Location) (archives : list Archive) (a : Archive) : bool :=
  (Z.of_nat (List.length (newer archives a)) <? KeepLast r) ||
  newest_of_recent (KeepDaily r) (dayOf l) archives a ||
  newest_of_recent (KeepWeekly r) (weekOf l) archives a ||
  newest_of_recent (KeepMonthly r) (monthOf l) archives a ||
  newest_of_recent (KeepYearly r) (yearOf l) archives a.

(** The floor takes the newest ones that no generation keeps, as many as are
    missing. *)
Definition by_floor (r : Retention) (l : Location) (archives : list Archive) (a : Archive) : bool :=
  let generation := by_generation r l archives in
  negb (generation a) &&
  (Z.of_nat (List.length (List.filter generation archives)) +
   Z.of_nat (List.length (List.filter (fun b => negb (generation b)) (newer archives a))) <? MinKeep r).

(** And whatever is kept needs the archive it continues. *)
Inductive needed (r : Retention) (l : Location) (archives : list Archive) : Archive -> Prop :=
  | needed_kept a : a ∈ archives -> by_generation r l archives a || by_floor r l archives a = true -> needed r l archives a
  | needed_parent a b : needed r l archives b -> a ∈ archives -> ar_parent_id b = ar_id a -> ar_id a <> "" ->
      needed r l archives a.

(** *** The order *)

Lemma newer_perm xs ys a : xs ≡ₚ ys -> newer xs a ≡ₚ newer ys a.
Proof. apply filter_perm. Qed.

Lemma newest_of_recent_perm count bucket xs ys a : xs ≡ₚ ys ->
  newest_of_recent count bucket xs a = newest_of_recent count bucket ys a.
Proof.
  intros H. unfold newest_of_recent. do 2 f_equal; [|f_equal; f_equal]; [apply bool_decide_ext|];
    by rewrite (newer_perm xs ys a H).
Qed.

Lemma by_generation_perm r l xs ys a : xs ≡ₚ ys -> by_generation r l xs a = by_generation r l ys a.
Proof.
  intros H. unfold by_generation. by rewrite !(newest_of_recent_perm _ _ xs ys a H), (newer_perm xs ys a H).
Qed.

Lemma by_floor_perm r l xs ys a : xs ≡ₚ ys -> by_floor r l xs a = by_floor r l ys a.
Proof.
  intros H. unfold by_floor. rewrite (by_generation_perm r l xs ys a H).
  rewrite (List.filter_ext _ _ (fun b => by_generation_perm r l xs ys b H) xs).
  rewrite (List.filter_ext _ _ (fun b => f_equal negb (by_generation_perm r l xs ys b H)) (newer xs a)).
  by rewrite (filter_perm _ _ _ H), (filter_perm _ _ _ (newer_perm xs ys a H)).
Qed.

Lemma needed_perm r l xs ys a : xs ≡ₚ ys -> needed r l xs a -> needed r l ys a.
Proof.
  intros H. induction 1 as [a Ha Hk|a b _ IH Ha Hp Hne].
  - apply needed_kept; [by rewrite <- H|]. by rewrite <- (by_generation_perm r l xs ys a H), <- (by_floor_perm r l xs ys a H).
  - eapply needed_parent; [exact IH|by rewrite <- H|done|done].
Qed.

(** *** The walks *)

Lemma newest_per_bucket_spec count bucket xs : forall seen kept x,
  x ∈ newest_per_bucket count bucket seen kept xs <->
  x ∈ kept \/ exists p a q, xs = p ++ a :: q /\ ar_id a = x /\
    (bucket (ar_taken_at a) ∉ (seen ∪ list_to_set ((fun b => bucket (ar_taken_at b)) <$> p))) /\
    Z.of_nat (size (seen ∪ list_to_set ((fun b => bucket (ar_taken_at b)) <$> p))) < count.
Proof.
  induction xs as [|a0 xs IH]; intros seen kept x; cbn [newest_per_bucket].
  - split; [by left|]. intros [H|(p & a & q & H & _)]; [done|by destruct p].
  - assert (Hskip : forall seen', {[ bucket (ar_taken_at a0) ]} ∪ seen = seen' ->
      (exists p a q, xs = p ++ a :: q /\ ar_id a = x /\
        (bucket (ar_taken_at a) ∉ (seen' ∪ list_to_set ((fun b => bucket (ar_taken_at b)) <$> p))) /\
        Z.of_nat (size (seen' ∪ list_to_set ((fun b => bucket (ar_taken_at b)) <$> p))) < count) <->
      (exists p a q, a0 :: xs = (a0 :: p) ++ a :: q /\ ar_id a = x /\
        (bucket (ar_taken_at a) ∉ (seen ∪ list_to_set ((fun b => bucket (ar_taken_at b)) <$> a0 :: p))) /\
        Z.of_nat (size (seen ∪ list_to_set ((fun b => bucket (ar_taken_at b)) <$> a0 :: p))) < count)).
    { intros seen' <-. assert (Heq : forall p, seen ∪ list_to_set ((fun b => bucket (ar_taken_at b)) <$> a0 :: p) =
        {[ bucket (ar_taken_at a0) ]} ∪ seen ∪ list_to_set ((fun b => bucket (ar_taken_at b)) <$> p)) by set_solver.
      split; intros (p & a & q & Hx & Hid & Hin & Hs); exists p, a, q; rewrite Heq in *; (split; [|done]); [by rewrite Hx|by injection Hx]. }
    destruct (bool_decide_reflect (bucket (ar_taken_at a0) ∈ seen)) as [Hin|Hin].
    + rewrite IH, Hskip by set_solver. apply or_iff_compat_l. split.
      * intros (p & a & q & H & H'). by exists (a0 :: p), a, q.
      * intros ([|b p] & a & q & H & H').
        -- injection H as -> ->. destruct H' as (_ & H' & _). set_solver.
        -- injection H as <- H. exists p, a, q. split; [by rewrite H|done].
    + destruct (Z.leb_spec count (Z.of_nat (size seen))) as [Hle|Hlt].
      * split; [by left|]. intros [H|(p & a & q & _ & _ & _ & Hs)]; [done|].
        pose proof (subseteq_size seen (seen ∪ list_to_set ((fun b => bucket (ar_taken_at b)) <$> p)) ltac:(set_solver)). lia.
      * rewrite IH, Hskip by done. rewrite elem_of_union, elem_of_singleton. split.
        -- intros [[->|H]|(p & a & q & H & H')]; [right; exists [], a0, xs| |right; by exists (a0 :: p), a, q]; [|by left].
           cbn. rewrite union_empty_r_L. done.
        -- intros [H|([|b p] & a & q & H & H')]; [by left; right| |].
           ++ injection H as -> ->. left. left. by destruct H'.
           ++ injection H as <- H. right. exists p, a, q. split; [by rewrite H|done].
Qed.

Lemma keep_newest_spec ordered count bucket kept x :
  x ∈ keepNewestPerBucket ordered count bucket kept <->
  x ∈ kept \/ exists p a q, ordered = p ++ a :: q /\ ar_id a = x /\
    (bucket (ar_taken_at a) ∉ (list_to_set ((fun b => bucket (ar_taken_at b)) <$> p) : gset string)) /\
    Z.of_nat (size (list_to_set ((fun b => bucket (ar_taken_at b)) <$> p) : gset string)) < count.
Proof.
  unfold keepNewestPerBucket. destruct (Z.leb_spec count 0) as [Hle|Hlt].
  - split; [by left|]. intros [H|(p & a & q & _ & _ & _ & H)]; [done|lia].
  - rewrite newest_per_bucket_spec. apply or_iff_compat_l. split; intros (p & a & q & H); exists p, a, q;
      rewrite union_empty_l_L in *; done.
Qed.

Lemma firstn_split (xs : list Archive) n x :
  x ∈ (list_to_set (ar_id <$> firstn (Z.to_nat n) xs) : gset ID) <->
  exists p a q, xs = p ++ a :: q /\ ar_id a = x /\ Z.of_nat (List.length p) < n.
Proof.
  rewrite elem_of_list_to_set, list_elem_of_fmap. split.
  - intros (a & -> & Ha). apply list_elem_of_split in Ha as (p & q & Hs).
    exists p, a, (q ++ skipn (Z.to_nat n) xs). split; [|split; [done|]].
    + rewrite <- (firstn_skipn (Z.to_nat n) xs) at 1. rewrite Hs. by rewrite <- app_assoc.
    + pose proof (f_equal (@List.length _) Hs) as Hl. rewrite length_app in Hl. cbn in Hl. pose proof (firstn_le_length (Z.to_nat n) xs). lia.
  - intros (p & a & q & -> & <- & Hn). exists a. split; [done|]. rewrite firstn_app, elem_of_app. right.
    destruct (Z.to_nat n - List.length p)%nat eqn:E; [lia|]. cbn. left.
Qed.

(** *** The floor *)

Definition missing (kept : gset ID) (xs : list Archive) : list Archive :=
  List.filter (fun b => negb (bool_decide (ar_id b ∈ kept))) xs.

Lemma missing_more (a : Archive) kept xs : ar_id a ∉ ar_id <$> xs -> missing ({[ ar_id a ]} ∪ kept) xs = missing kept xs.
Proof.
  intros Ha. apply filter_ext_in. intros b Hb. f_equal. apply bool_decide_ext. apply list_elem_of_In in Hb.
  assert (ar_id b <> ar_id a); [|set_solver]. intros He. apply Ha. rewrite <- He. by apply list_elem_of_fmap_2.
Qed.

(** The walk takes as many of the missing ones as the floor lacks. *)
Lemma hold_floor_first min_keep xs : forall kept held, NoDup (ar_id <$> xs) ->
  let taken := firstn (Z.to_nat (min_keep - Z.of_nat (size kept))) (missing kept xs) in
  hold_floor min_keep kept held xs =
    (list_to_set (ar_id <$> taken) ∪ kept, held || negb (bool_decide (taken = []))).
Proof.
  induction xs as [|a xs IH]; intros kept held Hnd; cbn [hold_floor].
  - unfold missing. cbn [List.filter]. rewrite firstn_nil. f_equal; [set_solver|by rewrite orb_false_r].
  - rewrite fmap_cons in Hnd. apply NoDup_cons in Hnd as [Ha Hnd]. destruct (Z.ltb_spec (Z.of_nat (size kept)) min_keep) as [Hlt|Hge].
    + unfold missing. cbn [List.filter]. destruct (bool_decide_reflect (ar_id a ∈ kept)) as [Hin|Hin]; cbn [negb]; [by apply IH|].
      rewrite IH by done. rewrite missing_more by done. rewrite size_union, size_singleton by set_solver.
      replace (Z.to_nat (min_keep - Z.of_nat (size kept))) with (S (Z.to_nat (min_keep - Z.of_nat (1 + size kept)))) by lia.
      cbn [firstn]. rewrite fmap_cons. f_equal; [set_solver|]. rewrite orb_true_r. by destruct held.
    + replace (Z.to_nat (min_keep - Z.of_nat (size kept))) with 0%nat by lia. rewrite firstn_O. f_equal; [set_solver|by rewrite orb_false_r].
Qed.

Lemma filter_split (P : Archive -> bool) (F : list Archive -> Archive -> Prop) xs :
  (exists p a q, List.filter P xs = p ++ a :: q /\ F p a) <->
  (exists p a q, xs = p ++ a :: q /\ P a = true /\ F (List.filter P p) a).
Proof.
  revert F. induction xs as [|x xs IH]; intros F; cbn [List.filter].
  - split; intros (p & a & q & H & _); by destruct p.
  - specialize (IH (fun p a => F (if P x then x :: p else p) a)). destruct (P x) eqn:E; split.
    + intros ([|y p] & a & q & H & HF); injection H as -> H; [by exists [], a, xs|].
      destruct (proj1 IH) as (p' & a' & q' & -> & Ha & HF'); [exists p, a, q; by split|].
      exists (y :: p'), a', q'. cbn. by rewrite E.
    + intros ([|y p] & a & q & H & Ha & HF); injection H as -> H; [by exists [], a, (List.filter P xs)|].
      cbn in HF. rewrite E in HF. destruct (proj2 IH) as (p' & a' & q' & Hs & HF'); [exists p, a, q; by rewrite H|].
      exists (y :: p'), a', q'. by rewrite Hs.
    + intros H. apply IH in H as (p & a & q & -> & Ha & HF). exists (x :: p), a, q. cbn. by rewrite E.
    + intros ([|y p] & a & q & H & Ha & HF); injection H as -> H; [congruence|]. cbn in HF. rewrite E in HF.
      apply IH. exists p, a, q. by rewrite H.
Qed.

(** *** The archives in order *)

(** A list of archives in the order of [Apply], no identity twice. *)
Section Ordered.
Context (ordered : list Archive).
Context (Hsorted : StronglySorted (fun a b => newest_first a b = Lt) ordered) (Hnodup : NoDup (ar_id <$> ordered)).

Lemma newer_split p a q : ordered = p ++ a :: q -> newer ordered a = p.
Proof. intros ->. by apply (sorted_before archive_key (fun a b => cmp_pair Z.compare String.compare b a)). Qed.

(** A position in the list is what is newer. *)
Lemma position_newer (F : list Archive -> Archive -> Prop) x :
  (exists p a q, ordered = p ++ a :: q /\ ar_id a = x /\ F p a) <->
  (exists a, a ∈ ordered /\ ar_id a = x /\ F (newer ordered a) a).
Proof.
  split.
  - intros (p & a & q & Ho & Hx & HF). exists a. rewrite (newer_split p a q Ho). rewrite Ho at 1. set_solver.
  - intros (a & Ha & Hx & HF). apply list_elem_of_split in Ha as (p & q & Ho). exists p, a, q.
    rewrite (newer_split p a q Ho) in HF. done.
Qed.

Lemma same_id a b : a ∈ ordered -> b ∈ ordered -> ar_id a = ar_id b -> a = b.
Proof.
  intros Ha Hb He. apply list_elem_of_lookup in Ha as [i Hi], Hb as [j Hj].
  assert (i = j) as ->.
  { eapply NoDup_lookup; [exact Hnodup| |]; rewrite list_lookup_fmap; [by rewrite Hi|by rewrite Hj, He]. }
  congruence.
Qed.

Lemma generations_spec r l x : x ∈ generations r ordered l <->
  exists a, a ∈ ordered /\ ar_id a = x /\ by_generation r l ordered a = true.
Proof.
  unfold generations. rewrite !keep_newest_spec, firstn_split.
  rewrite (position_newer (fun p _ => Z.of_nat (List.length p) < KeepLast r)).
  assert (Hb : forall count bucket, (exists p a q, ordered = p ++ a :: q /\ ar_id a = x /\
      (bucket (ar_taken_at a) ∉ (list_to_set ((fun b => bucket (ar_taken_at b)) <$> p) : gset string)) /\
      Z.of_nat (size (list_to_set ((fun b => bucket (ar_taken_at b)) <$> p) : gset string)) < count) <->
    exists a, a ∈ ordered /\ ar_id a = x /\ newest_of_recent count bucket ordered a = true).
  { intros count bucket. rewrite (position_newer (fun p a => (bucket (ar_taken_at a) ∉ _) /\ Z.of_nat (size _) < count)).
    unfold newest_of_recent. setoid_rewrite andb_true_iff. setoid_rewrite bool_decide_eq_true. by setoid_rewrite Z.ltb_lt. }
  rewrite !Hb. unfold by_generation. setoid_rewrite orb_true_iff. setoid_rewrite orb_true_iff.
  setoid_rewrite orb_true_iff. setoid_rewrite orb_true_iff. setoid_rewrite Z.ltb_lt. naive_solver.
Qed.

(** The floor takes what the specification says it takes. *)
Lemma floor_spec r l :
  let kept := generations r ordered l in
  let taken := firstn (Z.to_nat (MinKeep r - Z.of_nat (size kept))) (missing kept ordered) in
  (forall x, x ∈ ar_id <$> taken <-> exists a, a ∈ ordered /\ ar_id a = x /\ by_floor r l ordered a = true).
Proof.
  intros kept taken x.
  assert (Hkept : forall a, a ∈ ordered -> bool_decide (ar_id a ∈ kept) = by_generation r l ordered a).
  { intros a Ha. apply eq_true_iff_eq. rewrite bool_decide_eq_true. unfold kept. rewrite generations_spec. split; [|naive_solver].
    intros (b & Hb & He & HP). by rewrite (same_id a b Ha Hb (eq_sym He)). }
  assert (Hsize : size kept = List.length (List.filter (by_generation r l ordered) ordered)).
  { apply (size_of_keys ar_id); [done|]. apply generations_spec. }
  rewrite <- (elem_of_list_to_set (C := gset ID)). unfold taken. rewrite firstn_split. unfold missing.
  transitivity (exists p a q, ordered = p ++ a :: q /\ ar_id a = x /\ bool_decide (ar_id a ∈ kept) = false /\
    Z.of_nat (List.length (List.filter (fun b => negb (bool_decide (ar_id b ∈ kept))) p)) < MinKeep r - Z.of_nat (size kept)).
  { rewrite (filter_split _ (fun p a => ar_id a = x /\ Z.of_nat (List.length p) < _)). setoid_rewrite negb_true_iff. naive_solver. }
  rewrite (position_newer (fun p a => bool_decide _ = false /\ Z.of_nat (List.length _) < _)).
  unfold by_floor. rewrite <- Hsize.
  assert (Hf : forall a, List.filter (fun b => negb (bool_decide (ar_id b ∈ kept))) (newer ordered a) =
                         List.filter (fun b => negb (by_generation r l ordered b)) (newer ordered a)).
  { intros a. apply filter_ext_in. intros b [Hb _]%filter_In. rewrite Hkept; [done|by apply list_elem_of_In]. }
  split; intros (a & Ha & Hx & H); exists a; (split; [done|]; split; [done|]).
  - destruct H as [H1 H2]. rewrite Hkept in H1 by done. rewrite H1, <- Hf. cbn [negb andb]. lia.
  - bools. rewrite Hkept, Hf by done. split; [done|lia].
Qed.

End Ordered.

(** *** The chains *)

Section Chains.
Context (parents : gmap ID ID) (base : gset ID) (values : list ID).
Context (Hvalues : forall id parent, parents !! id = Some parent -> parent ∈ values).

(** What is in the set or continued by something that is. *)
Inductive chained : ID -> Prop :=
  | chained_base id : id ∈ base -> chained id
  | chained_up id parent : chained id -> parents !! id = Some parent -> chained parent.

Definition closed (kept : gset ID) : Prop := forall id parent, id ∈ kept -> parents !! id = Some parent -> parent ∈ kept.

Record held_inv (kept : gset ID) (held : list ID) : Prop := {
  hi_kept : kept = base ∪ list_to_set held;
  hi_nodup : NoDup held;
  hi_held : forall id, id ∈ held -> (id ∉ base) /\ id ∈ values;
  hi_chained : forall id, id ∈ kept -> chained id
}.

Lemma visit_inv kept held id : held_inv kept held ->
  let '(kept', held') := visit parents (kept, held) id in
  held_inv kept' held' /\ kept ⊆ kept' /\ (exists more, held' = held ++ more) /\
  (forall parent, id ∈ kept -> parents !! id = Some parent -> parent ∈ kept').
Proof.
  intros H. cbn [visit]. destruct (bool_decide_reflect (id ∈ kept)) as [Hin|Hin].
  2:{ refine (conj H (conj _ (conj _ _))); [done|by exists []; rewrite app_nil_r|done]. }
  destruct (parents !! id) as [parent|] eqn:E.
  2:{ refine (conj H (conj _ (conj _ _))); [done|by exists []; rewrite app_nil_r|done]. }
  destruct (bool_decide_reflect (parent ∈ kept)) as [Hp|Hp].
  { refine (conj H (conj _ (conj _ _))); [done|by exists []; rewrite app_nil_r|]. by intros ? _ [= <-]. }
  destruct H as [Hk Hnd Hh Hc]. split; [|split; [set_solver|split; [by eexists|intros ? _ [= <-]; set_solver]]]. split.
  - rewrite list_to_set_app_L, Hk. set_solver.
  - apply NoDup_app. split; [done|]. split; [|apply NoDup_singleton]. intros x Hx ->%list_elem_of_singleton. set_solver.
  - intros x [Hx| ->%list_elem_of_singleton]%elem_of_app; [by apply Hh|]. split; [set_solver|by eapply Hvalues].
  - intros x [->%elem_of_singleton|Hx]%elem_of_union; [|by apply Hc]. eapply chained_up; [by apply Hc|done].
Qed.

Lemma visits_inv ids : forall kept held, held_inv kept held ->
  let '(kept', held') := fold_left (visit parents) ids (kept, held) in
  held_inv kept' held' /\ kept ⊆ kept' /\ (exists more, held' = held ++ more) /\
  (forall id parent, id ∈ ids -> id ∈ kept -> parents !! id = Some parent -> parent ∈ kept').
Proof.
  induction ids as [|id ids IH]; intros kept held H; cbn [fold_left].
  - split; [done|]. split; [done|]. split; [exists []; by rewrite app_nil_r|]. intros ? ? Hx. by apply not_elem_of_nil in Hx.
  - pose proof (visit_inv kept held id H) as Hv. destruct (visit parents (kept, held) id) as [kept1 held1].
    destruct Hv as (H1 & Hsub & (more & ->) & Hup). specialize (IH kept1 _ H1).
    destruct (fold_left (visit parents) ids (kept1, held ++ more)) as [kept2 held2].
    destruct IH as (H2 & Hsub2 & (more2 & ->) & Hup2). split; [done|]. split; [set_solver|]. split; [exists (more ++ more2); by rewrite app_assoc|].
    intros x parent [->|Hx]%elem_of_cons Hk Hpar; [apply Hsub2; by eapply Hup|by eapply Hup2; [| apply Hsub|]].
Qed.

Lemma held_all kept held : held_inv kept held -> (List.length values <= List.length held)%nat -> closed kept.
Proof.
  intros [Hk Hnd Hh _] Hl id parent _ Hp. rewrite Hk. apply elem_of_union. right. apply elem_of_list_to_set.
  apply list_elem_of_In. apply (NoDup_length_incl (l := held) (l' := values)); [by apply NoDup_ListNoDup|done| |].
  - intros x Hx. apply list_elem_of_In. by apply Hh, list_elem_of_In.
  - apply list_elem_of_In. by eapply Hvalues.
Qed.

Lemma rounds_closed order `{!Walks order} rounds : forall kept held, held_inv kept held ->
  (List.length values <= rounds + List.length held)%nat ->
  let '(kept', held') := ancestor_rounds rounds order parents kept held in
  held_inv kept' held' /\ closed kept'.
Proof.
  induction rounds as [|rounds IH]; intros kept held H Hl; cbn [ancestor_rounds].
  - split; [done|]. by eapply held_all.
  - pose proof (visits_inv (order (S rounds) kept) kept held H) as Hv.
    destruct (fold_left (visit parents) (order (S rounds) kept) (kept, held)) as [kept1 held1].
    destruct Hv as (H1 & Hsub & (more & ->) & Hup). rewrite length_app.
    destruct (Nat.eqb_spec (List.length held + List.length more) (List.length held)) as [He|He].
    + split; [done|]. assert (more = []) as -> by (apply length_zero_iff_nil; lia). rewrite app_nil_r in H1.
      assert (kept1 = kept) as -> by (rewrite (hi_kept _ _ H1), (hi_kept _ _ H); done).
      intros id parent Hin Hp. eapply Hup; [by apply walks_all|done|done].
    + apply IH; [done|]. rewrite length_app. lia.
Qed.

(** However the rounds walk, what is kept is what the set and its chains hold,
    and what is held is what only a chain holds. *)
Lemma rounds_chained order `{!Walks order} rounds : (List.length values <= rounds)%nat ->
  let '(kept, held) := ancestor_rounds rounds order parents base [] in
  (forall id, id ∈ kept <-> chained id) /\ NoDup held /\ (forall id, id ∈ held <-> chained id /\ id ∉ base).
Proof.
  intros Hl. assert (H0 : held_inv base []).
  { split; [set_solver|constructor|intros ? Hx; by apply not_elem_of_nil in Hx|by constructor]. }
  pose proof (rounds_closed order rounds base [] H0 ltac:(cbn; lia)) as H.
  destruct (ancestor_rounds rounds order parents base []) as [kept held]. destruct H as [[Hk Hnd Hh Hc] Hcl].
  assert (Hall : forall id, chained id -> id ∈ kept) by (induction 1 as [id Hin|id parent _ IH Hp]; [set_solver|by eapply Hcl]).
  split; [intros id; split; auto|]. split; [done|]. intros id. split.
  - intros Hin. split; [apply Hc; set_solver|by apply Hh].
  - intros [Hin Hn]. apply Hall in Hin. set_solver.
Qed.
End Chains.

(** *** Apply *)

Lemma parents_spec xs id parent : NoDup (ar_id <$> xs) ->
  parents_of xs !! id = Some parent <-> exists a, a ∈ xs /\ ar_id a = id /\ ar_parent_id a = parent /\ parent <> "".
Proof.
  induction xs as [|a xs IH] using rev_ind; intros Hnd.
  - split; [done|]. intros (a & Ha & _). by apply not_elem_of_nil in Ha.
  - unfold parents_of. rewrite fold_left_app. cbn [fold_left]. fold (parents_of xs).
    rewrite fmap_app in Hnd. apply NoDup_app in Hnd as (Hnd & Hnew & _). specialize (IH Hnd).
    assert (Ha : ar_id a ∉ ar_id <$> xs) by (intros Hin; apply (Hnew _ Hin); by apply list_elem_of_singleton).
    unfold id_is_zero. destruct (String.eqb_spec (ar_parent_id a) "") as [Hz|Hz].
    + rewrite IH. split; intros (b & Hb & Hr); exists b; (split; [|done]); [apply elem_of_app; by left|].
      apply elem_of_app in Hb as [Hb| ->%list_elem_of_singleton]; [done|]. naive_solver.
    + destruct (decide (id = ar_id a)) as [->|Hne].
      * rewrite lookup_insert_eq. split.
        -- intros [= <-]. exists a. split; [apply elem_of_app; right; by apply list_elem_of_singleton|done].
        -- intros (b & [Hb| ->%list_elem_of_singleton]%elem_of_app & He & <- & _); [|done].
           destruct Ha. rewrite <- He. by apply list_elem_of_fmap_2.
      * rewrite lookup_insert_ne by done. rewrite IH. split; intros (b & Hb & Hr); exists b; (split; [|done]).
        -- apply elem_of_app. by left.
        -- apply elem_of_app in Hb as [Hb| ->%list_elem_of_singleton]; [done|]. naive_solver.
Qed.

Lemma filter_length_le {A} (P Q : A -> bool) (xs : list A) : (forall x, x ∈ xs -> P x = true -> Q x = true) ->
  (List.length (List.filter P xs) <= List.length (List.filter Q xs))%nat.
Proof.
  intros H. induction xs as [|x xs IH]; cbn; [done|]. specialize (IH (fun y Hy => H y (list_elem_of_further y x _ Hy))).
  specialize (H x (list_elem_of_here x xs)). destruct (P x); [rewrite H by done; cbn; lia|destruct (Q x); cbn; lia].
Qed.

Lemma filter_sublist {A} (P : A -> bool) xs : List.filter P xs `sublist_of` xs.
Proof. induction xs as [|x xs IH]; cbn; [done|]. destruct (P x); by constructor. Qed.

Section Applied.
Context (r : Retention) (l : Location) (ordered : list Archive).
Context (Hsorted : StronglySorted (fun a b => newest_first a b = Lt) ordered) (Hnodup : NoDup (ar_id <$> ordered)).

(** What the generations and the floor keep together. *)
Definition plan_keeps : gset ID := (hold_floor (MinKeep r) (generations r ordered l) false ordered).1.

Lemma plan_keeps_spec x : x ∈ plan_keeps <->
  exists a, a ∈ ordered /\ ar_id a = x /\ by_generation r l ordered a || by_floor r l ordered a = true.
Proof.
  unfold plan_keeps. rewrite hold_floor_first by exact Hnodup. cbn [fst].
  rewrite elem_of_union, elem_of_list_to_set, (floor_spec ordered Hsorted Hnodup), (generations_spec ordered Hsorted Hnodup). split.
  - intros [(a & Ha & Hx & H)|(a & Ha & Hx & H)]; exists a; rewrite H, ?orb_true_r; done.
  - intros (a & Ha & Hx & H). apply orb_true_iff in H as [H|H]; [right|left]; by exists a.
Qed.

Lemma floor_held_spec : (hold_floor (MinKeep r) (generations r ordered l) false ordered).2 = true <->
  exists a, a ∈ ordered /\ by_floor r l ordered a = true.
Proof.
  rewrite hold_floor_first by done. cbn [snd orb]. rewrite negb_true_iff, bool_decide_eq_false.
  pose proof (floor_spec ordered Hsorted Hnodup r l) as Hf. cbv zeta in Hf. split.
  - intros H. destruct (firstn _ _) as [|a taken] eqn:E; [done|]. destruct (proj1 (Hf (ar_id a))) as (b & Hb & _ & HP); [|by exists b].
    rewrite fmap_cons. left.
  - intros (a & Ha & HP) E. assert (Hin : ar_id a ∈ ar_id <$> []) by (rewrite <- E; apply Hf; by exists a).
    by apply not_elem_of_nil in Hin.
Qed.

Lemma plan_keeps_floor : Z.min (MinKeep r) (Z.of_nat (List.length ordered)) <= Z.of_nat (size plan_keeps).
Proof.
  unfold plan_keeps. rewrite hold_floor_first by done. cbn [fst]. set (kept := generations r ordered l).
  set (taken := firstn _ _).
  assert (Hlen : List.length ordered = (size kept + List.length (missing kept ordered))%nat).
  { rewrite (size_of_keys ar_id (fun a => bool_decide (ar_id a ∈ kept)) ordered) by
      (done || (intros k; unfold kept; setoid_rewrite bool_decide_eq_true; setoid_rewrite (generations_spec ordered Hsorted Hnodup); naive_solver)).
    symmetry. apply (filter_length (fun a => bool_decide (ar_id a ∈ kept))). }
  assert (Hsub : forall a, a ∈ taken -> a ∈ ordered /\ (ar_id a ∉ kept)).
  { intros a Ha. assert (Hin : a ∈ missing kept ordered).
    { rewrite <- (firstn_skipn (Z.to_nat (MinKeep r - Z.of_nat (size kept))) (missing kept ordered)). apply elem_of_app. by left. }
    apply list_elem_of_In, filter_In in Hin as [Hin Hk]. apply negb_true_iff, bool_decide_eq_false in Hk. split; [by apply list_elem_of_In|done]. }
  assert (Hnd : NoDup (ar_id <$> taken)).
  { apply (sublist_NoDup _ (ar_id <$> ordered)); [done|]. apply fmap_sublist. unfold taken.
    etransitivity; [apply sublist_take|]. apply filter_sublist. }
  rewrite size_union, size_list_to_set by (done || (intros x; rewrite elem_of_list_to_set, list_elem_of_fmap;
    intros (a & -> & Ha) Hk; by apply Hsub in Ha as [_ Ha])).
  rewrite length_fmap. unfold taken. rewrite length_firstn. lia.
Qed.
Lemma chained_needed id : chained (parents_of ordered) plan_keeps id ->
  forall a, a ∈ ordered -> ar_id a = id -> needed r l ordered a.
Proof.
  induction 1 as [id Hin|id parent _ IH Hp]; intros a Ha He.
  - apply plan_keeps_spec in Hin as (b & Hb & Hbe & HP). rewrite (same_id ordered Hnodup a b Ha Hb) by congruence.
    by apply needed_kept.
  - apply (parents_spec ordered id parent Hnodup) in Hp as (b & Hb & Hbe & Hbp & Hne).
    apply (needed_parent r l ordered a b); [by apply IH|done|congruence|congruence].
Qed.

Lemma needed_in a : needed r l ordered a -> a ∈ ordered.
Proof. by destruct 1. Qed.

Lemma needed_chained a : needed r l ordered a -> chained (parents_of ordered) plan_keeps (ar_id a).
Proof.
  induction 1 as [a Ha HP|a b Hb IH Ha Hp Hne].
  - apply chained_base. apply plan_keeps_spec. by exists a.
  - eapply chained_up; [exact IH|]. apply (parents_spec ordered); [done|]. exists b. split; [by apply needed_in|]. by rewrite Hp.
Qed.

Lemma kept_needed order `{!Walks order} :
  let '(kept, held) := keepAncestors order ordered plan_keeps in
  (forall a, a ∈ ordered -> ar_id a ∈ kept <-> needed r l ordered a) /\
  (forall id, id ∈ kept <-> chained (parents_of ordered) plan_keeps id) /\ NoDup held /\
  (forall id, id ∈ held <-> chained (parents_of ordered) plan_keeps id /\ id ∉ plan_keeps).
Proof.
  unfold keepAncestors.
  pose proof (rounds_chained (parents_of ordered) plan_keeps (ar_parent_id <$> ordered)) as H.
  specialize (fun Hv => H Hv order _ (List.length ordered)). rewrite length_fmap in H.
  destruct (ancestor_rounds _ _ _ _ _) as [kept held]. destruct H as (Hk & Hnd & Hh); [|done|].
  { intros id parent Hp. apply (parents_spec ordered) in Hp as (a & Ha & _ & <- & _); [|done]. by apply list_elem_of_fmap_2. }
  assert (Hp : sort_by String.compare held ≡ₚ held) by apply (sort_by_perm (fun x => x)).
  split; [|split; [done|split; [by rewrite Hp|intros id; by rewrite Hp]]]. intros a Ha. rewrite Hk. split.
  - intros Hc. by eapply chained_needed.
  - apply needed_chained.
Qed.
End Applied.

(** The list [Apply] works on. *)
Lemma ordered_ok archives : NoDup (ar_id <$> archives) ->
  let ordered := sort_by newest_first archives in
  ordered ≡ₚ archives /\ StronglySorted (fun a b => newest_first a b = Lt) ordered /\ NoDup (ar_id <$> ordered).
Proof.
  intros Hnd ordered. assert (Hp : ordered ≡ₚ archives) by apply sort_by_perm. split; [done|]. split; [|by rewrite Hp].
  apply (sort_by_strict archive_key (fun a b => cmp_pair Z.compare String.compare b a)).
  apply (NoDup_fmap_1 (fun key : Z * string => key.2)). by rewrite <- list_fmap_compose.
Qed.

Lemma sorted_filter {A} (R : A -> A -> Prop) (P : A -> bool) xs : StronglySorted R xs -> StronglySorted R (List.filter P xs).
Proof.
  induction 1 as [|x xs _ IH Hall]; cbn; [constructor|]. destruct (P x); [|done]. constructor; [done|].
  apply Forall_forall. intros y Hy. rewrite Forall_forall in Hall. apply Hall. by eapply sublist_subseteq, Hy; apply filter_sublist.
Qed.

Lemma filter_partition {A} (P : A -> bool) xs : List.filter P xs ++ List.filter (fun x => negb (P x)) xs ≡ₚ xs.
Proof. induction xs as [|x xs IH]; cbn; [done|]. destruct (P x); cbn; [by rewrite IH|]. by rewrite <- Permutation_middle, IH. Qed.

Lemma sorted_rev {A} (R : A -> A -> Prop) xs : StronglySorted R xs -> StronglySorted (fun a b => R b a) (rev xs).
Proof.
  induction 1 as [|x xs _ IH Hall]; cbn; [constructor|]. apply sorting.StronglySorted_app_2; [|done|repeat constructor].
  intros a b Ha ->%list_elem_of_singleton. rewrite Forall_forall in Hall. apply Hall. by apply list_elem_of_In, in_rev, list_elem_of_In.
Qed.

Lemma find_held (ordered : list Archive) (held : list ID) a : NoDup (ar_id <$> ordered) ->
  a ∈ omap (fun id => List.find (fun archive => String.eqb (ar_id archive) id) ordered) held <-> a ∈ ordered /\ ar_id a ∈ held.
Proof.
  intros Hnd. rewrite list_elem_of_omap. split.
  - intros (id & Hid & [Ha He]%List.find_some). apply String.eqb_eq in He. subst. by apply list_elem_of_In in Ha.
  - intros [Ha Hh]. exists (ar_id a). split; [done|]. destruct (List.find _ ordered) as [b|] eqn:E.
    + apply List.find_some in E as [Hb He]. apply String.eqb_eq in He. f_equal. symmetry. apply (same_id ordered); [done|done|by apply list_elem_of_In|done].
    + apply list_elem_of_In in Ha. pose proof (List.find_none _ _ E a Ha) as Hn. cbn in Hn.
      by rewrite String.eqb_refl in Hn.
Qed.

(** The outcome of [Apply] and what is in its two sets. *)
Lemma Apply_shape order `{!Walks order} r archives zone : NoDup (ar_id <$> archives) ->
  let l := default UTC zone in
  let ordered := sort_by newest_first archives in
  exists (kept : gset ID) (held : list ID),
    Apply order r archives zone =
      mkExpiry (List.filter (fun a => bool_decide (ar_id a ∈ kept)) ordered)
        (rev (List.filter (fun a => negb (bool_decide (ar_id a ∈ kept))) ordered))
        (hold_floor (MinKeep r) (generations r ordered l) false ordered).2
        (omap (fun id => List.find (fun archive => String.eqb (ar_id archive) id) ordered) held) /\
    (forall a, a ∈ ordered -> ar_id a ∈ kept <-> needed r l archives a) /\
    (forall a, a ∈ ordered -> ar_id a ∈ held <-> needed r l archives a /\ by_generation r l archives a || by_floor r l archives a = false) /\
    Z.min (MinKeep r) (Z.of_nat (List.length archives)) <=
      Z.of_nat (List.length (List.filter (fun a => by_generation r l archives a || by_floor r l archives a) ordered)).
Proof.
  intros Hid l ordered. pose proof (ordered_ok archives Hid) as (Hp & Hs & Hnd). fold ordered in Hp, Hs, Hnd.
  assert (Hneed : forall a, needed r l archives a <-> needed r l ordered a) by (intros a; split; by apply needed_perm).
  assert (HP : forall a, by_generation r l archives a || by_floor r l archives a = by_generation r l ordered a || by_floor r l ordered a)
    by (intros a; by rewrite (by_generation_perm r l _ _ a Hp), (by_floor_perm r l _ _ a Hp)).
  pose proof (kept_needed r l ordered Hs Hnd order) as Hk. pose proof (plan_keeps_spec r l ordered Hs Hnd) as Hplan.
  pose proof (plan_keeps_floor r l ordered Hs Hnd) as Hmin. unfold Apply. fold l. fold ordered.
  destruct (hold_floor _ _ _ _) as [base floorHeld] eqn:E.
  assert (base = plan_keeps r l ordered) as -> by (unfold plan_keeps; by rewrite E).
  destruct (keepAncestors order ordered _) as [kept held]. destruct Hk as (Hk & _ & _ & Hh).
  exists kept, held. split; [done|]. split; [intros a Ha; rewrite Hneed; by apply Hk|]. split.
  - intros a Ha. rewrite Hneed, HP, Hh. split.
    + intros [Hc Hb]. split; [by apply (chained_needed r l ordered Hs Hnd (ar_id a))|]. apply not_true_iff_false.
      intros HP'. apply Hb, Hplan. by exists a.
    + intros [Hn HP']. split; [by apply needed_chained|]. intros (b & Hb & He & HPb)%Hplan.
      rewrite (same_id ordered Hnd a b Ha Hb) in HP' by done. congruence.
  - rewrite <- Hp. etransitivity; [exact Hmin|]. rewrite (size_of_keys ar_id _ ordered _ Hnd Hplan).
    by rewrite (List.filter_ext _ _ HP).
Qed.

Section Members.
Context (r : Retention) (l : Location) (archives ordered : list Archive) (kept : gset ID).
Context (Hp : ordered ≡ₚ archives) (Hk : forall a, a ∈ ordered -> ar_id a ∈ kept <-> needed r l archives a).

Lemma stays_needed a : a ∈ List.filter (fun a => bool_decide (ar_id a ∈ kept)) ordered <-> needed r l archives a.
Proof.
  rewrite list_elem_of_In, filter_In, <- list_elem_of_In, bool_decide_eq_true. split.
  - intros [Ha Hin]. by apply Hk.
  - intros Ha. pose proof (needed_in r l archives a Ha) as Hin. rewrite <- Hp in Hin. split; [done|]. by apply Hk.
Qed.

Lemma goes_needed a : a ∈ rev (List.filter (fun a => negb (bool_decide (ar_id a ∈ kept))) ordered) <->
  a ∈ archives /\ ~ needed r l archives a.
Proof.
  rewrite list_elem_of_In, <- in_rev, filter_In, <- list_elem_of_In, negb_true_iff, bool_decide_eq_false.
  assert (Hin : a ∈ archives <-> a ∈ ordered) by (by rewrite Hp). rewrite Hin. clear Hin.
  split; intros [Ha Hin]; (split; [done|]); specialize (Hk a Ha); tauto.
Qed.
End Members.

Lemma Apply_members order `{!Walks order} r archives zone a : NoDup (ar_id <$> archives) ->
  let l := default UTC zone in
  let e := Apply order r archives zone in
  (a ∈ ex_keep e <-> needed r l archives a) /\ (a ∈ ex_expire e <-> a ∈ archives /\ ~ needed r l archives a).
Proof.
  intros Hid l e. destruct (Apply_shape order r archives zone Hid) as (kept & held & He & Hk & _).
  pose proof (ordered_ok archives Hid) as (Hp & _). subst e. rewrite He. cbn [ex_keep ex_expire].
  split; [by apply stays_needed|by apply goes_needed].
Qed.

(** *** The pass that deletes *)

Lemma delete_expired_touched delete mark byPath going p : p ∈ (delete_expired delete mark byPath going).1 ->
  p <> "" /\ exists a, a ∈ going /\ pathOf byPath (ar_id a) = p.
Proof.
  induction going as [|a going IH]; cbn [delete_expired]; [intros H; by apply not_elem_of_nil in H|].
  assert (Hrest : p ∈ (delete_expired delete mark byPath going).1 -> p <> "" /\ exists b, b ∈ a :: going /\ pathOf byPath (ar_id b) = p).
  { intros H. destruct (IH H) as (Hp & b & Hb & He). split; [done|]. exists b. split; [by right|done]. }
  destruct (String.eqb_spec (pathOf byPath (ar_id a)) "") as [E|E]; [done|].
  assert (Ha : p = pathOf byPath (ar_id a) -> p <> "" /\ exists b, b ∈ a :: going /\ pathOf byPath (ar_id b) = p).
  { intros ->. split; [done|]. exists a. split; [left|done]. }
  destruct (delete (pathOf byPath (ar_id a)) ≫= _).
  - destruct (delete_expired delete mark byPath going) as [touched failed]. cbn [fst] in *.
    intros [H|H]%elem_of_cons; [by apply Ha|by apply Hrest].
  - intros H%list_elem_of_singleton. by apply Ha.
  - intros H%list_elem_of_singleton. by apply Ha.
Qed.

(** Where nothing fails, everything that expires goes. *)
Lemma delete_expired_all delete mark byPath going : (forall p, delete p = Ok tt) -> (forall id, mark id = Ok tt) ->
  delete_expired delete mark byPath going =
    (List.filter (fun p => negb (String.eqb p "")) ((fun a => pathOf byPath (ar_id a)) <$> going), None).
Proof.
  intros Hd Hm. induction going as [|a going IH]; [done|]. cbn [delete_expired]. rewrite fmap_cons. cbn [List.filter]. rewrite IH.
  destruct (String.eqb _ ""); cbn [negb]; [done|]. rewrite Hd. cbn. by rewrite Hm.
Qed.

Lemma pathOf_found byPath id p : pathOf byPath id = p -> p <> "" -> (p, id) ∈ byPath.
Proof.
  unfold pathOf. destruct (List.find _ byPath) as [[q i]|] eqn:E; [|by intros <-]. intros <- _.
  apply List.find_some in E as [Hin He]. apply String.eqb_eq in He. cbn in He. subst. by apply list_elem_of_In.
Qed.

Lemma pathOf_known byPath id : id ∈ byPath.*2 -> (pathOf byPath id, id) ∈ byPath.
Proof.
  intros H. unfold pathOf. destruct (List.find _ byPath) as [[q i]|] eqn:E.
  - apply List.find_some in E as [Hin He]. apply String.eqb_eq in He. cbn in He. subst. by apply list_elem_of_In.
  - apply list_elem_of_fmap in H as ([q i] & -> & Hin). apply list_elem_of_In in Hin.
    pose proof (List.find_none _ _ E _ Hin) as Hn. cbn in Hn. by rewrite String.eqb_refl in Hn.
Qed.

Lemma counted_place scope d p a : counted scope d = Some (p, a) ->
  dn_prefix d = p /\ str_has_prefix (archive_prefix scope) p = true /\ dn_complete d = true /\
  ParseID (dn_archive_id d) = Ok (ar_id a) /\ p <> "" /\ ar_id a <> "".
Proof.
  unfold counted. destruct (str_has_prefix _ _) eqn:E; [|done]. destruct (dn_complete d); [|done]. cbn [negb].
  destruct (ParseID (dn_archive_id d)) as [id| |] eqn:Ep; try done. intros [= <- <-]. cbn [ar_id].
  repeat split; try done.
  - intros H. rewrite H in E. done.
  - intros ->. unfold ParseID in Ep. destruct (looksLikeUUID _) eqn:El; [|done]. injection Ep as Ep. by rewrite Ep in El.
Qed.

(** The places of the archives the pass counts. *)
Lemma found_place scope described p id :
  (p, id) ∈ (fun place => (place.1, ar_id place.2)) <$> omap (counted scope) described ->
  exists d a, d ∈ described /\ counted scope d = Some (p, a) /\ ar_id a = id /\ a ∈ (omap (counted scope) described).*2.
Proof.
  intros H. apply list_elem_of_fmap in H as ([q a] & [= -> ->] & H). pose proof H as H'.
  apply list_elem_of_omap in H as (d & Hd & Hc). exists d, a. repeat split; try done.
  apply list_elem_of_fmap. by exists (q, a).
Qed.

(** *** Schedules *)

(** A schedule as the checks let it through. *)
Record schedule_sound (s : Schedule) : Prop := {
  ss_target : sd_target_id s <> "";
  ss_scope : ScheduleScopeValid (sd_scope s) = true;
  ss_tenant : sd_scope s = ScopeInstance <-> sd_tenant_id s = "";
  ss_scope_id : sd_scope s = BackupScopeHub \/ sd_scope s = BackupScopeCollection -> sd_scope_id s <> "";
  ss_rrule : sd_rrule s <> "" /\ TrimSpace (sd_rrule s) = sd_rrule s;
  ss_zone : sd_time_zone s <> "" /\ TrimSpace (sd_time_zone s) = sd_time_zone s;
  ss_mode : ModeValid (sd_mode s) = true;
  ss_notify : sd_notify_on s <> [] /\ Forall (fun n => NotificationValid n = true) (sd_notify_on s);
  ss_counts : Forall (fun pv => 0 <= pv.2) (retention_counts (sd_retention s));
  ss_floor : 1 <= MinKeep (sd_retention s)
}.

Lemma add_when_nil c path code : add_when c path code = [] <-> c = false.
Proof. by destruct c. Qed.

Lemma problems_nil counts r : problems_in counts r = [] <-> Forall (fun pv => 0 <= pv.2) counts /\ 1 <= MinKeep r.
Proof.
  unfold problems_in. set (found := _ ++ _). transitivity (found = []).
  { assert (Hp : sort_by by_path found ≡ₚ found) by (apply sort_by_perm; apply _).
    split; intros H; [rewrite H in Hp; by apply Permutation_nil|by rewrite H]. }
  unfold found. rewrite app_nil. split.
  - intros [H1 H2]. split; [|destruct (Z.ltb_spec (MinKeep r) 1); [done|lia]]. apply Forall_forall. intros pv Hpv.
    apply fmap_nil_inv in H1. destruct (Z.ltb_spec pv.2 0) as [Hlt|]; [|done].
    assert (Hin : In pv (List.filter (fun pv => pv.2 <? 0) counts)) by (apply filter_In; split; [by apply list_elem_of_In|by apply Z.ltb_lt]).
    by rewrite H1 in Hin.
  - intros [H1 H2]. split; [|destruct (Z.ltb_spec (MinKeep r) 1); [lia|done]]. induction H1 as [|pv counts Hpv _ IH]; [done|].
    cbn [List.filter]. destruct (Z.ltb_spec pv.2 0); [lia|done].
Qed.

(** The outcome does not depend on the order the map is walked in. *)
Lemma problems_order counts r : counts ≡ₚ retention_counts r -> problems_in counts r = problems r.
Proof.
  intros Hp. unfold problems, problems_in. cbv zeta. apply sort_by_same; [apply _| |by apply Permutation_app_tail, fmap_Permutation, filter_perm].
  rewrite fmap_app, <- list_fmap_compose. assert (Hnd : NoDup ((counts.*1) ++ ["/retention/min_keep"])).
  { rewrite Hp. apply (bool_decide_unpack (NoDup _)). vm_compute. done. }
  eapply sublist_NoDup; [exact Hnd|]. apply sublist_app; [|by destruct (_ <? _); [|apply sublist_nil_l]].
  change (fe_path ∘ (fun pv : string * Z => field pv.1 CodeRetentionNegative)) with (fun pv : string * Z => pv.1).
  apply fmap_sublist, filter_sublist.
Qed.

Lemma NewSchedule_sound in_ s : NewSchedule in_ = Ok s -> schedule_sound s.
Proof.
  unfold NewSchedule. destruct (schedule_problems in_) as [|f fs] eqn:E; [|done]. intros [= <-].
  unfold schedule_problems in E. rewrite !app_nil, !add_when_nil in E.
  destruct E as (H1 & H2 & H3 & H4 & H5 & H6 & H7 & H8 & H9 & H10).
  apply problems_nil in H10 as [Hc Hf]. unfold id_is_zero in *. apply negb_false_iff in H2, H8.
  split; cbn [sd_target_id sd_scope sd_tenant_id sd_scope_id sd_rrule sd_time_zone sd_mode sd_notify_on sd_retention].
  - by apply String.eqb_neq.
  - done.
  - destruct (String.eqb_spec (si_scope in_) ScopeInstance), (String.eqb_spec (si_tenant_id in_) ""); done.
  - intros H Hz. rewrite Hz in H5. destruct H as [H|H]; rewrite H in H5; done.
  - split; [by apply String.eqb_neq|apply TrimSpace_idem].
  - split; [by apply String.eqb_neq|apply TrimSpace_idem].
  - done.
  - destruct (si_notify_on in_) as [|n ns] eqn:En; [split; [done|by repeat constructor]|]. split; [done|].
    apply Forall_forall. intros x Hx. apply not_false_iff_true. intros Hv.
    assert (Hin : field "/notify_on" "backup.schedule_notification_invalid" ∈ []); [|by apply not_elem_of_nil in Hin].
    rewrite <- H9. apply list_elem_of_In, in_concat. eexists. split.
    + apply list_elem_of_In, (list_elem_of_fmap_2 (fun occasion => add_when (negb (NotificationValid occasion)) _ _) _ x Hx).
    + rewrite Hv. by left.
  - done.
  - done.
Qed.

(** ** Properties *)

(** C35.  What a plan keeps and deletes, with no reference to how it is counted:
    an archive stays exactly when a generation keeps it - it is among the last
    ones, or the newest of one of the most recent days, weeks, months or years
    -, when it is one of the newest that are missing to the floor, or when an
    archive that stays continues it, over any number of steps.  Everything else
    expires, oldest first; nothing is lost or made up, at least the floor stays
    while there are that many, and the report says truly whether the floor
    stopped it and which archives only a chain holds.  This does not depend on
    the order the map is walked in, nor on the order the archives came in. *)
Theorem retention_keeps_needed (order : nat -> gset ID -> list ID) (Hwalks : Walks order)
    (r : Retention) (archives : list Archive) (zone : option Location) (Hid : NoDup (ar_id <$> archives)) :
  let l := default UTC zone in
  let e := Apply order r archives zone in
  (forall a, a ∈ ex_keep e <-> needed r l archives a) /\
  (forall a, a ∈ ex_expire e <-> a ∈ archives /\ ~ needed r l archives a) /\
  ex_keep e ++ ex_expire e ≡ₚ archives /\
  StronglySorted (fun a b => newest_first a b = Lt) (ex_keep e) /\
  StronglySorted (fun a b => newest_first b a = Lt) (ex_expire e) /\
  Z.min (MinKeep r) (Z.of_nat (List.length archives)) <= Z.of_nat (List.length (ex_keep e)) /\
  (ex_floor_held e = true <-> exists a, a ∈ archives /\ by_floor r l archives a = true) /\
  (forall a, a ∈ ex_chain_held e <->
     needed r l archives a /\ by_generation r l archives a || by_floor r l archives a = false).
Proof.
  intros l. pose proof (Apply_shape order r archives zone Hid) as H. fold l in H. cbv zeta in H.
  pose proof (ordered_ok archives Hid) as Ho. cbv zeta in Ho. set (ordered := sort_by newest_first archives) in *.
  destruct Ho as (Hp & Hs & Hnd), H as (kept & held & -> & Hk & Hh & Hmin).
  cbn [ex_keep ex_expire ex_floor_held ex_chain_held]. set (stays := fun a => bool_decide (ar_id a ∈ kept)).
  refine (conj _ (conj _ (conj _ (conj _ (conj _ (conj _ (conj _ _))))))).
  - by apply stays_needed.
  - by apply goes_needed.
  - rewrite <- Permutation_rev. etransitivity; [apply filter_partition|exact Hp].
  - by apply sorted_filter.
  - apply sorted_rev. by apply sorted_filter.
  - etransitivity; [exact Hmin|]. apply inj_le. apply filter_length_le. intros a Ha HP. unfold stays.
    rewrite bool_decide_eq_true. apply Hk; [done|]. apply needed_kept; [by rewrite <- Hp|done].
  - rewrite (floor_held_spec r l ordered Hs Hnd).
    split; intros (a & Ha & HP); exists a; rewrite (by_floor_perm r l ordered archives a Hp) in *; by rewrite Hp in *.
  - intros a. rewrite find_held by done. split.
    + intros [Ha Hin]. by apply Hh.
    + intros [Ha HP]. assert (Hin : a ∈ ordered) by (rewrite Hp; by eapply needed_in). split; [done|]. by apply Hh.
Qed.

(** The pass that deletes touches an archive only when it is one of its own
    scope, complete, and neither kept nor continued by one that is kept - so
    wherever the pass stops, every archive that stays can still be restored
    through its whole chain.  And where nothing fails, everything that expires
    is gone. *)
Theorem expire_spares (order : nat -> gset ID -> list ID) (Hwalks : Walks order)
    (delete : string -> res unit) (mark : ID -> res unit) (plan : Retention) (scope : ID) (zone : option Location)
    (described : list Description) (Hid : NoDup (ar_id <$> (omap (counted scope) described).*2)) :
  let '(e, (touched, failed)) := Expire delete mark order plan scope zone described in
  (forall p, p ∈ touched -> exists d id, d ∈ described /\ dn_prefix d = p /\
     str_has_prefix (archive_prefix scope) p = true /\ dn_complete d = true /\ ParseID (dn_archive_id d) = Ok id /\
     forall a, a ∈ ex_keep e -> ar_id a <> id /\ ar_parent_id a <> id) /\
  ((forall p, delete p = Ok tt) -> (forall id, mark id = Ok tt) -> failed = None /\
     forall a, a ∈ ex_expire e -> exists d, d ∈ described /\ ParseID (dn_archive_id d) = Ok (ar_id a) /\ dn_prefix d ∈ touched).
Proof.
  unfold Expire. set (found := omap (counted scope) described) in *.
  set (archives := found.*2) in *. set (e := Apply order plan archives zone).
  pose proof (fun a => Apply_members order plan archives zone a Hid) as Hmem. cbv zeta in Hmem. fold e in Hmem.
  set (byPath := _ <$> found). destruct (delete_expired delete mark byPath (ex_expire e)) as [touched failed] eqn:E. split.
  - intros p Hp. assert (Hp' : p ∈ (delete_expired delete mark byPath (ex_expire e)).1) by (by rewrite E).
    apply delete_expired_touched in Hp' as (Hne & a & Ha & Hpath). apply (pathOf_found _ _ _ Hpath) in Hne.
    apply found_place in Hne as (d & b & Hd & Hc & Hb & Hin). apply counted_place in Hc as (H1 & H2 & H3 & H4 & _ & H6).
    rewrite Hb in H4, H6. apply Hmem in Ha as [Ha Hn]. exists d, (ar_id a). refine (conj Hd (conj H1 (conj H2 (conj H3 (conj H4 _))))).
    intros c Hc. apply Hmem in Hc. split; intros Heq; apply Hn.
    + by rewrite <- (same_id archives Hid c a (needed_in _ _ _ c Hc) Ha Heq).
    + by eapply needed_parent.
  - intros Hdel Hmark. rewrite (delete_expired_all _ _ _ _ Hdel Hmark) in E. injection E as <- <-. split; [done|].
    intros a Ha. pose proof Ha as [Hin _]%Hmem. assert (Hknown : (pathOf byPath (ar_id a), ar_id a) ∈ byPath).
    { apply pathOf_known. unfold byPath. rewrite <- list_fmap_compose. unfold archives in Hin. apply list_elem_of_fmap in Hin as (place & -> & Hpl).
      by apply (list_elem_of_fmap_2 (snd ∘ (fun place => (place.1, ar_id place.2)))). }
    apply found_place in Hknown as (d & b & Hd & Hc & Hb & _). apply counted_place in Hc as (H1 & H2 & H3 & H4 & H5 & _).
    exists d. split; [done|]. split; [congruence|]. rewrite H1. apply list_elem_of_In, filter_In. split.
    + apply list_elem_of_In. by apply (list_elem_of_fmap_2 (fun a => pathOf byPath (ar_id a))).
    + apply negb_true_iff. by apply String.eqb_neq.
Qed.

(** A schedule is made exactly when every check passes, and then it is
    sound - a known scope with a workspace and a place where it needs them, a
    rule and a zone, a known mode and occasions, a plan without negative counts
    and with a floor -; a refusal names every problem there is, the plan's in
    one order whatever the order the map is walked in.  And the plan of a
    schedule never empties a target. *)
Theorem schedule_checked (in_ : NewScheduleInput) :
  (forall s, NewSchedule in_ = Ok s -> schedule_sound s) /\
  (forall e, NewSchedule in_ = Err e ->
     e = WithFields (WithDetail ErrValidation CodeScheduleInvalid) (schedule_problems in_) /\ schedule_problems in_ <> []) /\
  (forall counts, counts ≡ₚ retention_counts (si_retention in_) -> problems_in counts (si_retention in_) = problems (si_retention in_)) /\
  (forall s order archives zone, NewSchedule in_ = Ok s -> Walks order -> NoDup (ar_id <$> archives) -> archives <> [] ->
     ex_keep (Apply order (sd_retention s) archives zone) <> []).
Proof.
  assert (Hsound : forall s, NewSchedule in_ = Ok s -> schedule_sound s) by apply NewSchedule_sound.
  split; [done|]. split; [|split; [intros counts; apply problems_order|]].
  - intros e. unfold NewSchedule. destruct (schedule_problems in_); [done|]. by intros [= <-].
  - intros s order archives zone Hs Hw Hid Hne Hk. pose proof (ss_floor s (Hsound s Hs)) as Hfloor.
    destruct (Apply_shape order (sd_retention s) archives zone Hid) as (kept & held & He & Hkept & _ & Hmin).
    pose proof (ordered_ok archives Hid) as (Hp & _). rewrite He in Hk. cbn [ex_keep] in Hk.
    assert (Hle : (List.length (List.filter (fun a => by_generation (sd_retention s) (default UTC zone) archives a ||
        by_floor (sd_retention s) (default UTC zone) archives a) (sort_by newest_first archives)) <= 0)%nat).
    { etransitivity; [apply (filter_length_le _ (fun a => bool_decide (ar_id a ∈ kept)))|by rewrite Hk].
      intros a Ha HP. rewrite bool_decide_eq_true. apply Hkept; [done|]. apply needed_kept; [by rewrite <- Hp|done]. }
    destruct archives; [done|]. cbn [List.length] in Hmin. lia.
Qed.

(** *** A target with a chain *)

(** Full archives on two Sundays and increments on the nights after them. *)
Definition night (day : Z) : Time := go_date UTC 2026 3 day 3 0 0 0.
Definition target : list Archive :=
  [mkArchive "f1" (night 1) ModeFull ""; mkArchive "i2" (night 2) ModeIncremental "f1"; mkArchive "i3" (night 3) ModeIncremental "i2";
   mkArchive "f8" (night 8) ModeFull ""; mkArchive "i9" (night 9) ModeIncremental "f8"; mkArchive "i10" (night 10) ModeIncremental "i9"].

Definition in_order_of_keys (_ : nat) (kept : gset ID) : list ID := elements kept.

(** The last one, and the last one of each of three weeks: weeks end on Sunday,
    so both full archives are, and the increment of Monday stays only because
    Tuesday's continues it. *)
Definition three_weeks : Retention := mkRetention 1 0 3 0 0 1.
Example three_weeks_kept :
  (ar_id <$> ex_keep (Apply in_order_of_keys three_weeks target None),
   ar_id <$> ex_expire (Apply in_order_of_keys three_weeks target None),
   ar_id <$> ex_chain_held (Apply in_order_of_keys three_weeks target None)) =
  (["i10"; "i9"; "f8"; "f1"], ["i2"; "i3"], ["i9"]).
Proof. vm_compute. reflexivity. Qed.

Lemma target_ids : NoDup (ar_id <$> target).
Proof. apply (bool_decide_unpack (NoDup _)). vm_compute. done. Qed.

Lemma retention_keeps_needed_witness :
  Forall (fun a => a ∈ ex_keep (Apply in_order_of_keys three_weeks target None) <-> needed three_weeks UTC target a) target.
Proof.
  apply Forall_forall. intros a _.
  apply (retention_keeps_needed in_order_of_keys walk_elements three_weeks target None target_ids).
Defined.

(** The same as a listing of the target, with a stranger's archive and one that
    is not complete. *)
Definition uuid (n : string) : string := "01890a5d-ac96-774b-bcce-b302099a80" +:+ n.
Definition described (scope n parent : string) (complete : bool) (day : Z) : Description :=
  mkDescription (archive_prefix scope +:+ n) complete (uuid n) parent (night day) (if String.eqb parent "" then ModeFull else ModeIncremental).
Definition listing : list Description :=
  [described "w1" "01" "" true 1; described "w1" "02" (uuid "01") true 2; described "w2" "03" "" true 3;
   described "w1" "04" "" false 4; described "w1" "08" "" true 8; described "w1" "09" (uuid "08") true 9].

Definition never_fails (_ : string) : res unit := Ok tt.

Example listing_deleted :
  (Expire never_fails never_fails in_order_of_keys three_weeks "w1" None listing).2 = (["hubtask-backup-w1-02"], None).
Proof. vm_compute. reflexivity. Qed.

Lemma listing_ids : NoDup (ar_id <$> (omap (counted "w1") listing).*2).
Proof. apply (bool_decide_unpack (NoDup _)). vm_compute. done. Qed.

Lemma expire_spares_witness :
  Forall (fun p => exists d, d ∈ listing /\ dn_prefix d = p /\ dn_complete d = true)
    (Expire never_fails never_fails in_order_of_keys three_weeks "w1" None listing).2.1.
Proof.
  pose proof (expire_spares in_order_of_keys walk_elements never_fails never_fails three_weeks "w1" None listing listing_ids) as H.
  destruct (Expire _ _ _ _ _ _ _) as [e [touched failed]]. destruct H as [H _].
  apply Forall_forall. intros p Hp.
  destruct (H p Hp) as (d & id & Hd & He & _ & Hc & _). exists d. repeat split; assumption.
Defined.
