(* ===== verification/Planning.v ===== *)
(** * Plans: scheduling along dependencies

    Models core/domain/model/planning/Schedule.go whole: the timings of
    dependencies, the axis of working days, the tasks of a plan, the order of
    their dependencies, the forward pass that places what may be moved, the
    roll-up of parents, the backward pass that measures floats, and the
    arithmetic of working days.  A calendar is the interface the source asks
    for, the days it works on; [Calendar.WorksOn] is one. *)

From Stdlib Require Import ZArith Lia String Ascii List Bool.
From stdpp Require Import base option list strings gmap.
From S2P Require Import Prelude Shared Hlc Civil.

Open Scope string_scope.
Open Scope list_scope.
Open Scope Z_scope.

(** ** Timings *)

Definition Manual : string := "MANUAL".
Definition Automatic : string := "AUTOMATIC".
Definition PlanModeValid (m : string) : bool := String.eqb m Manual || String.eqb m Automatic.

Definition FinishToStart : string := "FS".
Definition StartToStart : string := "SS".
Definition FinishToFinish : string := "FF".
Definition StartToFinish : string := "SF".
Definition KindValid_ (k : string) : bool :=
  String.eqb k FinishToStart || String.eqb k StartToStart || String.eqb k FinishToFinish || String.eqb k StartToFinish.

Definition MaxLagDays : Z := 999.
Definition MaxEntries : Z := 2000.
Definition maxReachDays : Z := 40 * 366.
Definition backwardRoom : Z := 3 * 366.
Definition minPlanLength : Z := 1.

Record Timing := mkTiming { tg_kind : string; tg_lag : Z }.

Definition invalid (path code : string) : Error := WithFields (WithDetail ErrValidation code) [mkFieldError path code []].

Definition NewTiming (kind : string) (lagDays : Z) : res Timing :=
  let kind := if String.eqb kind "" then FinishToStart else kind in
  if negb (KindValid_ kind) then Err (invalid "/dependency_kind" "planning.dependency_kind_unknown")
  else if (lagDays <? - MaxLagDays) || (MaxLagDays <? lagDays) then
    Err (WithFields (WithParams (WithDetail ErrValidation "planning.lag_out_of_range") [("maximum", itoa MaxLagDays)])
           [mkFieldError "/lag_days" "planning.lag_out_of_range" []])
  else Ok (mkTiming kind lagDays).

(** ** Days *)

(** A day is its count from 1970-01-01. *)
Definition DayFrom (year month day : Z) : Z := date_days year month day.
Definition DayOf (at_ : Time) (zone : Location) : Z := let '(y, m, d) := date_in zone at_ in DayFrom y m d.
Definition day_date (d : Z) : Z * Z * Z := civil_from_days d.
Definition day_in (d : Z) (zone : Location) : Time := let '(y, m, day) := day_date d in go_date zone y m day 0 0 0 0.

(** The interface [Workdays]. *)
Definition Workdays : Type := Z -> Z -> Z -> bool.
Definition works_on (calendar : Workdays) (d : Z) : bool := let '(y, m, day) := day_date d in calendar y m day.

(** ** Plans *)

Record Entry := mkEntry {
  en_id : ID; en_parent_id : ID; en_mode : string; en_milestone : bool; en_done : bool;
  en_start : option Z; en_finish : option Z
}.

Record Dependency := mkDependency { dp_predecessor : ID; dp_successor : ID; dp_timing : Timing }.

Record Plan := mkPlan { pl_entries : list Entry; pl_dependencies : list Dependency; pl_calendar : option Workdays }.

Record Placement := mkPlacement {
  pm_id : ID; pm_start : Z; pm_finish : Z; pm_duration : Z; pm_moved : bool;
  pm_total_float : Z; pm_free_float : Z; pm_critical : bool; pm_summary : bool
}.

Record Conflict := mkConflict { cf_predecessor : ID; cf_successor : ID; cf_kind : string; cf_earliest : Z }.

Record Result := mkResult {
  rs_placements : list Placement; rs_unscheduled : list ID; rs_conflicts : list Conflict;
  rs_finish : Z; rs_critical_path : list ID
}.

Definition Moves (r : Result) : list Placement := List.filter pm_moved (rs_placements r).

(** ** The axis *)

Definition too_far {A} : res A := Err (WithDetail ErrValidation "planning.too_far").

(** [axis.day] with the days found so far: it looks at the next day until there
    are enough, and no further than the reach from the origin. *)
Fixpoint grow (fuel : nat) (calendar : Workdays) (days : list Z) (next i : Z) : res (list Z) :=
  if Z.of_nat (List.length days) <=? i then
    match fuel with
    | O => too_far
    | S fuel' => grow fuel' calendar (if works_on calendar next then days ++ [next] else days) (next + 1) i
    end
  else Ok days.

Definition grown_day (calendar : Workdays) (origin : Z) (days : list Z) (i : Z) : res (Z * list Z) :=
  if i <? 0 then too_far
  else
    let next := match last days with Some d => d + 1 | None => origin end in
    days ← grow (Z.to_nat (maxReachDays + 1 - (next - origin))) calendar days next i;
    day ← at_index days i; Ok (day, days).

(** All days the axis can ever hold, in order. *)
Definition reach (calendar : Workdays) (from : Z) (n : nat) : list Z :=
  List.filter (works_on calendar) ((fun k => from + Z.of_nat k) <$> seq 0 n).
Definition axis (calendar : Workdays) (origin : Z) : list Z := reach calendar origin (Z.to_nat (maxReachDays + 1)).

(** [axis.day], [atOrAfter] and [atOrBefore] on it; [grown_day_axis] says that
    the days found so far make no difference. *)
Definition axis_day (days : list Z) (i : Z) : res Z :=
  if i <? 0 then too_far else match days !! Z.to_nat i with Some d => Ok d | None => too_far end.

Fixpoint at_or_after_from (i : Z) (days : list Z) (target : Z) : res Z :=
  match days with
  | [] => too_far
  | d :: rest => if target <=? d then Ok i else at_or_after_from (i + 1) rest target
  end.
Definition atOrAfter (days : list Z) (target : Z) : res Z := at_or_after_from 0 days target.

Definition atOrBefore (days : list Z) (target : Z) : res Z :=
  i ← atOrAfter days target;
  match axis_day days i with
  | Ok day => if target <? day then Ok (i - 1) else Ok i
  | _ => Ok i
  end.

(** ** Tasks *)

Record task := mkTask {
  tk_entry : Entry; tk_s : Z; tk_e : Z; tk_d : Z; tk_ls : Z; tk_le : Z;
  tk_preds : list nat; tk_succs : list nat; tk_summary : bool; tk_original_start : Z; tk_original_end : Z
}.

Definition with_early (t : task) (s e d : Z) : task :=
  mkTask (tk_entry t) s e d (tk_ls t) (tk_le t) (tk_preds t) (tk_succs t) (tk_summary t) (tk_original_start t) (tk_original_end t).
Definition with_late (t : task) (ls le : Z) : task :=
  mkTask (tk_entry t) (tk_s t) (tk_e t) (tk_d t) ls le (tk_preds t) (tk_succs t) (tk_summary t) (tk_original_start t) (tk_original_end t).
Definition with_pred (k : nat) (t : task) : task :=
  mkTask (tk_entry t) (tk_s t) (tk_e t) (tk_d t) (tk_ls t) (tk_le t) (tk_preds t ++ [k]) (tk_succs t) (tk_summary t) (tk_original_start t) (tk_original_end t).
Definition with_succ (k : nat) (t : task) : task :=
  mkTask (tk_entry t) (tk_s t) (tk_e t) (tk_d t) (tk_ls t) (tk_le t) (tk_preds t) (tk_succs t ++ [k]) (tk_summary t) (tk_original_start t) (tk_original_end t).

(** The dates an entry is read with; [None] for one without. *)
Definition dates (entry : Entry) : option (Z * Z) :=
  match en_start entry, en_finish entry with
  | None, None => None
  | start, finish =>
      let start := default (default 0 finish) start in
      let finish := match finish with Some f => if f <? start then start else f | None => start end in
      Some (if en_milestone entry then finish else start, finish)
  end.

Definition parents_of (entries : list Entry) : gset ID :=
  list_to_set (en_parent_id <$> List.filter (fun entry => negb (id_is_zero (en_parent_id entry))) entries).

(** The first loop: the index, the tasks, the unscheduled and the earliest date. *)
Definition read_entry (parents : gset ID) (state : gmap ID nat * list task * list ID * option Z) (entry : Entry) :=
  let '(index, tasks, unscheduled, origin) := state in
  match index !! en_id entry with
  | Some _ => state
  | None =>
      match dates entry with
      | None => (index, tasks, unscheduled ++ [en_id entry], origin)
      | Some (start, finish) =>
          (<[ en_id entry := List.length tasks ]> index,
           tasks ++ [mkTask entry 0 0 0 0 0 [] [] (bool_decide (en_id entry ∈ parents)) start finish],
           unscheduled,
           Some (match origin with Some o => if start <? o then start else o | None => start end))
      end
  end.

(** The second: where a task lies on the axis. *)
Definition place (days : list Z) (t : task) : res task :=
  s ← atOrAfter days (tk_original_start t);
  last ← atOrBefore days (tk_original_end t);
  let '(s, d) := if en_milestone (tk_entry t) then (last + 1, 0) else (s, Z.max (last - s + 1) minPlanLength) in
  Ok (with_early t s (s + d) d).

Fixpoint map_result {A B} (f : A -> res B) (xs : list A) : res (list B) :=
  match xs with
  | [] => Ok []
  | x :: rest => y ← f x; ys ← map_result f rest; Ok (y :: ys)
  end.

(** The third: the dependencies that are scheduled. *)
Definition is_summary (tasks : list task) (i : nat) : bool :=
  match tasks !! i with Some t => tk_summary t | None => false end.

Definition add_dependency (index : gmap ID nat) (state : list task * list Dependency) (dep : Dependency) : list task * list Dependency :=
  let '(tasks, deps) := state in
  match index !! dp_predecessor dep, index !! dp_successor dep with
  | Some p, Some s =>
      if Nat.eqb p s || is_summary tasks p || is_summary tasks s then state
      else
        let kind := if String.eqb (tg_kind (dp_timing dep)) "" then FinishToStart else tg_kind (dp_timing dep) in
        let dep := mkDependency (dp_predecessor dep) (dp_successor dep) (mkTiming kind (tg_lag (dp_timing dep))) in
        let k := List.length deps in
        (alter (with_pred k) s (alter (with_succ k) p tasks), deps ++ [dep])
  | _, _ => state
  end.

(** ** The order of the dependencies *)

(** The graph a run works on: [deps] and the index its identities resolve in.
    The positions a task holds in [deps] are in range ([graph_ok]), and so are
    those of its ends. *)
Record graph := mkGraph { gr_index : gmap ID nat; gr_deps : list Dependency }.

Definition zero_dependency : Dependency := mkDependency "" "" (mkTiming "" 0).
Definition dependency (g : graph) (k : nat) : Dependency := default zero_dependency (gr_deps g !! k).
Definition pred_of (g : graph) (k : nat) : nat := default 0%nat (gr_index g !! dp_predecessor (dependency g k)).
Definition succ_of (g : graph) (k : nat) : nat := default 0%nat (gr_index g !! dp_successor (dependency g k)).

Definition zero_task : task := mkTask (mkEntry "" "" "" false false None None) 0 0 0 0 0 [] [] false 0 0.
Definition task_at (tasks : list task) (i : nat) : task := default zero_task (tasks !! i).

(** One dependency of an entry that comes out of the queue. *)
Definition release (g : graph) (state : list Z * list nat) (k : nat) : list Z * list nat :=
  let '(waiting, queue) := state in
  let s := succ_of g k in
  let left_ := default 0 (waiting !! s) - 1 in
  (<[ s := left_ ]> waiting, if left_ =? 0 then queue ++ [s] else queue).

(** The loop, a turn per entry taken out. *)
Fixpoint drain (fuel : nat) (g : graph) (tasks : list task) (waiting : list Z) (queue order : list nat) : res (list nat) :=
  match queue with
  | [] => Ok order
  | i :: queue =>
      match fuel with
      | O => Panic
      | S fuel' =>
          let '(waiting, queue) := fold_left (release g) (tk_succs (task_at tasks i)) (waiting, queue) in
          drain fuel' g tasks waiting queue (order ++ [i])
      end
  end.

Definition topological (tasks : list task) (g : graph) : res (list nat) :=
  let waiting := (fun t => Z.of_nat (List.length (tk_preds t))) <$> tasks in
  let queue := List.filter (fun i => default 0 (waiting !! i) =? 0) (seq 0 (List.length tasks)) in
  order ← drain (List.length tasks) g tasks waiting queue [];
  if Nat.eqb (List.length order) (List.length tasks) then Ok order
  else Err (WithDetail ErrConflict "planning.cycle").

(** ** The forward pass *)

Definition earliestStart (pred succ : task) (timing : Timing) : Z :=
  if String.eqb (tg_kind timing) StartToStart then tk_s pred + tg_lag timing
  else if String.eqb (tg_kind timing) FinishToFinish then tk_e pred + tg_lag timing - tk_d succ
  else if String.eqb (tg_kind timing) StartToFinish then tk_s pred + tg_lag timing - tk_d succ
  else tk_e pred + tg_lag timing.

Definition need (g : graph) (tasks : list task) (t : task) (k : nat) : Z :=
  earliestStart (task_at tasks (pred_of g k)) t (dp_timing (dependency g k)).

Definition largest (acc : option Z) (n : Z) : option Z :=
  match acc with None => Some n | Some e => Some (if e <? n then n else e) end.

Definition movable (t : task) : bool := String.eqb (en_mode (tk_entry t)) Automatic && negb (en_done (tk_entry t)) && negb (tk_summary t).

(** The conflicts of a task that stays before what its predecessors allow. *)
Definition conflict (g : graph) (days : list Z) (tasks : list task) (t : task) (found : list Conflict) (k : nat) : res (list Conflict) :=
  let dep := dependency g k in
  let need := need g tasks t k in
  if need <=? tk_s t then Ok found
  else
    let at_ := if String.eqb (tg_kind (dp_timing dep)) FinishToFinish || String.eqb (tg_kind (dp_timing dep)) StartToFinish
               then need + tk_d t - 1 else need in
    day ← axis_day days (Z.max at_ 0);
    Ok (found ++ [mkConflict (dp_predecessor dep) (dp_successor dep) (tg_kind (dp_timing dep)) day]).

Definition forward (g : graph) (days : list Z) (state : list task * list Conflict) (i : nat) : res (list task * list Conflict) :=
  let '(tasks, conflicts) := state in
  let t := task_at tasks i in
  match fold_left largest (need g tasks t <$> tk_preds t) None with
  | None => Ok state
  | Some earliest =>
      if movable t then Ok (<[ i := with_early t earliest (earliest + tk_d t) (tk_d t) ]> tasks, conflicts)
      else if tk_s t <? earliest then
        conflicts ← fold_result (conflict g days tasks t) conflicts (tk_preds t);
        Ok (tasks, conflicts)
      else Ok state
  end.

(** ** The roll-up *)

(** What the scheduled children of a task span. *)
Definition span_child (index : gmap ID nat) (parent : ID) (span : option (Z * Z)) (child : task) : option (Z * Z) :=
  if negb (String.eqb (en_parent_id (tk_entry child)) parent) then span
  else match index !! en_id (tk_entry child) with
       | None => span
       | Some _ =>
           match span with
           | None => Some (tk_s child, tk_e child)
           | Some (s, e) => Some (if tk_s child <? s then tk_s child else s, if e <? tk_e child then tk_e child else e)
           end
       end.
Definition span_of (index : gmap ID nat) (tasks : list task) (t : task) : option (Z * Z) :=
  fold_left (span_child index (en_id (tk_entry t))) tasks None.

Definition roll_task (index : gmap ID nat) (state : list task * bool) (i : nat) : list task * bool :=
  let '(tasks, changed) := state in
  let t := task_at tasks i in
  if negb (tk_summary t) then state
  else match span_of index tasks t with
       | None => state
       | Some (s, e) =>
           if (negb (tk_s t =? s) || negb (tk_e t =? e)) && String.eqb (en_mode (tk_entry t)) Automatic && negb (en_done (tk_entry t))
           then (<[ i := with_early t s e (e - s) ]> tasks, true)
           else state
       end.

Fixpoint roll_rounds (rounds : nat) (index : gmap ID nat) (tasks : list task) : list task :=
  match rounds with
  | O => tasks
  | S rounds' =>
      let '(tasks, changed) := fold_left (roll_task index) (seq 0 (List.length tasks)) (tasks, false) in
      if changed then roll_rounds rounds' index tasks else tasks
  end.
Definition rollUp (tasks : list task) (index : gmap ID nat) : list task := roll_rounds (List.length tasks) index tasks.

(** ** The backward pass *)

Definition latestEnd (pred succ : task) (timing : Timing) : Z :=
  if String.eqb (tg_kind timing) StartToStart then tk_ls succ - tg_lag timing + tk_d pred
  else if String.eqb (tg_kind timing) FinishToFinish then tk_le succ - tg_lag timing
  else if String.eqb (tg_kind timing) StartToFinish then tk_le succ - tg_lag timing + tk_d pred
  else tk_ls succ - tg_lag timing.

Definition slack (pred succ : task) (timing : Timing) : Z := tk_s succ - earliestStart pred succ timing.

Definition plan_end (tasks : list task) : Z := fold_left (fun end_ t => Z.max end_ (tk_e t)) tasks (tk_e (task_at tasks 0)).

Definition backward (g : graph) (end_ : Z) (tasks : list task) (i : nat) : list task :=
  let t := task_at tasks i in
  let le := fold_left (fun le k => Z.min le (latestEnd t (task_at tasks (succ_of g k)) (dp_timing (dependency g k)))) (tk_succs t) end_ in
  <[ i := with_late t (le - tk_d t) le ]> tasks.

(** ** The answer *)

Definition placement_of (g : graph) (days : list Z) (end_ : Z) (tasks : list task) (t : task) : res Placement :=
  start ← axis_day days (tk_s t);
  '(start, finish) ← (if 0 <? tk_d t then finish ← axis_day days (tk_e t - 1); Ok (start, finish)
                      else finish ← axis_day days (tk_s t - 1); Ok (finish, finish));
  let free := fold_left (fun free k => Z.min free (slack t (task_at tasks (succ_of g k)) (dp_timing (dependency g k)))) (tk_succs t) (end_ - tk_e t) in
  let total := tk_ls t - tk_s t in
  let moved := negb (start =? tk_original_start t) || negb (finish =? tk_original_end t) in
  Ok (mkPlacement (en_id (tk_entry t)) start finish (tk_d t)
        (moved && String.eqb (en_mode (tk_entry t)) Automatic && negb (en_done (tk_entry t)))
        total free ((total <=? 0) && negb (tk_summary t)) (tk_summary t)).

Definition by_start (a b : Placement) : comparison := Z.compare (pm_start a) (pm_start b).
Definition critical_path (placements : list Placement) : list ID :=
  pm_id <$> List.filter pm_critical (sort_by by_start placements).

(** What the first loops make of a plan: the graph, its tasks, its axis. *)
Definition read_plan (entries : list Entry) : gmap ID nat * list task * list ID * option Z :=
  fold_left (read_entry (parents_of entries)) entries (∅, [], [], None).

Definition schedule_tasks (g : graph) (days : list Z) (tasks : list task) : res (list task * list Conflict * Z) :=
  order ← topological tasks g;
  '(tasks, conflicts) ← fold_result (forward g days) (tasks, []) order;
  let tasks := rollUp tasks (gr_index g) in
  let end_ := plan_end tasks in
  Ok (fold_left (backward g end_) (rev order) tasks, conflicts, end_).

(** What the run schedules: the graph, the axis and the tasks where their entries
    have them. *)
Definition prepare (calendar : Workdays) (entries : list Entry) (dependencies : list Dependency) : res (option (graph * list Z * list task)) :=
  let '(index, tasks, unscheduled, origin) := read_plan entries in
  match origin with
  | None => Ok None
  | Some origin =>
      let days := axis calendar (origin - backwardRoom) in
      tasks ← map_result (place days) tasks;
      let '(tasks, deps) := fold_left (add_dependency index) dependencies (tasks, []) in
      Ok (Some (mkGraph index deps, days, tasks))
  end.

Definition answer (g : graph) (days : list Z) (unscheduled : list ID) (tasks : list task) (conflicts : list Conflict) (end_ : Z) : res Result :=
  placements ← map_result (placement_of g days end_ tasks) tasks;
  finish ← axis_day days (end_ - 1);
  Ok (mkResult placements unscheduled conflicts finish (critical_path placements)).

Definition unscheduled_of (entries : list Entry) : list ID := (read_plan entries).1.2.

Definition Schedule (plan : Plan) : res Result :=
  if MaxEntries <? Z.of_nat (List.length (pl_entries plan)) then
    Err (WithParams (WithDetail ErrValidation "planning.too_many_entries") [("maximum", itoa MaxEntries)])
  else
    match pl_calendar plan with
    | None => Err (WithDetail ErrInternal "planning.calendar_missing")
    | Some calendar =>
        prepared ← prepare calendar (pl_entries plan) (pl_dependencies plan);
        match prepared with
        | None => Ok (mkResult [] (unscheduled_of (pl_entries plan)) [] 0 [])
        | Some (g, days, tasks) =>
            '(tasks, conflicts, end_) ← schedule_tasks g days tasks;
            answer g days (unscheduled_of (pl_entries plan)) tasks conflicts end_
        end
    end.

(** ** Working days *)

Definition AddWorkdays (calendar : Workdays) (from n : Z) : res Z :=
  if (n <? - maxReachDays) || (maxReachDays <? n) then too_far
  else
    let days := axis calendar (from - backwardRoom - Z.max (- n) 0 * 2) in
    i ← atOrAfter days from;
    axis_day days (i + n).

Definition WorkdaysBetween (calendar : Workdays) (from to : Z) : res Z :=
  if to <? from then Ok 0
  else if maxReachDays <? to - from then too_far
  else Ok (Z.of_nat (List.length (reach calendar from (Z.to_nat (to - from + 1))))).

(** ** The axis, grown and whole *)

Section Axis.
Context (calendar : Workdays).

Lemma reach_app from a b : reach calendar from (a + b) = reach calendar from a ++ reach calendar (from + Z.of_nat a) b.
Proof.
  unfold reach. rewrite seq_app, fmap_app, List.filter_app. f_equal. f_equal. replace (0 + a)%nat with (a + 0)%nat by lia.
  rewrite <- fmap_add_seq, <- list_fmap_compose. apply list_fmap_ext. intros i x _. cbn. lia.
Qed.

Lemma reach_one from : reach calendar from 1 = if works_on calendar from then [from] else [].
Proof. unfold reach. cbn. rewrite Z.add_0_r. by destruct (works_on calendar from). Qed.

Lemma reach_S from n : reach calendar from (S n) =
  reach calendar from n ++ (if works_on calendar (from + Z.of_nat n) then [from + Z.of_nat n] else []).
Proof. by rewrite <- Nat.add_1_r, reach_app, reach_one. Qed.

(** Where the axis goes on: the day after the last one it holds. *)
Definition next_day (origin : Z) (days : list Z) : Z := match last days with Some d => d + 1 | None => origin end.

Lemma reach_next origin n : exists k, (k <= n)%nat /\ next_day origin (reach calendar origin n) = origin + Z.of_nat k /\
  reach calendar origin k = reach calendar origin n.
Proof.
  induction n as [|n IH]; [exists 0%nat; unfold next_day; cbn; repeat split; lia|]. destruct (works_on calendar (origin + Z.of_nat n)) eqn:E.
  - exists (S n). rewrite reach_S, E. unfold next_day. rewrite last_snoc. repeat split; lia.
  - rewrite reach_S, E, app_nil_r. destruct IH as (k & Hk & Hn & Hr). exists k. repeat split; [lia|done|done].
Qed.

Lemma grow_spec origin fuel : forall k i, 
  match grow fuel calendar (reach calendar origin k) (origin + Z.of_nat k) i with
  | Ok days => exists k', (k' <= k + fuel)%nat /\ days = reach calendar origin k' /\ i < Z.of_nat (List.length days)
  | Err e => e = WithDetail ErrValidation "planning.too_far" /\ Z.of_nat (List.length (reach calendar origin (k + fuel))) <= i
  | Panic => False
  end.
Proof.
  induction fuel as [|fuel IH]; intros k i; cbn [grow]; destruct (Z.leb_spec (Z.of_nat (List.length (reach calendar origin k))) i) as [Hle|Hgt];
    try (exists k; repeat split; lia); [split; [done|by rewrite Nat.add_0_r]|].
  specialize (IH (S k) i). rewrite reach_S in IH. replace (origin + Z.of_nat (S k)) with (origin + Z.of_nat k + 1) in IH by lia.
  replace (S k + fuel)%nat with (k + S fuel)%nat in IH by lia. destruct (works_on calendar (origin + Z.of_nat k)); [done|]. by rewrite app_nil_r in IH.
Qed.

(** Whatever the axis has grown to, the day at an index is the one of the whole
    axis. *)
Lemma grown_day_axis origin n i : (n <= Z.to_nat (maxReachDays + 1))%nat ->
  match grown_day calendar origin (reach calendar origin n) i with
  | Ok (day, days) => axis_day (axis calendar origin) i = Ok day /\
      exists k, (k <= Z.to_nat (maxReachDays + 1))%nat /\ days = reach calendar origin k
  | Err e => axis_day (axis calendar origin) i = Err e
  | Panic => False
  end.
Proof.
  intros Hn. unfold grown_day, axis_day, too_far. destruct (Z.ltb_spec i 0) as [|Hi]; [done|]. fold (next_day origin (reach calendar origin n)).
  destruct (reach_next origin n) as (k & Hk & -> & Hr). rewrite <- Hr.
  replace (maxReachDays + 1 - (origin + Z.of_nat k - origin)) with (maxReachDays + 1 - Z.of_nat k) by lia.
  set (fuel := Z.to_nat (maxReachDays + 1 - Z.of_nat k)). assert (Hfuel : (k + fuel)%nat = Z.to_nat (maxReachDays + 1)) by (subst fuel; lia).
  pose proof (grow_spec origin fuel k i) as H. destruct (grow fuel calendar _ _ i) as [days|e|]; cbn [mbind result_bind]; [|destruct H as [-> H]|done].
  - destruct H as (k' & Hk' & -> & Hlt). rewrite Hfuel in Hk'. unfold axis.
    assert (Hsplit : Z.to_nat (maxReachDays + 1) = (k' + (Z.to_nat (maxReachDays + 1) - k'))%nat) by lia. rewrite Hsplit, reach_app.
    unfold at_index. destruct (Z.ltb_spec i 0); [lia|]. destruct (lookup_lt_is_Some_2 (reach calendar origin k') (Z.to_nat i)) as [day Hd]; [lia|].
    rewrite Hd. cbn [mbind result_bind]. rewrite lookup_app_l by lia. rewrite Hd. split; [done|]. exists k'. split; [lia|done].
  - unfold axis. rewrite Hfuel in H. destruct (reach calendar origin _ !! Z.to_nat i) eqn:E; [|done]. apply lookup_lt_Some in E. lia.
Qed.

(** A day of the axis, found at an index, stands after as many days. *)
Lemma reach_lookup from N : forall j d, reach calendar from N !! j = Some d ->
  exists k, (k < N)%nat /\ d = from + Z.of_nat k /\ works_on calendar d = true /\ j = List.length (reach calendar from k).
Proof.
  induction N as [|N IH]; intros j d H; [done|]. rewrite reach_S in H. apply lookup_app_Some in H as [H|[Hj H]].
  - destruct (IH j d H) as (k & Hk & Hr). exists k. split; [lia|done].
  - destruct (works_on calendar (from + Z.of_nat N)) eqn:E; [|done]. destruct (j - _)%nat eqn:Ej in H; [|done]. injection H as <-.
    exists N. repeat split; [lia|done|lia].
Qed.

Lemma reach_before from k d : d ∈ reach calendar from k -> d < from + Z.of_nat k.
Proof.
  unfold reach. rewrite list_elem_of_In, filter_In, <- list_elem_of_In. intros [(j & -> & Hj)%list_elem_of_fmap _].
  apply list_elem_of_In, in_seq in Hj. lia.
Qed.

Lemma at_or_after_spec days target : forall i j, at_or_after_from i days target = Ok j ->
  exists k d, j = i + Z.of_nat k /\ days !! k = Some d /\ target <= d /\ Forall (fun x => x < target) (firstn k days).
Proof.
  induction days as [|d days IH]; intros i j H; cbn in H; [done|]. destruct (Z.leb_spec target d) as [Hle|Hlt].
  - injection H as <-. exists 0%nat, d. cbn. repeat split; [lia|done|constructor].
  - destruct (IH _ _ H) as (k & d' & -> & Hd & Ht & Hf). exists (S k), d'. cbn. repeat split; [lia|done|done|by constructor].
Qed.

(** The index of a working day of the axis is the number of days before it. *)
Lemma index_of_day origin N from i : (0 <= from - origin < Z.of_nat N) -> works_on calendar from = true ->
  at_or_after_from 0 (reach calendar origin N) from = Ok i ->
  i = Z.of_nat (List.length (reach calendar origin (Z.to_nat (from - origin)))).
Proof.
  intros Hr Hw H. destruct (at_or_after_spec _ _ _ _ H) as (k & d & -> & Hd & Hle & Hf). set (j := Z.to_nat (from - origin)).
  assert (Hsplit : reach calendar origin N = reach calendar origin j ++ from :: reach calendar (from + 1) (N - S j)).
  { replace N with (j + (1 + (N - S j)))%nat at 1 by lia. rewrite !reach_app, reach_one. replace (origin + Z.of_nat j) with from by lia. rewrite Hw. cbn [app].
    by do 3 f_equal. }
  assert (Hfrom : reach calendar origin N !! List.length (reach calendar origin j) = Some from) by (rewrite Hsplit; by rewrite list_lookup_middle).
  destruct (Nat.lt_trichotomy k (List.length (reach calendar origin j))) as [Hk|[Hk|Hk]].
  - exfalso. rewrite Hsplit, lookup_app_l in Hd by done. apply list_elem_of_lookup_2, reach_before in Hd. lia.
  - lia.
  - exfalso. rewrite Forall_lookup in Hf. specialize (Hf (List.length (reach calendar origin j)) from). rewrite lookup_take_lt in Hf by done.
    specialize (Hf Hfrom). lia.
Qed.
End Axis.

(** ** The graph *)

(** The positions of the dependencies that end, or start, at a task. *)
Definition into (g : graph) (i : nat) : list nat := List.filter (fun k => Nat.eqb (succ_of g k) i) (seq 0 (List.length (gr_deps g))).
Definition out_of (g : graph) (i : nat) : list nat := List.filter (fun k => Nat.eqb (pred_of g k) i) (seq 0 (List.length (gr_deps g))).

Record graph_ok (g : graph) (tasks : list task) : Prop := {
  go_ends : forall k, (k < List.length (gr_deps g))%nat ->
    (pred_of g k < List.length tasks)%nat /\ (succ_of g k < List.length tasks)%nat;
  go_preds : forall i t, tasks !! i = Some t -> tk_preds t = into g i;
  go_succs : forall i t, tasks !! i = Some t -> tk_succs t = out_of g i;
  go_summaries : forall i t, tasks !! i = Some t -> tk_summary t = true -> tk_preds t = [] /\ tk_succs t = []
}.

Definition edge (g : graph) (i j : nat) : Prop := exists k, (k < List.length (gr_deps g))%nat /\ pred_of g k = i /\ succ_of g k = j.
Definition acyclic (g : graph) : Prop := forall i, ~ tc (edge g) i i.

Lemma in_into g i k : k ∈ into g i <-> (k < List.length (gr_deps g))%nat /\ succ_of g k = i.
Proof. unfold into. rewrite list_elem_of_In, filter_In, in_seq, Nat.eqb_eq. lia. Qed.
Lemma in_out_of g i k : k ∈ out_of g i <-> (k < List.length (gr_deps g))%nat /\ pred_of g k = i.
Proof. unfold out_of. rewrite list_elem_of_In, filter_In, in_seq, Nat.eqb_eq. lia. Qed.
Lemma nodup_filter_seq (P : nat -> bool) a n : NoDup (List.filter P (seq a n)).
Proof. apply NoDup_ListNoDup, List.NoDup_filter, seq_NoDup. Qed.

(** Where a task stands in an order. *)
Fixpoint position (x : nat) (xs : list nat) : nat :=
  match xs with [] => 0 | y :: rest => if Nat.eqb x y then 0 else S (position x rest) end.

Lemma position_before before i after : NoDup (before ++ i :: after) -> position i (before ++ i :: after) = List.length before.
Proof.
  induction before as [|x before IH]; cbn [app position List.length]; intros Hnd.
  - by rewrite Nat.eqb_refl.
  - apply NoDup_cons in Hnd as [Hx Hnd]. destruct (Nat.eqb_spec i x) as [->|_]; [set_solver|]. by rewrite IH.
Qed.

Lemma position_in x before after : x ∈ before -> (position x (before ++ after) < List.length before)%nat.
Proof.
  induction before as [|y before IH]; intros Hx; [by apply not_elem_of_nil in Hx|]. cbn [app position List.length].
  destruct (Nat.eqb_spec x y) as [|Hne]; [lia|]. apply elem_of_cons in Hx as [->|Hx]; [done|]. specialize (IH Hx). lia.
Qed.

(** *** The queue *)

Section Queue.
Context (g : graph) (tasks : list task) (Hg : graph_ok g tasks).
Let n := List.length tasks.
Let m := List.length (gr_deps g).

(** The dependencies into [s] that are not released. *)
Definition left_of (released : list nat) (s : nat) : nat :=
  List.length (List.filter (fun k => negb (bool_decide (k ∈ released))) (into g s)).

(** An order so far: every task comes after what it waits for. *)
Definition in_turn (order : list nat) : Prop :=
  forall before i after, order = before ++ i :: after -> forall k, k ∈ into g i -> pred_of g k ∈ before.

Record queue_inv (released : list nat) (waiting : list Z) (queue order : list nat) : Prop := {
  qi_length : List.length waiting = n;
  qi_waiting : forall s, (s < n)%nat -> waiting !! s = Some (Z.of_nat (left_of released s));
  qi_nodup : NoDup (order ++ queue);
  qi_ready : forall s, s ∈ order ++ queue <-> (s < n)%nat /\ left_of released s = 0%nat;
  qi_released : forall k, k ∈ released -> pred_of g k ∈ order;
  qi_order : in_turn order
}.

Lemma left_of_release released k s : (k < m)%nat -> k ∉ released ->
  left_of released s = (left_of (k :: released) s + if Nat.eqb (succ_of g k) s then 1 else 0)%nat.
Proof.
  intros Hk Hnot. unfold left_of. assert (Hnd : NoDup (into g s)) by apply nodup_filter_seq.
  pose proof (in_into g s k) as Hin. revert Hnd Hin. generalize (into g s) as ks.
  assert (Hsame : forall ks, k ∉ ks -> List.filter (fun x => negb (bool_decide (x ∈ k :: released))) ks =
                                      List.filter (fun x => negb (bool_decide (x ∈ released))) ks).
  { intros ks Hk'. apply filter_ext_in. intros x Hx. f_equal. apply bool_decide_ext. apply list_elem_of_In in Hx.
    rewrite elem_of_cons. assert (x <> k) by (intros ->; done). tauto. }
  intros ks Hnd Hin. destruct (Nat.eqb_spec (succ_of g k) s) as [He|He].
  - assert (Hk' : k ∈ ks) by (by apply Hin). clear Hin. induction ks as [|x ks IH]; [by apply not_elem_of_nil in Hk'|].
    apply NoDup_cons in Hnd as [Hx Hnd]. cbn [List.filter]. destruct (decide (x = k)) as [->|Hne].
    + rewrite Hsame by done. rewrite bool_decide_false by done. rewrite bool_decide_true by left. cbn. lia.
    + apply elem_of_cons in Hk' as [->|Hk']; [done|]. specialize (IH Hnd Hk').
      replace (bool_decide (x ∈ k :: released)) with (bool_decide (x ∈ released)) by (apply bool_decide_ext; rewrite elem_of_cons; tauto).
      destruct (bool_decide (x ∈ released)); cbn [negb List.length]; lia.
  - rewrite Hsame; [lia|]. intros Hk'. apply Hin in Hk'. tauto.
Qed.

Lemma left_of_zero released s : left_of released s = 0%nat <-> forall k, k ∈ into g s -> k ∈ released.
Proof.
  unfold left_of. rewrite length_zero_iff_nil. split.
  - intros H k Hk. apply dec_stable. intros Hn. assert (Hin : In k (@nil nat)); [|done].
    rewrite <- H. apply filter_In. split; [by apply list_elem_of_In|by rewrite bool_decide_false].
  - intros H. destruct (List.filter _ _) as [|k ks] eqn:E; [done|]. assert (Hin : In k (k :: ks)) by by left.
    rewrite <- E in Hin. apply filter_In in Hin as [Hin Hk]. apply list_elem_of_In, H in Hin. by rewrite bool_decide_true in Hk.
Qed.

(** Releasing one dependency. *)
Lemma release_inv released waiting queue order k : queue_inv released waiting queue order ->
  (k < m)%nat -> k ∉ released -> pred_of g k ∈ order ->
  let '(waiting', queue') := release g (waiting, queue) k in queue_inv (k :: released) waiting' queue' order.
Proof.
  intros H Hk Hnot Hpred. cbn [release]. destruct (go_ends g tasks Hg k Hk) as [_ Hs]. fold n in Hs. set (s := succ_of g k) in *.
  rewrite (qi_waiting _ _ _ _ H s Hs). cbn [default]. unfold id. pose proof (fun x => left_of_release released k x Hk Hnot) as Hleft. fold s in Hleft.
  pose proof (Hleft s) as Hls. rewrite Nat.eqb_refl in Hls.
  assert (Hother : forall x, x <> s -> left_of released x = left_of (k :: released) x).
  { intros x Hx. rewrite (Hleft x). destruct (Nat.eqb_spec s x); [congruence|lia]. }
  assert (Hsnot : s ∉ order ++ queue) by (intros Hin; apply (qi_ready _ _ _ _ H) in Hin; lia).
  assert (Hready : forall x, x ∈ order ++ queue <-> (x < n)%nat /\ x <> s /\ left_of (k :: released) x = 0%nat).
  { intros x. rewrite (qi_ready _ _ _ _ H). destruct (decide (x = s)) as [->|Hx]; [|rewrite (Hother x Hx); tauto]. lia. }
  set (queue' := if (_ =? 0) then queue ++ [s] else queue). assert (Hq : (queue' = queue /\ left_of (k :: released) s <> 0%nat) \/ (queue' = queue ++ [s] /\ left_of (k :: released) s = 0%nat)).
  { subst queue'. destruct (Z.eqb_spec (Z.of_nat (left_of released s) - 1) 0); [right|left]; split; done || lia. }
  split.
  - rewrite length_insert. apply H.
  - intros x Hx. destruct (decide (s = x)) as [<-|Hne].
    + rewrite list_lookup_insert_eq; [f_equal; lia|]. rewrite (qi_length _ _ _ _ H). done.
    + rewrite list_lookup_insert_ne by done. rewrite (qi_waiting _ _ _ _ H x Hx). by rewrite (Hother x).
  - destruct Hq as [[-> _]|[-> _]]; [apply H|]. rewrite app_assoc. apply NoDup_app. split; [apply H|]. split; [|apply NoDup_singleton].
    intros x Hx ->%list_elem_of_singleton. done.
  - intros x. destruct Hq as [[-> Hz]|[-> Hz]].
    + rewrite Hready. split; [tauto|]. intros [H1 H2]. split; [done|]. split; [|done]. by intros ->.
    + rewrite app_assoc, elem_of_app, Hready, list_elem_of_singleton. split; [intros [?| ->]; tauto|].
      intros [H1 H2]. destruct (decide (x = s)); tauto.
  - intros x [->|Hx]%elem_of_cons; [done|by apply (qi_released _ _ _ _ H)].
  - apply H.
Qed.

Lemma releases_inv order ks : forall released waiting queue, queue_inv released waiting queue order ->
  NoDup ks -> (forall k, k ∈ ks -> (k < m)%nat /\ (k ∉ released) /\ pred_of g k ∈ order) ->
  let '(waiting', queue') := fold_left (release g) ks (waiting, queue) in
  exists released', queue_inv released' waiting' queue' order /\ (forall k, k ∈ released' <-> k ∈ ks \/ k ∈ released).
Proof.
  induction ks as [|k ks IH]; intros released waiting queue H Hnd Hks; cbn [fold_left].
  - exists released. split; [done|]. intros k. split; [by right|]. intros [Hin|]; [by apply not_elem_of_nil in Hin|done].
  - apply NoDup_cons in Hnd as [Hk Hnd]. destruct (Hks k (list_elem_of_here _ _)) as (Hm & Hnot & Hpred).
    pose proof (release_inv released waiting queue order k H Hm Hnot Hpred) as H1.
    destruct (release g (waiting, queue) k) as [waiting1 queue1]. specialize (IH _ _ _ H1 Hnd).
    destruct (fold_left (release g) ks (waiting1, queue1)) as [waiting2 queue2]. destruct IH as (released' & H2 & Hr).
    + intros x Hx. destruct (Hks x (list_elem_of_further _ _ _ Hx)) as (? & ? & ?). split; [done|]. split; [|done].
      intros [->|]%elem_of_cons; done.
    + exists released'. split; [done|]. intros x. rewrite Hr, !elem_of_cons. tauto.
Qed.

(** Between two turns everything a finished task points at is released. *)
Definition turn_inv (waiting : list Z) (queue order : list nat) : Prop :=
  exists released, queue_inv released waiting queue order /\
    (forall k, (k < m)%nat -> k ∈ released <-> pred_of g k ∈ order).

Lemma range_nodup (xs : list nat) : NoDup xs -> (forall x, x ∈ xs -> (x < n)%nat) -> (List.length xs <= n)%nat.
Proof.
  intros Hnd Hx. rewrite <- (length_seq n 0). apply NoDup_incl_length; [by apply NoDup_ListNoDup|].
  intros x Hin. apply in_seq. apply list_elem_of_In, Hx in Hin. lia.
Qed.

Lemma drain_spec fuel : forall waiting queue order, turn_inv waiting queue order -> (List.length order + fuel)%nat = n ->
  exists order' waiting', drain fuel g tasks waiting queue order = Ok order' /\ turn_inv waiting' [] order'.
Proof.
  induction fuel as [|fuel IH]; intros waiting queue order (released & H & Hr) Hf; destruct queue as [|i queue]; cbn [drain];
    try (exists order, waiting; split; [done|by exists released]).
  - pose proof (range_nodup (order ++ i :: queue) (qi_nodup _ _ _ _ H)) as Hl.
    rewrite length_app in Hl. cbn [List.length] in Hl. enough (forall x, x ∈ order ++ i :: queue -> (x < n)%nat) by (specialize (Hl ltac:(done)); lia).
    intros x Hx. apply (qi_ready _ _ _ _ H) in Hx as [Hx _]. exact Hx.
  - assert (Hi : (i < n)%nat /\ left_of released i = 0%nat) by (apply (qi_ready _ _ _ _ H); set_solver). destruct Hi as [Hi Hz].
    pose proof (qi_nodup _ _ _ _ H) as Hnd. pose proof (proj1 (left_of_zero released i) Hz) as Hall.
    assert (Hnew : i ∉ order) by (intros Hin; apply NoDup_app in Hnd as (_ & Hd & _); apply (Hd i Hin); left).
    assert (H1 : queue_inv released waiting queue (order ++ [i])).
    { split; [apply H|apply H|by rewrite <- app_assoc|intros s; rewrite <- app_assoc; apply (qi_ready _ _ _ _ H s)| |].
      - intros k Hk. apply elem_of_app. left. by apply (qi_released _ _ _ _ H).
      - intros before j after Heq k Hk. destruct after as [|y after _] using rev_ind.
        + apply app_inj_tail in Heq as [-> ->]. apply (qi_released _ _ _ _ H), Hall, Hk.
        + rewrite app_comm_cons, app_assoc in Heq. apply app_inj_tail in Heq as [-> _].
          by eapply (qi_order _ _ _ _ H). }
    destruct (lookup_lt_is_Some_2 tasks i Hi) as [t Ht]. unfold task_at. rewrite Ht. cbn [default]. unfold id.
    rewrite (go_succs g tasks Hg i t Ht). pose proof (releases_inv (order ++ [i]) (out_of g i) released waiting queue H1) as H2.
    destruct (fold_left (release g) (out_of g i) (waiting, queue)) as [waiting2 queue2].
    destruct H2 as (released2 & H2 & Hr2).
    { apply nodup_filter_seq. }
    { intros k [Hk Hp]%in_out_of. split; [done|]. split; [|rewrite Hp; set_solver]. intros Hin. apply (Hr k Hk) in Hin. by rewrite Hp in Hin. }
    apply IH; [|rewrite length_app; cbn; lia].
    exists released2. split; [done|]. intros k Hk. rewrite Hr2, in_out_of, (Hr k Hk), elem_of_app, list_elem_of_singleton. tauto.
Qed.

Lemma first_turn : turn_inv ((fun t => Z.of_nat (List.length (tk_preds t))) <$> tasks)
  (List.filter (fun i => default 0 (((fun t => Z.of_nat (List.length (tk_preds t))) <$> tasks) !! i) =? 0) (seq 0 n)) [].
Proof.
  set (waiting := _ <$> tasks).
  assert (Hw : forall s, (s < n)%nat -> waiting !! s = Some (Z.of_nat (left_of [] s))).
  { intros s Hs. destruct (lookup_lt_is_Some_2 tasks s Hs) as [t Ht]. unfold waiting. rewrite list_lookup_fmap, Ht. cbn. do 2 f_equal.
    rewrite (go_preds g tasks Hg s t Ht). unfold left_of. rewrite (filter_ext_in _ (fun _ => true)); [by rewrite filter_true|].
    intros k _. rewrite bool_decide_false; [done|]. apply not_elem_of_nil. }
  exists []. split.
  - split.
    + apply length_fmap.
    + done.
    + apply nodup_filter_seq.
    + intros s. cbn [app]. rewrite list_elem_of_In, filter_In, in_seq. split.
      * intros [Hs Hz]. assert (Hs' : (s < n)%nat) by lia. rewrite (Hw s Hs') in Hz. cbn in Hz. unfold id in Hz. lia.
      * intros [Hs Hz]. rewrite (Hw s Hs), Hz. split; [lia|done].
    + intros k Hk. by apply not_elem_of_nil in Hk.
    + intros before i after Heq. by destruct before.
  - intros k _. split; intros H; by apply not_elem_of_nil in H.
Qed.

(** A run of the queue never runs out of fuel, ends with an order, and that
    order is as long as the tasks exactly when they are all in it. *)
Lemma drained : exists order released waiting, drain (List.length tasks) g tasks
    ((fun t => Z.of_nat (List.length (tk_preds t))) <$> tasks)
    (List.filter (fun i => default 0 (((fun t => Z.of_nat (List.length (tk_preds t))) <$> tasks) !! i) =? 0) (seq 0 n)) [] = Ok order /\
  queue_inv released waiting [] order /\ (forall k, (k < m)%nat -> k ∈ released <-> pred_of g k ∈ order).
Proof.
  destruct (drain_spec n _ _ _ first_turn eq_refl) as (order & waiting & Hd & released & H & Hr).
  by exists order, released, waiting.
Qed.

(** Where every task is in turn no dependency leads back. *)
Lemma in_turn_acyclic order : NoDup order -> in_turn order -> (forall i, (i < n)%nat -> i ∈ order) -> acyclic g.
Proof.
  intros Hnd Ht Hall.
  assert (Hlt : forall i j, edge g i j -> (position i order < position j order)%nat).
  { intros i j (k & Hk & <- & Hj). destruct (go_ends g tasks Hg k Hk) as [_ Hs]. rewrite Hj in Hs.
    pose proof (Hall j Hs) as Hin. apply list_elem_of_split in Hin as (before & after & ->).
    rewrite (position_before before j after Hnd). apply position_in. apply (Ht before j after eq_refl). by apply in_into. }
  assert (Htc : forall i j, tc (edge g) i j -> (position i order < position j order)%nat).
  { induction 1 as [i j H|i j l H _ IH]; [by apply Hlt|]. specialize (Hlt _ _ H). lia. }
  intros i Hi. specialize (Htc i i Hi). lia.
Qed.

Lemma waits_edge i j : tc (fun x y => edge g y x) i j -> tc (edge g) j i.
Proof. induction 1 as [i j H|i j l H _ IH]; [by apply tc_once|by eapply tc_r]. Qed.

(** In a graph without loops nothing waits for ever. *)
Lemma acyclic_done released waiting order : queue_inv released waiting [] order ->
  (forall k, (k < m)%nat -> k ∈ released <-> pred_of g k ∈ order) -> acyclic g ->
  forall i, (i < n)%nat -> i ∈ order.
Proof.
  intros H Hr Hac i.
  assert (Hsn : sn (fun x y => edge g y x) i).
  { apply tc_finite_sn.
    - intros x Hx. apply waits_edge in Hx. by apply (Hac x).
    - exists (seq 0 n). intros y Hy. apply waits_edge in Hy. apply list_elem_of_In, in_seq.
      assert (Hk : exists k, (k < m)%nat /\ pred_of g k = y) by (destruct Hy as [? ? (k & Hk & Hp & _)|? ? ? (k & Hk & Hp & _) _]; by exists k).
      destruct Hk as (k & Hk & <-). destruct (go_ends g tasks Hg k Hk) as [Hp _]. fold n in Hp. lia. }
  induction Hsn as [i _ IH]. intros Hi. apply dec_stable. intros Hnot.
  assert (Hz : left_of released i <> 0%nat).
  { intros Hz. apply Hnot. pose proof (proj2 (qi_ready _ _ _ _ H i) (conj Hi Hz)) as Hin. by rewrite app_nil_r in Hin. }
  apply Hz. apply left_of_zero. intros k Hk. apply in_into in Hk as [Hk Hs]. apply (Hr k Hk).
  destruct (go_ends g tasks Hg k Hk) as [Hp _]. apply IH; [|done]. by exists k.
Qed.

(** The order is found exactly in a graph without loops; it holds every task
    once and each after what it waits for. *)
Lemma topological_spec :
  (acyclic g /\ exists order, topological tasks g = Ok order /\ order ≡ₚ seq 0 n /\ in_turn order) \/
  (~ acyclic g /\ topological tasks g = Err (WithDetail ErrConflict "planning.cycle")).
Proof.
  unfold topological. destruct drained as (order & released & waiting & Hd & H & Hr). fold n. fold n in Hd. rewrite Hd. cbn [mbind result_bind].
  pose proof (qi_nodup _ _ _ _ H) as Hnd. rewrite app_nil_r in Hnd.
  assert (Hin : forall x, x ∈ order -> (x < n)%nat) by (intros x Hx; apply (qi_ready _ _ _ _ H); by rewrite app_nil_r).
  destruct (Nat.eqb_spec (List.length order) n) as [Hl|Hl].
  - left. assert (Hp : order ≡ₚ seq 0 n).
    { apply NoDup_Permutation_bis; [by apply NoDup_ListNoDup|rewrite length_seq; lia|].
      intros x Hx. apply in_seq. apply list_elem_of_In, Hin in Hx. lia. }
    split; [|exists order; repeat split; [done|apply (qi_order _ _ _ _ H)]].
    apply (in_turn_acyclic order Hnd (qi_order _ _ _ _ H)). intros i Hi. rewrite Hp. apply list_elem_of_In, in_seq. lia.
  - right. split; [|done]. intros Hac. apply Hl. apply Nat.le_antisymm; [by apply range_nodup|].
    rewrite <- (length_seq n 0) at 1. apply NoDup_incl_length; [apply seq_NoDup|]. intros x Hx. apply in_seq in Hx.
    apply list_elem_of_In. eapply acyclic_done; [done|done|done|lia].
Qed.
End Queue.

(** ** The forward pass, settled *)

(** What the passes leave of a task. *)
Record same_task (t t' : task) : Prop := {
  st_entry : tk_entry t' = tk_entry t;
  st_preds : tk_preds t' = tk_preds t;
  st_succs : tk_succs t' = tk_succs t;
  st_summary : tk_summary t' = tk_summary t;
  st_dates : tk_original_start t' = tk_original_start t /\ tk_original_end t' = tk_original_end t
}.

Lemma task_at_lookup tasks i t : tasks !! i = Some t -> task_at tasks i = t.
Proof. unfold task_at. by intros ->. Qed.

Lemma task_at_insert tasks i t j : (i < List.length tasks)%nat -> task_at (<[ i := t ]> tasks) j = if Nat.eqb i j then t else task_at tasks j.
Proof.
  intros Hi. unfold task_at. destruct (Nat.eqb_spec i j) as [->|Hne]; [by rewrite list_lookup_insert_eq|by rewrite list_lookup_insert_ne].
Qed.

(** The largest of the needs. *)
Lemma largest_spec ns acc : fold_left largest ns acc =
  match acc, ns with
  | None, [] => None
  | None, n :: rest => Some (fold_left Z.max rest n)
  | Some e, ns => Some (fold_left Z.max ns e)
  end.
Proof.
  revert acc. induction ns as [|n ns IH]; intros acc; [by destruct acc|]. cbn [fold_left]. rewrite IH. destruct acc as [e|]; cbn [largest]; [|done].
  destruct (Z.ltb_spec e n); cbn [fold_left]; do 2 f_equal; lia.
Qed.

Lemma fold_max_spec ns : forall e, (e <= fold_left Z.max ns e) /\ (forall n, n ∈ ns -> n <= fold_left Z.max ns e) /\
  (fold_left Z.max ns e = e \/ fold_left Z.max ns e ∈ ns).
Proof.
  induction ns as [|n ns IH]; intros e; cbn [fold_left].
  - split; [done|]. split; [|by left]. intros n Hn. by apply not_elem_of_nil in Hn.
  - destruct (IH (Z.max e n)) as (H1 & H2 & H3). split; [lia|]. split.
    + intros x [->|Hx]%elem_of_cons; [lia|by apply H2].
    + destruct H3 as [H3|H3]; [|right; by right]. rewrite H3. destruct (Z.max_spec e n) as [[_ ->]|[_ ->]]; [right; left|by left].
Qed.

(** The largest need is at least every need and is one of them. *)
Lemma largest_bound ns : match fold_left largest ns None with
  | None => ns = []
  | Some e => e ∈ ns /\ forall n, n ∈ ns -> n <= e
  end.
Proof.
  rewrite largest_spec. destruct ns as [|n ns]; [done|]. destruct (fold_max_spec ns n) as (H1 & H2 & H3). split.
  - destruct H3 as [->|H3]; [left|by right].
  - intros x [->|Hx]%elem_of_cons; [done|by apply H2].
Qed.

Section Forward.
Context (g : graph) (days : list Z) (tasks0 : list task) (Hg : graph_ok g tasks0).
Let n := List.length tasks0.

(** The task the pass makes of one, among the others as they end up. *)
Definition settled (tasks : list task) (t0 : task) : task :=
  match fold_left largest (need g tasks t0 <$> tk_preds t0) None with
  | None => t0
  | Some earliest => if movable t0 then with_early t0 earliest (earliest + tk_d t0) (tk_d t0) else t0
  end.

(** The day a conflict names. *)
Definition shown (tasks : list task) (t : task) (k : nat) : Z :=
  let kind := tg_kind (dp_timing (dependency g k)) in
  if String.eqb kind FinishToFinish || String.eqb kind StartToFinish then need g tasks t k + tk_d t - 1 else need g tasks t k.

(** What is reported of the dependency [k] into the task [t]. *)
Definition reported (tasks : list task) (t : task) (k : nat) (c : Conflict) : Prop :=
  tk_s t < need g tasks t k /\ exists day, axis_day days (Z.max (shown tasks t k) 0) = Ok day /\
    c = mkConflict (dp_predecessor (dependency g k)) (dp_successor (dependency g k)) (tg_kind (dp_timing (dependency g k))) day.

Lemma conflicts_fold tasks t ks : forall found found', fold_result (conflict g days tasks t) found ks = Ok found' ->
  (forall c, c ∈ found' <-> c ∈ found \/ exists k, k ∈ ks /\ reported tasks t k c) /\
  (forall k, k ∈ ks -> tk_s t < need g tasks t k -> exists c, reported tasks t k c).
Proof.
  induction ks as [|k ks IH]; intros found found' H.
  - injection H as <-. split; [|intros k Hk; by apply not_elem_of_nil in Hk].
    intros c. split; [by left|]. intros [Hc|(k & Hk & _)]; [done|by apply not_elem_of_nil in Hk].
  - apply bind_ok in H as [found1 [H1 H2]]. apply IH in H2 as [H2 H3].
    assert (Hstep : (forall c, c ∈ found1 <-> c ∈ found \/ reported tasks t k c) /\ (tk_s t < need g tasks t k -> exists c, reported tasks t k c)).
    { unfold conflict in H1. unfold reported. destruct (Z.leb_spec (need g tasks t k) (tk_s t)) as [Hle|Hlt].
      - injection H1 as <-. split; [|lia]. intros c. split; [by left|]. intros [Hc|[Hc _]]; [done|lia].
      - change (axis_day days (Z.max (shown tasks t k) 0) ≫= (fun day => Ok (found ++ [mkConflict (dp_predecessor (dependency g k))
          (dp_successor (dependency g k)) (tg_kind (dp_timing (dependency g k))) day])) = Ok found1) in H1.
        apply bind_ok in H1 as [day [Hd H1]]. injection H1 as <-. split; [|intros _; eexists; split; [done|by exists day]].
        intros c. rewrite elem_of_app, list_elem_of_singleton. split; [intros [Hc| ->]; [by left|right; split; [done|by exists day]]|].
        intros [Hc|(_ & day' & Hd' & ->)]; [by left|right]. rewrite Hd in Hd'. by injection Hd' as <-. }
    destruct Hstep as [Hs1 Hs2]. split.
    + intros c. rewrite H2, Hs1. split.
      * intros [[Hc|Hc]|(k' & Hk' & Hc)]; [by left|right; exists k; split; [left|done]|right; exists k'; split; [by right|done]].
      * intros [Hc|(k' & [->|Hk']%elem_of_cons & Hc)]; [by left; left|by left; right|right; by exists k'].
    + intros k' [->|Hk']%elem_of_cons; [done|by apply H3].
Qed.

Record forward_inv (before : list nat) (tasks : list task) (conflicts : list Conflict) : Prop := {
  fi_length : List.length tasks = n;
  fi_ahead : forall i, i ∉ before -> tasks !! i = tasks0 !! i;
  fi_settled : forall i t0, i ∈ before -> tasks0 !! i = Some t0 -> tasks !! i = Some (settled tasks t0);
  fi_conflicts : forall c, c ∈ conflicts <->
    exists i k t, i ∈ before /\ tasks !! i = Some t /\ movable t = false /\ k ∈ into g i /\ reported tasks t k c;
  fi_reported : forall i k t, i ∈ before -> tasks !! i = Some t -> movable t = false -> k ∈ into g i ->
    tk_s t < need g tasks t k -> exists c, reported tasks t k c
}.

(** What is settled does not change when a task it does not wait for does. *)
Lemma need_same tasks tasks' t t' k : task_at tasks' (pred_of g k) = task_at tasks (pred_of g k) -> tk_d t' = tk_d t ->
  need g tasks' t' k = need g tasks t k.
Proof. intros H Hd. unfold need, earliestStart. by rewrite H, Hd. Qed.

Lemma needs_same tasks tasks' t (ks : list nat) : (forall k, k ∈ ks -> task_at tasks' (pred_of g k) = task_at tasks (pred_of g k)) ->
  need g tasks' t <$> ks = need g tasks t <$> ks.
Proof.
  intros H. apply list_fmap_ext. intros i k Hk. apply need_same; [|done]. apply H. by eapply list_elem_of_lookup_2.
Qed.

Lemma movable_early t s e d : movable (with_early t s e d) = movable t.
Proof. done. Qed.

Lemma settled_shape tasks t0 : tk_d (settled tasks t0) = tk_d t0 /\ movable (settled tasks t0) = movable t0 /\
  (movable t0 = false -> settled tasks t0 = t0) /\ (tk_preds t0 = [] -> settled tasks t0 = t0).
Proof.
  unfold settled. destruct (fold_left _ _ _) eqn:E; [|done]. destruct (movable t0) eqn:Em; [|done].
  split; [done|]. split; [by rewrite movable_early|]. split; [done|]. intros Hp. by rewrite Hp in E.
Qed.

(** A step that leaves the tasks so far, and what they wait for, as they are. *)
Lemma forward_frame before i tasks tasks' t0 : i ∉ before -> tasks0 !! i = Some t0 ->
  (forall j, j ∈ before -> forall k, k ∈ into g j -> pred_of g k ∈ before) -> (forall k, k ∈ into g i -> pred_of g k ∈ before) ->
  List.length tasks' = List.length tasks -> (forall j, j <> i -> tasks' !! j = tasks !! j) ->
  (forall j t, j ∈ before ++ [i] -> tasks0 !! j = Some t -> settled tasks' t = settled tasks t) /\
  (forall j t k, j ∈ before ++ [i] -> k ∈ into g j -> need g tasks' t k = need g tasks t k).
Proof.
  intros Hi Ht0 Hb Hbi Hl Hsame.
  assert (Hneed : forall j k, j ∈ before ++ [i] -> k ∈ into g j -> task_at tasks' (pred_of g k) = task_at tasks (pred_of g k)).
  { intros j k [Hj| ->%list_elem_of_singleton]%elem_of_app Hk; unfold task_at; rewrite Hsame; try done; intros He.
    - specialize (Hb j Hj k Hk). rewrite He in Hb. done.
    - specialize (Hbi k Hk). rewrite He in Hbi. done. }
  split; [|intros j t k Hj Hk; apply need_same; [by eapply Hneed|done]].
  intros j t Hj Ht. unfold settled. rewrite (go_preds g tasks0 Hg j t Ht), (needs_same tasks tasks'); [done|]. by intros k Hk; eapply Hneed.
Qed.

Lemma reported_same tasks tasks' t k c : need g tasks' t k = need g tasks t k -> reported tasks' t k c <-> reported tasks t k c.
Proof. intros H. unfold reported, shown. by rewrite H. Qed.

Lemma forward_out i tasks conflicts tasks' conflicts' t0 : tasks !! i = Some t0 -> tasks0 !! i = Some t0 ->
  forward g days (tasks, conflicts) i = Ok (tasks', conflicts') ->
  tasks' = <[ i := settled tasks t0 ]> tasks /\
  ((movable t0 = true /\ conflicts' = conflicts) \/
   (movable t0 = false /\ (forall c, c ∈ conflicts' <-> c ∈ conflicts \/ exists k, k ∈ into g i /\ reported tasks t0 k c) /\
    (forall k, k ∈ into g i -> tk_s t0 < need g tasks t0 k -> exists c, reported tasks t0 k c))).
Proof.
  intros Ht Ht0. unfold forward, settled. rewrite (task_at_lookup _ _ _ Ht). pose proof (largest_bound (need g tasks t0 <$> tk_preds t0)) as Hb.
  rewrite (go_preds g tasks0 Hg i t0 Ht0) in *. destruct (fold_left largest _ None) as [earliest|].
  - destruct Hb as [_ Hb]. destruct (movable t0) eqn:Em; [intros [= <- <-]; split; [done|by left]|]. rewrite (list_insert_id tasks i t0 Ht).
    destruct (Z.ltb_spec (tk_s t0) earliest) as [Hlt|Hge].
    + intros H. apply bind_ok in H as [found [H1 H2]]. injection H2 as <- <-. split; [done|]. right. split; [done|]. by apply conflicts_fold.
    + intros [= <- <-]. split; [done|]. right. split; [done|].
      assert (Hno : forall k, k ∈ into g i -> need g tasks t0 k <= tk_s t0).
      { intros k Hk. etransitivity; [apply Hb; by apply list_elem_of_fmap_2|done]. }
      split; [|intros k Hk Hlt; specialize (Hno k Hk); lia]. intros c. split; [by left|]. intros [Hc|(k & Hk & Hlt & _)]; [done|]. specialize (Hno k Hk). lia.
  - apply fmap_nil_inv in Hb. intros [= <- <-]. rewrite (list_insert_id tasks i t0 Ht). split; [done|]. rewrite Hb.
    destruct (movable t0); [by left|right]. split; [done|]. split; [|intros k Hk; by apply not_elem_of_nil in Hk].
    intros c. split; [by left|]. intros [Hc|(k & Hk & _)]; [done|by apply not_elem_of_nil in Hk].
Qed.

Lemma forward_step before i tasks conflicts tasks' conflicts' :
  forward_inv before tasks conflicts -> i ∉ before -> (i < n)%nat ->
  (forall j, j ∈ before -> forall k, k ∈ into g j -> pred_of g k ∈ before) -> (forall k, k ∈ into g i -> pred_of g k ∈ before) ->
  forward g days (tasks, conflicts) i = Ok (tasks', conflicts') -> forward_inv (before ++ [i]) tasks' conflicts'.
Proof.
  intros H Hi Hn Hb Hbi Hstep. destruct (lookup_lt_is_Some_2 tasks0 i Hn) as [t0 Ht0].
  assert (Hti : tasks !! i = Some t0) by (by rewrite (fi_ahead _ _ _ H i Hi)).
  destruct (forward_out i tasks conflicts tasks' conflicts' t0 Hti Ht0 Hstep) as [Htasks Hconf].
  assert (Hl : List.length tasks' = List.length tasks) by (rewrite Htasks; apply length_insert).
  assert (Hother : forall j, j <> i -> tasks' !! j = tasks !! j) by (intros j Hj; rewrite Htasks; by apply list_lookup_insert_ne).
  assert (Hself : tasks' !! i = Some (settled tasks t0)).
  { rewrite Htasks. apply list_lookup_insert_eq. rewrite (fi_length _ _ _ H). done. }
  destruct (forward_frame before i tasks tasks' t0 Hi Ht0 Hb Hbi Hl Hother) as [Hset Hneed].
  assert (Hne : forall j, j ∈ before -> j <> i) by (intros j Hj ->; done).
  split.
  - rewrite Hl. apply H.
  - intros j Hj. rewrite Hother by set_solver. apply (fi_ahead _ _ _ H). set_solver.
  - intros j t Hj Ht. rewrite (Hset j t Hj Ht). apply elem_of_app in Hj as [Hj| ->%list_elem_of_singleton].
    + rewrite Hother by (by apply Hne). by apply (fi_settled _ _ _ H).
    + rewrite Ht0 in Ht. by injection Ht as <-.
  - intros c. transitivity (c ∈ conflicts \/ (movable t0 = false /\ exists k, k ∈ into g i /\ reported tasks t0 k c)).
    { destruct Hconf as [[Hm ->]|(Hm & Hc & _)]; [|rewrite Hc; tauto]. rewrite Hm. split; [by left|]. intros [Hc|[Hf _]]; done. }
    rewrite (fi_conflicts _ _ _ H). split.
    + intros [(j & k & t & Hj & Ht & Hr)|[Hm (k & Hk & Hr)]].
      * exists j, k, t. rewrite Hother by (by apply Hne). destruct Hr as (Hm & Hk & Hr).
        refine (conj _ (conj Ht (conj Hm (conj Hk _)))); [set_solver|].
        apply (reported_same tasks tasks'); [apply (Hneed j); [set_solver|done]|done].
      * exists i, k, t0. assert (Hs : settled tasks t0 = t0) by (destruct (settled_shape tasks t0) as (_ & _ & Hs & _); by apply Hs). rewrite Hself, Hs.
        refine (conj _ (conj eq_refl (conj Hm (conj Hk _)))); [set_solver|]. apply (reported_same tasks tasks'); [apply (Hneed i); [set_solver|done]|done].
    + intros (j & k & t & [Hj| ->%list_elem_of_singleton]%elem_of_app & Ht & Hm & Hk & Hr).
      * left. exists j, k, t. rewrite Hother in Ht by (by apply Hne). refine (conj Hj (conj Ht (conj Hm (conj Hk _)))).
        apply (reported_same tasks tasks' t k c); [apply (Hneed j); [set_solver|done]|done].
      * right. rewrite Hself in Ht. injection Ht as <-. destruct (settled_shape tasks t0) as (_ & Hmm & Hs & _). rewrite Hmm in Hm.
        rewrite (Hs Hm) in Hr. split; [done|]. exists k. split; [done|]. apply (reported_same tasks tasks' t0 k c); [apply (Hneed i); [set_solver|done]|done].
  - intros j k t [Hj| ->%list_elem_of_singleton]%elem_of_app Ht Hm Hk Hlt.
    + rewrite Hother in Ht by (by apply Hne). assert (Hn' : need g tasks' t k = need g tasks t k) by (apply (Hneed j); [set_solver|done]).
      rewrite Hn' in Hlt. destruct (fi_reported _ _ _ H j k t Hj Ht Hm Hk Hlt) as [c Hc]. exists c. by apply (reported_same tasks tasks').
    + rewrite Hself in Ht. injection Ht as <-. destruct (settled_shape tasks t0) as (_ & Hmm & Hs & _). rewrite Hmm in Hm. rewrite (Hs Hm) in *.
      assert (Hn' : need g tasks' t0 k = need g tasks t0 k) by (apply (Hneed i); [set_solver|done]). rewrite Hn' in Hlt.
      destruct Hconf as [[Hf _]|(_ & _ & Hr)]; [congruence|]. destruct (Hr k Hk Hlt) as [c Hc]. exists c. by apply (reported_same tasks tasks').
Qed.

Lemma forward_all after : forall before tasks conflicts tasks' conflicts', NoDup (before ++ after) ->
  (forall i, i ∈ after -> (i < n)%nat) -> in_turn g (before ++ after) -> forward_inv before tasks conflicts ->
  fold_result (forward g days) (tasks, conflicts) after = Ok (tasks', conflicts') -> forward_inv (before ++ after) tasks' conflicts'.
Proof.
  induction after as [|i after IH]; intros before tasks conflicts tasks' conflicts' Hnd Hn Ht H Hf.
  - rewrite app_nil_r. injection Hf as <- <-. done.
  - apply bind_ok in Hf as [[tasks1 conflicts1] [H1 Hf]].
    assert (Hb : forall j, j ∈ before -> forall k, k ∈ into g j -> pred_of g k ∈ before).
    { intros j Hj k Hk. apply list_elem_of_split in Hj as (b1 & b2 & ->).
      assert (Hin : pred_of g k ∈ b1) by (apply (Ht b1 j (b2 ++ i :: after)); [by rewrite <- !app_assoc|done]). set_solver. }
    assert (Hi : i ∉ before) by (apply NoDup_app in Hnd as (_ & Hd & _); intros Hin; apply (Hd i Hin); left).
    pose proof (forward_step before i tasks conflicts tasks1 conflicts1 H Hi (Hn i (list_elem_of_here _ _)) Hb (Ht before i after eq_refl) H1) as H2.
    rewrite (app_assoc before [i] after : before ++ i :: after = _) in *.
    eapply IH; [done|set_solver|done|exact H2|done].
Qed.

Lemma forward_pass order tasks conflicts : order ≡ₚ seq 0 n -> in_turn g order ->
  fold_result (forward g days) (tasks0, []) order = Ok (tasks, conflicts) -> forward_inv order tasks conflicts.
Proof.
  intros Hp Ht H. apply (forward_all order [] tasks0 []); cbn [app]; [rewrite Hp; apply NoDup_ListNoDup, seq_NoDup| |done| |done].
  - intros i Hi. rewrite Hp in Hi. apply list_elem_of_In, in_seq in Hi. lia.
  - split; try done.
    + intros i t0 Hi. by apply not_elem_of_nil in Hi.
    + intros c. split; [intros Hc; by apply not_elem_of_nil in Hc|]. intros (i & k & t & Hi & _). by apply not_elem_of_nil in Hi.
    + intros i k t Hi. by apply not_elem_of_nil in Hi.
Qed.
End Forward.

(** ** The roll-up, framed *)

(** The roll-up changes the dates of automatic summaries that are not done. *)
Definition rolled (t : task) : bool := tk_summary t && String.eqb (en_mode (tk_entry t)) Automatic && negb (en_done (tk_entry t)).

Record roll_frame (tasks tasks' : list task) : Prop := {
  rf_length : List.length tasks' = List.length tasks;
  rf_same : forall i t, tasks !! i = Some t -> exists t', tasks' !! i = Some t' /\ same_task t t' /\
    (rolled t = false -> t' = t) /\ (tk_e t = tk_s t + tk_d t -> tk_e t' = tk_s t' + tk_d t')
}.

Lemma same_task_refl t : same_task t t.
Proof. by split. Qed.

Lemma same_task_trans t1 t2 t3 : same_task t1 t2 -> same_task t2 t3 -> same_task t1 t3.
Proof. intros [? ? ? ? [? ?]] [? ? ? ? [? ?]]. split; try congruence. split; congruence. Qed.

Lemma rolled_same t t' : same_task t t' -> rolled t' = rolled t /\ movable t' = movable t.
Proof. intros [He _ _ Hs _]. unfold rolled, movable. by rewrite He, Hs. Qed.

Lemma roll_frame_refl tasks : roll_frame tasks tasks.
Proof. split; [done|]. intros i t Ht. exists t. split; [done|]. split; [apply same_task_refl|done]. Qed.

Lemma roll_frame_trans a b c : roll_frame a b -> roll_frame b c -> roll_frame a c.
Proof.
  intros [L1 H1] [L2 H2]. split; [congruence|]. intros i t Ht. destruct (H1 i t Ht) as (t' & Ht' & Hs & Hr & He).
  destruct (H2 i t' Ht') as (t'' & Ht'' & Hs' & Hr' & He'). exists t''. split; [done|]. split; [by eapply same_task_trans|].
  destruct (rolled_same t t' Hs) as [Hrt _]. rewrite Hrt in Hr'. split; [|auto]. intros Hf. by rewrite Hr', Hr.
Qed.

Lemma roll_task_frame index tasks changed i : roll_frame tasks (roll_task index (tasks, changed) i).1.
Proof.
  cbn [roll_task]. destruct (tk_summary (task_at tasks i)) eqn:Es; cbn [negb]; [|apply roll_frame_refl].
  destruct (span_of index tasks _) as [[s e]|]; [|apply roll_frame_refl].
  destruct (_ && negb (en_done _)) eqn:E; [|apply roll_frame_refl]. cbn [fst]. split; [apply length_insert|].
  intros j t Ht. destruct (decide (i = j)) as [<-|Hne].
  - exists (with_early t s e (e - s)). rewrite (task_at_lookup _ _ _ Ht) in *.
    rewrite list_lookup_insert_eq by (by eapply lookup_lt_Some). split; [done|]. split; [by split|]. split; [|cbn; lia].
    intros Hr. exfalso. unfold rolled in Hr. rewrite Es in Hr. bools. rewrite H0, H1 in Hr. done.
  - exists t. rewrite list_lookup_insert_ne by done. split; [done|]. split; [apply same_task_refl|done].
Qed.

Lemma roll_fold_frame index turns : forall tasks changed, roll_frame tasks (fold_left (roll_task index) turns (tasks, changed)).1.
Proof.
  induction turns as [|i turns IH]; intros tasks changed; [apply roll_frame_refl|]. cbn [fold_left].
  pose proof (roll_task_frame index tasks changed i) as H. destruct (roll_task index (tasks, changed) i) as [tasks' changed'].
  eapply roll_frame_trans; [exact H|apply IH].
Qed.

Lemma rollUp_frame tasks index : roll_frame tasks (rollUp tasks index).
Proof.
  unfold rollUp. generalize (List.length tasks) as rounds. intros rounds. revert tasks. induction rounds as [|rounds IH]; intros tasks; cbn [roll_rounds].
  - apply roll_frame_refl.
  - pose proof (roll_fold_frame index (seq 0 (List.length tasks)) tasks false) as H.
    destruct (fold_left (roll_task index) (seq 0 (List.length tasks)) (tasks, false)) as [tasks' changed]. cbn [fst] in H.
    destruct changed; [|done]. eapply roll_frame_trans; [exact H|apply IH].
Qed.

(** *** What it settles *)

Section Rolls.
Context (index : gmap ID nat).

(** A summary has what its children span. *)
Definition spans (tasks : list task) (i : nat) : Prop := forall t s e, tasks !! i = Some t -> rolled t = true ->
  span_of index tasks t = Some (s, e) -> tk_s t = s /\ tk_e t = e.

(** A task as a span sees it: one of another parent may be anywhere. *)
Definition alike (parent : ID) (t t' : task) : Prop :=
  tk_entry t' = tk_entry t /\ (en_parent_id (tk_entry t) = parent -> tk_s t' = tk_s t /\ tk_e t' = tk_e t).

Lemma span_alike parent tasks tasks' : Forall2 (alike parent) tasks tasks' -> forall acc,
  fold_left (span_child index parent) tasks' acc = fold_left (span_child index parent) tasks acc.
Proof.
  induction 1 as [|t t' tasks tasks' [He Hs] _ IH]; intros acc; [done|]. cbn [fold_left]. rewrite IH. f_equal.
  unfold span_child. rewrite He. destruct (String.eqb_spec (en_parent_id (tk_entry t)) parent) as [Hp|]; [|done].
  cbn [negb]. destruct (Hs Hp) as [-> ->]. done.
Qed.

Lemma insert_alike parent tasks j t t' : tasks !! j = Some t -> alike parent t t' -> Forall2 (alike parent) tasks (<[ j := t' ]> tasks).
Proof.
  intros Hj Ha. apply Forall2_same_length_lookup. split; [by rewrite length_insert|]. intros i x y Hx Hy.
  destruct (decide (j = i)) as [<-|Hne].
  - rewrite list_lookup_insert_eq in Hy by (by eapply lookup_lt_Some). injection Hy as <-. congruence.
  - rewrite list_lookup_insert_ne in Hy by done. assert (x = y) as -> by congruence. by split.
Qed.

Lemma roll_task_cases tasks changed i t : tasks !! i = Some t ->
  (roll_task index (tasks, changed) i = (tasks, changed) /\ spans tasks i) \/
  (exists s e, rolled t = true /\ span_of index tasks t = Some (s, e) /\ ~ (tk_s t = s /\ tk_e t = e) /\
     roll_task index (tasks, changed) i = (<[ i := with_early t s e (e - s) ]> tasks, true)).
Proof.
  intros Ht. cbn [roll_task]. rewrite (task_at_lookup _ _ _ Ht). unfold spans, rolled. destruct (tk_summary t) eqn:Es; cbn [negb].
  2:{ left. split; [done|]. intros t' s e Ht'. assert (t' = t) as -> by congruence. by rewrite Es. }
  destruct (span_of index tasks t) as [[s e]|] eqn:Esp.
  2:{ left. split; [done|]. intros t' s e Ht'. assert (t' = t) as -> by congruence. by rewrite Esp. }
  destruct (String.eqb (en_mode (tk_entry t)) Automatic && negb (en_done (tk_entry t))) eqn:Em.
  - destruct (Z.eqb_spec (tk_s t) s) as [Hs|Hs]; [destruct (Z.eqb_spec (tk_e t) e) as [He|He]|]; cbn [negb orb andb]; rewrite ?Em.
    + left. split; [done|]. intros t' s' e' Ht' _. assert (t' = t) as -> by congruence. rewrite Esp. by intros [= <- <-].
    + right. exists s, e. split; [done|]. split; [done|]. split; [tauto|done].
    + right. exists s, e. split; [done|]. split; [done|]. split; [tauto|done].
  - left. rewrite <- andb_assoc, Em, andb_false_r. split; [done|]. intros t' s' e' Ht'. assert (t' = t) as -> by congruence.
    by rewrite Es, <- andb_assoc, Em.
Qed.

(** Parents that are not their own ancestors: a height. *)
Definition nested (height : nat -> nat) (tasks : list task) : Prop := forall i j ti tj, tasks !! i = Some ti -> tasks !! j = Some tj ->
  en_parent_id (tk_entry ti) = en_id (tk_entry tj) -> (height i < height j)%nat.

(** Rolling a task changes nothing for those that are not above it, when it was
    right it changes nothing, and then it is right. *)
Lemma roll_task_height height r tasks changed i : nested height tasks -> (i < List.length tasks)%nat ->
  (forall j, (height j < r)%nat -> spans tasks j) ->
  let '(tasks', changed') := roll_task index (tasks, changed) i in
  nested height tasks' /\ List.length tasks' = List.length tasks /\ (forall j, (height j < r)%nat -> spans tasks' j) /\
  ((height i <= r)%nat -> spans tasks' i) /\
  (forall j, (height j <= r)%nat -> j <> i -> spans tasks j -> spans tasks' j) /\
  (changed' = false -> tasks' = tasks /\ changed = false /\ spans tasks i).
Proof.
  intros Hn Hi Hlow. destruct (lookup_lt_is_Some_2 tasks i Hi) as [t Ht].
  destruct (roll_task_cases tasks changed i t Ht) as [[-> Hs]|(s & e & Hr & Hsp & Hneq & ->)]; [tauto|].
  set (t' := with_early t s e (e - s)).
  assert (Hhigh : (r <= height i)%nat).
  { destruct (Nat.le_gt_cases r (height i)) as [|Hlt]; [done|]. destruct Hneq. by apply (Hlow i Hlt). }
  assert (Hat : forall j tj, <[ i := t' ]> tasks !! j = Some tj -> exists t0, tasks !! j = Some t0 /\ tk_entry t0 = tk_entry tj /\ (j <> i -> t0 = tj)).
  { intros j tj Hj. destruct (decide (i = j)) as [<-|Hne].
    - rewrite list_lookup_insert_eq in Hj by done. injection Hj as <-. by exists t.
    - rewrite list_lookup_insert_ne in Hj by done. by exists tj. }
  assert (Hspan : forall j tj, (height j <= height i)%nat -> tasks !! j = Some tj -> span_of index (<[ i := t' ]> tasks) tj = span_of index tasks tj).
  { intros j tj Hji Htj. apply span_alike. eapply insert_alike; [done|]. split; [done|]. intros Hp.
    pose proof (Hn i j t tj Ht Htj Hp). lia. }
  assert (Hkeep : forall j, (height j <= height i)%nat -> j <> i -> spans tasks j -> spans (<[ i := t' ]> tasks) j).
  { intros j Hji Hne Hs tj s' e' Htj Hro. rewrite list_lookup_insert_ne in Htj by done. rewrite (Hspan j tj Hji Htj). by apply Hs. }
  assert (Hself : spans (<[ i := t' ]> tasks) i).
  { intros tj s' e' Htj _. rewrite list_lookup_insert_eq in Htj by done. injection Htj as <-.
    change (span_of index (<[ i := t' ]> tasks) t') with (span_of index (<[ i := t' ]> tasks) t). rewrite (Hspan i t) by done. rewrite Hsp. by intros [= <- <-]. }
  refine (conj _ (conj _ (conj _ (conj _ (conj _ _))))).
  - intros a b ta tb Ha Hb Hp. destruct (Hat a ta Ha) as (ta' & Ha' & Hea & _), (Hat b tb Hb) as (tb' & Hb' & Heb & _).
    apply (Hn a b ta' tb' Ha' Hb'). congruence.
  - apply length_insert.
  - intros j Hj. apply Hkeep; [lia|intros ->; lia|by apply Hlow].
  - done.
  - intros j Hj Hne Hs. apply Hkeep; [lia|done|done].
  - done.
Qed.

Lemma roll_fold_height height r turns : forall tasks changed, nested height tasks -> (forall i, i ∈ turns -> (i < List.length tasks)%nat) ->
  (forall j, (height j < r)%nat -> spans tasks j) ->
  let '(tasks', changed') := fold_left (roll_task index) turns (tasks, changed) in
  nested height tasks' /\ List.length tasks' = List.length tasks /\ (forall j, (height j < r)%nat -> spans tasks' j) /\
  (forall j, (height j <= r)%nat -> spans tasks j \/ j ∈ turns -> spans tasks' j) /\
  (changed' = false -> tasks' = tasks /\ changed = false /\ forall j, j ∈ turns -> spans tasks j).
Proof.
  induction turns as [|i turns IH]; intros tasks changed Hn Hi Hlow; cbn [fold_left].
  - repeat (split; [done|]). split; [intros j _ [Hs|Hj]; [done|by apply not_elem_of_nil in Hj]|].
    intros ->. repeat (split; [done|]). intros j Hj. by apply not_elem_of_nil in Hj.
  - pose proof (roll_task_height height r tasks changed i Hn (Hi i (list_elem_of_here _ _)) Hlow) as H1.
    destruct (roll_task index (tasks, changed) i) as [tasks1 changed1]. destruct H1 as (Hn1 & Hl1 & Hlow1 & Hself & Hkeep & Hno).
    specialize (IH tasks1 changed1 Hn1). rewrite Hl1 in IH. specialize (IH (fun j Hj => Hi j (list_elem_of_further _ _ _ Hj)) Hlow1).
    destruct (fold_left (roll_task index) turns (tasks1, changed1)) as [tasks2 changed2]. destruct IH as (Hn2 & Hl2 & Hlow2 & Hall2 & Hno2).
    repeat (split; [done|]). split.
    + intros j Hj [Hs|[->|Hin]%elem_of_cons].
      * apply Hall2; [done|]. left. destruct (decide (j = i)) as [->|Hne]; [by apply Hself|by apply Hkeep].
      * apply Hall2; [done|]. left. by apply Hself.
      * apply Hall2; [done|]. by right.
    + intros Hc. destruct (Hno2 Hc) as (-> & Hc1 & Hs2). destruct (Hno Hc1) as (-> & -> & Hs1). repeat (split; [done|]).
      intros j [->|Hin]%elem_of_cons; [done|by apply Hs2].
Qed.

Lemma roll_rounds_spans height rounds : forall r tasks, nested height tasks -> (forall j, (height j < r)%nat -> spans tasks j) ->
  (forall i, (i < List.length tasks)%nat -> (height i < r + rounds)%nat) -> forall i, spans (roll_rounds rounds index tasks) i.
Proof.
  assert (Hout : forall tasks, (forall i, (i < List.length tasks)%nat -> spans tasks i) -> forall i, spans tasks i).
  { intros tasks H i. destruct (Nat.lt_ge_cases i (List.length tasks)) as [Hi|Hi]; [by apply H|]. intros t s e Ht. apply lookup_lt_Some in Ht. lia. }
  induction rounds as [|rounds IH]; intros r tasks Hn Hlow Hh; cbn [roll_rounds].
  - apply Hout. intros i Hi. apply Hlow. specialize (Hh i Hi). lia.
  - pose proof (roll_fold_height height r (seq 0 (List.length tasks)) tasks false Hn) as H.
    assert (Hseq : forall i, i ∈ seq 0 (List.length tasks) <-> (i < List.length tasks)%nat) by (intros i; rewrite list_elem_of_In, in_seq; lia).
    specialize (H (fun i Hi => proj1 (Hseq i) Hi) Hlow).
    destruct (fold_left (roll_task index) (seq 0 (List.length tasks)) (tasks, false)) as [tasks1 changed1]. destruct H as (Hn1 & Hl1 & Hlow1 & Hall & Hno).
    destruct changed1.
    + apply (IH (S r)); [done| |intros i Hi; rewrite Hl1 in Hi; specialize (Hh i Hi); lia]. intros j Hj.
      destruct (Nat.lt_ge_cases j (List.length tasks)) as [Hjl|Hjl]; [apply Hall; [lia|right; by apply Hseq]|].
      intros t s e Ht. apply lookup_lt_Some in Ht. lia.
    + destruct (Hno eq_refl) as (-> & _ & Hs). apply Hout. intros i Hi. by apply Hs, Hseq.
Qed.
End Rolls.

(** ** The backward pass, settled *)

(** The bound a dependency puts on its successor's start, by the dates of a
    timing: [earliestStart] with the durations beside it. *)
Definition start_bound (timing : Timing) (s_pred d_pred d_succ : Z) : Z :=
  if String.eqb (tg_kind timing) StartToStart then s_pred + tg_lag timing
  else if String.eqb (tg_kind timing) FinishToFinish then s_pred + d_pred + tg_lag timing - d_succ
  else if String.eqb (tg_kind timing) StartToFinish then s_pred + tg_lag timing - d_succ
  else s_pred + d_pred + tg_lag timing.

(** Starts keep the dependency [k]. *)
Definition keeps (g : graph) (d : nat -> Z) (x : nat -> Z) (k : nat) : Prop :=
  start_bound (dp_timing (dependency g k)) (x (pred_of g k)) (d (pred_of g k)) (d (succ_of g k)) <= x (succ_of g k).

Lemma need_bound g tasks t k : (forall i, tk_e (task_at tasks i) = tk_s (task_at tasks i) + tk_d (task_at tasks i)) ->
  need g tasks t k = start_bound (dp_timing (dependency g k)) (tk_s (task_at tasks (pred_of g k))) (tk_d (task_at tasks (pred_of g k))) (tk_d t).
Proof. intros He. unfold need, earliestStart, start_bound. rewrite !He. repeat destruct (String.eqb _ _); lia. Qed.

Lemma fold_min_spec {A} (f : A -> Z) ks : forall e, (fold_left (fun le k => Z.min le (f k)) ks e <= e) /\
  (forall k, k ∈ ks -> fold_left (fun le k => Z.min le (f k)) ks e <= f k) /\
  (forall b, b <= e -> (forall k, k ∈ ks -> b <= f k) -> b <= fold_left (fun le k => Z.min le (f k)) ks e).
Proof.
  induction ks as [|k ks IH]; intros e; cbn [fold_left].
  - split; [done|]. split; [|done]. intros k Hk. by apply not_elem_of_nil in Hk.
  - destruct (IH (Z.min e (f k))) as (H1 & H2 & H3). split; [lia|]. split.
    + intros x [->|Hx]%elem_of_cons; [lia|by apply H2].
    + intros b Hb Hk. apply H3; [|intros x Hx; apply Hk; by right]. specialize (Hk k (list_elem_of_here _ _)). lia.
Qed.

Section Backward.
Context (g : graph) (end_ : Z) (tasks1 : list task) (Hg : graph_ok g tasks1).
Let n := List.length tasks1.

Definition late_end (tasks : list task) (t : task) : Z :=
  fold_left (fun le k => Z.min le (latestEnd t (task_at tasks (succ_of g k)) (dp_timing (dependency g k)))) (tk_succs t) end_.
Definition late (tasks : list task) (t : task) : task := with_late t (late_end tasks t - tk_d t) (late_end tasks t).

Record backward_inv (after : list nat) (tasks : list task) : Prop := {
  bi_length : List.length tasks = n;
  bi_ahead : forall i, i ∉ after -> tasks !! i = tasks1 !! i;
  bi_late : forall i t1, i ∈ after -> tasks1 !! i = Some t1 -> tasks !! i = Some (late tasks t1)
}.

Lemma late_same tasks tasks' t : (forall k, k ∈ tk_succs t -> task_at tasks' (succ_of g k) = task_at tasks (succ_of g k)) ->
  late tasks' t = late tasks t.
Proof.
  intros H. assert (He : late_end tasks' t = late_end tasks t); [|unfold late; by rewrite He].
  unfold late_end. revert H. generalize end_. induction (tk_succs t) as [|k ks IH]; intros e H; [done|]. cbn [fold_left].
  rewrite (H k) by left. apply IH. intros x Hx. apply H. by right.
Qed.

Lemma backward_step i after tasks : backward_inv after tasks -> i ∉ after -> (i < n)%nat ->
  (forall j, j ∈ after -> forall k, k ∈ out_of g j -> succ_of g k ∈ after) -> (forall k, k ∈ out_of g i -> succ_of g k ∈ after) ->
  backward_inv (i :: after) (backward g end_ tasks i).
Proof.
  intros H Hi Hn Ha Hai. destruct (lookup_lt_is_Some_2 tasks1 i Hn) as [t1 Ht1].
  assert (Hti : tasks !! i = Some t1) by (by rewrite (bi_ahead _ _ H i Hi)).
  assert (Hout : backward g end_ tasks i = <[ i := late tasks t1 ]> tasks) by (unfold backward; by rewrite (task_at_lookup _ _ _ Hti)).
  assert (Hsame : forall j t, j ∈ i :: after -> tasks1 !! j = Some t -> late (<[ i := late tasks t1 ]> tasks) t = late tasks t).
  { intros j t Hj Ht. apply late_same. intros k Hk. rewrite (go_succs g tasks1 Hg j t Ht) in Hk.
    unfold task_at. rewrite list_lookup_insert_ne; [done|]. intros He. rewrite He in Hi.
    apply elem_of_cons in Hj as [->|Hj]; [by apply Hi, Hai|by apply Hi, (Ha j Hj)]. }
  rewrite Hout. split.
  - rewrite length_insert. apply H.
  - intros j Hj. rewrite list_lookup_insert_ne by set_solver. apply (bi_ahead _ _ H). set_solver.
  - intros j t Hj Ht. rewrite (Hsame j t Hj Ht). destruct (decide (i = j)) as [<-|Hne].
    + rewrite Ht1 in Ht. injection Ht as <-. apply list_lookup_insert_eq. rewrite (bi_length _ _ H). done.
    + rewrite list_lookup_insert_ne by done. apply (bi_late _ _ H); [set_solver|done].
Qed.

Lemma backward_all before : forall after tasks, NoDup (before ++ after) -> (forall i, i ∈ before -> (i < n)%nat) ->
  (forall j, j ∈ after -> forall k, k ∈ out_of g j -> succ_of g k ∈ after) ->
  (forall b i a, before = b ++ i :: a -> forall k, k ∈ out_of g i -> succ_of g k ∈ a ++ after) ->
  backward_inv after tasks -> backward_inv (before ++ after) (fold_left (backward g end_) (rev before) tasks).
Proof.
  induction before as [|i before IH] using rev_ind; intros after tasks Hnd Hn Ha Hb H; [done|].
  rewrite rev_app_distr. cbn [rev app fold_left]. rewrite <- app_assoc in *. cbn [app] in *. apply IH.
  - done.
  - intros j Hj. apply Hn. set_solver.
  - intros j [->|Hj]%elem_of_cons k Hk; [|right; by eapply Ha]. pose proof (Hb before i [] eq_refl k Hk) as Hin. cbn in Hin. by right.
  - intros b j a -> k Hk. specialize (Hb b j (a ++ [i])). rewrite <- app_assoc in Hb. specialize (Hb eq_refl k Hk). by rewrite <- app_assoc in Hb.
  - apply backward_step; [done| | |done|intros k Hk; by apply (Hb before i [] eq_refl)].
    + apply NoDup_app in Hnd as (_ & _ & Hnd). by apply NoDup_cons in Hnd as [Hnd _].
    + apply Hn. set_solver.
Qed.

(** In an order, what a task points at comes after it. *)
Lemma in_turn_after order : NoDup order -> in_turn g order -> (forall i, (i < n)%nat -> i ∈ order) ->
  forall b i a, order = b ++ i :: a -> forall k, k ∈ out_of g i -> succ_of g k ∈ a.
Proof.
  intros Hnd Ht Hall b i a Ho k Hk. apply in_out_of in Hk as [Hk Hp]. destruct (go_ends g tasks1 Hg k Hk) as [_ Hs].
  pose proof (Hall _ Hs) as Hin. apply list_elem_of_split in Hin as (b' & a' & Ho').
  assert (Hib : i ∈ b') by (rewrite <- Hp; apply (Ht b' (succ_of g k) a' Ho'); by apply in_into).
  pose proof (position_in i b' (succ_of g k :: a') Hib) as Hpos. rewrite <- Ho' in Hpos.
  rewrite Ho in Hnd, Hpos. rewrite (position_before b i a Hnd) in Hpos.
  assert (Hin : succ_of g k ∈ b ++ i :: a) by (rewrite <- Ho, Ho'; set_solver).
  apply elem_of_app in Hin as [Hin|[Hin|Hin]%elem_of_cons]; [|subst i|done].
  - exfalso. pose proof (position_in (succ_of g k) b (i :: a) Hin) as Hps. rewrite <- Ho in Hnd, Hps.
    rewrite Ho' in Hnd, Hps. rewrite (position_before b' _ a' Hnd) in Hps. lia.
  - exfalso. rewrite <- Ho, Ho' in Hnd. apply NoDup_app in Hnd as (_ & Hd & _). apply (Hd _ Hib). rewrite Hin. left.
Qed.

Lemma backward_pass order : order ≡ₚ seq 0 n -> in_turn g order ->
  backward_inv order (fold_left (backward g end_) (rev order) tasks1).
Proof.
  intros Hp Ht. assert (Hnd : NoDup order) by (rewrite Hp; apply NoDup_ListNoDup, seq_NoDup).
  assert (Hall : forall i, i ∈ order <-> (i < n)%nat) by (intros i; rewrite Hp, list_elem_of_In, in_seq; lia).
  rewrite <- (app_nil_r order) at 1. apply backward_all.
  - by rewrite app_nil_r.
  - apply Hall.
  - intros j Hj. by apply not_elem_of_nil in Hj.
  - intros b i a Ho k Hk. rewrite app_nil_r. eapply in_turn_after; [done|done|by apply Hall|done|done].
  - split; [done|done|]. intros i t1 Hi. by apply not_elem_of_nil in Hi.
Qed.

(** The late starts. *)
Section Late.
Context (order : list nat) (tasks2 : list task).
Context (Hp : order ≡ₚ seq 0 n) (Ht : in_turn g order) (H : backward_inv order tasks2).
Let d i := tk_d (task_at tasks2 i).
Let ls i := tk_ls (task_at tasks2 i).

Lemma in_order i : i ∈ order <-> (i < n)%nat.
Proof. rewrite Hp, list_elem_of_In, in_seq. lia. Qed.

Lemma late_at i : (i < n)%nat -> exists t1, tasks1 !! i = Some t1 /\ task_at tasks2 i = late tasks2 t1.
Proof.
  intros Hi. destruct (lookup_lt_is_Some_2 tasks1 i Hi) as [t1 Ht1]. exists t1. split; [done|].
  apply task_at_lookup. apply (bi_late _ _ H); [by apply in_order|done].
Qed.

Lemma late_le i : (i < n)%nat -> tk_le (task_at tasks2 i) = ls i + d i.
Proof. intros Hi. destruct (late_at i Hi) as (t1 & _ & Hlate). unfold ls, d. rewrite Hlate. cbn. lia. Qed.

(** The late end is the largest that the end and the successors' late dates
    allow. *)
Lemma late_min i : (i < n)%nat ->
  let bound k := latestEnd (task_at tasks2 i) (task_at tasks2 (succ_of g k)) (dp_timing (dependency g k)) in
  ls i + d i <= end_ /\ (forall k, k ∈ out_of g i -> ls i + d i <= bound k) /\
  (forall b, b <= end_ -> (forall k, k ∈ out_of g i -> b <= bound k) -> b <= ls i + d i).
Proof.
  intros Hi. cbv zeta. rewrite <- late_le by done. destruct (late_at i Hi) as (t1 & Ht1 & Hlate). rewrite Hlate. cbn [late tk_le with_late].
  unfold late_end. rewrite (go_succs g tasks1 Hg i t1 Ht1).
  exact (fold_min_spec (fun k => latestEnd t1 (task_at tasks2 (succ_of g k)) (dp_timing (dependency g k))) (out_of g i) end_).
Qed.

Lemma late_bound k y : (k < List.length (gr_deps g))%nat ->
  y + d (pred_of g k) <= latestEnd (task_at tasks2 (pred_of g k)) (task_at tasks2 (succ_of g k)) (dp_timing (dependency g k)) <->
  start_bound (dp_timing (dependency g k)) y (d (pred_of g k)) (d (succ_of g k)) <= ls (succ_of g k).
Proof.
  intros Hk. destruct (go_ends g tasks1 Hg k Hk) as [_ Hs]. pose proof (late_le _ Hs) as Hl. unfold latestEnd, start_bound. rewrite Hl.
  fold (ls (succ_of g k)). fold (d (pred_of g k)). repeat destruct (String.eqb _ _); lia.
Qed.

Lemma start_bound_mono timing a b dp ds : a <= b -> start_bound timing a dp ds <= start_bound timing b dp ds.
Proof. unfold start_bound. repeat destruct (String.eqb _ _); lia. Qed.

(** They keep every dependency and the end, and no starts that do are later. *)
Lemma late_starts :
  (forall i, (i < n)%nat -> ls i + d i <= end_) /\
  (forall k, (k < List.length (gr_deps g))%nat -> keeps g d ls k) /\
  (forall x, (forall i, (i < n)%nat -> x i + d i <= end_) -> (forall k, (k < List.length (gr_deps g))%nat -> keeps g d x k) ->
     forall i, (i < n)%nat -> x i <= ls i).
Proof.
  split; [intros i Hi; by apply late_min|]. split.
  - intros k Hk. destruct (go_ends g tasks1 Hg k Hk) as [Hpr _]. apply (late_bound k (ls (pred_of g k)) Hk).
    apply (late_min _ Hpr). by apply in_out_of.
  - intros x Hend Hx.
    assert (Hsuf : forall a b, order = b ++ a -> forall i, i ∈ a -> x i <= ls i).
    { induction a as [|i a IH]; intros b Ho j Hj; [by apply not_elem_of_nil in Hj|].
      specialize (IH (b ++ [i])). rewrite <- app_assoc in IH. specialize (IH Ho).
      apply elem_of_cons in Hj as [->|Hj]; [|by apply IH].
      assert (Hi : (i < n)%nat) by (apply in_order; rewrite Ho; set_solver). destruct (late_min i Hi) as (_ & _ & Hmax).
      enough (x i + d i <= ls i + d i) by lia. apply Hmax; [by apply Hend|]. intros k Hk.
      assert (Hs : succ_of g k ∈ a).
      { eapply (in_turn_after order); [rewrite Hp; apply NoDup_ListNoDup, seq_NoDup|done|by apply in_order|exact Ho|done]. }
      apply in_out_of in Hk as [Hk Hpk]. specialize (Hx k Hk). unfold keeps in Hx. specialize (IH _ Hs).
      rewrite <- Hpk in *. apply (late_bound k (x (pred_of g k)) Hk). lia. }
    intros i Hi. apply (Hsuf order []); [done|by apply in_order].
Qed.
End Late.
End Backward.

(** ** What the first loops build *)

Record read_ok (index : gmap ID nat) (tasks : list task) : Prop := {
  ro_index : forall id i, index !! id = Some i -> exists t, tasks !! i = Some t /\ en_id (tk_entry t) = id;
  ro_bare : Forall (fun t => tk_preds t = [] /\ tk_succs t = []) tasks
}.

Lemma read_entries_ok parents entries : forall index tasks unscheduled origin, read_ok index tasks ->
  let '(index', tasks', _, _) := fold_left (read_entry parents) entries (index, tasks, unscheduled, origin) in read_ok index' tasks'.
Proof.
  induction entries as [|entry entries IH]; intros index tasks unscheduled origin H; [done|]. cbn [fold_left read_entry].
  destruct (index !! en_id entry) eqn:E; [by apply IH|]. destruct (dates entry) as [[start finish]|]; [|by apply IH]. apply IH. split.
  - intros id i. destruct (decide (id = en_id entry)) as [->|Hne].
    + rewrite lookup_insert_eq. intros [= <-]. eexists. split; [by rewrite list_lookup_middle|done].
    + rewrite lookup_insert_ne by done. intros Hi. destruct (ro_index _ _ H id i Hi) as (t & Ht & He). exists t.
      split; [by apply lookup_app_l_Some|done].
  - apply Forall_app. split; [apply H|by repeat constructor].
Qed.

Lemma map_result_spec {A B} (f : A -> res B) xs : forall ys, map_result f xs = Ok ys ->
  List.length ys = List.length xs /\ forall i x, xs !! i = Some x -> exists y, ys !! i = Some y /\ f x = Ok y.
Proof.
  induction xs as [|x xs IH]; intros ys H; cbn [map_result] in H.
  - injection H as <-. split; [done|]. intros i x Hx. by rewrite lookup_nil in Hx.
  - apply bind_ok in H as [y [Hy H]]. apply bind_ok in H as [ys' [Hys H]]. injection H as <-. destruct (IH ys' Hys) as [Hl Hi].
    split; [cbn; by rewrite Hl|]. intros [|i] x' Hx'; cbn in *; [injection Hx' as <-; by exists y|by apply Hi].
Qed.

Lemma place_same days t t' : place days t = Ok t' -> same_task t t' /\ tk_e t' = tk_s t' + tk_d t'.
Proof.
  unfold place. intros H. apply bind_ok in H as [s [_ H]]. apply bind_ok in H as [last [_ H]].
  destruct (if en_milestone (tk_entry t) then _ else _) as [s' d']. injection H as <-. split; [by split|done].
Qed.

Lemma placed_ok index days tasks tasks' : read_ok index tasks -> map_result (place days) tasks = Ok tasks' ->
  read_ok index tasks' /\ Forall (fun t => tk_e t = tk_s t + tk_d t) tasks'.
Proof.
  intros H Hm. destruct (map_result_spec _ _ _ Hm) as [Hl Hi].
  assert (Hback : forall i t', tasks' !! i = Some t' -> exists t, tasks !! i = Some t /\ place days t = Ok t').
  { intros i t' Ht'. destruct (lookup_lt_is_Some_2 tasks i) as [t Ht]; [rewrite <- Hl; by eapply lookup_lt_Some|].
    exists t. split; [done|]. destruct (Hi i t Ht) as (t'' & Ht'' & Hp). congruence. }
  split; [split|].
  - intros id i Hid. destruct (ro_index _ _ H id i Hid) as (t & Ht & He). destruct (Hi i t Ht) as (t' & Ht' & Hp).
    exists t'. split; [done|]. apply place_same in Hp as [[Hent _ _ _ _] _]. by rewrite Hent.
  - apply Forall_lookup. intros i t' Ht'. destruct (Hback i t' Ht') as (t & Ht & Hp). apply place_same in Hp as [[_ H1 H2 _ _] _].
    rewrite H1, H2. pose proof (ro_bare _ _ H) as Hb. rewrite Forall_lookup in Hb. by apply (Hb i).
  - apply Forall_lookup. intros i t' Ht'. destruct (Hback i t' Ht') as (t & _ & Hp). apply place_same in Hp as [_ Hp]. exact Hp.
Qed.

(** Adding a dependency. *)
Section Add.
Context (index : gmap ID nat) (deps : list Dependency) (dep : Dependency).
Let g := mkGraph index deps.
Let g' := mkGraph index (deps ++ [dep]).
Let k := List.length deps.

Lemma add_old j : (j < k)%nat -> dependency g' j = dependency g j.
Proof. intros Hj. unfold dependency, g, g'. cbn [gr_deps]. by rewrite lookup_app_l. Qed.

Lemma add_new_dep : dependency g' k = dep.
Proof. unfold dependency, g'. cbn [gr_deps]. by rewrite list_lookup_middle. Qed.

Lemma add_filter (f f' : nat -> bool) : (forall j, (j < k)%nat -> f' j = f j) ->
  List.filter f' (seq 0 (List.length (gr_deps g'))) = List.filter f (seq 0 (List.length (gr_deps g))) ++ if f' k then [k] else [].
Proof.
  intros H. unfold g, g'. cbn [gr_deps]. rewrite length_app. cbn [List.length]. rewrite Nat.add_1_r, seq_S, List.filter_app. cbn [List.filter].
  fold k. rewrite Nat.add_0_l. f_equal. apply filter_ext_in. intros j Hj. apply in_seq in Hj. apply H. lia.
Qed.

Lemma add_into i : into g' i = into g i ++ if Nat.eqb (succ_of g' k) i then [k] else [].
Proof. apply add_filter. intros j Hj. unfold succ_of. by rewrite (add_old j Hj). Qed.
Lemma add_out_of i : out_of g' i = out_of g i ++ if Nat.eqb (pred_of g' k) i then [k] else [].
Proof. apply add_filter. intros j Hj. unfold pred_of. by rewrite (add_old j Hj). Qed.

Lemma add_graph tasks p s : graph_ok g tasks -> index !! dp_predecessor dep = Some p -> index !! dp_successor dep = Some s ->
  p <> s -> (p < List.length tasks)%nat -> (s < List.length tasks)%nat ->
  is_summary tasks p = false -> is_summary tasks s = false ->
  graph_ok g' (alter (with_pred k) s (alter (with_succ k) p tasks)).
Proof.
  intros H Hp Hs Hne Hpl Hsl Hsp Hss.
  assert (Hpred : pred_of g' k = p) by (unfold pred_of; rewrite add_new_dep; cbn; by rewrite Hp).
  assert (Hsucc : succ_of g' k = s) by (unfold succ_of; rewrite add_new_dep; cbn; by rewrite Hs).
  set (tasks' := alter _ s _). assert (Hl : List.length tasks' = List.length tasks) by (unfold tasks'; by rewrite !length_alter).
  assert (Hat : forall i t', tasks' !! i = Some t' -> exists t, tasks !! i = Some t /\ tk_summary t' = tk_summary t /\
    tk_preds t' = tk_preds t ++ (if Nat.eqb s i then [k] else []) /\ tk_succs t' = tk_succs t ++ (if Nat.eqb p i then [k] else [])).
  { intros i t'. unfold tasks'. destruct (Nat.eqb_spec s i) as [<-|Hsi].
    - rewrite list_lookup_alter_eq, list_lookup_alter_ne by done. destruct (tasks !! s) as [t|] eqn:E; [|done]. intros [= <-]. exists t.
      destruct (Nat.eqb_spec p s); [done|]. by rewrite app_nil_r.
    - rewrite list_lookup_alter_ne by done. destruct (Nat.eqb_spec p i) as [<-|Hpi].
      + rewrite list_lookup_alter_eq. destruct (tasks !! p) as [t|] eqn:E; [|done]. intros [= <-]. exists t. by rewrite app_nil_r.
      + rewrite list_lookup_alter_ne by done. intros Ht. exists t'. by rewrite !app_nil_r. }
  split.
  - intros j Hj. rewrite Hl. unfold g' in Hj. cbn [gr_deps] in Hj. rewrite length_app in Hj. cbn in Hj.
    destruct (decide (j = k)) as [->|Hjk]; [by rewrite Hpred, Hsucc|]. assert (Hj' : (j < k)%nat) by (unfold k in *; lia).
    unfold pred_of, succ_of. rewrite (add_old j Hj'). by apply (go_ends g tasks H).
  - intros i t' Ht'. destruct (Hat i t' Ht') as (t & Ht & _ & -> & _). rewrite add_into, Hsucc. by rewrite (go_preds g tasks H i t Ht).
  - intros i t' Ht'. destruct (Hat i t' Ht') as (t & Ht & _ & _ & ->). rewrite add_out_of, Hpred. by rewrite (go_succs g tasks H i t Ht).
  - intros i t' Ht' Hsum. destruct (Hat i t' Ht') as (t & Ht & Hst & -> & ->). rewrite Hst in Hsum.
    destruct (go_summaries g tasks H i t Ht Hsum) as [-> ->]. unfold is_summary in *.
    destruct (Nat.eqb_spec s i) as [->|]; [rewrite Ht in Hss; congruence|]. destruct (Nat.eqb_spec p i) as [->|]; [rewrite Ht in Hsp; congruence|done].
Qed.
End Add.

Record built (index : gmap ID nat) (tasks : list task) (deps : list Dependency) : Prop := {
  bu_graph : graph_ok (mkGraph index deps) tasks;
  bu_index : forall id i, index !! id = Some i -> exists t, tasks !! i = Some t /\ en_id (tk_entry t) = id;
  bu_lengths : Forall (fun t => tk_e t = tk_s t + tk_d t) tasks
}.

Lemma add_dependency_built index tasks deps dep : built index tasks deps ->
  let '(tasks', deps') := add_dependency index (tasks, deps) dep in built index tasks' deps'.
Proof.
  intros H. cbn [add_dependency]. destruct (index !! dp_predecessor dep) as [p|] eqn:Ep; [|done].
  destruct (index !! dp_successor dep) as [s|] eqn:Es; [|done]. destruct (_ || _) eqn:E; [done|]. bools. apply Nat.eqb_neq in H0.
  set (dep' := mkDependency _ _ _). set (k := List.length deps).
  destruct (bu_index _ _ _ H _ _ Ep) as (tp & Htp & Hidp), (bu_index _ _ _ H _ _ Es) as (ts & Hts & Hids).
  assert (Hat : forall i t, tasks !! i = Some t -> exists t', alter (with_pred k) s (alter (with_succ k) p tasks) !! i = Some t' /\
    tk_entry t' = tk_entry t).
  { intros i t Ht. destruct (decide (i = s)) as [->|]; [|destruct (decide (i = p)) as [->|]].
    - rewrite list_lookup_alter_eq, list_lookup_alter_ne, Ht by done. by eexists.
    - rewrite list_lookup_alter_ne, list_lookup_alter_eq, Ht by done. by eexists.
    - rewrite !list_lookup_alter_ne, Ht by done. by eexists. }
  split.
  - eapply (add_graph index deps dep' tasks p s); try done; [apply H|by eapply lookup_lt_Some|by eapply lookup_lt_Some].
  - intros id i Hid. destruct (bu_index _ _ _ H id i Hid) as (t & Ht & He). destruct (Hat i t Ht) as (t' & Ht' & He').
    exists t'. split; [done|]. by rewrite He'.
  - apply Forall_alter; [apply Forall_alter; [apply H|]|]; intros t Ht Hl; done.
Qed.

Lemma add_dependencies_built index dependencies : forall tasks deps, built index tasks deps ->
  let '(tasks', deps') := fold_left (add_dependency index) dependencies (tasks, deps) in built index tasks' deps'.
Proof.
  induction dependencies as [|dep dependencies IH]; intros tasks deps H; [done|]. cbn [fold_left].
  pose proof (add_dependency_built index tasks deps dep H) as H1. destruct (add_dependency index (tasks, deps) dep) as [tasks1 deps1]. by apply IH.
Qed.

(** Tasks without dependencies are a graph. *)
Lemma bare_built index tasks : read_ok index tasks -> Forall (fun t => tk_e t = tk_s t + tk_d t) tasks -> built index tasks [].
Proof.
  intros [Hi Hb] Hl. split; [|done|done]. rewrite Forall_lookup in Hb. split; [intros k Hk; cbn in Hk; lia| | |].
  - intros i t Ht. by apply (Hb i).
  - intros i t Ht. by apply (Hb i).
  - intros i t Ht _. by apply (Hb i).
Qed.

(** Whatever a plan holds, the graph that is scheduled is sound. *)
Lemma prepare_ok calendar entries dependencies g days tasks : prepare calendar entries dependencies = Ok (Some (g, days, tasks)) ->
  built (gr_index g) tasks (gr_deps g).
Proof.
  unfold prepare, read_plan. pose proof (read_entries_ok (parents_of entries) entries ∅ [] [] None) as Hr.
  destruct (fold_left (read_entry _) entries _) as [[[index tasks0] unscheduled] origin]. intros H. destruct origin as [origin|]; [|done].
  apply bind_ok in H as [tasks1 [Hm H]]. assert (Hread : read_ok index tasks0).
  { apply Hr. split; [intros id i Hi; by rewrite lookup_empty in Hi|constructor]. }
  destruct (placed_ok index _ _ _ Hread Hm) as [[Hi Hb] Hl].
  pose proof (add_dependencies_built index dependencies tasks1 []) as Ha.
  destruct (fold_left (add_dependency index) dependencies (tasks1, [])) as [tasks2 deps]. injection H as <- <- <-. apply Ha.
  apply bare_built; [by split|done].
Qed.

(** ** A run *)

Lemma graph_same g tasks tasks' : graph_ok g tasks -> List.length tasks' = List.length tasks ->
  (forall i t, tasks !! i = Some t -> exists t', tasks' !! i = Some t' /\ same_task t t') -> graph_ok g tasks'.
Proof.
  intros H Hl Hsame.
  assert (Hback : forall i t', tasks' !! i = Some t' -> exists t, tasks !! i = Some t /\ same_task t t').
  { intros i t' Ht'. destruct (lookup_lt_is_Some_2 tasks i) as [t Ht]; [rewrite <- Hl; by eapply lookup_lt_Some|].
    destruct (Hsame i t Ht) as (t'' & Ht'' & Hs). exists t. split; [done|]. congruence. }
  split.
  - intros k Hk. rewrite Hl. by apply (go_ends g tasks H).
  - intros i t' Ht'. destruct (Hback i t' Ht') as (t & Ht & [_ -> _ _ _]). by apply (go_preds g tasks H).
  - intros i t' Ht'. destruct (Hback i t' Ht') as (t & Ht & [_ _ -> _ _]). by apply (go_succs g tasks H).
  - intros i t' Ht'. destruct (Hback i t' Ht') as (t & Ht & [_ -> -> -> _]). by apply (go_summaries g tasks H i).
Qed.

Section Run.
Context (g : graph) (days : list Z) (tasks0 tasks : list task) (conflicts : list Conflict) (end_ : Z).
Context (Hg : graph_ok g tasks0) (Hlen : Forall (fun t => tk_e t = tk_s t + tk_d t) tasks0).
Context (Hrun : schedule_tasks g days tasks0 = Ok (tasks, conflicts, end_)).
Let n := List.length tasks0.
Let m := List.length (gr_deps g).

Lemma run_passes : exists order tasksF, order ≡ₚ seq 0 n /\ in_turn g order /\
  forward_inv g days tasks0 order tasksF conflicts /\
  end_ = plan_end (rollUp tasksF (gr_index g)) /\
  tasks = fold_left (backward g end_) (rev order) (rollUp tasksF (gr_index g)).
Proof.
  unfold schedule_tasks in Hrun. apply bind_ok in Hrun as [order [Ho H]]. apply bind_ok in H as [[tasksF conflictsF] [Hf H]].
  injection H as <- <- <-. destruct (topological_spec g tasks0 Hg) as [(_ & order' & Ho' & Hp & Ht)|[_ Ho']]; [|congruence].
  assert (order' = order) as -> by congruence. exists order, tasksF. split; [done|]. split; [done|]. split; [|done]. by eapply forward_pass.
Qed.

(** What a run leaves of a task. *)
Lemma settled_same tasksF t0 : same_task t0 (settled g tasksF t0) /\ tk_d (settled g tasksF t0) = tk_d t0 /\
  (tk_e t0 = tk_s t0 + tk_d t0 -> tk_e (settled g tasksF t0) = tk_s (settled g tasksF t0) + tk_d (settled g tasksF t0)).
Proof. unfold settled. destruct (fold_left _ _ _); [destruct (movable t0)|]; (split; [by split|done]). Qed.

Lemma run_tasks : exists order tasksF tasks1, order ≡ₚ seq 0 n /\ in_turn g order /\
  forward_inv g days tasks0 order tasksF conflicts /\ tasks1 = rollUp tasksF (gr_index g) /\ end_ = plan_end tasks1 /\
  List.length tasks1 = n /\ graph_ok g tasks1 /\ backward_inv g end_ tasks1 order tasks /\
  (forall i t0, tasks0 !! i = Some t0 -> exists t1, tasksF !! i = Some (settled g tasksF t0) /\ tasks1 !! i = Some t1 /\
     same_task t0 t1 /\ tk_e t1 = tk_s t1 + tk_d t1 /\ (rolled t0 = false -> t1 = settled g tasksF t0) /\
     tasks !! i = Some (late g end_ tasks t1)).
Proof.
  destruct run_passes as (order & tasksF & Hp & Ht & Hf & He & Hb). set (tasks1 := rollUp tasksF (gr_index g)) in *.
  destruct (rollUp_frame tasksF (gr_index g)) as [Hl1 Hr]. fold tasks1 in Hl1, Hr. rewrite (fi_length _ _ _ _ _ _ Hf) in Hl1. fold n in Hl1.
  assert (Hall : forall i, i ∈ order <-> (i < n)%nat) by (intros i; rewrite Hp, list_elem_of_In, in_seq; lia).
  assert (H1 : forall i t0, tasks0 !! i = Some t0 -> exists t1, tasksF !! i = Some (settled g tasksF t0) /\ tasks1 !! i = Some t1 /\
     same_task t0 t1 /\ tk_e t1 = tk_s t1 + tk_d t1 /\ (rolled t0 = false -> t1 = settled g tasksF t0)).
  { intros i t0 Ht0. assert (Hi : i ∈ order) by (apply Hall; by eapply lookup_lt_Some).
    pose proof (fi_settled _ _ _ _ _ _ Hf i t0 Hi Ht0) as HtF. destruct (Hr i _ HtF) as (t1 & Ht1 & Hs & Hrl & Hel).
    destruct (settled_same tasksF t0) as (Hs0 & _ & Hel0). exists t1. split; [done|]. split; [done|]. split; [by eapply same_task_trans|].
    rewrite Forall_lookup in Hlen. split; [apply Hel, Hel0, (Hlen i t0 Ht0)|]. intros Hro. apply Hrl. by rewrite (proj1 (rolled_same _ _ Hs0)). }
  assert (Hg1 : graph_ok g tasks1).
  { eapply graph_same; [exact Hg|done|]. intros i t0 Ht0. destruct (H1 i t0 Ht0) as (t1 & _ & Ht1 & Hs & _). by exists t1. }
  assert (Hb1 : backward_inv g end_ tasks1 order tasks).
  { rewrite Hb. apply backward_pass; [done|by rewrite Hl1|done]. }
  exists order, tasksF, tasks1. repeat (split; [done|]). intros i t0 Ht0. destruct (H1 i t0 Ht0) as (t1 & HF & Ht1 & Hs & Hel & Hro).
  exists t1. repeat (split; [done|]). apply (bi_late _ _ _ _ _ Hb1); [|done]. apply Hall. by eapply lookup_lt_Some.
Qed.
(** The ends of a dependency are not rolled, so their dates are those of the
    forward pass. *)
Lemma run_ends : exists order tasksF, forward_inv g days tasks0 order tasksF conflicts /\
  (forall i, i ∈ order <-> (i < n)%nat) /\
  (forall i t0, tasks0 !! i = Some t0 -> exists t, tasks !! i = Some t /\ tasksF !! i = Some (settled g tasksF t0) /\ same_task t0 t /\
     (rolled t0 = false -> tk_s t = tk_s (settled g tasksF t0) /\ tk_e t = tk_e (settled g tasksF t0) /\ tk_d t = tk_d t0)) /\
  (forall k t t', (k < m)%nat -> tk_d t' = tk_d t -> need g tasks t' k = need g tasksF t k) /\
  (forall i t, tasks !! i = Some t -> exists t0, tasks0 !! i = Some t0).
Proof.
  destruct run_tasks as (order & tasksF & tasks1 & Hp & _ & Hf & _ & _ & Hl1 & _ & Hb & H). exists order, tasksF.
  assert (Hfin : forall i t0, tasks0 !! i = Some t0 -> exists t, tasks !! i = Some t /\ tasksF !! i = Some (settled g tasksF t0) /\ same_task t0 t /\
     (rolled t0 = false -> tk_s t = tk_s (settled g tasksF t0) /\ tk_e t = tk_e (settled g tasksF t0) /\ tk_d t = tk_d t0)).
  { intros i t0 Ht0. destruct (H i t0 Ht0) as (t1 & HF & Ht1 & Hs & _ & Hro & Ht). exists (late g end_ tasks t1).
    repeat (split; [done|]). split; [by destruct Hs; split|]. intros Hf0. rewrite (Hro Hf0). cbn. repeat split. apply settled_same. }
  split; [done|]. split; [intros i; rewrite Hp, list_elem_of_In, in_seq; lia|]. split; [done|].
  split; [|intros i t Ht; apply lookup_lt_is_Some_2; apply lookup_lt_Some in Ht; rewrite (bi_length _ _ _ _ _ Hb), Hl1 in Ht; done].
  intros k t t' Hk Hd. destruct (go_ends g tasks0 Hg k Hk) as [Hpl _]. destruct (lookup_lt_is_Some_2 tasks0 _ Hpl) as [tp Htp].
  destruct (Hfin _ tp Htp) as (tp' & Htp' & HtF & _ & Hr). unfold need. rewrite (task_at_lookup _ _ _ Htp'), (task_at_lookup _ _ _ HtF).
  assert (Hsum : rolled tp = false).
  { unfold rolled. destruct (tk_summary tp) eqn:E; [|done]. destruct (go_summaries g tasks0 Hg _ tp Htp E) as [_ Hs].
    rewrite (go_succs g tasks0 Hg _ tp Htp) in Hs. assert (Hin : k ∈ out_of g (pred_of g k)) by (by apply in_out_of). rewrite Hs in Hin. by apply not_elem_of_nil in Hin. }
  destruct (Hr Hsum) as (Hss & Hee & _). unfold earliestStart. by rewrite Hss, Hee, Hd.
Qed.

Lemma with_into_plain i t0 k : tasks0 !! i = Some t0 -> k ∈ into g i -> tk_summary t0 = false.
Proof.
  intros Ht0 Hk. destruct (tk_summary t0) eqn:E; [|done]. destruct (go_summaries g tasks0 Hg i t0 Ht0 E) as [Hp _].
  rewrite (go_preds g tasks0 Hg i t0 Ht0) in Hp. rewrite Hp in Hk. by apply not_elem_of_nil in Hk.
Qed.

Lemma reported_equal tasksA tA tasksB tB k c : tk_s tB = tk_s tA -> tk_d tB = tk_d tA -> need g tasksB tB k = need g tasksA tA k ->
  reported g days tasksB tB k c <-> reported g days tasksA tA k c.
Proof. intros Hs Hd Hn. unfold reported, shown. by rewrite Hs, Hd, Hn. Qed.

(** What the pass settles keeps every dependency into a task it may move, and
    one of them exactly. *)
Lemma settled_needs tasksF t0 i : tasks0 !! i = Some t0 -> movable t0 = true ->
  (forall k, k ∈ into g i -> need g tasksF t0 k <= tk_s (settled g tasksF t0)) /\
  (into g i <> [] -> exists k, k ∈ into g i /\ tk_s (settled g tasksF t0) = need g tasksF t0 k).
Proof.
  intros Ht0 Hm. unfold settled. pose proof (largest_bound (need g tasksF t0 <$> tk_preds t0)) as Hb.
  rewrite (go_preds g tasks0 Hg i t0 Ht0) in *. rewrite Hm. destruct (fold_left largest _ None) as [earliest|].
  - destruct Hb as [Hin Hb]. cbn [tk_s with_early]. split; [intros k Hk; apply Hb; by apply list_elem_of_fmap_2|]. intros _.
    apply list_elem_of_fmap in Hin as (k & -> & Hk). by exists k.
  - apply fmap_nil_inv in Hb. rewrite Hb. split; [intros k Hk; by apply not_elem_of_nil in Hk|done].
Qed.

Lemma movable_same t t' : same_task t t' -> movable t' = movable t.
Proof. intros H. by apply rolled_same. Qed.
(** The dates of a task with a dependency into it. *)
Lemma run_dates order tasksF :
  forward_inv g days tasks0 order tasksF conflicts ->
  (forall i t0, tasks0 !! i = Some t0 -> exists t, tasks !! i = Some t /\ tasksF !! i = Some (settled g tasksF t0) /\ same_task t0 t /\
     (rolled t0 = false -> tk_s t = tk_s (settled g tasksF t0) /\ tk_e t = tk_e (settled g tasksF t0) /\ tk_d t = tk_d t0)) ->
  (forall k t t', (k < m)%nat -> tk_d t' = tk_d t -> need g tasks t' k = need g tasksF t k) ->
  forall i t t0 k, tasks !! i = Some t -> tasks0 !! i = Some t0 -> k ∈ into g i ->
    tasksF !! i = Some (settled g tasksF t0) /\ movable t = movable t0 /\
    tk_s t = tk_s (settled g tasksF t0) /\ tk_d t = tk_d (settled g tasksF t0) /\ tk_d t = tk_d t0 /\
    need g tasks t k = need g tasksF (settled g tasksF t0) k /\ need g tasks t k = need g tasksF t0 k.
Proof.
  intros _ Hfin Hneed i t t0 k Ht Ht0 Hin. destruct (Hfin i t0 Ht0) as (t' & Ht' & HtF & Hs & Hr). assert (t' = t) as -> by congruence.
  pose proof (with_into_plain i t0 k Ht0 Hin) as Hsum. apply in_into in Hin as [Hkm _].
  destruct (Hr ltac:(unfold rolled; by rewrite Hsum)) as (H1 & _ & H3). destruct (settled_same tasksF t0) as (_ & H4 & _).
  split; [done|]. split; [by apply movable_same|]. split; [done|]. split; [congruence|]. split; [done|].
  split; apply Hneed; congruence || done.
Qed.

(** A dependency is kept, or leads to a task that may not move and is reported. *)
Lemma run_kept i t k : tasks !! i = Some t -> k ∈ into g i ->
  need g tasks t k <= tk_s t \/ (movable t = false /\ exists c, c ∈ conflicts /\ reported g days tasks t k c).
Proof.
  intros Ht Hin. destruct run_ends as (order & tasksF & Hf & Hall & Hfin & Hneed & Hback). destruct (Hback i t Ht) as [t0 Ht0].
  destruct (run_dates order tasksF Hf Hfin Hneed i t t0 k Ht Ht0 Hin) as (HtF & Hm & Hs & Hd & _ & Hn & Hn0).
  destruct (Z.le_gt_cases (need g tasks t k) (tk_s t)) as [Hle|Hgt]; [by left|right]. assert (Hmf : movable t0 = false).
  { destruct (movable t0) eqn:E; [|done]. destruct (settled_needs tasksF t0 i Ht0 E) as [Hb _]. specialize (Hb k Hin). lia. }
  rewrite Hm. split; [done|]. assert (Hi : i ∈ order) by (apply Hall; by eapply lookup_lt_Some). destruct (settled_shape g tasksF t0) as (_ & Hms & _).
  destruct (fi_reported _ _ _ _ _ _ Hf i k _ Hi HtF ltac:(congruence) Hin ltac:(lia)) as [c Hc]. exists c. split.
  - apply (fi_conflicts _ _ _ _ _ _ Hf). exists i, k, (settled g tasksF t0). rewrite Hms. done.
  - by eapply reported_equal.
Qed.
(** The end of a run and the lengths of its tasks. *)
Lemma plan_end_spec ts : ts <> [] -> (forall t, t ∈ ts -> tk_e t <= plan_end ts) /\ exists t, t ∈ ts /\ tk_e t = plan_end ts.
Proof.
  intros Hne. unfold plan_end. assert (Hf : forall ts e, fold_left (fun end_ t => Z.max end_ (tk_e t)) ts e = fold_left Z.max (tk_e <$> ts) e).
  { induction ts0 as [|t0 ts0 IH]; intros e; [done|]. cbn. apply IH. }
  rewrite Hf. destruct (fold_max_spec (tk_e <$> ts) (tk_e (task_at ts 0))) as (H1 & H2 & H3). split.
  - intros t Ht. apply H2. by apply list_elem_of_fmap_2.
  - destruct H3 as [H3|H3]; [|apply list_elem_of_fmap in H3 as (t & He & Ht); by exists t].
    destruct ts as [|t ts]; [done|]. exists t. split; [left|]. by rewrite H3.
Qed.

Lemma run_late : tasks0 <> [] ->
  let d i := tk_d (task_at tasks i) in
  let s i := tk_s (task_at tasks i) in
  let ls i := tk_ls (task_at tasks i) in
  ((forall i, (i < n)%nat -> tk_e (task_at tasks i) = s i + d i /\ s i + d i <= end_) /\ exists i, (i < n)%nat /\ s i + d i = end_) /\
  (forall i, (i < n)%nat -> ls i + d i <= end_) /\
  (forall k, (k < m)%nat -> keeps g d ls k) /\
  (forall x, (forall i, (i < n)%nat -> x i + d i <= end_) -> (forall k, (k < m)%nat -> keeps g d x k) -> forall i, (i < n)%nat -> x i <= ls i).
Proof.
  intros Hne d s ls. destruct run_tasks as (order & tasksF & tasks1 & Hp & Ht & _ & _ & He & Hl1 & Hg1 & Hb & H).
  assert (Hi : forall i, (i < n)%nat -> exists t1, tasks1 !! i = Some t1 /\ tasks !! i = Some (late g end_ tasks t1) /\ tk_e t1 = tk_s t1 + tk_d t1).
  { intros i Hi. destruct (lookup_lt_is_Some_2 tasks0 i Hi) as [t0 Ht0]. destruct (H i t0 Ht0) as (t1 & _ & Ht1 & _ & Hel & _ & Htl). by exists t1. }
  assert (Hne1 : tasks1 <> []) by (intros ->; destruct tasks0; done).
  destruct (plan_end_spec tasks1 Hne1) as [Hmax (t1 & Ht1 & Hlast)]. rewrite <- He in *. split; [split|].
  - intros i Hin. destruct (Hi i Hin) as (t & Ht' & Htl & Hel). unfold s, d. rewrite (task_at_lookup _ _ _ Htl). cbn.
    specialize (Hmax t (list_elem_of_lookup_2 _ _ _ Ht')). lia.
  - apply list_elem_of_lookup in Ht1 as [i Ht1]. assert (Hin : (i < n)%nat) by (rewrite <- Hl1; by eapply lookup_lt_Some). exists i. split; [done|].
    destruct (Hi i Hin) as (t & Ht' & Htl & Hel). unfold s, d. rewrite (task_at_lookup _ _ _ Htl). cbn. assert (t = t1) as -> by congruence. lia.
  - pose proof (late_starts g end_ tasks1 Hg1 order tasks) as Hls. rewrite Hl1 in Hls. by apply Hls.
Qed.
End Run.

Lemma read_entries_origin parents entries : forall index tasks unscheduled origin, (origin <> None -> tasks <> []) ->
  let '(_, tasks', _, origin') := fold_left (read_entry parents) entries (index, tasks, unscheduled, origin) in origin' <> None -> tasks' <> [].
Proof.
  induction entries as [|entry entries IH]; intros index tasks unscheduled origin H; [done|]. cbn [fold_left read_entry].
  destruct (index !! en_id entry); [by apply IH|]. destruct (dates entry) as [[start finish]|]; [|by apply IH]. apply IH. intros _ Hn.
  by apply app_nil in Hn as [_ Hn].
Qed.

Lemma prepare_some calendar entries dependencies g days tasks : prepare calendar entries dependencies = Ok (Some (g, days, tasks)) -> tasks <> [].
Proof.
  unfold prepare, read_plan. pose proof (read_entries_origin (parents_of entries) entries ∅ [] [] None) as Ho.
  destruct (fold_left (read_entry _) entries _) as [[[index tasks0] unscheduled] origin]. intros H. destruct origin as [origin|]; [|done].
  specialize (Ho ltac:(done) ltac:(done)). apply bind_ok in H as [tasks1 [Hm H]]. destruct (map_result_spec _ _ _ Hm) as [Hl _].
  assert (Hlen : forall dependencies ts ds, List.length (fold_left (add_dependency index) dependencies (ts, ds)).1 = List.length ts).
  { induction dependencies0 as [|dep rest IH]; intros ts ds; [done|]. cbn [fold_left].
    assert (H1 : List.length (add_dependency index (ts, ds) dep).1 = List.length ts).
    { cbn [add_dependency]. destruct (index !! _); [|done]. destruct (index !! _); [|done]. destruct (_ || _); [done|]. cbn [fst]. by rewrite !length_alter. }
    destruct (add_dependency index (ts, ds) dep) as [ts1 ds1]. by rewrite IH. }
  specialize (Hlen dependencies tasks1 []). destruct (fold_left (add_dependency index) dependencies (tasks1, [])) as [tasks2 deps].
  injection H as <- <- <-. cbn [fst] in Hlen. intros ->. destruct tasks0; [done|]. cbn in *. lia.
Qed.

(** *** What a run may refuse *)

(** A step that gives a result or goes beyond the axis. *)
Definition reaches {A} (r : res A) : Prop := r = too_far \/ exists a, r = Ok a.

Lemma reaches_ok {A} (a : A) : reaches (Ok a).
Proof. right. by exists a. Qed.

Lemma reaches_bind {A B} (r : res A) (f : A -> res B) : reaches r -> (forall a, reaches (f a)) -> reaches (a ← r; f a).
Proof. intros [->|[a ->]] H; [by left|apply H]. Qed.

Lemma axis_day_reaches days i : reaches (axis_day days i).
Proof. unfold axis_day. destruct (i <? 0); [by left|]. destruct (days !! _); [apply reaches_ok|by left]. Qed.

Lemma at_or_after_reaches days target : forall i, reaches (at_or_after_from i days target).
Proof. induction days as [|d days IH]; intros i; cbn; [by left|]. destruct (target <=? d); [apply reaches_ok|apply IH]. Qed.

Lemma place_reaches days t : reaches (place days t).
Proof.
  unfold place, atOrBefore, atOrAfter. apply reaches_bind; [apply at_or_after_reaches|]. intros s.
  apply reaches_bind; [|intros last; destruct (if en_milestone _ then _ else _); apply reaches_ok].
  apply reaches_bind; [apply at_or_after_reaches|]. intros i. destruct (axis_day days i); try apply reaches_ok. destruct (_ <? _); apply reaches_ok.
Qed.

Lemma map_reaches {A B} (f : A -> res B) xs : (forall x, reaches (f x)) -> reaches (map_result f xs).
Proof.
  intros H. induction xs as [|x xs IH]; cbn; [apply reaches_ok|]. apply reaches_bind; [apply H|]. intros y.
  apply reaches_bind; [apply IH|]. intros ys. apply reaches_ok.
Qed.

Lemma fold_reaches {S X} (f : S -> X -> res S) xs : (forall s x, reaches (f s x)) -> forall s, reaches (fold_result f s xs).
Proof. intros H. induction xs as [|x xs IH]; intros s; [apply reaches_ok|]. apply (reaches_bind (f s x) (fun s => fold_result f s xs)); [apply H|apply IH]. Qed.

Lemma forward_reaches g days state i : reaches (forward g days state i).
Proof.
  destruct state as [tasks conflicts]. unfold forward. destruct (fold_left largest _ None); [|apply reaches_ok].
  destruct (movable _); [apply reaches_ok|]. destruct (_ <? _); [|apply reaches_ok]. apply reaches_bind; [|intros; apply reaches_ok].
  apply fold_reaches. intros found k. unfold conflict. destruct (_ <=? _); [apply reaches_ok|].
  apply reaches_bind; [apply axis_day_reaches|]. intros day. apply reaches_ok.
Qed.

Lemma answer_reaches g days unscheduled tasks conflicts end_ : reaches (answer g days unscheduled tasks conflicts end_).
Proof.
  apply reaches_bind; [|intros; apply reaches_bind; [apply axis_day_reaches|intros; apply reaches_ok]]. apply map_reaches. intros t. unfold placement_of.
  apply reaches_bind; [apply axis_day_reaches|]. intros start. apply reaches_bind; [|intros [s f]; apply reaches_ok].
  destruct (0 <? tk_d t); (apply reaches_bind; [apply axis_day_reaches|intros; apply reaches_ok]).
Qed.

Lemma prepare_reaches calendar entries dependencies : reaches (prepare calendar entries dependencies).
Proof.
  unfold prepare. destruct (read_plan entries) as [[[index tasks] unscheduled] origin]. destruct origin; [|apply reaches_ok].
  apply reaches_bind; [apply map_reaches, place_reaches|]. intros placed. destruct (fold_left _ _ _). apply reaches_ok.
Qed.

(** ** Properties *)


(** C37.  A plan is answered, or refused for one of four reasons: too many
    entries, no calendar, dates beyond the axis, or a loop; nothing stops the
    program.  For a loop it is refused exactly when its scheduled dependencies
    have one, and otherwise there is an order of all its entries, each after
    what it waits for. *)
Theorem plan_answered (plan : Plan) :
  ((exists r, Schedule plan = Ok r) \/ Schedule plan = too_far \/ Schedule plan = Err (WithDetail ErrConflict "planning.cycle") \/
   (MaxEntries < Z.of_nat (List.length (pl_entries plan)) /\
    Schedule plan = Err (WithParams (WithDetail ErrValidation "planning.too_many_entries") [("maximum", itoa MaxEntries)])) \/
   (pl_calendar plan = None /\ Schedule plan = Err (WithDetail ErrInternal "planning.calendar_missing"))) /\
  (forall calendar g days tasks, pl_calendar plan = Some calendar -> Z.of_nat (List.length (pl_entries plan)) <= MaxEntries ->
     prepare calendar (pl_entries plan) (pl_dependencies plan) = Ok (Some (g, days, tasks)) ->
     (Schedule plan = Err (WithDetail ErrConflict "planning.cycle") <-> ~ acyclic g) /\
     (acyclic g -> exists order, topological tasks g = Ok order /\ order ≡ₚ seq 0 (List.length tasks) /\ in_turn g order)).
Proof.
  assert (Hrun : forall g days tasks, graph_ok g tasks ->
    (acyclic g /\ reaches (schedule_tasks g days tasks)) \/
    (~ acyclic g /\ schedule_tasks g days tasks = Err (WithDetail ErrConflict "planning.cycle"))).
  { intros g days tasks Hg. unfold schedule_tasks. destruct (topological_spec g tasks Hg) as [(Hac & order & Ho & _)|[Hac Ho]]; rewrite Ho.
    - left. split; [done|]. apply (reaches_bind (fold_result _ _ _)); [apply fold_reaches, forward_reaches|]. intros [ts cs]. apply reaches_ok.
    - by right. }
  unfold Schedule. split.
  - destruct (Z.ltb_spec MaxEntries (Z.of_nat (List.length (pl_entries plan)))); [right; right; right; by left|].
    destruct (pl_calendar plan) as [calendar|]; [|right; right; right; by right].
    destruct (prepare_reaches calendar (pl_entries plan) (pl_dependencies plan)) as [->|[[[[g days] tasks]|] Hp]]; [right; by left| |].
    + rewrite Hp. cbn [mbind result_bind]. destruct (prepare_ok _ _ _ _ _ _ Hp) as [Hg _ _]. destruct g as [index deps]. cbn [gr_index gr_deps] in Hg.
      destruct (Hrun _ days tasks Hg) as [[_ [->|[[[ts cs] e] ->]]]|[_ ->]]; [right; by left| |right; right; by left]. cbn [mbind result_bind].
      destruct (answer_reaches (mkGraph index deps) days (unscheduled_of (pl_entries plan)) ts cs e) as [->|[r ->]]; [right; by left|left; by exists r].
    + rewrite Hp. left. by eexists.
  - intros calendar g days tasks Hc Hn Hp. rewrite Hc, Hp. destruct (Z.ltb_spec MaxEntries (Z.of_nat (List.length (pl_entries plan)))); [lia|].
    destruct (prepare_ok _ _ _ _ _ _ Hp) as [Hg _ _]. destruct g as [index deps]. cbn [gr_index gr_deps] in Hg. set (g := mkGraph index deps) in *.
    cbn [mbind result_bind]. split.
    + destruct (Hrun g days tasks Hg) as [[Hac Hr]|[Hac ->]]; [|by split]. split; [|done]. intros He. exfalso.
      destruct Hr as [Hr|[[[ts cs] e] Hr]]; rewrite Hr in He; [done|]. cbn [mbind result_bind] in He.
      destruct (answer_reaches g days (unscheduled_of (pl_entries plan)) ts cs e) as [Ha|[r Ha]]; rewrite Ha in He; done.
    + intros Hac. destruct (topological_spec g tasks Hg) as [(_ & order & Ho)|[Hn' _]]; [by exists order|done].
Qed.

(** C38.  The floats are what they are called, on any graph the first loops build
    of a plan with a date ([prepare_ok], [prepare_some]).  The late starts of a run - each
    entry's start with its total float - keep every scheduled dependency and the
    end of the plan all at once, and no starts that do are later for any entry:
    the total float is how far an entry may slip.  The end of the plan is where
    its last entry ends.  And where nothing is in conflict no float is negative,
    and what ends last has none: a float is negative only on a chain a conflict
    breaks. *)
Theorem floats_latest (g : graph) (days : list Z) (tasks0 tasks : list task) (conflicts : list Conflict) (end_ : Z)
    (Hbuilt : built (gr_index g) tasks0 (gr_deps g)) (Hne : tasks0 <> [])
    (Hrun : schedule_tasks g days tasks0 = Ok (tasks, conflicts, end_)) :
  let n := List.length tasks0 in
  let d i := tk_d (task_at tasks i) in
  let s i := tk_s (task_at tasks i) in
  let ls i := tk_ls (task_at tasks i) in
  ((forall i, (i < n)%nat -> s i + d i <= end_) /\ exists i, (i < n)%nat /\ s i + d i = end_) /\
  ((forall i, (i < n)%nat -> ls i + d i <= end_) /\ (forall k, (k < List.length (gr_deps g))%nat -> keeps g d ls k)) /\
  (forall x, (forall i, (i < n)%nat -> x i + d i <= end_) -> (forall k, (k < List.length (gr_deps g))%nat -> keeps g d x k) ->
     forall i, (i < n)%nat -> x i <= ls i) /\
  (conflicts = [] -> (forall i, (i < n)%nat -> 0 <= ls i - s i) /\ exists i, (i < n)%nat /\ ls i - s i = 0).
Proof.
  destruct Hbuilt as [Hg _ Hlen].
  destruct g as [index deps]. cbn [gr_index gr_deps] in Hg. set (g := mkGraph index deps) in *. intros n d s ls.
  destruct (run_late g days tasks0 tasks conflicts end_ Hg Hlen Hrun Hne) as ((Hend & i0 & Hi0 & Hlast) & Hle & Hkeep & Hmax).
  fold n in Hend, Hi0, Hle, Hkeep, Hmax. fold d s ls in Hend, Hlast, Hle, Hkeep, Hmax.
  split; [split; [intros i Hi; by apply Hend|by exists i0]|]. split; [done|]. split; [done|]. intros Hc.
  assert (Hs : forall i, (i < n)%nat -> s i <= ls i).
  { apply Hmax; [intros i Hi; by apply Hend|]. intros k Hk. destruct (go_ends g tasks0 Hg k Hk) as [Hpl Hsl].
    destruct (run_ends g days tasks0 tasks conflicts end_ Hg Hlen Hrun) as (order & tasksF & _ & _ & Hfin & _).
    destruct (lookup_lt_is_Some_2 tasks0 _ Hsl) as [t0 Ht0]. destruct (Hfin _ t0 Ht0) as (t & Ht & _).
    assert (Hin : k ∈ into g (succ_of g k)) by (by apply in_into).
    destruct (run_kept g days tasks0 tasks conflicts end_ Hg Hlen Hrun _ t k Ht Hin) as [Hn|(_ & c & Hc' & _)];
      [|rewrite Hc in Hc'; by apply not_elem_of_nil in Hc'].
    unfold keeps. unfold need, earliestStart in Hn. destruct (Hend _ Hpl) as [Hel _]. unfold s, d, start_bound. rewrite Hel in Hn.
    rewrite (task_at_lookup _ _ _ Ht). fold (s (pred_of g k)) (d (pred_of g k)). fold (s (pred_of g k)) (d (pred_of g k)) in Hn.
    repeat destruct (String.eqb _ _); lia. }
  split; [intros i Hi; specialize (Hs i Hi); lia|]. exists i0. split; [done|]. specialize (Hs i0 Hi0). specialize (Hle i0 Hi0). unfold s, d, ls in *. lia.
Qed.

(** Adding working days to a working day and counting them back agree: the
    day found is a working day, and counted with both ends included there are
    one more than were added - before or after. *)
Theorem workdays_counted (calendar : Workdays) (from n d : Z)
    (Hw : works_on calendar from = true) (H : AddWorkdays calendar from n = Ok d) :
  works_on calendar d = true /\
  (0 <= n -> from <= d /\ WorkdaysBetween calendar from d = Ok (n + 1)) /\
  (n <= 0 -> d <= from /\ WorkdaysBetween calendar d from = Ok (1 - n)).
Proof.
  unfold AddWorkdays in H. destruct (_ || _) eqn:E; [done|]. bools. set (origin := from - backwardRoom - Z.max (- n) 0 * 2) in *.
  apply bind_ok in H as [i [Hi H]]. unfold axis in *. set (N := Z.to_nat (maxReachDays + 1)) in *.
  assert (Hfrom : 0 <= from - origin) by (unfold origin, backwardRoom; lia).
  assert (Hin : from - origin < Z.of_nat N).
  { destruct (at_or_after_spec _ _ _ _ Hi) as (k & x & _ & Hx & Hle & _). apply list_elem_of_lookup_2, reach_before in Hx. lia. }
  pose proof (index_of_day calendar origin N from i (conj Hfrom Hin) Hw Hi) as ->. set (j := Z.to_nat (from - origin)) in *.
  unfold axis_day in H. destruct (Z.ltb_spec (Z.of_nat (List.length (reach calendar origin j)) + n) 0) as [|Hpos]; [done|].
  destruct (reach calendar origin N !! _) as [d'|] eqn:Hd; [|done]. injection H as ->.
  destruct (reach_lookup calendar origin N _ _ Hd) as (k & Hk & -> & Hwd & Hlen). split; [done|].
  assert (Hcount : forall a b, (a <= b)%nat -> works_on calendar (origin + Z.of_nat b) = true ->
    Z.of_nat (List.length (reach calendar (origin + Z.of_nat a) (b - a + 1))) =
    Z.of_nat (List.length (reach calendar origin b)) - Z.of_nat (List.length (reach calendar origin a)) + 1).
  { intros a b Hab Hb. pose proof (reach_app calendar origin a (b - a + 1)) as Happ. replace (a + (b - a + 1))%nat with (S b) in Happ by lia.
    rewrite reach_S, Hb in Happ. apply (f_equal (@List.length Z)) in Happ. rewrite !length_app in Happ. cbn in Happ. lia. }
  assert (Hmono : forall a b, (a < b)%nat -> works_on calendar (origin + Z.of_nat a) = true ->
    (List.length (reach calendar origin a) < List.length (reach calendar origin b))%nat).
  { intros a b Hab Ha. replace b with (a + (1 + (b - a - 1)))%nat by lia. rewrite !reach_app, reach_one, Ha, !length_app. cbn. lia. }
  replace from with (origin + Z.of_nat j) in * by lia.
  assert (HN : Z.of_nat N = maxReachDays + 1) by (unfold N, maxReachDays; lia). unfold WorkdaysBetween. split; intros Hn.
  - assert (Hjk : (j <= k)%nat) by (destruct (Nat.le_gt_cases j k) as [|Hgt]; [done|specialize (Hmono k j Hgt Hwd); lia]). split; [lia|].
    destruct (Z.ltb_spec (origin + Z.of_nat k) (origin + Z.of_nat j)); [lia|]. destruct (Z.ltb_spec maxReachDays (origin + Z.of_nat k - (origin + Z.of_nat j))); [lia|].
    replace (Z.to_nat _) with (k - j + 1)%nat by lia. f_equal. rewrite (Hcount j k Hjk Hwd). lia.
  - assert (Hjk : (k <= j)%nat) by (destruct (Nat.le_gt_cases k j) as [|Hgt]; [done|specialize (Hmono j k Hgt Hw); lia]). split; [lia|].
    destruct (Z.ltb_spec (origin + Z.of_nat j) (origin + Z.of_nat k)); [lia|]. destruct (Z.ltb_spec maxReachDays (origin + Z.of_nat j - (origin + Z.of_nat k))); [lia|].
    replace (Z.to_nat _) with (j - k + 1)%nat by lia. f_equal. rewrite (Hcount k j Hjk Hw). lia.
Qed.

(** The roll-up ends with every summary it may move spanning exactly its
    scheduled children, whatever order the plan lists them in, as long as no
    entry is above itself and the levels are no more than the entries. *)
Theorem roll_up_spans (tasks : list task) (index : gmap ID nat) (height : nat -> nat)
    (Hn : nested height tasks) (Hh : forall i, (i < List.length tasks)%nat -> (height i < List.length tasks)%nat) :
  roll_frame tasks (rollUp tasks index) /\ forall i, spans index (rollUp tasks index) i.
Proof.
  split; [apply rollUp_frame|]. apply (roll_rounds_spans index height (List.length tasks) 0); [done| |done]. intros j Hj. lia.
Qed.

(** ** A plan of four entries *)

Definition on (id : ID) (mode : string) (milestone : bool) (s e : Z) : task :=
  mkTask (mkEntry id "" mode milestone false (Some s) (Some e)) s e (e - s) 0 0 [] [] false s e.
Definition site_tasks : list task :=
  [on "dig" Manual false 2 4; on "pour" Automatic false 2 7; on "roof" Automatic false 2 5; on "inspect" Manual true 3 3].
Definition site_index : gmap ID nat := list_to_map [("dig", 0%nat); ("pour", 1%nat); ("roof", 2%nat); ("inspect", 3%nat)].
Definition follows (predecessor successor kind : string) (lag : Z) : Dependency := mkDependency predecessor successor (mkTiming kind lag).
Definition site_links : list Dependency :=
  [follows "dig" "pour" "" 0; follows "pour" "roof" StartToStart 1; follows "dig" "inspect" FinishToStart 0].
Definition site_days : list Z := (fun k => 20600 + Z.of_nat k) <$> seq 0 20.

Definition site : list task * list Dependency := fold_left (add_dependency site_index) site_links (site_tasks, []).
Definition site_graph : graph := mkGraph site_index site.2.

Example site_run :
  match schedule_tasks site_graph site_days site.1 with
  | Ok (tasks, conflicts, end_) => ((fun t => (tk_s t, tk_ls t - tk_s t)) <$> tasks, conflicts, end_)
  | _ => ([], [], 0)
  end = ([(2, 0); (4, 0); (5, 1); (3, 6)], [mkConflict "dig" "inspect" FinishToStart 20604], 9).
Proof. vm_compute. reflexivity. Qed.

Lemma site_built : built site_index site.1 site.2.
Proof.
  pose proof (add_dependencies_built site_index site_links site_tasks []) as H. unfold site. destruct (fold_left _ _ _). apply H.
  apply bare_built; [|by repeat constructor]. split; [|by repeat constructor]. intros id i Hi. unfold site_index in Hi.
  apply elem_of_list_to_map_2 in Hi. repeat (apply elem_of_cons in Hi as [[= -> ->]|Hi]; [by eexists|]). by apply not_elem_of_nil in Hi.
Qed.

Lemma site_runs : { r | schedule_tasks site_graph site_days site.1 = Ok r }.
Proof. eexists. vm_compute. reflexivity. Defined.


Lemma floats_latest_witness : exists tasks conflicts end_, schedule_tasks site_graph site_days site.1 = Ok (tasks, conflicts, end_) /\
  forall k, (k < 3)%nat -> keeps site_graph (fun i => tk_d (task_at tasks i)) (fun i => tk_ls (task_at tasks i)) k.
Proof.
  destruct site_runs as [[[tasks conflicts] end_] Hrun]. exists tasks, conflicts, end_. split; [exact Hrun|].
  assert (Hne : site.1 <> []) by discriminate.
  apply (floats_latest site_graph site_days site.1 tasks conflicts end_ site_built Hne Hrun).
Defined.

(** A milestone is the end of its day: where it may be on the day its predecessor
    finishes, the conflict names the day after. *)
Example milestone_day_late :
  (exists day, axis_day site_days 3 = Ok day /\ day = 20603) /\
  (exists tasks end_, schedule_tasks site_graph site_days site.1 = Ok (tasks, [mkConflict "dig" "inspect" FinishToStart 20604], end_)) /\
  (exists tasks end_, let moved := <[ 3%nat := with_pred 2 (on "inspect" Manual true 4 4) ]> site.1 in
     schedule_tasks site_graph site_days moved = Ok (tasks, [], end_) /\
     (fun p => (pm_start p, pm_finish p)) <$> placement_of site_graph site_days end_ tasks (task_at tasks 3) = Ok (20603, 20603)).
Proof.
  split; [by eexists|]. split; [do 2 eexists; vm_compute; reflexivity|]. do 2 eexists. split; vm_compute; reflexivity.
Qed.

(** A phase of two entries, listed before them, within a project. *)
Definition part (id parent : ID) (summary : bool) (s e : Z) : task :=
  mkTask (mkEntry id parent Automatic false false (Some s) (Some e)) s e (e - s) 0 0 [] [] summary s e.
Definition house : list task := [part "house" "" true 0 1; part "walls" "house" true 0 1; part "north" "walls" false 3 5; part "south" "walls" false 4 9].
Definition house_index : gmap ID nat := list_to_map [("house", 0%nat); ("walls", 1%nat); ("north", 2%nat); ("south", 3%nat)].
Definition house_height (i : nat) : nat := match i with 0 => 2 | 1 => 1 | _ => 0 end%nat.

Lemma roll_up_spans_witness : Forall (spans house_index (rollUp house house_index)) (seq 0 4).
Proof.
  apply Forall_forall. intros n _. revert n. apply (roll_up_spans house house_index house_height).
  - intros i j ti tj Hi Hj. do 4 (destruct i as [|i]; [do 4 (destruct j as [|j]; [injection Hi as <-; injection Hj as <-; cbn; try discriminate; lia|]); discriminate|]). discriminate.
  - intros i Hi. do 4 (destruct i as [|i]; [cbn; lia|]). cbn in Hi. lia.
Defined.

Example house_spans : (fun t => (tk_s t, tk_e t)) <$> rollUp house house_index = [(3, 9); (3, 9); (3, 5); (4, 9)].
Proof. vm_compute. reflexivity. Qed.

(** Where every day works. *)
Definition every_day : Workdays := fun _ _ _ => true.

Lemma every_day_reach from n : reach every_day from n = (fun k => from + Z.of_nat k) <$> seq 0 n.
Proof.
  unfold reach. assert (H : forall xs, List.filter (works_on every_day) xs = xs).
  { induction xs as [|x xs IH]; [done|]. cbn [List.filter]. unfold works_on at 1. destruct (day_date x) as [[y m] d]. cbn. by rewrite IH. }
  apply H.
Qed.

Lemma every_day_at from target n : forall i a, (0 <= target - from - Z.of_nat a < Z.of_nat n) ->
  at_or_after_from i ((fun k => from + Z.of_nat k) <$> seq a n) target = Ok (i + (target - from - Z.of_nat a)).
Proof.
  induction n as [|n IH]; intros i a H; [lia|]. cbn [seq]. rewrite fmap_cons. cbn [at_or_after_from].
  destruct (Z.leb_spec target (from + Z.of_nat a)); [f_equal; lia|]. rewrite IH by lia. f_equal. lia.
Qed.

Lemma workdays_counted_witness : AddWorkdays every_day 20605 5 = Ok 20610 /\ WorkdaysBetween every_day 20605 20610 = Ok 6.
Proof.
  assert (H : AddWorkdays every_day 20605 5 = Ok 20610).
  { unfold AddWorkdays, atOrAfter, axis, axis_day. rewrite every_day_reach, every_day_at by (unfold backwardRoom, maxReachDays; lia).
    destruct (_ || _) eqn:E; [done|]. cbn [mbind result_bind]. rewrite list_lookup_fmap, lookup_seq_lt by (unfold backwardRoom, maxReachDays; lia). done. }
  split; [exact H|]. apply (workdays_counted every_day 20605 5 20610); [reflexivity|exact H|lia].
Defined.
