(* ===== verification/SetElement.v ===== *)
(** * The sets an entry carries: an observed-remove merge

    Models core/domain/model/work/SetElement.go: labels, members, watchers and
    attachments are sets whose elements carry the clock reading of their last
    addition and of their last removal; two replicas merge element by element.
    The theorems: the outcome of merging replicas depends only on which tags
    occurred, not on order, grouping or repetition, and an element is present
    exactly when one of its additions is later than all of its removals. *)

From Stdlib Require Import ZArith Lia String List Bool Sorting.Sorted.
From stdpp Require Import base list strings gmap.
From S2P Require Import Prelude Shared Hlc.

Open Scope string_scope.
Open Scope list_scope.
Open Scope Z_scope.

Record SetElement := mkSetElement { ElementID : ID; AddedAt : HLC; RemovedAt : HLC }.

#[export] Instance set_element_eq_dec : EqDecision SetElement.
Proof. solve_decision. Defined.

Definition IsPresent (e : SetElement) : bool :=
  if hlc_is_zero (AddedAt e) then false
  else hlc_is_zero (RemovedAt e) || After (AddedAt e) (RemovedAt e).

(** Which of two readings is the later one; the zero reading counts as
    absent. *)
Definition laterOf (a b : HLC) : HLC :=
  if hlc_is_zero a then b
  else if hlc_is_zero b then a
  else if After b a then b
  else a.

(** The body of the merge loop: one element into the map of merged ones. *)
Definition merge_element (merged : gmap ID SetElement) (element : SetElement) : gmap ID SetElement :=
  match merged !! ElementID element with
  | None => <[ElementID element := element]> merged
  | Some known =>
      <[ElementID element :=
          mkSetElement (ElementID element)
            (laterOf (AddedAt known) (AddedAt element))
            (laterOf (RemovedAt known) (RemovedAt element))]> merged
  end.

(** The elements of the map, sorted by identifier. *)
Definition sorted_elements (merged : gmap ID SetElement) : list SetElement :=
  sort_by (cmp_on ElementID String.compare) (map_to_list merged).*2.

Definition MergeSetElements (mine theirs : list SetElement) : list SetElement :=
  sorted_elements (foldl merge_element (foldl merge_element ∅ mine) theirs).

Definition PresentElements (elements : list SetElement) : list ID :=
  map ElementID (List.filter IsPresent elements).

(** ** Readings a replica holds *)

(** The absent reading, or one after the first instant of year 1. *)
Definition reading_ok (h : HLC) : Prop := h = zero_hlc \/ zero_time < hlc_physical h.

Definition element_ok (e : SetElement) : Prop := reading_ok (AddedAt e) /\ reading_ok (RemovedAt e).

Lemma reading_zero h : reading_ok h -> hlc_is_zero h = true -> h = zero_hlc.
Proof. intros [->|Hp] Hz; [done|]. unfold hlc_is_zero, time_is_zero in Hz. bools. lia. Qed.

Lemma after_zero h : reading_ok h -> hlc_is_zero h = false -> After h zero_hlc = true.
Proof.
  intros [->|Hp] Hz; [done|]. apply compare_physical_gt. exact Hp.
Qed.

(** On such readings, [laterOf] is the maximum of the clock order. *)
Lemma laterOf_max a b : reading_ok a -> reading_ok b -> laterOf a b = cmp_max hlc_compare a b.
Proof.
  intros Ha Hb. unfold laterOf.
  destruct (hlc_is_zero a) eqn:Za.
  - apply reading_zero in Za as ->; [|done]. unfold cmp_max.
    destruct (hlc_is_zero b) eqn:Zb.
    + by apply reading_zero in Zb as ->.
    + pose proof (after_zero b Hb Zb) as H. apply after_gt in H. by rewrite H.
  - destruct (hlc_is_zero b) eqn:Zb.
    + apply reading_zero in Zb as ->; [|done]. rewrite cmp_max_comm by apply _. unfold cmp_max.
      pose proof (after_zero a Ha Za) as H. apply after_gt in H. by rewrite H.
    + unfold After, cmp_max. by destruct (hlc_compare b a).
Qed.

Lemma laterOf_ok a b : reading_ok a -> reading_ok b -> reading_ok (laterOf a b).
Proof. intros. unfold laterOf. repeat case_match; done. Qed.

(** ** The elements of the map *)

Lemma elem_sorted_elements m e :
  (forall i x, m !! i = Some x -> ElementID x = i) ->
  e ∈ sorted_elements m <-> m !! ElementID e = Some e.
Proof.
  intros Hkey. unfold sorted_elements. rewrite sort_by_perm, list_elem_of_fmap. split.
  - intros ([i x] & -> & Hin). apply elem_of_map_to_list in Hin. cbn.
    by rewrite (Hkey i x Hin).
  - intros H. exists (ElementID e, e). split; [done|]. by apply elem_of_map_to_list.
Qed.

(** ** What the merge computes: per identifier, the latest tags *)

Definition is_latest (P : HLC -> Prop) (x : HLC) : Prop :=
  P x /\ forall y, P y -> hlc_compare y x <> Gt.

Definition added_in (l : list SetElement) (i : ID) (h : HLC) : Prop :=
  exists e, e ∈ l /\ ElementID e = i /\ AddedAt e = h.
Definition removed_in (l : list SetElement) (i : ID) (h : HLC) : Prop :=
  exists e, e ∈ l /\ ElementID e = i /\ RemovedAt e = h.

Definition latest_tags (l : list SetElement) (i : ID) (x : SetElement) : Prop :=
  ElementID x = i /\ is_latest (added_in l i) (AddedAt x) /\ is_latest (removed_in l i) (RemovedAt x).

Lemma is_latest_unique P Q x y :
  (forall h, P h <-> Q h) -> is_latest P x -> is_latest Q y -> x = y.
Proof.
  intros HPQ [Px Hx] [Qy Hy]. apply (cmp_le_antisym hlc_compare).
  - apply Hy. by apply HPQ.
  - apply Hx. by apply HPQ.
Qed.

Lemma is_latest_extend P Q x h :
  reading_ok x -> reading_ok h -> (forall y, Q y <-> P y \/ y = h) ->
  is_latest P x -> is_latest Q (laterOf x h).
Proof.
  intros Hx Hh HQ [Px Hmax]. rewrite laterOf_max by done. split.
  - apply HQ. destruct (cmp_max_cases hlc_compare x h) as [[-> _]|[-> _]]; auto.
  - intros y Hy. apply HQ in Hy as [Hy| ->].
    + eapply cmp_le_trans; [apply _|by apply Hmax|apply cmp_max_le_l, _].
    + apply cmp_max_le_r, _.
Qed.

Lemma latest_tags_unique l l' i x y :
  (forall e, ElementID e = i -> e ∈ l <-> e ∈ l') ->
  latest_tags l i x -> latest_tags l' i y -> x = y.
Proof.
  intros Hl (Hi & Ha & Hr) (Hi' & Ha' & Hr'). destruct x, y; cbn in *. f_equal; [congruence| |].
  - eapply is_latest_unique; [|done|done]. intros h. unfold added_in. split;
      intros (e & He & <- & <-); exists e; (split; [by apply Hl|done]).
  - eapply is_latest_unique; [|done|done]. intros h. unfold removed_in. split;
      intros (e & He & <- & <-); exists e; (split; [by apply Hl|done]).
Qed.

Definition merged_map (l : list SetElement) : gmap ID SetElement := foldl merge_element ∅ l.

Lemma merged_map_app a b : merged_map (a ++ b) = foldl merge_element (merged_map a) b.
Proof. unfold merged_map. by rewrite foldl_app. Qed.

Lemma tag_snoc (f : SetElement -> HLC) l e i h : ElementID e = i ->
  (exists x, x ∈ l ++ [e] /\ ElementID x = i /\ f x = h) <->
  (exists x, x ∈ l /\ ElementID x = i /\ f x = h) \/ h = f e.
Proof.
  intros He. split.
  - intros (x & Hin & Hi & Hf). apply elem_of_app in Hin as [Hin|Hin].
    + left; eauto.
    + apply list_elem_of_singleton in Hin as ->. by right.
  - intros [(x & Hin & Hi & Hf)| ->].
    + exists x. split; [apply elem_of_app; by left|done].
    + exists e. split; [apply elem_of_app; right; by apply list_elem_of_singleton|done].
Qed.

Lemma latest_tags_other l e i x :
  ElementID e <> i -> latest_tags l i x -> latest_tags (l ++ [e]) i x.
Proof.
  intros Hne (Hid & Ha & Hr).
  assert (Hmem : forall z, ElementID z = i -> z ∈ l ++ [e] <-> z ∈ l).
  { intros z Hz. rewrite elem_of_app, list_elem_of_singleton. intuition congruence. }
  split; [done|].
  split; (split; [destruct Ha as [(y & ? & ? & ?) _], Hr as [(w & ? & ? & ?) _]|]).
  - exists y. by rewrite Hmem.
  - intros h (z & Hz & Hi & <-). apply Ha. exists z. by rewrite Hmem in Hz.
  - exists w. by rewrite Hmem.
  - intros h (z & Hz & Hi & <-). apply Hr. exists z. by rewrite Hmem in Hz.
Qed.

Lemma latest_tags_first l e :
  (forall z, z ∈ l -> ElementID z <> ElementID e) -> latest_tags (l ++ [e]) (ElementID e) e.
Proof.
  intros Hnone.
  assert (Honly : forall z, z ∈ l ++ [e] -> ElementID z = ElementID e -> z = e).
  { intros z [Hz| ->%list_elem_of_singleton]%elem_of_app; [|done]. by intros ?%Hnone. }
  split; [done|].
  split; (split; [exists e; rewrite elem_of_app, list_elem_of_singleton; auto|]);
    intros h (z & Hz & Hi & <-); rewrite (Honly z) by done; by rewrite (cmp_refl hlc_compare).
Qed.

Lemma latest_tags_again l e known :
  element_ok known -> element_ok e -> latest_tags l (ElementID e) known ->
  latest_tags (l ++ [e]) (ElementID e)
    (mkSetElement (ElementID e) (laterOf (AddedAt known) (AddedAt e))
       (laterOf (RemovedAt known) (RemovedAt e))).
Proof.
  intros [Hka Hkr] [Hea Her] (_ & Ha & Hr). split; [done|]. cbn. split.
  - eapply is_latest_extend; [done|done| |exact Ha]. intros h. by apply tag_snoc.
  - eapply is_latest_extend; [done|done| |exact Hr]. intros h. by apply tag_snoc.
Qed.

(** The loop invariant: an identifier is in the map exactly when an element
    carries it, and then with its latest tags. *)
Lemma merged_map_spec l : Forall element_ok l -> forall i,
  match merged_map l !! i with
  | None => forall e, e ∈ l -> ElementID e <> i
  | Some x => latest_tags l i x /\ element_ok x
  end.
Proof.
  induction l as [|e l IH] using rev_ind; intros Hok i.
  - unfold merged_map. cbn. rewrite lookup_empty. intros e He. by apply elem_of_nil in He.
  - apply Forall_app in Hok as [Hok [He _]%Forall_cons]. specialize (IH Hok).
    rewrite merged_map_app. cbn [foldl]. unfold merge_element.
    destruct (decide (ElementID e = i)) as [<-|Hne].
    + specialize (IH (ElementID e)).
      destruct (merged_map l !! ElementID e) as [known|] eqn:E; rewrite lookup_insert_eq.
      * destruct IH as [Hl Hk]. split; [by apply latest_tags_again|].
        destruct Hk, He. split; by apply laterOf_ok.
      * split; [by apply latest_tags_first|done].
    + specialize (IH i).
      assert (Hi : forall v, <[ElementID e := v]> (merged_map l) !! i = merged_map l !! i)
        by (intros; by apply lookup_insert_ne).
      destruct (merged_map l !! ElementID e); rewrite Hi;
        (destruct (merged_map l !! i); [destruct IH; split; [by apply latest_tags_other|done]|]);
        (intros z [Hz| ->%list_elem_of_singleton]%elem_of_app; [by apply IH|done]).
Qed.

(** Two lists with the same elements merge to the same map. *)
Lemma merged_map_ext l l' :
  Forall element_ok l -> Forall element_ok l' -> (forall e, e ∈ l <-> e ∈ l') ->
  merged_map l = merged_map l'.
Proof.
  intros Hok Hok' Hl. apply map_eq. intros i.
  pose proof (merged_map_spec l Hok i) as H1. pose proof (merged_map_spec l' Hok' i) as H2.
  destruct (merged_map l !! i) as [x|], (merged_map l' !! i) as [y|].
  - f_equal. eapply latest_tags_unique; [|apply H1|apply H2]. auto.
  - destruct H1 as [(_ & [(e & He & Hi & _) _] & _) _]. by destruct (H2 e (proj1 (Hl e) He)).
  - destruct H2 as [(_ & [(e & He & Hi & _) _] & _) _]. by destruct (H1 e (proj2 (Hl e) He)).
  - done.
Qed.

Lemma merged_map_keys l : Forall element_ok l -> forall i x, merged_map l !! i = Some x -> ElementID x = i.
Proof. intros Hok i x H. pose proof (merged_map_spec l Hok i) as Hs. rewrite H in Hs. apply Hs. Qed.

Lemma merged_map_ok l : Forall element_ok l -> forall i x, merged_map l !! i = Some x -> element_ok x.
Proof. intros Hok i x H. pose proof (merged_map_spec l Hok i) as Hs. rewrite H in Hs. apply Hs. Qed.

Lemma elem_sorted_merged l e : Forall element_ok l ->
  e ∈ sorted_elements (merged_map l) <-> merged_map l !! ElementID e = Some e.
Proof. intros Hok. apply elem_sorted_elements. by apply merged_map_keys. Qed.

Lemma sorted_merged_ok l : Forall element_ok l -> Forall element_ok (sorted_elements (merged_map l)).
Proof.
  intros Hok. apply Forall_forall. intros e He. apply elem_sorted_merged in He; [|done].
  by eapply merged_map_ok.
Qed.

Lemma MergeSetElements_map a b : MergeSetElements a b = sorted_elements (merged_map (a ++ b)).
Proof. unfold MergeSetElements. by rewrite merged_map_app. Qed.

(** The outcome of a merge carries the same tags as what was merged. *)
Lemma merged_map_fixed l : Forall element_ok l ->
  merged_map (sorted_elements (merged_map l)) = merged_map l.
Proof.
  intros Hok. apply map_eq. intros i.
  pose proof (merged_map_spec _ (sorted_merged_ok l Hok) i) as H.
  destruct (merged_map (sorted_elements (merged_map l)) !! i) as [y|].
  - destruct H as [(Hi & [(a & Ha & Hia & Hya) _] & [(r & Hr & Hir & Hyr) _]) _].
    apply elem_sorted_merged in Ha; [|done]. apply elem_sorted_merged in Hr; [|done].
    rewrite Hia in Ha. rewrite Hir, Ha in Hr. injection Hr as <-. rewrite Ha. f_equal.
    destruct y, a; cbn in *; congruence.
  - destruct (merged_map l !! i) as [x|] eqn:E; [|done]. exfalso.
    assert (ElementID x = i) by (by eapply merged_map_keys). subst.
    by apply (H x); [apply elem_sorted_merged|].
Qed.

(** Merging into the outcome of a merge is merging into its inputs. *)
Lemma merged_map_absorb a b : Forall element_ok a ->
  merged_map (sorted_elements (merged_map a) ++ b) = merged_map (a ++ b).
Proof. intros Ha. by rewrite !merged_map_app, merged_map_fixed. Qed.

(** Merging a sequence of replicas is merging everything they hold. *)
Lemma merge_all l rs : Forall element_ok l -> Forall (Forall element_ok) rs ->
  foldl MergeSetElements (sorted_elements (merged_map l)) rs =
  sorted_elements (merged_map (l ++ concat rs)).
Proof.
  revert l. induction rs as [|r rs IH]; intros l Hl Hrs.
  - by rewrite app_nil_r.
  - apply Forall_cons in Hrs as [Hr Hrs]. cbn [foldl concat].
    rewrite MergeSetElements_map, merged_map_absorb by done.
    rewrite IH, app_assoc; [done| |done]. by apply Forall_app.
Qed.

(** ** Membership *)

(** The latest addition beats the latest removal exactly when some addition
    beats every removal. *)
Lemma present_latest l i x : Forall element_ok l -> latest_tags l i x ->
  IsPresent x = true <->
  exists e, e ∈ l /\ ElementID e = i /\ hlc_is_zero (AddedAt e) = false /\
    forall r, r ∈ l -> ElementID r = i ->
      hlc_is_zero (RemovedAt r) = true \/ After (AddedAt e) (RemovedAt r) = true.
Proof.
  intros Hok (Hi & [(a & Ha & Hia & Hxa) Hmaxa] & [(r & Hr & Hir & Hxr) Hmaxr]).
  rewrite Forall_forall in Hok. unfold IsPresent. split.
  - destruct (hlc_is_zero (AddedAt x)) eqn:Hz; [done|]. intros Hp. exists a.
    rewrite Hxa. repeat split; try done. intros r' Hr' Hir'.
    destruct (hlc_is_zero (RemovedAt r')) eqn:Hz'; [by left|]. right.
    assert (Hle : hlc_compare (RemovedAt r') (RemovedAt x) <> Gt) by (apply Hmaxr; by exists r').
    apply orb_true_iff in Hp as [Hp|Hp].
    + apply reading_zero in Hp; [|rewrite <- Hxr; by apply Hok].
      destruct (Hok r' Hr') as [_ Hokr]. apply (after_zero _ Hokr), after_gt in Hz'.
      rewrite Hp in Hle. congruence.
    + apply after_gt in Hp. apply after_gt. destruct (hlc_compare (RemovedAt r') (RemovedAt x)) eqn:E.
      * apply (cmp_eq_iff (cmp := hlc_compare)) in E. by rewrite E.
      * eapply (cmp_gt_trans hlc_compare); [exact Hp|]. by apply (cmp_gt_lt hlc_compare).
      * done.
  - intros (e & He & Hie & Hz & Hall).
    assert (Hle : hlc_compare (AddedAt e) (AddedAt x) <> Gt) by (apply Hmaxa; by exists e).
    destruct (Hok e He) as [Hoke _].
    destruct (hlc_is_zero (AddedAt x)) eqn:Hzx.
    + apply reading_zero in Hzx; [|rewrite <- Hxa; by apply Hok].
      apply (after_zero _ Hoke), after_gt in Hz. rewrite Hzx in Hle. congruence.
    + destruct (Hall r Hr Hir) as [H|H]; rewrite Hxr in H; [by rewrite H|].
      apply orb_true_iff; right. apply after_gt in H. apply after_gt.
      destruct (hlc_compare (AddedAt e) (AddedAt x)) eqn:E; [| |done].
      * apply (cmp_eq_iff (cmp := hlc_compare)) in E. by rewrite <- E.
      * eapply (cmp_gt_trans hlc_compare); [|exact H]. by apply (cmp_gt_lt hlc_compare).
Qed.

Lemma elem_present elements i :
  i ∈ PresentElements elements <-> exists x, x ∈ elements /\ IsPresent x = true /\ ElementID x = i.
Proof.
  unfold PresentElements. rewrite list_elem_of_In, in_map_iff. split.
  - intros (x & <- & Hx). apply filter_In in Hx as [Hin Hp]. exists x. by rewrite list_elem_of_In.
  - intros (x & Hin & Hp & <-). exists x. split; [done|]. apply filter_In. by rewrite <- list_elem_of_In.
Qed.

(** ** Properties *)

(** C4.  Two devices that merged replicas
    carrying the same tags hold the same set, in whatever order and grouping
    they merged them and however often a replica was merged again. *)
Theorem set_merge_converges rs rs' :
  Forall (Forall element_ok) rs -> Forall (Forall element_ok) rs' ->
  (forall e, e ∈ concat rs <-> e ∈ concat rs') ->
  foldl MergeSetElements [] rs = foldl MergeSetElements [] rs'.
Proof.
  intros H H' Hel. change (@nil SetElement) with (sorted_elements (merged_map [])).
  rewrite !merge_all by done. cbn [app]. f_equal.
  apply merged_map_ext; by (apply Forall_concat || idtac).
Qed.

(** A merged set holds a tag exactly when one side saw it added and neither side
    saw it removed at or after that moment; the merged elements are in strict
    order of their identifiers. *)
Theorem set_merge_present mine theirs :
  Forall element_ok mine -> Forall element_ok theirs ->
  (forall i, i ∈ PresentElements (MergeSetElements mine theirs) <->
     exists e, e ∈ mine ++ theirs /\ ElementID e = i /\ hlc_is_zero (AddedAt e) = false /\
       forall r, r ∈ mine ++ theirs -> ElementID r = i ->
         hlc_is_zero (RemovedAt r) = true \/ After (AddedAt e) (RemovedAt r) = true) /\
  StronglySorted (fun a b => String.compare (ElementID a) (ElementID b) = Lt)
    (MergeSetElements mine theirs).
Proof.
  intros Hm Ht. assert (Hok : Forall element_ok (mine ++ theirs)) by (by apply Forall_app).
  rewrite MergeSetElements_map. split.
  - intros i. rewrite elem_present. split.
    + intros (x & Hx & Hp & Hi). apply elem_sorted_merged in Hx; [|done].
      pose proof (merged_map_spec _ Hok (ElementID x)) as Hs. rewrite Hx in Hs. subst i.
      apply (present_latest _ _ x Hok); [apply Hs|done].
    + intros He. pose proof (merged_map_spec _ Hok i) as Hs.
      destruct (merged_map (mine ++ theirs) !! i) as [x|] eqn:E.
      * destruct Hs as [Hs _]. exists x. pose proof (merged_map_keys _ Hok _ _ E) as Hk.
        rewrite elem_sorted_merged, Hk by done. split; [done|]. split; [|done].
        by apply (present_latest _ _ x Hok Hs).
      * destruct He as (e & He & Hie & _). by destruct (Hs e He).
  - apply sort_by_strict; [apply _|].
    rewrite <- (list_fmap_compose snd ElementID).
    erewrite list_fmap_ext; [apply NoDup_fst_map_to_list|].
    intros n [i x] Hin. cbn. apply (merged_map_keys _ Hok).
    apply elem_of_map_to_list. by eapply list_elem_of_lookup_2.
Qed.

(** *** Witnesses *)

Definition tag (ms : Z) (device : string) : HLC := mkHLC (ms * Millisecond) 0 device.

Definition phone : list SetElement :=
  [mkSetElement "blocked" (tag 10 "phone") zero_hlc; mkSetElement "urgent" (tag 30 "phone") (tag 20 "phone")].
Definition laptop : list SetElement :=
  [mkSetElement "blocked" (tag 10 "phone") (tag 25 "laptop")].

Lemma replica_ok (l : list SetElement) : forallb (fun e =>
    (bool_decide (AddedAt e = zero_hlc) || (zero_time <? hlc_physical (AddedAt e))) &&
    (bool_decide (RemovedAt e = zero_hlc) || (zero_time <? hlc_physical (RemovedAt e)))) l = true ->
  Forall element_ok l.
Proof.
  intros H. apply Forall_forall. intros e He. rewrite forallb_forall in H.
  specialize (H e (proj1 (list_elem_of_In _ _) He)). bools.
  split; [destruct (orb_prop _ _ H)|destruct (orb_prop _ _ H0)]; bools; [left|right|left|right]; done.
Qed.

Lemma set_merge_converges_witness :
  foldl MergeSetElements [] [phone; laptop] = foldl MergeSetElements [] [laptop; phone; laptop] /\
  PresentElements (foldl MergeSetElements [] [phone; laptop]) = ["urgent"].
Proof.
  split; [|vm_compute; reflexivity].
  apply (set_merge_converges [phone; laptop] [laptop; phone; laptop]).
  - repeat constructor; apply replica_ok; vm_compute; reflexivity.
  - repeat constructor; apply replica_ok; vm_compute; reflexivity.
  - intros e. cbn [concat app]. rewrite !elem_of_app. tauto.
Defined.

Lemma set_merge_present_witness : "urgent" ∈ PresentElements (MergeSetElements phone laptop).
Proof.
  apply (set_merge_present phone laptop).
  - apply replica_ok; vm_compute; reflexivity.
  - apply replica_ok; vm_compute; reflexivity.
  - exists (mkSetElement "urgent" (tag 30 "phone") (tag 20 "phone")).
    split; [by right; left|]. split; [done|]. split; [done|].
    intros r Hr Hi. right. unfold phone, laptop in Hr. cbn [app] in Hr.
    apply list_elem_of_In in Hr. cbn [In] in Hr.
    destruct Hr as [<-|[<-|[<-|[]]]]; reflexivity || discriminate.
Defined.
