(* ===== verification/Ordering.v ===== *)
(** * Rank keys: fractional indexing

    Models core/domain/service/Ordering.go: the position of a row is a byte
    string between its neighbours'.  A key is an integer part, whose first
    letter declares its length, and a base 62 fraction without a trailing zero.
    The theorems: for every pair of storable bounds in order the generator
    answers a key strictly between them, it never runs out of recursion nor out
    of an index, and its answer can itself be stored - with one exception at
    the very bottom of the space, which the last theorem exhibits. *)

From Stdlib Require Import ZArith Lia String Ascii List Bool.
From stdpp Require Import base list strings.
From S2P Require Import Prelude Shared Hlc.

Open Scope string_scope.
Open Scope list_scope.
Open Scope Z_scope.

Definition orderKeyDigits : string :=
  "0123456789ABCDEFGHIJKLMNOPQRSTUVWXYZabcdefghijklmnopqrstuvwxyz".
Definition orderKeyZero : string := "a0".
Definition smallestOrderInteger : string := String "A" (zeros 26).

(** [strings.IndexByte], -1 when absent. *)
Fixpoint index_byte (i : Z) (s : string) (c : ascii) : Z :=
  match s with
  | EmptyString => -1
  | String d rest => if Ascii.eqb d c then i else index_byte (i + 1) rest c
  end.

Definition digitIndex (digit : ascii) : Z := index_byte 0 orderKeyDigits digit.

(** [orderKeyDigits[i]]; out of range is a run-time panic. *)
Definition digit_at (i : Z) : option ascii :=
  if i <? 0 then None else String.get (Z.to_nat i) orderKeyDigits.

(** The digit of an index that is in range where it is used. *)
Definition digit_of (i : Z) : ascii := default "0"%char (digit_at i).

Definition malformed (key : string) : Error := detailed ErrInternal "ordering.key_malformed" [("key", key)].
Definition bounds_invalid (previous next : string) : Error :=
  detailed ErrInternal "ordering.bounds_invalid" [("previous", previous); ("next", next)].

Definition cut (s : string) (n : nat) : string := str_drop n s.

Definition byte_in (lo hi c : ascii) : bool :=
  let n := N_of_ascii c in ((N_of_ascii lo <=? n) && (n <=? N_of_ascii hi))%N.

Definition integerLength (head : ascii) : res nat :=
  if byte_in "a" "z" head then Ok (N.to_nat (N_of_ascii head - N_of_ascii "a") + 2)%nat
  else if byte_in "A" "Z" head then Ok (N.to_nat (N_of_ascii "Z" - N_of_ascii head) + 2)%nat
  else Err (malformed (String head "")).

Definition splitOrderKey (key : string) : res (string * string) :=
  match key with
  | EmptyString => Panic
  | String head _ =>
      match integerLength head with
      | Ok length =>
          if Nat.ltb (String.length key) length then Ok (key, "")
          else Ok (str_take length key, str_drop length key)
      | _ => Ok (key, "")
      end
  end.

Definition validateInteger (integer : string) : res unit :=
  match integer with
  | EmptyString => Err (malformed integer)
  | String head _ =>
      length ← integerLength head;
      if Nat.eqb (String.length integer) length then Ok tt else Err (malformed integer)
  end.

(** The carry loop over the digits, last digit first: the carry it ends with
    and the digits it wrote. *)
Fixpoint increment_digits (digits : string) : bool * string :=
  match digits with
  | EmptyString => (true, "")
  | String d rest =>
      let '(carry, rest') := increment_digits rest in
      if carry then
        let next := digitIndex d + 1 in
        if next =? 62 then (true, String (digit_of 0) rest')
        else (false, String (digit_of next) rest')
      else (false, String d rest')
  end.

Fixpoint decrement_digits (digits : string) : bool * string :=
  match digits with
  | EmptyString => (true, "")
  | String d rest =>
      let '(borrow, rest') := decrement_digits rest in
      if borrow then
        let previous := digitIndex d - 1 in
        if previous <? 0 then (true, String (digit_of 61) rest')
        else (false, String (digit_of previous) rest')
      else (false, String d rest')
  end.

(** Byte arithmetic on a head letter. *)
Definition next_byte (c : ascii) : ascii := ascii_of_N (N_of_ascii c + 1).
Definition prev_byte (c : ascii) : ascii := ascii_of_N (N_of_ascii c - 1).

Definition incrementInteger (integer : string) : res string :=
  _ ← validateInteger integer;
  match integer with
  | EmptyString => Panic
  | String head digits =>
      let '(carry, digits) := increment_digits digits in
      if negb carry then Ok (String head digits)
      else if Ascii.eqb head "Z" then Ok orderKeyZero
      else if Ascii.eqb head "z" then Ok ""
      else
        let digits :=
          if (N_of_ascii "a" <? N_of_ascii head + 1)%N then digits +:+ String (digit_of 0) ""
          else str_drop 1 digits in
        Ok (String (next_byte head) digits)
  end.

Definition decrementInteger (integer : string) : res string :=
  _ ← validateInteger integer;
  match integer with
  | EmptyString => Panic
  | String head digits =>
      let '(borrow, digits) := decrement_digits digits in
      if negb borrow then Ok (String head digits)
      else if Ascii.eqb head "a" then Ok (String "Z" (String (digit_of 61) ""))
      else if Ascii.eqb head "A" then Ok ""
      else
        let digits :=
          if (N_of_ascii head - 1 <? N_of_ascii "Z")%N then digits +:+ String (digit_of 61) ""
          else str_drop 1 digits in
        Ok (String (prev_byte head) digits)
  end.

(** How many leading digits of [b] are those of [a], an exhausted [a] counting
    as zeros. *)
Fixpoint common_digits (a b : string) : nat :=
  match b with
  | EmptyString => O
  | String cb b' =>
      match a with
      | EmptyString => if Ascii.eqb "0" cb then S (common_digits "" b') else O
      | String ca a' => if Ascii.eqb ca cb then S (common_digits a' b') else O
      end
  end.

Definition head_index (s : string) (none : Z) : Z :=
  match s with EmptyString => none | String c _ => digitIndex c end.

Definition index_or_panic (i : Z) : res ascii :=
  match digit_at i with Some c => Ok c | None => Panic end.

(** The recursion ends because every call shortens [a] or [b]; [fuel] bounds
    its depth, and running out of it stands for a stack overflow. *)
Fixpoint midpoint (fuel : nat) (a b : string) : res string :=
  match fuel with
  | O => Panic
  | S fuel' =>
      if negb (String.eqb b "") && str_leb b a then Err (bounds_invalid a b)
      else if str_ends_with "0" a || (negb (String.eqb b "") && str_ends_with "0" b) then
        Err (malformed (a +:+ " " +:+ b))
      else
        let common := common_digits a b in
        if negb (Nat.eqb common 0) then
          rest ← midpoint fuel' (cut a common) (str_drop common b);
          Ok (str_take common b +:+ rest)
        else
          let lower := head_index a 0 in
          let upper := head_index b 62 in
          if 1 <? upper - lower then
            c ← index_or_panic ((lower + upper + 1) / 2);
            Ok (String c "")
          else if Nat.ltb 1 (String.length b) then Ok (str_take 1 b)
          else
            c ← index_or_panic lower;
            rest ← midpoint fuel' (cut a 1) "";
            Ok (String c rest)
  end.

(** Enough for every call, as [midpoint_between] shows. *)
Definition midpoint_fuel (a b : string) : nat := S (String.length a + String.length b).
Definition midpoint_of (a b : string) : res string := midpoint (midpoint_fuel a b) a b.

Definition keyBefore (next : string) : res string :=
  '(integer, fraction) ← splitOrderKey next;
  if String.eqb integer smallestOrderInteger then
    middle ← midpoint_of "" fraction;
    Ok (integer +:+ middle)
  else if str_ltb integer next then Ok integer
  else
    decremented ← decrementInteger integer;
    if String.eqb decremented "" then
      Err (detailed ErrInternal "ordering.space_exhausted" [("next", next)])
    else Ok decremented.

Definition keyAfter (previous : string) : res string :=
  '(integer, fraction) ← splitOrderKey previous;
  incremented ← incrementInteger integer;
  if negb (String.eqb incremented "") then Ok incremented
  else
    middle ← midpoint_of fraction "";
    Ok (integer +:+ middle).

Definition keyBetween (previous next : string) : res string :=
  '(previousInteger, previousFraction) ← splitOrderKey previous;
  '(nextInteger, nextFraction) ← splitOrderKey next;
  if String.eqb previousInteger nextInteger then
    middle ← midpoint_of previousFraction nextFraction;
    Ok (previousInteger +:+ middle)
  else
    incremented ← incrementInteger previousInteger;
    if negb (String.eqb incremented "") && str_ltb incremented next then Ok incremented
    else
      middle ← midpoint_of previousFraction "";
      Ok (previousInteger +:+ middle).

Definition validateOrderKey (key : string) : res unit :=
  if String.eqb key "" then Ok tt
  else if negb (str_forallb (fun c => 0 <=? digitIndex c) key) then Err (malformed key)
  else if String.eqb key smallestOrderInteger then Err (malformed key)
  else
    '(integer, fraction) ← splitOrderKey key;
    _ ← validateInteger integer;
    if str_ends_with "0" fraction then Err (malformed key) else Ok tt.

Definition OrderKeyBetween (previous next : string) : res string :=
  _ ← validateOrderKey previous;
  _ ← validateOrderKey next;
  if negb (String.eqb previous "") && negb (String.eqb next "") && str_leb next previous then
    Err (bounds_invalid previous next)
  else if String.eqb previous "" && String.eqb next "" then Ok orderKeyZero
  else if String.eqb previous "" then keyBefore next
  else if String.eqb next "" then keyAfter previous
  else keyBetween previous next.

Definition ValidOrderKey (key : string) : res unit :=
  if String.eqb key "" || negb (is_ok (validateOrderKey key)) then
    Err (field_refused ErrValidation "/order_key" "sync.order_key_malformed" [("key", key)])
  else Ok tt.

Definition OrderKeyAfter (previous : string) : res string := OrderKeyBetween previous "".

(** ** Digits *)

#[global] Arguments digitIndex : simpl never.
#[global] Arguments digit_of : simpl never.
#[global] Arguments digit_at : simpl never.
#[global] Arguments index_or_panic : simpl never.

Definition is_digit (c : ascii) : bool := 0 <=? digitIndex c.
Definition all_digits (s : string) : bool := str_forallb is_digit s.

Definition all_bytes : list ascii := List.map ascii_of_nat (List.seq 0 256).

Lemma all_bytes_complete c : In c all_bytes.
Proof.
  rewrite <- (ascii_nat_embedding c). apply in_map. apply in_seq.
  pose proof (nat_ascii_bounded c). lia.
Qed.

(** Facts about single bytes are checked on all 256 of them. *)
Lemma byte_check (f : ascii -> bool) : forallb f all_bytes = true -> forall c, f c = true.
Proof. intros H c. rewrite forallb_forall in H. apply H, all_bytes_complete. Qed.

Lemma byte_check2 (f : ascii -> ascii -> bool) :
  forallb (fun c => forallb (f c) all_bytes) all_bytes = true -> forall c d, f c d = true.
Proof. intros H c d. exact (byte_check (f c) (byte_check (fun c => forallb (f c) all_bytes) H c) d). Qed.

Definition same_comparison (c d : comparison) : bool :=
  match c, d with Eq, Eq | Lt, Lt | Gt, Gt => true | _, _ => false end.

Lemma digits_in_byte_order :
  forallb (fun c => forallb (fun d => implb (is_digit c && is_digit d)
    (same_comparison (Ascii.compare c d) (digitIndex c ?= digitIndex d))) all_bytes) all_bytes = true.
Proof. vm_compute. reflexivity. Qed.

Lemma digit_compare c d : is_digit c = true -> is_digit d = true ->
  Ascii.compare c d = (digitIndex c ?= digitIndex d).
Proof.
  intros Hc Hd. pose proof (byte_check2 _ digits_in_byte_order c d) as H. cbv beta in H.
  rewrite Hc, Hd in H. cbn [andb implb] in H.
  by destruct (Ascii.compare c d), (digitIndex c ?= digitIndex d).
Qed.

Lemma digit_bound c : is_digit c = true -> 0 <= digitIndex c < 62.
Proof.
  intros Hc. pose proof (byte_check (fun c => implb (is_digit c) ((0 <=? digitIndex c) && (digitIndex c <? 62)))
    ltac:(vm_compute; reflexivity) c) as H. cbv beta in H. rewrite Hc in H. cbn [implb] in H. bools. lia.
Qed.

Lemma index_check (f : Z -> bool) :
  forallb f (List.map Z.of_nat (List.seq 0 62)) = true -> forall i, 0 <= i < 62 -> f i = true.
Proof.
  intros H i Hi. rewrite forallb_forall in H. apply H. apply in_map_iff. exists (Z.to_nat i).
  rewrite in_seq. lia.
Qed.

Lemma digit_of_index i : 0 <= i < 62 -> is_digit (digit_of i) = true /\ digitIndex (digit_of i) = i.
Proof.
  intros Hi. pose proof (index_check (fun i => is_digit (digit_of i) && (digitIndex (digit_of i) =? i))
    ltac:(vm_compute; reflexivity) i Hi) as H. cbv beta in H. by bools.
Qed.

Lemma index_or_panic_ok i : 0 <= i < 62 -> index_or_panic i = Ok (digit_of i).
Proof.
  intros Hi. unfold index_or_panic, digit_of.
  pose proof (index_check (fun i => match digit_at i with Some _ => true | None => false end)
    ltac:(vm_compute; reflexivity) i Hi) as H. cbv beta in H.
  by destruct (digit_at i).
Qed.

Lemma digit_eq c d : is_digit c = true -> is_digit d = true -> digitIndex c = digitIndex d -> c = d.
Proof.
  intros Hc Hd H. apply ascii_compare_eq. rewrite digit_compare by done. by apply Z.compare_eq_iff.
Qed.

(** ** Order of digit strings *)

Definition str_lt (a b : string) : Prop := String.compare a b = Lt.

Lemma str_lt_cons c a d b : is_digit c = true -> is_digit d = true ->
  str_lt (String c a) (String d b) <->
  digitIndex c < digitIndex d \/ (c = d /\ str_lt a b).
Proof.
  intros Hc Hd. unfold str_lt. cbn. rewrite digit_compare by done.
  destruct (Z.compare_spec (digitIndex c) (digitIndex d)) as [E|E|E].
  - apply digit_eq in E as ->; [|done|done]. split; [intros H; right; split; done|].
    intros [H|[_ H]]; [exfalso; lia|done].
  - split; [by left|done].
  - split; [done|]. intros [H|[-> H]]; exfalso; lia.
Qed.

Lemma str_lt_nil a : str_lt "" a <-> a <> "".
Proof. unfold str_lt. destruct a; cbn; split; congruence. Qed.

Lemma str_lt_irrefl a : ~ str_lt a a.
Proof. unfold str_lt. by rewrite str_compare_refl. Qed.

Lemma str_lt_trans a b c : str_lt a b -> str_lt b c -> str_lt a c.
Proof. apply (cmp_trans (cmp := String.compare)). Qed.

Lemma str_leb_lt a b : str_leb b a = false <-> str_lt a b.
Proof.
  unfold str_leb, str_lt. rewrite (cmp_opp (cmp := String.compare) a b).
  destruct (String.compare a b); cbn; split; congruence.
Qed.

Lemma str_ltb_str_lt a b : str_ltb a b = true <-> str_lt a b.
Proof. apply str_ltb_lt. Qed.

(** A common prefix does not matter. *)
Lemma str_compare_app p a b : String.compare (p +:+ a) (p +:+ b) = String.compare a b.
Proof. induction p as [|c p IH]; [done|]. cbn [String.append]. by rewrite str_compare_cons. Qed.

Lemma str_lt_app p a b : str_lt (p +:+ a) (p +:+ b) <-> str_lt a b.
Proof. unfold str_lt. by rewrite str_compare_app. Qed.

Lemma str_lt_prefix p a : a <> "" -> str_lt p (p +:+ a).
Proof. intros H. rewrite <- (str_app_nil_r p) at 1. apply str_lt_app. by apply str_lt_nil. Qed.

(** Strings of equal length decide the order of what they prefix. *)
Lemma str_compare_app_ne p q a b : String.length p = String.length q -> p <> q ->
  String.compare (p +:+ a) (q +:+ b) = String.compare p q.
Proof.
  revert q. induction p as [|c p IH]; intros [|d q] Hl Hne; try done. cbn in *.
  destruct (Ascii.compare c d) eqn:E; try done. apply ascii_compare_eq in E as ->.
  apply IH; congruence.
Qed.

(** ** Taking strings apart *)

Lemma take_drop_app n s : str_take n s +:+ str_drop n s = s.
Proof. revert s. induction n as [|n IH]; intros [|c s]; cbn; try done. by rewrite IH. Qed.

Lemma take_length n s : (n <= String.length s)%nat -> String.length (str_take n s) = n.
Proof. revert s. induction n as [|n IH]; intros [|c s] H; cbn in *; try lia. rewrite IH; lia. Qed.

Lemma drop_length n s : String.length (str_drop n s) = (String.length s - n)%nat.
Proof. revert s. induction n as [|n IH]; intros [|c s]; cbn; try lia. apply IH. Qed.

Lemma take_app a b : str_take (String.length a) (a +:+ b) = a.
Proof. induction a as [|c a IH]; cbn; [by destruct b|]. by rewrite IH. Qed.

Lemma drop_app a b : str_drop (String.length a) (a +:+ b) = b.
Proof. induction a as [|c a IH]; cbn; [by destruct b|]. by rewrite IH. Qed.

Lemma all_digits_take_drop n s : all_digits s = true ->
  all_digits (str_take n s) = true /\ all_digits (str_drop n s) = true.
Proof.
  intros H. rewrite <- (take_drop_app n s) in H. unfold all_digits in *.
  rewrite str_forallb_app in H. by bools.
Qed.

Lemma ends_with_app c a b : b <> "" -> str_ends_with c (a +:+ b) = str_ends_with c b.
Proof.
  intros Hb. induction a as [|x a IH]; [done|]. unfold str_ends_with in *. cbn [String.append].
  rewrite <- IH. destruct (a +:+ b) eqn:E; [|done]. destruct a; [done|discriminate].
Qed.

Lemma ends_with_drop c n s : str_ends_with c s = false -> str_ends_with c (str_drop n s) = false.
Proof.
  intros H. destruct (String.eqb_spec (str_drop n s) "") as [->|Hne]; [done|].
  rewrite <- (take_drop_app n s) in H. by rewrite ends_with_app in H.
Qed.

Lemma ends_with_single c d : str_ends_with c (String d "") = Ascii.eqb d c.
Proof. done. Qed.

Lemma ends_with_cons c d s : s <> "" -> str_ends_with c (String d s) = str_ends_with c s.
Proof. intros H. exact (ends_with_app c (String d "") s H). Qed.

(** ** The midpoint of two fractions *)

(** A fraction: digits without a trailing zero. *)
Definition fraction_ok (s : string) : Prop := all_digits s = true /\ str_ends_with "0" s = false.

(** Between two fractions, an empty upper one meaning one. *)
Definition fraction_between (a m b : string) : Prop :=
  m <> "" /\ fraction_ok m /\ str_lt a m /\ (b = "" \/ str_lt m b).

Lemma zero_digit : is_digit "0" = true /\ digitIndex "0" = 0.
Proof. split; reflexivity. Qed.

Lemma fraction_ok_tail c s : fraction_ok (String c s) -> is_digit c = true /\ fraction_ok s.
Proof.
  intros [Hd He]. unfold fraction_ok, all_digits in *. cbn in Hd. bools. repeat split; try done.
  exact (ends_with_drop "0" 1 _ He).
Qed.

Lemma fraction_ok_drop n s : fraction_ok s -> fraction_ok (str_drop n s).
Proof. intros [Hd He]. split; [apply all_digits_take_drop, Hd|by apply ends_with_drop]. Qed.

Lemma fraction_ok_cons c s : is_digit c = true -> s <> "" -> fraction_ok s -> fraction_ok (String c s).
Proof.
  intros Hc Hne [Hd He]. split; [|by rewrite ends_with_cons].
  unfold all_digits in *. cbn. by rewrite Hc.
Qed.

Lemma fraction_ok_single c : is_digit c = true -> digitIndex c <> 0 -> fraction_ok (String c "").
Proof.
  intros Hc Hz. split; [unfold all_digits; cbn; by rewrite Hc|].
  rewrite ends_with_single. apply Ascii.eqb_neq. intros ->. by apply Hz.
Qed.

(** The shared prefix: dropping it keeps the bounds in order, and putting it
    back keeps a value between them. *)
Lemma common_digits_spec a b : fraction_ok a -> fraction_ok b -> str_lt a b ->
  let k := common_digits a b in
  str_lt (cut a k) (str_drop k b) /\ (k <= String.length b)%nat /\
  (forall m, str_lt (cut a k) m -> str_lt a (str_take k b +:+ m)).
Proof.
  revert a. induction b as [|cb b IH]; intros a Ha Hb Hlt; cbn [common_digits].
  - exfalso. destruct a; discriminate.
  - apply fraction_ok_tail in Hb as Hb'. destruct Hb' as [Hcb Hb']. destruct a as [|ca a].
    + destruct (Ascii.eqb_spec "0" cb) as [<-|Hne].
      * assert (Hbne : b <> "").
        { intros ->. destruct Hb as [_ Hb]. by rewrite ends_with_single in Hb. }
        destruct (IH "") as (H1 & H2 & H3); [done|done|by apply str_lt_nil|].
        unfold cut in *. cbn [str_drop str_take String.length] in *.
        assert (Hd : forall n, str_drop n "" = "") by (by intros []). rewrite Hd in *.
        split; [done|]. split; [lia|]. intros m Hm. by apply str_lt_nil.
      * unfold cut. cbn [str_drop str_take String.length String.append].
        split; [done|]. split; [lia|done].
    + apply fraction_ok_tail in Ha as [Hca Ha]. apply str_lt_cons in Hlt; [|done|done].
      destruct (Ascii.eqb_spec ca cb) as [->|Hne].
      * destruct Hlt as [Hlt|[_ Hlt]]; [exfalso; lia|].
        destruct (IH a Ha Hb' Hlt) as (H1 & H2 & H3). unfold cut in *. cbn [str_drop str_take String.length].
        split; [done|]. split; [lia|]. intros m Hm. cbn [String.append].
        apply str_lt_cons; [done|done|]. right. split; [done|]. by apply H3.
      * unfold cut. cbn [str_drop str_take String.length String.append].
        split; [apply str_lt_cons; [done|done|]; tauto|]. split; [lia|done].
Qed.

(** Without a shared first digit, the first digits are apart. *)
Lemma common_zero_head a b : fraction_ok a -> fraction_ok b -> b = "" \/ str_lt a b ->
  common_digits a b = O -> 0 <= head_index a 0 < head_index b 62 /\ head_index b 62 <= 62.
Proof.
  intros Ha Hb Hlt Hk.
  assert (Hia : 0 <= head_index a 0 < 62).
  { destruct a as [|ca a]; cbn; [lia|]. apply fraction_ok_tail in Ha as [Hca _]. by apply digit_bound. }
  destruct b as [|cb b]; cbn [head_index]; [lia|].
  apply fraction_ok_tail in Hb as [Hcb _]. pose proof (digit_bound cb Hcb).
  destruct Hlt as [|Hlt]; [done|]. destruct a as [|ca a]; cbn in *.
  - destruct (Ascii.eqb_spec "0" cb) as [<-|Hne]; [done|].
    assert (digitIndex cb <> 0); [|lia]. intros E. apply Hne.
    apply digit_eq; [apply zero_digit|done|]. rewrite E. apply zero_digit.
  - destruct (Ascii.eqb_spec ca cb) as [->|Hne]; [done|].
    apply fraction_ok_tail in Ha as [Hca _]. apply (str_lt_cons ca a cb b) in Hlt; [|done|done].
    destruct Hlt as [|[-> _]]; [lia|done].
Qed.

(** A digit above the lower bound's first digit is above the lower bound; one
    below the upper bound's first digit is below the upper bound. *)
Lemma head_above a c s : all_digits a = true -> is_digit c = true ->
  head_index a 0 < digitIndex c -> str_lt a (String c s).
Proof.
  intros Ha Hc H. destruct a as [|ca a]; [done|]. unfold all_digits in Ha. cbn in Ha, H. bools.
  apply str_lt_cons; [done|done|by left].
Qed.

Lemma head_below b c s : all_digits b = true -> is_digit c = true ->
  digitIndex c < head_index b 62 -> b = "" \/ str_lt (String c s) b.
Proof.
  intros Hb Hc H. destruct b as [|cb b]; [by left|]. right. unfold all_digits in Hb. cbn in Hb, H. bools.
  apply str_lt_cons; [done|done|by left].
Qed.

(** The last case: keep the lower digit and look one position further. *)
Lemma keep_lower a m : fraction_ok a -> str_lt (cut a 1) m -> m <> "" -> fraction_ok m ->
  str_lt a (String (digit_of (head_index a 0)) m) /\
  fraction_ok (String (digit_of (head_index a 0)) m).
Proof.
  intros Ha Hm Hne Hok. destruct a as [|ca a].
  - split; [done|]. by apply fraction_ok_cons.
  - apply fraction_ok_tail in Ha as [Hca Ha]. cbn [head_index].
    assert (digit_of (digitIndex ca) = ca) as ->.
    { destruct (digit_of_index (digitIndex ca)) as [H1 H2]; [by apply digit_bound|]. by apply digit_eq. }
    split; [|by apply fraction_ok_cons]. apply str_lt_cons; [done|done|]. by right.
Qed.

(** The first digit alone of a longer fraction sits below it. *)
Lemma take_one_below a b : fraction_ok a -> fraction_ok b -> (1 < String.length b)%nat ->
  0 <= head_index a 0 < head_index b 62 -> fraction_between a (str_take 1 b) b.
Proof.
  intros Ha Hb Hlen Hi. destruct b as [|cb [|cb' b]]; cbn in Hlen; try lia.
  apply fraction_ok_tail in Hb as Hb'. destruct Hb' as [Hcb _]. cbn [head_index] in Hi.
  split; [done|]. split; [apply fraction_ok_single; [done|lia]|].
  split; [apply head_above; [apply Ha|done|lia]|]. right.
  apply str_lt_cons; [done|done|]. right. split; [done|]. by apply str_lt_nil.
Qed.

Lemma midpoint_between fuel a b :
  (String.length a + String.length b < fuel)%nat -> fraction_ok a -> fraction_ok b ->
  b = "" \/ str_lt a b -> exists m, midpoint fuel a b = Ok m /\ fraction_between a m b.
Proof.
  revert a b. induction fuel as [|fuel IH]; intros a b Hfuel Ha Hb Hlt; [lia|]. cbn [midpoint].
  assert (negb (String.eqb b "") && str_leb b a = false) as ->.
  { destruct Hlt as [->|Hlt]; [done|]. apply andb_false_iff. right. by apply str_leb_lt. }
  rewrite (proj2 Ha), (proj2 Hb), andb_false_r. cbn [orb].
  destruct (Nat.eqb_spec (common_digits a b) 0) as [Hk|Hk]; cbn [negb].
  - pose proof (common_zero_head a b Ha Hb Hlt Hk) as [Hi Hub].
    destruct (Z.ltb_spec 1 (head_index b 62 - head_index a 0)) as [Hgap|Hgap].
    + set (mid := (head_index a 0 + head_index b 62 + 1) / 2).
      assert (Hmid : head_index a 0 < mid < head_index b 62).
      { unfold mid. pose proof (Z.div_mod (head_index a 0 + head_index b 62 + 1) 2).
        pose proof (Z.mod_pos_bound (head_index a 0 + head_index b 62 + 1) 2). lia. }
      destruct (digit_of_index mid) as [Hd1 Hd2]; [lia|].
      rewrite index_or_panic_ok by lia. eexists. split; [done|].
      split; [done|]. split; [apply fraction_ok_single; [done|lia]|].
      split; [apply head_above; [apply Ha|done|lia]|apply head_below; [apply Hb|done|lia]].
    + destruct (Nat.ltb_spec 1 (String.length b)) as [Hlen|Hlen].
      * eexists. split; [done|]. by apply take_one_below.
      * rewrite index_or_panic_ok by lia. cbn [mbind result_bind].
        destruct (IH (cut a 1) "") as (m & -> & Hne & Hok & Hlo & _).
        -- unfold cut. rewrite drop_length. destruct a as [|ca a], b as [|cb b]; cbn in *; lia.
        -- by apply fraction_ok_drop.
        -- done.
        -- by left.
        -- eexists. split; [done|]. destruct (keep_lower a m Ha Hlo Hne Hok) as [H1 H2].
           destruct (digit_of_index (head_index a 0)) as [Hd1 Hd2]; [lia|].
           split; [done|]. split; [done|]. split; [done|].
           apply head_below; [apply Hb|done|lia].
  - destruct Hlt as [->|Hlt]; [by destruct a|].
    destruct (common_digits_spec a b Ha Hb Hlt) as (H1 & H2 & H3).
    set (k := common_digits a b) in *.
    destruct (IH (cut a k) (str_drop k b)) as (m & -> & Hne & Hok & Hlo & Hhi).
    + unfold cut. rewrite !drop_length. lia.
    + by apply fraction_ok_drop.
    + by apply fraction_ok_drop.
    + by right.
    + eexists. split; [done|]. split; [|split; [|split]].
      * destruct (str_take k b); done.
      * destruct Hok as [Hod Hoe]. split; [|by rewrite ends_with_app].
        unfold all_digits. rewrite str_forallb_app.
        apply andb_true_iff. split; [apply all_digits_take_drop, Hb|done].
      * by apply H3.
      * right. rewrite <- (take_drop_app k b) at 2. apply str_lt_app.
        destruct Hhi as [Hnil|]; [|done]. rewrite Hnil in H1. by destruct (cut a k).
Qed.

(** ** Integers *)

(** An integer part: a head letter and as many digits as it declares. *)
Definition integer_ok (i : string) : Prop := validateInteger i = Ok tt /\ all_digits i = true.

(** [j] is the next integer after [i]: nothing lies between. *)
Definition nothing_between (P : string -> Prop) (i j : string) : Prop :=
  forall t, P t -> str_lt i t -> ~ str_lt t j.

Lemma integer_ok_inv i : integer_ok i ->
  exists head digits n, i = String head digits /\ integerLength head = Ok n /\
    S (String.length digits) = n /\ is_digit head = true /\ all_digits digits = true.
Proof.
  intros [Hv Hd]. destruct i as [|head digits]; [done|]. unfold all_digits in Hd. cbn in Hd. bools.
  unfold validateInteger in Hv. destruct (integerLength head) as [n| |] eqn:E; try done.
  cbn [mbind result_bind] in Hv.
  destruct (Nat.eqb_spec (String.length (String head digits)) n); [|done]. eauto 10.
Qed.

Lemma integer_ok_intro head digits n : integerLength head = Ok n ->
  S (String.length digits) = n -> is_digit head = true -> all_digits digits = true ->
  integer_ok (String head digits).
Proof.
  intros Hn Hl Hh Hd. split; [|unfold all_digits in *; cbn; by rewrite Hh].
  unfold validateInteger. rewrite Hn. cbn [mbind result_bind String.length]. by rewrite Hl, Nat.eqb_refl.
Qed.

(** A head letter's successor declares one digit more above [a], one less
    below [Z]. *)
Definition head_step_ok (c : ascii) : bool :=
  match integerLength c with
  | Ok n =>
      is_digit c &&
      (if Ascii.eqb c "Z" then (digitIndex c =? 35) && Nat.eqb n 2
       else if Ascii.eqb c "z" then digitIndex c =? 61
       else match integerLength (next_byte c) with
            | Ok n' => is_digit (next_byte c) && (digitIndex (next_byte c) =? digitIndex c + 1) &&
                (if (N_of_ascii "a" <? N_of_ascii c + 1)%N then Nat.eqb n' (S n) else Nat.eqb (S n') n && Nat.leb 3 n)
            | _ => false
            end) &&
      (if Ascii.eqb c "a" then (digitIndex c =? 36) && Nat.eqb n 2
       else if Ascii.eqb c "A" then (digitIndex c =? 10) && Nat.eqb n 27
       else match integerLength (prev_byte c) with
            | Ok n' => is_digit (prev_byte c) && (digitIndex (prev_byte c) =? digitIndex c - 1) &&
                (if (N_of_ascii c - 1 <? N_of_ascii "Z")%N then Nat.eqb n' (S n) else Nat.eqb (S n') n && Nat.leb 3 n)
            | _ => false
            end)
  | _ => true
  end.

Lemma head_step c : head_step_ok c = true.
Proof. apply byte_check. vm_compute. reflexivity. Qed.

Definition same_shape (s t : string) : Prop := all_digits t = true /\ String.length t = String.length s.

Lemma same_shape_cons d s t : same_shape (String d s) t ->
  exists e u, t = String e u /\ is_digit e = true /\ same_shape s u.
Proof.
  intros [Hd Hl]. destruct t as [|e u]; [done|]. unfold all_digits in Hd. cbn in Hd, Hl. bools.
  exists e, u. repeat split; [done|done|lia].
Qed.

Ltac shape_cons :=
  match goal with
  | H : same_shape (String _ _) ?t |- _ =>
      destruct (same_shape_cons _ _ _ H) as (? & ? & -> & ? & ?); clear H
  end.

(** The least and the greatest digits of a length. *)
Fixpoint nines (n : nat) : string :=
  match n with O => "" | S n' => String "z" (nines n') end.

Lemma nines_snoc j : nines j +:+ "z" = nines (S j).
Proof. induction j as [|j IH]; [done|]. cbn [nines String.append]. by rewrite IH. Qed.

Lemma last_digit : digit_of 61 = "z"%char /\ digit_of 0 = "0"%char.
Proof. split; reflexivity. Qed.

Lemma zeros_digits n : all_digits (zeros n) = true /\ String.length (zeros n) = n.
Proof. induction n as [|n [IH1 IH2]]; [done|]. split; [exact IH1|]. cbn. by rewrite IH2. Qed.

Lemma nines_digits n : all_digits (nines n) = true /\ String.length (nines n) = n.
Proof. induction n as [|n [IH1 IH2]]; [done|]. split; [exact IH1|]. cbn. by rewrite IH2. Qed.

Lemma zeros_least n t : all_digits t = true -> String.length t = n -> ~ str_lt t (zeros n).
Proof.
  revert t. induction n as [|n IH]; intros t Hd Hl Hlt; destruct t as [|c t]; try done.
  unfold all_digits in Hd. cbn in Hd, Hl. bools. apply str_lt_cons in Hlt; [|done|done].
  pose proof (digit_bound c ltac:(done)). destruct Hlt as [Hlt|[-> Hlt]].
  - rewrite (proj2 zero_digit) in Hlt. lia.
  - eapply IH; [|by injection Hl|exact Hlt]. done.
Qed.

Lemma nines_greatest n t : all_digits t = true -> String.length t = n -> ~ str_lt (nines n) t.
Proof.
  revert t. induction n as [|n IH]; intros t Hd Hl Hlt; destruct t as [|c t]; try done.
  unfold all_digits in Hd. cbn in Hd, Hl. bools. apply str_lt_cons in Hlt; [|done|done].
  pose proof (digit_bound c ltac:(done)). destruct Hlt as [Hlt|[<- Hlt]].
  - change (digitIndex "z") with 61 in Hlt. lia.
  - eapply IH; [|by injection Hl|exact Hlt]. done.
Qed.

(** Between two digit strings with the same head there is what is between
    their tails. *)
Lemma nothing_between_tail d s s' : is_digit d = true ->
  nothing_between (same_shape s) s s' ->
  nothing_between (same_shape (String d s)) (String d s) (String d s').
Proof.
  intros Hd Hbtw t Ht H1 H2; shape_cons. apply str_lt_cons in H1; [|done|done].
  apply str_lt_cons in H2; [|done|done].
  destruct H1 as [H1|[-> H1]], H2 as [H2|[He H2]]; try lia; [subst; lia|].
  by eapply (Hbtw _).
Qed.

(** Between [d] followed by the greatest digits and [d + 1] followed by the
    least ones there is nothing. *)
Lemma nothing_between_carry c d n : is_digit c = true -> is_digit d = true ->
  digitIndex d = digitIndex c + 1 ->
  nothing_between (same_shape (String c (nines n))) (String c (nines n)) (String d (zeros n)).
Proof.
  intros Hc Hd Hcd t Ht H1 H2; shape_cons. apply str_lt_cons in H1; [|done|done].
  apply str_lt_cons in H2; [|done|done].
  match goal with H : same_shape _ _ |- _ => destruct H as [Hdt Hlt] end.
  rewrite (proj2 (nines_digits n)) in Hlt.
  destruct H1 as [H1|[_ H1]]; [|by eapply nines_greatest].
  destruct H2 as [H2|[_ H2]]; [lia|by eapply zeros_least].
Qed.

Lemma same_shape_intro d s e s' : is_digit e = true -> same_shape s s' ->
  same_shape (String d s) (String e s').
Proof. intros He [Hd Hl]. split; [unfold all_digits in *; cbn; by rewrite He|cbn; lia]. Qed.

Lemma increment_digits_spec s : all_digits s = true ->
  let '(carry, s') := increment_digits s in
  same_shape s s' /\
  if carry then s = nines (String.length s) /\ s' = zeros (String.length s)
  else str_lt s s' /\ nothing_between (same_shape s) s s'.
Proof.
  induction s as [|d s IH]; intros Hs; cbn [increment_digits]; [done|].
  unfold all_digits in Hs. cbn in Hs. apply andb_true_iff in Hs as [Hd Hs]. specialize (IH Hs).
  pose proof (digit_bound d Hd) as Hb. destruct (increment_digits s) as [carry s'].
  destruct IH as [Hshape IH]. destruct carry.
  - destruct IH as [E1 E2]. destruct (Z.eqb_spec (digitIndex d + 1) 62) as [E|E].
    + rewrite (proj2 last_digit). split; [by apply same_shape_intro|]. cbn [nines zeros String.length].
      rewrite <- E1, <- E2. split; [|done]. f_equal.
      apply digit_eq; [done|done|]. change (digitIndex "z") with 61. lia.
    + destruct (digit_of_index (digitIndex d + 1)) as [Z1 Z2]; [lia|].
      split; [by apply same_shape_intro|]. split; [apply str_lt_cons; [done|done|left; lia]|].
      set (n := String.length s) in *. clearbody n. subst s s'. by apply nothing_between_carry.
  - destruct IH as [Hlt Hbtw]. split; [by apply same_shape_intro|].
    split; [apply str_lt_cons; [done|done|by right]|]. by apply nothing_between_tail.
Qed.

Lemma decrement_digits_spec s : all_digits s = true ->
  let '(borrow, s') := decrement_digits s in
  same_shape s s' /\
  if borrow then s = zeros (String.length s) /\ s' = nines (String.length s)
  else str_lt s' s /\ nothing_between (same_shape s) s' s.
Proof.
  induction s as [|d s IH]; intros Hs; cbn [decrement_digits]; [done|].
  unfold all_digits in Hs. cbn in Hs. apply andb_true_iff in Hs as [Hd Hs]. specialize (IH Hs).
  pose proof (digit_bound d Hd) as Hb. destruct (decrement_digits s) as [borrow s'].
  destruct IH as [Hshape IH]. destruct borrow.
  - destruct IH as [E1 E2]. destruct (Z.ltb_spec (digitIndex d - 1) 0) as [E|E].
    + rewrite (proj1 last_digit). split; [by apply same_shape_intro|]. cbn [nines zeros String.length].
      rewrite <- E1, <- E2. split; [|done]. f_equal.
      apply digit_eq; [done|apply zero_digit|]. rewrite (proj2 zero_digit). lia.
    + destruct (digit_of_index (digitIndex d - 1)) as [Z1 Z2]; [lia|].
      split; [by apply same_shape_intro|]. split; [apply str_lt_cons; [done|done|left; lia]|].
      intros t [Ht1 Ht2]. cbn [String.length] in Ht2.
      set (n := String.length s) in *. clearbody n. subst s s'.
      apply nothing_between_carry; [done|done|lia|].
      split; [done|]. cbn [String.length]. by rewrite (proj2 (nines_digits n)).
  - destruct IH as [Hlt Hbtw]. split; [by apply same_shape_intro|].
    split; [apply str_lt_cons; [done|done|by right]|]. intros t Ht.
    apply nothing_between_tail; [done| |].
    + intros u [Hu1 Hu2]. apply Hbtw. destruct Hshape. split; [done|lia].
    + destruct Ht as [Ht1 Ht2], Hshape as [_ Hl]. split; [done|]. cbn in *. lia.
Qed.

(** *** Successor and predecessor *)

Lemma integer_length_head i head digits n : integer_ok i -> i = String head digits ->
  integerLength head = Ok n -> S (String.length digits) = n.
Proof.
  intros Hi -> Hn. destruct (integer_ok_inv _ Hi) as (h & d & m & [= <- <-] & Hm & Hl & _). congruence.
Qed.

(** Two integers with the same head have equally many digits. *)
Lemma integers_same_head head d d' : integer_ok (String head d) -> integer_ok (String head d') ->
  same_shape d d'.
Proof.
  intros H H'. destruct (integer_ok_inv _ H) as (? & ? & n & [= <- <-] & Hn & Hl & _ & _).
  destruct (integer_ok_inv _ H') as (? & ? & n' & [= <- <-] & Hn' & Hl' & _ & Hd').
  split; [done|]. assert (n = n') by congruence. lia.
Qed.

Lemma integers_lt_cons h d h' d' : integer_ok (String h d) -> integer_ok (String h' d') ->
  str_lt (String h d) (String h' d') <-> digitIndex h < digitIndex h' \/ (h = h' /\ str_lt d d').
Proof.
  intros H H'. destruct (integer_ok_inv _ H) as (? & ? & ? & [= <- <-] & _ & _ & Hh & _).
  destruct (integer_ok_inv _ H') as (? & ? & ? & [= <- <-] & _ & _ & Hh' & _). by apply str_lt_cons.
Qed.

Lemma nothing_between_same_head h d d' :
  integer_ok (String h d) -> integer_ok (String h d') ->
  nothing_between (same_shape d) d d' -> nothing_between integer_ok (String h d) (String h d').
Proof.
  intros H H' Hbtw t Ht H1 H2. destruct (integer_ok_inv _ Ht) as (ht & dt & ? & -> & _).
  apply integers_lt_cons in H1; [|done|done]. apply integers_lt_cons in H2; [|done|done].
  destruct H1 as [H1|[-> H1]], H2 as [H2|[E H2]]; try lia; [subst; lia|].
  eapply Hbtw; [|exact H1|exact H2]. by eapply integers_same_head.
Qed.

(** Consecutive heads: the last integer of one, the first of the other. *)
Lemma nothing_between_heads h h' n n' :
  integer_ok (String h (nines n)) -> integer_ok (String h' (zeros n')) ->
  digitIndex h' = digitIndex h + 1 ->
  nothing_between integer_ok (String h (nines n)) (String h' (zeros n')).
Proof.
  intros H H' Hh t Ht H1 H2. destruct (integer_ok_inv _ Ht) as (ht & dt & ? & -> & _ & _ & _ & Hdt).
  apply integers_lt_cons in H1; [|done|done]. apply integers_lt_cons in H2; [|done|done].
  destruct H1 as [H1|[-> H1]].
  - destruct H2 as [H2|[-> H2]]; [lia|].
    destruct (integers_same_head _ _ _ H' Ht) as [_ Hl]. rewrite (proj2 (zeros_digits _)) in Hl.
    by eapply zeros_least.
  - destruct (integers_same_head _ _ _ H Ht) as [_ Hl]. rewrite (proj2 (nines_digits _)) in Hl.
    by eapply nines_greatest.
Qed.

Definition top_integer : string := String "z" (nines 26).

Lemma orderKeyZero_ok : integer_ok orderKeyZero.
Proof. split; reflexivity. Qed.
Lemma last_negative_ok : integer_ok "Zz".
Proof. split; reflexivity. Qed.

(** What [head_step] says of a head, in propositions. *)
Lemma head_step_next h n : integerLength h = Ok n -> h <> "Z"%char -> h <> "z"%char ->
  exists n', integerLength (next_byte h) = Ok n' /\ is_digit (next_byte h) = true /\
    digitIndex (next_byte h) = digitIndex h + 1 /\
    (if (N_of_ascii "a" <? N_of_ascii h + 1)%N then n' = S n else S n' = n /\ (3 <= n)%nat).
Proof.
  intros Hn HZ Hz. pose proof (head_step h) as H. unfold head_step_ok in H. rewrite Hn in H.
  rewrite (proj2 (Ascii.eqb_neq h "Z") HZ), (proj2 (Ascii.eqb_neq h "z") Hz) in H.
  apply andb_true_iff in H as [H _]. apply andb_true_iff in H as [_ H].
  destruct (integerLength (next_byte h)) as [n'| |]; try discriminate. exists n'.
  destruct (N_of_ascii "a" <? N_of_ascii h + 1)%N; bools;
    repeat match goal with
    | H : Nat.eqb _ _ = true |- _ => apply Nat.eqb_eq in H
    | H : Nat.leb _ _ = true |- _ => apply Nat.leb_le in H
    end; repeat split; done || lia.
Qed.

Lemma head_step_prev h n : integerLength h = Ok n -> h <> "a"%char -> h <> "A"%char ->
  exists n', integerLength (prev_byte h) = Ok n' /\ is_digit (prev_byte h) = true /\
    digitIndex (prev_byte h) = digitIndex h - 1 /\
    (if (N_of_ascii h - 1 <? N_of_ascii "Z")%N then n' = S n else S n' = n /\ (3 <= n)%nat).
Proof.
  intros Hn Ha HA. pose proof (head_step h) as H. unfold head_step_ok in H. rewrite Hn in H.
  rewrite (proj2 (Ascii.eqb_neq h "a") Ha), (proj2 (Ascii.eqb_neq h "A") HA) in H.
  apply andb_true_iff in H as [_ H].
  destruct (integerLength (prev_byte h)) as [n'| |]; try discriminate. exists n'.
  destruct (N_of_ascii h - 1 <? N_of_ascii "Z")%N; bools;
    repeat match goal with
    | H : Nat.eqb _ _ = true |- _ => apply Nat.eqb_eq in H
    | H : Nat.leb _ _ = true |- _ => apply Nat.leb_le in H
    end; repeat split; done || lia.
Qed.

Lemma grow_or_shrink (grow : bool) c n m (fill : nat -> string) :
  (forall k, fill (S k) = String c (fill k)) -> (forall k, fill k +:+ String c "" = fill (S k)) ->
  (if grow then m = S (S n) else S m = S n /\ (3 <= S n)%nat) ->
  (if grow then fill n +:+ String c "" else str_drop 1 (fill n)) = fill (m - 1)%nat.
Proof.
  intros Hcons Hsnoc Hm. destruct grow.
  - rewrite Hsnoc. f_equal. lia.
  - destruct n as [|n]; [lia|]. rewrite Hcons. cbn. destruct Hm as [Hm _].
    replace (m - 1)%nat with n by lia. by destruct (fill n).
Qed.

Lemma integer_ok_fill h n (fill : nat -> string) : integerLength h = Ok n -> is_digit h = true ->
  (1 <= n)%nat -> all_digits (fill (n - 1)%nat) = true -> String.length (fill (n - 1)%nat) = (n - 1)%nat ->
  integer_ok (String h (fill (n - 1)%nat)).
Proof. intros Hn Hh Hle Hd Hl. apply (integer_ok_intro h _ n); try done. lia. Qed.

Lemma integer_length_pos h n : integerLength h = Ok n -> (2 <= n)%nat.
Proof. unfold integerLength. repeat case_match; intros [= <-]; lia. Qed.

(** The successor of an integer part: the next one, or nothing at the top. *)
Lemma incrementInteger_spec i : integer_ok i -> exists j, incrementInteger i = Ok j /\
  ((j = "" /\ forall t, integer_ok t -> ~ str_lt i t) \/
   (j <> "" /\ integer_ok j /\ str_lt i j /\ nothing_between integer_ok i j)).
Proof.
  intros Hi. destruct (integer_ok_inv i Hi) as (h & s & n & -> & Hn & Hl & Hh & Hs).
  unfold incrementInteger. rewrite (proj1 Hi). cbn [mbind result_bind].
  pose proof (increment_digits_spec s Hs) as Hspec. destruct (increment_digits s) as [carry s'].
  destruct Hspec as [[Hd' Hl'] Hspec]. destruct carry; cbn [negb].
  2: { exists (String h s'). split; [done|]. right. destruct Hspec as [Hlt Hbtw].
       assert (integer_ok (String h s')) by (apply (integer_ok_intro h s' n); try done; lia).
       split; [done|]. split; [done|]. split; [by apply integers_lt_cons; auto|].
       by apply nothing_between_same_head. }
  set (k := String.length s) in *. clearbody k. destruct Hspec as [-> ->].
  destruct (Ascii.eqb_spec h "Z") as [->|HZ].
  - exists orderKeyZero. split; [done|]. right. split; [done|]. split; [apply orderKeyZero_ok|].
    split; [apply integers_lt_cons; [done|apply orderKeyZero_ok|by left]|].
    change orderKeyZero with (String "a" (zeros 1)).
    apply nothing_between_heads; [done|apply orderKeyZero_ok|reflexivity].
  - destruct (Ascii.eqb_spec h "z") as [->|Hz].
    + exists "". split; [done|]. left. split; [done|]. intros t Ht Hlt.
      destruct (integer_ok_inv _ Ht) as (ht & dt & ? & -> & _ & _ & Hht & Hdt).
      pose proof (digit_bound ht Hht). apply integers_lt_cons in Hlt; [|done|done].
      destruct Hlt as [Hlt|[<- Hlt]]; [change (digitIndex "z") with 61 in Hlt; lia|].
      destruct (integers_same_head _ _ _ Hi Ht) as [_ Hlen]. rewrite (proj2 (nines_digits _)) in Hlen.
      by eapply nines_greatest.
    + destruct (head_step_next h n Hn HZ Hz) as (n' & Hn' & Hd & Hidx & Hlen).
      rewrite (grow_or_shrink _ _ k n' zeros); [|done|apply zeros_snoc|by rewrite <- Hl in Hlen].
      pose proof (integer_length_pos _ _ Hn').
      assert (Hok : integer_ok (String (next_byte h) (zeros (n' - 1)))).
      { apply (integer_ok_fill _ n' zeros); try done; try lia; apply zeros_digits. }
      eexists. split; [done|]. right. split; [done|]. split; [done|].
      split; [apply integers_lt_cons; [done|done|left; lia]|]. by apply nothing_between_heads.
Qed.

(** The predecessor of an integer part above the smallest one. *)
Lemma decrementInteger_spec i : integer_ok i -> i <> smallestOrderInteger ->
  exists j, decrementInteger i = Ok j /\ j <> "" /\ integer_ok j /\ str_lt j i /\
    nothing_between integer_ok j i.
Proof.
  intros Hi Hmin. destruct (integer_ok_inv i Hi) as (h & s & n & -> & Hn & Hl & Hh & Hs).
  unfold decrementInteger. rewrite (proj1 Hi). cbn [mbind result_bind].
  pose proof (decrement_digits_spec s Hs) as Hspec. destruct (decrement_digits s) as [borrow s'].
  destruct Hspec as [[Hd' Hl'] Hspec]. destruct borrow; cbn [negb].
  2: { exists (String h s'). split; [done|]. destruct Hspec as [Hlt Hbtw].
       assert (integer_ok (String h s')) by (apply (integer_ok_intro h s' n); try done; lia).
       split; [done|]. split; [done|]. split; [by apply integers_lt_cons; auto|].
       apply nothing_between_same_head; [done|done|].
       intros t [Ht1 Ht2]. apply Hbtw. split; [done|lia]. }
  set (k := String.length s) in *. clearbody k. destruct Hspec as [-> ->].
  destruct (Ascii.eqb_spec h "a") as [->|Ha].
  - exists "Zz". split; [done|]. split; [done|]. split; [apply last_negative_ok|].
    split; [apply integers_lt_cons; [apply last_negative_ok|done|by left]|].
    change "Zz" with (String "Z" (nines 1)).
    apply nothing_between_heads; [apply last_negative_ok|done|reflexivity].
  - destruct (Ascii.eqb_spec h "A") as [->|HA].
    + destruct Hmin. injection Hn as <-. injection Hl as ->. reflexivity.
    + destruct (head_step_prev h n Hn Ha HA) as (n' & Hn' & Hd & Hidx & Hlen).
      rewrite (proj1 last_digit).
      rewrite (grow_or_shrink _ _ k n' nines); [|done|apply nines_snoc|by rewrite <- Hl in Hlen].
      pose proof (integer_length_pos _ _ Hn').
      assert (Hok : integer_ok (String (prev_byte h) (nines (n' - 1)))).
      { apply (integer_ok_fill _ n' nines); try done; try lia; apply nines_digits. }
      eexists. split; [done|]. split; [done|]. split; [done|].
      split; [apply integers_lt_cons; [done|done|left; lia]|]. apply nothing_between_heads; [done|done|lia].
Qed.

(** ** Keys *)

(** Different integers decide the order of the keys they start. *)
Lemma integers_decide i j a b : integer_ok i -> integer_ok j -> i <> j ->
  String.compare (i +:+ a) (j +:+ b) = String.compare i j.
Proof.
  intros Hi Hj Hne. destruct (integer_ok_inv i Hi) as (h & d & n & -> & Hn & Hl & _ & _).
  destruct (integer_ok_inv j Hj) as (h' & d' & n' & -> & Hn' & Hl' & _ & _).
  destruct (decide (h = h')) as [->|Hh].
  - apply str_compare_app_ne; [|done]. cbn. assert (n = n') by congruence. lia.
  - cbn. destruct (Ascii.compare h h') eqn:E; try done. by apply ascii_compare_eq in E.
Qed.

Lemma integers_lt i j a b : integer_ok i -> integer_ok j -> str_lt i j -> str_lt (i +:+ a) (j +:+ b).
Proof.
  intros Hi Hj Hlt. unfold str_lt. rewrite integers_decide; [done|done|done|].
  intros ->. by apply str_lt_irrefl in Hlt.
Qed.

Lemma integers_lt_inv i j a b : integer_ok i -> integer_ok j -> i <> j ->
  str_lt (i +:+ a) (j +:+ b) -> str_lt i j.
Proof. intros Hi Hj Hne. unfold str_lt. by rewrite integers_decide. Qed.

Lemma integer_ok_nonempty i : integer_ok i -> i <> "".
Proof. intros [H _] ->. discriminate. Qed.

Lemma splitOrderKey_ok i f : integer_ok i -> splitOrderKey (i +:+ f) = Ok (i, f).
Proof.
  intros Hi. destruct (integer_ok_inv i Hi) as (h & d & n & -> & Hn & Hl & _ & _).
  unfold splitOrderKey. change (String h d +:+ f) with (String h (d +:+ f)). cbv iota beta. rewrite Hn.
  destruct (Nat.ltb_spec (String.length (String h (d +:+ f))) n) as [Hlt|_].
  - exfalso. cbn in Hlt. rewrite str_app_length in Hlt. lia.
  - change (String h (d +:+ f)) with (String h d +:+ f). rewrite <- Hl.
    change (S (String.length d)) with (String.length (String h d)). by rewrite take_app, drop_app.
Qed.

(** A key that can be stored: an integer, a fraction, and not the one integer
    nothing could be inserted below. *)
Definition key_ok (k : string) : Prop :=
  k <> smallestOrderInteger /\ exists i f, k = i +:+ f /\ integer_ok i /\ fraction_ok f.

Lemma key_ok_intro i f : integer_ok i -> fraction_ok f -> i +:+ f <> smallestOrderInteger ->
  key_ok (i +:+ f).
Proof. intros Hi Hf Hne. split; eauto 10. Qed.

Lemma fraction_ok_nil : fraction_ok "".
Proof. done. Qed.

Lemma key_ok_integer i : integer_ok i -> i <> smallestOrderInteger -> key_ok i.
Proof. intros Hi Hne. split; [done|]. exists i, "". by rewrite str_app_nil_r. Qed.

(** The part of [splitOrderKey] a malformed key takes. *)
Lemma splitOrderKey_parts k : k <> "" -> exists i f, splitOrderKey k = Ok (i, f) /\ i +:+ f = k.
Proof.
  destruct k as [|h k]; [done|]. intros _. unfold splitOrderKey.
  destruct (integerLength h) as [n| |].
  - destruct (Nat.ltb _ _).
    + eexists _, _. split; [done|]. by rewrite str_app_nil_r.
    + eexists _, _. split; [done|]. apply take_drop_app.
  - eexists _, _. split; [done|]. by rewrite str_app_nil_r.
  - eexists _, _. split; [done|]. by rewrite str_app_nil_r.
Qed.

Lemma validateInteger_total i : validateInteger i = Ok tt \/ exists e, validateInteger i = Err e.
Proof.
  unfold validateInteger, integerLength. destruct i as [|h d]; [by right; eauto|].
  destruct (byte_in "a" "z" h), (byte_in "A" "Z" h); cbn [mbind result_bind];
    try (destruct (Nat.eqb _ _)); eauto.
Qed.

(** What the validation accepts, exactly. *)
Lemma validateOrderKey_spec k :
  (validateOrderKey k = Ok tt /\ (k = "" \/ key_ok k)) \/
  ((exists e, validateOrderKey k = Err e) /\ k <> "" /\ ~ key_ok k).
Proof.
  unfold validateOrderKey. destruct (String.eqb_spec k "") as [->|Hne]; [by left; auto|].
  change (fun c => 0 <=? digitIndex c) with is_digit.
  assert (Hkeydigits : key_ok k -> str_forallb is_digit k = true).
  { intros (_ & i & f & -> & [_ Hi] & [Hf _]). unfold all_digits in *. by rewrite str_forallb_app, Hi. }
  destruct (str_forallb is_digit k) eqn:Hd; cbn [negb].
  2: { right. split; [eauto|]. split; [done|]. intros H. by specialize (Hkeydigits H). }
  destruct (String.eqb_spec k smallestOrderInteger) as [->|Hs].
  { right. split; [eauto|]. split; [done|]. by intros [? _]. }
  destruct (splitOrderKey_parts k Hne) as (i & f & Hsplit & Hk). rewrite Hsplit.
  cbn [mbind result_bind].
  assert (Hparts : key_ok k -> integer_ok i /\ fraction_ok f).
  { intros (_ & i' & f' & Hk' & Hi & Hf). rewrite Hk', splitOrderKey_ok in Hsplit by done.
    by injection Hsplit as <- <-. }
  destruct (validateInteger_total i) as [Hv|[e Hv]]; rewrite Hv; cbn [mbind result_bind].
  2: { right. split; [eauto|]. split; [done|]. intros H. destruct (Hparts H) as [[Hi _] _]. congruence. }
  rewrite <- Hk in Hd. rewrite str_forallb_app in Hd. apply andb_true_iff in Hd as [Hdi Hdf].
  destruct (str_ends_with "0" f) eqn:Hz.
  - right. split; [eauto|]. split; [done|]. intros H. destruct (Hparts H) as [_ [_ Hf]]. congruence.
  - left. split; [done|]. right. rewrite <- Hk. apply key_ok_intro; [done|done|by rewrite Hk].
Qed.

Lemma validateOrderKey_ok k : validateOrderKey k = Ok tt <-> k = "" \/ key_ok k.
Proof. destruct (validateOrderKey_spec k) as [[H1 H2]|[[e H1] [H2 H3]]]; [tauto|]. split; [congruence|tauto]. Qed.

(** The smallest integer is below every other integer. *)
Lemma smallest_ok : integer_ok smallestOrderInteger.
Proof. split; reflexivity. Qed.

(** ** The three generators *)

Definition second_order_integer : string := String "A" (zeros 25 +:+ "1").

Lemma midpoint_of_ok a b : fraction_ok a -> fraction_ok b -> b = "" \/ str_lt a b ->
  exists m, midpoint_of a b = Ok m /\ fraction_between a m b.
Proof. intros. apply midpoint_between; try done. unfold midpoint_fuel. lia. Qed.

(** An integer followed by a fraction that is not empty is not an integer. *)
Lemma not_smallest i f : integer_ok i -> f <> "" -> i +:+ f <> smallestOrderInteger.
Proof.
  intros Hi Hf E. pose proof (splitOrderKey_ok i f Hi) as H.
  pose proof (splitOrderKey_ok smallestOrderInteger "" smallest_ok) as H'.
  rewrite str_app_nil_r, <- E, H in H'. by injection H' as _ ->.
Qed.

Lemma above_smallest i : integer_ok i -> ~ str_lt i smallestOrderInteger.
Proof.
  intros Hi. destruct (integer_ok_inv i Hi) as (h & d & n & -> & Hn & Hl & Hh & Hd).
  change smallestOrderInteger with (String "A" (zeros 26)). intros Hlt.
  apply integers_lt_cons in Hlt; [|done|apply smallest_ok]. destruct Hlt as [Hlt|[-> Hlt]].
  - pose proof (byte_check (fun c => implb (is_ok (integerLength c)) (digitIndex "A" <=? digitIndex c))
      ltac:(vm_compute; reflexivity) h) as H. cbv beta in H. rewrite Hn in H. cbn [is_ok implb] in H. bools. lia.
  - injection Hn as <-. injection Hl as Hl. by apply (zeros_least 26 d).
Qed.

Lemma keyAfter_spec i f : integer_ok i -> fraction_ok f ->
  exists k, keyAfter (i +:+ f) = Ok k /\ key_ok k /\ str_lt (i +:+ f) k.
Proof.
  intros Hi Hf. unfold keyAfter. rewrite splitOrderKey_ok by done. cbn [mbind result_bind].
  destruct (incrementInteger_spec i Hi) as (j & -> & [[-> _]|(Hne & Hj & Hlt & _)]); cbn [mbind result_bind].
  - destruct (midpoint_of_ok f "" Hf fraction_ok_nil) as (m & -> & Hm & Hok & Hlo & _); [by left|].
    cbn. exists (i +:+ m). split; [done|]. split; [|by apply str_lt_app].
    apply key_ok_intro; [done|done|by apply not_smallest].
  - rewrite (proj2 (String.eqb_neq j "") Hne). cbn [negb]. exists j. split; [done|]. split.
    + apply key_ok_integer; [done|]. intros ->. by apply (above_smallest i).
    + rewrite <- (str_app_nil_r j). by apply integers_lt.
Qed.

Lemma keyBetween_spec i f j g : integer_ok i -> fraction_ok f -> integer_ok j -> fraction_ok g ->
  str_lt (i +:+ f) (j +:+ g) ->
  exists k, keyBetween (i +:+ f) (j +:+ g) = Ok k /\ key_ok k /\
    str_lt (i +:+ f) k /\ str_lt k (j +:+ g).
Proof.
  intros Hi Hf Hj Hg Hlt. unfold keyBetween. rewrite !splitOrderKey_ok by done. cbn [mbind result_bind].
  destruct (String.eqb_spec i j) as [<-|Hij].
  - apply str_lt_app in Hlt.
    destruct (midpoint_of_ok f g Hf Hg) as (m & -> & Hm & Hok & Hlo & Hhi); [by right|].
    exists (i +:+ m). split; [done|]. rewrite !str_lt_app.
    split; [apply key_ok_intro; [done|done|by apply not_smallest]|]. split; [done|].
    destruct Hhi as [->|]; [|done]. destruct f; discriminate.
  - apply integers_lt_inv in Hlt; [|done|done|done].
    destruct (incrementInteger_spec i Hi) as (n & -> & Hn). cbn [mbind result_bind].
    destruct (negb (String.eqb n "") && str_ltb n (j +:+ g)) eqn:E.
    + apply andb_true_iff in E as [E1 E2]. apply negb_true_iff, String.eqb_neq in E1.
      destruct Hn as [[-> _]|(_ & Hn & Hin & _)]; [done|].
      exists n. split; [done|]. split; [apply key_ok_integer; [done|]|].
      * intros ->. by apply (above_smallest i).
      * split; [|by apply str_ltb_lt]. rewrite <- (str_app_nil_r n). by apply integers_lt.
    + destruct (midpoint_of_ok f "" Hf fraction_ok_nil) as (m & -> & Hm & Hok & Hlo & _); [by left|].
      exists (i +:+ m). split; [done|]. rewrite str_lt_app.
      split; [apply key_ok_intro; [done|done|by apply not_smallest]|]. split; [done|by apply integers_lt].
Qed.

(** Nothing storable is lost below: only the second integer's predecessor is
    the smallest one. *)
Lemma decrement_to_smallest i : integer_ok i -> i <> smallestOrderInteger ->
  decrementInteger i = Ok smallestOrderInteger -> i = second_order_integer.
Proof.
  intros Hi Hne Hdec. destruct (decrementInteger_spec i Hi Hne) as (j & Hj & _ & _ & Hlt & Hbtw).
  assert (j = smallestOrderInteger) as -> by congruence.
  assert (Hs : integer_ok second_order_integer) by (split; reflexivity).
  assert (Hn : str_lt smallestOrderInteger second_order_integer) by reflexivity.
  pose proof (Hbtw _ Hs Hn) as Hle.
  destruct (incrementInteger_spec smallestOrderInteger smallest_ok) as (k & Hk & Hcase).
  assert (k = second_order_integer) as -> by (vm_compute in Hk; injection Hk as <-; reflexivity).
  destruct Hcase as [[Hnil _]|(_ & _ & _ & Hbtw')]; [done|]. pose proof (Hbtw' i Hi Hlt) as Hle'.
  unfold str_lt in *. rewrite (cmp_opp (cmp := String.compare) i second_order_integer) in Hle.
  destruct (String.compare i second_order_integer) eqn:E; try done. by apply cmp_eq_iff in E.
Qed.

Lemma keyBefore_spec i f : integer_ok i -> fraction_ok f -> i +:+ f <> smallestOrderInteger ->
  exists k, keyBefore (i +:+ f) = Ok k /\ k <> "" /\ str_lt k (i +:+ f) /\
    (key_ok k \/ (k = smallestOrderInteger /\ i +:+ f = second_order_integer)).
Proof.
  intros Hi Hf Hne. unfold keyBefore. rewrite splitOrderKey_ok by done. cbn [mbind result_bind].
  destruct (String.eqb_spec i smallestOrderInteger) as [->|Hs].
  - assert (Hfne : f <> "") by (intros ->; by rewrite str_app_nil_r in Hne).
    destruct (midpoint_of_ok "" f fraction_ok_nil Hf) as (m & -> & Hm & Hok & Hlo & Hhi);
      [right; by apply str_lt_nil|].
    exists (smallestOrderInteger +:+ m). split; [done|]. split; [done|]. rewrite str_lt_app.
    split; [by destruct Hhi|]. left. apply key_ok_intro; [done|done|by apply not_smallest].
  - destruct (str_ltb i (i +:+ f)) eqn:E.
    + exists i. split; [done|]. split; [by apply integer_ok_nonempty|]. split; [by apply str_ltb_lt|].
      left. by apply key_ok_integer.
    + assert (f = "") as ->.
      { destruct f as [|c f]; [done|]. exfalso. rewrite <- not_true_iff_false, str_ltb_lt in E.
        apply E. by apply str_lt_prefix. }
      rewrite str_app_nil_r in *. destruct (decrementInteger_spec i Hi Hs) as (j & Hj & Hjne & Hjok & Hlt & _).
      rewrite Hj. cbn [mbind result_bind]. rewrite (proj2 (String.eqb_neq j "") Hjne).
      exists j. split; [done|]. split; [done|]. split; [done|].
      destruct (String.eqb_spec j smallestOrderInteger) as [->|Hjs].
      * right. split; [done|]. by apply decrement_to_smallest.
      * left. by apply key_ok_integer.
Qed.

(** ** The generator *)

(** The bounds the generator takes: each open or storable, and in order. *)
Definition bounds_accepted (previous next : string) : Prop :=
  validateOrderKey previous = Ok tt /\ validateOrderKey next = Ok tt /\
  (previous = "" \/ next = "" \/ str_lt previous next).

Lemma OrderKeyBetween_between previous next : bounds_accepted previous next ->
  exists k, OrderKeyBetween previous next = Ok k /\ k <> "" /\
    (previous = "" \/ str_lt previous k) /\ (next = "" \/ str_lt k next) /\
    (key_ok k \/ (k = smallestOrderInteger /\ previous = "" /\ next = second_order_integer)).
Proof.
  intros (Hp & Hn & Hlt). unfold OrderKeyBetween. rewrite Hp, Hn. cbn [mbind result_bind].
  apply validateOrderKey_ok in Hp, Hn.
  destruct (String.eqb_spec previous "") as [->|Hpne], (String.eqb_spec next "") as [->|Hnne];
    cbn [negb andb].
  - exists orderKeyZero. split; [done|]. split; [done|]. split; [by left|]. split; [by left|].
    left. apply key_ok_integer; [apply orderKeyZero_ok|discriminate].
  - destruct Hn as [|(Hns & i & f & -> & Hi & Hf)]; [done|].
    destruct (keyBefore_spec i f Hi Hf Hns) as (k & -> & Hk & Hl & Hcase).
    exists k. split; [done|]. split; [done|]. split; [by left|]. split; [by right|].
    destruct Hcase as [|[-> ->]]; [by left|by right].
  - destruct Hp as [|(Hps & i & f & -> & Hi & Hf)]; [done|].
    destruct (keyAfter_spec i f Hi Hf) as (k & -> & Hk & Hl).
    exists k. split; [done|]. split; [intros ->; by destruct (i +:+ f)|].
    split; [by right|]. split; [by left|by left].
  - destruct Hlt as [|[|Hlt]]; [done|done|]. rewrite (proj2 (str_leb_lt _ _) Hlt).
    destruct Hp as [|(Hps & i & f & -> & Hi & Hf)]; [done|].
    destruct Hn as [|(Hns & j & g & -> & Hj & Hg)]; [done|].
    destruct (keyBetween_spec i f j g Hi Hf Hj Hg Hlt) as (k & -> & Hk & Hl & Hu).
    exists k. split; [done|]. split; [intros ->; by destruct (i +:+ f)|].
    split; [by right|]. split; [by right|by left].
Qed.

Lemma validateOrderKey_not_panic k : validateOrderKey k <> Panic.
Proof. destruct (validateOrderKey_spec k) as [[-> _]|[[e ->] _]]; done. Qed.

Lemma OrderKeyBetween_refuses previous next : ~ bounds_accepted previous next ->
  exists e, OrderKeyBetween previous next = Err e.
Proof.
  intros Hno. unfold OrderKeyBetween.
  destruct (validateOrderKey previous) as [[]|e|] eqn:Hp; cbn [mbind result_bind]; [|eauto|].
  2: by apply validateOrderKey_not_panic in Hp.
  destruct (validateOrderKey next) as [[]|e|] eqn:Hn; cbn [mbind result_bind]; [|eauto|].
  2: by apply validateOrderKey_not_panic in Hn.
  destruct (String.eqb_spec previous "") as [->|Hpne], (String.eqb_spec next "") as [->|Hnne];
    cbn [negb andb].
  1-3: exfalso; apply Hno; split; [done|]; split; [done|]; auto.
  destruct (str_leb next previous) eqn:E; [eauto|]. exfalso. apply Hno.
  apply str_leb_lt in E. split; [done|]. split; [done|]. auto.
Qed.

Lemma ValidOrderKey_ok k : key_ok k -> ValidOrderKey k = Ok tt.
Proof.
  intros Hk. unfold ValidOrderKey. rewrite (proj2 (validateOrderKey_ok k)) by auto.
  destruct (String.eqb_spec k "") as [->|]; [|done]. destruct Hk as (_ & i & f & E & Hi & _).
  destruct (integer_ok_inv i Hi) as (? & ? & ? & -> & _). discriminate.
Qed.

(** C5. The rank key generator is total: for any two strings it answers a key
    exactly when both bounds are storable (or open) and in order, and refuses
    otherwise; it never panics and never exhausts its recursion.  The key is
    not empty, lies strictly between the bounds in byte order, and can itself
    be stored and used as a bound again - except for the key before the second
    integer of the whole space. *)
Theorem order_key_between previous next :
  match OrderKeyBetween previous next with
  | Ok k =>
      bounds_accepted previous next /\ k <> "" /\
      (previous = "" \/ str_lt previous k) /\ (next = "" \/ str_lt k next) /\
      (ValidOrderKey k = Ok tt \/ (previous = "" /\ next = second_order_integer))
  | Err _ => ~ bounds_accepted previous next
  | Panic => False
  end.
Proof.
  assert (bounds_accepted previous next \/ ~ bounds_accepted previous next) as [H|H].
  { unfold bounds_accepted, str_lt. destruct (validateOrderKey previous) as [[]| |]; try (right; by intros [? _]).
    destruct (validateOrderKey next) as [[]| |]; try (right; by intros (_ & ? & _)).
    destruct (String.eqb_spec previous ""), (String.eqb_spec next ""), (String.compare previous next) eqn:E;
      try (left; by auto); right; intros (_ & _ & [|[|]]); congruence. }
  - destruct (OrderKeyBetween_between previous next H) as (k & -> & Hk & Hp & Hn & Hcase).
    split; [done|]. split; [done|]. split; [done|]. split; [done|].
    destruct Hcase as [Hok|(_ & -> & ->)]; [left; by apply ValidOrderKey_ok|by right].
  - destruct (OrderKeyBetween_refuses previous next H) as [e ->]. done.
Qed.

(** The exception is real: the second integer of the space is accepted as
    an order key, but the key generated before it is the smallest integer,
    which no later call accepts as a bound on either side: the row that got it
    can have no neighbour inserted next to it. *)
Theorem order_key_dead_end :
  ValidOrderKey second_order_integer = Ok tt /\
  OrderKeyBetween "" second_order_integer = Ok smallestOrderInteger /\
  ValidOrderKey smallestOrderInteger <> Ok tt /\
  forall other, (exists e, OrderKeyBetween smallestOrderInteger other = Err e) /\
                (exists e, OrderKeyBetween other smallestOrderInteger = Err e).
Proof.
  split; [vm_compute; reflexivity|]. split; [vm_compute; reflexivity|].
  split; [vm_compute; discriminate|]. intros other.
  assert (Hno : validateOrderKey smallestOrderInteger <> Ok tt) by (vm_compute; discriminate).
  split; apply OrderKeyBetween_refuses; intros (H1 & H2 & _); congruence.
Qed.
