(* ===== verification/Sync.v ===== *)
(** * Offline sync: the merge rules of the domain

    Models core/domain/model/sync/Mutation.go, Merge.go and Entity.go: the
    kinds of mutation a device may send, the bound its clock readings are held
    to, which fields of which record may be merged, and the field by field
    decision between what a device sent and what the server holds.

    The theorems: the decision splits what was sent into winners and losers and
    is stable under replay; storing the winners is a last-writer-wins merge
    that converges whatever the order of the pushes; a bounded reading stays
    within the skew - except, as [bound_lets_device_through] shows, for a
    device identifier with a colon in it. *)

From Stdlib Require Import ZArith Lia String Ascii List Bool.
From stdpp Require Import base list strings gmap.
From S2P Require Import Prelude Shared Hlc.

Open Scope string_scope.
Open Scope list_scope.
Open Scope Z_scope.

(** ** Mutation.go *)

Abbreviation MutationKind := string (only parsing).

Definition ItemCreate : MutationKind := "ITEM_CREATE".
Definition ItemPatch : MutationKind := "ITEM_PATCH".
Definition ItemDelete : MutationKind := "ITEM_DELETE".
Definition SetAdd : MutationKind := "SET_ADD".
Definition SetRemove : MutationKind := "SET_REMOVE".
Definition Move : MutationKind := "MOVE".
Definition CommentAdd : MutationKind := "COMMENT_ADD".
Definition ReminderCreate : MutationKind := "REMINDER_CREATE".
Definition ReminderPatch : MutationKind := "REMINDER_PATCH".
Definition ReminderDelete : MutationKind := "REMINDER_DELETE".
Definition RecurrenceCreate : MutationKind := "RECURRENCE_CREATE".
Definition RecurrencePatch : MutationKind := "RECURRENCE_PATCH".
Definition RecurrenceDelete : MutationKind := "RECURRENCE_DELETE".
Definition TemplateApply : MutationKind := "TEMPLATE_APPLY".
Definition ContainerCreate : MutationKind := "CONTAINER_CREATE".
Definition ContainerPatch : MutationKind := "CONTAINER_PATCH".
Definition ContainerDelete : MutationKind := "CONTAINER_DELETE".
Definition LabelCreate : MutationKind := "LABEL_CREATE".
Definition LabelPatch : MutationKind := "LABEL_PATCH".
Definition LabelDelete : MutationKind := "LABEL_DELETE".
Definition BucketCreate : MutationKind := "BUCKET_CREATE".
Definition BucketPatch : MutationKind := "BUCKET_PATCH".
Definition BucketDelete : MutationKind := "BUCKET_DELETE".
Definition EntityUpsert : MutationKind := "ENTITY_UPSERT".
Definition EntityPatch : MutationKind := "ENTITY_PATCH".
Definition EntityDelete : MutationKind := "ENTITY_DELETE".

Definition MutationKinds : list MutationKind :=
  [ItemCreate; ItemPatch; ItemDelete; SetAdd; SetRemove; Move; CommentAdd;
   ReminderCreate; ReminderPatch; ReminderDelete;
   RecurrenceCreate; RecurrencePatch; RecurrenceDelete;
   TemplateApply;
   ContainerCreate; ContainerPatch; ContainerDelete;
   LabelCreate; LabelPatch; LabelDelete;
   BucketCreate; BucketPatch; BucketDelete;
   EntityUpsert; EntityPatch; EntityDelete].

Definition OnEntity (k : MutationKind) : bool :=
  String.eqb k EntityUpsert || String.eqb k EntityPatch || String.eqb k EntityDelete.

Definition KindValid (k : MutationKind) : bool := existsb (fun known => String.eqb known k) MutationKinds.

Inductive ResultKind : Type := Applied | Merged | Rejected | Conflict.

(** The reading a device's reading is replaced by when it is further than
    [skew] from the server's time, and how far out it was. *)
Definition Bound (reading : HLC) (serverNow skew : Z) : HLC * Z :=
  let drift := time_sub (hlc_physical reading) serverNow in
  let drift := if drift <? 0 then neg_int64 drift else drift in
  if drift <=? skew then (reading, 0)
  else match NewHLC serverNow (hlc_counter reading) (hlc_device reading) with
       | Ok bounded => (bounded, drift)
       | _ => (reading, drift)
       end.

(** ** Merge.go *)

Inductive Shape : Type := ShapeCreation | ShapeFields | ShapeDeletion | ShapeAct.

#[export] Instance shape_eq_dec : EqDecision Shape.
Proof. solve_decision. Defined.

Record Family := mkFamily {
  fam_entity : string;
  fam_writable : gset string;
  fam_server_owned : gset string;
  fam_later : gset string
}.

Definition stamp_fields : list string :=
  ["id"; "version"; "created_at"; "updated_at"; "created_by"; "tenant_id"; "deleted_at"].

Definition family (entity : string) (writable owned later : list string) : Family :=
  mkFamily entity (list_to_set writable) (list_to_set (stamp_fields ++ owned)) (list_to_set later).

Definition reminderFamily : Family :=
  family "reminder" ["offset_spec"; "channels"; "recipients"] ["item_id"; "fire_at"; "state"] [].
Definition recurrenceFamily : Family :=
  family "recurrence_rule" ["rrule"; "time_zone"; "mode"; "horizon_days"; "ends_at"; "max_count"]
    ["item_id"; "last_materialized_at"] [].
Definition containerFamily : Family :=
  family "container" ["name"; "description"; "icon"; "color_token"]
    ["type"; "path"; "depth"; "structure"; "private"; "archived_at"]
    ["parent_id"; "order_key"; "completion_policy"; "auto_assign"].
Definition labelFamily : Family :=
  family "label" ["name"; "color_token"; "description"] ["collection_id"] [].
Definition bucketFamily : Family :=
  family "bucket" ["name"; "color_token"; "wip_limit"; "is_done_bucket"] ["collection_id"] ["order_key"].

Definition family_table : list (MutationKind * (Family * Shape)) :=
  [(ReminderCreate, (reminderFamily, ShapeCreation));
   (ReminderPatch, (reminderFamily, ShapeFields));
   (ReminderDelete, (reminderFamily, ShapeDeletion));
   (RecurrenceCreate, (recurrenceFamily, ShapeCreation));
   (RecurrencePatch, (recurrenceFamily, ShapeFields));
   (RecurrenceDelete, (recurrenceFamily, ShapeDeletion));
   (ContainerCreate, (containerFamily, ShapeCreation));
   (ContainerPatch, (containerFamily, ShapeFields));
   (ContainerDelete, (containerFamily, ShapeDeletion));
   (LabelCreate, (labelFamily, ShapeCreation));
   (LabelPatch, (labelFamily, ShapeFields));
   (LabelDelete, (labelFamily, ShapeDeletion));
   (BucketCreate, (bucketFamily, ShapeCreation));
   (BucketPatch, (bucketFamily, ShapeFields));
   (BucketDelete, (bucketFamily, ShapeDeletion))].

(** The [switch] over the kinds. *)
Fixpoint assoc {A} (k : string) (table : list (string * A)) : option A :=
  match table with
  | [] => None
  | (k', a) :: rest => if String.eqb k k' then Some a else assoc k rest
  end.

Definition FamilyOf (kind : MutationKind) : option (Family * Shape) := assoc kind family_table.

Definition field_unavailable (field : string) : Error :=
  detailed ErrUnavailable "sync.field_unavailable" [("field", field)].
Definition field_error (field code : string) : Error :=
  field_refused ErrValidation ("/fields/" +:+ field) code [("field", field)].

Definition Judge (f : Family) (field : string) : res unit :=
  if bool_decide (field ∈ fam_writable f) then Ok tt
  else if bool_decide (field ∈ fam_later f) then Err (field_unavailable field)
  else if bool_decide (field ∈ fam_server_owned f) then Err (field_error field "sync.field_not_mergeable")
  else Err (field_error field "sync.field_unknown").

(** A field loses when the server holds a reading that is not older. *)
Definition field_loses (server : gmap string HLC) (field : string) (reading : HLC) : bool :=
  match server !! field with Some stored => negb (After reading stored) | None => false end.

(** The loop over what was sent, one entry going to one of the two maps. *)
Definition Decide (sent server : gmap string HLC) : gmap string HLC * gmap string HLC :=
  map_fold (fun field reading '(winners, losers) =>
    if field_loses server field reading then (winners, <[field := reading]> losers)
    else (<[field := reading]> winners, losers)) (∅, ∅) sent.

(** ** Entity.go *)

Definition EntityEntryType : string := "entry_type".
Definition EntityLinkType : string := "link_type".
Definition EntityEntryLink : string := "entry_link".
Definition EntityWorkflow : string := "workflow".
Definition EntityCustomRole : string := "custom_role".
Definition EntityTimer : string := "time_timer".
Definition EntityTimeRecord : string := "time_record".

Inductive MergeRule : Type := MergeVersioned | MergePresence.

Definition Entities : list string :=
  [EntityEntryType; EntityLinkType; EntityEntryLink; EntityWorkflow; EntityCustomRole; EntityTimer;
   EntityTimeRecord].

Definition EntityValid (e : string) : bool := existsb (fun known => String.eqb known e) Entities.

Definition Rule (e : string) : MergeRule :=
  if String.eqb e EntityEntryLink then MergePresence else MergeVersioned.

Definition Admits (r : MergeRule) (kind : MutationKind) : bool :=
  match r with MergePresence => negb (String.eqb kind EntityPatch) | MergeVersioned => true end.

(** ** The decision *)

Lemma Decide_lookup sent server f :
  (Decide sent server).1 !! f =
    match sent !! f with
    | Some r => if field_loses server f r then None else Some r
    | None => None
    end /\
  (Decide sent server).2 !! f =
    match sent !! f with
    | Some r => if field_loses server f r then Some r else None
    | None => None
    end.
Proof.
  unfold Decide.
  apply (map_fold_weak_ind (fun (acc : gmap string HLC * gmap string HLC) (m : gmap string HLC) =>
    acc.1 !! f = match m !! f with
                 | Some r => if field_loses server f r then None else Some r | None => None end /\
    acc.2 !! f = match m !! f with
                 | Some r => if field_loses server f r then Some r else None | None => None end)).
  - by rewrite !lookup_empty.
  - intros g r m [winners losers] Hnone [IH1 IH2]. cbn [fst snd] in *.
    destruct (decide (g = f)) as [->|Hne].
    + rewrite lookup_insert_eq. rewrite Hnone in IH1, IH2.
      destruct (field_loses server f r); cbn [fst snd]; by rewrite ?lookup_insert_eq.
    + rewrite (lookup_insert_ne m) by done.
      destruct (field_loses server g r); cbn [fst snd]; by rewrite ?lookup_insert_ne.
Qed.

(** The decision splits what a device sent: every field is a winner or a
    loser and never both, a field wins exactly when the server holds no
    reading for it or an older one, and once the winners' readings are stored
    the same push, sent again, only loses. *)
Theorem decide_partition sent server :
  let '(winners, losers) := Decide sent server in
  winners ∪ losers = sent /\ winners ##ₘ losers /\
  (forall f r, winners !! f = Some r <->
    sent !! f = Some r /\ (server !! f = None \/ exists s, server !! f = Some s /\ After r s = true)) /\
  Decide sent (winners ∪ server) = (∅, sent).
Proof.
  destruct (Decide sent server) as [winners losers] eqn:E.
  assert (Hw : forall f, winners !! f = match sent !! f with
    | Some r => if field_loses server f r then None else Some r | None => None end).
  { intros f. rewrite <- (proj1 (Decide_lookup sent server f)). by rewrite E. }
  assert (Hl : forall f, losers !! f = match sent !! f with
    | Some r => if field_loses server f r then Some r else None | None => None end).
  { intros f. rewrite <- (proj2 (Decide_lookup sent server f)). by rewrite E. }
  split; [|split; [|split]].
  - apply map_eq. intros f. rewrite lookup_union, Hw, Hl.
    destruct (sent !! f) as [r|]; [|done]. by destruct (field_loses server f r).
  - apply map_disjoint_spec. intros f x y. rewrite Hw, Hl.
    destruct (sent !! f) as [r|]; [|done]. by destruct (field_loses server f r).
  - intros f r. rewrite Hw. unfold field_loses. destruct (sent !! f) as [q|]; [|split; [done|by intros [? _]]].
    destruct (server !! f) as [s|]; [|split; [auto|by intros [? _]]].
    destruct (After q s) eqn:A; cbn; split; [intros [= ->]; by eauto 6| |done|].
    + intros [[= ->] _]. done.
    + intros [[= ->] [|(s' & [= <-] & ?)]]; congruence.
  - assert (Hagain : forall f, field_loses (winners ∪ server) f <$> sent !! f = (fun _ => true) <$> sent !! f).
    { intros f. destruct (sent !! f) as [r|] eqn:Er; [|done]. cbn. f_equal. unfold field_loses at 1.
      rewrite lookup_union, Hw, Er. destruct (field_loses server f r) eqn:El.
      - unfold field_loses in El. destruct (server !! f) as [s|]; done.
      - destruct (server !! f); cbn; by rewrite after_irrefl. }
    destruct (Decide sent (winners ∪ server)) as [w l] eqn:E'.
    f_equal; apply map_eq; intros f; pose proof (Decide_lookup sent (winners ∪ server) f) as [H1 H2];
      rewrite E' in H1, H2; cbn [fst snd] in *; rewrite ?H1, ?H2, ?lookup_empty;
      specialize (Hagain f); destruct (sent !! f); cbn in Hagain; [|done| |done];
      injection Hagain as ->; done.
Qed.

(** ** Last writer wins

    A field with its value and the reading it was written under: what a push
    stores is the winners' values and readings over what the server holds. *)

Section Merge.
Context {V : Type}.
Implicit Types server sent : gmap string (V * HLC).

Definition readings (fields : gmap string (V * HLC)) : gmap string HLC := snd <$> fields.

(** [patch]: the winners of the decision are written, value and reading. *)
Definition merge_fields (server sent : gmap string (V * HLC)) : gmap string (V * HLC) :=
  let winners := (Decide (readings sent) (readings server)).1 in
  filter (fun '(f, _) => is_Some (winners !! f)) sent ∪ server.

Definition later_write (stored : option (V * HLC)) (sent : option (V * HLC)) : option (V * HLC) :=
  match stored, sent with
  | Some s, Some w => if After w.2 s.2 then Some w else Some s
  | Some s, None => Some s
  | None, w => w
  end.

Lemma merge_fields_lookup server sent f :
  merge_fields server sent !! f = later_write (server !! f) (sent !! f).
Proof.
  unfold merge_fields. rewrite lookup_union, map_lookup_filter.
  pose proof (proj1 (Decide_lookup (readings sent) (readings server) f)) as Hw.
  unfold readings in Hw at 3. rewrite lookup_fmap in Hw.
  destruct (sent !! f) as [[v r]|] eqn:Es; cbn in *; [|by destruct (server !! f)].
  unfold field_loses, readings in Hw. rewrite lookup_fmap in Hw.
  destruct (server !! f) as [[v' r']|]; cbn in *.
  - unfold readings. destruct (After r r'); cbn in Hw; rewrite Hw.
    + case_guard as G; [done|]. destruct G. by eexists.
    + case_guard as G; [|done]. by destruct G.
  - unfold readings. rewrite Hw. case_guard as G; [done|]. destruct G. by eexists.
Qed.

(** Two copies that carry the same reading for a field carry the same value:
    a reading names one write. *)
Definition agree (a b : gmap string (V * HLC)) : Prop :=
  forall f v w r, a !! f = Some (v, r) -> b !! f = Some (w, r) -> v = w.

Definition agree_at (a b : option (V * HLC)) : Prop :=
  match a, b with Some x, Some y => x.2 = y.2 -> x = y | _, _ => True end.

Lemma agree_lookup a b f : agree a b -> agree_at (a !! f) (b !! f).
Proof.
  intros H. destruct (a !! f) as [[v r]|] eqn:Ea, (b !! f) as [[w r']|] eqn:Eb; cbn; try done.
  intros <-. f_equal. eauto.
Qed.

Lemma after_total a b : After a b = false -> After b a = false -> a = b.
Proof.
  unfold After. rewrite (cmp_opp (cmp := hlc_compare) a b).
  destruct (hlc_compare a b) eqn:E; cbn; try done. intros _ _. by apply (cmp_eq_iff (cmp := hlc_compare)).
Qed.

Lemma later_write_swap s a b : agree_at a b -> agree_at s a -> agree_at s b ->
  later_write (later_write s a) b = later_write (later_write s b) a.
Proof.
  destruct s as [[vs rs]|], a as [[va ra]|], b as [[vb rb]|]; cbn; try done.
  - intros Hab Hsa Hsb.
    destruct (After ra rs) eqn:E1, (After rb rs) eqn:E2; cbn; rewrite ?E1, ?E2; try done.
    + destruct (After rb ra) eqn:E3, (After ra rb) eqn:E4; try done.
      * by rewrite (after_asym _ _ E3) in E4.
      * f_equal. apply Hab. by apply after_total.
    + destruct (After rb ra) eqn:E3; [|done].
      by rewrite (after_trans rb ra rs E3 E1) in E2.
    + destruct (After ra rb) eqn:E3; [|done].
      by rewrite (after_trans ra rb rs E3 E2) in E1.
  - intros _ _ _. by destruct (After _ _); cbn.
  - intros _ _ _. by destruct (After _ _); cbn.
  - intros Hab _ _. destruct (After rb ra) eqn:E3, (After ra rb) eqn:E4; try done.
    + by rewrite (after_asym _ _ E3) in E4.
    + f_equal. symmetry in Hab |- *. apply Hab. by apply after_total.
Qed.

Lemma later_write_idem s a : later_write (later_write s a) a = later_write s a.
Proof.
  destruct s as [[vs rs]|], a as [[va ra]|]; cbn; rewrite ?after_irrefl; try done.
  destruct (After ra rs) eqn:E; cbn; by rewrite ?after_irrefl, ?E.
Qed.

Lemma agree_merge server a b : agree server b -> agree a b -> agree (merge_fields server a) b.
Proof.
  intros Hs Ha f v w r. rewrite merge_fields_lookup.
  specialize (Hs f). specialize (Ha f).
  destruct (server !! f) as [[vs rs]|], (a !! f) as [[va ra]|]; cbn; try (intros; by eauto).
  destruct (After ra rs); intros; by eauto.
Qed.

(** Pushing a queue of changes, one after the other. *)
Definition merge_all (server : gmap string (V * HLC)) (pushes : list (gmap string (V * HLC))) :=
  foldl merge_fields server pushes.

End Merge.

Definition phone_reading : HLC := mkHLC (1784548920001 * Millisecond) 0 "phone".
Definition laptop_reading : HLC := mkHLC (1784548920001 * Millisecond) 0 "laptop".
Definition old_reading : HLC := mkHLC (1784548920000 * Millisecond) 3 "phone".

Definition example_fields (title : string) (at_ : HLC) : gmap string (string * HLC) :=
  {["title" := (title, at_)]}.

Lemma example_fields_agree t r t' r' : (r = r' -> t = t') ->
  agree (example_fields t r) (example_fields t' r').
Proof.
  intros H f v w q. unfold example_fields. rewrite !lookup_singleton_Some.
  intros [_ [= <- <-]] [_ [= <- E]]. by apply H.
Qed.


(** ** The bound on a device's clock *)

(** Instants the model of [time.Time.Sub] is exact between: the years the
    textual form of a reading can carry against any server time until 2262. *)
Definition sane_now (now : Z) : Prop := 0 < now <= max_duration.

Lemma bound_drift physical now : 0 <= physical -> sane_now now ->
  let drift := time_sub physical now in
  let drift := if drift <? 0 then neg_int64 drift else drift in
  0 <= drift /\ (drift = Z.abs (physical - now) \/ (drift = max_duration /\ max_duration < physical - now)).
Proof.
  intros Hp [Hn1 Hn2]. unfold time_sub, neg_int64, min_duration, max_duration in *. cbv zeta.
  destruct (Z.ltb_spec (Z.max (- 2 ^ 63) (Z.min (2 ^ 63 - 1) (physical - now))) 0) as [H|H].
  - destruct (Z.eqb_spec (Z.max (- 2 ^ 63) (Z.min (2 ^ 63 - 1) (physical - now))) (- 2 ^ 63)); lia.
  - lia.
Qed.

(** A device's reading whose identifier has no colon is held to the
    server's clock: whatever a device claims, the reading the merge uses lies
    within the permitted skew of the server's time (or is the server's own
    millisecond), its device and counter are the device's, and a reading that
    was within the skew is kept as it is. *)
Theorem bound_within_skew raw reading now skew
  (Hparse : ParseHLC raw = Ok reading)
  (Hdevice : str_contains ":" (hlc_device reading) = false)
  (Hnow : sane_now now) (Hskew : 0 <= skew < max_duration) :
  let '(bounded, drift) := Bound reading now skew in
  hlc_device bounded = hlc_device reading /\ hlc_counter bounded = hlc_counter reading /\
  (Z.abs (hlc_physical bounded - now) <= skew \/ hlc_physical bounded = truncate_ms now) /\
  (Z.abs (hlc_physical reading - now) <= skew <-> drift = 0) /\
  (drift = 0 -> bounded = reading).
Proof.
  assert (Hok : 0 <= hlc_physical reading /\ hlc_counter reading <= hlcMaxCounter /\ hlc_device reading <> "").
  { revert Hparse. unfold ParseHLC. repeat case_match; try done. intros [= <-]. cbn. bools.
    unfold Millisecond. split; [lia|done]. }
  destruct Hok as (Hp & Hc & Hd). unfold Bound.
  pose proof (bound_drift (hlc_physical reading) now Hp Hnow) as [Hpos Hdrift]. cbv zeta in *.
  set (drift := if time_sub (hlc_physical reading) now <? 0 then _ else _) in *.
  destruct (Z.leb_spec drift skew) as [Hle|Hgt].
  - split; [done|]. split; [done|]. destruct Hdrift as [Hdrift|[Hdrift _]]; [|lia].
    split; [left; lia|]. split; [split; lia|done].
  - unfold NewHLC. assert (time_is_zero now = false) as ->.
    { unfold time_is_zero. apply Z.eqb_neq. destruct Hnow. unfold zero_time, Second, Millisecond. lia. }
    rewrite (proj2 (String.eqb_neq _ _) Hd), Hdevice. cbn [orb].
    destruct (Z.ltb_spec hlcMaxCounter (hlc_counter reading)); [lia|]. cbn [hlc_device hlc_counter hlc_physical].
    split; [done|]. split; [done|]. split; [by right|]. split; [split; lia|lia].
Qed.

Lemma bound_within_skew_witness :
  let far := mkHLC (4102444800000 * Millisecond) 7 "phone" in
  let now := 1784548920000 * Millisecond in
  ParseHLC "4102444800000:00007:phone" = Ok far /\
  Bound far now (5 * Minute) = (mkHLC now 7 "phone", 2317895880000 * Millisecond) /\
  (Z.abs (now - now) <= 5 * Minute \/ now = truncate_ms now).
Proof.
  intros far now. assert (Hparse : ParseHLC "4102444800000:00007:phone" = Ok far) by (vm_compute; reflexivity).
  split; [done|]. split; [vm_compute; reflexivity|].
  assert (Hnow : sane_now now) by (split; vm_compute; congruence).
  assert (Hskew : 0 <= 5 * Minute < max_duration) by (split; vm_compute; congruence).
  pose proof (bound_within_skew _ far now (5 * Minute) Hparse eq_refl Hnow Hskew) as H.
  vm_compute in H. destruct H as (_ & _ & H & _). exact H.
Defined.

(** The hole in the bound: a reading's device may contain a colon,
    because only the first two separators are looked at when it is parsed, but
    a bounded reading for such a device cannot be built, and then the device's
    own reading is let through however far out it is. *)
Theorem bound_lets_device_through now :
  let raw := "9999999999999:00000:a:b" in
  let reading := mkHLC (9999999999999 * Millisecond) 0 "a:b" in
  ParseHLC raw = Ok reading /\
  forall skew, exists drift, Bound reading now skew = (reading, drift).
Proof.
  split; [vm_compute; reflexivity|]. intros skew. unfold Bound.
  destruct (_ <=? skew); [by eexists|].
  assert (exists e, NewHLC now (hlc_counter (mkHLC (9999999999999 * Millisecond) 0 "a:b"))
    (hlc_device (mkHLC (9999999999999 * Millisecond) 0 "a:b")) = Err e) as [e ->].
  { unfold NewHLC. destruct (time_is_zero now); [by eexists|]. by eexists. }
  by eexists.
Qed.

(** ** Which fields merge *)

Lemma Judge_ok f field : Judge f field = Ok tt <-> field ∈ fam_writable f.
Proof. unfold Judge. repeat case_bool_decide; intuition congruence. Qed.

(** The three sets of a family are apart. *)
Definition family_separate (f : Family) : bool :=
  bool_decide (fam_writable f ## fam_server_owned f) && bool_decide (fam_writable f ## fam_later f) &&
  bool_decide (fam_server_owned f ## fam_later f).

Lemma assoc_elem {A} k (table : list (string * A)) a : assoc k table = Some a -> (k, a) ∈ table.
Proof.
  induction table as [|[k' a'] table IH]; cbn; [done|].
  destruct (String.eqb_spec k k') as [->|]; intros H; [injection H as ->; by left|right; auto].
Qed.

(** Which field of which record a device may merge: the records of a
    family are served in full - each of the fifteen kinds has its family and
    shape, and is a kind of the contract -, a field is accepted exactly when
    its family declares it writable, the columns every record has are never
    among those, and a field of a declared family is in one class only. *)
Theorem families_judge kind f shape field (Hkind : FamilyOf kind = Some (f, shape)) :
  KindValid kind = true /\ OnEntity kind = false /\ shape <> ShapeAct /\ family_separate f = true /\
  (Judge f field = Ok tt <-> field ∈ fam_writable f) /\
  (field ∈ stamp_fields -> Judge f field = Err (field_error field "sync.field_not_mergeable")) /\
  (forall e, Judge f field = Err e ->
    err_category e = (if decide (field ∈ fam_later f) then CategoryUnavailable else CategoryValidation)).
Proof.
  apply assoc_elem in Hkind.
  assert (Hall : forall p, p ∈ family_table ->
    KindValid p.1 && negb (OnEntity p.1) && negb (bool_decide (p.2.2 = ShapeAct)) && family_separate p.2.1 &&
    bool_decide (Forall (fun s => (s ∈ fam_server_owned p.2.1) /\ (s ∉ fam_writable p.2.1) /\ (s ∉ fam_later p.2.1))
      stamp_fields) = true).
  { apply Forall_forall, (bool_decide_unpack _). vm_compute. exact I. }
  apply Hall in Hkind. cbn [fst snd] in Hkind. bools.
  split; [done|]. split; [done|]. split; [done|]. split; [done|]. split; [apply Judge_ok|].
  match goal with H : Forall _ stamp_fields |- _ => rewrite Forall_forall in H; specialize (H field) end.
  unfold Judge. split; [|intros e; case_decide]; repeat case_bool_decide; intros; simplify_eq/=; tauto.
Qed.

Lemma families_judge_witness :
  FamilyOf BucketPatch = Some (bucketFamily, ShapeFields) /\ Judge bucketFamily "wip_limit" = Ok tt /\
  Judge bucketFamily "id" = Err (field_error "id" "sync.field_not_mergeable").
Proof.
  assert (H : FamilyOf BucketPatch = Some (bucketFamily, ShapeFields)) by reflexivity.
  split; [done|]. split.
  - apply (families_judge BucketPatch bucketFamily ShapeFields "wip_limit" H). vm_compute. reflexivity.
  - apply (families_judge BucketPatch bucketFamily ShapeFields "id" H). by left.
Defined.
