(* ===== verification/Push.v ===== *)
(** * Offline sync: pushing a device's queue

    Models core/application/service/sync/PushChanges.go with the appliers of
    Patch.go, Set.go, Move.go, Entity.go and Entities.go.

    A push is a list of mutations, each named by an operation identifier the
    device chose; the server performs each one as the pushing person, through
    the catalogue of use cases, and records the answer under the identifier in
    the transaction that applied it.  The catalogue, the stores and the clock
    are interfaces of the source, and the fields of [Ports] here: functions on
    an abstract state of the server, [W].

    The theorems: a stored answer reads back as it was answered; a push that
    is sent again answers the same and changes nothing; a mutation that fails
    for lack of infrastructure leaves nothing behind; what of a patch reaches
    the use cases. *)

From Stdlib Require Import ZArith Lia String Ascii List Bool.
From stdpp Require Import base list strings gmap.
From S2P Require Import Prelude Shared Effects Hlc Civil SetElement Sync.

Open Scope string_scope.
Open Scope list_scope.
Open Scope Z_scope.

(** ** Values

    What Go holds in an [any] that came from JSON or from a use case. *)

#[warnings="-register-all"]
Inductive Value : Type :=
  | VNil
  | VBool (b : bool)
  | VNum (n : Z)
  | VStr (s : string)
  | VTime (t : Z)
  | VList (l : list Value)
  | VMap (m : gmap string Value).

Abbreviation Input := (gmap string Value) (only parsing).
Abbreviation Output := (gmap string Value) (only parsing).

(** Reading a key that may be missing gives [nil]. *)
Definition at_key (m : gmap string Value) (k : string) : Value := default VNil (m !! k).

Definition is_nil (v : Value) : bool := match v with VNil => true | _ => false end.

(** ** The requests and the answers *)

Record FieldChange := mkFieldChange { fc_value : Value; fc_hlc : string }.

Record Mutation := mkMutation {
  m_op : ID;
  m_kind : MutationKind;
  m_item : ID;
  m_base : option Z;
  m_fields : gmap string FieldChange;
  m_set : string;
  m_element : ID;
  m_hlc : string;
  m_payload : gmap string Value;
  m_entity : string;
  m_entity_key : string;
  m_entity_id : ID;
  m_container_id : ID
}.

Record ConflictDetail := mkConflictDetail {
  cd_field : string;
  cd_mine : Value;
  cd_theirs : Value;
  cd_comment : ID
}.

Record WireField := mkWireField { wf_path : string; wf_code : string; wf_params : gmap string string }.

Record ResultError := mkResultError {
  re_code : string;
  re_message : string;
  re_params : gmap string string;
  re_fields : list WireField
}.

Record Result := mkResult {
  r_op : ID;
  r_result : ResultKind;
  r_entity : ID;
  r_state : option (gmap string Value);
  r_conflict : option ConflictDetail;
  r_error : option ResultError
}.

(** One processed operation as the log keeps it
    (core/application/repository/sync/Port.go). *)
Record OpRecord := mkOpRecord {
  or_op : ID;
  or_device : ID;
  or_result : ResultKind;
  or_entity : ID;
  or_response : gmap string Value;
  or_applied_at : Z
}.

(** ** Rejections *)

Definition refusal (e : Error) : bool :=
  match err_category e with
  | CategoryValidation | CategoryNotFound | CategoryConflict | CategoryForbidden | CategoryGone => true
  | _ => false
  end.

Definition wire_params (p : params) : gmap string string := list_to_map p.
Definition wire_field (f : FieldError) : WireField :=
  mkWireField (fe_path f) (fe_code f) (wire_params (fe_params f)).

Definition rejected (m : Mutation) (failure : Error) : Result :=
  let code := if String.eqb (err_detail failure) "" then err_code failure else err_detail failure in
  let entityID := if negb (id_is_zero (m_entity_id m)) then m_entity_id m else m_item m in
  mkResult (m_op m) Rejected entityID None None
    (Some (mkResultError (err_code failure) code (wire_params (err_params failure))
             (wire_field <$> err_fields failure))).

(** ** The stored form of an answer *)

Definition withoutHidden (state : gmap string Value) : gmap string Value := delete "hidden" state.

Definition paramsOutput (p : gmap string string) : gmap string Value := VStr <$> p.

Definition paramsOf (raw : Value) : gmap string string :=
  match raw with
  | VMap values => omap (fun v => match v with VStr text => Some text | _ => None end) values
  | _ => ∅
  end.

Definition result_text (k : ResultKind) : string :=
  match k with
  | Applied => "APPLIED" | Merged => "MERGED" | Rejected => "REJECTED" | Conflict => "CONFLICT"
  end.

(** A member that is only there when its map has entries. *)
Definition with_params (p : gmap string string) (entry : gmap string Value) : gmap string Value :=
  if bool_decide (p = ∅) then entry else <["params" := VMap (paramsOutput p)]> entry.

Definition field_output (f : WireField) : Value :=
  VMap (with_params (wf_params f) {["path" := VStr (wf_path f); "code" := VStr (wf_code f)]}).

Definition conflict_output (c : ConflictDetail) : Value :=
  VMap {["field" := VStr (cd_field c); "mine" := cd_mine c; "theirs" := cd_theirs c;
         "preserved_comment_id" := (if id_is_zero (cd_comment c) then VNil else VStr (cd_comment c))]}.

Definition error_output (e : ResultError) : Value :=
  let failure : gmap string Value :=
    with_params (re_params e) {["code" := VStr (re_code e); "message_code" := VStr (re_message e)]} in
  VMap (match re_fields e with
        | [] => failure
        | fields => <["field_errors" := VList (field_output <$> fields)]> failure
        end).

Definition option_output {A} (f : A -> Value) (o : option A) : Value :=
  match o with Some a => f a | None => VNil end.

Definition resultOutput (r : Result) : gmap string Value :=
  {["op_id" := VStr (r_op r);
    "result" := VStr (result_text (r_result r));
    "entity_id" := (if id_is_zero (r_entity r) then VNil else VStr (r_entity r));
    "server_state" := option_output (fun s => VMap (withoutHidden s)) (r_state r);
    "conflict" := option_output conflict_output (r_conflict r);
    "error" := option_output error_output (r_error r)]}.

Definition recordOf (deviceID : ID) (r : Result) (at_ : Z) : OpRecord :=
  mkOpRecord (r_op r) deviceID (r_result r) (r_entity r) (resultOutput r) at_.

(** [v.(string)] without the check: the empty string when it is not one. *)
Definition stringOf (v : Value) : string := match v with VStr s => s | _ => "" end.

Definition conflict_of (v : Value) : option ConflictDetail :=
  match v with
  | VMap c => Some (mkConflictDetail (stringOf (at_key c "field")) (at_key c "mine") (at_key c "theirs")
                      (stringOf (at_key c "preserved_comment_id")))
  | _ => None
  end.

Definition field_of (v : Value) : option WireField :=
  match v with
  | VMap f => Some (mkWireField (stringOf (at_key f "path")) (stringOf (at_key f "code"))
                      (paramsOf (at_key f "params")))
  | _ => None
  end.

Definition error_of (v : Value) : option ResultError :=
  match v with
  | VMap f =>
      Some (mkResultError (stringOf (at_key f "code")) (stringOf (at_key f "message_code"))
              (paramsOf (at_key f "params"))
              (match at_key f "field_errors" with VList l => omap field_of l | _ => [] end))
  | _ => None
  end.

Definition resultFromRecord (record : OpRecord) : Result :=
  mkResult (or_op record) (or_result record) (or_entity record)
    (match at_key (or_response record) "server_state" with VMap s => Some s | _ => None end)
    (conflict_of (at_key (or_response record) "conflict"))
    (error_of (at_key (or_response record) "error")).

(** What a push shows of a result: the state without its hidden member. *)
Definition shown (r : Result) : Result :=
  mkResult (r_op r) (r_result r) (r_entity r) (withoutHidden <$> r_state r) (r_conflict r) (r_error r).

(** *** Reading a stored answer back *)

Lemma paramsOf_output p : paramsOf (VMap (paramsOutput p)) = p.
Proof.
  apply map_eq. intros k. cbn. unfold paramsOutput. rewrite lookup_omap, lookup_fmap. by destruct (p !! k).
Qed.

Lemma at_key_insert m k v : at_key (<[k := v]> m) k = v.
Proof. unfold at_key. by rewrite lookup_insert_eq. Qed.

Lemma at_key_insert_ne m k k' v : k <> k' -> at_key (<[k := v]> m) k' = at_key m k'.
Proof. intros. unfold at_key. by rewrite lookup_insert_ne. Qed.

Lemma at_key_with_params p m k : k <> "params" -> at_key (with_params p m) k = at_key m k.
Proof. intros H. unfold with_params. case_bool_decide; [done|]. by apply at_key_insert_ne. Qed.

Lemma params_with_params p m : at_key m "params" = VNil -> paramsOf (at_key (with_params p m) "params") = p.
Proof.
  intros H. unfold with_params. case_bool_decide as Hp; [by rewrite H, Hp|].
  rewrite at_key_insert. apply paramsOf_output.
Qed.

Lemma field_of_output f : field_of (field_output f) = Some f.
Proof.
  destruct f as [path code p]. unfold field_output, field_of. cbn [wf_path wf_code wf_params].
  rewrite !at_key_with_params by done. rewrite params_with_params by done. done.
Qed.

Lemma fields_of_output (fs : list WireField) : omap field_of (field_output <$> fs) = fs.
Proof.
  induction fs as [|f fs IH]; [done|]. rewrite fmap_cons.
  change (omap field_of (field_output f :: (field_output <$> fs)))
    with (match field_of (field_output f) with
          | Some x => x :: omap field_of (field_output <$> fs) | None => omap field_of (field_output <$> fs) end).
  by rewrite field_of_output, IH.
Qed.

Lemma error_of_output e : error_of (error_output e) = Some e.
Proof.
  destruct e as [code message p fs]. unfold error_output, error_of. cbn [re_code re_message re_params re_fields].
  destruct fs as [|f fs].
  - rewrite !(at_key_with_params p _ "code"), !(at_key_with_params p _ "message_code"),
      !(at_key_with_params p _ "field_errors"), params_with_params by done. done.
  - rewrite at_key_insert. repeat rewrite at_key_insert_ne by done.
    rewrite !(at_key_with_params p _ "code"), !(at_key_with_params p _ "message_code"),
      params_with_params by done.
    by rewrite fields_of_output.
Qed.

Lemma conflict_of_output c : conflict_of (conflict_output c) = Some c.
Proof.
  destruct c as [field mine theirs comment]. unfold conflict_output, conflict_of.
  cbn [cd_field cd_mine cd_theirs cd_comment]. unfold id_is_zero.
  destruct (String.eqb_spec comment "") as [->|]; reflexivity.
Qed.

(** The operation log gives an answer back exactly as it was first
    answered: a result, rendered into the record that is stored with the
    operation and read from it again, is the result with the hidden member of
    its state left out - its conflict, its error, the error's parameters and
    field errors included. *)
Theorem result_record_roundtrip device r at_ : resultFromRecord (recordOf device r at_) = shown r.
Proof.
  destruct r as [op kind entity state conflict error]. unfold resultFromRecord, recordOf, shown.
  cbn [or_op or_result or_entity or_response r_op r_result r_entity r_state r_conflict r_error].
  unfold resultOutput. cbn [r_op r_result r_entity r_state r_conflict r_error].
  change (at_key _ "server_state") with (option_output (fun s => VMap (withoutHidden s)) state).
  change (at_key _ "conflict") with (option_output conflict_output conflict).
  change (at_key _ "error") with (option_output error_output error).
  f_equal.
  - by destruct state.
  - destruct conflict as [c|]; [apply conflict_of_output|done].
  - destruct error as [e|]; [apply error_of_output|done].
Qed.

Lemma withoutHidden_idem s : withoutHidden (withoutHidden s) = withoutHidden s.
Proof. unfold withoutHidden. apply delete_delete_eq. Qed.

Lemma shown_idem r : shown (shown r) = shown r.
Proof. destruct r as [? ? ? [s|] ? ?]; cbn; [|done]. unfold shown. cbn. by rewrite withoutHidden_idem. Qed.

(** ** The server *)

Open Scope effect_scope.

(** What a use case is told besides its input: the readings a device wrote its
    fields under, and the push the mutation arrived in. *)
Record CallContext := mkCallContext { cc_readings : gmap string HLC; cc_push : option (ID * Z) }.
Definition no_context : CallContext := mkCallContext ∅ None.
Definition with_readings (ctx : CallContext) (r : gmap string HLC) : CallContext := mkCallContext r (cc_push ctx).
Definition with_push (ctx : CallContext) (push : ID * Z) : CallContext :=
  mkCallContext (cc_readings ctx) (Some push).

(** The interfaces [PushChanges] is built from, for one actor and one device:
    the catalogue of use cases, the operation log, the tombstones, the field
    clocks, the sets' elements, the activity recorder and the filer of
    displaced text.  The optional ones are [nil] in the source when unset. *)
Record Ports (W : Type) := mkPorts {
  Invoke : CallContext -> string -> Input -> M W Output;
  FindOp : ID -> W -> res (option OpRecord);
  RecordOp : OpRecord -> M W unit;
  TombstoneHolds : option (string -> ID -> W -> res bool);
  ClocksOf : option (string -> ID -> W -> res (gmap string HLC));
  LabelElements : option (ID -> W -> res (list SetElement));
  MemberElements : option (ID -> W -> res (list SetElement));
  AttachmentElements : option (ID -> W -> res (list SetElement));
  RecordStep : option (ID -> ID -> string -> gmap string Value -> Z -> M W unit);
  FileDisplaced : option (ID -> string -> gmap string string -> M W ID);
  Skew : Z;
  AccountID : ID;
  DeviceID : ID
}.
Arguments Invoke {W} _. Arguments FindOp {W} _. Arguments RecordOp {W} _.
Arguments TombstoneHolds {W} _. Arguments ClocksOf {W} _. Arguments LabelElements {W} _.
Arguments MemberElements {W} _. Arguments AttachmentElements {W} _. Arguments RecordStep {W} _.
Arguments FileDisplaced {W} _. Arguments Skew {W} _. Arguments AccountID {W} _. Arguments DeviceID {W} _.

(** ** Patch.go: which fields *)

Definition FieldTitle := "title".
Definition FieldAmount := "amount".
Definition FieldNotes := "notes".
Definition FieldBucketID := "bucket_id".
Definition FieldAssigneeID := "assignee_id".
Definition FieldCover := "cover".
Definition FieldStartAt := "start_at".
Definition FieldDueAt := "due_at".
Definition FieldDueDateOnly := "due_date_only".
Definition FieldDueTimeZone := "due_time_zone".
Definition FieldCustomFields := "custom_fields".
Definition FieldCompletion := "completion".
Definition FieldCompletionCount := "completion_count".
Definition FieldContentLanguage := "content_language".
Definition FieldCalendarUID := "calendar_uid".
Definition FieldCollectionID := "collection_id".
Definition FieldStatus := "status".
Definition FieldParentID := "parent_id".
Definition FieldOrderKey := "order_key".

Definition updateFields : list string :=
  [FieldTitle; FieldAmount; FieldNotes; FieldBucketID; FieldContentLanguage; FieldStartAt;
   FieldDueAt; FieldDueDateOnly; FieldDueTimeZone].
Definition dueFields : list string := [FieldDueAt; FieldDueDateOnly; FieldDueTimeZone].
Definition laterFields : list string := [FieldParentID].
Definition ownedFields : list string :=
  ["id"; "type"; FieldCollectionID; "path"; "depth"; FieldCompletionCount;
   "version"; "updated_at"; "created_at"; "created_by";
   "recurrence_rule_id"; "recurrence_source_id"; "origin_jumble_id";
   FieldCalendarUID; "retention"; "archived_at"; "deleted_at"; "trash_batch_id";
   "search_document"; "search_configuration"].

Definition is_custom_field (field : string) : bool := str_has_prefix (FieldCustomFields +:+ ".") field.
Definition custom_field_key (field : string) : string :=
  str_drop (String.length (FieldCustomFields +:+ ".")) field.

Definition patchable (field : string) : res unit :=
  if contains updateFields field || String.eqb field FieldAssigneeID || String.eqb field FieldCover ||
     String.eqb field FieldOrderKey || String.eqb field FieldCompletion || String.eqb field FieldStatus ||
     is_custom_field field then Ok tt
  else if contains laterFields field then Err (field_unavailable field)
  else if contains ownedFields field then Err (field_error field "sync.field_not_mergeable")
  else Err (field_error field "sync.field_unknown").

(** A loop over the names of a map that stops at the first refusal.  Go leaves
    the order open: which refusal is reported is the runtime's choice, whether
    there is one is not. *)
Definition check_fields {A} (check : string -> res unit) (fields : gmap string A) : res unit :=
  fold_result (fun _ field => check field) tt (elements (dom fields)).

(** *** Entity.go: the judgement *)

Definition judgeEntity (m : Mutation) : res unit :=
  if negb (EntityValid (m_entity m)) then
    Err (field_refused ErrValidation "/entity" "sync.entity_unknown" [("entity", m_entity m)])
  else if String.eqb (m_entity_key m) "" then
    Err (field_refused ErrValidation "/entity_key" "sync.entity_key_required" [])
  else if negb (Admits (Rule (m_entity m)) (m_kind m)) then
    Err (field_refused ErrValidation "/kind" "sync.entity_not_patchable" [("entity", m_entity m)])
  else Ok tt.

(** *** Readings and moments *)

Definition consider (moment : Z) (raw : string) : Z :=
  if String.eqb raw "" then moment
  else match ParseHLC raw with
       | Ok reading => if moment <? hlc_physical reading then hlc_physical reading else moment
       | _ => moment
       end.

Definition momentOf (m : Mutation) : Z :=
  map_fold (fun _ field moment => consider moment (fc_hlc field)) (consider zero_time (m_hlc m)) (m_fields m).

Definition DefaultSkew : Z := 5 * Minute.

Definition boundOne (now skew : Z) (raw : string) : res string :=
  if String.eqb raw "" then Ok ""
  else reading ← ParseHLC raw; Ok (hlc_string (Bound reading now skew).1).

Definition bound_field (now skew : Z) (fields : gmap string FieldChange) (entry : string * FieldChange) :
    res (gmap string FieldChange) :=
  hlc ← boundOne now skew (fc_hlc entry.2);
  Ok (<[entry.1 := mkFieldChange (fc_value entry.2) hlc]> fields).

Definition with_hlcs (m : Mutation) (hlc : string) (fields : gmap string FieldChange) : Mutation :=
  mkMutation (m_op m) (m_kind m) (m_item m) (m_base m) fields (m_set m) (m_element m) hlc (m_payload m)
    (m_entity m) (m_entity_key m) (m_entity_id m) (m_container_id m).

Definition bound (now skew : Z) (m : Mutation) : res Mutation :=
  let skew := if skew =? 0 then DefaultSkew else skew in
  hlc ← boundOne now skew (m_hlc m);
  fields ← fold_result (bound_field now skew) ∅ (map_to_list (m_fields m));
  Ok (with_hlcs m hlc fields).

(** *** Values of fields *)

Definition completionWanted (value : Value) : bool :=
  match value with
  | VBool v => v
  | VMap v => match at_key v "is_completed" with VBool done => done | _ => false end
  | _ => false
  end.

Definition idOrNilOf (id : ID) : Value := if id_is_zero id then VNil else VStr id.

Definition versionOf (out : Output) : Z :=
  match at_key out "version" with VNum v => v | _ => -1 end.

(** A value of a mutation's field; a missing one is the zero value. *)
Definition field_value (m : Mutation) (field : string) : Value :=
  match m_fields m !! field with Some c => fc_value c | None => VNil end.

Definition emptied (field : string) : option Value :=
  assoc field [("wip_limit", VNum 0); ("max_count", VNum 0); ("is_done_bucket", VBool false);
               ("channels", VList []); ("recipients", VList [])].

Definition clearedValue (field : string) (value : Value) : Value :=
  if negb (is_nil value) then value else default (VStr "") (emptied field).

Definition inputOf (payload : gmap string Value) : Input := payload.

Definition sortedFields {A} (fields : gmap string A) : list string :=
  sort_by String.compare (elements (dom fields)).

Definition applied_result (m : Mutation) (kind : ResultKind) (entity : ID) (state : option Output) : Result :=
  mkResult (m_op m) kind entity state None None.

Section Push.
Context {W : Type} (P : Ports W).
(** The clock's reading while a mutation is performed. *)
Context (now : Z).

Definition invoke (ctx : CallContext) (name : string) (in_ : Input) : M W Output := Invoke P ctx name in_.

(** *** PushChanges.go: the plain appliers *)

Definition item_required : Error := detailed ErrValidation "sync.item_required" [].

Definition create (ctx : CallContext) (m : Mutation) : M W Result :=
  out <~ invoke ctx "CreateWorkItem" (<["id" := VStr (m_item m)]> (inputOf (m_payload m)));
  ret (applied_result m Applied (m_item m) (Some out)).

Definition trash (ctx : CallContext) (m : Mutation) : M W Result :=
  if id_is_zero (m_item m) then fail item_required
  else
    out <~ invoke ctx "TrashWorkItem" {["item_id" := VStr (m_item m)]};
    ret (applied_result m Applied (m_item m) (Some out)).

Definition comment (ctx : CallContext) (m : Mutation) : M W Result :=
  if id_is_zero (m_item m) then fail item_required
  else
    out <~ invoke ctx "AddComment" (<["item_id" := VStr (m_item m)]> (inputOf (m_payload m)));
    ret (applied_result m Applied (stringOf (at_key out "id")) (Some out)).

Definition template (ctx : CallContext) (m : Mutation) : M W Result :=
  out <~ invoke ctx "InstantiateTemplate" (inputOf (m_payload m));
  ret (applied_result m Applied (stringOf (at_key out "root_item_id")) (Some out)).

(** *** Patch.go *)

Definition clocks_of (entity : string) (id : ID) : M W (gmap string HLC) :=
  match ClocksOf P with
  | None => ret ∅
  | Some read => query (read entity id)
  end.

Definition parse_reading (sent : gmap string HLC) (entry : string * FieldChange) : res (gmap string HLC) :=
  reading ← ParseHLC (fc_hlc entry.2); Ok (<[entry.1 := reading]> sent).
Definition sent_readings (m : Mutation) : res (gmap string HLC) :=
  fold_result parse_reading ∅ (map_to_list (m_fields m)).

Definition applyAssignee (ctx : CallContext) (itemID : ID) (value : Value) : M W unit :=
  let account := stringOf value in
  if String.eqb account "" then
    invoke ctx "UnassignWorkItem" {["item_id" := VStr itemID]};; skip
  else
    invoke ctx "AssignWorkItem" {["item_id" := VStr itemID; "account_id" := VStr account]};; skip.

Definition copy_present (cover : gmap string Value) (in_ : Input) (key : string) : Input :=
  let v := at_key cover key in if is_nil v then in_ else <[key := v]> in_.

Definition applyCover (ctx : CallContext) (itemID : ID) (value : Value) : M W unit :=
  match value with
  | VNil => invoke ctx "ClearCover" {["item_id" := VStr itemID]};; skip
  | VMap cover =>
      if bool_decide (cover = ∅) then invoke ctx "ClearCover" {["item_id" := VStr itemID]};; skip
      else
        invoke ctx "SetCover"
          (foldl (copy_present cover) {["item_id" := VStr itemID]} ["kind"; "color_token"; "media_id"]);;
        skip
  | _ => fail (field_refused ErrValidation "/fields/cover" "sync.field_malformed" [("field", FieldCover)])
  end.

(** One winner: collected for the one update at the end, or performed. *)
Definition apply_winner (ctx : CallContext) (m : Mutation) (update : Input) (field : string) : M W Input :=
  let itemID := m_item m in
  let value := field_value m field in
  if contains updateFields field then ret (<[field := value]> update)
  else if String.eqb field FieldAssigneeID then applyAssignee ctx itemID value;; ret update
  else if String.eqb field FieldCover then applyCover ctx itemID value;; ret update
  else if String.eqb field FieldCompletion then
    invoke ctx (if completionWanted value then "CompleteWorkItem" else "ReopenWorkItem")
      {["item_id" := VStr itemID]};; ret update
  else if String.eqb field FieldStatus then
    invoke ctx "TakeStep" {["item_id" := VStr itemID; "to_status" := VStr (stringOf value)]};; ret update
  else if String.eqb field FieldOrderKey then
    invoke ctx "ReorderWorkItem" {["item_id" := VStr itemID; "order_key" := VStr (stringOf value)]};; ret update
  else if is_custom_field field then
    invoke ctx "SetCustomField"
      {["item_id" := VStr itemID; "key" := VStr (custom_field_key field); "value" := value]};; ret update
  else ret update.

Fixpoint apply_winners (ctx : CallContext) (m : Mutation) (update : Input) (fields : list string) : M W Input :=
  match fields with
  | [] => ret update
  | field :: rest => update' <~ apply_winner ctx m update field; apply_winners ctx m update' rest
  end.

(** The due trio goes out together: what the device did not send is what the
    item has, and clearing the date clears its two companions. *)
Definition fill_due (before : Output) (update : Input) (field : string) : Input :=
  match update !! field with Some _ => update | None => <[field := at_key before field]> update end.

Definition settle_due (before : Output) (update : Input) : Input :=
  let update := foldl (fill_due before) update dueFields in
  if is_nil (at_key update FieldDueAt) then
    <[FieldDueAt := VStr ""]> (delete FieldDueTimeZone (delete FieldDueDateOnly update))
  else update.

Definition finish_update (before : Output) (update : Input) : Input :=
  let dueTouched := existsb (fun f => bool_decide (is_Some (update !! f))) dueFields in
  let update := if dueTouched then settle_due before update else update in
  (fun v => if is_nil v then VStr "" else v) <$> update.

Definition applyWinners (ctx : CallContext) (m : Mutation) (winners : gmap string HLC) (before : Output) :
    M W unit :=
  update <~ apply_winners ctx m ∅ (sortedFields winners);
  if bool_decide (update = ∅) then skip
  else
    invoke ctx "UpdateWorkItem" (<["item_id" := VStr (m_item m)]> (finish_update before update));; skip.

Definition record_step (itemID collectionID : ID) (verb : string) (changeSet : gmap string Value) : M W unit :=
  match RecordStep P with
  | None => skip
  | Some step => step itemID collectionID verb changeSet now
  end.

(** A displaced note is filed as a comment; a refusal to file it costs the
    comment, not the push. *)
Definition file_displaced (itemID : ID) (mine : string) (reading : HLC) : M W ID :=
  match FileDisplaced P with
  | None => ret ""
  | Some file =>
      if String.eqb mine "" then ret ""
      else
        outcome <~ attempt (file itemID mine
          (list_to_map [("field", FieldNotes); ("device", DeviceID P);
                        ("at", format_rfc3339 (hlc_physical reading))]));
        match outcome with
        | inl id => ret id
        | inr e => if refusal e then ret "" else fail e
        end
  end.

Definition answerLosers (m : Mutation) (losers : gmap string HLC) (before : Output) :
    M W (option ConflictDetail) :=
  let itemID := m_item m in
  let collectionID := stringOf (at_key before FieldCollectionID) in
  (match losers !! FieldCompletion with
   | Some reading =>
       record_step itemID collectionID "item.change_lost"
         {["field" := VStr FieldCompletion; "device_id" := VStr (DeviceID P);
           "hlc" := VStr (hlc_string reading);
           "is_completed" := VBool (completionWanted (field_value m FieldCompletion))]}
   | None => skip
   end);;
  match losers !! FieldNotes with
  | None => ret None
  | Some reading =>
      let mine := stringOf (field_value m FieldNotes) in
      id <~ file_displaced itemID mine reading;
      let conflict := mkConflictDetail FieldNotes (VStr mine) (at_key before FieldNotes) id in
      record_step itemID collectionID "item.merged"
        {["field" := VStr FieldNotes; "device_id" := VStr (DeviceID P);
          "hlc" := VStr (hlc_string reading); "preserved_comment_id" := idOrNilOf id]};;
      ret (Some conflict)
  end.

Definition fields_required : Error := field_refused ErrValidation "/fields" "sync.fields_required" [].

(** Nothing else had moved since the device's base. *)
Definition base_matches (m : Mutation) (before : Output) : bool :=
  match m_base m with None => true | Some base => versionOf before =? base end.

Definition patch (ctx : CallContext) (m : Mutation) : M W Result :=
  if id_is_zero (m_item m) then fail item_required
  else if bool_decide (m_fields m = ∅) then fail fields_required
  else
    lift (check_fields patchable (m_fields m));;
    before <~ invoke ctx "GetWorkItem" {["item_id" := VStr (m_item m)]};
    clocks <~ clocks_of "item" (m_item m);
    sent <~ lift (sent_readings m);
    let '(winners, losers) := Decide sent clocks in
    (if bool_decide (winners = ∅) then skip
     else applyWinners (with_readings ctx winners) m winners before);;
    conflict <~ answerLosers m losers before;
    after <~ invoke ctx "GetWorkItem" {["item_id" := VStr (m_item m)]};
    let kind :=
      match conflict with
      | Some _ => Conflict
      | None => if Nat.eqb (size winners) (size (m_fields m)) && base_matches m before then Applied else Merged
      end in
    ret (mkResult (m_op m) kind (m_item m) (Some after) conflict None).

(** *** Set.go *)

(** The owner of a set, when the set is known and its elements are wired. *)
Definition owner (set : string) : option ((ID -> W -> res (list SetElement)) * (string * string * string)) :=
  if String.eqb set "labels" then
    elements ← LabelElements P; Some (elements, ("AddLabel", "RemoveLabel", "label_id"))
  else if String.eqb set "members" then
    elements ← MemberElements P; Some (elements, ("AddMember", "RemoveMember", "account_id"))
  else if String.eqb set "attachments" then
    elements ← AttachmentElements P; Some (elements, ("AttachMedia", "DetachMedia", "media_id"))
  else None.

Definition set_unknown (set : string) : Error :=
  field_refused ErrValidation "/set" "sync.set_unknown" [("set", set)].

Fixpoint presentIn (elements : list SetElement) (id : ID) : bool :=
  match elements with
  | [] => false
  | element :: rest => if String.eqb (ElementID element) id then IsPresent element else presentIn rest id
  end.

(** The device's element: one tag, on the side the mutation is about. *)
Definition own_element (m : Mutation) (tag : HLC) : SetElement :=
  if String.eqb (m_kind m) SetAdd then mkSetElement (m_element m) tag zero_hlc
  else mkSetElement (m_element m) zero_hlc tag.

Definition setChange (ctx : CallContext) (m : Mutation) : M W Result :=
  if id_is_zero (m_item m) then fail item_required
  else if id_is_zero (m_element m) then
    fail (field_refused ErrValidation "/element" "sync.element_required" [])
  else match owner (m_set m) with
  | None => fail (set_unknown (m_set m))
  | Some (elements, (add, remove, element)) =>
      tag <~ lift (ParseHLC (m_hlc m));
      before <~ invoke ctx "GetWorkItem" {["item_id" := VStr (m_item m)]};
      stored <~ query (elements (m_item m));
      let wasPresent := presentIn stored (m_element m) in
      let merged := MergeSetElements stored [own_element m tag] in
      let nowPresent := presentIn merged (m_element m) in
      if eqb wasPresent nowPresent then ret (applied_result m Merged (m_item m) (Some before))
      else
        invoke (with_readings ctx {[m_set m := tag]}) (if nowPresent then add else remove)
          {["item_id" := VStr (m_item m); element := VStr (m_element m)]};;
        after <~ invoke ctx "GetWorkItem" {["item_id" := VStr (m_item m)]};
        ret (applied_result m Applied (m_item m) (Some after))
  end.

(** *** Move.go *)

Definition moveFields : list string := [FieldParentID; FieldCollectionID; FieldBucketID; FieldOrderKey].
Definition cycleCodes : list string := ["items.parent_is_self"; "items.parent_in_own_subtree"].

Definition isMoveField (field : string) : bool := contains moveFields field.

Definition check_move_field (field : string) : res unit :=
  if isMoveField field then Ok tt
  else Err (field_refused ErrValidation ("/payload/" +:+ field) "sync.field_unknown" [("field", field)]).

Definition move_input_name (field : string) : string :=
  if String.eqb field FieldParentID then "target_parent_id"
  else if String.eqb field FieldCollectionID then "target_collection_id"
  else if String.eqb field FieldBucketID then "target_bucket_id"
  else "order_key".

Definition move_target (m : Mutation) (reading : HLC) (acc : Input * gmap string HLC) (field : string) :
    Input * gmap string HLC :=
  match m_payload m !! field with
  | None => acc
  | Some value => (<[move_input_name field := VStr (stringOf value)]> acc.1, <[field := reading]> acc.2)
  end.

Definition move (ctx : CallContext) (m : Mutation) : M W Result :=
  if id_is_zero (m_item m) then fail item_required
  else if negb (bool_decide (is_Some (m_payload m !! FieldParentID))) then
    fail (field_refused ErrValidation "/payload/parent_id" "sync.fields_required" [])
  else
    reading <~ lift (ParseHLC (m_hlc m));
    lift (check_fields check_move_field (m_payload m));;
    before <~ invoke ctx "GetWorkItem" {["item_id" := VStr (m_item m)]};
    clocks <~ clocks_of "item" (m_item m);
    if field_loses clocks FieldParentID reading then
      ret (applied_result m Merged (m_item m) (Some before))
    else
      let '(in_, readings) :=
        foldl (move_target m reading) ({["item_id" := VStr (m_item m)]}, ∅) moveFields in
      outcome <~ attempt (invoke (with_readings ctx readings) "MoveWorkItem" in_);
      match outcome with
      | inr e =>
          if contains cycleCodes (err_detail e) then
            fail (field_refused ErrConflict "/payload/parent_id" "sync.cycle_detected" [])
          else fail e
      | inl _ =>
          after <~ invoke ctx "GetWorkItem" {["item_id" := VStr (m_item m)]};
          ret (applied_result m (if base_matches m before then Applied else Merged) (m_item m) (Some after))
      end.

(** *** Entity.go *)

Record entityWriters := mkEntityWriters {
  ew_create : string; ew_change : string; ew_remove : string;
  ew_key : string; ew_remove_key : string;
  ew_patch : string;
  ew_key_on_change : bool;
  ew_remove_versioned : bool;
  ew_correct : string;
  ew_create_only : list string
}.

Definition writersOf (entity : string) : option entityWriters :=
  assoc entity
    [(EntityEntryType, mkEntityWriters "CreateEntryType" "ChangeEntryType" "DeleteEntryType" "key" "key" ""
        false false "" ["level"]);
     (EntityLinkType, mkEntityWriters "CreateLinkType" "ChangeLinkType" "DeleteLinkType" "key" "key" ""
        false false "" ["direction"; "cardinality"; "cycles"; "waits"]);
     (EntityWorkflow, mkEntityWriters "CreateWorkflow" "SaveWorkflowDraft" "DeleteWorkflow" "key" "key" ""
        false false "" []);
     (EntityCustomRole, mkEntityWriters "CreateRole" "ChangeRole" "DeleteRole" "key" "key" ""
        false false "" []);
     (EntityEntryLink, mkEntityWriters "LinkEntries" "" "UnlinkEntries" "id" "link_id" ""
        false false "" []);
     (EntityTimer, mkEntityWriters "StartTimer" "" "DiscardTimer" "" "" "StopTimer"
        false false "" []);
     (EntityTimeRecord, mkEntityWriters "LogTime" "" "DeleteTimeRecord" "record_id" "record_id"
        "UpdateTimeRecord" true true "CorrectTimeRecord" [])].

Definition entityInput (m : Mutation) (writers : entityWriters) (change : bool) : Input :=
  let in_ := delete "expected_version" (inputOf (m_payload m)) in
  let in_ :=
    if change then
      let in_ := foldl (fun acc field => delete field acc) in_ (ew_create_only writers) in
      match m_base m with
      | Some base => if 0 <? base then <["expected_version" := VNum base]> in_ else in_
      | None => in_
      end
    else in_ in
  if negb (String.eqb (ew_key writers) "") && (change || negb (ew_key_on_change writers)) then
    <[ew_key writers := VStr (m_entity_key m)]> in_
  else in_.

Definition entityApplied (m : Mutation) (out : Output) : Result :=
  let id := match at_key out "id" with
            | VStr id => id
            | _ => if String.eqb (m_entity m) EntityEntryLink then m_entity_key m else ""
            end in
  applied_result m Applied id (Some out).

Definition removeEntity (ctx : CallContext) (m : Mutation) (writers : entityWriters) : M W Result :=
  let in_ : Input :=
    if String.eqb (ew_remove_key writers) "" then ∅ else {[ew_remove_key writers := VStr (m_entity_key m)]} in
  let in_ :=
    match m_base m with
    | Some base => if ew_remove_versioned writers then <["expected_version" := VNum base]> in_ else in_
    | None => in_
    end in
  outcome <~ attempt (invoke ctx (ew_remove writers) in_);
  let id := if String.eqb (m_entity m) EntityEntryLink then m_entity_key m else "" in
  match outcome with
  | inr e =>
      if bool_decide (err_category e = CategoryNotFound) then ret (applied_result m Applied id None)
      else fail e
  | inl _ => ret (applied_result m Applied id None)
  end.

Definition create_entity (ctx : CallContext) (m : Mutation) (writers : entityWriters) : M W Result :=
  out <~ invoke ctx (ew_create writers) (entityInput m writers false);
  ret (entityApplied m out).

Definition upsertEntity (ctx : CallContext) (m : Mutation) (writers : entityWriters) : M W Result :=
  match m_payload m !! "corrects", negb (String.eqb (ew_correct writers) "") with
  | Some (VStr corrects), true =>
      out <~ invoke ctx (ew_correct writers)
               (<["record_id" := VStr corrects]> (delete "corrects" (entityInput m writers false)));
      ret (entityApplied m out)
  | _, _ =>
      if negb (String.eqb (ew_change writers) "") then
        outcome <~ attempt (invoke ctx (ew_change writers) (entityInput m writers true));
        match outcome with
        | inl out => ret (entityApplied m out)
        | inr e =>
            if negb (bool_decide (err_category e = CategoryNotFound)) then fail e
            else create_entity ctx m writers
        end
      else create_entity ctx m writers
  end.

Definition applyEntity (ctx : CallContext) (m : Mutation) : M W Result :=
  match writersOf (m_entity m) with
  | None =>
      (* every entity the judgement passes has writers: the answer is the refusal *)
      lift (judgeEntity m);; ret (mkResult "" Rejected "" None None None)
  | Some writers =>
      if String.eqb (m_kind m) EntityDelete then removeEntity ctx m writers
      else if String.eqb (m_kind m) EntityPatch then
        let change := if String.eqb (ew_patch writers) "" then ew_change writers else ew_patch writers in
        out <~ invoke ctx change (entityInput m writers true);
        ret (entityApplied m out)
      else upsertEntity ctx m writers
  end.

Definition entity (ctx : CallContext) (m : Mutation) : M W Result :=
  result <~ applyEntity ctx m;
  if negb (String.eqb (m_entity m) EntityTimer) then ret result
  else
    ret (mkResult (r_op result) (r_result result) (AccountID P)
           (if String.eqb (m_kind m) EntityUpsert then r_state result else None)
           (r_conflict result) (r_error result)).

(** *** Entities.go *)

Record familyOwner := mkFamilyOwner {
  fo_create : string; fo_update : string; fo_remove : string; fo_id_key : string;
  fo_read : CallContext -> Mutation -> M W Output
}.

Definition entity_not_found : Error := detailed ErrNotFound "sync.entity_not_found" [].

(** The row of a list answer with an identifier. *)
Fixpoint find_row (rows : list Value) (id : ID) : option (gmap string Value) :=
  match rows with
  | [] => None
  | VMap row :: rest => if String.eqb (stringOf (at_key row "id")) id then Some row else find_row rest id
  | _ :: rest => find_row rest id
  end.

Definition listed (ctx : CallContext) (name : string) (in_ : Input) (id : ID) : M W Output :=
  out <~ invoke ctx name in_;
  match find_row (match at_key out "data" with VList rows => rows | _ => [] end) id with
  | Some row => ret row
  | None => fail entity_not_found
  end.

Definition ownerOf (name : string) : familyOwner :=
  if String.eqb name "reminder" then
    mkFamilyOwner "CreateReminder" "UpdateReminder" "DeleteReminder" "reminder_id"
      (fun ctx m => listed ctx "ListReminders" {["item_id" := VStr (m_item m)]} (m_entity_id m))
  else if String.eqb name "container" then
    mkFamilyOwner "CreateContainer" "RenameContainer" "TrashContainer" "container_id"
      (fun ctx m => invoke ctx "GetContainer" {["container_id" := VStr (m_entity_id m)]})
  else if String.eqb name "label" then
    mkFamilyOwner "CreateLabel" "UpdateLabel" "DeleteLabel" "label_id"
      (fun ctx m => listed ctx "ListLabels"
         {["collection_id" := VStr (m_container_id m); "include_deleted" := VBool true]} (m_entity_id m))
  else
    mkFamilyOwner "CreateBucket" "UpdateBucket" "DeleteBucket" "bucket_id"
      (fun ctx m => listed ctx "ListBuckets" {["collection_id" := VStr (m_container_id m)]} (m_entity_id m)).

Definition judged_reading (f : Family) (sent : gmap string HLC) (entry : string * FieldChange) :
    res (gmap string HLC) :=
  _ ← Judge f entry.1; parse_reading sent entry.

Definition decide (f : Family) (id : ID) (fields : gmap string FieldChange) : M W (gmap string HLC) :=
  if bool_decide (fields = ∅) then fail fields_required
  else
    sent <~ lift (fold_result (judged_reading f) ∅ (map_to_list fields));
    clocks <~ clocks_of (fam_entity f) id;
    ret (Decide sent clocks).1.

Definition recurrence_fields : list string :=
  ["rrule"; "time_zone"; "mode"; "horizon_days"; "ends_at"; "max_count"].

Definition timed (value : Value) : Value :=
  match value with VTime at_ => VStr (format_rfc3339 at_) | v => v end.

Definition recurrence_value (before : Output) (winners : gmap string HLC) (fields : gmap string FieldChange)
    (in_ : Input) (field : string) : Input :=
  let value := match winners !! field with
               | Some _ => match fields !! field with Some c => fc_value c | None => VNil end
               | None => at_key before field
               end in
  <[field := clearedValue field (timed value)]> in_.

(** A rule created again is a patch of all the fields it was sent with. *)
Definition creation_field (hlc : string) (fields : gmap string FieldChange) (entry : string * Value) :
    res (gmap string FieldChange) :=
  _ ← Judge recurrenceFamily entry.1; Ok (<[entry.1 := mkFieldChange entry.2 hlc]> fields).

Definition recurrence (ctx : CallContext) (m : Mutation) (shape : Shape) : M W Result :=
  let itemID := m_item m in
  if id_is_zero itemID then fail item_required
  else if bool_decide (shape = ShapeDeletion) then
    invoke ctx "RemoveRecurrence" {["item_id" := VStr itemID]};;
    ret (applied_result m Applied (m_entity_id m) None)
  else
    outcome <~ attempt (invoke ctx "GetRecurrence" {["item_id" := VStr itemID]});
    match outcome with
    | inr e =>
        if negb (bool_decide (err_category e = CategoryNotFound)) then fail e
        else
          let in_ := map_fold (fun field change acc => <[field := clearedValue field (fc_value change)]> acc)
                       (inputOf (m_payload m)) (m_fields m) in
          let in_ := <["item_id" := VStr itemID]> in_ in
          let in_ := if id_is_zero (m_entity_id m) then in_ else <["id" := VStr (m_entity_id m)]> in_ in
          out <~ invoke ctx "SetRecurrence" in_;
          ret (applied_result m Applied (stringOf (at_key out "id")) (Some out))
    | inl before =>
        fields <~ lift (if bool_decide (shape = ShapeCreation)
                        then fold_result (creation_field (m_hlc m)) ∅ (map_to_list (m_payload m))
                        else Ok (m_fields m));
        let ruleID := stringOf (at_key before "id") in
        winners <~ decide recurrenceFamily ruleID fields;
        after <~ (if bool_decide (winners = ∅) then ret before
                  else invoke (with_readings ctx winners) "SetRecurrence"
                         (foldl (recurrence_value before winners fields) {["item_id" := VStr itemID]}
                            recurrence_fields));
        ret (applied_result m (if Nat.eqb (size winners) (size fields) then Applied else Merged)
               ruleID (Some after))
    end.

Definition with_item (f : Family) (m : Mutation) (in_ : Input) : Input :=
  if String.eqb (fam_entity f) "reminder" then <["item_id" := VStr (m_item m)]> in_ else in_.

Definition family_patch (ctx : CallContext) (f : Family) (own : familyOwner) (m : Mutation) : M W Result :=
  if (String.eqb (fam_entity f) "label" || String.eqb (fam_entity f) "bucket") && id_is_zero (m_container_id m)
  then fail (field_refused ErrValidation "/container_id" "sync.container_required" [])
  else
    fo_read own ctx m;;
    winners <~ decide f (m_entity_id m) (m_fields m);
    after <~
      (if bool_decide (winners = ∅) then fo_read own ctx m
       else
         let in_ := with_item f m {[fo_id_key own := VStr (m_entity_id m)]} in
         let in_ := foldl (fun acc field => <[field := clearedValue field (field_value m field)]> acc) in_
                      (sortedFields winners) in
         invoke (with_readings ctx winners) (fo_update own) in_);
    ret (applied_result m (if Nat.eqb (size winners) (size (m_fields m)) then Applied else Merged)
           (m_entity_id m) (Some after)).

Definition familyRecord (ctx : CallContext) (m : Mutation) : M W Result :=
  let '(f, shape) := default (family "" [] [] [], ShapeAct) (FamilyOf (m_kind m)) in
  if String.eqb (fam_entity f) "recurrence_rule" then recurrence ctx m shape
  else if id_is_zero (m_entity_id m) then
    fail (field_refused ErrValidation "/entity_id" "sync.entity_required" [])
  else if String.eqb (fam_entity f) "reminder" && id_is_zero (m_item m) then fail item_required
  else
    let own := ownerOf (fam_entity f) in
    match shape with
    | ShapeCreation =>
        out <~ invoke ctx (fo_create own)
                 (with_item f m (<["id" := VStr (m_entity_id m)]> (inputOf (m_payload m))));
        ret (applied_result m Applied (m_entity_id m) (Some out))
    | ShapeDeletion =>
        invoke ctx (fo_remove own) (with_item f m {[fo_id_key own := VStr (m_entity_id m)]});;
        ret (applied_result m Applied (m_entity_id m) None)
    | _ => family_patch ctx f own m
    end.

(** *** PushChanges.go: one mutation *)

Definition applier : Type := CallContext -> Mutation -> M W Result.

Definition appliers (kind : MutationKind) : option applier :=
  if bool_decide (is_Some (FamilyOf kind)) then Some familyRecord
  else assoc kind
    [(ItemCreate, create); (ItemPatch, patch); (ItemDelete, trash); (Move, move);
     (SetAdd, setChange); (SetRemove, setChange); (CommentAdd, comment); (TemplateApply, template);
     (EntityUpsert, entity); (EntityPatch, entity); (EntityDelete, entity)].

Definition judge (m : Mutation) : res unit :=
  let kind := m_kind m in
  if OnEntity kind then judgeEntity m
  else if String.eqb kind ItemPatch then check_fields patchable (m_fields m)
  else if contains [ReminderPatch; RecurrencePatch; ContainerPatch; LabelPatch; BucketPatch] kind then
    match FamilyOf kind with
    | Some (f, _) => check_fields (Judge f) (m_fields m)
    | None => Ok tt
    end
  else if String.eqb kind SetAdd || String.eqb kind SetRemove then
    if String.eqb (m_set m) "watchers" then
      Err (detailed ErrUnavailable "sync.set_unavailable" [("set", m_set m)])
    else match owner (m_set m) with None => Err (set_unknown (m_set m)) | Some _ => Ok tt end
  else Ok tt.

Definition purged (m : Mutation) : M W bool :=
  match TombstoneHolds P with
  | None => ret false
  | Some holds => if id_is_zero (m_item m) then ret false else query (holds "work_item" (m_item m))
  end.

Definition record (result : Result) : M W Result :=
  within (RecordOp P (recordOf (DeviceID P) result now);; ret result).

Definition perform (f : applier) (ctx : CallContext) (m : Mutation) : M W Result :=
  within (result <~ f ctx m;
          RecordOp P (recordOf (DeviceID P) result now);;
          ret result).

(** The part of a mutation that reaches the stores. *)
Definition apply_bounded (pushID : ID) (f : applier) (m bounded : Mutation) : M W Result :=
  held <~ purged bounded;
  if (held : bool) then record (rejected m (detailed ErrGone "sync.gone" []))
  else
    outcome <~ attempt (perform f (with_push no_context (pushID, momentOf bounded)) bounded);
    match outcome with
    | inl result => ret result
    | inr e => if negb (refusal e) then fail e else record (rejected m e)
    end.

Definition apply_fresh (pushID : ID) (m : Mutation) : M W Result :=
  match bound now (Skew P) m with
  | Err e => ret (rejected m e)
  | Panic => lift Panic
  | Ok bounded =>
      match appliers (m_kind bounded) with
      | None =>
          ret (rejected m (detailed ErrUnavailable "sync.kind_unavailable" [("kind", m_kind m)]))
      | Some f =>
          match judge bounded with
          | Err e => if negb (refusal e) then ret (rejected m e) else record (rejected m e)
          | Panic => lift Panic
          | Ok _ => apply_bounded pushID f m bounded
          end
      end
  end.

Definition apply (pushID : ID) (m : Mutation) : M W Result :=
  if id_is_zero (m_op m) || negb (IsUUIDv7 (m_op m)) then
    ret (rejected m (detailed ErrValidation "sync.op_id_required" []))
  else if negb (KindValid (m_kind m)) then
    ret (rejected m (detailed ErrValidation "sync.kind_unknown" [("kind", m_kind m)]))
  else
    seen <~ query (FindOp P (m_op m));
    match seen with
    | Some record => ret (resultFromRecord record)
    | None => apply_fresh pushID m
    end.

(** *** The push *)

Definition PushLimit : nat := 500.

Definition push_too_large : Error :=
  field_refused ErrValidation "/mutations" "sync.push_too_large" [("max", itoa (Z.of_nat PushLimit))].

Fixpoint apply_all (pushID : ID) (mutations : list Mutation) : M W (list Result) :=
  match mutations with
  | [] => ret []
  | m :: rest =>
      result <~ apply pushID m;
      results <~ apply_all pushID rest;
      ret (shown result :: results)
  end.

(** [Push] without the scope check and the device's contact, which are
    [pushScope] and [touch]: they refuse the whole push before it starts. *)
Definition Push_mutations (pushID : ID) (mutations : list Mutation) : M W (list Result) :=
  if Nat.ltb PushLimit (List.length mutations) then fail push_too_large
  else apply_all pushID mutations.
End Push.

(** ** What the stores promise

    The operation log answers what was recorded under an identifier, and
    nothing but recording under that identifier changes the answer. *)
Class LogLaws {W : Type} (P : Ports W) : Prop := {
  record_found : forall r w w' u, RecordOp P r w = (w', Ok u) -> FindOp P (or_op r) w' = Ok (Some r);
  record_frame : forall r w id, id <> or_op r -> FindOp P id (RecordOp P r w).1 = FindOp P id w;
  invoke_frame : forall ctx name in_ w id, FindOp P id (Invoke P ctx name in_ w).1 = FindOp P id w;
  step_frame : forall step i c v cs t w id,
    RecordStep P = Some step -> FindOp P id (step i c v cs t w).1 = FindOp P id w;
  displaced_frame : forall file i body p w id,
    FileDisplaced P = Some file -> FindOp P id (file i body p w).1 = FindOp P id w
}.

Section Frame.
Context {W : Type} (P : Ports W) `{!LogLaws P} (now : Z).

(** A step that leaves every entry of the log as it is. *)
Definition keeps_log {A} (c : M W A) : Prop := forall w id, FindOp P id (c w).1 = FindOp P id w.

Lemma keeps_ret {A} (a : A) : keeps_log (ret a).
Proof. done. Qed.
Lemma keeps_fail {A} e : keeps_log (fail (A := A) e).
Proof. done. Qed.
Lemma keeps_lift {A} (r : res A) : keeps_log (lift r).
Proof. done. Qed.
Lemma keeps_query {A} (f : W -> res A) : keeps_log (query f).
Proof. done. Qed.
Lemma keeps_skip : keeps_log skip.
Proof. done. Qed.
Lemma keeps_invoke ctx name in_ : keeps_log (invoke P ctx name in_).
Proof. intros w id. apply invoke_frame. Qed.
Lemma keeps_bind {A B} (c : M W A) (k : A -> M W B) :
  keeps_log c -> (forall a, keeps_log (k a)) -> keeps_log (bind c k).
Proof.
  intros Hc Hk w id. unfold bind. specialize (Hc w id).
  destruct (c w) as [w' [a|e|]]; cbn in *; [|done|done]. rewrite <- Hc. apply Hk.
Qed.
Lemma keeps_attempt {A} (c : M W A) : keeps_log c -> keeps_log (attempt c).
Proof. intros Hc w id. specialize (Hc w id). unfold attempt. by destruct (c w) as [w' [a|e|]]. Qed.
Lemma keeps_within {A} (c : M W A) : keeps_log c -> keeps_log (within c).
Proof. intros Hc w id. specialize (Hc w id). unfold within. by destruct (c w) as [w' [a|e|]]. Qed.

#[local] Hint Resolve keeps_ret keeps_fail keeps_lift keeps_query keeps_skip keeps_invoke : hub.

Ltac keeps :=
  repeat first
    [ apply keeps_bind; [|intros ?]
    | apply keeps_attempt | apply keeps_within
    | solve [eauto with hub]
    | match goal with |- keeps_log (match ?x with _ => _ end) => destruct x eqn:? end
    | match goal with |- keeps_log (let '(_, _) := ?x in _) => destruct x eqn:? end ].

Lemma keeps_clocks name id : keeps_log (clocks_of P name id).
Proof. unfold clocks_of. keeps. Qed.
#[local] Hint Resolve keeps_clocks : hub.

Lemma keeps_create ctx m : keeps_log (create P ctx m).
Proof. unfold create. keeps. Qed.
Lemma keeps_trash ctx m : keeps_log (trash P ctx m).
Proof. unfold trash. keeps. Qed.
Lemma keeps_comment ctx m : keeps_log (comment P ctx m).
Proof. unfold comment. keeps. Qed.
Lemma keeps_template ctx m : keeps_log (template P ctx m).
Proof. unfold template. keeps. Qed.

Lemma keeps_apply_winner ctx m update field : keeps_log (apply_winner P ctx m update field).
Proof. unfold apply_winner, applyAssignee, applyCover. cbv zeta. keeps. Qed.

Lemma keeps_apply_winners ctx m fields : forall update, keeps_log (apply_winners P ctx m update fields).
Proof.
  induction fields as [|f fields IH]; intros update; cbn; [keeps|].
  apply keeps_bind; [apply keeps_apply_winner|auto].
Qed.
#[local] Hint Resolve keeps_apply_winners : hub.

Lemma keeps_applyWinners ctx m winners before : keeps_log (applyWinners P ctx m winners before).
Proof. unfold applyWinners. keeps. Qed.

Lemma keeps_step i c v cs : keeps_log (record_step P now i c v cs).
Proof.
  unfold record_step. destruct (RecordStep P) as [step|] eqn:E; [|keeps].
  intros w id. by apply step_frame.
Qed.

Lemma keeps_displaced i mine r : keeps_log (file_displaced P i mine r).
Proof.
  unfold file_displaced. destruct (FileDisplaced P) as [file|] eqn:E; [|keeps].
  destruct (String.eqb mine ""); [keeps|]. apply keeps_bind; [|intros []; keeps].
  apply keeps_attempt. intros w id. by apply displaced_frame.
Qed.
#[local] Hint Resolve keeps_applyWinners keeps_step keeps_displaced : hub.

Lemma keeps_losers m losers before : keeps_log (answerLosers P now m losers before).
Proof. unfold answerLosers. cbv zeta. keeps. Qed.
#[local] Hint Resolve keeps_losers : hub.

Lemma keeps_patch ctx m : keeps_log (patch P now ctx m).
Proof. unfold patch. keeps. Qed.
Lemma keeps_setChange ctx m : keeps_log (setChange P ctx m).
Proof. unfold setChange. cbv zeta. keeps. Qed.
Lemma keeps_move ctx m : keeps_log (move P ctx m).
Proof. unfold move. cbv zeta. keeps. Qed.

Lemma keeps_create_entity ctx m writers : keeps_log (create_entity P ctx m writers).
Proof. unfold create_entity. keeps. Qed.
#[local] Hint Resolve keeps_create_entity : hub.
Lemma keeps_entity ctx m : keeps_log (entity P ctx m).
Proof. unfold entity, applyEntity, removeEntity, upsertEntity. cbv zeta. keeps. Qed.

Lemma keeps_listed ctx name in_ id : keeps_log (listed P ctx name in_ id).
Proof. unfold listed. keeps. Qed.
#[local] Hint Resolve keeps_listed : hub.
Lemma keeps_read name ctx m : keeps_log (fo_read (ownerOf P name) ctx m).
Proof. unfold ownerOf. repeat case_match; cbn; keeps. Qed.
Lemma keeps_decide f id fields : keeps_log (decide P f id fields).
Proof. unfold decide. keeps. Qed.
#[local] Hint Resolve keeps_read keeps_decide : hub.
Lemma keeps_recurrence ctx m shape : keeps_log (recurrence P ctx m shape).
Proof. unfold recurrence. cbv zeta. keeps. Qed.
#[local] Hint Resolve keeps_recurrence : hub.
Lemma keeps_familyRecord ctx m : keeps_log (familyRecord P ctx m).
Proof. unfold familyRecord, family_patch. cbv zeta. keeps. Qed.

(** No applier touches the log: the answer is recorded by the push alone. *)
Lemma keeps_applier kind f ctx m : appliers P now kind = Some f -> keeps_log (f ctx m).
Proof.
  unfold appliers. case_bool_decide as Hfam; [intros [= <-]; apply keeps_familyRecord|].
  intros Hin%assoc_elem. set_unfold in Hin. destruct_or! Hin; simplify_eq;
    auto using keeps_create, keeps_trash, keeps_comment, keeps_template, keeps_patch, keeps_move,
      keeps_setChange, keeps_entity.
Qed.
End Frame.

(** ** What does not depend on the clock *)

Section Clock.
Context {W : Type} (P : Ports W).

(** Two results of the same shape, their values related. *)
Definition alike {A B} (R : A -> B -> Prop) (r : res A) (r' : res B) : Prop :=
  match r, r' with
  | Ok a, Ok b => R a b
  | Err e, Err e' => e = e'
  | Panic, Panic => True
  | _, _ => False
  end.

Lemma alike_bind {A B C D} (R : A -> B -> Prop) (S : C -> D -> Prop) r r' f g :
  alike R r r' -> (forall a b, R a b -> alike S (f a) (g b)) -> alike S (r ≫= f) (r' ≫= g).
Proof. destruct r, r'; cbn; auto; done. Qed.

Lemma alike_fold {S S' X} (R : S -> S' -> Prop) (f : S -> X -> res S) (g : S' -> X -> res S') xs :
  (forall s s' x, R s s' -> alike R (f s x) (g s' x)) ->
  forall s s', R s s' -> alike R (fold_result f s xs) (fold_result g s' xs).
Proof.
  intros Hstep. induction xs as [|x xs IH]; intros s s' HR; cbn; [done|].
  eapply alike_bind; [by apply Hstep|auto].
Qed.

Lemma boundOne_clock now now' skew raw :
  alike (fun _ _ => True) (boundOne now skew raw) (boundOne now' skew raw).
Proof. unfold boundOne. destruct (String.eqb raw ""); [done|]. by destruct (ParseHLC raw). Qed.

Definition same_dom (fields fields' : gmap string FieldChange) : Prop := dom fields = dom fields'.

Lemma bound_field_clock now now' skew acc acc' entry : same_dom acc acc' ->
  alike same_dom (bound_field now skew acc entry) (bound_field now' skew acc' entry).
Proof.
  intros H. unfold bound_field. eapply alike_bind; [apply boundOne_clock|].
  intros s s' _. cbn. unfold same_dom in *. by rewrite !dom_insert_L, H.
Qed.

(** What of a mutation does not depend on the readings. *)
Definition same_but_readings (m b b' : Mutation) : Prop :=
  m_kind b = m_kind m /\ m_kind b' = m_kind m /\ m_op b = m_op m /\ m_op b' = m_op m /\
  judge P b = judge P b'.

(** Bounding refuses for the same reason at any time, and what it gives
    differs in readings only. *)
Lemma bound_clock now now' skew m :
  alike (same_but_readings m) (bound now skew m) (bound now' skew m).
Proof.
  unfold bound. eapply alike_bind; [apply boundOne_clock|]. intros s s' _.
  eapply alike_bind.
  - apply (alike_fold same_dom); [|done]. intros. by apply bound_field_clock.
  - intros b b' Hdom. cbn. do 4 (split; [done|]).
    unfold judge, judgeEntity, check_fields, with_hlcs, same_dom in *.
    cbn [m_kind m_fields m_entity m_entity_key m_set]. by rewrite Hdom.
Qed.

Lemma appliers_clock now now' kind :
  is_Some (appliers P now kind) <-> is_Some (appliers P now' kind).
Proof.
  unfold appliers. case_bool_decide; [split; by eexists|].
  cbn. repeat (case_match; [split; by eexists|]). done.
Qed.
End Clock.

(** ** Answers name their operation *)

Section Names.
Context {W : Type} (P : Ports W) (now : Z).

Definition names (op : ID) (c : M W Result) : Prop := forall w w' r, c w = (w', Ok r) -> r_op r = op.

Lemma names_ret op r : r_op r = op -> names op (ret r).
Proof. intros H w w' r' [= _ <-]. done. Qed.
Lemma names_fail op e : names op (fail e).
Proof. done. Qed.
Lemma names_bind {A} op (c : M W A) k : (forall a, names op (k a)) -> names op (bind c k).
Proof. intros Hk w w' r. unfold bind. destruct (c w) as [w1 [a|e|]]; [apply Hk|done|done]. Qed.

Ltac names_op :=
  repeat first
    [ apply names_bind; intros ? | apply names_fail | apply names_ret; reflexivity
    | match goal with |- names _ (match ?x with _ => _ end) => destruct x eqn:? end
    | match goal with |- names _ (let '(_, _) := ?x in _) => destruct x eqn:? end ].

Lemma names_familyRecord ctx m : names (m_op m) (familyRecord P ctx m).
Proof. unfold familyRecord, family_patch, recurrence. cbv zeta. names_op. Qed.

Lemma writers_exist e : EntityValid e = true -> writersOf e <> None.
Proof.
  unfold EntityValid. rewrite existsb_exists. intros (x & Hx & <-%String.eqb_eq).
  assert (Hall : forall e, e ∈ Entities -> writersOf e <> None).
  { apply Forall_forall. repeat constructor; vm_compute; discriminate. }
  apply Hall. by apply list_elem_of_In.
Qed.

Lemma names_entity ctx m : judgeEntity m = Ok tt -> names (m_op m) (entity P ctx m).
Proof.
  intros Hj. assert (Hw : writersOf (m_entity m) <> None).
  { apply writers_exist. unfold judgeEntity in Hj. by destruct (EntityValid (m_entity m)). }
  intros w w' r. unfold entity, bind at 1.
  destruct (applyEntity P ctx m w) as [w1 [res|e|]] eqn:E; [|done|done].
  assert (Hres : names (m_op m) (applyEntity P ctx m)).
  { unfold applyEntity. destruct (writersOf (m_entity m)) as [ws|]; [|done].
    unfold removeEntity, upsertEntity, create_entity. cbv zeta. names_op. }
  specialize (Hres _ _ _ E). case_match; intros [= _ <-]; done.
Qed.

Lemma names_applier kind f ctx m : appliers P now kind = Some f -> kind = m_kind m ->
  judge P m = Ok tt -> names (m_op m) (f ctx m).
Proof.
  unfold appliers. case_bool_decide as Hfam; [intros [= <-] _ _; apply names_familyRecord|].
  intros Hin%assoc_elem -> Hj. unfold judge in Hj.
  set_unfold in Hin. destruct_or! Hin; simplify_eq;
    first [ apply names_entity; unfold OnEntity in Hj;
            match goal with H : m_kind _ = _ |- _ => rewrite H in Hj end; exact Hj
          | unfold create, patch, trash, move, setChange, comment, template; cbv zeta; names_op ].
Qed.
End Names.

(** ** A push sent again *)

Section Replay.
Context {W : Type} (P : Ports W) `{!LogLaws P}.

(** The mutation's answer from here on, whatever the time. *)
Definition settled (m : Mutation) (w : W) (r : Result) : Prop :=
  exists r', shown r' = shown r /\ forall now pushID w2,
    FindOp P (m_op m) w2 = FindOp P (m_op m) w -> apply P now pushID m w2 = (w2, Ok r').

Definition well_formed (m : Mutation) : Prop :=
  id_is_zero (m_op m) || negb (IsUUIDv7 (m_op m)) = false /\ KindValid (m_kind m) = true.

Lemma apply_logged now pushID m w rec : well_formed m -> FindOp P (m_op m) w = Ok (Some rec) ->
  apply P now pushID m w = (w, Ok (resultFromRecord rec)).
Proof. intros [H1 H2] H3. unfold apply. rewrite H1, H2. cbn. unfold bind, query. by rewrite H3. Qed.

Lemma settled_logged now m w r : well_formed m ->
  FindOp P (m_op m) w = Ok (Some (recordOf (DeviceID P) r now)) -> settled m w r.
Proof.
  intros Hwf Hf. exists (shown r). split; [apply shown_idem|]. intros now' pid w2 E.
  rewrite Hf in E. rewrite (apply_logged _ _ _ _ _ Hwf E). by rewrite result_record_roundtrip.
Qed.

Lemma record_logged now r w w' r' : record P now r w = (w', Ok r') ->
  r' = r /\ FindOp P (r_op r) w' = Ok (Some (recordOf (DeviceID P) r now)).
Proof.
  unfold record, within, bind. destruct (RecordOp P _ w) as [w1 [u|e|]] eqn:E; [|done|done].
  intros [= <- <-]. split; [done|]. by apply record_found in E.
Qed.

Lemma record_other now r w id : id <> r_op r -> FindOp P id (record P now r w).1 = FindOp P id w.
Proof.
  intros Hne. unfold record, within, bind.
  pose proof (record_frame (recordOf (DeviceID P) r now) w id Hne) as Hf.
  by destruct (RecordOp P (recordOf (DeviceID P) r now) w) as [w1 [u|e|]].
Qed.

Lemma perform_logged now f ctx m w w' r : names (r_op r) (f ctx m) ->
  perform P now f ctx m w = (w', Ok r) ->
  FindOp P (r_op r) w' = Ok (Some (recordOf (DeviceID P) r now)).
Proof.
  intros _. unfold perform, within, bind.
  destruct (f ctx m w) as [w1 [r1|e|]]; [|done|done].
  destruct (RecordOp P _ w1) as [w2 [u|e|]] eqn:E; [|done|done].
  intros [= <- <-]. by apply record_found in E.
Qed.

Lemma perform_names now f ctx m w w' r op : names op (f ctx m) ->
  perform P now f ctx m w = (w', Ok r) -> r_op r = op.
Proof.
  intros Hn. unfold perform, within, bind.
  destruct (f ctx m w) as [w1 [r1|e|]] eqn:Ef; [|done|done].
  destruct (RecordOp P _ w1) as [w2 [u|e|]]; [|done|done]. intros [= _ <-]. by eapply Hn.
Qed.

Lemma perform_other now f ctx m op w id : keeps_log P (f ctx m) -> names op (f ctx m) -> id <> op ->
  FindOp P id (perform P now f ctx m w).1 = FindOp P id w.
Proof.
  intros Hk Hn Hne. unfold perform, within, bind. specialize (Hk w id). specialize (Hn w).
  destruct (f ctx m w) as [w1 [r1|e|]] eqn:Ef; [|done|done]. cbn in Hk. rewrite <- Hk.
  assert (Hid : id <> or_op (recordOf (DeviceID P) r1 now)) by (cbn; by rewrite (Hn _ _ eq_refl)).
  pose proof (record_frame _ w1 id Hid) as Hr.
  by destruct (RecordOp P (recordOf (DeviceID P) r1 now) w1) as [w2 [u|e|]].
Qed.

Lemma perform_refused now f ctx m w w' e : perform P now f ctx m w = (w', Err e) -> w' = w.
Proof. unfold perform, within. destruct (bind _ _ w) as [w1 [r1|e1|]]; congruence. Qed.

Lemma record_refused now r w w' e : record P now r w = (w', Err e) -> w' = w.
Proof. unfold record, within. destruct (bind _ _ w) as [w1 [r1|e1|]]; congruence. Qed.

Lemma purged_query m w : exists r, purged P m w = (w, r).
Proof. unfold purged. repeat case_match; eexists; reflexivity. Qed.

(** The part after the judgement: the answer is in the log. *)
Lemma apply_bounded_logged now pushID f m b w w' r : names (m_op m) (f (with_push no_context (pushID, momentOf b)) b) ->
  apply_bounded P now pushID f m b w = (w', Ok r) ->
  r_op r = m_op m /\ FindOp P (m_op m) w' = Ok (Some (recordOf (DeviceID P) r now)).
Proof.
  intros Hn. unfold apply_bounded, bind at 1. destruct (purged_query b w) as [q ->].
  destruct q as [[]|e|]; [| |done|done].
  - intros [-> H]%record_logged. done.
  - unfold bind, attempt.
    destruct (perform P now f _ b w) as [w1 [r1|e|]] eqn:E; [| |done].
    + intros [= <- <-]. pose proof (perform_names _ _ _ _ _ _ _ _ Hn E) as Hop.
      split; [done|]. rewrite <- Hop in Hn |- *. by eapply perform_logged.
    + destruct (refusal e); cbn [negb]; [|done]. intros [-> H]%record_logged. done.
Qed.

Lemma apply_bounded_other now pushID f m b w id :
  keeps_log P (f (with_push no_context (pushID, momentOf b)) b) ->
  names (m_op m) (f (with_push no_context (pushID, momentOf b)) b) -> id <> m_op m ->
  FindOp P id (apply_bounded P now pushID f m b w).1 = FindOp P id w.
Proof.
  intros Hk Hn Hne. unfold apply_bounded, bind at 1. destruct (purged_query b w) as [q ->].
  destruct q as [[]|e|]; [|..|done|done]; [by apply record_other|].
  unfold bind, attempt. pose proof (perform_other now f _ b (m_op m) w id Hk Hn Hne) as Hp.
  destruct (perform P now f _ b w) as [w1 [r1|e|]] eqn:E; [done| |done].
  destruct (refusal e); cbn [negb]; [|done].
  apply perform_refused in E as ->. by apply record_other.
Qed.

Lemma apply_unlogged now pushID m w : well_formed m -> FindOp P (m_op m) w = Ok None ->
  apply P now pushID m w = apply_fresh P now pushID m w.
Proof. intros [H1 H2] H3. unfold apply. rewrite H1, H2. cbn. unfold bind, query. by rewrite H3. Qed.

Lemma served_any_time now now' kind : appliers P now kind = None -> appliers P now' kind = None.
Proof. rewrite !eq_None_not_Some. by rewrite (appliers_clock P now now'). Qed.

(** What is answered without a record is answered the same at any time. *)
Lemma apply_fresh_static now pushID m w w' r : apply_fresh P now pushID m w = (w', Ok r) ->
  FindOp P (m_op m) w' = Ok (Some (recordOf (DeviceID P) r now)) \/
  (w' = w /\ forall now' pushID' w2, apply_fresh P now' pushID' m w2 = (w2, Ok r)).
Proof.
  unfold apply_fresh at 1. intros H.
  assert (Ha : forall now', alike (same_but_readings P m) (bound now (Skew P) m) (bound now' (Skew P) m))
    by (intros; apply bound_clock).
  destruct (bound now (Skew P) m) as [b|e|]; [|injection H as <- <-|done].
  2: { right. split; [done|]. intros now' pid w2. unfold apply_fresh. specialize (Ha now').
       destruct (bound now' (Skew P) m); cbn in Ha; by subst. }
  destruct (bound now (Skew P) m) eqn:Hb; specialize (Ha now) as Hsame; rewrite Hb in Hsame; cbn in Hsame;
    [|done|done]. destruct Hsame as (Hk & _ & Hop & _). clear Hb. rewrite Hk in H.
  destruct (appliers P now (m_kind m)) as [f|] eqn:Hf.
  2: { injection H as <- <-. right. split; [done|]. intros now' pid w2. unfold apply_fresh.
       specialize (Ha now'). destruct (bound now' (Skew P) m); cbn in Ha; [|done|done].
       destruct Ha as (_ & -> & _). by rewrite (served_any_time _ now' _ Hf). }
  destruct (judge P b) as [[]|e|] eqn:Hj; [| |done].
  - left. eapply apply_bounded_logged; [|exact H]. rewrite <- Hop. by eapply names_applier.
  - destruct (refusal e) eqn:Hr; cbn [negb] in H; [left; by apply record_logged in H as [-> H]|].
    injection H as <- <-. right. split; [done|]. intros now' pid w2. unfold apply_fresh.
    specialize (Ha now'). destruct (bound now' (Skew P) m) as [b'| |]; cbn in Ha; [|done|done].
    destruct Ha as (_ & -> & _ & _ & Hjb). rewrite <- Hjb, Hj, Hr.
    destruct (appliers P now' (m_kind m)) eqn:Hf'; [done|].
    by rewrite (served_any_time _ now _ Hf') in Hf.
Qed.

Lemma apply_settled now pushID m w w' r : apply P now pushID m w = (w', Ok r) -> settled m w' r.
Proof.
  unfold apply at 1. destruct (id_is_zero (m_op m) || negb (IsUUIDv7 (m_op m))) eqn:Hop.
  { intros [= <- <-]. eexists. split; [done|]. intros. unfold apply. by rewrite Hop. }
  destruct (KindValid (m_kind m)) eqn:Hkind; cbn [negb].
  2: { intros [= <- <-]. eexists. split; [done|]. intros. unfold apply. by rewrite Hop, Hkind. }
  assert (Hwf : well_formed m) by done. unfold bind at 1, query at 1.
  destruct (FindOp P (m_op m) w) as [[rec|]|e|] eqn:Hfind; [| |done|done].
  { intros [= <- <-]. eexists. split; [done|]. intros now' pid w2 E. apply apply_logged; congruence. }
  intros [H|[-> H]]%apply_fresh_static; [by eapply settled_logged|].
  eexists. split; [done|]. intros now' pid w2 E. rewrite apply_unlogged by congruence. apply H.
Qed.

(** Another mutation's entry of the log stays as it is. *)
Lemma apply_other now pushID m w id : id <> m_op m ->
  FindOp P id (apply P now pushID m w).1 = FindOp P id w.
Proof.
  intros Hne. unfold apply. destruct (_ || _); [done|]. destruct (negb _); [done|].
  unfold bind, query. destruct (FindOp P (m_op m) w) as [[rec|]|e|]; [done| |done|done].
  unfold apply_fresh. pose proof (bound_clock P now now (Skew P) m) as Ha.
  destruct (bound now (Skew P) m) as [b|e|]; [|done|done]. destruct Ha as (Hk & _ & Hop & _).
  rewrite Hk. destruct (appliers P now (m_kind m)) as [f|] eqn:Hf; [|done].
  destruct (judge P b) as [[]|e|] eqn:Hj; [| |done].
  - apply apply_bounded_other; [by eapply keeps_applier| |done]. rewrite <- Hop. by eapply names_applier.
  - destruct (negb (refusal e)); [done|]. by apply record_other.
Qed.

Lemma apply_all_other now pushID ms w w' rs id : id ∉ m_op <$> ms ->
  apply_all P now pushID ms w = (w', Ok rs) -> FindOp P id w' = FindOp P id w.
Proof.
  revert w rs. induction ms as [|m ms IH]; intros w rs Hid; cbn; [by intros [= -> _]|].
  unfold bind. pose proof (apply_other now pushID m w id) as Ho.
  destruct (apply P now pushID m w) as [w1 [r|e|]]; [|done|done].
  destruct (apply_all P now pushID ms w1) as [w2 [rs'|e|]] eqn:E; [|done|done].
  intros [= <- <-]. cbn in Hid. rewrite (IH _ _ (fun H => Hid (list_elem_of_further _ _ _ H)) E).
  apply Ho. intros ->. apply Hid. by left.
Qed.


Lemma apply_refused now pushID m w w' e : apply P now pushID m w = (w', Err e) -> w' = w.
Proof.
  unfold apply. destruct (_ || _); [done|]. destruct (negb _); [done|]. unfold bind at 1, query.
  destruct (FindOp P (m_op m) w) as [[rec|]|e'|]; [done| |congruence|done]. unfold apply_fresh.
  destruct (bound now (Skew P) m) as [b|e'|]; [|done|done].
  destruct (appliers P now (m_kind b)) as [f|]; [|done].
  destruct (judge P b) as [[]|e'|]; [| |done].
  - unfold apply_bounded, bind at 1. destruct (purged_query b w) as [q ->].
    destruct q as [[]|e'|]; [by apply record_refused| |congruence|done].
    unfold bind, attempt. destruct (perform P now f _ b w) as [w1 [r1|e1|]] eqn:E; [done| |done].
    apply perform_refused in E as ->.
    destruct (refusal e1); cbn [negb]; [by apply record_refused|]. by intros [= -> _].
  - destruct (negb (refusal e')); [done|]. by apply record_refused.
Qed.

End Replay.

(** ** What of a patch reaches the use cases *)

Section PatchFields.
Context {W : Type} (P : Ports W).

Lemma elem_of_tail (f g : string) l : f <> g -> f ∈ g :: l <-> f ∈ l.
Proof. intros Hne. split; [by inversion 1|by right]. Qed.

Lemma apply_winner_update ctx m update field w w' update' :
  apply_winner P ctx m update field w = (w', Ok update') ->
  update' = (if contains updateFields field then <[field := field_value m field]> update else update).
Proof.
  unfold apply_winner, applyAssignee, applyCover. cbv zeta. destruct (contains updateFields field); [by intros [= _ <-]|].
  repeat case_match; unfold bind, ret, skip, ret, fail; repeat case_match; intros; simplify_eq; done.
Qed.

Lemma apply_winners_update ctx m fields : forall update w w' update',
  apply_winners P ctx m update fields w = (w', Ok update') ->
  forall f, update' !! f =
    if bool_decide (f ∈ fields) && contains updateFields f then Some (field_value m f) else update !! f.
Proof.
  induction fields as [|g fields IH]; intros update w w' update' H f; cbn in H.
  - injection H as _ <-. done.
  - unfold bind in H. destruct (apply_winner P ctx m update g w) as [w1 [u1|e|]] eqn:E; [|done|done].
    apply apply_winner_update in E as ->. rewrite (IH _ _ _ _ H f). clear IH H.
    destruct (base.decide (g = f)) as [->|Hne].
    + rewrite (bool_decide_eq_true_2 (f ∈ f :: fields)) by (by left). cbn [andb].
      destruct (contains updateFields f); [|by rewrite andb_false_r].
      rewrite lookup_insert_eq. by destruct (bool_decide (f ∈ fields)).
    + rewrite (bool_decide_ext _ _ (elem_of_tail f g fields (not_eq_sym Hne))).
      destruct (contains updateFields g); [|done]. by rewrite lookup_insert_ne.
Qed.

Lemma sortedFields_elem (winners : gmap string HLC) f : f ∈ sortedFields winners <-> is_Some (winners !! f).
Proof. unfold sortedFields. rewrite (sort_by_perm id String.compare). by rewrite elem_of_elements, elem_of_dom. Qed.

Definition cleared (v : Value) : Value := if is_nil v then VStr "" else v.

Lemma fill_due_lookup before f fields : forall update,
  foldl (fill_due before) update fields !! f =
    match update !! f with
    | Some v => Some v
    | None => if bool_decide (f ∈ fields) then Some (at_key before f) else None
    end.
Proof.
  induction fields as [|g fields IH]; intros update; cbn [foldl].
  - by destruct (update !! f).
  - rewrite IH. unfold fill_due at 1. destruct (update !! g) as [v|] eqn:Eg.
    + destruct (update !! f) eqn:Ef; [done|]. assert (f <> g) by congruence.
      by rewrite (bool_decide_ext _ _ (elem_of_tail f g fields ltac:(done))).
    + destruct (base.decide (g = f)) as [->|Hne].
      * rewrite lookup_insert_eq, Eg. by rewrite (bool_decide_eq_true_2 (f ∈ f :: fields)) by (by left).
      * rewrite lookup_insert_ne by done. destruct (update !! f); [done|].
        by rewrite (bool_decide_ext _ _ (elem_of_tail f g fields (not_eq_sym Hne))).
Qed.

Lemma due_in_update f : f ∈ dueFields -> f ∈ updateFields.
Proof. revert f. apply Forall_forall, (bool_decide_unpack _). vm_compute. exact I. Qed.

(** Finishing the update changes the due trio and clears null values. *)
Lemma finish_not_due before update f : f ∉ dueFields ->
  finish_update before update !! f = cleared <$> update !! f.
Proof.
  intros Hf. unfold finish_update. rewrite lookup_fmap. f_equal.
  destruct (existsb _ _); [|done]. unfold settle_due.
  assert (Hfill : foldl (fill_due before) update dueFields !! f = update !! f).
  { rewrite fill_due_lookup, (bool_decide_eq_false_2 (f ∈ dueFields)) by done. by destruct (update !! f). }
  destruct (is_nil _); [|done].
  assert (forall g, g ∈ dueFields -> g <> f) as Hne by (intros g Hg ->; done).
  rewrite lookup_insert_ne, !lookup_delete_ne; [done|..]; apply Hne; repeat constructor.
Qed.

(** What a patch writes: the one update it sends carries, for every
    field that won and only for those, the device's value (a null one as the
    empty value) - a field that lost or was not sent is never in it.  The due
    date alone goes as three: when any of the trio won, the update either
    clears the date and names neither companion, or carries all three, the
    ones the device did not send as the item has them. *)
Theorem patch_writes_winners ctx m (winners : gmap string HLC) (before : Output) w w' update
  (Hcollect : apply_winners P ctx m ∅ (sortedFields winners) w = (w', Ok update)) :
  let sent := finish_update before update in
  let won f := is_Some (winners !! f) in
  (forall f, f ∈ updateFields -> f ∉ dueFields -> won f -> sent !! f = Some (cleared (field_value m f))) /\
  (forall f, f ∉ dueFields -> ~ won f -> sent !! f = None) /\
  ((forall f, f ∈ dueFields -> ~ won f) -> forall f, f ∈ dueFields -> sent !! f = None) /\
  (forall g, g ∈ dueFields -> won g ->
     (sent !! FieldDueAt = Some (VStr "") /\ sent !! FieldDueDateOnly = None /\ sent !! FieldDueTimeZone = None) \/
     (forall f, f ∈ dueFields -> exists v, sent !! f = Some (cleared v) /\
        (won f /\ v = field_value m f \/ ~ won f /\ v = at_key before f))).
Proof.
  intros sent won.
  assert (Hu : forall f, update !! f =
    if bool_decide (won f) && contains updateFields f then Some (field_value m f) else None).
  { intros f. rewrite (apply_winners_update _ _ _ _ _ _ _ Hcollect f), lookup_empty.
    by erewrite (bool_decide_ext (f ∈ _)) by apply sortedFields_elem. }
  assert (Hnotdue : forall f, f ∉ dueFields -> sent !! f = cleared <$> update !! f) by apply finish_not_due.
  pose proof due_in_update as Hdue.
  split; [|split; [|split]].
  - intros f H1 H2 H3. rewrite (Hnotdue f H2), Hu, bool_decide_true by done.
    by rewrite (proj2 (contains_in _ _) H1).
  - intros f H1 H2. by rewrite (Hnotdue f H1), Hu, bool_decide_false.
  - intros Hno f Hf. unfold sent, finish_update. rewrite lookup_fmap.
    assert (existsb (fun g => bool_decide (is_Some (update !! g))) dueFields = false) as ->.
    { apply not_true_iff_false. rewrite existsb_exists. intros (g & Hg%list_elem_of_In & Hs). bools.
      rewrite Hu, bool_decide_false in Hs by auto. by destruct Hs. }
    by rewrite Hu, bool_decide_false by auto.
  - intros g Hg Hwon. unfold sent, finish_update.
    assert (existsb (fun g => bool_decide (is_Some (update !! g))) dueFields = true) as ->.
    { apply existsb_exists. exists g. split; [by apply list_elem_of_In|]. apply bool_decide_eq_true.
      rewrite Hu, bool_decide_true by done. rewrite (proj2 (contains_in _ _) (Hdue g Hg)). by eexists. }
    unfold settle_due. set (filled := foldl (fill_due before) update dueFields).
    assert (Hfilled : forall f, f ∈ dueFields -> exists v, filled !! f = Some v /\
        (won f /\ v = field_value m f \/ ~ won f /\ v = at_key before f)).
    { intros f Hf. unfold filled. rewrite fill_due_lookup, Hu, (bool_decide_eq_true_2 (f ∈ dueFields)) by done.
      rewrite (proj2 (contains_in _ _) (Hdue f Hf)), andb_true_r.
      destruct (bool_decide (won f)) eqn:E; bools; eauto. }
    destruct (is_nil (at_key filled FieldDueAt)).
    + left. rewrite !lookup_fmap. rewrite lookup_insert_eq, !(lookup_insert_ne _ FieldDueAt) by done.
      split; [done|]. rewrite lookup_delete_eq, lookup_delete_ne, lookup_delete_eq by done. done.
    + right. intros f Hf. destruct (Hfilled f Hf) as (v & Hv & Hcase). exists v. by rewrite lookup_fmap, Hv.
Qed.
End PatchFields.

(** ** A concrete server

    The use cases answer with an identifier and a version and are counted;
    trashing an item cannot reach the media store. *)

Definition example_server : Type := gmap ID OpRecord * list (string * ID).

Definition example_invoke (ctx : CallContext) (name : string) (in_ : Input) : M example_server Output :=
  fun w =>
    if String.eqb name "TrashWorkItem" then (w, Err (detailed ErrUnavailable "media.unreachable" []))
    else ((w.1, w.2 ++ [(name, stringOf (at_key in_ "item_id"))]),
          Ok {["id" := at_key in_ "id"; "version" := VNum 1; "hidden" := VBool true]}).

Definition example_record (r : OpRecord) : M example_server unit :=
  fun w => ((<[or_op r := r]> w.1, w.2), Ok tt).

Definition example_ports : Ports example_server :=
  mkPorts example_server example_invoke (fun id w => Ok (w.1 !! id)) example_record
    None None None None None None None 0 "account-1" "device-1".

Definition operation (n : string) : ID := "01981111-1111-7111-8111-11111111111" +:+ n.

Definition example_mutation (n : string) (kind : MutationKind) (fields : gmap string FieldChange) : Mutation :=
  mkMutation (operation n) kind "item-1" (Some 1) fields "" "" "" ∅ "" "" "" "".

Definition example_now : Z := 1784548920000 * Millisecond.

Definition example_queue : list Mutation :=
  [example_mutation "1" ItemCreate ∅;
   example_mutation "2" ItemPatch
     {["title" := mkFieldChange (VStr "Milk") "1784548920000:00000:device-1"]};
   example_mutation "3" Move ∅].

#[export] Instance example_log_laws : LogLaws example_ports.
Proof.
  split; try done.
  - intros r w w' u [= <- _]. cbn. by rewrite lookup_insert_eq.
  - intros r w id Hne. cbn. by rewrite lookup_insert_ne.
  - intros ctx name in_ w id. cbn. unfold example_invoke. by destruct (String.eqb _ _).
Qed.

Definition results_of {A} (out : A * res (list Result)) : option (list ResultKind) :=
  match out.2 with Ok rs => Some (r_result <$> rs) | _ => None end.

Definition example_push (pushID : ID) (w : example_server) : example_server * res (list Result) :=
  Push_mutations example_ports example_now pushID example_queue w.


Definition failing_queue : list Mutation :=
  [example_mutation "1" ItemCreate ∅; example_mutation "2" ItemDelete ∅].
Definition failing_push : example_server * res (list Result) :=
  Push_mutations example_ports example_now "push-1" failing_queue (∅, []).

Definition unavailable {A B} (out : A * res B) : bool :=
  match out.2 with Err e => bool_decide (err_category e = CategoryUnavailable) | _ => false end.


Lemma patch_writes_winners_witness :
  let m := example_mutation "2" ItemPatch
    {["title" := mkFieldChange (VStr "Milk") ""; "due_at" := mkFieldChange (VStr "2026-08-01T00:00:00Z") ""]} in
  let winners : gmap string HLC := {["title" := phone_reading; "due_at" := phone_reading]} in
  let before : Output := {["due_date_only" := VBool true; "notes" := VStr "a note"]} in
  let update : Input := {["title" := VStr "Milk"; "due_at" := VStr "2026-08-01T00:00:00Z"]} in
  apply_winners example_ports no_context m ∅ (sortedFields winners) (∅, []) = ((∅, []), Ok update) /\
  finish_update before update !! "title" = Some (VStr "Milk") /\
  finish_update before update !! "due_date_only" = Some (VBool true) /\
  finish_update before update !! "notes" = None.
Proof.
  intros m winners before update.
  assert (H : apply_winners example_ports no_context m ∅ (sortedFields winners) (∅, []) = ((∅, []), Ok update))
    by (vm_compute; reflexivity).
  split; [exact H|].
  destruct (patch_writes_winners example_ports no_context m winners before _ _ update H) as (H1 & H2 & _ & _).
  split; [|split].
  - rewrite (H1 "title"); [reflexivity| | |].
    + apply (bool_decide_unpack _). vm_compute. exact I.
    + apply (bool_decide_unpack _). vm_compute. exact I.
    + by eexists.
  - vm_compute. reflexivity.
  - apply H2.
    + apply (bool_decide_unpack _). vm_compute. exact I.
    + intros [x Hx]. vm_compute in Hx. discriminate.
Defined.
