(* ===== verification/Access.v ===== *)
(** * Access: roles, permissions, memberships

    Models core/domain/model/identity/Membership.go and the decisions of
    core/domain/service/Authorization.go, ItemAccess.go and
    PermissionCatalogue.go: what an account may do along a path of scopes, per
    entry too, what it may hand out, and the catalogue's grammar.

    The theorems: which memberships decide, and that a private path cuts the
    workspace's off; the strongest role; the ceiling on handing out roles,
    which holds on the shipped ladder, and the three places where it does not
    hold once a custom role is held beside it; what a client is told it holds;
    which names the catalogue accepts. *)

From Stdlib Require Import ZArith Lia String Ascii List Bool.
From stdpp Require Import base list strings gmap.
From S2P Require Import Prelude Shared.

Open Scope string_scope.
Open Scope list_scope.
Open Scope Z_scope.

(** ** Membership.go *)

Abbreviation Role := string (only parsing).

Definition RoleOwner : Role := "OWNER".
Definition RoleAdmin : Role := "ADMIN".
Definition RoleMember : Role := "MEMBER".
Definition RoleContributor : Role := "CONTRIBUTOR".
Definition RoleViewer : Role := "VIEWER".
Definition RoleGuest : Role := "GUEST".
Definition RoleAuditor : Role := "AUDITOR".

Definition Roles : list Role :=
  [RoleOwner; RoleAdmin; RoleMember; RoleContributor; RoleViewer; RoleGuest; RoleAuditor].

Definition RoleValid (r : Role) : bool := contains Roles r.

(** [slices.Index], -1 when absent. *)
Fixpoint index_from (i : Z) (xs : list string) (x : string) : Z :=
  match xs with
  | [] => -1
  | y :: rest => if String.eqb y x then i else index_from (i + 1) rest x
  end.
Definition slices_index (xs : list string) (x : string) : Z := index_from 0 xs x.

Definition AtLeast (r other : Role) : bool :=
  let mine := slices_index Roles r in
  let theirs := slices_index Roles other in
  (0 <=? mine) && (0 <=? theirs) && (mine <=? theirs).

(** One step of the search for the highest role. *)
Definition stronger (best : option Role) (role : Role) : option Role :=
  match best with
  | None => Some role
  | Some b => if AtLeast role b then Some role else best
  end.

Definition Strongest (held : list Role) : option Role :=
  foldl (fun best role => if RoleValid role then stronger best role else best) None held.

Abbreviation ScopeType := string (only parsing).
Definition ScopeTenant : ScopeType := "TENANT".
Definition ScopeHub : ScopeType := "HUB".
Definition ScopeCollection : ScopeType := "COLLECTION".
Definition ScopeItem : ScopeType := "ITEM".

Record Scope := mkScope { scope_type : ScopeType; scope_id : ID }.

#[export] Instance scope_eq_dec : EqDecision Scope.
Proof. solve_decision. Defined.

Definition TenantScope : Scope := mkScope ScopeTenant "".
Definition HubScope (id : ID) : Scope := mkScope ScopeHub id.
Definition CollectionScope (id : ID) : Scope := mkScope ScopeCollection id.
Definition ItemScope (id : ID) : Scope := mkScope ScopeItem id.

Definition ScopeValid (s : Scope) : bool :=
  if String.eqb (scope_type s) ScopeTenant then id_is_zero (scope_id s)
  else if contains [ScopeHub; ScopeCollection; ScopeItem] (scope_type s) then negb (id_is_zero (scope_id s))
  else false.

Record Membership := mkMembership {
  mb_account : ID;
  mb_scope : Scope;
  mb_role : Role;
  mb_custom : string;
  mb_permissions : list string
}.

Definition IsCustom (m : Membership) : bool := negb (String.eqb (mb_custom m) "").

Record Grant := mkGrant {
  g_id : ID; g_tenant : ID; g_account : ID; g_group : ID; g_scope : Scope; g_role : Role
}.

Definition NewGrant (id tenantID accountID groupID : ID) (scope : Scope) (role : Role) : res Grant :=
  if id_is_zero id || id_is_zero tenantID then Err (detailed ErrInternal "memberships.identity_incomplete" [])
  else if eqb (id_is_zero accountID) (id_is_zero groupID) then
    Err (detailed ErrValidation "memberships.subject_ambiguous" [])
  else if negb (RoleValid role) then Err (detailed ErrValidation "memberships.role_unknown" [("value", role)])
  else if negb (ScopeValid scope) then
    Err (detailed ErrValidation "memberships.scope_invalid" [("value", scope_type scope)])
  else Ok (mkGrant id tenantID accountID groupID scope role).

(** ** Authorization.go: the matrix *)

Abbreviation Permission := string (only parsing).

Definition PermissionRead : Permission := "READ".
Definition PermissionWriteItems : Permission := "WRITE_ITEMS".
Definition PermissionStructure : Permission := "STRUCTURE".
Definition PermissionManageMembers : Permission := "MANAGE_MEMBERS".
Definition PermissionAutomation : Permission := "AUTOMATION".
Definition PermissionDeleteContainer : Permission := "DELETE_CONTAINER".
Definition PermissionReadConfiguration : Permission := "READ_CONFIGURATION".
Definition PermissionAuditRead : Permission := "AUDIT_READ".
Definition PermissionComment : Permission := "COMMENT".
Definition PermissionWriteAssigned : Permission := "WRITE_ASSIGNED".
Definition PermissionRequest : Permission := "REQUEST".
Definition PermissionApproveTime : Permission := "APPROVE_TIME".
Definition PermissionManageCosts : Permission := "MANAGE_COSTS".

(** A lookup in a map literal keyed by strings. *)
Fixpoint lookup_in {A} (table : list (string * A)) (k : string) : option A :=
  match table with
  | [] => None
  | (k', a) :: rest => if String.eqb k' k then Some a else lookup_in rest k
  end.

Definition rolePermissions : list (Role * list Permission) :=
  [(RoleOwner, [PermissionRead; PermissionWriteItems; PermissionStructure; PermissionManageMembers;
      PermissionAutomation; PermissionDeleteContainer; PermissionReadConfiguration; PermissionAuditRead]);
   (RoleAdmin, [PermissionRead; PermissionWriteItems; PermissionStructure; PermissionManageMembers;
      PermissionAutomation; PermissionReadConfiguration; PermissionAuditRead]);
   (RoleMember, [PermissionRead; PermissionWriteItems; PermissionAutomation]);
   (RoleContributor, [PermissionRead; PermissionWriteItems]);
   (RoleViewer, [PermissionRead]);
   (RoleGuest, [PermissionRead]);
   (RoleAuditor, [PermissionReadConfiguration; PermissionAuditRead])].

Definition PermissionsOf (role : Role) : list Permission := default [] (lookup_in rolePermissions role).

(** *** PermissionCatalogue.go: the families *)

Definition fieldWritePrefix : string := "FIELD_WRITE:".
Definition fieldReadPrefix : string := "FIELD_READ:".
Definition takeStepPrefix : string := "TAKE_STEP:".

Definition FieldWrite (fieldKey : string) : Permission := fieldWritePrefix +:+ fieldKey.
Definition FieldRead (fieldKey : string) : Permission := fieldReadPrefix +:+ fieldKey.
Definition TakeStep (workflowKey stepKey : string) : Permission :=
  takeStepPrefix +:+ workflowKey +:+ "/" +:+ stepKey.

Definition SeesField (carries : Permission -> bool) (fieldKey : string) : bool :=
  carries (FieldRead fieldKey) || carries (FieldWrite fieldKey).

Inductive PermissionKind : Type := KindBase | KindField | KindStep.

#[export] Instance permission_kind_eq_dec : EqDecision PermissionKind.
Proof. solve_decision. Defined.

Definition Kind (p : Permission) : PermissionKind :=
  if str_has_prefix fieldWritePrefix p || str_has_prefix fieldReadPrefix p then KindField
  else if str_has_prefix takeStepPrefix p then KindStep
  else KindBase.

Definition is_base (p : Permission) : bool := bool_decide (Kind p = KindBase).

Definition familyHolders : list Role := [RoleOwner; RoleAdmin].

Definition RoleAllows (role : Role) (permission : Permission) : bool :=
  if negb (is_base permission) then contains familyHolders role
  else contains (PermissionsOf role) permission.

(** *** Along a path *)

(** [Privacy]: [true] is a path through a private hub. *)
Definition SharedPath : bool := false.
Definition PrivatePath : bool := true.

Definition onPath (scope : Scope) (path : list Scope) : bool :=
  existsb (fun step => String.eqb (scope_type step) (scope_type scope) &&
                       String.eqb (scope_id step) (scope_id scope)) path.

Definition counts (m : Membership) (path : list Scope) (privacy : bool) : bool :=
  if negb (RoleValid (mb_role m)) && negb (IsCustom m) || negb (onPath (mb_scope m) path) then false
  else negb privacy || negb (String.eqb (scope_type (mb_scope m)) ScopeTenant).

Definition EffectiveRole (memberships : list Membership) (path : list Scope) (privacy : bool) : option Role :=
  foldl (fun best m => if negb (counts m path privacy) || IsCustom m then best
                       else stronger best (mb_role m)) None memberships.

Definition customAllows (permissions : list string) (permission : Permission) : bool :=
  contains permissions permission.

(** What one membership that counts carries. *)
Definition carries (m : Membership) (permission : Permission) : bool :=
  if IsCustom m then customAllows (mb_permissions m) permission else RoleAllows (mb_role m) permission.

Definition Allows (memberships : list Membership) (path : list Scope) (privacy : bool)
    (permission : Permission) : bool :=
  existsb (fun m => counts m path privacy && carries m permission) memberships.

Definition columns : list Permission :=
  [PermissionRead; PermissionWriteItems; PermissionStructure; PermissionManageMembers;
   PermissionAutomation; PermissionDeleteContainer; PermissionReadConfiguration; PermissionAuditRead;
   PermissionWriteAssigned; PermissionComment; PermissionRequest].

(** The families' permissions a custom role names, without repetition. *)
Definition add_named (held : list Permission) (name : string) : list Permission :=
  if negb (is_base name) && negb (contains held name) then held ++ [name] else held.

Definition Held (memberships : list Membership) (path : list Scope) (privacy : bool) : list Permission :=
  foldl (fun held m =>
    if negb (IsCustom m) || negb (counts m path privacy) then held
    else foldl add_named held (mb_permissions m))
    (List.filter (Allows memberships path privacy) columns) memberships.

Definition MayGrant (memberships : list Membership) (path : list Scope) (privacy : bool) (role : Role) : bool :=
  if negb (RoleValid role) || negb (Allows memberships path privacy PermissionManageMembers) then false
  else match EffectiveRole memberships path privacy with
       | Some held => AtLeast held role
       | None => false
       end.

Definition GrantableRoles (memberships : list Membership) (path : list Scope) (privacy : bool) : list Role :=
  List.filter (MayGrant memberships path privacy) Roles.

(** ** ItemAccess.go *)

Inductive ItemAction : Type := ItemRead | ItemCreate | ItemChange | ItemComment.
Inductive ItemAccess : Type := AccessAll | AccessAssigned | AccessNone.
Inductive ItemVerdict : Type := ItemPermitted | ItemRefusedByRole | ItemRefusedByAssignment.

#[export] Instance item_action_eq_dec : EqDecision ItemAction.
Proof. solve_decision. Defined.
#[export] Instance item_access_eq_dec : EqDecision ItemAccess.
Proof. solve_decision. Defined.

Definition ItemActions : list ItemAction := [ItemRead; ItemCreate; ItemChange; ItemComment].

Definition row (read create change comment : ItemAccess) (action : ItemAction) : ItemAccess :=
  match action with ItemRead => read | ItemCreate => create | ItemChange => change | ItemComment => comment end.

Definition roleItemAccess : list (Role * (ItemAction -> ItemAccess)) :=
  [(RoleOwner, row AccessAll AccessAll AccessAll AccessAll);
   (RoleAdmin, row AccessAll AccessAll AccessAll AccessAll);
   (RoleMember, row AccessAll AccessAll AccessAll AccessAll);
   (RoleContributor, row AccessAll AccessAll AccessAssigned AccessAssigned);
   (RoleViewer, row AccessAll AccessNone AccessNone AccessNone);
   (RoleGuest, row AccessAll AccessNone AccessNone AccessAll);
   (RoleAuditor, row AccessNone AccessNone AccessNone AccessNone)].

Definition ItemAccessOf (role : Role) (action : ItemAction) : ItemAccess :=
  match lookup_in roleItemAccess role with Some r => r action | None => AccessNone end.

Definition verdict_of (reach : ItemAccess) (actorID assigneeID : ID) : ItemVerdict :=
  match reach with
  | AccessAll => ItemPermitted
  | AccessAssigned =>
      if negb (id_is_zero assigneeID) && String.eqb assigneeID actorID then ItemPermitted
      else ItemRefusedByAssignment
  | AccessNone => ItemRefusedByRole
  end.

Definition AllowsItemAction (role : Role) (action : ItemAction) (actorID assigneeID : ID) : ItemVerdict :=
  verdict_of (ItemAccessOf role action) actorID assigneeID.

(** ** PermissionCatalogue.go *)

Record CatalogueEntry := mkCatalogueEntry {
  ce_permission : Permission; ce_kind : PermissionKind; ce_group : string; ce_shipped : list Role
}.

Definition base_entries : list (Permission * string) :=
  [(PermissionRead, "content"); (PermissionWriteItems, "content"); (PermissionWriteAssigned, "content");
   (PermissionComment, "content"); (PermissionStructure, "how_we_work"); (PermissionAutomation, "how_we_work");
   (PermissionDeleteContainer, "how_we_work"); (PermissionManageMembers, "people");
   (PermissionApproveTime, "people"); (PermissionManageCosts, "people");
   (PermissionReadConfiguration, "evidence"); (PermissionAuditRead, "evidence"); (PermissionRequest, "portal")].

Definition shippedHolding (permission : Permission) : list Role :=
  List.filter (fun role => RoleAllows role permission) Roles.

Definition PermissionCatalogue : list CatalogueEntry :=
  ((fun e => mkCatalogueEntry e.1 KindBase e.2 (shippedHolding e.1)) <$> base_entries) ++
  [mkCatalogueEntry (fieldWritePrefix +:+ "*") KindField "fields" familyHolders;
   mkCatalogueEntry (fieldReadPrefix +:+ "*") KindField "fields" familyHolders;
   mkCatalogueEntry (takeStepPrefix +:+ "*") KindStep "workflows" familyHolders].

Definition is_lower (c : ascii) : bool :=
  let n := N_of_ascii c in ((97 <=? n) && (n <=? 122))%N.
Definition is_digit_or_underscore (c : ascii) : bool :=
  let n := N_of_ascii c in (((48 <=? n) && (n <=? 57)) || (n =? 95))%N.

(** The loop over the characters; one that is not ASCII is refused byte by
    byte. *)
Definition objectKey (key : string) : bool :=
  if String.eqb key "" || Nat.ltb 50 (String.length key) then false
  else match key with
       | EmptyString => false
       | String c rest => is_lower c && str_forallb (fun c => is_lower c || is_digit_or_underscore c) rest
       end.

Definition trim_prefix (p s : string) : string :=
  if str_has_prefix p s then str_drop (String.length p) s else s.

Definition permission_unknown (name : string) : Error :=
  detailed ErrValidation "roles.permission_unknown" [("permission", name)].

Definition permission_known (name : string) : bool :=
  match Kind name with
  | KindField => objectKey (trim_prefix fieldReadPrefix (trim_prefix fieldWritePrefix name))
  | KindStep =>
      match str_cut "/" (trim_prefix takeStepPrefix name) with
      | Some (workflow, step) => objectKey workflow && objectKey step
      | None => false
      end
  | KindBase => existsb (fun e => String.eqb e.1 name) base_entries
  end.

Definition ParsePermission (name : string) : res Permission :=
  if permission_known name then Ok name else Err (permission_unknown name).

(** [DefineRole] before the role's own shape is checked (NewCustomRole). *)
Definition check_permissions (permissions : list string) : res unit :=
  if bool_decide (permissions = []) then Err (detailed ErrValidation "roles.permissions_empty" [])
  else fold_result (fun _ p => _ ← ParsePermission p; Ok tt) tt permissions.

(** The permissions a shipped role reaches by its row of the item matrix. *)
Definition spelled_action (permission : Permission) : option ItemAction :=
  lookup_in [(PermissionComment, ItemComment); (PermissionWriteAssigned, ItemCreate);
             (PermissionRequest, ItemCreate)] permission.

Definition holdsToHandOut (memberships : list Membership) (path : list Scope) (privacy : bool)
    (permission : Permission) : bool :=
  if Allows memberships path privacy permission then true
  else match spelled_action permission with
       | None => false
       | Some action =>
           existsb (fun m => negb (IsCustom m) && counts m path privacy &&
                             bool_decide (ItemAccessOf (mb_role m) action = AccessAll)) memberships
       end.

Definition MayHandOut (memberships : list Membership) (path : list Scope) (privacy : bool)
    (permissions : list string) : bool :=
  if negb (Allows memberships path privacy PermissionManageMembers) then false
  else forallb (holdsToHandOut memberships path privacy) permissions.

Definition Lacking (memberships : list Membership) (path : list Scope) (privacy : bool)
    (permissions : list string) : list string :=
  List.filter (fun p => negb (holdsToHandOut memberships path privacy p)) permissions.

Definition CustomItemAccess (permissions : list string) (action : ItemAction) : ItemAccess :=
  let holds p := customAllows permissions p in
  match action with
  | ItemRead => if holds PermissionRead then AccessAll else AccessNone
  | ItemCreate => if holds PermissionWriteItems || holds PermissionWriteAssigned then AccessAll else AccessNone
  | ItemChange =>
      if holds PermissionWriteItems then AccessAll
      else if holds PermissionWriteAssigned then AccessAssigned else AccessNone
  | ItemComment =>
      if holds PermissionWriteItems || holds PermissionComment then AccessAll
      else if holds PermissionWriteAssigned then AccessAssigned else AccessNone
  end.

Definition membershipItemAccess (m : Membership) (action : ItemAction) : ItemAccess :=
  if IsCustom m then CustomItemAccess (mb_permissions m) action else ItemAccessOf (mb_role m) action.

(** The loop, its early return and what it has reached so far. *)
Fixpoint item_reach (memberships : list Membership) (path : list Scope) (privacy : bool) (action : ItemAction)
    (reach : ItemAccess) (found : bool) : ItemAccess * bool :=
  match memberships with
  | [] => (reach, found)
  | m :: rest =>
      if negb (counts m path privacy) then item_reach rest path privacy action reach found
      else match membershipItemAccess m action with
           | AccessAll => (AccessAll, true)
           | AccessAssigned => item_reach rest path privacy action AccessAssigned true
           | AccessNone => item_reach rest path privacy action reach true
           end
  end.

Definition ItemReach (memberships : list Membership) (path : list Scope) (privacy : bool)
    (action : ItemAction) : ItemAccess * bool :=
  item_reach memberships path privacy action AccessNone false.

Definition AllowsItemActionAlong (memberships : list Membership) (path : list Scope) (privacy : bool)
    (action : ItemAction) (actorID assigneeID : ID) : ItemVerdict * bool :=
  let '(reach, found) := ItemReach memberships path privacy action in
  if negb found then (ItemRefusedByRole, false) else (verdict_of reach actorID assigneeID, true).

Definition HoldsAnything (memberships : list Membership) (path : list Scope) (privacy : bool) : bool :=
  existsb (fun m => counts m path privacy) memberships.

Definition Counting (memberships : list Membership) (path : list Scope) (privacy : bool) : list Membership :=
  List.filter (fun m => counts m path privacy) memberships.

Definition IsRequester (memberships : list Membership) (path : list Scope) (privacy : bool) : bool :=
  Allows memberships path privacy PermissionRequest && negb (Allows memberships path privacy PermissionRead).

(** ** Lemmas *)

#[global] Arguments RoleValid : simpl never.
#[global] Arguments RoleAllows : simpl never.
#[global] Arguments ItemAccessOf : simpl never.
#[global] Arguments AtLeast : simpl never.
#[global] Arguments counts : simpl never.
#[global] Arguments Kind : simpl never.

Lemma Allows_iff ms path privacy p :
  Allows ms path privacy p = true <-> exists m, m ∈ ms /\ counts m path privacy = true /\ carries m p = true.
Proof.
  unfold Allows. rewrite existsb_exists. split.
  - intros (m & Hm & E). bools. exists m. by rewrite list_elem_of_In.
  - intros (m & Hm & E1 & E2). exists m. rewrite E1, E2. by apply list_elem_of_In in Hm.
Qed.

Lemma Counting_elem ms path privacy m :
  m ∈ Counting ms path privacy <-> m ∈ ms /\ counts m path privacy = true.
Proof. unfold Counting. by rewrite list_elem_of_In, filter_In, <- list_elem_of_In. Qed.

(** The matrix row by row: a role's permissions are among the seven rows. *)
Lemma roles_check (f : Role -> bool) : forallb f Roles = true -> forall r, RoleValid r = true -> f r = true.
Proof.
  intros H r Hr. apply contains_in, list_elem_of_In in Hr. rewrite forallb_forall in H. by apply H.
Qed.

Lemma roles_check2 (f : Role -> Role -> bool) : forallb (fun r => forallb (f r) Roles) Roles = true ->
  forall r s, RoleValid r = true -> RoleValid s = true -> f r s = true.
Proof.
  intros H r s Hr Hs. exact (roles_check (f r) (roles_check (fun r => forallb (f r) Roles) H r Hr) s Hs).
Qed.

Lemma AtLeast_refl r : RoleValid r = true -> AtLeast r r = true.
Proof. apply (roles_check (fun r => AtLeast r r)). vm_compute. reflexivity. Qed.

Lemma AtLeast_total r s : RoleValid r = true -> RoleValid s = true -> AtLeast r s = false -> AtLeast s r = true.
Proof.
  intros Hr Hs H. pose proof (roles_check2 (fun r s => AtLeast r s || AtLeast s r)
    ltac:(vm_compute; reflexivity) r s Hr Hs) as Ht. cbv beta in Ht. by rewrite H in Ht.
Qed.

Lemma AtLeast_trans r s t : AtLeast r s = true -> AtLeast s t = true -> AtLeast r t = true.
Proof. unfold AtLeast. intros. bools. rewrite !andb_true_iff, !Z.leb_le. lia. Qed.

Lemma index_from_nonneg xs : forall i x, 0 <= i -> 0 <= index_from i xs x -> x ∈ xs.
Proof.
  induction xs as [|y xs IH]; intros i x Hi H; cbn in H; [lia|].
  destruct (String.eqb_spec y x) as [->|]; [by left|]. right. apply (IH (i + 1)); lia.
Qed.

Lemma AtLeast_valid r s : AtLeast r s = true -> RoleValid r = true /\ RoleValid s = true.
Proof.
  unfold AtLeast, slices_index. intros H. bools.
  split; apply contains_in; eapply (index_from_nonneg Roles 0); done.
Qed.

(** ** Which memberships decide *)

Lemma existsb_filter {A} (f g : A -> bool) xs : existsb f (List.filter g xs) = existsb (fun x => g x && f x) xs.
Proof. induction xs as [|x xs IH]; cbn; [done|]. destruct (g x); cbn; by rewrite IH. Qed.

Lemma existsb_ext {A} (f g : A -> bool) xs : (forall x, f x = g x) -> existsb f xs = existsb g xs.
Proof. intros H. induction xs as [|x xs IH]; cbn; [done|]. by rewrite H, IH. Qed.

Lemma existsb_perm {A} (f : A -> bool) xs ys : xs ≡ₚ ys -> existsb f xs = existsb f ys.
Proof.
  intros H. apply eq_true_iff_eq. rewrite !existsb_exists.
  split; intros (x & Hx & E); exists x; (split; [|done]); apply list_elem_of_In; apply list_elem_of_In in Hx;
    [by rewrite <- H|by rewrite H].
Qed.

Lemma filter_permutation {A} (f : A -> bool) xs ys : xs ≡ₚ ys -> List.filter f xs ≡ₚ List.filter f ys.
Proof.
  induction 1 as [|x xs ys Hp IH|x y xs|xs ys zs H1 IH1 H2 IH2]; cbn; [done| | |by etransitivity].
  - destruct (f x); [by apply Permutation_skip|done].
  - destruct (f x), (f y); try done. apply Permutation_swap.
Qed.

Lemma counts_private m path : counts m path PrivatePath =
  counts m path SharedPath && negb (String.eqb (scope_type (mb_scope m)) ScopeTenant).
Proof. unfold counts. by destruct (_ || _). Qed.


(** ** The strongest role *)

(** The roles that compete for the effective one. *)
Definition ladder_roles (ms : list Membership) (path : list Scope) (privacy : bool) : list Role :=
  mb_role <$> List.filter (fun m => counts m path privacy && negb (IsCustom m)) ms.

Lemma EffectiveRole_ladder ms path privacy :
  EffectiveRole ms path privacy = foldl stronger None (ladder_roles ms path privacy).
Proof.
  unfold EffectiveRole, ladder_roles. generalize (@None string).
  induction ms as [|m ms IH]; intros best; cbn; [done|]. rewrite IH.
  by destruct (counts m path privacy), (IsCustom m).
Qed.

Lemma ladder_elem ms path privacy r : r ∈ ladder_roles ms path privacy <->
  exists m, m ∈ ms /\ counts m path privacy = true /\ IsCustom m = false /\ mb_role m = r.
Proof.
  unfold ladder_roles. rewrite list_elem_of_fmap. split.
  - intros (m & -> & Hm). apply list_elem_of_In, filter_In in Hm as [Hm E]. bools.
    exists m. by rewrite list_elem_of_In.
  - intros (m & Hm & Hc & Hi & <-). exists m. split; [done|]. apply list_elem_of_In, filter_In.
    split; [by apply list_elem_of_In|]. by rewrite Hc, Hi.
Qed.

Lemma ladder_valid ms path privacy r : r ∈ ladder_roles ms path privacy -> RoleValid r = true.
Proof.
  intros (m & _ & Hc & Hi & <-)%ladder_elem. unfold counts in Hc. rewrite Hi in Hc.
  destruct (RoleValid (mb_role m)); [done|discriminate].
Qed.

(** [best] is at least every role of [rs], and one of them. *)
Definition strongest_of (rs : list Role) (best : option Role) : Prop :=
  match best with
  | Some b => b ∈ rs /\ forall r, r ∈ rs -> AtLeast b r = true
  | None => rs = []
  end.

Lemma stronger_snoc rs best r : Forall (fun r => RoleValid r = true) (rs ++ [r]) ->
  strongest_of rs best -> strongest_of (rs ++ [r]) (stronger best r).
Proof.
  intros Hv Hb. apply Forall_app in Hv as [Hv [Hr _]%List.Forall_cons_iff]. rewrite Forall_forall in Hv.
  destruct best as [b|]; cbn in *.
  - destruct Hb as [Hin Hall]. destruct (AtLeast r b) eqn:E; cbn.
    + split; [apply elem_of_app; right; by left|]. intros s [Hs| ->%list_elem_of_singleton]%elem_of_app.
      * eapply AtLeast_trans; [exact E|auto].
      * by apply AtLeast_refl.
    + split; [apply elem_of_app; by left|]. intros s [Hs| ->%list_elem_of_singleton]%elem_of_app; [auto|].
      apply AtLeast_total; [done| |done]. by apply (AtLeast_valid b b), Hall.
  - subst rs. split; [by left|]. intros s ->%list_elem_of_singleton. by apply AtLeast_refl.
Qed.

Lemma strongest_fold rs : Forall (fun r => RoleValid r = true) rs -> strongest_of rs (foldl stronger None rs).
Proof.
  induction rs as [|r rs IH] using rev_ind; intros Hv; [done|].
  rewrite foldl_app. cbn. apply stronger_snoc; [done|]. apply IH. by apply Forall_app in Hv as [Hv _].
Qed.

Lemma EffectiveRole_spec ms path privacy :
  strongest_of (ladder_roles ms path privacy) (EffectiveRole ms path privacy).
Proof.
  rewrite EffectiveRole_ladder. apply strongest_fold. apply Forall_forall. apply ladder_valid.
Qed.

Lemma AtLeast_antisym r s : AtLeast r s = true -> AtLeast s r = true -> r = s.
Proof.
  intros H1 H2. destruct (AtLeast_valid _ _ H1) as [Hr Hs].
  pose proof (roles_check2 (fun r s => implb (AtLeast r s && AtLeast s r) (String.eqb r s))
    ltac:(vm_compute; reflexivity) r s Hr Hs) as H. cbv beta in H. rewrite H1, H2 in H. by apply String.eqb_eq.
Qed.

(** The effective role is the strongest one: an account has one along a
    path exactly when it holds a shipped role that counts there, it is one of
    those it holds, it is at least as strong as each of them, and no other
    role is; the order the memberships are read in does not matter. *)
Theorem effective_role_strongest ms ms' path privacy :
  (EffectiveRole ms path privacy = None <-> ladder_roles ms path privacy = []) /\
  (forall r, EffectiveRole ms path privacy = Some r <->
     r ∈ ladder_roles ms path privacy /\ forall s, s ∈ ladder_roles ms path privacy -> AtLeast r s = true) /\
  (ms ≡ₚ ms' -> EffectiveRole ms path privacy = EffectiveRole ms' path privacy).
Proof.
  assert (Hchar : forall ms r, EffectiveRole ms path privacy = Some r <->
     r ∈ ladder_roles ms path privacy /\ forall s, s ∈ ladder_roles ms path privacy -> AtLeast r s = true).
  { intros l r. pose proof (EffectiveRole_spec l path privacy) as Hs.
    destruct (EffectiveRole l path privacy) as [b|]; cbn in Hs.
    - destruct Hs as [Hin Hall]. split; [by intros [= <-]|]. intros [H1 H2]. f_equal.
      apply AtLeast_antisym; auto.
    - rewrite Hs. split; [done|]. by intros [?%elem_of_nil _]. }
  split; [|split; [apply Hchar|]].
  - pose proof (EffectiveRole_spec ms path privacy) as Hs.
    destruct (EffectiveRole ms path privacy) as [b|]; cbn in Hs; [|done].
    split; [done|]. intros E. destruct Hs as [Hin _]. rewrite E in Hin. by apply elem_of_nil in Hin.
  - intros Hp. apply option_eq. intros r. rewrite !Hchar.
    assert (ladder_roles ms path privacy ≡ₚ ladder_roles ms' path privacy) as Hl.
    { unfold ladder_roles. apply fmap_Permutation. by apply filter_permutation. }
    by setoid_rewrite Hl.
Qed.

(** ** The ceiling on handing out *)

(** How far an access reaches: NONE, ASSIGNED, ALL. *)
Definition reach_rank (a : ItemAccess) : nat :=
  match a with AccessNone => 0 | AccessAssigned => 1 | AccessAll => 2 end.

(** Nobody on the path holds a custom role: the shipped ladder alone. *)
Definition shipped_only (ms : list Membership) (path : list Scope) (privacy : bool) : Prop :=
  forall m, m ∈ ms -> counts m path privacy = true -> IsCustom m = false.

Lemma item_reach_spec ms path privacy action : forall reach found,
  (reach = AccessAll -> found = true) -> reach <> AccessAll ->
  let '(reach', found') := item_reach ms path privacy action reach found in
  (reach_rank reach <= reach_rank reach')%nat /\
  (forall m, m ∈ ms -> counts m path privacy = true ->
     (reach_rank (membershipItemAccess m action) <= reach_rank reach')%nat) /\
  (reach' = reach \/ exists m, m ∈ ms /\ counts m path privacy = true /\ membershipItemAccess m action = reach') /\
  (found' = true <-> found = true \/ HoldsAnything ms path privacy = true).
Proof.
  induction ms as [|m ms IH]; intros reach found Hf Hne; cbn [item_reach HoldsAnything existsb].
  - split; [done|]. split; [by intros m ?%elem_of_nil|]. split; [by left|]. naive_solver.
  - destruct (counts m path privacy) eqn:Hc; cbn [negb].
    2: { specialize (IH reach found Hf Hne). destruct (item_reach _ _ _ _ _ _) as [r' f'].
         destruct IH as (H1 & H2 & H3 & H4). split; [done|]. split.
         { intros x [->|Hx]%elem_of_cons Hcx; [congruence|auto]. }
         split; [|by rewrite H4]. destruct H3 as [->|(x & Hx & ? & ?)]; [by left|right].
         exists x. split; [by right|done]. }
    assert (Hstep : forall reach1, reach1 <> AccessAll -> membershipItemAccess m action = reach1 \/
        (membershipItemAccess m action = AccessNone /\ reach1 = reach) ->
        (reach_rank reach <= reach_rank reach1)%nat ->
        let '(reach', found') := item_reach ms path privacy action reach1 true in
        (reach_rank reach <= reach_rank reach')%nat /\
        (forall x, x ∈ m :: ms -> counts x path privacy = true ->
           (reach_rank (membershipItemAccess x action) <= reach_rank reach')%nat) /\
        (reach' = reach \/ exists x, x ∈ m :: ms /\ counts x path privacy = true /\
           membershipItemAccess x action = reach') /\
        (found' = true <-> found = true \/ true || HoldsAnything ms path privacy = true)).
    { intros reach1 H1 Hm Hle. specialize (IH reach1 true (fun _ => eq_refl) H1).
      destruct (item_reach ms path privacy action reach1 true) as [r' f'].
      destruct IH as (I1 & I2 & I3 & I4). split; [lia|]. split.
      { intros x [->|Hx]%elem_of_cons Hcx; [|auto]. destruct Hm as [->|[-> _]]; [done|cbn; lia]. }
      split; [|naive_solver]. destruct I3 as [->|(x & Hx & ? & ?)].
      - destruct Hm as [Hm|[_ ->]]; [right|by left]. exists m. split; [by left|done].
      - right. exists x. split; [by right|done]. }
    destruct (membershipItemAccess m action) eqn:Em.
    + split; [destruct reach; cbn; lia|]. split; [intros x Hx Hcx; destruct (membershipItemAccess x action); cbn; lia|].
      split; [right; exists m; split; [by left|done]|]. naive_solver.
    + apply Hstep; [done|by left|]. destruct reach; cbn; [done|lia|lia].
    + apply Hstep; [done|by right|done].
Qed.

(** How far an account reaches for an entry is the widest reach any
    membership that counts gives, whatever the order, and whether any counts;
    with a single shipped role that is the role's cell of the matrix. *)
Theorem item_reach_widest ms path privacy action actorID assigneeID :
  let '(reach, found) := ItemReach ms path privacy action in
  (forall m, m ∈ ms -> counts m path privacy = true ->
     (reach_rank (membershipItemAccess m action) <= reach_rank reach)%nat) /\
  (reach = AccessNone \/ exists m, m ∈ ms /\ counts m path privacy = true /\
     membershipItemAccess m action = reach) /\
  (found = HoldsAnything ms path privacy) /\
  (fst (AllowsItemActionAlong ms path privacy action actorID assigneeID) = ItemPermitted <->
     reach = AccessAll \/ (reach = AccessAssigned /\ assigneeID = actorID /\ assigneeID <> "")) /\
  (forall m, ms = [m] -> counts m path privacy = true -> IsCustom m = false ->
     AllowsItemActionAlong ms path privacy action actorID assigneeID =
       (AllowsItemAction (mb_role m) action actorID assigneeID, true)).
Proof.
  pose proof (item_reach_spec ms path privacy action AccessNone false (fun _ => ltac:(done)) ltac:(done)) as H.
  unfold AllowsItemActionAlong, ItemReach.
  destruct (item_reach ms path privacy action AccessNone false) as [reach found] eqn:E.
  destruct H as (_ & H2 & H3 & H4). split; [done|]. split; [done|].
  assert (Hf : found = HoldsAnything ms path privacy).
  { destruct found, (HoldsAnything ms path privacy); naive_solver. }
  split; [done|]. split.
  - destruct found; cbn.
    + unfold verdict_of, id_is_zero. destruct reach; cbn; [naive_solver| |naive_solver].
      destruct (String.eqb_spec assigneeID ""), (String.eqb_spec assigneeID actorID); cbn; naive_solver.
    + split; [done|]. intros Hr. exfalso.
      assert (Hno : HoldsAnything ms path privacy <> true) by congruence. apply Hno.
      destruct H3 as [->|(m & Hm & Hc & _)]; [naive_solver|].
      apply existsb_exists. exists m. by rewrite <- list_elem_of_In.
  - intros m -> Hc Hi. cbn in E. rewrite Hc in E. cbn in E. unfold AllowsItemAction.
    unfold membershipItemAccess in E. rewrite Hi in E. by destruct (ItemAccessOf _ _); injection E as <- <-.
Qed.

Lemma manager_rank ms path privacy held : shipped_only ms path privacy ->
  Allows ms path privacy PermissionManageMembers = true ->
  EffectiveRole ms path privacy = Some held -> held = RoleOwner \/ held = RoleAdmin.
Proof.
  intros Hs (m & Hm & Hc & Hp)%Allows_iff Hheld.
  pose proof (EffectiveRole_spec ms path privacy) as Hsp. rewrite Hheld in Hsp. destruct Hsp as [_ Hall].
  specialize (Hs m Hm Hc). unfold carries in Hp. rewrite Hs in Hp.
  assert (Hr : mb_role m ∈ ladder_roles ms path privacy) by (apply ladder_elem; eauto).
  specialize (Hall _ Hr). destruct (AtLeast_valid _ _ Hall) as [Hv1 Hv2].
  pose proof (roles_check2 (fun h r => implb (AtLeast h r && RoleAllows r PermissionManageMembers)
    (String.eqb h RoleOwner || String.eqb h RoleAdmin)) ltac:(vm_compute; reflexivity) held (mb_role m) Hv1 Hv2) as H.
  cbv beta in H. rewrite Hall, Hp in H. cbn in H.
  apply orb_true_iff in H as [H|H]; apply String.eqb_eq in H; auto.
Qed.

Definition managers_contain (r : Role) : bool :=
  forallb (fun h => implb (AtLeast h r) (forallb (contains (PermissionsOf h)) (PermissionsOf r)))
    [RoleOwner; RoleAdmin].

(** A role a manager is at least as strong as carries nothing the manager's
    does not. *)
Lemma manager_carries held role p : held = RoleOwner \/ held = RoleAdmin -> AtLeast held role = true ->
  RoleAllows role p = true -> RoleAllows held p = true.
Proof.
  intros Hh Hal. destruct (AtLeast_valid _ _ Hal) as [_ Hv]. unfold RoleAllows. destruct (is_base p); cbn [negb].
  - rewrite !contains_in. revert p.
    pose proof (roles_check managers_contain ltac:(vm_compute; reflexivity) role Hv) as H.
    unfold managers_contain in H. rewrite forallb_forall in H. specialize (H held).
    assert (Hin : In held [RoleOwner; RoleAdmin]) by (destruct Hh as [->| ->]; cbn; auto).
    specialize (H Hin). rewrite Hal in H. cbn [implb] in H. rewrite forallb_forall in H.
    intros p Hp. apply contains_in, H. by apply list_elem_of_In.
  - intros _. destruct Hh as [->| ->]; reflexivity.
Qed.

Lemma manager_items held action : held = RoleOwner \/ held = RoleAdmin -> ItemAccessOf held action = AccessAll.
Proof. by intros [->| ->]; destruct action. Qed.

(** C8. The ceiling on granting, on the shipped ladder: where only shipped
    roles count, an account may grant a role exactly when it is an owner or an
    administrator and the role is not above its own; the role then carries no
    permission the account is not allowed itself, and reaches no entry
    further.  The roles a client is offered are exactly those it may grant. *)
Theorem grant_ceiling ms path privacy role (Hshipped : shipped_only ms path privacy) :
  (MayGrant ms path privacy role = true <->
     exists held, EffectiveRole ms path privacy = Some held /\
       (held = RoleOwner \/ held = RoleAdmin) /\ AtLeast held role = true) /\
  (MayGrant ms path privacy role = true ->
     (forall p, RoleAllows role p = true -> Allows ms path privacy p = true) /\
     (forall action, (reach_rank (ItemAccessOf role action) <= reach_rank (ItemReach ms path privacy action).1)%nat)) /\
  (role ∈ GrantableRoles ms path privacy <-> MayGrant ms path privacy role = true).
Proof.
  assert (Hiff : MayGrant ms path privacy role = true <->
     exists held, EffectiveRole ms path privacy = Some held /\
       (held = RoleOwner \/ held = RoleAdmin) /\ AtLeast held role = true).
  { unfold MayGrant. split.
    - destruct (RoleValid role), (Allows ms path privacy PermissionManageMembers) eqn:Hm; try done. cbn.
      destruct (EffectiveRole ms path privacy) as [held|] eqn:He; [|done]. intros Hal.
      exists held. split; [done|]. split; [|done]. by eapply manager_rank.
    - intros (held & He & Hh & Hal). destruct (AtLeast_valid _ _ Hal) as [_ ->]. rewrite He.
      assert (Allows ms path privacy PermissionManageMembers = true) as ->; [|done].
      pose proof (EffectiveRole_spec ms path privacy) as Hsp. rewrite He in Hsp. destruct Hsp as [Hin _].
      apply ladder_elem in Hin as (m & Hm & Hc & Hi & Hr). apply Allows_iff. exists m.
      split; [done|]. split; [done|]. unfold carries. rewrite Hi, Hr. by destruct Hh as [->| ->]. }
  split; [done|]. split.
  - intros (held & He & Hh & Hal)%Hiff.
    pose proof (EffectiveRole_spec ms path privacy) as Hsp. rewrite He in Hsp. destruct Hsp as [Hin _].
    apply ladder_elem in Hin as (m & Hm & Hc & Hi & Hr). split.
    + intros p Hp. apply Allows_iff. exists m. split; [done|]. split; [done|]. unfold carries.
      rewrite Hi, Hr. by eapply manager_carries.
    + intros action. pose proof (item_reach_spec ms path privacy action AccessNone false
        (fun _ => ltac:(done)) ltac:(done)) as Hreach. unfold ItemReach.
      destruct (item_reach _ _ _ _ _ _) as [reach found]. destruct Hreach as (_ & H2 & _).
      specialize (H2 m Hm Hc). unfold membershipItemAccess in H2.
      rewrite Hi, Hr, manager_items in H2 by done. destruct (ItemAccessOf role action); cbn in *; lia.
  - unfold GrantableRoles. rewrite list_elem_of_In, filter_In, <- list_elem_of_In.
    split; [by intros [_ ?]|]. intros H. split; [|done]. apply contains_in.
    unfold MayGrant in H. unfold RoleValid in H. by destruct (contains Roles role).
Qed.

(** ** Where the ceiling does not hold *)

Definition hub_path : list Scope := [TenantScope; HubScope "hub-1"].
Definition holds_role (role : Role) : Membership := mkMembership "ann" (HubScope "hub-1") role "" [].
Definition holds_custom (permissions : list string) : Membership :=
  mkMembership "ann" (HubScope "hub-1") "" "people_manager" permissions.

(** Beside a custom role the ceiling on granting has holes.  A member who
    also holds a custom role with MANAGE_MEMBERS may grant AUDITOR - which
    carries AUDIT_READ and READ_CONFIGURATION, neither of which they are
    allowed nor may hand out in a custom role -, because AUDITOR is last in
    the order of the roles.  And a contributor who also holds one may hand out
    WRITE_ITEMS, which as a custom role changes every entry where the
    contributor changes only those assigned to them. *)
Theorem grant_above_own :
  let member := [holds_role RoleMember; holds_custom [PermissionManageMembers]] in
  let contributor := [holds_role RoleContributor; holds_custom [PermissionManageMembers]] in
  MayGrant member hub_path SharedPath RoleAuditor = true /\
  (forall p, p ∈ PermissionsOf RoleAuditor ->
     Allows member hub_path SharedPath p = false /\ MayHandOut member hub_path SharedPath [p] = false) /\
  MayHandOut contributor hub_path SharedPath [PermissionWriteItems] = true /\
  CustomItemAccess [PermissionWriteItems] ItemChange = AccessAll /\
  (ItemReach contributor hub_path SharedPath ItemChange).1 = AccessAssigned.
Proof.
  cbv zeta. split; [vm_compute; reflexivity|]. split.
  - apply Forall_forall. repeat (apply List.Forall_cons; [split; vm_compute; reflexivity|]). apply List.Forall_nil.
  - repeat split; vm_compute; reflexivity.
Qed.

(** A shipped role names neither of the two. *)
Lemma shipped_never role p : p ∈ [PermissionApproveTime; PermissionManageCosts] -> RoleAllows role p = false.
Proof.
  intros Hp. unfold RoleAllows, PermissionsOf.
  assert (is_base p = true) as ->.
  { revert p Hp. apply Forall_forall. repeat constructor. }
  cbn [negb]. destruct (lookup_in rolePermissions role) as [ps|] eqn:E; [|done]. cbn [default].
  assert (Hall : forallb (fun e => forallb (fun p => negb (contains e.2 p))
    [PermissionApproveTime; PermissionManageCosts]) rolePermissions = true) by (vm_compute; reflexivity).
  rewrite forallb_forall in Hall.
  assert (Hin : exists r, In (r, ps) rolePermissions).
  { clear Hall. revert E. generalize rolePermissions. induction l as [|[r q] l IH]; cbn; [done|].
    destruct (String.eqb r role); [intros [= ->]; eauto|intros H; destruct (IH H) as [r' ?]; eauto]. }
  destruct Hin as [r Hin]. specialize (Hall _ Hin). cbn [snd] in Hall. rewrite forallb_forall in Hall.
  apply negb_true_iff, Hall. by apply list_elem_of_In.
Qed.

Lemma holdsToHandOut_iff ms path privacy p :
  holdsToHandOut ms path privacy p = true <->
  Allows ms path privacy p = true \/
  exists action m, spelled_action p = Some action /\ m ∈ ms /\ IsCustom m = false /\
    counts m path privacy = true /\ ItemAccessOf (mb_role m) action = AccessAll.
Proof.
  unfold holdsToHandOut. destruct (Allows ms path privacy p); [naive_solver|].
  destruct (spelled_action p) as [action|]; [|naive_solver]. rewrite existsb_exists. split.
  - intros (m & Hm%list_elem_of_In & E). bools. right. eauto 10.
  - intros [|(a & m & [= <-] & Hm & Hi & Hc & Ha)]; [done|]. exists m.
    split; [by apply list_elem_of_In|]. rewrite Hi, Hc. cbn. by apply bool_decide_eq_true.
Qed.

(** The ceiling on custom roles: an account hands out a set of
    permissions exactly when it may manage members and lacks none of them;
    then every permission but the three spelled by the item matrix is one it
    is allowed itself.  The ceiling is also a wall: where nobody but holders
    of shipped roles is asked, APPROVE_TIME and MANAGE_COSTS - which the
    catalogue offers - can be handed out by no one, an owner included. *)
Theorem hand_out_ceiling ms path privacy permissions :
  (MayHandOut ms path privacy permissions = true <->
     Allows ms path privacy PermissionManageMembers = true /\ Lacking ms path privacy permissions = []) /\
  (MayHandOut ms path privacy permissions = true -> forall p, customAllows permissions p = true ->
     Allows ms path privacy p = true \/ p ∈ [PermissionComment; PermissionWriteAssigned; PermissionRequest]) /\
  (shipped_only ms path privacy ->
     PermissionApproveTime ∈ permissions \/ PermissionManageCosts ∈ permissions ->
     MayHandOut ms path privacy permissions = false) /\
  forallb permission_known [PermissionApproveTime; PermissionManageCosts] = true.
Proof.
  assert (Hlack : forall ps, Lacking ms path privacy ps = [] <-> forallb (holdsToHandOut ms path privacy) ps = true).
  { induction ps as [|p ps IH]; cbn; [done|]. destruct (holdsToHandOut ms path privacy p); cbn; [done|].
    split; discriminate. }
  assert (Hiff : MayHandOut ms path privacy permissions = true <->
     Allows ms path privacy PermissionManageMembers = true /\ Lacking ms path privacy permissions = []).
  { unfold MayHandOut. rewrite Hlack. by destruct (Allows ms path privacy PermissionManageMembers); cbn; intuition. }
  split; [done|]. split; [|split; [|vm_compute; reflexivity]].
  - intros [_ H]%Hiff p Hp%contains_in. apply Hlack in H. rewrite forallb_forall in H.
    specialize (H p (proj1 (list_elem_of_In _ _) Hp)).
    apply holdsToHandOut_iff in H as [H|(action & m & Hs & _)]; [by left|right].
    unfold spelled_action in Hs. cbn [lookup_in] in Hs.
    destruct (String.eqb_spec PermissionComment p) as [<-|]; [by left|].
    destruct (String.eqb_spec PermissionWriteAssigned p) as [<-|]; [by right; left|].
    destruct (String.eqb_spec PermissionRequest p) as [<-|]; [by right; right; left|done].
  - intros Hs Hin. apply not_true_iff_false. intros [_ H]%Hiff. apply Hlack in H. rewrite forallb_forall in H.
    assert (Hp : exists p, p ∈ permissions /\ p ∈ [PermissionApproveTime; PermissionManageCosts]).
    { destruct Hin as [Hin|Hin]; eexists; (split; [exact Hin|]); repeat constructor. }
    destruct Hp as (p & Hp & Hpp). specialize (H p (proj1 (list_elem_of_In _ _) Hp)).
    apply holdsToHandOut_iff in H as [(m & Hm & Hc & Hcar)%Allows_iff|(action & m & Hspell & _)].
    + unfold carries in Hcar. rewrite (Hs m Hm Hc), shipped_never in Hcar; done.
    + clear -Hpp Hspell. revert p Hpp Hspell.
      apply (Forall_forall (fun p => spelled_action p = Some action -> False)). repeat constructor; discriminate.
Qed.

(** ** What a client is told *)

Lemma add_named_elem held names p :
  p ∈ foldl add_named held names <-> p ∈ held \/ (p ∈ names /\ is_base p = false).
Proof.
  revert held. induction names as [|n names IH]; intros held; cbn; [rewrite elem_of_nil; tauto|].
  rewrite IH, elem_of_cons. unfold add_named. destruct (is_base n) eqn:Eb; cbn.
  - naive_solver congruence.
  - destruct (contains held n) eqn:Ec; cbn.
    + apply contains_in in Ec. naive_solver.
    + rewrite elem_of_app, list_elem_of_singleton. naive_solver.
Qed.

Lemma Held_elem ms path privacy p : p ∈ Held ms path privacy <->
  (p ∈ columns /\ Allows ms path privacy p = true) \/
  (is_base p = false /\ exists m, m ∈ ms /\ IsCustom m = true /\ counts m path privacy = true /\ p ∈ mb_permissions m).
Proof.
  unfold Held. set (start := List.filter (Allows ms path privacy) columns).
  assert (Hfold : forall l held, p ∈ foldl (fun held m => if negb (IsCustom m) || negb (counts m path privacy) then held
      else foldl add_named held (mb_permissions m)) held l <->
    p ∈ held \/ (is_base p = false /\ exists m, m ∈ l /\ IsCustom m = true /\ counts m path privacy = true /\
      p ∈ mb_permissions m)).
  { induction l as [|m l IH]; intros held; cbn [foldl].
    - split; [by left|]. intros [|(_ & m & ?%elem_of_nil & _)]; done.
    - rewrite IH. destruct (IsCustom m) eqn:Ei, (counts m path privacy) eqn:Ec; cbn [negb orb].
      1: rewrite add_named_elem.
      all: setoid_rewrite elem_of_cons; naive_solver congruence. }
  rewrite Hfold. unfold start. rewrite list_elem_of_In, filter_In, <- list_elem_of_In. tauto.
Qed.

(** What a client is told it holds is never more than it is allowed; and
    it is everything it is allowed among the eleven columns and the objects
    its custom roles name.  But it is not everything: a custom role's
    APPROVE_TIME and MANAGE_COSTS are allowed and never told. *)
Theorem held_is_allowed ms path privacy p :
  (p ∈ Held ms path privacy -> Allows ms path privacy p = true) /\
  (Allows ms path privacy p = true ->
     p ∈ columns \/ (is_base p = false /\ exists m, m ∈ ms /\ IsCustom m = true /\
                       counts m path privacy = true /\ p ∈ mb_permissions m) ->
     p ∈ Held ms path privacy) /\
  (p ∈ [PermissionApproveTime; PermissionManageCosts] ->
     (p ∉ Held ms path privacy) /\ Allows [holds_custom [p]] hub_path SharedPath p = true).
Proof.
  rewrite Held_elem. split; [|split].
  - intros [[_ H]|(Hb & m & Hm & Hi & Hc & Hp)]; [done|]. apply Allows_iff. exists m.
    split; [done|]. split; [done|]. unfold carries. rewrite Hi. by apply contains_in.
  - intros Ha [Hcol|Hnamed]; [by left|by right].
  - intros Hp. split.
    + intros [[Hcol _]|(Hb & _)]; revert p Hp Hcol || revert p Hp Hb.
      * apply (Forall_forall (fun p => p ∈ columns -> False)).
        repeat (apply List.Forall_cons; [intros H; apply contains_in in H; vm_compute in H; discriminate|]).
        apply List.Forall_nil.
      * apply (Forall_forall (fun p => is_base p = false -> False)). repeat constructor; discriminate.
    + revert p Hp. apply Forall_forall. repeat (apply List.Forall_cons; [vm_compute; reflexivity|]).
      apply List.Forall_nil.
Qed.

(** ** The catalogue's grammar *)

Lemma trim_prefix_app p s : trim_prefix p (p +:+ s) = s.
Proof. unfold trim_prefix. by rewrite has_prefix_app, str_drop_app. Qed.

Lemma str_cut_some c s a b : str_cut c s = Some (a, b) -> s = a +:+ String c b.
Proof.
  revert a. induction s as [|d s IH]; intros a; cbn; [done|].
  destruct (Ascii.eqb_spec d c) as [->|]; [by intros [= <- <-]|].
  destruct (str_cut c s) as [[a' b']|]; [|done]. intros [= <- <-]. cbn. by rewrite (IH a').
Qed.

(** The first letter of an object's key is a lower case one, so no family's
    prefix starts there; none of its letters is a slash. *)
Lemma objectKey_head key : objectKey key = true ->
  exists c rest, key = String c rest /\ is_lower c = true /\ str_contains "/" key = false.
Proof.
  unfold objectKey. destruct (_ || _); [done|]. destruct key as [|c rest]; [done|].
  intros H. bools. exists c, rest. split; [done|]. split; [done|]. cbn. apply orb_false_iff. split.
  - apply Ascii.eqb_neq. intros ->. discriminate.
  - match goal with H : str_forallb _ rest = true |- _ => revert H end.
    clear. induction rest as [|d rest IH]; cbn; [done|]. intros H. bools. apply orb_false_iff.
    split; [|auto]. apply Ascii.eqb_neq. intros ->. discriminate.
Qed.

Lemma objectKey_no_prefix key c p : objectKey key = true -> is_lower c = false ->
  str_has_prefix (String c p) key = false.
Proof.
  intros (d & rest & -> & Hd & _)%objectKey_head Hc. cbn.
  destruct (Ascii.eqb_spec c d) as [->|]; [congruence|done].
Qed.

Lemma trim_read_key key : objectKey key = true -> trim_prefix fieldReadPrefix key = key.
Proof.
  intros H. unfold trim_prefix, fieldReadPrefix. by rewrite (objectKey_no_prefix key "F" "IELD_READ:" H).
Qed.

Lemma kind_field_write k : Kind (FieldWrite k) = KindField.
Proof. unfold Kind, FieldWrite. by rewrite has_prefix_app. Qed.
Lemma kind_field_read k : Kind (FieldRead k) = KindField.
Proof. unfold Kind, FieldRead. by rewrite has_prefix_app, orb_true_r. Qed.
Lemma kind_take_step w k : Kind (TakeStep w k) = KindStep.
Proof. reflexivity. Qed.

Lemma known_field_write k : objectKey k = true -> permission_known (FieldWrite k) = true.
Proof.
  intros H. unfold permission_known. rewrite kind_field_write. unfold FieldWrite.
  by rewrite trim_prefix_app, trim_read_key.
Qed.

Lemma known_field_read k : objectKey k = true -> permission_known (FieldRead k) = true.
Proof.
  intros H. unfold permission_known. rewrite kind_field_read.
  change (trim_prefix fieldWritePrefix (FieldRead k)) with (FieldRead k).
  unfold FieldRead. by rewrite trim_prefix_app.
Qed.

Lemma known_take_step w k : objectKey w = true -> objectKey k = true -> permission_known (TakeStep w k) = true.
Proof.
  intros Hw Hk. unfold permission_known. rewrite kind_take_step. unfold TakeStep. rewrite trim_prefix_app.
  change (w +:+ "/" +:+ k) with (w +:+ String "/" k). destruct (objectKey_head w Hw) as (_ & _ & _ & _ & Hno).
  by rewrite (str_cut_app _ _ _ Hno), Hw, Hk.
Qed.

(** The names the catalogue accepts, exactly: its thirteen base names, a
    field's write or read permission, a step's, each over well-formed keys -
    and, because the two prefixes are cut off one after the other, also a
    write permission whose key starts with the read prefix, a name no field
    permission ever has. *)
Theorem permission_grammar name :
  (ParsePermission name = Ok name <->
     (Kind name = KindBase /\ name ∈ (fst <$> base_entries)) \/
     (exists key, objectKey key = true /\
        (name = FieldWrite key \/ name = FieldRead key \/ name = FieldWrite (FieldRead key))) \/
     (exists workflow step, objectKey workflow = true /\ objectKey step = true /\ name = TakeStep workflow step)) /\
  (forall e, ParsePermission name = Err e -> e = permission_unknown name) /\
  (forall key key', objectKey key' = true -> FieldRead key' <> FieldWrite (FieldRead key) /\
     FieldWrite key' <> FieldWrite (FieldRead key)).
Proof.
  split; [|split].
  - unfold ParsePermission. split.
    + intros H. assert (Hk : permission_known name = true) by (by destruct (permission_known name)). clear H.
      unfold permission_known in Hk. destruct (Kind name) eqn:E.
      * left. split; [done|]. apply existsb_exists in Hk as (e & He & <-%String.eqb_eq).
        apply list_elem_of_fmap. exists e. split; [done|]. by apply list_elem_of_In.
      * right. left. unfold trim_prefix at 2 in Hk.
        destruct (str_has_prefix fieldWritePrefix name) eqn:Ew.
        -- apply has_prefix_split in Ew. set (rest := str_drop _ name) in *. unfold trim_prefix in Hk.
           destruct (str_has_prefix fieldReadPrefix rest) eqn:Er; [|by eauto].
           apply has_prefix_split in Er. eexists. split; [exact Hk|]. right. right.
           rewrite Ew, Er at 1. done.
        -- unfold trim_prefix in Hk. unfold Kind in E. rewrite Ew in E. cbn [orb] in E.
           destruct (str_has_prefix fieldReadPrefix name) eqn:Er; [|by destruct (str_has_prefix takeStepPrefix name)].
           apply has_prefix_split in Er. eexists. split; [exact Hk|]. right. left. exact Er.
      * right. right. unfold Kind in E. destruct (_ || _); [done|].
        destruct (str_has_prefix takeStepPrefix name) eqn:Es; [|done].
        unfold trim_prefix in Hk. rewrite Es in Hk. apply has_prefix_split in Es.
        destruct (str_cut "/" _) as [[w k]|] eqn:Ec; [|done]. bools. apply str_cut_some in Ec.
        exists w, k. split; [done|]. split; [done|]. rewrite Es, Ec. done.
    + intros [(E & Hin)|[(key & Hk & [->|[->| ->]])|(w & k & Hw & Hk & ->)]].
      * unfold permission_known. rewrite E. apply list_elem_of_fmap in Hin as (e & -> & He).
        assert (existsb (fun e0 => String.eqb e0.1 e.1) base_entries = true) as ->; [|done].
        apply existsb_exists. exists e. split; [by apply list_elem_of_In|apply String.eqb_refl].
      * by rewrite known_field_write.
      * by rewrite known_field_read.
      * unfold permission_known. rewrite kind_field_write. unfold FieldWrite, FieldRead.
        by rewrite !trim_prefix_app, Hk.
      * by rewrite known_take_step.
  - intros e. unfold ParsePermission. destruct (permission_known name); [done|]. by intros [= <-].
  - intros key key' Hk. split; [discriminate|]. intros E.
    assert (key' = FieldRead key) as ->.
    { rewrite <- (str_drop_app fieldWritePrefix key'). unfold FieldWrite in E. by rewrite E. }
    destruct (objectKey_head _ Hk) as (c & rest & [= <- _] & Hl & _). discriminate.
Qed.

Lemma grant_ceiling_witness :
  let ms := [holds_role RoleAdmin; holds_role RoleViewer] in
  shipped_only ms hub_path SharedPath /\
  MayGrant ms hub_path SharedPath RoleMember = true /\
  (forall p, RoleAllows RoleMember p = true -> Allows ms hub_path SharedPath p = true).
Proof.
  intros ms. assert (Hs : shipped_only ms hub_path SharedPath).
  { intros m Hm _. revert m Hm. apply Forall_forall. repeat constructor. }
  assert (Hg : MayGrant ms hub_path SharedPath RoleMember = true) by (vm_compute; reflexivity).
  split; [exact Hs|]. split; [exact Hg|].
  destruct (grant_ceiling ms hub_path SharedPath RoleMember Hs) as (_ & H & _). exact (proj1 (H Hg)).
Defined.
