(* ===== verification/Assignment.v ===== *)
(** * Who an entry is handed to, and when a parent completes itself

    Models core/domain/model/work/AutoAssignPolicy.go and CompletionPolicy.go,
    core/domain/service/Assignment.go - the five strategies - and Completion.go,
    and from core/application/service/work/AutoAssignWorkItem.go the pool a
    strategy draws from ([eligible], [withoutRestricted]) and the draw itself
    ([choose]).  The random source, who sees a collection, the members of a
    group, the restricted accounts and the open entries of an account are
    parameters; the random source's law is the one its interface states, and
    the scripted source of core/port/clock/Port.go is an instance of it.

    The theorems: a draw never fails on a pool the use case built, and falls
    on an eligible account or, when there is none, on nobody; whom the
    rotation and the load pick; that the rotation passes nobody over forever;
    that a completed roll-up has nothing left to do. *)

From Stdlib Require Import ZArith Lia String Ascii List Bool.
From stdpp Require Import base list strings gmap.
From S2P Require Import Prelude Shared.

Open Scope string_scope.
Open Scope list_scope.
Open Scope Z_scope.

(** ** CompletionPolicy.go *)

Abbreviation CompletionPolicy := string (only parsing).

Definition CompletionManual : CompletionPolicy := "MANUAL".
Definition CompletionRollup : CompletionPolicy := "ROLLUP".
Definition CompletionPolicies : list CompletionPolicy := [CompletionManual; CompletionRollup].
Definition DefaultCompletionPolicy : CompletionPolicy := CompletionManual.

Definition CompletionPolicyValid (p : CompletionPolicy) : bool :=
  existsb (fun known => String.eqb known p) CompletionPolicies.

Definition OrDefault (p : CompletionPolicy) : CompletionPolicy :=
  if String.eqb p "" then DefaultCompletionPolicy else p.

Definition ParseCompletionPolicy (value : string) : res CompletionPolicy :=
  if String.eqb value "" then Ok (OrDefault "")
  else if negb (CompletionPolicyValid value) then
    Err (WithFields (detailed ErrValidation "containers.completion_policy_unknown" [("value", value)])
           [mkFieldError "/policies/completion_policy" "containers.completion_policy_unknown" []])
  else Ok value.

Definition RollsUp (p : CompletionPolicy) : bool := String.eqb p CompletionRollup.

Record ChildCompletion := mkChildren { cc_total : Z; cc_completed : Z }.

Definition AllCompleted (c : ChildCompletion) : bool := (0 <? cc_total c) && (cc_total c <=? cc_completed c).
Definition AnyOpen (c : ChildCompletion) : bool := cc_completed c <? cc_total c.

(** ** Completion.go *)

Inductive ParentEffect : Type := ParentUnchanged | ParentComplete | ParentReopen.

Definition RollUp (policy : CompletionPolicy) (parentIsCompleted : bool) (children : ChildCompletion) : ParentEffect :=
  if negb (RollsUp policy) then ParentUnchanged
  else if AllCompleted children && negb parentIsCompleted then ParentComplete
  else if AnyOpen children && parentIsCompleted then ParentReopen
  else ParentUnchanged.

(** ** AutoAssignPolicy.go *)

Abbreviation AutoAssignStrategy := string (only parsing).
Abbreviation CandidateKind := string (only parsing).

Definition AssignFixed : AutoAssignStrategy := "FIXED".
Definition AssignRandomMember : AutoAssignStrategy := "RANDOM_MEMBER".
Definition AssignRandomGroupMember : AutoAssignStrategy := "RANDOM_GROUP_MEMBER".
Definition AssignRoundRobin : AutoAssignStrategy := "ROUND_ROBIN".
Definition AssignLeastLoaded : AutoAssignStrategy := "LEAST_LOADED".

Definition AutoAssignStrategies : list AutoAssignStrategy :=
  [AssignFixed; AssignRandomMember; AssignRandomGroupMember; AssignRoundRobin; AssignLeastLoaded].

Definition StrategyValid (s : AutoAssignStrategy) : bool :=
  existsb (fun known => String.eqb known s) AutoAssignStrategies.

Definition CandidateAccount : CandidateKind := "ACCOUNT".
Definition CandidateGroup : CandidateKind := "GROUP".

Record AutoAssignCandidate := mkCandidate { ca_kind : CandidateKind; ca_id : ID }.

#[export] Instance candidate_eq_dec : EqDecision AutoAssignCandidate.
Proof. solve_decision. Defined.

Definition strategy_unknown (value : string) : Error :=
  WithFields (detailed ErrValidation "containers.auto_assign_strategy_unknown" [("value", value)])
    [mkFieldError "/policies/auto_assign/strategy" "containers.auto_assign_strategy_unknown" []].

Definition candidates_refused (code : string) (p : params) : Error :=
  WithFields (detailed ErrValidation code p) [mkFieldError "/policies/auto_assign/candidates" code []].

Definition ParseAutoAssignStrategy (value : string) : res AutoAssignStrategy :=
  if negb (StrategyValid value) then Err (strategy_unknown value) else Ok value.

Definition ParseCandidateKind (value : string) : res CandidateKind :=
  if negb (String.eqb value CandidateAccount) && negb (String.eqb value CandidateGroup) then
    Err (candidates_refused "containers.auto_assign_candidate_kind_unknown" [("value", value)])
  else Ok value.

Record AutoAssignDefinition := mkDefinition {
  ad_strategy : AutoAssignStrategy;
  ad_candidates : list AutoAssignCandidate;
  ad_enabled : bool
}.

(** A stored policy: the definition and where its rotation stands. *)
Record AutoAssignPolicy := mkPolicy {
  ap_scope_id : ID;
  ap_definition : AutoAssignDefinition;
  ap_cursor : Z;
  ap_version : Z
}.

Definition Definition_ (p : AutoAssignPolicy) : AutoAssignDefinition := ap_definition p.

Definition DefinitionEqual (d other : AutoAssignDefinition) : bool :=
  if negb (String.eqb (ad_strategy d) (ad_strategy other)) || negb (Bool.eqb (ad_enabled d) (ad_enabled other)) ||
     negb (Nat.eqb (List.length (ad_candidates d)) (List.length (ad_candidates other))) then false
  else forallb (fun '(a, b) => bool_decide (a = b)) (combine (ad_candidates d) (ad_candidates other)).

Definition candidateKind (s : AutoAssignStrategy) : CandidateKind :=
  if String.eqb s AssignRandomGroupMember then CandidateGroup else CandidateAccount.

Definition check_candidate (strategy : AutoAssignStrategy) (_ : unit) (candidate : AutoAssignCandidate) : res unit :=
  if id_is_zero (ca_id candidate) then
    Err (candidates_refused "containers.auto_assign_candidate_id_required" [])
  else if negb (String.eqb (ca_kind candidate) (candidateKind strategy)) then
    Err (candidates_refused "containers.auto_assign_candidate_kind_invalid"
           [("strategy", strategy); ("kind", ca_kind candidate)])
  else Ok tt.

Definition ValidateDefinition (d : AutoAssignDefinition) : res unit :=
  if negb (StrategyValid (ad_strategy d)) then Err (strategy_unknown (ad_strategy d))
  else if Nat.eqb (List.length (ad_candidates d)) 0 then
    Err (candidates_refused "containers.auto_assign_candidates_required" [])
  else if String.eqb (ad_strategy d) AssignFixed && negb (Nat.eqb (List.length (ad_candidates d)) 1) then
    Err (candidates_refused "containers.auto_assign_single_candidate_required"
           [("count", itoa (Z.of_nat (List.length (ad_candidates d))))])
  else fold_result (check_candidate (ad_strategy d)) tt (ad_candidates d).

(** ** Assignment.go *)

(** [clock.RandomSource]: the [k]-th draw below a positive bound. *)
Abbreviation RandomSource := (nat -> Z -> Z) (only parsing).

Class RandomLaw (IntN : RandomSource) : Prop := {
  draw_in_range : forall k n, 0 < n -> 0 <= IntN k n < n
}.

(** The scripted source of the port: its values in order, cycling, each folded
    into the bound. *)
Definition Scripted (values : list Z) : RandomSource := fun k n =>
  Z.rem (List.nth (k mod List.length values) values 0) n.

#[export] Instance scripted_law values : Forall (fun v => 0 <= v) values -> RandomLaw (Scripted values).
Proof.
  intros Hv. constructor. intros k n Hn. unfold Scripted.
  assert (0 <= List.nth (k mod List.length values) values 0).
  { destruct (nth_in_or_default (k mod List.length values) values 0) as [Hin|Hd]; [|by rewrite Hd].
    rewrite Forall_forall in Hv. apply Hv. by apply list_elem_of_In. }
  pose proof (Z.rem_bound_pos (List.nth (k mod List.length values) values 0) n). lia.
Qed.

Record AssignmentGroup := mkGroup { ag_group : ID; ag_members : list ID }.

Record AssignmentSelection := mkSelection {
  as_accounts : list ID;
  as_positions : list Z;
  as_candidate_count : Z;
  as_cursor : Z;
  as_groups : list AssignmentGroup;
  as_open_items : gmap ID Z;
  as_random : RandomSource
}.

Record AssignmentChoice := mkChoice { ch_account : ID; ch_next_cursor : Z; ch_advanced : bool }.

Definition nobody_chosen : AssignmentChoice := mkChoice "" 0 false.
Definition chosen_account (account : ID) : AssignmentChoice := mkChoice account 0 false.

(** A choice and whether there is one; an index out of range panics. *)
Abbreviation choosing := (res (AssignmentChoice * bool)) (only parsing).

Definition fixed_choose (sel : AssignmentSelection) : choosing :=
  if Nat.eqb (List.length (as_accounts sel)) 0 then Ok (nobody_chosen, false)
  else account ← at_index (as_accounts sel) 0; Ok (chosen_account account, true).

Definition random_member_choose (sel : AssignmentSelection) : choosing :=
  if Nat.eqb (List.length (as_accounts sel)) 0 then Ok (nobody_chosen, false)
  else
    account ← at_index (as_accounts sel) (as_random sel 0%nat (Z.of_nat (List.length (as_accounts sel))));
    Ok (chosen_account account, true).

Definition random_group_member_choose (sel : AssignmentSelection) : choosing :=
  if Nat.eqb (List.length (as_groups sel)) 0 then Ok (nobody_chosen, false)
  else
    group ← at_index (as_groups sel) (as_random sel 0%nat (Z.of_nat (List.length (as_groups sel))));
    account ← at_index (ag_members group) (as_random sel 1%nat (Z.of_nat (List.length (ag_members group))));
    Ok (chosen_account account, true).

(** The first index of a position, which the rotation's inner loop looks for. *)
Fixpoint position_index (i : Z) (positions : list Z) (position : Z) : option Z :=
  match positions with
  | [] => None
  | candidate :: rest => if candidate =? position then Some i else position_index (i + 1) rest position
  end.

(** One circle: [fuel] positions are left to try, the next of them at
    [start + offset]. *)
Fixpoint rotate (sel : AssignmentSelection) (start offset : Z) (fuel : nat) : choosing :=
  match fuel with
  | O => Ok (nobody_chosen, false)
  | S fuel' =>
      let position := Z.rem (start + offset) (as_candidate_count sel) in
      match position_index 0 (as_positions sel) position with
      | Some i =>
          account ← at_index (as_accounts sel) i;
          Ok (mkChoice account (Z.rem (position + 1) (as_candidate_count sel)) true, true)
      | None => rotate sel start (offset + 1) fuel'
      end
  end.

Definition round_robin_choose (sel : AssignmentSelection) : choosing :=
  if Nat.eqb (List.length (as_accounts sel)) 0 || (as_candidate_count sel =? 0) then Ok (nobody_chosen, false)
  else rotate sel (Z.rem (as_cursor sel) (as_candidate_count sel)) 0 (Z.to_nat (as_candidate_count sel)).

(** A missing key of a Go map reads as zero. *)
Definition load_of (open_items : gmap ID Z) (account : ID) : Z := default 0 (open_items !! account).

Definition lighter (open_items : gmap ID Z) (best : ID * Z) (account : ID) : ID * Z :=
  if load_of open_items account <? best.2 then (account, load_of open_items account) else best.

Definition least_loaded_choose (sel : AssignmentSelection) : choosing :=
  match as_accounts sel with
  | [] => Ok (nobody_chosen, false)
  | first :: rest =>
      let best := foldl (lighter (as_open_items sel)) (first, load_of (as_open_items sel) first) rest in
      Ok (chosen_account best.1, true)
  end.

Definition strategies : list (AutoAssignStrategy * (AssignmentSelection -> choosing)) :=
  [(AssignFixed, fixed_choose); (AssignRandomMember, random_member_choose);
   (AssignRandomGroupMember, random_group_member_choose); (AssignRoundRobin, round_robin_choose);
   (AssignLeastLoaded, least_loaded_choose)].

Fixpoint strategy_in (table : list (AutoAssignStrategy * (AssignmentSelection -> choosing))) (s : AutoAssignStrategy) :
    option (AssignmentSelection -> choosing) :=
  match table with
  | [] => None
  | (known, choose) :: rest => if String.eqb known s then Some choose else strategy_in rest s
  end.

Definition StrategyFor (s : AutoAssignStrategy) : res (AssignmentSelection -> choosing) :=
  match strategy_in strategies s with
  | Some choose => Ok choose
  | None => Err (detailed ErrInternal "items.auto_assign_strategy_unhandled" [("strategy", s)])
  end.

(** ** AutoAssignWorkItem.go: the pool and the draw *)

Section UseCase.

(** What the use case asks others: who can see the collection, the members of a
    group, which accounts are restricted ([None] when nobody watches them), the
    stored policy of a collection, and the open entries of accounts. *)
Context (CanSee : ID -> res bool) (Members : ID -> res (list ID))
  (Restricted : option (list ID -> res (gset ID)))
  (Lock : ID -> res AutoAssignPolicy) (CountOpenByAssignee : list ID -> res (gmap ID Z))
  (Random : nat -> Z -> Z).

Record eligiblePool := mkPool {
  po_strategy : AutoAssignStrategy;
  po_accounts : list ID;
  po_positions : list Z;
  po_eligible : gset ID;
  po_groups : list AssignmentGroup
}.

(** A group that is gone has no members. *)
Definition groupMembers (groupID : ID) : res (list ID) :=
  match Members groupID with
  | Ok found => Ok found
  | Err e => if is_not_found e then Ok [] else Err e
  | Panic => Panic
  end.

Definition keep_visible (seen : list ID) (member : ID) : res (list ID) :=
  visible ← CanSee member;
  Ok (if (visible : bool) then seen ++ [member] else seen).

(** One turn of the loop over the candidates: the pool so far, the accounts
    considered, the candidate's position. *)
Definition consider (state : eligiblePool * list ID * Z) (candidate : AutoAssignCandidate) :
    res (eligiblePool * list ID * Z) :=
  let '(pool, considered, position) := state in
  if String.eqb (ca_kind candidate) CandidateAccount then
    seen ← CanSee (ca_id candidate);
    if negb seen then Ok (pool, considered, position + 1)
    else Ok (mkPool (po_strategy pool) (po_accounts pool ++ [ca_id candidate]) (po_positions pool ++ [position])
               ({[ca_id candidate]} ∪ po_eligible pool) (po_groups pool),
             considered ++ [ca_id candidate], position + 1)
  else if String.eqb (ca_kind candidate) CandidateGroup then
    members ← groupMembers (ca_id candidate);
    seen ← fold_result keep_visible [] members;
    if Nat.eqb (List.length seen) 0 then Ok (pool, considered, position + 1)
    else Ok (mkPool (po_strategy pool) (po_accounts pool) (po_positions pool) (po_eligible pool)
               (po_groups pool ++ [mkGroup (ca_id candidate) seen]),
             considered ++ seen, position + 1)
  else Ok (pool, considered, position + 1).

Definition unrestricted (restricted : gset ID) (account : ID) : bool := negb (bool_decide (account ∈ restricted)).

Definition keep_account (restricted : gset ID) (kept : eligiblePool) (entry : ID * Z) : eligiblePool :=
  if negb (unrestricted restricted entry.1) then kept
  else mkPool (po_strategy kept) (po_accounts kept ++ [entry.1]) (po_positions kept ++ [entry.2])
         ({[entry.1]} ∪ po_eligible kept) (po_groups kept).

Definition keep_group (restricted : gset ID) (kept : eligiblePool) (group : AssignmentGroup) : eligiblePool :=
  let members := List.filter (unrestricted restricted) (ag_members group) in
  if Nat.eqb (List.length members) 0 then kept
  else mkPool (po_strategy kept) (po_accounts kept) (po_positions kept) (po_eligible kept)
         (po_groups kept ++ [mkGroup (ag_group group) members]).

Definition empty_pool (strategy : AutoAssignStrategy) : eligiblePool := mkPool strategy [] [] ∅ [].

Definition withoutRestricted (pool : eligiblePool) (considered : list ID) : res eligiblePool :=
  match Restricted with
  | None => Ok pool
  | Some ask =>
      if Nat.eqb (List.length considered) 0 then Ok pool
      else
        restricted ← ask considered;
        if Nat.eqb (size restricted) 0 then Ok pool
        else
          let kept := foldl (keep_account restricted) (empty_pool (po_strategy pool))
                        (combine (po_accounts pool) (po_positions pool)) in
          Ok (foldl (keep_group restricted) kept (po_groups pool))
  end.

Definition eligible (definition : AutoAssignDefinition) : res eligiblePool :=
  state ← fold_result consider (empty_pool (ad_strategy definition), [], 0) (ad_candidates definition);
  withoutRestricted state.1.1 state.1.2.

(** The rotation reads the candidates under the policy's lock and keeps those
    the pool found eligible. *)
Fixpoint locked_accounts (eligible_ : gset ID) (position : Z) (candidates : list AutoAssignCandidate) :
    list ID * list Z :=
  match candidates with
  | [] => ([], [])
  | candidate :: rest =>
      let '(accounts, positions) := locked_accounts eligible_ (position + 1) rest in
      if bool_decide (ca_id candidate ∈ eligible_) then (ca_id candidate :: accounts, position :: positions)
      else (accounts, positions)
  end.

Definition pool_selection (pool : eligiblePool) : AssignmentSelection :=
  mkSelection (po_accounts pool) (po_positions pool) (Z.of_nat (List.length (po_accounts pool))) 0 (po_groups pool)
    ∅ Random.

Definition locked_selection (pool : eligiblePool) (locked : AutoAssignPolicy) : AssignmentSelection :=
  let '(accounts, positions) := locked_accounts (po_eligible pool) 0 (ad_candidates (ap_definition locked)) in
  mkSelection accounts positions (Z.of_nat (List.length (ad_candidates (ap_definition locked)))) (ap_cursor locked)
    (po_groups pool) ∅ Random.

Definition loaded_selection (pool : eligiblePool) (load : gmap ID Z) : AssignmentSelection :=
  mkSelection (po_accounts pool) (po_positions pool) (Z.of_nat (List.length (po_accounts pool))) 0 (po_groups pool)
    load Random.

(** The choice, whether there is one, and the policy whose rotation it moves. *)
Definition choose (collection : ID) (pool : eligiblePool) :
    res (AssignmentChoice * bool * option AutoAssignPolicy) :=
  strategy ← StrategyFor (po_strategy pool);
  if String.eqb (po_strategy pool) AssignRoundRobin then
    match Lock collection with
    | Ok locked => r ← strategy (locked_selection pool locked); Ok (r.1, r.2, Some locked)
    | Err e => if is_not_found e then Ok (nobody_chosen, false, None) else Err e
    | Panic => Panic
    end
  else if String.eqb (po_strategy pool) AssignLeastLoaded then
    load ← CountOpenByAssignee (po_accounts pool);
    r ← strategy (loaded_selection pool load); Ok (r.1, r.2, None)
  else r ← strategy (pool_selection pool); Ok (r.1, r.2, None).

(** The state [apply] saves after a choice that moved the rotation. *)
Definition advance (locked : AutoAssignPolicy) (choice : AssignmentChoice) : AutoAssignPolicy :=
  if ch_advanced choice then
    mkPolicy (ap_scope_id locked) (ap_definition locked) (ch_next_cursor choice) (ap_version locked)
  else locked.

End UseCase.

(** ** Roll-ups *)

(** What the effect makes of the parent. *)
Definition settle (parentIsCompleted : bool) (effect : ParentEffect) : bool :=
  match effect with ParentUnchanged => parentIsCompleted | ParentComplete => true | ParentReopen => false end.

(** A roll-up settles: applied once, it has nothing left to do; under
    the roll-up policy a parent with children is completed afterwards exactly
    when all of them are, one without keeps what it had, and a parent under
    any other policy is never touched. *)
Theorem roll_up_settles policy parent total completed :
  let children := mkChildren total completed in
  let parent' := settle parent (RollUp policy parent children) in
  RollUp policy parent' children = ParentUnchanged /\
  (policy <> CompletionRollup -> parent' = parent) /\
  (policy = CompletionRollup -> 0 < total -> parent' = (total <=? completed)) /\
  (policy = CompletionRollup -> total = 0 -> completed = 0 -> parent' = parent).
Proof.
  intros children parent'. subst parent' children. unfold RollUp, RollsUp, AllCompleted, AnyOpen. cbn [cc_total cc_completed].
  destruct (String.eqb_spec policy CompletionRollup) as [->|Hp]; cbn [negb].
  2: { split; [done|]. split; [done|]. split; congruence. }
  destruct (Z.ltb_spec 0 total), (Z.leb_spec total completed), (Z.ltb_spec completed total), parent; cbn;
    repeat split; intros; try congruence; try lia.
Qed.

(** ** The definition's check *)

Lemma check_candidates_ok s cs : fold_result (check_candidate s) tt cs = Ok tt <->
  Forall (fun c => ca_id c <> "" /\ ca_kind c = candidateKind s) cs.
Proof.
  induction cs as [|c cs IH]; cbn [fold_result]; [by split|].
  rewrite Forall_cons, <- IH.
  destruct (check_candidate s tt c) as [[]| |] eqn:E; cbn; unfold check_candidate, id_is_zero in E;
    destruct (String.eqb_spec (ca_id c) ""), (String.eqb_spec (ca_kind c) (candidateKind s)); cbn in E;
    intuition congruence.
Qed.

Lemma validate_ok d : ValidateDefinition d = Ok tt <->
  StrategyValid (ad_strategy d) = true /\ ad_candidates d <> [] /\
  (ad_strategy d = AssignFixed -> List.length (ad_candidates d) = 1%nat) /\
  Forall (fun c => ca_id c <> "" /\ ca_kind c = candidateKind (ad_strategy d)) (ad_candidates d).
Proof.
  unfold ValidateDefinition. rewrite <- check_candidates_ok.
  destruct (StrategyValid _); cbn [negb]; [|intuition congruence].
  destruct (ad_candidates d) as [|c cs] eqn:E; cbn [List.length Nat.eqb]; [intuition congruence|].
  destruct (String.eqb_spec (ad_strategy d) AssignFixed) as [->|]; cbn [andb]; [|intuition congruence].
  destruct cs; cbn; [intuition congruence|]. split; [done|]. intros (_ & _ & H & _). by specialize (H eq_refl).
Qed.

(** ** The pool *)

Section Pool.
Context (CanSee : ID -> res bool) (Members : ID -> res (list ID)) (Restricted : option (list ID -> res (gset ID)))
  (bad : ID -> bool).

Definition sees (a : ID) : bool := match CanSee a with Ok b => b | _ => false end.
Definition fit (a : ID) : bool := sees a && negb (bad a).

(** The specification: the account candidates an account passes a test for,
    each with its position in the configured list, and the groups with the
    members that pass it, those left empty dropped. *)
Fixpoint fit_accounts (f : ID -> bool) (position : Z) (cs : list AutoAssignCandidate) : list (ID * Z) :=
  match cs with
  | [] => []
  | c :: rest =>
      (if String.eqb (ca_kind c) CandidateAccount && f (ca_id c) then [(ca_id c, position)] else []) ++
      fit_accounts f (position + 1) rest
  end.

Definition members_of (group : ID) : list ID := match groupMembers Members group with Ok l => l | _ => [] end.

Definition fit_group (f : ID -> bool) (group : ID) (members : list ID) : list AssignmentGroup :=
  match List.filter f members with [] => [] | some_ => [mkGroup group some_] end.

Definition fit_groups (f : ID -> bool) (cs : list AutoAssignCandidate) : list AssignmentGroup :=
  flat_map (fun c => if String.eqb (ca_kind c) CandidateGroup then fit_group f (ca_id c) (members_of (ca_id c)) else [])
    cs.

Lemma keep_visible_loop members seen out :
  fold_result (keep_visible CanSee) seen members = Ok out -> out = seen ++ List.filter sees members.
Proof.
  revert seen. induction members as [|m ms IH]; cbn; intros seen H; [rewrite app_nil_r; congruence|].
  destruct (keep_visible CanSee seen m) as [s1| |] eqn:E; [|done|done]. cbn in H. apply IH in H. subst.
  unfold keep_visible in E. unfold sees at 2. destruct (CanSee m) as [[]| |]; [| |done|done]; injection E as <-;
    [by rewrite <- app_assoc|done].
Qed.

Definition pool_is (pool : eligiblePool) (accounts : list (ID * Z)) (groups : list AssignmentGroup) : Prop :=
  po_accounts pool = accounts.*1 /\ po_positions pool = accounts.*2 /\ po_groups pool = groups /\
  (forall a, a ∈ po_eligible pool <-> a ∈ accounts.*1).

Definition covers (considered : list ID) (accounts : list (ID * Z)) (groups : list AssignmentGroup) : Prop :=
  (forall a, a ∈ accounts.*1 -> a ∈ considered) /\
  (forall g, g ∈ groups -> forall a, a ∈ ag_members g -> a ∈ considered).

Lemma consider_step pool considered position c pool' considered' position' accounts groups :
  consider CanSee Members (pool, considered, position) c = Ok (pool', considered', position') ->
  pool_is pool accounts groups -> covers considered accounts groups ->
  let accounts' := accounts ++ fit_accounts sees position [c] in
  let groups' := groups ++ fit_groups sees [c] in
  pool_is pool' accounts' groups' /\ covers considered' accounts' groups' /\ position' = position + 1 /\
  po_strategy pool' = po_strategy pool.
Proof.
  intros H (Ha & Hp & Hg & He) [Hc1 Hc2]. cbn. unfold pool_is, covers. rewrite !app_nil_r. unfold consider in H.
  destruct (String.eqb_spec (ca_kind c) CandidateAccount) as [Hk|Hk].
  - rewrite Hk. cbn [String.eqb andb]. replace (String.eqb CandidateAccount CandidateGroup) with false by done.
    unfold sees. destruct (CanSee (ca_id c)) as [[]| |]; cbn in H; try done; injection H as <- <- <-; cbn.
    + rewrite !fmap_app, app_nil_r. cbn. rewrite Ha, Hp, Hg. split; [|split; [|done]].
      * repeat split; try done; intros Hin; set_unfold in Hin; set_unfold; naive_solver.
      * split; [intros a Hin; set_unfold in Hin; set_unfold; naive_solver|].
        intros g Hin a Hm. apply elem_of_app. left. by eapply Hc2.
    + by rewrite !app_nil_r.
  - destruct (String.eqb_spec (ca_kind c) CandidateGroup) as [Hk'|Hk'].
    + cbn [andb]. unfold members_of. destruct (groupMembers Members (ca_id c)) as [ms| |]; cbn in H; try done.
      destruct (fold_result (keep_visible CanSee) [] ms) as [seen| |] eqn:Es; cbn in H; try done.
      apply keep_visible_loop in Es. cbn in Es. unfold fit_group. rewrite <- Es.
      destruct seen as [|m seen]; cbn in H; injection H as <- <- <-; cbn; rewrite !app_nil_r; [done|].
      rewrite Hg. split; [done|]. split; [|done]. split; [intros a Hin; apply elem_of_app; left; eauto|].
      intros g Hin a Hm. apply elem_of_app in Hin as [Hin|Hin].
      * apply elem_of_app. left. by eapply Hc2.
      * apply list_elem_of_singleton in Hin as ->. apply elem_of_app. by right.
    + injection H as <- <- <-. cbn. by rewrite !app_nil_r.
Qed.

Lemma consider_loop cs pool considered position pool' considered' position' accounts groups :
  fold_result (consider CanSee Members) (pool, considered, position) cs = Ok (pool', considered', position') ->
  pool_is pool accounts groups -> covers considered accounts groups ->
  pool_is pool' (accounts ++ fit_accounts sees position cs) (groups ++ fit_groups sees cs) /\
  covers considered' (accounts ++ fit_accounts sees position cs) (groups ++ fit_groups sees cs) /\
  po_strategy pool' = po_strategy pool.
Proof.
  revert pool considered position accounts groups.
  induction cs as [|c cs IH]; intros pool considered position accounts groups H Hpool Hcov.
  - cbn in *. injection H as <- <- <-. by rewrite !app_nil_r.
  - cbn [fold_result] in H.
    destruct (consider CanSee Members (pool, considered, position) c) as [[[p1 c1] n1]| |] eqn:E; try done. cbn in H.
    destruct (consider_step _ _ _ _ _ _ _ _ _ E Hpool Hcov) as (Hp1 & Hc1 & -> & Hs1).
    destruct (IH _ _ _ _ _ H Hp1 Hc1) as (Hp & Hc & Hs). rewrite <- !app_assoc in Hp, Hc.
    cbn [fit_accounts fit_groups flat_map] in Hp, Hc |- *. rewrite !app_nil_r in Hp, Hc. rewrite Hs, Hs1. done.
Qed.

Lemma keep_account_loop r entries pool accounts groups :
  pool_is pool accounts groups ->
  let pool' := foldl (keep_account r) pool entries in
  pool_is pool' (accounts ++ List.filter (fun e => unrestricted r e.1) entries) groups /\
  po_strategy pool' = po_strategy pool.
Proof.
  revert pool accounts. induction entries as [|e entries IH]; intros pool accounts Hp; cbn; [by rewrite app_nil_r|].
  unfold keep_account at 2 4. destruct (unrestricted r e.1); cbn [negb]; [|by apply IH].
  destruct Hp as (Ha & Hpos & Hg & He).
  destruct (IH (mkPool (po_strategy pool) (po_accounts pool ++ [e.1]) (po_positions pool ++ [e.2])
    ({[e.1]} ∪ po_eligible pool) (po_groups pool)) (accounts ++ [e])) as [IH1 IH2].
  - repeat split; cbn; rewrite ?fmap_app, ?Ha, ?Hpos; try done; intros Hin; set_unfold in Hin; set_unfold; naive_solver.
  - split; [|done]. by rewrite <- app_assoc in IH1.
Qed.

Lemma keep_group_loop r gs pool accounts groups :
  pool_is pool accounts groups ->
  let pool' := foldl (keep_group r) pool gs in
  pool_is pool' accounts
    (groups ++ flat_map (fun g => fit_group (unrestricted r) (ag_group g) (ag_members g)) gs) /\
  po_strategy pool' = po_strategy pool.
Proof.
  revert pool groups. induction gs as [|g gs IH]; intros pool groups Hp; cbn; [by rewrite app_nil_r|].
  unfold keep_group at 2 4, fit_group at 1. destruct (List.filter _ (ag_members g)) as [|m ms]; cbn; [by apply IH|].
  destruct Hp as (Ha & Hpos & Hg & He).
  destruct (IH (mkPool (po_strategy pool) (po_accounts pool) (po_positions pool) (po_eligible pool)
    (po_groups pool ++ [mkGroup (ag_group g) (m :: ms)])) (groups ++ [mkGroup (ag_group g) (m :: ms)])) as [IH1 IH2].
  - repeat split; cbn; rewrite ?Hg; try done; apply He.
  - split; [|done]. by rewrite <- app_assoc in IH1.
Qed.

Lemma filter_filter_and {A} (f g : A -> bool) l :
  List.filter g (List.filter f l) = List.filter (fun x => f x && g x) l.
Proof.
  induction l as [|x l IH]; cbn; [done|]. destruct (f x); cbn; [|done]. by rewrite IH.
Qed.

Lemma fit_accounts_filter f g position cs :
  List.filter (fun e => g e.1) (fit_accounts f position cs) = fit_accounts (fun a => f a && g a) position cs.
Proof.
  revert position. induction cs as [|c cs IH]; intros position; cbn [fit_accounts]; [done|].
  rewrite List.filter_app, IH. f_equal.
  destruct (String.eqb (ca_kind c) CandidateAccount), (f (ca_id c)); cbn; try done.
Qed.

Lemma fit_groups_filter f g cs :
  flat_map (fun x => fit_group g (ag_group x) (ag_members x)) (fit_groups f cs) = fit_groups (fun a => f a && g a) cs.
Proof.
  induction cs as [|c cs IH]; cbn [fit_groups flat_map]; [done|]. fold (fit_groups f cs). rewrite flat_map_app, IH.
  fold (fit_groups (fun a => f a && g a) cs). f_equal.
  destruct (String.eqb (ca_kind c) CandidateGroup); [|done]. unfold fit_group at 2 3.
  rewrite <- filter_filter_and. destruct (List.filter f _) as [|m ms]; [done|].
  cbn [flat_map ag_group ag_members]. by rewrite app_nil_r.
Qed.

Lemma fit_accounts_ext f g position cs :
  (forall a, a ∈ (fit_accounts f position cs).*1 -> g a = true) ->
  fit_accounts (fun a => f a && g a) position cs = fit_accounts f position cs.
Proof.
  intros H. rewrite <- fit_accounts_filter. revert H.
  induction (fit_accounts f position cs) as [|e l IH]; intros H; [done|]. cbn. rewrite H by by left.
  f_equal. apply IH. intros a Ha. apply H. by right.
Qed.

Lemma filter_ext_elem {A} (f g : A -> bool) l : (forall x, x ∈ l -> f x = g x) -> List.filter f l = List.filter g l.
Proof.
  induction l as [|x l IH]; intros H; cbn; [done|]. rewrite H by by left. rewrite IH; [done|].
  intros y Hy. apply H. by right.
Qed.

(** Tests that agree wherever an account passed the first one fit the same. *)
Lemma fit_agree f g h cs :
  (forall a, a ∈ (fit_accounts f 0 cs).*1 -> g a = h a) ->
  (forall x, x ∈ fit_groups f cs -> forall a, a ∈ ag_members x -> g a = h a) ->
  fit_accounts (fun a => f a && g a) 0 cs = fit_accounts (fun a => f a && h a) 0 cs /\
  fit_groups (fun a => f a && g a) cs = fit_groups (fun a => f a && h a) cs.
Proof.
  intros Ha Hg. rewrite <- !fit_accounts_filter, <- !fit_groups_filter. split.
  - apply filter_ext_elem. intros e He. apply Ha. by apply list_elem_of_fmap_2.
  - revert Hg. induction (fit_groups f cs) as [|x l IH]; intros Hg; cbn; [done|]. f_equal.
    + unfold fit_group. rewrite (filter_ext_elem g h); [done|]. intros a Hin. eapply Hg; [by left|done].
    + apply IH. intros y Hy. apply Hg. by right.
Qed.

Lemma combine_fsts_snds {A B} (l : list (A * B)) : combine l.*1 l.*2 = l.
Proof. induction l as [|[a b] l IH]; cbn; [done|]. by rewrite IH. Qed.

(** What the account store answers: of those asked about, the restricted ones. *)
Context (Hrestricted :
  match Restricted with
  | Some ask => forall l r, ask l = Ok r -> forall a, a ∈ r <-> a ∈ l /\ bad a = true
  | None => forall a, bad a = false
  end).

Lemma eligible_is d pool :
  eligible CanSee Members Restricted d = Ok pool ->
  pool_is pool (fit_accounts fit 0 (ad_candidates d)) (fit_groups fit (ad_candidates d)) /\
  po_strategy pool = ad_strategy d.
Proof.
  unfold eligible. intros H. apply bind_ok in H as [[[p1 cons] n1] [Hloop H]]. cbn in H.
  destruct (consider_loop _ _ _ _ _ _ _ [] [] Hloop) as (Hp & [Hc1 Hc2] & Hs).
  { repeat split; cbn; try done; intros Hin; set_unfold in Hin; done. }
  { split; cbn; [done|]. by intros g Hin%elem_of_nil. }
  cbn [app] in Hp, Hc1, Hc2, Hs. cbn [po_strategy empty_pool] in Hs. unfold fit.
  set (cs := ad_candidates d) in *.
  assert (Hsame : forall test, (forall a, a ∈ cons -> test a = negb (bad a)) ->
    fit_accounts (fun a => sees a && negb (bad a)) 0 cs = fit_accounts (fun a => sees a && test a) 0 cs /\
    fit_groups (fun a => sees a && negb (bad a)) cs = fit_groups (fun a => sees a && test a) cs).
  { intros test Ht. destruct (fit_agree sees test (fun a => negb (bad a)) cs) as [-> ->]; [| |done].
    - intros a Ha. apply Ht. by apply Hc1.
    - intros x Hx a Ha. apply Ht. by eapply Hc2. }
  assert (Hall : (forall a, a ∈ cons -> bad a = false) -> p1 = pool ->
    pool_is pool (fit_accounts (fun a => sees a && negb (bad a)) 0 cs)
      (fit_groups (fun a => sees a && negb (bad a)) cs) /\ po_strategy pool = ad_strategy d).
  { intros Hb <-. destruct (Hsame (fun _ => true)) as [-> ->]; [intros a Ha; by rewrite Hb|].
    split; [|done]. rewrite (fit_accounts_ext sees (fun _ => true)) by done.
    replace (fit_groups (fun a => sees a && true) cs) with (fit_groups sees cs); [done|].
    unfold fit_groups. apply flat_map_ext. intros c. unfold fit_group.
    by rewrite (filter_ext_elem sees (fun a => sees a && true)) by (intros; by rewrite andb_true_r). }
  unfold withoutRestricted in H. destruct Restricted as [ask|].
  - destruct cons as [|a0 cons'] eqn:Ecs; cbn [List.length Nat.eqb] in H.
    { injection H as H. apply Hall; [|done]. by intros a Ha%elem_of_nil. }
    apply bind_ok in H as [r [Hask H]]. pose proof (Hrestricted _ _ Hask) as Hr.
    destruct (Nat.eqb_spec (size r) 0) as [Hz|_].
    + injection H as H. apply Hall; [|done]. intros a Ha. apply size_empty_inv in Hz.
      destruct (bad a) eqn:Eb; [|done]. exfalso. apply (not_elem_of_empty (C := gset ID) a).
      apply Hz. by apply Hr.
    + injection H as H. destruct Hp as (Hp1 & Hp2 & Hp3 & Hp4).
      rewrite Hp1, Hp2, combine_fsts_snds, Hp3 in H.
      destruct (keep_account_loop r (fit_accounts sees 0 cs) (empty_pool (po_strategy p1)) [] []) as [Hk Hks].
      { repeat split; cbn; try done; intros Hin; set_unfold in Hin; done. }
      destruct (keep_group_loop r (fit_groups sees cs) _ _ _ Hk) as [Hk' Hks'].
      rewrite H in Hk', Hks'. cbn [app] in Hk'.
      rewrite (fit_accounts_filter sees (unrestricted r)) in Hk'. rewrite fit_groups_filter in Hk'.
      destruct (Hsame (unrestricted r)) as [-> ->].
      { intros a Ha. unfold unrestricted. f_equal. apply Bool.eq_iff_eq_true. rewrite bool_decide_eq_true, Hr. intuition. }
      split; [exact Hk'|]. rewrite Hks', Hks. exact Hs.
  - injection H as H. apply Hall; [|done]. intros a _. apply Hrestricted.
Qed.

End Pool.

(** ** One draw *)

Lemma position_index_spec ps p i :
  match position_index i ps p with
  | Some j => i <= j /\ ps !! Z.to_nat (j - i) = Some p
  | None => p ∉ ps
  end.
Proof.
  revert i. induction ps as [|q ps IH]; intros i; cbn; [by intros H%elem_of_nil|].
  destruct (Z.eqb_spec q p) as [->|Hne].
  - split; [lia|]. by rewrite Z.sub_diag.
  - specialize (IH (i + 1)). destruct (position_index (i + 1) ps p) as [j|].
    + destruct IH as [H1 H2]. split; [lia|]. by replace (Z.to_nat (j - i)) with (S (Z.to_nat (j - (i + 1)))) by lia.
    + rewrite elem_of_cons. intuition congruence.
Qed.

(** The account at a position of the selection. *)
Definition stands_at (sel : AssignmentSelection) (p : Z) (account : ID) : Prop :=
  exists i, as_positions sel !! i = Some p /\ as_accounts sel !! i = Some account.

(** The rotation takes the first position from [start + offset] on that is
    among the selection's, wherever one is within [fuel] steps. *)
Lemma rotate_spec sel start fuel offset
  (Hlen : List.length (as_accounts sel) = List.length (as_positions sel))
  (Hn : 0 < as_candidate_count sel) (Hs : 0 <= start) (Ho : 0 <= offset) :
  let at_ k := (start + offset + k) mod as_candidate_count sel in
  (exists k account, 0 <= k < Z.of_nat fuel /\ stands_at sel (at_ k) account /\
     (forall k', 0 <= k' < k -> at_ k' ∉ as_positions sel) /\
     rotate sel start offset fuel = Ok (mkChoice account ((at_ k + 1) mod as_candidate_count sel) true, true)) \/
  ((forall k, 0 <= k < Z.of_nat fuel -> at_ k ∉ as_positions sel) /\
   rotate sel start offset fuel = Ok (nobody_chosen, false)).
Proof.
  revert offset Ho. induction fuel as [|fuel IH]; intros offset Ho at_; [right; split; [lia|done]|].
  cbn [rotate]. rewrite Z.rem_mod_nonneg by lia. set (p := (start + offset) mod as_candidate_count sel).
  assert (Hat0 : at_ 0 = p) by (unfold at_; by rewrite Z.add_0_r).
  pose proof (Z.mod_pos_bound (start + offset) (as_candidate_count sel) Hn) as Hp. fold p in Hp.
  pose proof (position_index_spec (as_positions sel) p 0) as Hidx.
  destruct (position_index 0 (as_positions sel) p) as [j|].
  - destruct Hidx as [Hj Hjp]. rewrite Z.sub_0_r in Hjp. left.
    destruct (lookup_lt_is_Some_2 (as_accounts sel) (Z.to_nat j)) as [account Ha].
    { rewrite Hlen. by eapply lookup_lt_Some. }
    exists 0, account. split; [lia|]. rewrite Hat0. split; [by exists (Z.to_nat j)|]. split; [lia|].
    rewrite (proj2 (at_index_ok _ _ account)) by done. cbn. by rewrite Z.rem_mod_nonneg by lia.
  - assert (Hshift : forall k, (start + (offset + 1) + k) mod as_candidate_count sel = at_ (k + 1))
      by (intros k; unfold at_; f_equal; lia).
    destruct (IH (offset + 1) ltac:(lia)) as [(k & account & Hk & Hst & Hbefore & Hr)|[Hnone Hr]].
    + left. rewrite Hshift in Hst, Hr. exists (k + 1), account. split; [lia|]. split; [done|]. split; [|done].
      intros k' Hk'. destruct (decide (k' = 0)) as [->|Hne]; [by rewrite Hat0|].
      replace k' with ((k' - 1) + 1) by lia. rewrite <- Hshift. apply Hbefore. lia.
    + right. split; [|done]. intros k Hk. destruct (decide (k = 0)) as [->|Hne]; [by rewrite Hat0|].
      replace k with ((k - 1) + 1) by lia. rewrite <- Hshift. apply Hnone. lia.
Qed.

(** How far a position is ahead of the cursor, round the circle. *)
Definition ahead (n cursor p : Z) : Z := (p - cursor) mod n.

Lemma ahead_back n cursor p : 0 < n -> 0 <= cursor -> 0 <= p < n -> (Z.rem cursor n + 0 + ahead n cursor p) mod n = p.
Proof.
  intros Hn Hc Hp. unfold ahead. rewrite Z.rem_mod_nonneg, Z.add_0_r by lia.
  rewrite <- Z.add_mod by lia. replace (cursor + (p - cursor)) with p by lia. apply Z.mod_small. lia.
Qed.

Lemma ahead_of n cursor k : 0 < n -> 0 <= cursor -> 0 <= k < n -> ahead n cursor ((Z.rem cursor n + 0 + k) mod n) = k.
Proof.
  intros Hn Hc Hk. unfold ahead. rewrite Z.rem_mod_nonneg, Z.add_0_r by lia.
  rewrite Z.add_mod_idemp_l, Zminus_mod_idemp_l by lia. replace (cursor + k - cursor) with k by lia.
  apply Z.mod_small. lia.
Qed.

(** A selection as the use case builds it. *)
Record selection_ok (sel : AssignmentSelection) : Prop := {
  so_random : RandomLaw (as_random sel);
  so_length : List.length (as_accounts sel) = List.length (as_positions sel);
  so_groups : Forall (fun g => ag_members g <> []) (as_groups sel);
  so_cursor : 0 <= as_cursor sel
}.

(** The rotation picks the position that is least far ahead of the cursor, and
    leaves the cursor just past it. *)
Lemma round_robin_spec sel (Hok : selection_ok sel) :
  let n := as_candidate_count sel in
  (exists p account, 0 <= p < n /\ stands_at sel p account /\
     (forall q, 0 <= q < n -> q ∈ as_positions sel -> ahead n (as_cursor sel) p <= ahead n (as_cursor sel) q) /\
     round_robin_choose sel = Ok (mkChoice account ((p + 1) mod n) true, true)) \/
  ((as_accounts sel = [] \/ forall q, 0 <= q < n -> q ∉ as_positions sel) /\
   round_robin_choose sel = Ok (nobody_chosen, false)).
Proof.
  intros n. unfold round_robin_choose. destruct (as_accounts sel) as [|a0 rest] eqn:Ea; [by right; split; [left|]|].
  cbn [List.length Nat.eqb orb]. fold n. destruct (Z.eqb_spec n 0) as [Hn0|Hn0]; [right; split; [right; lia|done]|].
  destruct (Z.ltb_spec 0 n) as [Hn|Hn].
  2: { right. split; [right; lia|]. by replace (Z.to_nat n) with O by lia. }
  pose proof (so_cursor _ Hok) as Hc.
  assert (Hstart : 0 <= Z.rem (as_cursor sel) n) by (apply Z.rem_nonneg; lia).
  destruct (rotate_spec sel (Z.rem (as_cursor sel) n) (Z.to_nat n) 0 (so_length _ Hok) Hn Hstart ltac:(lia))
    as [(k & account & Hk & Hst & Hbefore & Hr)|[Hnone Hr]]; fold n in Hr.
  - left. fold n in Hst, Hbefore. rewrite Z2Nat.id in Hk by lia.
    exists ((Z.rem (as_cursor sel) n + 0 + k) mod n), account.
    split; [apply Z.mod_pos_bound; lia|]. split; [done|]. split; [|done]. intros q Hq Hin.
    rewrite ahead_of by lia. destruct (Z.le_gt_cases k (ahead n (as_cursor sel) q)) as [|Hlt]; [done|].
    exfalso. apply (Hbefore (ahead n (as_cursor sel) q)); [|by rewrite ahead_back by lia].
    split; [apply Z.mod_pos_bound; lia|lia].
  - right. split; [|done]. right. intros q Hq Hin. apply (Hnone (ahead n (as_cursor sel) q)).
    + rewrite Z2Nat.id by lia. apply Z.mod_pos_bound. lia.
    + fold n. by rewrite ahead_back by lia.
Qed.

(** The least loaded account: no later one carries less, and every earlier one
    carries more. *)
Definition lightest (load : gmap ID Z) (accounts : list ID) (account : ID) : Prop :=
  exists before after, accounts = before ++ account :: after /\
    Forall (fun a => load_of load account < load_of load a) before /\
    Forall (fun a => load_of load account <= load_of load a) after.

Lemma lighter_loop load rest best :
  best.2 = load_of load best.1 ->
  let best' := foldl (lighter load) best rest in
  best'.2 = load_of load best'.1 /\
  ((best' = best /\ Forall (fun a => load_of load best.1 <= load_of load a) rest) \/
   (load_of load best'.1 < load_of load best.1 /\ lightest load rest best'.1)).
Proof.
  revert best. induction rest as [|a rest IH]; intros best Hb; cbn [foldl]; [by split; [|left; split]|].
  assert (Hb' : (lighter load best a).2 = load_of load (lighter load best a).1).
  { unfold lighter. by destruct (_ <? _). }
  destruct (IH _ Hb') as [Hr Hcase]. split; [done|]. clear IH Hb'.
  destruct (foldl (lighter load) (lighter load best a) rest) as [b l]. cbn [fst snd] in *. subst l.
  unfold lighter in Hcase. rewrite Hb in Hcase.
  destruct (Z.ltb_spec (load_of load a) (load_of load best.1)) as [Hlt|Hge]; cbn [fst] in Hcase.
  - right. destruct Hcase as [[[= ->] Hall]|[Hless (bf & af & Hrest & Hbf & Haf)]].
    + split; [lia|]. exists [], rest. by split; [|split].
    + split; [lia|]. exists (a :: bf), af. rewrite Hrest. split; [done|]. split; [constructor; [lia|done]|done].
  - destruct Hcase as [[Heq Hall]|[Hless (bf & af & Hrest & Hbf & Haf)]].
    + left. split; [done|]. by constructor.
    + right. split; [done|]. exists (a :: bf), af. rewrite Hrest. split; [done|]. split; [constructor; [lia|done]|done].
Qed.

Lemma least_loaded_spec sel :
  (as_accounts sel = [] /\ least_loaded_choose sel = Ok (nobody_chosen, false)) \/
  exists account, lightest (as_open_items sel) (as_accounts sel) account /\
    least_loaded_choose sel = Ok (chosen_account account, true).
Proof.
  unfold least_loaded_choose. destruct (as_accounts sel) as [|a rest]; [by left|right].
  destruct (lighter_loop (as_open_items sel) rest (a, load_of (as_open_items sel) a) eq_refl)
    as [_ [[-> Hall]|[Hless (bf & af & Hrest & Hbf & Haf)]]]; (eexists; split; [|done]); cbn [fst] in *.
  - exists [], rest. by split; [|split].
  - exists (a :: bf), af. rewrite Hrest at 1. split; [done|]. split; [by constructor|done].
Qed.

(** Whom a strategy can fall on. *)
Definition drawable (s : AutoAssignStrategy) (sel : AssignmentSelection) : list ID :=
  if String.eqb s AssignRandomGroupMember then flat_map ag_members (as_groups sel) else as_accounts sel.

Lemma random_index {A} (IntN : nat -> Z -> Z) `{!RandomLaw IntN} k (xs : list A) :
  xs <> [] -> exists x, at_index (E := Error) xs (IntN k (Z.of_nat (List.length xs))) = Ok x /\ x ∈ xs.
Proof. intros Hx. apply at_index_in, draw_in_range. destruct xs; [done|cbn; lia]. Qed.

(** Every strategy answers on a selection the use case builds, and with an
    account it may fall on; it answers nobody when there is none - or, for the
    rotation, when none of them stands in the configured list. *)
Lemma draw_spec s strategy sel (Hs : StrategyFor s = Ok strategy) (Hok : selection_ok sel) :
  exists choice chosen, strategy sel = Ok (choice, chosen) /\
    (chosen = true -> ch_account choice ∈ drawable s sel) /\
    (chosen = false -> drawable s sel = [] \/
       (s = AssignRoundRobin /\ forall q, 0 <= q < as_candidate_count sel -> q ∉ as_positions sel)).
Proof.
  pose proof (so_random _ Hok) as Hrandom. unfold StrategyFor, strategies, strategy_in in Hs. unfold drawable.
  repeat match type of Hs with context [String.eqb ?known s] => destruct (String.eqb_spec known s) as [<-|] end;
    cbn in Hs; [..|done]; injection Hs as <-; cbn [String.eqb].
  - unfold fixed_choose. cbn. destruct (as_accounts sel) as [|a rest]; cbn; eexists _, _; (split; [done|]); split;
      try done; [by left|by left].
  - unfold random_member_choose. cbn. destruct (as_accounts sel) as [|a rest] eqn:Ea; cbn [List.length Nat.eqb].
    { eexists _, _. split; [done|]. by split; [|left]. }
    destruct (random_index (as_random sel) 0 (a :: rest)) as (x & Hx & Hin); [done|]. cbn [List.length] in Hx.
    rewrite Hx. eexists _, _. split; [done|]. by split.
  - unfold random_group_member_choose. cbn. destruct (as_groups sel) as [|g gs] eqn:Eg; cbn [List.length Nat.eqb].
    { eexists _, _. split; [done|]. by split; [|left]. }
    destruct (random_index (as_random sel) 0 (g :: gs)) as (x & Hx & Hin); [done|]. cbn [List.length] in Hx.
    rewrite Hx. cbn. pose proof (so_groups _ Hok) as Hg. rewrite Eg, Forall_forall in Hg.
    destruct (random_index (as_random sel) 1 (ag_members x)) as (y & Hy & Hyin); [by apply Hg|]. rewrite Hy.
    eexists _, _. split; [done|]. split; [|done]. intros _. cbn. rewrite list_elem_of_In.
    change (ag_members g ++ flat_map ag_members gs) with (flat_map ag_members (g :: gs)).
    apply in_flat_map. exists x. by rewrite <- !list_elem_of_In.
  - cbn. destruct (round_robin_spec sel Hok) as [(p & account & Hp & (i & _ & Hi) & _ & ->)|[Hnone ->]];
      eexists _, _; (split; [done|]); split; try done.
    + intros _. by eapply list_elem_of_lookup_2.
    + intros _. destruct Hnone as [->|H]; [by left|by right].
  - cbn. destruct (least_loaded_spec sel) as [[-> ->]|(account & (bf & af & -> & _) & ->)];
      eexists _, _; (split; [done|]); split; try done; [by left|].
    intros _. cbn. apply elem_of_app. right. by left.
Qed.

Lemma locked_accounts_spec E_ cs p0 :
  let '(accounts, positions) := locked_accounts E_ p0 cs in
  List.length accounts = List.length positions /\
  (forall i p, positions !! i = Some p -> exists c, p0 <= p /\ cs !! Z.to_nat (p - p0) = Some c /\ ca_id c ∈ E_ /\
     accounts !! i = Some (ca_id c)) /\
  (forall k c, cs !! k = Some c -> ca_id c ∈ E_ -> p0 + Z.of_nat k ∈ positions).
Proof.
  revert p0. induction cs as [|c cs IH]; intros p0; cbn [locked_accounts]; [by repeat split|].
  specialize (IH (p0 + 1)). destruct (locked_accounts E_ (p0 + 1) cs) as [accounts positions].
  destruct IH as (Hlen & Hat & Hin).
  assert (Hat' : forall i p, positions !! i = Some p -> exists c0, p0 <= p /\ (c :: cs) !! Z.to_nat (p - p0) = Some c0 /\
    ca_id c0 ∈ E_ /\ accounts !! i = Some (ca_id c0)).
  { intros i p Hp. destruct (Hat i p Hp) as (c0 & Hle & Hc & He & Ha). exists c0. split; [lia|].
    by replace (Z.to_nat (p - p0)) with (S (Z.to_nat (p - (p0 + 1)))) by lia. }
  case_bool_decide as Hc; cbn [List.length].
  - split; [by rewrite Hlen|]. split.
    + intros [|i] p Hp; [|by apply Hat']. injection Hp as <-. exists c. by rewrite Z.sub_diag.
    + intros [|k] c0 Hk He; [rewrite Z.add_0_r; by left|]. right.
      replace (p0 + Z.of_nat (S k)) with ((p0 + 1) + Z.of_nat k) by lia. by eapply Hin.
  - split; [done|]. split; [done|]. intros [|k] c0 Hk He; [by injection Hk as ->|].
    replace (p0 + Z.of_nat (S k)) with ((p0 + 1) + Z.of_nat k) by lia. by eapply Hin.
Qed.

Lemma strategy_known s : StrategyValid s = true -> exists strategy, StrategyFor s = Ok strategy.
Proof.
  unfold StrategyValid, AutoAssignStrategies, StrategyFor, strategies. cbn [existsb strategy_in]. intros H.
  repeat match goal with |- context [String.eqb ?known s] => destruct (String.eqb known s); [by eexists|] end. done.
Qed.

Section Draws.
Context (CanSee : ID -> res bool) (Members : ID -> res (list ID)) (Restricted : option (list ID -> res (gset ID)))
  (bad : ID -> bool) (Lock : ID -> res AutoAssignPolicy) (CountOpenByAssignee : list ID -> res (gmap ID Z))
  (Random : nat -> Z -> Z).

Definition restricted_law : Prop :=
  match Restricted with
  | Some ask => forall l r, ask l = Ok r -> forall a, a ∈ r <-> a ∈ l /\ bad a = true
  | None => forall a, bad a = false
  end.

Lemma fit_groups_members f cs g : g ∈ fit_groups Members f cs ->
  ag_members g <> [] /\ Forall (fun a => f a = true) (ag_members g).
Proof.
  unfold fit_groups. rewrite list_elem_of_In, in_flat_map. intros (c & _ & Hg).
  destruct (String.eqb (ca_kind c) CandidateGroup); [|done]. unfold fit_group in Hg.
  destruct (List.filter f _) as [|m ms] eqn:Ef; [done|]. destruct Hg as [<-|[]]. split; [done|]. cbn.
  rewrite <- Ef. apply Forall_forall. intros a Ha. rewrite list_elem_of_In, filter_In in Ha. by destruct Ha.
Qed.

Lemma fit_accounts_fit f p cs a : a ∈ (fit_accounts f p cs).*1 -> f a = true.
Proof.
  revert p. induction cs as [|c cs IH]; cbn; intros p Ha; [by apply elem_of_nil in Ha|].
  rewrite fmap_app in Ha. apply elem_of_app in Ha as [Ha|Ha]; [|by eapply IH].
  destruct (String.eqb (ca_kind c) CandidateAccount), (f (ca_id c)) eqn:Ef; cbn in Ha; try by apply elem_of_nil in Ha.
  by apply list_elem_of_singleton in Ha as ->.
Qed.

Lemma pool_facts d pool (Hlaw : restricted_law) (Hpool : eligible CanSee Members Restricted d = Ok pool) :
  po_strategy pool = ad_strategy d /\
  (forall a, a ∈ po_eligible pool <-> a ∈ po_accounts pool) /\
  Forall (fun a => fit CanSee bad a = true) (po_accounts pool) /\
  Forall (fun g => ag_members g <> [] /\ Forall (fun a => fit CanSee bad a = true) (ag_members g)) (po_groups pool).
Proof.
  destruct (eligible_is CanSee Members Restricted bad Hlaw d pool Hpool) as [(Ha & Hp & Hg & He) Hs].
  rewrite Ha, Hg. repeat split; try done; try apply He.
  - apply Forall_forall. intros a. apply fit_accounts_fit.
  - apply Forall_forall. intros g. apply fit_groups_members.
Qed.

(** The pool a draw is made from is the configured one cut down to
    those it may fall on: the account candidates who see the collection and
    are not restricted, in the configured order and with their configured
    positions, and the groups with their members that pass, an emptied group
    being dropped from the draw. *)
Theorem auto_assign_pool d pool (Hlaw : restricted_law) (Hpool : eligible CanSee Members Restricted d = Ok pool) :
  let may := fit CanSee bad in
  po_strategy pool = ad_strategy d /\
  po_accounts pool = (fit_accounts may 0 (ad_candidates d)).*1 /\
  po_positions pool = (fit_accounts may 0 (ad_candidates d)).*2 /\
  po_groups pool = fit_groups Members may (ad_candidates d) /\
  (forall a, a ∈ po_eligible pool <-> a ∈ po_accounts pool) /\
  Forall (fun a => may a = true) (po_accounts pool) /\
  Forall (fun g => ag_members g <> [] /\ Forall (fun a => may a = true) (ag_members g)) (po_groups pool).
Proof.
  intros may. destruct (eligible_is CanSee Members Restricted bad Hlaw d pool Hpool) as [(Ha & Hp & Hg & _) _].
  destruct (pool_facts d pool Hlaw Hpool) as (Hs & He & Hfa & Hfg). by repeat split; try apply He.
Qed.

Lemma eligible_selections d pool (Hlaw : restricted_law) (Hrandom : RandomLaw Random)
  (Hpool : eligible CanSee Members Restricted d = Ok pool) :
  selection_ok (pool_selection Random pool) /\
  (forall load, selection_ok (loaded_selection Random pool load)) /\
  (forall locked, 0 <= ap_cursor locked -> selection_ok (locked_selection Random pool locked)).
Proof.
  destruct (eligible_is CanSee Members Restricted bad Hlaw d pool Hpool) as [(Ha & Hp & Hg & He) Hs].
  assert (Hgroups : Forall (fun g => ag_members g <> []) (po_groups pool)).
  { rewrite Hg. apply Forall_forall. intros g Hin. by apply fit_groups_members in Hin as [? _]. }
  assert (Hlen : List.length (po_accounts pool) = List.length (po_positions pool)) by (by rewrite Ha, Hp, !length_fmap).
  split; [by split|]. split; [by split|]. intros locked Hc. unfold locked_selection.
  pose proof (locked_accounts_spec (po_eligible pool) (ad_candidates (ap_definition locked)) 0) as Hl.
  destruct (locked_accounts _ _ _) as [accounts positions]. by split; [|destruct Hl| |].
Qed.

(** Nobody the strategy could fall on. *)
Definition nobody_left (pool : eligiblePool) (locked : option AutoAssignPolicy) : Prop :=
  if String.eqb (po_strategy pool) AssignRandomGroupMember then po_groups pool = []
  else if String.eqb (po_strategy pool) AssignRoundRobin then
    match locked with
    | None => True
    | Some policy => Forall (fun c => ca_id c ∉ po_accounts pool) (ad_candidates (ap_definition policy))
    end
  else po_accounts pool = [].

Lemma locked_nobody pool locked strategy (Hs : StrategyFor AssignRoundRobin = Ok strategy)
  (Hok : selection_ok (locked_selection Random pool locked))
  (He : forall a, a ∈ po_eligible pool <-> a ∈ po_accounts pool) :
  exists choice chosen, strategy (locked_selection Random pool locked) = Ok (choice, chosen) /\
    (chosen = true -> ch_account choice ∈ po_accounts pool) /\
    (chosen = false -> Forall (fun c => ca_id c ∉ po_accounts pool) (ad_candidates (ap_definition locked))).
Proof.
  destruct (draw_spec _ _ _ Hs Hok) as (choice & chosen & Hr & Hin & Hnone). exists choice, chosen. split; [done|].
  unfold drawable in Hin, Hnone. cbn [String.eqb] in Hin, Hnone.
  replace (String.eqb AssignRoundRobin AssignRandomGroupMember) with false in Hin, Hnone by done.
  clear Hr Hok. unfold locked_selection in Hin, Hnone.
  pose proof (locked_accounts_spec (po_eligible pool) (ad_candidates (ap_definition locked)) 0) as Hl.
  destruct (locked_accounts _ _ _) as [accounts positions]. destruct Hl as (Hlen & Hat & Hstand).
  cbn [as_accounts as_positions as_candidate_count] in Hin, Hnone. split.
  - intros Hc. specialize (Hin Hc). apply list_elem_of_lookup_1 in Hin as [i Hi].
    destruct (lookup_lt_is_Some_2 positions i) as [p Hp]; [rewrite <- Hlen; by eapply lookup_lt_Some|].
    destruct (Hat i p Hp) as (c & _ & _ & Hel & Ha). apply He. congruence.
  - intros Hc. apply Forall_forall. intros c Hcin Hel%He. apply list_elem_of_lookup_1 in Hcin as [k Hk].
    pose proof (Hstand k c Hk Hel) as Hpos. destruct (Hnone Hc) as [->|[_ H]].
    + destruct positions; [by apply elem_of_nil in Hpos|done].
    + apply (H (0 + Z.of_nat k)); [|done]. apply lookup_lt_Some in Hk. lia.
Qed.

(** The strategies that do not rotate. *)
Lemma plain_draw pool strategy sel (Hstrategy : StrategyFor (po_strategy pool) = Ok strategy)
  (Ha : forall a, a ∈ po_accounts pool -> fit CanSee bad a = true)
  (Hg : Forall (fun g => ag_members g <> [] /\ Forall (fun a => fit CanSee bad a = true) (ag_members g)) (po_groups pool))
  (Hrr : po_strategy pool <> AssignRoundRobin) (Hok : selection_ok sel)
  (Hsel : as_accounts sel = po_accounts pool /\ as_groups sel = po_groups pool) :
  let answer := (r ← strategy sel; Ok (r.1, r.2, @None AutoAssignPolicy)) : res _ in
  answer <> Panic /\
  forall choice chosen locked, answer = Ok (choice, chosen, locked) ->
    (chosen = true -> fit CanSee bad (ch_account choice) = true) /\
    (chosen = false -> if String.eqb (po_strategy pool) AssignRandomGroupMember then po_groups pool = []
                       else po_accounts pool = []).
Proof.
  destruct Hsel as [Hsa Hsg]. destruct (draw_spec _ _ _ Hstrategy Hok) as (choice & chosen & -> & Hin & Hnone).
  split; [done|]. intros ? ? ? [= <- <- <-]. unfold drawable in Hin, Hnone.
  rewrite Hsa, Hsg in Hin, Hnone. destruct (String.eqb (po_strategy pool) AssignRandomGroupMember).
  - rewrite list_elem_of_In, in_flat_map in Hin. rewrite Forall_forall in Hg. split.
    + intros Hc. destruct (Hin Hc) as (g & Hgin & Hmem). rewrite <- list_elem_of_In in Hgin.
      destruct (Hg g Hgin) as [_ Hall]. rewrite Forall_forall in Hall.
      apply Hall. by apply list_elem_of_In.
    + intros Hc. destruct (Hnone Hc) as [Hempty|[? _]]; [|done]. destruct (po_groups pool) as [|g gs]; [done|].
      destruct (Hg g) as [Hne _]; [by left|]. cbn in Hempty. apply app_eq_nil in Hempty as [? _]. congruence.
  - split; [intros Hc; by apply Ha, Hin|]. intros Hc. by destruct (Hnone Hc) as [?|[? _]].
Qed.

(** The draw: with a pool the use case built and a strategy the
    collection may have, the strategy answers - no index is ever out of range
    -, and answers an account that sees the collection and is not restricted;
    it answers nobody only when nobody is left for it to fall on. *)
Theorem auto_assign_draw collection d pool (Hlaw : restricted_law) (Hrandom : RandomLaw Random)
  (Hpool : eligible CanSee Members Restricted d = Ok pool) (Hvalid : StrategyValid (ad_strategy d) = true)
  (Hlock : forall policy, Lock collection = Ok policy -> 0 <= ap_cursor policy)
  (Hports : Lock collection <> Panic /\ CountOpenByAssignee (po_accounts pool) <> Panic) :
  choose Lock CountOpenByAssignee Random collection pool <> Panic /\
  forall choice chosen locked, choose Lock CountOpenByAssignee Random collection pool = Ok (choice, chosen, locked) ->
    (chosen = true -> fit CanSee bad (ch_account choice) = true) /\
    (chosen = false -> nobody_left pool locked).
Proof.
  destruct (eligible_selections d pool Hlaw Hrandom Hpool) as (Hplain & Hloaded & Hlocked).
  destruct (pool_facts d pool Hlaw Hpool) as (Hs & He & Hfa & Hg). pose proof (proj1 (Forall_forall _ _) Hfa) as Ha.
  destruct (strategy_known _ Hvalid) as [strategy Hstrategy]. rewrite <- Hs in Hstrategy.
  unfold choose, nobody_left. rewrite Hstrategy. cbn [mbind result_bind].
  destruct (String.eqb_spec (po_strategy pool) AssignRoundRobin) as [Hrr|Hrr].
  { rewrite Hrr in Hstrategy |- *. destruct (Lock collection) as [locked|e|] eqn:El; [| |by destruct Hports].
    2: { destruct (is_not_found e); split; try done. by intros ? ? ? [= <- <- <-]. }
    destruct (locked_nobody pool locked strategy Hstrategy (Hlocked locked (Hlock locked eq_refl)) He)
      as (choice & chosen & -> & Hin & Hnone).
    split; [done|]. intros ? ? ? [= <- <- <-]. split; [intros Hc; by apply Ha, Hin|done]. }
  destruct (String.eqb_spec (po_strategy pool) AssignLeastLoaded) as [Hll|Hll].
  - destruct (CountOpenByAssignee (po_accounts pool)) as [load|e|] eqn:Ec; [|done|by destruct Hports].
    cbn [mbind result_bind]. by apply (plain_draw pool strategy (loaded_selection Random pool load)).
  - by apply (plain_draw pool strategy (pool_selection Random pool)).
Qed.

End Draws.

(** ** Turns of the rotation *)

(** Entries handed out one after the other, each against the pool of its
    moment: who got them, and the policy at the end. *)
Fixpoint turns (Random : nat -> Z -> Z) (locked : AutoAssignPolicy) (pools : list eligiblePool) :
    res (list (option ID) * AutoAssignPolicy) :=
  match pools with
  | [] => Ok ([], locked)
  | pool :: rest =>
      r ← round_robin_choose (locked_selection Random pool locked);
      let '(choice, chosen) := r : AssignmentChoice * bool in
      later ← turns Random (advance locked choice) rest;
      Ok ((if chosen then Some (ch_account choice) else None) :: later.1, later.2)
  end.

Lemma ahead_inj n c p q : 0 < n -> 0 <= c -> 0 <= p < n -> 0 <= q < n -> ahead n c p = ahead n c q -> p = q.
Proof. intros Hn Hc Hp Hq H. rewrite <- (ahead_back n c p), <- (ahead_back n c q) by done. by rewrite H. Qed.

Lemma ahead_next n c p q : 0 < n -> ahead n c p < ahead n c q ->
  ahead n ((p + 1) mod n) q = ahead n c q - ahead n c p - 1.
Proof.
  intros Hn Hlt. unfold ahead in *. rewrite Zminus_mod_idemp_r.
  pose proof (Z.mod_pos_bound (q - c) n Hn). pose proof (Z.mod_pos_bound (p - c) n Hn).
  pose proof (Z.div_mod (q - c) n ltac:(lia)) as Hq. pose proof (Z.div_mod (p - c) n ltac:(lia)) as Hp.
  replace (q - (p + 1)) with (((q - c) mod n - (p - c) mod n - 1) + ((q - c) / n - (p - c) / n) * n) by lia.
  rewrite Z_mod_plus_full. apply Z.mod_small. lia.
Qed.

(** One turn while a candidate is eligible: it gets the entry, or comes nearer. *)
Lemma turn_spec Random locked pool k c `{!RandomLaw Random} :
  let cs := ad_candidates (ap_definition locked) in
  let n := Z.of_nat (List.length cs) in
  cs !! k = Some c -> 0 <= ap_cursor locked -> ca_id c ∈ po_eligible pool ->
  Forall (fun g => ag_members g <> []) (po_groups pool) ->
  exists choice, round_robin_choose (locked_selection Random pool locked) = Ok (choice, true) /\
    let locked' := advance locked choice in
    ap_definition locked' = ap_definition locked /\ 0 <= ap_cursor locked' /\
    (ch_account choice = ca_id c \/
     ahead n (ap_cursor locked') (Z.of_nat k) < ahead n (ap_cursor locked) (Z.of_nat k)).
Proof.
  intros cs n Hk Hc Hel Hg.
  assert (Hlt : Z.of_nat k < n) by (apply lookup_lt_Some in Hk; lia).
  assert (Hok : selection_ok (locked_selection Random pool locked)).
  { unfold locked_selection. pose proof (locked_accounts_spec (po_eligible pool) cs 0) as Hl.
    fold cs. destruct (locked_accounts _ _ _). by split; [|destruct Hl| |]. }
  pose proof (round_robin_spec _ Hok) as Hspec. unfold locked_selection in *. fold cs in Hspec |- *.
  pose proof (locked_accounts_spec (po_eligible pool) cs 0) as Hl.
  destruct (locked_accounts (po_eligible pool) 0 cs) as [accounts positions]. destruct Hl as (Hlen & Hat & Hstand).
  cbn [as_candidate_count as_accounts as_positions as_cursor] in Hspec. fold n in Hspec |- *.
  pose proof (Hstand k c Hk Hel) as Hpos. rewrite Z.add_0_l in Hpos.
  destruct Hspec as [(p & account & Hp & (i & Hi & Hia) & Hleast & ->)|[[->|Hnone] _]].
  - eexists. split; [done|]. cbn. split; [done|]. split; [apply Z.mod_pos_bound; lia|].
    specialize (Hleast (Z.of_nat k) ltac:(lia) Hpos). destruct (decide (p = Z.of_nat k)) as [->|Hne].
    + left. destruct (Hat i _ Hi) as (c0 & _ & Hc0 & _ & Ha). cbn in Hia. rewrite Ha in Hia. injection Hia as <-.
      rewrite Z.sub_0_r, Nat2Z.id, Hk in Hc0. by injection Hc0 as ->.
    + right. assert (ahead n (ap_cursor locked) p <> ahead n (ap_cursor locked) (Z.of_nat k)).
      { intros Heq. apply Hne. apply (ahead_inj n (ap_cursor locked)); [lia..|done]. }
      rewrite (ahead_next n (ap_cursor locked) p) by lia. pose proof (Z.mod_pos_bound (p - ap_cursor locked) n). unfold ahead in *. lia.
  - destruct positions; [by apply elem_of_nil in Hpos|done].
  - exfalso. by apply (Hnone (Z.of_nat k) ltac:(lia)).
Qed.

Lemma rotation_reaches Random `{!RandomLaw Random} pools locked k c :
  let cs := ad_candidates (ap_definition locked) in
  cs !! k = Some c -> 0 <= ap_cursor locked ->
  Forall (fun pool => ca_id c ∈ po_eligible pool /\ Forall (fun g => ag_members g <> []) (po_groups pool)) pools ->
  exists got locked', turns Random locked pools = Ok (got, locked') /\ 0 <= ap_cursor locked' /\
    List.length got = List.length pools /\ (None ∉ got) /\
    (ahead (Z.of_nat (List.length cs)) (ap_cursor locked) (Z.of_nat k) < Z.of_nat (List.length pools) ->
     Some (ca_id c) ∈ got).
Proof.
  revert locked. induction pools as [|pool pools IH]; intros locked cs Hk Hc Hall.
  { exists [], locked. repeat split; try done; [by intros H%elem_of_nil|]. cbn. intros H.
    pose proof (Z.mod_pos_bound (Z.of_nat k - ap_cursor locked) (Z.of_nat (List.length cs))).
    apply lookup_lt_Some in Hk. unfold ahead in H. lia. }
  apply Forall_cons in Hall as [[Hel Hg] Hall]. cbn [turns].
  destruct (turn_spec Random locked pool k c Hk Hc Hel Hg) as (choice & Hturn & Hdef & Hc' & Hnear).
  rewrite Hturn. cbn [mbind result_bind].
  destruct (IH (advance locked choice)) as (got & locked' & Hgot & Hcur & Hlen & Hno & Hreach);
    [by rewrite Hdef|done|done|].
  rewrite Hgot. cbn [mbind result_bind fst snd]. eexists _, locked'. split; [done|]. split; [done|].
  split; [cbn; by rewrite Hlen|]. split; [intros Hin; by apply elem_of_cons in Hin as [?|?]|].
  intros Hlt. rewrite elem_of_cons. destruct Hnear as [->|Hnear]; [by left|]. right. apply Hreach.
  rewrite Hdef. fold cs. cbn [List.length] in Hlt. fold cs in Hnear. lia.
Qed.

(** The rotation starves nobody: however the eligibility of the others
    changes from one entry to the next, a candidate who stays eligible gets an
    entry within as many turns as it stands behind the cursor plus one, hence
    within one turn per configured candidate, and every one of the entries
    goes to somebody. *)
Theorem rotation_fair Random locked pools k c (Hrandom : RandomLaw Random)
  (Hk : ad_candidates (ap_definition locked) !! k = Some c) (Hcursor : 0 <= ap_cursor locked)
  (Hstays : Forall (fun pool => ca_id c ∈ po_eligible pool /\ Forall (fun g => ag_members g <> []) (po_groups pool))
              pools) :
  let n := Z.of_nat (List.length (ad_candidates (ap_definition locked))) in
  exists got locked', turns Random locked pools = Ok (got, locked') /\ (None ∉ got) /\
    (ahead n (ap_cursor locked) (Z.of_nat k) < Z.of_nat (List.length pools) -> Some (ca_id c) ∈ got) /\
    (n <= Z.of_nat (List.length pools) -> Some (ca_id c) ∈ got).
Proof.
  intros n. destruct (rotation_reaches Random pools locked k c Hk Hcursor Hstays)
    as (got & locked' & Hgot & _ & _ & Hno & Hreach).
  exists got, locked'. split; [done|]. split; [done|]. split; [done|]. intros Hn. apply Hreach.
  assert (0 < n) by (apply lookup_lt_Some in Hk; lia). pose proof (Z.mod_pos_bound (Z.of_nat k - ap_cursor locked) n).
  unfold ahead. fold n. lia.
Qed.

(** ** An example collection: two who see it, one who does not, one restricted *)

Definition example_can_see (a : ID) : res bool := Ok (negb (String.eqb a "eve")).
Definition example_members (g : ID) : res (list ID) :=
  if String.eqb g "crew" then Ok ["eve"; "bob"] else Err (detailed ErrNotFound "groups.not_found" []).
Definition example_bad (a : ID) : bool := String.eqb a "mal".
Definition example_restricted (l : list ID) : res (gset ID) := Ok (list_to_set (List.filter example_bad l)).
Definition example_definition (strategy : AutoAssignStrategy) : AutoAssignDefinition :=
  mkDefinition strategy
    [mkCandidate CandidateAccount "eve"; mkCandidate CandidateAccount "ann"; mkCandidate CandidateAccount "mal";
     mkCandidate CandidateAccount "bob"] true.
Definition example_pool (strategy : AutoAssignStrategy) : eligiblePool :=
  mkPool strategy ["ann"; "bob"] [1; 3] {["ann"; "bob"]} [].
Definition example_policy : AutoAssignPolicy := mkPolicy "c1" (example_definition AssignRoundRobin) 2 1.
Definition example_load (l : list ID) : res (gmap ID Z) := Ok {["ann" := 2]}.

Lemma example_law : restricted_law (Some example_restricted) example_bad.
Proof.
  intros l r [= <-] a. rewrite elem_of_list_to_set, !list_elem_of_In, filter_In. done.
Qed.

Lemma example_eligible strategy :
  eligible example_can_see example_members (Some example_restricted) (example_definition strategy) =
  Ok (example_pool strategy).
Proof. vm_compute. reflexivity. Qed.

Lemma auto_assign_pool_witness :
  Forall (fun a => fit example_can_see example_bad a = true) (po_accounts (example_pool AssignFixed)).
Proof.
  apply (auto_assign_pool example_can_see example_members (Some example_restricted) example_bad
    (example_definition AssignFixed) (example_pool AssignFixed) example_law (example_eligible AssignFixed)).
Defined.

Lemma auto_assign_draw_witness :
  choose (fun _ => Ok example_policy) example_load (Scripted [1]) "c1" (example_pool AssignRoundRobin) =
    Ok (mkChoice "bob" 0 true, true, Some example_policy) /\
  fit example_can_see example_bad "bob" = true.
Proof.
  assert (Hr : choose (fun _ => Ok example_policy) example_load (Scripted [1]) "c1" (example_pool AssignRoundRobin) =
    Ok (mkChoice "bob" 0 true, true, Some example_policy)) by (vm_compute; reflexivity).
  split; [exact Hr|].
  destruct (auto_assign_draw example_can_see example_members (Some example_restricted) example_bad
    (fun _ => Ok example_policy) example_load (Scripted [1]) "c1" (example_definition AssignRoundRobin)
    (example_pool AssignRoundRobin) example_law (scripted_law [1] ltac:(repeat constructor; lia))
    (example_eligible AssignRoundRobin) eq_refl) as [_ H].
  - intros policy [= <-]. cbn. lia.
  - split; discriminate.
  - destruct (H _ _ _ Hr) as [Hfit _]. exact (Hfit eq_refl).
Defined.

Lemma rotation_fair_witness : exists got locked',
  turns (Scripted [1]) example_policy (repeat (example_pool AssignRoundRobin) 4) = Ok (got, locked') /\
  Some "ann" ∈ got.
Proof.
  destruct (rotation_fair (Scripted [1]) example_policy (repeat (example_pool AssignRoundRobin) 4) 1
    (mkCandidate CandidateAccount "ann") (scripted_law [1] ltac:(repeat constructor; lia)) eq_refl)
    as (got & locked' & Hgot & _ & _ & Hin).
  - cbn. lia.
  - apply Forall_forall. intros pool Hp. apply list_elem_of_In, repeat_spec in Hp. subst pool.
    split; [cbn; set_solver|by constructor].
  - exists got, locked'. split; [exact Hgot|]. apply Hin. cbn. lia.
Defined.
