(* ===== verification/Item.v ===== *)
(** * Entries: capabilities, placement, completion, lifecycle

    Models core/domain/model/work/CapabilityProfile.go, Item.go and the
    entry's half of Lifecycle.go: what a type may do, where an entry sits - its
    path and depth -, and the transitions of one entry.  An entry carries the
    fields these operations read and write; its title, notes, amount, dates,
    cover and custom fields are written by operations that are not modelled.

    The theorems: the invariants of every entry that can be reached by the
    transitions; that each is idempotent and undoes what it is meant to undo;
    what a profile refuses. *)

From Stdlib Require Import ZArith Lia String Ascii List Bool.
From stdpp Require Import base list strings gmap.
From S2P Require Import Prelude Shared Hlc Civil.

Open Scope string_scope.
Open Scope list_scope.
Open Scope Z_scope.

(** ** CapabilityProfile.go *)

Abbreviation ItemType := string (only parsing).
Abbreviation Capability := string (only parsing).

Definition ItemTask : ItemType := "TASK".
Definition ItemWorkPackage : ItemType := "WORK_PACKAGE".
Definition ItemActivity : ItemType := "ACTIVITY".

Definition ItemTypes : list ItemType := [ItemTask; ItemWorkPackage; ItemActivity].
Definition ItemTypeValid (t : ItemType) : bool := existsb (fun known => String.eqb known t) ItemTypes.

Definition CapabilityCompletion : Capability := "COMPLETION".
Definition CapabilityDueDate : Capability := "DUE_DATE".
Definition CapabilityReminder : Capability := "REMINDER".
Definition CapabilityAssignment : Capability := "ASSIGNMENT".
Definition CapabilityMembers : Capability := "MEMBERS".
Definition CapabilityBucket : Capability := "BUCKET".
Definition CapabilityNotes : Capability := "NOTES".
Definition CapabilityLabels : Capability := "LABELS".
Definition CapabilityComments : Capability := "COMMENTS".
Definition CapabilityCover : Capability := "COVER".
Definition CapabilityAttachments : Capability := "ATTACHMENTS".
Definition CapabilityHistory : Capability := "HISTORY".
Definition CapabilityRecurrence : Capability := "RECURRENCE".
Definition CapabilityCustomFields : Capability := "CUSTOM_FIELDS".
Definition CapabilityAmount : Capability := "AMOUNT".

Definition OptIn (c : Capability) : bool := String.eqb c CapabilityAmount.

Record CapabilityProfile := mkProfile {
  cp_type : ItemType;
  cp_capabilities : list Capability;
  cp_allowed_child_types : list ItemType;
  cp_max_depth : Z;
  cp_hidden : list Capability
}.

Definition ProfileAllows (p : CapabilityProfile) (capability : Capability) : bool :=
  contains (cp_capabilities p) capability.
Definition AllowsChild (p : CapabilityProfile) (child : ItemType) : bool :=
  contains (cp_allowed_child_types p) child.

Definition capability_refused (p : CapabilityProfile) (capability : Capability) (field code : string) : Error :=
  field_refused ErrCapabilityNotSupported field code [("item_type", cp_type p); ("capability", capability)].

Definition Require_ (p : CapabilityProfile) (capability : Capability) (field : string) : res unit :=
  if ProfileAllows p capability then Ok tt
  else if contains (cp_hidden p) capability then
    Err (capability_refused p capability field "items.capability_hidden")
  else Err (capability_refused p capability field "items.capability_not_supported").

Definition HistoryIsCompact (p : CapabilityProfile) : bool :=
  negb (existsb (fun c => ProfileAllows p c || contains (cp_hidden p) c)
    [CapabilityNotes; CapabilityLabels; CapabilityComments; CapabilityCustomFields]).

(** ** Item.go: the entry *)

Record Completion := mkCompletion {
  c_is_completed : bool; c_completed_at : option Z; c_completed_by : ID
}.
Definition not_completed : Completion := mkCompletion false None "".

(** Lifecycle.go: who put an entry into the trash. *)
Record DeletedBy := mkDeletedBy { db_kind : string; db_id : ID }.
Definition nobody : DeletedBy := mkDeletedBy "" "".
Definition IsKnown (d : DeletedBy) : bool := negb (String.eqb (db_kind d) "").

Record WorkItem := mkWorkItem {
  wi_id : ID;
  wi_tenant : ID;
  wi_collection : ID;
  wi_type : ItemType;
  wi_parent : ID;
  wi_path : string;
  wi_depth : Z;
  wi_completion : Completion;
  wi_completion_count : Z;
  wi_bucket : ID;
  wi_order_key : string;
  wi_assignee : ID;
  wi_archived_at : option Z;
  wi_deleted_at : option Z;
  wi_deleted_by : DeletedBy;
  wi_trash_batch : ID;
  wi_updated_at : Z;
  wi_version : Z
}.

#[export] Instance completion_eq_dec : EqDecision Completion.
Proof. solve_decision. Defined.
#[export] Instance deleted_by_eq_dec : EqDecision DeletedBy.
Proof. solve_decision. Defined.
#[export] Instance work_item_eq_dec : EqDecision WorkItem.
Proof. solve_decision. Defined.

(** The assignments of the source, one field group each. *)
Definition set_placement (i : WorkItem) (collection parent : ID) (path : string) (depth : Z) (bucket : ID)
    (order_key : string) (version : Z) (at_ : Z) : WorkItem :=
  mkWorkItem (wi_id i) (wi_tenant i) collection (wi_type i) parent path depth (wi_completion i)
    (wi_completion_count i) bucket order_key (wi_assignee i) (wi_archived_at i) (wi_deleted_at i)
    (wi_deleted_by i) (wi_trash_batch i) at_ version.
Definition set_completion (i : WorkItem) (c : Completion) (count : Z) (at_ : Z) : WorkItem :=
  mkWorkItem (wi_id i) (wi_tenant i) (wi_collection i) (wi_type i) (wi_parent i) (wi_path i) (wi_depth i) c
    count (wi_bucket i) (wi_order_key i) (wi_assignee i) (wi_archived_at i) (wi_deleted_at i)
    (wi_deleted_by i) (wi_trash_batch i) at_ (wi_version i).
Definition set_assignee (i : WorkItem) (assignee : ID) (at_ : Z) : WorkItem :=
  mkWorkItem (wi_id i) (wi_tenant i) (wi_collection i) (wi_type i) (wi_parent i) (wi_path i) (wi_depth i)
    (wi_completion i) (wi_completion_count i) (wi_bucket i) (wi_order_key i) assignee (wi_archived_at i)
    (wi_deleted_at i) (wi_deleted_by i) (wi_trash_batch i) at_ (wi_version i).
Definition set_archived (i : WorkItem) (archived : option Z) (at_ : Z) : WorkItem :=
  mkWorkItem (wi_id i) (wi_tenant i) (wi_collection i) (wi_type i) (wi_parent i) (wi_path i) (wi_depth i)
    (wi_completion i) (wi_completion_count i) (wi_bucket i) (wi_order_key i) (wi_assignee i) archived
    (wi_deleted_at i) (wi_deleted_by i) (wi_trash_batch i) at_ (wi_version i).
Definition set_deleted (i : WorkItem) (deleted : option Z) (by_ : DeletedBy) (batch : ID) (at_ : Z) : WorkItem :=
  mkWorkItem (wi_id i) (wi_tenant i) (wi_collection i) (wi_type i) (wi_parent i) (wi_path i) (wi_depth i)
    (wi_completion i) (wi_completion_count i) (wi_bucket i) (wi_order_key i) (wi_assignee i) (wi_archived_at i)
    deleted by_ batch at_ (wi_version i).

Definition IsArchived (i : WorkItem) : bool := match wi_archived_at i with Some _ => true | None => false end.
Definition IsTrashed (i : WorkItem) : bool := match wi_deleted_at i with Some _ => true | None => false end.

(** *** Paths *)

Definition PathSeparator : ascii := "/".
Definition slash : string := String PathSeparator "".

(** [strings.Trim] with the separator as its only cutset character. *)
Fixpoint trim_left (s : string) : string :=
  match s with
  | String c rest => if Ascii.eqb c PathSeparator then trim_left rest else s
  | EmptyString => EmptyString
  end.
Fixpoint trim_right (s : string) : string :=
  match s with
  | EmptyString => EmptyString
  | String c rest =>
      let rest' := trim_right rest in
      if String.eqb rest' "" && Ascii.eqb c PathSeparator then EmptyString else String c rest'
  end.
Definition trim (s : string) : string := trim_right (trim_left s).

(** [strings.Split] at the separator: never empty. *)
Fixpoint split (s : string) : list string :=
  match s with
  | EmptyString => [""]
  | String c rest =>
      if Ascii.eqb c PathSeparator then "" :: split rest
      else match split rest with
           | [] => [String c ""]
           | first :: others => String c first :: others
           end
  end.

Definition path_malformed (path : string) : Error :=
  detailed ErrInternal "items.path_malformed" [("path", path)].

Definition last_segment (segments : list string) (back : nat) : string :=
  List.nth (List.length segments - 1 - back) segments "".

Definition checkPlacement (id parentID : ID) (path : string) (depth : Z) : res unit :=
  if negb (str_has_prefix slash path) || negb (str_ends_with PathSeparator path) || String.eqb path slash then
    Err (path_malformed path)
  else
    let segments := split (trim path) in
    if negb (String.eqb (last_segment segments 0) id) then Err (path_malformed path)
    else if negb (depth =? Z.of_nat (List.length segments)) then
      Err (detailed ErrInternal "items.depth_inconsistent" [("path", path)])
    else if id_is_zero parentID && negb (depth =? 1) then
      Err (detailed ErrInternal "items.parent_item_required" [])
    else if negb (id_is_zero parentID) &&
            ((depth <? 2) || negb (String.eqb (last_segment segments 1) parentID)) then
      Err (path_malformed path)
    else Ok tt.

Definition ChildPath (i : WorkItem) (child : ID) : string := wi_path i +:+ child +:+ slash.
Definition Contains (i other : WorkItem) : bool := str_has_prefix (wi_path i) (wi_path other).
Definition SubtreePathUnder (i : WorkItem) (parentPath : string) : string :=
  let parentPath := if String.eqb parentPath "" then slash else parentPath in
  parentPath +:+ wi_id i +:+ slash.
Definition RootPath (id : ID) : string := slash +:+ id +:+ slash.

Fixpoint parse_ids (segments : list string) : option (list ID) :=
  match segments with
  | [] => Some []
  | s :: rest =>
      match ParseID s with
      | Ok id => match parse_ids rest with Some ids => Some (id :: ids) | None => None end
      | _ => None
      end
  end.

(** [nil] is the empty list. *)
Definition PathIDs (path : string) : list ID :=
  let trimmed := trim path in
  if String.eqb trimmed "" then [] else default [] (parse_ids (split trimmed)).

(** *** Calendar addresses *)

Definition MaxCalendarUIDLength : nat := 255.

Definition calendarUIDByte (b : ascii) : bool :=
  let n := N_of_ascii b in
  ((97 <=? n) && (n <=? 122) || (65 <=? n) && (n <=? 90) || (48 <=? n) && (n <=? 57))%N ||
  str_contains b "-._~!$&'()*+,;=:@".

Definition ValidCalendarUID (uid : string) : bool :=
  if String.eqb uid "" || Nat.ltb MaxCalendarUIDLength (String.length uid) then false
  else str_forallb calendarUIDByte uid.

Definition checkCalendarUID (uid : string) : res unit :=
  if String.eqb uid "" || ValidCalendarUID uid then Ok tt
  else Err (field_refused ErrValidation "/calendar_uid" "items.calendar_uid_invalid"
              [("maximum", itoa (Z.of_nat MaxCalendarUIDLength))]).

(** *** Transitions *)

Definition EnsureEditable (i : WorkItem) : res unit :=
  if IsTrashed i then Err (detailed ErrConflict "items.trashed" [("item_id", wi_id i)])
  else if IsArchived i then Err (detailed ErrConflict "items.archived" [("item_id", wi_id i)])
  else Ok tt.

Definition ensure_capable (i : WorkItem) (p : CapabilityProfile) (c : Capability) (field : string) : res unit :=
  _ ← Require_ p c field; EnsureEditable i.

Definition EnsureCompletable (i : WorkItem) (p : CapabilityProfile) : res unit :=
  ensure_capable i p CapabilityCompletion "/completion".
Definition EnsureAssignable (i : WorkItem) (p : CapabilityProfile) : res unit :=
  ensure_capable i p CapabilityAssignment "/account_id".
Definition EnsureCoverable (i : WorkItem) (p : CapabilityProfile) : res unit :=
  ensure_capable i p CapabilityCover "/cover".
Definition EnsureAttachable (i : WorkItem) (p : CapabilityProfile) : res unit :=
  ensure_capable i p CapabilityAttachments "/media_id".
Definition EnsureCustomisable (i : WorkItem) (p : CapabilityProfile) : res unit :=
  ensure_capable i p CapabilityCustomFields "/value".

Definition Completed (i : WorkItem) (by_ : ID) (at_ : Z) : WorkItem :=
  if c_is_completed (wi_completion i) then i
  else set_completion i (mkCompletion true (Some at_) by_) (wi_completion_count i + 1) at_.

Definition Reopened (i : WorkItem) (at_ : Z) : WorkItem :=
  if negb (c_is_completed (wi_completion i)) then i
  else set_completion i not_completed (wi_completion_count i) at_.

Definition Assigned (i : WorkItem) (accountID : ID) (at_ : Z) : WorkItem :=
  if String.eqb (wi_assignee i) accountID then i else set_assignee i accountID at_.

Definition Unassigned (i : WorkItem) (at_ : Z) : WorkItem :=
  if id_is_zero (wi_assignee i) then i else set_assignee i "" at_.

(** ** Lifecycle.go *)

Record FieldChange := mkChange { ch_field : string; ch_from : string; ch_to : string }.

Definition FieldArchivedAt : string := "archived_at".
Definition FieldDeletedAt : string := "deleted_at".

Definition instant (at_ : Z) : string := format_rfc3339_nano at_.
Definition instant_of (at_ : option Z) : string := match at_ with Some t => instant t | None => "" end.

Definition ensureLifecycleChangeable (i : WorkItem) : res unit :=
  if IsTrashed i then Err (detailed ErrConflict "items.trashed" [("item_id", wi_id i)]) else Ok tt.

Definition Archived (i : WorkItem) (at_ : Z) : res (WorkItem * list FieldChange) :=
  _ ← ensureLifecycleChangeable i;
  if IsArchived i then Ok (i, [])
  else Ok (set_archived i (Some at_) at_, [mkChange FieldArchivedAt "" (instant at_)]).

Definition Unarchived (i : WorkItem) (at_ : Z) : res (WorkItem * list FieldChange) :=
  _ ← ensureLifecycleChangeable i;
  if negb (IsArchived i) then Ok (i, [])
  else Ok (set_archived i None at_, [mkChange FieldArchivedAt (instant_of (wi_archived_at i)) ""]).

Definition Trashed (i : WorkItem) (at_ : Z) (batch : ID) (by_ : DeletedBy) : res (WorkItem * list FieldChange) :=
  if id_is_zero batch then Err (detailed ErrInternal "items.trash_batch_missing" [])
  else if IsTrashed i then Ok (i, [])
  else Ok (set_deleted i (Some at_) by_ batch at_, [mkChange FieldDeletedAt "" (instant at_)]).

Definition Restored (i : WorkItem) (at_ : Z) : res (WorkItem * list FieldChange) :=
  if negb (IsTrashed i) then Ok (i, [])
  else Ok (set_deleted i None nobody "" at_, [mkChange FieldDeletedAt (instant_of (wi_deleted_at i)) ""]).

(** ** The entry as a state machine

    The transitions as their use cases take them: an edit only of an entry
    that may be edited (invariant I-W4), a lifecycle change as it stands. *)

Inductive item_step (p : CapabilityProfile) : WorkItem -> WorkItem -> Prop :=
  | step_complete i by_ at_ : EnsureCompletable i p = Ok tt -> item_step p i (Completed i by_ at_)
  | step_reopen i at_ : EnsureCompletable i p = Ok tt -> item_step p i (Reopened i at_)
  | step_assign i a at_ : EnsureAssignable i p = Ok tt -> item_step p i (Assigned i a at_)
  | step_unassign i at_ : EnsureAssignable i p = Ok tt -> item_step p i (Unassigned i at_)
  | step_archive i at_ j cs : Archived i at_ = Ok (j, cs) -> item_step p i j
  | step_unarchive i at_ j cs : Unarchived i at_ = Ok (j, cs) -> item_step p i j
  | step_trash i at_ b d j cs : Trashed i at_ b d = Ok (j, cs) -> item_step p i j
  | step_restore i at_ j cs : Restored i at_ = Ok (j, cs) -> item_step p i j.

(** What every entry keeps: its completion is all there or not at all and is
    counted; a trash batch names exactly the entries in the trash, and nobody
    deleted one that is not. *)
Definition item_ok (i : WorkItem) : Prop :=
  (if c_is_completed (wi_completion i)
   then is_Some (c_completed_at (wi_completion i)) /\ 1 <= wi_completion_count i
   else wi_completion i = not_completed /\ 0 <= wi_completion_count i) /\
  (if IsTrashed i then wi_trash_batch i <> "" else wi_trash_batch i = "" /\ wi_deleted_by i = nobody).

Definition same_place (i j : WorkItem) : Prop :=
  wi_id j = wi_id i /\ wi_collection j = wi_collection i /\ wi_type j = wi_type i /\
  wi_parent j = wi_parent i /\ wi_path j = wi_path i /\ wi_depth j = wi_depth i.

Lemma lifecycle_bind i (k : res (WorkItem * list FieldChange)) r :
  (_ ← ensureLifecycleChangeable i; k) = Ok r <-> IsTrashed i = false /\ k = Ok r.
Proof. unfold ensureLifecycleChangeable. destruct (IsTrashed i); cbn; intuition congruence. Qed.

Lemma editable_ok i p c f : ensure_capable i p c f = Ok tt -> IsTrashed i = false /\ IsArchived i = false.
Proof.
  unfold ensure_capable. destruct (Require_ p c f); cbn; [|done|done]. unfold EnsureEditable.
  by destruct (IsTrashed i), (IsArchived i).
Qed.

Lemma item_step_ok p i j : item_step p i j -> item_ok i ->
  item_ok j /\ same_place i j /\ wi_completion_count i <= wi_completion_count j.
Proof.
  intros Hstep [Hc Ht]. unfold same_place, item_ok.
  assert (Hkeep : item_ok i /\ same_place i i /\ wi_completion_count i <= wi_completion_count i).
  { split; [by split|]. split; [by repeat split|lia]. }
  destruct Hstep as [i by_ at_ _|i at_ _|i a at_ _|i at_ _|i at_ j cs H|i at_ j cs H|i at_ b d j cs H|i at_ j cs H].
  - unfold Completed. destruct (c_is_completed (wi_completion i)); [exact Hkeep|].
    cbn. destruct Hc as [_ Hc]. split; [split; [split; [by eexists|lia]|done]|]. split; [done|lia].
  - unfold Reopened. destruct (c_is_completed (wi_completion i)); cbn [negb]; [|exact Hkeep].
    cbn. destruct Hc as [_ Hc]. split; [split; [split; [done|lia]|done]|]. split; [done|lia].
  - unfold Assigned. destruct (String.eqb _ _); exact Hkeep.
  - unfold Unassigned. destruct (id_is_zero _); exact Hkeep.
  - apply lifecycle_bind in H as [_ H]. destruct (IsArchived i); injection H as <- _; exact Hkeep.
  - apply lifecycle_bind in H as [_ H]. destruct (IsArchived i); injection H as <- _; exact Hkeep.
  - unfold Trashed in H. destruct (id_is_zero b) eqn:Eb; [done|].
    destruct (IsTrashed i) eqn:E; injection H as <- _; [exact Hkeep|].
    unfold id_is_zero in Eb. bools. split; [split; [exact Hc|done]|]. split; [by repeat split|cbn; lia].
  - unfold Restored in H. destruct (IsTrashed i) eqn:E; cbn in H; injection H as <- _; [|exact Hkeep].
    split; [split; [exact Hc|done]|]. split; [by repeat split|cbn; lia].
Qed.

(** The invariants of an entry hold however it is worked with: after any
    sequence of completing, reopening, assigning, archiving, trashing and
    restoring, its completion is whole or absent and counted, its trash batch
    is set exactly while it is in the trash, it sits where it sat, and the
    count of its completions never went down; an entry in the trash or the
    archive is never completed, reopened or assigned. *)
Theorem item_invariants p i j (Hreach : rtc (item_step p) i j) (Hok : item_ok i) :
  item_ok j /\ same_place i j /\ wi_completion_count i <= wi_completion_count j /\
  (IsTrashed j = true \/ IsArchived j = true ->
     EnsureCompletable j p <> Ok tt /\ EnsureAssignable j p <> Ok tt).
Proof.
  assert (H : item_ok j /\ same_place i j /\ wi_completion_count i <= wi_completion_count j).
  { induction Hreach as [i|i k j Hstep Hreach IH]; [split; [done|split; [by repeat split|lia]]|].
    destruct (item_step_ok _ _ _ Hstep Hok) as (Hk & Hp & Hle). destruct (IH Hk) as (Hj & Hp' & Hle').
    split; [done|]. split; [|lia]. unfold same_place in *. intuition congruence. }
  destruct H as (H1 & H2 & H3). split; [done|]. split; [done|]. split; [done|].
  intros Hstopped. split; intros [? ?]%editable_ok; destruct Hstopped; congruence.
Qed.

(** What an entry is apart from when it was last touched. *)
Definition untouched (i : WorkItem) : WorkItem :=
  set_assignee i (wi_assignee i) 0.

(** The lifecycle's transitions are idempotent and each undoes its own:
    archiving again, trashing again - under whatever batch - or restoring what
    is not in the trash changes nothing and records nothing; unarchiving gives
    back what archiving took, restoring what trashing took, an archived entry
    coming back archived; and a change is recorded exactly when something
    changed. *)
Theorem lifecycle_undo i at1 at2 batch batch' by_ by' (Hok : item_ok i) (Hbatch : batch <> "") :
  (IsTrashed i = false -> IsArchived i = false -> exists j cs, Archived i at1 = Ok (j, cs) /\ cs <> [] /\
     Archived j at2 = Ok (j, []) /\
     exists k cs', Unarchived j at2 = Ok (k, cs') /\ cs' <> [] /\ untouched k = untouched i) /\
  (IsTrashed i = false -> exists j cs, Trashed i at1 batch by_ = Ok (j, cs) /\ cs <> [] /\
     (batch' <> "" -> Trashed j at2 batch' by' = Ok (j, [])) /\
     (exists e, Archived j at2 = Err e) /\ (exists e, Unarchived j at2 = Err e) /\
     exists k cs', Restored j at2 = Ok (k, cs') /\ cs' <> [] /\ untouched k = untouched i /\
       IsArchived k = IsArchived i) /\
  (IsTrashed i = false -> Restored i at1 = Ok (i, [])).
Proof.
  destruct Hok as [_ Hdel].
  split; [|split].
  - intros Ht Ha. unfold Archived, Unarchived, ensureLifecycleChangeable. rewrite Ht, Ha. cbn.
    eexists _, _. split; [done|]. split; [done|]. unfold IsTrashed in Ht |- *. cbn. rewrite Ht. cbn.
    split; [done|]. eexists _, _. split; [done|]. split; [done|].
    unfold IsArchived in Ha. unfold untouched, set_archived, set_assignee. cbn. by destruct (wi_archived_at i).
  - intros Ht. rewrite Ht in Hdel. destruct Hdel as [Hb Hd]. unfold Trashed. unfold id_is_zero.
    rewrite (proj2 (String.eqb_neq batch "") Hbatch), Ht.
    eexists _, _. split; [done|]. split; [done|]. split.
    { intros Hb'. by rewrite (proj2 (String.eqb_neq batch' "") Hb'). }
    split; [by eexists|]. split; [by eexists|]. eexists _, _. split; [done|]. split; [done|]. split; [|done].
    unfold IsTrashed in Ht. unfold untouched, set_deleted, set_assignee. cbn. rewrite Hb, Hd.
    by destruct (wi_deleted_at i).
  - intros Ht. unfold Restored. by rewrite Ht.
Qed.

Definition task_profile : CapabilityProfile :=
  mkProfile ItemTask [CapabilityCompletion; CapabilityAssignment; CapabilityNotes] [ItemWorkPackage] 3 [].

Definition example_item : WorkItem :=
  mkWorkItem "t1" "w1" "c1" ItemTask "" (RootPath "t1") 1 not_completed 0 "" "a0" "" None None nobody "" 0 1.

Lemma example_item_ok : item_ok example_item.
Proof. repeat split; cbn; lia. Qed.

Lemma item_invariants_witness :
  let done_ := Completed example_item "ann" 10 in
  let gone := set_deleted done_ (Some 20) nobody "b1" 20 in
  item_ok gone /\ EnsureCompletable gone task_profile <> Ok tt.
Proof.
  intros done_ gone.
  assert (Hreach : rtc (item_step task_profile) example_item gone).
  { apply (rtc_l _ _ done_); [by apply step_complete|]. apply rtc_once.
    by apply (step_trash _ done_ 20 "b1" nobody gone [mkChange FieldDeletedAt "" (instant 20)]). }
  destruct (item_invariants task_profile example_item gone Hreach example_item_ok) as (H & _ & _ & Hstop).
  split; [exact H|]. apply Hstop. by left.
Defined.

Lemma lifecycle_undo_witness :
  exists k cs, Restored (set_deleted example_item (Some 20) nobody "b1" 20) 30 = Ok (k, cs) /\
    untouched k = untouched example_item.
Proof.
  destruct (lifecycle_undo example_item 20 30 "b1" "b2" nobody nobody example_item_ok ltac:(discriminate))
    as (_ & H & _).
  destruct (H eq_refl) as (j & cs & Hj & _ & _ & _ & _ & k & cs' & Hk & _ & Hu & _).
  injection Hj as <- _. exists k, cs'. split; [exact Hk|exact Hu].
Defined.
