(* ===== verification/Container.v ===== *)
(** * Hubs and collections

    Models core/domain/model/work/Container.go and the container's half of
    Lifecycle.go: a hub or a collection, what it accepts, its lifecycle, its
    rank, its move into another hub, its privacy and its policies; and
    core/domain/service/ContainerScopes.go, the path a membership is resolved
    along.  Names, descriptions and the other texts - [NewContainer]'s and
    [Renamed]'s, which normalise Unicode through a port - are not modelled.

    The state of a hub archives what is below it without a stamp there: a read
    gives a collection the stamp of its hub ([read_container], as
    core/application/repository/work/Port.go describes the repository).

    The theorems: a container in the trash or under an archived hub refuses
    every change and everything put into it, and names the container to
    unarchive; the lifecycle keeps a container well formed and undoes itself;
    unarchiving a hub gives back exactly what archiving it took away. *)

From Stdlib Require Import ZArith Lia String Ascii List Bool.
From stdpp Require Import base list strings gmap.
From S2P Require Import Prelude Shared Hlc Civil Access Assignment Item.

Open Scope string_scope.
Open Scope list_scope.
Open Scope Z_scope.

Abbreviation ContainerType := string (only parsing).

Definition ContainerHub : ContainerType := "HUB".
Definition ContainerCollection : ContainerType := "COLLECTION".
Definition ContainerTypes : list ContainerType := [ContainerHub; ContainerCollection].

Definition ContainerTypeValid (t : ContainerType) : bool := existsb (fun known => String.eqb known t) ContainerTypes.
Definition TypeAllowsChild (t child : ContainerType) : bool :=
  String.eqb t ContainerHub && String.eqb child ContainerCollection.

Record Container := mkContainer {
  ct_id : ID;
  ct_type : ContainerType;
  ct_parent : ID;
  ct_order_key : string;
  ct_archived_at : option Z;
  ct_deleted_at : option Z;
  ct_deleted_by : DeletedBy;
  ct_parent_archived_at : option Z;
  ct_trash_batch : ID;
  ct_updated_at : Z;
  ct_completion_policy : CompletionPolicy;
  ct_structure_completion : CompletionPolicy;
  ct_auto_assign : option AutoAssignDefinition;
  ct_private : bool;
  ct_key_prefix : string
}.

(** The assignments of the source. *)
Definition with_archived (c : Container) (archived : option Z) (at_ : Z) : Container :=
  mkContainer (ct_id c) (ct_type c) (ct_parent c) (ct_order_key c) archived (ct_deleted_at c) (ct_deleted_by c)
    (ct_parent_archived_at c) (ct_trash_batch c) at_ (ct_completion_policy c) (ct_structure_completion c)
    (ct_auto_assign c) (ct_private c) (ct_key_prefix c).
Definition with_deleted (c : Container) (deleted : option Z) (batch : ID) (by_ : DeletedBy) (at_ : Z) : Container :=
  mkContainer (ct_id c) (ct_type c) (ct_parent c) (ct_order_key c) (ct_archived_at c) deleted by_
    (ct_parent_archived_at c) batch at_ (ct_completion_policy c) (ct_structure_completion c)
    (ct_auto_assign c) (ct_private c) (ct_key_prefix c).
Definition with_place (c : Container) (parent : ID) (orderKey : string) (parentArchived : option Z) (at_ : Z) : Container :=
  mkContainer (ct_id c) (ct_type c) parent orderKey (ct_archived_at c) (ct_deleted_at c) (ct_deleted_by c)
    parentArchived (ct_trash_batch c) at_ (ct_completion_policy c) (ct_structure_completion c)
    (ct_auto_assign c) (ct_private c) (ct_key_prefix c).
Definition with_private (c : Container) (private : bool) (at_ : Z) : Container :=
  mkContainer (ct_id c) (ct_type c) (ct_parent c) (ct_order_key c) (ct_archived_at c) (ct_deleted_at c)
    (ct_deleted_by c) (ct_parent_archived_at c) (ct_trash_batch c) at_ (ct_completion_policy c)
    (ct_structure_completion c) (ct_auto_assign c) private (ct_key_prefix c).
Definition with_policies (c : Container) (policy structure : CompletionPolicy) (auto : option AutoAssignDefinition)
    (at_ : Z) : Container :=
  mkContainer (ct_id c) (ct_type c) (ct_parent c) (ct_order_key c) (ct_archived_at c) (ct_deleted_at c)
    (ct_deleted_by c) (ct_parent_archived_at c) (ct_trash_batch c) at_ policy structure auto (ct_private c)
    (ct_key_prefix c).

Definition ErrPrivateOnlyHubs : Error :=
  field_refused ErrValidation "/private" "containers.private_only_hubs" [].

Definition checkParent (containerType : ContainerType) (parentID : ID) : res unit :=
  if String.eqb containerType ContainerHub && negb (id_is_zero parentID) then
    Err (field_refused ErrValidation "/parent_id" "containers.hub_has_no_parent" [])
  else if String.eqb containerType ContainerCollection && id_is_zero parentID then
    Err (field_refused ErrValidation "/parent_id" "containers.collection_needs_parent" [])
  else Ok tt.

Definition is_set (t : option Z) : bool := match t with Some _ => true | None => false end.

Definition ContainerIsArchived (c : Container) : bool := is_set (ct_archived_at c).
Definition IsEffectivelyArchived (c : Container) : bool := is_set (ct_archived_at c) || is_set (ct_parent_archived_at c).
Definition EffectiveArchivedAt (c : Container) : option Z :=
  match ct_archived_at c with Some t => Some t | None => ct_parent_archived_at c end.
Definition ArchivedRootID (c : Container) : ID :=
  if is_set (ct_archived_at c) then ct_id c
  else if is_set (ct_parent_archived_at c) then ct_parent c
  else "".
Definition ContainerIsTrashed (c : Container) : bool := is_set (ct_deleted_at c).

Definition EnsureAcceptsChildren (c : Container) (child : ContainerType) : res unit :=
  if ContainerIsTrashed c then Err (detailed ErrConflict "containers.parent_trashed" [("parent_id", ct_id c)])
  else if IsEffectivelyArchived c then
    Err (detailed ErrConflict "containers.parent_archived" [("parent_id", ct_id c); ("archived_id", ArchivedRootID c)])
  else if negb (TypeAllowsChild (ct_type c) child) then
    Err (field_refused ErrValidation "/parent_id" "containers.parent_type_invalid"
           [("parent_type", ct_type c); ("type", child)])
  else Ok tt.

Definition EnsureAcceptsItems (c : Container) : res unit :=
  if ContainerIsTrashed c then Err (detailed ErrConflict "items.collection_trashed" [("collection_id", ct_id c)])
  else if IsEffectivelyArchived c then
    Err (detailed ErrConflict "items.collection_archived"
           [("collection_id", ct_id c); ("archived_id", ArchivedRootID c)])
  else if negb (String.eqb (ct_type c) ContainerCollection) then
    Err (field_refused ErrValidation "/collection_id" "items.collection_required" [("container_type", ct_type c)])
  else Ok tt.

Definition FieldParentID : string := "parent_id".
Definition FieldOrderKey : string := "order_key".
Definition FieldPrivate : string := "private".
Definition FieldCompletionPolicy : string := "completion_policy".
Definition FieldAutoAssign : string := "auto_assign".
Definition FieldKeyPrefix : string := "key_prefix".

(** [c.Type] decides before the state does, in the operations only one kind
    has. *)
Definition containerEditable (c : Container) : res unit :=
  if ContainerIsTrashed c then Err (detailed ErrConflict "containers.trashed" [("container_id", ct_id c)])
  else if IsEffectivelyArchived c then
    Err (detailed ErrConflict "containers.archived" [("container_id", ct_id c); ("archived_id", ArchivedRootID c)])
  else Ok tt.

Definition containerLifecycleChangeable (c : Container) : res unit :=
  if ContainerIsTrashed c then Err (detailed ErrConflict "containers.trashed" [("container_id", ct_id c)])
  else if is_set (ct_parent_archived_at c) then
    Err (detailed ErrConflict "containers.archived" [("container_id", ct_id c); ("archived_id", ct_parent c)])
  else Ok tt.

Definition ContainerArchived (c : Container) (at_ : Z) : res (Container * list FieldChange) :=
  _ ← containerLifecycleChangeable c;
  if ContainerIsArchived c then Ok (c, [])
  else Ok (with_archived c (Some at_) at_, [mkChange FieldArchivedAt "" (instant at_)]).

Definition ContainerUnarchived (c : Container) (at_ : Z) : res (Container * list FieldChange) :=
  _ ← containerLifecycleChangeable c;
  if negb (ContainerIsArchived c) then Ok (c, [])
  else Ok (with_archived c None at_, [mkChange FieldArchivedAt (instant_of (ct_archived_at c)) ""]).

Definition ContainerTrashed (c : Container) (at_ : Z) (batch : ID) (by_ : DeletedBy) :
    res (Container * list FieldChange) :=
  if id_is_zero batch then Err (detailed ErrInternal "containers.trash_batch_missing" [])
  else if ContainerIsTrashed c then Ok (c, [])
  else
    _ ← containerLifecycleChangeable c;
    Ok (with_deleted c (Some at_) batch by_ at_, [mkChange FieldDeletedAt "" (instant at_)]).

Definition ContainerRestored (c : Container) (at_ : Z) : res (Container * list FieldChange) :=
  if negb (ContainerIsTrashed c) then Ok (c, [])
  else Ok (with_deleted c None "" nobody at_, [mkChange FieldDeletedAt (instant_of (ct_deleted_at c)) ""]).

Definition identity_incomplete : Error := detailed ErrInternal "containers.identity_incomplete" [].

Definition Ranked (c : Container) (orderKey : string) (at_ : Z) : res (Container * list FieldChange) :=
  _ ← containerEditable c;
  if String.eqb orderKey "" then Err identity_incomplete
  else if String.eqb orderKey (ct_order_key c) then Ok (c, [])
  else Ok (with_place c (ct_parent c) orderKey (ct_parent_archived_at c) at_,
           [mkChange FieldOrderKey (ct_order_key c) orderKey]).

Definition MovedInto (c parent : Container) (orderKey : string) (at_ : Z) : res (Container * list FieldChange) :=
  if negb (String.eqb (ct_type c) ContainerCollection) then
    Err (field_refused ErrValidation "/target_parent_id" "containers.hub_not_movable" [("container_id", ct_id c)])
  else
    _ ← containerEditable c;
    if String.eqb (ct_id parent) (ct_id c) then
      Err (field_refused ErrValidation "/target_parent_id" "containers.parent_is_self" [("container_id", ct_id c)])
    else
      _ ← EnsureAcceptsChildren parent (ct_type c);
      if String.eqb orderKey "" then Err identity_incomplete
      else if String.eqb (ct_id parent) (ct_parent c) && String.eqb orderKey (ct_order_key c) then Ok (c, [])
      else Ok (with_place c (ct_id parent) orderKey None at_,
               (if String.eqb (ct_id parent) (ct_parent c) then []
                else [mkChange FieldParentID (ct_parent c) (ct_id parent)]) ++
               (if String.eqb orderKey (ct_order_key c) then []
                else [mkChange FieldOrderKey (ct_order_key c) orderKey])).

(** [strconv.FormatBool]. *)
Definition format_bool (b : bool) : string := if b then "true" else "false".

Definition WithPrivacy (c : Container) (private : bool) (at_ : Z) : res (Container * list FieldChange) :=
  if negb (String.eqb (ct_type c) ContainerHub) then Err ErrPrivateOnlyHubs
  else
    _ ← containerEditable c;
    if Bool.eqb (ct_private c) private then Ok (c, [])
    else Ok (with_private c private at_,
             [mkChange FieldPrivate (format_bool (ct_private c)) (format_bool private)]).

Definition autoAssignChange (before after : option AutoAssignDefinition) : option FieldChange :=
  let moved := mkChange FieldAutoAssign
    (match before with Some d => ad_strategy d | None => "" end)
    (match after with Some d => ad_strategy d | None => "" end) in
  match before, after with
  | None, None => None
  | Some b, Some a => if DefinitionEqual b a then None else Some moved
  | _, _ => Some moved
  end.

Definition WithPolicies (c : Container) (policy : CompletionPolicy) (auto : option AutoAssignDefinition) (at_ : Z) :
    res (Container * list FieldChange) :=
  if negb (String.eqb (ct_type c) ContainerCollection) then
    Err (field_refused ErrValidation "/" "containers.policies_not_supported" [("container_type", ct_type c)])
  else
    _ ← containerEditable c;
    let policy := if String.eqb policy "" then DefaultCompletionPolicy else policy in
    if negb (CompletionPolicyValid policy) then
      Err (field_refused ErrValidation "/completion_policy" "containers.completion_policy_unknown" [("value", policy)])
    else
      _ ← (match auto with Some d => ValidateDefinition d | None => Ok tt end);
      let policy_changes :=
        if String.eqb policy (ct_completion_policy c) then []
        else [mkChange FieldCompletionPolicy (ct_completion_policy c) policy] in
      let assign := autoAssignChange (ct_auto_assign c) auto in
      let changes := policy_changes ++ (match assign with Some change => [change] | None => [] end) in
      let auto' := match assign with Some _ => auto | None => ct_auto_assign c end in
      let at' := match changes with [] => ct_updated_at c | _ => at_ end in
      Ok (with_policies c policy policy auto' at', changes).

(** Two to five capitals and digits, a capital first. *)
Definition is_capital (c : ascii) : bool := let n := N_of_ascii c in ((65 <=? n) && (n <=? 90))%N.
Definition is_decimal (c : ascii) : bool := let n := N_of_ascii c in ((48 <=? n) && (n <=? 57))%N.

Definition ValidKeyPrefix (prefix : string) : bool :=
  match prefix with
  | String first _ =>
      (2 <=? String.length prefix)%nat && (String.length prefix <=? 5)%nat && is_capital first &&
      str_forallb (fun c => is_capital c || is_decimal c) prefix
  | EmptyString => false
  end.

(** ContainerScopes.go. *)
Definition ContainerScopes (container : Container) : list Scope :=
  let path := [TenantScope] ++ (if id_is_zero (ct_parent container) then [] else [HubScope (ct_parent container)]) in
  if String.eqb (ct_type container) ContainerHub then path ++ [HubScope (ct_id container)]
  else path ++ [CollectionScope (ct_id container)].

(** ** The containers of a workspace *)

Abbreviation Shelf := (gmap ID Container).

(** What a read answers: the stored row and the stamp of its hub. *)
Definition read_container (t : Shelf) (id : ID) : option Container :=
  match t !! id with
  | None => None
  | Some c =>
      Some (with_place c (ct_parent c) (ct_order_key c)
              (match t !! ct_parent c with Some hub => ct_archived_at hub | None => None end) (ct_updated_at c))
  end.

(** A change of one container, written back. *)
Definition change_container (change : Container -> res (Container * list FieldChange)) (t : Shelf) (id : ID) :
    res (Shelf * list FieldChange) :=
  match read_container t id with
  | None => Err (detailed ErrNotFound "containers.not_found" [("container_id", id)])
  | Some c => r ← change c; Ok (<[id := r.1]> t, r.2)
  end.

(** ** What every container keeps *)

(** A hub has no parent and a collection one; the trash is whole; privacy is a
    hub's, policies are known and mirrored in the structure; a rank is set. *)
Record container_ok (c : Container) : Prop := {
  ok_type : ContainerTypeValid (ct_type c) = true;
  ok_parent : checkParent (ct_type c) (ct_parent c) = Ok tt;
  ok_trash : if ContainerIsTrashed c then ct_trash_batch c <> "" else ct_trash_batch c = "" /\ ct_deleted_by c = nobody;
  ok_private : ct_private c = true -> ct_type c = ContainerHub;
  ok_policy : CompletionPolicyValid (ct_completion_policy c) = true;
  ok_auto : match ct_auto_assign c with Some d => ValidateDefinition d = Ok tt | None => True end;
  ok_rank : ct_order_key c <> ""
}.

(** One operation with its arguments: what an authorised client can ask. *)
Inductive Operation : Type :=
  | OpArchive (at_ : Z)
  | OpUnarchive (at_ : Z)
  | OpTrash (at_ : Z) (batch : ID) (by_ : DeletedBy)
  | OpRestore (at_ : Z)
  | OpRank (orderKey : string) (at_ : Z)
  | OpMove (parent : Container) (orderKey : string) (at_ : Z)
  | OpPrivacy (private : bool) (at_ : Z)
  | OpPolicies (policy : CompletionPolicy) (auto : option AutoAssignDefinition) (at_ : Z).

Definition perform_op (op : Operation) (c : Container) : res (Container * list FieldChange) :=
  match op with
  | OpArchive at_ => ContainerArchived c at_
  | OpUnarchive at_ => ContainerUnarchived c at_
  | OpTrash at_ batch by_ => ContainerTrashed c at_ batch by_
  | OpRestore at_ => ContainerRestored c at_
  | OpRank key at_ => Ranked c key at_
  | OpMove parent key at_ => MovedInto c parent key at_
  | OpPrivacy private at_ => WithPrivacy c private at_
  | OpPolicies policy auto at_ => WithPolicies c policy auto at_
  end.

Lemma editable_bind {A} c (k : res A) r :
  (_ ← containerEditable c; k) = Ok r <-> ContainerIsTrashed c = false /\ IsEffectivelyArchived c = false /\ k = Ok r.
Proof.
  unfold containerEditable. destruct (ContainerIsTrashed c), (IsEffectivelyArchived c); cbn; intuition congruence.
Qed.

Lemma changeable_bind {A} c (k : res A) r :
  (_ ← containerLifecycleChangeable c; k) = Ok r <->
  ContainerIsTrashed c = false /\ ct_parent_archived_at c = None /\ k = Ok r.
Proof.
  unfold containerLifecycleChangeable. destruct (ContainerIsTrashed c), (ct_parent_archived_at c); cbn; intuition congruence.
Qed.

Lemma accepts_children_ok c child : EnsureAcceptsChildren c child = Ok tt <->
  ContainerIsTrashed c = false /\ IsEffectivelyArchived c = false /\ ct_type c = ContainerHub /\
  child = ContainerCollection.
Proof.
  unfold EnsureAcceptsChildren, TypeAllowsChild.
  destruct (ContainerIsTrashed c), (IsEffectivelyArchived c), (String.eqb_spec (ct_type c) ContainerHub),
    (String.eqb_spec child ContainerCollection); cbn; intuition congruence.
Qed.

Lemma moved_into_ok c parent key at_ c' changes : MovedInto c parent key at_ = Ok (c', changes) ->
  ct_type c = ContainerCollection /\ ct_id parent <> ct_id c /\ key <> "" /\
  ct_type parent = ContainerHub /\ ContainerIsTrashed parent = false /\ IsEffectivelyArchived parent = false /\
  ContainerIsTrashed c = false /\ IsEffectivelyArchived c = false /\
  (if String.eqb (ct_id parent) (ct_parent c) && String.eqb key (ct_order_key c)
   then c' = c /\ changes = [] else c' = with_place c (ct_id parent) key None at_ /\ changes <> []).
Proof.
  unfold MovedInto. destruct (String.eqb_spec (ct_type c) ContainerCollection) as [Ht|]; cbn [negb]; [|done].
  rewrite editable_bind. intros (Htr & Har & H). destruct (String.eqb_spec (ct_id parent) (ct_id c)); [done|].
  apply bind_ok in H as [[] [Hp H]]. apply accepts_children_ok in Hp as (Hpt & Hpa & Hph & _).
  destruct (String.eqb_spec key ""); [done|].
  destruct (String.eqb_spec (ct_id parent) (ct_parent c)), (String.eqb_spec key (ct_order_key c)); cbn [andb] in *;
    injection H as <- <-; repeat split; try done; congruence.
Qed.

Lemma policies_ok c policy auto at_ c' changes (Hok : container_ok c) :
  WithPolicies c policy auto at_ = Ok (c', changes) -> container_ok c' /\ ct_parent_archived_at c' = ct_parent_archived_at c.
Proof.
  unfold WithPolicies. destruct (String.eqb_spec (ct_type c) ContainerCollection) as [Ht|]; cbn [negb]; [|done].
  rewrite editable_bind. intros (Htr & Har & H).
  set (p := if String.eqb policy "" then DefaultCompletionPolicy else policy) in *.
  destruct (CompletionPolicyValid p) eqn:Ep; cbn [negb] in H; [|done]. apply bind_ok in H as [[] [Hd H]].
  injection H as <- <-. destruct Hok. split; [|done]. split; cbn; try done.
  unfold autoAssignChange. destruct (ct_auto_assign c) as [b|], auto as [a|]; try done. by destruct (DefinitionEqual b a).
Qed.

Lemma lifecycle_op_ok c op c' changes (Hok : container_ok c) :
  match op with OpArchive _ | OpUnarchive _ | OpTrash _ _ _ | OpRestore _ => True | _ => False end ->
  perform_op op c = Ok (c', changes) -> container_ok c' /\ ct_parent_archived_at c' = ct_parent_archived_at c.
Proof.
  intros Hop. destruct Hok as [H1 H2 H3 H4 H5 H6 H7].
  destruct op; try done; cbn [perform_op]; unfold ContainerArchived, ContainerUnarchived, ContainerTrashed, ContainerRestored.
  - rewrite changeable_bind. intros (_ & _ & H). destruct (ContainerIsArchived c); injection H as <- <-; by repeat split.
  - rewrite changeable_bind. intros (_ & _ & H).
    destruct (ContainerIsArchived c); injection H as <- <-; by repeat split.
  - unfold id_is_zero. destruct (String.eqb_spec batch ""); [done|].
    destruct (ContainerIsTrashed c) eqn:E; [intros [= <- <-]; repeat split; try done; by rewrite E|].
    rewrite changeable_bind. intros (_ & _ & [= <- <-]). by repeat split.
  - destruct (ContainerIsTrashed c) eqn:E; cbn [negb]; intros [= <- <-]; repeat split; try done; by rewrite E.
Qed.

Lemma perform_op_ok c op c' changes (Hok : container_ok c)
  (Hparent : match op with OpMove parent _ _ => ct_id parent <> "" | _ => True end) :
  perform_op op c = Ok (c', changes) -> container_ok c' /\ ct_id c' = ct_id c /\ ct_type c' = ct_type c.
Proof.
  intros H. assert (Hsame : ct_id c' = ct_id c /\ ct_type c' = ct_type c).
  { revert H. destruct op; cbn [perform_op]; unfold ContainerArchived, ContainerUnarchived, ContainerTrashed,
      ContainerRestored, Ranked, WithPrivacy, WithPolicies; intros H.
    6: { apply moved_into_ok in H as (_ & _ & _ & _ & _ & _ & _ & _ & H). revert H. case_match; by intros [-> _]. }
    all: repeat (first [apply changeable_bind in H as (_ & _ & H) | apply editable_bind in H as (_ & _ & H) |
      apply bind_ok in H as [[] [_ H]] | case_match; try done]); try (by injection H as <- _). }
  split; [|done]. destruct op; try (refine (proj1 (lifecycle_op_ok _ _ _ _ Hok _ H)); exact I).
  - cbn in H. unfold Ranked in H. apply editable_bind in H as (_ & _ & H). destruct Hok.
    destruct (String.eqb_spec orderKey ""); [done|]. destruct (String.eqb orderKey _); injection H as <- <-; by split.
  - apply moved_into_ok in H as (Ht & _ & Hk & _ & _ & _ & _ & _ & H). destruct Hok as [H1 H2 H3 H4 H5 H6 H7].
    destruct (String.eqb (ct_id parent) (ct_parent c) && _); destruct H as [-> _]; [by split|].
    split; try done. cbn. rewrite Ht. unfold checkParent, id_is_zero.
    cbn. by rewrite (proj2 (String.eqb_neq _ _) Hparent).
  - cbn in H. unfold WithPrivacy in H. destruct (String.eqb_spec (ct_type c) ContainerHub); [|done]. cbn [negb] in H.
    apply editable_bind in H as (_ & _ & H). destruct Hok. destruct (Bool.eqb _ _); injection H as <- <-; by split.
  - exact (proj1 (policies_ok _ _ _ _ _ _ Hok H)).
Qed.

(** An operation, or a later read that finds the hub's stamp changed. *)
Inductive container_step : Container -> Container -> Prop :=
  | step_op op c c' changes :
      match op with OpMove parent _ _ => ct_id parent <> "" | _ => True end ->
      perform_op op c = Ok (c', changes) -> container_step c c'
  | step_read c stamp :
      container_step c (with_place c (ct_parent c) (ct_order_key c) stamp (ct_updated_at c)).

(** A container stays well formed whatever is done to it, in whatever
    order: a hub never gets a parent and a collection never loses one - a move
    puts it under a hub that accepts it -, a trash batch is set exactly in the
    trash, only hubs are private, policies stay known, the rank stays set, and
    neither its identity nor its kind changes. *)
Theorem container_invariants c c' (Hreach : rtc container_step c c') (Hok : container_ok c) :
  container_ok c' /\ ct_id c' = ct_id c /\ ct_type c' = ct_type c.
Proof.
  induction Hreach as [c|c d c' Hstep Hreach IH]; [done|].
  assert (H : container_ok d /\ ct_id d = ct_id c /\ ct_type d = ct_type c).
  { destruct Hstep as [op c d changes Hparent H|c stamp]; [by eapply perform_op_ok|].
    destruct Hok. split; [by split|done]. }
  destruct H as (Hd & Hid & Htype). destruct (IH Hd) as (H1 & H2 & H3). by rewrite H2, H3.
Qed.

Lemma editable_refuses {A} c (k : res A) :
  ContainerIsTrashed c = true \/ IsEffectivelyArchived c = true -> exists e, (_ ← containerEditable c; k) = Err e.
Proof.
  unfold containerEditable. destruct (ContainerIsTrashed c), (IsEffectivelyArchived c); cbn; intros [?|?]; try done; by eexists.
Qed.

(** Read-only means read-only (I-C3): a container in the trash, archived
    or under an archived hub accepts no entries and no collections, and cannot
    be ranked, moved, made private or given policies; one under an archived
    hub, or in the trash, cannot be archived or unarchived on its own either,
    and what it refuses with is the container to unarchive; in the trash only a
    restore changes it. *)
Theorem container_read_only c (Hclosed : ContainerIsTrashed c = true \/ IsEffectivelyArchived c = true) :
  (forall child, EnsureAcceptsItems c <> Ok tt /\ EnsureAcceptsChildren c child <> Ok tt) /\
  (forall op, match op with OpRank _ _ | OpMove _ _ _ | OpPrivacy _ _ | OpPolicies _ _ _ => True | _ => False end ->
     exists e, perform_op op c = Err e) /\
  (ContainerIsTrashed c = true ->
     forall op c' changes, perform_op op c = Ok (c', changes) -> c' <> c -> exists at_, op = OpRestore at_) /\
  (ContainerIsTrashed c = false -> ct_parent_archived_at c <> None ->
     forall op c' changes, perform_op op c = Ok (c', changes) -> c' = c /\ changes = []) /\
  (ContainerIsTrashed c = false -> ct_parent_archived_at c <> None -> forall at_,
     ContainerArchived c at_ =
       Err (detailed ErrConflict "containers.archived" [("container_id", ct_id c); ("archived_id", ct_parent c)])).
Proof.
  assert (Hedit : forall op, match op with OpRank _ _ | OpMove _ _ _ | OpPrivacy _ _ | OpPolicies _ _ _ => True | _ => False end ->
     exists e, perform_op op c = Err e).
  { intros op Hop. destruct op; try done; cbn [perform_op]; unfold Ranked, MovedInto, WithPrivacy, WithPolicies;
      repeat case_match; try done; try (by eexists); by apply editable_refuses. }
  split; [|split; [exact Hedit|split; [|split]]].
  - intros child. unfold EnsureAcceptsItems, EnsureAcceptsChildren.
    destruct (ContainerIsTrashed c), (IsEffectivelyArchived c); cbn; destruct Hclosed; done.
  - intros Ht op c' changes H Hne. destruct op as [?|?|? batch ?|at_|? ?|? ? ?|? ?|? ? ?];
      try (match type of H with perform_op ?o _ = _ => destruct (Hedit o I) as [e He]; congruence end); cbn in H.
    + apply changeable_bind in H as (? & _). congruence.
    + apply changeable_bind in H as (? & _). congruence.
    + unfold ContainerTrashed in H. destruct (id_is_zero batch); [done|]. rewrite Ht in H. congruence.
    + by exists at_.
  - intros Ht Hp op c' changes H. destruct op as [?|?|? batch ?|at_|? ?|? ? ?|? ?|? ? ?];
      try (match type of H with perform_op ?o _ = _ => destruct (Hedit o I) as [e He]; congruence end); cbn in H.
    + apply changeable_bind in H as (_ & ? & _). congruence.
    + apply changeable_bind in H as (_ & ? & _). congruence.
    + unfold ContainerTrashed in H. destruct (id_is_zero batch); [done|]. rewrite Ht in H.
      apply changeable_bind in H as (_ & ? & _). congruence.
    + unfold ContainerRestored in H. rewrite Ht in H. cbn in H. by injection H as <- <-.
  - intros Ht Hp at_. unfold ContainerArchived, containerLifecycleChangeable. rewrite Ht.
    by destruct (ct_parent_archived_at c).
Qed.

(** A workspace's containers: stored under their identifiers, none under the
    empty one. *)
Definition shelf_ok (t : Shelf) : Prop := t !! "" = None /\ forall id c, t !! id = Some c -> ct_id c = id.

Lemma read_insert_other t h hub id (Hne : id <> h) : ct_id hub = h ->
  read_container (<[h := hub]> t) id =
  match t !! id with
  | None => None
  | Some c => Some (with_place c (ct_parent c) (ct_order_key c)
      (if String.eqb (ct_parent c) h then ct_archived_at hub
       else match t !! ct_parent c with Some hub' => ct_archived_at hub' | None => None end) (ct_updated_at c))
  end.
Proof.
  intros Hid. unfold read_container. rewrite lookup_insert_ne by done. destruct (t !! id) as [c|]; [|done].
  destruct (String.eqb_spec (ct_parent c) h) as [->|Hp]; [by rewrite lookup_insert_eq|by rewrite lookup_insert_ne].
Qed.

(** Archiving a hub reaches everything on it and nothing else, and
    unarchiving it gives back exactly what it covered: while it is archived
    every collection on it reads as archived - by its own stamp or by the
    hub's, which is what it names -, every other container reads as before,
    and after unarchiving every container but the hub reads as before it all. *)
Theorem archive_hub_roundtrip t h hub at1 at2 (Hshelf : shelf_ok t) (Hh : t !! h = Some hub)
  (Hhub : ct_type hub = ContainerHub /\ ct_parent hub = "")
  (Hopen : ContainerIsTrashed hub = false /\ ct_archived_at hub = None) :
  exists t1 t2 changes1 changes2,
    change_container (fun c => ContainerArchived c at1) t h = Ok (t1, changes1) /\
    change_container (fun c => ContainerUnarchived c at2) t1 h = Ok (t2, changes2) /\
    (forall id c, id <> h -> t !! id = Some c -> ct_parent c = h ->
       exists v, read_container t1 id = Some v /\ IsEffectivelyArchived v = true /\ EnsureAcceptsItems v <> Ok tt /\
         ArchivedRootID v = (if is_set (ct_archived_at c) then id else h)) /\
    (forall id c, id <> h -> t !! id = Some c -> ct_parent c <> h -> read_container t1 id = read_container t id) /\
    (forall id, id <> h -> read_container t2 id = read_container t id).
Proof.
  destruct Hshelf as [Hempty Hids], Hhub as [Htype Hparent], Hopen as [Htrash Harch]. pose proof (Hids _ _ Hh) as Hid.
  assert (Hread : read_container t h = Some (with_place hub "" (ct_order_key hub) None (ct_updated_at hub))).
  { unfold read_container. by rewrite Hh, Hparent, Hempty. }
  assert (Hhne : h <> "") by congruence.
  unfold change_container. rewrite Hread. unfold ContainerArchived at 1, containerLifecycleChangeable at 1,
    ContainerIsArchived at 1. cbn [ct_archived_at with_place ct_parent_archived_at is_set].
  replace (ContainerIsTrashed (with_place hub "" (ct_order_key hub) None (ct_updated_at hub))) with false by done.
  rewrite Harch. cbn [is_set mbind result_bind fst snd].
  set (hub1 := with_archived _ (Some at1) at1). eexists _, _, _, _. split; [done|].
  assert (Hread1 : read_container (<[h := hub1]> t) h = Some (with_place hub1 "" (ct_order_key hub1) None at1)).
  { unfold read_container. rewrite lookup_insert_eq. cbn. by rewrite lookup_insert_ne, Hempty by done. }
  rewrite Hread1. unfold ContainerUnarchived, containerLifecycleChangeable.
  replace (ContainerIsTrashed (with_place hub1 "" (ct_order_key hub1) None at1)) with false by done. cbn [with_place].
  split; [done|]. rewrite insert_insert_eq. split; [|split].
  - intros id c Hne Hc Hp. rewrite (read_insert_other t h hub1) by done. rewrite Hc, Hp, String.eqb_refl.
    eexists. split; [done|].
    match goal with |- IsEffectivelyArchived ?v = true /\ _ =>
      assert (Heff : IsEffectivelyArchived v = true) by (unfold IsEffectivelyArchived; cbn; by rewrite orb_true_r)
    end.
    split; [exact Heff|]. split; [unfold EnsureAcceptsItems; rewrite Heff; by case_match|].
    unfold ArchivedRootID. cbn. rewrite (Hids _ _ Hc). by destruct (ct_archived_at c).
  - intros id c Hne Hc Hp. rewrite (read_insert_other t h hub1) by done. unfold read_container. rewrite Hc.
    by rewrite (proj2 (String.eqb_neq _ _) Hp).
  - intros id Hne. rewrite read_insert_other by done. unfold read_container. destruct (t !! id) as [c|]; [|done].
    destruct (String.eqb_spec (ct_parent c) h) as [->|]; [|done]. by rewrite Hh, Harch.
Qed.

(** ** A hub with a collection on it *)

Definition example_hub : Container :=
  mkContainer "h1" ContainerHub "" "a0" None None nobody None "" 0 CompletionManual CompletionManual None false "".
Definition example_collection : Container :=
  mkContainer "c1" ContainerCollection "h1" "a0" None None nobody None "" 0 CompletionManual CompletionManual None
    false "AB".
Definition example_shelf : Shelf := {["h1" := example_hub; "c1" := example_collection]}.

Lemma example_hub_ok : container_ok example_hub.
Proof. by split. Qed.

Lemma container_invariants_witness : container_ok (with_private example_hub true 5).
Proof.
  apply (container_invariants example_hub); [|exact example_hub_ok]. apply rtc_once.
  by apply (step_op (OpPrivacy true 5) _ _ [mkChange FieldPrivate "false" "true"]).
Defined.

Lemma container_read_only_witness : exists e,
  Ranked (with_place example_collection "h1" "a0" (Some 3) 0) "a1" 9 = Err e.
Proof.
  destruct (container_read_only (with_place example_collection "h1" "a0" (Some 3) 0)) as (_ & H & _).
  - right. reflexivity.
  - exact (H (OpRank "a1" 9) I).
Defined.

Lemma example_shelf_ok : shelf_ok example_shelf.
Proof.
  split; [reflexivity|]. intros id c H. unfold example_shelf in H.
  apply lookup_insert_Some in H as [[<- <-]|[_ H]]; [reflexivity|]. apply lookup_singleton_Some in H as [<- <-].
  reflexivity.
Qed.

Lemma archive_hub_roundtrip_witness : exists t1 changes v,
  change_container (fun c => ContainerArchived c 7) example_shelf "h1" = Ok (t1, changes) /\
  read_container t1 "c1" = Some v /\ ArchivedRootID v = "h1".
Proof.
  destruct (archive_hub_roundtrip example_shelf "h1" example_hub 7 8 example_shelf_ok eq_refl (conj eq_refl eq_refl)
    (conj eq_refl eq_refl)) as (t1 & t2 & ch1 & ch2 & H1 & _ & Hon & _).
  destruct (Hon "c1" example_collection ltac:(discriminate) eq_refl eq_refl) as (v & Hv & _ & _ & Hroot).
  exists t1, ch1, v. split; [exact H1|]. split; [exact Hv|exact Hroot].
Defined.
