(* ===== verification/Hierarchy.v ===== *)
(** * The tree of entries

    Models core/domain/service/Hierarchy.go - where an entry may sit, for a
    create and for a move - and what a collection's tree is under it: a create
    at the placement it answered (checkPlacement of Item.go, in Item.v), and
    the move of core/application/service/work/MoveWorkItem.go with the rewrite
    of the subtree's paths that its repository promises
    (core/application/repository/work/Port.go, MoveSubtree).

    The theorems: the answer of a placement on every branch; that creating and
    moving keep the tree a tree - every path spells the chain of parents from
    the root down, depths count it, no entry is below itself -; that depths
    stay within the budget the profiles give; that a path gives back the
    identifiers it was built from. *)

From Stdlib Require Import ZArith Lia String Ascii List Bool.
From stdpp Require Import base list strings gmap.
From S2P Require Import Prelude Shared Assignment Item Container.

Open Scope string_scope.
Open Scope list_scope.
Open Scope Z_scope.

(** ** Hierarchy.go *)

Record Hierarchy := mkHierarchy {
  h_profiles : gmap ItemType CapabilityProfile;
  h_roots : gset ItemType
}.

Record Placement := mkPlacement { pl_parent : ID; pl_depth : Z; pl_parent_path : string }.

Definition PathOf (p : Placement) (id : ID) : string := pl_parent_path p +:+ id +:+ slash.

Definition ParentPath (p : Placement) : string :=
  if String.eqb (pl_parent_path p) "" then slash else pl_parent_path p.

Definition profiles_incoherent (itemType : ItemType) : Error :=
  detailed ErrInternal "items.profiles_incoherent" [("item_type", itemType)].

Definition index_profile (profiles : gmap ItemType CapabilityProfile) (p : CapabilityProfile) :
    res (gmap ItemType CapabilityProfile) :=
  match profiles !! cp_type p with
  | Some _ => Err (profiles_incoherent (cp_type p))
  | None => Ok (<[cp_type p := p]> profiles)
  end.

(** Every child another type accepts is not a root. *)
Definition drop_children (roots : gset ItemType) (p : CapabilityProfile) : gset ItemType :=
  foldl (fun roots child => if String.eqb child (cp_type p) then roots else roots ∖ {[child]})
    roots (cp_allowed_child_types p).

Definition NewHierarchy (inForce system : list CapabilityProfile) : res Hierarchy :=
  profiles ← fold_result index_profile ∅ inForce;
  let roots : gset ItemType := foldl drop_children (list_to_set (cp_type <$> system)) system in
  if negb (Nat.eqb (List.length system) 0) && Nat.eqb (size roots) 0 then
    Err (detailed ErrInternal "items.profiles_incoherent" [])
  else Ok (mkHierarchy profiles roots).

Definition type_unsupported (itemType : ItemType) : Error :=
  field_refused ErrValidation "/type" "items.type_unsupported" [("item_type", itemType)].

Definition Profile (h : Hierarchy) (itemType : ItemType) : res CapabilityProfile :=
  match h_profiles h !! itemType with
  | Some p => Ok p
  | None => Err (type_unsupported itemType)
  end.

Definition IsRoot (h : Hierarchy) (itemType : ItemType) : bool := bool_decide (itemType ∈ h_roots h).

Definition depthExceeded (childType : ItemType) (maximum : Z) : Error :=
  field_refused ErrValidation "/parent_id" "items.depth_exceeded"
    [("item_type", childType); ("maximum", itoa maximum)].

Definition Place (h : Hierarchy) (parent : option WorkItem) (childType : ItemType) : res Placement :=
  child ← Profile h childType;
  if cp_max_depth child <? 1 then Err (depthExceeded childType (cp_max_depth child))
  else match parent with
  | None =>
      if negb (IsRoot h childType) then
        Err (field_refused ErrValidation "/parent_id" "items.parent_item_required" [("item_type", childType)])
      else Ok (mkPlacement "" 1 slash)
  | Some parent =>
      if IsTrashed parent then
        Err (detailed ErrConflict "items.parent_trashed" [("parent_id", wi_id parent)])
      else if IsArchived parent then
        Err (detailed ErrConflict "items.parent_archived" [("parent_id", wi_id parent)])
      else match Profile h (wi_type parent) with
      | Ok above =>
          if negb (AllowsChild above childType) then
            Err (field_refused ErrValidation "/parent_id" "items.parent_type_invalid"
                   [("item_type", childType); ("parent_type", wi_type parent)])
          else if cp_max_depth above <? 1 + cp_max_depth child then
            Err (depthExceeded childType (cp_max_depth above))
          else Ok (mkPlacement (wi_id parent) (wi_depth parent + 1) (wi_path parent))
      | _ => Err (profiles_incoherent (wi_type parent))
      end
  end.

Definition Move (h : Hierarchy) (item : WorkItem) (parent : option WorkItem) : res Placement :=
  match parent with
  | None => Place h None (wi_type item)
  | Some p =>
      if String.eqb (wi_id item) (wi_id p) then
        Err (field_refused ErrValidation "/target_parent_id" "items.parent_is_self" [("item_id", wi_id item)])
      else if Contains item p then
        Err (field_refused ErrValidation "/target_parent_id" "items.parent_in_own_subtree"
               [("item_id", wi_id item); ("parent_id", wi_id p)])
      else Place h (Some p) (wi_type item)
  end.

(** ** The tree of one workspace *)

Abbreviation Tree := (gmap ID WorkItem).

(** [LIKE old_prefix || '%'] and the swap of the prefix. *)
Definition under (prefix : string) (i : WorkItem) : bool := str_has_prefix prefix (wi_path i).
Definition swap_prefix (old new path : string) : string := new +:+ str_drop (String.length old) path.

(** *** ItemRepository.go *)


Definition version_conflict (id : ID) (expected : Z) : Error :=
  detailed ErrVersionConflict "items.version_conflict" [("item_id", id); ("expected_version", itoa expected)].

(** The placement a move writes, and what of a row it leaves. *)
Record MoveRow := mkMoveRow {
  mv_item : WorkItem;
  mv_parent : ID;
  mv_collection : ID;
  mv_old_prefix : string;
  mv_new_prefix : string;
  mv_depth_delta : Z;
  mv_order_key : string;
  mv_bucket : ID;
  mv_updated_at : Z;
  mv_expected_version : Z
}.

(** [SetWorkItemPlacement]: the moved row. *)
Definition SetWorkItemPlacement (m : MoveRow) (row : WorkItem) : WorkItem :=
  set_placement row (mv_collection m) (mv_parent m) (mv_new_prefix m) (wi_depth (mv_item m) + mv_depth_delta m)
    (mv_bucket m) (mv_order_key m) (wi_version row + 1) (mv_updated_at m).

(** [MoveWorkItemSubtree]: every other row whose path starts with the old
    prefix. *)
Definition MoveWorkItemSubtree (m : MoveRow) (row : WorkItem) : WorkItem :=
  if under (mv_old_prefix m) row && negb (String.eqb (wi_id row) (wi_id (mv_item m))) then
    set_placement row (mv_collection m) (wi_parent row)
      (swap_prefix (mv_old_prefix m) (mv_new_prefix m) (wi_path row)) (wi_depth row + mv_depth_delta m)
      (wi_bucket row) (wi_order_key row) (wi_version row + 1) (mv_updated_at m)
  else row.

Definition MoveSubtree (t : Tree) (m : MoveRow) : res Tree :=
  match t !! wi_id (mv_item m) with
  | Some row =>
      if negb (wi_version row =? mv_expected_version m) then
        Err (version_conflict (wi_id (mv_item m)) (mv_expected_version m))
      else Ok (MoveWorkItemSubtree m <$> <[wi_id (mv_item m) := SetWorkItemPlacement m row]> t)
  | None => Err (version_conflict (wi_id (mv_item m)) (mv_expected_version m))
  end.

(** [SetWorkItemOrderKey]: a reorder within the level. *)
Definition SetOrderKey (t : Tree) (item : WorkItem) (expected : Z) : res Tree :=
  match t !! wi_id item with
  | Some row =>
      if negb (wi_version row =? expected) then Err (version_conflict (wi_id item) expected)
      else Ok (<[wi_id item :=
                 set_placement row (wi_collection row) (wi_parent row) (wi_path row) (wi_depth row) (wi_bucket item)
                   (wi_order_key item) (wi_version row + 1) (wi_updated_at item)]> t)
  | None => Err (version_conflict (wi_id item) expected)
  end.

(** *** Items.go: the finders *)

Definition findItem (t : Tree) (id : ID) : res WorkItem :=
  match t !! id with
  | Some i => Ok i
  | None => Err (detailed ErrNotFound "items.not_found" [("item_id", id)])
  end.

Definition findParentItem (t : Tree) (id : ID) : res WorkItem :=
  match t !! id with
  | Some i => Ok i
  | None => Err (field_refused ErrNotFound "/target_parent_id" "items.parent_not_found" [("parent_id", id)])
  end.

Definition findCollection (s : Shelf) (id : ID) : res Container :=
  match read_container s id with
  | Some c => Ok c
  | None => Err (detailed ErrInternal "items.collection_missing" [])
  end.

Definition findTargetCollection (s : Shelf) (id : ID) : res Container :=
  match read_container s id with
  | Some c => Ok c
  | None => Err (field_refused ErrNotFound "/target_collection_id" "items.collection_not_found" [("collection_id", id)])
  end.

(** *** MoveWorkItem.go *)

Record MoveWorkItemCommand := mkMove {
  mc_item : ID;
  mc_target_parent : ID;
  mc_parent_given : bool;
  mc_target_collection : ID;
  mc_target_bucket : ID;
  mc_bucket_given : bool;
  mc_expected_version : Z
}.

Definition with_target_parent (cmd : MoveWorkItemCommand) (parent : ID) : MoveWorkItemCommand :=
  mkMove (mc_item cmd) parent (mc_parent_given cmd) (mc_target_collection cmd) (mc_target_bucket cmd)
    (mc_bucket_given cmd) (mc_expected_version cmd).

Record placement := mkPlan {
  pn_item : WorkItem;
  pn_parent : option WorkItem;
  pn_source : Container;
  pn_destination : Container;
  pn_command : MoveWorkItemCommand
}.

Definition reparents (p : placement) : bool :=
  negb (String.eqb (wi_parent (pn_item p)) (mc_target_parent (pn_command p))) ||
  negb (String.eqb (ct_id (pn_source p)) (ct_id (pn_destination p))).

Definition destination_of (s : Shelf) (cmd : MoveWorkItemCommand) (source : Container) (parent : option WorkItem) :
    res Container :=
  match parent with
  | Some p =>
      if negb (id_is_zero (mc_target_collection cmd)) && negb (String.eqb (mc_target_collection cmd) (wi_collection p)) then
        Err (field_refused ErrValidation "/target_collection_id" "items.collection_contradicts_parent"
               [("collection_id", mc_target_collection cmd); ("parent_id", wi_id p)])
      else if negb (String.eqb (wi_collection p) (ct_id source)) then findCollection s (wi_collection p)
      else Ok source
  | None =>
      if negb (id_is_zero (mc_target_collection cmd)) then findTargetCollection s (mc_target_collection cmd)
      else if mc_parent_given cmd then
        Err (field_refused ErrValidation "/target_collection_id" "items.collection_or_parent_required" [])
      else Ok source
  end.

Definition read (t : Tree) (s : Shelf) (cmd : MoveWorkItemCommand) : res placement :=
  item ← findItem t (mc_item cmd);
  source ← findCollection s (wi_collection item);
  let targetParentID := if mc_parent_given cmd then mc_target_parent cmd else wi_parent item in
  parent ← (if id_is_zero targetParentID then Ok None
            else found ← findParentItem t targetParentID; Ok (Some found));
  destination ← destination_of s cmd source parent;
  Ok (mkPlan item parent source destination (with_target_parent cmd targetParentID)).

(** [after], as [write] builds it before its version is counted. *)
Definition moved_item (plan : placement) (spot : Placement) (orderKey : string) (now : Z) : WorkItem :=
  let before := pn_item plan in
  let bucket :=
    if mc_bucket_given (pn_command plan) then mc_target_bucket (pn_command plan)
    else if negb (String.eqb (ct_id (pn_destination plan)) (wi_collection before)) then ""
    else wi_bucket before in
  set_placement before (ct_id (pn_destination plan)) (pl_parent spot) (SubtreePathUnder before (ParentPath spot))
    (pl_depth spot) bucket orderKey (wi_version before) now.

Definition write (t : Tree) (plan : placement) (spot : Placement) (orderKey : string) (now : Z) : res Tree :=
  let before := pn_item plan in
  let expected :=
    if mc_expected_version (pn_command plan) =? 0 then wi_version before else mc_expected_version (pn_command plan) in
  let after := moved_item plan spot orderKey now in
  if reparents plan then
    MoveSubtree t (mkMoveRow before (pl_parent spot) (ct_id (pn_destination plan)) (wi_path before) (wi_path after)
      (wi_depth after - wi_depth before) orderKey (wi_bucket after) now expected)
  else SetOrderKey t after expected.

Definition notEditable (item : WorkItem) : Error :=
  detailed ErrConflict (if IsTrashed item then "items.trashed" else "items.archived") [("item_id", wi_id item)].

Section MoveWorkItem.

(** What [perform] asks the gates of the collection's structure, the board and
    the ranks: they may refuse, and the last answers a rank. *)
Context (gates : placement -> Placement -> res unit) (rankAt : placement -> Placement -> res string).

Definition perform (h : Hierarchy) (t : Tree) (s : Shelf) (command : MoveWorkItemCommand) (now : Z) : res Tree :=
  fresh ← read t s command;
  _ ← EnsureAcceptsItems (pn_destination fresh);
  _ ← (if negb (String.eqb (ct_id (pn_source fresh)) (ct_id (pn_destination fresh)))
       then EnsureAcceptsItems (pn_source fresh) else Ok tt);
  if IsTrashed (pn_item fresh) || IsArchived (pn_item fresh) then Err (notEditable (pn_item fresh))
  else
    spot ← Move h (pn_item fresh) (pn_parent fresh);
    _ ← gates fresh spot;
    orderKey ← rankAt fresh spot;
    write t fresh spot orderKey now.

End MoveWorkItem.

(** *** CreateWorkItem.go *)

(** The finder of a create, which names the field the client sent. *)
Definition findNamedCollection (s : Shelf) (id : ID) : res Container :=
  match read_container s id with
  | Some c => Ok c
  | None => Err (field_refused ErrNotFound "/collection_id" "items.collection_not_found" [("collection_id", id)])
  end.

(** [findParent] and [parentOf]: a parent has to live in the collection. *)
Definition parentOf (t : Tree) (parentID collectionID : ID) : res (option WorkItem) :=
  if id_is_zero parentID then Ok None
  else match t !! parentID with
       | None => Err (field_refused ErrNotFound "/parent_id" "items.parent_not_found" [("parent_id", parentID)])
       | Some parent =>
           if negb (String.eqb (wi_collection parent) collectionID) then
             Err (field_refused ErrValidation "/parent_id" "items.parent_not_in_collection" [("parent_id", parentID)])
           else Ok (Some parent)
       end.

(** What [NewWorkItem] makes of a placement; the checks of the entry's texts
    are left out. *)
Definition placed_item (id tenant collection : ID) (itemType : ItemType) (profile : CapabilityProfile)
    (parent : ID) (path : string) (depth : Z) (bucket : ID) (orderKey calendarUID : string) (now : Z) : res WorkItem :=
  if negb (ItemTypeValid itemType) then
    Err (field_refused ErrValidation "/type" "items.type_unknown" [("value", itemType)])
  else if negb (String.eqb (cp_type profile) itemType) then
    Err (detailed ErrInternal "items.profile_mismatched" [])
  else
    _ ← (if negb (id_is_zero bucket) then Require_ profile CapabilityBucket "/bucket_id" else Ok tt);
    _ ← checkCalendarUID calendarUID;
    _ ← checkPlacement id parent path depth;
    if id_is_zero id || id_is_zero tenant || id_is_zero collection || String.eqb orderKey "" then
      Err (detailed ErrInternal "items.identity_incomplete" [])
    else Ok (mkWorkItem id tenant collection itemType parent path depth not_completed 0 bucket orderKey "" None None
               nobody "" now 1).

Section CreateWorkItem.

(** The structure's gates, which may refuse and narrow the profile; the rank;
    the store's refusal of an identifier that is taken. *)
Context (offer : Container -> option WorkItem -> CapabilityProfile -> res CapabilityProfile)
  (itemOrderKey : ID -> ID -> res string) (taken : ID -> Error).

(** [build] and the insert. *)
Definition create (h : Hierarchy) (t : Tree) (s : Shelf) (id tenant collectionID parentID : ID) (itemType : ItemType)
    (bucket : ID) (calendarUID : string) (now : Z) : res Tree :=
  collection ← findNamedCollection s collectionID;
  _ ← EnsureAcceptsItems collection;
  parent ← parentOf t parentID (ct_id collection);
  profile ← Profile h itemType;
  spot ← Place h parent itemType;
  profile ← offer collection parent profile;
  if negb (IsUUIDv7 id) then
    Err (field_refused ErrValidation "/id" "sync.id_not_uuidv7" [])
  else
    orderKey ← itemOrderKey (ct_id collection) (pl_parent spot);
    item ← placed_item id tenant (ct_id collection) itemType profile (pl_parent spot) (PathOf spot id) (pl_depth spot)
      bucket orderKey calendarUID now;
    match t !! id with
    | Some _ => Err (taken id)
    | None => Ok (<[id := item]> t)
    end.

End CreateWorkItem.

(** ** Paths as lists of identifiers *)

Definition slash_free (id : ID) : Prop := str_contains PathSeparator id = false.

Fixpoint body (ids : list ID) : string :=
  match ids with [] => "" | id :: rest => id +:+ slash +:+ body rest end.

(** The path of a chain of identifiers, the root's first. *)
Definition segs (ids : list ID) : string := slash +:+ body ids.

Lemma body_app xs ys : body (xs ++ ys) = body xs +:+ body ys.
Proof. induction xs as [|x xs IH]; cbn [body app]; [done|]. by rewrite IH, !str_app_assoc. Qed.

Lemma segs_app xs ys : segs (xs ++ ys) = segs xs +:+ body ys.
Proof. unfold segs. by rewrite body_app, str_app_assoc. Qed.

Lemma segs_snoc xs x : segs (xs ++ [x]) = segs xs +:+ x +:+ slash.
Proof. rewrite segs_app. cbn [body]. by rewrite str_app_nil_r. Qed.

(** Two slash-free segments that each end at a slash are the same. *)
Lemma segment_eq x y a b : slash_free x -> slash_free y ->
  x +:+ String PathSeparator a = y +:+ String PathSeparator b -> x = y /\ a = b.
Proof.
  unfold slash_free. revert y. induction x as [|c x IH]; intros [|d y] Hx Hy H; cbn in *.
  - by injection H.
  - injection H as <- _. by rewrite Ascii.eqb_refl in Hy.
  - injection H as -> _. by rewrite Ascii.eqb_refl in Hx.
  - apply orb_false_iff in Hx as [_ Hx], Hy as [_ Hy]. injection H as -> H. by destruct (IH y Hx Hy H) as [-> ->].
Qed.

Lemma body_prefix xs ys : Forall slash_free xs -> Forall slash_free ys ->
  (exists b, body ys = body xs +:+ b) -> exists zs, ys = xs ++ zs.
Proof.
  revert ys. induction xs as [|x xs IH]; intros ys Hx Hy [b Hb]; [by exists ys|].
  apply Forall_cons in Hx as [Hx Hxs]. destruct ys as [|y ys]; cbn in Hb.
  - destruct x; cbn in Hb; done.
  - apply Forall_cons in Hy as [Hy Hys]. rewrite <- str_app_assoc in Hb. cbn in Hb.
    apply segment_eq in Hb as [-> Hb]; [|done|done]. destruct (IH ys Hxs Hys) as [zs ->]; [by exists b|].
    by exists zs.
Qed.

Lemma segs_prefix xs ys : Forall slash_free xs -> Forall slash_free ys ->
  str_has_prefix (segs xs) (segs ys) = true <-> exists zs, ys = xs ++ zs.
Proof.
  intros Hx Hy. split.
  - intros Hb%has_prefix_split. apply body_prefix; [done..|]. eexists. unfold segs in Hb at 1 2. cbn in Hb.
    injection Hb as Hb. exact Hb.
  - intros [zs ->]. rewrite segs_app. apply has_prefix_app.
Qed.

Lemma segs_nonempty xs : segs xs <> "".
Proof. done. Qed.

Lemma split_free s : Forall slash_free (split s).
Proof.
  induction s as [|c s IH]; cbn [split]; [by constructor|].
  destruct (Ascii.eqb c PathSeparator) eqn:E; [by constructor|].
  destruct (split s) as [|first others]; [constructor; [|done]; unfold slash_free; cbn; by rewrite E|].
  apply Forall_cons in IH as [H1 H2]. constructor; [|done]. unfold slash_free in *. cbn. by rewrite E.
Qed.

Definition segment_ok (id : ID) : Prop := id <> "" /\ slash_free id.

(** The path without its outer slashes. *)
Fixpoint join (ids : list ID) : string :=
  match ids with
  | [] => ""
  | [id] => id
  | id :: rest => id +:+ slash +:+ join rest
  end.

Lemma trim_right_app a b : trim_right b <> "" -> trim_right (a +:+ b) = a +:+ trim_right b.
Proof.
  intros Hb. induction a as [|c a IH]; cbn [trim_right String.append]; [done|]. rewrite IH.
  destruct (String.eqb_spec (a +:+ trim_right b) "") as [E|]; [|done]. destruct a; [done|discriminate].
Qed.

Lemma trim_right_free x : slash_free x -> trim_right x = x.
Proof.
  induction x as [|c x IH]; intros H; [done|]. unfold slash_free in *. cbn in H |- *.
  apply orb_false_iff in H as [Hc Hx]. rewrite IH by done. by rewrite Hc, andb_false_r.
Qed.

Lemma trim_right_segment x : segment_ok x -> trim_right (x +:+ slash) = x.
Proof.
  intros [Hne Hfree]. induction x as [|c x IH]; [done|]. unfold slash_free in Hfree. cbn in Hfree.
  apply orb_false_iff in Hfree as [Hc Hx]. cbn [String.append trim_right]. destruct x as [|d x].
  - cbn. by rewrite Hc.
  - rewrite IH by done. cbn [String.eqb andb]. done.
Qed.

Lemma join_nonempty x xs : segment_ok x -> join (x :: xs) <> "".
Proof. intros [Hx _]. destruct xs; [done|]. by destruct x. Qed.

Lemma trim_body xs : xs <> [] -> Forall segment_ok xs -> trim_right (body xs) = join xs.
Proof.
  induction xs as [|x xs IH]; intros Hne Hall; [done|]. apply Forall_cons in Hall as [Hx Hxs].
  destruct xs as [|y xs]; [cbn [body join]; by rewrite str_app_nil_r, trim_right_segment|].
  specialize (IH ltac:(done) Hxs). apply Forall_cons in Hxs as [Hy Hxs].
  change (body (x :: y :: xs)) with (x +:+ slash +:+ body (y :: xs)).
  rewrite str_app_assoc, trim_right_app; rewrite IH; [|by apply join_nonempty].
  change (join (x :: y :: xs)) with (x +:+ slash +:+ join (y :: xs)). by rewrite <- str_app_assoc.
Qed.

Lemma trim_left_keep s : (forall c r, s = String c r -> Ascii.eqb c PathSeparator = false) -> trim_left s = s.
Proof. destruct s as [|c r]; intros H; [done|]. cbn. by rewrite (H c r eq_refl). Qed.

Lemma trim_segs xs : xs <> [] -> Forall segment_ok xs -> trim (segs xs) = join xs.
Proof.
  intros Hne Hall. unfold trim, segs. cbn [String.append slash trim_left]. rewrite Ascii.eqb_refl.
  rewrite trim_left_keep; [by apply trim_body|]. destruct xs as [|x xs]; [done|].
  apply Forall_cons in Hall as [[Hx Hf] _]. intros c r H. destruct x as [|d x]; [done|].
  cbn in H. injection H as <- _. unfold slash_free in Hf. cbn in Hf. by apply orb_false_iff in Hf as [? _].
Qed.

Lemma split_segment x : slash_free x -> split x = [x].
Proof.
  induction x as [|c x IH]; intros H; [done|]. unfold slash_free in H. cbn in H.
  apply orb_false_iff in H as [Hc Hx]. cbn [split]. by rewrite Hc, IH.
Qed.

Lemma split_app x s : slash_free x -> split (x +:+ String PathSeparator s) = x :: split s.
Proof.
  induction x as [|c x IH]; intros H; cbn [String.append split]; [by rewrite Ascii.eqb_refl|].
  unfold slash_free in H. cbn in H. apply orb_false_iff in H as [Hc Hx]. by rewrite Hc, IH.
Qed.

Lemma split_join xs : xs <> [] -> Forall slash_free xs -> split (join xs) = xs.
Proof.
  induction xs as [|x xs IH]; intros Hne Hall; [done|]. apply Forall_cons in Hall as [Hx Hxs].
  destruct xs as [|y xs]; [by apply split_segment|].
  change (join (x :: y :: xs)) with (x +:+ String PathSeparator (join (y :: xs))).
  rewrite split_app by done. by rewrite IH.
Qed.

Lemma last_segment_snoc xs x : last_segment (xs ++ [x]) 0 = x.
Proof. unfold last_segment. rewrite length_app. cbn [List.length]. rewrite app_nth2 by lia. by replace (_ - _)%nat with O by lia. Qed.

Lemma last_segment_before xs y x : last_segment (xs ++ [y; x]) 1 = y.
Proof. unfold last_segment. rewrite length_app. cbn [List.length]. rewrite app_nth2 by lia. by replace (_ - _)%nat with O by lia. Qed.

Lemma str_last_app a c : str_last (a +:+ String c "") = Some c.
Proof. induction a as [|d a IH]; cbn; [done|]. rewrite IH. by destruct (a +:+ String c ""). Qed.

Lemma path_shape xs x : segment_ok x ->
  str_has_prefix slash (segs (xs ++ [x])) = true /\ str_ends_with PathSeparator (segs (xs ++ [x])) = true /\
  String.eqb (segs (xs ++ [x])) slash = false.
Proof.
  intros [Hx _]. split; [done|]. split.
  - unfold str_ends_with. rewrite segs_snoc, str_app_assoc. unfold slash. by rewrite str_last_app.
  - apply String.eqb_neq. unfold segs. rewrite body_app. cbn. intros [= H]. destruct (body xs); [|done]. by destruct x.
Qed.

(** ** Where an entry may sit *)

Lemma profile_ok h itemType p : Profile h itemType = Ok p <-> h_profiles h !! itemType = Some p.
Proof. unfold Profile. destruct (h_profiles h !! itemType); split; congruence. Qed.

Definition spot_under (parent : option WorkItem) : Placement :=
  match parent with
  | None => mkPlacement "" 1 slash
  | Some p => mkPlacement (wi_id p) (wi_depth p + 1) (wi_path p)
  end.

(** What a hierarchy allows below a parent of a type. *)
Definition permits (h : Hierarchy) (above : option ItemType) (childType : ItemType) : Prop :=
  exists child, h_profiles h !! childType = Some child /\ 1 <= cp_max_depth child /\
    match above with
    | None => IsRoot h childType = true
    | Some t => exists p, h_profiles h !! t = Some p /\ AllowsChild p childType = true /\
        1 + cp_max_depth child <= cp_max_depth p
    end.

Lemma place_ok h parent childType spot : Place h parent childType = Ok spot <->
  permits h (wi_type <$> parent) childType /\ spot = spot_under parent /\
  match parent with Some p => IsTrashed p = false /\ IsArchived p = false | None => True end.
Proof.
  unfold Place, permits. split.
  - intros H. apply bind_ok in H as [child [Hc%profile_ok H]].
    destruct (Z.ltb_spec (cp_max_depth child) 1); [done|]. destruct parent as [p|]; cbn in *.
    + destruct (IsTrashed p); [done|]. destruct (IsArchived p); [done|].
      destruct (Profile h (wi_type p)) as [above| |] eqn:Ea; [|done|done]. apply profile_ok in Ea.
      destruct (AllowsChild above childType) eqn:El; [|done]. cbn in H.
      destruct (Z.ltb_spec (cp_max_depth above) (1 + cp_max_depth child)); [done|]. injection H as <-.
      split; [|done]. exists child. split; [done|]. split; [lia|]. exists above. by repeat split.
    + destruct (IsRoot h childType); [|done]. injection H as <-. split; [|done]. exists child. by repeat split; try lia.
  - intros ((child & Hc & Hd & Hp) & -> & Hopen). rewrite (proj2 (profile_ok _ _ _) Hc). cbn [mbind result_bind].
    rewrite (proj2 (Z.ltb_ge _ _)) by lia. destruct parent as [p|]; cbn in *.
    + destruct Hopen as [-> ->], Hp as (above & Ha & Hal & Hb). rewrite (proj2 (profile_ok _ _ _) Ha), Hal. cbn [negb].
      by rewrite (proj2 (Z.ltb_ge _ _)) by lia.
    + by rewrite Hp.
Qed.

Lemma move_ok h item parent spot : Move h item parent = Ok spot <->
  Place h parent (wi_type item) = Ok spot /\
  match parent with Some p => wi_id item <> wi_id p /\ Contains item p = false | None => True end.
Proof.
  unfold Move. destruct parent as [p|]; [|intuition]. destruct (String.eqb_spec (wi_id item) (wi_id p)); [intuition congruence|].
  destruct (Contains item p); intuition congruence.
Qed.

Lemma drop_children_spec p roots t :
  t ∈ drop_children roots p <-> t ∈ roots /\ (t = cp_type p \/ t ∉ cp_allowed_child_types p).
Proof.
  unfold drop_children. revert roots. induction (cp_allowed_child_types p) as [|c cs IH]; intros roots; cbn [foldl].
  - rewrite elem_of_nil. tauto.
  - rewrite IH, not_elem_of_cons. destruct (String.eqb_spec c (cp_type p)) as [->|Hne].
    + destruct (decide (t = cp_type p)); tauto.
    + rewrite elem_of_difference, elem_of_singleton. destruct (decide (t = cp_type p)); [|tauto]. subst. intuition congruence.
Qed.

Lemma drop_all_spec ps roots t :
  t ∈ foldl drop_children roots ps <->
  t ∈ roots /\ Forall (fun p => t = cp_type p \/ t ∉ cp_allowed_child_types p) ps.
Proof.
  revert roots. induction ps as [|p ps IH]; intros roots; cbn [foldl]; [by intuition|].
  rewrite IH, drop_children_spec, Forall_cons. tauto.
Qed.

Lemma index_profiles_spec ps m m' : fold_result index_profile m ps = Ok m' ->
  forall t p, m' !! t = Some p <-> m !! t = Some p \/ (p ∈ ps /\ cp_type p = t).
Proof.
  revert m. induction ps as [|q ps IH]; intros m H t p; cbn [fold_result] in H.
  - injection H as <-. rewrite elem_of_nil. tauto.
  - destruct (index_profile m q) as [m1| |] eqn:E; [|done|done]. cbn in H. rewrite (IH _ H). unfold index_profile in E.
    destruct (m !! cp_type q) eqn:Eq; [done|]. injection E as <-. rewrite lookup_insert_Some, elem_of_cons.
    destruct (decide (cp_type q = t)) as [Ht|Ht]; split; intros Hin; naive_solver.
Qed.

(** Where an entry may sit, on every branch. Without a parent: exactly a
    type with a depth of its own that no other type of the system lists as a
    child - however the workspace narrowed its profiles. Under a parent:
    exactly when the parent is neither in the trash nor archived, its type is
    known and accepts the child's, and the child's depth fits in the parent's
    with the level it takes; the placement is then the parent's path, one
    deeper. A move asks the same and refuses the entry itself and its own
    subtree. Neither ever panics. *)
Theorem placement_rule inForce system h item parent childType
  (Hnew : NewHierarchy inForce system = Ok h) :
  (forall t, IsRoot h t = true <-> (exists p, p ∈ system /\ cp_type p = t) /\
     forall p, p ∈ system -> t = cp_type p \/ t ∉ cp_allowed_child_types p) /\
  (forall t p, h_profiles h !! t = Some p <-> p ∈ inForce /\ cp_type p = t) /\
  (forall spot, Place h parent childType = Ok spot <->
     permits h (wi_type <$> parent) childType /\ spot = spot_under parent /\
     match parent with Some p => IsTrashed p = false /\ IsArchived p = false | None => True end) /\
  (forall spot, Move h item parent = Ok spot <-> Place h parent (wi_type item) = Ok spot /\
     match parent with Some p => wi_id item <> wi_id p /\ Contains item p = false | None => True end) /\
  Place h parent childType <> Panic /\ Move h item parent <> Panic.
Proof.
  assert (Hplace : forall t, Place h parent t <> Panic).
  { intros t. unfold Place, Profile. repeat case_match; cbn; repeat case_match; done. }
  unfold NewHierarchy in Hnew. apply bind_ok in Hnew as [profiles [Hindex Hnew]].
  split; [|split; [|split; [apply place_ok|split; [apply move_ok|split; [apply Hplace|]]]]].
  - intros t. destruct (_ && _); [done|]. injection Hnew as <-. unfold IsRoot. cbn [h_roots].
    rewrite bool_decide_eq_true, drop_all_spec, elem_of_list_to_set, list_elem_of_fmap, Forall_forall.
    split; intros [(p & H1 & H2) H]; (split; [by exists p|exact H]).
  - intros t p. destruct (_ && _); [done|]. injection Hnew as <-. cbn [h_profiles].
    rewrite (index_profiles_spec _ _ _ Hindex), lookup_empty. naive_solver.
  - unfold Move. repeat case_match; try done; apply Hplace.
Qed.

(** ** The tree *)

Section Trees.
Context (t : Tree).

(** The parents from the root down to an entry. *)
Inductive chain : ID -> list ID -> Prop :=
  | chain_root id i : t !! id = Some i -> wi_parent i = "" -> chain id [id]
  | chain_child id i ids : t !! id = Some i -> wi_parent i <> "" -> chain (wi_parent i) ids -> chain id (ids ++ [id]).

Record placed (id : ID) (i : WorkItem) : Prop := {
  pd_id : wi_id i = id;
  pd_segment : segment_ok id;
  pd_chain : exists ids, chain id ids /\ wi_path i = segs ids /\ wi_depth i = Z.of_nat (List.length ids);
  pd_collection : wi_parent i <> "" -> exists p, t !! wi_parent i = Some p /\ wi_collection p = wi_collection i
}.

Lemma chain_last id ids : chain id ids -> exists xs, ids = xs ++ [id].
Proof. intros H. destruct H as [id i H1 H2|id i ids H1 H2 H3]; [by exists []|by exists ids]. Qed.

Lemma chain_fun id xs ys : chain id xs -> chain id ys -> xs = ys.
Proof.
  intros H. revert ys. induction H as [id i H1 H2|id i ids H1 H2 H3 IH]; intros ys Hy; inversion Hy; subst; try congruence.
  f_equal. apply IH. congruence.
Qed.

Lemma chain_known id ids : chain id ids -> forall y, y ∈ ids -> is_Some (t !! y).
Proof.
  induction 1 as [id i H1 H2|id i ids H1 H2 H3 IH]; intros y Hy.
  - apply list_elem_of_singleton in Hy as ->. by eexists.
  - apply elem_of_app in Hy as [Hy|Hy]; [by apply IH|]. apply list_elem_of_singleton in Hy as ->. by eexists.
Qed.

(** Every entry on a chain has the chain's beginning as its own. *)
Lemma chain_in id ids y : chain id ids -> y ∈ ids -> exists pre post, ids = pre ++ post /\ chain y pre.
Proof.
  induction 1 as [id i H1 H2|id i ids H1 H2 H3 IH]; intros Hy.
  - apply list_elem_of_singleton in Hy as ->. exists [id], []. split; [done|]. by eapply chain_root.
  - apply elem_of_app in Hy as [Hy|Hy].
    + destruct (IH Hy) as (pre & post & -> & Hpre). exists pre, (post ++ [id]). by rewrite app_assoc.
    + apply list_elem_of_singleton in Hy as ->. exists (ids ++ [id]), []. rewrite app_nil_r. split; [done|].
      by eapply chain_child.
Qed.

(** No entry is above itself. *)
Lemma chain_nodup id ids : chain id ids -> NoDup ids.
Proof.
  induction 1 as [id i H1 H2|id i ids H1 H2 H3 IH]; [apply NoDup_singleton|].
  apply NoDup_app. split; [done|]. split; [|apply NoDup_singleton]. intros x Hx Hx'.
  apply list_elem_of_singleton in Hx' as ->. destruct (chain_in _ _ _ H3 Hx) as (pre & post & -> & Hpre).
  pose proof (chain_fun _ _ _ Hpre (chain_child _ _ _ H1 H2 H3)) as Heq.
  apply (f_equal (@List.length _)) in Heq. rewrite !length_app in Heq. cbn in Heq. lia.
Qed.
End Trees.

Definition tree_ok (t : Tree) : Prop := forall id i, t !! id = Some i -> placed t id i.

Lemma chain_segments t id ids : tree_ok t -> chain t id ids -> Forall segment_ok ids.
Proof.
  intros Ht Hc. apply Forall_forall. intros y Hy. destruct (chain_known t _ _ Hc y Hy) as [i Hi].
  exact (pd_segment _ _ _ (Ht _ _ Hi)).
Qed.

Lemma segments_free xs : Forall segment_ok xs -> Forall slash_free xs.
Proof. intros H. eapply Forall_impl; [exact H|]. by intros x [_ ?]. Qed.

(** The path test is the subtree: an entry contains another exactly when it
    is on the other's chain. *)
Lemma contains_chain t x i y j ids : tree_ok t -> t !! x = Some i -> t !! y = Some j -> chain t y ids ->
  Contains i j = true <-> x ∈ ids.
Proof.
  intros Ht Hi Hj Hy. destruct (pd_chain _ _ _ (Ht _ _ Hi)) as (xs & Hx & Hxp & _).
  destruct (pd_chain _ _ _ (Ht _ _ Hj)) as (ys & Hy' & Hyp & _). rewrite (chain_fun t _ _ _ Hy' Hy) in Hyp.
  unfold Contains. rewrite Hxp, Hyp, segs_prefix by (eauto using segments_free, chain_segments). split.
  - intros [zs ->]. destruct (chain_last t _ _ Hx) as [pre ->]. apply elem_of_app. left. apply elem_of_app. right. by left.
  - intros Hin. destruct (chain_in t _ _ _ Hy Hin) as (pre & post & -> & Hpre). exists post.
    by rewrite (chain_fun t _ _ _ Hpre Hx).
Qed.

(** ** Creating *)

Lemma chain_grow t id item y ids : t !! id = None -> chain t y ids -> chain (<[id := item]> t) y ids.
Proof.
  intros Hnew. induction 1 as [y i H1 H2|y i ids H1 H2 H3 IH].
  - eapply chain_root; [|exact H2]. rewrite lookup_insert_ne; [done|congruence].
  - eapply chain_child; [|exact H2|exact IH]. rewrite lookup_insert_ne; [done|congruence].
Qed.

(** The chain a placement stands for. *)
Definition spot_chain (t : Tree) (spot : Placement) (xs : list ID) : Prop :=
  pl_parent_path spot = segs xs /\ pl_depth spot = Z.of_nat (List.length xs) + 1 /\
  if id_is_zero (pl_parent spot) then xs = [] else chain t (pl_parent spot) xs.

Lemma spot_chain_under t parent : tree_ok t ->
  (match parent with Some p => t !! wi_id p = Some p | None => True end) ->
  exists xs, spot_chain t (spot_under parent) xs.
Proof.
  intros Ht Hp. destruct parent as [p|]; [|by exists []]. destruct (Ht _ _ Hp) as [_ [Hne _] (xs & Hx & Hpath & Hd) _].
  exists xs. split; [done|]. split; [cbn; lia|]. cbn. unfold id_is_zero. by rewrite (proj2 (String.eqb_neq _ _) Hne).
Qed.

Lemma check_placement_segment id parent path depth :
  checkPlacement id parent path depth = Ok tt -> slash_free id.
Proof.
  unfold checkPlacement. destruct (_ || _); [done|]. destruct (String.eqb_spec (last_segment (split (trim path)) 0) id) as [<-|]; [|done].
  intros _. unfold last_segment. destruct (nth_in_or_default (List.length (split (trim path)) - 1 - 0) (split (trim path)) "")
    as [Hin| ->]; [|done]. pose proof (split_free (trim path)) as Hall. rewrite Forall_forall in Hall.
  apply Hall. by apply list_elem_of_In.
Qed.

Lemma insert_placed t id item xs spot :
  tree_ok t -> t !! id = None -> segment_ok id -> spot_chain t spot xs ->
  wi_id item = id -> wi_parent item = pl_parent spot -> wi_path item = PathOf spot id -> wi_depth item = pl_depth spot ->
  (pl_parent spot <> "" -> exists p, t !! pl_parent spot = Some p /\ wi_collection p = wi_collection item) ->
  tree_ok (<[id := item]> t).
Proof.
  intros Ht Hnew Hseg (Hpath & Hdepth & Hchain) Hid Hparent Hipath Hidepth Hcoll y j Hj.
  assert (Hkeep : forall p q, t !! p = Some q -> <[id := item]> t !! p = Some q)
    by (intros p q Hp; rewrite lookup_insert_ne; congruence).
  apply lookup_insert_Some in Hj as [[<- <-]|[Hne Hj]].
  - split; [done|done| |].
    + exists (xs ++ [id]). rewrite Hipath, Hidepth, Hdepth, length_app. split.
      * unfold id_is_zero in Hchain. destruct (String.eqb_spec (pl_parent spot) "") as [Hz|Hz].
        -- subst xs. eapply chain_root; [apply lookup_insert_eq|congruence].
        -- eapply chain_child; [apply lookup_insert_eq|congruence|]. rewrite Hparent. by apply chain_grow.
      * split; [|cbn; lia]. unfold PathOf. by rewrite Hpath, segs_snoc.
    + rewrite Hparent. intros Hne. destruct (Hcoll Hne) as (p & Hp & Hpc). exists p. by split; [apply Hkeep|].
  - destruct (Ht _ _ Hj) as [H1 H2 (ids & H3 & H4) H5]. split; [done|done| |].
    + exists ids. by split; [apply chain_grow|].
    + intros Hp. destruct (H5 Hp) as (p & Hq & Hc). exists p. by split; [apply Hkeep|].
Qed.

Lemma placed_item_ok id tenant collection itemType profile parent path depth bucket orderKey uid now item :
  placed_item id tenant collection itemType profile parent path depth bucket orderKey uid now = Ok item ->
  segment_ok id /\ wi_id item = id /\ wi_parent item = parent /\ wi_path item = path /\ wi_depth item = depth /\
  wi_collection item = collection /\ wi_type item = itemType /\ orderKey <> "" /\ IsTrashed item = false /\
  ItemTypeValid itemType = true.
Proof.
  unfold placed_item. destruct (ItemTypeValid itemType) eqn:Et; [|done]. destruct (String.eqb _ itemType); [|done]. cbn [negb].
  intros H. apply bind_ok in H as [[] [_ H]]. apply bind_ok in H as [[] [_ H]]. apply bind_ok in H as [[] [Hc H]].
  apply check_placement_segment in Hc. unfold id_is_zero in H.
  destruct (String.eqb_spec id ""); [done|]. cbn in H. destruct (String.eqb tenant ""), (String.eqb collection ""),
    (String.eqb_spec orderKey ""); try done. injection H as <-. by repeat split.
Qed.

Lemma read_container_id s id c : shelf_ok s -> read_container s id = Some c -> ct_id c = id.
Proof.
  intros [_ Hs] H. unfold read_container in H. destruct (s !! id) as [d|] eqn:E; [|done]. injection H as <-.
  cbn. by apply Hs.
Qed.

Lemma parent_of_ok t parentID collectionID parent : tree_ok t -> parentOf t parentID collectionID = Ok parent ->
  match parent with
  | Some p => t !! wi_id p = Some p /\ wi_id p = parentID /\ wi_collection p = collectionID
  | None => parentID = ""
  end.
Proof.
  intros Ht. unfold parentOf, id_is_zero. destruct (String.eqb_spec parentID "") as [->|]; [by intros [= <-]|].
  destruct (t !! parentID) as [p|] eqn:Hp; [|done]. destruct (String.eqb_spec (wi_collection p) collectionID); [|done].
  intros [= <-]. by rewrite (pd_id _ _ _ (Ht _ _ Hp)).
Qed.

(** What a create leaves behind: one entry more, placed as permitted. *)
Lemma create_ok offer itemOrderKey taken h t s id tenant collectionID parentID itemType bucket uid now t' :
  tree_ok t -> shelf_ok s ->
  create offer itemOrderKey taken h t s id tenant collectionID parentID itemType bucket uid now = Ok t' ->
  exists item parent, t' = <[id := item]> t /\ t !! id = None /\ tree_ok t' /\ wi_type item = itemType /\
    permits h (wi_type <$> parent) itemType /\ wi_parent item = pl_parent (spot_under parent) /\
    match parent with Some p => t !! wi_parent item = Some p | None => True end.
Proof.
  intros Ht Hs H. unfold create in H. apply bind_ok in H as [collection [Hcoll H]].
  apply bind_ok in H as [[] [Hopen H]]. apply bind_ok in H as [parent [Hparent H]].
  apply bind_ok in H as [profile [_ H]]. apply bind_ok in H as [spot [Hspot H]].
  apply bind_ok in H as [narrowed [_ H]]. destruct (negb (IsUUIDv7 id)); [done|].
  apply bind_ok in H as [orderKey [_ H]]. apply bind_ok in H as [item [Hitem H]].
  destruct (t !! id) eqn:Hnew; [done|]. injection H as <-.
  apply placed_item_ok in Hitem as (Hseg & Hid & Hp & Hpath & Hdepth & Hic & Htype & _).
  apply (parent_of_ok _ _ _ _ Ht) in Hparent. apply place_ok in Hspot as (Hper & -> & _).
  destruct (spot_chain_under t parent Ht) as [xs Hxs]; [by destruct parent as [p|]; [destruct Hparent|]|].
  exists item, parent. split; [done|]. split; [done|]. split.
  - eapply insert_placed; try done. intros Hne. destruct parent as [p|]; [|done]. destruct Hparent as (Hpp & _ & Hpc).
    exists p. cbn. split; [done|congruence].
  - repeat split; try done. destruct parent as [p|]; [|done]. rewrite Hp. cbn. by destruct Hparent.
Qed.

(** ** Moving *)

Section Moving.
Context (t t' : Tree) (x : ID).

(** Nothing but [x] gets another parent. *)
Context (Hparents : forall y i, t !! y = Some i -> y <> x -> exists i', t' !! y = Some i' /\ wi_parent i' = wi_parent i).

Lemma chain_keep y ids : chain t y ids -> x ∉ ids -> chain t' y ids.
Proof.
  induction 1 as [y i H1 H2|y i ids H1 H2 H3 IH]; intros Hx.
  - destruct (Hparents y i H1) as (i' & Hi & Hp); [intros ->; apply Hx; by left|].
    eapply chain_root; [exact Hi|congruence].
  - apply not_elem_of_app in Hx as [Hx Hy]. destruct (Hparents y i H1) as (i' & Hi & Hp); [intros ->; apply Hy; by left|].
    eapply chain_child; [exact Hi|congruence|]. rewrite Hp. by apply IH.
Qed.

(** What was below [x] still is, wherever [x] now hangs. *)
Lemma chain_shift above new y ids : chain t x above -> chain t' x new -> chain t y ids ->
  forall below, ids = above ++ below -> chain t' y (new ++ below).
Proof.
  intros Habove Hnew. induction 1 as [y i H1 H2|y i ids H1 H2 H3 IH]; intros below Heq.
  - destruct (chain_last t _ _ Habove) as [pre ->]. destruct pre as [|z pre]; cbn in Heq.
    + injection Heq as -> <-. by rewrite app_nil_r.
    + apply (f_equal (@List.length _)) in Heq. cbn in Heq. rewrite !length_app in Heq. cbn in Heq. lia.
  - destruct below as [|z below _] using rev_ind.
    + rewrite app_nil_r in Heq |- *. destruct (chain_last t _ _ Habove) as [pre ->].
      apply app_inj_tail in Heq as [_ ->]. done.
    + rewrite app_assoc in Heq |- *. apply app_inj_tail in Heq as [-> ->].
      destruct (decide (z = x)) as [->|Hne].
      * pose proof (chain_fun t _ _ _ Habove (chain_child t _ _ _ H1 H2 H3)) as Hf.
        apply (f_equal (@List.length _)) in Hf. rewrite !length_app in Hf. cbn in Hf. lia.
      * destruct (Hparents z i H1 Hne) as (i' & Hi & Hp). eapply chain_child; [exact Hi|congruence|].
        rewrite Hp. by apply IH.
Qed.
End Moving.

Lemma placed_chain t id i ids : placed t id i -> chain t id ids ->
  wi_path i = segs ids /\ wi_depth i = Z.of_nat (List.length ids).
Proof. intros [_ _ (ids' & Hc & Hp & Hd) _] H. by rewrite (chain_fun t _ _ _ H Hc). Qed.

(** A row as a move leaves it. *)
Definition moved_row (m : MoveRow) (row : WorkItem) : WorkItem :=
  if String.eqb (wi_id row) (wi_id (mv_item m)) then SetWorkItemPlacement m row else MoveWorkItemSubtree m row.

Lemma move_subtree_lookup t m t' : tree_ok t -> t !! wi_id (mv_item m) = Some (mv_item m) ->
  MoveSubtree t m = Ok t' ->
  wi_version (mv_item m) = mv_expected_version m /\ forall y, t' !! y = moved_row m <$> t !! y.
Proof.
  intros Ht Hrow. unfold MoveSubtree. rewrite Hrow.
  destruct (Z.eqb_spec (wi_version (mv_item m)) (mv_expected_version m)); [|done]. cbn [negb]. intros [= <-].
  split; [done|]. intros y. rewrite lookup_fmap. unfold moved_row. destruct (decide (y = wi_id (mv_item m))) as [->|Hne].
  - rewrite lookup_insert_eq, Hrow. cbn. rewrite String.eqb_refl. unfold MoveWorkItemSubtree. cbn.
    by rewrite String.eqb_refl, andb_false_r.
  - rewrite lookup_insert_ne by done. destruct (t !! y) as [row|] eqn:Ey; [|done]. cbn.
    rewrite (pd_id _ _ _ (Ht _ _ Ey)). by rewrite (proj2 (String.eqb_neq _ _) Hne).
Qed.

(** The rewrite of the rows is the move of the subtree: with the entry's own
    chain [above] and the destination's chain [top], which the entry is not on. *)
Section Rewrite.
Context (t t' : Tree) (m : MoveRow) (above top : list ID).
Let x := wi_id (mv_item m).
Context (Ht : tree_ok t) (Hx : t !! x = Some (mv_item m)) (Habove : chain t x above)
  (Hold : mv_old_prefix m = wi_path (mv_item m)) (Hnew : mv_new_prefix m = segs (top ++ [x]))
  (Hdelta : wi_depth (mv_item m) + mv_depth_delta m = Z.of_nat (List.length top) + 1)
  (Htop : if id_is_zero (mv_parent m) then top = [] else chain t (mv_parent m) top)
  (Hout : x ∉ top)
  (Hcollection : mv_parent m <> "" -> exists p, t !! mv_parent m = Some p /\ wi_collection p = mv_collection m)
  (Hrows : forall y, t' !! y = moved_row m <$> t !! y).

Lemma row_at y i : t !! y = Some i -> wi_id i = y.
Proof using Ht. intros Hi. exact (pd_id _ _ _ (Ht _ _ Hi)). Qed.

Lemma under_chain y i ids : t !! y = Some i -> chain t y ids -> under (mv_old_prefix m) i = true <-> x ∈ ids.
Proof using Ht Hx Habove Hold. intros Hi Hc. unfold under. rewrite Hold. by apply (contains_chain t x (mv_item m) y i). Qed.

Lemma row_of y i : t !! y = Some i -> t' !! y = Some (moved_row m i).
Proof using Hrows. intros Hi. by rewrite Hrows, Hi. Qed.

Lemma moved_parent i : wi_parent (moved_row m i) = if String.eqb (wi_id i) x then mv_parent m else wi_parent i.
Proof. unfold moved_row, MoveWorkItemSubtree. fold x. destruct (String.eqb (wi_id i) x), (under (mv_old_prefix m) i); done. Qed.

Lemma rows_parents y i : t !! y = Some i -> y <> x -> exists i', t' !! y = Some i' /\ wi_parent i' = wi_parent i.
Proof using Ht Hrows.
  intros Hi Hne. exists (moved_row m i). split; [by apply row_of|]. rewrite moved_parent, (row_at y i Hi).
  by rewrite (proj2 (String.eqb_neq _ _) Hne).
Qed.

Lemma chain_moved : chain t' x (top ++ [x]).
Proof using Ht Hx Htop Hout Hrows.
  pose proof (row_of _ _ Hx) as Hr. assert (Hp : wi_parent (moved_row m (mv_item m)) = mv_parent m).
  { rewrite moved_parent. fold x. by rewrite String.eqb_refl. }
  unfold id_is_zero in Htop. destruct (String.eqb_spec (mv_parent m) "") as [Hz|Hz].
  - rewrite Htop. eapply chain_root; [exact Hr|congruence].
  - eapply chain_child; [exact Hr|congruence|]. rewrite Hp. eapply chain_keep; [exact rows_parents|done|done].
Qed.

(** Every other chain: below the entry it hangs from its new place, elsewhere
    it is the same. *)
Lemma chain_after y ids : chain t y ids ->
  (x ∈ ids -> exists below, ids = above ++ below /\ chain t' y ((top ++ [x]) ++ below)) /\
  (x ∉ ids -> chain t' y ids).
Proof using Ht Hx Habove Htop Hout Hrows.
  intros Hc. split.
  - intros Hin. destruct (chain_in t _ _ _ Hc Hin) as (pre & below & Heq & Hpre).
    rewrite (chain_fun t _ _ _ Hpre Habove) in Heq. exists below. split; [done|].
    by eapply chain_shift; [exact rows_parents|exact Habove|exact chain_moved|exact Hc|].
  - intros Hin. eapply chain_keep; [exact rows_parents|done|done].
Qed.

Lemma collection_after y i ids : t !! y = Some i -> chain t y ids -> t' !! y = Some (moved_row m i) /\
  wi_collection (moved_row m i) = if bool_decide (x ∈ ids) then mv_collection m else wi_collection i.
Proof using Ht Hx Habove Hold Hrows.
  intros Hi Hc. split; [by apply row_of|]. pose proof (under_chain y i ids Hi Hc) as Hu.
  unfold moved_row, MoveWorkItemSubtree. rewrite (row_at y i Hi). fold x.
  destruct (chain_last t _ _ Hc) as [pre Hpre]. destruct (String.eqb_spec y x) as [->|Hne]; cbn [negb andb].
  - rewrite bool_decide_eq_true_2; [done|]. rewrite Hpre. apply elem_of_app. right. by left.
  - rewrite andb_true_r. case_bool_decide as Hin; [by rewrite (proj2 Hu Hin)|].
    destruct (under (mv_old_prefix m) i); [by destruct Hin; apply Hu|done].
Qed.

Lemma above_length : Z.of_nat (List.length above) = wi_depth (mv_item m).
Proof using Ht Hx Habove. by destruct (placed_chain _ _ _ _ (Ht _ _ Hx) Habove) as [_ ->]. Qed.

(** Path and depth of a moved row follow its new chain. *)
Lemma moved_place y i ids : t !! y = Some i -> chain t y ids ->
  forall below, ids = above ++ below ->
  wi_path (moved_row m i) = segs ((top ++ [x]) ++ below) /\
  wi_depth (moved_row m i) = Z.of_nat (List.length ((top ++ [x]) ++ below)).
Proof using Ht Hx Habove Hold Hnew Hdelta.
  intros Hi Hc below Heq. destruct (placed_chain _ _ _ _ (Ht _ _ Hi) Hc) as [Hpath Hdepth]. pose proof above_length as Hlen.
  unfold moved_row, MoveWorkItemSubtree. rewrite (row_at y i Hi). fold x.
  destruct (String.eqb_spec y x) as [->|Hne]; cbn [negb andb].
  - rewrite (chain_fun t _ _ _ Hc Habove) in Heq. rewrite <- (app_nil_r above) in Heq at 1. apply app_inv_head in Heq as <-.
    rewrite app_nil_r, length_app. cbn. split; [exact Hnew|lia].
  - assert (Hu : under (mv_old_prefix m) i = true).
    { apply (under_chain y i ids Hi Hc). rewrite Heq. apply elem_of_app. left.
      destruct (chain_last t _ _ Habove) as [pre ->]. apply elem_of_app. right. by left. }
    rewrite Hu. cbn. destruct (placed_chain _ _ _ _ (Ht _ _ Hx) Habove) as [Hxp _].
    unfold swap_prefix. rewrite Hold, Hnew, Hpath, Heq, Hxp, (segs_app above), str_drop_app, <- segs_app.
    split; [done|]. rewrite Hdepth, Heq, !length_app. cbn. lia.
Qed.

Lemma still_place y i ids : t !! y = Some i -> chain t y ids -> x ∉ ids -> moved_row m i = i.
Proof using Ht Hx Habove Hold.
  intros Hi Hc Hin. unfold moved_row, MoveWorkItemSubtree. rewrite (row_at y i Hi). fold x.
  destruct (String.eqb_spec y x) as [->|Hne].
  - destruct Hin. destruct (chain_last t _ _ Hc) as [pre ->]. apply elem_of_app. right. by left.
  - destruct (under (mv_old_prefix m) i) eqn:Hu; [|done]. destruct Hin. by apply (under_chain y i ids Hi Hc).
Qed.

(** A parent's collection stays its children's. *)
Lemma moved_collection y i ids : t !! y = Some i -> chain t y ids -> wi_parent (moved_row m i) <> "" ->
  exists p, t' !! wi_parent (moved_row m i) = Some p /\ wi_collection p = wi_collection (moved_row m i).
Proof using Ht Hx Habove Hold Htop Hout Hcollection Hrows.
  intros Hi Hc. destruct (collection_after y i ids Hi Hc) as [Hy ->]. rewrite moved_parent, (row_at y i Hi).
  destruct (String.eqb_spec y x) as [->|Hne]; intros Hp.
  - rewrite bool_decide_eq_true_2.
    2: { destruct (chain_last t _ _ Hc) as [pre ->]. apply elem_of_app. right. by left. }
    destruct (Hcollection Hp) as (p & Hpt & Hpc). unfold id_is_zero in Htop.
    rewrite (proj2 (String.eqb_neq _ _) Hp) in Htop.
    destruct (collection_after _ _ _ Hpt Htop) as [Hp' Hcoll]. exists (moved_row m p). split; [done|].
    rewrite Hcoll, bool_decide_eq_false_2 by done. done.
  - destruct (pd_collection _ _ _ (Ht _ _ Hi) Hp) as (p & Hpt & Hpc).
    inversion Hc as [? i0 H1 H2|? i0 ids0 H1 H2 H3]; subst; [congruence|].
    assert (i0 = i) as -> by congruence. destruct (collection_after _ _ _ Hpt H3) as [Hp' Hcoll].
    exists (moved_row m p). split; [done|]. rewrite Hcoll, Hpc.
    destruct (decide (x ∈ ids0)) as [Hin|Hin].
    + rewrite !bool_decide_eq_true_2; [done| |done]. apply elem_of_app. by left.
    + rewrite !bool_decide_eq_false_2; [done| |done]. intros [?|Hs]%elem_of_app; [done|].
      apply list_elem_of_singleton in Hs. congruence.
Qed.

Lemma rewrite_ok : tree_ok t'.
Proof using Ht Hx Habove Hold Hnew Hdelta Htop Hout Hcollection Hrows.
  intros y i' Hy. rewrite Hrows in Hy. destruct (t !! y) as [i|] eqn:Hi; [|done]. injection Hy as <-.
  destruct (Ht _ _ Hi) as [Hid Hseg (ids & Hc & Hpath & Hdepth) _]. split.
  - rewrite <- Hid. unfold moved_row, MoveWorkItemSubtree. by destruct (String.eqb _ _), (under (mv_old_prefix m) i).
  - done.
  - destruct (chain_after y ids Hc) as [Hin Hout']. destruct (decide (x ∈ ids)) as [Hx'|Hx'].
    + destruct (Hin Hx') as (below & Heq & Hc'). exists ((top ++ [x]) ++ below). split; [done|]. by eapply moved_place.
    + exists ids. rewrite (still_place y i ids Hi Hc Hx'). by split; [apply Hout'|].
  - by eapply moved_collection.
Qed.
End Rewrite.

(** ** The move of the use case *)

Lemma find_collection_id s id c : shelf_ok s -> findCollection s id = Ok c -> ct_id c = id.
Proof.
  intros Hs. unfold findCollection. destruct (read_container s id) as [d|] eqn:E; [|done]. intros [= <-].
  by apply (read_container_id s).
Qed.

Lemma read_facts t s cmd plan : tree_ok t -> shelf_ok s -> read t s cmd = Ok plan ->
  t !! wi_id (pn_item plan) = Some (pn_item plan) /\ ct_id (pn_source plan) = wi_collection (pn_item plan) /\
  match pn_parent plan with
  | Some p => t !! wi_id p = Some p /\ wi_collection p = ct_id (pn_destination plan) /\
      mc_target_parent (pn_command plan) = wi_id p
  | None => mc_target_parent (pn_command plan) = ""
  end.
Proof.
  intros Ht Hs H. unfold read in H. apply bind_ok in H as [item [Hitem H]].
  assert (Hi : t !! wi_id item = Some item).
  { unfold findItem in Hitem. destruct (t !! mc_item cmd) as [i|] eqn:E; [|done]. injection Hitem as <-.
    by rewrite (pd_id _ _ _ (Ht _ _ E)). }
  apply bind_ok in H as [source [Hsource H]]. apply (find_collection_id s _ _ Hs) in Hsource.
  set (target := if mc_parent_given cmd then mc_target_parent cmd else wi_parent item) in *.
  apply bind_ok in H as [parent [Hparent H]]. apply bind_ok in H as [destination [Hdest H]]. injection H as <-.
  cbn. split; [done|]. split; [done|]. unfold id_is_zero in Hparent.
  destruct (String.eqb_spec target "") as [Hz|Hz]; [by injection Hparent as <-|].
  apply bind_ok in Hparent as [p [Hp Hparent]]. injection Hparent as <-. unfold findParentItem in Hp.
  destruct (t !! target) as [q|] eqn:E; [|done]. injection Hp as ->. pose proof (pd_id _ _ _ (Ht _ _ E)) as Hid.
  split; [by rewrite Hid|]. split; [|done]. unfold destination_of in Hdest. destruct (_ && _); [done|].
  destruct (String.eqb_spec (wi_collection p) (ct_id source)) as [Heq|Hne]; cbn in Hdest.
  - by injection Hdest as <-.
  - by rewrite (find_collection_id s _ _ Hs Hdest).
Qed.

(** A write that keeps where an entry sits keeps the tree. *)
Lemma same_place_ok t id i j : tree_ok t -> t !! id = Some i -> same_place i j -> tree_ok (<[id := j]> t).
Proof.
  intros Ht Hi (Hid & Hcoll & _ & Hparent & Hpath & Hdepth) y k Hk.
  assert (Hrow : forall p q, t !! p = Some q -> exists q', <[id := j]> t !! p = Some q' /\ wi_parent q' = wi_parent q /\
    wi_collection q' = wi_collection q).
  { intros p q Hp. destruct (decide (p = id)) as [->|Hne]; [|exists q; by rewrite lookup_insert_ne].
    exists j. rewrite lookup_insert_eq. split; [done|]. assert (q = i) as -> by congruence. done. }
  assert (Hchain : forall p ids, chain t p ids -> chain (<[id := j]> t) p ids).
  { induction 1 as [p q H1 H2|p q ids H1 H2 H3 IH]; destruct (Hrow p q H1) as (q' & Hq & Hqp & _).
    - eapply chain_root; [exact Hq|congruence].
    - eapply chain_child; [exact Hq|congruence|congruence]. }
  assert (Hold : exists k0, t !! y = Some k0 /\ wi_id k = wi_id k0 /\ wi_path k = wi_path k0 /\ wi_depth k = wi_depth k0 /\
    wi_parent k = wi_parent k0 /\ wi_collection k = wi_collection k0).
  { apply lookup_insert_Some in Hk as [[<- <-]|[_ Hk]]; [by exists i|by exists k]. }
  destruct Hold as (k0 & Hk0 & Hk1 & Hk2 & Hk3 & Hk4 & Hk5).
  destruct (Ht _ _ Hk0) as [H1 H2 (ids & H3 & H4 & H5) H6]. split; [congruence|done| |].
  - exists ids. split; [by apply Hchain|]. split; congruence.
  - rewrite Hk4, Hk5. intros Hne. destruct (H6 Hne) as (p & Hp & Hpc). destruct (Hrow _ _ Hp) as (q' & Hq & _ & Hqc).
    exists q'. split; [done|congruence].
Qed.

(** What a move leaves behind: the moved entry under its new parent, every
    type as it was, nobody else's parent touched. *)
Definition moved_tree (t t' : Tree) (x newParent : ID) : Prop :=
  forall y, match t !! y with
            | None => t' !! y = None
            | Some i => exists i', t' !! y = Some i' /\ wi_type i' = wi_type i /\
                wi_parent i' = if String.eqb y x then newParent else wi_parent i
            end.

Lemma moved_type m i : wi_type (moved_row m i) = wi_type i.
Proof. unfold moved_row, MoveWorkItemSubtree. by destruct (String.eqb _ _), (under (mv_old_prefix m) i). Qed.

Lemma write_subtree_ok t plan spot orderKey now expected t' top :
  tree_ok t -> t !! wi_id (pn_item plan) = Some (pn_item plan) -> spot_chain t spot top -> wi_id (pn_item plan) ∉ top ->
  (pl_parent spot <> "" -> exists p, t !! pl_parent spot = Some p /\ wi_collection p = ct_id (pn_destination plan)) ->
  let after := moved_item plan spot orderKey now in
  MoveSubtree t (mkMoveRow (pn_item plan) (pl_parent spot) (ct_id (pn_destination plan)) (wi_path (pn_item plan))
    (wi_path after) (wi_depth after - wi_depth (pn_item plan)) orderKey (wi_bucket after) now expected) = Ok t' ->
  tree_ok t' /\ moved_tree t t' (wi_id (pn_item plan)) (pl_parent spot).
Proof.
  intros Ht Hrow (Hpath & Hdepth & Htop) Hout Hcoll after H.
  pose proof (Ht _ _ Hrow) as Hpl. destruct (pd_chain _ _ _ Hpl) as (above & Habove & _ & _).
  match type of H with MoveSubtree _ ?m0 = _ => set (m := m0) in * end.
  destruct (move_subtree_lookup t m t' Ht Hrow H) as [_ Hrows]. split.
  - apply (rewrite_ok t t' m above top); try done.
    + cbn [mv_new_prefix m]. unfold after, moved_item, SubtreePathUnder, ParentPath. cbn [wi_path set_placement].
      rewrite Hpath, segs_snoc. reflexivity.
    + cbn. unfold after, moved_item. cbn. lia.
  - intros y. rewrite Hrows. destruct (t !! y) as [i|] eqn:Hi; [|done]. exists (moved_row m i). split; [done|].
    split; [apply moved_type|]. rewrite moved_parent. cbn. by rewrite (pd_id _ _ _ (Ht _ _ Hi)).
Qed.

Lemma spot_parent_target parent : (match parent with Some p => wi_id p | None => "" end) = pl_parent (spot_under parent).
Proof. by destruct parent. Qed.

Lemma perform_ok gates rankAt h t s command now t' : tree_ok t -> shelf_ok s ->
  perform gates rankAt h t s command now = Ok t' ->
  exists item parent, t !! wi_id item = Some item /\ permits h (wi_type <$> parent) (wi_type item) /\
    (match parent with Some p => t !! wi_id p = Some p /\ Contains item p = false | None => True end) /\
    IsTrashed item = false /\ IsArchived item = false /\
    tree_ok t' /\ moved_tree t t' (wi_id item) (pl_parent (spot_under parent)).
Proof.
  intros Ht Hs H. unfold perform in H. apply bind_ok in H as [plan [Hread H]].
  destruct (read_facts _ _ _ _ Ht Hs Hread) as (Hi & Hsource & Hparent).
  apply bind_ok in H as [[] [_ H]]. apply bind_ok in H as [[] [_ H]].
  destruct (IsTrashed (pn_item plan)) eqn:Etr; [done|]. destruct (IsArchived (pn_item plan)) eqn:Ear; [done|].
  cbn [orb] in H. apply bind_ok in H as [spot [Hmove H]]. apply bind_ok in H as [[] [_ H]].
  apply bind_ok in H as [orderKey [_ H]]. apply move_ok in Hmove as [Hplace Hown].
  apply place_ok in Hplace as (Hper & -> & _).
  exists (pn_item plan), (pn_parent plan). split; [done|]. split; [done|].
  split; [by destruct (pn_parent plan); [destruct Hparent, Hown|]|]. split; [done|]. split; [done|].
  unfold write in H. destruct (reparents plan) eqn:Er.
  - destruct (spot_chain_under t (pn_parent plan) Ht) as [top Htop]; [by destruct (pn_parent plan); [destruct Hparent|]|].
    eapply write_subtree_ok; [done|done|exact Htop| | |exact H].
    + destruct (pn_parent plan) as [p|]; [|destruct Htop as (_ & _ & ->); apply not_elem_of_nil].
      destruct Hparent as (Hp & _), Htop as (_ & _ & Htop), Hown as [_ Hown]. cbn in Htop. unfold id_is_zero in Htop.
      pose proof (pd_segment _ _ _ (Ht _ _ Hp)) as [Hne _]. rewrite (proj2 (String.eqb_neq _ _) Hne) in Htop.
      intros Hin. apply (contains_chain t _ _ _ _ _ Ht Hi Hp Htop) in Hin. congruence.
    + destruct (pn_parent plan) as [p|]; [|done]. intros _. destruct Hparent as (Hp & Hc & _). by exists p.
  - unfold reparents in Er. apply orb_false_iff in Er as [E1 E2]. bools.
    assert (Hsame : wi_parent (pn_item plan) = pl_parent (spot_under (pn_parent plan))).
    { destruct (pn_parent plan); [destruct Hparent as (_ & _ & Hc)|]; cbn; congruence. }
    unfold SetOrderKey in H. cbn [moved_item set_placement wi_id] in H. rewrite Hi in H.
    destruct (negb _); [done|]. injection H as <-. split; [by eapply same_place_ok; [|exact Hi|repeat split]|].
    intros y. destruct (t !! y) as [i|] eqn:Hy.
    + destruct (String.eqb_spec y (wi_id (pn_item plan))) as [->|Hne].
      * rewrite lookup_insert_eq. eexists. split; [done|]. assert (i = pn_item plan) as -> by congruence. by split.
      * rewrite lookup_insert_ne by done. by exists i.
    + rewrite lookup_insert_ne; [done|congruence].
Qed.

(** ** What every tree the program builds is *)

(** Every entry sits where the hierarchy permits it. *)
Definition tree_permitted (h : Hierarchy) (t : Tree) : Prop := forall y i, t !! y = Some i ->
  if String.eqb (wi_parent i) "" then permits h None (wi_type i)
  else exists p, t !! wi_parent i = Some p /\ permits h (Some (wi_type p)) (wi_type i).

Inductive tree_step (h : Hierarchy) : Tree -> Tree -> Prop :=
  | step_create offer itemOrderKey taken t s id tenant collectionID parentID itemType bucket uid now t' :
      shelf_ok s ->
      create offer itemOrderKey taken h t s id tenant collectionID parentID itemType bucket uid now = Ok t' ->
      tree_step h t t'
  | step_move gates rankAt t s command now t' :
      shelf_ok s -> perform gates rankAt h t s command now = Ok t' -> tree_step h t t'
  | step_edit p t id i j : t !! id = Some i -> item_ok i -> item_step p i j -> tree_step h t (<[id := j]> t).

Lemma permitted_create h t id item parent : tree_permitted h t -> t !! id = None ->
  permits h (wi_type <$> parent) (wi_type item) -> wi_parent item = pl_parent (spot_under parent) ->
  match parent with Some p => t !! wi_parent item = Some p /\ wi_id p <> "" | None => True end ->
  tree_permitted h (<[id := item]> t).
Proof.
  intros Hok Hnew Hper Hp Hparent y i Hi. apply lookup_insert_Some in Hi as [[<- <-]|[Hne Hi]].
  - destruct parent as [p|]; cbn in *.
    + destruct Hparent as [Hrow Hid]. rewrite Hp in Hrow |- *. rewrite (proj2 (String.eqb_neq _ _) Hid). exists p.
      rewrite lookup_insert_ne; [done|congruence].
    + by rewrite Hp.
  - specialize (Hok y i Hi). destruct (String.eqb (wi_parent i) ""); [done|]. destruct Hok as (p & Hp' & Hperm).
    exists p. rewrite lookup_insert_ne; [done|congruence].
Qed.

Lemma permitted_move h t t' x parent item : tree_ok t -> tree_permitted h t -> t !! x = Some item -> wi_id item = x ->
  permits h (wi_type <$> parent) (wi_type item) ->
  match parent with Some p => t !! wi_id p = Some p | None => True end ->
  moved_tree t t' x (pl_parent (spot_under parent)) -> tree_permitted h t'.
Proof.
  intros Ht Hok Hx Hid Hper Hparent Hmoved y i' Hi'. pose proof (Hmoved y) as Hy.
  destruct (t !! y) as [i|] eqn:Hi; [|congruence]. destruct Hy as (i2 & H2 & Htype & Hp). assert (i2 = i') as -> by congruence.
  rewrite Hp, Htype.
  assert (Hrow : forall p q, t !! p = Some q -> exists q', t' !! p = Some q' /\ wi_type q' = wi_type q).
  { intros p q Hq. specialize (Hmoved p). rewrite Hq in Hmoved. destruct Hmoved as (q' & H1 & H3 & _). by exists q'. }
  destruct (String.eqb_spec y x) as [->|Hne].
  - assert (i = item) as -> by congruence. destruct parent as [p|]; cbn in *; [|done].
    pose proof (pd_segment _ _ _ (Ht _ _ Hparent)) as [Hne _]. rewrite (proj2 (String.eqb_neq _ _) Hne).
    destruct (Hrow _ _ Hparent) as (q' & Hq & Hqt). exists q'. by rewrite Hqt.
  - specialize (Hok y i Hi). destruct (String.eqb (wi_parent i) ""); [done|]. destruct Hok as (p & Hp' & Hperm).
    destruct (Hrow _ _ Hp') as (q' & Hq & Hqt). exists q'. by rewrite Hqt.
Qed.

Lemma step_moved t id i j : t !! id = Some i -> same_place i j -> moved_tree t (<[id := j]> t) id (wi_parent i).
Proof.
  intros Hi (Hid & _ & Htype & Hparent & _) y. destruct (t !! y) as [k|] eqn:Hy.
  - destruct (String.eqb_spec y id) as [->|Hne].
    + exists j. rewrite lookup_insert_eq. assert (k = i) as -> by congruence. by rewrite Htype, Hparent.
    + exists k. by rewrite lookup_insert_ne.
  - rewrite lookup_insert_ne; [done|congruence].
Qed.

Lemma tree_step_ok h t t' : tree_step h t t' -> tree_ok t -> tree_permitted h t -> tree_ok t' /\ tree_permitted h t'.
Proof.
  intros Hstep Ht Hok. destruct Hstep as [offer rank taken t s id tenant coll pid ty bucket uid now t' Hs H|gates rank t s cmd now t' Hs H|p t id i j Hi Hiok Hstep].
  - destruct (create_ok _ _ _ _ _ _ _ _ _ _ _ _ _ _ _ Ht Hs H) as (item & parent & -> & Hnew & Ht' & Htype & Hper & Hp & Hrow).
    split; [done|]. eapply permitted_create; [done|done|by rewrite Htype|done|].
    destruct parent as [q|]; [|done]. split; [done|]. cbn in Hp. rewrite <- Hp.
    rewrite (pd_id _ _ _ (Ht _ _ Hrow)) in Hp. by destruct (pd_segment _ _ _ (Ht _ _ Hrow)).
  - destruct (perform_ok _ _ _ _ _ _ _ _ Ht Hs H) as (item & parent & Hi & Hper & Hparent & _ & _ & Ht' & Hmoved).
    split; [done|]. eapply (permitted_move h t t' _ parent item); try done. destruct parent; [by destruct Hparent|done].
  - destruct (item_step_ok p i j Hstep Hiok) as (_ & Hsame & _). split; [by eapply same_place_ok|].
    intros y k Hk. pose proof (step_moved t id i j Hi Hsame y) as Hm.
    destruct (t !! y) as [k0|] eqn:Hy; [|congruence]. destruct Hm as (k1 & Hk1 & Htype & Hp).
    assert (k1 = k) as -> by congruence. rewrite Htype.
    assert (Hpk : wi_parent k = wi_parent k0).
    { rewrite Hp. destruct (String.eqb_spec y id) as [->|]; congruence. }
    rewrite Hpk. specialize (Hok y k0 Hy). destruct (String.eqb (wi_parent k0) ""); [done|].
    destruct Hok as (q & Hq & Hperm). pose proof (step_moved t id i j Hi Hsame (wi_parent k0)) as Hq'. rewrite Hq in Hq'.
    destruct Hq' as (q' & H1 & H2 & _). exists q'. by rewrite H2.
Qed.

Lemma tree_reachable h t t' : rtc (tree_step h) t t' -> tree_ok t -> tree_permitted h t ->
  tree_ok t' /\ tree_permitted h t'.
Proof.
  induction 1 as [t|t u t' Hstep _ IH]; intros Ht Hok; [done|].
  destruct (tree_step_ok h t u Hstep Ht Hok) as [Hu Huok]. by apply IH.
Qed.

Lemma empty_tree h : tree_ok ∅ /\ tree_permitted h ∅.
Proof. split; intros y i Hi; by rewrite lookup_empty in Hi. Qed.

(** C2. The tree stays a tree (I-W2): whatever is created, moved - into
    another collection too, with everything below it -, reordered or edited,
    every entry's path spells its parents from the root down to itself, no
    entry is among its own parents, its depth counts them, its parent exists
    and lies in the same collection, it sits where the hierarchy permits it,
    and one entry's path is the beginning of another's exactly when it is
    among that other's parents or is it. *)
Theorem tree_preserved h t t' (Hsteps : rtc (tree_step h) t t') (Ht : tree_ok t) (Hok : tree_permitted h t) :
  forall y i, t' !! y = Some i -> exists ids,
    chain t' y ids /\ NoDup ids /\ wi_id i = y /\ wi_path i = segs ids /\
    wi_depth i = Z.of_nat (List.length ids) /\
    (wi_parent i <> "" -> exists p, t' !! wi_parent i = Some p /\ wi_collection p = wi_collection i /\
       permits h (Some (wi_type p)) (wi_type i)) /\
    (wi_parent i = "" -> permits h None (wi_type i)) /\
    (forall z k, t' !! z = Some k -> Contains k i = true <-> z ∈ ids).
Proof.
  destruct (tree_reachable h t t' Hsteps Ht Hok) as [Ht' Hok']. intros y i Hi.
  destruct (Ht' _ _ Hi) as [Hid Hseg (ids & Hc & Hpath & Hdepth) Hcoll]. specialize (Hok' y i Hi).
  exists ids. split; [done|]. split; [by eapply chain_nodup|]. do 3 (split; [done|]). split; [|split].
  - intros Hne. destruct (Hcoll Hne) as (p & Hp & Hpc). rewrite (proj2 (String.eqb_neq _ _) Hne) in Hok'.
    destruct Hok' as (p' & Hp' & Hper). exists p. assert (p' = p) as -> by congruence. done.
  - intros Hz. by rewrite Hz in Hok'.
  - intros z k Hk. by apply (contains_chain t' z k y i ids).
Qed.

Lemma chain_budget h t y ids : tree_permitted h t -> chain t y ids ->
  forall i p, t !! y = Some i -> h_profiles h !! wi_type i = Some p ->
  exists root rp, IsRoot h root = true /\ h_profiles h !! root = Some rp /\ 1 <= cp_max_depth p /\
    Z.of_nat (List.length ids) + cp_max_depth p <= 1 + cp_max_depth rp.
Proof.
  intros Hok. induction 1 as [y i H1 H2|y i ids H1 H2 H3 IH]; intros i' p Hi Hp; assert (i' = i) as -> by congruence;
    pose proof (Hok y i H1) as Hper.
  - rewrite H2 in Hper. destruct Hper as (c & Hc & Hmax & Hroot). assert (c = p) as -> by congruence.
    exists (wi_type i), p. cbn. repeat split; try done; lia.
  - rewrite (proj2 (String.eqb_neq _ _) H2) in Hper. destruct Hper as (q & Hq & c & Hc & Hmax & above & Ha & _ & Hb).
    assert (c = p) as -> by congruence. destruct (IH q above Hq Ha) as (root & rp & Hr & Hrp & _ & Hle).
    exists root, rp. rewrite length_app. cbn. repeat split; try done; lia.
Qed.

(** C10. The depth budget holds for the whole tree and not only at the level
    that was checked: in any tree built from nothing, however it was moved
    about, an entry's depth together with the depth its own type may still
    reach stays within what a root type allows, so no chain of entries is
    longer than the largest depth of a root. *)
Theorem depth_budget h t y i (Hsteps : rtc (tree_step h) ∅ t) (Hi : t !! y = Some i) :
  exists p root rp, h_profiles h !! wi_type i = Some p /\ IsRoot h root = true /\ h_profiles h !! root = Some rp /\
    1 <= wi_depth i /\ wi_depth i + cp_max_depth p <= 1 + cp_max_depth rp /\ wi_depth i <= cp_max_depth rp.
Proof.
  destruct (empty_tree h) as [H1 H2]. destruct (tree_reachable h ∅ t Hsteps H1 H2) as [Ht Hok].
  destruct (Ht _ _ Hi) as [_ _ (ids & Hc & _ & ->) _].
  assert (Hprofile : exists p, h_profiles h !! wi_type i = Some p).
  { specialize (Hok y i Hi). destruct (String.eqb (wi_parent i) "");
      [destruct Hok as (p & Hp & _)|destruct Hok as (q & _ & p & Hp & _)]; by exists p. }
  destruct Hprofile as [p Hp]. destruct (chain_budget h t y ids Hok Hc i p Hi Hp) as (root & rp & Hr & Hrp & H3 & H4).
  exists p, root, rp. destruct (chain_last t _ _ Hc) as [pre ->]. rewrite length_app in H4 |- *. cbn in H4 |- *.
  repeat split; try done; lia.
Qed.

(** ** Paths read back *)

Lemma uuid_slash_free n s : all_uuid_chars n s = true -> slash_free s.
Proof.
  unfold slash_free. revert n. induction s as [|c s IH]; intros n H; [done|]. cbn in H |- *.
  apply andb_true_iff in H as [Hc Hs]. rewrite (IH _ Hs), orb_false_r.
  destruct (Ascii.eqb_spec c PathSeparator) as [->|]; [|done]. unfold is_uuid_char in Hc. by destruct (existsb _ _).
Qed.

Lemma uuid_segment id : looksLikeUUID id = true -> segment_ok id.
Proof.
  unfold looksLikeUUID. intros [Hlen Hall]%andb_true_iff. split; [by intros ->|by eapply uuid_slash_free].
Qed.

Lemma parse_ids_all xs : Forall (fun id => looksLikeUUID id = true) xs -> parse_ids xs = Some xs.
Proof.
  induction 1 as [|id xs H _ IH]; [done|]. cbn [parse_ids]. unfold ParseID. by rewrite H, IH.
Qed.

Lemma parse_ids_some xs ids : parse_ids xs = Some ids -> ids = xs /\ Forall (fun id => looksLikeUUID id = true) xs.
Proof.
  revert ids. induction xs as [|x xs IH]; intros ids; cbn [parse_ids]; [by intros [= <-]|].
  unfold ParseID. destruct (looksLikeUUID x) eqn:Ex; [|done]. destruct (parse_ids xs) as [rest|]; [|done].
  intros [= <-]. destruct (IH rest eq_refl) as [-> Hall]. by split; [|constructor].
Qed.

(** A path and its identifiers are the same thing: the path built from
    identifiers by [RootPath] and [ChildPath] gives them back in order, is
    accepted by the placement check exactly with its last identifier, the one
    before it as the parent - none for a root - and their number as the depth;
    and whatever a path gives back are well-formed identifiers. *)
Theorem path_roundtrip xs x (Hids : Forall (fun id => looksLikeUUID id = true) (xs ++ [x])) :
  let path := segs (xs ++ [x]) in
  PathIDs path = xs ++ [x] /\
  (forall parent depth, checkPlacement x parent path depth = Ok tt <->
     depth = Z.of_nat (List.length (xs ++ [x])) /\ parent = default "" (last xs)) /\
  segs [x] = RootPath x /\
  (forall i y, wi_path i = path -> ChildPath i y = segs ((xs ++ [x]) ++ [y])) /\
  (forall p, Forall (fun id => looksLikeUUID id = true) (PathIDs p)).
Proof.
  intros path. assert (Hseg : Forall segment_ok (xs ++ [x])) by (eapply Forall_impl; [exact Hids|apply uuid_segment]).
  assert (Hne : xs ++ [x] <> []) by (by destruct xs).
  assert (Htrim : trim path = join (xs ++ [x])) by (by apply trim_segs).
  assert (Hsplit : split (trim path) = xs ++ [x]) by (rewrite Htrim; by apply split_join, segments_free).
  split; [|split; [|split; [done|split]]].
  - unfold PathIDs. rewrite Hsplit, parse_ids_all by done. destruct (String.eqb_spec (trim path) "") as [He|]; [|done].
    rewrite Htrim in He. destruct (xs ++ [x]) as [|z zs] eqn:E; [done|]. apply Forall_cons in Hseg as [Hz _].
    by destruct (join_nonempty z zs Hz).
  - intros parent depth. unfold checkPlacement. rewrite Hsplit, last_segment_snoc, String.eqb_refl. cbn [negb].
    apply Forall_app in Hseg as [Hxs Hx]. apply Forall_cons in Hx as [Hx _].
    subst path. destruct (path_shape xs x Hx) as (-> & -> & ->). cbn [negb orb]. unfold id_is_zero.
    destruct (Z.eqb_spec depth (Z.of_nat (List.length (xs ++ [x])))) as [->|]; cbn [negb]; [|intuition congruence].
    destruct xs as [|y ys _] using rev_ind.
    + cbn. change (Z.of_nat 1 =? 1) with true. change (Z.of_nat 1 <? 2) with true.
      destruct (String.eqb_spec parent ""); cbn; intuition congruence.
    + rewrite last_snoc, <- app_assoc. cbn [app]. rewrite last_segment_before, length_app. cbn [List.length default].
      apply Forall_app in Hxs as [_ Hy]. apply Forall_cons in Hy as [[Hy _] _].
      replace (Z.of_nat (List.length ys + 2) =? 1) with false by (symmetry; apply Z.eqb_neq; lia).
      replace (Z.of_nat (List.length ys + 2) <? 2) with false by (symmetry; apply Z.ltb_ge; lia).
      destruct (String.eqb_spec parent ""), (String.eqb_spec y parent); cbn; intuition congruence.
  - intros i y Hp. unfold ChildPath. by rewrite Hp, segs_snoc.
  - intros p. unfold PathIDs. destruct (String.eqb (trim p) ""); [done|].
    destruct (parse_ids (split (trim p))) as [ids|] eqn:E; [|done]. cbn. apply parse_ids_some in E as [-> H]. done.
Qed.

(** ** A workspace with a task and a work package below it *)

Definition wp_profile : CapabilityProfile := mkProfile ItemWorkPackage [CapabilityCompletion] [ItemActivity] 2 [].
Definition activity_profile : CapabilityProfile := mkProfile ItemActivity [CapabilityCompletion] [] 1 [].
Definition example_profiles : list CapabilityProfile := [task_profile; wp_profile; activity_profile].

Definition example_hierarchy : Hierarchy :=
  mkHierarchy (list_to_map ((fun p => (cp_type p, p)) <$> example_profiles)) {[ItemTask]}.

Definition id_a : ID := "00000000-0000-7000-8000-00000000000a".
Definition id_b : ID := "00000000-0000-7000-8000-00000000000b".
Definition id_c : ID := "00000000-0000-7000-8000-00000000000c".

Definition no_offer (_ : Container) (_ : option WorkItem) (p : CapabilityProfile) : res CapabilityProfile := Ok p.
Definition one_rank (_ _ : ID) : res string := Ok "a0".
Definition taken (id : ID) : Error := detailed ErrUnavailable "postgres.query_failed" [("item_id", id)].

Definition example_create (t : Tree) (id parent : ID) (itemType : ItemType) : res Tree :=
  create no_offer one_rank taken example_hierarchy t example_shelf id "w1" "c1" parent itemType "" "" 5.

Definition example_move (t : Tree) (id parent : ID) : res Tree :=
  perform (fun _ _ => Ok tt) (fun _ _ => Ok "a1") example_hierarchy t example_shelf
    (mkMove id parent true "" "" false 0) 6.

Definition example_row (id parent : ID) (itemType : ItemType) (path : string) (depth : Z) : WorkItem :=
  mkWorkItem id "w1" "c1" itemType parent path depth not_completed 0 "" "a0" "" None None nobody "" 5 1.

Definition tree1 : Tree := {[id_a := example_row id_a "" ItemTask (segs [id_a]) 1]}.
Definition tree2 : Tree := <[id_b := example_row id_b "" ItemTask (segs [id_b]) 1]> tree1.
Definition tree3 : Tree := <[id_c := example_row id_c id_a ItemWorkPackage (segs [id_a; id_c]) 2]> tree2.

(** The trees are compared by a decision, which looks at the rows only. *)
Definition answers (r : res Tree) (t : Tree) : bool := match r with Ok t' => bool_decide (t' = t) | _ => false end.

Lemma answers_ok r t : answers r t = true -> r = Ok t.
Proof. destruct r as [t'| |]; [|done|done]. cbn. intros H%bool_decide_eq_true. by subst. Qed.

Example create_a : example_create ∅ id_a "" ItemTask = Ok tree1.
Proof. apply answers_ok. vm_compute. reflexivity. Qed.
Example create_b : example_create tree1 id_b "" ItemTask = Ok tree2.
Proof. apply answers_ok. vm_compute. reflexivity. Qed.
Example create_c : example_create tree2 id_c id_a ItemWorkPackage = Ok tree3.
Proof. apply answers_ok. vm_compute. reflexivity. Qed.

(** The moved row of the work package, under the other task. *)
Definition moved_c : WorkItem :=
  set_placement (example_row id_c id_a ItemWorkPackage (segs [id_a; id_c]) 2) "c1" id_b (segs [id_b; id_c]) 2 "" "a1" 2 6.
Definition tree4 : Tree := <[id_c := moved_c]> tree2.

Example move_c : example_move tree3 id_c id_b = Ok tree4.
Proof. apply answers_ok. vm_compute. reflexivity. Qed.

Lemma example_create_step t id parent itemType t' :
  example_create t id parent itemType = Ok t' -> tree_step example_hierarchy t t'.
Proof. unfold example_create. intros H. eapply step_create; [exact example_shelf_ok|exact H]. Qed.

Lemma example_move_step t id parent t' : example_move t id parent = Ok t' -> tree_step example_hierarchy t t'.
Proof. unfold example_move. intros H. eapply step_move; [exact example_shelf_ok|exact H]. Qed.

Lemma example_steps : rtc (tree_step example_hierarchy) ∅ tree4.
Proof.
  eapply rtc_l; [exact (example_create_step _ _ _ _ _ create_a)|].
  eapply rtc_l; [exact (example_create_step _ _ _ _ _ create_b)|].
  eapply rtc_l; [exact (example_create_step _ _ _ _ _ create_c)|].
  eapply rtc_l; [exact (example_move_step _ _ _ _ move_c)|apply rtc_refl].
Qed.

Lemma tree4_c : tree4 !! id_c = Some moved_c.
Proof. reflexivity. Qed.

Example new_hierarchy : NewHierarchy example_profiles example_profiles = Ok example_hierarchy.
Proof. vm_compute. reflexivity. Qed.

Lemma placement_rule_witness : IsRoot example_hierarchy ItemTask = true /\
  Place example_hierarchy None ItemTask = Ok (spot_under None).
Proof.
  destruct (placement_rule example_profiles example_profiles example_hierarchy example_item None ItemTask new_hierarchy)
    as (Hroot & Hprofiles & Hplace & _).
  assert (Hr : IsRoot example_hierarchy ItemTask = true).
  { apply Hroot. split; [exists task_profile; split; [left|reflexivity]|].
    intros p Hin. right. rewrite list_elem_of_In in Hin.
    destruct Hin as [<-|[<-|[<-|[]]]]; intros H; apply list_elem_of_In in H; cbn in H; intuition discriminate. }
  split; [exact Hr|]. apply Hplace. split; [|split; [reflexivity|exact I]]. exists task_profile.
  split; [apply Hprofiles; split; [left|reflexivity]|]. split; [cbn; lia|exact Hr].
Defined.

Lemma tree_preserved_witness : exists ids, chain tree4 id_c ids /\ wi_path moved_c = segs ids.
Proof.
  destruct (empty_tree example_hierarchy) as [H1 H2].
  destruct (tree_preserved example_hierarchy ∅ tree4 example_steps H1 H2 id_c moved_c tree4_c)
    as (ids & Hc & _ & _ & Hp & _).
  exists ids. split; [exact Hc|exact Hp].
Defined.

Lemma depth_budget_witness : exists rp, wi_depth moved_c <= cp_max_depth rp.
Proof.
  destruct (depth_budget example_hierarchy tree4 id_c moved_c example_steps tree4_c) as (p & root & rp & _ & _ & _ & _ & _ & H).
  exists rp. exact H.
Defined.

Lemma path_roundtrip_witness : PathIDs (segs [id_a; id_c]) = [id_a; id_c].
Proof. apply (path_roundtrip [id_a] id_c). repeat constructor. Defined.
