(* ===== verification/Workflow.v ===== *)
(** * Workflows: the statuses of an entry and the steps between them

    Models core/domain/model/work/Workflow.go and StepApproval.go: the shape a
    person draws - statuses, steps, who may take them, what they check and who
    approves -, its checks, drafts and publishing, and how entries move when
    the workflow in force for them changes.  A step's condition and checks are
    expressions of a third-party language and stay texts, as in the source; the
    Unicode normal form is a parameter.

    The theorems: a shape that passes its checks is sound - every status a step
    names exists, there is a way in and a way to be done, an entry can always
    enter on its own side of completion -, and stays so through drafting and
    publishing; the moves planned for a change put every entry into a status
    the new workflow has, never change a completion, and settle. *)

From Stdlib Require Import ZArith Lia String Ascii List Bool.
From stdpp Require Import base list strings gmap.
From S2P Require Import Prelude Shared Text.

Open Scope string_scope.
Open Scope list_scope.
Open Scope Z_scope.

(** ** The shape *)

Abbreviation StatusCategory := string (only parsing).

Definition CategoryBacklog : StatusCategory := "BACKLOG".
Definition CategoryTodo : StatusCategory := "TODO".
Definition CategoryInProgress : StatusCategory := "IN_PROGRESS".
Definition CategoryDone : StatusCategory := "DONE".
Definition StatusCategories : list StatusCategory := [CategoryBacklog; CategoryTodo; CategoryInProgress; CategoryDone].

Definition CategoryValid (c : StatusCategory) : bool := contains StatusCategories c.
Definition CategoryCompletes (c : StatusCategory) : bool := String.eqb c CategoryDone.

Definition SystemWorkflowKey : string := "default".
Definition MaxWorkflowStatuses : nat := 30.
Definition MaxWorkflowSteps : nat := 100.
Definition MaxStepChecks : nat := 20.
Definition MaxStepCheckLanguages : nat := 20.
Definition MaxStructureNameLength : Z := 120.
Definition MaxFormHelpLength : Z := 500.
Definition MaxFormExpressionLength : nat := N.to_nat 4096.

(** [^[a-z][a-z0-9_]{0,49}$]. *)
Definition workflowKeyPattern (key : string) : bool := key_shaped 49 key.

Record WorkflowStatus := mkStatus { ws_key : string; ws_name : string; ws_category : StatusCategory; ws_color_token : string }.

Record StepWho := mkWho {
  sw_roles : list string; sw_person_fields : list string; sw_groups : list string; sw_condition : string
}.

Definition IsOpen (w : StepWho) : bool :=
  bool_decide (sw_roles w = []) && bool_decide (sw_person_fields w = []) && bool_decide (sw_groups w = []) &&
  String.eqb (TrimSpace (sw_condition w)) "".

Record StepCheck := mkCheck {
  sk_key : string; sk_holds : string; sk_message : string; sk_messages : gmap string string; sk_message_code : string
}.

Definition StepCheckMessageCodes : list string :=
  ["fill_required"; "attach_evidence"; "needs_approval"; "amount_positive"; "dates_in_order"; "needs_assignee"].

(** *** StepApproval.go *)

Abbreviation ApprovalRule := string (only parsing).
Definition ApprovalAny : ApprovalRule := "ANY".
Definition ApprovalAll : ApprovalRule := "ALL".
Definition ApprovalNOf : ApprovalRule := "N_OF".
Definition ApprovalMajority : ApprovalRule := "MAJORITY".

Definition MaxApprovalLevels : nat := 5.
Definition MaxApprovalApprovers : Z := 50.
Definition MaxApprovalDueHours : Z := 24 * 90.

Record ApprovalLevel := mkLevel {
  al_people : list string; al_groups : list string; al_roles : list string; al_person_fields : list string;
  al_rule : ApprovalRule; al_count : Z
}.

Definition Counted (l : ApprovalLevel) : bool := String.eqb (al_rule l) ApprovalAll || String.eqb (al_rule l) ApprovalMajority.

Definition Needed (l : ApprovalLevel) (counted : Z) : Z :=
  if String.eqb (al_rule l) ApprovalAll then counted
  else if String.eqb (al_rule l) ApprovalMajority then Z.quot counted 2 + 1
  else if String.eqb (al_rule l) ApprovalNOf then al_count l
  else 1.

Record StepApproval := mkStepApproval { sa_levels : list ApprovalLevel; sa_decline_to : string; sa_due_hours : Z }.

(** *** Steps and shapes *)

Record WorkflowStep := mkStep {
  st_key : string;
  st_name : string;
  st_from : list string;
  st_to : string;
  st_who : StepWho;
  st_requires : list string;
  st_asks : list string;
  st_checks : list StepCheck;
  st_approval : option StepApproval
}.

Definition LeavesFrom (s : WorkflowStep) (status : string) : bool :=
  if String.eqb status (st_to s) then false
  else Nat.eqb (List.length (st_from s)) 0 || contains (st_from s) status.

Record WorkflowShape := mkShape {
  sh_statuses : list WorkflowStatus; sh_initial : string; sh_steps : list WorkflowStep
}.

Definition Status (s : WorkflowShape) (key : string) : option WorkflowStatus :=
  List.find (fun status => String.eqb (ws_key status) key) (sh_statuses s).

Definition Step (s : WorkflowShape) (key : string) : option WorkflowStep :=
  List.find (fun step => String.eqb (st_key step) key) (sh_steps s).

Definition StepsFrom (s : WorkflowShape) (status : string) : list WorkflowStep :=
  List.filter (fun step => LeavesFrom step status) (sh_steps s).

Definition FirstDone (s : WorkflowShape) : string :=
  match List.find (fun status => CategoryCompletes (ws_category status)) (sh_statuses s) with
  | Some status => ws_key status
  | None => ""
  end.

Definition ShapeCompletes (s : WorkflowShape) (key : string) : bool :=
  match Status s key with Some status => CategoryCompletes (ws_category status) | None => false end.

Definition Entering (s : WorkflowShape) (status : string) (completed : bool) : string :=
  let elsewhere := if completed then FirstDone s else sh_initial s in
  match Status s status with
  | Some known => if Bool.eqb (CategoryCompletes (ws_category known)) completed then status else elsewhere
  | None => elsewhere
  end.

Definition Columns (s : WorkflowShape) : list string := ws_key <$> sh_statuses s.

(** ** Checking a shape *)

Definition workflowInvalid (path code : string) (p : params) : Error :=
  WithFields (detailed ErrValidation code p) [mkFieldError path code p].

(** Form.go. *)
Definition atFormPath (e : Error) (path : string) : Error :=
  WithFields (detailed ErrValidation (err_detail e) (err_params e)) [mkFieldError path (err_detail e) (err_params e)].

(** An error carried on with the path of the part it is about. *)
Definition at_path {A} (r : res A) (path : string) : res A :=
  match r with Err e => Err (atFormPath e path) | _ => r end.

Definition FormCustomPrefix : string := "custom_fields.".
Definition formCoreKeys : list string := ["title"; "notes"; "due_date"; "start_at"].

(** CustomField.go. *)
Definition validCustomFieldKey (key : string) : bool :=
  match key with
  | EmptyString => true
  | String c rest => lower_byte c && str_forallb key_byte rest
  end.

Definition cut_prefix (prefix s : string) : option string :=
  if str_has_prefix prefix s then Some (str_drop (String.length prefix) s) else None.

Definition validFormFieldKey (key : string) : bool :=
  if contains formCoreKeys key then true
  else match cut_prefix FormCustomPrefix key with
       | Some custom => validCustomFieldKey custom
       | None => false
       end.

Definition distinctTrimmed (values : list string) : list string :=
  foldl (fun out value => let value := TrimSpace value in
           if String.eqb value "" then out else add_new out value) [] values.

Definition workflowName (raw : string) (mayBeEmpty : bool) (form : Normalizer) : res string :=
  name ← NFC (TrimSpace raw) form;
  if String.eqb name "" && negb mayBeEmpty then Err (workflowInvalid "/name" "workflows.name_empty" [])
  else if MaxStructureNameLength <? RuneCountInString name then
    Err (workflowInvalid "/name" "workflows.name_too_long" [("maximum", "120")])
  else if hasControlCharacter name then Err (workflowInvalid "/name" "workflows.name_malformed" [])
  else Ok name.

Definition formHelp (raw : string) (form : Normalizer) (at_ : string) : res string :=
  help ← NFC (TrimSpace raw) form;
  if MaxFormHelpLength <? RuneCountInString help then
    Err (workflowInvalid at_ "forms.help_too_long" [("maximum", itoa MaxFormHelpLength)])
  else Ok help.

(** *** Who takes a step *)

Definition stepRoles : list string := ["OWNER"; "ADMIN"; "MEMBER"; "CONTRIBUTOR"; "GUEST"].

(** CustomRole.go: [^[a-z][a-z0-9_]{1,62}$]. *)
Definition ValidCustomRoleKey (key : string) : bool := key_shaped 62 key && Nat.leb 2 (String.length key).

Definition check_role (at_ : string) (roles : list string) (role : string) : res (list string) :=
  if negb (contains stepRoles role) && negb (ValidCustomRoleKey role) then
    Err (workflowInvalid (at_ +:+ "/roles") "workflows.role_unknown" [("role", role)])
  else Ok (add_new roles role).

Definition check_person_field (at_ : string) (people : list string) (field : string) : res (list string) :=
  let custom := match cut_prefix FormCustomPrefix field with Some _ => true | None => false end in
  if negb (String.eqb field "assignee") && negb (String.eqb field "created_by") &&
     (negb custom || negb (validFormFieldKey field)) then
    Err (workflowInvalid (at_ +:+ "/person_fields") "workflows.field_unknown" [("key", field)])
  else Ok (add_new people field).

Definition check_group (at_ : string) (groups : list string) (group : string) : res (list string) :=
  match ParseID group with
  | Ok id =>
      if id_is_zero id then Err (workflowInvalid (at_ +:+ "/groups") "workflows.group_unknown" [("group", group)])
      else Ok (add_new groups id)
  | _ => Err (workflowInvalid (at_ +:+ "/groups") "workflows.group_unknown" [("group", group)])
  end.

Definition newStepWho (who : StepWho) (at_ : string) : res StepWho :=
  roles ← fold_result (check_role at_) [] (sw_roles who);
  people ← fold_result (check_person_field at_) [] (sw_person_fields who);
  groups ← fold_result (check_group at_) [] (sw_groups who);
  let condition := TrimSpace (sw_condition who) in
  if Nat.ltb MaxFormExpressionLength (String.length condition) then
    Err (workflowInvalid (at_ +:+ "/condition") "expression.too_long" [])
  else Ok (mkWho roles people groups condition).

(** *** Who approves it *)

Definition check_person (at_ : string) (_ : unit) (person : string) : res unit :=
  match ParseID person with
  | Ok id => if id_is_zero id then Err (workflowInvalid (at_ +:+ "/people") "workflows.approver_unknown" [("person", person)])
             else Ok tt
  | _ => Err (workflowInvalid (at_ +:+ "/people") "workflows.approver_unknown" [("person", person)])
  end.

Definition len {A} (xs : list A) : Z := Z.of_nat (List.length xs).

Definition check_rule (level : ApprovalLevel) (at_ : string) : res Z :=
  if contains [ApprovalAny; ApprovalAll; ApprovalMajority] (al_rule level) then Ok 0
  else if String.eqb (al_rule level) ApprovalNOf then
    if (al_count level <? 1) || (MaxApprovalApprovers <? al_count level) then
      Err (workflowInvalid (at_ +:+ "/count") "workflows.approval_count" [])
    else Ok (al_count level)
  else Err (workflowInvalid (at_ +:+ "/rule") "workflows.approval_rule_unknown" [("rule", al_rule level)]).

Definition check_level (at_ : string) (state : list ApprovalLevel * Z) (level : ApprovalLevel) :
    res (list ApprovalLevel * Z) :=
  let '(levels, i) := state in
  let levelAt := at_ +:+ "/levels/" +:+ itoa i in
  who ← newStepWho (mkWho (al_roles level) (al_person_fields level) (al_groups level) "") levelAt;
  let people := distinctTrimmed (al_people level) in
  _ ← fold_result (check_person levelAt) tt people;
  let named := len people + len (sw_groups who) + len (sw_person_fields who) in
  if named + len (sw_roles who) =? 0 then Err (workflowInvalid levelAt "workflows.approval_nobody" [])
  else if MaxApprovalApprovers <? named + len (sw_roles who) then
    Err (workflowInvalid levelAt "workflows.approval_too_many" [("maximum", itoa MaxApprovalApprovers)])
  else
    count ← check_rule level levelAt;
    let checked := mkLevel people (sw_groups who) (sw_roles who) (sw_person_fields who) (al_rule level) count in
    if Counted checked && (0 <? len (al_roles checked)) then
      Err (workflowInvalid (levelAt +:+ "/roles") "workflows.approval_role_uncounted" [])
    else Ok (levels ++ [checked], i + 1).

Definition newStepApproval (approval : StepApproval) (shape : WorkflowShape) (at_ : string) : res StepApproval :=
  if Nat.eqb (List.length (sa_levels approval)) 0 || Nat.ltb MaxApprovalLevels (List.length (sa_levels approval)) then
    Err (workflowInvalid (at_ +:+ "/levels") "workflows.approval_levels" [("maximum", itoa (Z.of_nat MaxApprovalLevels))])
  else if negb (String.eqb (sa_decline_to approval) "") &&
          match Status shape (sa_decline_to approval) with Some _ => false | None => true end then
    Err (workflowInvalid (at_ +:+ "/decline_to") "workflows.status_unknown" [("key", sa_decline_to approval)])
  else if (sa_due_hours approval <? 0) || (MaxApprovalDueHours <? sa_due_hours approval) then
    Err (workflowInvalid (at_ +:+ "/due_hours") "workflows.approval_due_hours" [("maximum", itoa MaxApprovalDueHours)])
  else
    r ← fold_result (check_level at_) ([], 0) (sa_levels approval);
    Ok (mkStepApproval r.1 (sa_decline_to approval) (sa_due_hours approval)).


(** *** Steps *)

(** [^[a-z]{2,3}(-[A-Z]{2})?$]. *)
Definition upper_byte (c : ascii) : bool := (65 <=? byte_of c) && (byte_of c <=? 90).
Definition region_tag (s : string) : bool :=
  match s with
  | EmptyString => true
  | String d (String x (String y EmptyString)) => Ascii.eqb d "-" && upper_byte x && upper_byte y
  | _ => false
  end.
Definition languageTagPattern (s : string) : bool :=
  match s with
  | String a (String b rest) =>
      lower_byte a && lower_byte b &&
      (region_tag rest || match rest with String c rest' => lower_byte c && region_tag rest' | _ => false end)
  | _ => false
  end.

(** One turn of the loop over a check's messages. *)
Definition check_message (form : Normalizer) (at_ : string) (out : gmap string string) (entry : string * string) :
    res (gmap string string) :=
  let '(language, words) := entry in
  if negb (languageTagPattern language) then
    Err (workflowInvalid (at_ +:+ "/" +:+ language) "workflows.language_malformed" [("language", language)])
  else
    message ← formHelp words form (at_ +:+ "/" +:+ language);
    Ok (if String.eqb message "" then out else <[language := message]> out).

Definition stepCheckMessages (raw : gmap string string) (form : Normalizer) (at_ : string) : res (gmap string string) :=
  if Nat.ltb MaxStepCheckLanguages (size raw) then
    Err (workflowInvalid at_ "workflows.too_many_languages" [("maximum", itoa (Z.of_nat MaxStepCheckLanguages))])
  else fold_result (check_message form at_) ∅ (map_to_list raw).

Definition check_from (shape : WorkflowShape) (to at_ : string) (from : list string) (key : string) : res (list string) :=
  match Status shape key with
  | None => Err (workflowInvalid (at_ +:+ "/from") "workflows.status_unknown" [("key", key)])
  | Some _ => Ok (if negb (String.eqb key to) && negb (contains from key) then from ++ [key] else from)
  end.

Definition check_field (at_ : string) (kept : list string) (key : string) : res (list string) :=
  if negb (validFormFieldKey key) then
    Err (workflowInvalid (at_ +:+ "/requires") "workflows.field_unknown" [("key", key)])
  else Ok (add_new kept key).

(** One turn of the loop over a step's checks; the index is that of the check. *)
Definition check_check (form : Normalizer) (at_ : string) (state : list StepCheck * Z) (check : StepCheck) :
    res (list StepCheck * Z) :=
  let '(checks, i) := state in
  let checkAt := at_ +:+ "/checks/" +:+ itoa i in
  let key := TrimSpace (sk_key check) in
  if negb (workflowKeyPattern key) then Err (workflowInvalid (checkAt +:+ "/key") "workflows.key_malformed" [])
  else if existsb (fun other => String.eqb (sk_key other) key) checks then
    Err (workflowInvalid (checkAt +:+ "/key") "workflows.key_taken" [("key", key)])
  else if String.eqb (TrimSpace (sk_holds check)) "" then
    Err (workflowInvalid (checkAt +:+ "/holds") "workflows.check_empty" [])
  else if Nat.ltb MaxFormExpressionLength (String.length (sk_holds check)) then
    Err (workflowInvalid (checkAt +:+ "/holds") "expression.too_long" [])
  else
    message ← formHelp (sk_message check) form (checkAt +:+ "/message");
    messages ← stepCheckMessages (sk_messages check) form (checkAt +:+ "/messages");
    let code := TrimSpace (sk_message_code check) in
    if negb (String.eqb code "") && negb (contains StepCheckMessageCodes code) then
      Err (workflowInvalid (checkAt +:+ "/message_code") "workflows.message_code_unknown" [("code", code)])
    else Ok (checks ++ [mkCheck key (sk_holds check) message messages code], i + 1).

Definition is_some {A} (o : option A) : bool := match o with Some _ => true | None => false end.

Definition newWorkflowStep (step : WorkflowStep) (shape : WorkflowShape) (form : Normalizer) (at_ : string) :
    res WorkflowStep :=
  let key := TrimSpace (st_key step) in
  if negb (workflowKeyPattern key) then Err (workflowInvalid (at_ +:+ "/key") "workflows.key_malformed" [])
  else if is_some (Step shape key) then
    Err (workflowInvalid (at_ +:+ "/key") "workflows.key_taken" [("key", key)])
  else
    name ← at_path (workflowName (st_name step) true form) (at_ +:+ "/name");
    if negb (is_some (Status shape (st_to step))) then
      Err (workflowInvalid (at_ +:+ "/to") "workflows.status_unknown" [("key", st_to step)])
    else
      from ← fold_result (check_from shape (st_to step) at_) [] (st_from step);
      if Nat.ltb 0 (List.length (st_from step)) && Nat.eqb (List.length from) 0 then
        Err (workflowInvalid (at_ +:+ "/from") "workflows.step_goes_nowhere" [])
      else
        requires ← fold_result (check_field at_) [] (st_requires step);
        asks ← fold_result (check_field at_) [] (st_asks step);
        who ← newStepWho (st_who step) (at_ +:+ "/who");
        if Nat.ltb MaxStepChecks (List.length (st_checks step)) then
          Err (workflowInvalid (at_ +:+ "/checks") "workflows.too_many_checks"
                 [("maximum", itoa (Z.of_nat MaxStepChecks))])
        else
          checks ← fold_result (check_check form at_) ([], 0) (st_checks step);
          approval ← match st_approval step with
                     | None => Ok None
                     | Some approval => Some <$> newStepApproval approval shape (at_ +:+ "/approval")
                     end;
          Ok (mkStep key name from (st_to step) who requires asks checks.1 approval).

(** *** Shapes *)

Definition plain_status (key category color : string) : WorkflowStatus := mkStatus key "" category color.
Definition plain_step (key to : string) : WorkflowStep :=
  mkStep key "" [] to (mkWho [] [] [] "") [] [] [] None.

Definition shipped_shape : WorkflowShape :=
  mkShape [plain_status "todo" CategoryTodo "slate"; plain_status "in_progress" CategoryInProgress "blue";
           plain_status "done" CategoryDone "green"]
    "todo" [plain_step "to_todo" "todo"; plain_step "start" "in_progress"; plain_step "finish" "done"].

(** One turn of the loop over the statuses. *)
Definition check_status (system : bool) (form : Normalizer) (state : WorkflowShape * Z) (status : WorkflowStatus) :
    res (WorkflowShape * Z) :=
  let '(out, i) := state in
  let at_ := "/statuses/" +:+ itoa i in
  let key := TrimSpace (ws_key status) in
  if negb (workflowKeyPattern key) then Err (workflowInvalid (at_ +:+ "/key") "workflows.key_malformed" [])
  else if is_some (Status out key) then
    Err (workflowInvalid (at_ +:+ "/key") "workflows.key_taken" [("key", key)])
  else if negb (CategoryValid (ws_category status)) then
    Err (workflowInvalid (at_ +:+ "/category") "workflows.category_unknown" [])
  else
    let color := if String.eqb (ws_color_token status) "" then "slate" else ws_color_token status in
    if negb (IsLabelToken color) then
      Err (workflowInvalid (at_ +:+ "/color_token") "workflows.color_token_unknown" [])
    else
      name ← at_path (workflowName (ws_name status) (system && is_some (Status shipped_shape key)) form) (at_ +:+ "/name");
      Ok (mkShape (sh_statuses out ++ [mkStatus key name (ws_category status) color]) (sh_initial out) (sh_steps out),
          i + 1).

(** One turn of the loop over the steps. *)
Definition check_step (form : Normalizer) (state : WorkflowShape * Z) (step : WorkflowStep) : res (WorkflowShape * Z) :=
  let '(out, i) := state in
  checked ← newWorkflowStep step out form ("/steps/" +:+ itoa i);
  Ok (mkShape (sh_statuses out) (sh_initial out) (sh_steps out ++ [checked]), i + 1).

(** Where an entry starts when the shape does not say: the first status that is
    not done. *)
Definition initial_of (given : string) (statuses : list WorkflowStatus) : string :=
  let initial := TrimSpace given in
  if String.eqb initial "" then
    match List.find (fun status => negb (CategoryCompletes (ws_category status))) statuses with
    | Some status => ws_key status
    | None => initial
    end
  else initial.

Definition NewWorkflowShape (in_ : WorkflowShape) (system : bool) (form : Normalizer) : res WorkflowShape :=
  if Nat.eqb (List.length (sh_statuses in_)) 0 then Err (workflowInvalid "/statuses" "workflows.statuses_empty" [])
  else if Nat.ltb MaxWorkflowStatuses (List.length (sh_statuses in_)) then
    Err (workflowInvalid "/statuses" "workflows.too_many_statuses" [("maximum", itoa (Z.of_nat MaxWorkflowStatuses))])
  else if Nat.ltb MaxWorkflowSteps (List.length (sh_steps in_)) then
    Err (workflowInvalid "/steps" "workflows.too_many_steps" [("maximum", itoa (Z.of_nat MaxWorkflowSteps))])
  else
    r ← fold_result (check_status system form) (mkShape [] "" [], 0) (sh_statuses in_);
    let statuses := sh_statuses r.1 in
    if String.eqb (FirstDone r.1) "" then Err (workflowInvalid "/statuses" "workflows.no_done_status" [])
    else
      let initial := initial_of (sh_initial in_) statuses in
      let bad_start := match Status r.1 initial with
                       | Some start => CategoryCompletes (ws_category start)
                       | None => true
                       end in
      if bad_start then Err (workflowInvalid "/initial" "workflows.initial_invalid" [])
      else
        out ← fold_result (check_step form) (mkShape statuses initial [], 0) (sh_steps in_);
        Ok out.1.

(** ** A workflow, its draft and its publishing *)

Record Workflow := mkWorkflow {
  wf_id : ID;
  wf_tenant_id : ID;
  wf_key : string;
  wf_system : bool;
  wf_name : string;
  wf_published : WorkflowShape;
  wf_draft : option WorkflowShape;
  wf_published_at : option Time;
  wf_published_by : ID;
  wf_created_at : Time;
  wf_updated_at : Time;
  wf_version : Z;
  wf_hub_id : ID;
  wf_copied_from : string
}.

Definition UsableIn (w : Workflow) (hub : ID) : bool := id_is_zero (wf_hub_id w) || String.eqb (wf_hub_id w) hub.
Definition Stored (w : Workflow) : bool := negb (id_is_zero (wf_id w)).

Definition SystemWorkflow : Workflow :=
  mkWorkflow "" "" SystemWorkflowKey true "" shipped_shape None None "" zero_time zero_time 0 "" "".

Definition as_system (w : Workflow) : Workflow :=
  mkWorkflow (wf_id w) (wf_tenant_id w) (wf_key w) true (wf_name w) (wf_published w) (wf_draft w) (wf_published_at w)
    (wf_published_by w) (wf_created_at w) (wf_updated_at w) (wf_version w) (wf_hub_id w) (wf_copied_from w).

Definition NewWorkflows (rows : list Workflow) : list Workflow :=
  let system := foldl (fun system row => if String.eqb (wf_key row) SystemWorkflowKey then as_system row else system)
                  SystemWorkflow rows in
  system :: List.filter (fun row => negb (String.eqb (wf_key row) SystemWorkflowKey)) rows.

Definition Started (ws : list Workflow) : list string :=
  sort_by String.compare
    (foldl (fun out w =>
       foldl (fun out status =>
         if String.eqb (ws_category status) CategoryInProgress then add_new out (ws_key status) else out)
         out (sh_statuses (wf_published w))) [] ws).

Definition Within (ws : list Workflow) (hub : ID) : list Workflow := List.filter (fun w => UsableIn w hub) ws.

Definition FindWorkflow (ws : list Workflow) (key : string) : option Workflow :=
  List.find (fun w => String.eqb (wf_key w) key) ws.

Record NewWorkflowInput := mkNewWorkflow {
  nw_id : ID; nw_tenant_id : ID; nw_key : string; nw_name : string; nw_shape : WorkflowShape;
  nw_by : ID; nw_now : Time; nw_text : Normalizer; nw_hub_id : ID
}.

Definition NewWorkflow (in_ : NewWorkflowInput) : res Workflow :=
  if id_is_zero (nw_id in_) || id_is_zero (nw_tenant_id in_) then
    Err (WithDetail ErrInternal "workflows.identity_incomplete")
  else
    let key := TrimSpace (nw_key in_) in
    if negb (workflowKeyPattern key) then Err (workflowInvalid "/key" "workflows.key_malformed" [])
    else if String.eqb key SystemWorkflowKey then Err (workflowInvalid "/key" "workflows.key_reserved" [])
    else
      name ← workflowName (nw_name in_) false (nw_text in_);
      shape ← NewWorkflowShape (nw_shape in_) false (nw_text in_);
      Ok (mkWorkflow (nw_id in_) (nw_tenant_id in_) key false name shape None (Some (nw_now in_)) (nw_by in_)
            (nw_now in_) (nw_now in_) 1 (nw_hub_id in_) "").

Record WorkflowCopy := mkCopy {
  wc_id : ID; wc_tenant_id : ID; wc_hub_id : ID; wc_key : string; wc_name : option string;
  wc_by : ID; wc_now : Time; wc_text : Normalizer
}.

Definition CopyAt (w : Workflow) (in_ : WorkflowCopy) : res Workflow :=
  if id_is_zero (wc_hub_id in_) then Err (workflowInvalid "/hub_id" "workflows.hub_required" [])
  else
    let tenantID := if id_is_zero (wc_tenant_id in_) then wf_tenant_id w else wc_tenant_id in_ in
    let name := match wc_name in_ with Some given => given | None => wf_name w end in
    copied ← NewWorkflow (mkNewWorkflow (wc_id in_) tenantID (wc_key in_) name (wf_published w) (wc_by in_)
                            (wc_now in_) (wc_text in_) (wc_hub_id in_));
    Ok (mkWorkflow (wf_id copied) (wf_tenant_id copied) (wf_key copied) (wf_system copied) (wf_name copied)
          (wf_published copied) (wf_draft copied) (wf_published_at copied) (wf_published_by copied)
          (wf_created_at copied) (wf_updated_at copied) (wf_version copied) (wf_hub_id copied) (wf_key w)).

(** What the changes below leave as it is. *)
Definition workflow_changed (w : Workflow) (name : string) (published : WorkflowShape) (draft : option WorkflowShape)
    (at_ : option Time) (by_ : ID) (now : Time) : Workflow :=
  mkWorkflow (wf_id w) (wf_tenant_id w) (wf_key w) (wf_system w) name published draft at_ by_ (wf_created_at w) now
    (wf_version w) (wf_hub_id w) (wf_copied_from w).

Definition RenamedWorkflow (w : Workflow) (raw : string) (now : Time) (form : Normalizer) : res Workflow :=
  name ← workflowName raw (wf_system w) form;
  Ok (workflow_changed w name (wf_published w) (wf_draft w) (wf_published_at w) (wf_published_by w) now).

Definition WithDraft (w : Workflow) (shape : WorkflowShape) (now : Time) (form : Normalizer) : res Workflow :=
  checked ← NewWorkflowShape shape (wf_system w) form;
  Ok (workflow_changed w (wf_name w) (wf_published w) (Some checked) (wf_published_at w) (wf_published_by w) now).

Definition Discarded (w : Workflow) (now : Time) : Workflow :=
  workflow_changed w (wf_name w) (wf_published w) None (wf_published_at w) (wf_published_by w) now.

Definition Publish (w : Workflow) (by_ : ID) (now : Time) : res Workflow :=
  match wf_draft w with
  | None => Err (WithDetail ErrConflict "workflows.no_draft")
  | Some draft => Ok (workflow_changed w (wf_name w) draft None (Some now) by_ now)
  end.

(** ** A step that is refused *)

Fixpoint slashes (key : string) : string :=
  match key with
  | EmptyString => EmptyString
  | String c rest => String (if Ascii.eqb c "." then "/"%char else c) (slashes rest)
  end.

Definition missing_problem (key : string) : FieldError :=
  mkFieldError ("/" +:+ slashes key) "fields.value_required" [("key", key)].

Definition failed_problem (check : StepCheck) : FieldError :=
  mkFieldError "" "workflows.check_failed"
    ([("check", sk_key check)]
     ++ (if String.eqb (sk_message check) "" then [] else [("message", sk_message check)])
     ++ (if String.eqb (sk_message_code check) "" then [] else [("message_code", sk_message_code check)])
     ++ ((fun entry => ("message." +:+ entry.1, entry.2)) <$> map_to_list (sk_messages check))).

Definition StepRefused (step : WorkflowStep) (missing : list string) (failed : list StepCheck) : Error :=
  let problems := (missing_problem <$> missing) ++ (failed_problem <$> failed) in
  WithFields (detailed ErrValidation "workflows.step_refused"
    [("step", st_key step); ("count", itoa (Z.of_nat (List.length problems)))]) problems.

(** ** Another workflow in force *)

Record StatusGroup := mkGroup {
  sg_collection_id : ID; sg_entry_type : string; sg_status : string; sg_completed : bool; sg_count : Z
}.

Record StatusMove := mkMove {
  sm_collection_id : ID; sm_entry_type : string; sm_from : string; sm_completed : bool; sm_to : string; sm_count : Z
}.

(** The status a group's entries go to. *)
Definition move_target (group : StatusGroup) (after : option WorkflowShape) (mapping : gmap string string) : res string :=
  match after with
  | None => Ok ""
  | Some after =>
      let to := Entering after (sg_status group) (sg_completed group) in
      if is_some (Status after (sg_status group)) then Ok to
      else match mapping !! sg_status group with
           | Some target =>
               if String.eqb target "" then Ok to
               else match Status after target with
                    | None => Err (workflowInvalid ("/mapping/" +:+ sg_status group) "workflows.status_unknown"
                                     [("key", target)])
                    | Some status =>
                        if negb (Bool.eqb (CategoryCompletes (ws_category status)) (sg_completed group)) then
                          Err (workflowInvalid ("/mapping/" +:+ sg_status group) "workflows.mapping_changes_completion"
                                 [("key", target)])
                        else Ok target
                    end
           | None => Ok to
           end
  end.

Definition move_of (group : StatusGroup) (to : string) : StatusMove :=
  mkMove (sg_collection_id group) (sg_entry_type group) (sg_status group) (sg_completed group) to (sg_count group).

(** One turn of the loop; the shape before the change is not looked at. *)
Definition plan_group (after : option WorkflowShape) (mapping : gmap string string) (moves : list StatusMove)
    (group : StatusGroup) : res (list StatusMove) :=
  to ← move_target group after mapping;
  Ok (if String.eqb to (sg_status group) then moves else moves ++ [move_of group to]).

Definition PlanStatusMoves (groups : list StatusGroup) (before after : option WorkflowShape)
    (mapping : gmap string string) : res (list StatusMove) :=
  fold_result (plan_group after mapping) [] groups.

Definition RemovedStatuses (before after : WorkflowShape) (groups : list StatusGroup) : gmap string Z :=
  foldl (fun out group =>
    if is_some (Status before (sg_status group)) && negb (is_some (Status after (sg_status group))) then
      <[sg_status group := default 0 (out !! sg_status group) + sg_count group]> out
    else out) ∅ groups.

(** ** Which workflow is in force *)

Record WorkflowScheme := mkScheme { sc_container_id : ID; sc_entry_type : string; sc_workflow_key : string }.

Definition scheme_of (schemes : list WorkflowScheme) (container : ID) (wanted : string) : option string :=
  sc_workflow_key <$>
    List.find (fun scheme => String.eqb (sc_container_id scheme) container && String.eqb (sc_entry_type scheme) wanted) schemes.

Definition or_else {A} (o p : option A) : option A := match o with Some _ => o | None => p end.

Definition scheme_at (schemes : list WorkflowScheme) (container : ID) (entryType : string) : option string :=
  if id_is_zero container then None
  else or_else (scheme_of schemes container entryType) (scheme_of schemes container "").

Definition ResolveWorkflow (schemes : list WorkflowScheme) (collectionID hubID : ID) (entryType : string) : option string :=
  or_else (scheme_at schemes collectionID entryType) (scheme_at schemes hubID entryType).

(** ** What a checked shape is

    Each check comes with the property its answer has, and the property with
    the fact that the check lets what has it through unchanged. *)

Section Form.
Context (form : Normalizer).

Definition name_ok (may_be_empty : bool) (name : string) : Prop :=
  NFC (TrimSpace name) form = Ok name /\ (name <> "" \/ may_be_empty = true) /\
  RuneCountInString name <= MaxStructureNameLength /\ hasControlCharacter name = false.

Definition help_ok (help : string) : Prop :=
  NFC (TrimSpace help) form = Ok help /\ RuneCountInString help <= MaxFormHelpLength.

Definition role_ok (role : string) : Prop := role ∈ stepRoles \/ ValidCustomRoleKey role = true.

Definition person_field_ok (field : string) : Prop :=
  field = "assignee" \/ field = "created_by" \/
  (str_has_prefix FormCustomPrefix field = true /\ validFormFieldKey field = true).

Definition uuid_ok (id : string) : Prop := looksLikeUUID id = true.

(** Each once, and each as it should be. *)
Definition each {A} (P : A -> Prop) (xs : list A) : Prop := NoDup xs /\ Forall P xs.

Definition who_ok (w : StepWho) : Prop :=
  each role_ok (sw_roles w) /\ each person_field_ok (sw_person_fields w) /\ each uuid_ok (sw_groups w) /\
  TrimSpace (sw_condition w) = sw_condition w /\ (String.length (sw_condition w) <= MaxFormExpressionLength)%nat.

(** Somebody approves, no more than fifty are named, and a rule that counts
    everybody counts people it can name. *)
Definition level_ok (l : ApprovalLevel) : Prop :=
  each uuid_ok (al_people l) /\ each uuid_ok (al_groups l) /\ each role_ok (al_roles l) /\
  each person_field_ok (al_person_fields l) /\
  0 < len (al_people l) + len (al_groups l) + len (al_person_fields l) + len (al_roles l) <= MaxApprovalApprovers /\
  (al_rule l ∈ [ApprovalAny; ApprovalAll; ApprovalMajority] /\ al_count l = 0 \/
   al_rule l = ApprovalNOf /\ 1 <= al_count l <= MaxApprovalApprovers) /\
  (Counted l = true -> al_roles l = []).

Definition approval_ok (shape : WorkflowShape) (a : StepApproval) : Prop :=
  (0 < List.length (sa_levels a) <= MaxApprovalLevels)%nat /\ Forall level_ok (sa_levels a) /\
  (sa_decline_to a = "" \/ sa_decline_to a ∈ Columns shape) /\ 0 <= sa_due_hours a <= MaxApprovalDueHours.

Definition message_ok (language words : string) : Prop :=
  languageTagPattern language = true /\ help_ok words /\ words <> "".

Definition messages_ok (m : gmap string string) : Prop :=
  (size m <= MaxStepCheckLanguages)%nat /\ map_Forall message_ok m.

Definition check_ok (c : StepCheck) : Prop :=
  workflowKeyPattern (sk_key c) = true /\ TrimSpace (sk_holds c) <> "" /\
  (String.length (sk_holds c) <= MaxFormExpressionLength)%nat /\
  help_ok (sk_message c) /\ messages_ok (sk_messages c) /\ TrimSpace (sk_message_code c) = sk_message_code c /\
  (sk_message_code c = "" \/ sk_message_code c ∈ StepCheckMessageCodes).

Definition field_ok (key : string) : Prop := validFormFieldKey key = true.

Definition step_ok (shape : WorkflowShape) (s : WorkflowStep) : Prop :=
  workflowKeyPattern (st_key s) = true /\ name_ok true (st_name s) /\ st_to s ∈ Columns shape /\
  each (fun from => from ∈ Columns shape /\ from <> st_to s) (st_from s) /\
  each field_ok (st_requires s) /\ each field_ok (st_asks s) /\ who_ok (st_who s) /\
  (List.length (st_checks s) <= MaxStepChecks)%nat /\ NoDup (sk_key <$> st_checks s) /\ Forall check_ok (st_checks s) /\
  match st_approval s with Some a => approval_ok shape a | None => True end.

Definition status_ok (system : bool) (s : WorkflowStatus) : Prop :=
  workflowKeyPattern (ws_key s) = true /\ ws_category s ∈ StatusCategories /\ ws_color_token s ∈ LabelTokens /\
  name_ok (system && is_some (Status shipped_shape (ws_key s))) (ws_name s).

Definition shape_ok (system : bool) (s : WorkflowShape) : Prop :=
  (0 < List.length (sh_statuses s) <= MaxWorkflowStatuses)%nat /\ (List.length (sh_steps s) <= MaxWorkflowSteps)%nat /\
  NoDup (Columns s) /\ Forall (status_ok system) (sh_statuses s) /\
  ShapeCompletes s (FirstDone s) = true /\ sh_initial s ∈ Columns s /\ ShapeCompletes s (sh_initial s) = false /\
  NoDup (st_key <$> sh_steps s) /\ Forall (step_ok s) (sh_steps s).

(** *** Keys *)

Lemma Status_known shape key : is_some (Status shape key) = true <-> key ∈ Columns shape.
Proof.
  unfold Status, Columns. rewrite list_elem_of_fmap. split.
  - destruct (List.find _ _) as [s|] eqn:E; [|done]. intros _. apply find_some in E as [Hin E]. bools.
    exists s. split; [done|]. by apply list_elem_of_In.
  - intros [s [-> Hin]]. apply list_elem_of_In in Hin.
    destruct (List.find _ _) eqn:E; [done|]. apply (find_none _ _ E) in Hin. by rewrite String.eqb_refl in Hin.
Qed.

Lemma Step_known shape key : is_some (Step shape key) = true <-> key ∈ st_key <$> sh_steps shape.
Proof.
  unfold Step. rewrite list_elem_of_fmap. split.
  - destruct (List.find _ _) as [s|] eqn:E; [|done]. intros _. apply find_some in E as [Hin E]. bools.
    exists s. split; [done|]. by apply list_elem_of_In.
  - intros [s [-> Hin]]. apply list_elem_of_In in Hin.
    destruct (List.find _ _) eqn:E; [done|]. apply (find_none _ _ E) in Hin. by rewrite String.eqb_refl in Hin.
Qed.

Lemma known_false {A} (o : option A) (P : Prop) : (is_some o = true <-> P) -> is_some o = false <-> ~ P.
Proof. destruct (is_some o); intuition congruence. Qed.

(** *** Texts *)

Lemma at_path_ok {A} (r : res A) path a : at_path r path = Ok a <-> r = Ok a.
Proof. destruct r; cbn; split; congruence. Qed.

Lemma workflowName_sound `{!NormalForm form} raw may name : workflowName raw may form = Ok name -> name_ok may name.
Proof.
  unfold workflowName, name_ok. intros H. apply bind_ok in H as [n [Hn H]]. repeat case_match; simplify_eq.
  bools. split; [by eapply NFC_trim_idem|]. split; [|split; [lia|done]].
  destruct (decide (name = "")) as [->|]; [right; destruct may; done|by left].
Qed.

Lemma workflowName_again may name : name_ok may name -> workflowName name may form = Ok name.
Proof.
  unfold workflowName, name_ok. intros (-> & Hne & Hlen & Hc). cbn.
  rewrite Hc, (proj2 (Z.ltb_ge _ _) Hlen). destruct (String.eqb_spec name ""); [|done].
  destruct Hne as [?| ->]; done.
Qed.

Lemma formHelp_sound `{!NormalForm form} raw at_ help : formHelp raw form at_ = Ok help -> help_ok help.
Proof.
  unfold formHelp, help_ok. intros H. apply bind_ok in H as [n [Hn H]]. case_match; simplify_eq. bools.
  split; [by eapply NFC_trim_idem|lia].
Qed.

Lemma formHelp_again at_ help : help_ok help -> formHelp help form at_ = Ok help.
Proof. unfold formHelp, help_ok. intros [-> Hlen]. cbn. by rewrite (proj2 (Z.ltb_ge _ _) Hlen). Qed.

Lemma stepCheckMessages_sound `{!NormalForm form} raw at_ out : stepCheckMessages raw form at_ = Ok out -> messages_ok out.
Proof.
  unfold stepCheckMessages, messages_ok. destruct (Nat.ltb_spec MaxStepCheckLanguages (size raw)); [done|].
  intros Hf. cut (dom out ⊆ dom raw /\ map_Forall message_ok out).
  { intros [Hdom Hall]. split; [|done]. rewrite <- size_dom. rewrite <- size_dom in H.
    apply subseteq_size in Hdom. lia. }
  revert Hf. apply (fold_result_inv _ (fun out => dom out ⊆ dom raw /\ map_Forall message_ok out));
    [|split; [set_solver|apply map_Forall_empty]].
  intros s [language words] s' [Hdom Hall] Hin Hx. unfold check_message in Hx.
  destruct (languageTagPattern language) eqn:Et; cbn in Hx; [|done].
  apply bind_ok in Hx as [message [Hm Hx]]. apply formHelp_sound in Hm.
  destruct (String.eqb_spec message ""); simplify_eq; [done|]. apply elem_of_map_to_list in Hin. split.
  - rewrite dom_insert. apply elem_of_dom_2 in Hin. set_solver.
  - by apply map_Forall_insert_2.
Qed.

Lemma fold_insert_messages at_ l : forall acc : gmap string string,
  Forall (fun entry => message_ok entry.1 entry.2) l -> NoDup (l.*1) ->
  fold_result (check_message form at_) acc l = Ok (list_to_map l ∪ acc).
Proof.
  induction l as [|[k v] l IH]; intros acc Hall Hn; cbn [fold_result].
  - by rewrite list_to_map_nil, (left_id_L ∅ (∪)).
  - inversion_clear Hall as [|? ? (Ht & Hh & Hne) Hall']. apply NoDup_cons in Hn as [Hnin Hn]. cbn in Ht, Hh, Hne, Hnin.
    assert (check_message form at_ acc (k, v) = Ok (<[k := v]> acc)) as ->.
    { unfold check_message. rewrite Ht, formHelp_again by done. apply String.eqb_neq in Hne. cbn. by rewrite Hne. }
    cbn. rewrite IH by done. f_equal.
    rewrite <- insert_union_l. symmetry. apply insert_union_r. by apply not_elem_of_list_to_map_1.
Qed.

Lemma stepCheckMessages_again at_ m : messages_ok m -> stepCheckMessages m form at_ = Ok m.
Proof.
  unfold stepCheckMessages. intros [Hsize Hall]. destruct (Nat.ltb_spec MaxStepCheckLanguages (size m)); [lia|].
  rewrite fold_insert_messages, (right_id_L ∅ (∪)), list_to_map_to_list; [done| |apply NoDup_fst_map_to_list].
  apply Forall_forall. intros [k v] Hin. apply elem_of_map_to_list in Hin. by apply (Hall k v).
Qed.

(** *** Who *)

Lemma ParseID_ok raw id : ParseID raw = Ok id <-> id = raw /\ uuid_ok raw.
Proof. unfold ParseID, uuid_ok. destruct (looksLikeUUID raw); split; intros H; intuition congruence. Qed.

Lemma uuid_not_zero id : uuid_ok id -> id_is_zero id = false.
Proof. unfold uuid_ok. by destruct id. Qed.

Lemma check_role_turn at_ s x s' : check_role at_ s x = Ok s' <-> role_ok x /\ s' = add_new s x.
Proof.
  unfold check_role, role_ok. destruct (contains stepRoles x) eqn:E1; cbn.
  - apply contains_in in E1. split; [intros [= <-]; auto|intros [_ ->]; done].
  - assert (x ∉ stepRoles) by (rewrite <- contains_in; congruence).
    destruct (ValidCustomRoleKey x); cbn; split; intros H'; try done; intuition congruence.
Qed.

Lemma cut_prefix_some p s : match cut_prefix p s with Some _ => true | None => false end = str_has_prefix p s.
Proof. unfold cut_prefix. by destruct (str_has_prefix p s). Qed.

Lemma check_person_field_turn at_ s x s' :
  check_person_field at_ s x = Ok s' <-> person_field_ok x /\ s' = add_new s x.
Proof.
  unfold check_person_field, person_field_ok. rewrite cut_prefix_some.
  destruct (String.eqb_spec x "assignee"), (String.eqb_spec x "created_by"),
    (str_has_prefix FormCustomPrefix x), (validFormFieldKey x); cbn;
    split; intros H; try done; intuition congruence.
Qed.

Lemma check_group_turn at_ s x s' : check_group at_ s x = Ok s' <-> uuid_ok x /\ s' = add_new s x.
Proof.
  unfold check_group. destruct (ParseID x) as [id|e|] eqn:E.
  - apply ParseID_ok in E as [-> E]. rewrite uuid_not_zero by done. split; [intros [= <-]; done|intros [_ ->]; done].
  - unfold ParseID in E. unfold uuid_ok. destruct (looksLikeUUID x); [done|]. split; [done|intros [? _]; done].
  - unfold ParseID in E. by destruct (looksLikeUUID x).
Qed.

Lemma check_field_turn at_ s x s' : check_field at_ s x = Ok s' <-> field_ok x /\ s' = add_new s x.
Proof. unfold check_field, field_ok. destruct (validFormFieldKey x); cbn; split; intros H; intuition congruence. Qed.

(** A loop whose turns are "it is as it should be, and kept if new". *)
Lemma fold_turns_sound {A} `{EqDecision A} (P : A -> Prop) (f : list A -> A -> res (list A)) xs out :
  (forall s x s', f s x = Ok s' <-> P x /\ s' = add_new s x) -> fold_result f [] xs = Ok out -> each P out.
Proof. intros Hf. apply (fold_add_new_keeps P f xs). intros s x s' Hx. apply Hf in Hx as [Hp ->]. eauto. Qed.

Lemma fold_turns_again {A} `{EqDecision A} (P : A -> Prop) (f : list A -> A -> res (list A)) xs :
  (forall s x s', f s x = Ok s' <-> P x /\ s' = add_new s x) -> each P xs -> fold_result f [] xs = Ok xs.
Proof. intros Hf [Hn Hall]. apply (fold_add_new_id P f xs); [|done..]. intros s x Hx. by apply Hf. Qed.

Lemma newStepWho_sound who at_ out : newStepWho who at_ = Ok out -> who_ok out.
Proof.
  unfold newStepWho, who_ok. intros H. apply bind_ok in H as [roles [Hr H]]. apply bind_ok in H as [people [Hp H]].
  apply bind_ok in H as [groups [Hg H]]. cbn zeta in H. case_match eqn:E; [done|]. injection H as <-. cbn.
  apply Nat.ltb_ge in E. refine (conj _ (conj _ (conj _ (conj (TrimSpace_idem _) E)))).
  - eapply fold_turns_sound; [|exact Hr]. apply check_role_turn.
  - eapply fold_turns_sound; [|exact Hp]. apply check_person_field_turn.
  - eapply fold_turns_sound; [|exact Hg]. apply check_group_turn.
Qed.

Lemma newStepWho_again who at_ : who_ok who -> newStepWho who at_ = Ok who.
Proof.
  unfold newStepWho. intros (Hr & Hp & Hg & Ht & Hlen). rewrite Ht, (proj2 (Nat.ltb_ge _ _) Hlen).
  rewrite (fold_turns_again _ _ _ (check_role_turn at_) Hr). cbn.
  rewrite (fold_turns_again _ _ _ (check_person_field_turn at_) Hp). cbn.
  rewrite (fold_turns_again _ _ _ (check_group_turn at_) Hg). by destruct who.
Qed.

(** *** Approvals *)

Lemma check_person_turn at_ u p u' : check_person at_ u p = Ok u' <-> uuid_ok p.
Proof.
  destruct u'. unfold check_person. destruct (ParseID p) as [id|e|] eqn:E.
  - apply ParseID_ok in E as [-> E]. by rewrite uuid_not_zero.
  - unfold ParseID, uuid_ok in *. by destruct (looksLikeUUID p).
  - unfold ParseID in E. by destruct (looksLikeUUID p).
Qed.

Lemma check_person_loop at_ people :
  fold_result (check_person at_) tt people = Ok tt <-> Forall uuid_ok people.
Proof.
  induction people as [|p people IH]; cbn [fold_result]; [by split|]. rewrite Forall_cons, <- IH.
  rewrite <- (check_person_turn at_ tt p tt). destruct (check_person at_ tt p) as [[]| |]; cbn; intuition done.
Qed.

Lemma distinctTrimmed_nodup values : NoDup (distinctTrimmed values).
Proof.
  unfold distinctTrimmed. assert (H : NoDup (@nil string)) by constructor. revert H.
  generalize (@nil string) as kept. induction values as [|v values IH]; intros kept H; [done|]. cbn.
  apply IH. case_match; [done|]. by apply (add_new_keeps (fun _ => True) kept); [split; [|apply Forall_true]|].
Qed.

Lemma uuid_visible i raw : all_uuid_chars i raw = true -> str_forallb visible raw = true.
Proof.
  revert i. induction raw as [|c raw IH]; intros i; [done|]. cbn. intros H. bools. rewrite (IH (S i)) by done.
  rewrite andb_true_r. unfold is_uuid_char in H. unfold visible, byte_of. case_match; bools; [by subst|]. clear -H. apply orb_true_iff in H as [H|H]; apply andb_true_iff in H as [H1 H2]; apply N.leb_le in H1, H2; lia.
Qed.

Lemma trim_uuid id : uuid_ok id -> TrimSpace id = id.
Proof. unfold uuid_ok, looksLikeUUID. intros H. bools. by eapply trim_visible, uuid_visible. Qed.

Lemma distinctTrimmed_again people : each uuid_ok people -> distinctTrimmed people = people.
Proof.
  intros [Hn Hall]. unfold distinctTrimmed. change people with ([] ++ people) at 2. change people with ([] ++ people) in Hn.
  revert Hn. generalize (@nil string) as kept.
  induction Hall as [|p people Hp Hall IH]; intros kept Hn; cbn; [by rewrite app_nil_r|].
  rewrite trim_uuid by done. pose proof (uuid_not_zero _ Hp) as Hz. unfold id_is_zero in Hz. rewrite Hz.
  rewrite (add_new_fresh kept p people Hn), IH by by rewrite <- app_assoc. by rewrite <- app_assoc.
Qed.

Lemma check_rule_sound level at_ count : check_rule level at_ = Ok count ->
  al_rule level ∈ [ApprovalAny; ApprovalAll; ApprovalMajority] /\ count = 0 \/
  al_rule level = ApprovalNOf /\ 1 <= count <= MaxApprovalApprovers.
Proof.
  unfold check_rule. destruct (contains _ (al_rule level)) eqn:E.
  - intros [= <-]. left. by apply contains_in in E.
  - destruct (String.eqb_spec (al_rule level) ApprovalNOf); [|done]. case_match eqn:E'; [done|].
    intros [= <-]. bools. right. split; [done|lia].
Qed.

Lemma check_rule_again level at_ :
  al_rule level ∈ [ApprovalAny; ApprovalAll; ApprovalMajority] /\ al_count level = 0 \/
  al_rule level = ApprovalNOf /\ 1 <= al_count level <= MaxApprovalApprovers ->
  check_rule level at_ = Ok (al_count level).
Proof.
  unfold check_rule. intros [[Hin ->]|[-> Hc]].
  - apply contains_in in Hin. by rewrite Hin.
  - cbn. rewrite (proj2 (Z.ltb_ge _ _)), (proj2 (Z.ltb_ge _ _)) by lia. done.
Qed.

Lemma check_level_sound at_ acc i level r : check_level at_ (acc, i) level = Ok r ->
  exists checked, r = (acc ++ [checked], i + 1) /\ level_ok checked.
Proof.
  unfold check_level. intros H. apply bind_ok in H as [who [Hw H]]. apply newStepWho_sound in Hw as (Hr & Hf & Hg & _).
  apply bind_ok in H as [[] [Hp H]]. apply check_person_loop in Hp. pose proof (distinctTrimmed_nodup (al_people level)) as Hn.
  cbn zeta in H. case_match eqn:E0; [done|]. case_match eqn:E1; [done|]. apply bind_ok in H as [count [Hc H]].
  case_match eqn:E2; [done|]. injection H as <-. eexists. split; [done|]. apply check_rule_sound in Hc. bools.
  unfold level_ok. cbn. refine (conj _ (conj _ (conj _ (conj _ (conj _ (conj _ _)))))); [done|done|done|done| |done|].
  - unfold len in *. lia.
  - intros HC. apply andb_false_iff in E2 as [E2|E2]; [unfold Counted in *; cbn in *; congruence|].
    unfold len in E2. bools. destruct (sw_roles who); [done|]. cbn in E2. lia.
Qed.

Lemma check_level_again at_ acc i level : level_ok level -> check_level at_ (acc, i) level = Ok (acc ++ [level], i + 1).
Proof.
  unfold check_level. intros (Hp & Hg & Hr & Hf & Hl & Hc & HC). rewrite newStepWho_again.
  2:{ unfold who_ok. cbn [sw_roles sw_person_fields sw_groups sw_condition].
      refine (conj Hr (conj Hf (conj Hg (conj eq_refl _)))). apply Nat.le_0_l. }
  cbn [mbind result_bind sw_roles sw_groups sw_person_fields]. rewrite distinctTrimmed_again by done.
  rewrite (proj2 (check_person_loop _ _)) by apply Hp. cbn [mbind result_bind].
  rewrite (proj2 (Z.eqb_neq _ _)), (proj2 (Z.ltb_ge _ _)) by lia. rewrite check_rule_again by done. cbn [mbind result_bind].
  replace (mkLevel _ _ _ _ _ _) with level by by destruct level.
  destruct (Counted level); [|done]. by rewrite HC.
Qed.

Lemma newStepApproval_sound approval shape at_ out : newStepApproval approval shape at_ = Ok out -> approval_ok shape out.
Proof.
  unfold newStepApproval. destruct (Nat.eqb _ _ || _) eqn:E0; [done|]. destruct (negb _ && _) eqn:E1; [done|].
  destruct ((sa_due_hours approval <? 0) || _) eqn:E2; [done|]. intros H. apply bind_ok in H as [r [Hr H]]. injection H as <-.
  apply orb_false_iff in E0 as [E0 E0']. apply Nat.eqb_neq in E0. apply Nat.ltb_ge in E0'. bools. unfold approval_ok. cbn.
  apply (fold_grow_inv (fun acc : list ApprovalLevel => acc) (check_level at_) (fun _ => level_ok)
    (sa_levels approval)) with (acc0 := []) in Hr as [levels [-> [Hlen Hlevels]]].
  2:{ intros acc i x r' _ Hx. apply check_level_sound in Hx as [y [-> Hy]]. eauto. }
  cbn. refine (conj _ (conj _ (conj _ _))); [lia| | |lia].
  - apply split_forall. intros acc y rest ->. by apply (Hlevels acc y rest).
  - destruct (String.eqb_spec (sa_decline_to approval) ""); [by left|]. right. cbn in E1.
    apply Status_known. by destruct (Status shape (sa_decline_to approval)).
Qed.

Lemma newStepApproval_again approval shape at_ :
  approval_ok shape approval -> newStepApproval approval shape at_ = Ok approval.
Proof.
  unfold newStepApproval. intros ([H1 H2] & Hall & Hd & Hh).
  rewrite (proj2 (Nat.eqb_neq _ _)), (proj2 (Nat.ltb_ge _ _)) by lia.
  rewrite (proj2 (Z.ltb_ge _ _)), (proj2 (Z.ltb_ge _ _)) by lia. cbn [orb].
  replace (negb _ && _) with false.
  2:{ destruct Hd as [->|Hd]; [done|]. apply Status_known in Hd. unfold is_some in Hd.
      by destruct (Status shape (sa_decline_to approval)); rewrite ?andb_false_r. }
  destruct (fold_grow_id (fun acc : list ApprovalLevel => acc) (check_level at_) (sa_levels approval) [] 0) as [n ->].
  - intros acc y rest j Heq. apply check_level_again. rewrite Heq in Hall. by apply forall_split in Hall.
  - by destruct approval.
Qed.

(** *** Checks and fields *)

Lemma existsb_key (checks : list StepCheck) key :
  existsb (fun other => String.eqb (sk_key other) key) checks = true <-> key ∈ sk_key <$> checks.
Proof.
  rewrite existsb_exists, list_elem_of_fmap. split; intros [c [H1 H2]]; exists c.
  - bools. split; [done|]. by apply list_elem_of_In.
  - subst. rewrite String.eqb_refl. split; [|done]. by apply list_elem_of_In.
Qed.

Lemma check_check_sound `{!NormalForm form} at_ acc i check r : check_check form at_ (acc, i) check = Ok r ->
  exists y, r = (acc ++ [y], i + 1) /\ check_ok y /\ sk_key y ∉ sk_key <$> acc.
Proof.
  unfold check_check. destruct (workflowKeyPattern _) eqn:Ek; [|done]. cbn [negb].
  destruct (existsb _ acc) eqn:Et; [done|]. destruct (String.eqb_spec (TrimSpace (sk_holds check)) "") as [|Hh]; [done|].
  destruct (Nat.ltb_spec MaxFormExpressionLength (String.length (sk_holds check))) as [|Hl]; [done|].
  intros H. apply bind_ok in H as [message [Hm H]]. apply bind_ok in H as [messages [Hms H]].
  destruct (negb (String.eqb _ "") && _) eqn:Ec; [done|]. injection H as <-. eexists. split; [done|]. split.
  - refine (conj Ek (conj Hh (conj Hl (conj _ (conj _ (conj (TrimSpace_idem _) _)))))).
    + by eapply formHelp_sound.
    + by eapply stepCheckMessages_sound.
    + apply andb_false_iff in Ec as [Ec|Ec]; bools; [by left|right; by apply contains_in].
  - cbn. intros Hin. apply existsb_key in Hin. congruence.
Qed.

Lemma check_check_again at_ acc i check : check_ok check -> sk_key check ∉ sk_key <$> acc ->
  check_check form at_ (acc, i) check = Ok (acc ++ [check], i + 1).
Proof.
  unfold check_check. intros (Hk & Hh & Hl & Hm & Hms & Ht & Hc) Hn. rewrite (trim_key _ _ Hk), Hk. cbn [negb].
  destruct (existsb _ acc) eqn:Et; [by apply existsb_key in Et|]. apply String.eqb_neq in Hh. rewrite Hh.
  rewrite (proj2 (Nat.ltb_ge _ _) Hl), formHelp_again by done. cbn [mbind result_bind].
  rewrite stepCheckMessages_again by done. cbn [mbind result_bind]. rewrite Ht.
  replace (negb (String.eqb _ "") && _) with false.
  - by destruct check.
  - destruct Hc as [->|Hc]; [done|]. apply contains_in in Hc. by rewrite Hc, andb_false_r.
Qed.

Lemma check_from_turn shape to at_ s x s' : check_from shape to at_ s x = Ok s' ->
  s' = s \/ exists y, (y ∈ Columns shape /\ y <> to) /\ s' = add_new s y.
Proof.
  unfold check_from. destruct (Status shape x) eqn:Es; [|done]. intros [= <-].
  destruct (String.eqb_spec x to) as [->|Hne]; cbn; [by left|]. right. exists x.
  split; [|unfold add_new; by destruct (contains s x)]. split; [|done]. apply Status_known. by rewrite Es.
Qed.

Lemma check_from_again shape to at_ s x :
  x ∈ Columns shape /\ x <> to -> check_from shape to at_ s x = Ok (add_new s x).
Proof.
  intros [Hin Hne]. apply Status_known in Hin. unfold check_from. destruct (Status shape x); [|done].
  apply String.eqb_neq in Hne. rewrite Hne. unfold add_new. by destruct (contains s x).
Qed.

(** *** Steps *)

Lemma check_checks_sound `{!NormalForm form} at_ checks r : fold_result (check_check form at_) ([], 0) checks = Ok r ->
  List.length r.1 = List.length checks /\ NoDup (sk_key <$> r.1) /\ Forall check_ok r.1.
Proof.
  intros Hr.
  apply (fold_grow_inv (fun acc : list StepCheck => acc) _ (fun acc y => check_ok y /\ sk_key y ∉ sk_key <$> acc))
    with (acc0 := []) in Hr as [ys [-> [Hlen Hys]]].
  - cbn in *. split; [done|]. split; [apply split_nodup|apply split_forall]; intros acc y rest E; by apply (Hys acc y rest).
  - intros acc i x r' _ Hx. by apply check_check_sound in Hx.
Qed.

Lemma check_checks_again at_ checks : NoDup (sk_key <$> checks) -> Forall check_ok checks ->
  exists n, fold_result (check_check form at_) ([], 0) checks = Ok (checks, n).
Proof.
  intros Hn Hall. apply (fold_grow_id (fun acc : list StepCheck => acc)). intros acc y rest j ->.
  apply check_check_again; [by apply forall_split in Hall|by apply nodup_split in Hn].
Qed.

Lemma newWorkflowStep_sound `{!NormalForm form} step shape at_ out : newWorkflowStep step shape form at_ = Ok out ->
  step_ok shape out /\ st_key out ∉ st_key <$> sh_steps shape.
Proof.
  unfold newWorkflowStep. destruct (workflowKeyPattern _) eqn:Ek; [|done]. cbn [negb].
  destruct (is_some (Step shape _)) eqn:Et; [done|]. apply (known_false _ _ (Step_known _ _)) in Et.
  intros H. apply bind_ok in H as [name [Hname H]]. apply at_path_ok, workflowName_sound in Hname.
  destruct (is_some (Status shape (st_to step))) eqn:Eto; [|done]. apply Status_known in Eto. cbn [negb] in H.
  apply bind_ok in H as [from [Hfrom H]]. apply (fold_add_new_keeps _ _ _ (check_from_turn shape (st_to step) at_)) in Hfrom.
  destruct (Nat.ltb 0 _ && _); [done|].
  apply bind_ok in H as [requires [Hreq H]]. apply (fold_turns_sound _ _ _ _ (check_field_turn at_)) in Hreq.
  apply bind_ok in H as [asks [Hasks H]]. apply (fold_turns_sound _ _ _ _ (check_field_turn at_)) in Hasks.
  apply bind_ok in H as [who [Hwho H]]. apply newStepWho_sound in Hwho.
  destruct (Nat.ltb_spec MaxStepChecks (List.length (st_checks step))) as [|Hl]; [done|].
  apply bind_ok in H as [checks [Hc H]]. apply check_checks_sound in Hc as (Hlen & Hnc & Hc).
  apply bind_ok in H as [approval [Ha H]]. injection H as <-. split; [|done].
  refine (conj Ek (conj Hname (conj Eto (conj Hfrom (conj Hreq (conj Hasks (conj Hwho (conj _ (conj Hnc (conj Hc _)))))))))).
  - cbn. lia.
  - cbn. destruct (st_approval step) as [a|]; [|by injection Ha as <-].
    destruct (newStepApproval a shape _) eqn:Ea; try discriminate. injection Ha as <-. by eapply newStepApproval_sound.
Qed.

Lemma newWorkflowStep_again step shape at_ : step_ok shape step -> st_key step ∉ st_key <$> sh_steps shape ->
  newWorkflowStep step shape form at_ = Ok step.
Proof.
  unfold newWorkflowStep. intros (Hk & Hname & Hto & Hfrom & Hreq & Hasks & Hwho & Hl & Hnc & Hc & Ha) Hn.
  rewrite (trim_key _ _ Hk), Hk. cbn [negb]. apply (known_false _ _ (Step_known _ _)) in Hn. rewrite Hn.
  rewrite (proj2 (at_path_ok _ _ _) (workflowName_again _ _ Hname)). cbn [mbind result_bind].
  apply Status_known in Hto. rewrite Hto. cbn [negb].
  rewrite (fold_add_new_id _ _ _ (check_from_again shape (st_to step) at_)) by apply Hfrom. cbn [mbind result_bind].
  replace (Nat.ltb 0 _ && _) with false by (by destruct (st_from step)).
  rewrite !(fold_turns_again _ _ _ (check_field_turn at_)) by done. cbn [mbind result_bind].
  rewrite newStepWho_again by done. cbn [mbind result_bind]. rewrite (proj2 (Nat.ltb_ge _ _) Hl).
  destruct (check_checks_again at_ _ Hnc Hc) as [n ->]. cbn [mbind result_bind].
  destruct step as [? ? ? ? ? ? ? ? [a|]]; [|done]. cbn in *. by rewrite newStepApproval_again.
Qed.

Lemma step_ok_columns a b step : Columns a = Columns b -> step_ok a step -> step_ok b step.
Proof. unfold step_ok, approval_ok. by intros ->. Qed.

(** *** Shapes *)

Lemma check_status_sound `{!NormalForm form} system acc i status r :
  check_status system form (mkShape acc "" [], i) status = Ok r ->
  exists y, r = (mkShape (acc ++ [y]) "" [], i + 1) /\ status_ok system y /\ ws_key y ∉ ws_key <$> acc.
Proof.
  unfold check_status. destruct (workflowKeyPattern _) eqn:Ek; [|done]. cbn [negb].
  destruct (is_some (Status _ _)) eqn:Et; [done|]. apply (known_false _ _ (Status_known _ _)) in Et.
  destruct (CategoryValid _) eqn:Ec; [|done]. cbn [negb]. apply contains_in in Ec.
  destruct (IsLabelToken _) eqn:El; [|done]. cbn [negb]. intros H. apply bind_ok in H as [name [Hn H]].
  apply at_path_ok, workflowName_sound in Hn. injection H as <-. eexists. split; [done|]. split; [|done].
  refine (conj Ek (conj Ec (conj _ Hn))). cbn. unfold IsLabelToken in El. apply existsb_exists in El as [t [Hin Ht]].
  bools. subst. by apply list_elem_of_In.
Qed.

Lemma check_status_again system acc i status : status_ok system status -> ws_key status ∉ ws_key <$> acc ->
  check_status system form (mkShape acc "" [], i) status = Ok (mkShape (acc ++ [status]) "" [], i + 1).
Proof.
  unfold check_status. intros (Hk & Hc & Hl & Hname) Hn. rewrite (trim_key _ _ Hk), Hk. cbn [negb].
  rewrite (proj2 (known_false _ _ (Status_known (mkShape acc "" []) _)) Hn).
  apply contains_in in Hc. unfold CategoryValid. rewrite Hc. cbn [negb].
  assert (Ht : IsLabelToken (ws_color_token status) = true).
  { unfold IsLabelToken. apply existsb_exists. exists (ws_color_token status). rewrite String.eqb_refl.
    split; [|done]. by apply list_elem_of_In. }
  replace (String.eqb (ws_color_token status) "") with false by (by destruct (ws_color_token status)).
  rewrite Ht. cbn [negb].
  rewrite (proj2 (at_path_ok _ _ _) (workflowName_again _ _ Hname)). by destruct status.
Qed.

Lemma Status_of shape status : NoDup (Columns shape) -> status ∈ sh_statuses shape ->
  Status shape (ws_key status) = Some status.
Proof.
  unfold Columns, Status. intros Hn Hin. apply list_elem_of_split in Hin as [acc [rest E]]. rewrite E in Hn |- *. clear E.
  apply nodup_split in Hn. induction acc as [|s acc IH]; cbn; [by rewrite String.eqb_refl|].
  destruct (String.eqb_spec (ws_key s) (ws_key status)) as [Heq|].
  - destruct Hn. cbn. rewrite Heq. left.
  - apply IH. intros Hin. apply Hn. by right.
Qed.

Lemma Columns_key system shape key : Forall (status_ok system) (sh_statuses shape) -> key ∈ Columns shape ->
  workflowKeyPattern key = true.
Proof. intros Hall [s [-> Hin]]%list_elem_of_fmap. rewrite Forall_forall in Hall. by apply (Hall s Hin). Qed.

Lemma FirstDone_completes shape : NoDup (Columns shape) -> FirstDone shape <> "" ->
  ShapeCompletes shape (FirstDone shape) = true.
Proof.
  unfold FirstDone, ShapeCompletes. destruct (List.find _ _) as [s|] eqn:E; [|done]. intros Hn _.
  apply find_some in E as [Hin Hc]. apply list_elem_of_In in Hin. by rewrite Status_of.
Qed.

Lemma completes_known shape key : ShapeCompletes shape key = true -> key ∈ Columns shape.
Proof. unfold ShapeCompletes. intros H. apply Status_known. by destruct (Status shape key). Qed.

Lemma NewWorkflowShape_sound `{!NormalForm form} given system shape :
  NewWorkflowShape given system form = Ok shape -> shape_ok system shape.
Proof.
  unfold NewWorkflowShape. destruct (Nat.eqb_spec (List.length (sh_statuses given)) 0) as [|Hs0]; [done|].
  destruct (Nat.ltb_spec MaxWorkflowStatuses (List.length (sh_statuses given))) as [|Hs1]; [done|].
  destruct (Nat.ltb_spec MaxWorkflowSteps (List.length (sh_steps given))) as [|Hs2]; [done|].
  intros H. apply bind_ok in H as [r [Hr H]].
  apply (fold_grow_inv (fun acc => mkShape acc "" []) (check_status system form)
           (fun acc y => status_ok system y /\ ws_key y ∉ ws_key <$> acc)) with (acc0 := []) in Hr
    as [statuses [Er [Hlen Hys]]]; [|intros ? ? ? ? _ Hx; by apply check_status_sound in Hx].
  rewrite Er in H. cbn [app] in *.
  assert (Hn : NoDup (ws_key <$> statuses)) by (apply split_nodup; intros acc y rest E; by apply (Hys acc y rest)).
  assert (Hok : Forall (status_ok system) statuses) by (apply split_forall; intros acc y rest E; by apply (Hys acc y rest)).
  destruct (String.eqb_spec (FirstDone (mkShape statuses "" [])) "") as [|Hd]; [done|].
  apply FirstDone_completes in Hd; [|done]. cbn [sh_statuses] in H. set (initial := initial_of _ _) in *.
  destruct (Status (mkShape statuses "" []) initial) as [start|] eqn:Ei; [|done].
  destruct (CategoryCompletes (ws_category start)) eqn:Ec; [done|]. cbn [mbind result_bind] in H.
  apply bind_ok in H as [out [Ho H]]. injection H as <-.
  apply (fold_grow_inv (fun acc => mkShape statuses initial acc) (check_step form)
           (fun acc y => step_ok (mkShape statuses initial []) y /\ st_key y ∉ st_key <$> acc)) with (acc0 := []) in Ho
    as [steps [-> [Hlen' Hst]]].
  - cbn [app] in *. refine (conj _ (conj _ (conj Hn (conj Hok (conj Hd (conj _ (conj _ (conj _ _)))))))); cbn; try lia.
    + apply (proj1 (Status_known (mkShape statuses "" []) initial)). by rewrite Ei.
    + unfold ShapeCompletes. change (Status (mkShape statuses initial steps)) with (Status (mkShape statuses "" [])).
      by rewrite Ei.
    + apply split_nodup. intros acc y rest E. by apply (Hst acc y rest).
    + apply split_forall. intros acc y rest E. eapply step_ok_columns; [|by apply (Hst acc y rest)]. done.
  - intros acc i x r' _ Hx. unfold check_step in Hx. apply bind_ok in Hx as [y [Hy Hx]]. injection Hx as <-.
    apply newWorkflowStep_sound in Hy as [Hy1 Hy2]. exists y. split; [done|]. split; [|done].
    by eapply step_ok_columns, Hy1.
Qed.

Lemma NewWorkflowShape_again system shape : shape_ok system shape -> NewWorkflowShape shape system form = Ok shape.
Proof.
  intros ([Hs0 Hs1] & Hs2 & Hn & Hok & Hd & Hi & Hic & Hns & Hst). unfold NewWorkflowShape.
  rewrite (proj2 (Nat.eqb_neq _ _)), !(proj2 (Nat.ltb_ge _ _)) by lia.
  destruct (fold_grow_id (fun acc => mkShape acc "" []) (check_status system form) (sh_statuses shape) [] 0) as [n ->].
  { intros acc y rest j E. rewrite E in *. unfold Columns in Hn. rewrite E in Hn.
    apply check_status_again; [by apply forall_split in Hok|by apply nodup_split in Hn]. }
  cbn [mbind result_bind fst app].
  assert (Hd' : FirstDone (mkShape (sh_statuses shape) "" []) = FirstDone shape) by done. rewrite Hd'.
  destruct (String.eqb_spec (FirstDone shape) "") as [E|_].
  { apply completes_known, (Columns_key _ _ _ Hok) in Hd. by rewrite E in Hd. }
  cbn [sh_statuses]. pose proof (Columns_key _ _ _ Hok Hi) as Hk.
  replace (initial_of _ _) with (sh_initial shape).
  2:{ unfold initial_of. rewrite (trim_key _ _ Hk). by destruct (sh_initial shape). }
  apply Status_known in Hi. unfold ShapeCompletes in Hic.
  change (Status (mkShape (sh_statuses shape) "" [])) with (Status shape).
  destruct (Status shape (sh_initial shape)); [|done]. rewrite Hic. cbn [mbind result_bind].
  destruct (fold_grow_id (fun acc => mkShape (sh_statuses shape) (sh_initial shape) acc) (check_step form)
              (sh_steps shape) [] 0) as [m ->].
  - intros acc y rest j E. unfold check_step. rewrite newWorkflowStep_again; [done| |].
    + rewrite E in Hst. apply forall_split in Hst. by eapply step_ok_columns, Hst.
    + rewrite E in Hns. by apply nodup_split in Hns.
  - by destruct shape.
Qed.
End Form.

(** ** A workflow's life *)

Section Life.
Context (form : Normalizer).

(** What a person may do to a workflow. *)
Inductive workflow_step : Workflow -> Workflow -> Prop :=
  | step_renamed w w' raw now : RenamedWorkflow w raw now form = Ok w' -> workflow_step w w'
  | step_drafted w w' shape now : WithDraft w shape now form = Ok w' -> workflow_step w w'
  | step_discarded w now : workflow_step w (Discarded w now)
  | step_published w w' by_ now : Publish w by_ now = Ok w' -> workflow_step w w'.

(** Every workflow there is was shipped, drawn or copied, and changed by steps. *)
Inductive workflow_reachable : Workflow -> Prop :=
  | reachable_system : workflow_reachable SystemWorkflow
  | reachable_new in_ w : nw_text in_ = form -> NewWorkflow in_ = Ok w -> workflow_reachable w
  | reachable_copy w in_ w' : workflow_reachable w -> wc_text in_ = form -> CopyAt w in_ = Ok w' -> workflow_reachable w'
  | reachable_step w w' : workflow_reachable w -> workflow_step w w' -> workflow_reachable w'.

Definition workflow_ok (w : Workflow) : Prop :=
  workflowKeyPattern (wf_key w) = true /\ (wf_system w = true <-> wf_key w = SystemWorkflowKey) /\
  (wf_system w = false -> name_ok form false (wf_name w)) /\ shape_ok form (wf_system w) (wf_published w) /\
  match wf_draft w with Some draft => shape_ok form (wf_system w) draft | None => True end.

(** What a step leaves as it is, and the only way to another shape in force. *)
Definition step_effect (w w' : Workflow) : Prop :=
  (wf_id w', wf_tenant_id w', wf_key w', wf_system w', wf_hub_id w', wf_copied_from w') =
  (wf_id w, wf_tenant_id w, wf_key w, wf_system w, wf_hub_id w, wf_copied_from w) /\
  (wf_published w' = wf_published w \/ wf_draft w = Some (wf_published w') /\ wf_draft w' = None).

Lemma NewWorkflow_inv in_ w : NewWorkflow in_ = Ok w ->
  let key := TrimSpace (nw_key in_) in
  (id_is_zero (nw_id in_) || id_is_zero (nw_tenant_id in_) = false) /\
  workflowKeyPattern key = true /\ key <> SystemWorkflowKey /\
  workflowName (nw_name in_) false (nw_text in_) = Ok (wf_name w) /\
  NewWorkflowShape (nw_shape in_) false (nw_text in_) = Ok (wf_published w) /\
  w = mkWorkflow (nw_id in_) (nw_tenant_id in_) key false (wf_name w) (wf_published w) None (Some (nw_now in_))
        (nw_by in_) (nw_now in_) (nw_now in_) 1 (nw_hub_id in_) "".
Proof.
  unfold NewWorkflow. destruct (id_is_zero _ || _) eqn:Ez; [done|]. cbn zeta.
  destruct (workflowKeyPattern _) eqn:Ek; [|done]. cbn [negb].
  destruct (String.eqb_spec (TrimSpace (nw_key in_)) SystemWorkflowKey) as [|Hne]; [done|].
  intros H. apply bind_ok in H as [name [Hn H]]. apply bind_ok in H as [shape [Hs H]]. injection H as <-. cbn. tauto.
Qed.

Lemma new_workflow_ok `{!NormalForm form} in_ w : nw_text in_ = form -> NewWorkflow in_ = Ok w -> workflow_ok w.
Proof.
  intros Hf H. apply NewWorkflow_inv in H as (_ & Hk & Hne & Hn & Hs & ->). rewrite Hf in *.
  apply workflowName_sound in Hn; [|done]. apply NewWorkflowShape_sound in Hs; [|done].
  refine (conj Hk (conj _ (conj (fun _ => Hn) (conj Hs I)))). cbn. done.
Qed.

(** A copy is the new workflow of the source's shape, with the key it came from. *)
Lemma CopyAt_inv w in_ w' : CopyAt w in_ = Ok w' ->
  exists copied,
  NewWorkflow (mkNewWorkflow (wc_id in_) (if id_is_zero (wc_tenant_id in_) then wf_tenant_id w else wc_tenant_id in_)
    (wc_key in_) (match wc_name in_ with Some given => given | None => wf_name w end) (wf_published w) (wc_by in_)
    (wc_now in_) (wc_text in_) (wc_hub_id in_)) = Ok copied /\
  wf_key w' = wf_key copied /\ wf_system w' = wf_system copied /\ wf_name w' = wf_name copied /\
  wf_published w' = wf_published copied /\ wf_draft w' = wf_draft copied /\ wf_hub_id w' = wf_hub_id copied /\
  wf_copied_from w' = wf_key w.
Proof.
  unfold CopyAt. destruct (id_is_zero (wc_hub_id in_)); [done|]. intros H. apply bind_ok in H as [copied [Hc H]].
  injection H as <-. by exists copied.
Qed.

Lemma empty_name_ok `{!NormalForm form} : name_ok form true "".
Proof.
  refine (conj _ (conj (or_intror eq_refl) (conj _ eq_refl))); [|done].
  unfold NFC. destruct form as [nfc|] eqn:E; [|done]. f_equal. by apply (normal_empty (form := Some nfc)).
Qed.

Lemma each_nil {A} (P : A -> Prop) : each P [].
Proof. split; constructor. Qed.

Lemma plain_step_ok `{!NormalForm form} shape key to :
  workflowKeyPattern key = true -> to ∈ Columns shape -> step_ok form shape (plain_step key to).
Proof.
  intros Hk Hto. refine (conj Hk (conj empty_name_ok (conj Hto _))). cbn.
  do 3 (split; [apply each_nil|]). split; [|split; [apply Nat.le_0_l|by repeat constructor]].
  do 3 (split; [apply each_nil|]). split; [done|apply Nat.le_0_l].
Qed.

Lemma shipped_ok `{!NormalForm form} : shape_ok form true shipped_shape.
Proof.
  refine (conj _ (conj _ (conj _ (conj _ (conj _ (conj _ (conj _ (conj _ _)))))))); [by vm_compute; lia|by vm_compute; lia| | | | | | |].
  - by apply (bool_decide_unpack (NoDup (Columns shipped_shape))).
  - do 3 (apply List.Forall_cons; [refine (conj eq_refl (conj _ (conj _ empty_name_ok))); by apply contains_in|]).
    apply List.Forall_nil.
  - done.
  - by apply contains_in.
  - done.
  - by apply (bool_decide_unpack (NoDup (st_key <$> sh_steps shipped_shape))).
  - do 3 (apply List.Forall_cons; [apply plain_step_ok; [done|by apply contains_in]|]). apply List.Forall_nil.
Qed.

Lemma step_keeps_ok `{!NormalForm form} w w' : workflow_ok w -> workflow_step w w' ->
  workflow_ok w' /\ step_effect w w'.
Proof.
  intros (Hk & Hs & Hn & Hp & Hd) Hstep. destruct Hstep as [w w' raw now H|w w' shape now H|w now|w w' by_ now H].
  - apply bind_ok in H as [name [Hname H]]. injection H as <-. apply workflowName_sound in Hname; [|done].
    split; [|split; [done|by left]]. refine (conj Hk (conj Hs (conj _ (conj Hp Hd)))).
    cbn. intros E. by rewrite E in Hname.
  - apply bind_ok in H as [checked [Hc H]]. injection H as <-. apply NewWorkflowShape_sound in Hc; [|done].
    split; [|split; [done|by left]]. exact (conj Hk (conj Hs (conj Hn (conj Hp Hc)))).
  - split; [|split; [done|by left]]. exact (conj Hk (conj Hs (conj Hn (conj Hp I)))).
  - unfold Publish in H. destruct (wf_draft w) as [draft|] eqn:E; [|done]. injection H as <-.
    split; [exact (conj Hk (conj Hs (conj Hn (conj Hd I))))|]. split; [done|]. right. by rewrite E.
Qed.

Lemma reachable_ok `{!NormalForm form} w : workflow_reachable w -> workflow_ok w.
Proof.
  induction 1 as [|in_ w Hf H|w in_ w' _ IH Hf H|w w' _ IH H].
  - refine (conj eq_refl (conj _ (conj _ (conj shipped_ok I)))); done.
  - by eapply new_workflow_ok.
  - apply CopyAt_inv in H as (copied & Hc & Ek & Es & En & Ep & Ed & _).
    apply new_workflow_ok in Hc; [|done..]. unfold workflow_ok in *. by rewrite Ek, Es, En, Ep, Ed.
  - by eapply step_keeps_ok.
Qed.

(** A status with the shipped key and no name of its own does not pass where
    names are required. *)
Lemma shipped_refused `{!NormalForm form} : NewWorkflowShape shipped_shape false form =
  Err (workflowInvalid "/statuses/0/name" "workflows.name_empty" []).
Proof.
  assert (E : workflowName "" false form = Err (workflowInvalid "/name" "workflows.name_empty" [])).
  { destruct empty_name_ok as [E _]. unfold workflowName. by rewrite E. }
  unfold NewWorkflowShape. cbn [Nat.eqb Nat.ltb sh_statuses sh_steps shipped_shape List.length].
  cbn [fold_result shipped_shape sh_statuses]. unfold check_status at 1. cbn -[workflowName]. by rewrite E.
Qed.
End Life.

(** ** Moves *)

Lemma Entering_sound form system shape status completed : shape_ok form system shape ->
  ShapeCompletes shape (Entering shape status completed) = completed /\ Entering shape status completed ∈ Columns shape.
Proof.
  intros (_ & _ & Hn & Hok & Hd & Hi & Hic & _). unfold Entering.
  assert (Helse : ShapeCompletes shape (if completed then FirstDone shape else sh_initial shape) = completed /\
                  (if completed then FirstDone shape else sh_initial shape) ∈ Columns shape).
  { destruct completed; split; try done. by apply completes_known. }
  destruct (Status shape status) as [known|] eqn:E; [|done].
  destruct (Bool.eqb _ completed) eqn:Eb; [|done]. apply eqb_prop in Eb.
  split; [unfold ShapeCompletes; by rewrite E|apply Status_known; by rewrite E].
Qed.

Definition settled (g : StatusGroup) (to : string) : StatusGroup :=
  mkGroup (sg_collection_id g) (sg_entry_type g) to (sg_completed g) (sg_count g).

(** Where a group's entries are told to go: where they are when the next shape
    has their status on their side, where the mapping says when it has not got
    it, and else where an entry enters. *)
Definition well_placed (after : WorkflowShape) (mapping : gmap string string) (g : StatusGroup) (to : string) : Prop :=
  to ∈ Columns after /\ ShapeCompletes after to = sg_completed g /\
  (sg_status g ∈ Columns after -> to = Entering after (sg_status g) (sg_completed g)) /\
  (forall target, sg_status g ∉ Columns after -> mapping !! sg_status g = Some target -> target <> "" -> to = target).

Lemma move_target_placed form system after g mapping to : shape_ok form system after ->
  move_target g (Some after) mapping = Ok to -> well_placed after mapping g to.
Proof.
  intros Hok. pose proof (Entering_sound _ _ _ (sg_status g) (sg_completed g) Hok) as [He1 He2].
  unfold move_target, well_placed. cbn zeta. destruct (is_some (Status after (sg_status g))) eqn:E.
  - apply Status_known in E. intros [= <-]. done.
  - apply (known_false _ _ (Status_known _ _)) in E. destruct (mapping !! sg_status g) as [target|] eqn:Em.
    + destruct (String.eqb_spec target "") as [->|Ht].
      * intros [= <-]. repeat split; try done. intros target _ [= <-] ?. done.
      * destruct (Status after target) as [status|] eqn:Es; [|done].
        destruct (Bool.eqb _ _) eqn:Eb; [|done]. apply eqb_prop in Eb. intros [= <-].
        split; [apply Status_known; by rewrite Es|]. split; [unfold ShapeCompletes; by rewrite Es|].
        split; [done|]. congruence.
    + intros [= <-]. repeat split; done.
Qed.

Definition dest_of (after : option WorkflowShape) (mapping : gmap string string) (g : StatusGroup) : string :=
  match move_target g after mapping with Ok to => to | _ => "" end.

Lemma plan_moves after mapping groups : forall moves0 moves,
  fold_result (plan_group after mapping) moves0 groups = Ok moves ->
  Forall (fun g => move_target g after mapping = Ok (dest_of after mapping g)) groups /\
  moves = moves0 ++ ((fun g => move_of g (dest_of after mapping g)) <$>
                       List.filter (fun g => negb (String.eqb (dest_of after mapping g) (sg_status g))) groups).
Proof.
  induction groups as [|g groups IH]; intros moves0 moves H; cbn in H.
  - injection H as <-. by rewrite app_nil_r.
  - apply bind_ok in H as [moves1 [H1 H2]]. apply bind_ok in H1 as [to [Hto H1]]. injection H1 as <-.
    destruct (IH _ _ H2) as [Hall ->]. assert (Hd : dest_of after mapping g = to) by (unfold dest_of; by rewrite Hto).
    split; [constructor; [by rewrite Hd|done]|]. cbn [List.filter]. rewrite Hd.
    destruct (String.eqb to (sg_status g)); cbn [negb]; [done|]. rewrite fmap_cons, Hd, <- app_assoc. done.
Qed.

(** A group that stands well stays, whatever the mapping. *)
Lemma settled_stays form system after g to mapping : shape_ok form system after -> to ∈ Columns after ->
  ShapeCompletes after to = sg_completed g -> move_target (settled g to) (Some after) mapping = Ok to.
Proof.
  intros Hok Hin Hc. unfold move_target. cbn. pose proof (proj2 (Status_known after to) Hin) as E. rewrite E. f_equal.
  unfold Entering. unfold ShapeCompletes in Hc. destruct (Status after to); [|done]. by rewrite Hc, eqb_reflx.
Qed.

Lemma settled_plan form system after mapping (dest : StatusGroup -> string) groups : shape_ok form system after ->
  Forall (fun g => dest g ∈ Columns after /\ ShapeCompletes after (dest g) = sg_completed g) groups ->
  forall moves0, fold_result (plan_group (Some after) mapping) moves0 ((fun g => settled g (dest g)) <$> groups) = Ok moves0.
Proof.
  intros Hok. induction 1 as [|g groups [Hin Hc] _ IH]; intros moves0; [done|]. rewrite fmap_cons. cbn [fold_result].
  assert (plan_group (Some after) mapping moves0 (settled g (dest g)) = Ok moves0) as ->; [|apply IH].
  unfold plan_group. rewrite (settled_stays form system) by done. cbn. by rewrite String.eqb_refl.
Qed.

(** ** Properties *)

(** C30.  What passes the checks of a shape is a sound shape: keys are distinct
    and well formed, categories and colours known, at least one status is done
    and the one entries start in is not, every step leads from known statuses
    to a known one that is not among them, its fields, roles, people and groups
    are each named once, its checks are complete, and whoever approves it can be
    counted by its rule.  And a shape is sound exactly when the checks let it
    through unchanged: checking a stored shape again never alters or refuses
    it. *)
Theorem workflow_shape_checked (form : Normalizer) (system : bool) (shape : WorkflowShape) (Hform : NormalForm form) :
  (forall given, NewWorkflowShape given system form = Ok shape -> shape_ok form system shape) /\
  (shape_ok form system shape <-> NewWorkflowShape shape system form = Ok shape).
Proof.
  split; [intros given; by apply NewWorkflowShape_sound|]. split; [apply NewWorkflowShape_again|by apply NewWorkflowShape_sound].
Qed.

(** Every workflow there is - shipped, drawn by a person or copied to a
    hub, and renamed, drafted, discarded and published in any order - has a
    sound shape in force and a sound draft if it has one, a name unless it is
    the system's, and the reserved key exactly when it is the system's.  No
    step changes its identity, key, hub or origin, and the shape in force only
    ever changes to the draft, which is then used up. *)
Theorem workflow_life (form : Normalizer) (w : Workflow) (Hform : NormalForm form)
    (Hw : workflow_reachable form w) :
  workflow_ok form w /\ forall w', workflow_step form w w' -> step_effect w w'.
Proof.
  pose proof (reachable_ok form w Hw) as Hok. split; [done|]. intros w' Hs. by eapply step_keeps_ok.
Qed.

(** C39.  When another workflow comes into force and the plan is not refused,
    every group of entries ends in a status the next shape has and on its own
    side of completion: in its own status where the next shape has it on that
    side, where the mapping sends it when its status is gone, and else where an
    entry enters.  The moves are exactly those of the groups whose status
    changes, and once they are made, planning again - with any mapping - moves
    nothing. *)
Theorem status_moves_settle (form : Normalizer) (system : bool) (after : WorkflowShape) (before : option WorkflowShape)
    (mapping mapping' : gmap string string) (groups : list StatusGroup) (moves : list StatusMove)
    (Hok : shape_ok form system after)
    (H : PlanStatusMoves groups before (Some after) mapping = Ok moves) :
  exists dest, Forall (fun g => well_placed after mapping g (dest g)) groups /\
    moves = (fun g => move_of g (dest g)) <$> List.filter (fun g => negb (String.eqb (dest g) (sg_status g))) groups /\
    PlanStatusMoves ((fun g => settled g (dest g)) <$> groups) before (Some after) mapping' = Ok [].
Proof.
  apply plan_moves in H as [Hall Hm]. exists (dest_of (Some after) mapping).
  assert (Hp : Forall (fun g => well_placed after mapping g (dest_of (Some after) mapping g)) groups).
  { eapply Forall_impl; [exact Hall|]. intros g Hg. by eapply move_target_placed. }
  split; [done|]. split; [done|]. eapply settled_plan; [done|].
  eapply Forall_impl; [exact Hp|]. intros g (H1 & H2 & _). done.
Qed.

(** A hub can copy any workflow a person drew: given an id, a tenant, a
    well-formed key that is not reserved and no name of its own, the copy is
    made, and its shape in force is the source's, unchanged.  The workflow the
    program ships, which every hub may run, cannot be copied, whatever name is
    given: its statuses have no names, and the copy asks for them. *)
Theorem workflow_copy (form : Normalizer) (w : Workflow) (in_ : WorkflowCopy) (Hform : NormalForm form)
    (Hw : workflow_reachable form w) (Htext : wc_text in_ = form)
    (Hid : wc_id in_ <> "") (Htenant : wc_tenant_id in_ <> "") (Hhub : wc_hub_id in_ <> "")
    (Hkey : workflowKeyPattern (wc_key in_) = true /\ wc_key in_ <> SystemWorkflowKey) (Hname : wc_name in_ = None) :
  (wf_system w = false -> exists copied, CopyAt w in_ = Ok copied /\ wf_published copied = wf_published w /\
     wf_key copied = wc_key in_ /\ wf_hub_id copied = wc_hub_id in_ /\ wf_copied_from copied = wf_key w /\
     wf_system copied = false) /\
  (forall name copied, CopyAt SystemWorkflow (mkCopy (wc_id in_) (wc_tenant_id in_) (wc_hub_id in_) (wc_key in_) name
                                           (wc_by in_) (wc_now in_) (wc_text in_)) <> Ok copied).
Proof.
  split.
  - intros Hs. destruct (reachable_ok form w Hw) as (_ & _ & Hn & Hp & _). rewrite Hs in Hp. specialize (Hn Hs).
    destruct Hkey as [Hk Hne]. unfold CopyAt, NewWorkflow, id_is_zero. cbn [nw_id nw_tenant_id nw_key nw_name nw_shape nw_text].
    apply String.eqb_neq in Hid, Htenant, Hhub, Hne. rewrite Hhub, Htenant, Hid, Htenant, Hname, Htext.
    rewrite (trim_key _ _ Hk), Hk, Hne. cbn [orb negb].
    rewrite (workflowName_again _ _ _ Hn). cbn [mbind result_bind]. rewrite (NewWorkflowShape_again _ _ _ Hp).
    eexists. split; [reflexivity|]. done.
  - intros name copied H. apply CopyAt_inv in H as (new & Hn & _). apply NewWorkflow_inv in Hn as (_ & _ & _ & _ & Hn & _).
    cbn [nw_shape nw_text wc_text wf_published SystemWorkflow] in Hn. by rewrite Htext, shipped_refused in Hn.
Qed.

(** ** Witnesses

    A support desk's flow: two open statuses and a done one, a step from any
    status and one that a single person approves. *)

Definition desk_status (key name category : string) : WorkflowStatus := mkStatus key name category "slate".
Definition desk_approval : StepApproval :=
  mkStepApproval [mkLevel ["0190a000-0000-7000-8000-000000000001"] [] [] [] ApprovalAll 0] "new" 48.
Definition desk_shape : WorkflowShape :=
  mkShape [desk_status "new" "New" CategoryTodo; desk_status "waiting" "Waiting" CategoryInProgress;
           desk_status "solved" "Solved" CategoryDone]
    "new"
    [plain_step "reopen" "new";
     mkStep "solve" "Solve" ["new"; "waiting"] "solved" (mkWho ["MEMBER"] ["assignee"] [] "") ["title"] []
       [mkCheck "noted" "notes != ''" "Say what you did" {[ "de" := "Notiz fehlt" ]} "fill_required"] (Some desk_approval)].

Definition desk_workflow : Workflow :=
  mkWorkflow "wf-1" "t-1" "support" false "Support" desk_shape None (Some 5) "me" 5 5 1 "" "".

Lemma desk_checked : NewWorkflowShape desk_shape false None = Ok desk_shape.
Proof. reflexivity. Qed.

Lemma desk_made : NewWorkflow (mkNewWorkflow "wf-1" "t-1" "support" "Support" desk_shape "me" 5 None "") = Ok desk_workflow.
Proof. reflexivity. Qed.

Lemma workflow_shape_checked_witness : shape_ok None false desk_shape.
Proof. apply (proj2 (workflow_shape_checked None false desk_shape normal_none)). exact desk_checked. Defined.

Lemma workflow_life_witness : workflow_ok None desk_workflow.
Proof. apply (workflow_life None desk_workflow normal_none). eapply reachable_new; [|exact desk_made]. reflexivity. Defined.

(** The entries in "waiting" move to where the mapping says, those in "solved"
    to the next flow's done status. *)
Definition desk_groups : list StatusGroup := [mkGroup "c" "" "waiting" false 2; mkGroup "c" "" "solved" true 1].
Definition desk_mapping : gmap string string := {[ "waiting" := "in_progress" ]}.

Lemma desk_plan : PlanStatusMoves desk_groups (Some desk_shape) (Some shipped_shape) desk_mapping =
  Ok [mkMove "c" "" "waiting" false "in_progress" 2; mkMove "c" "" "solved" true "done" 1].
Proof. reflexivity. Qed.

Lemma status_moves_settle_witness : exists dest,
  Forall (fun g => well_placed shipped_shape desk_mapping g (dest g)) desk_groups /\
  PlanStatusMoves ((fun g => settled g (dest g)) <$> desk_groups) (Some desk_shape) (Some shipped_shape) ∅ = Ok [].
Proof.
  destruct (status_moves_settle None true shipped_shape (Some desk_shape) desk_mapping ∅ desk_groups _
              (shipped_ok None) desk_plan) as (dest & H1 & _ & H2).
  exists dest. exact (conj H1 H2).
Defined.

Lemma workflow_copy_witness : exists copied,
  CopyAt desk_workflow (mkCopy "wf-2" "t-1" "hub" "desk" None "me" 9 None) = Ok copied /\ wf_published copied = desk_shape.
Proof.
  destruct (workflow_copy None desk_workflow (mkCopy "wf-2" "t-1" "hub" "desk" None "me" 9 None) normal_none) as [H _];
    try done; [eapply reachable_new; [|exact desk_made]; reflexivity|].
  destruct (H eq_refl) as (copied & Hc & Hp & _). exists copied. exact (conj Hc Hp).
Defined.
