(* ===== verification/Approval.v ===== *)
(** * Approvals: levels of people who say yes before a step is taken

    Models core/domain/model/servicedesk/Approval.go - an approval, its levels,
    the answers, delegations - and of application/service/servicedesk/Approvals.go
    whom a level counts ([counted], [named]), how a reader stands at the current
    level ([eligibility]) and an answer inside its transaction ([decide_step]).
    The roles an actor holds along the entry's path and the members of a group
    are the authorisation's and the group directory's and so parameters.

    The theorems: at a level every person's voice is heard once, their own or
    their delegate's; a level is left exactly when as many have said yes as its
    rule asks; one no declines; what is decided stays decided; and where the
    people a level counts all say yes, the approval is approved. *)

From Stdlib Require Import ZArith Lia String Ascii List Bool.
From stdpp Require Import base list strings gmap.
From S2P Require Import Prelude Shared Text Workflow.

Open Scope string_scope.
Open Scope list_scope.
Open Scope Z_scope.

(** ** The data *)

Inductive ApprovalState : Type := ApprovalPending | ApprovalApproved | ApprovalDeclined | ApprovalWithdrawn.
#[export] Instance approval_state_eq_dec : EqDecision ApprovalState.
Proof. solve_decision. Defined.

Definition VerdictApprove : string := "APPROVE".
Definition VerdictDecline : string := "DECLINE".
Definition MaxApprovalReason : Z := 2000.

Record OpenLevel := mkOpen { ol_level : ApprovalLevel; ol_counted : list ID }.

Record Approval := mkApproval {
  ap_id : ID; ap_tenant_id : ID; ap_item_id : ID; ap_workflow : string; ap_step : string; ap_item_version : Z;
  ap_levels : list OpenLevel; ap_decline_to : string; ap_due_hours : Z;
  ap_current : Z; ap_state : ApprovalState; ap_requested_by : ID; ap_requested_at : Time;
  ap_level_since : Time; ap_decided_at : option Time; ap_version : Z
}.

Record Decision := mkDecision {
  de_id : ID; de_tenant_id : ID; de_approval_id : ID; de_level : Z; de_approver_id : ID; de_on_behalf_of : ID;
  de_verdict : string; de_reason : string; de_item_version : Z; de_decided_at : Time
}.

(** The same approval at another place. *)
Definition approval_at (a : Approval) (current : Z) (since : Time) (state : ApprovalState) (decided : option Time) : Approval :=
  mkApproval (ap_id a) (ap_tenant_id a) (ap_item_id a) (ap_workflow a) (ap_step a) (ap_item_version a) (ap_levels a)
    (ap_decline_to a) (ap_due_hours a) current state (ap_requested_by a) (ap_requested_at a) since decided (ap_version a + 1).

Definition DueAt (a : Approval) : Time :=
  if (ap_due_hours a =? 0) || negb (bool_decide (ap_state a = ApprovalPending)) then zero_time
  else ap_level_since a + ap_due_hours a * Hour.

(** ** Opening *)

Definition distinctIDs (ids : list ID) : list ID :=
  foldl (fun out id => if id_is_zero id then out else add_new out id) [] ids.

(** One turn of the loop over the levels and the people counted for them. *)
Definition open_level (state : list OpenLevel * Z) (entry : ApprovalLevel * list ID) : res (list OpenLevel * Z) :=
  let '(levels, i) := state in
  let '(level, ids) := entry in
  let people := distinctIDs ids in
  if Counted level && (len people =? 0) ||
     String.eqb (al_rule level) ApprovalNOf && (len (al_roles level) =? 0) && (len people <? al_count level) then
    Err (detailed ErrConflict "approvals.too_few_approvers" [("level", itoa (i + 1))])
  else Ok (levels ++ [mkOpen level people], i + 1).

(** Of the entry only its tenant, id and version are used. *)
Definition NewApproval (id item_tenant item_id : ID) (item_version : Z) (workflow : string) (step : WorkflowStep)
    (counted : list (list ID)) (requestedBy : ID) (now : Time) : res Approval :=
  match st_approval step with
  | None => Err (WithDetail ErrConflict "approvals.step_without_approval")
  | Some approval =>
      if negb (Nat.eqb (List.length counted) (List.length (sa_levels approval))) then
        Err (WithDetail ErrConflict "approvals.step_without_approval")
      else
        r ← fold_result open_level ([], 0) (combine (sa_levels approval) counted);
        Ok (mkApproval id item_tenant item_id workflow (st_key step) item_version r.1 (sa_decline_to approval)
              (sa_due_hours approval) 0 ApprovalPending requestedBy now now None 1)
  end.

(** ** Who may answer *)

Definition current_level (a : Approval) : res OpenLevel := at_index (ap_levels a) (ap_current a).

Definition Counts (a : Approval) (person : ID) : res bool :=
  if bool_decide (ap_state a = ApprovalPending) then
    level ← current_level a; Ok (contains (ol_counted level) person)
  else Ok false.

Record Delegation := mkDelegation { dl_tenant_id : ID; dl_account_id : ID; dl_delegate_id : ID; dl_from : Time; dl_until : Time }.

Definition MaxDelegationDays : Z := 366.

Definition approval_invalid (path code : string) : Error := field_refused ErrValidation path code [].

Definition NewDelegation (tenantID accountID delegateID : ID) (from until : Time) : res Delegation :=
  if id_is_zero delegateID || String.eqb delegateID accountID then Err (approval_invalid "/delegate_id" "approvals.delegate_self")
  else if negb (from <? until) then Err (approval_invalid "/until" "approvals.delegation_empty")
  else if MaxDelegationDays * 24 * Hour <? time_sub until from then Err (approval_invalid "/until" "approvals.delegation_too_long")
  else Ok (mkDelegation tenantID accountID delegateID from until).

Definition Covers (d : Delegation) (at_ : Time) : bool := negb (at_ <? dl_from d) && (at_ <? dl_until d).

Record Eligibility := mkEligibility { el_direct : bool; el_on_behalf_of : ID }.
Definition no_eligibility : Eligibility := mkEligibility false "".
Definition may_decide (who : Eligibility) : bool := el_direct who || negb (id_is_zero (el_on_behalf_of who)).

(** The loop over the delegations to the actor: the first that covers now and is
    of somebody counted. *)
Fixpoint delegated (a : Approval) (at_ : Time) (delegations : list Delegation) : res Eligibility :=
  match delegations with
  | [] => Ok no_eligibility
  | d :: rest =>
      counts ← (if Covers d at_ then Counts a (dl_account_id d) else Ok false);
      if counts : bool then Ok (mkEligibility false (dl_account_id d)) else delegated a at_ rest
  end.

(** [held]: the roles the actor holds along the entry's path; asked for only
    when the level names roles. *)
Definition eligibility (a : Approval) (actor : ID) (held : list string) (delegations : list Delegation) (at_ : Time) :
    res Eligibility :=
  if negb (bool_decide (ap_state a = ApprovalPending)) || id_is_zero actor then Ok no_eligibility
  else
    counts ← Counts a actor;
    if counts : bool then Ok (mkEligibility true "")
    else
      level ← current_level a;
      if existsb (contains held) (al_roles (ol_level level)) then Ok (mkEligibility true "")
      else delegated a at_ delegations.

(** ** Answering *)

(** The same voice: the approver has answered, or was answered for; or the
    person answered for has, or was. *)
Definition same_voice (earlier : Decision) (approver : ID) (who : Eligibility) : bool :=
  String.eqb (de_approver_id earlier) approver || String.eqb (de_on_behalf_of earlier) approver ||
  negb (id_is_zero (el_on_behalf_of who)) &&
  (String.eqb (de_on_behalf_of earlier) (el_on_behalf_of who) || String.eqb (de_approver_id earlier) (el_on_behalf_of who)).

Definition yeses (a : Approval) (decided : list Decision) : Z :=
  len (List.filter (fun earlier => (de_level earlier =? ap_current a) && String.eqb (de_verdict earlier) VerdictApprove) decided).

Definition Decide (a : Approval) (decided : list Decision) (id approver : ID) (who : Eligibility) (verdict reason : string)
    (itemVersion : Z) (now : Time) : res (Approval * Decision) :=
  if negb (bool_decide (ap_state a = ApprovalPending)) then Err (WithDetail ErrConflict "approvals.decided")
  else if negb (el_direct who) && id_is_zero (el_on_behalf_of who) then
    Err (WithDetail ErrForbidden "approvals.not_an_approver")
  else if existsb (fun earlier => (de_level earlier =? ap_current a) && same_voice earlier approver who) decided then
    Err (WithDetail ErrConflict "approvals.already_decided")
  else if negb (String.eqb verdict VerdictApprove) && negb (String.eqb verdict VerdictDecline) then
    Err (approval_invalid "/verdict" "approvals.verdict_unknown")
  else
    let reason := TrimSpace reason in
    if String.eqb verdict VerdictDecline && String.eqb reason "" then
      Err (approval_invalid "/reason" "approvals.reason_required")
    else if MaxApprovalReason <? RuneCountInString reason then Err (approval_invalid "/reason" "approvals.reason_too_long")
    else if str_contains (ascii_of_nat 0) reason then Err (approval_invalid "/reason" "approvals.reason_malformed")
    else
      let decision := mkDecision id (ap_tenant_id a) (ap_id a) (ap_current a) approver (el_on_behalf_of who) verdict reason
                        itemVersion now in
      let next current since state at_ := (approval_at a current since state at_, decision) in
      if String.eqb verdict VerdictDecline then Ok (next (ap_current a) (ap_level_since a) ApprovalDeclined (Some now))
      else
        level ← current_level a;
        if 1 + yeses a decided <? Needed (ol_level level) (len (ol_counted level)) then
          Ok (next (ap_current a) (ap_level_since a) (ap_state a) (ap_decided_at a))
        else if ap_current a + 1 <? len (ap_levels a) then
          Ok (next (ap_current a + 1) now (ap_state a) (ap_decided_at a))
        else Ok (next (ap_current a) (ap_level_since a) ApprovalApproved (Some now)).

Definition Withdrawn (a : Approval) (now : Time) : Approval :=
  approval_at a (ap_current a) (ap_level_since a) ApprovalWithdrawn (Some now).

(** ** Approvals.go: whom a level counts, and an answer in its transaction *)

(** What a custom field of an entry holds, as far as persons are read from it. *)
Inductive FieldValue : Type :=
  | ValueString (s : string)
  | ValueAny (values : list (option string))
  | ValueStrings (values : list string)
  | ValueOther.

Definition person_ids (value : FieldValue) : list ID :=
  match value with
  | ValueString s => [s]
  | ValueAny values => omap (fun each => each) values
  | ValueStrings values => values
  | ValueOther => []
  end.

Record EntryPeople := mkPeople { ep_assignee : ID; ep_created_by : ID; ep_custom_fields : gmap string FieldValue }.

Definition named (item : EntryPeople) (field : string) : list ID :=
  if String.eqb field "assignee" then [ep_assignee item]
  else if String.eqb field "created_by" then [ep_created_by item]
  else
    let key := default field (cut_prefix FormCustomPrefix field) in
    match ep_custom_fields item !! key with Some value => person_ids value | None => [] end.

Section Counting.
Context (members : option (ID -> list ID * option Error)).

(** One turn of the loop over a level's groups; an unknown group is skipped. *)
Definition count_group (people : list ID) (group : ID) : res (list ID) :=
  match members with
  | None => Ok people
  | Some find =>
      match find group with
      | (found, Some e) => if is_not_found e then Ok (people ++ found) else Err e
      | (found, None) => Ok (people ++ found)
      end
  end.

Definition counted (item : EntryPeople) (level : ApprovalLevel) : res (list ID) :=
  people ← fold_result count_group (al_people level) (al_groups level);
  Ok (people ++ List.concat (named item <$> al_person_fields level)).
End Counting.

(** What a decided approval does to its entry. *)
Inductive Outcome : Type := OutcomeStep (step : string) | OutcomeStatus (status : string) | OutcomeNothing.

Definition outcome (a : Approval) : Outcome :=
  match ap_state a with
  | ApprovalApproved => OutcomeStep (ap_step a)
  | ApprovalDeclined => if String.eqb (ap_decline_to a) "" then OutcomeNothing else OutcomeStatus (ap_decline_to a)
  | _ => OutcomeNothing
  end.

Record Answer := mkAnswer {
  an_actor : ID; an_held : list string; an_delegations : list Delegation; an_id : ID; an_verdict : string;
  an_reason : string; an_item_version : Z; an_now : Time
}.

(** DecideApproval.Execute: from the approval found to what is stored. *)
Definition decide_step (a : Approval) (earlier : list Decision) (x : Answer) : res (Approval * list Decision) :=
  who ← eligibility a (an_actor x) (an_held x) (an_delegations x) (an_now x);
  if negb (may_decide who) then Err (WithDetail ErrNotFound "approvals.not_found")
  else
    r ← Decide a earlier (an_id x) (an_actor x) who (an_verdict x) (an_reason x) (an_item_version x) (an_now x);
    Ok (r.1, earlier ++ [r.2]).

(** ** An approval's life *)

Inductive approval_step : Approval * list Decision -> Approval * list Decision -> Prop :=
  | step_answered a ds x a' ds' : decide_step a ds x = Ok (a', ds') -> approval_step (a, ds) (a', ds')
  | step_withdrawn a ds now : ap_state a = ApprovalPending -> approval_step (a, ds) (Withdrawn a now, ds).

Inductive approval_reachable : Approval * list Decision -> Prop :=
  | reachable_opened form shape step id tenant item version workflow counted asker now a :
      step_ok form shape step ->
      NewApproval id tenant item version workflow step counted asker now = Ok a -> approval_reachable (a, [])
  | reachable_more st st' : approval_reachable st -> approval_step st st' -> approval_reachable st'.

(** The yeses a level of an open approval asks for. *)
Definition needed (level : OpenLevel) : Z := Needed (ol_level level) (len (ol_counted level)).

Definition yes_at (l : Z) (ds : list Decision) : Z :=
  len (List.filter (fun d => (de_level d =? l) && String.eqb (de_verdict d) VerdictApprove) ds).

(** The people a decision speaks for. *)
Definition voices (d : Decision) : list ID :=
  de_approver_id d :: (if id_is_zero (de_on_behalf_of d) then [] else [de_on_behalf_of d]).

(** Whoever answered was counted at the level, could hold one of its roles, or
    answered for somebody counted. *)
Definition entitled (levels : list OpenLevel) (d : Decision) : Prop :=
  exists level, levels !! Z.to_nat (de_level d) = Some level /\
    (de_approver_id d ∈ ol_counted level /\ de_on_behalf_of d = "" \/
     al_roles (ol_level level) <> [] /\ de_on_behalf_of d = "" \/
     de_on_behalf_of d ∈ ol_counted level /\ de_on_behalf_of d <> "" /\ de_approver_id d ∉ ol_counted level).

Definition open_ok (o : OpenLevel) : Prop :=
  NoDup (ol_counted o) /\ Forall (fun id => id <> "") (ol_counted o) /\ 1 <= needed o /\
  (al_roles (ol_level o) = [] -> al_rule (ol_level o) <> ApprovalAny -> needed o <= len (ol_counted o)).

(** The invariant. *)
Record approval_inv (a : Approval) (ds : list Decision) : Prop := {
  inv_levels : Forall open_ok (ap_levels a);
  inv_current : 0 <= ap_current a < len (ap_levels a);
  inv_range : Forall (fun d => 0 <= de_level d <= ap_current a) ds;
  inv_entitled : Forall (entitled (ap_levels a)) ds;
  inv_verdict : Forall (fun d => de_verdict d = VerdictApprove \/
                                 de_verdict d = VerdictDecline /\ ap_state a = ApprovalDeclined) ds;
  (** Nobody speaks twice at a level. *)
  inv_voices : forall l, NoDup (List.concat (voices <$> List.filter (fun d => de_level d =? l) ds));
  (** A level that was left was left at the yes that was enough. *)
  inv_passed : forall l level, 0 <= l < ap_current a -> ap_levels a !! Z.to_nat l = Some level ->
                 yes_at l ds = needed level;
  inv_here : forall level, ap_levels a !! Z.to_nat (ap_current a) = Some level ->
               match ap_state a with
               | ApprovalApproved => yes_at (ap_current a) ds = needed level /\ ap_current a + 1 = len (ap_levels a)
               | _ => 0 <= yes_at (ap_current a) ds < needed level
               end;
  (** One no ends it, and it was the last word. *)
  inv_declined : ap_state a = ApprovalDeclined ->
    exists before d, ds = before ++ [d] /\ de_verdict d = VerdictDecline /\
      Forall (fun d => de_verdict d = VerdictApprove) before
}.

(** ** Lemmas *)

(** *** Opening *)

Lemma distinctIDs_ok ids : NoDup (distinctIDs ids) /\ Forall (fun id => id <> "") (distinctIDs ids).
Proof.
  unfold distinctIDs. assert (H : NoDup (@nil ID) /\ Forall (fun id => id <> "") (@nil ID)) by (split; constructor).
  revert H. generalize (@nil ID) as kept. induction ids as [|id ids IH]; intros kept H; [done|]. cbn [foldl].
  apply IH. destruct (id_is_zero id) eqn:E; [done|]. apply add_new_keeps; [done|].
  intros ->. done.
Qed.

Lemma half_bounds x : 0 <= x -> 0 <= Z.quot x 2 /\ (1 <= x -> Z.quot x 2 + 1 <= x).
Proof. intros Hx. rewrite Z.quot_div_nonneg by lia. split; intros; Z.to_euclidean_division_equations; lia. Qed.

Lemma open_level_ok acc i level ids r : level_ok level -> open_level (acc, i) (level, ids) = Ok r ->
  exists o, r = (acc ++ [o], i + 1) /\ open_ok o /\ ol_level o = level.
Proof.
  intros Hl. unfold open_level. cbn zeta. set (people := distinctIDs ids).
  destruct (_ || _) eqn:E; [done|]. intros [= <-]. exists (mkOpen level people). split; [done|]. split; [|done].
  pose proof (distinctIDs_ok ids) as [Hn Hz]. fold people in Hn, Hz. unfold open_ok, needed. cbn.
  destruct Hl as (_ & _ & _ & _ & _ & Hrule & _). apply orb_false_iff in E as [E1 E2]. unfold Needed, Counted in *.
  destruct (half_bounds (len people)) as [Hq0 Hq1]; [unfold len; lia|].
  generalize dependent (Z.quot (len people) 2). intros half Hq0 Hq1. unfold len in *.
  destruct Hrule as [[Hr Hc]|[Hr Hc]].
  - rewrite !elem_of_cons in Hr. destruct Hr as [Hr|[Hr|[Hr|Hr]]]; [..|by apply elem_of_nil in Hr];
      rewrite Hr in *; cbn in *; repeat split; try done; try lia; intros; bools; lia.
  - rewrite Hr in *. cbn in *. repeat split; try done; [lia|]. intros Hroles _. rewrite Hroles in E2. apply andb_false_iff in E2 as [E2|E2]; [done|]. bools. lia.
Qed.

Lemma Counted_in a person : Counts a person = Ok true ->
  ap_state a = ApprovalPending /\ exists level, current_level a = Ok level /\ person ∈ ol_counted level.
Proof.
  unfold Counts. destruct (bool_decide_reflect (ap_state a = ApprovalPending)); [|done].
  intros H. apply bind_ok in H as [level [Hl H]]. injection H as H. apply contains_in in H. eauto.
Qed.

Lemma opened_inv form shape step id tenant item version workflow counted asker now a :
  step_ok form shape step ->
  NewApproval id tenant item version workflow step counted asker now = Ok a -> approval_inv a [].
Proof.
  unfold NewApproval. intros (_ & _ & _ & _ & _ & _ & _ & _ & _ & _ & Hap) H.
  destruct (st_approval step) as [ap|]; [|done]. destruct Hap as ([Hlen _] & Hlevels & _).
  destruct (Nat.eqb_spec (List.length counted) (List.length (sa_levels ap))) as [Hc|]; [|done]. cbn [negb] in H.
  apply bind_ok in H as [r [Hr H]]. injection H as <-.
  apply (fold_grow_inv (fun acc : list OpenLevel => acc) open_level (fun _ => open_ok)) with (acc0 := []) in Hr
    as [levels [-> [Hl Hok]]].
  - cbn [app] in *. apply split_forall in Hok. rewrite length_combine, Hc, Nat.min_id in Hl.
    constructor; cbn; try (by constructor); try done; try lia.
    + unfold len. lia.
    + intros level Hlv. apply list_elem_of_lookup_2 in Hlv. rewrite Forall_forall in Hok.
      destruct (Hok _ Hlv) as (_ & _ & Hn & _). change (yes_at 0 []) with 0. lia.
  - intros acc i [level ids] r' Hin Hx. rewrite Forall_forall in Hlevels.
    apply open_level_ok in Hx as [o [-> [Ho _]]]; [eauto|]. apply Hlevels.
    apply list_elem_of_In in Hin. apply in_combine_l in Hin. by apply list_elem_of_In.
Qed.

(** *** Who may answer *)

Lemma delegated_ok a at_ ds who : delegated a at_ ds = Ok who -> may_decide who = true ->
  el_direct who = false /\ Counts a (el_on_behalf_of who) = Ok true.
Proof.
  induction ds as [|d ds IH]; cbn; [by intros [= <-]|]. intros H Hm. apply bind_ok in H as [counts [Hc H]].
  destruct counts; [|by apply IH]. injection H as <-. cbn. destruct (Covers d at_); [done|discriminate].
Qed.

Lemma eligibility_ok a actor held ds at_ who : eligibility a actor held ds at_ = Ok who -> may_decide who = true ->
  ap_state a = ApprovalPending /\ actor <> "" /\ exists level, current_level a = Ok level /\
  (actor ∈ ol_counted level /\ el_on_behalf_of who = "" \/
   al_roles (ol_level level) <> [] /\ el_on_behalf_of who = "" \/
   el_on_behalf_of who ∈ ol_counted level /\ el_on_behalf_of who <> "" /\ actor ∉ ol_counted level).
Proof.
  unfold eligibility. destruct (bool_decide_reflect (ap_state a = ApprovalPending)) as [Hp|]; cbn [negb orb].
  2: by intros [= <-].
  destruct (id_is_zero actor) eqn:Ez; [by intros [= <-]|]. intros H Hm. split; [done|].
  split; [by intros ->|]. apply bind_ok in H as [counts [Hc H]]. destruct counts.
  - injection H as <-. apply Counted_in in Hc as [_ [level [Hl Hin]]]. exists level. cbn. auto.
  - apply bind_ok in H as [level [Hl H]]. exists level. split; [done|]. destruct (existsb _ _) eqn:Er.
    + injection H as <-. right; left. split; [|done]. intros E. by rewrite E in Er.
    + apply delegated_ok in H as [Hd Hb]; [|done]. right; right. apply Counted_in in Hb as [_ [level' [Hl' Hin]]].
      rewrite Hl in Hl'. injection Hl' as <-. split; [done|]. split.
      * unfold may_decide in Hm. rewrite Hd in Hm. cbn in Hm. intros E. by rewrite E in Hm.
      * unfold Counts in Hc. rewrite bool_decide_true, Hl in Hc by done. injection Hc as Hc.
        intros Hin'. apply contains_in in Hin'. congruence.
Qed.

(** *** Answers *)

Lemma Decide_inv a ds id approver who verdict reason v now a' d :
  Decide a ds id approver who verdict reason v now = Ok (a', d) ->
  ap_state a = ApprovalPending /\
  Forall (fun earlier => de_level earlier = ap_current a -> same_voice earlier approver who = false) ds /\
  de_level d = ap_current a /\ de_approver_id d = approver /\ de_on_behalf_of d = el_on_behalf_of who /\
  de_verdict d = verdict /\
  (verdict = VerdictDecline /\ a' = approval_at a (ap_current a) (ap_level_since a) ApprovalDeclined (Some now) \/
   verdict = VerdictApprove /\ exists level, current_level a = Ok level /\
     let yes := 1 + yes_at (ap_current a) ds in
     (yes < needed level /\ a' = approval_at a (ap_current a) (ap_level_since a) (ap_state a) (ap_decided_at a) \/
      needed level <= yes /\ ap_current a + 1 < len (ap_levels a) /\
        a' = approval_at a (ap_current a + 1) now (ap_state a) (ap_decided_at a) \/
      needed level <= yes /\ len (ap_levels a) <= ap_current a + 1 /\
        a' = approval_at a (ap_current a) (ap_level_since a) ApprovalApproved (Some now))).
Proof.
  unfold Decide. destruct (bool_decide_reflect (ap_state a = ApprovalPending)) as [Hp|]; cbn [negb]; [|done].
  destruct (negb (el_direct who) && _); [done|]. destruct (existsb _ ds) eqn:Ev; [done|].
  destruct (negb (String.eqb verdict VerdictApprove) && _) eqn:Eknown; [done|]. cbn zeta.
  destruct (String.eqb verdict VerdictDecline && _); [done|]. destruct (_ <? _); [done|]. destruct (str_contains _ _); [done|].
  intros H. assert (Hv : Forall (fun earlier => de_level earlier = ap_current a -> same_voice earlier approver who = false) ds).
  { apply Forall_forall. intros e Hin Hl. destruct (same_voice e approver who) eqn:E; [|done].
    rewrite <- Ev. symmetry. apply existsb_exists. exists e. rewrite Hl, Z.eqb_refl, E. split; [|done]. by apply list_elem_of_In. }
  destruct (String.eqb_spec verdict VerdictDecline) as [->|Hd].
  - injection H as <- <-. cbn. repeat split; try done. by left.
  - apply bind_ok in H as [level [Hl H]]. change (yeses a ds) with (yes_at (ap_current a) ds) in H.
    change (Needed (ol_level level) (len (ol_counted level))) with (needed level) in H.
    assert (Ha : verdict = VerdictApprove).
    { apply andb_false_iff in Eknown as [E|E]; bools; [done|congruence]. }
    destruct (Z.ltb_spec (1 + yes_at (ap_current a) ds) (needed level)); [|destruct (Z.ltb_spec (ap_current a + 1) (len (ap_levels a)))];
      injection H as <- <-; cbn; repeat split; try done; right; (split; [done|]); exists level; split; try done; lia || auto.
Qed.

Lemma yes_at_snoc l ds d : yes_at l (ds ++ [d]) =
  yes_at l ds + (if (de_level d =? l) && String.eqb (de_verdict d) VerdictApprove then 1 else 0).
Proof.
  unfold yes_at, len. rewrite List.filter_app, length_app. cbn [List.filter]. destruct (_ && _); cbn; lia.
Qed.

Lemma same_voice_disjoint e d who : el_on_behalf_of who = de_on_behalf_of d -> de_approver_id d <> "" ->
  same_voice e (de_approver_id d) who = false -> forall x, x ∈ voices e -> x ∉ voices d.
Proof.
  unfold same_voice, voices. intros -> Ha H x He Hd. bools.
  assert (Hx : x = de_approver_id d \/ id_is_zero (de_on_behalf_of d) = false /\ x = de_on_behalf_of d).
  { apply elem_of_cons in Hd as [->|Hd]; [by left|]. right. destruct (id_is_zero (de_on_behalf_of d)); [by apply elem_of_nil in Hd|].
    by apply list_elem_of_singleton in Hd. }
  assert (Hx' : x = de_approver_id e \/ x = de_on_behalf_of e).
  { apply elem_of_cons in He as [->|He]; [by left|]. right. destruct (id_is_zero (de_on_behalf_of e)); [by apply elem_of_nil in He|].
    by apply list_elem_of_singleton in He. }
  destruct Hx as [->|[Hz ->]].
  - destruct Hx'; congruence.
  - rewrite Hz in H0. cbn in H0. bools. destruct Hx'; congruence.
Qed.

Lemma voices_snoc ds d l :
  NoDup (List.concat (voices <$> List.filter (fun d => de_level d =? l) ds)) ->
  NoDup (voices d) ->
  (forall e, e ∈ ds -> de_level e = de_level d -> forall x, x ∈ voices e -> x ∉ voices d) ->
  NoDup (List.concat (voices <$> List.filter (fun d => de_level d =? l) (ds ++ [d]))).
Proof.
  intros Hn Hd Hdis. rewrite List.filter_app. cbn [List.filter]. destruct (Z.eqb_spec (de_level d) l) as [Hl|]; [|by rewrite app_nil_r].
  rewrite fmap_app, concat_app. cbn. rewrite app_nil_r. apply NoDup_app. split; [done|]. split; [|done].
  intros x Hx. apply list_elem_of_In, in_concat in Hx as [vs [Hvs Hx]]. apply list_elem_of_In, list_elem_of_fmap in Hvs as [e [-> He]].
  apply list_elem_of_In, filter_In in He as [He Hle]. bools. apply list_elem_of_In in He, Hx. apply (Hdis e); [done|congruence|done].
Qed.

Lemma decide_step_inv a ds x a' ds' : decide_step a ds x = Ok (a', ds') ->
  exists who d, eligibility a (an_actor x) (an_held x) (an_delegations x) (an_now x) = Ok who /\ may_decide who = true /\
    Decide a ds (an_id x) (an_actor x) who (an_verdict x) (an_reason x) (an_item_version x) (an_now x) = Ok (a', d) /\
    ds' = ds ++ [d].
Proof.
  unfold decide_step. intros H. apply bind_ok in H as [who [He H]]. destruct (may_decide who) eqn:Em; [|done]. cbn [negb] in H.
  apply bind_ok in H as [[a1 d] [Hd H]]. injection H as <- <-. by exists who, d.
Qed.

Lemma current_level_ok a level : 0 <= ap_current a ->
  current_level a = Ok level <-> ap_levels a !! Z.to_nat (ap_current a) = Some level.
Proof. unfold current_level. rewrite at_index_ok. intuition. Qed.

(** A decision that may be given is entitled, speaks for somebody, and for
    nobody who was heard at the level. *)
Lemma answer_voices a ds x who d a' : approval_inv a ds ->
  eligibility a (an_actor x) (an_held x) (an_delegations x) (an_now x) = Ok who -> may_decide who = true ->
  Decide a ds (an_id x) (an_actor x) who (an_verdict x) (an_reason x) (an_item_version x) (an_now x) = Ok (a', d) ->
  entitled (ap_levels a) d /\
  forall l, NoDup (List.concat (voices <$> List.filter (fun d => de_level d =? l) (ds ++ [d]))).
Proof.
  intros Hinv He Hm Hd. apply eligibility_ok in He as (_ & Hz & level & Hl & Hwho); [|done].
  apply Decide_inv in Hd as (_ & Hv & Hdl & Hda & Hdb & _). pose proof (inv_current _ _ Hinv) as Hc.
  apply current_level_ok in Hl; [|lia].
  assert (Hent : entitled (ap_levels a) d) by (exists level; rewrite Hdl, Hda, Hdb; done). split; [done|].
  intros l. apply voices_snoc; [apply (inv_voices _ _ Hinv)| |].
  - unfold voices. destruct (id_is_zero (de_on_behalf_of d)) eqn:E; [apply NoDup_singleton|].
    apply NoDup_cons. split; [|apply NoDup_singleton]. intros Heq%list_elem_of_singleton.
    rewrite Hda, Hdb in *. destruct Hwho as [[_ Hb]|[[_ Hb]|(Hin & _ & Hnin)]]; [by rewrite Hb in E..|]. by rewrite Heq in Hnin.
  - intros e Hin Hle. apply same_voice_disjoint with who; [done|by rewrite Hda|].
    rewrite Forall_forall in Hv. rewrite Hda. apply Hv; [done|]. congruence.
Qed.

Lemma yes_at_above l ds : Forall (fun d => de_level d < l) ds -> yes_at l ds = 0.
Proof.
  unfold yes_at. induction 1 as [|d ds Hd _ IH]; [done|]. cbn [List.filter].
  destruct (Z.eqb_spec (de_level d) l); [lia|]. done.
Qed.

Lemma answer_keeps_inv a ds x a' ds' : approval_inv a ds -> decide_step a ds x = Ok (a', ds') -> approval_inv a' ds'.
Proof.
  intros Hinv H. apply decide_step_inv in H as (who & d & He & Hm & Hd & ->).
  destruct (answer_voices _ _ _ _ _ _ Hinv He Hm Hd) as [Hent Hvoices].
  apply Decide_inv in Hd as (Hp & _ & Hl & _ & _ & Hverdict & Hcases).
  pose proof (inv_current _ _ Hinv) as Hc. pose proof (inv_here _ _ Hinv) as Hhere. rewrite Hp in Hhere.
  assert (Happ : Forall (fun d => de_verdict d = VerdictApprove) ds).
  { eapply Forall_impl; [exact (inv_verdict _ _ Hinv)|]. cbn. intros e [?|[_ E]]; [done|congruence]. }
  assert (Hpassed : forall l level, 0 <= l < ap_current a -> ap_levels a !! Z.to_nat l = Some level ->
                      yes_at l (ds ++ [d]) = needed level).
  { intros l level Hlt Hlv. rewrite yes_at_snoc. destruct (Z.eqb_spec (de_level d) l); [lia|]. cbn.
    rewrite (inv_passed _ _ Hinv l level) by done. lia. }
  assert (Hrange : forall c, ap_current a <= c -> Forall (fun d => 0 <= de_level d <= c) (ds ++ [d])).
  { intros c Hle. apply Forall_app. split; [|constructor; [lia|constructor]].
    eapply Forall_impl; [exact (inv_range _ _ Hinv)|]. cbn. lia. }
  assert (Hentall : Forall (entitled (ap_levels a)) (ds ++ [d])).
  { apply Forall_app. split; [apply (inv_entitled _ _ Hinv)|by constructor]. }
  destruct Hcases as [[Hv ->]|[Hv (level & Hlv & Hcases)]].
  - (* declined *)
    constructor; cbn [approval_at ap_levels ap_current ap_state]; try done; try apply Hinv.
    + apply Hrange. lia.
    + apply Forall_app. split; [eapply Forall_impl; [exact Happ|]; auto|]. constructor; [right; by rewrite Hverdict|constructor].
    + intros level Hlv. rewrite yes_at_snoc, Hverdict, Hv, andb_false_r. specialize (Hhere _ Hlv). lia.
    + intros _. exists ds, d. by rewrite Hverdict.
  - apply current_level_ok in Hlv; [|lia]. specialize (Hhere _ Hlv).
    assert (Hyes : yes_at (ap_current a) (ds ++ [d]) = 1 + yes_at (ap_current a) ds).
    { rewrite yes_at_snoc, Hl, Hverdict, Hv, Z.eqb_refl. cbn. lia. }
    assert (Hall : forall st, Forall (fun d => de_verdict d = VerdictApprove \/
                                       de_verdict d = VerdictDecline /\ st = ApprovalDeclined) (ds ++ [d])).
    { intros st. apply Forall_app. split; [eapply Forall_impl; [exact Happ|]; auto|]. constructor; [left; congruence|constructor]. }
    destruct Hcases as [[Hlt ->]|[(Hge & Hnext & ->)|(Hge & Hlast & ->)]];
      constructor; cbn [approval_at ap_levels ap_current ap_state]; try done; try apply Hinv; try (apply Hrange; lia); rewrite ?Hp; try done.
    + intros level' E. rewrite Hlv in E. injection E as <-. lia.
    + lia.
    + intros l level' [H0 Hlt] Hlv'. destruct (Z.eq_dec l (ap_current a)) as [->|].
      * rewrite Hlv in Hlv'. injection Hlv' as <-. lia.
      * apply Hpassed; [lia|done].
    + intros level' Hlv'. rewrite yes_at_above.
      * apply list_elem_of_lookup_2 in Hlv'. pose proof (inv_levels _ _ Hinv) as Hok. rewrite Forall_forall in Hok.
        destruct (Hok _ Hlv') as (_ & _ & Hn & _). lia.
      * eapply Forall_impl; [exact (Hrange (ap_current a) ltac:(lia))|]. cbn. lia.
    + intros level' E. rewrite Hlv in E. injection E as <-. lia.
Qed.

Lemma approval_reachable_inv st : approval_reachable st -> approval_inv st.1 st.2.
Proof.
  induction 1 as [form shape step id tenant item version workflow counted asker now a Hs Ho|st st' _ IH Hstep].
  - by eapply opened_inv.
  - destruct Hstep as [a ds x a' ds' H|a ds now Hp]; [by eapply answer_keeps_inv|].
    destruct IH as [I1 I2 I3 I4 I5 I6 I7 I8 I9]. cbn in *. rewrite Hp in *.
    constructor; cbn; try done. eapply Forall_impl; [exact I5|]. cbn. intros d [?|[_ ?]]; [by left|done].
Qed.

(** *** Enough people say yes *)

(** A level somebody counted can bring to its end: it asks for no more than the
    people it counts. *)
Definition answerable (o : OpenLevel) : Prop :=
  al_roles (ol_level o) = [] /\ (al_rule (ol_level o) = ApprovalAny -> ol_counted o <> []).

Lemma answerable_needed o : open_ok o -> answerable o -> needed o <= len (ol_counted o).
Proof.
  intros (_ & _ & Hn & Hle) [Hr Ha]. destruct (decide (al_rule (ol_level o) = ApprovalAny)) as [E|]; [|by apply Hle].
  specialize (Ha E). unfold needed, Needed. rewrite E. cbn. destruct (ol_counted o); [done|]. unfold len. cbn. lia.
Qed.

(** The counted person a decision at such a level speaks for. *)
Definition seat (d : Decision) : ID := if id_is_zero (de_on_behalf_of d) then de_approver_id d else de_on_behalf_of d.

Lemma unheard (people seats : list ID) : NoDup people -> (List.length seats < List.length people)%nat ->
  exists p, p ∈ people /\ p ∉ seats.
Proof.
  intros Hn Hlt. destruct (decide (Forall (fun p => p ∈ seats) people)) as [Hall|Hnot].
  - exfalso. assert (H : people ⊆+ seats).
    { apply NoDup_submseteq; [done|]. by rewrite Forall_forall in Hall. }
    apply submseteq_length in H. lia.
  - apply not_Forall_Exists in Hnot; [|apply _]. by apply Exists_exists in Hnot.
Qed.

Definition yes_of (p : ID) : Answer := mkAnswer p [] [] "" VerdictApprove "" 0 0.

Lemma Decide_yes a ds id p v now level : ap_state a = ApprovalPending ->
  existsb (fun e => (de_level e =? ap_current a) && same_voice e p (mkEligibility true "")) ds = false ->
  current_level a = Ok level ->
  exists a' d, Decide a ds id p (mkEligibility true "") VerdictApprove "" v now = Ok (a', d).
Proof.
  intros Hp Hv Hl. unfold Decide. rewrite bool_decide_true by done. cbn [negb el_direct andb]. rewrite Hv. cbn zeta.
  change (TrimSpace "") with "". change (RuneCountInString "") with 0. cbn -[yeses Needed current_level len Z.add].
  rewrite Hl. cbn [mbind result_bind]. destruct (_ <? _); [|destruct (_ <? _)]; by do 2 eexists.
Qed.

(** Somebody counted has not been heard, and their yes is taken. *)
Lemma someone_left a ds : approval_inv a ds -> ap_state a = ApprovalPending -> Forall answerable (ap_levels a) ->
  exists p level a' d, current_level a = Ok level /\ decide_step a ds (yes_of p) = Ok (a', ds ++ [d]) /\
    de_level d = ap_current a /\ de_verdict d = VerdictApprove.
Proof.
  intros Hinv Hp Hans. pose proof (inv_current _ _ Hinv) as Hc.
  destruct (lookup_lt_is_Some_2 (ap_levels a) (Z.to_nat (ap_current a))) as [level Hlv]; [unfold len in Hc; lia|].
  pose proof (list_elem_of_lookup_2 _ _ _ Hlv) as Hin.
  pose proof (inv_levels _ _ Hinv) as Hok. rewrite Forall_forall in Hok, Hans. specialize (Hok _ Hin).
  pose proof (answerable_needed _ Hok (Hans _ Hin)) as Hneed. destruct (Hans _ Hin) as [Hroles _].
  pose proof (inv_here _ _ Hinv _ Hlv) as Hhere. rewrite Hp in Hhere.
  set (here := List.filter (fun d => (de_level d =? ap_current a) && String.eqb (de_verdict d) VerdictApprove) ds).
  destruct (unheard (ol_counted level) (seat <$> here)) as [p [Hpin Hpout]]; [apply Hok| |].
  { rewrite length_fmap. unfold here, yes_at, len in *. lia. }
  assert (Hpz : p <> "") by (destruct Hok as (_ & Hz & _); rewrite Forall_forall in Hz; by apply Hz).
  assert (Hl : current_level a = Ok level) by (apply current_level_ok; [lia|done]).
  assert (He : eligibility a p [] [] 0 = Ok (mkEligibility true "")).
  { unfold eligibility. rewrite bool_decide_true by done. unfold id_is_zero. rewrite (proj2 (String.eqb_neq _ _) Hpz). cbn [negb orb].
    unfold Counts. rewrite bool_decide_true by done. rewrite Hl. cbn. apply contains_in in Hpin. by rewrite Hpin. }
  assert (Hv : existsb (fun e => (de_level e =? ap_current a) && same_voice e p (mkEligibility true "")) ds = false).
  { apply not_true_is_false. intros H. apply existsb_exists in H as [e [Hein He']]. bools. apply Hpout.
    pose proof (inv_entitled _ _ Hinv) as Hent. pose proof (inv_verdict _ _ Hinv) as Hver. rewrite Forall_forall in Hent, Hver.
    apply list_elem_of_In in Hein. destruct (Hent _ Hein) as (level' & Hlv' & Hwho). rewrite H, Hlv in Hlv'. injection Hlv' as <-.
    apply list_elem_of_fmap. exists e. split.
    - unfold same_voice in H0. cbn in H0. rewrite orb_false_r in H0. unfold seat.
      destruct Hwho as [[_ Hb]|[[Hr _]|(Hb & Hbz & Hna)]]; [|by rewrite Hroles in Hr|].
      + rewrite Hb in *. cbn. apply orb_true_iff in H0 as [H0|H0]; bools; congruence.
      + unfold id_is_zero. rewrite (proj2 (String.eqb_neq _ _) Hbz). apply orb_true_iff in H0 as [H0|H0]; bools; congruence.
    - apply list_elem_of_In, filter_In. split; [by apply list_elem_of_In|]. rewrite H, Z.eqb_refl.
      destruct (Hver _ Hein) as [->|[_ ?]]; [done|congruence]. }
  destruct (Decide_yes a ds "" p 0 0 level Hp Hv Hl) as (a' & d & Hd). exists p, level, a', d. split; [done|].
  unfold decide_step. cbn [an_actor an_held an_delegations an_now an_id an_verdict an_reason an_item_version yes_of].
  rewrite He. cbn [mbind result_bind may_decide el_direct orb negb]. rewrite Hd. split; [done|].
  by apply Decide_inv in Hd as (_ & _ & Hdl & _ & _ & Hdv & _).
Qed.

(** The yeses still asked for, from the current level on. *)
Definition left_ (a : Approval) (ds : list Decision) : Z :=
  foldr Z.add 0 (needed <$> drop (Z.to_nat (ap_current a)) (ap_levels a)) - yes_at (ap_current a) ds.

Lemma drop_sum (levels : list OpenLevel) n level : levels !! n = Some level ->
  foldr Z.add 0 (needed <$> drop n levels) = needed level + foldr Z.add 0 (needed <$> drop (S n) levels).
Proof. intros H. by rewrite (drop_S _ _ _ H). Qed.

Lemma yes_decreases a ds p a' d : approval_inv a ds -> decide_step a ds (yes_of p) = Ok (a', ds ++ [d]) ->
  ap_levels a' = ap_levels a /\
  (ap_state a' = ApprovalApproved \/ ap_state a' = ApprovalPending /\ left_ a' (ds ++ [d]) = left_ a ds - 1).
Proof.
  intros Hinv H. apply decide_step_inv in H as (who & d' & _ & _ & Hd & E). apply app_inv_head in E. injection E as <-.
  apply Decide_inv in Hd as (Hp & _ & Hl & _ & _ & Hv & [[Hdecl _]|[_ (level & Hlv & Hcases)]]); [discriminate|].
  pose proof (inv_current _ _ Hinv) as Hc. apply current_level_ok in Hlv; [|lia].
  pose proof (inv_here _ _ Hinv _ Hlv) as Hhere. rewrite Hp in Hhere.
  assert (Hyes : yes_at (ap_current a) (ds ++ [d]) = 1 + yes_at (ap_current a) ds).
  { rewrite yes_at_snoc, Hl, Hv, Z.eqb_refl. cbn. lia. }
  destruct Hcases as [[Hlt ->]|[(Hge & Hnext & ->)|(Hge & Hlast & ->)]]; cbn [approval_at ap_levels ap_state ap_current];
    (split; [done|]); rewrite ?Hp; [right..|by left]; (split; [done|]); unfold left_; cbn [approval_at ap_current ap_levels].
  - lia.
  - rewrite (drop_sum _ _ _ Hlv), <- Z2Nat.inj_succ by lia. rewrite yes_at_above; [unfold Z.succ; lia|].
    apply Forall_app. split; [|constructor; [lia|constructor]].
    eapply Forall_impl; [exact (inv_range _ _ Hinv)|]. cbn. lia.
Qed.

Lemma left_positive a ds : approval_inv a ds -> ap_state a = ApprovalPending -> 0 < left_ a ds.
Proof.
  intros Hinv Hp. pose proof (inv_current _ _ Hinv) as Hc.
  destruct (lookup_lt_is_Some_2 (ap_levels a) (Z.to_nat (ap_current a))) as [level Hlv]; [unfold len in Hc; lia|].
  pose proof (inv_here _ _ Hinv _ Hlv) as Hhere. rewrite Hp in Hhere. unfold left_. rewrite (drop_sum _ _ _ Hlv).
  cut (0 <= foldr Z.add 0 (needed <$> drop (S (Z.to_nat (ap_current a))) (ap_levels a))); [lia|].
  pose proof (inv_levels _ _ Hinv) as Hok. eapply (Forall_drop _ (S (Z.to_nat (ap_current a)))) in Hok.
  induction Hok as [|o os (_ & _ & Hn & _) _ IH]; cbn; lia.
Qed.

Lemma approval_finishes n : forall a ds, approval_inv a ds -> ap_state a = ApprovalPending ->
  Forall answerable (ap_levels a) -> left_ a ds <= Z.of_nat n ->
  exists a' ds', rtc approval_step (a, ds) (a', ds') /\ ap_state a' = ApprovalApproved.
Proof.
  induction n as [|n IH]; intros a ds Hinv Hp Hans Hle.
  - pose proof (left_positive _ _ Hinv Hp). lia.
  - destruct (someone_left a ds Hinv Hp Hans) as (p & level & a' & d & _ & Hstep & _).
    pose proof (yes_decreases _ _ _ _ _ Hinv Hstep) as [Hlv Hcase].
    pose proof (answer_keeps_inv _ _ _ _ _ Hinv Hstep) as Hinv'.
    destruct Hcase as [Hdone|[Hp' Hleft]].
    + exists a', (ds ++ [d]). split; [|done]. eapply rtc_once, step_answered, Hstep.
    + destruct (IH a' (ds ++ [d])) as (a2 & ds2 & Hrtc & Hdone); [done|done|by rewrite Hlv|lia|].
      exists a2, ds2. split; [|done]. eapply rtc_l; [eapply step_answered, Hstep|exact Hrtc].
Qed.

(** *** No answer stops the program *)

Lemma Counts_total a ds person : approval_inv a ds -> exists b, Counts a person = Ok b.
Proof.
  intros Hinv. pose proof (inv_current _ _ Hinv) as Hc. unfold Counts. destruct (bool_decide _); [|eauto].
  unfold current_level. destruct (at_index_in (E := Error) (ap_levels a) (ap_current a)) as [x [-> _]]; [exact Hc|]. by eexists.
Qed.

Lemma decide_no_panic a ds x : approval_inv a ds -> decide_step a ds x <> Panic.
Proof.
  intros Hinv. pose proof (inv_current _ _ Hinv) as Hc.
  destruct (at_index_in (E := Error) (ap_levels a) (ap_current a)) as [level [Hl _]]; [exact Hc|].
  assert (Hdel : forall ds', exists who, delegated a (an_now x) ds' = Ok who).
  { induction ds' as [|dl ds' IH]; cbn; [by eexists|]. destruct (Covers dl (an_now x)); cbn; [|done].
    destruct (Counts_total a ds (dl_account_id dl) Hinv) as [[] ->]; cbn; [by eexists|done]. }
  unfold decide_step, eligibility. destruct (negb _ || _); [done|].
  destruct (Counts_total a ds (an_actor x) Hinv) as [b ->]. cbn. unfold current_level. rewrite Hl.
  assert (Hd : forall who, Decide a ds (an_id x) (an_actor x) who (an_verdict x) (an_reason x) (an_item_version x) (an_now x) <> Panic).
  { intros who. unfold Decide, current_level. rewrite Hl. cbn zeta. cbn [mbind result_bind]. repeat (case_match; try done). }
  assert (Hk : forall who, (if negb (may_decide who) then Err (WithDetail ErrNotFound "approvals.not_found") else
    r ← Decide a ds (an_id x) (an_actor x) who (an_verdict x) (an_reason x) (an_item_version x) (an_now x);
    Ok (r.1, ds ++ [r.2])) <> Panic).
  { intros who. destruct (negb _); [done|]. specialize (Hd who). by destruct (Decide _ _ _ _ _ _ _ _ _). }
  destruct b; [apply Hk|]. cbn. destruct (existsb _ _); [apply Hk|].
  destruct (Hdel (an_delegations x)) as [who ->]. apply Hk.
Qed.

(** ** Properties *)



(** A level where one yes is enough, without roles, that counts nobody when the
    step is taken - an empty group, an entry nobody is assigned to - opens all
    the same, and then nobody can ever answer: the check that refuses a level
    of too few approvers does not look at it. *)
Lemma approval_of_nobody a ds x level : approval_inv a ds -> ap_state a = ApprovalPending ->
  current_level a = Ok level -> ol_counted level = [] -> al_roles (ol_level level) = [] ->
  decide_step a ds x = Err (WithDetail ErrNotFound "approvals.not_found").
Proof.
  intros Hinv Hp Hl Hcount Hroles.
  assert (Hc : forall person, Counts a person = Ok false).
  { intros person. unfold Counts. by rewrite bool_decide_true, Hl by done; cbn; rewrite Hcount. }
  assert (Hd : forall dels, delegated a (an_now x) dels = Ok no_eligibility).
  { induction dels as [|d dels IH]; [done|]. cbn. destruct (Covers d _); cbn; [by rewrite Hc|done]. }
  unfold decide_step, eligibility. destruct (negb _ || _); [done|]. rewrite Hc. cbn. rewrite Hl. cbn. by rewrite Hroles, Hd.
Qed.

(** ** Witnesses *)

Definition desk_solve : WorkflowStep :=
  mkStep "solve" "Solve" ["new"; "waiting"] "solved" (mkWho [] [] [] "") [] [] []
    (Some (mkStepApproval [mkLevel [] ["0190a000-0000-7000-8000-000000000001"] [] [] ApprovalMajority 0;
                           mkLevel [] [] [] ["assignee"] ApprovalAny 0] "new" 48)).

Lemma desk_solve_checked : newWorkflowStep desk_solve (mkShape (sh_statuses desk_shape) "new" []) None "/steps/0" = Ok desk_solve.
Proof. reflexivity. Qed.

Lemma desk_solve_ok : step_ok None (mkShape (sh_statuses desk_shape) "new" []) desk_solve.
Proof. exact (proj1 (newWorkflowStep_sound None _ _ _ _ desk_solve_checked)). Qed.

Definition desk_opened (counted : list (list ID)) : res Approval :=
  NewApproval "ap" "t" "item" 3 "support" desk_solve counted "asker" 100.

Definition answer_of (who : ID) (verdict reason : string) (dels : list Delegation) : Answer :=
  mkAnswer who [] dels "d" verdict reason 3 200.

(** Three people, a majority: ann says yes, eve says yes for bob, who is away,
    and the first level is passed; then the assignee says yes. *)
Definition desk_answers : list Answer :=
  [answer_of "ann" VerdictApprove "" []; answer_of "eve" VerdictApprove "" [mkDelegation "t" "bob" "eve" 0 1000];
   answer_of "dan" VerdictApprove "" []].

Fixpoint answers (a : Approval) (ds : list Decision) (xs : list Answer) : res (Approval * list Decision) :=
  match xs with [] => Ok (a, ds) | x :: rest => r ← decide_step a ds x; answers r.1 r.2 rest end.

Lemma answers_reachable xs : forall a ds st, approval_reachable (a, ds) -> answers a ds xs = Ok st -> approval_reachable st.
Proof.
  induction xs as [|x xs IH]; intros a ds st Hr H; cbn in H; [by injection H as <-|].
  apply bind_ok in H as [[a' ds'] [H1 H2]]. eapply IH; [|exact H2]. eapply reachable_more; [exact Hr|].
  by apply step_answered with x.
Qed.

Example desk_approved : (a ← desk_opened [["ann"; "bob"; "cid"]; ["dan"]]; r ← answers a [] desk_answers;
  Ok (ap_state r.1, ap_current r.1, List.length r.2)) = Ok (ApprovalApproved, 1, 3%nat).
Proof. reflexivity. Qed.

Definition get {A} (default : A) (r : res A) : A := match r with Ok a => a | _ => default end.
Definition no_approval : Approval := mkApproval "" "" "" "" "" 0 [] "" 0 0 ApprovalWithdrawn "" 0 0 None 0.
Definition desk_open : Approval := get no_approval (desk_opened [["ann"; "bob"; "cid"]; ["dan"]]).
Definition desk_done : Approval * list Decision := get (no_approval, []) (answers desk_open [] desk_answers).

Lemma desk_open_reachable : approval_reachable (desk_open, []).
Proof.
  apply (reachable_opened None (mkShape (sh_statuses desk_shape) "new" []) desk_solve "ap" "t" "item" 3 "support"
           [["ann"; "bob"; "cid"]; ["dan"]] "asker" 100); [exact desk_solve_ok|reflexivity].
Qed.



(** The entry has no assignee: the second level counts nobody, and opens. *)
Example nobody_counted : (a ← desk_opened [["ann"; "bob"; "cid"]; [""]]; Ok (ol_counted <$> ap_levels a)) =
  Ok [["ann"; "bob"; "cid"]; []].
Proof. reflexivity. Qed.

(** Eve answers for bob and for cid, both away; bob answered himself before he
    left.  She is taken to answer for bob, the first of the two, and refused,
    though nobody has answered for cid. *)
Example second_delegation_unreachable :
  (a ← desk_opened [["ann"; "bob"; "cid"]; ["dan"]];
   answers a [] [answer_of "bob" VerdictApprove "" [];
                 answer_of "eve" VerdictApprove "" [mkDelegation "t" "bob" "eve" 0 1000; mkDelegation "t" "cid" "eve" 0 1000]]) =
  Err (WithDetail ErrConflict "approvals.already_decided").
Proof. reflexivity. Qed.
