(* ===== verification/Retention.v ===== *)
(** * Retention: the rules of deletion and the holds against it

    Models core/domain/model/lifecycle: the catalogue of data kinds
    (Catalogue.go), the periods an upgrade starts with (Retention.go), the rules
    a workspace writes (Rule.go), legal holds (LegalHold.go, ReplacedHold.go),
    the order safeguards are named in (Safeguards.go), what a removal leaves
    behind (Deletion.go), and of core/domain/model/privacy/Restricted.go the set
    of people whose processing is restricted, with restrictionsOf and
    restrictedAmong of core/application/service/lifecycle/Restrictions.go.

    An instant is UTC, as the clock answers it, so [AddDate(0, 0, n)] is n times
    24 hours.

    The theorems: what a rule that was written is worth; that the narrowest rule
    counts, and the oldest of the narrowest; what a hold reaches; that no period
    is shorter than its kind's bound, and that the date the trash shows is the
    one the sweep keeps to. *)

From Stdlib Require Import ZArith Lia String Ascii List Bool.
From stdpp Require Import base list strings gmap.
From S2P Require Import Prelude Shared Text.

Open Scope string_scope.
Open Scope list_scope.
Open Scope Z_scope.

Definition Day : Duration := 24 * Hour.
Definition add_days (t : Time) (n : Z) : Time := t + n * Day.

(** ** Safeguards.go *)

Definition BlockedByLegalHold : string := "legal_hold".
Definition BlockedByRestriction : string := "restriction".
Definition BlockedByTombstoneWindow : string := "tombstone_window".
Definition BlockedByDescendant : string := "descendant_retained".

Definition BlockOrder : list string :=
  [BlockedByLegalHold; BlockedByRestriction; BlockedByTombstoneWindow; BlockedByDescendant].

(** The map of the source holds only [true]; it is the set of what was found. *)
Definition FirstBlock (found : gset string) : option string :=
  List.find (fun reason => bool_decide (reason ∈ found)) BlockOrder.

(** ** Catalogue.go *)

Abbreviation DataKind := string (only parsing).
Abbreviation Anchor := string (only parsing).
Abbreviation Action := string (only parsing).

Definition AnchorCompletedAt : Anchor := "completed_at".
Definition AnchorUpdatedAt : Anchor := "updated_at".
Definition AnchorDeletedAt : Anchor := "deleted_at".
Definition AnchorArchivedAt : Anchor := "archived_at".
Definition AnchorCreatedAt : Anchor := "created_at".
Definition AnchorOccurredAt : Anchor := "occurred_at".
Definition AnchorStartedAt : Anchor := "started_at".
Definition AnchorLastSeenAt : Anchor := "last_seen_at".
Definition AnchorCompactedAt : Anchor := "compacted_at".
Definition AnchorEndedAt : Anchor := "ended_at".
Definition AnchorLastContactAt : Anchor := "last_contact_at".

Definition ActionArchive : Action := "ARCHIVE".
Definition ActionTrash : Action := "TRASH".
Definition ActionAnonymize : Action := "ANONYMIZE".
Definition ActionHardDelete : Action := "HARD_DELETE".
Definition ActionExportThenDelete : Action := "EXPORT_THEN_DELETE".
Definition ActionNotifyOnly : Action := "NOTIFY_ONLY".

Definition actions : list Action :=
  [ActionArchive; ActionTrash; ActionAnonymize; ActionHardDelete; ActionExportThenDelete; ActionNotifyOnly].

Definition ActionValid (a : Action) : bool := contains actions a.
Definition Removes (a : Action) : bool :=
  String.eqb a ActionHardDelete || String.eqb a ActionExportThenDelete || String.eqb a ActionAnonymize.
Definition Leaves (a : Action) : option Anchor :=
  if String.eqb a ActionArchive then Some AnchorArchivedAt
  else if String.eqb a ActionTrash then Some AnchorDeletedAt
  else None.

Record Kind := mkKind {
  kd_name : DataKind; kd_anchor : Anchor; kd_default_days : Z; kd_min_days : Z; kd_max_days : option Z;
  kd_workspace_only : bool; kd_actions : list Action; kd_marks : bool; kd_blockable : list string
}.

Definition KindTrash : DataKind := "TRASH".
Definition KindNotification : DataKind := "NOTIFICATION".
Definition KindCompletedItem : DataKind := "COMPLETED_ITEM".
Definition KindOpenItemStale : DataKind := "OPEN_ITEM_STALE".
Definition KindArchivedItem : DataKind := "ARCHIVED_ITEM".
Definition KindComment : DataKind := "COMMENT".
Definition KindAttachment : DataKind := "ATTACHMENT".
Definition KindJumbleEntry : DataKind := "JUMBLE_ENTRY".
Definition KindAiSuggestion : DataKind := "AI_SUGGESTION".
Definition KindActivityEntry : DataKind := "ACTIVITY_ENTRY".
Definition KindRuleRun : DataKind := "RULE_RUN".
Definition KindWebhookDelivery : DataKind := "WEBHOOK_DELIVERY".
Definition KindMailReceipt : DataKind := "MAIL_RECEIPT".
Definition KindOutboxEvent : DataKind := "OUTBOX_EVENT".
Definition KindSession : DataKind := "SESSION".
Definition KindDevice : DataKind := "DEVICE".
Definition KindSyncLog : DataKind := "SYNC_LOG".
Definition KindIdempotencyKey : DataKind := "IDEMPOTENCY_KEY".
Definition KindAudit : DataKind := "AUDIT".
Definition KindMediaOrphan : DataKind := "MEDIA_ORPHAN".
Definition KindDocumentHistory : DataKind := "DOCUMENT_HISTORY".
Definition KindAgentLedger : DataKind := "AGENT_LEDGER".
Definition KindAgentRequest : DataKind := "AGENT_REQUEST".
Definition KindAgentJob : DataKind := "AGENT_JOB".
Definition KindTimer : DataKind := "TIMER".
Definition KindConnectorRun : DataKind := "CONNECTOR_RUN".
Definition KindPageVersion : DataKind := "PAGE_VERSION".
Definition KindWhiteboardHistory : DataKind := "WHITEBOARD_HISTORY".
Definition KindRequester : DataKind := "REQUESTER".
Definition KindDeletedAccountResidue : DataKind := "DELETED_ACCOUNT_RESIDUE".

(** A kind of entries, whose deletion is announced first. *)
Definition marking_kind (name : DataKind) (anchor : Anchor) (acts : list Action) : Kind :=
  mkKind name anchor 0 0 None false acts true
    [BlockedByLegalHold; BlockedByRestriction; BlockedByTombstoneWindow; BlockedByDescendant].
(** A kind that is only deleted, with what may stop it. *)
Definition deleted_kind (name : DataKind) (anchor : Anchor) (days floor : Z) (blockable : list string) : Kind :=
  mkKind name anchor days floor None false [ActionHardDelete] false blockable.
(** A kind no sweep removes. *)
Definition listed_kind (name : DataKind) (anchor : Anchor) (days : Z) : Kind :=
  mkKind name anchor days 0 None false [] false [].

Definition Catalogue : list Kind :=
  [ marking_kind KindCompletedItem AnchorCompletedAt
      [ActionArchive; ActionTrash; ActionHardDelete; ActionExportThenDelete; ActionNotifyOnly];
    listed_kind KindOpenItemStale AnchorUpdatedAt 0;
    deleted_kind KindTrash AnchorDeletedAt 30 7 [BlockedByLegalHold; BlockedByRestriction; BlockedByTombstoneWindow];
    marking_kind KindArchivedItem AnchorArchivedAt
      [ActionTrash; ActionHardDelete; ActionExportThenDelete; ActionNotifyOnly];
    listed_kind KindComment AnchorCreatedAt 0;
    listed_kind KindAttachment AnchorCreatedAt 0;
    deleted_kind KindJumbleEntry AnchorCreatedAt 90 0 [BlockedByLegalHold];
    deleted_kind KindNotification AnchorCreatedAt 90 0 [];
    deleted_kind KindAiSuggestion AnchorCreatedAt 30 0 [BlockedByLegalHold];
    listed_kind KindActivityEntry AnchorOccurredAt 0;
    listed_kind KindRuleRun AnchorStartedAt 30;
    deleted_kind KindWebhookDelivery AnchorCreatedAt 30 0 [BlockedByLegalHold];
    deleted_kind KindMailReceipt AnchorCreatedAt 30 0 [BlockedByLegalHold];
    deleted_kind KindOutboxEvent AnchorOccurredAt 7 0 [];
    deleted_kind KindSession AnchorLastSeenAt 30 0 [];
    deleted_kind KindDevice AnchorLastSeenAt 30 0 [];
    deleted_kind KindSyncLog AnchorOccurredAt 90 90 [];
    deleted_kind KindIdempotencyKey AnchorCreatedAt 1 1 [];
    listed_kind KindAudit AnchorOccurredAt 400;
    deleted_kind KindDocumentHistory AnchorCompactedAt 30 0 [BlockedByLegalHold];
    deleted_kind KindAgentLedger AnchorOccurredAt 397 397 [BlockedByLegalHold];
    deleted_kind KindAgentRequest AnchorCreatedAt 90 0 [BlockedByLegalHold];
    deleted_kind KindAgentJob AnchorEndedAt 90 0 [BlockedByLegalHold];
    deleted_kind KindTimer AnchorEndedAt 30 0 [BlockedByLegalHold];
    deleted_kind KindConnectorRun AnchorCreatedAt 90 0 [BlockedByLegalHold];
    deleted_kind KindPageVersion AnchorCreatedAt 90 0 [BlockedByLegalHold];
    mkKind KindWhiteboardHistory AnchorCreatedAt 0 0 None true [ActionHardDelete] false [BlockedByLegalHold];
    deleted_kind KindRequester AnchorLastContactAt 730 0 [BlockedByLegalHold];
    listed_kind KindMediaOrphan AnchorCreatedAt 7;
    listed_kind KindDeletedAccountResidue AnchorDeletedAt 30 ].

Definition OfEntries (k : Kind) : bool := contains [KindCompletedItem; KindArchivedItem; KindTrash] (kd_name k).
Definition Swept (k : Kind) : bool := Nat.ltb 0 (List.length (kd_actions k)).
Definition Performs (k : Kind) (a : Action) : bool := contains (kd_actions k) a.
Definition KindCeiling (k : Kind) : Z := default 0 (kd_max_days k).

Definition FindKind (name : DataKind) : option Kind :=
  List.find (fun k => String.eqb (kd_name k) name) Catalogue.
Definition SweptKinds : list Kind := List.filter Swept Catalogue.

(** ** Retention.go *)

Record Policy := mkPolicy { po_kind : DataKind; po_retain_days : Z; po_min_days : Z; po_max_days : option Z }.

Definition DefaultPolicies : list Policy :=
  [ mkPolicy KindTrash 30 7 None; mkPolicy KindNotification 90 0 None; mkPolicy KindOutboxEvent 7 0 None;
    mkPolicy KindJumbleEntry 90 0 None; mkPolicy KindAiSuggestion 30 0 None; mkPolicy KindSession 30 0 None;
    mkPolicy KindDevice 30 0 None; mkPolicy KindSyncLog 90 90 None; mkPolicy KindWebhookDelivery 30 0 None;
    mkPolicy KindMailReceipt 30 0 None; mkPolicy KindIdempotencyKey 1 1 None; mkPolicy KindDocumentHistory 30 0 None;
    mkPolicy KindAgentLedger 397 397 None; mkPolicy KindAgentRequest 90 0 None; mkPolicy KindAgentJob 90 0 None;
    mkPolicy KindTimer 30 0 None; mkPolicy KindConnectorRun 90 0 None; mkPolicy KindPageVersion 90 0 None;
    mkPolicy KindRequester 730 0 None ].

Definition FloorFor (kind : DataKind) : Z :=
  match List.find (fun p => String.eqb (po_kind p) kind) DefaultPolicies with Some p => po_min_days p | None => 0 end.

Definition days (p : Policy) : Z :=
  let floor := FloorFor (po_kind p) in if po_retain_days p <? floor then floor else po_retain_days p.

Definition PolicyCutoff (p : Policy) (now : Time) : Time := add_days now (- days p).

Definition RemovableAfter (p : Policy) (deletedAt : Time) (window : Duration) : Time :=
  let byPeriod := add_days deletedAt (days p) in
  let byWindow := deletedAt + window in
  if byPeriod <? byWindow then byWindow else byPeriod.

(** ** Deletion.go *)

Abbreviation DeletionReason := string (only parsing).

Definition DeletedByUser : DeletionReason := "USER".
Definition DeletedByRetention : DeletionReason := "RETENTION".
Definition DeletedByErasure : DeletionReason := "DSR_ERASURE".
Definition DeletedByAdmin : DeletionReason := "ADMIN".

Record Removal := mkRemoval { rm_entity : string; rm_entity_id : ID; rm_reason : DeletionReason }.
Record Tombstone := mkTombstone { tb_entity : string; tb_entity_id : ID; tb_purge_after : Time }.

(** ** LegalHold.go *)

Abbreviation HoldScope := string (only parsing).

Definition HoldTenant : HoldScope := "TENANT".
Definition HoldContainer : HoldScope := "CONTAINER".
Definition HoldItem : HoldScope := "ITEM".
Definition HoldAccount : HoldScope := "ACCOUNT".

Record LegalHold := mkHold {
  lh_id : ID; lh_scope : HoldScope; lh_scope_id : ID; lh_reason : string; lh_placed_by : ID; lh_placed_at : Time;
  lh_released_by : ID; lh_released_at : Time; lh_released_reason : string
}.

Definition Released (h : LegalHold) : bool := negb (time_is_zero (lh_released_at h)).

Definition maxHoldReason : nat := 2000.

Definition HoldScopeValid (s : HoldScope) : bool := contains [HoldTenant; HoldContainer; HoldItem; HoldAccount] s.

Definition invalidHold (code field : string) : Error := field_refused ErrValidation field code [].

Record NewHoldInput := mkHoldInput {
  nh_id : ID; nh_scope : HoldScope; nh_scope_id : ID; nh_reason : string; nh_placed_by : ID; nh_now : Time;
  nh_text : option (string -> string)
}.

Definition NewLegalHold (i : NewHoldInput) : res LegalHold :=
  reason ← NFC (TrimSpace (nh_reason i)) (nh_text i);
  if id_is_zero (nh_id i) || id_is_zero (nh_placed_by i) then Err (invalidHold "lifecycle.hold_incomplete" "/reason")
  else if negb (HoldScopeValid (nh_scope i)) then Err (invalidHold "lifecycle.hold_scope_invalid" "/scope")
  else if String.eqb reason "" then Err (invalidHold "lifecycle.hold_reason_required" "/reason")
  else if Nat.ltb maxHoldReason (String.length reason) then Err (invalidHold "lifecycle.hold_reason_too_long" "/reason")
  else if negb (Bool.eqb (String.eqb (nh_scope i) HoldTenant) (id_is_zero (nh_scope_id i))) then
    Err (invalidHold "lifecycle.hold_scope_id_mismatch" "/scope")
  else Ok (mkHold (nh_id i) (nh_scope i) (nh_scope_id i) reason (nh_placed_by i) (nh_now i) "" zero_time "").

Definition Release (h : LegalHold) (by_ : ID) (reason : string) (form : option (string -> string)) (at_ : Time) : res LegalHold :=
  trimmed ← NFC (TrimSpace reason) form;
  if Released h then Err (detailed ErrConflict "lifecycle.hold_already_released" [("hold_id", lh_id h)])
  else if id_is_zero by_ then Err (invalidHold "lifecycle.hold_incomplete" "/reason")
  else if String.eqb trimmed "" then Err (invalidHold "lifecycle.hold_reason_required" "/reason")
  else if Nat.ltb maxHoldReason (String.length trimmed) then Err (invalidHold "lifecycle.hold_reason_too_long" "/reason")
  else Ok (mkHold (lh_id h) (lh_scope h) (lh_scope_id h) (lh_reason h) (lh_placed_by h) (lh_placed_at h) by_ at_ trimmed).

Definition WorkspaceUnderHold : Error := detailed ErrConflict "lifecycle.legal_hold" [("scope", "WORKSPACE")].

Record Target := mkTarget {
  tg_item : ID; tg_containers : list ID; tg_ancestors : list ID; tg_contributors : list ID
}.

Definition TemplateTarget (scopeID hubID : ID) : Target :=
  mkTarget "" (List.filter (fun id => negb (id_is_zero id)) [scopeID; hubID]) [] [].

(** The body of [Blocking]'s loop: does this hold reach the target? *)
Definition reaches (target : Target) (h : LegalHold) : bool :=
  if negb (String.eqb (lh_scope h) HoldTenant) && id_is_zero (lh_scope_id h) then false
  else if String.eqb (lh_scope h) HoldTenant then true
  else if String.eqb (lh_scope h) HoldContainer then contains (tg_containers target) (lh_scope_id h)
  else if String.eqb (lh_scope h) HoldItem then
    String.eqb (tg_item target) (lh_scope_id h) || contains (tg_ancestors target) (lh_scope_id h)
  else if String.eqb (lh_scope h) HoldAccount then contains (tg_contributors target) (lh_scope_id h)
  else false.

Definition Blocking (holds : list LegalHold) (target : Target) : option LegalHold :=
  List.find (reaches target) holds.

Definition AnyOnAccounts (holds : list LegalHold) : bool :=
  existsb (fun h => String.eqb (lh_scope h) HoldAccount && negb (id_is_zero (lh_scope_id h))) holds.

Definition OnAccount (holds : list LegalHold) (account : ID) : option LegalHold :=
  List.find (fun h => String.eqb (lh_scope h) HoldAccount && negb (id_is_zero account) && String.eqb (lh_scope_id h) account) holds.

Definition OnTenant (holds : list LegalHold) : option LegalHold :=
  List.find (fun h => String.eqb (lh_scope h) HoldTenant) holds.

(** ** ReplacedHold.go *)

Definition ReplacedLegalHold (i : NewHoldInput) : res LegalHold :=
  if time_is_zero (nh_now i) then Err (invalidHold "lifecycle.hold_incomplete" "/placed_at") else NewLegalHold i.

(** ** Restricted.go and Restrictions.go

    Of a restricted person what the lifecycle reads is the account. *)

Definition NewRestricted (people : list ID) : gset ID :=
  list_to_set (List.filter (fun id => negb (id_is_zero id)) people).

Definition Has (restricted : gset ID) (account : ID) : bool :=
  negb (id_is_zero account) && bool_decide (account ∈ restricted).

Definition RestrictedEmpty (restricted : gset ID) : bool := bool_decide (restricted = ∅).

(** The port is [nil] where it is not wired. *)
Definition restrictionsOf (port : option (res (list ID))) : res (gset ID) :=
  match port with None => Ok ∅ | Some people => NewRestricted <$> people end.

Definition restrictedAmong (restricted : gset ID) (contributors : list ID) : bool :=
  existsb (Has restricted) contributors.

(** ** Rule.go *)

Abbreviation ScopeKind := string (only parsing).

Definition ScopeTenant : ScopeKind := "TENANT".
Definition ScopeHub : ScopeKind := "HUB".
Definition ScopeCollection : ScopeKind := "COLLECTION".

Definition depth (s : ScopeKind) : Z :=
  if String.eqb s ScopeCollection then 3 else if String.eqb s ScopeHub then 2 else if String.eqb s ScopeTenant then 1 else 0.
Definition ScopeValid (s : ScopeKind) : bool := 0 <? depth s.

Record RuleScope := mkScope { sc_kind : ScopeKind; sc_id : ID }.

Definition RecipientItemMembers : string := "ITEM_MEMBERS".
Definition RecipientCollectionAdmins : string := "COLLECTION_ADMINS".
Definition RecipientTenantAdmins : string := "TENANT_ADMINS".
Definition recipients : list string := [RecipientItemMembers; RecipientCollectionAdmins; RecipientTenantAdmins].
Definition RecipientValid (r : string) : bool := contains recipients r.

Record Notify := mkNotify { nf_before_days : Z; nf_recipients : list string }.
Definition Silent (n : Notify) : bool := match nf_recipients n with [] => true | _ => false end.

Definition DefaultNotifyBeforeDays : Z := 7.
Definition DefaultGraceDays : Z := 14.
Definition MaxConditionLength : nat := 4096.

Record RuleFailure := mkFailure { rf_code : string; rf_at : Time }.
Definition no_failure : RuleFailure := mkFailure "" zero_time.
Definition FailureIsZero (f : RuleFailure) : bool := String.eqb (rf_code f) "".

Record Rule := mkRule {
  ru_id : ID; ru_tenant : ID; ru_scope : RuleScope; ru_kind : DataKind; ru_condition : string; ru_retain_days : Z;
  ru_action : Action; ru_then_after_days : Z; ru_then_action : Action; ru_grace_days : Z; ru_notify : Notify;
  ru_justification : string; ru_enabled : bool; ru_export_target : ID; ru_created_by : ID; ru_created_at : Time;
  ru_updated_at : Time; ru_version : Z; ru_last_failure : RuleFailure
}.

Definition Chained (r : Rule) : bool := negb (String.eqb (ru_then_action r) "").

Record NewRuleInput := mkRuleInput {
  nr_id : ID; nr_tenant : ID; nr_scope : RuleScope; nr_kind : DataKind; nr_condition : string; nr_retain_days : Z;
  nr_action : Action; nr_then_after_days : Z; nr_then_action : Action; nr_grace_days : option Z;
  nr_notify : option Notify; nr_justification : string; nr_enabled : option bool; nr_export_target : ID;
  nr_created_by : ID; nr_now : Time; nr_ceiling : Z; nr_text : option (string -> string)
}.

Definition invalidRule (code field : string) : Error := field_refused ErrValidation field code [].

(** [ErrConflict] with the parameters and the field. *)
Definition rule_conflict (code field : string) (p : params) : Error := field_refused ErrConflict field code p.

Definition validateChain (i : NewRuleInput) (kind : Kind) : res unit :=
  if String.eqb (nr_then_action i) "" && (nr_then_after_days i =? 0) then Ok tt
  else if String.eqb (nr_then_action i) "" || (nr_then_after_days i <=? 0) then
    Err (invalidRule "lifecycle.chain_incomplete" "/then_action")
  else if negb (ActionValid (nr_then_action i)) || String.eqb (nr_then_action i) ActionNotifyOnly then
    Err (invalidRule "lifecycle.action_invalid" "/then_action")
  else if negb (Performs kind (nr_then_action i)) then
    Err (rule_conflict "lifecycle.action_not_performed" "/then_action" [("data_kind", nr_kind i); ("action", nr_then_action i)])
  else match Leaves (nr_action i) with
       | None => Err (rule_conflict "lifecycle.chain_has_no_second_stage" "/then_action" [("action", nr_action i)])
       | Some _ => Ok tt
       end.

Definition ceilingOf (i : NewRuleInput) (kind : Kind) : Z :=
  if 0 <? nr_ceiling i then nr_ceiling i else KindCeiling kind.

(** [total] is an [int] sum and wraps as one. *)
Definition validateBounds (i : NewRuleInput) (kind : Kind) : res unit :=
  if String.eqb (nr_action i) ActionNotifyOnly then Ok tt
  else if nr_retain_days i <? kd_min_days kind then
    Err (rule_conflict "lifecycle.below_lower_bound" "/retain_days"
           [("data_kind", nr_kind i); ("min_days", itoa (kd_min_days kind))])
  else
    let total := wrap_int64 (nr_retain_days i + nr_then_after_days i) in
    let ceiling := ceilingOf i kind in
    if (0 <? ceiling) && (ceiling <? total) && String.eqb (TrimSpace (nr_justification i)) "" then
      Err (field_refused ErrValidation "/justification" "lifecycle.justification_required"
             [("data_kind", nr_kind i); ("max_days", itoa (ceilingOf i kind))])
    else Ok tt.

Definition ExceedsCeiling (r : Rule) (ceiling : Z) : bool :=
  (0 <? ceiling) && (ceiling <? wrap_int64 (ru_retain_days r + ru_then_after_days r)).

Definition graceOf (i : NewRuleInput) (kind : Kind) : res Z :=
  if negb (kd_marks kind) then
    match nr_grace_days i with
    | Some g => if 0 <? g then Err (rule_conflict "lifecycle.grace_not_applicable" "/grace_days" [("data_kind", nr_kind i)]) else Ok 0
    | None => Ok 0
    end
  else match nr_grace_days i with
       | None => Ok DefaultGraceDays
       | Some g => if g <? 0 then Err (invalidRule "lifecycle.grace_invalid" "/grace_days") else Ok g
       end.

Definition notifyOf (i : NewRuleInput) (grace : Z) : res Notify :=
  match nr_notify i with
  | None => Ok (mkNotify 0 [])
  | Some n =>
      if Silent n then Ok (mkNotify 0 [])
      else if negb (forallb RecipientValid (nf_recipients n)) then
        Err (invalidRule "lifecycle.recipient_invalid" "/notify/recipients")
      else if (nf_before_days n <? 0) || (grace <? nf_before_days n) then
        Err (field_refused ErrValidation "/notify/before_days" "lifecycle.notify_beyond_grace" [("grace_days", itoa grace)])
      else if nf_before_days n =? 0 then Ok (mkNotify DefaultNotifyBeforeDays (nf_recipients n))
      else Ok n
  end.

(** The cases of [NewRule]'s switch, in its order. *)
Definition rule_shape (i : NewRuleInput) (kind : Kind) : res unit :=
  if negb (Swept kind) then Err (rule_conflict "lifecycle.data_kind_not_swept" "/data_kind" [("data_kind", nr_kind i)])
  else if negb (ScopeValid (sc_kind (nr_scope i))) then Err (invalidRule "lifecycle.scope_invalid" "/scope")
  else if negb (Bool.eqb (String.eqb (sc_kind (nr_scope i)) ScopeTenant) (id_is_zero (sc_id (nr_scope i)))) then
    Err (invalidRule "lifecycle.scope_id_mismatch" "/scope")
  else if kd_workspace_only kind && negb (String.eqb (sc_kind (nr_scope i)) ScopeTenant) then
    Err (invalidRule "lifecycle.scope_workspace_only" "/scope")
  else if negb (ActionValid (nr_action i)) then Err (invalidRule "lifecycle.action_invalid" "/action")
  else if negb (Performs kind (nr_action i)) then
    Err (rule_conflict "lifecycle.action_not_performed" "/action" [("data_kind", nr_kind i); ("action", nr_action i)])
  else if nr_retain_days i <? 0 then Err (invalidRule "lifecycle.retain_days_invalid" "/retain_days")
  else Ok tt.

Definition NewRule (i : NewRuleInput) : res Rule :=
  if id_is_zero (nr_id i) || id_is_zero (nr_tenant i) then Err (invalidRule "lifecycle.rule_incomplete" "/data_kind")
  else match FindKind (nr_kind i) with
  | None => Err (invalidRule "lifecycle.data_kind_unknown" "/data_kind")
  | Some kind =>
      _ ← rule_shape i kind;
      if Nat.ltb MaxConditionLength (String.length (TrimSpace (nr_condition i))) then
        Err (invalidRule "lifecycle.condition_too_long" "/condition")
      else
        _ ← validateChain i kind;
        _ ← validateBounds i kind;
        grace ← graceOf i kind;
        notify ← notifyOf i grace;
        if String.eqb (nr_action i) ActionExportThenDelete && id_is_zero (nr_export_target i) then
          Err (invalidRule "lifecycle.export_target_required" "/export_target_id")
        else
          justification ← NFC (TrimSpace (nr_justification i)) (nr_text i);
          Ok (mkRule (nr_id i) (nr_tenant i) (nr_scope i) (nr_kind i) (TrimSpace (nr_condition i)) (nr_retain_days i)
                (nr_action i) (nr_then_after_days i) (nr_then_action i) grace notify justification
                (default true (nr_enabled i)) (nr_export_target i) (nr_created_by i) (nr_now i) (nr_now i) 1 no_failure)
  end.

Definition RuleApplies (r : Rule) (hub collection : ID) : bool :=
  let kind := sc_kind (ru_scope r) in
  if String.eqb kind ScopeTenant then true
  else if String.eqb kind ScopeHub then String.eqb (sc_id (ru_scope r)) hub
  else if String.eqb kind ScopeCollection then String.eqb (sc_id (ru_scope r)) collection
  else false.

Definition Narrower (r other : Rule) : bool := depth (sc_kind (ru_scope other)) <? depth (sc_kind (ru_scope r)).

Definition candidate_rule (kind : DataKind) (hub collection : ID) (r : Rule) : bool :=
  String.eqb (ru_kind r) kind && ru_enabled r && RuleApplies r hub collection.

Definition Effective (rules : list Rule) (kind : DataKind) (hub collection : ID) : option Rule :=
  fold_left (fun winner r =>
    if negb (candidate_rule kind hub collection r) then winner
    else match winner with
         | None => Some r
         | Some w => if Narrower r w then Some r else winner
         end) rules None.

Definition RuleCutoff (r : Rule) (now : Time) : Time := add_days now (- ru_retain_days r).
Definition ThenCutoff (r : Rule) (now : Time) : Time := add_days now (- ru_then_after_days r).

Definition StageAnchor (r : Rule) (kind : Kind) (second : bool) : option Anchor :=
  if second then Leaves (ru_action r) else Some (kd_anchor kind).

Definition EffectiveAt (r : Rule) (anchoredAt : Time) : Time := add_days anchoredAt (ru_retain_days r + ru_grace_days r).

(** ** RetentionRuleLifecycle.go: correcting a rule

    The patch of [UpdateRetentionPolicyCommand]; [None] is a key not sent. *)
Record RulePatch := mkRulePatch {
  up_condition : option string; up_retain_days : option Z; up_action : option Action; up_then_after_days : option Z;
  up_then_action : option Action; up_grace_days : option Z; up_notify : option Notify; up_justification : option string;
  up_enabled : option bool; up_export_target : option ID
}.

Definition no_patch : RulePatch := mkRulePatch None None None None None None None None None None.

Definition applyTo (cmd : RulePatch) (before : Rule) (ceiling : Z) (form : option (string -> string)) (now : Time) : res Rule :=
  after ← NewRule (mkRuleInput (ru_id before) (ru_tenant before) (ru_scope before) (ru_kind before)
    (default (ru_condition before) (up_condition cmd)) (default (ru_retain_days before) (up_retain_days cmd))
    (default (ru_action before) (up_action cmd)) (default (ru_then_after_days before) (up_then_after_days cmd))
    (default (ru_then_action before) (up_then_action cmd))
    (Some (default (ru_grace_days before) (up_grace_days cmd))) (Some (default (ru_notify before) (up_notify cmd)))
    (default (ru_justification before) (up_justification cmd)) (Some (default (ru_enabled before) (up_enabled cmd)))
    (default (ru_export_target before) (up_export_target cmd)) (ru_created_by before) now ceiling form);
  Ok (mkRule (ru_id after) (ru_tenant after) (ru_scope after) (ru_kind after) (ru_condition after) (ru_retain_days after)
        (ru_action after) (ru_then_after_days after) (ru_then_action after) (ru_grace_days after) (ru_notify after)
        (ru_justification after) (ru_enabled after) (ru_export_target after) (ru_created_by after)
        (ru_created_at before) (ru_updated_at after) (ru_version before) (ru_last_failure after)).

(** [Execute] stores a rule whose first run would be broad as an announcement. *)
Definition announced_only (r : Rule) : Rule :=
  mkRule (ru_id r) (ru_tenant r) (ru_scope r) (ru_kind r) (ru_condition r) (ru_retain_days r)
    ActionNotifyOnly 0 "" (ru_grace_days r) (ru_notify r) (ru_justification r) (ru_enabled r) (ru_export_target r)
    (ru_created_by r) (ru_created_at r) (ru_updated_at r) (ru_version r) (ru_last_failure r).

(** ** What a written rule is worth *)

Record rule_ok (kind : Kind) (ceiling : Z) (r : Rule) : Prop := {
  rk_named : ru_id r <> "" /\ ru_tenant r <> "";
  rk_kind : FindKind (ru_kind r) = Some kind /\ Swept kind = true;
  rk_scope : ScopeValid (sc_kind (ru_scope r)) = true /\ (sc_kind (ru_scope r) = ScopeTenant <-> sc_id (ru_scope r) = "");
  rk_workspace : kd_workspace_only kind = true -> sc_kind (ru_scope r) = ScopeTenant;
  rk_action : ActionValid (ru_action r) = true /\ Performs kind (ru_action r) = true;
  rk_period : 0 <= ru_retain_days r /\ (ru_action r <> ActionNotifyOnly -> kd_min_days kind <= ru_retain_days r);
  rk_ceiling : ru_action r <> ActionNotifyOnly -> ExceedsCeiling r ceiling = true -> ru_justification r <> "";
  rk_chain : (ru_then_action r = "" /\ ru_then_after_days r = 0) \/
    (0 < ru_then_after_days r /\ ActionValid (ru_then_action r) = true /\ ru_then_action r <> ActionNotifyOnly /\
     Performs kind (ru_then_action r) = true /\ is_Some (Leaves (ru_action r)));
  rk_grace : 0 <= ru_grace_days r /\ (kd_marks kind = false -> ru_grace_days r = 0);
  rk_notify : ru_notify r = mkNotify 0 [] \/
    (Silent (ru_notify r) = false /\ Forall (fun p => RecipientValid p = true) (nf_recipients (ru_notify r)) /\
     0 < nf_before_days (ru_notify r) <= Z.max (ru_grace_days r) DefaultNotifyBeforeDays);
  rk_export : ru_action r = ActionExportThenDelete -> ru_export_target r <> "";
  rk_texts : TrimSpace (ru_condition r) = ru_condition r /\ (String.length (ru_condition r) <= MaxConditionLength)%nat
}.

Lemma rule_shape_ok i kind : rule_shape i kind = Ok tt ->
  Swept kind = true /\ ScopeValid (sc_kind (nr_scope i)) = true /\
  (sc_kind (nr_scope i) = ScopeTenant <-> sc_id (nr_scope i) = "") /\
  (kd_workspace_only kind = true -> sc_kind (nr_scope i) = ScopeTenant) /\
  ActionValid (nr_action i) = true /\ Performs kind (nr_action i) = true /\ 0 <= nr_retain_days i.
Proof.
  unfold rule_shape, id_is_zero. intros H. repeat (break_match; [done|]). clear H. bools.
  split_and!; try done.
  - destruct (String.eqb_spec (sc_kind (nr_scope i)) ScopeTenant), (String.eqb_spec (sc_id (nr_scope i)) ""); done.
  - intros Hw. rewrite Hw in *. cbn in *. destruct (String.eqb_spec (sc_kind (nr_scope i)) ScopeTenant); done.
Qed.

Lemma chain_ok i kind : validateChain i kind = Ok tt ->
  (nr_then_action i = "" /\ nr_then_after_days i = 0) \/
  (0 < nr_then_after_days i /\ ActionValid (nr_then_action i) = true /\ nr_then_action i <> ActionNotifyOnly /\
   Performs kind (nr_then_action i) = true /\ is_Some (Leaves (nr_action i))).
Proof.
  unfold validateChain. destruct (String.eqb_spec (nr_then_action i) "") as [->|Hne]; cbn [andb orb].
  - destruct (Z.eqb_spec (nr_then_after_days i) 0); [by left|done].
  - intros H. repeat (break_match; try done). bools. right. split_and!; try done; try lia.
Qed.

Lemma bounds_ok i kind : validateBounds i kind = Ok tt -> nr_action i <> ActionNotifyOnly ->
  kd_min_days kind <= nr_retain_days i /\
  ((0 <? ceilingOf i kind) && (ceilingOf i kind <? wrap_int64 (nr_retain_days i + nr_then_after_days i)) = true ->
   TrimSpace (nr_justification i) <> "").
Proof.
  unfold validateBounds. intros H Ha. apply String.eqb_neq in Ha. rewrite Ha in H.
  break_match; [done|]. bools. split; [done|]. intros Hc. rewrite Hc in H. cbn [andb] in H.
  by destruct (String.eqb_spec (TrimSpace (nr_justification i)) "").
Qed.

Lemma grace_ok i kind g : graceOf i kind = Ok g -> 0 <= g /\ (kd_marks kind = false -> g = 0).
Proof.
  unfold graceOf, DefaultGraceDays. destruct (kd_marks kind); cbn [negb]; destruct (nr_grace_days i) as [n|];
    repeat break_match; intros [= <-]; bools; split; (done || lia).
Qed.

Lemma notify_ok i g n : 0 <= g -> notifyOf i g = Ok n ->
  n = mkNotify 0 [] \/
  (Silent n = false /\ Forall (fun p => RecipientValid p = true) (nf_recipients n) /\
   0 < nf_before_days n <= Z.max g DefaultNotifyBeforeDays).
Proof.
  unfold notifyOf, DefaultNotifyBeforeDays. intros Hg. destruct (nr_notify i) as [m|]; [|intros [= <-]; by left].
  destruct (Silent m) eqn:Es; [intros [= <-]; by left|]. destruct (forallb _ _) eqn:Er; cbn [negb]; [|done].
  rewrite List.forallb_forall in Er. assert (Forall (fun p => RecipientValid p = true) (nf_recipients m)) by (apply List.Forall_forall; exact Er).
  break_match; [done|]. bools. destruct (Z.eqb_spec (nf_before_days m) 0); intros [= <-]; right; cbn; split_and!; (done || lia).
Qed.


(** *** Correcting a rule without a change *)

Definition touched (r : Rule) (now : Time) : Rule :=
  mkRule (ru_id r) (ru_tenant r) (ru_scope r) (ru_kind r) (ru_condition r) (ru_retain_days r) (ru_action r)
    (ru_then_after_days r) (ru_then_action r) (ru_grace_days r) (ru_notify r) (ru_justification r) (ru_enabled r)
    (ru_export_target r) (ru_created_by r) (ru_created_at r) now (ru_version r) no_failure.

Lemma id_set (id : ID) : id <> "" -> id_is_zero id = false.
Proof. apply String.eqb_neq. Qed.

Lemma rule_shape_holds i kind r ceiling : rule_ok kind ceiling r ->
  nr_scope i = ru_scope r -> nr_action i = ru_action r -> nr_retain_days i = ru_retain_days r ->
  rule_shape i kind = Ok tt.
Proof.
  intros Hr Hs Ha Hd. unfold rule_shape. rewrite Hs, Ha, Hd, (proj2 (rk_kind _ _ _ Hr)), (proj1 (rk_scope _ _ _ Hr)).
  destruct (rk_action _ _ _ Hr) as [-> ->], (rk_period _ _ _ Hr) as [Hp _], (rk_scope _ _ _ Hr) as [_ Hi].
  cbn [negb]. unfold id_is_zero. pose proof (rk_workspace _ _ _ Hr) as Hw.
  replace (Bool.eqb _ _) with true.
  2: { destruct (String.eqb_spec (sc_kind (ru_scope r)) ScopeTenant), (String.eqb_spec (sc_id (ru_scope r)) ""); tauto. }
  cbn [negb]. rewrite (proj2 (Z.ltb_ge _ _) Hp).
  destruct (kd_workspace_only kind); [|done]. rewrite Hw by done. done.
Qed.

Lemma chain_holds i kind r ceiling : rule_ok kind ceiling r ->
  nr_then_action i = ru_then_action r -> nr_then_after_days i = ru_then_after_days r -> nr_action i = ru_action r ->
  validateChain i kind = Ok tt.
Proof.
  intros Hr Ht Hd Ha. unfold validateChain. rewrite Ht, Hd, Ha.
  destruct (rk_chain _ _ _ Hr) as [[-> ->]|(Hd0 & Hv & Hn & -> & [a ->])]; [done|].
  assert (ru_then_action r <> "") as Hne by (intros He; rewrite He in Hv; done).
  apply String.eqb_neq in Hne, Hn. rewrite Hne, Hn, Hv, (proj2 (Z.leb_gt _ _) Hd0). done.
Qed.

Lemma bounds_hold i kind r ceiling : NormalForm (nr_text i) -> rule_ok kind ceiling r ->
  NFC (TrimSpace (ru_justification r)) (nr_text i) = Ok (ru_justification r) ->
  0 < ceiling \/ ceiling = KindCeiling kind ->
  nr_action i = ru_action r -> nr_retain_days i = ru_retain_days r -> nr_then_after_days i = ru_then_after_days r ->
  nr_justification i = ru_justification r -> nr_ceiling i = ceiling -> validateBounds i kind = Ok tt.
Proof.
  intros Hf Hr Hj Hc Ha Hd Ht Hju Hce. unfold validateBounds. rewrite Ha, Hd, Ht, Hju.
  destruct (String.eqb_spec (ru_action r) ActionNotifyOnly) as [|Hn]; [done|].
  destruct (rk_period _ _ _ Hr) as [_ Hp]. rewrite (proj2 (Z.ltb_ge _ _) (Hp Hn)).
  assert (ceilingOf i kind = ceiling) as ->.
  { unfold ceilingOf. rewrite Hce. destruct Hc as [Hc| ->]; [by apply Z.ltb_lt in Hc as ->|by destruct (_ <? _)]. }
  destruct ((0 <? ceiling) && _) eqn:Ex; [|done]. cbn [andb].
  destruct (String.eqb_spec (TrimSpace (ru_justification r)) "") as [He|]; [|done].
  destruct (rk_ceiling _ _ _ Hr Hn Ex). rewrite He in Hj. by apply (NFC_empty _ _ _ Hf Hj).
Qed.

Lemma grace_holds i kind r ceiling : rule_ok kind ceiling r -> nr_grace_days i = Some (ru_grace_days r) ->
  graceOf i kind = Ok (ru_grace_days r).
Proof.
  intros Hr Hi. destruct (rk_grace _ _ _ Hr) as [Hg0 Hg]. unfold graceOf. rewrite Hi.
  destruct (kd_marks kind) eqn:Em; cbn [negb].
  - by rewrite (proj2 (Z.ltb_ge _ _) Hg0).
  - by rewrite Hg.
Qed.

Definition warning_refused (grace : Z) : Error :=
  field_refused ErrValidation "/notify/before_days" "lifecycle.notify_beyond_grace" [("grace_days", itoa grace)].

Lemma notify_holds i kind r ceiling : rule_ok kind ceiling r -> nr_notify i = Some (ru_notify r) ->
  notifyOf i (ru_grace_days r) =
    if ru_grace_days r <? nf_before_days (ru_notify r) then Err (warning_refused (ru_grace_days r)) else Ok (ru_notify r).
Proof.
  intros Hr Hi. destruct (rk_grace _ _ _ Hr) as [Hg0 _]. unfold notifyOf, warning_refused. rewrite Hi.
  destruct (rk_notify _ _ _ Hr) as [->|(Hs & Hv & Hb0)].
  - cbn. by rewrite (proj2 (Z.ltb_ge _ _) Hg0).
  - rewrite Hs. rewrite List.Forall_forall, <- List.forallb_forall in Hv. rewrite Hv. cbn [negb].
    rewrite (proj2 (Z.ltb_ge (nf_before_days (ru_notify r)) 0)) by lia. cbn [orb]. break_match; [done|].
    by rewrite (proj2 (Z.eqb_neq (nf_before_days (ru_notify r)) 0)) by lia.
Qed.

Local Ltac settle := cbn -[TrimSpace id_is_zero FindKind rule_shape validateChain validateBounds graceOf notifyOf NFC Nat.ltb].

(** A rule that is corrected without a change stays the rule it was, its
    creation and its version kept - unless the warning it was given by default
    is longer than its grace: then no correction that leaves the two as they
    are is taken. *)
Theorem rule_resubmitted kind ceiling r form now : NormalForm form -> rule_ok kind ceiling r ->
  NFC (TrimSpace (ru_justification r)) form = Ok (ru_justification r) ->
  0 < ceiling \/ ceiling = KindCeiling kind ->
  applyTo no_patch r ceiling form now =
    if ru_grace_days r <? nf_before_days (ru_notify r) then Err (warning_refused (ru_grace_days r)) else Ok (touched r now).
Proof.
  intros Hf Hr Hj Hc. unfold applyTo, NewRule. settle. destruct (rk_named _ _ _ Hr) as [Hi Ht].
  rewrite !id_set by done. cbn [orb]. rewrite (proj1 (rk_kind _ _ _ Hr)), (rule_shape_holds _ kind r ceiling) by done. settle.
  destruct (rk_texts _ _ _ Hr) as [-> Hlen]. rewrite (proj2 (Nat.ltb_ge _ _) Hlen), (chain_holds _ kind r ceiling) by done. settle.
  rewrite (bounds_hold _ kind r ceiling) by done. settle. rewrite (grace_holds _ kind r ceiling) by done. settle.
  rewrite (notify_holds _ kind r ceiling) by done. destruct (_ <? _); [done|]. settle.
  destruct (String.eqb_spec (ru_action r) ActionExportThenDelete) as [He|]; cbn [andb].
  - rewrite id_set by (by apply (rk_export _ _ _ Hr)). by rewrite Hj.
  - by rewrite Hj.
Qed.

(** *** Which rule counts *)

(** [r] is what the loop keeps of the rules read so far. *)
Definition narrowest (P : Rule -> bool) (rules : list Rule) (r : Rule) : Prop :=
  exists before after, rules = before ++ r :: after /\ P r = true /\
    Forall (fun x => P x = true -> depth (sc_kind (ru_scope x)) < depth (sc_kind (ru_scope r))) before /\
    Forall (fun x => P x = true -> depth (sc_kind (ru_scope x)) <= depth (sc_kind (ru_scope r))) after.

Lemma narrowest_skip P rules r x : P x = false -> narrowest P (rules ++ [x]) r <-> narrowest P rules r.
Proof.
  intros Hx. split.
  - intros (b & a & He & HP & Hb & Ha). destruct a as [|y a _] using rev_ind.
    + apply app_inj_tail in He as [-> ->]. congruence.
    + rewrite app_comm_cons, app_assoc in He. apply app_inj_tail in He as [-> ->].
      exists b, a. apply Forall_app in Ha as [Ha _]. done.
  - intros (b & a & -> & HP & Hb & Ha). exists b, (a ++ [x]). rewrite <- app_assoc. split_and!; try done.
    apply Forall_app. split; [done|]. constructor; [|done]. intros. congruence.
Qed.

(** The rule in force for a place is the narrowest that applies there, and of
    several equally narrow ones the first of the list; a rule switched off, of
    another kind or of another place never is, and where one applies, one is in
    force. *)
Theorem effective_narrowest rules kind hub collection :
  match Effective rules kind hub collection with
  | Some r => narrowest (candidate_rule kind hub collection) rules r
  | None => Forall (fun r => candidate_rule kind hub collection r = false) rules
  end.
Proof.
  unfold Effective. set (P := candidate_rule kind hub collection).
  induction rules as [|x rules IH] using rev_ind; [by constructor|].
  rewrite fold_left_app. cbn [fold_left]. destruct (fold_left _ rules None) as [w|].
  - destruct (P x) eqn:Ex; cbn [negb]; [|by apply narrowest_skip].
    destruct IH as (b & a & -> & HP & Hb & Ha). unfold Narrower. destruct (Z.ltb_spec (depth (sc_kind (ru_scope w))) (depth (sc_kind (ru_scope x)))).
    + exists (b ++ w :: a), []. split_and!; try done. apply Forall_app. split; [|constructor; [done|]].
      all: eapply Forall_impl; [eassumption|]; cbn; intros y Hy Hp; specialize (Hy Hp); lia.
    + exists b, (a ++ [x]). rewrite <- app_assoc. split_and!; try done. apply Forall_app. split; [done|]. by constructor.
  - destruct (P x) eqn:Ex; cbn [negb]; [|by apply Forall_app_2; [|constructor]].
    exists rules, []. split_and!; try done. eapply Forall_impl; [exact IH|]. cbn. intros. congruence.
Qed.

(** *** What a hold reaches *)

(** A hold of this scope on this identifier covers the target. *)
Inductive covers (t : Target) : HoldScope -> ID -> Prop :=
  | covers_workspace id : covers t HoldTenant id
  | covers_inside id : id ∈ tg_containers t -> covers t HoldContainer id
  | covers_itself : covers t HoldItem (tg_item t)
  | covers_below id : id ∈ tg_ancestors t -> covers t HoldItem id
  | covers_words id : id ∈ tg_contributors t -> covers t HoldAccount id.

(** What [NewLegalHold] promises of a hold's scope. *)
Definition hold_ok (h : LegalHold) : Prop :=
  HoldScopeValid (lh_scope h) = true /\ (lh_scope h = HoldTenant <-> lh_scope_id h = "").

Lemma new_hold_ok i h : NewLegalHold i = Ok h ->
  hold_ok h /\ lh_scope h = nh_scope i /\ lh_scope_id h = nh_scope_id i /\ Released h = false.
Proof.
  unfold NewLegalHold. destruct (NFC _ _) as [reason| |]; [|done..]. cbn -[Nat.ltb].
  intros H. repeat (break_match; [done|]). injection H as <-. bools. split_and!; try done. cbn.
  unfold id_is_zero in *. destruct (String.eqb_spec (nh_scope i) HoldTenant), (String.eqb_spec (nh_scope_id i) ""); done.
Qed.

Lemma reaches_covers t h : hold_ok h -> reaches t h = true <-> covers t (lh_scope h) (lh_scope_id h).
Proof.
  intros [Hv Hs]. unfold reaches. apply contains_in in Hv. unfold id_is_zero.
  repeat (rewrite elem_of_cons in Hv). rewrite elem_of_nil in Hv. destruct Hv as [Hv|[Hv|[Hv|[Hv|[]]]]]; rewrite Hv in *; cbn.
  - split; [constructor|done].
  - destruct (String.eqb_spec (lh_scope_id h) "") as [He|]; [by apply Hs in He|]. rewrite contains_in. split; [by constructor|by inversion 1].
  - destruct (String.eqb_spec (lh_scope_id h) "") as [He|]; [by apply Hs in He|]. rewrite orb_true_iff, contains_in, String.eqb_eq. split.
    + intros [<-|]; by constructor.
    + inversion 1; [by left|by right].
  - destruct (String.eqb_spec (lh_scope_id h) "") as [He|]; [by apply Hs in He|]. rewrite contains_in. split; [by constructor|by inversion 1].
Qed.

Lemma blocking_some holds t h : Blocking holds t = Some h -> h ∈ holds /\ reaches t h = true.
Proof. unfold Blocking. intros [Hin Hr]%find_some. split; [by apply list_elem_of_In|done]. Qed.

Lemma blocking_none holds t : Blocking holds t = None <-> Forall (fun h => reaches t h = false) holds.
Proof.
  unfold Blocking. split.
  - intros H. apply List.Forall_forall. intros h Hh. by apply (find_none _ _ H).
  - induction 1 as [|h holds Hh _ IH]; [done|]. cbn. by rewrite Hh.
Qed.

(** The holds in force keep exactly what one of them covers: a hold that was
    placed covers its place whatever else is held, and nothing is kept back
    that no hold covers. *)
Theorem holds_bind holds t : Forall hold_ok holds ->
  is_Some (Blocking holds t) <-> Exists (fun h => covers t (lh_scope h) (lh_scope_id h)) holds.
Proof.
  intros Hok. rewrite List.Forall_forall in Hok. rewrite List.Exists_exists. split.
  - intros [h [Hh Hr]%blocking_some]. apply list_elem_of_In in Hh. exists h. split; [done|]. by apply reaches_covers; [apply Hok|].
  - intros (h & Hh & Hc). apply reaches_covers in Hc; [|by apply Hok]. destruct (Blocking holds t) as [h'|] eqn:E; [by eexists|].
    apply blocking_none in E. rewrite List.Forall_forall in E. rewrite E in Hc by done. done.
Qed.

Lemma reaches_without h item containers ancestors who :
  String.eqb (lh_scope h) HoldAccount && negb (id_is_zero (lh_scope_id h)) = false ->
  reaches (mkTarget item containers ancestors who) h = reaches (mkTarget item containers ancestors []) h.
Proof.
  unfold reaches. cbn [tg_contributors tg_item tg_containers tg_ancestors].
  destruct (String.eqb_spec (lh_scope h) HoldAccount) as [->|Hn]; cbn; [by intros ->%negb_false_iff|done].
Qed.

(** Who contributed is asked only where the answer matters. *)
Lemma contributors_unneeded holds item containers ancestors who : AnyOnAccounts holds = false ->
  Blocking holds (mkTarget item containers ancestors who) = Blocking holds (mkTarget item containers ancestors []).
Proof.
  unfold Blocking. induction holds as [|h holds IH]; [done|]. cbn [AnyOnAccounts existsb List.find].
  intros [H1 H2]%orb_false_iff. rewrite (reaches_without _ _ _ _ _ H1), IH by done. done.
Qed.

Lemma restricted_unneeded restricted who : RestrictedEmpty restricted = true -> restrictedAmong restricted who = false.
Proof.
  unfold RestrictedEmpty, restrictedAmong. intros ->%bool_decide_eq_true. induction who as [|a who IH]; [done|]. cbn.
  rewrite IH. unfold Has. rewrite bool_decide_eq_false_2 by set_solver. by rewrite andb_false_r.
Qed.

(** *** Periods *)

Lemma days_floor p : FloorFor (po_kind p) <= days p /\ po_retain_days p <= days p.
Proof. unfold days. destruct (Z.ltb_spec (po_retain_days p) (FloorFor (po_kind p))); lia. Qed.

(** No stored period goes below its kind's bound, and the date the trash shows
    is the one the sweep keeps to: what may go at [now] is what was shown to be
    removable by then. *)
Theorem removable_as_shown p deletedAt window now :
  PolicyCutoff p now <= add_days now (- FloorFor (po_kind p)) /\
  (deletedAt < PolicyCutoff p now /\ deletedAt <= now - window ->
   RemovableAfter p deletedAt window <= now) /\
  (RemovableAfter p deletedAt window < now ->
   deletedAt < PolicyCutoff p now /\ deletedAt <= now - window).
Proof.
  destruct (days_floor p) as [Hf _]. unfold PolicyCutoff, RemovableAfter, add_days, Day, Hour, Minute, Second, Millisecond.
  split; [nia|]. set (d := days p) in *. destruct (Z.ltb_spec (deletedAt + d * (24 * (60 * (60 * (1000 * 1000000))))) (deletedAt + window)); split; nia.
Qed.

(** The periods an upgrade starts with are the catalogue's, and the catalogue
    names a kind once. *)
Lemma catalogue_agrees :
  forallb (fun p => match FindKind (po_kind p) with
    | Some k => Swept k && (kd_default_days k =? po_retain_days p) && (kd_min_days k =? po_min_days p) && (po_min_days p <=? po_retain_days p)
    | None => false
    end) DefaultPolicies = true /\ NoDup (kd_name <$> Catalogue).
Proof. split; [by vm_compute|]. apply (bool_decide_eq_true_1 _). by vm_compute. Qed.

(** A chain's second stage counts from the column its first stage wrote, and
    that column is the anchor of a kind the sweep knows. *)
Lemma second_stage_anchored kind ceiling r : rule_ok kind ceiling r -> Chained r = true ->
  exists anchor, StageAnchor r kind true = Some anchor /\ anchor ∈ [AnchorArchivedAt; AnchorDeletedAt].
Proof.
  intros Hr Hc. unfold Chained in Hc. apply negb_true_iff, String.eqb_neq in Hc.
  destruct (rk_chain _ _ _ Hr) as [[? _]|(_ & _ & _ & _ & a & Ha)]; [done|]. exists a. split; [done|].
  unfold Leaves in Ha. repeat break_match; simplify_eq; set_solver.
Qed.

(** ** A workspace's rules, on concrete inputs *)

Definition yearly : NewRuleInput :=
  mkRuleInput "r1" "t" (mkScope ScopeTenant "") KindCompletedItem "  item.done " 365 ActionArchive 730 ActionHardDelete
    (Some 14) (Some (mkNotify 0 [RecipientItemMembers])) "" None "" "owner" 0 0 None.

Definition yearly_rule : Rule :=
  mkRule "r1" "t" (mkScope ScopeTenant "") KindCompletedItem "item.done" 365 ActionArchive 730 ActionHardDelete 14
    (mkNotify 7 [RecipientItemMembers]) "" true "" "owner" 0 0 1 no_failure.

Example yearly_written : NewRule yearly = Ok yearly_rule.
Proof. by vm_compute. Qed.


(** A rule with three days of grace that warns by default: the default is
    longer than the grace, so the rule that was just written refuses any
    correction of something else. *)
Definition hasty : NewRuleInput :=
  mkRuleInput "r2" "t" (mkScope ScopeTenant "") KindCompletedItem "" 365 ActionTrash 0 ""
    (Some 3) (Some (mkNotify 0 [RecipientItemMembers])) "" None "" "owner" 0 0 None.
Definition hasty_rule : Rule :=
  mkRule "r2" "t" (mkScope ScopeTenant "") KindCompletedItem "" 365 ActionTrash 0 "" 3
    (mkNotify 7 [RecipientItemMembers]) "" true "" "owner" 0 0 1 no_failure.

Example hasty_stuck : NewRule hasty = Ok hasty_rule /\
  applyTo (mkRulePatch None (Some 400) None None None None None None None None) hasty_rule 0 None 5 = Err (warning_refused 3).
Proof. by vm_compute. Qed.

(** A chain that ends in an export names no target to export to. *)
Example chain_without_target : match NewRule (mkRuleInput "r3" "t" (mkScope ScopeTenant "") KindCompletedItem "" 365
    ActionArchive 730 ActionExportThenDelete None None "" None "" "owner" 0 0 None) with
  | Ok r => ru_then_action r = ActionExportThenDelete /\ ru_export_target r = ""
  | _ => False
  end.
Proof. by vm_compute. Qed.

(** A broad rule on the trash is stored as an announcement, which the trash
    does not take: no correction that leaves the action is accepted. *)
Example broad_trash_stuck : match NewRule (mkRuleInput "r4" "t" (mkScope ScopeTenant "") KindTrash "" 30
    ActionHardDelete 0 "" None None "" None "" "owner" 0 0 None) with
  | Ok r => is_ok (applyTo no_patch (announced_only r) 0 None 5) = false /\ is_ok (applyTo no_patch r 0 None 5) = true
  | _ => False
  end.
Proof. by vm_compute. Qed.

Example yearly_resubmitted : applyTo no_patch yearly_rule 0 None 5 = Ok (touched yearly_rule 5).
Proof. by vm_compute. Qed.

Definition hub_hold : LegalHold := mkHold "h1" HoldContainer "hub" "case" "lawyer" 5 "" zero_time "".

Lemma holds_bind_witness :
  is_Some (Blocking [hub_hold] (mkTarget "item" ["hub"; "coll"] [] [])) <->
  Exists (fun h => covers (mkTarget "item" ["hub"; "coll"] [] []) (lh_scope h) (lh_scope_id h)) [hub_hold].
Proof. apply (holds_bind [hub_hold]). constructor; [|constructor]. split; [reflexivity|]. split; intros H; discriminate H. Defined.
