(* ===== verification/Purge.v ===== *)
(** * Purge: what leaves for good

    Models core/application/service/lifecycle/Purge.go - [Purger.Subtree], the
    removal of one entry with everything below it, and [Purger.Sweep], the pass
    over what is past its period in the trash - and the repositories they work
    on, as infrastructure/postgres/LifecycleRepository.go and
    TrashRepository.go, with their statements of db/queries/Lifecycle.sql and
    Trash.sql, answer them.

    The state is the workspace's [Server]: its entries and containers, the
    deletion journal and the tombstones, the outbox.  The foreign keys are part
    of it: an entry goes with its parent and with its collection, and a
    container that something sits in does not go.  What a pass only reads - the
    holds in force, who contributed to an entry, whose processing is restricted -
    is [Safeguards].

    The theorems: nothing a hold or a restriction covers, and nothing still in
    its period or in the offline window, is removed by a sweep; nothing is
    removed, by a cascade either, that the journal and the tombstones do not
    know; a sweep reads to its end and its paging finds what one read would. *)

From Stdlib Require Import ZArith Lia String Ascii List Bool.
From stdpp Require Import base list strings gmap fin_maps fin_sets.
From S2P Require Import Prelude Shared Effects Item Hierarchy Text Retention.

Open Scope string_scope.
Open Scope list_scope.
Open Scope Z_scope.
Open Scope effect_scope.

(** ** The state *)

(** What the lifecycle reads and writes of an entry; the last four are its
    marking ([work_item_retention]). *)
Record ItemRow := mkItemRow {
  ir_type : string; ir_parent : ID; ir_path : string; ir_depth : Z; ir_collection : ID; ir_title : string;
  ir_completed_at : option Time; ir_archived_at : option Time; ir_deleted_at : option Time; ir_trash_batch : ID;
  ir_updated_at : Time; ir_version : Z;
  ir_pending : option Time; ir_rule : ID; ir_action : string; ir_blocked_by : string
}.

Record ContainerRow := mkContainerRow { cr_hub : bool; cr_parent : ID; cr_deleted_at : option Time }.

(** The event of a purge, with what its payload says. *)
Record PurgeEvent := mkPurgeEvent {
  pe_event_id : ID; pe_tenant : ID; pe_item_id : ID; pe_type : string; pe_collection_id : ID; pe_path : string;
  pe_reason : string; pe_at : Time
}.

(** What a device is told of an entry's marking. *)
Record RetentionChange := mkRetentionChange {
  rc_entity_id : ID; rc_container_id : ID; rc_action : string; rc_effective_at : Time; rc_policy_id : ID
}.

Record RetentionWarning := mkWarning { wn_tenant : ID; wn_item : ID; wn_hub : ID; wn_collection : ID; wn_recipients : list string }.

Record AuditEntry := mkAudit {
  au_tenant : ID; au_action : string; au_target_type : string; au_target_id : ID; au_changes : list (string * string); au_at : Time
}.

Record Position := mkPosition { ps_at : Time; ps_id : ID }.

Record Server := mkServer {
  sv_items : gmap ID ItemRow;
  sv_containers : gmap ID ContainerRow;
  sv_journal : gmap (string * ID) (Time * DeletionReason);
  sv_tombstones : gmap (string * ID) (Time * Time);
  sv_outbox : list PurgeEvent;
  sv_minted : nat;
  sv_changes : list RetentionChange;
  sv_warned : list RetentionWarning;
  sv_exported : list ID;
  sv_cursors : gmap (string * (string * ID)) Position;
  sv_audit : list AuditEntry
}.

Definition with_items (w : Server) (items : gmap ID ItemRow) : Server :=
  mkServer items (sv_containers w) (sv_journal w) (sv_tombstones w) (sv_outbox w) (sv_minted w) (sv_changes w) (sv_warned w)
    (sv_exported w) (sv_cursors w) (sv_audit w).
Definition with_containers (w : Server) (containers : gmap ID ContainerRow) : Server :=
  mkServer (sv_items w) containers (sv_journal w) (sv_tombstones w) (sv_outbox w) (sv_minted w) (sv_changes w) (sv_warned w)
    (sv_exported w) (sv_cursors w) (sv_audit w).

(** What one pass reads of the rest of the workspace: the holds in force, per
    entry the accounts whose own data goes with it, the restricted people. *)
Record Safeguards := mkSafeguards {
  sg_holds : res (list LegalHold); sg_who : res (ID -> list ID); sg_restricted : option (res (list ID))
}.

Definition Active (sg : Safeguards) : M Server (list LegalHold) := lift (sg_holds sg).

(** Entries nobody contributed to are absent of the answer. *)
Definition Contributors (sg : Safeguards) (ids : list ID) : M Server (gmap ID (list ID)) :=
  who <~ lift (sg_who sg);
  ret (list_to_map (omap (fun id => match who id with [] => None | accounts => Some (id, accounts) end) ids)).

Definition contributorsOf (sg : Safeguards) (holds : list LegalHold) (restricted : gset ID) (ids : list ID) : M Server (gmap ID (list ID)) :=
  if (negb (AnyOnAccounts holds) && RestrictedEmpty restricted) || match ids with [] => true | _ => false end then ret ∅
  else Contributors sg ids.

Definition of_map (m : gmap ID (list ID)) (id : ID) : list ID := default [] (m !! id).

Definition nonZero (ids : list ID) : list ID := List.filter (fun id => negb (id_is_zero id)) ids.

(** ** The repositories *)

(** A parent's row of a container, of the join the statements make. *)
Definition hub_of (w : Server) (collection : ID) : option ID := cr_parent <$> sv_containers w !! collection.

(** LIKE over a path: identifiers and separators hold no wildcard. *)
Definition below (path : string) (r : ItemRow) : bool := str_has_prefix path (ir_path r).

Definition SubtreeIDs (w : Server) (prefix : string) : list ID :=
  fst <$> sort_by (cmp_on (fun x => ir_path (snd x)) String.compare)
    (List.filter (fun x => below prefix (snd x)) (map_to_list (sv_items w))).

(** ON DELETE CASCADE of [work_item.parent_id], followed to its end. *)
Definition with_children (items : gmap ID ItemRow) (dead : gset ID) : gset ID :=
  dead ∪ dom (filter (fun x => ir_parent (snd x) ∈ dead) items).
Definition cascade (items : gmap ID ItemRow) (dead : gset ID) : gset ID :=
  Nat.iter (size items) (with_children items) dead.
Definition without (items : gmap ID ItemRow) (dead : gset ID) : gmap ID ItemRow :=
  filter (fun x => fst x ∉ dead) items.

(** The rows the statement itself deletes are counted, those of a cascade not. *)
Definition PurgeItems (ids : list ID) : M Server Z := fun w =>
  let dead : gset ID := list_to_set ids ∩ dom (sv_items w) in
  (with_items w (without (sv_items w) (cascade (sv_items w) dead)), Ok (Z.of_nat (size dead))).

Definition query_failed : Error := WithDetail ErrUnavailable "postgres.query_failed".

(** ON DELETE RESTRICT of [container.parent_id], ON DELETE CASCADE of
    [work_item.collection_id]. *)
Definition PurgeContainers (ids : list ID) : M Server Z := fun w =>
  let dead : gset ID := list_to_set ids ∩ dom (sv_containers w) in
  if bool_decide (map_Exists (fun id c => cr_parent c ∈ dead /\ id ∉ dead) (sv_containers w)) then (w, Err query_failed)
  else
    let entries := dom (filter (fun x => ir_collection (snd x) ∈ dead) (sv_items w)) in
    (with_containers (with_items w (without (sv_items w) (cascade (sv_items w) entries)))
       (filter (fun x => fst x ∉ dead) (sv_containers w)),
     Ok (Z.of_nat (size dead))).

(** [TrashKeptBelow]: the entries below an entry; the entries in a container
    and in the containers of it; the containers of it - those not going. *)
Definition kept_of_item (w : Server) (going : list ID) (id : ID) : Z :=
  match sv_items w !! id with
  | None => 0
  | Some r => Z.of_nat (size (filter (fun x => below (ir_path r) (snd x) = true /\ fst x <> id /\ fst x ∉ going) (sv_items w)))
  end.
Definition holds_entry (w : Server) (id : ID) (r : ItemRow) : Prop :=
  ir_collection r = id \/ hub_of w (ir_collection r) = Some id.
#[export] Instance holds_entry_dec w id r : Decision (holds_entry w id r).
Proof. unfold holds_entry. apply _. Defined.
Definition kept_of_container (w : Server) (going : list ID) (id : ID) : Z :=
  match sv_containers w !! id with
  | None => 0
  | Some _ =>
      Z.of_nat (size (filter (fun x => holds_entry w id (snd x) /\ fst x ∉ going) (sv_items w))) +
      Z.of_nat (size (filter (fun x => cr_parent (snd x) = id /\ fst x ∉ going) (sv_containers w)))
  end.
Definition KeptBelow (w : Server) (going : list ID) (id : ID) : Z := kept_of_item w going id + kept_of_container w going id.

Record ExpiredItem := mkExpiredItem {
  xi_id : ID; xi_type : string; xi_path : string; xi_collection : ID; xi_hub : ID; xi_deleted_at : Time; xi_depth : Z
}.
Record ExpiredContainer := mkExpiredContainer { xc_id : ID; xc_hub : bool; xc_parent : ID; xc_deleted_at : Time }.

Definition bool_cmp (a b : bool) : comparison := match a, b with false, true => Lt | true, false => Gt | _, _ => Eq end.

(** The order of [ExpiredTrashItems]: due rows first, then deepest first. *)
Definition expired_item_key (due : Time) (e : ExpiredItem) : bool * (Z * (Time * ID)) :=
  (due <? xi_deleted_at e, (xi_depth e, (xi_deleted_at e, xi_id e))).
Definition deepest_first : bool * (Z * (Time * ID)) -> bool * (Z * (Time * ID)) -> comparison :=
  cmp_pair bool_cmp (cmp_pair (fun a b => Z.compare b a) (cmp_pair Z.compare String.compare)).

Definition expired_item (w : Server) (cutoff : Time) (x : ID * ItemRow) : option ExpiredItem :=
  match ir_deleted_at (snd x), hub_of w (ir_collection (snd x)) with
  | Some d, Some hub =>
      if d <? cutoff then
        Some (mkExpiredItem (fst x) (ir_type (snd x)) (ir_path (snd x)) (ir_collection (snd x)) hub d (ir_depth (snd x)))
      else None
  | _, _ => None
  end.

Definition all_expired_items (w : Server) (cutoff due : Time) : list ExpiredItem :=
  sort_by (cmp_on (expired_item_key due) deepest_first) (omap (expired_item w cutoff) (map_to_list (sv_items w))).

(** The order of [ExpiredTrashContainers]: due rows first, collections before
    the hubs that hold them. *)
Definition expired_container_key (due : Time) (e : ExpiredContainer) : bool * (bool * (Time * ID)) :=
  (due <? xc_deleted_at e, (xc_hub e, (xc_deleted_at e, xc_id e))).
Definition hubs_last : bool * (bool * (Time * ID)) -> bool * (bool * (Time * ID)) -> comparison :=
  cmp_pair bool_cmp (cmp_pair bool_cmp (cmp_pair Z.compare String.compare)).

Definition expired_container (cutoff : Time) (x : ID * ContainerRow) : option ExpiredContainer :=
  match cr_deleted_at (snd x) with
  | Some d => if d <? cutoff then Some (mkExpiredContainer (fst x) (cr_hub (snd x)) (cr_parent (snd x)) d) else None
  | None => None
  end.

Definition all_expired_containers (w : Server) (cutoff due : Time) : list ExpiredContainer :=
  sort_by (cmp_on (expired_container_key due) hubs_last) (omap (expired_container cutoff) (map_to_list (sv_containers w))).

Definition maxPurgeBatch : Z := 10000.
Definition batchLimit (size : Z) : Z := if size <? 1 then 1 else if maxPurgeBatch <? size then maxPurgeBatch else size.
Definition pageOffset (skip : Z) : Z := if skip <? 1 then 0 else if 2 ^ 31 - 1 <? skip then 2 ^ 31 - 1 else skip.

(** LIMIT and OFFSET. *)
Definition page_of {A} (all : list A) (skip batchSize : Z) : list A :=
  take (Z.to_nat (batchLimit batchSize)) (drop (Z.to_nat (pageOffset skip)) all).

(** [RecordDeletions] and [RecordTombstones]: what is already written stays. *)
Definition record_new {A} (rows : gmap (string * ID) A) (key : string * ID) (a : A) : gmap (string * ID) A :=
  match rows !! key with Some _ => rows | None => <[key := a]> rows end.

Definition write_removal (deletedAt purgeAfter : Time) (w : Server) (r : Removal) : Server :=
  let key := (rm_entity r, rm_entity_id r) in
  mkServer (sv_items w) (sv_containers w) (record_new (sv_journal w) key (deletedAt, rm_reason r))
    (record_new (sv_tombstones w) key (deletedAt, purgeAfter)) (sv_outbox w) (sv_minted w) (sv_changes w) (sv_warned w)
    (sv_exported w) (sv_cursors w) (sv_audit w).

(** [groupRemovals]: the reason of the first removal from a table is the reason
    of all from it. *)
Fixpoint groupRemovals (reasons : gmap string DeletionReason) (removals : list Removal) : res unit :=
  match removals with
  | [] => Ok tt
  | r :: rest =>
      if String.eqb (rm_entity r) "" || id_is_zero (rm_entity_id r) || String.eqb (rm_reason r) "" then
        Err (WithDetail ErrInternal "lifecycle.removal_incomplete")
      else
        let first := default (rm_reason r) (reasons !! rm_entity r) in
        if negb (String.eqb first (rm_reason r)) then Err (WithDetail ErrInternal "lifecycle.removal_reasons_mixed")
        else groupRemovals (<[rm_entity r := first]> reasons) rest
  end.

Definition RecordRemovals (removals : list Removal) (deletedAt purgeAfter : Time) : M Server unit :=
  match removals with
  | [] => skip
  | _ => lift (groupRemovals ∅ removals) ;; (fun w => (fold_left (write_removal deletedAt purgeAfter) removals w, Ok tt))
  end.

(** ** The outcome of a pass *)

Record Outcome := mkOutcome {
  oc_matched : Z; oc_held : Z; oc_removed : Z; oc_read : Z; oc_blocked : gmap string Z;
  oc_set_aside : gmap ID RuleFailure; oc_judged : gset ID; oc_unfinished : bool
}.

Definition no_outcome : Outcome := mkOutcome 0 0 0 0 ∅ ∅ ∅ false.

Definition count_one (blocked : gmap string Z) (reason : string) : gmap string Z :=
  <[reason := default 0 (blocked !! reason) + 1]> blocked.

Definition blocked_by (o : Outcome) (reason : string) : Outcome :=
  mkOutcome (oc_matched o) (oc_held o) (oc_removed o) (oc_read o) (count_one (oc_blocked o) reason) (oc_set_aside o)
    (oc_judged o) (oc_unfinished o).
Definition held_one (o : Outcome) : Outcome :=
  mkOutcome (oc_matched o) (oc_held o + 1) (oc_removed o) (oc_read o) (oc_blocked o) (oc_set_aside o) (oc_judged o) (oc_unfinished o).
Definition matched_one (o : Outcome) : Outcome :=
  mkOutcome (oc_matched o + 1) (oc_held o) (oc_removed o) (oc_read o) (oc_blocked o) (oc_set_aside o) (oc_judged o) (oc_unfinished o).
Definition with_removed (o : Outcome) (removed : Z) : Outcome :=
  mkOutcome (oc_matched o) (oc_held o) removed (oc_read o) (oc_blocked o) (oc_set_aside o) (oc_judged o) (oc_unfinished o).

(** ** The purger *)

Definition workItemEntity : string := "work_item".
Definition containerEntity : string := "container".

Record Actor := mkActor { ac_tenant : ID }.

Record Purger := mkPurger { pg_window : Duration; pg_batch : Z }.

Record Selection := mkSelection {
  se_cutoff : Time; se_reason : DeletionReason; se_observe_window : bool; se_observe_restrictions : bool
}.

(** What the subtree removal needs of the entry it was given. *)
Record PurgedItem := mkPurgedItem { pi_id : ID; pi_tenant : ID; pi_type : string; pi_path : string; pi_collection : ID }.

(** The state of the reading loops: what was read, what may go, the counts, and
    whether the offline window was reached in this page. *)
Record Reading (A : Type) := mkReading { rg_read : list A; rg_removable : list ID; rg_outcome : Outcome; rg_window : bool }.
Arguments mkReading {A}.
Arguments rg_read {A}.
Arguments rg_removable {A}.
Arguments rg_outcome {A}.
Arguments rg_window {A}.

Section Purger.
Context (p : Purger) (sg : Safeguards) (new_id : nat -> ID).

Definition full {A} (removable : list A) : bool := (0 <? pg_batch p) && (pg_batch p <=? Z.of_nat (List.length removable)).
Definition lastPage {A} (batchSize : Z) (page : list A) : bool :=
  (batchSize <=? 0) || (Z.of_nat (List.length page) <? batchSize).

Definition record (removals : list Removal) (now : Time) : M Server unit :=
  match removals with [] => skip | _ => RecordRemovals removals now (now + pg_window p) end.

Definition MintID : M Server ID := fun w =>
  (mkServer (sv_items w) (sv_containers w) (sv_journal w) (sv_tombstones w) (sv_outbox w) (S (sv_minted w)) (sv_changes w)
     (sv_warned w) (sv_exported w) (sv_cursors w) (sv_audit w), Ok (new_id (sv_minted w))).

Definition AppendEvent (e : PurgeEvent) : M Server unit := fun w =>
  (mkServer (sv_items w) (sv_containers w) (sv_journal w) (sv_tombstones w) (sv_outbox w ++ [e]) (sv_minted w) (sv_changes w)
     (sv_warned w) (sv_exported w) (sv_cursors w) (sv_audit w), Ok tt).

(** [NewItemPurged], whose subject is never empty. *)
Definition announce (tenant id : ID) (type : string) (collection : ID) (path reason : string) (now : Time) : M Server unit :=
  event <~ MintID;
  if id_is_zero event || id_is_zero tenant || time_is_zero now then fail (WithDetail ErrInternal "events.envelope_incomplete")
  else AppendEvent (mkPurgeEvent event tenant id type collection path reason now).

Definition legalHoldRefusal (hold : LegalHold) : Error :=
  detailed ErrConflict "lifecycle.legal_hold" [("scope", lh_scope hold)].

(** The targets a hold is asked about. *)
Definition item_target (id path : ID) (hub collection : ID) (contributors : list ID) : Target :=
  mkTarget id (nonZero [hub; collection]) (PathIDs path) contributors.
Definition container_target (c : ExpiredContainer) : Target :=
  mkTarget "" (nonZero [xc_parent c; xc_id c]) [] [].

Definition Subtree (item : PurgedItem) (hub : ID) (reason : DeletionReason) (now : Time) : M Server Z :=
  holds <~ Active sg;
  match Blocking holds (item_target (pi_id item) (pi_path item) hub (pi_collection item) []) with
  | Some hold => fail (legalHoldRefusal hold)
  | None =>
      ids <~ query (fun w => Ok (SubtreeIDs w (pi_path item)));
      match ids with
      | [] => ret 0
      | _ =>
          contributors <~ contributorsOf sg holds ∅ ids;
          for_each (fun id =>
            match Blocking holds (item_target id (pi_path item) hub (pi_collection item) (of_map contributors id)) with
            | Some hold => fail (legalHoldRefusal hold)
            | None => skip
            end) ids ;;
          record (map (fun id => mkRemoval workItemEntity id reason) ids) now ;;
          removed <~ PurgeItems ids;
          for_each (fun id => announce (pi_tenant item) id (pi_type item) (pi_collection item) (pi_path item) reason now) ids ;;
          ret removed
      end
  end.

Definition keep_held {A} (s : Reading A) (reason : string) (window : bool) : Reading A :=
  mkReading (rg_read s) (rg_removable s) (held_one (blocked_by (rg_outcome s) reason)) (window || rg_window s).

(** One row: judged, unless the batch is full, which ends the reading. *)
Definition item_verdict (holds : list LegalHold) (restricted : gset ID) (safe : Time) (contributors : list ID) (e : ExpiredItem) : option string :=
  match Blocking holds (item_target (xi_id e) (xi_path e) (xi_hub e) (xi_collection e) contributors) with
  | Some _ => Some BlockedByLegalHold
  | None =>
      if restrictedAmong restricted contributors then Some BlockedByRestriction
      else if safe <? xi_deleted_at e then Some BlockedByTombstoneWindow
      else None
  end.
Definition container_verdict (holds : list LegalHold) (safe : Time) (c : ExpiredContainer) : option string :=
  match Blocking holds (container_target c) with
  | Some _ => Some BlockedByLegalHold
  | None => if safe <? xc_deleted_at c then Some BlockedByTombstoneWindow else None
  end.

Section Reading.
Context {A : Type} (id_of : A -> ID) (verdict : gmap ID (list ID) -> A -> option string).

Definition judge (contributors : gmap ID (list ID)) (s : Reading A) (e : A) : Reading A :=
  let s := mkReading (rg_read s ++ [e]) (rg_removable s) (matched_one (rg_outcome s)) (rg_window s) in
  match verdict contributors e with
  | Some reason => keep_held s reason (String.eqb reason BlockedByTombstoneWindow)
  | None => mkReading (rg_read s) (rg_removable s ++ [id_of e]) (rg_outcome s) (rg_window s)
  end.

(** The answer's second half says that the batch was full. *)
Fixpoint judge_page (contributors : gmap ID (list ID)) (s : Reading A) (page : list A) : Reading A * bool :=
  match page with
  | [] => (s, false)
  | e :: rest => if full (rg_removable s) then (s, true) else judge_page contributors (judge contributors s e) rest
  end.

(** The loop over the pages of [all]; [asked] reads who contributed to a page.
    The fuel is a page for every row and one more. *)
Fixpoint read_pages (all : list A) (asked : list ID -> M Server (gmap ID (list ID))) (fuel : nat) (skip : Z) (s : Reading A) : M Server (Reading A) :=
  match fuel with
  | O => lift Panic
  | S fuel =>
      let page := page_of all skip (pg_batch p) in
      contributors <~ asked (map id_of page);
      let (s, ended) := judge_page contributors (mkReading (rg_read s) (rg_removable s) (rg_outcome s) false) page in
      if ended || lastPage (pg_batch p) page || rg_window s then ret s
      else read_pages all asked fuel (skip + Z.of_nat (List.length page)) s
  end.
End Reading.

Definition expiredItems (holds : list LegalHold) (restricted : gset ID) (cutoff safe : Time) (outcome : Outcome) : M Server (Reading ExpiredItem) := fun w =>
  let all := all_expired_items w cutoff safe in
  read_pages xi_id (fun contributors e => item_verdict holds restricted safe (of_map contributors (xi_id e)) e) all
    (contributorsOf sg holds restricted) (S (List.length all)) 0 (mkReading [] [] outcome false) w.

Definition expiredContainers (holds : list LegalHold) (cutoff safe : Time) (outcome : Outcome) : M Server (Reading ExpiredContainer) := fun w =>
  let all := all_expired_containers w cutoff safe in
  read_pages xc_id (fun _ c => container_verdict holds safe c) all (fun _ => ret ∅) (S (List.length all)) 0
    (mkReading [] [] outcome false) w.

Definition keepBack (candidates going : list ID) (outcome : Outcome) : M Server (list ID * Outcome) := query (fun w =>
  Ok (List.filter (fun id => negb (0 <? KeptBelow w going id)) candidates,
      fold_left (fun o id => if 0 <? KeptBelow w going id then blocked_by o BlockedByDescendant else o) candidates outcome)).

Definition Sweep (actor : Actor) (selection : Selection) (now : Time) : M Server Outcome :=
  let cutoff := se_cutoff selection in
  let reason := se_reason selection in
  holds <~ Active sg;
  restricted <~ (if se_observe_restrictions selection then lift (restrictionsOf (sg_restricted sg)) else ret ∅);
  let safe := if se_observe_window selection then now - pg_window p else now in
  items <~ expiredItems holds restricted cutoff safe no_outcome;
  containers <~ expiredContainers holds cutoff safe (rg_outcome items);
  kept <~ keepBack (rg_removable items) (rg_removable items) (rg_outcome containers);
  keptContainers <~ keepBack (rg_removable containers) (fst kept ++ rg_removable containers) (snd kept);
  record (map (fun id => mkRemoval workItemEntity id reason) (fst kept) ++
          map (fun id => mkRemoval containerEntity id reason) (fst keptContainers)) now ;;
  removedItems <~ PurgeItems (fst kept);
  removedContainers <~ PurgeContainers (fst keptContainers);
  for_each (fun e =>
    if contains (fst kept) (xi_id e) then
      announce (ac_tenant actor) (xi_id e) (xi_type e) (xi_collection e) (xi_path e) reason now
    else skip) (rg_read items) ;;
  ret (with_removed (snd keptContainers) (removedItems + removedContainers)).
End Purger.

(** ** Reading page by page *)

Section Pages.
Context (p : Purger) {A : Type} (id_of : A -> ID) (verdict : gmap ID (list ID) -> A -> option string).
Context (asked : list ID -> M Server (gmap ID (list ID))) (judged : A -> option string).

(** The read of a page's contributors changes nothing, and the verdict over its
    answer is the verdict over the truth. *)
Hypothesis asked_ok : forall ids w w' m, asked ids w = (w', Ok m) ->
  w' = w /\ forall e, id_of e ∈ ids -> verdict m e = judged e.

Definition goes (e : A) : bool := match judged e with None => true | Some _ => false end.
Definition going (es : list A) : list ID := map id_of (List.filter goes es).

Lemma going_app xs ys : going (xs ++ ys) = going xs ++ going ys.
Proof. unfold going. by rewrite List.filter_app, map_app. Qed.

Lemma judge_one m s e : verdict m e = judged e ->
  rg_read (judge id_of verdict m s e) = rg_read s ++ [e] /\
  rg_removable (judge id_of verdict m s e) = rg_removable s ++ going [e] /\
  (rg_window (judge id_of verdict m s e) = true -> rg_window s = true \/ judged e = Some BlockedByTombstoneWindow).
Proof.
  intros Hv. unfold judge. rewrite Hv. unfold going, goes. cbn. destruct (judged e) as [reason|] eqn:E; cbn.
  - rewrite app_nil_r. split_and!; try done. unfold keep_held. cbn. intros [H|H]%orb_true_iff; [|by left].
    right. apply String.eqb_eq in H. by subst.
  - split_and!; try done. by left.
Qed.

(** A page, judged: what is read is a prefix, and what is kept is what goes of it. *)
Lemma judge_page_spec m page : forall s s' ended, (forall e, e ∈ page -> verdict m e = judged e) ->
  judge_page p id_of verdict m s page = (s', ended) ->
  exists seen rest, page = seen ++ rest /\ rg_read s' = rg_read s ++ seen /\ rg_removable s' = rg_removable s ++ going seen /\
    (if ended then full p (rg_removable s') = true else rest = []) /\
    (rg_window s' = true -> rg_window s = true \/ exists e, e ∈ seen /\ judged e = Some BlockedByTombstoneWindow).
Proof.
  induction page as [|e page IH]; cbn [judge_page]; intros s s' ended Hv H.
  - injection H as <- <-. exists [], []. rewrite !app_nil_r. split_and!; try done. by left.
  - destruct (full p (rg_removable s)) eqn:Ef.
    + injection H as <- <-. exists [], (e :: page). rewrite !app_nil_r. split_and!; try done. by left.
    + destruct (judge_one m s e) as (Hr & Hk & Hw); [by apply Hv, elem_of_cons; left|].
      apply IH in H as (seen & rest & -> & H1 & H2 & He & Hw'); [|by intros x Hx; apply Hv, elem_of_cons; right].
      exists (e :: seen), rest. change (going (e :: seen)) with (going ([e] ++ seen)).
      rewrite going_app, H1, H2, Hr, Hk, <- !app_assoc. rewrite H2, Hk, <- app_assoc in He. split_and!; try done.
      intros H. destruct (Hw' H) as [H3|(x & Hx & Hj)]; [destruct (Hw H3) as [|Hj]; [by left|]|]; right.
      * exists e. split; [by apply elem_of_cons; left|done].
      * exists x. split; [by apply elem_of_cons; right|done].
Qed.

Lemma page_todo (done todo : list A) n : Z.of_nat (List.length (done ++ todo)) < 2 ^ 31 ->
  page_of (done ++ todo) (Z.of_nat (List.length done)) n = take (Z.to_nat (batchLimit n)) todo.
Proof.
  rewrite length_app. intros H. unfold page_of. f_equal.
  assert (pageOffset (Z.of_nat (List.length done)) = Z.of_nat (List.length done)) as ->.
  { unfold pageOffset. destruct (Z.ltb_spec (Z.of_nat (List.length done)) 1); [lia|].
    destruct (Z.ltb_spec (2 ^ 31 - 1) (Z.of_nat (List.length done))); lia. }
  rewrite Nat2Z.id. by rewrite drop_app_length.
Qed.

Definition batch_served : Prop := 1 <= pg_batch p <= maxPurgeBatch.

Lemma last_page (todo : list A) : batch_served -> lastPage (pg_batch p) (take (Z.to_nat (batchLimit (pg_batch p))) todo) = true ->
  take (Z.to_nat (batchLimit (pg_batch p))) todo = todo.
Proof.
  unfold batch_served, lastPage, batchLimit. intros [Hb1 Hb2].
  rewrite (proj2 (Z.ltb_ge (pg_batch p) 1)), (proj2 (Z.ltb_ge maxPurgeBatch (pg_batch p))), (proj2 (Z.leb_gt (pg_batch p) 0)) by lia.
  rewrite length_take. intros H%Z.ltb_lt. apply take_ge. lia.
Qed.

(** Where the reading may stop before the last row. *)
Definition stopped (s : Reading A) : Prop :=
  full p (rg_removable s) = true \/ ~ batch_served \/ exists e, e ∈ rg_read s /\ judged e = Some BlockedByTombstoneWindow.

(** What a reading that answers has read: a prefix of the rows, of which it
    kept what goes. *)
Lemma pages_spec all : Z.of_nat (List.length all) < 2 ^ 31 -> forall fuel done todo s w w' s',
  all = done ++ todo -> rg_read s = done -> rg_removable s = going done ->
  read_pages p id_of verdict all asked fuel (Z.of_nat (List.length done)) s w = (w', Ok s') ->
  w' = w /\ exists seen rest, all = seen ++ rest /\ rg_read s' = seen /\ rg_removable s' = going seen /\ (rest = [] \/ stopped s').
Proof.
  intros Hlen. induction fuel as [|fuel IH]; cbn [read_pages]; [done|]. intros done todo s w w' s' Hall Hread Hrem H.
  rewrite Hall, page_todo in H by (by rewrite <- Hall). set (page := take _ todo) in H.
  apply bind_run in H as (m & w1 & Hask & H). destruct (asked_ok _ _ _ _ Hask) as [-> Hv].
  destruct (judge_page _ _ _ _ _ _) as [s1 ended] eqn:Ej.
  apply judge_page_spec in Ej as (seen & rest & Hpage & H1 & H2 & Hended & Hw).
  2: { intros e He. apply Hv. by apply list_elem_of_fmap_2. }
  cbn in H1, H2, Hw. rewrite Hread in H1. rewrite Hrem, <- going_app in H2.
  assert (all = (done ++ seen) ++ rest ++ drop (Z.to_nat (batchLimit (pg_batch p))) todo) as Hsplit.
  { rewrite Hall, <- app_assoc. f_equal. rewrite app_assoc, <- Hpage. unfold page. by rewrite take_drop. }
  destruct (ended || _ || _) eqn:Estop.
  - injection H as <- <-. split; [done|]. exists (done ++ seen), (rest ++ drop (Z.to_nat (batchLimit (pg_batch p))) todo). split_and!; try done.
    unfold stopped. destruct ended; [by right; left|]. subst rest. rewrite app_nil_r in Hpage. cbn [orb] in Estop.
    apply orb_true_iff in Estop as [Elast|Ewin].
    + destruct (decide batch_served) as [Hb|]; [|by right; right; left]. left. apply last_page in Elast; [|done].
      assert (List.length (drop (Z.to_nat (batchLimit (pg_batch p))) todo) = 0)%nat as E0; [|by destruct (drop _ todo)].
      rewrite length_drop. apply (f_equal List.length) in Elast. rewrite length_take in Elast. lia.
    + right; right; right. destruct (Hw Ewin) as [|(e & He & Hj)]; [done|]. exists e. rewrite H1. split; [by apply elem_of_app; right|done].
  - apply orb_false_iff in Estop as [[-> _]%orb_false_iff _]. subst rest. rewrite app_nil_r in Hpage. cbn [app] in Hsplit.
    apply (IH (done ++ seen) (drop (Z.to_nat (batchLimit (pg_batch p))) todo) s1 _ _ s'); try done.
    rewrite <- Hall in H. rewrite length_app, Nat2Z.inj_add, <- Hpage. exact H.
Qed.

(** The reading ends and answers: every page that is not the last has a row. *)
Lemma pages_total all : (forall ids w, exists m, asked ids w = (w, Ok m)) -> Z.of_nat (List.length all) < 2 ^ 31 ->
  forall fuel done todo s w, all = done ++ todo -> (List.length todo < fuel)%nat ->
  exists s', read_pages p id_of verdict all asked fuel (Z.of_nat (List.length done)) s w = (w, Ok s').
Proof.
  intros Hask Hlen. induction fuel as [|fuel IH]; intros done todo s w Hall Hfuel; [lia|]. cbn [read_pages].
  rewrite Hall, page_todo by (by rewrite <- Hall). rewrite <- Hall. set (page := take _ todo). unfold bind.
  destruct (Hask (map id_of page) w) as [m ->].
  destruct (judge_page _ _ _ _ _ _) as [s1 ended]. destruct (ended || _ || _) eqn:Estop; [by eexists|].
  apply orb_false_iff in Estop as [[_ Elast]%orb_false_iff _]. unfold lastPage in Elast.
  apply orb_false_iff in Elast as [Hb%Z.leb_gt Hp%Z.ltb_ge].
  rewrite <- Nat2Z.inj_add, <- length_app.
  apply (IH (done ++ page) (drop (List.length page) todo)).
  - rewrite <- app_assoc. unfold page. rewrite length_take. rewrite Hall. f_equal.
    destruct (Nat.min_spec (Z.to_nat (batchLimit (pg_batch p))) (List.length todo)) as [[_ ->]|[Hle ->]]; [by rewrite take_drop|].
    by rewrite drop_all, take_ge, app_nil_r.
  - assert (List.length page <= List.length todo)%nat by (unfold page; rewrite length_take; lia). rewrite length_drop. lia.
Qed.

(** Rows the offline window keeps come after every row that goes. *)
Definition window_last (all : list A) : Prop := forall seen e rest, all = seen ++ e :: rest ->
  judged e = Some BlockedByTombstoneWindow -> going rest = [].

(** No more is kept than the batch. *)
Definition bounded (s : Reading A) : Prop := 0 < pg_batch p -> Z.of_nat (List.length (rg_removable s)) <= pg_batch p.

Lemma judge_page_bounded m page : forall s, bounded s -> bounded (fst (judge_page p id_of verdict m s page)).
Proof.
  induction page as [|e page IH]; cbn [judge_page]; intros s Hs; [done|].
  destruct (full p (rg_removable s)) eqn:Ef; [done|]. apply IH. intros Hb. specialize (Hs Hb).
  unfold full in Ef. apply Z.ltb_lt in Hb. rewrite Hb in Ef. apply Z.leb_gt in Ef.
  unfold judge. destruct (verdict m e); cbn; [lia|]. rewrite length_app. cbn. lia.
Qed.

Lemma pages_bounded all fuel : forall skip s w w' s', bounded s ->
  read_pages p id_of verdict all asked fuel skip s w = (w', Ok s') -> bounded s'.
Proof.
  induction fuel as [|fuel IH]; cbn [read_pages]; [done|]. intros skip s w w' s' Hs H.
  apply bind_run in H as (m & w1 & _ & H).
  pose proof (judge_page_bounded m (page_of all skip (pg_batch p)) (mkReading (rg_read s) (rg_removable s) (rg_outcome s) false) Hs) as Hj.
  destruct (judge_page _ _ _ _ _ _) as [s1 ended]. destruct (ended || _ || _); [by injection H as <- <-|by eapply IH].
Qed.

(** Paging finds what one read would: what may go is the first batch of all
    that go, however many rows before them a hold keeps. *)
Lemma pages_first_batch all fuel w w' s outcome : batch_served -> window_last all -> Z.of_nat (List.length all) < 2 ^ 31 ->
  read_pages p id_of verdict all asked fuel 0 (mkReading [] [] outcome false) w = (w', Ok s) ->
  rg_removable s = firstn (Z.to_nat (pg_batch p)) (going all).
Proof.
  intros Hb Hwin Hlen H. assert (bounded s) as Hbound.
  { eapply pages_bounded; [|exact H]. intros ?. cbn. lia. }
  apply (pages_spec all Hlen fuel [] all) in H as [_ (seen & rest & -> & Hr & Hk & Hend)]; [|done..].
  specialize (Hbound ltac:(destruct Hb; lia)). rewrite Hk in *. rewrite going_app, firstn_app.
  rewrite (firstn_all2 (going seen)) by lia. destruct Hend as [->|[Hfull|[?|(e & He & Hj)]]]; [|..|done|].
  - unfold going. cbn. by rewrite firstn_nil, app_nil_r.
  - unfold full in Hfull. apply andb_true_iff in Hfull as [_ Hfull%Z.leb_le]. rewrite Hk in Hfull.
    replace (Z.to_nat (pg_batch p) - _)%nat with 0%nat by lia. by rewrite app_nil_r.
  - rewrite Hr in He. apply list_elem_of_split in He as (a & b & ->).
    assert (going (b ++ rest) = []) as Hnil by (apply (Hwin a e); [by rewrite <- app_assoc|done]).
    rewrite going_app in Hnil. apply app_eq_nil in Hnil as [_ ->]. by rewrite firstn_nil, app_nil_r.
Qed.
End Pages.

(** ** What a sweep reads *)

#[export] Instance bool_total_compare : TotalCompare bool_cmp.
Proof. split; [intros [] []|intros [] []|intros [] [] []]; done. Qed.
#[export] Instance flip_total_compare : TotalCompare (fun a b : Z => Z.compare b a).
Proof. apply cmp_flip_total. apply _. Qed.
#[export] Instance deepest_first_total : TotalCompare deepest_first.
Proof. unfold deepest_first. apply _. Qed.
#[export] Instance hubs_last_total : TotalCompare hubs_last.
Proof. unfold hubs_last. apply _. Qed.

Lemma in_expired_items w cutoff due e : e ∈ all_expired_items w cutoff due <->
  exists r hub, sv_items w !! xi_id e = Some r /\ hub_of w (ir_collection r) = Some hub /\
    ir_deleted_at r = Some (xi_deleted_at e) /\ xi_deleted_at e < cutoff /\
    e = mkExpiredItem (xi_id e) (ir_type r) (ir_path r) (ir_collection r) hub (xi_deleted_at e) (ir_depth r).
Proof.
  unfold all_expired_items. rewrite sort_by_perm by apply _. rewrite list_elem_of_omap. split.
  - intros ([id r] & Hin & He). apply elem_of_map_to_list in Hin. unfold expired_item in He. cbn in He.
    destruct (ir_deleted_at r) as [d|] eqn:Ed; [|done]. destruct (hub_of w _) as [hub|] eqn:Eh; [|done].
    destruct (Z.ltb_spec d cutoff); [|done]. injection He as <-. cbn. by exists r, hub.
  - intros (r & hub & Hr & Hh & Hd & Hlt & He). exists (xi_id e, r). split; [by apply elem_of_map_to_list|].
    unfold expired_item. cbn. rewrite Hd, Hh. apply Z.ltb_lt in Hlt. by rewrite Hlt, He.
Qed.

Lemma in_expired_containers w cutoff due e : e ∈ all_expired_containers w cutoff due <->
  exists r, sv_containers w !! xc_id e = Some r /\ cr_deleted_at r = Some (xc_deleted_at e) /\ xc_deleted_at e < cutoff /\
    e = mkExpiredContainer (xc_id e) (cr_hub r) (cr_parent r) (xc_deleted_at e).
Proof.
  unfold all_expired_containers. rewrite sort_by_perm by apply _. rewrite list_elem_of_omap. split.
  - intros ([id r] & Hin & He). apply elem_of_map_to_list in Hin. unfold expired_container in He. cbn in He.
    destruct (cr_deleted_at r) as [d|] eqn:Ed; [|done]. destruct (Z.ltb_spec d cutoff); [|done]. injection He as <-. cbn. by exists r.
  - intros (r & Hr & Hd & Hlt & He). exists (xc_id e, r). split; [by apply elem_of_map_to_list|].
    unfold expired_container. cbn. rewrite Hd. apply Z.ltb_lt in Hlt. by rewrite Hlt, He.
Qed.

Lemma of_map_in (who : ID -> list ID) ids id : id ∈ ids ->
  of_map (list_to_map (omap (fun id => match who id with [] => None | accounts => Some (id, accounts) end) ids)) id = who id.
Proof.
  unfold of_map. induction ids as [|x ids IH]; intros Hin; [by apply elem_of_nil in Hin|]. cbn [omap list_omap].
  destruct (decide (x = id)) as [->|Hne].
  - destruct (who id) as [|a accounts] eqn:E.
    + destruct (decide (id ∈ ids)) as [Hin'|Hnin]; [by apply IH|].
      rewrite not_elem_of_list_to_map_1; [done|]. intros (y & Hy & Hin')%list_elem_of_fmap.
      apply list_elem_of_omap in Hin' as (z & Hz & Ez). destruct (who z); [done|]. injection Ez as <-. cbn in Hy. by subst.
    + cbn. by rewrite lookup_insert_eq.
  - apply elem_of_cons in Hin as [|Hin]; [done|]. specialize (IH Hin). destruct (who x); [done|]. cbn.
    by rewrite lookup_insert_ne.
Qed.

(** Whose data goes with an entry, as the read answers where it is asked. *)
Definition contributed (sg : Safeguards) (id : ID) : list ID :=
  match sg_who sg with Ok who => who id | _ => [] end.

Lemma contributorsOf_ok sg holds restricted ids w w' m : contributorsOf sg holds restricted ids w = (w', Ok m) ->
  w' = w /\ forall id, id ∈ ids -> of_map m id = contributed sg id \/ (AnyOnAccounts holds = false /\ RestrictedEmpty restricted = true).
Proof.
  unfold contributorsOf. destruct (_ || _) eqn:E.
  - intros [= <- <-]. split; [done|]. intros id Hid. apply orb_true_iff in E as [E|E].
    + right. apply andb_true_iff in E as [E%negb_true_iff ->]. done.
    + destruct ids; [by apply elem_of_nil in Hid|done].
  - unfold Contributors, contributed. intros H. runs. rewrite H0. split; [done|]. intros id Hid. left. by apply of_map_in.
Qed.

Lemma item_verdict_known sg holds restricted safe m e :
  of_map m (xi_id e) = contributed sg (xi_id e) \/ (AnyOnAccounts holds = false /\ RestrictedEmpty restricted = true) ->
  item_verdict holds restricted safe (of_map m (xi_id e)) e = item_verdict holds restricted safe (contributed sg (xi_id e)) e.
Proof.
  intros [->|[Ha Hr]]; [done|]. unfold item_verdict, item_target.
  rewrite (contributors_unneeded _ _ _ _ (of_map m (xi_id e)) Ha), (contributors_unneeded _ _ _ _ (contributed sg (xi_id e)) Ha).
  by rewrite !(restricted_unneeded _ _ Hr).
Qed.

(** ** What the foreign keys promise *)

Record store_ok (w : Server) : Prop := {
  so_ids : sv_items w !! "" = None /\ sv_containers w !! "" = None;
  so_parent : forall id r, sv_items w !! id = Some r -> ir_parent r <> "" ->
    exists q, sv_items w !! ir_parent r = Some q /\ below (ir_path q) r = true;
  so_collection : forall id r, sv_items w !! id = Some r -> is_Some (sv_containers w !! ir_collection r);
  so_levels : forall id c, sv_containers w !! id = Some c -> cr_parent c <> "" ->
    exists h, sv_containers w !! cr_parent c = Some h /\ cr_parent h = "";
  so_apart : forall id, is_Some (sv_items w !! id) -> sv_containers w !! id = None;
  so_size : Z.of_nat (size (sv_items w)) < 2 ^ 31 /\ Z.of_nat (size (sv_containers w)) < 2 ^ 31
}.

Lemma below_trans a b r : below a b = true -> below (ir_path b) r = true -> below a r = true.
Proof.
  unfold below. intros H1 H2. apply has_prefix_split in H1, H2. rewrite H2, H1, <- str_app_assoc. apply has_prefix_app.
Qed.

(** A set of entries with their children has nothing left for a cascade. *)
Definition closed_below (items : gmap ID ItemRow) (dead : gset ID) : Prop :=
  forall id r, items !! id = Some r -> ir_parent r ∈ dead -> id ∈ dead.

Lemma cascade_closed items dead : closed_below items dead -> cascade items dead = dead.
Proof.
  intros Hc. unfold cascade. assert (with_children items dead = dead) as Hfix.
  { unfold with_children. apply leibniz_equiv. intros x. rewrite elem_of_union, elem_of_dom. split; [|by left].
    intros [|[r Hr]]; [done|]. apply map_lookup_filter_Some in Hr as [Hr Hp]. by eapply Hc. }
  induction (size items) as [|n IH]; [done|]. cbn. unfold Nat.iter in IH. by rewrite IH.
Qed.

Lemma kept_nothing {A} (m : gmap ID A) (P : ID * A -> Prop) (HP : forall x, Decision (P x)) :
  Z.of_nat (size (filter P m)) = 0 <-> forall id r, m !! id = Some r -> ~ P (id, r).
Proof.
  rewrite <- Nat2Z.inj_0, Nat2Z.inj_iff, map_size_empty_iff. split.
  - intros H id r Hr Hp. assert (filter P m !! id = Some r) as Hf by (by apply map_lookup_filter_Some). by rewrite H in Hf.
  - intros H. apply map_empty. intros id. apply map_lookup_filter_None. right. intros r Hr. by apply H.
Qed.

Lemma kept_item w going id r : sv_items w !! id = Some r -> kept_of_item w going id = 0 <->
  forall x q, sv_items w !! x = Some q -> below (ir_path r) q = true -> x <> id -> x ∈ going.
Proof.
  intros Hr. unfold kept_of_item. rewrite Hr, kept_nothing. cbn. split.
  - intros H x q Hq Hb Hne. destruct (decide (x ∈ going)) as [|Hn]; [done|]. by destruct (H x q Hq).
  - intros H x q Hq (Hb & Hne & Hn). by apply Hn, (H x q).
Qed.

Lemma kept_container w going id c : sv_containers w !! id = Some c -> kept_of_container w going id = 0 <->
  (forall x r, sv_items w !! x = Some r -> holds_entry w id r -> x ∈ going) /\
  (forall x k, sv_containers w !! x = Some k -> cr_parent k = id -> x ∈ going).
Proof.
  intros Hc. unfold kept_of_container. rewrite Hc. split.
  - intros H. assert (Z.of_nat (size (filter (fun x => holds_entry w id (snd x) /\ fst x ∉ going) (sv_items w))) = 0) as H1 by lia.
    assert (Z.of_nat (size (filter (fun x => cr_parent (snd x) = id /\ fst x ∉ going) (sv_containers w))) = 0) as H2 by lia.
    pose proof (proj1 (kept_nothing (sv_items w) _ _) H1) as H3. pose proof (proj1 (kept_nothing (sv_containers w) _ _) H2) as H4. cbn in H3, H4. split; intros x r Hr Hh.
    + destruct (decide (x ∈ going)) as [|Hn]; [done|]. by destruct (H3 x r Hr).
    + destruct (decide (x ∈ going)) as [|Hn]; [done|]. by destruct (H4 x r Hr).
  - intros [H1 H2]. rewrite (proj2 (kept_nothing _ _ _)), (proj2 (kept_nothing _ _ _)); [done|..]; cbn; intros x r Hr [Hh Hn]; by eauto.
Qed.

Lemma kept_nonneg w going id : 0 <= kept_of_item w going id /\ 0 <= kept_of_container w going id.
Proof. unfold kept_of_item, kept_of_container. split; repeat break_match; lia. Qed.

(** What a sweep keeps of its candidates: those with nothing staying below. *)
Definition spared (w : Server) (going candidates : list ID) : list ID :=
  List.filter (fun id => negb (0 <? KeptBelow w going id)) candidates.

Lemma in_spared w going candidates id : id ∈ spared w going candidates <->
  id ∈ candidates /\ kept_of_item w going id = 0 /\ kept_of_container w going id = 0.
Proof.
  unfold spared. rewrite !list_elem_of_In, filter_In, negb_true_iff, Z.ltb_ge. unfold KeptBelow.
  pose proof (kept_nonneg w going id). intuition lia.
Qed.

(** The entries spared are closed: a cascade takes nothing with them. *)
Lemma spared_items_closed w candidates : store_ok w -> Forall (fun id => is_Some (sv_items w !! id)) candidates ->
  closed_below (sv_items w) (list_to_set (spared w candidates candidates) ∩ dom (sv_items w)).
Proof.
  intros Hok Hc id r Hr Hp. rewrite List.Forall_forall in Hc.
  apply elem_of_intersection in Hp as [Hp _]. apply elem_of_list_to_set, in_spared in Hp as (Hpc & Hpi & _).
  assert (is_Some (sv_items w !! ir_parent r)) as [q Hq] by (by apply Hc, list_elem_of_In).
  assert (ir_parent r <> "") as Hne by (intros He; rewrite He, (proj1 (so_ids _ Hok)) in Hq; done).
  destruct (so_parent _ Hok _ _ Hr Hne) as (q' & Hq' & Hb). assert (q' = q) as -> by congruence.
  apply elem_of_intersection. split; [|by apply elem_of_dom]. apply elem_of_list_to_set, in_spared.
  rewrite (kept_item _ _ _ q Hq) in Hpi.
  assert (id ∈ candidates) as Hid by (destruct (decide (id = ir_parent r)) as [->|]; [done|by eapply Hpi]).
  split; [done|]. split.
  - apply (kept_item _ _ _ r Hr). intros x y Hy Hby Hxy. destruct (decide (x = ir_parent r)) as [->|Hx]; [done|].
    apply (Hpi x y Hy); [by eapply below_trans|done].
  - unfold kept_of_container. by rewrite (so_apart _ Hok id).
Qed.

(** ** The removals *)

Definition gone {A} (m : gmap ID A) (ids : list ID) : gmap ID A := filter (fun x => fst x ∉ ids) m.

Lemma gone_lookup {A} (m : gmap ID A) ids id : gone m ids !! id = if decide (id ∈ ids) then None else m !! id.
Proof.
  unfold gone. destruct (decide (id ∈ ids)) as [Hin|Hn].
  - apply map_lookup_filter_None. right. intros x _. cbn. tauto.
  - destruct (m !! id) as [a|] eqn:E.
    + by apply map_lookup_filter_Some.
    + apply map_lookup_filter_None. by left.
Qed.

Lemma gone_as {A} (m : gmap ID A) ids : filter (fun x => fst x ∉ (list_to_set ids ∩ dom m : gset ID)) m = gone m ids.
Proof.
  apply map_eq. intros id. rewrite gone_lookup. destruct (decide (id ∈ ids)) as [Hin|Hn].
  - apply map_lookup_filter_None. right. intros a Ha Hnin. apply Hnin, elem_of_intersection.
    split; [by apply elem_of_list_to_set|by apply elem_of_dom].
  - destruct (m !! id) as [a|] eqn:E.
    + apply map_lookup_filter_Some. split; [done|]. cbn. intros [H _]%elem_of_intersection. by apply elem_of_list_to_set in H.
    + apply map_lookup_filter_None. by left.
Qed.

Lemma gone_size {A} (m : gmap ID A) ids :
  Z.of_nat (size (list_to_set ids ∩ dom m : gset ID)) = Z.of_nat (size m) - Z.of_nat (size (gone m ids)).
Proof.
  assert (dom (gone m ids) = dom m ∖ (list_to_set ids ∩ dom m : gset ID)) as Hd.
  { apply leibniz_equiv. intros x. rewrite elem_of_difference, elem_of_intersection, elem_of_list_to_set, !elem_of_dom, gone_lookup.
    destruct (decide (x ∈ ids)); split; [intros [? ?]; done|tauto|tauto|tauto]. }
  rewrite <- (size_dom (D := gset ID) m), <- (size_dom (D := gset ID) (gone m ids)), Hd.
  rewrite (size_difference (A := ID) (C := gset ID) (dom m) (list_to_set ids ∩ dom m)) by set_solver.
  assert (size (list_to_set ids ∩ dom m : gset ID) <= size (dom m))%nat by (apply subseteq_size; set_solver). lia.
Qed.

Lemma purge_items_run w ids : closed_below (sv_items w) (list_to_set ids ∩ dom (sv_items w)) ->
  PurgeItems ids w = (with_items w (gone (sv_items w) ids), Ok (Z.of_nat (size (sv_items w)) - Z.of_nat (size (gone (sv_items w) ids)))).
Proof. intros Hc. unfold PurgeItems, without. by rewrite cascade_closed, gone_as, gone_size. Qed.

(** Containers nothing sits in go alone. *)
Lemma purge_containers_run w ids :
  (forall x k, sv_containers w !! x = Some k -> cr_parent k ∈ ids -> is_Some (sv_containers w !! cr_parent k) -> x ∈ ids) ->
  (forall x r, sv_items w !! x = Some r -> ir_collection r ∉ ids) ->
  PurgeContainers ids w = (with_containers w (gone (sv_containers w) ids),
    Ok (Z.of_nat (size (sv_containers w)) - Z.of_nat (size (gone (sv_containers w) ids)))).
Proof.
  intros Hc Hi. unfold PurgeContainers. rewrite bool_decide_eq_false_2.
  - assert (filter (fun x => ir_collection (snd x) ∈ (list_to_set ids ∩ dom (sv_containers w) : gset ID)) (sv_items w) = ∅) as ->.
    { apply map_empty. intros x. apply map_lookup_filter_None. right. intros r Hr. cbn.
      intros [H _]%elem_of_intersection. apply elem_of_list_to_set in H. by apply (Hi x r). }
    rewrite dom_empty_L, cascade_closed by (intros x r _ Hx; by apply elem_of_empty in Hx).
    rewrite gone_as, gone_size. f_equal. unfold with_containers, with_items, without. cbn. f_equal.
    apply map_eq. intros x. destruct (sv_items w !! x) as [r|] eqn:E.
    + apply map_lookup_filter_Some. split; [done|]. cbn. set_solver.
    + apply map_lookup_filter_None. by left.
  - intros (x & k & Hk & Hp & Hn). apply elem_of_intersection in Hp as [Hp Hd].
    apply Hn, elem_of_intersection. split; [|by apply elem_of_dom]. apply elem_of_list_to_set in Hp. apply elem_of_list_to_set.
    apply (Hc x k Hk Hp). by apply elem_of_dom.
Qed.

(** What a purge does not touch: everything but the outbox and the minted. *)
Definition same_rows (w w' : Server) : Prop :=
  sv_items w' = sv_items w /\ sv_containers w' = sv_containers w /\ sv_journal w' = sv_journal w /\ sv_tombstones w' = sv_tombstones w.

#[export] Instance same_rows_preorder : PreOrder same_rows.
Proof. split; [by intros w|]. intros a b c (H1 & H2 & H3 & H4) (G1 & G2 & G3 & G4). unfold same_rows. by rewrite G1, G2, G3, G4. Qed.

Definition announced (w : Server) (id : ID) : Prop := exists e, e ∈ sv_outbox w /\ pe_item_id e = id.

Lemma announce_kept new_id tenant id type collection path reason now w w' :
  announce new_id tenant id type collection path reason now w = (w', Ok tt) ->
  same_rows w w' /\ announced w' id /\ (forall x, announced w x -> announced w' x).
Proof.
  unfold announce. intros H. runs. unfold MintID in H0. injection H0 as <- <-. destruct (_ || _); [done|].
  injection H as <-. split; [by unfold same_rows|]. unfold announced. cbn. split.
  - eexists. split; [apply elem_of_app; right; by left|done].
  - intros x (e & He & Hx). exists e. split; [by apply elem_of_app; left|done].
Qed.

Lemma announcements_run {X} (f : X -> M Server unit) (id_of : X -> ID) (P : X -> bool) :
  (forall x w w', P x = false -> f x w = (w', Ok tt) -> w' = w) ->
  (forall x w w', P x = true -> f x w = (w', Ok tt) ->
     same_rows w w' /\ announced w' (id_of x) /\ (forall y, announced w y -> announced w' y)) ->
  forall xs w w', for_each f xs w = (w', Ok tt) ->
  same_rows w w' /\ (forall x, x ∈ xs -> P x = true -> announced w' (id_of x)) /\ (forall y, announced w y -> announced w' y).
Proof.
  intros Hskip Hf. induction xs as [|x xs IH]; cbn [for_each]; intros w w' H.
  - injection H as <-. split; [done|]. split; [by intros x Hx%elem_of_nil|done].
  - apply bind_run in H as ([] & w1 & Hx & H). apply IH in H as (Hs & Hall & Hkeep). destruct (P x) eqn:E.
    + apply Hf in Hx as (Hs1 & Hann & Hk); [|done]. split; [by transitivity w1|]. split; [|by eauto].
      intros y [->|Hy]%elem_of_cons HPy; [by apply Hkeep|by apply Hall].
    + apply Hskip in Hx as ->; [|done]. split; [done|]. split; [|done].
      intros y [->|Hy]%elem_of_cons HPy; [congruence|by apply Hall].
Qed.

Definition recorded (w : Server) (entity : string) (id : ID) : Prop :=
  is_Some (sv_journal w !! (entity, id)) /\ is_Some (sv_tombstones w !! (entity, id)).

Lemma record_new_lookup {A} (rows : gmap (string * ID) A) key a k :
  record_new rows key a !! k = match rows !! k with Some v => Some v | None => if decide (k = key) then Some a else None end.
Proof.
  unfold record_new. destruct (rows !! key) as [v|] eqn:E.
  - destruct (decide (k = key)) as [->|]; [by rewrite E|by destruct (rows !! k)].
  - destruct (decide (k = key)) as [->|Hne]; [by rewrite lookup_insert_eq, E|rewrite lookup_insert_ne by done; by destruct (rows !! k)].
Qed.

(** Every removal is in both records afterwards; what was there stays, and the
    new tombstones last for the window. *)
Lemma write_removals at_ until removals : forall w, let w' := fold_left (write_removal at_ until) removals w in
  sv_items w' = sv_items w /\ sv_containers w' = sv_containers w /\ sv_outbox w' = sv_outbox w /\
  (forall r, r ∈ removals -> recorded w' (rm_entity r) (rm_entity_id r)) /\
  (forall e x, recorded w e x -> recorded w' e x) /\
  (forall k v, sv_tombstones w' !! k = Some v -> sv_tombstones w !! k = Some v \/ v = (at_, until)).
Proof.
  induction removals as [|r removals IH]; cbn [fold_left]; intros w.
  - split_and!; try done; [by intros r Hr%elem_of_nil|by left].
  - destruct (IH (write_removal at_ until w r)) as (H1 & H2 & H3 & H4 & H5 & H6). clear IH.
    assert (forall e x, recorded w e x -> recorded (write_removal at_ until w r) e x) as Hkeep.
    { intros e x [[a Ha] [b Hb]]. split; cbn; rewrite record_new_lookup; [rewrite Ha|rewrite Hb]; by eexists. }
    split_and!; try done.
    + intros x [->|Hx]%elem_of_cons; [|by apply H4]. apply H5. split; cbn; rewrite record_new_lookup.
      * destruct (sv_journal w !! _); [by eexists|]. rewrite decide_True by done. by eexists.
      * destruct (sv_tombstones w !! _); [by eexists|]. rewrite decide_True by done. by eexists.
    + intros e x Hx. by apply H5, Hkeep.
    + intros k v Hv. destruct (H6 k v Hv) as [Hk|]; [|by right]. cbn in Hk. rewrite record_new_lookup in Hk.
      destruct (sv_tombstones w !! k); [by left|]. destruct (decide _); [|done]. injection Hk as <-. by right.
Qed.

Lemma record_run p removals now w w' : record p removals now w = (w', Ok tt) ->
  sv_items w' = sv_items w /\ sv_containers w' = sv_containers w /\ sv_outbox w' = sv_outbox w /\
  (forall r, r ∈ removals -> recorded w' (rm_entity r) (rm_entity_id r)) /\
  (forall e x, recorded w e x -> recorded w' e x) /\
  (forall k v, sv_tombstones w' !! k = Some v -> sv_tombstones w !! k = Some v \/ v = (now, now + pg_window p)).
Proof.
  unfold record, RecordRemovals. destruct removals as [|r removals].
  - intros [= <-]. split_and!; try done; [by intros r Hr%elem_of_nil|by left].
  - intros H. runs. injection H as <-. apply (write_removals now (now + pg_window p) (r :: removals)).
Qed.

Section Sweeping.
Context (p : Purger) (sg : Safeguards) (new_id : nat -> ID).

Lemma expired_length w cutoff due : (List.length (all_expired_items w cutoff due) <= size (sv_items w))%nat.
Proof.
  unfold all_expired_items. rewrite (Permutation_length (sort_by_perm (expired_item_key due) deepest_first _)).
  rewrite <- length_map_to_list. induction (map_to_list (sv_items w)) as [|x l IH]; [done|]. cbn.
  destruct (expired_item w cutoff x); cbn; lia.
Qed.

Lemma expired_containers_length w cutoff due : (List.length (all_expired_containers w cutoff due) <= size (sv_containers w))%nat.
Proof.
  unfold all_expired_containers. rewrite (Permutation_length (sort_by_perm (expired_container_key due) hubs_last _)).
  rewrite <- length_map_to_list. induction (map_to_list (sv_containers w)) as [|x l IH]; [done|]. cbn.
  destruct (expired_container cutoff x); cbn; lia.
Qed.

Definition item_judged (holds : list LegalHold) (restricted : gset ID) (safe : Time) (e : ExpiredItem) : option string :=
  item_verdict holds restricted safe (contributed sg (xi_id e)) e.

Lemma items_asked holds restricted safe ids w w' m : contributorsOf sg holds restricted ids w = (w', Ok m) ->
  w' = w /\ forall e, xi_id e ∈ ids ->
    item_verdict holds restricted safe (of_map m (xi_id e)) e = item_judged holds restricted safe e.
Proof. intros [-> H]%contributorsOf_ok. split; [done|]. intros e He. by apply item_verdict_known, H. Qed.

(** What the sweep reads of the entries: a prefix of the expired ones, and of it
    what nothing holds. *)
Lemma items_read holds restricted cutoff safe o w w' s : store_ok w ->
  expiredItems p sg holds restricted cutoff safe o w = (w', Ok s) ->
  w' = w /\ (forall e, e ∈ rg_read s -> e ∈ all_expired_items w cutoff safe) /\
  forall id, id ∈ rg_removable s -> exists e, e ∈ rg_read s /\ xi_id e = id /\ item_judged holds restricted safe e = None.
Proof.
  intros Hok H. unfold expiredItems in H.
  apply (pages_spec p xi_id _ _ _ (items_asked holds restricted safe)) with (done := []) (todo := all_expired_items w cutoff safe) in H
    as [-> (seen & rest & Hall & Hr & Hk & _)]; try done.
  - split; [done|]. rewrite Hr, Hk, Hall. split; [by intros e He; apply elem_of_app; left|].
    intros id Hid. unfold going in Hid. apply list_elem_of_fmap in Hid as (e & -> & He). apply list_elem_of_In, filter_In in He as [He Hg].
    exists e. split; [by apply list_elem_of_In|]. split; [done|]. unfold goes in Hg. by destruct (item_judged _ _ _ e).
  - pose proof (expired_length w cutoff safe). pose proof (so_size _ Hok). lia.
Qed.

Lemma containers_read holds cutoff safe o w w' s : store_ok w ->
  expiredContainers p holds cutoff safe o w = (w', Ok s) ->
  w' = w /\ forall id, id ∈ rg_removable s -> exists e, e ∈ all_expired_containers w cutoff safe /\ xc_id e = id /\
    container_verdict holds safe e = None.
Proof.
  intros Hok H. unfold expiredContainers in H.
  apply (pages_spec p xc_id _ _ (container_verdict holds safe)) with (done := []) (todo := all_expired_containers w cutoff safe) in H
    as [-> (seen & rest & Hall & Hr & Hk & _)]; try done.
  - split; [done|]. rewrite Hk, Hall.
    intros id Hid. unfold going in Hid. apply list_elem_of_fmap in Hid as (e & -> & He). apply list_elem_of_In, filter_In in He as [He Hg].
    exists e. split; [by apply elem_of_app; left; apply list_elem_of_In|]. split; [done|]. unfold goes in Hg. by destruct (container_verdict _ _ e).
  - intros ids v v' m [= <- _]. by split.
  - pose proof (expired_containers_length w cutoff safe). pose proof (so_size _ Hok). lia.
Qed.
End Sweeping.

(** ** The sweep is safe *)

(** The containers spared go without their entries or their collections: those
    go with them or went before. *)
Lemma spared_containers_closed w entries containers : store_ok w ->
  Forall (fun id => is_Some (sv_items w !! id)) entries -> Forall (fun id => is_Some (sv_containers w !! id)) containers ->
  let going := entries ++ containers in let out := spared w going containers in
  (forall x k, sv_containers w !! x = Some k -> cr_parent k ∈ out -> x ∈ out) /\
  (forall x r, sv_items w !! x = Some r -> ir_collection r ∈ out -> x ∈ entries).
Proof.
  intros Hok He Hc going out. rewrite List.Forall_forall in He, Hc.
  assert (forall x r, sv_items w !! x = Some r -> x ∈ going -> x ∈ entries) as Hitem.
  { intros x r Hr [Hx|Hx]%elem_of_app; [done|]. apply list_elem_of_In, Hc in Hx as [c Hx]. by rewrite (so_apart _ Hok x) in Hx. }
  assert (forall x k, sv_containers w !! x = Some k -> x ∈ going -> x ∈ containers) as Hcont.
  { intros x k Hk [Hx|Hx]%elem_of_app; [|done]. apply list_elem_of_In, He in Hx. by rewrite (so_apart _ Hok x) in Hk. }
  split.
  - intros x k Hk (Hp & _ & Hkept)%in_spared. pose proof Hp as Hp'. apply list_elem_of_In, Hc in Hp' as [h Hh].
    apply (kept_container _ _ _ h Hh) in Hkept as [Hent Hbox].
    assert (cr_parent k <> "") as Hne by (intros E; rewrite E, (proj2 (so_ids _ Hok)) in Hh; done).
    destruct (so_levels _ Hok x k Hk Hne) as (h' & Hh' & Htop).
    assert (x ∈ containers) as Hx by (by eapply Hcont, Hbox).
    assert (forall y c, sv_containers w !! y = Some c -> cr_parent c <> x) as Hleaf.
    { intros y c Hy E. assert (cr_parent c <> "") as Hcne by (rewrite E; intros ->; by rewrite (proj2 (so_ids _ Hok)) in Hk).
      destruct (so_levels _ Hok y c Hy Hcne) as (k' & Hk' & Hk0). rewrite E in Hk'. congruence. }
    apply in_spared. split; [done|]. split.
    + unfold kept_of_item. destruct (sv_items w !! x) as [r|] eqn:E; [|done]. by rewrite (so_apart _ Hok x) in Hk.
    + apply (kept_container _ _ _ k Hk). split.
      * intros y r Hy [Hcol|Hhub]; apply (Hent y r Hy).
        -- right. unfold hub_of. by rewrite Hcol, Hk.
        -- unfold hub_of in Hhub. destruct (sv_containers w !! ir_collection r) as [c|] eqn:E; [|done]. injection Hhub as Hhub. by destruct (Hleaf _ _ E).
      * intros y c Hy E. by destruct (Hleaf y c Hy).
  - intros x r Hr (Hp & _ & Hkept)%in_spared. pose proof Hp as Hp'. apply list_elem_of_In, Hc in Hp' as [h Hh].
    apply (kept_container _ _ _ h Hh) in Hkept as [Hent _]. eapply Hitem; [done|]. apply (Hent x r Hr). by left.
Qed.

Section SweepSafe.
Context (p : Purger) (sg : Safeguards) (new_id : nat -> ID).

(** Why an entry may go: it was deleted before the cutoff and, where it is
    observed, before the offline window; no hold in force reaches it, its
    ancestors, its containers or those who contributed to it; and none of these
    is restricted, where that is observed. *)
Definition entry_may_go (holds : list LegalHold) (restricted : gset ID) (cutoff safe : Time) (w : Server) (id : ID) (r : ItemRow) : Prop :=
  exists d hub, ir_deleted_at r = Some d /\ d < cutoff /\ d <= safe /\ hub_of w (ir_collection r) = Some hub /\
    Blocking holds (item_target id (ir_path r) hub (ir_collection r) (contributed sg id)) = None /\
    restrictedAmong restricted (contributed sg id) = false.
Definition container_may_go (holds : list LegalHold) (cutoff safe : Time) (id : ID) (c : ContainerRow) : Prop :=
  exists d, cr_deleted_at c = Some d /\ d < cutoff /\ d <= safe /\
    Blocking holds (mkTarget "" (nonZero [cr_parent c; id]) [] []) = None.

Lemma judged_may_go holds restricted cutoff safe w e : e ∈ all_expired_items w cutoff safe ->
  item_judged sg holds restricted safe e = None ->
  exists r, sv_items w !! xi_id e = Some r /\ entry_may_go holds restricted cutoff safe w (xi_id e) r.
Proof.
  intros (r & hub & Hr & Hh & Hd & Hlt & He)%in_expired_items Hj. exists r. split; [done|]. exists (xi_deleted_at e), hub.
  unfold item_judged, item_verdict in Hj. rewrite He in Hj at 1 2 3 4. cbn in Hj.
  destruct (Blocking holds _) eqn:Eb; [done|]. destruct (restrictedAmong restricted _) eqn:Er; [done|].
  destruct (Z.ltb_spec safe (xi_deleted_at e)); [done|]. split_and!; done.
Qed.

Lemma container_judged_may_go holds cutoff safe w e : e ∈ all_expired_containers w cutoff safe ->
  container_verdict holds safe e = None ->
  exists c, sv_containers w !! xc_id e = Some c /\ container_may_go holds cutoff safe (xc_id e) c.
Proof.
  intros (c & Hc & Hd & Hlt & He)%in_expired_containers Hj. exists c. split; [done|]. exists (xc_deleted_at e).
  unfold container_verdict, container_target in Hj. rewrite He in Hj at 1 2. cbn in Hj.
  destruct (Blocking holds _) eqn:Eb; [done|]. destruct (Z.ltb_spec safe (xc_deleted_at e)); [done|]. by split_and!.
Qed.
End SweepSafe.

(** What the readings found are rows of the tables. *)
Lemma entries_found w cutoff safe (ids : list ID) :
  (forall id, id ∈ ids -> exists e, e ∈ all_expired_items w cutoff safe /\ xi_id e = id) -> Forall (fun id => is_Some (sv_items w !! id)) ids.
Proof.
  intros H. apply List.Forall_forall. intros id Hid%list_elem_of_In. destruct (H id Hid) as (e & He & <-).
  apply in_expired_items in He as (r & _ & -> & _). by eexists.
Qed.
Lemma containers_found w cutoff safe (ids : list ID) :
  (forall id, id ∈ ids -> exists e, e ∈ all_expired_containers w cutoff safe /\ xc_id e = id) -> Forall (fun id => is_Some (sv_containers w !! id)) ids.
Proof.
  intros H. apply List.Forall_forall. intros id Hid%list_elem_of_In. destruct (H id Hid) as (e & He & <-).
  apply in_expired_containers in He as (r & -> & _). by eexists.
Qed.

Lemma in_spared_found w going candidates id : id ∈ spared w going candidates -> id ∈ candidates.
Proof. by intros [H _]%in_spared. Qed.

Lemma spared_forall w going ids (P : ID -> Prop) : Forall P ids -> Forall P (spared w going ids).
Proof. rewrite !List.Forall_forall. intros H id Hid%list_elem_of_In%in_spared_found. by apply H, list_elem_of_In. Qed.

Section SweepRun.
Context (p : Purger) (sg : Safeguards) (new_id : nat -> ID).

(** The two lists a sweep removes, of what it found removable. *)
Definition sweep_entries (w : Server) (found : list ID) : list ID := spared w found found.
Definition sweep_containers (w : Server) (entries found : list ID) : list ID := spared w (entries ++ found) found.

Lemma in_sweep_entries w found id : id ∈ sweep_entries w found -> id ∈ found.
Proof. apply in_spared_found. Qed.
Lemma in_sweep_containers w entries found id : id ∈ sweep_containers w entries found -> id ∈ found.
Proof. apply in_spared_found. Qed.

Lemma announcements actor reason now R (read : list ExpiredItem) w w' :
  for_each (fun e => if contains R (xi_id e) then
      announce new_id (ac_tenant actor) (xi_id e) (xi_type e) (xi_collection e) (xi_path e) reason now else skip) read w = (w', Ok tt) ->
  same_rows w w' /\ forall e, e ∈ read -> xi_id e ∈ R -> announced w' (xi_id e).
Proof.
  intros H. apply (announcements_run _ xi_id (fun e => contains R (xi_id e))) in H as (Hs & Hall & _).
  - split; [done|]. intros e He HR. apply Hall; [done|by apply contains_in].
  - intros e v v' Hf. rewrite Hf. by intros [= <-].
  - intros e v v' Hf. rewrite Hf. apply announce_kept.
Qed.

(** One sweep that answered, piece by piece. *)
Lemma sweep_run actor sel now w w' o holds restricted : store_ok w -> sg_holds sg = Ok holds ->
  (if se_observe_restrictions sel then restrictionsOf (sg_restricted sg) else Ok ∅) = Ok restricted ->
  Sweep p sg new_id actor sel now w = (w', Ok o) ->
  let cutoff := se_cutoff sel in let safe := if se_observe_window sel then now - pg_window p else now in
  exists (read : list ExpiredItem) (found foundContainers : list ID), let R := sweep_entries w found in let K := sweep_containers w R foundContainers in
    (forall e, e ∈ read -> e ∈ all_expired_items w cutoff safe) /\
    (forall id, id ∈ found -> exists e, e ∈ read /\ xi_id e = id /\ item_judged sg holds restricted safe e = None) /\
    (forall id, id ∈ foundContainers -> exists e, e ∈ all_expired_containers w cutoff safe /\ xc_id e = id /\ container_verdict holds safe e = None) /\
    sv_items w' = gone (sv_items w) R /\ sv_containers w' = gone (sv_containers w) K /\
    (forall id, id ∈ R -> recorded w' workItemEntity id) /\ (forall id, id ∈ K -> recorded w' containerEntity id) /\
    (forall k v, sv_tombstones w' !! k = Some v -> sv_tombstones w !! k = Some v \/ v = (now, now + pg_window p)) /\
    (forall e, e ∈ read -> xi_id e ∈ R -> announced w' (xi_id e)) /\
    oc_removed o = (Z.of_nat (size (sv_items w)) - Z.of_nat (size (sv_items w'))) +
                   (Z.of_nat (size (sv_containers w)) - Z.of_nat (size (sv_containers w'))).
Proof.
  intros Hok Hh Hr H cutoff safe. unfold Sweep in H. fold cutoff safe in H.
  apply bind_run in H as (h & w1 & Ha & H). unfold Active in Ha. apply lift_run in Ha as [-> Ha]. rewrite Hh in Ha. injection Ha as <-.
  apply bind_run in H as (rs & w1 & Hb & H).
  assert (w1 = w /\ rs = restricted) as [-> ->].
  { clear H. destruct (se_observe_restrictions sel); [apply lift_run in Hb as [-> Hb]|injection Hb as <- <-]; split; congruence. }
  clear Hb.
  apply bind_run in H as (si & w1 & Ha & H). apply (items_read p sg) in Ha as (-> & Hread & Hrem); [|done].
  apply bind_run in H as (sc & w1 & Ha & H). apply (containers_read p) in Ha as (-> & Hrem'); [|done].
  apply bind_run in H as ([R oR] & w1 & Ha & H). injection Ha as <- HR HoR.
  apply bind_run in H as ([K oK] & w1 & Ha & H). injection Ha as <- HK HoK. cbn [fst snd] in *.
  assert (Forall (fun id => is_Some (sv_items w !! id)) (rg_removable si)) as Hfi.
  { eapply entries_found. intros id (e & He & <- & _)%Hrem. eauto. }
  assert (Forall (fun id => is_Some (sv_containers w !! id)) (rg_removable sc)) as Hfc.
  { eapply containers_found. intros id (e & He & <- & _)%Hrem'. eauto. }
  change (sweep_entries w (rg_removable si) = R) in HR. change (sweep_containers w R (rg_removable sc) = K) in HK.
  assert (Forall (fun id => is_Some (sv_items w !! id)) R) as HfR.
  { rewrite <- HR. by apply spared_forall. }
  pose proof (spared_items_closed w _ Hok Hfi) as Hclosed. change (spared w _ _) with (sweep_entries w (rg_removable si)) in Hclosed. rewrite HR in Hclosed.
  destruct (spared_containers_closed w R (rg_removable sc) Hok HfR Hfc) as [Hck Hci].
  change (spared w _ _) with (sweep_containers w R (rg_removable sc)) in Hck, Hci. rewrite HK in Hck, Hci.
  apply bind_run in H as ([] & w1 & Hrec & H). apply record_run in Hrec as (H1 & H2 & _ & H4 & _ & H6).
  apply bind_run in H as (n & w2 & Ha & H). rewrite purge_items_run in Ha by (by rewrite H1). injection Ha as <- <-.
  apply bind_run in H as (m & w3 & Ha & H). rewrite purge_containers_run in Ha.
  2: { cbn. rewrite H2. intros x k Hk Hp _. by eapply Hck. }
  2: { cbn. rewrite H1. intros x r. rewrite gone_lookup. destruct (decide (x ∈ R)) as [|Hn]; [done|]. intros Hr' Hin. by apply Hn, (Hci x r). }
  injection Ha as <- <-. apply bind_run in H as ([] & w4 & Hann & H). apply announcements in Hann as [(G1 & G2 & G3 & G4) Hann].
  injection H as <- <-. exists (rg_read si), (rg_removable si), (rg_removable sc). rewrite HR, HK. cbn in G1, G2, G3, G4 |- *.
  rewrite G1, G2, G4, H1, H2. split_and!; try done.
  - intros id Hid. unfold recorded. rewrite G3, G4. apply (H4 (mkRemoval workItemEntity id (se_reason sel))). apply elem_of_app. left. by apply (list_elem_of_fmap_2 (fun id => mkRemoval _ id (se_reason sel)) _ id).
  - intros id Hid. unfold recorded. rewrite G3, G4. apply (H4 (mkRemoval containerEntity id (se_reason sel))). apply elem_of_app. right. by apply (list_elem_of_fmap_2 (fun id => mkRemoval _ id (se_reason sel)) _ id).
Qed.
End SweepRun.

(** What is left keeps the promises of the foreign keys. *)
Lemma gone_store_ok w w' R K : store_ok w -> sv_items w' = gone (sv_items w) R -> sv_containers w' = gone (sv_containers w) K ->
  (forall id r, sv_items w !! id = Some r -> ir_parent r ∈ R -> id ∈ R) ->
  (forall x k, sv_containers w !! x = Some k -> cr_parent k ∈ K -> x ∈ K) ->
  (forall x r, sv_items w !! x = Some r -> ir_collection r ∈ K -> x ∈ R) -> store_ok w'.
Proof.
  intros Hok Hi Hc HR HK Hin.
  assert (forall {A} (m : gmap ID A) l id a, gone m l !! id = Some a <-> m !! id = Some a /\ id ∉ l) as Hg.
  { intros A m l id a. rewrite gone_lookup. destruct (decide (id ∈ l)); intuition done. }
  split; rewrite ?Hi, ?Hc.
  - rewrite !gone_lookup. destruct (so_ids _ Hok) as [-> ->]. by destruct (decide _), (decide _).
  - intros id r [Hr Hn]%Hg Hne. destruct (so_parent _ Hok id r Hr Hne) as (q & Hq & Hb). exists q. split; [|done].
    apply Hg. split; [done|]. intros Hp. by apply Hn, (HR id r).
  - intros id r [Hr Hn]%Hg. destruct (so_collection _ Hok id r Hr) as [c Hcol]. exists c. apply Hg. split; [done|].
    intros Hp. by apply Hn, (Hin id r).
  - intros id c [Hcc Hn]%Hg Hne. destruct (so_levels _ Hok id c Hcc Hne) as (h & Hh & Ht). exists h. split; [|done].
    apply Hg. split; [done|]. intros Hp. by apply Hn, (HK id c).
  - intros id [r [Hr Hn]%Hg]. rewrite gone_lookup, (so_apart _ Hok id) by done. by destruct (decide _).
  - assert (forall {A} (m : gmap ID A) l, (size (gone m l) <= size m)%nat) as Hs.
    { intros A m l. apply map_subseteq_size, map_filter_subseteq. }
    pose proof (Hs _ (sv_items w) R). pose proof (Hs _ (sv_containers w) K). pose proof (so_size _ Hok). lia.
Qed.


(** ** The removal of one subtree *)

Lemma in_subtree w prefix id : id ∈ SubtreeIDs w prefix <-> exists r, sv_items w !! id = Some r /\ below prefix r = true.
Proof.
  unfold SubtreeIDs. rewrite list_elem_of_fmap. split.
  - intros ([x r] & -> & Hin). rewrite sort_by_perm in Hin by apply _. apply list_elem_of_In, filter_In in Hin as [Hin Hb].
    exists r. split; [|done]. by apply elem_of_map_to_list, list_elem_of_In.
  - intros (r & Hr & Hb). exists (id, r). split; [done|]. rewrite sort_by_perm by apply _.
    apply list_elem_of_In, filter_In. split; [|done]. by apply list_elem_of_In, elem_of_map_to_list.
Qed.

Lemma subtree_closed w prefix : store_ok w ->
  closed_below (sv_items w) (list_to_set (SubtreeIDs w prefix) ∩ dom (sv_items w)).
Proof.
  intros Hok id r Hr [Hp _]%elem_of_intersection. apply elem_of_list_to_set, in_subtree in Hp as (q & Hq & Hb).
  assert (ir_parent r <> "") as Hne by (intros E; rewrite E, (proj1 (so_ids _ Hok)) in Hq; done).
  destruct (so_parent _ Hok id r Hr Hne) as (q' & Hq' & Hbq). assert (q' = q) as -> by congruence.
  apply elem_of_intersection. split; [|by apply elem_of_dom]. apply elem_of_list_to_set, in_subtree. exists r. split; [done|]. by eapply below_trans.
Qed.

(** Every path spells the entries above its own, all of one collection - what
    the moves and creates of Hierarchy keep. *)
Record paths_ok (w : Server) : Prop := {
  pt_chain : forall id r, sv_items w !! id = Some r -> exists xs,
    Forall (fun x => looksLikeUUID x = true) (xs ++ [id]) /\ ir_path r = segs (xs ++ [id]) /\
    forall pre x post, xs = pre ++ x :: post -> exists q, sv_items w !! x = Some q /\ ir_path q = segs (pre ++ [x]);
  pt_collection : forall id r x q, sv_items w !! id = Some r -> sv_items w !! x = Some q -> below (ir_path q) r = true ->
    ir_collection r = ir_collection q
}.

Lemma uuids_free xs : Forall (fun x => looksLikeUUID x = true) xs -> Forall slash_free xs.
Proof. intros H. eapply Forall_impl; [exact H|]. cbn. intros x Hx. apply (uuid_segment x Hx). Qed.

Lemma PathIDs_uuid path x : x ∈ PathIDs path -> looksLikeUUID x = true.
Proof.
  unfold PathIDs. destruct (String.eqb (trim path) ""); [by intros ?%elem_of_nil|].
  destruct (parse_ids (split (trim path))) as [ids|] eqn:E; cbn; [|by intros ?%elem_of_nil].
  apply parse_ids_some in E as [-> H]. rewrite List.Forall_forall in H. intros Hx%list_elem_of_In. by apply H.
Qed.

(** Whoever is above an entry of a subtree is above its root or in it. *)
Lemma ancestors_split w root q id r x : paths_ok w -> sv_items w !! root = Some q -> sv_items w !! id = Some r ->
  below (ir_path q) r = true -> x ∈ PathIDs (ir_path r) ->
  x ∈ PathIDs (ir_path q) \/ exists y, sv_items w !! x = Some y /\ below (ir_path q) y = true.
Proof.
  intros Hok Hq Hr Hb Hx. destruct (pt_chain _ Hok _ _ Hq) as (qs & Huq & Hpq & _).
  destruct (pt_chain _ Hok _ _ Hr) as (rs & Hur & Hpr & Habove).
  unfold below in *. rewrite Hpr, (proj1 (path_roundtrip rs id Hur)) in Hx. rewrite Hpq, (proj1 (path_roundtrip qs root Huq)).
  rewrite Hpq, Hpr in Hb. apply segs_prefix in Hb as [zs Hz]; [|by apply uuids_free..]. rewrite Hz in Hx.
  apply elem_of_app in Hx as [Hx|Hx]; [by left|]. right.
  destruct zs as [|z zs _] using rev_ind; [by apply elem_of_nil in Hx|].
  rewrite app_assoc in Hz. apply app_inj_tail in Hz as [Hrs <-]. apply elem_of_app in Hx as [Hx|Hx].
  - apply list_elem_of_split in Hx as (a & b & ->). destruct (Habove ((qs ++ [root]) ++ a) x b) as (y & Hy & Hpy); [by rewrite Hrs, <- !app_assoc|].
    exists y. split; [done|]. rewrite Hpy, <- app_assoc. apply segs_prefix; [by apply uuids_free|..|by eexists].
    apply uuids_free in Hur. rewrite Hrs, !Forall_app, !Forall_cons in Hur. rewrite !Forall_app, !Forall_cons. tauto.
  - apply elem_of_cons in Hx as [->|Hx%elem_of_nil]; [|done]. exists r. split; [done|]. rewrite Hpr. apply segs_prefix; [by apply uuids_free..|].
    exists (zs ++ [id]). by rewrite Hrs, app_assoc.
Qed.

(** A hold that reaches an entry of the subtree reaches one of the targets the
    purge asked about. *)
Lemma subtree_judged w holds root q hub who : paths_ok w -> sv_items w !! root = Some q ->
  (forall x, x ∈ SubtreeIDs w (ir_path q) -> Blocking holds (item_target x (ir_path q) hub (ir_collection q) (who x)) = None) ->
  forall id r, sv_items w !! id = Some r -> below (ir_path q) r = true ->
  Blocking holds (item_target id (ir_path r) hub (ir_collection r) (who id)) = None.
Proof.
  intros Hok Hq Hall id r Hr Hb. apply blocking_none, List.Forall_forall. intros h Hh.
  assert (forall x y, sv_items w !! x = Some y -> below (ir_path q) y = true ->
    reaches (item_target x (ir_path q) hub (ir_collection q) (who x)) h = false) as Hno.
  { intros x y Hy Hby. assert (x ∈ SubtreeIDs w (ir_path q)) as Hin by (apply in_subtree; by exists y).
    apply Hall, blocking_none in Hin. rewrite List.Forall_forall in Hin. by apply Hin. }
  pose proof (Hno id r Hr Hb) as Hown. rewrite (pt_collection _ Hok id r root q Hr Hq Hb).
  apply not_true_is_false. intros E. revert Hown E. unfold reaches, item_target. cbn [tg_item tg_containers tg_ancestors tg_contributors].
  destruct (negb _ && _); [done|]. destruct (String.eqb (lh_scope h) HoldTenant); [done|].
  destruct (String.eqb (lh_scope h) HoldContainer); [congruence|]. destruct (String.eqb (lh_scope h) HoldItem) eqn:Ei.
  - intros [H1 H2]%orb_false_iff [H3|H3]%orb_true_iff; [congruence|]. apply contains_in in H3.
    destruct (ancestors_split w root q id r _ Hok Hq Hr Hb H3) as [Ha|(y & Hy & Hby)].
    + apply contains_in in Ha. congruence.
    + pose proof (Hno _ y Hy Hby) as Hn. unfold reaches, item_target in Hn. cbn [tg_item tg_containers tg_ancestors] in Hn. rewrite Ei, String.eqb_refl in Hn.
      apply String.eqb_eq in Ei. rewrite Ei in Hn. cbn in Hn. unfold id_is_zero in Hn. destruct (String.eqb_spec (lh_scope_id h) "") as [E|]; [|done].
      rewrite E in H3. apply PathIDs_uuid in H3. done.
  - congruence.
Qed.

Section SubtreeSafe.
Context (p : Purger) (sg : Safeguards) (new_id : nat -> ID).

Lemma refusals_run holds (tg : ID -> Target) ids (w w' : Server) :
  for_each (fun id => match Blocking holds (tg id) with Some hold => fail (legalHoldRefusal hold) | None => skip end) ids w = (w', Ok tt) ->
  w' = w /\ forall id, id ∈ ids -> Blocking holds (tg id) = None.
Proof.
  revert w. induction ids as [|x ids IH]; cbn [for_each]; intros w H; [injection H as <-; split; [done|by intros ? ?%elem_of_nil]|].
  apply bind_run in H as ([] & w1 & Hx & H). destruct (Blocking holds (tg x)) eqn:E; [done|]. injection Hx as <-.
  apply IH in H as [-> H]. split; [done|]. by intros y [->|Hy]%elem_of_cons; [|apply H].
Qed.

(** What a subtree's removal does: the rows below go, with both records and an
    event of each, and no hold reached any of the targets asked about. *)
Lemma subtree_run item q hub reason now w w' n holds : store_ok w -> sg_holds sg = Ok holds ->
  sv_items w !! pi_id item = Some q -> pi_path item = ir_path q -> pi_collection item = ir_collection q ->
  Subtree p sg new_id item hub reason now w = (w', Ok n) ->
  sv_items w' = gone (sv_items w) (SubtreeIDs w (ir_path q)) /\ sv_containers w' = sv_containers w /\
  n = Z.of_nat (size (sv_items w)) - Z.of_nat (size (sv_items w')) /\
  (forall id, id ∈ SubtreeIDs w (ir_path q) -> recorded w' workItemEntity id /\ announced w' id /\
     Blocking holds (item_target id (ir_path q) hub (ir_collection q) (contributed sg id)) = None) /\
  (forall e x, recorded w e x -> recorded w' e x) /\ (forall x, announced w x -> announced w' x).
Proof.
  intros Hok Hh Hq Hpath Hcol H. unfold Subtree in H. rewrite Hpath, Hcol in H.
  apply bind_run in H as (hs & w1 & Ha & H). unfold Active in Ha. apply lift_run in Ha as [-> Ha]. rewrite Hh in Ha. injection Ha as <-.
  destruct (Blocking holds _) as [|]; [done|]. apply bind_run in H as (ids & w1 & Ha & H). injection Ha as <- <-.
  assert (pi_id item ∈ SubtreeIDs w (ir_path q)) as Hroot.
  { apply in_subtree. exists q. split; [done|]. unfold below. rewrite <- (str_app_nil_r (ir_path q)) at 2. apply has_prefix_app. }
  set (ids := SubtreeIDs w (ir_path q)) in *. destruct ids as [|x rest] eqn:Eids; [by apply elem_of_nil in Hroot|]. rewrite <- Eids in *. clear x rest Eids.
  apply bind_run in H as (m & w1 & Ha & H). apply contributorsOf_ok in Ha as [-> Hm].
  apply bind_run in H as ([] & w1 & Ha & H). apply refusals_run in Ha as [-> Hfree].
  apply bind_run in H as ([] & w1 & Hrec & H). apply record_run in Hrec as (H1 & H2 & H3 & H4 & H5 & _).
  apply bind_run in H as (k & w2 & Ha & H). rewrite purge_items_run in Ha by (rewrite H1; by apply subtree_closed). injection Ha as <- <-.
  apply bind_run in H as ([] & w4 & Hann & H). injection H as <- <-.
  apply (announcements_run _ (fun id => id) (fun _ => true)) in Hann as ((G1 & G2 & G3 & G4) & Hall & Hkeep); [|done|by intros; eapply announce_kept].
  cbn in G1, G2, G3, G4. rewrite H1 in G1. rewrite H2 in G2. unfold recorded. rewrite G3, G4.
  split; [done|]. split; [done|]. split; [by rewrite G1, H1|]. split; [|split; [done|]].
  - intros id Hin. split; [|split; [by apply Hall|]].
    + apply (H4 (mkRemoval workItemEntity id reason)). by apply (list_elem_of_fmap_2 (fun id => mkRemoval _ id reason) _ id).
    + specialize (Hfree id Hin). destruct (Hm id Hin) as [E|[Ea _]]; [by rewrite <- E|].
      unfold item_target in *. rewrite (contributors_unneeded _ _ _ _ _ Ea) in Hfree. by rewrite (contributors_unneeded _ _ _ _ _ Ea).
  - intros x (e & He & Hx). apply Hkeep. exists e. split; [|done]. change (e ∈ sv_outbox w1). by rewrite H3.
Qed.

(** Without a subtree the store keeps its promises. *)
Lemma subtree_store_ok w w' prefix : store_ok w -> sv_items w' = gone (sv_items w) (SubtreeIDs w prefix) -> sv_containers w' = sv_containers w ->
  store_ok w'.
Proof.
  intros Hok H1 H2. apply (gone_store_ok w _ (SubtreeIDs w prefix) [] Hok H1).
  - rewrite H2. apply map_eq. intros x. by rewrite gone_lookup, decide_False by (by intros ?%elem_of_nil).
  - intros id r Hr Hp. assert (id ∈ (list_to_set (SubtreeIDs w prefix) ∩ dom (sv_items w) : gset ID)) as [Hid%elem_of_list_to_set _]%elem_of_intersection; [|done].
    apply (subtree_closed w prefix Hok id r Hr), elem_of_intersection. split; [by apply elem_of_list_to_set|].
    apply in_subtree in Hp as (y & Hy & _). by apply elem_of_dom.
  - by intros x k _ Hx%elem_of_nil.
  - by intros x r _ Hx%elem_of_nil.
Qed.

(** The removal of an entry takes what is below it and nothing else; no hold in
    force reaches any of it, judged by the place and the contributors each entry
    has of its own; every one is in the journal, has its tombstone and is
    announced; and the count is of what went. *)
Theorem subtree_safe item q hub reason now w w' n holds : store_ok w -> paths_ok w -> sg_holds sg = Ok holds ->
  sv_items w !! pi_id item = Some q -> pi_path item = ir_path q -> pi_collection item = ir_collection q ->
  Subtree p sg new_id item hub reason now w = (w', Ok n) ->
  (forall id r, sv_items w !! id = Some r -> below (ir_path q) r = false -> sv_items w' !! id = Some r) /\
  (forall id r, sv_items w !! id = Some r -> below (ir_path q) r = true -> sv_items w' !! id = None /\
     recorded w' workItemEntity id /\ announced w' id /\
     Blocking holds (item_target id (ir_path r) hub (ir_collection r) (contributed sg id)) = None) /\
  n = Z.of_nat (size (sv_items w)) - Z.of_nat (size (sv_items w')) /\ store_ok w'.
Proof.
  intros Hok Hpt Hh Hq Hpath Hcol H. apply (subtree_run item q hub reason now w w' n holds Hok Hh Hq Hpath Hcol) in H as (H1 & H2 & Hn & Hin & _ & _).
  split; [|split; [|split; [done|by eapply subtree_store_ok]]].
  - intros id r Hr Hb. rewrite H1, gone_lookup. destruct (decide _) as [Hd|]; [|done].
    apply in_subtree in Hd as (r' & Hr' & Hb'). congruence.
  - intros id r Hr Hb. assert (id ∈ SubtreeIDs w (ir_path q)) as Hd by (apply in_subtree; by exists r).
    rewrite H1, gone_lookup, decide_True by done. split; [done|]. split; [by apply Hin|]. split; [by apply Hin|].
    apply (subtree_judged w holds (pi_id item) q hub (contributed sg) Hpt Hq); [|done..]. intros x Hx. by apply Hin.
Qed.
End SubtreeSafe.

(** ** A sweep answers, and finds what is due *)

Section SweepFinds.
Context (p : Purger) (sg : Safeguards) (new_id : nat -> ID).

Lemma contributors_answer holds restricted ids w who : sg_who sg = Ok who ->
  exists m, contributorsOf sg holds restricted ids w = (w, Ok m).
Proof. intros Hw. unfold contributorsOf, Contributors, bind, lift. rewrite Hw. destruct (_ || _); by eexists. Qed.

(** A verdict of the offline window is about the moment of the deletion. *)
Lemma item_windowed holds restricted safe e :
  item_judged sg holds restricted safe e = Some BlockedByTombstoneWindow -> safe < xi_deleted_at e.
Proof. unfold item_judged, item_verdict. repeat (break_match; [done|]). destruct (Z.ltb_spec safe (xi_deleted_at e)); done. Qed.

Lemma item_past_window holds restricted safe e : safe < xi_deleted_at e ->
  goes (item_judged sg holds restricted safe) e = false.
Proof.
  intros H%Z.ltb_lt. unfold goes, item_judged, item_verdict. rewrite H. destruct (Blocking _ _); [done|]. by destruct (restrictedAmong _ _).
Qed.

Lemma items_window_last holds restricted cutoff safe w :
  window_last xi_id (item_judged sg holds restricted safe) (all_expired_items w cutoff safe).
Proof.
  intros seen e rest Hall Hj%item_windowed.
  pose proof (sort_by_sorted (expired_item_key safe) deepest_first (omap (expired_item w cutoff) (map_to_list (sv_items w)))) as Hs.
  change (sort_by _ _) with (all_expired_items w cutoff safe) in Hs. rewrite Hall in Hs.
  apply sorting.StronglySorted_app_1_r in Hs. inversion Hs as [|? ? _ Hrest]; subst. clear Hs Hall. unfold going.
  induction Hrest as [|x rest Hx _ IH]; [done|]. cbn [List.filter].
  rewrite (item_past_window holds restricted safe x); [by apply IH|].
  destruct (Z.ltb_spec safe (xi_deleted_at x)) as [|Hle]; [done|]. exfalso. apply Hx.
  unfold deepest_first, cmp_pair, expired_item_key. cbn. by rewrite (proj2 (Z.ltb_lt _ _) Hj), (proj2 (Z.ltb_ge _ _) Hle).
Qed.

(** C26. The reading of a sweep ends, in pages of the batch, and finds the first
    batch of all the expired entries that may go, in the order of the removal -
    however many held rows lie before them. *)
Theorem sweep_finds_due holds restricted cutoff safe o w who : store_ok w -> sg_who sg = Ok who -> batch_served p ->
  exists s, expiredItems p sg holds restricted cutoff safe o w = (w, Ok s) /\
    rg_removable s = firstn (Z.to_nat (pg_batch p))
      (map xi_id (List.filter (fun e => match item_verdict holds restricted safe (who (xi_id e)) e with None => true | Some _ => false end)
                   (all_expired_items w cutoff safe))).
Proof.
  intros Hok Hwho Hb. pose proof (expired_length w cutoff safe). pose proof (so_size _ Hok).
  destruct (pages_total p xi_id (fun m e => item_verdict holds restricted safe (of_map m (xi_id e)) e) (contributorsOf sg holds restricted)
    (all_expired_items w cutoff safe)) with (fuel := S (List.length (all_expired_items w cutoff safe))) (done := @nil ExpiredItem)
    (todo := all_expired_items w cutoff safe) (s := mkReading (@nil ExpiredItem) [] o false) (w := w) as [s Hs]; try done; [|lia|lia|].
  - intros ids v. by eapply contributors_answer.
  - exists s. split; [exact Hs|].
    rewrite (pages_first_batch p xi_id _ _ _ (items_asked sg holds restricted safe) _ _ _ _ _ _ Hb (items_window_last holds restricted cutoff safe w) ltac:(lia) Hs).
    unfold going, goes, item_judged, contributed. by rewrite Hwho.
Qed.
End SweepFinds.

Section SweepAnswers.
Context (p : Purger) (sg : Safeguards) (new_id : nat -> ID).

Lemma group_answers (f : ID -> Removal) entity reason ids : entity <> "" -> reason <> "" ->
  forall reasons, (reasons !! entity = None \/ reasons !! entity = Some reason) -> Forall (fun id => id <> "") ids ->
  forall rest, (forall reasons', reasons' !! entity = Some reason \/ reasons' = reasons -> (forall e, e <> entity -> reasons' !! e = reasons !! e) ->
    groupRemovals reasons' rest = Ok tt) ->
  groupRemovals reasons (map (fun id => mkRemoval entity id reason) ids ++ rest) = Ok tt.
Proof.
  intros He Hr. intros reasons Hre Hids rest Hrest.
  enough (forall rs, rs !! entity = None \/ rs !! entity = Some reason -> (rs !! entity = Some reason \/ rs = reasons) ->
    (forall e, e <> entity -> rs !! e = reasons !! e) ->
    groupRemovals rs (map (fun id => mkRemoval entity id reason) ids ++ rest) = Ok tt) as Hgo by (apply Hgo; [done|by right|done]).
  induction Hids as [|id ids Hid _ IH]; intros rs Hrs Hor Hsame; [by apply Hrest|]. cbn [map app groupRemovals rm_entity rm_entity_id rm_reason].
  unfold id_is_zero. rewrite (proj2 (String.eqb_neq _ _) He), (proj2 (String.eqb_neq _ _) Hid), (proj2 (String.eqb_neq _ _) Hr). cbn [orb].
  assert (default reason (rs !! entity) = reason) as -> by (destruct Hrs as [->| ->]; done).
  rewrite String.eqb_refl. cbn [negb]. apply IH.
  - right. by rewrite lookup_insert_eq.
  - left. by rewrite lookup_insert_eq.
  - intros e Hne. rewrite lookup_insert_ne by done. by apply Hsame.
Qed.

Lemma record_answers reason R K now w : reason <> "" -> Forall (fun id => id <> "") R -> Forall (fun id => id <> "") K ->
  exists w', record p (map (fun id => mkRemoval workItemEntity id reason) R ++ map (fun id => mkRemoval containerEntity id reason) K) now w = (w', Ok tt).
Proof.
  intros Hr HR HK. unfold record, RecordRemovals. set (removals := map _ R ++ map _ K).
  assert (groupRemovals ∅ removals = Ok tt) as Hg.
  { apply (group_answers (fun id => mkRemoval workItemEntity id reason)); [done|done|by left; apply lookup_empty|done|].
    intros rs _ Hsame. rewrite <- (app_nil_r (map _ K)).
    apply (group_answers (fun id => mkRemoval containerEntity id reason)); [done|done|left; by rewrite Hsame, lookup_empty|done|done]. }
  destruct removals as [|r removals]; [by eexists|]. unfold bind, lift. rewrite Hg. by eexists.
Qed.

Lemma announce_answers tenant id type collection path reason now w : (forall n, new_id n <> "") -> tenant <> "" -> now <> zero_time ->
  exists w', announce new_id tenant id type collection path reason now w = (w', Ok tt).
Proof.
  intros Hn Ht Hz. unfold announce, bind, MintID, id_is_zero, time_is_zero.
  rewrite (proj2 (String.eqb_neq _ _) (Hn _)), (proj2 (String.eqb_neq _ _) Ht), (proj2 (Z.eqb_neq _ _) Hz). by eexists.
Qed.

Lemma announcements_answer actor reason now R (read : list ExpiredItem) : (forall n, new_id n <> "") -> ac_tenant actor <> "" -> now <> zero_time ->
  forall w, exists w', for_each (fun e => if contains R (xi_id e) then
      announce new_id (ac_tenant actor) (xi_id e) (xi_type e) (xi_collection e) (xi_path e) reason now else skip) read w = (w', Ok tt).
Proof.
  intros Hn Ht Hz. induction read as [|e read IH]; intros w; cbn [for_each]; [by eexists|].
  unfold bind at 1. destruct (contains R (xi_id e)); [|by apply IH].
  destruct (announce_answers (ac_tenant actor) (xi_id e) (xi_type e) (xi_collection e) (xi_path e) reason now w Hn Ht Hz) as [w1 ->]. apply IH.
Qed.

Lemma named_entries w ids : store_ok w -> Forall (fun id => is_Some (sv_items w !! id)) ids -> Forall (fun id => id <> "") ids.
Proof. intros Hok H. eapply Forall_impl; [exact H|]. cbn. intros id [r Hr] ->. by rewrite (proj1 (so_ids _ Hok)) in Hr. Qed.
Lemma named_containers w ids : store_ok w -> Forall (fun id => is_Some (sv_containers w !! id)) ids -> Forall (fun id => id <> "") ids.
Proof. intros Hok H. eapply Forall_impl; [exact H|]. cbn. intros id [r Hr] ->. by rewrite (proj2 (so_ids _ Hok)) in Hr. Qed.

(** A sweep whose reads answer answers: no page is read for ever, no record is
    incomplete, no foreign key stops a removal. *)
Theorem sweep_answers actor sel now w holds restricted who : store_ok w -> sg_holds sg = Ok holds -> sg_who sg = Ok who ->
  (if se_observe_restrictions sel then restrictionsOf (sg_restricted sg) else Ok ∅) = Ok restricted ->
  se_reason sel <> "" -> (forall n, new_id n <> "") -> ac_tenant actor <> "" -> now <> zero_time ->
  exists w' o, Sweep p sg new_id actor sel now w = (w', Ok o).
Proof.
  intros Hok Hh Hw Hr Hreason Hn Ht Hz. unfold Sweep. set (safe := if se_observe_window sel then now - pg_window p else now).
  unfold bind at 1, Active, lift at 1. rewrite Hh. unfold bind at 1.
  assert ((if se_observe_restrictions sel then lift (restrictionsOf (sg_restricted sg)) else ret ∅) w = (w, Ok restricted)) as ->.
  { destruct (se_observe_restrictions sel); unfold lift, ret; [by rewrite Hr|by injection Hr as <-]. }
  pose proof (expired_length w (se_cutoff sel) safe). pose proof (expired_containers_length w (se_cutoff sel) safe). pose proof (so_size _ Hok).
  destruct (pages_total p xi_id (fun m e => item_verdict holds restricted safe (of_map m (xi_id e)) e) (contributorsOf sg holds restricted)
    (all_expired_items w (se_cutoff sel) safe) (fun ids v => contributors_answer sg holds restricted ids v who Hw) ltac:(lia) (S (List.length (all_expired_items w (se_cutoff sel) safe)))
    [] _ (mkReading [] [] no_outcome false) w eq_refl ltac:(lia)) as [si Hsi].
  unfold bind at 1. change (read_pages _ _ _ _ _ _ _ _ w) with (expiredItems p sg holds restricted (se_cutoff sel) safe no_outcome w) in Hsi. rewrite Hsi.
  destruct (pages_total p xc_id (fun _ c => container_verdict holds safe c) (fun _ => ret ∅)
    (all_expired_containers w (se_cutoff sel) safe) (fun ids v => ex_intro _ ∅ eq_refl) ltac:(lia) (S (List.length (all_expired_containers w (se_cutoff sel) safe)))
    [] _ (mkReading [] [] (rg_outcome si) false) w eq_refl ltac:(lia)) as [sc Hsc].
  unfold bind at 1. change (read_pages _ _ _ _ _ _ _ _ w) with (expiredContainers p holds (se_cutoff sel) safe (rg_outcome si) w) in Hsc. rewrite Hsc.
  apply (items_read p sg) in Hsi as (_ & Hread & Hrem); [|done]. apply (containers_read p) in Hsc as (_ & Hrem'); [|done].
  assert (Forall (fun id => is_Some (sv_items w !! id)) (rg_removable si)) as Hfi.
  { eapply entries_found. intros id (e & He & <- & _)%Hrem. eauto. }
  assert (Forall (fun id => is_Some (sv_containers w !! id)) (rg_removable sc)) as Hfc.
  { eapply containers_found. intros id (e & He & <- & _)%Hrem'. eauto. }
  pose proof (spared_items_closed w _ Hok Hfi) as Hclosed. pose proof (spared_forall w (rg_removable si) _ _ Hfi) as HfR.
  destruct (spared_containers_closed w _ (rg_removable sc) Hok HfR Hfc) as [Hck Hci].
  unfold bind at 1, keepBack, query. cbn [fst snd]. unfold bind at 1. cbn [fst snd].
  change (List.filter _ (rg_removable si)) with (spared w (rg_removable si) (rg_removable si)).
  set (R := spared w (rg_removable si) (rg_removable si)) in *.
  change (List.filter _ (rg_removable sc)) with (spared w (R ++ rg_removable sc) (rg_removable sc)).
  set (K := spared w (R ++ rg_removable sc) (rg_removable sc)) in *.
  destruct (record_answers (se_reason sel) R K now w Hreason) as [w1 Hrec];
    [by apply (named_entries w)|by apply (named_containers w), spared_forall|].
  unfold bind at 1. rewrite Hrec. apply record_run in Hrec as (E1 & E2 & _).
  unfold bind at 1. rewrite purge_items_run by (by rewrite E1). unfold bind at 1. rewrite purge_containers_run.
  - unfold bind at 1. match goal with |- context [for_each ?f ?xs ?v] => destruct (announcements_answer actor (se_reason sel) now R xs Hn Ht Hz v) as [w2 ->] end.
    by do 2 eexists.
  - cbn. rewrite E2. intros x k Hk Hp _. by eapply Hck.
  - cbn. rewrite E1. intros x r. rewrite gone_lookup. destruct (decide (x ∈ R)) as [|Hnx]; [done|]. intros Hr' Hin. by apply Hnx, (Hci x r).
Qed.
End SweepAnswers.

(** ** The use cases (PurgeWorkItem.go) *)

Definition ItemPurgedAction : string := "item.purged".
Definition TrashEmptiedAction : string := "trash.emptied".

Section UseCases.
Context (p : Purger) (sg : Safeguards) (new_id : nat -> ID).

(** The trail names what was removed, and of what was kept back three reasons. *)
Definition RecordAudit (actor : Actor) (action target : string) (targetID : ID) (o : Outcome) (reason : string) (now : Time) : M Server unit := fun w =>
  let counted := omap (fun blocked => let n := default 0 (oc_blocked o !! blocked) in
                   if 0 <? n then Some ("blocked_" +:+ blocked, itoa n) else None)
                   [BlockedByLegalHold; BlockedByTombstoneWindow; BlockedByDescendant] in
  let entry := mkAudit (ac_tenant actor) action target targetID
    ([("reason", reason); ("matched", itoa (oc_matched o)); ("removed", itoa (oc_removed o))] ++ counted) now in
  (mkServer (sv_items w) (sv_containers w) (sv_journal w) (sv_tombstones w) (sv_outbox w) (sv_minted w) (sv_changes w) (sv_warned w)
     (sv_exported w) (sv_cursors w) (sv_audit w ++ [entry]), Ok tt).

Definition not_there (id : ID) : Error := detailed ErrNotFound "items.not_found" [("item_id", id)].
Definition find_item (id : ID) : M Server ItemRow := query (fun w =>
  match sv_items w !! id with Some r => Ok r | None => Err (not_there id) end).
Definition find_container (id : ID) : M Server ContainerRow := query (fun w =>
  match sv_containers w !! id with Some c => Ok c | None => Err ErrNotFound end).

Definition purged_item (tenant id : ID) (r : ItemRow) : PurgedItem := mkPurgedItem id tenant (ir_type r) (ir_path r) (ir_collection r).

(** [authorize] is the decision of the authorizer for the entry as it was found
    before the transaction. *)
Definition PurgeWorkItem (authorize : ItemRow -> ContainerRow -> res unit) (actor : Actor) (itemID : ID) (now : Time) : M Server Z :=
  if id_is_zero itemID then fail (field_refused ErrValidation "/item_id" "items.item_id_required" [])
  else
    before <~ find_item itemID;
    collection <~ find_container (ir_collection before);
    lift (authorize before collection) ;;
    within (
      item <~ find_item itemID;
      match ir_deleted_at item with
      | None => fail (detailed ErrConflict "items.not_trashed" [("item_id", itemID)])
      | Some _ =>
          removed <~ Subtree p sg new_id (purged_item (ac_tenant actor) itemID item) (cr_parent collection) DeletedByUser now;
          RecordAudit actor ItemPurgedAction "item" itemID (mkOutcome removed 0 removed 0 ∅ ∅ ∅ false) DeletedByUser now ;;
          ret removed
      end).

(** The documents' sweep is a step of its own, a parameter here. *)
Definition EmptyTrash (authorize : res unit) (documents : M Server Outcome) (add : Outcome -> Outcome -> Outcome) (actor : Actor) (now : Time) : M Server Outcome :=
  lift authorize ;;
  within (
    outcome <~ Sweep p sg new_id actor (mkSelection now DeletedByUser false false) now;
    swept <~ documents;
    RecordAudit actor TrashEmptiedAction "trash" (ac_tenant actor) (add outcome swept) DeletedByUser now ;;
    ret (add outcome swept)).

(** A purge that is refused - the entry is not there, not in the trash, held, or
    the caller may not - leaves everything as it was. *)
Lemma purge_refused_whole authorize actor itemID now w e w' :
  PurgeWorkItem authorize actor itemID now w = (w', Err e) -> w' = w.
Proof.
  unfold PurgeWorkItem. destruct (id_is_zero itemID); [by intros [= <- _]|].
  unfold bind at 1, find_item at 1, query at 1. destruct (sv_items w !! itemID) as [r|]; [|by intros [= <- _]].
  unfold bind at 1, find_container, query at 1. destruct (sv_containers w !! ir_collection r) as [c|]; [|by intros [= <- _]].
  unfold bind at 1, lift at 1. destruct (authorize r c) as [[]| |]; [|by intros [= <- _]|done].
  unfold within. match goal with |- match ?x with _ => _ end = _ -> _ => destruct x as [w1 [a|e1|]] end; by intros [= <-].
Qed.
End UseCases.

(** ** A workspace, on a concrete input

    A hub with one collection; in its trash a task with a package below it,
    which somebody on hold commented on, and a task of nobody's. *)
Definition uuid (last : string) : ID := "0190b3a1-0000-7000-8000-00000000000" +:+ last.
Definition in_trash (id parent : ID) (path : list ID) (at_ : Time) : ItemRow :=
  mkItemRow "TASK" parent (segs path) (Z.of_nat (List.length path)) (uuid "c") "t" None None (Some at_) "b" at_ 1 None "" "" "".
Definition trash_server : Server :=
  mkServer
    (list_to_map [(uuid "1", in_trash (uuid "1") "" [uuid "1"] 10); (uuid "2", in_trash (uuid "2") (uuid "1") [uuid "1"; uuid "2"] 10);
                  (uuid "3", in_trash (uuid "3") "" [uuid "3"] 10)])
    (list_to_map [(uuid "b", mkContainerRow true "" None); (uuid "c", mkContainerRow false (uuid "b") None)])
    ∅ ∅ [] 0 [] [] [] ∅ [].

Definition anna : ID := uuid "a".
Definition anna_held : LegalHold := mkHold "h" HoldAccount anna "case" "lawyer" 1 "" zero_time "".
Definition desk_guards : Safeguards :=
  mkSafeguards (Ok [anna_held]) (Ok (fun id => if String.eqb id (uuid "2") then [anna] else [])) None.
Definition office_id (n : nat) : ID := "event" +:+ itoa (Z.of_nat n).
Definition office : Actor := mkActor "tenant".
Definition by_hand : Selection := mkSelection 100 DeletedByUser false false.
Definition purger_of (batch : Z) : Purger := mkPurger 90 batch.

(** [RunRetention.Exhausted]: whether the job need not come straight back. *)
Definition Exhausted (p : Purger) (o : Outcome) : bool := negb (oc_unfinished o) && (oc_matched o - oc_held o <? pg_batch p).

Definition swept_trash : Server := Eval vm_compute in fst (Sweep (purger_of 5) desk_guards office_id office by_hand 100 trash_server).
Definition swept_outcome : Outcome := Eval vm_compute in
  match snd (Sweep (purger_of 5) desk_guards office_id office by_hand 100 trash_server) with Ok o => o | _ => no_outcome end.

Lemma swept_run : Sweep (purger_of 5) desk_guards office_id office by_hand 100 trash_server = (swept_trash, Ok swept_outcome).
Proof. vm_compute. reflexivity. Qed.

(** The held package stays and keeps its task back; the third entry goes. *)
Example held_trash_stays : dom (sv_items swept_trash) = {[uuid "1"; uuid "2"]} /\ oc_removed swept_outcome = 1 /\
  oc_blocked swept_outcome = {[BlockedByLegalHold := 1; BlockedByDescendant := 1]}.
Proof. split; [|split]; [apply (bool_decide_eq_true_1 _); by vm_compute|reflexivity|apply (bool_decide_eq_true_1 _); by vm_compute]. Qed.

(** In a batch of one the kept task fills the batch: the pass removes nothing,
    changes nothing, and says that it has to come straight back - where it finds
    the same. *)
Example kept_parents_stall : exists o, Sweep (purger_of 1) desk_guards office_id office by_hand 100 trash_server = (trash_server, Ok o) /\
  oc_removed o = 0 /\ Exhausted (purger_of 1) o = false.
Proof. eexists. split; [vm_compute; reflexivity|]. by vm_compute. Qed.

(** The promises of the foreign keys, decided on a table. *)
Definition store_check (w : Server) : bool :=
  bool_decide (sv_items w !! "" = None) && bool_decide (sv_containers w !! "" = None) &&
  forallb (fun x => String.eqb (ir_parent (snd x)) "" ||
     match sv_items w !! ir_parent (snd x) with Some q => below (ir_path q) (snd x) | None => false end) (map_to_list (sv_items w)) &&
  forallb (fun x => bool_decide (is_Some (sv_containers w !! ir_collection (snd x)))) (map_to_list (sv_items w)) &&
  forallb (fun x => String.eqb (cr_parent (snd x)) "" ||
     match sv_containers w !! cr_parent (snd x) with Some h => String.eqb (cr_parent h) "" | None => false end) (map_to_list (sv_containers w)) &&
  forallb (fun x => bool_decide (sv_containers w !! fst x = None)) (map_to_list (sv_items w)) &&
  (Z.of_nat (List.length (map_to_list (sv_items w))) <? 2 ^ 31) && (Z.of_nat (List.length (map_to_list (sv_containers w))) <? 2 ^ 31).

Lemma store_checked w : store_check w = true -> store_ok w.
Proof.
  unfold store_check. intros H. bools. rewrite List.forallb_forall in *. rewrite length_map_to_list in *.
  assert (forall {A} (m : gmap ID A) id r, m !! id = Some r -> In (id, r) (map_to_list m)) as Hin.
  { intros A m id r Hr. by apply list_elem_of_In, elem_of_map_to_list. }
  split; try done.
  - intros id r Hr Hne. apply Hin in Hr. match goal with H : forall x, In x (map_to_list (sv_items w)) -> _ || _ = true |- _ => specialize (H _ Hr) end. cbn in *.
    rewrite (proj2 (String.eqb_neq _ _) Hne) in *. cbn in *. destruct (sv_items w !! ir_parent r) as [q|]; [|done]. by exists q.
  - intros id r Hr. apply Hin in Hr. match goal with H : forall x, In x (map_to_list (sv_items w)) -> bool_decide (is_Some _) = true |- _ => specialize (H _ Hr) end. by bools.
  - intros id r Hr Hne. apply Hin in Hr. match goal with H : forall x, In x (map_to_list (sv_containers w)) -> _ || _ = true |- _ => specialize (H _ Hr) end. cbn in *.
    rewrite (proj2 (String.eqb_neq _ _) Hne) in *. cbn in *. destruct (sv_containers w !! cr_parent r) as [q|]; [|done]. exists q. split; [done|]. by apply String.eqb_eq.
  - intros id [r Hr]. apply Hin in Hr. match goal with H : forall x, In x (map_to_list (sv_items w)) -> bool_decide (_ = None) = true |- _ => specialize (H _ Hr) end. by bools.
  - rewrite <- !length_map_to_list in *. done.
Qed.

Lemma trash_store_ok : store_ok trash_server.
Proof. apply store_checked. vm_compute. reflexivity. Qed.

Lemma trash_row id r : sv_items trash_server !! id = Some r ->
  (id = uuid "1" /\ r = in_trash id "" [id] 10) \/ (id = uuid "2" /\ r = in_trash id (uuid "1") [uuid "1"; id] 10) \/
  (id = uuid "3" /\ r = in_trash id "" [id] 10).
Proof.
  intros H. apply elem_of_list_to_map_2 in H. rewrite !elem_of_cons, elem_of_nil in H.
  destruct H as [[= -> ->]|[[= -> ->]|[[= -> ->]|[]]]]; tauto.
Qed.

Lemma trash_paths_ok : paths_ok trash_server.
Proof.
  split.
  - intros id r [[-> ->]|[[-> ->]|[-> ->]]]%trash_row.
    + exists []. split; [by repeat constructor|]. split; [done|]. by intros [|] x post.
    + exists [uuid "1"]. split; [by repeat constructor|]. split; [done|].
      intros [|y [|]] x post E; [|done|done]. injection E as <- <-. by eexists.
    + exists []. split; [by repeat constructor|]. split; [done|]. by intros [|] x post.
  - by intros id r x q [[-> ->]|[[-> ->]|[-> ->]]]%trash_row [[-> ->]|[[-> ->]|[-> ->]]]%trash_row.
Qed.


Lemma sweep_finds_due_witness : exists s,
  expiredItems (purger_of 1) desk_guards [anna_held] ∅ 100 100 no_outcome trash_server = (trash_server, Ok s) /\ rg_removable s = [uuid "1"].
Proof.
  destruct (sweep_finds_due (purger_of 1) desk_guards [anna_held] ∅ 100 100 no_outcome trash_server
    (fun id => if String.eqb id (uuid "2") then [anna] else []) trash_store_ok eq_refl ltac:(split; intros E; discriminate E)) as (s & Hs & Hr).
  exists s. split; [exact Hs|]. rewrite Hr. vm_compute. reflexivity.
Defined.

Lemma sweep_answers_witness : exists w' o, Sweep (purger_of 5) desk_guards office_id office by_hand 100 trash_server = (w', Ok o).
Proof.
  apply (sweep_answers (purger_of 5) desk_guards office_id office by_hand 100 trash_server [anna_held] ∅
    (fun id => if String.eqb id (uuid "2") then [anna] else []) trash_store_ok); try reflexivity; try discriminate.
Defined.

Definition third : PurgedItem := purged_item "tenant" (uuid "3") (in_trash (uuid "3") "" [uuid "3"] 10).
Definition third_purged : Server := Eval vm_compute in fst (Subtree (purger_of 5) desk_guards office_id third (uuid "b") DeletedByUser 100 trash_server).
Lemma third_run : Subtree (purger_of 5) desk_guards office_id third (uuid "b") DeletedByUser 100 trash_server = (third_purged, Ok 1).
Proof. vm_compute. reflexivity. Qed.

(** What somebody on hold commented on keeps its parent from being purged. *)
Example held_below : Subtree (purger_of 5) desk_guards office_id (purged_item "tenant" (uuid "1") (in_trash (uuid "1") "" [uuid "1"] 10))
  (uuid "b") DeletedByUser 100 trash_server = (trash_server, Err (legalHoldRefusal anna_held)).
Proof. vm_compute. reflexivity. Qed.

Lemma subtree_safe_witness : sv_items third_purged !! uuid "1" = Some (in_trash (uuid "1") "" [uuid "1"] 10) /\ announced third_purged (uuid "3").
Proof.
  destruct (subtree_safe (purger_of 5) desk_guards office_id third (in_trash (uuid "3") "" [uuid "3"] 10) (uuid "b") DeletedByUser 100
    trash_server third_purged 1 [anna_held] trash_store_ok trash_paths_ok eq_refl ltac:(vm_compute; reflexivity) eq_refl eq_refl third_run) as (H1 & H2 & _).
  split; [apply H1; vm_compute; reflexivity|].
  apply (H2 (uuid "3") (in_trash (uuid "3") "" [uuid "3"] 10)); vm_compute; reflexivity.
Defined.
