(* ===== verification/RuleSweep.v ===== *)
(** * The rule sweep: announcing what a rule would do, then doing it

    Models core/application/service/lifecycle/RetentionSweep.go: one pass of the
    [Sweeper] marks what the rules of a workspace have reached and what a
    chain's second stage has, tells the devices and the people, and acts on the
    markings whose grace is over; and the statements of
    infrastructure/postgres/RetentionMarkingRepository.go and
    RetentionCursorRepository.go with db/queries/Retention.sql that it reads and
    writes the markings with.

    The state is [Purge.Server].  What a rule's condition says of an entry is
    decided by an expression engine of another package, a parameter; so is the
    archive written before a deletion.  The reading of a change's clock is not
    part of the change here.

    The theorems: [act_safe], acting erases and changes only what was chosen
    with every safeguard, and what lies below it; [marks_told], the first phase
    marks by the rule owed, a grace period ahead, and tells the devices so;
    [pass_ends], the reads end.  They rest on [walk_spec], a read in pages is a
    read in order, and on step invariants of the store ([acted], [so_told],
    [steady]).  The examples at the end are passes that do what the rules for
    parents and children say they must not, and passes that can never succeed. *)

From Stdlib Require Import ZArith Lia String Ascii List Bool.
From stdpp Require Import base list strings gmap fin_maps fin_sets.
From S2P Require Import Prelude Shared Effects Item Hierarchy Text Retention Purge.

Open Scope string_scope.
Open Scope list_scope.
Open Scope Z_scope.
Open Scope effect_scope.

(** ** The port's data (repository/lifecycle/Port.go) *)

Record Candidate := mkCandidate {
  cd_id : ID; cd_type : string; cd_path : string; cd_collection : ID; cd_hub : ID; cd_anchored_at : Time; cd_title : string;
  cd_pending : Time; cd_rule : ID; cd_action : string
}.

Definition PositionOf (c : Candidate) : Position := mkPosition (cd_anchored_at c) (cd_id c).
Definition IsStart (p : Position) : bool := id_is_zero (ps_id p).
Definition start : Position := mkPosition zero_time "".

Abbreviation Reader := (string * (string * ID))%type (only parsing).
Definition ReaderAnnounce : string := "ANNOUNCE".
Definition ReaderChain : string := "CHAIN".
Definition ReaderAct : string := "ACT".

(** ** The statements on the markings *)

Definition place_cmp : Time * ID -> Time * ID -> comparison := cmp_pair Z.compare String.compare.
Definition candidate_place (c : Candidate) : Time * ID := (cd_anchored_at c, cd_id c).

(** The keyset: after the position, or from the start. *)
Definition past (after : Position) (c : Candidate) : bool :=
  IsStart after || match place_cmp (candidate_place c) (ps_at after, ps_id after) with Gt => true | _ => false end.

Definition maxRetentionBatch : Z := 10000.
Definition DefaultRetentionBatch : Z := 1000.
Definition retentionBatch (batch : Z) : Z :=
  if (batch <=? 0) || (maxRetentionBatch <? batch) then DefaultRetentionBatch else batch.

(** A page of the rows a statement selects, in its order. *)
Definition candidates_page (rows : list Candidate) (after : Position) (batch : Z) : list Candidate :=
  take (Z.to_nat (retentionBatch batch)) (sort_by (cmp_on candidate_place place_cmp) (List.filter (past after) rows)).

(** The columns of a candidate; only the marked ones carry their marking. *)
Definition candidate_of (w : Server) (x : ID * ItemRow) (at_ pending : Time) (rule action : string) : option Candidate :=
  match hub_of w (ir_collection (snd x)) with
  | Some hub => Some (mkCandidate (fst x) (ir_type (snd x)) (ir_path (snd x)) (ir_collection (snd x)) hub at_ (ir_title (snd x))
                        pending rule action)
  | None => None
  end.

(** The moment a kind counts from, of the rows its statement takes. *)
Definition anchor_of (anchor : string) (r : ItemRow) : option Time :=
  if String.eqb anchor AnchorCompletedAt then
    match ir_deleted_at r, ir_archived_at r with None, None => ir_completed_at r | _, _ => None end
  else if String.eqb anchor AnchorArchivedAt then match ir_deleted_at r with None => ir_archived_at r | Some _ => None end
  else if String.eqb anchor AnchorDeletedAt then ir_deleted_at r
  else None.

Definition anchored (w : Server) (anchor : string) (cutoff : Time) (own : option ID) : list Candidate :=
  omap (fun x =>
    match anchor_of anchor (snd x), ir_pending (snd x) with
    | Some at_, None =>
        if (at_ <? cutoff) && match own with None => true | Some rule => String.eqb (ir_rule (snd x)) rule end
        then candidate_of w x at_ zero_time "" "" else None
    | _, _ => None
    end) (map_to_list (sv_items w)).

(** [shared.Internalf]: the cause is not part of the answer. *)
Definition no_statement : Error := ErrInternal.

Definition Due (anchor : string) (cutoff : Time) (after : Position) (batch : Z) : M Server (list Candidate) := query (fun w =>
  if contains [AnchorCompletedAt; AnchorArchivedAt; AnchorDeletedAt] anchor then Ok (candidates_page (anchored w anchor cutoff None) after batch)
  else Err no_statement).

Definition DueInChain (anchor : string) (rule : ID) (cutoff : Time) (after : Position) (batch : Z) : M Server (list Candidate) := query (fun w =>
  if contains [AnchorArchivedAt; AnchorDeletedAt] anchor then Ok (candidates_page (anchored w anchor cutoff (Some rule)) after batch)
  else Err no_statement).

Definition marked (w : Server) (now : Time) : list Candidate :=
  omap (fun x => match ir_pending (snd x) with
    | Some until => if until <=? now then candidate_of w x until until (ir_rule (snd x)) (ir_action (snd x)) else None
    | None => None
    end) (map_to_list (sv_items w)).

Definition MarkedDue (now : Time) (after : Position) (batch : Z) : M Server (list Candidate) :=
  query (fun w => Ok (candidates_page (marked w now) after batch)).

(** An UPDATE of the rows named that pass a test; how many it wrote. *)
Definition update_rows (ids : list ID) (P : ItemRow -> bool) (f : ItemRow -> ItemRow) : M Server Z := fun w =>
  let hit := filter (fun x => fst x ∈ ids /\ P (snd x) = true) (sv_items w) in
  (with_items w ((f <$> hit) ∪ sv_items w), Ok (Z.of_nat (size hit))).

Definition marking (r : ItemRow) (pending : option Time) (rule action blocked : string) : ItemRow :=
  mkItemRow (ir_type r) (ir_parent r) (ir_path r) (ir_depth r) (ir_collection r) (ir_title r) (ir_completed_at r) (ir_archived_at r)
    (ir_deleted_at r) (ir_trash_batch r) (ir_updated_at r) (ir_version r) pending rule action blocked.
Definition stamped (r : ItemRow) (archived deleted : option Time) (batch : ID) (at_ : Time) : ItemRow :=
  mkItemRow (ir_type r) (ir_parent r) (ir_path r) (ir_depth r) (ir_collection r) (ir_title r) (ir_completed_at r) archived
    deleted batch at_ (ir_version r + 1) (ir_pending r) (ir_rule r) (ir_action r) (ir_blocked_by r).

Definition unmarked (r : ItemRow) : bool := match ir_pending r with None => true | Some _ => false end.

Definition Mark (ids : list ID) (rule action : string) (effectiveAt : Time) : M Server Z :=
  update_rows ids unmarked (fun r => marking r (Some effectiveAt) rule action "").
Definition Block (ids : list ID) (rule action reason : string) : M Server Z :=
  update_rows ids (fun r => unmarked r &&
    negb (String.eqb (ir_rule r) rule && String.eqb (ir_action r) action && String.eqb (ir_blocked_by r) reason))
    (fun r => marking r (ir_pending r) rule action reason).
Definition Clear (ids : list ID) (keepRule : bool) (now : Time) : M Server Z :=
  update_rows ids (fun r => negb (unmarked r))
    (fun r => stamped (marking r None (if keepRule then ir_rule r else "") "" "") (ir_archived_at r) (ir_deleted_at r) (ir_trash_batch r) now).
Definition Archive (ids : list ID) (at_ : Time) : M Server Z :=
  update_rows ids (fun r => match ir_archived_at r, ir_deleted_at r with None, None => true | _, _ => false end)
    (fun r => stamped r (Some at_) (ir_deleted_at r) (ir_trash_batch r) at_).
Definition TrashRows (ids : list ID) (batch : ID) (at_ : Time) : M Server Z :=
  update_rows ids (fun r => match ir_deleted_at r with None => true | Some _ => false end)
    (fun r => stamped r (ir_archived_at r) (Some at_) batch at_).

(** [CountRetainedDescendants]: what is live below an entry and not going. *)
Definition RetainedDescendants (w : Server) (going : list ID) (id : ID) : Z :=
  match sv_items w !! id with
  | None => 0
  | Some r => Z.of_nat (size (filter (fun x => below (ir_path r) (snd x) = true /\ fst x <> id /\ ir_deleted_at (snd x) = None /\ fst x ∉ going) (sv_items w)))
  end.

(** ** Cursors *)

Definition with_cursors (w : Server) (cursors : gmap (string * (string * ID)) Position) : Server :=
  mkServer (sv_items w) (sv_containers w) (sv_journal w) (sv_tombstones w) (sv_outbox w) (sv_minted w) (sv_changes w) (sv_warned w)
    (sv_exported w) cursors (sv_audit w).
Definition FindCursor (reader : Reader) : M Server (option Position) := query (fun w => Ok (sv_cursors w !! reader)).
Definition SetCursor (reader : Reader) (at_ : Position) : M Server unit := fun w => (with_cursors w (<[reader := at_]> (sv_cursors w)), Ok tt).
Definition ClearCursor (reader : Reader) : M Server unit := fun w => (with_cursors w (delete reader (sv_cursors w)), Ok tt).

(** ** The sweeper *)

(** [sw_condition] is the expression engine over one entry, when it is wired;
    [sw_export] writes the archive to a target, when it is; [sw_warnings] and
    [sw_cursors] say whether these ports are. *)
Record Sweeper := mkSweeper {
  sw_rules : res (list Rule); sw_guards : Safeguards; sw_purger : Purger;
  sw_warnings : bool; sw_condition : option (Rule -> ID -> Time -> res bool);
  sw_export : option (ID -> res unit); sw_batch : Z; sw_cursors : bool; sw_read_budget : Z
}.

Definition DefaultReadBudgetPages : Z := 10.
Definition DefaultSweepBatch : Z := 1000.
Definition batch (s : Sweeper) : Z := if 0 <? sw_batch s then sw_batch s else DefaultSweepBatch.
Definition readBudget (s : Sweeper) : Z := if 0 <? sw_read_budget s then sw_read_budget s else DefaultReadBudgetPages * batch s.

Definition rulesFor (rules : list Rule) (kind : string) : list Rule :=
  List.filter (fun r => String.eqb (ru_kind r) kind && ru_enabled r) rules.

Definition no_rule : Rule :=
  mkRule "" "" (mkScope "" "") "" "" 0 "" 0 "" 0 (mkNotify 0 []) "" false "" "" zero_time zero_time 0 no_failure.
Definition ruleByID (rules : list Rule) (id : ID) : Rule :=
  default no_rule (List.find (fun r => String.eqb (ru_id r) id) rules).

(** [errors.Is(err, shared.ErrValidation)] with a detail code. *)
Definition conditionFailure (e : Error) : option string :=
  if String.eqb (err_code e) (err_code ErrValidation) && bool_decide (err_category e = err_category ErrValidation) &&
     negb (String.eqb (err_detail e) "")
  then Some (err_detail e) else None.

(** *** Outcomes *)

Definition setAside (o : Outcome) (rule : ID) (failure : RuleFailure) : Outcome :=
  mkOutcome (oc_matched o) (oc_held o) (oc_removed o) (oc_read o) (oc_blocked o)
    (match oc_set_aside o !! rule with Some _ => oc_set_aside o | None => <[rule := failure]> (oc_set_aside o) end)
    (oc_judged o) (oc_unfinished o).
Definition rule_judged (o : Outcome) (rule : ID) : Outcome :=
  mkOutcome (oc_matched o) (oc_held o) (oc_removed o) (oc_read o) (oc_blocked o) (oc_set_aside o) ({[rule]} ∪ oc_judged o) (oc_unfinished o).
Definition read_one (o : Outcome) : Outcome :=
  mkOutcome (oc_matched o) (oc_held o) (oc_removed o) (oc_read o + 1) (oc_blocked o) (oc_set_aside o) (oc_judged o) (oc_unfinished o).
Definition with_unfinished (o : Outcome) (unfinished : bool) : Outcome :=
  mkOutcome (oc_matched o) (oc_held o) (oc_removed o) (oc_read o) (oc_blocked o) (oc_set_aside o) (oc_judged o) unfinished.

Definition aside (o : Outcome) (rule : ID) : bool := bool_decide (is_Some (oc_set_aside o !! rule)).

Definition Clean (o : Outcome) : gset ID := filter (fun rule => oc_set_aside o !! rule = None) (oc_judged o).

(** Go walks two maps here; sums and first failures do not depend on the order,
    because the failures of the other outcome are one per rule. *)
Definition add (o other : Outcome) : Outcome :=
  mkOutcome (oc_matched o + oc_matched other) (oc_held o + oc_held other) (oc_removed o + oc_removed other) (oc_read o + oc_read other)
    (union_with (fun a b => Some (a + b)) (oc_blocked o) (oc_blocked other)) (oc_set_aside o ∪ oc_set_aside other)
    (oc_judged o ∪ oc_judged other) (oc_unfinished o || oc_unfinished other).

(** *** The place of a read *)

Record Place := mkPlace { pl_reader : Reader; pl_start : Position; pl_last : Position; pl_read : Z }.
Definition place_judged (p : Place) (c : Candidate) : Place := mkPlace (pl_reader p) (pl_start p) (PositionOf c) (pl_read p + 1).

Section Sweeper.
Context (s : Sweeper) (new_id : nat -> ID).

Definition begin (reader : Reader) : M Server Place :=
  if negb (sw_cursors s) then ret (mkPlace reader start start 0)
  else
    at_ <~ FindCursor reader;
    ret (match at_ with Some at_ => mkPlace reader at_ at_ 0 | None => mkPlace reader start start 0 end).

Definition atBudget (p : Place) : bool := sw_cursors s && (readBudget s <=? pl_read p).

Definition settle (p : Place) (ended : bool) : M Server bool :=
  if negb (sw_cursors s) then ret false
  else if ended then (if IsStart (pl_start p) then ret false else ClearCursor (pl_reader p) ;; ret false)
  else if pl_read p =? 0 then ret false
  else SetCursor (pl_reader p) (pl_last p) ;; ret (atBudget p).

(** The safeguard's verdict, in the order the reasons are named. *)
Definition candidate_target (c : Candidate) (contributors : list ID) : Target :=
  item_target (cd_id c) (cd_path c) (cd_hub c) (cd_collection c) contributors.

Definition blocked (holds : list LegalHold) (restricted : gset ID) (contributors : list ID) (c : Candidate) : option string :=
  FirstBlock ((if restrictedAmong restricted contributors then {[BlockedByRestriction]} else ∅) ∪
              (match Blocking holds (candidate_target c contributors) with Some _ => {[BlockedByLegalHold]} | None => ∅ end)).

(** The three reads of a pass are one loop over pages: judge a page, stop when
    there is enough, at the last page or at the budget, else read on after the
    last row judged.  The answer's last part says that the rows ended.  The fuel
    is a page for every entry and one more. *)
Section Walk.
Context {S : Type} (fetch : Position -> M Server (list Candidate)) (page_step : list Candidate -> S * Place -> M Server (S * Place)) (enough : S -> bool).

Fixpoint walk (fuel : nat) (after : Position) (st : S * Place) : M Server ((S * Place) * bool) :=
  match fuel with
  | O => lift Panic
  | Datatypes.S fuel =>
      page <~ fetch after;
      st <~ page_step page st;
      if enough (fst st) then ret (st, false)
      else if lastPage (batch s) page then ret (st, true)
      else if atBudget (snd st) then ret (st, false)
      else walk fuel (pl_last (snd st)) st
  end.

(** The candidates of a page, until there are enough. *)
Fixpoint judge_all (one : S -> Candidate -> res S) (page : list Candidate) (st : S * Place) : res (S * Place) :=
  match page with
  | [] => Ok st
  | c :: rest =>
      if enough (fst st) then Ok st
      else x ← one (fst st) c; judge_all one rest (x, place_judged (snd st) c)
  end.
End Walk.

Definition every_row (w : Server) : nat := Datatypes.S (size (sv_items w)).

(** *** Telling devices and people *)

Definition dueAt (rule : Rule) (now : Time) : Time := add_days now (ru_grace_days rule).

Definition announceStage (c : Candidate) (rule : Rule) (action : string) (now : Time) : M Server unit := fun w =>
  (mkServer (sv_items w) (sv_containers w) (sv_journal w) (sv_tombstones w) (sv_outbox w) (sv_minted w)
     (sv_changes w ++ [mkRetentionChange (cd_id c) (cd_collection c) action (dueAt rule now) (ru_id rule)]) (sv_warned w)
     (sv_exported w) (sv_cursors w) (sv_audit w), Ok tt).

Definition warn (actor : Actor) (rule : Rule) (c : Candidate) : M Server unit :=
  if negb (sw_warnings s) || Silent (ru_notify rule) then skip
  else fun w =>
    (mkServer (sv_items w) (sv_containers w) (sv_journal w) (sv_tombstones w) (sv_outbox w) (sv_minted w) (sv_changes w)
       (sv_warned w ++ [mkWarning (ac_tenant actor) (cd_id c) (cd_hub c) (cd_collection c) (nf_recipients (ru_notify rule))])
       (sv_exported w) (sv_cursors w) (sv_audit w), Ok tt).

(** *** Phase one *)

Definition matchesCondition (rule : Rule) (c : Candidate) (now : Time) : res bool :=
  if String.eqb (ru_condition rule) "" then Ok true
  else match sw_condition s with
       | None => Err (WithDetail ErrInternal "lifecycle.expression_engine_unavailable")
       | Some evaluate => evaluate rule (cd_id c) now
       end.

Definition block_key : Type := string * (string * string).

(** What a page is judged into: the marked candidates by rule, the rules in the
    order they were met, and what the page's blocks are to record. *)
Record Announcing := mkAnnouncing {
  an_outcome : Outcome; an_by_rule : gmap ID (list Candidate); an_order : list ID; an_markable : Z;
  an_blocks : list (block_key * list ID)
}.

Fixpoint add_block (key : block_key) (id : ID) (blocks : list (block_key * list ID)) : list (block_key * list ID) :=
  match blocks with
  | [] => [(key, [id])]
  | (k, ids) :: rest => if bool_decide (k = key) then (k, ids ++ [id]) :: rest else (k, ids) :: add_block key id rest
  end.

Definition with_outcome (a : Announcing) (o : Outcome) : Announcing :=
  mkAnnouncing o (an_by_rule a) (an_order a) (an_markable a) (an_blocks a).

Definition announce_one (applicable : list Rule) (kind : string) (holds : list LegalHold) (restricted : gset ID)
    (contributors : gmap ID (list ID)) (now : Time) (a : Announcing) (c : Candidate) : res Announcing :=
  let a := with_outcome a (read_one (an_outcome a)) in
  match Effective applicable kind (cd_hub c) (cd_collection c) with
  | None => Ok a
  | Some rule =>
      if negb (cd_anchored_at c <? RuleCutoff rule now) then Ok a
      else if aside (an_outcome a) (ru_id rule) then Ok a
      else match matchesCondition rule c now with
      | Panic => Panic
      | Err e =>
          match conditionFailure e with
          | None => Err e
          | Some code =>
              Ok (mkAnnouncing (setAside (an_outcome a) (ru_id rule) (mkFailure code now)) (delete (ru_id rule) (an_by_rule a)) (an_order a)
                    (an_markable a - Z.of_nat (List.length (default [] (an_by_rule a !! ru_id rule)))) (an_blocks a))
          end
      | Ok false => Ok (with_outcome a (rule_judged (an_outcome a) (ru_id rule)))
      | Ok true =>
          let o := matched_one (rule_judged (an_outcome a) (ru_id rule)) in
          match blocked holds restricted (of_map contributors (cd_id c)) c with
          | Some reason =>
              Ok (mkAnnouncing (held_one (blocked_by o reason)) (an_by_rule a) (an_order a) (an_markable a)
                    (add_block (ru_id rule, (ru_action rule, reason)) (cd_id c) (an_blocks a)))
          | None =>
              let met := an_by_rule a !! ru_id rule in
              Ok (mkAnnouncing o (<[ru_id rule := default [] met ++ [c]]> (an_by_rule a))
                    (match met with None => an_order a ++ [ru_id rule] | Some _ => an_order a end) (an_markable a + 1) (an_blocks a))
          end
      end
  end.

Definition flush (blocks : list (block_key * list ID)) : M Server unit :=
  for_each (fun b => Block (snd b) (fst (fst b)) (fst (snd (fst b))) (snd (snd (fst b))) ;; skip) blocks.

Definition loosest (rules : list Rule) (now : Time) : Time :=
  match rules with
  | [] => zero_time
  | r :: rest => fold_left (fun loose r => if loose <? RuleCutoff r now then RuleCutoff r now else loose) rest (RuleCutoff r now)
  end.

Definition announce_group (actor : Actor) (applicable : list Rule) (a : Announcing) (now : Time) (id : ID) : M Server unit :=
  if aside (an_outcome a) id then skip
  else
    let rule := ruleByID applicable id in
    let group := default [] (an_by_rule a !! id) in
    written <~ Mark (map cd_id group) (ru_id rule) (ru_action rule) (dueAt rule now);
    for_each (fun c => announceStage c rule (ru_action rule) now ;; warn actor rule c) (take (Z.to_nat written) group).

Definition announceRules (actor : Actor) (rules : list Rule) (holds : list LegalHold) (restricted : gset ID) (kind : Kind) (now : Time) : M Server Outcome :=
  let applicable := rulesFor rules (kd_name kind) in
  match applicable with
  | [] => ret no_outcome
  | _ =>
      pl <~ begin (ReaderAnnounce, (kd_name kind, ""));
      fuel <~ query (fun w => Ok (every_row w));
      r <~ walk (fun after => Due (kd_anchor kind) (loosest applicable now) after (batch s))
        (fun page st =>
           contributors <~ contributorsOf (sw_guards s) holds restricted (map cd_id page);
           st <~ lift (judge_all (fun a => batch s <=? an_markable a) (announce_one applicable (kd_name kind) holds restricted contributors now) page
                         (mkAnnouncing (an_outcome (fst st)) (an_by_rule (fst st)) (an_order (fst st)) (an_markable (fst st)) [], snd st));
           flush (an_blocks (fst st)) ;;
           ret st)
        (fun a => batch s <=? an_markable a) fuel (pl_start pl) (mkAnnouncing no_outcome ∅ [] 0 [], pl);
      unfinished <~ settle (snd (fst r)) (snd r);
      let a := with_outcome (fst (fst r)) (with_unfinished (an_outcome (fst (fst r))) unfinished) in
      for_each (announce_group actor applicable a now) (an_order a) ;;
      ret (an_outcome a)
  end.

(** *** A chain's second stage *)

Definition chain_one (holds : list LegalHold) (restricted : gset ID) (contributors : gmap ID (list ID)) (a : Outcome * list Candidate)
    (c : Candidate) : res (Outcome * list Candidate) :=
  let o := matched_one (read_one (fst a)) in
  match blocked holds restricted (of_map contributors (cd_id c)) c with
  | Some reason => Ok (held_one (blocked_by o reason), snd a)
  | None => Ok (o, snd a ++ [c])
  end.

Definition announce_chain (holds : list LegalHold) (restricted : gset ID) (kind : Kind) (now : Time) (aside_rules : gmap ID RuleFailure)
    (o : Outcome) (rule : Rule) : M Server Outcome :=
  if negb (Chained rule) || bool_decide (is_Some (aside_rules !! ru_id rule)) then ret o
  else match StageAnchor rule kind true with
  | None => ret o
  | Some anchor =>
      let enough := fun a : Outcome * list Candidate => batch s <=? Z.of_nat (List.length (snd a)) in
      pl <~ begin (ReaderChain, ("", ru_id rule));
      fuel <~ query (fun w => Ok (every_row w));
      r <~ walk (fun after => DueInChain anchor (ru_id rule) (ThenCutoff rule now) after (batch s))
        (fun page st =>
           contributors <~ contributorsOf (sw_guards s) holds restricted (map cd_id page);
           lift (judge_all enough (chain_one holds restricted contributors) page st))
        enough fuel (pl_start pl) ((o, []), pl);
      unfinished <~ settle (snd (fst r)) (snd r);
      let o := with_unfinished (fst (fst (fst r))) (oc_unfinished (fst (fst (fst r))) || unfinished) in
      let kept := snd (fst (fst r)) in
      match kept with
      | [] => ret o
      | _ =>
          written <~ Mark (map cd_id kept) (ru_id rule) (ru_then_action rule) (dueAt rule now);
          for_each (fun c => announceStage c rule (ru_then_action rule) now) (take (Z.to_nat written) kept) ;;
          ret o
      end
  end.

Fixpoint fold_steps {A X} (f : A -> X -> M Server A) (a : A) (xs : list X) : M Server A :=
  match xs with [] => ret a | x :: rest => a <~ f a x; fold_steps f a rest end.

Definition announceChains (rules : list Rule) (holds : list LegalHold) (restricted : gset ID) (kind : Kind) (now : Time)
    (aside_rules : gmap ID RuleFailure) : M Server Outcome :=
  fold_steps (announce_chain holds restricted kind now aside_rules) no_outcome (rulesFor rules (kd_name kind)).

(** *** Phase two *)

Record Acting := mkActing { at_outcome : Outcome; at_by_action : list (string * Candidate); at_acting : Z }.

(** [going] are the page's own rows; they are not counted as staying below. *)
Definition act_one (w : Server) (holds : list LegalHold) (restricted : gset ID) (contributors : gmap ID (list ID)) (aside_rules : gmap ID RuleFailure)
    (going : list ID) (a : Acting) (c : Candidate) : res Acting :=
  let o := read_one (at_outcome a) in
  if bool_decide (is_Some (aside_rules !! cd_rule c)) then Ok (mkActing o (at_by_action a) (at_acting a))
  else if String.eqb (cd_action c) ActionNotifyOnly then Ok (mkActing o (at_by_action a) (at_acting a))
  else
    let o := matched_one o in
    match blocked holds restricted (of_map contributors (cd_id c)) c with
    | Some reason => Ok (mkActing (held_one (blocked_by o reason)) (at_by_action a) (at_acting a))
    | None =>
        if 0 <? RetainedDescendants w going (cd_id c) then
          Ok (mkActing (held_one (blocked_by o BlockedByDescendant)) (at_by_action a) (at_acting a))
        else Ok (mkActing o (at_by_action a ++ [(cd_action c, c)]) (at_acting a + 1))
    end.

(** [ItemRepository.Find]. *)
Definition FindItem (id : ID) : M Server ItemRow := query (fun w =>
  match sv_items w !! id with Some r => Ok r | None => Err (WithDetail ErrNotFound "items.not_found") end).

Definition remove (actor : Actor) (group : list Candidate) (now : Time) : M Server Z :=
  fold_steps (fun removed c =>
    item <~ FindItem (cd_id c);
    gone <~ Subtree (sw_purger s) (sw_guards s) new_id (purged_item (ac_tenant actor) (cd_id c) item) (cd_hub c) DeletedByRetention now;
    ret (removed + gone)) 0 group.

Definition find_rule (id : ID) : M Server Rule :=
  rules <~ lift (sw_rules s);
  match List.find (fun r => String.eqb (ru_id r) id) rules with
  | Some r => ret r
  | None => fail (detailed ErrNotFound "lifecycle.rule_not_found" [("policy_id", id)])
  end.

Definition exported (target : ID) : M Server unit := fun w =>
  (mkServer (sv_items w) (sv_containers w) (sv_journal w) (sv_tombstones w) (sv_outbox w) (sv_minted w) (sv_changes w) (sv_warned w)
     (sv_exported w ++ [target]) (sv_cursors w) (sv_audit w), Ok tt).

Definition exportFirst (group : list Candidate) : M Server unit :=
  match sw_export s with
  | None => fail (WithDetail ErrConflict "lifecycle.export_unavailable")
  | Some export =>
      fold_steps (fun written c =>
        rule <~ find_rule (cd_rule c);
        if id_is_zero (ru_export_target rule) then fail (detailed ErrConflict "lifecycle.export_target_required" [("policy_id", ru_id rule)])
        else if contains written (ru_export_target rule) then ret written
        else
          lift (export (ru_export_target rule)) ;;
          exported (ru_export_target rule) ;;
          ret (written ++ [ru_export_target rule])) [] group ;;
      skip
  end.

Definition perform (actor : Actor) (action : string) (group : list Candidate) (now : Time) : M Server Z :=
  let ids := map cd_id group in
  let after_act := (Clear ids true now ;; ret (Z.of_nat (List.length ids))) in
  if String.eqb action ActionArchive then Archive ids now ;; after_act
  else if String.eqb action ActionTrash then
    batch_id <~ MintID new_id;
    TrashRows ids batch_id now ;; after_act
  else if String.eqb action ActionExportThenDelete then exportFirst group ;; remove actor group now
  else if String.eqb action ActionHardDelete then remove actor group now
  else after_act.

Definition act (actor : Actor) (holds : list LegalHold) (restricted : gset ID) (now : Time) (aside_rules : gmap ID RuleFailure) : M Server Outcome :=
  let enough := fun a => batch s <=? at_acting a in
  pl <~ begin (ReaderAct, ("", ""));
  fuel <~ query (fun w => Ok (every_row w));
  r <~ walk (fun after => MarkedDue now after (batch s))
    (fun page st =>
       w <~ query (fun w => Ok w);
       contributors <~ contributorsOf (sw_guards s) holds restricted (map cd_id page);
       lift (judge_all enough (act_one w holds restricted contributors aside_rules (map cd_id page)) page st))
    enough fuel (pl_start pl) (mkActing no_outcome [] 0, pl);
  unfinished <~ settle (snd (fst r)) (snd r);
  let a := fst (fst r) in
  fold_steps (fun o action =>
    let group := map snd (List.filter (fun x => String.eqb (fst x) action) (at_by_action a)) in
    match group with
    | [] => ret o
    | _ =>
        removed <~ perform actor action group now;
        ret (with_removed o (oc_removed o + removed))
    end) (with_unfinished (at_outcome a) unfinished) [ActionArchive; ActionTrash; ActionExportThenDelete; ActionHardDelete].

(** *** One pass *)

Definition Pass (actor : Actor) (now : Time) : M Server Outcome :=
  rules <~ lift (sw_rules s);
  holds <~ Active (sw_guards s);
  restricted <~ lift (restrictionsOf (sg_restricted (sw_guards s)));
  outcome <~ fold_steps (fun outcome kind =>
    if negb (kd_marks kind) then ret outcome
    else
      announced <~ announceRules actor rules holds restricted kind now;
      let outcome := add outcome announced in
      chained <~ announceChains rules holds restricted kind now (oc_set_aside outcome);
      ret (add outcome chained)) no_outcome SweptKinds;
  acted <~ act actor holds restricted now (oc_set_aside outcome);
  ret (add outcome acted).
End Sweeper.

(** ** What is chosen to be acted on *)

Lemma first_block_none found : FirstBlock found = None ->
  (BlockedByLegalHold ∉ found) /\ (BlockedByRestriction ∉ found).
Proof.
  unfold FirstBlock, BlockOrder. cbn [List.find].
  destruct (bool_decide_reflect (BlockedByLegalHold ∈ found)); [done|].
  by destruct (bool_decide_reflect (BlockedByRestriction ∈ found)).
Qed.

Lemma blocked_none holds restricted who c : blocked holds restricted who c = None ->
  Blocking holds (candidate_target c who) = None /\ restrictedAmong restricted who = false.
Proof.
  unfold blocked. intros [H1 H2]%first_block_none. split.
  - destruct (Blocking _ _); [set_solver|done].
  - destruct (restrictedAmong _ _); [set_solver|done].
Qed.

(** Nobody's word and no hold keeps the candidate, with everybody who
    contributed to it counted. *)
Definition free (sg : Safeguards) (holds : list LegalHold) (restricted : gset ID) (c : Candidate) : Prop :=
  Blocking holds (candidate_target c (contributed sg (cd_id c))) = None /\ restrictedAmong restricted (contributed sg (cd_id c)) = false.

Lemma blocked_free sg holds restricted ids w w' m c : contributorsOf sg holds restricted ids w = (w', Ok m) -> cd_id c ∈ ids ->
  blocked holds restricted (of_map m (cd_id c)) c = None -> free sg holds restricted c.
Proof.
  intros [_ Hm]%contributorsOf_ok Hin [H1 H2]%blocked_none. unfold free. destruct (Hm _ Hin) as [<-|[Ha Hr]]; [done|].
  split; [|by apply restricted_unneeded]. unfold candidate_target, item_target in *.
  rewrite (contributors_unneeded _ _ _ _ _ Ha) in H1. by rewrite (contributors_unneeded _ _ _ _ _ Ha).
Qed.

(** ** Reading in pages is reading in order *)

#[export] Instance place_cmp_total : TotalCompare place_cmp.
Proof. unfold place_cmp. apply _. Qed.

(** The rows after a position, in the order of the statements. *)
Definition after_rows (rows : list Candidate) (at_ : Position) : list Candidate :=
  sort_by (cmp_on candidate_place place_cmp) (List.filter (past at_) rows).

(** Rows a statement answers: one per entry, each with its identifier. *)
Definition rows_ok (rows : list Candidate) : Prop := NoDup (map cd_id rows) /\ Forall (fun c => cd_id c <> "") rows.

Lemma rows_places rows : rows_ok rows -> NoDup (candidate_place <$> rows).
Proof.
  intros [H _]. induction rows as [|c rows IH]; [constructor|]. cbn in *. apply NoDup_cons in H as [H1 H2]. apply NoDup_cons. split; [|by apply IH].
  intros (d & E & Hd)%list_elem_of_fmap. apply H1. injection E as _ ->. by apply list_elem_of_fmap_2.
Qed.

Lemma filter_filter {A} (P Q : A -> bool) xs : (forall x, P x = true -> Q x = true) -> List.filter P (List.filter Q xs) = List.filter P xs.
Proof.
  intros H. induction xs as [|x xs IH]; [done|]. cbn. destruct (Q x) eqn:EQ; cbn; [by rewrite IH|].
  destruct (P x) eqn:EP; [by rewrite (H x EP) in EQ|done].
Qed.

(** A page after the last row judged takes up where the rows were left. *)
Lemma rows_after rows at_ done c todo : rows_ok rows -> after_rows rows at_ = done ++ c :: todo -> after_rows rows (PositionOf c) = todo.
Proof.
  intros Hok H. pose proof (rows_places _ Hok) as Hnd. unfold after_rows in *. rewrite <- (filter_sort_by candidate_place place_cmp _ rows Hnd) in H. rewrite <- (filter_sort_by candidate_place place_cmp _ rows Hnd).
  pose proof (sort_by_strict candidate_place place_cmp rows Hnd) as Hs. set (all := sort_by _ rows) in *.
  assert (In c (List.filter (past at_) all)) as [Hc Hpc]%filter_In by (rewrite H; apply in_elt).
  set (later := fun d => match place_cmp (candidate_place d) (candidate_place c) with Gt => true | _ => false end).
  assert (List.filter (past (PositionOf c)) all = List.filter later all) as ->.
  { apply filter_ext. intros d. unfold past, later, IsStart, PositionOf, id_is_zero. cbn.
    destruct (String.eqb_spec (cd_id c) "") as [E|]; [|done]. destruct Hok as [_ Hid]. rewrite List.Forall_forall in Hid.
    assert (In c rows) as Hin by (apply list_elem_of_In; apply list_elem_of_In in Hc; unfold all in Hc; by rewrite sort_by_perm in Hc by apply _).
    by apply Hid in Hin. }
  apply (filter_sorted (past at_)) in Hs. rewrite H in Hs. apply (sorted_after candidate_place place_cmp) in Hs. rewrite <- H in Hs. fold later in Hs.
  rewrite <- Hs. symmetry. apply filter_filter. intros d Hd. unfold past in *. destruct (IsStart at_); [done|]. cbn in *.
  unfold later in Hd. destruct (place_cmp (candidate_place d) (candidate_place c)) eqn:E1; [done..|].
  destruct (place_cmp (candidate_place c) _) eqn:E2; [done..|]. rewrite cmp_opp in E1. rewrite (cmp_opp (cmp := place_cmp)) in E2.
  rewrite (cmp_opp (cmp := place_cmp)).
  rewrite (cmp_trans (cmp := place_cmp) (ps_at at_, ps_id at_) (candidate_place c) (candidate_place d)); [done|..].
  - by destruct (place_cmp (ps_at at_, ps_id at_) (candidate_place c)).
  - by destruct (place_cmp (candidate_place c) (candidate_place d)).
Qed.

Section WalkInv.
Context (s : Sweeper) {T : Type} (fetch : Position -> M Server (list Candidate)) (page_step : list Candidate -> T * Place -> M Server (T * Place)) (enough : T -> bool).

(** What every page's step keeps holds when the walk ends. *)
Lemma walk_inv (I : Server -> T * Place -> Prop) :
  (forall at_ page w w1 w' st st', fetch at_ w = (w1, Ok page) -> I w st -> page_step page st w1 = (w', Ok st') -> I w' st') ->
  forall fuel at_ st w w' st' ended, I w st -> walk s fetch page_step enough fuel at_ st w = (w', Ok (st', ended)) -> I w' st'.
Proof.
  intros Hstep. induction fuel as [|fuel IH]; cbn [walk]; intros at_ st w w' st' ended HI H; [done|].
  apply bind_run in H as (page & w1 & Hf & H). apply bind_run in H as (st1 & w2 & Hp & H).
  assert (I w2 st1) as HI1 by (by eapply Hstep).
  destruct (enough st1.1); [by injection H as <- <- <-|]. destruct (lastPage _ _); [by injection H as <- <- <-|].
  destruct (atBudget _ _); [by injection H as <- <- <-|]. by eapply IH.
Qed.

Lemma judge_all_inv (one : T -> Candidate -> res T) (P : T -> Prop) page :
  (forall st c st', c ∈ page -> P st -> one st c = Ok st' -> P st') ->
  forall st st', P (fst st) -> judge_all enough one page st = Ok st' -> P (fst st').
Proof.
  intros Hone. induction page as [|c page IH]; cbn [judge_all]; intros st st' HP H; [by injection H as <-|].
  destruct (enough (fst st)); [by injection H as <-|]. destruct (one (fst st) c) as [x| |] eqn:E; [|done..]. cbn in H.
  apply (IH (fun st c st' Hc => Hone st c st' (proj2 (elem_of_cons _ _ _) (or_intror Hc)))) in H; [done|].
  cbn. eapply Hone; [|exact HP|exact E]. apply elem_of_cons. by left.
Qed.
End WalkInv.

(** What a page's judging leaves: the first rows of it, one after the other;
    all of it when there are not enough yet. *)
Lemma judge_all_run {T} (enough : T -> bool) (one : T -> Candidate -> res T) page : forall st st', judge_all enough one page st = Ok st' ->
  exists k, snd st' = fold_left place_judged (take k page) (snd st) /\ fold_result one (fst st) (take k page) = Ok (fst st') /\
    (enough (fst st') = false -> take k page = page).
Proof.
  induction page as [|c page IH]; cbn [judge_all]; intros st st' H; [injection H as <-; by exists 0%nat|].
  destruct (enough (fst st)) eqn:E; [injection H as <-; exists 0%nat; cbn; split; [done|split; [done|congruence]]|].
  destruct (one (fst st) c) as [x| |] eqn:Ex; [|done..]. cbn in H. apply IH in H as (k & H1 & H2 & H3). exists (Datatypes.S k). cbn.
  rewrite Ex. cbn. split; [done|]. split; [done|]. intros Hn. by rewrite H3.
Qed.

Section WalkSpec.
Context (s : Sweeper) {T : Type} (fetch : Position -> M Server (list Candidate)) (page_step : list Candidate -> T * Place -> M Server (T * Place)) (enough : T -> bool).
Context (rows : list Candidate) (at0 : Position) (J : list Candidate -> Server -> T -> Prop).
Hypothesis rows_are : rows_ok rows.
Hypothesis fetched : forall rd v t at_, J rd v t -> fetch at_ v = (v, Ok (candidates_page rows at_ (batch s))).
Hypothesis stepped : forall rd page v t pl v' st', (exists rest, after_rows rows at0 = rd ++ page ++ rest) -> J rd v t ->
  page_step page (t, pl) v = (v', Ok st') ->
  exists k, snd st' = fold_left place_judged (take k page) pl /\ J (rd ++ take k page) v' (fst st') /\
    (enough (fst st') = false -> take k page = page).

Lemma batch_positive : 1 <= batch s.
Proof. unfold batch, DefaultSweepBatch. destruct (Z.ltb_spec 0 (sw_batch s)); lia. Qed.

Lemma page_positive : (1 <= Z.to_nat (retentionBatch (batch s)))%nat.
Proof.
  pose proof batch_positive. unfold retentionBatch, DefaultRetentionBatch. destruct (_ || _) eqn:E; [lia|].
  apply orb_false_iff in E as [E _]. apply Z.leb_gt in E. lia.
Qed.

Lemma last_place page pl c : pl_last (fold_left place_judged (page ++ [c]) pl) = PositionOf c.
Proof. by rewrite fold_left_app. Qed.

(** After a page that was not the last, the rows go on where it ended. *)
Lemma page_on todo at_ : after_rows rows at_ = todo -> lastPage (batch s) (take (Z.to_nat (retentionBatch (batch s))) todo) = false ->
  let page := take (Z.to_nat (retentionBatch (batch s))) todo in
  (List.length (drop (List.length page) todo) < List.length todo)%nat /\
  forall pl, after_rows rows (pl_last (fold_left place_judged page pl)) = drop (List.length page) todo.
Proof.
  intros Ht Hl page. pose proof batch_positive as Hb. pose proof page_positive as Hp.
  unfold lastPage in Hl. apply orb_false_iff in Hl as [_ Hl%Z.ltb_ge]. fold page in Hl.
  assert (todo = page ++ drop (List.length page) todo) as Hsplit.
  { unfold page. rewrite length_take. destruct (Nat.min_spec (Z.to_nat (retentionBatch (batch s))) (List.length todo)) as [[_ ->]|[Hle ->]]; [by rewrite take_drop|].
    by rewrite drop_all, app_nil_r, take_ge. }
  destruct page as [|c page' _] using rev_ind; [cbn in Hl; lia|].
  split; [rewrite length_drop, length_app; apply (f_equal List.length) in Hsplit; rewrite !length_app in Hsplit; cbn in *; lia|].
  intros pl. rewrite last_place. eapply rows_after; [done|]. rewrite Ht, Hsplit at 1. rewrite <- app_assoc. done.
Qed.

(** What a walk that answers has read: the rows in order, none twice and none
    left out; all of them when it says that they ended. *)
Lemma walk_spec fuel : forall rd todo at_ t pl w w' st' ended, after_rows rows at0 = rd ++ todo -> after_rows rows at_ = todo -> J rd w t ->
  walk s fetch page_step enough fuel at_ (t, pl) w = (w', Ok (st', ended)) ->
  exists seen rest, todo = seen ++ rest /\ J (rd ++ seen) w' (fst st') /\ snd st' = fold_left place_judged seen pl /\
    (ended = true -> batch s <= maxRetentionBatch -> rest = []).
Proof.
  induction fuel as [|fuel IH]; cbn [walk]; intros rd todo at_ t pl w w' st' ended Hall Hat HJ H; [done|].
  apply bind_run in H as (page & w1 & Hf & H). rewrite (fetched _ _ _ _ HJ) in Hf. injection Hf as <- <-.
  unfold candidates_page in H. fold (after_rows rows at_) in H. rewrite Hat in H. set (n := Z.to_nat (retentionBatch (batch s))) in *.
  apply bind_run in H as (st1 & w2 & Hp & H). assert (todo = take n todo ++ drop n todo) as Hn by (by rewrite take_drop).
  apply (stepped rd) in Hp as (k & Hpl & HJ1 & Hk); [|exists (drop n todo); by rewrite <- Hn|done].
  assert (todo = take k (take n todo) ++ drop k (take n todo) ++ drop n todo) as Hkn by (by rewrite app_assoc, take_drop).
  destruct (enough (fst st1)) eqn:En; [injection H as <- <- <-; exists (take k (take n todo)), (drop k (take n todo) ++ drop n todo); done|].
  rewrite Hk in * by done. destruct (lastPage _ _) eqn:El.
  - injection H as <- <- <-. exists (take n todo), (drop n todo). split; [done|]. split; [done|]. split; [done|]. intros _ Hmax.
    pose proof batch_positive. unfold lastPage in El. rewrite (proj2 (Z.leb_gt (batch s) 0)) in El by lia. apply Z.ltb_lt in El.
    rewrite length_take in El. unfold n in *. unfold retentionBatch in *. rewrite (proj2 (Z.leb_gt (batch s) 0)), (proj2 (Z.ltb_ge maxRetentionBatch (batch s))) in * by lia.
    apply drop_ge. cbn in *. lia.
  - destruct (page_on todo at_ Hat El) as [Hless Hon]. fold n in Hless, Hon.
    assert (drop (List.length (take n todo)) todo = drop n todo) as Hd.
    { rewrite length_take. destruct (Nat.min_spec n (List.length todo)) as [[_ ->]|[Hle ->]]; [done|]. by rewrite !drop_ge by lia. }
    rewrite Hd in *. destruct (atBudget _ _).
    + injection H as <- <- <-. by exists (take n todo), (drop n todo).
    + destruct st1 as [t1 pl1]. cbn in *. subst pl1. apply (IH (rd ++ take n todo) (drop n todo)) in H as (seen & rest & H1 & H2 & H3 & H4);
        [|by rewrite <- app_assoc, <- Hn|apply Hon|done].
      exists (take n todo ++ seen), rest. rewrite fold_left_app, <- app_assoc, <- H1, <- Hn, app_assoc. done.
Qed.
(** A walk over rows that stay where they are has fuel for all its pages. *)
Lemma walk_fuelled fuel : forall rd todo at_ t pl w, after_rows rows at0 = rd ++ todo -> after_rows rows at_ = todo -> J rd w t ->
  (List.length todo < fuel)%nat ->
  (forall rd page v t pl, (exists rest, after_rows rows at0 = rd ++ page ++ rest) -> J rd v t -> snd (page_step page (t, pl) v) <> Panic) ->
  snd (walk s fetch page_step enough fuel at_ (t, pl) w) <> Panic.
Proof.
  induction fuel as [|fuel IH]; intros rd todo at_ t pl w Hall Hat HJ Hfuel Hpage; [lia|]. cbn [walk]. unfold bind at 1.
  rewrite (fetched _ _ _ at_ HJ). unfold candidates_page. fold (after_rows rows at_). rewrite Hat. set (n := Z.to_nat (retentionBatch (batch s))) in *.
  assert (exists rest, after_rows rows at0 = rd ++ take n todo ++ rest) as Hpre by (exists (drop n todo); by rewrite take_drop).
  unfold bind. pose proof (Hpage rd _ w t pl Hpre HJ) as Hnp. destruct (page_step (take n todo) (t, pl) w) as [w1 [st1| |]] eqn:Ep; [|done..].
  apply (stepped rd) in Ep as (k & Hpl & HJ1 & Hk); [|done..]. destruct (enough (fst st1)) eqn:En; [done|]. rewrite Hk in * by done.
  destruct (lastPage _ _) eqn:El; [done|]. destruct (atBudget _ _); [done|]. destruct (page_on todo at_ Hat El) as [Hless Hon]. fold n in Hless, Hon.
  destruct st1 as [t1 pl1]. cbn in *. subst pl1. eapply (IH (rd ++ take n todo) (drop (List.length (take n todo)) todo)); [|apply Hon|done|lia|done].
  rewrite <- app_assoc, Hall. f_equal. rewrite length_take. destruct (Nat.min_spec n (List.length todo)) as [[_ ->]|[Hle ->]]; [by rewrite take_drop|].
  by rewrite drop_all, app_nil_r, take_ge.
Qed.
End WalkSpec.

(** *** What the statements of phase two write *)

(** An entry that stays where it is. *)
Definition same_place (r r' : ItemRow) : Prop := ir_parent r' = ir_parent r /\ ir_path r' = ir_path r /\ ir_collection r' = ir_collection r.

#[export] Instance same_place_preorder : PreOrder same_place.
Proof. split; [by intros r|]. intros a b c (H1 & H2 & H3) (G1 & G2 & G3). unfold same_place. by rewrite G1, G2, G3. Qed.

(** The same entries at the same places. *)
Definition placed (w w' : Server) : Prop :=
  sv_containers w' = sv_containers w /\ forall id, option_Forall2 same_place (sv_items w !! id) (sv_items w' !! id).

Lemma placed_to w w' id r : placed w w' -> sv_items w !! id = Some r -> exists r', sv_items w' !! id = Some r' /\ same_place r r'.
Proof. intros [_ H] Hr. specialize (H id). rewrite Hr in H. inversion H as [? r' Hs Heq|]; subst. by exists r'. Qed.

Lemma placed_from w w' id r' : placed w w' -> sv_items w' !! id = Some r' -> exists r, sv_items w !! id = Some r /\ same_place r r'.
Proof. intros [_ H] Hr. specialize (H id). rewrite Hr in H. inversion H as [r ? Hs Heq|]; subst. by exists r. Qed.

Lemma placed_none w w' id : placed w w' -> sv_items w' !! id = None <-> sv_items w !! id = None.
Proof. intros [_ H]. specialize (H id). by inversion H. Qed.

Lemma same_below path r r' : same_place r r' -> below path r' = below path r.
Proof. intros (_ & H & _). unfold below. by rewrite H. Qed.

Lemma placed_store_ok w w' : placed w w' -> store_ok w -> store_ok w'.
Proof.
  intros Hp Hok. pose proof Hp as [Hc _]. split; rewrite ?Hc.
  - split; [|apply (so_ids _ Hok)]. apply (placed_none _ _ _ Hp), (so_ids _ Hok).
  - intros id r' Hr' Hne. destruct (placed_from _ _ _ _ Hp Hr') as (r & Hr & Hs). pose proof Hs as (H1 & _). rewrite H1 in *.
    destruct (so_parent _ Hok id r Hr Hne) as (q & Hq & Hb). destruct (placed_to _ _ _ _ Hp Hq) as (q' & Hq' & Hsq).
    exists q'. split; [done|]. destruct Hsq as (_ & -> & _). by rewrite (same_below _ r r').
  - intros id r' Hr'. destruct (placed_from _ _ _ _ Hp Hr') as (r & Hr & (_ & _ & ->)). by apply (so_collection _ Hok id r).
  - apply (so_levels _ Hok).
  - intros id [r' Hr']. destruct (placed_from _ _ _ _ Hp Hr') as (r & Hr & _). apply (so_apart _ Hok). by exists r.
  - assert (dom (sv_items w') = dom (sv_items w) :> gset ID) as Hd.
    { apply leibniz_equiv. intros x. rewrite !elem_of_dom, <- !not_eq_None_Some, (placed_none _ _ x Hp). done. }
    rewrite <- !(size_dom (D := gset ID)), Hd. rewrite !(size_dom (D := gset ID)). apply (so_size _ Hok).
Qed.

Lemma placed_paths_ok w w' : placed w w' -> paths_ok w -> paths_ok w'.
Proof.
  intros Hp Hok. split.
  - intros id r' Hr'. destruct (placed_from _ _ _ _ Hp Hr') as (r & Hr & (_ & -> & _)).
    destruct (pt_chain _ Hok id r Hr) as (xs & Hu & Hx & Habove). exists xs. split; [done|]. split; [done|].
    intros pre x post E. destruct (Habove pre x post E) as (q & Hq & Hpq). destruct (placed_to _ _ _ _ Hp Hq) as (q' & Hq' & (_ & Hs & _)).
    exists q'. by rewrite Hs.
  - intros id r' x q' Hr' Hq' Hb. destruct (placed_from _ _ _ _ Hp Hr') as (r & Hr & Hs). destruct (placed_from _ _ _ _ Hp Hq') as (q & Hq & Hsq).
    rewrite (same_below _ r r' Hs) in Hb. destruct Hs as (_ & _ & ->), Hsq as (_ & Hpq & ->). rewrite Hpq in Hb. by apply (pt_collection _ Hok id r x q).
Qed.

(** The rest of the tree spells its paths without a subtree. *)
Lemma subtree_paths_ok w w' prefix : paths_ok w -> sv_items w' = gone (sv_items w) (SubtreeIDs w prefix) -> paths_ok w'.
Proof.
  intros Hok Hg. assert (forall id r, sv_items w' !! id = Some r -> sv_items w !! id = Some r /\ below prefix r = false) as Hstay.
  { intros id r. rewrite Hg, gone_lookup. destruct (decide _) as [|Hn]; [done|]. intros Hr. split; [done|].
    apply not_true_is_false. intros Hb. apply Hn, in_subtree. by exists r. }
  split.
  - intros id r [Hr Hb]%Hstay. destruct (pt_chain _ Hok id r Hr) as (xs & Hu & Hx & Habove). exists xs. split; [done|]. split; [done|].
    intros pre x post E. destruct (Habove pre x post E) as (q & Hq & Hpq). exists q. split; [|done].
    rewrite Hg, gone_lookup. destruct (decide _) as [Hin|]; [|done]. apply in_subtree in Hin as (q' & Hq' & Hbq).
    assert (q' = q) as -> by congruence. assert (below prefix r = true); [|congruence]. apply (below_trans prefix q); [done|].
    unfold below. rewrite Hpq, Hx, E. apply uuids_free in Hu. rewrite E in Hu. rewrite !Forall_app, !Forall_cons in Hu.
    apply segs_prefix; [rewrite !Forall_app, !Forall_cons; tauto..|]. exists (post ++ [id]). by rewrite <- !app_assoc.
  - intros id r x q Hr Hq. apply Hstay in Hr as [Hr _], Hq as [Hq _]. by apply (pt_collection _ Hok id r x q).
Qed.

Lemma update_lookup ids P f w id : sv_items (fst (update_rows ids P f w)) !! id =
  (fun r => if bool_decide (id ∈ ids) && P r then f r else r) <$> sv_items w !! id.
Proof.
  cbn. rewrite lookup_union, lookup_fmap, map_lookup_filter. destruct (sv_items w !! id) as [r|]; cbn; [|done].
  destruct (bool_decide_reflect (id ∈ ids)), (P r) eqn:E; cbn; try (rewrite option_guard_True by done; done); rewrite option_guard_False by (cbn; intuition congruence); done.
Qed.

Lemma update_rows_run ids P f w w' n : (forall r, same_place r (f r)) -> update_rows ids P f w = (w', Ok n) ->
  placed w w' /\ (forall id, id ∉ ids -> sv_items w' !! id = sv_items w !! id) /\
  (forall e x, recorded w e x -> recorded w' e x) /\ (forall x, announced w x -> announced w' x).
Proof.
  intros Hf H. pose proof (update_lookup ids P f w) as Hl. injection H as <- _. cbn [fst update_rows] in Hl.
  split; [split; [done|]|split; [|done]].
  - intros id. rewrite Hl. destruct (sv_items w !! id) as [r|]; cbn; constructor. by destruct (_ && _).
  - intros id Hid. rewrite Hl, bool_decide_eq_false_2 by done. by destruct (sv_items w !! id).
Qed.

Section Acts.
Context (s : Sweeper) (new_id : nat -> ID).

(** Chosen to be acted on: marked with a date that has come, by a rule that was
    not set aside, with an action that acts, and kept by nothing. *)
Definition chosen (holds : list LegalHold) (restricted : gset ID) (aside_rules : gmap ID RuleFailure) (now : Time) (w : Server) (x : string * Candidate) : Prop :=
  fst x = cd_action (snd x) /\ snd x ∈ marked w now /\ aside_rules !! cd_rule (snd x) = None /\
  cd_action (snd x) <> ActionNotifyOnly /\ free (sw_guards s) holds restricted (snd x).

Lemma page_in rows at_ n c : c ∈ candidates_page rows at_ n -> c ∈ rows.
Proof.
  unfold candidates_page. intros H. apply subseteq_take in H. rewrite sort_by_perm in H by apply _.
  apply list_elem_of_In, filter_In in H as [H _]. by apply list_elem_of_In.
Qed.

Lemma act_one_chosen holds restricted aside_rules now w ids m w' going a c a' :
  contributorsOf (sw_guards s) holds restricted ids w = (w', Ok m) -> cd_id c ∈ ids -> c ∈ marked w now ->
  (forall x, x ∈ at_by_action a -> chosen holds restricted aside_rules now w x) ->
  act_one w holds restricted m aside_rules going a c = Ok a' ->
  forall x, x ∈ at_by_action a' -> chosen holds restricted aside_rules now w x.
Proof.
  intros Hm Hin Hc Ha H. unfold act_one in H. destruct (bool_decide_reflect (is_Some (aside_rules !! cd_rule c))); [by injection H as <-|].
  destruct (String.eqb_spec (cd_action c) ActionNotifyOnly); [by injection H as <-|].
  destruct (blocked _ _ _ _) eqn:Eb; [by injection H as <-|]. destruct (0 <? _); [by injection H as <-|].
  injection H as <-. cbn. intros x [Hx|Hx]%elem_of_app; [by apply Ha|]. apply elem_of_cons in Hx as [->|Hx%elem_of_nil]; [|done].
  split; [done|]. split; [done|]. split; [by apply eq_None_not_Some|]. split; [done|]. by eapply blocked_free.
Qed.

(** The reading of phase two changes nothing and chooses only what may go. *)
Lemma act_reading holds restricted aside_rules now fuel at_ pl w w' a pl' ended :
  walk s (fun at_ => MarkedDue now at_ (batch s))
    (fun page st =>
       w <~ query (fun w => Ok w);
       contributors <~ contributorsOf (sw_guards s) holds restricted (map cd_id page);
       lift (judge_all (fun a => batch s <=? at_acting a) (act_one w holds restricted contributors aside_rules (map cd_id page)) page st))
    (fun a => batch s <=? at_acting a) fuel at_ (mkActing no_outcome [] 0, pl) w = (w', Ok ((a, pl'), ended)) ->
  w' = w /\ forall x, x ∈ at_by_action a -> chosen holds restricted aside_rules now w x.
Proof.
  intros H. apply (walk_inv s _ _ _ (fun v st => v = w /\ forall x, x ∈ at_by_action (fst st) -> chosen holds restricted aside_rules now w x)) in H; [done| |].
  - intros q page v v1 v' st st' Hf [-> HI] Hp. injection Hf as <- <-.
    apply bind_run in Hp as (v2 & v3 & Hq & Hp). injection Hq as <- <-. apply bind_run in Hp as (m & v4 & Hm & Hp).
    apply lift_run in Hp as [-> Hp]. pose proof Hm as [-> _]%contributorsOf_ok. split; [done|].
    refine (judge_all_inv _ _ (fun a => forall x, x ∈ at_by_action a -> chosen holds restricted aside_rules now w x) _ _ st st' HI Hp).
    intros st1 c st2 Hc Hst Hone. eapply (act_one_chosen _ _ _ _ w _ m w _ st1 c); [exact Hm|by apply (list_elem_of_fmap_2 cd_id _ c)|by eapply page_in|exact Hst|exact Hone].
  - split; [done|]. by intros x Hx%elem_of_nil.
Qed.
(** *** What acting has done so far *)

Section Acted.
Context (holds : list LegalHold) (restricted : gset ID) (aside_rules : gmap ID RuleFailure) (now : Time) (w : Server).

Definition is_chosen (c : Candidate) : Prop := chosen holds restricted aside_rules now w (cd_action c, c).

(** Archived or sent to the trash as one of the chosen. *)
Definition may_change (id : ID) : Prop :=
  exists c, is_chosen c /\ cd_id c = id /\ (cd_action c = ActionArchive \/ cd_action c = ActionTrash).
(** Removed with a chosen entry above it, no hold reaching it where it was. *)
Definition may_erase (id : ID) (r : ItemRow) : Prop :=
  exists c q, is_chosen c /\ (cd_action c = ActionExportThenDelete \/ cd_action c = ActionHardDelete) /\
    sv_items w !! cd_id c = Some q /\ below (ir_path q) r = true /\
    Blocking holds (item_target id (ir_path r) (cd_hub c) (ir_collection r) (contributed (sw_guards s) id)) = None.

Record acted (v : Server) : Prop := {
  ac_store : store_ok v; ac_paths : paths_ok v; ac_containers : sv_containers v = sv_containers w;
  ac_new : forall id, sv_items w !! id = None -> sv_items v !! id = None;
  ac_rows : forall id r, sv_items w !! id = Some r ->
    match sv_items v !! id with
    | Some r' => same_place r r' /\ (r' = r \/ may_change id)
    | None => may_erase id r /\ recorded v workItemEntity id /\ announced v id
    end
}.

(** What is left alone stays, what moves is one of the chosen. *)
Lemma acted_update v v' (ids : list ID) : acted v -> placed v v' -> (forall id, id ∉ ids -> sv_items v' !! id = sv_items v !! id) ->
  (forall e x, recorded v e x -> recorded v' e x) -> (forall x, announced v x -> announced v' x) -> Forall may_change ids -> acted v'.
Proof.
  intros Ha Hp Hout Hrec Hann Hids. pose proof (ac_store _ Ha) as Hok. pose proof (ac_paths _ Ha) as Hpt. pose proof Hp as [Hc _].
  split; [by eapply placed_store_ok|by eapply placed_paths_ok|by rewrite Hc, (ac_containers _ Ha)|..].
  - intros id Hid. by apply (placed_none _ _ _ Hp), (ac_new _ Ha).
  - intros id r Hr. pose proof (ac_rows _ Ha id r Hr) as H. destruct (sv_items v !! id) as [r1|] eqn:E.
    + destruct (placed_to _ _ _ _ Hp E) as (r' & Hr' & Hs). rewrite Hr'. destruct H as [Hs1 H1]. split; [by transitivity r1|].
      destruct (decide (id ∈ ids)) as [Hin|Hn]; [right; rewrite Forall_forall in Hids; by apply Hids|].
      rewrite (Hout id Hn), E in Hr'. injection Hr' as <-. done.
    + rewrite (proj2 (placed_none _ _ id Hp) E). destruct H as (H1 & H2 & H3). eauto.
Qed.

(** A step that leaves the rows and the records as they are. *)
Lemma acted_same v v' : acted v -> same_rows v v' -> sv_outbox v' = sv_outbox v -> acted v'.
Proof.
  intros Ha (H1 & H2 & H3 & H4) H5. apply (acted_update v v' [] Ha); [split; [done|]|by intros id _; rewrite H1|..].
  - intros id. rewrite H1. destruct (sv_items v !! id); constructor. done.
  - unfold recorded. by rewrite H3, H4.
  - unfold announced. by rewrite H5.
  - by constructor.
Qed.

Lemma acted_remove_one actor c v v' item v1 n : sg_holds (sw_guards s) = Ok holds -> acted v -> is_chosen c ->
  cd_action c = ActionExportThenDelete \/ cd_action c = ActionHardDelete ->
  FindItem (cd_id c) v = (v1, Ok item) ->
  Subtree (sw_purger s) (sw_guards s) new_id (purged_item (ac_tenant actor) (cd_id c) item) (cd_hub c) DeletedByRetention now v1 = (v', Ok n) -> acted v'.
Proof.
  intros Hh Ha Hc Hact Hf H. unfold FindItem, query in Hf. destruct (sv_items v !! cd_id c) as [q'|] eqn:Hq'; [|done]. injection Hf as <- <-.
  pose proof (ac_store _ Ha) as Hok. pose proof (ac_paths _ Ha) as Hpt.
  destruct (sv_items w !! cd_id c) as [q|] eqn:Hq; [|by rewrite (ac_new _ Ha _ Hq) in Hq'].
  assert (same_place q q') as Hsq by (pose proof (ac_rows _ Ha _ _ Hq) as Hx; rewrite Hq' in Hx; apply Hx).
  apply (subtree_run _ _ _ (purged_item (ac_tenant actor) (cd_id c) q') q' _ _ _ _ _ _ holds Hok Hh Hq') in H as (H1 & H2 & _ & Hin & Hrec & Hann); [|done..].
  split; [by eapply subtree_store_ok|by eapply subtree_paths_ok|by rewrite H2, (ac_containers _ Ha)|..].
  - intros id Hid. rewrite H1, gone_lookup, (ac_new _ Ha _ Hid). by destruct (decide _).
  - intros id r Hr. pose proof (ac_rows _ Ha id r Hr) as Hx. rewrite H1, gone_lookup. destruct (decide _) as [Hd|].
    + split; [|by split; apply Hin]. pose proof Hd as (r' & Hr' & Hb)%in_subtree. rewrite Hr' in Hx. destruct Hx as [Hs _].
      pose proof Hs as (_ & Hpath & Hcol). pose proof Hsq as (_ & Hpq & _). exists c, q. split; [done|]. split; [done|]. split; [done|].
      split; [by rewrite <- Hpq, <- (same_below _ _ _ Hs)|].
      rewrite <- Hpath, <- Hcol. apply (subtree_judged v holds (cd_id c) q' _ _ Hpt Hq'); [|done..]. intros x Hx. by apply Hin.
    + destruct (sv_items v !! id); [done|]. destruct Hx as (G1 & G2 & G3). split; [done|]. split; [by apply Hrec|by apply Hann].
Qed.

Lemma fold_steps_inv {A X} (I : Server -> Prop) (f : A -> X -> M Server A) xs :
  (forall a x v v' a', x ∈ xs -> I v -> f a x v = (v', Ok a') -> I v') ->
  forall a v v' a', I v -> fold_steps f a xs v = (v', Ok a') -> I v'.
Proof.
  intros Hf. induction xs as [|x xs IH]; cbn [fold_steps]; intros a v v' a' HI H; [by injection H as <- _|].
  apply bind_run in H as (a1 & v1 & Hx & H). eapply IH; [|by eapply Hf; [by left| |]|exact H].
  intros b y u u' b' Hy. apply Hf. by right.
Qed.
Lemma acted_rows ids P f v v' n : (forall r, same_place r (f r)) -> acted v -> Forall may_change ids ->
  update_rows ids P f v = (v', Ok n) -> acted v'.
Proof. intros Hf Ha Hids H. apply update_rows_run in H as (H1 & H2 & H3 & H4); [|done]. by apply (acted_update v v' ids). Qed.

(** Archiving and trashing end the markings they acted on. *)
Lemma acted_cleared ids keep v v' n : acted v -> Forall may_change ids -> Clear ids keep now v = (v', Ok n) -> acted v'.
Proof. intros Ha Hids. by apply acted_rows. Qed.

Lemma acted_removed actor group v v' n : sg_holds (sw_guards s) = Ok holds -> acted v ->
  Forall (fun c => is_chosen c /\ (cd_action c = ActionExportThenDelete \/ cd_action c = ActionHardDelete)) group ->
  remove s new_id actor group now v = (v', Ok n) -> acted v'.
Proof.
  intros Hh Ha Hg. apply (fold_steps_inv acted); [|done]. intros a c u u' a' Hc Hu H.
  rewrite Forall_forall in Hg. destruct (Hg c Hc) as [Hch Hact]. runs. by eapply acted_remove_one.
Qed.

Lemma acted_exported group v v' : acted v -> exportFirst s group v = (v', Ok tt) -> acted v'.
Proof.
  intros Ha H. unfold exportFirst in H. destruct (sw_export s) as [export|]; [|done]. apply bind_run in H as (ts & v1 & H0 & H). injection H as <-.
  refine (fold_steps_inv acted _ group _ _ _ _ _ Ha H0). clear. intros a c u u' a' _ Hu H.
  apply bind_run in H as (rule & u1 & Hr & H). assert (u1 = u) as ->.
  { unfold find_rule in Hr. runs. by destruct (List.find _ _); [injection Hr as <- _|]. }
  destruct (id_is_zero _); [done|]. destruct (contains _ _); [by injection H as <- _|]. runs. injection H1 as <- _. by eapply acted_same.
Qed.

Lemma acted_performed actor action group v v' n : sg_holds (sw_guards s) = Ok holds -> acted v ->
  In action [ActionArchive; ActionTrash; ActionExportThenDelete; ActionHardDelete] ->
  Forall (fun c => is_chosen c /\ cd_action c = action) group ->
  perform s new_id actor action group now v = (v', Ok n) -> acted v'.
Proof.
  intros Hh Ha Hin Hg H. unfold perform in H.
  assert (action = ActionArchive \/ action = ActionTrash -> Forall may_change (map cd_id group)) as Hmay.
  { intros Hor. rewrite Forall_map. eapply Forall_impl; [exact Hg|]. intros c [Hc <-]. by exists c. }
  assert (action = ActionExportThenDelete \/ action = ActionHardDelete ->
    Forall (fun c => is_chosen c /\ (cd_action c = ActionExportThenDelete \/ cd_action c = ActionHardDelete)) group) as Hrem.
  { intros Hor. eapply Forall_impl; [exact Hg|]. by intros c [Hc ->]. }
  destruct Hin as [<-|[<-|[<-|[<-|[]]]]]; cbn [String.eqb Ascii.eqb Bool.eqb ActionArchive ActionTrash ActionExportThenDelete ActionHardDelete] in H.
  - runs. eapply acted_cleared; [|by apply Hmay; left|exact H1]. eapply acted_rows; [|exact Ha|by apply Hmay; left|exact H0]. done.
  - apply bind_run in H as (b & v1 & Hm & H). injection Hm as <- <-. runs.
    eapply acted_cleared; [|by apply Hmay; right|exact H1]. eapply acted_rows; [| |by apply Hmay; right|exact H0]; [done|]. by eapply acted_same.
  - apply bind_run in H as ([] & v1 & He & H). eapply acted_removed; [done| |by apply Hrem; left|exact H]. by eapply acted_exported.
  - eapply acted_removed; [done|done|by apply Hrem; right|exact H].
Qed.
Lemma cursors_kept v v' : v' = v \/ (exists cursors, v' = with_cursors v cursors) -> acted v -> acted v'.
Proof. intros [->|[cursors ->]] Ha; [done|]. by eapply acted_same. Qed.

(** Nothing is done yet. *)
Lemma acted_none : store_ok w -> paths_ok w -> acted w.
Proof. intros H1 H2. split; [done|done|done|done|]. intros id r Hr. rewrite Hr. split; [done|]. by left. Qed.
End Acted.

Lemma begin_run reader (v v' : Server) pl : begin s reader v = (v', Ok pl) -> v' = v.
Proof. unfold begin. destruct (negb _); intros H; runs; [done|]. by injection H0 as <- _. Qed.

Lemma settle_run pl ended (v v' : Server) b : settle s pl ended v = (v', Ok b) -> v' = v \/ exists cursors, v' = with_cursors v cursors.
Proof.
  unfold settle. destruct (negb _); [intros H; runs; by left|]. destruct ended.
  - destruct (IsStart _); intros H; runs; [by left|]. injection H0 as <- _. right. by eexists.
  - destruct (_ =? _); intros H; runs; [by left|]. injection H0 as <- _. right. by eexists.
Qed.

(** C24. Acting on the markings touches only what it may.  An entry disappears only
    when it lies at or below a chosen one - marked, its date come, its rule not
    set aside, its action a deletion, kept by no hold and by nobody's
    restriction - and no hold reaches it where it is itself; it is then in the
    journal, has its tombstone and is announced.  An entry is changed only when
    it is chosen itself to be archived or trashed, and stays in its place; no
    entry appears. *)
Theorem act_safe actor holds restricted now aside_rules w w' o : store_ok w -> paths_ok w -> sg_holds (sw_guards s) = Ok holds ->
  act s new_id actor holds restricted now aside_rules w = (w', Ok o) ->
  (forall id, sv_items w !! id = None -> sv_items w' !! id = None) /\
  forall id r, sv_items w !! id = Some r ->
    match sv_items w' !! id with
    | Some r' => same_place r r' /\ (r' = r \/ may_change holds restricted aside_rules now w id)
    | None => may_erase holds restricted aside_rules now w id r /\ recorded w' workItemEntity id /\ announced w' id
    end.
Proof.
  intros Hok Hpt Hh H. assert (acted holds restricted aside_rules now w w') as Ha; [|split; [apply (ac_new _ _ _ _ _ _ Ha)|apply (ac_rows _ _ _ _ _ _ Ha)]].
  unfold act in H. apply bind_run in H as (pl & w1 & Hb & H). apply begin_run in Hb as ->.
  apply bind_run in H as (fuel & w1 & Hq & H). injection Hq as <- <-. apply bind_run in H as ([[a pl'] ended] & w1 & Hw & H).
  apply act_reading in Hw as [-> Hch]. apply bind_run in H as (unfinished & w1 & Hs & H). apply settle_run in Hs.
  cbn [fst snd] in *. pose proof (cursors_kept _ _ _ _ _ _ _ Hs (acted_none holds restricted aside_rules now w Hok Hpt)) as Ha.
  revert H. refine (fold_steps_inv (acted holds restricted aside_rules now w) _ _ _ _ _ _ _ Ha). clear w1 Hs Ha w' o.
  intros o action v v' o' Hact Ha H. set (group := map snd _) in H. assert (Forall (fun c => is_chosen holds restricted aside_rules now w c /\ cd_action c = action) group) as Hg.
  { apply Forall_forall. intros c ([x c'] & -> & Hx)%list_elem_of_fmap. apply list_elem_of_In, filter_In in Hx as [Hx Ex]. cbn in Ex. apply String.eqb_eq in Ex as ->.
    apply list_elem_of_In, Hch in Hx. pose proof Hx as [E _]. cbn in *. subst action. done. }
  destruct group as [|c rest] eqn:Eg; [by injection H as <- _|]. rewrite <- Eg in *. apply bind_run in H as (n & v1 & Hp & H). injection H as <- _.
  apply (acted_performed _ _ _ _ _ _ _ _ _ _ _ Hh Ha) in Hp; [done| |done]. by apply list_elem_of_In.
Qed.

End Acts.

(** ** What the first phase marks *)

Lemma effective_in rules kind hub collection r : Effective rules kind hub collection = Some r -> r ∈ rules.
Proof.
  unfold Effective. revert r. induction rules as [|x rules IH] using rev_ind; intros r; [done|].
  rewrite fold_left_app. cbn [fold_left]. destruct (fold_left _ rules None) as [k|].
  - destruct (negb _); [intros [= <-]; apply elem_of_app; left; by apply IH|]. destruct (Narrower x k).
    + intros [= <-]. apply elem_of_app. right. by left.
    + intros [= <-]. apply elem_of_app. left. by apply IH.
  - destruct (negb _); [done|]. intros [= <-]. apply elem_of_app. right. by left.
Qed.

Lemma rule_by_id rules r : NoDup (map ru_id rules) -> r ∈ rules -> ruleByID rules (ru_id r) = r.
Proof.
  intros Hnd Hr. unfold ruleByID. apply list_elem_of_split in Hr as (a & b & ->). rewrite map_app in Hnd. cbn in Hnd.
  apply NoDup_app in Hnd as (_ & Hn & _). induction a as [|x a IH]; cbn; [by rewrite String.eqb_refl|].
  destruct (String.eqb_spec (ru_id x) (ru_id r)) as [E|]; [|apply IH; intros y Hy; apply Hn; by right].
  exfalso. apply (Hn (ru_id x)); [by left|]. rewrite E. by left.
Qed.

(** A row without its marking. *)
Definition bare (r : ItemRow) : ItemRow := marking r None "" "" "".

(** The same rows but for the marks that nothing waits on: a block's. *)
Definition only_blocks (w v : Server) : Prop :=
  sv_containers v = sv_containers w /\ sv_changes v = sv_changes w /\
  forall id, option_Forall2 (fun r r' => bare r' = bare r /\ ir_pending r' = ir_pending r) (sv_items w !! id) (sv_items v !! id).

#[export] Instance only_blocks_preorder : PreOrder only_blocks.
Proof.
  split; [intros w; split; [done|split; [done|]]; intros id; destruct (sv_items w !! id); by constructor|].
  intros a b c (H1 & H2 & H3) (G1 & G2 & G3). split; [by rewrite G1|]. split; [by rewrite G2|]. intros id.
  specialize (H3 id). specialize (G3 id). inversion H3 as [x y [E1 E2] E3 E4|E3 E4]; rewrite <- E4 in G3; inversion G3 as [? z [F1 F2] F3 F4|]; subst; constructor.
  split; [by rewrite F1|by rewrite F2].
Qed.

Lemma block_run ids rule action reason w w' n : Block ids rule action reason w = (w', Ok n) -> only_blocks w w'.
Proof.
  intros H. unfold Block in H. set (P := fun r => _) in H. set (f := fun r => _) in H. pose proof (update_lookup ids P f w) as Hl.
  injection H as <- _. split; [done|]. split; [done|]. intros id. cbn [fst update_rows] in Hl. rewrite Hl.
  destruct (sv_items w !! id) as [r|]; cbn; constructor. by destruct (_ && _).
Qed.

Lemma flush_run blocks : forall w w', flush blocks w = (w', Ok tt) -> only_blocks w w'.
Proof.
  induction blocks as [|b blocks IH]; cbn [flush for_each]; intros w w' H; [injection H as <-; reflexivity|].
  apply bind_run in H as ([] & w1 & Hb & H). runs. injection Hb as <-. etransitivity; [by eapply block_run|by apply IH].
Qed.

(** *** The rows an anchor's statement takes *)

Lemma in_anchored w anchor cutoff own c : c ∈ anchored w anchor cutoff own <-> exists r at_,
  sv_items w !! cd_id c = Some r /\ anchor_of anchor r = Some at_ /\ ir_pending r = None /\ at_ < cutoff /\
  match own with None => true | Some rule => String.eqb (ir_rule r) rule end = true /\ candidate_of w (cd_id c, r) at_ zero_time "" "" = Some c.
Proof.
  unfold anchored. rewrite list_elem_of_omap. split.
  - intros ([id r] & Hin%elem_of_map_to_list & H). cbn [snd] in H. destruct (anchor_of anchor r) as [at_|] eqn:Ea; [|done].
    destruct (ir_pending r) eqn:Ep; [done|]. destruct ((at_ <? cutoff) && _) eqn:E; [|done]. apply andb_true_iff in E as [E1%Z.ltb_lt E2].
    assert (cd_id c = id) as -> by (unfold candidate_of in H; destruct (hub_of _ _); [by injection H as <-|done]). by exists r, at_.
  - intros (r & at_ & Hr & Ha & Hp & Hlt & Ho & Hc). exists (cd_id c, r). split; [by apply elem_of_map_to_list|]. cbn [snd]. rewrite Ha, Hp, Ho.
    by rewrite (proj2 (Z.ltb_lt _ _) Hlt).
Qed.

Lemma omap_rows_ok (m : gmap ID ItemRow) (f : ID * ItemRow -> option Candidate) : m !! "" = None ->
  (forall x c, f x = Some c -> cd_id c = fst x) -> rows_ok (omap f (map_to_list m)).
Proof.
  intros Hm Hf. split.
  - pose proof (NoDup_fst_map_to_list m) as Hnd. induction (map_to_list m) as [|x l IH]; [constructor|]. cbn in *.
    apply NoDup_cons in Hnd as [Hx Hnd]. destruct (f x) as [c|] eqn:E; [|by apply IH]. cbn. apply NoDup_cons. split; [|by apply IH].
    intros (d & Ed & (y & Hy & Hd)%list_elem_of_omap)%list_elem_of_fmap. apply Hx. rewrite <- (Hf _ _ E), Ed, (Hf _ _ Hd). by apply (list_elem_of_fmap_2 fst l y).
  - apply Forall_forall. intros c ([id r] & Hin%elem_of_map_to_list & H)%list_elem_of_omap E. apply Hf in H. cbn in H. congruence.
Qed.

Lemma candidate_of_id w x at_ pending rule action c : candidate_of w x at_ pending rule action = Some c -> cd_id c = fst x.
Proof. unfold candidate_of. destruct (hub_of _ _); [by intros [= <-]|done]. Qed.

Lemma anchored_rows_ok w anchor cutoff own : sv_items w !! "" = None -> rows_ok (anchored w anchor cutoff own).
Proof.
  intros H. apply omap_rows_ok; [done|]. intros x c. destruct (anchor_of _ _); [|done]. destruct (ir_pending _); [done|].
  destruct (_ && _); [apply candidate_of_id|done].
Qed.

Lemma anchor_of_bare anchor r : anchor_of anchor (bare r) = anchor_of anchor r.
Proof. done. Qed.
Lemma candidate_of_bare w id r at_ : candidate_of w (id, bare r) at_ zero_time "" "" = candidate_of w (id, r) at_ zero_time "" "".
Proof. done. Qed.

(** A block takes no row out of the statement's sight. *)
Lemma anchored_blocked w v anchor cutoff : only_blocks w v -> sv_items w !! "" = None -> anchored v anchor cutoff None ≡ₚ anchored w anchor cutoff None.
Proof.
  intros Hb Hw. assert (sv_items v !! "" = None) as Hv by (destruct Hb as (_ & _ & H); specialize (H ""); rewrite Hw in H; by inversion H).
  apply NoDup_Permutation.
  - apply (NoDup_fmap_1 cd_id), anchored_rows_ok, Hv.
  - apply (NoDup_fmap_1 cd_id), anchored_rows_ok, Hw.
  - intros c. rewrite !in_anchored. destruct Hb as (Hc & _ & Hr). specialize (Hr (cd_id c)).
    assert (forall x at_, candidate_of v x at_ zero_time "" "" = candidate_of w x at_ zero_time "" "") as Hsame by (intros; unfold candidate_of, hub_of; by rewrite Hc).
    inversion Hr as [x y [E1 E2] E3 E4|E3 E4]; [|split; intros (r & at_ & Hx & _); congruence].
    setoid_rewrite Hsame. split; intros (r & at_ & Hx & H1 & H2 & H3 & H4 & H5); injection Hx as <-; eexists _, at_; (split; [done|]).
    + rewrite <- anchor_of_bare, E1, anchor_of_bare in H1. rewrite <- candidate_of_bare, E1, candidate_of_bare in H5. by rewrite E2 in H2.
    + rewrite <- anchor_of_bare, <- E1, anchor_of_bare in H1. rewrite <- candidate_of_bare, <- E1, candidate_of_bare in H5. by rewrite E2.
Qed.

(** The pages are the same before and after the blocks of the pages before. *)
Lemma due_blocked w v anchor cutoff at_ n : only_blocks w v -> sv_items w !! "" = None -> contains [AnchorCompletedAt; AnchorArchivedAt; AnchorDeletedAt] anchor = true ->
  Due anchor cutoff at_ n v = (v, Ok (candidates_page (anchored w anchor cutoff None) at_ n)).
Proof.
  intros Hb Hw Hc. unfold Due, query. rewrite Hc. do 2 f_equal. unfold candidates_page. f_equal.
  pose proof (anchored_blocked w v anchor cutoff Hb Hw) as Hp.
  apply (sort_by_same candidate_place place_cmp); [|by apply filter_perm].
  assert (NoDup (candidate_place <$> anchored v anchor cutoff None)) as Hnd by (rewrite Hp; by apply rows_places, anchored_rows_ok).
  by apply (nodup_filtered candidate_place).
Qed.

(** *** How a page is judged *)

Section Announced.
Context (s : Sweeper) (actor : Actor) (applicable : list Rule) (holds : list LegalHold) (restricted : gset ID) (kind : string) (now : Time).

(** A candidate a rule is to be announced for: the rule in force where it sits,
    whose period is over and whose condition holds, and nothing keeps it. *)
Definition owed (rule : Rule) (c : Candidate) : Prop :=
  Effective applicable kind (cd_hub c) (cd_collection c) = Some rule /\ cd_anchored_at c < RuleCutoff rule now /\
  matchesCondition s rule c now = Ok true /\ free (sw_guards s) holds restricted c.

(** The groups hold what was read, each of it where its rule is, and the order
    names every group once. *)
Record grouped (rd : list Candidate) (a : Announcing) : Prop := {
  gr_groups : forall rid cs, an_by_rule a !! rid = Some cs -> sublist cs rd /\ Forall (fun c => exists rule, ru_id rule = rid /\ owed rule c) cs;
  gr_once : NoDup (an_order a);
  gr_met : forall rid, rid ∈ an_order a -> is_Some (an_by_rule a !! rid) \/ aside (an_outcome a) rid = true
}.

Lemma grouped_more rd c a a' : grouped rd a -> an_by_rule a' = an_by_rule a -> an_order a' = an_order a ->
  (forall rid, aside (an_outcome a) rid = true -> aside (an_outcome a') rid = true) -> grouped (rd ++ [c]) a'.
Proof.
  intros [H1 H2 H3] E1 E2 E3. split; rewrite ?E1, ?E2; [|done|].
  - intros rid cs Hcs. destruct (H1 rid cs Hcs) as [Hs Hf]. split; [|done]. by apply sublist_inserts_r.
  - intros rid Hrid. destruct (H3 rid Hrid); [by left|]. right. by apply E3.
Qed.

Lemma set_aside_more o rule f rid : aside o rid = true -> aside (setAside o rule f) rid = true.
Proof.
  unfold aside. rewrite !bool_decide_eq_true. intros [g Hg]. unfold setAside. cbn.
  destruct (oc_set_aside o !! rule) eqn:E; [by exists g|]. rewrite lookup_insert_is_Some'. right. by exists g.
Qed.

Lemma set_aside_now o rule f : aside (setAside o rule f) rule = true.
Proof.
  unfold aside. rewrite bool_decide_eq_true. unfold setAside. cbn. destruct (oc_set_aside o !! rule) eqn:E; [by rewrite E|]. by rewrite lookup_insert_eq.
Qed.

Lemma announce_one_grouped m rd a c a' :
  (blocked holds restricted (of_map m (cd_id c)) c = None -> free (sw_guards s) holds restricted c) ->
  announce_one s applicable kind holds restricted m now a c = Ok a' -> grouped rd a -> grouped (rd ++ [c]) a'.
Proof.
  intros Hfree H Hg. unfold announce_one in H. cbn [with_outcome an_outcome] in H. destruct (Effective applicable kind (cd_hub c) (cd_collection c)) as [rule|] eqn:Ee;
    [|injection H as <-; by eapply grouped_more].
  destruct (cd_anchored_at c <? RuleCutoff rule now) eqn:El; cbn [negb] in H; [|injection H as <-; by eapply grouped_more].
  destruct (aside _ (ru_id rule)) eqn:Easide; [injection H as <-; by eapply grouped_more|].
  destruct (matchesCondition s rule c now) as [[|]|e|] eqn:Em; [| |destruct (conditionFailure e) as [code|]|]; try done.
  - destruct (blocked _ _ _ _) as [reason|] eqn:Eb; injection H as <-; [by eapply grouped_more|].
    assert (owed rule c) as Howed by (split; [done|split; [by apply Z.ltb_lt|split; [done|by apply Hfree]]]).
    pose proof Hg as [H1 H2 H3]. split; cbn [an_by_rule an_order an_outcome with_outcome].
    + intros rid cs. destruct (decide (rid = ru_id rule)) as [->|Hne].
      * rewrite lookup_insert_eq. intros [= <-]. destruct (an_by_rule a !! ru_id rule) as [cs|] eqn:Ec; cbn [default].
        -- destruct (H1 _ _ Ec) as [Hs Hf]. split; [by apply sublist_app|]. apply Forall_app. split; [done|]. constructor; [by exists rule|done].
        -- split; [by apply sublist_inserts_l|]. constructor; [by exists rule|done].
      * rewrite lookup_insert_ne by done. intros Hcs. destruct (H1 rid cs Hcs) as [Hs Hf]. split; [|done]. by apply sublist_inserts_r.
    + destruct (an_by_rule a !! ru_id rule) eqn:Ec; [done|]. apply NoDup_app. split; [done|]. split; [|by apply NoDup_singleton].
      intros rid Hrid ->%list_elem_of_singleton. destruct (H3 _ Hrid) as [[? ?]|Hx]; [congruence|]. unfold aside in *. cbn in Easide. congruence.
    + intros rid Hrid. destruct (decide (rid = ru_id rule)) as [->|Hne]; [rewrite lookup_insert_eq; left; by eexists|]. rewrite lookup_insert_ne by done.
      assert (rid ∈ an_order a) as Hin by (destruct (an_by_rule a !! ru_id rule); [done|]; apply elem_of_app in Hrid as [|Hx%list_elem_of_singleton]; done).
      destruct (H3 _ Hin); [by left|by right].
  - injection H as <-. by eapply grouped_more.
  - injection H as <-. pose proof Hg as [H1 H2 H3]. split; cbn [an_by_rule an_order an_outcome with_outcome]; [|done|].
    + intros rid cs [Hne Hcs]%lookup_delete_Some. destruct (H1 rid cs Hcs) as [Hs Hf]. split; [|done]. by apply sublist_inserts_r.
    + intros rid Hrid. destruct (decide (rid = ru_id rule)) as [->|Hne]; [right; apply set_aside_now|]. rewrite lookup_delete_ne by done.
      destruct (H3 _ Hrid); [by left|]. right. by apply set_aside_more.
Qed.

Lemma announce_page_grouped m page : forall rd a a', 
  (forall c, c ∈ page -> blocked holds restricted (of_map m (cd_id c)) c = None -> free (sw_guards s) holds restricted c) ->
  fold_result (announce_one s applicable kind holds restricted m now) a page = Ok a' -> grouped rd a -> grouped (rd ++ page) a'.
Proof.
  induction page as [|c page IH]; cbn [fold_result]; intros rd a a' Hf H Hg; [injection H as <-; by rewrite app_nil_r|].
  destruct (announce_one _ _ _ _ _ _ _ a c) as [a1| |] eqn:E; [|done..]. cbn in H. rewrite cons_middle, app_assoc.
  eapply IH; [|exact H|].
  - intros d Hd. apply Hf. by right.
  - eapply announce_one_grouped; [|exact E|done]. apply Hf. by left.
Qed.

(** A candidate stands in one group. *)
Lemma owed_one rule rule' c : owed rule c -> owed rule' c -> rule = rule'.
Proof. intros (H & _) (H' & _). congruence. Qed.
(** *** How a group is marked *)

(** The device's word of a marking. *)
Definition word_of (rule : Rule) (c : Candidate) : RetentionChange :=
  mkRetentionChange (cd_id c) (cd_collection c) (ru_action rule) (dueAt rule now) (ru_id rule).

Lemma tell_run rule cs : forall v v',
  for_each (fun c => announceStage c rule (ru_action rule) now ;; warn s actor rule c) cs v = (v', Ok tt) ->
  sv_items v' = sv_items v /\ sv_containers v' = sv_containers v /\ (forall x, x ∈ sv_changes v -> x ∈ sv_changes v') /\
  forall c, c ∈ cs -> word_of rule c ∈ sv_changes v'.
Proof.
  induction cs as [|c cs IH]; cbn [for_each]; intros v v' H; [injection H as <-; split; [done|split; [done|split; [done|by intros c ?%elem_of_nil]]]|].
  apply bind_run in H as ([] & v1 & Hc & H). apply IH in H as (H1 & H2 & H3 & H4). apply bind_run in Hc as ([] & v2 & Ha & Hw).
  injection Ha as <-. assert (sv_items v1 = sv_items v /\ sv_containers v1 = sv_containers v /\ sv_changes v1 = sv_changes v ++ [word_of rule c]) as (G1 & G2 & G3).
  { unfold warn in Hw. destruct (_ || _); injection Hw as <-; done. }
  split; [by rewrite H1|]. split; [by rewrite H2|]. split.
  - intros x Hx. apply H3. rewrite G3. apply elem_of_app. by left.
  - intros d [->|Hd]%elem_of_cons; [|by apply H4]. apply H3. rewrite G3. apply elem_of_app. right. by left.
Qed.

Lemma update_count ids P f v v' n : NoDup ids -> (forall id, id ∈ ids -> exists r, sv_items v !! id = Some r /\ P r = true) ->
  update_rows ids P f v = (v', Ok n) -> n = Z.of_nat (List.length ids).
Proof.
  intros Hnd Hall [= _ <-]. f_equal. rewrite <- (size_dom (D := gset ID)), <- (size_list_to_set (C := gset ID) ids Hnd). f_equal.
  apply leibniz_equiv. intros id. rewrite elem_of_list_to_set, elem_of_dom. split.
  - intros [r [_ [Hin _]]%map_lookup_filter_Some]. done.
  - intros Hin. destruct (Hall id Hin) as (r & Hr & HP). exists r. by apply map_lookup_filter_Some.
Qed.

Section Groups.
Context (a : Announcing) (rows rd : list Candidate) (w : Server).
Hypothesis rows_are : rows_ok rows.
Hypothesis read_of : forall c, c ∈ rd -> c ∈ rows.
Hypothesis read_once : NoDup rd.
Hypothesis unmarked_rows : forall c, c ∈ rows -> exists r, sv_items w !! cd_id c = Some r /\ ir_pending r = None.
Hypothesis groups_are : grouped rd a.
Hypothesis rules_once : NoDup (map ru_id applicable).

(** How a row of the store stands after the groups named: as it was, or marked
    by the rule owed to it, which the devices were told. *)
Definition told (named : list ID) (v : Server) (id : ID) (r r' : ItemRow) : Prop :=
  bare r' = bare r /\ (ir_pending r' = ir_pending r \/
    exists rule c, ru_id rule ∈ named /\ owed rule c /\ c ∈ rd /\ cd_id c = id /\ ir_pending r = None /\ ir_pending r' = Some (dueAt rule now) /\
      ir_rule r' = ru_id rule /\ ir_action r' = ru_action rule /\ word_of rule c ∈ sv_changes v).
Definition so_told (named : list ID) (v : Server) : Prop :=
  sv_containers v = sv_containers w /\ forall id, option_Forall2 (told named v id) (sv_items w !! id) (sv_items v !! id).

Lemma read_id c d : c ∈ rd -> d ∈ rd -> cd_id c = cd_id d -> c = d.
Proof.
  intros Hc%read_of Hd%read_of E. destruct rows_are as [Hnd _]. clear -Hc Hd E Hnd. induction rows as [|x l IH]; [by apply elem_of_nil in Hc|].
  cbn in Hnd. apply NoDup_cons in Hnd as [Hx Hnd]. apply elem_of_cons in Hc as [->|Hc], Hd as [->|Hd]; [done|..|by apply IH]; exfalso; apply Hx.
  - rewrite E. by apply list_elem_of_fmap_2.
  - rewrite <- E. by apply list_elem_of_fmap_2.
Qed.

Lemma told_more named named' v v' id r r' : (forall x, x ∈ named -> x ∈ named') -> (forall x, x ∈ sv_changes v -> x ∈ sv_changes v') ->
  told named v id r r' -> told named' v' id r r'.
Proof.
  intros Hn Hc [H1 [H2|(rule & c & G1 & G2 & G3 & G4 & G5 & G6 & G7 & G8 & G9)]]; (split; [done|]); [by left|]. right. exists rule, c. eauto 12.
Qed.

(** The rows of a group not named yet wait for nothing. *)
Lemma group_unmarked named v rid cs c : so_told named v -> rid ∉ named -> an_by_rule a !! rid = Some cs -> c ∈ cs ->
  exists r, sv_items v !! cd_id c = Some r /\ unmarked r = true.
Proof.
  intros [_ Hv] Hrid Hcs Hc. destruct (gr_groups _ _ groups_are rid cs Hcs) as [Hs Hf]. rewrite Forall_forall in Hf.
  destruct (Hf c Hc) as (rule & Eid & Howed). assert (c ∈ rd) as Hcr by (by eapply elem_of_sublist).
  destruct (unmarked_rows c (read_of c Hcr)) as (r & Hr & Hp). specialize (Hv (cd_id c)). rewrite Hr in Hv.
  inversion Hv as [? r' [Hb Ht] E1 E2|]; subst. exists r'. split; [done|]. unfold unmarked.
  destruct Ht as [->|(rule' & d & G1 & G2 & G3 & G4 & _)]; [by rewrite Hp|].
  assert (d = c) as -> by (by apply read_id). rewrite (owed_one rule' rule c G2 Howed) in G1. done.
Qed.

Lemma group_told named v v' rid : so_told named v -> rid ∉ named -> announce_group s actor applicable a now rid v = (v', Ok tt) ->
  so_told (named ++ [rid]) v'.
Proof.
  intros Hv Hrid H. unfold announce_group in H. assert (forall x, x ∈ named -> x ∈ named ++ [rid]) as Hmore by (intros; apply elem_of_app; by left).
  destruct (aside _ _).
  { injection H as <-. destruct Hv as [H1 H2]. split; [done|]. intros id. specialize (H2 id). inversion H2; constructor. by eapply told_more. }
  apply bind_run in H as (n & v1 & Hm & H). destruct (an_by_rule a !! rid) as [cs|] eqn:Ecs; cbn [default] in *.
  2: { rewrite take_nil in H. injection H as <-. pose proof (update_lookup [] unmarked (fun r => marking r (Some (dueAt (ruleByID applicable rid) now)) (ru_id (ruleByID applicable rid)) (ru_action (ruleByID applicable rid)) "") v) as Hl.
       unfold Mark in Hm. injection Hm as <- _. destruct Hv as [H1 H2]. split; [done|]. intros id. specialize (H2 id). cbn [fst update_rows map] in Hl |- *. rewrite Hl, bool_decide_eq_false_2 by (by intros ?%elem_of_nil).
       inversion H2; cbn; constructor. by eapply told_more. }
  destruct (gr_groups _ _ groups_are rid cs Ecs) as [Hs Hf]. rewrite Forall_forall in Hf.
  set (rule := ruleByID applicable rid) in *.
  assert (forall c, c ∈ cs -> owed rule c /\ ru_id rule = rid) as Howed.
  { intros c Hc. destruct (Hf c Hc) as (rule' & <- & Ho). unfold rule. rewrite (rule_by_id applicable rule' rules_once); [done|]. eapply effective_in. apply Ho. }
  assert (NoDup (map cd_id cs)) as Hnd.
  { clear -rows_are read_of read_once Hs. assert (NoDup cs) as Hnd by (by eapply sublist_NoDup). assert (forall c, c ∈ cs -> c ∈ rd) as Hin by (intros c Hc; by eapply elem_of_sublist).
    clear Hs. induction cs as [|c cs IH]; [constructor|]. apply NoDup_cons in Hnd as [Hc Hnd]. cbn. apply NoDup_cons. split.
    - intros (d & E & Hd)%list_elem_of_fmap. apply Hc. rewrite (read_id c d); [done|apply Hin; by left|apply Hin; by right|done].
    - apply IH; [done|]. intros d Hd. apply Hin. by right. }
  assert (n = Z.of_nat (List.length (map cd_id cs))) as ->.
  { eapply update_count; [done| |exact Hm]. intros id (c & -> & Hc)%list_elem_of_fmap. by eapply group_unmarked. }
  rewrite Nat2Z.id, length_map, take_ge in H by done. apply tell_run in H as (H1 & H2 & H3 & H4).
  pose proof (update_lookup (map cd_id cs) unmarked (fun r => marking r (Some (dueAt rule now)) (ru_id rule) (ru_action rule) "") v) as Hl.
  unfold Mark in Hm. injection Hm as <- _. cbn [fst update_rows] in Hl. cbn [sv_changes] in H3. destruct Hv as [G1 G2]. split; [by rewrite H2|].
  intros id. rewrite H1. cbn [sv_items with_items] in *. rewrite Hl. specialize (G2 id). inversion G2 as [r r1 Ht E1 E2|E1 E2]; cbn; constructor.
  destruct (bool_decide_reflect (id ∈ map cd_id cs)) as [(c & -> & Hc)%list_elem_of_fmap|]; cbn; [|by eapply told_more; [| |exact Ht]].
  destruct (unmarked r1) eqn:Eu; [|by eapply told_more; [| |exact Ht]]. destruct (Howed c Hc) as [Ho Hid].
  assert (c ∈ rd) as Hcr by (by eapply elem_of_sublist). destruct (unmarked_rows c (read_of c Hcr)) as (r0 & Hr0 & Hp0).
  split; [destruct Ht as [<- _]; done|]. right. exists rule, c. split; [apply elem_of_app; right; rewrite Hid; by left|].
  split; [done|]. split; [done|]. split; [done|]. split; [congruence|]. split; [done|]. split; [done|]. split; [done|]. by apply H4.
Qed.

Lemma groups_told order : forall named v v', so_told named v -> NoDup (named ++ order) ->
  for_each (announce_group s actor applicable a now) order v = (v', Ok tt) -> so_told (named ++ order) v'.
Proof.
  induction order as [|rid order IH]; cbn [for_each]; intros named v v' Hv Hnd H; [injection H as <-; by rewrite app_nil_r|].
  apply bind_run in H as ([] & v1 & Hg & H). rewrite cons_middle, app_assoc in *. eapply IH; [|done|exact H].
  eapply group_told; [done| |exact Hg]. apply NoDup_app in Hnd as (Hnd & _ & _). apply NoDup_app in Hnd as (_ & Hn & _).
  intros Hin. apply (Hn rid Hin). by left.
Qed.
End Groups.
End Announced.

(** *** The first phase of one kind *)

Section Kind.
Context (s : Sweeper) (actor : Actor) (rules : list Rule) (holds : list LegalHold) (restricted : gset ID) (k : Kind) (now : Time).
Let applicable := rulesFor rules (kd_name k).
Let rows_of (w : Server) := anchored w (kd_anchor k) (loosest applicable now) None.

(** What the reading of a kind leaves: rows but for blocks as they were, groups
    of what was read. *)
Lemma announcing_read pl w w' a pl' ended : sv_items w !! "" = None ->
  walk s (fun after => Due (kd_anchor k) (loosest applicable now) after (batch s))
    (fun page st =>
       contributors <~ contributorsOf (sw_guards s) holds restricted (map cd_id page);
       st <~ lift (judge_all (fun a => batch s <=? an_markable a) (announce_one s applicable (kd_name k) holds restricted contributors now) page
                     (mkAnnouncing (an_outcome (fst st)) (an_by_rule (fst st)) (an_order (fst st)) (an_markable (fst st)) [], snd st));
       flush (an_blocks (fst st)) ;;
       ret st)
    (fun a => batch s <=? an_markable a) (every_row w) (pl_start pl) (mkAnnouncing no_outcome ∅ [] 0 [], pl) w = (w', Ok ((a, pl'), ended)) ->
  only_blocks w w' /\ exists rd rest, after_rows (rows_of w) (pl_start pl) = rd ++ rest /\
    grouped s applicable holds restricted (kd_name k) now rd a /\ (ended = true -> batch s <= maxRetentionBatch -> rest = []).
Proof.
  intros Hw H. destruct (contains [AnchorCompletedAt; AnchorArchivedAt; AnchorDeletedAt] (kd_anchor k)) eqn:Ec.
  2: { cbn [walk every_row] in H. apply bind_run in H as (page & w1 & Hd & _). unfold Due, query in Hd. by rewrite Ec in Hd. }
  apply (walk_spec s _ _ _ (rows_of w) (pl_start pl) (fun rd v a => only_blocks w v /\ grouped s applicable holds restricted (kd_name k) now rd a)
    (anchored_rows_ok _ _ _ _ Hw)) with (rd := []) (todo := after_rows (rows_of w) (pl_start pl)) in H; try done.
  - destruct H as (rd & rest & Hall & [Hb Hg] & _ & Hend). split; [done|]. by exists rd, rest.
  - intros rd v a1 at_ [Hb _]. by apply due_blocked.
  - intros rd page v a1 pl1 v' st' _ [Hb Hg] Hp. apply bind_run in Hp as (m & v1 & Hm & Hp). apply contributorsOf_ok in Hm as Hm'. destruct Hm' as [-> _].
    apply bind_run in Hp as (st1 & v1 & Hj & Hp). apply lift_run in Hj as [-> Hj]. apply bind_run in Hp as ([] & v2 & Hf & Hp). injection Hp as <- <-.
    apply judge_all_run in Hj as (i & H1 & H2 & H3). exists i. split; [done|]. split; [|done].
    split; [etransitivity; [done|by eapply flush_run]|]. eapply announce_page_grouped; [|exact H2|].
    + intros c Hc%subseteq_take. eapply blocked_free; [exact Hm|]. by apply list_elem_of_fmap_2.
    + destruct Hg as [G1 G2 G3]. by split.
  - split; [reflexivity|]. split; cbn; [by intros ? ? ?|constructor|by intros ? ?%elem_of_nil].
Qed.

(** C25. Nothing is marked in silence.  The first phase changes of an entry only its
    marking, and gives a date only to an entry without one: by the rule in force
    where it sits, whose period is over and whose condition holds, kept by
    nothing; a grace period after the pass; and the devices are told of this
    entry that action, that date and that rule.  Whatever the pages, the blocks
    written between them and the rules set aside on the way. *)
Theorem marks_told w w' o : sv_items w !! "" = None -> NoDup (map ru_id rules) ->
  announceRules s actor rules holds restricted k now w = (w', Ok o) ->
  forall id, match sv_items w !! id, sv_items w' !! id with
  | Some r, Some r' => bare r' = bare r /\ (ir_pending r' = ir_pending r \/
      exists rule c, rule ∈ applicable /\ owed s applicable holds restricted (kd_name k) now rule c /\
        anchor_of (kd_anchor k) r = Some (cd_anchored_at c) /\ candidate_of w (id, r) (cd_anchored_at c) zero_time "" "" = Some c /\
        ir_pending r = None /\ ir_pending r' = Some (dueAt rule now) /\ ir_rule r' = ru_id rule /\ ir_action r' = ru_action rule /\
        word_of now rule c ∈ sv_changes w')
  | None, None => True
  | _, _ => False
  end.
Proof.
  intros Hw Hnd H. unfold announceRules in H. fold applicable in H. destruct (decide (applicable = [])) as [Ea|Ea].
  { rewrite Ea in H. injection H as <- _. intros id. destruct (sv_items w !! id); [|done]. split; [done|by left]. }
  assert (forall X (x y : X), match applicable with [] => x | _ => y end = y) as Hm by (revert Ea; generalize applicable as l; by intros []).
  rewrite Hm in H. clear Hm Ea. apply bind_run in H as (pl & w1 & Hb & H). apply begin_run in Hb as ->.
  apply bind_run in H as (fuel & w1 & Hq & H). injection Hq as <- <-. apply bind_run in H as ([[a pl'] ended] & w1 & Hr & H).
  apply announcing_read in Hr as (Hblocks & rd & rest & Hall & Hg & _); [|done].
  apply bind_run in H as (b & w2 & Hs & H). apply settle_run in Hs. apply bind_run in H as ([] & w3 & Hann & H). injection H as <- _. cbn [fst snd] in *.
  assert (only_blocks w w2) as Hb2 by (destruct Hs as [->|[cu ->]]; [done|etransitivity; [exact Hblocks|]; split; [done|split; [done|]]; intros id; cbn; destruct (sv_items w1 !! id); by constructor]).
  assert (forall c, c ∈ rd -> c ∈ rows_of w) as Hread.
  { intros c Hc. assert (c ∈ after_rows (rows_of w) (pl_start pl)) as Hin by (rewrite Hall; apply elem_of_app; by left).
    unfold after_rows in Hin. rewrite sort_by_perm in Hin by apply _. apply list_elem_of_In, filter_In in Hin as [Hin _]. by apply list_elem_of_In. }
  pose proof (anchored_rows_ok w (kd_anchor k) (loosest applicable now) None Hw) as Hrows.
  assert (NoDup rd) as Honce.
  { assert (NoDup (after_rows (rows_of w) (pl_start pl))) as Hn; [|rewrite Hall in Hn; apply NoDup_app in Hn as [Hn _]; exact Hn].
    unfold after_rows. rewrite sort_by_perm by apply _. apply (NoDup_fmap_1 cd_id). by apply (nodup_filtered cd_id), Hrows. }
  assert (forall c, c ∈ rows_of w -> exists r, sv_items w !! cd_id c = Some r /\ ir_pending r = None) as Hunmarked.
  { intros c (r & at_ & G1 & _ & G3 & _)%in_anchored. by exists r. }
  assert (NoDup (map ru_id applicable)) as Happ by (by apply nodup_filtered).
  apply (groups_told s actor applicable holds restricted (kd_name k) now _ (rows_of w) rd w Hrows Hread Honce Hunmarked) with (named := []) in Hann as [_ Hrow].
  - intros id. specialize (Hrow id). inversion Hrow as [r r' [Hbare Ht] E1 E2|E1 E2]; [|done]. split; [done|].
    destruct Ht as [|(rule & c & _ & Ho & Hc & <- & G1 & G2 & G3 & G4 & G5)]; [by left|]. right. exists rule, c.
    split; [eapply effective_in; apply Ho|]. split; [done|]. pose proof (Hread c Hc) as (r1 & at_ & F1 & F2 & F3 & F4 & _ & F6)%in_anchored.
    assert (r1 = r) as -> by congruence. assert (cd_anchored_at c = at_) as -> by (unfold candidate_of in F6; destruct (hub_of _ _); [by injection F6 as <-|done]). done.
  - destruct Hg as [G1 G2 G3]. by split.
  - done.
  - destruct Hb2 as (F1 & F2 & F3). split; [done|]. intros id. specialize (F3 id). inversion F3 as [r r' [E1 E2] E3 E4|]; constructor. split; [done|by left].
  - apply Hg.
Qed.
End Kind.

(** ** A pass ends

    The reads have fuel for a page of every entry; none of them runs out, so a
    pass answers or refuses, unless one of its adapters does neither. *)

(** From a state of [P] the step refuses, or ends in [Q] with its answer. *)
Definition ends {A} (P : Server -> Prop) (c : M Server A) (Q : Server -> A -> Prop) : Prop := forall w, P w ->
  match c w with (w', Ok a) => Q w' a | (_, Err _) => True | (_, Panic) => False end.

Lemma ends_bind {A B} P (c : M Server A) (R : Server -> A -> Prop) (f : A -> M Server B) Q :
  ends P c R -> (forall a, ends (fun w => R w a) (f a) Q) -> ends P (bind c f) Q.
Proof. intros Hc Hf w HP. specialize (Hc w HP). unfold bind. destruct (c w) as [w' [a|e|]]; [|done..]. by apply Hf. Qed.

Lemma ends_weaken {A} (P P' : Server -> Prop) (c : M Server A) (Q Q' : Server -> A -> Prop) :
  ends P c Q -> (forall w, P' w -> P w) -> (forall w a, Q w a -> Q' w a) -> ends P' c Q'.
Proof. intros Hc HP HQ w Hw. specialize (Hc w (HP w Hw)). destruct (c w) as [w' [a|e|]]; [by apply HQ|done..]. Qed.

(** The blank identifier names no entry; every step keeps it so. *)
Definition named (w : Server) : Prop := sv_items w !! "" = None.
Definition steady {A} (c : M Server A) : Prop := ends named c (fun w _ => named w).

Lemma steady_bind {A B} (c : M Server A) (f : A -> M Server B) : steady c -> (forall a, steady (f a)) -> steady (bind c f).
Proof. intros Hc Hf. eapply ends_bind; [exact Hc|]. intros a. apply Hf. Qed.
Lemma steady_ret {A} (a : A) : steady (ret a).
Proof. by intros w Hw. Qed.
Lemma steady_skip : steady skip.
Proof. by intros w Hw. Qed.
Lemma steady_fail {A} e : steady (fail (A := A) e).
Proof. by intros w Hw. Qed.
Lemma steady_lift {A} (r : res A) : r <> Panic -> steady (lift r).
Proof. intros Hr w Hw. cbn. by destruct r. Qed.
Lemma steady_query {A} (f : Server -> res A) : (forall w, f w <> Panic) -> steady (query f).
Proof. intros Hf w Hw. cbn. specialize (Hf w). by destruct (f w). Qed.
Lemma steady_put {A} (f : Server -> Server) (a : Server -> A) : (forall w, sv_items (f w) = sv_items w) -> steady (fun w => (f w, Ok (a w))).
Proof. intros Hf w Hw. cbn. unfold named. by rewrite Hf. Qed.

Lemma steady_for_each {X} (f : X -> M Server unit) xs : (forall x, steady (f x)) -> steady (for_each f xs).
Proof. intros Hf. induction xs as [|x xs IH]; cbn [for_each]; [apply steady_skip|]. apply steady_bind; [apply Hf|]. by intros _. Qed.
Lemma steady_fold {A X} (f : A -> X -> M Server A) xs : (forall a x, steady (f a x)) -> forall a, steady (fold_steps f a xs).
Proof.
  intros Hf. induction xs as [|x xs IH]; intros a; cbn [fold_steps]; [apply steady_ret|]. apply steady_bind; [apply Hf|]. intros b. apply IH.
Qed.

Lemma steady_update ids P f : steady (update_rows ids P f).
Proof. intros w Hw. pose proof (update_lookup ids P f w "") as Hl. unfold update_rows in *. cbn in *. unfold named in *. cbn. by rewrite Hl, Hw. Qed.

(** Takes a step apart; what is left are the calls of adapters. *)
Ltac steady :=
  repeat match goal with
  | |- forall _, _ => intros ?
  | |- steady (bind _ _) => apply steady_bind
  | |- steady (ret _) => apply steady_ret
  | |- steady skip => apply steady_skip
  | |- steady (fail _) => apply steady_fail
  | |- steady (for_each _ _) => apply steady_for_each
  | |- steady (fold_steps _ _ _) => apply steady_fold
  | |- steady (update_rows _ _ _) => apply steady_update
  | |- steady (Mark _ _ _ _) => apply steady_update
  | |- steady (Block _ _ _ _) => apply steady_update
  | |- steady (Clear _ _ _) => apply steady_update
  | |- steady (Archive _ _) => apply steady_update
  | |- steady (TrashRows _ _ _) => apply steady_update
  | |- steady (query (fun _ => Ok _)) => by apply steady_query
  | |- steady (match ?x with _ => _ end) => destruct x eqn:?
  end.

Lemma steady_purge ids : steady (PurgeItems ids).
Proof. intros w Hw. unfold PurgeItems. unfold named in *. cbn. apply map_lookup_filter_None. by left. Qed.
Lemma group_removals_answer reasons removals : groupRemovals reasons removals <> Panic.
Proof. revert reasons. induction removals as [|r removals IH]; intros reasons; cbn; [done|]. repeat (break_match; try done); apply IH. Qed.

Section Ends.
Context (s : Sweeper) (new_id : nat -> ID).

(** Every adapter answers or refuses. *)
Record adapters_answer : Prop := {
  aa_rules : sw_rules s <> Panic;
  aa_holds : sg_holds (sw_guards s) <> Panic;
  aa_who : sg_who (sw_guards s) <> Panic;
  aa_restricted : forall r, sg_restricted (sw_guards s) = Some r -> r <> Panic;
  aa_condition : forall evaluate, sw_condition s = Some evaluate -> forall rule id now, evaluate rule id now <> Panic;
  aa_export : forall export, sw_export s = Some export -> forall target, export target <> Panic
}.
Hypothesis answering : adapters_answer.

Lemma contributors_end P holds restricted ids : ends P (contributorsOf (sw_guards s) holds restricted ids) (fun _ _ => True).
Proof.
  intros w _. unfold contributorsOf. destruct (_ || _); [done|]. unfold Contributors, bind, lift. pose proof (aa_who answering).
  by destruct (sg_who _).
Qed.

Lemma steady_contributors holds restricted ids : steady (contributorsOf (sw_guards s) holds restricted ids).
Proof.
  intros w Hw. pose proof (contributors_end named holds restricted ids w Hw) as H.
  destruct (contributorsOf _ _ _ _ w) as [w' [m|e|]] eqn:E; [|done..]. by apply contributorsOf_ok in E as [-> _].
Qed.

Lemma steady_announce tenant id type collection path reason now : steady (announce new_id tenant id type collection path reason now).
Proof. unfold announce. steady; by apply steady_put. Qed.

Lemma write_removals_items at_ until removals w : sv_items (fold_left (write_removal at_ until) removals w) = sv_items w.
Proof. apply write_removals. Qed.

Lemma steady_record removals now : steady (record (sw_purger s) removals now).
Proof.
  unfold record, RecordRemovals. steady; [apply steady_lift, group_removals_answer|].
  apply (steady_put _ (fun _ => tt)). intros w. apply write_removals_items.
Qed.

Lemma steady_subtree item hub reason now : steady (Subtree (sw_purger s) (sw_guards s) new_id item hub reason now).
Proof.
  unfold Subtree, Active. steady; [apply steady_lift, (aa_holds answering)|apply steady_contributors|apply steady_record|apply steady_purge|apply steady_announce].
Qed.

Lemma steady_remove actor group now : steady (remove s new_id actor group now).
Proof. unfold remove. steady; [|apply steady_subtree]. apply steady_query. intros w. by destruct (sv_items w !! _). Qed.

Lemma steady_find_rule id : steady (find_rule s id).
Proof. unfold find_rule. steady. apply steady_lift, (aa_rules answering). Qed.

Lemma steady_export group : steady (exportFirst s group).
Proof.
  unfold exportFirst. steady; [apply steady_find_rule|by apply steady_lift, (aa_export answering)|by apply (steady_put _ (fun _ => tt))].
Qed.

Lemma steady_perform actor action group now : steady (perform s new_id actor action group now).
Proof.
  unfold perform. cbv zeta. steady; [by apply (steady_put _ (fun w => new_id (sv_minted w)))|apply steady_export|apply steady_remove..].
Qed.

Lemma steady_begin reader : steady (begin s reader).
Proof. unfold begin, FindCursor. steady. Qed.

Lemma steady_settle pl ended : steady (settle s pl ended).
Proof. unfold settle. steady; by apply (steady_put _ (fun _ => tt)). Qed.
Lemma judged_ends {T} (enough : T -> bool) (one : T -> Candidate -> res T) page : (forall t c, one t c <> Panic) -> forall st, judge_all enough one page st <> Panic.
Proof.
  intros H. induction page as [|c page IH]; intros st; cbn; [done|]. destruct (enough _); [done|]. specialize (H (fst st) c).
  destruct (one (fst st) c); [apply IH|done..].
Qed.

Lemma after_rows_fit rows at_ (w : Server) : (List.length rows <= size (sv_items w))%nat -> (List.length (after_rows rows at_) < every_row w)%nat.
Proof.
  intros H. unfold after_rows, every_row. rewrite (Permutation_length (sort_by_perm candidate_place place_cmp _)).
  pose proof (filter_length_le (past at_) rows). lia.
Qed.

Lemma omap_fits {A} (m : gmap ID A) (f : ID * A -> option Candidate) : (List.length (omap f (map_to_list m)) <= size m)%nat.
Proof. rewrite <- length_map_to_list. induction (map_to_list m) as [|x l IH]; cbn; [lia|]. destruct (f x); cbn; lia. Qed.

(** A read whose pages leave the rows of its statement. *)
Lemma walk_ends {T} (fetch : Position -> M Server (list Candidate)) (page_step : list Candidate -> T * Place -> M Server (T * Place)) (enough : T -> bool)
    rows at_ (R : Server -> Prop) t pl w :
  rows_ok rows -> (forall v q, R v -> fetch q v = (v, Ok (candidates_page rows q (batch s)))) ->
  (forall page v t pl v' st', R v -> page_step page (t, pl) v = (v', Ok st') -> R v' /\
     exists k, snd st' = fold_left place_judged (take k page) pl /\ (enough (fst st') = false -> take k page = page)) ->
  (forall page v st, R v -> snd (page_step page st v) <> Panic) ->
  R w -> (List.length rows <= size (sv_items w))%nat ->
  match walk s fetch page_step enough (every_row w) at_ (t, pl) w with (w', Ok _) => R w' | (_, Err _) => True | (_, Panic) => False end.
Proof.
  intros Hrows Hf Hstep Hends HR Hfit.
  assert (forall rd page v t pl v' st', (exists rest, after_rows rows at_ = rd ++ page ++ rest) -> R v -> page_step page (t, pl) v = (v', Ok st') ->
    exists k, snd st' = fold_left place_judged (take k page) pl /\ R v' /\ (enough (fst st') = false -> take k page = page)) as Hstep'.
  { intros rd page v t1 pl1 v' st' _ Hv Hp. destruct (Hstep _ _ _ _ _ _ Hv Hp) as (Hv' & k & H1 & H2). by exists k. }
  destruct (walk _ _ _ _ _ _ _ w) as [w' [[st ended]| |]] eqn:E; [|done|].
  - apply (walk_spec s _ _ _ rows at_ (fun _ v _ => R v) Hrows) with (rd := []) (todo := after_rows rows at_) in E; [|by eauto..|done|done|done].
    by destruct E as (seen & rest & _ & H & _).
  - assert (snd (walk s fetch page_step enough (every_row w) at_ (t, pl) w) <> Panic) as Hn; [|by rewrite E in Hn].
    apply (walk_fuelled s _ _ _ rows at_ (fun _ v _ => R v) Hrows) with (rd := []) (todo := after_rows rows at_); [by eauto|exact Hstep'|done|done|done|by apply after_rows_fit|].
    intros rd page v t1 pl1 _ Hv. by apply Hends.
Qed.
Lemma announce_one_ends applicable kind holds restricted m now a c : announce_one s applicable kind holds restricted m now a c <> Panic.
Proof.
  unfold announce_one. destruct (Effective _ _ _ _) as [rule|]; [|done]. destruct (negb _); [done|]. destruct (aside _ _); [done|].
  assert (matchesCondition s rule c now <> Panic) as Hm.
  { unfold matchesCondition. destruct (String.eqb _ _); [done|]. destruct (sw_condition s) as [evaluate|] eqn:E; [by apply (aa_condition answering)|done]. }
  destruct (matchesCondition s rule c now) as [[|]|e|]; [destruct (blocked _ _ _ _)|..]; try done. by destruct (conditionFailure e).
Qed.

Lemma steady_flush blocks : steady (flush blocks).
Proof. unfold flush. steady. Qed.

Lemma anchored_fit w anchor cutoff own : (List.length (anchored w anchor cutoff own) <= size (sv_items w))%nat.
Proof. apply omap_fits. Qed.

Lemma marked_rows_ok w now : named w -> rows_ok (marked w now).
Proof. intros Hw. apply omap_rows_ok; [done|]. intros x c. destruct (ir_pending _); [|done]. destruct (_ <=? _); [apply candidate_of_id|done]. Qed.

Lemma contributors_page {T} holds restricted page (f : gmap ID (list ID) -> res (T * Place)) (v : Server) : (forall m, f m <> Panic) ->
  snd (bind (contributorsOf (sw_guards s) holds restricted (map cd_id page)) (fun m => lift (f m)) v) <> Panic.
Proof.
  intros Hf. unfold bind. pose proof (contributors_end (fun _ => True) holds restricted (map cd_id page) v I) as H.
  destruct (contributorsOf _ _ _ _ v) as [v' [m|e|]]; [apply Hf|done..].
Qed.

(** A read and what follows it: the rows of its statement in the state it
    starts from, [R w] the states its pages leave. *)
Lemma steady_read {T B} (fetch : Position -> M Server (list Candidate)) page_step enough (t : T) pl at_ (rows : Server -> list Candidate)
    (R : Server -> Server -> Prop) (rest : ((T * Place) * bool) -> M Server B) :
  (forall w, named w -> rows_ok (rows w) /\ R w w /\ (List.length (rows w) <= size (sv_items w))%nat) ->
  (forall w v, named w -> R w v -> named v) ->
  (forall w v q, named w -> R w v -> fetch q v = (v, Ok (candidates_page (rows w) q (batch s)))) ->
  (forall w page v t pl v' st', R w v -> page_step page (t, pl) v = (v', Ok st') -> R w v' /\
     exists k, snd st' = fold_left place_judged (take k page) pl /\ (enough (fst st') = false -> take k page = page)) ->
  (forall page v st, snd (page_step page st v) <> Panic) ->
  (forall r, steady (rest r)) ->
  steady (bind (query (fun w => Ok (every_row w))) (fun fuel => bind (walk s fetch page_step enough fuel at_ (t, pl)) rest)).
Proof.
  intros Hrows Hnamed Hf Hstep Hends Hrest w Hw. unfold bind at 1, query. destruct (Hrows w Hw) as (H1 & H2 & H3).
  pose proof (walk_ends fetch page_step enough (rows w) at_ (R w) t pl w H1 (fun v q Hv => Hf w v q Hw Hv) (Hstep w) (fun page v st _ => Hends page v st) H2 H3) as H.
  unfold bind. destruct (walk _ _ _ _ _ _ _ w) as [w' [r| |]]; [|done..]. by apply (Hrest r w' (Hnamed w w' Hw H)).
Qed.

Lemma steady_announce_rules actor rules holds restricted k now : contains [AnchorCompletedAt; AnchorArchivedAt; AnchorDeletedAt] (kd_anchor k) = true ->
  steady (announceRules s actor rules holds restricted k now).
Proof.
  intros Hc. unfold announceRules. cbv zeta. destruct (rulesFor rules (kd_name k)) as [|r0 rest0] eqn:Ea; [apply steady_ret|]. rewrite <- Ea. clear r0 rest0 Ea.
  apply steady_bind; [apply steady_begin|]. intros pl.
  apply (steady_read _ _ _ _ _ _ (fun w => anchored w (kd_anchor k) (loosest (rulesFor rules (kd_name k)) now) None) only_blocks).
  - intros w Hw. split; [by apply anchored_rows_ok|]. split; [reflexivity|apply anchored_fit].
  - intros w v Hw (_ & _ & Hv). specialize (Hv ""). unfold named in *. rewrite Hw in Hv. by inversion Hv.
  - intros w v q Hw Hv. by apply due_blocked.
  - intros w page v a pl1 v' st' Hv Hp. apply bind_run in Hp as (m & v1 & Hm & Hp). apply contributorsOf_ok in Hm as [-> _].
    apply bind_run in Hp as (st1 & v1 & Hj & Hp). apply lift_run in Hj as [-> Hj]. apply bind_run in Hp as ([] & v2 & Hfl & Hp). injection Hp as <- <-.
    apply judge_all_run in Hj as (i & H1 & _ & H3). split; [etransitivity; [done|by eapply flush_run]|]. by exists i.
  - intros page v st. unfold bind at 1. pose proof (contributors_end (fun _ => True) holds restricted (map cd_id page) v I) as H.
    destruct (contributorsOf _ _ _ _ v) as [v' [m|e|]]; [|done..]. unfold bind at 1, lift.
    set (j := judge_all _ _ _ _). assert (j <> Panic) as Hj by (apply judged_ends; intros; apply announce_one_ends). destruct j as [st1|e|]; [|done..].
    unfold bind. revert v'. induction (an_blocks (fst st1)) as [|b blocks IH]; intros v'; [done|]. apply (IH (fst (update_rows _ _ _ v'))).
  - intros r. steady; [apply steady_settle|]. unfold announce_group. steady; [by apply steady_put|]. unfold warn. steady. by apply (steady_put _ (fun _ => tt)).
Qed.

(** A read whose pages change nothing. *)
Lemma steady_plain_read {T B} (fetch : Position -> M Server (list Candidate)) enough holds restricted (t : T) pl at_ (rows : Server -> list Candidate)
    (one : Server -> gmap ID (list ID) -> list Candidate -> T -> Candidate -> res T) (rest : ((T * Place) * bool) -> M Server B) :
  (forall w, named w -> rows_ok (rows w) /\ (List.length (rows w) <= size (sv_items w))%nat) ->
  (forall v q, fetch q v = (v, Ok (candidates_page (rows v) q (batch s)))) ->
  (forall w m page t c, one w m page t c <> Panic) -> (forall r, steady (rest r)) ->
  steady (bind (query (fun w => Ok (every_row w))) (fun fuel => bind (walk s fetch (fun page st =>
    w <~ query (fun w => Ok w);
    contributors <~ contributorsOf (sw_guards s) holds restricted (map cd_id page);
    lift (judge_all enough (one w contributors page) page st)) enough fuel at_ (t, pl)) rest)).
Proof.
  intros Hrows Hf Hone Hrest. apply (steady_read _ _ _ _ _ _ rows (fun w v => v = w)).
  - intros w Hw. destruct (Hrows w Hw). done.
  - by intros w v Hw ->.
  - intros w v q _ ->. apply Hf.
  - intros w page v a pl1 v' st' -> Hp. apply bind_run in Hp as (x & v1 & Hq & Hp). injection Hq as <- <-.
    apply bind_run in Hp as (m & v1 & Hm & Hp). apply contributorsOf_ok in Hm as [-> _]. apply lift_run in Hp as [-> Hj]. split; [done|].
    apply judge_all_run in Hj as (i & H1 & _ & H3). by exists i.
  - intros page v st. unfold bind at 1, query. apply contributors_page. intros m. by apply judged_ends.
  - exact Hrest.
Qed.

Lemma act_one_ends w holds restricted m aside_rules going a c : act_one w holds restricted m aside_rules going a c <> Panic.
Proof. unfold act_one. repeat (break_match; try done). Qed.

Lemma steady_act actor holds restricted now aside_rules : steady (act s new_id actor holds restricted now aside_rules).
Proof.
  unfold act. cbv zeta. apply steady_bind; [apply steady_begin|]. intros pl.
  apply (steady_plain_read _ _ holds restricted _ _ _ (fun w => marked w now) (fun w m page => act_one w holds restricted m aside_rules (map cd_id page))).
  - intros w Hw. split; [by apply marked_rows_ok|apply omap_fits].
  - done.
  - intros. apply act_one_ends.
  - intros r. steady; [apply steady_settle|apply steady_perform].
Qed.
Lemma leaves_read action anchor : Leaves action = Some anchor -> contains [AnchorArchivedAt; AnchorDeletedAt] anchor = true.
Proof. unfold Leaves. repeat (break_match; try done); by intros [= <-]. Qed.

Lemma chain_one_ends holds restricted m a c : chain_one holds restricted m a c <> Panic.
Proof. unfold chain_one. by destruct (blocked _ _ _ _). Qed.

Lemma steady_chain holds restricted k now aside_rules o rule : steady (announce_chain s holds restricted k now aside_rules o rule).
Proof.
  unfold announce_chain. cbv zeta. destruct (_ || _); [apply steady_ret|]. destruct (StageAnchor rule k true) as [anchor|] eqn:Es; [|apply steady_ret].
  apply leaves_read in Es. apply steady_bind; [apply steady_begin|]. intros pl.
  apply (steady_read _ _ _ _ _ _ (fun w => anchored w anchor (ThenCutoff rule now) (Some (ru_id rule))) (fun w v => v = w)).
  - intros w Hw. split; [by apply anchored_rows_ok|]. split; [done|apply anchored_fit].
  - by intros w v Hw ->.
  - intros w v q _ ->. unfold DueInChain, query. by rewrite Es.
  - intros w page v a pl1 v' st' -> Hp. apply bind_run in Hp as (m & v1 & Hm & Hp). apply contributorsOf_ok in Hm as [-> _]. apply lift_run in Hp as [-> Hj]. split; [done|].
    apply judge_all_run in Hj as (i & H1 & _ & H3). by exists i.
  - intros page v st. apply contributors_page. intros m. apply judged_ends. intros. apply chain_one_ends.
  - intros r. steady; [apply steady_settle|]. by apply steady_put.
Qed.

Lemma swept_kinds_read : Forall (fun k => kd_marks k = true -> contains [AnchorCompletedAt; AnchorArchivedAt; AnchorDeletedAt] (kd_anchor k) = true) SweptKinds.
Proof.
  assert (forallb (fun k => implb (kd_marks k) (contains [AnchorCompletedAt; AnchorArchivedAt; AnchorDeletedAt] (kd_anchor k))) SweptKinds = true) as H by (vm_compute; reflexivity).
  rewrite List.forallb_forall in H. apply List.Forall_forall. intros k Hk Hm. specialize (H k Hk). by rewrite Hm in H.
Qed.

(** A pass ends.  However the pages fall, over whatever cursors the passes
    before it left, its reads reach the last row, a full batch or the budget, and
    it answers or refuses. *)
Theorem pass_ends actor now w : named w ->
  match Pass s new_id actor now w with (w', Ok _) => named w' | (_, Err _) => True | (_, Panic) => False end.
Proof.
  revert w. change (steady (Pass s new_id actor now)). unfold Pass, Active.
  apply steady_bind; [apply steady_lift, (aa_rules answering)|]. intros rules.
  apply steady_bind; [apply steady_lift, (aa_holds answering)|]. intros holds.
  apply steady_bind; [apply steady_lift|intros restricted].
  { unfold restrictionsOf. destruct (sg_restricted _) as [people|] eqn:E; [|done]. apply (aa_restricted answering) in E. by destruct people. }
  apply steady_bind; [|intros o; steady; apply steady_act].
  generalize no_outcome. pose proof swept_kinds_read as Hk. induction SweptKinds as [|k ks IH]; cbn [fold_steps]; [intros; apply steady_ret|].
  apply Forall_cons in Hk as [Hk Hks]. intros o. apply steady_bind; [|intros o'; by apply IH]. destruct (kd_marks k); cbn [negb]; [|apply steady_ret].
  steady; [by apply steady_announce_rules, Hk|]. unfold announceChains. steady. apply steady_chain.
Qed.
End Ends.

(** ** Passes, on concrete inputs

    A task and a package below it, both done and both marked for deletion, in a
    workspace whose grace for them is over. *)
Definition done_row (id parent : ID) (path : list ID) (action : string) : ItemRow :=
  mkItemRow "TASK" parent (segs path) (Z.of_nat (List.length path)) (uuid "c") "t" (Some 10) None None "" 10 1 (Some 50) "r" action "".
Definition marked_server (childAction : string) : Server :=
  mkServer
    (list_to_map [(uuid "1", done_row (uuid "1") "" [uuid "1"] ActionHardDelete);
                  (uuid "2", done_row (uuid "2") (uuid "1") [uuid "1"; uuid "2"] childAction)])
    (list_to_map [(uuid "b", mkContainerRow true "" None); (uuid "c", mkContainerRow false (uuid "b") None)])
    ∅ ∅ [] 0 [] [] [] ∅ [].

Definition wrote (id : ID) : list ID := if String.eqb id (uuid "2") then [anna] else [].
Definition guards (holds : list LegalHold) (restricted : list ID) : Safeguards := mkSafeguards (Ok holds) (Ok wrote) (Some (Ok restricted)).
Definition sweeper (rules : list Rule) (holds : list LegalHold) (restricted : list ID) : Sweeper :=
  mkSweeper (Ok rules) (guards holds restricted) (purger_of 5) true None (Some (fun _ => Ok tt)) 5 true 0.

Definition after {A} (r : Server * res A) : option (list ID) := match r with (w, Ok _) => Some (map fst (map_to_list (sv_items w))) | _ => None end.
Definition refused {A} (r : Server * res A) : option Error := match r with (_, Err e) => Some e | _ => None end.

(** The package's author is restricted: the pass counts the package as kept by
    the restriction and removes it, below its task. *)
Example restricted_goes_with_parent :
  match Pass (sweeper [] [] [anna]) office_id office 100 (marked_server ActionHardDelete) with
  | (w, Ok o) => sv_items w !! uuid "2" = None /\ oc_blocked o !! BlockedByRestriction = Some 1 /\ oc_held o = 1
  | _ => False
  end.
Proof. vm_compute. split; [reflexivity|split; reflexivity]. Qed.

(** A package a rule only announces goes with its task as well. *)
Example announced_goes_with_parent :
  match Pass (sweeper [] [] []) office_id office 100 (marked_server ActionNotifyOnly) with
  | (w, Ok o) => sv_items w !! uuid "2" = None /\ oc_matched o = 1 /\ oc_removed o = 2
  | _ => False
  end.
Proof. vm_compute. split; [reflexivity|split; reflexivity]. Qed.

(** With nothing in the way the task goes first and takes its package, which the
    pass then looks for: it fails, and so does every pass after it. *)
Example family_stops_pass :
  refused (Pass (sweeper [] [] []) office_id office 100 (marked_server ActionHardDelete)) = Some (WithDetail ErrNotFound "items.not_found").
Proof. vm_compute. reflexivity. Qed.

(** A hold on the package is counted, and then stops the pass at its task. *)
Example held_child_stops_pass :
  refused (Pass (sweeper [] [anna_held] []) office_id office 100 (marked_server ActionHardDelete)) = Some (legalHoldRefusal anna_held).
Proof. vm_compute. reflexivity. Qed.

(** *** The theorems on these inputs *)

Definition announced_pair : Server := marked_server ActionNotifyOnly.

Lemma pair_row id r : sv_items announced_pair !! id = Some r ->
  (id = uuid "1" /\ r = done_row id "" [id] ActionHardDelete) \/ (id = uuid "2" /\ r = done_row id (uuid "1") [uuid "1"; id] ActionNotifyOnly).
Proof.
  intros H. apply elem_of_list_to_map_2 in H. rewrite !elem_of_cons, elem_of_nil in H. destruct H as [[= -> ->]|[[= -> ->]|[]]]; tauto.
Qed.

Lemma pair_store_ok : store_ok announced_pair.
Proof. apply store_checked. vm_compute. reflexivity. Qed.

Lemma pair_paths_ok : paths_ok announced_pair.
Proof.
  split.
  - intros id r [[-> ->]|[-> ->]]%pair_row.
    + exists []. split; [by repeat constructor|]. split; [done|]. by intros [|] x post.
    + exists [uuid "1"]. split; [by repeat constructor|]. split; [done|].
      intros [|y [|]] x post E; [|done|done]. injection E as <- <-. by eexists.
  - by intros id r x q [[-> ->]|[-> ->]]%pair_row [[-> ->]|[-> ->]]%pair_row.
Qed.

Definition acted_pair : Server := Eval vm_compute in fst (act (sweeper [] [] []) office_id office [] ∅ 100 ∅ announced_pair).
Definition acted_outcome : Outcome := Eval vm_compute in
  match snd (act (sweeper [] [] []) office_id office [] ∅ 100 ∅ announced_pair) with Ok o => o | _ => no_outcome end.
Lemma acted_run : act (sweeper [] [] []) office_id office [] ∅ 100 ∅ announced_pair = (acted_pair, Ok acted_outcome).
Proof. vm_compute. reflexivity. Qed.

Lemma act_safe_witness : sv_items acted_pair !! uuid "2" = None /\ announced acted_pair (uuid "2") /\
  may_erase (sweeper [] [] []) [] ∅ ∅ 100 announced_pair (uuid "2") (done_row (uuid "2") (uuid "1") [uuid "1"; uuid "2"] ActionNotifyOnly).
Proof.
  destruct (act_safe (sweeper [] [] []) office_id office [] ∅ 100 ∅ announced_pair acted_pair acted_outcome pair_store_ok pair_paths_ok eq_refl acted_run) as [_ H].
  specialize (H (uuid "2") (done_row (uuid "2") (uuid "1") [uuid "1"; uuid "2"] ActionNotifyOnly) eq_refl).
  split; [vm_compute; reflexivity|]. assert (sv_items acted_pair !! uuid "2" = None) as E by (vm_compute; reflexivity). rewrite E in H. split; apply H.
Defined.

(** A task done long ago, and the rule that archives what is done. *)
Definition idle_row : ItemRow :=
  mkItemRow "TASK" "" (segs [uuid "1"]) 1 (uuid "c") "t" (Some 0) None None "" 10 1 None "" "" "".
Definition idle_server : Server :=
  mkServer {[uuid "1" := idle_row]} (list_to_map [(uuid "b", mkContainerRow true "" None); (uuid "c", mkContainerRow false (uuid "b") None)])
    ∅ ∅ [] 0 [] [] [] ∅ [].
Definition tidy : Rule :=
  mkRule "r" "tenant" (mkScope ScopeTenant "") KindCompletedItem "" 30 ActionArchive 0 "" 7 (mkNotify 0 []) "" true "" "lawyer" 1 1 1 no_failure.
Definition done_kind : Kind := marking_kind KindCompletedItem AnchorCompletedAt
  [ActionArchive; ActionTrash; ActionHardDelete; ActionExportThenDelete; ActionNotifyOnly].
Definition later : Time := add_days 0 31.

Definition told_server : Server := Eval vm_compute in
  fst (announceRules (sweeper [tidy] [] []) office [tidy] [] ∅ done_kind later idle_server).
Definition told_outcome : Outcome := Eval vm_compute in
  match snd (announceRules (sweeper [tidy] [] []) office [tidy] [] ∅ done_kind later idle_server) with Ok o => o | _ => no_outcome end.
Lemma told_run : announceRules (sweeper [tidy] [] []) office [tidy] [] ∅ done_kind later idle_server = (told_server, Ok told_outcome).
Proof. vm_compute. reflexivity. Qed.

Lemma marks_told_witness : exists r', sv_items told_server !! uuid "1" = Some r' /\ ir_pending r' = Some (add_days later 7) /\ bare r' = bare idle_row.
Proof.
  pose proof (marks_told (sweeper [tidy] [] []) office [tidy] [] ∅ done_kind later idle_server told_server told_outcome eq_refl (NoDup_singleton _) told_run (uuid "1")) as H.
  assert (sv_items idle_server !! uuid "1" = Some idle_row) as E1 by reflexivity. rewrite E1 in H.
  destruct (sv_items told_server !! uuid "1") as [r'|] eqn:E2; [|destruct H]. exists r'. split; [reflexivity|]. split; [|apply H].
  revert E2. vm_compute. intros [= <-]. reflexivity.
Defined.

Lemma pass_ends_witness : match Pass (sweeper [tidy] [] []) office_id office later idle_server with (w', Ok _) => named w' | (_, Err _) => True | (_, Panic) => False end.
Proof.
  apply (pass_ends (sweeper [tidy] [] []) office_id); [|reflexivity]. split; [done|done|done| | |].
  - by intros r [= <-].
  - done.
  - by intros export [= <-].
Defined.
