(* ===== verification/Query.v ===== *)
(** * The query language: fields, filters, sorts

    Models core/domain/model/view: the field catalogue (Field.go), the filter
    tree and its values (Filter.go), what a filter costs (Cost.go), how a
    placeholder is read (the first half of Placeholder.go), and the rest of a
    query - its scope, its order, its groups, its count (QuerySpec.go).

    A document is the Go value the JSON decoder or a caller inside the program
    hands over ([any]); a map is its list of keys and values, the keys distinct.
    [parseNode] threads the count of nodes as the source's [*int] does and is
    structural on the levels of depth left. *)

From Stdlib Require Import ZArith Lia String Ascii List Bool.
From stdpp Require Import base list strings.
From S2P Require Import Prelude Shared Hlc Text Civil Literal.

Open Scope string_scope.
Open Scope list_scope.
Open Scope Z_scope.

(** ** Documents *)

Inductive any : Type :=
  | ANull
  | ABool (b : bool)
  | ANumber (x : float64)
  | AInt (n : Z)
  | AInt64 (n : Z)
  | AText (s : string)
  | AList (elements : list any)
  | AObject (fields : list (string * any)).

(** [document[key]]: absent keys read as [nil]. *)
Fixpoint entry (fields : list (string * any)) (key : string) : option any :=
  match fields with
  | [] => None
  | (k, v) :: rest => if String.eqb k key then Some v else entry rest key
  end.
Definition read (fields : list (string * any)) (key : string) : any := default ANull (entry fields key).
Definition present (fields : list (string * any)) (key : string) : bool :=
  match entry fields key with Some _ => true | None => false end.

(** [value, _ := raw.(string)]. *)
Definition stringOf (raw : any) : string := match raw with AText s => s | _ => "" end.
Definition is_nil (raw : any) : bool := match raw with ANull => true | _ => false end.

(** ** Field.go *)

Definition fieldError (path code : string) (p : params) : Error :=
  WithParams (WithFields (WithDetail ErrValidation code) [mkFieldError path code p]) p.

Inductive Kind : Type :=
  | KindZero | KindString | KindText | KindID | KindBool | KindInt | KindTimestamp | KindEnum | KindIDSet
  | KindCustom | KindNumber.

#[export] Instance kind_eq_dec : EqDecision Kind.
Proof. solve_decision. Defined.

Definition kind_text (k : Kind) : string :=
  match k with
  | KindZero => "" | KindString => "string" | KindText => "text" | KindID => "id" | KindBool => "boolean"
  | KindInt => "integer" | KindTimestamp => "timestamp" | KindEnum => "enum" | KindIDSet => "id_set"
  | KindCustom => "custom" | KindNumber => "number"
  end.

Inductive Operator : Type :=
  | OpAnd | OpOr | OpNot | OpEq | OpNeq | OpIn | OpNotIn | OpLt | OpLte | OpGt | OpGte | OpBetween
  | OpIsNull | OpContains | OpContainsAny | OpContainsAll | OpStartsWith | OpMatches.

#[export] Instance operator_eq_dec : EqDecision Operator.
Proof. solve_decision. Defined.

Definition op_text (o : Operator) : string :=
  match o with
  | OpAnd => "AND" | OpOr => "OR" | OpNot => "NOT" | OpEq => "EQ" | OpNeq => "NEQ" | OpIn => "IN"
  | OpNotIn => "NOT_IN" | OpLt => "LT" | OpLte => "LTE" | OpGt => "GT" | OpGte => "GTE"
  | OpBetween => "BETWEEN" | OpIsNull => "IS_NULL" | OpContains => "CONTAINS"
  | OpContainsAny => "CONTAINS_ANY" | OpContainsAll => "CONTAINS_ALL" | OpStartsWith => "STARTS_WITH"
  | OpMatches => "MATCHES"
  end.

(** The closed set of operators, by name. *)
Definition operators : list Operator :=
  [OpAnd; OpOr; OpNot; OpEq; OpNeq; OpIn; OpNotIn; OpLt; OpLte; OpGt; OpGte; OpBetween; OpIsNull;
   OpContains; OpContainsAny; OpContainsAll; OpStartsWith; OpMatches].
Definition operator_named (name : string) : option Operator :=
  find (fun o => String.eqb (op_text o) name) operators.

Definition Combines (o : Operator) : bool :=
  match o with OpAnd | OpOr | OpNot => true | _ => false end.

(** CustomShape.go: what the definitions say about a custom field, empty for
    every field here. *)
Inductive CustomColumn : Type :=
  | ColumnNone | CustomNumber | CustomInstant | CustomText | CustomRef | CustomAddress | CustomProse.

#[export] Instance custom_column_eq_dec : EqDecision CustomColumn.
Proof. solve_decision. Defined.

Record CustomShape := mkShape {
  sh_resolved : bool; sh_defined : bool; sh_ambiguous : bool; sh_column : CustomColumn; sh_set : bool; sh_moment : bool
}.

#[export] Instance custom_shape_eq_dec : EqDecision CustomShape.
Proof. solve_decision. Defined.

Definition zero_shape : CustomShape := mkShape false false false ColumnNone false false.

Record Field := mkField {
  f_name : string;
  f_kind : Kind;
  f_operators : list Operator;
  f_values : list string;
  f_nullable : bool;
  f_sortable : bool;
  f_groupable : bool;
  f_custom : CustomShape
}.

#[export] Instance field_eq_dec : EqDecision Field.
Proof. solve_decision. Defined.

Definition zero_field : Field := mkField "" KindZero [] [] false false false zero_shape.

Definition Permits (f : Field) (op : Operator) : bool := contains (f_operators f) op.

Definition CustomFieldPrefix : string := "custom_fields.".
Definition MaxCustomFieldKeyLength : nat := 50.

Definition customFieldOperators : list Operator :=
  [OpEq; OpNeq; OpIn; OpNotIn; OpIsNull; OpContains; OpLt; OpLte; OpGt; OpGte; OpBetween;
   OpContainsAny; OpContainsAll; OpStartsWith].

(** The key of a [custom_fields.<key>] name: a lower case letter, then letters,
    digits and underscores. *)
Definition CustomField (name : string) : option string :=
  if str_has_prefix CustomFieldPrefix name then
    let key := str_drop (String.length CustomFieldPrefix) name in
    if key_shaped (MaxCustomFieldKeyLength - 1) key then Some key else None
  else None.

Definition customFieldEntry (name : string) : Field :=
  mkField name KindCustom customFieldOperators [] true true true zero_shape.

Definition SLAStandings : list string := ["MET"; "PAUSED"; "RUNNING"; "AT_RISK"; "BREACHED"].

(** A row of the catalogue; the three flags are nullable, sortable, groupable. *)
Definition row (name : string) (kind : Kind) (ops : list Operator) (nullable sortable groupable : bool) : Field :=
  mkField name kind ops [] nullable sortable groupable zero_shape.
Definition enum_row (name : string) (ops : list Operator) (values : list string)
    (nullable sortable groupable : bool) : Field :=
  mkField name KindEnum ops values nullable sortable groupable zero_shape.

Definition catalogue : list Field :=
  [ enum_row "type" [OpEq; OpNeq; OpIn; OpNotIn] ["TASK"; "WORK_PACKAGE"; "ACTIVITY"] false true true;
    row "entry_type" KindString [OpEq; OpNeq; OpIn; OpNotIn] false false true;
    row "parent_id" KindID [OpEq; OpNeq; OpIn; OpNotIn; OpIsNull] true false false;
    row "collection_id" KindID [OpEq; OpIn] false false true;
    row "bucket_id" KindID [OpEq; OpNeq; OpIn; OpNotIn; OpIsNull] true false true;
    row "status" KindString [OpEq; OpNeq; OpIn; OpNotIn; OpIsNull] true false true;
    row "is_completed" KindBool [OpEq; OpNeq] false true true;
    row "title" KindString [OpEq; OpNeq; OpContains; OpStartsWith] false true false;
    row "notes" KindText [OpContains; OpIsNull] true false false;
    row "depth" KindInt [OpEq; OpNeq; OpIn; OpLt; OpLte; OpGt; OpGte; OpBetween] false true false;
    row "order_key" KindString [] false true false;
    row "created_by" KindID [OpEq; OpNeq; OpIn; OpNotIn] false false true;
    row "created_at" KindTimestamp [OpEq; OpNeq; OpLt; OpLte; OpGt; OpGte; OpBetween] false true false;
    row "updated_at" KindTimestamp [OpEq; OpNeq; OpLt; OpLte; OpGt; OpGte; OpBetween] false true false;
    row "completed_at" KindTimestamp [OpLt; OpLte; OpGt; OpGte; OpBetween; OpIsNull] true true false;
    row "start_at" KindTimestamp [OpLt; OpLte; OpGt; OpGte; OpBetween; OpIsNull] true true false;
    row "due_at" KindTimestamp [OpLt; OpLte; OpGt; OpGte; OpBetween; OpIsNull] true true false;
    row "archived_at" KindTimestamp [OpLt; OpLte; OpGt; OpGte; OpBetween; OpIsNull] true true false;
    row "labels" KindIDSet [OpContains; OpContainsAny; OpContainsAll] false false false;
    row "assignee_id" KindID [OpEq; OpNeq; OpIn; OpNotIn; OpIsNull] true false true;
    row "members" KindIDSet [OpContains; OpContainsAny; OpContainsAll] false false false;
    row "text" KindText [OpMatches] false false false;
    row "blocked" KindBool [OpEq; OpNeq] false false false;
    row "blocking" KindBool [OpEq; OpNeq] false false false;
    row "linked_to" KindID [OpEq; OpIn] false false false;
    row "sla_due" KindTimestamp [OpLt; OpLte; OpGt; OpGte; OpBetween; OpIsNull] true true false;
    enum_row "sla_standing" [OpEq; OpNeq; OpIn; OpNotIn; OpIsNull] SLAStandings true false false;
    row "group_queue_of" KindID [OpEq] false false false;
    row "satisfaction" KindInt [OpEq; OpNeq; OpIn; OpLt; OpLte; OpGt; OpGte; OpBetween; OpIsNull] true false false ].

Definition FieldByName (name : string) : option Field :=
  find (fun f => String.eqb (f_name f) name) catalogue.

Definition field (name path : string) : res Field :=
  let name := TrimSpace name in
  if String.eqb name "" then Err (fieldError path "query.field_required" [])
  else match CustomField name with
       | Some _ => Ok (customFieldEntry name)
       | None =>
           match FieldByName name with
           | Some found => Ok found
           | None => Err (fieldError path "query.field_unknown" [("field", name)])
           end
       end.

(** ** Placeholder.go: what a placeholder is and how it is read *)

Definition placeholderPrefix : string := "@".

Inductive PlaceholderKind : Type :=
  | PlaceholderZero | PlaceholderMe | PlaceholderNow | PlaceholderToday | PlaceholderEndOfDay
  | PlaceholderStartOfWeek | PlaceholderEndOfWeek | PlaceholderStartOfMonth | PlaceholderEndOfMonth.

#[export] Instance placeholder_kind_eq_dec : EqDecision PlaceholderKind.
Proof. solve_decision. Defined.

Definition placeholder_kinds : list (string * PlaceholderKind) :=
  [("@me", PlaceholderMe); ("@now", PlaceholderNow); ("@today", PlaceholderToday);
   ("@end_of_day", PlaceholderEndOfDay); ("@start_of_week", PlaceholderStartOfWeek);
   ("@end_of_week", PlaceholderEndOfWeek); ("@start_of_month", PlaceholderStartOfMonth);
   ("@end_of_month", PlaceholderEndOfMonth)].

(** [PlaceholderKind(anchor).valid()]. *)
Definition placeholder_named (anchor : string) : option PlaceholderKind :=
  option_map snd (find (fun p => String.eqb p.1 anchor) placeholder_kinds).

Record Offset := mkOffset {
  of_years : Z; of_months : Z; of_days : Z; of_clock : Z; of_negative : bool
}.

#[export] Instance offset_eq_dec : EqDecision Offset.
Proof. solve_decision. Defined.

Definition zero_offset : Offset := mkOffset 0 0 0 0 false.

Definition offset_is_zero (o : Offset) : bool :=
  (of_years o =? 0) && (of_months o =? 0) && (of_days o =? 0) && (of_clock o =? 0).

Record Placeholder := mkPlaceholder { ph_kind : PlaceholderKind; ph_offset : Offset }.

#[export] Instance placeholder_eq_dec : EqDecision Placeholder.
Proof. solve_decision. Defined.

Definition zero_placeholder : Placeholder := mkPlaceholder PlaceholderZero zero_offset.

Definition maxOffsetUnits : Z := 1000.

(** [eachComponent]: amounts and their designators, applied one by one; [None]
    for a malformed text.  Every component takes a byte at least, so the length
    is fuel enough. *)
Fixpoint eachComponent {A} (fuel : nat) (text designators : string) (apply : A -> Z -> ascii -> A) (a : A) : option A :=
  match fuel, text with
  | S fuel', String _ _ =>
      let '(digits, rest) := leading_digits text in
      match parse_nonempty digits, rest with
      | Some amount, String designator rest' =>
          if (maxOffsetUnits <? amount) || negb (str_contains designator designators) then None
          else eachComponent fuel' rest' designators apply (apply a amount designator)
      | _, _ => None
      end
  | _, EmptyString => Some a
  | O, _ => None
  end.

(** Additions wrap in their 64 bits. *)
Definition add_date (o : Offset) (amount : Z) (designator : ascii) : Offset :=
  if Ascii.eqb designator "Y" then mkOffset (wrap_int64 (of_years o + amount)) (of_months o) (of_days o) (of_clock o) (of_negative o)
  else if Ascii.eqb designator "W" then mkOffset (of_years o) (of_months o) (wrap_int64 (of_days o + amount * 7)) (of_clock o) (of_negative o)
  else if Ascii.eqb designator "D" then mkOffset (of_years o) (of_months o) (wrap_int64 (of_days o + amount)) (of_clock o) (of_negative o)
  else mkOffset (of_years o) (wrap_int64 (of_months o + amount)) (of_days o) (of_clock o) (of_negative o).

Definition add_clock (o : Offset) (amount : Z) (designator : ascii) : Offset :=
  let unit := if Ascii.eqb designator "H" then Hour else if Ascii.eqb designator "S" then Second else Minute in
  mkOffset (of_years o) (of_months o) (of_days o) (wrap_int64 (of_clock o + wrap_int64 (amount * unit))) (of_negative o).

Definition parseOffset (raw path : string) : res Offset :=
  let malformed := Err (fieldError path "query.offset_malformed" []) in
  let '(negative, raw) :=
    if str_has_prefix "-" raw then (true, str_drop 1 raw)
    else if str_has_prefix "+" raw then (false, str_drop 1 raw) else (false, raw) in
  if negb (str_has_prefix "P" raw) || String.eqb raw "P" then malformed
  else
    let raw := str_drop 1 raw in
    let '(date, clock, hasClock) :=
      match str_cut "T" raw with Some (d, c) => (d, c, true) | None => (raw, "", false) end in
    if hasClock && String.eqb clock "" then malformed
    else
      match eachComponent (String.length date) date "YMWD" add_date (mkOffset 0 0 0 0 negative) with
      | None => malformed
      | Some o =>
          match eachComponent (String.length clock) clock "HMS" add_clock o with
          | None => malformed
          | Some o => if offset_is_zero o then malformed else Ok o
          end
      end.

(** [strings.IndexAny(raw, "+-")] splits the text, unless it starts with one. *)
Fixpoint split_sign_at (raw : string) : string * string :=
  match raw with
  | String c rest =>
      if Ascii.eqb c "+" || Ascii.eqb c "-" then (EmptyString, raw)
      else let '(before, after) := split_sign_at rest in (String c before, after)
  | EmptyString => (EmptyString, EmptyString)
  end.

Definition parsePlaceholder (raw : string) (kind : Kind) (path : string) : res Placeholder :=
  let '(anchor, offsetText) :=
    match split_sign_at raw with
    | (EmptyString, _) => (raw, "")
    | cut => cut
    end in
  match placeholder_named anchor with
  | None => Err (fieldError path "query.placeholder_unknown" [("placeholder", anchor)])
  | Some pk =>
      if negb (Bool.eqb (bool_decide (pk = PlaceholderMe)) (bool_decide (kind = KindID) || bool_decide (kind = KindIDSet))) then
        Err (fieldError path "query.placeholder_not_applicable" [("placeholder", anchor); ("kind", kind_text kind)])
      else if String.eqb offsetText "" then Ok (mkPlaceholder pk zero_offset)
      else if bool_decide (pk = PlaceholderMe) then
        Err (fieldError path "query.placeholder_offset_not_allowed" [("placeholder", anchor)])
      else o ← parseOffset offsetText path;
           Ok (mkPlaceholder pk o)
  end.

(** ** Filter.go *)

Definition MaxFilterDepth : nat := 5.
Definition MaxFilterNodes : Z := 50.
Definition MaxValues : Z := 100.
Definition MaxValueLength : Z := 500.

Record Value := mkValue {
  v_kind : Kind; v_text : string; v_id : ID; v_int : Z; v_bool : bool; v_time : Time; v_placeholder : Placeholder
}.

#[export] Instance value_eq_dec : EqDecision Value.
Proof. solve_decision. Defined.

Definition zero_value : Value := mkValue KindZero "" "" 0 false zero_time zero_placeholder.
Definition text_value (k : Kind) (s : string) : Value := mkValue k s "" 0 false zero_time zero_placeholder.
Definition id_value (id : ID) : Value := mkValue KindID "" id 0 false zero_time zero_placeholder.
Definition int_value (n : Z) : Value := mkValue KindInt "" "" n false zero_time zero_placeholder.
Definition bool_value (b : bool) : Value := mkValue KindBool "" "" 0 b zero_time zero_placeholder.
Definition time_value (t : Time) : Value := mkValue KindTimestamp "" "" 0 false t zero_placeholder.
Definition placeholder_value (k : Kind) (p : Placeholder) : Value := mkValue k "" "" 0 false zero_time p.

Definition IsPlaceholder (v : Value) : bool := negb (bool_decide (ph_kind (v_placeholder v) = PlaceholderZero)).

(** A leaf has a field and values, a combination has nodes. *)
Inductive Node : Type :=
  | mkNode (op : Operator) (target : Field) (values : list Value) (nodes : list Node).

Definition n_op (n : Node) : Operator := let 'mkNode op _ _ _ := n in op.
Definition n_field (n : Node) : Field := let 'mkNode _ f _ _ := n in f.
Definition n_values (n : Node) : list Value := let 'mkNode _ _ vs _ := n in vs.
Definition n_nodes (n : Node) : list Node := let 'mkNode _ _ _ ns := n in ns.

Definition IsLeaf (n : Node) : bool := negb (Combines (n_op n)).

Definition typeError (path : string) (target : Field) : Error :=
  fieldError path "query.value_type_invalid" [("field", f_name target); ("kind", kind_text (f_kind target))].

(** [integerOf]: a JSON number is a float, and must be whole. *)
Definition integerOf (raw : any) : option Z :=
  match raw with
  | AInt n | AInt64 n => Some n
  | ANumber x => if float_eqb x (float_of_int64 (int64_of_float x)) then Some (int64_of_float x) else None
  | _ => None
  end.

Definition numberTextOf (raw : any) : option string :=
  match raw with
  | ANumber x => Some (FormatFloat x)
  | AInt n | AInt64 n => Some (itoa n)
  | _ => None
  end.

(** A text of at most [MaxValueLength] characters, and not blank. *)
Definition bounded_text (k : Kind) (s path : string) : res Value :=
  let text := TrimSpace s in
  if String.eqb text "" then Err (fieldError path "query.value_required" [])
  else if MaxValueLength <? RuneCountInString text then
    Err (fieldError path "query.value_too_long" [("maximum", itoa MaxValueLength)])
  else Ok (text_value k text).

Definition parseCustomValue (raw : any) (path : string) : res Value :=
  match raw with
  | ABool b => Ok (bool_value b)
  | AText s => bounded_text KindString s path
  | _ =>
      match numberTextOf raw with
      | None => Err (fieldError path "query.value_type_invalid" [])
      | Some number => Ok (text_value KindNumber number)
      end
  end.

Definition join_with (sep : string) (xs : list string) : string := String.concat sep xs.

(** The value a kind of field takes; [parseValue] below looks for a placeholder
    first. *)
Definition parseKindValue (raw : any) (target : Field) (path : string) : res Value :=
  match f_kind target with
  | KindID | KindIDSet =>
      match raw with
      | AText text =>
          match ParseID (TrimSpace text) with
          | Ok id => Ok (id_value id)
          | _ => Err (fieldError path "shared.id_malformed" [])
          end
      | _ => Err (typeError path target)
      end
  | KindBool => match raw with ABool b => Ok (bool_value b) | _ => Err (typeError path target) end
  | KindInt => match integerOf raw with Some n => Ok (int_value n) | None => Err (typeError path target) end
  | KindTimestamp =>
      match raw with
      | AText text =>
          match parse_rfc3339 (TrimSpace text) with
          | Some moment => Ok (time_value moment)
          | None => Err (fieldError path "query.timestamp_malformed" [])
          end
      | _ => Err (typeError path target)
      end
  | KindEnum =>
      match raw with
      | AText text =>
          let text := TrimSpace text in
          if contains (f_values target) text then Ok (text_value KindEnum text)
          else Err (fieldError path "query.value_not_in_enum"
                      [("field", f_name target); ("allowed", join_with ", " (f_values target))])
      | _ => Err (typeError path target)
      end
  | KindCustom => parseCustomValue raw path
  | _ => match raw with AText text => bounded_text (f_kind target) text path | _ => Err (typeError path target) end
  end.

Definition takes_placeholder (k : Kind) : bool :=
  match k with KindID | KindIDSet | KindTimestamp => true | _ => false end.

Definition parseValue (raw : any) (target : Field) (path : string) : res Value :=
  match raw with
  | AText text =>
      if str_has_prefix placeholderPrefix text && takes_placeholder (f_kind target) then
        p ← parsePlaceholder text (f_kind target) path;
        Ok (placeholder_value (f_kind target) p)
      else parseKindValue raw target path
  | _ => parseKindValue raw target path
  end.

(** The elements of a list, each at its index. *)
Fixpoint parse_elements (elements : list any) (target : Field) (path : string) (index : Z) : res (list Value) :=
  match elements with
  | [] => Ok []
  | element :: rest =>
      v ← parseValue element target (path +:+ "/" +:+ itoa index);
      vs ← parse_elements rest target path (index + 1);
      Ok (v :: vs)
  end.

(** One value where a list of one would do is that list. *)
Definition parseList (raw : any) (target : Field) (path : string) (minimum maximum : Z) : res (list Value) :=
  elements ←
    match raw with
    | AList elements => Ok elements
    | _ => if is_nil raw || (1 <? minimum) then
             Err (fieldError path "query.values_required" [("minimum", itoa minimum)])
           else Ok [raw]
    end;
  let count := Z.of_nat (List.length elements) in
  if (count <? minimum) || (maximum <? count) then
    Err (fieldError path "query.values_arity_invalid" [("minimum", itoa minimum); ("maximum", itoa maximum)])
  else parse_elements elements target path 0.

Definition parseValues (document : list (string * any)) (target : Field) (op : Operator) (path : string) : res (list Value) :=
  let raw := read document "value" in
  let valuePath := path +:+ "/value" in
  match op with
  | OpIsNull => if is_nil raw then Ok [] else Err (fieldError valuePath "query.value_not_allowed" [])
  | OpIn | OpNotIn | OpContainsAny | OpContainsAll => parseList raw target valuePath 1 MaxValues
  | OpBetween => parseList raw target valuePath 2 2
  | _ =>
      if is_nil raw then Err (fieldError valuePath "query.value_required" [])
      else v ← parseValue raw target valuePath; Ok [v]
  end.

Definition parseOperator (raw : any) (path : string) : res Operator :=
  match raw with
  | AText name =>
      let name := TrimSpace name in
      if String.eqb name "" then Err (fieldError path "query.operator_required" [])
      else match operator_named name with
           | Some op => Ok op
           | None => Err (fieldError path "query.operator_unknown" [("operator", name)])
           end
  | _ => Err (fieldError path "query.operator_required" [])
  end.

Definition parseLeaf (document : list (string * any)) (op : Operator) (path : string) : res Node :=
  if present document "nodes" then Err (fieldError path "query.node_ambiguous" [])
  else
    target ← field (stringOf (read document "field")) (path +:+ "/field");
    if negb (Permits target op) then
      Err (fieldError (path +:+ "/op") "query.operator_unsupported" [("field", f_name target); ("operator", op_text op)])
    else if bool_decide (op = OpIsNull) && negb (f_nullable target) then
      Err (fieldError (path +:+ "/op") "query.field_not_nullable" [("field", f_name target)])
    else
      values ← parseValues document target op path;
      Ok (mkNode op target values []).

(** What a combination asks of its document before its children are read. *)
Definition combination_children (document : list (string * any)) (op : Operator) (path : string) : res (list any) :=
  if present document "field" then Err (fieldError path "query.node_ambiguous" [])
  else if present document "value" then Err (fieldError path "query.node_ambiguous" [])
  else
    match read document "nodes" with
    | AList (child :: children) =>
        if bool_decide (op = OpNot) && negb (Nat.eqb (List.length (child :: children)) 1) then
          Err (fieldError (path +:+ "/nodes") "query.not_takes_one" [])
        else Ok (child :: children)
    | _ => Err (fieldError (path +:+ "/nodes") "query.nodes_required" [])
    end.

(** The children in order, the count of nodes passed along. *)
Fixpoint parse_children (parse : any -> string -> Z -> res (Node * Z)) (children : list any) (path : string)
    (index count : Z) : res (list Node * Z) :=
  match children with
  | [] => Ok ([], count)
  | child :: rest =>
      '(node, count) ← parse child (path +:+ "/nodes/" +:+ itoa index) count;
      '(nodes, count) ← parse_children parse rest path (index + 1) count;
      Ok (node :: nodes, count)
  end.

(** [levels] is what is left of the depth: the root has [MaxFilterDepth]. *)
Fixpoint parseNode (levels : nat) (raw : any) (path : string) (count : Z) : res (Node * Z) :=
  match levels with
  | O => Err (fieldError path "query.filter_too_deep" [("maximum", itoa (Z.of_nat MaxFilterDepth))])
  | S levels' =>
      let count := count + 1 in
      if MaxFilterNodes <? count then
        Err (fieldError path "query.filter_too_large" [("maximum", itoa MaxFilterNodes)])
      else
        match raw with
        | AObject document =>
            op ← parseOperator (read document "op") (path +:+ "/op");
            if Combines op then
              children ← combination_children document op path;
              '(nodes, count) ← parse_children (parseNode levels') children path 0 count;
              Ok (mkNode op zero_field [] nodes, count)
            else
              leaf ← parseLeaf document op path;
              Ok (leaf, count)
        | _ => Err (fieldError path "query.node_malformed" [])
        end
  end.

(** ** Cost.go *)

Definition MaxFilterCost : Z := 50.
Definition costPlain : Z := 1.
Definition costListValuesPerUnit : Z := 20.
Definition costText : Z := 5.
Definition costStartsWith : Z := 2.
Definition costTraversal : Z := 2.
Definition costNegation : Z := 2.

Definition traversed : list string :=
  ["blocked"; "blocking"; "linked_to"; "sla_due"; "sla_standing"; "satisfaction"; "group_queue_of"].

Definition leaf_cost (op : Operator) (target : Field) (values : list Value) : Z :=
  if contains traversed (f_name target) then costTraversal
  else match op with
       | OpContains | OpMatches => costText
       | OpStartsWith => costStartsWith
       | OpIn | OpNotIn | OpContainsAny | OpContainsAll =>
           costPlain + Z.of_nat (List.length values) / costListValuesPerUnit
       | _ => costPlain
       end.

Fixpoint Cost (node : Node) : Z :=
  let 'mkNode op target values nodes := node in
  let total := fold_right Z.add 0 (map Cost nodes) in
  match op with
  | OpNot => total * costNegation
  | OpAnd | OpOr => total
  | _ => leaf_cost op target values
  end.

Definition checkCost (node : Node) (path : string) : res unit :=
  let cost := Cost node in
  if cost <=? MaxFilterCost then Ok tt
  else Err (fieldError path "query.filter_too_expensive" [("cost", itoa cost); ("maximum", itoa MaxFilterCost)]).

(** Filter.go. *)
Definition ParseFilter (raw : any) (path : string) : res (option Node) :=
  if is_nil raw then Ok None
  else
    '(node, _) ← parseNode MaxFilterDepth raw path 0;
    _ ← checkCost node path;
    Ok (Some node).

(** ** QuerySpec.go *)

Record Scope := mkScope { sc_container : ID; sc_item : ID; sc_descendants : bool; sc_workspace : bool }.

Record SortTerm := mkSortTerm { st_field : Field; st_descending : bool; st_nulls_first : bool }.

#[export] Instance sort_term_eq_dec : EqDecision SortTerm.
Proof. solve_decision. Defined.

Record GroupBy := mkGroupBy { gb_field : Field; gb_limit : Z }.

Definition zero_group_by : GroupBy := mkGroupBy zero_field 0.
Definition group_by_is_zero (g : GroupBy) : bool := String.eqb (f_name (gb_field g)) "".

Inductive CountMode : Type := CountNone | CountExact | CountEstimated.

Definition count_text (c : CountMode) : string :=
  match c with CountNone => "none" | CountExact => "exact" | CountEstimated => "estimated" end.

Record Spec := mkSpec {
  sp_scope : Scope;
  sp_filter : option Node;
  sp_sort : list SortTerm;
  sp_group_by : GroupBy;
  sp_archived : bool;
  sp_trashed : bool;
  sp_cursor : string;
  sp_size : Z;
  sp_count : CountMode
}.

Definition MaxSortTerms : Z := 4.
Definition DefaultGroupSize : Z := 50.
Definition MaxGroupSize : Z := 200.

Definition ParseScope (containerID itemID : ID) (includeDescendants : bool) (path : string) : res Scope :=
  if id_is_zero containerID && id_is_zero itemID then Err (fieldError path "query.scope_required" [])
  else if negb (id_is_zero containerID) && negb (id_is_zero itemID) then Err (fieldError path "query.scope_ambiguous" [])
  else Ok (mkScope containerID itemID includeDescendants false).

Definition ParseSummaryScope (containerID itemID : ID) (includeDescendants workspace : bool) (path : string) : res Scope :=
  if negb workspace then ParseScope containerID itemID includeDescendants path
  else if negb (id_is_zero containerID) || negb (id_is_zero itemID) then Err (fieldError path "query.scope_ambiguous" [])
  else Ok (mkScope "" "" true true).

Definition defaultSort : list SortTerm :=
  [mkSortTerm (default zero_field (FieldByName "order_key")) false false].

Definition parseSortTerm (raw : any) (path : string) : res SortTerm :=
  match raw with
  | AObject document =>
      target ← field (stringOf (read document "field")) (path +:+ "/field");
      if negb (f_sortable target) then
        Err (fieldError (path +:+ "/field") "query.field_not_sortable" [("field", f_name target)])
      else
        let direction := TrimSpace (stringOf (read document "dir")) in
        descending ←
          (if String.eqb direction "" || String.eqb direction "ASC" then Ok false
           else if String.eqb direction "DESC" then Ok true
           else Err (fieldError (path +:+ "/dir") "query.sort_direction_unknown" [("value", direction)]));
        let nulls := TrimSpace (stringOf (read document "nulls")) in
        first ←
          (if String.eqb nulls "" || String.eqb nulls "LAST" then Ok false
           else if String.eqb nulls "FIRST" then Ok true
           else Err (fieldError (path +:+ "/nulls") "query.sort_nulls_unknown" [("value", nulls)]));
        Ok (mkSortTerm target descending first)
  | _ => Err (fieldError path "query.sort_malformed" [])
  end.

(** The terms in order; a field named twice is refused where it comes again. *)
Fixpoint parse_terms (terms : list any) (path : string) (index : Z) (seen : list string) : res (list SortTerm) :=
  match terms with
  | [] => Ok []
  | raw :: rest =>
      let at_ := path +:+ "/" +:+ itoa index in
      term ← parseSortTerm raw at_;
      let name := f_name (st_field term) in
      if contains seen name then Err (fieldError at_ "query.sort_duplicated" [("field", name)])
      else
        sort ← parse_terms rest path (index + 1) (name :: seen);
        Ok (term :: sort)
  end.

Definition parseSortTerms (raw : any) (path : string) : res (list SortTerm) :=
  match raw with
  | AList [] => Ok defaultSort
  | AList terms =>
      if MaxSortTerms <? Z.of_nat (List.length terms) then
        Err (fieldError path "query.sort_too_long" [("maximum", itoa MaxSortTerms)])
      else parse_terms terms path 0 []
  | _ => Err (fieldError path "query.sort_malformed" [])
  end.

Definition ParseSort (raw : any) (path : string) : res (list SortTerm) :=
  if is_nil raw then Ok defaultSort else parseSortTerms raw path.

Definition ParseSortOrNone (raw : any) (path : string) : res (list SortTerm) :=
  if is_nil raw then Ok [] else parseSortTerms raw path.

Definition GroupSize (requested : Z) : Z :=
  if requested <? 1 then DefaultGroupSize else if MaxGroupSize <? requested then MaxGroupSize else requested.

Definition ParseGroupBy (raw : any) (path : string) : res GroupBy :=
  match raw with
  | ANull => Ok zero_group_by
  | AObject document =>
      target ← field (stringOf (read document "field")) (path +:+ "/field");
      if negb (f_groupable target) then
        Err (fieldError (path +:+ "/field") "query.field_not_groupable" [("field", f_name target)])
      else
        let raw := read document "limit_per_group" in
        if is_nil raw then Ok (mkGroupBy target DefaultGroupSize)
        else match integerOf raw with
             | None => Err (fieldError (path +:+ "/limit_per_group") "query.value_type_invalid" [])
             | Some number => Ok (mkGroupBy target (GroupSize number))
             end
  | _ => Err (fieldError path "query.group_by_malformed" [])
  end.

Definition ParseCount (raw path : string) : res CountMode :=
  let mode := TrimSpace raw in
  if String.eqb mode "" || String.eqb mode "none" then Ok CountNone
  else if String.eqb mode "exact" then Ok CountExact
  else if String.eqb mode "estimated" then
    Err (fieldError path "query.count_not_supported" [("value", count_text CountEstimated)])
  else Err (fieldError path "query.count_unknown" [("value", mode)]).

(** [Spec.Validate]. *)
Definition spec_validate (s : Spec) (path : string) : res unit :=
  if negb (String.eqb (sp_cursor s) "") && negb (group_by_is_zero (sp_group_by s)) then
    Err (fieldError (path +:+ "/page/cursor") "query.cursor_not_grouped" [])
  else if Nat.eqb (List.length (sp_sort s)) 0 then Err (fieldError (path +:+ "/sort") "query.sort_malformed" [])
  else Ok tt.

(** ** Small runs *)

Definition leaf_document (name op : string) (value : any) : any :=
  AObject [("field", AText name); ("op", AText op); ("value", value)].
Definition three : any := ANumber (float_of_int64 3).

Example filter_leaf : ParseFilter (leaf_document "depth" "LTE" three) "/filter" =
  Ok (Some (mkNode OpLte (default zero_field (FieldByName "depth")) [int_value 3] [])).
Proof. vm_compute. reflexivity. Qed.
Example filter_custom : option_map n_values (match ParseFilter (leaf_document "custom_fields.x" "EQ" three) "" with Ok n => n | _ => None end)
  = Some [text_value KindNumber "3"].
Proof. vm_compute. reflexivity. Qed.
Example filter_relative : ParseFilter (leaf_document "due_at" "LT" (AText "@end_of_week-P1W")) "/filter" =
  Ok (Some (mkNode OpLt (default zero_field (FieldByName "due_at"))
              [placeholder_value KindTimestamp (mkPlaceholder PlaceholderEndOfWeek (mkOffset 0 0 7 0 true))] [])).
Proof. vm_compute. reflexivity. Qed.
Example filter_refused : ParseFilter (leaf_document "status" "LT" (AText "open")) "/filter" =
  Err (fieldError "/filter/op" "query.operator_unsupported" [("field", "status"); ("operator", "LT")]).
Proof. vm_compute. reflexivity. Qed.

(** ** What a parsed filter is *)

(** A field of the catalogue, or a custom one. *)
Definition known_field (f : Field) : Prop :=
  In f catalogue \/ exists key, CustomField (f_name f) = Some key /\ f = customFieldEntry (f_name f).

(** A text a filter compares with: not blank, trimmed, of bounded length. *)
Definition short_text (s : string) : Prop :=
  s <> "" /\ RuneCountInString s <= MaxValueLength /\ exists raw, s = TrimSpace raw.

Definition placeholder_fits (k : Kind) (p : Placeholder) : Prop :=
  ph_kind p <> PlaceholderZero /\ (ph_kind p = PlaceholderMe <-> k = KindID \/ k = KindIDSet) /\
  (ph_kind p = PlaceholderMe -> ph_offset p = zero_offset).

(** The values of a kind of field. *)
Definition literal_fits (f : Field) (v : Value) : Prop :=
  match f_kind f with
  | KindID | KindIDSet => exists id, v = id_value id /\ looksLikeUUID id = true
  | KindBool => exists b, v = bool_value b
  | KindInt => exists n, v = int_value n
  | KindTimestamp => exists t, v = time_value t
  | KindEnum => exists s, v = text_value KindEnum s /\ s ∈ f_values f
  | KindCustom => (exists b, v = bool_value b) \/ (exists s, v = text_value KindString s /\ short_text s) \/
                  (exists s, v = text_value KindNumber s)
  | k => exists s, v = text_value k s /\ short_text s
  end.

Definition value_fits (f : Field) (v : Value) : Prop :=
  takes_placeholder (f_kind f) = true /\ (exists p, v = placeholder_value (f_kind f) p /\ placeholder_fits (f_kind f) p) \/
  literal_fits f v.

(** How many values an operator compares with. *)
Definition arity_ok (op : Operator) (count : Z) : Prop :=
  match op with
  | OpIsNull => count = 0
  | OpIn | OpNotIn | OpContainsAny | OpContainsAll => 1 <= count <= MaxValues
  | OpBetween => count = 2
  | _ => count = 1
  end.

Inductive filter_ok : nat -> Node -> Prop :=
  | ok_leaf levels op target values :
      Combines op = false -> known_field target -> Permits target op = true ->
      (op = OpIsNull -> f_nullable target = true) ->
      arity_ok op (Z.of_nat (List.length values)) -> Forall (value_fits target) values ->
      filter_ok (S levels) (mkNode op target values [])
  | ok_combination levels op nodes :
      Combines op = true -> nodes <> [] -> (op = OpNot -> List.length nodes = 1%nat) ->
      Forall (filter_ok levels) nodes -> filter_ok (S levels) (mkNode op zero_field [] nodes).

Fixpoint size (n : Node) : Z :=
  let 'mkNode _ _ _ nodes := n in 1 + fold_right Z.add 0 (map size nodes).

Lemma field_known name path f : field name path = Ok f ->
  known_field f /\ f_name f = TrimSpace name.
Proof.
  unfold field. destruct (String.eqb _ ""); [done|].
  destruct (CustomField (TrimSpace name)) as [key|] eqn:Hc.
  - intros [= <-]. split; [|done]. right. by exists key.
  - destruct (FieldByName (TrimSpace name)) as [found|] eqn:Hf; [|done]. intros [= <-].
    apply find_some in Hf as [Hin Hname]. split; [by left|]. by apply String.eqb_eq in Hname.
Qed.

Lemma bounded_text_ok k s path v : bounded_text k s path = Ok v -> exists t, v = text_value k t /\ short_text t.
Proof.
  unfold bounded_text. destruct (String.eqb_spec (TrimSpace s) "") as [|Hs]; [done|].
  destruct (Z.ltb_spec MaxValueLength (RuneCountInString (TrimSpace s))); [done|].
  intros [= <-]. exists (TrimSpace s). repeat split; [done|lia|by exists s].
Qed.

Lemma parse_placeholder_ok raw k path p : parsePlaceholder raw k path = Ok p -> placeholder_fits k p.
Proof.
  unfold parsePlaceholder. destruct (match split_sign_at raw with (EmptyString, _) => _ | cut => cut end) as [anchor off].
  unfold placeholder_named. destruct (find _ placeholder_kinds) as [[name pk]|] eqn:Hf; [|done]. cbn [option_map snd].
  apply find_some in Hf as [Hin _].
  assert (Hz : pk <> PlaceholderZero) by (cbn in Hin; intuition congruence).
  destruct (negb _) eqn:Hk; [done|]. apply negb_false_iff, eqb_prop in Hk.
  assert (Hme : pk = PlaceholderMe <-> k = KindID \/ k = KindIDSet).
  { rewrite <- (bool_decide_eq_true (pk = PlaceholderMe)), Hk, orb_true_iff, !bool_decide_eq_true. done. }
  destruct (String.eqb off ""); [intros [= <-]; unfold placeholder_fits; cbn; tauto|].
  destruct (bool_decide (pk = PlaceholderMe)) eqn:Hd; [done|]. apply bool_decide_eq_false in Hd.
  intros H. apply bind_ok in H as (o & _ & [= <-]). unfold placeholder_fits. cbn. tauto.
Qed.

Lemma parse_kind_value_ok raw f path v : parseKindValue raw f path = Ok v -> literal_fits f v.
Proof.
  unfold parseKindValue, literal_fits. destruct (f_kind f) eqn:Hk; intros H;
    try (destruct raw; try done; by apply bounded_text_ok in H).
  - destruct raw; try done. unfold ParseID in H. destruct (looksLikeUUID _) eqn:E; [|done]. injection H as <-. eauto.
  - destruct raw; try done. injection H as <-. eauto.
  - destruct (integerOf raw); [|done]. injection H as <-. eauto.
  - destruct raw; try done. destruct (parse_rfc3339 _); [|done]. injection H as <-. eauto.
  - destruct raw; try done. destruct (contains _ _) eqn:E; [|done]. injection H as <-. apply contains_in in E. eauto.
  - destruct raw; try done. unfold ParseID in H. destruct (looksLikeUUID _) eqn:E; [|done]. injection H as <-. eauto.
  - destruct raw; cbn in H; try done; try (injection H as <-; eauto). apply bounded_text_ok in H. eauto.
Qed.

Lemma parse_value_ok raw f path v : parseValue raw f path = Ok v -> value_fits f v.
Proof.
  unfold parseValue, value_fits. destruct raw; try (intros H; right; by apply parse_kind_value_ok in H).
  destruct (str_has_prefix _ _ && _) eqn:E; [|intros H; right; by apply parse_kind_value_ok in H].
  bools. intros Hp. apply bind_ok in Hp as (p & Hp & [= <-]). left. split; [done|].
  exists p. split; [done|]. by apply parse_placeholder_ok in Hp.
Qed.

Lemma parse_elements_ok f path elements : forall index vs, parse_elements elements f path index = Ok vs ->
  Forall (value_fits f) vs /\ List.length vs = List.length elements.
Proof.
  induction elements as [|element rest IH]; intros index vs; cbn [parse_elements].
  - by intros [= <-].
  - intros H. apply bind_ok in H as (v & Hv & H). apply bind_ok in H as (rest' & Hr & [= <-]).
    apply IH in Hr as [Hr Hl]. split; [constructor; [by eapply parse_value_ok|done]|]. cbn. by rewrite Hl.
Qed.

Lemma parse_list_ok raw f path low high vs : parseList raw f path low high = Ok vs ->
  Forall (value_fits f) vs /\ low <= Z.of_nat (List.length vs) <= high.
Proof.
  unfold parseList. intros H. apply bind_ok in H as (elements & _ & H).
  destruct (_ || _) eqn:E; [done|]. bools. apply parse_elements_ok in H as [H ->]. split; [done|lia].
Qed.

Lemma parse_values_ok document f op path vs : Combines op = false -> parseValues document f op path = Ok vs ->
  arity_ok op (Z.of_nat (List.length vs)) /\ Forall (value_fits f) vs.
Proof.
  unfold parseValues, arity_ok. intros Hop.
  destruct op; try done;
    try (destruct (is_nil _); [done|]; intros H; apply bind_ok in H as (v & Hv & [= <-]); split; [done|];
         apply Forall_singleton; by eapply parse_value_ok);
    try (intros H; apply parse_list_ok in H as [H1 H2]; split; [lia|done]).
  destruct (is_nil _); [|done]. by intros [= <-].
Qed.

Lemma parse_leaf_ok document op path n : Combines op = false -> parseLeaf document op path = Ok n ->
  forall levels, filter_ok (S levels) n /\ size n = 1.
Proof.
  unfold parseLeaf. intros Hop. destruct (present document "nodes"); [done|]. intros H levels.
  apply bind_ok in H as (target & Ht & H). destruct (Permits target op) eqn:Hp; [|done]. cbn [negb] in H.
  destruct (bool_decide (op = OpIsNull) && negb (f_nullable target)) eqn:Hn; [done|].
  apply bind_ok in H as (vs & Hv & [= <-]). split; [|done].
  apply parse_values_ok in Hv as [Ha Hf]; [|done]. apply field_known in Ht as [Hk _]. constructor; try done.
  intros ->. by destruct (f_nullable target).
Qed.

Lemma parse_children_ok (parse : any -> string -> Z -> res (Node * Z)) (P : Node -> Prop) path children :
  (forall raw p c n c', parse raw p c = Ok (n, c') -> P n /\ c' = c + size n) ->
  forall index count ns count', parse_children parse children path index count = Ok (ns, count') ->
  Forall P ns /\ count' = count + fold_right Z.add 0 (map size ns) /\ List.length ns = List.length children.
Proof.
  intros Hp. induction children as [|child rest IH]; intros index count ns count'; cbn [parse_children].
  - intros [= <- <-]. cbn. repeat split; [constructor|lia].
  - intros H. apply bind_ok in H as ([n c] & Hn & H). apply bind_ok in H as ([ns' c'] & Hns & [= <- <-]).
    apply Hp in Hn as [Hn ->]. apply IH in Hns as (Hns & -> & Hl). cbn. repeat split; [by constructor|lia|by rewrite Hl].
Qed.

Lemma parse_node_ok levels : forall raw path count n count', parseNode levels raw path count = Ok (n, count') ->
  filter_ok levels n /\ count' = count + size n.
Proof.
  induction levels as [|levels IH]; intros raw path count n count'; cbn [parseNode]; [done|].
  destruct (MaxFilterNodes <? count + 1); [done|]. destruct raw as [| | | | | | |document]; try done.
  intros H. apply bind_ok in H as (op & _ & H). destruct (Combines op) eqn:Hop.
  - apply bind_ok in H as (children & Hch & H). apply bind_ok in H as ([ns c] & Hns & [= <- <-]).
    apply (parse_children_ok _ (filter_ok levels)) in Hns as (Hns & -> & Hl); [|done].
    split; [|cbn; lia]. unfold combination_children in Hch.
    destruct (present document "field"), (present document "value"); try done.
    destruct (read document "nodes") as [| | | | | |[|c0 cs]|]; try done.
    destruct (_ && _) eqn:E; [done|]. injection Hch as <-. constructor; try done.
    + intros ->. done.
    + intros ->. rewrite Hl. cbn in E |- *. destruct cs; [done|]. done.
  - apply bind_ok in H as (leaf & Hl & [= <- <-]). destruct (parse_leaf_ok _ _ _ _ Hop Hl levels) as [Hok Hs].
    split; [done|lia].
Qed.

(** The count never passes the bound. *)
Lemma parse_children_bound (parse : any -> string -> Z -> res (Node * Z)) path children :
  (forall raw p c n c', c <= MaxFilterNodes -> parse raw p c = Ok (n, c') -> c' <= MaxFilterNodes) ->
  forall index count ns count', count <= MaxFilterNodes ->
  parse_children parse children path index count = Ok (ns, count') -> count' <= MaxFilterNodes.
Proof.
  intros Hp. induction children as [|child rest IH]; intros index count ns count' Hc; cbn [parse_children].
  - by intros [= _ <-].
  - intros H. apply bind_ok in H as ([n c] & Hn & H). apply bind_ok in H as ([ns' c'] & Hns & [= _ <-]).
    eapply IH; [|exact Hns]. eauto.
Qed.

Lemma parse_node_bound levels : forall raw path count n count', count <= MaxFilterNodes ->
  parseNode levels raw path count = Ok (n, count') -> count' <= MaxFilterNodes.
Proof.
  induction levels as [|levels IH]; intros raw path count n count' Hc; cbn [parseNode]; [done|].
  destruct (Z.ltb_spec MaxFilterNodes (count + 1)); [done|]. destruct raw as [| | | | | | |document]; try done.
  intros H'. apply bind_ok in H' as (op & _ & H'). destruct (Combines op).
  - apply bind_ok in H' as (children & _ & H'). apply bind_ok in H' as ([ns c] & Hns & [= _ <-]).
    eapply parse_children_bound; [exact IH| |exact Hns]. lia.
  - apply bind_ok in H' as (leaf & _ & [= _ <-]). lia.
Qed.

(** C20. A filter that parses is one the store can answer: it is at most
    five levels deep and fifty nodes large and costs at most fifty; every
    comparison names a field of the catalogue or a custom field, with an
    operator that field permits, as many values as the operator takes, and
    each of the field's kind, or a placeholder that kind takes; IS_NULL is
    asked of a nullable field only; a combination has children, NOT one. *)
Theorem filter_checked raw path n : ParseFilter raw path = Ok (Some n) ->
  filter_ok MaxFilterDepth n /\ size n <= MaxFilterNodes /\ Cost n <= MaxFilterCost.
Proof.
  unfold ParseFilter. destruct (is_nil raw); [done|]. intros H.
  apply bind_ok in H as ([n' c] & Hn & H). apply bind_ok in H as (u & Hc & [= <-]).
  pose proof (parse_node_bound _ _ _ 0 _ _ ltac:(done) Hn) as Hb. apply parse_node_ok in Hn as [Hok ->].
  split; [done|]. split; [lia|]. unfold checkCost in Hc. destruct (Z.leb_spec (Cost n') MaxFilterCost); done.
Qed.

Definition sample_filter : any :=
  AObject [("op", AText " AND ");
           ("nodes", AList [leaf_document "status" "EQ" (AText "open");
                            AObject [("op", AText "NOT"); ("nodes", AList [AObject [("field", AText "due_at"); ("op", AText "IS_NULL")]])];
                            leaf_document "custom_fields.priority" "GTE" three])].

Lemma filter_checked_witness : exists n, filter_ok MaxFilterDepth n /\ size n <= MaxFilterNodes /\ Cost n <= MaxFilterCost.
Proof.
  eexists. apply (filter_checked sample_filter "/filter"). vm_compute. reflexivity.
Defined.

(** ** Every refusal names a place in the document *)

(** A result that is an answer or a validation error at [path] or below it. *)
Definition answers {A} (path : string) (r : res A) : Prop :=
  match r with
  | Ok _ => True
  | Err e => exists place code p, e = fieldError (path +:+ place) code p
  | Panic => False
  end.

Lemma answers_here {A} path code p : answers path (Err (fieldError path code p) : res A).
Proof. exists "", code, p. by rewrite str_app_nil_r. Qed.

Lemma answers_below {A} path place code p : answers path (Err (fieldError (path +:+ place) code p) : res A).
Proof. by exists place, code, p. Qed.

Lemma answers_deeper {A} path place (r : res A) : answers (path +:+ place) r -> answers path r.
Proof.
  destruct r as [a|e|]; cbn; try done. intros (q & code & p & ->). exists (place +:+ q), code, p. by rewrite str_app_assoc.
Qed.

Lemma answers_bind {A B} path (r : res A) (f : A -> res B) :
  answers path r -> (forall a, answers path (f a)) -> answers path (r ≫= f).
Proof. destruct r; cbn; auto. Qed.

Create HintDb answers.
#[local] Hint Resolve answers_here answers_below : answers.

(** Follows a parser down: a branch is an answer, an error here, one below, or
    a step that goes on. *)
Ltac answer :=
  repeat first
    [ solve [auto with answers]
    | exact I
    | apply answers_bind; [|intros]
    | match goal with
      | |- answers _ (match ?x with _ => _ end) => destruct x eqn:?
      | |- answers _ (let '_ := ?x in _) => destruct x eqn:?
      end ].

Lemma field_answers name path : answers path (field name path).
Proof. unfold field. answer. Qed.

Lemma parse_offset_answers raw path : answers path (parseOffset raw path).
Proof.
  unfold parseOffset. destruct (if str_has_prefix "-" raw then _ else _) as [negative raw'].
  destruct (_ || _); [answer|]. destruct (str_cut _ _) as [[date clock]|]; answer.
Qed.

Lemma parse_placeholder_answers raw k path : answers path (parsePlaceholder raw k path).
Proof.
  unfold parsePlaceholder. destruct (match split_sign_at raw with (EmptyString, _) => _ | cut => cut end) as [anchor off].
  answer. apply parse_offset_answers.
Qed.

Lemma bounded_text_answers k s path : answers path (bounded_text k s path).
Proof. unfold bounded_text. answer. Qed.
#[local] Hint Resolve field_answers parse_placeholder_answers bounded_text_answers : answers.

Lemma parse_value_answers raw f path : answers path (parseValue raw f path).
Proof.
  assert (Hk : forall raw, answers path (parseKindValue raw f path)).
  { clear raw. intros raw. unfold parseKindValue, parseCustomValue, typeError. destruct (f_kind f); answer. }
  unfold parseValue. destruct raw; try apply Hk. answer; apply Hk.
Qed.

Lemma parse_elements_answers f path elements : forall index, answers path (parse_elements elements f path index).
Proof.
  induction elements as [|element rest IH]; intros index; cbn [parse_elements]; [exact I|].
  apply answers_bind; [|intros v; apply answers_bind; [done|intros; exact I]].
  apply (answers_deeper path ("/" +:+ itoa index)). apply parse_value_answers.
Qed.

Lemma parse_list_answers raw f path low high : answers path (parseList raw f path low high).
Proof.
  unfold parseList. apply answers_bind; [destruct raw; answer|]. intros elements.
  destruct (_ || _); [answer|]. apply parse_elements_answers.
Qed.

Lemma parse_leaf_answers document op path : answers path (parseLeaf document op path).
Proof.
  unfold parseLeaf. destruct (present _ _); [answer|].
  apply answers_bind; [apply (answers_deeper path "/field"); auto with answers|]. intros target.
  destruct (negb _); [answer|]. destruct (_ && _); [answer|].
  apply answers_bind; [|intros; exact I]. apply (answers_deeper path "/value"). unfold parseValues.
  pose proof (parse_list_answers (read document "value") target (path +:+ "/value")) as Hl.
  destruct op; try apply Hl; destruct (is_nil _); try (answer; fail);
    (apply answers_bind; [apply parse_value_answers|intros; exact I]).
Qed.

Lemma parse_node_answers levels : forall raw path count, answers path (parseNode levels raw path count).
Proof.
  induction levels as [|levels IH]; intros raw path count; cbn [parseNode]; [answer|].
  destruct (_ <? _); [answer|]. destruct raw as [| | | | | | |document]; try (answer; fail).
  apply answers_bind; [apply (answers_deeper path "/op"); unfold parseOperator; answer|]. intros op.
  destruct (Combines op).
  - apply answers_bind; [unfold combination_children; answer|]. intros children.
    apply answers_bind; [|intros [ns c]; exact I]. generalize 0 (count + 1).
    induction children as [|child rest IHc]; intros index c; cbn [parse_children]; [exact I|].
    apply answers_bind; [|intros [n c1]; apply answers_bind; [done|intros [ns c2]; exact I]].
    apply (answers_deeper path ("/nodes/" +:+ itoa index)). apply IH.
  - apply answers_bind; [apply parse_leaf_answers|intros; exact I].
Qed.

Lemma parse_filter_answers raw path : answers path (ParseFilter raw path).
Proof.
  unfold ParseFilter. destruct (is_nil raw); [exact I|].
  apply answers_bind; [apply parse_node_answers|]. intros [n c].
  apply answers_bind; [unfold checkCost; answer|intros; exact I].
Qed.

(** ** What a parsed order is *)

Lemma parse_term_ok raw path t : parseSortTerm raw path = Ok t -> known_field (st_field t) /\ f_sortable (st_field t) = true.
Proof.
  unfold parseSortTerm. destruct raw as [| | | | | | |document]; try done. intros H.
  apply bind_ok in H as (target & Ht & H). apply field_known in Ht as [Hk _].
  destruct (f_sortable target) eqn:Hs; [|done]. cbn [negb] in H.
  apply bind_ok in H as (d & _ & H). by apply bind_ok in H as (f & _ & [= <-]).
Qed.

Lemma parse_terms_ok path terms : forall index seen ts, parse_terms terms path index seen = Ok ts ->
  List.length ts = List.length terms /\ Forall (fun t => known_field (st_field t) /\ f_sortable (st_field t) = true) ts /\
  NoDup (map (fun t => f_name (st_field t)) ts) /\ Forall (fun t => f_name (st_field t) ∉ seen) ts.
Proof.
  induction terms as [|raw rest IH]; intros index seen ts; cbn [parse_terms].
  - intros [= <-]. repeat split; constructor.
  - intros H. apply bind_ok in H as (t & Ht & H). destruct (contains seen _) eqn:Hc; [done|].
    apply bind_ok in H as (ts' & Hts & [= <-]). apply parse_term_ok in Ht. apply IH in Hts as (Hl & Hk & Hn & Hs).
    assert (Hseen : f_name (st_field t) ∉ seen) by (intros Hin; apply contains_in in Hin; congruence).
    split; [cbn; by rewrite Hl|]. split; [by constructor|]. rewrite Forall_forall in Hs. split.
    + cbn. constructor; [|done]. intros Hin. apply list_elem_of_fmap in Hin as (t' & E & Hin).
      apply (Hs t' Hin). rewrite <- E. left.
    + constructor; [done|]. rewrite Forall_forall. intros t' Hin E. apply (Hs t' Hin). by right.
Qed.

(** An order that parses has one to four terms, each by a field that can be
    sorted by, and no field twice - also the order of a query that names
    none. *)
Theorem sort_checked raw path ts : ParseSort raw path = Ok ts ->
  1 <= Z.of_nat (List.length ts) <= MaxSortTerms /\
  Forall (fun t => known_field (st_field t) /\ f_sortable (st_field t) = true) ts /\
  NoDup (map (fun t => f_name (st_field t)) ts).
Proof.
  assert (Hd : 1 <= Z.of_nat (List.length defaultSort) <= MaxSortTerms /\
    Forall (fun t => known_field (st_field t) /\ f_sortable (st_field t) = true) defaultSort /\
    NoDup (map (fun t => f_name (st_field t)) defaultSort)).
  { split; [done|]. split; [|apply NoDup_singleton]. apply Forall_singleton. split; [left; cbn; tauto|done]. }
  unfold ParseSort, parseSortTerms. destruct (is_nil raw); [intros [= <-]; exact Hd|].
  destruct raw as [| | | | | |[|t0 rest]|]; try done; [intros [= <-]; exact Hd|].
  destruct (Z.ltb_spec MaxSortTerms (Z.of_nat (List.length (t0 :: rest)))); [done|].
  intros H'. apply parse_terms_ok in H' as (Hl & Hk & Hn & _). rewrite Hl. cbn [List.length] in *. split; [lia|done].
Qed.

Definition sort_document (name dir : string) : any := AObject [("field", AText name); ("dir", AText dir)].
Definition sample_sort : any := AList [sort_document "due_at" "DESC"; sort_document "title" ""].

Lemma sort_checked_witness : exists ts, 1 <= Z.of_nat (List.length ts) <= MaxSortTerms /\
  Forall (fun t => known_field (st_field t) /\ f_sortable (st_field t) = true) ts /\
  NoDup (map (fun t => f_name (st_field t)) ts).
Proof. eexists. apply (sort_checked sample_sort "/sort"). vm_compute. reflexivity. Defined.

(** Reading a filter never stops the program, and every refusal is a
    validation error whose one field error names the filter's own path or a
    place below it, under the code it is refused with. *)
Theorem filter_refusal raw path e : ParseFilter raw path = Err e \/ ParseFilter raw path = Panic ->
  ParseFilter raw path = Err e /\ err_category e = CategoryValidation /\ err_code e = "validation_failed" /\
  exists place, err_fields e = [mkFieldError (path +:+ place) (err_detail e) (err_params e)].
Proof.
  pose proof (parse_filter_answers raw path) as H. destruct (ParseFilter raw path) as [n|e'|].
  - by intros [|].
  - intros [[= <-]|]; [|done]. destruct H as (place & code & p & ->). repeat split. by exists place.
  - destruct H.
Qed.

Lemma filter_refusal_witness : exists e place,
  ParseFilter (AObject [("op", AText "NOT"); ("nodes", AList [leaf_document "due_at" "IS_NULL" three])]) "/filter" = Err e /\
  err_fields e = [mkFieldError ("/filter" +:+ place) (err_detail e) (err_params e)].
Proof.
  destruct (filter_refusal (AObject [("op", AText "NOT"); ("nodes", AList [leaf_document "due_at" "IS_NULL" three])]) "/filter"
    (fieldError "/filter/nodes/0/value" "query.value_not_allowed" [])) as (H & _ & _ & place & Hp).
  - left. vm_compute. reflexivity.
  - eexists _, place. split; [exact H|exact Hp].
Defined.
