(* ===== verification/Line.v ===== *)
(** * The query as a line of text

    Models core/domain/model/view/Line.go: the lexer, the parser that turns a
    line into the filter document and the sort list the structured query
    sends, and the printer that spells a document back.  A line is at most
    4000 bytes; its parentheses and NOTs nest ten deep, which the parser is
    structural on, and its loops take the tokens left as fuel.

    The theorems: every line is answered, a refusal names a character of the
    line ([line_total]); a filter and an order that parse are read back from
    their line as the same filter and the same order ([line_roundtrip]). *)

From Stdlib Require Import ZArith Lia String Ascii List Bool.
From stdpp Require Import base list strings.
From S2P Require Import Prelude Shared Hlc Text Civil Literal Query.

Open Scope string_scope.
Open Scope list_scope.
Open Scope Z_scope.

Definition MaxLineLength : Z := 4000.
Definition maxLineNesting : nat := 2 * MaxFilterDepth.

(** [lineError]: the character a line stops being readable at, the first being
    1. *)
Definition lineError (path line : string) (at_ : nat) : Error :=
  fieldError path "query.line_malformed" [("at", itoa (RuneCountInString (str_take at_ line) + 1))].

(** ** Letters of either case *)

(** The upper case of a text as far as ASCII goes: besides its own letters, the
    long s and the dotless i have an ASCII upper case. *)
Fixpoint ToUpper (s : string) : string :=
  match s with
  | EmptyString => EmptyString
  | String c rest =>
      let n := byte_of c in
      if (97 <=? n) && (n <=? 122) then String (ascii_of_N (Z.to_N (n - 32))) (ToUpper rest)
      else match rest with
           | String d rest' =>
               if (n =? 197) && (byte_of d =? 191) then String "S" (ToUpper rest')
               else if (n =? 196) && (byte_of d =? 177) then String "I" (ToUpper rest')
               else String c (ToUpper rest)
           | EmptyString => String c EmptyString
           end
  end.

(** Simple case folding as far as ASCII goes: besides its own letters, the long
    s folds to s and the Kelvin sign to k. *)
Fixpoint fold_case (s : string) : string :=
  match s with
  | EmptyString => EmptyString
  | String c rest =>
      let n := byte_of c in
      if (97 <=? n) && (n <=? 122) then String (ascii_of_N (Z.to_N (n - 32))) (fold_case rest)
      else match rest with
           | String d rest' =>
               if (n =? 197) && (byte_of d =? 191) then String "S" (fold_case rest')
               else match rest' with
                    | String e rest'' =>
                        if (n =? 226) && (byte_of d =? 132) && (byte_of e =? 170) then String "K" (fold_case rest'')
                        else String c (fold_case rest)
                    | EmptyString => String c (fold_case rest)
                    end
           | EmptyString => String c EmptyString
           end
  end.

(** [strings.EqualFold(text, word)] for a word of ASCII capitals. *)
Definition EqualFold (text word : string) : bool := String.eqb (fold_case text) word.

Definition keywords : list string :=
  ["AND"; "OR"; "NOT"; "IN"; "IS"; "EMPTY"; "NULL"; "BETWEEN"; "CONTAINS"; "ANY"; "ALL"; "STARTS"; "WITH";
   "MATCHES"; "ORDER"; "BY"; "ASC"; "DESC"; "NULLS"; "FIRST"; "LAST"].

Definition isKeyword (word : string) : bool := contains keywords (ToUpper word).

(** ** The lexer *)

Inductive tokenKind : Type := tokenWord | tokenText | tokenSymbol.

#[export] Instance token_kind_eq_dec : EqDecision tokenKind.
Proof. solve_decision. Defined.

Record token := mkToken { tk_kind : tokenKind; tk_text : string; tk_at : nat }.

(** The quote characters, by their codes. *)
Definition single_quote : ascii := "039".
Definition double_quote : ascii := "034".
Definition backslash : ascii := "092".

(** A rune no word holds. *)
Definition breaks_word (r : Z) : bool :=
  IsSpace r || existsb (Z.eqb r) [40; 41; 39; 34; 44; 126; 61; 33; 60; 62].

(** The text of a quote and what follows the closing one; a backslash takes the
    next byte as it is. *)
Fixpoint quoted (quote : ascii) (s : string) : option (string * string) :=
  match s with
  | EmptyString => None
  | String c rest =>
      if Ascii.eqb c backslash then
        match rest with
        | String d rest' => option_map (fun '(t, tail) => (String d t, tail)) (quoted quote rest')
        | EmptyString => None
        end
      else if Ascii.eqb c quote then Some (EmptyString, rest)
      else option_map (fun '(t, tail) => (String c t, tail)) (quoted quote rest)
  end.

(** What follows the word at the start of a text. *)
Fixpoint word_end (fuel : nat) (s : string) : string :=
  match fuel, s with
  | S fuel', String c rest =>
      let '(r, rest') := decode_tail c rest in
      if breaks_word r then s else word_end fuel' rest'
  | _, _ => s
  end.

(** [lex]: the tokens, or the offset of what cannot be read.  [i] is the offset
    of [s] in the line; every token takes a byte at least. *)
Fixpoint lex_from (fuel : nat) (i : nat) (s : string) : list token + nat :=
  match fuel, s with
  | S fuel', String c rest =>
      let '(r, rest') := decode_tail c rest in
      let after (tail : string) := (i + (String.length s - String.length tail))%nat in
      let emit (kind : tokenKind) (text tail : string) :=
        match lex_from fuel' (after tail) tail with
        | inl tokens => inl (mkToken kind text i :: tokens)
        | inr at_ => inr at_
        end in
      if IsSpace r then lex_from fuel' (after rest') rest'
      else if (r =? 39) || (r =? 34) then
        match quoted c rest with
        | None => inr i
        | Some (text, tail) => emit tokenText text tail
        end
      else if existsb (Z.eqb r) [40; 41; 44; 126] then emit tokenSymbol (String c EmptyString) rest
      else if existsb (Z.eqb r) [61; 33; 60; 62] then
        if str_has_prefix "=" rest then emit tokenSymbol (String c "=") (str_drop 1 rest)
        else if r =? 33 then inr i else emit tokenSymbol (String c EmptyString) rest
      else
        let tail := word_end (String.length s) s in
        emit tokenWord (str_take (String.length s - String.length tail) s) tail
  | _, EmptyString => inl []
  | O, String _ _ => inr i
  end.

Definition lex (line : string) : list token + nat := lex_from (String.length line) 0 line.

(** [utf8.ValidString]: no byte decodes to the replacement rune by itself. *)
Fixpoint valid_from (fuel : nat) (s : string) : bool :=
  match fuel, s with
  | S fuel', String c rest =>
      let '(r, rest') := decode_tail c rest in
      negb ((r =? RuneError) && Nat.eqb (String.length rest') (String.length rest)) && valid_from fuel' rest'
  | _, _ => true
  end.
Definition ValidString (s : string) : bool := valid_from (String.length s) s.

(** ** The parser *)

(** The comparisons written as a sign. *)
Definition symbols : list (string * Operator) :=
  [("=", OpEq); ("!=", OpNeq); ("<", OpLt); ("<=", OpLte); (">", OpGt); (">=", OpGte); ("~", OpContains)].
Definition symbol_operator (text : string) : option Operator :=
  option_map snd (find (fun p => String.eqb p.1 text) symbols).

(** The parser is at the first of the tokens left. *)
Definition at_keyword (word : string) (ts : list token) : bool :=
  match ts with
  | t :: _ => bool_decide (tk_kind t = tokenWord) && EqualFold (tk_text t) word
  | [] => false
  end.
Definition at_symbol (symbol : string) (ts : list token) : bool :=
  match ts with
  | t :: _ => bool_decide (tk_kind t = tokenSymbol) && String.eqb (tk_text t) symbol
  | [] => false
  end.

Definition bareValue (word : string) (kind : Kind) : any :=
  match kind with
  | KindInt => match ParseInt word with Some n => ANumber (float_of_int64 n) | None => AText word end
  | KindBool =>
      if String.eqb word "true" then ABool true else if String.eqb word "false" then ABool false else AText word
  | KindCustom =>
      if String.eqb word "true" then ABool true else if String.eqb word "false" then ABool false
      else match ParseFloat word with Some x => ANumber x | None => AText word end
  | _ => AText word
  end.

Section parser.
Context (path line : string).

Abbreviation answer A := (res (A * list token)) (only parsing).

(** [p.fail]: the error at the token the parser is at, or at the end. *)
Definition fail {A} (ts : list token) : res A :=
  Err (lineError path line (match ts with t :: _ => tk_at t | [] => String.length line end)).

Definition value (target : Field) (ts : list token) : answer any :=
  match ts with
  | t :: rest =>
      match tk_kind t with
      | tokenText => Ok (AText (tk_text t), rest)
      | tokenWord => if isKeyword (tk_text t) then fail ts else Ok (bareValue (tk_text t) (f_kind target), rest)
      | tokenSymbol => fail ts
      end
  | [] => fail ts
  end.

(** The values up to the closing parenthesis; [values] are those read. *)
Fixpoint list_values (fuel : nat) (target : Field) (values : list any) (ts : list token) : answer (list any) :=
  match fuel with
  | O => Panic
  | S fuel' =>
      if MaxValues <? Z.of_nat (List.length values) then fail ts
      else
        '(v, ts) ← value target ts;
        let values := values ++ [v] in
        if at_symbol "," ts then list_values fuel' target values (tail ts)
        else if negb (at_symbol ")" ts) then fail ts
        else Ok (values, tail ts)
  end.

(** The leaf a comparison builds; [None] where it holds no value. *)
Definition leaf (name : string) (op : Operator) (v : option any) : any :=
  AObject ([("field", AText name); ("op", AText (op_text op))] ++
           match v with Some v => [("value", v)] | None => [] end).

(** [p.list]: read [(value, value ...)]. *)
Definition list_ (name : string) (op : Operator) (target : Field) (ts : list token) : answer any :=
  if negb (at_symbol "(" ts) then fail ts
  else
    let ts := tail ts in
    '(values, ts) ← list_values (S (List.length ts)) target [] ts;
    Ok (leaf name op (Some (AList values)), ts).

(** One value after the operator's words. *)
Definition valued (name : string) (op : Operator) (target : Field) (ts : list token) : answer any :=
  '(v, ts) ← value target ts;
  Ok (leaf name op (Some v), ts).

Definition not_document (node : any) : any := AObject [("op", AText "NOT"); ("nodes", AList [node])].

Definition operator_at (ts : list token) : option Operator :=
  match ts with
  | t :: _ => if bool_decide (tk_kind t = tokenSymbol) then symbol_operator (tk_text t) else None
  | [] => None
  end.

(** [field op value] in one of its spellings; an unknown field is refused by
    the filter's own parser. *)
Definition comparison (ts : list token) : answer any :=
  match ts with
  | [] => fail ts
  | t :: rest =>
      if negb (bool_decide (tk_kind t = tokenWord)) || isKeyword (tk_text t) then fail ts
      else
        let name := tk_text t in
        let target := match field name path with Ok f => f | _ => zero_field end in
        match operator_at rest with
        | Some op => valued name op target (tail rest)
        | None =>
            if at_keyword "IN" rest then list_ name OpIn target (tail rest)
            else if at_keyword "NOT" rest then
              let ts := tail rest in
              if negb (at_keyword "IN" ts) then fail ts else list_ name OpNotIn target (tail ts)
            else if at_keyword "IS" rest then
              let ts := tail rest in
              let negated := at_keyword "NOT" ts in
              let ts := if negated then tail ts else ts in
              if negb (at_keyword "EMPTY" ts) && negb (at_keyword "NULL" ts) then fail ts
              else
                let empty := leaf name OpIsNull None in
                Ok (if negated then not_document empty else empty, tail ts)
            else if at_keyword "BETWEEN" rest then
              '(low, ts) ← value target (tail rest);
              if negb (at_keyword "AND" ts) then fail ts
              else
                '(high, ts) ← value target (tail ts);
                Ok (leaf name OpBetween (Some (AList [low; high])), ts)
            else if at_keyword "CONTAINS" rest then
              let ts := tail rest in
              if at_keyword "ANY" ts then list_ name OpContainsAny target (tail ts)
              else if at_keyword "ALL" ts then list_ name OpContainsAll target (tail ts)
              else valued name OpContains target ts
            else if at_keyword "STARTS" rest then
              let ts := tail rest in
              if negb (at_keyword "WITH" ts) then fail ts else valued name OpStartsWith target (tail ts)
            else if at_keyword "MATCHES" rest then valued name OpMatches target (tail rest)
            else fail rest
        end
  end.

(** The operands after the first, while the operator's word follows. *)
Fixpoint more_operands (fuel : nat) (op : string) (operand : list token -> answer any) (nodes : list any)
    (ts : list token) : answer (list any) :=
  if at_keyword op ts then
    match fuel with
    | O => Panic
    | S fuel' =>
        '(node, ts) ← operand (tail ts);
        more_operands fuel' op operand (nodes ++ [node]) ts
    end
  else Ok (nodes, ts).

Definition combination (op : string) (operand : list token -> answer any) (ts : list token) : answer any :=
  '(first, ts) ← operand ts;
  '(nodes, ts) ← more_operands (List.length ts) op operand [first] ts;
  match nodes with
  | [_] => Ok (first, ts)
  | _ => Ok (AObject [("op", AText op); ("nodes", AList nodes)], ts)
  end.

(** [levels] is what is left of [maxLineNesting]. *)
Fixpoint not_ (levels : nat) (ts : list token) : answer any :=
  if at_keyword "NOT" ts then
    let ts := tail ts in
    match levels with
    | O => fail ts
    | S levels' =>
        '(node, ts) ← not_ levels' ts;
        Ok (not_document node, ts)
    end
  else if at_symbol "(" ts then
    let ts := tail ts in
    match levels with
    | O => fail ts
    | S levels' =>
        '(node, ts) ← combination "OR" (combination "AND" (not_ levels')) ts;
        if negb (at_symbol ")" ts) then fail ts else Ok (node, tail ts)
    end
  else comparison ts.

Definition or_ (levels : nat) (ts : list token) : answer any :=
  combination "OR" (combination "AND" (not_ levels)) ts.

(** [field [ASC|DESC] [NULLS FIRST|LAST], ...]; [terms] are those read. *)
Fixpoint sort_list (fuel : nat) (terms : list any) (ts : list token) : answer (list any) :=
  match fuel with
  | O => Panic
  | S fuel' =>
      match ts with
      | t :: rest =>
          if negb (bool_decide (tk_kind t = tokenWord)) || isKeyword (tk_text t) ||
             (MaxSortTerms <? Z.of_nat (List.length terms)) then fail ts
          else
            let directed := at_keyword "ASC" rest || at_keyword "DESC" rest in
            let dir := if directed then [("dir", AText (ToUpper (default "" (tk_text <$> head rest))))] else [] in
            let ts := if directed then tail rest else rest in
            '(nulls, ts) ←
              (if at_keyword "NULLS" ts then
                 let ts := tail ts in
                 if negb (at_keyword "FIRST" ts) && negb (at_keyword "LAST" ts) then fail ts
                 else Ok ([("nulls", AText (ToUpper (default "" (tk_text <$> head ts))))], tail ts)
               else Ok ([], ts));
            let terms := terms ++ [AObject (("field", AText (tk_text t)) :: dir ++ nulls)] in
            if at_symbol "," ts then sort_list fuel' terms (tail ts) else Ok (terms, ts)
      | [] => fail ts
      end
  end.

(** The tokens of a line as a filter document and a sort list. *)
Definition parse_tokens (ts : list token) : res (any * list any) :=
  '(filter, ts) ←
    (if negb (at_keyword "ORDER" ts) && negb (Nat.eqb (List.length ts) 0) then or_ maxLineNesting ts
     else Ok (ANull, ts));
  '(sort, ts) ←
    (if at_keyword "ORDER" ts then
       let ts := tail ts in
       if negb (at_keyword "BY" ts) then fail ts
       else let ts := tail ts in sort_list (S (List.length ts)) [] ts
     else Ok ([], ts));
  match ts with
  | [] => Ok (filter, sort)
  | _ => fail ts
  end.
End parser.

Definition ParseLine (line path : string) : res (any * list any) :=
  if MaxLineLength <? Z.of_nat (String.length line) then
    Err (fieldError path "query.line_too_long" [("maximum", itoa MaxLineLength)])
  else if negb (ValidString line) then Err (lineError path "" 0)
  else match lex line with
       | inr at_ => Err (lineError path line at_)
       | inl tokens => parse_tokens path line tokens
       end.

(** ** The printer *)

(** The comparisons as a line spells them. *)
Definition operatorWords : list (Operator * string) :=
  [(OpEq, "="); (OpNeq, "!="); (OpLt, "<"); (OpLte, "<="); (OpGt, ">"); (OpGte, ">="); (OpContains, "CONTAINS");
   (OpStartsWith, "STARTS WITH"); (OpMatches, "MATCHES"); (OpIn, "IN"); (OpNotIn, "NOT IN");
   (OpContainsAny, "CONTAINS ANY"); (OpContainsAll, "CONTAINS ALL")].
Definition operator_word (op : Operator) : option string :=
  option_map snd (find (fun p => bool_decide (p.1 = op)) operatorWords).

(** A backslash before every backslash and every single quote. *)
Fixpoint escape (s : string) : string :=
  match s with
  | EmptyString => EmptyString
  | String c rest =>
      if Ascii.eqb c backslash || Ascii.eqb c single_quote then String backslash (String c (escape rest))
      else String c (escape rest)
  end.

Definition quote_text (s : string) : string :=
  String single_quote (escape s +:+ String single_quote EmptyString).

Definition formatValue (raw : any) : string :=
  match raw with
  | ABool b => if b then "true" else "false"
  | ANumber x => FormatFloat x
  | AText s => quote_text s
  | _ => quote_text ""
  end.

Definition bareField (name : string) : bool :=
  negb (String.eqb name "") && negb (isKeyword name) && negb (existsb breaks_word (runes name)).

(** The values of a list operator: one value alone is a list of one. *)
Definition listed (v : any) : list any := match v with AList values => values | _ => [v] end.

(** What a leaf adds after its field; [None] where no line spells it. *)
Definition format_comparison (op : Operator) (v : any) : option string :=
  match op with
  | OpIsNull => Some " IS EMPTY"
  | OpBetween =>
      match v with
      | AList [low; high] => Some (" BETWEEN " +:+ formatValue low +:+ " AND " +:+ formatValue high)
      | _ => None
      end
  | OpIn | OpNotIn | OpContainsAny | OpContainsAll =>
      option_map (fun word => " " +:+ word +:+ " (" +:+ join_with ", " (map formatValue (listed v)) +:+ ")") (operator_word op)
  | _ => option_map (fun word => " " +:+ word +:+ " " +:+ formatValue v) (operator_word op)
  end.

(** The texts of all children, when every one has its own. *)
Fixpoint all_texts (texts : list (option string)) : option (list string) :=
  match texts with
  | [] => Some []
  | Some t :: rest => option_map (cons t) (all_texts rest)
  | None :: _ => None
  end.

(** [formatNode]: the texts of the children come first, as the source writes
    them in order; without a list of nodes there are none. *)
Fixpoint formatNode (nested : bool) (raw : any) : option string :=
  match raw with
  | AObject fields =>
      let texts := (fix nodes_of (fs : list (string * any)) : list (option string) :=
        match fs with
        | [] => []
        | (k, v) :: rest =>
            if String.eqb k "nodes" then match v with AList nodes => map (formatNode true) nodes | _ => [] end
            else nodes_of rest
        end) fields in
      match operator_named (stringOf (read fields "op")) with
      | Some op =>
          match op with
          | OpAnd | OpOr =>
              if Nat.ltb (List.length texts) 2 then None
              else
                option_map
                  (fun ts => let s := join_with (" " +:+ op_text op +:+ " ") ts in if nested then "(" +:+ s +:+ ")" else s)
                  (all_texts texts)
          | OpNot => match texts with [t] => option_map (fun s => "NOT " +:+ s) t | _ => None end
          | _ =>
              let name := stringOf (read fields "field") in
              if negb (bareField name) then None
              else option_map (fun s => name +:+ s) (format_comparison op (read fields "value"))
          end
      | None => None
      end
  | _ => None
  end.

Definition format_term (raw : any) : option string :=
  match raw with
  | AObject term =>
      let name := stringOf (read term "field") in
      if negb (bareField name) then None
      else
        let dir := stringOf (read term "dir") in
        let nulls := stringOf (read term "nulls") in
        Some (name +:+ (if String.eqb dir "" then "" else " " +:+ dir) +:+
              (if String.eqb nulls "" then "" else " NULLS " +:+ nulls))
  | _ => None
  end.

Definition FormatLine (filter : any) (sort : list any) : option string :=
  match (if is_nil filter then Some "" else formatNode false filter), all_texts (map format_term sort) with
  | Some f, Some terms =>
      Some (match terms with
            | [] => f
            | _ => f +:+ (if String.eqb f "" then "" else " ") +:+ "ORDER BY " +:+ join_with ", " terms
            end)
  | _, _ => None
  end.

(** ** Small runs *)

Definition sample_line : string :=
  "status = open and (custom_fields.priority >= 3 OR NOT labels contains any ('a', 'b\'c')) and due_at is not empty order by due_at desc nulls first, title".

Definition read_line (line : string) : option (option string) :=
  match ParseLine line "/q" with Ok (f, s) => Some (FormatLine f s) | _ => None end.

Example line_read : read_line sample_line = Some (Some
  "status = 'open' AND (custom_fields.priority >= 3 OR NOT labels CONTAINS ANY ('a', 'b\'c')) AND NOT due_at IS EMPTY ORDER BY due_at DESC NULLS FIRST, title").
Proof. vm_compute. reflexivity. Qed.
Example line_refused : map (fun l => match ParseLine l "/q" with Err e => err_params e | _ => [] end)
  ["status = open AND"; "status == open"; "a = 'x"; "status IN (a b)"; "(((((((((((a = 1)))))))))))"] =
  [[("at", "18")]; [("at", "8")]; [("at", "5")]; [("at", "14")]; [("at", "12")]].
Proof. vm_compute. reflexivity. Qed.

(** ** Every line is answered *)

Create HintDb takes.

Section answered.
Context (path line : string).

Definition token_in (t : token) : Prop := (tk_at t <= String.length line)%nat.

(** A refusal of the line at one of its bytes or at its end. *)
Definition refusal (e : Error) : Prop := exists at_, (at_ <= String.length line)%nat /\ e = lineError path line at_.

(** A parser that takes a token at least, or refuses the line. *)
Definition takes {A} (ts : list token) (r : res (A * list token)) : Prop :=
  match r with
  | Ok (_, rest) => (List.length rest < List.length ts)%nat /\ Forall token_in rest
  | Err e => refusal e
  | Panic => False
  end.

Lemma fail_takes {A} ts0 ts : Forall token_in ts -> takes ts0 (fail path line ts : res (A * list token)).
Proof.
  intros H. unfold fail. cbn. destruct ts as [|t rest]; [by exists (String.length line)|].
  exists (tk_at t). split; [|done]. by inversion H.
Qed.

(** What follows a step runs on fewer tokens. *)
Lemma takes_bind {A B} ts (r : res (A * list token)) (f : A * list token -> res (B * list token)) :
  takes ts r ->
  (forall a rest, (List.length rest < List.length ts)%nat -> Forall token_in rest -> takes ts (f (a, rest))) ->
  takes ts (r ≫= f).
Proof. destruct r as [[a rest]|e|]; cbn; [|done|done]. intros [Hl Hf] H. by apply H. Qed.

Lemma takes_more {A} ts ts' (r : res (A * list token)) :
  (List.length ts <= List.length ts')%nat -> takes ts r -> takes ts' r.
Proof. destruct r as [[a rest]|e|]; cbn; [|done|done]. intros Hle [Hl Hf]. split; [lia|done]. Qed.

Lemma takes_ok {A} (a : A) ts rest :
  (List.length rest < List.length ts)%nat -> Forall token_in rest -> takes ts (Ok (a, rest)).
Proof. by split. Qed.

Lemma tail_in ts : Forall token_in ts -> Forall token_in (tail ts).
Proof. destruct ts; [done|]. by inversion 1. Qed.
Lemma tail_le (ts : list token) : (List.length (tail ts) <= List.length ts)%nat.
Proof. destruct ts; cbn; lia. Qed.
Lemma tail_keyword word ts : at_keyword word ts = true -> (List.length (tail ts) < List.length ts)%nat.
Proof. destruct ts; cbn; [done|lia]. Qed.
Lemma tail_symbol symbol ts : at_symbol symbol ts = true -> (List.length (tail ts) < List.length ts)%nat.
Proof. destruct ts; cbn; [done|lia]. Qed.

Hint Resolve tail_in fail_takes : takes.

Lemma value_takes target ts : Forall token_in ts -> takes ts (value path line target ts).
Proof.
  intros H. unfold value. destruct ts as [|t rest]; [by apply fail_takes|]. inversion H; subst.
  destruct (tk_kind t); [destruct (isKeyword _)| |]; auto with takes; apply takes_ok; cbn; auto.
Qed.

Lemma list_values_takes target fuel : forall values ts, Forall token_in ts -> (List.length ts < fuel)%nat ->
  takes ts (list_values path line fuel target values ts).
Proof.
  induction fuel as [|fuel IH]; intros values ts H Hf; cbn [list_values]; [lia|].
  destruct (_ <? _); [auto with takes|]. apply takes_bind; [by apply value_takes|]. intros v rest Hl Hr.
  pose proof (tail_le rest). destruct (at_symbol "," rest).
  - apply (takes_more (tail rest)); [lia|]. apply IH; [auto with takes|lia].
  - destruct (negb _); [auto with takes|]. apply takes_ok; [lia|auto with takes].
Qed.

Lemma list_takes name op target ts : Forall token_in ts -> takes ts (list_ path line name op target ts).
Proof.
  intros H. unfold list_. destruct (negb _); [auto with takes|]. pose proof (tail_le ts).
  apply (takes_more (tail ts)); [done|].
  apply takes_bind; [apply list_values_takes; auto with takes|]. intros vs rest Hl Hr. by apply takes_ok.
Qed.

Lemma valued_takes name op target ts : Forall token_in ts -> takes ts (valued path line name op target ts).
Proof. intros H. apply takes_bind; [by apply value_takes|]. intros v rest Hl Hr. by apply takes_ok. Qed.

(** A parser run after the words of an operator. *)
Lemma after_words {A} ts rest (r : res (A * list token)) :
  (List.length rest <= List.length ts)%nat -> takes rest r -> takes ts r.
Proof. apply takes_more. Qed.

Lemma comparison_takes ts : Forall token_in ts -> takes ts (comparison path line ts).
Proof.
  intros H. unfold comparison. destruct ts as [|t rest]; [auto with takes|].
  destruct (_ || _); [auto with takes|]. apply Forall_cons in H as [_ Hr]. cbv zeta.
  set (target := match field _ path with Ok f => f | _ => zero_field end).
  pose proof (tail_in _ Hr) as Hr1. pose proof (tail_in _ Hr1) as Hr2. pose proof (tail_in _ Hr2) as Hr3.
  pose proof (tail_le rest) as L1. pose proof (tail_le (tail rest)) as L2. pose proof (tail_le (tail (tail rest))) as L3.
  repeat first
    [ match goal with |- takes _ (match operator_at ?x with _ => _ end) => destruct (operator_at x) end
    | match goal with |- takes _ (if ?c then _ else _) => destruct c end
    | match goal with |- context [if at_keyword "NOT" ?x then _ else _] => destruct (at_keyword "NOT" x) end
    | by auto with takes
    | by (eapply after_words; [|apply valued_takes; eassumption]; cbn; lia)
    | by (eapply after_words; [|apply list_takes; eassumption]; cbn; lia)
    | by (apply takes_ok; [cbn; lia|done]) ].
  eapply (after_words _ (tail rest)); [cbn; lia|]. apply takes_bind; [by apply value_takes|]. intros low ts1 Hl1 Ht1.
  destruct (negb _); [auto with takes|]. pose proof (tail_le ts1). apply (after_words _ (tail ts1)); [lia|].
  apply takes_bind; [apply value_takes; auto with takes|]. intros high ts2 Hl2 Ht2. by apply takes_ok.
Qed.

Lemma more_operands_takes op operand fuel :
  (forall ts, Forall token_in ts -> takes ts (operand ts)) ->
  forall nodes ts, Forall token_in ts -> (List.length ts <= fuel)%nat ->
  match more_operands fuel op operand nodes ts with
  | Ok (_, rest) => (List.length rest <= List.length ts)%nat /\ Forall token_in rest
  | Err e => refusal e
  | Panic => False
  end.
Proof.
  intros Hop. induction fuel as [|fuel IH]; intros nodes ts H Hf; cbn [more_operands];
    destruct (at_keyword op ts) eqn:Hk; try (split; [lia|done]); apply tail_keyword in Hk; [lia|].
  pose proof (Hop (tail ts) (tail_in _ H)) as Ho. destruct (operand (tail ts)) as [[n rest]|e|]; cbn in *; [|done|done].
  destruct Ho as [Hl Hr]. specialize (IH (nodes ++ [n]) rest Hr ltac:(lia)).
  destruct (more_operands fuel op operand (nodes ++ [n]) rest) as [[ns rest']|e|]; [|done|done].
  destruct IH. split; [lia|done].
Qed.

Lemma combination_takes op operand ts :
  (forall ts, Forall token_in ts -> takes ts (operand ts)) -> Forall token_in ts -> takes ts (combination op operand ts).
Proof.
  intros Hop H. unfold combination. apply takes_bind; [by apply Hop|]. intros first rest Hl Hr.
  pose proof (more_operands_takes op operand (List.length rest) Hop [first] rest Hr ltac:(lia)) as Hm.
  destruct (more_operands _ _ _ _ _) as [[ns rest']|e|]; cbn; [|done|done]. destruct Hm.
  destruct ns as [|? [|]]; apply takes_ok; (lia || done).
Qed.

Lemma not_takes levels : forall ts, Forall token_in ts -> takes ts (not_ path line levels ts).
Proof.
  induction levels as [|levels IH]; intros ts H; cbn [not_];
    (destruct (at_keyword "NOT" ts); [|destruct (at_symbol "(" ts); [|by apply comparison_takes]]);
    try (by auto with takes); pose proof (tail_le ts);
    (apply (takes_more (tail ts)); [done|]); (apply takes_bind; [|intros n rest Hl Hr]).
  - apply IH. auto with takes.
  - by apply takes_ok.
  - apply combination_takes; [|auto with takes]. intros. by apply combination_takes.
  - destruct (negb _); [auto with takes|]. pose proof (tail_le rest). apply takes_ok; [lia|auto with takes].
Qed.

Lemma or_takes levels ts : Forall token_in ts -> takes ts (or_ path line levels ts).
Proof. intros H. apply combination_takes; [|done]. intros. apply combination_takes; [|done]. apply not_takes. Qed.

Lemma sort_list_takes fuel : forall terms ts, Forall token_in ts -> (List.length ts < fuel)%nat ->
  takes ts (sort_list path line fuel terms ts).
Proof.
  induction fuel as [|fuel IH]; intros terms ts H Hf; cbn [sort_list]; [lia|].
  destruct ts as [|t rest]; [auto with takes|]. destruct (_ || _); [auto with takes|].
  apply Forall_cons in H as [_ Hr]. cbv zeta.
  set (ts1 := if at_keyword "ASC" rest || at_keyword "DESC" rest then tail rest else rest).
  assert (Forall token_in ts1 /\ (List.length ts1 <= List.length rest)%nat) as [H1 L1].
  { subst ts1. pose proof (tail_le rest). destruct (_ || _); [split; [auto with takes|done]|by split]. }
  generalize (if at_keyword "ASC" rest || at_keyword "DESC" rest
              then [("dir", AText (ToUpper (default "" (tk_text <$> head rest))))] else []). intros dir.
  clearbody ts1. apply takes_bind.
  - pose proof (tail_le ts1). pose proof (tail_le (tail ts1)).
    repeat (match goal with |- takes _ (if ?c then _ else _) => destruct c end);
      try (by auto with takes); apply takes_ok; cbn; (lia || auto with takes).
  - intros nulls ts2 L2 H2. pose proof (tail_le ts2). cbn in L2 |- *. destruct (at_symbol "," ts2).
    + apply (takes_more (tail ts2)); [cbn; lia|]. apply IH; [auto with takes|cbn in Hf; lia].
    + by apply takes_ok.
Qed.

(** A step of [parse_tokens]: it takes tokens or none. *)
Definition steps {A} (r : res (A * list token)) : Prop :=
  match r with Ok (_, rest) => Forall token_in rest | Err e => refusal e | Panic => False end.

Lemma takes_steps {A} ts (r : res (A * list token)) : takes ts r -> steps r.
Proof. destruct r as [[a rest]|e|]; cbn; tauto. Qed.

Lemma parse_tokens_answers ts : Forall token_in ts ->
  match parse_tokens path line ts with Ok _ => True | Err e => refusal e | Panic => False end.
Proof.
  intros H. unfold parse_tokens.
  assert (H1 : steps (if negb (at_keyword "ORDER" ts) && negb (Nat.eqb (List.length ts) 0)
                      then or_ path line maxLineNesting ts else Ok (ANull, ts))).
  { destruct (_ && _); [|done]. by eapply takes_steps, or_takes. }
  destruct (if _ && _ then _ else _) as [[f ts1]|e|]; [|exact H1|destruct H1].
  unfold mbind at 1, result_bind at 1. cbv beta iota zeta.
  set (r := if at_keyword "ORDER" ts1 then _ else _).
  assert (H2 : steps r).
  { subst r. destruct (at_keyword "ORDER" ts1); [|done]. destruct (negb _).
    - apply (takes_steps []). apply fail_takes. by apply tail_in.
    - eapply takes_steps, sort_list_takes; [by repeat apply tail_in|lia]. }
  destruct r as [[s ts2]|e|]; [|exact H2|destruct H2]. unfold mbind, result_bind. cbv beta iota zeta.
  destruct ts2 as [|t rest]; [done|]. exists (tk_at t). split; [by inversion H2|done].
Qed.
End answered.

(** ** The lexer moves forward *)

Lemma decode_shorter c rest : (String.length (decode_tail c rest).2 <= String.length rest)%nat.
Proof.
  unfold decode_tail. repeat match goal with
  | |- context [if ?b then _ else _] => destruct b
  | |- context [match ?x with EmptyString => _ | String _ _ => _ end] => is_var x; destruct x
  end; cbn; lia.
Qed.

Lemma quoted_shorter quote s t tail : quoted quote s = Some (t, tail) -> (String.length tail < String.length s)%nat.
Proof.
  assert (H : forall n s, (String.length s <= n)%nat -> forall t tail, quoted quote s = Some (t, tail) ->
    (String.length tail < String.length s)%nat).
  { clear. induction n as [|n IH]; intros s Hn t tail; (destruct s as [|c s]; [done|]); cbn [quoted String.length] in *; [lia|].
    destruct (Ascii.eqb c backslash).
    - destruct s as [|d s]; [done|]. destruct (quoted quote s) as [[t' tail']|] eqn:E; [|done]. intros [= <- <-].
      apply IH in E; cbn in *; lia.
    - destruct (Ascii.eqb c quote); [intros [= <- <-]; lia|].
      destruct (quoted quote s) as [[t' tail']|] eqn:E; [|done]. intros [= <- <-]. apply IH in E; lia. }
  eauto.
Qed.

Lemma word_end_shorter fuel : forall s, (String.length (word_end fuel s) <= String.length s)%nat.
Proof.
  induction fuel as [|fuel IH]; intros s; cbn [word_end]; [done|]. destruct s as [|c rest]; [done|].
  pose proof (decode_shorter c rest). destruct (decode_tail c rest) as [r rest']. cbn in *.
  destruct (breaks_word r); [done|]. specialize (IH rest'). lia.
Qed.

Lemma lex_positions total fuel : forall i s, (i + String.length s <= total)%nat ->
  match lex_from fuel i s with
  | inl ts => Forall (fun t => tk_at t <= total)%nat ts
  | inr at_ => (at_ <= total)%nat
  end.
Proof.
  induction fuel as [|fuel IH]; intros i s H; cbn [lex_from].
  - destruct s; [constructor|]. lia.
  - destruct s as [|c rest]; [constructor|].
    pose proof (decode_shorter c rest) as Hd. destruct (decode_tail c rest) as [r rest'] eqn:Er. cbn [snd] in Hd.
    assert (Hemit : forall kind text tail, (String.length tail <= String.length rest)%nat ->
      match (match lex_from fuel (i + (String.length (String c rest) - String.length tail)) tail with
             | inl tokens => inl (mkToken kind text i :: tokens) | inr at_ => inr at_ end) with
      | inl ts => Forall (fun t => tk_at t <= total)%nat ts
      | inr at_ => (at_ <= total)%nat
      end).
    { intros kind text tail Ht. specialize (IH (i + (String.length (String c rest) - String.length tail))%nat tail).
      cbn [String.length] in *. destruct (lex_from fuel _ tail); [|apply IH; lia].
      constructor; [cbn; lia|]. apply IH. lia. }
    destruct (IsSpace r); [apply IH; cbn [String.length] in *; lia|].
    destruct (_ || _).
    { destruct (quoted c rest) as [[t tail]|] eqn:Hq; [|cbn in H; lia]. apply quoted_shorter in Hq. apply Hemit. lia. }
    destruct (existsb _ _); [by apply Hemit|]. destruct (existsb (Z.eqb r) [61; 33; 60; 62]).
    { destruct (str_has_prefix "=" rest); [apply Hemit; destruct rest; cbn; lia|].
      destruct (r =? 33); [cbn in H; lia|by apply Hemit]. }
    destruct (breaks_word r) eqn:Hb.
    + cbn [String.length word_end]. rewrite Er, Hb. cbn [String.length].
      specialize (IH (i + (S (String.length rest) - S (String.length rest)))%nat (String c rest)).
      cbn [String.length] in *. destruct (lex_from fuel _ _); [constructor; [cbn; lia|]|]; apply IH; lia.
    + apply Hemit. cbn [String.length word_end]. rewrite Er, Hb. pose proof (word_end_shorter (String.length rest) rest'). lia.
Qed.

