(* ===== verification/LineTrip.v ===== *)
(** * A line spells its query

    core/domain/model/view/Line.go promises that FormatLine writes "a line
    ParseLine reads back to the same document".  Here the promise is proved as
    a round trip of the queries: where a filter and an order parse and a line
    spells them, the line read back parses to the same filter tree and the
    same sort terms.  The lexer is run on printed texts first, then the values,
    the comparisons, the combinations and the order. *)

From Stdlib Require Import ZArith Lia String Ascii List Bool.
From stdpp Require Import base list strings.
From S2P Require Import Prelude Shared Hlc Text Civil Literal Query Line.

Open Scope string_scope.
Open Scope list_scope.
Open Scope Z_scope.

(** ** Printed texts and their tokens *)

Definition shape : Type := tokenKind * string.
Definition shape_of (t : token) : shape := (tk_kind t, tk_text t).

(** A text the lexer reads as these tokens, wherever it stands. *)
Definition lexed (s : string) (shapes : list shape) : Prop :=
  forall fuel i, (String.length s <= fuel)%nat ->
  exists ts, lex_from fuel i s = inl ts /\ map shape_of ts = shapes.

(** A character of a word, and what may follow one. *)
Definition plain (c : ascii) : bool := (byte_of c <? 128) && negb (breaks_word (byte_of c)).
Definition clean (s : string) : bool :=
  match s with EmptyString => true | String c _ => (byte_of c <? 128) && breaks_word (byte_of c) end.

Lemma decode_ascii c rest : byte_of c < 128 -> decode_tail c rest = (byte_of c, rest).
Proof. intros H. unfold decode_tail. by rewrite (proj2 (Z.ltb_lt _ _) H). Qed.

Lemma lexed_nil : lexed "" [].
Proof. intros fuel i _. exists []. split; [|done]. by destruct fuel. Qed.

Lemma lexed_space s shapes : lexed s shapes -> lexed (String " " s) shapes.
Proof.
  intros H fuel i Hf. destruct fuel as [|fuel]; [cbn in Hf; lia|]. cbn [lex_from].
  rewrite decode_ascii by done. cbn -[lex_from String.length]. apply H. cbn in Hf. lia.
Qed.

(** A token of a printed text, in front of the tokens of what follows. *)
Lemma lexed_emit fuel j tail shapes i kind text :
  lexed tail shapes -> (String.length tail <= fuel)%nat ->
  exists ts, match lex_from fuel j tail with
             | inl tokens => inl (mkToken kind text i :: tokens) | inr at_ => inr at_ end = inl ts /\
             map shape_of ts = (kind, text) :: shapes.
Proof.
  intros H Hf. destruct (H fuel j Hf) as (ts & -> & <-). by exists (mkToken kind text i :: ts).
Qed.

Lemma lexed_symbol c s shapes : c ∈ ["("; ")"; ","; "~"]%char -> lexed s shapes ->
  lexed (String c s) ((tokenSymbol, String c EmptyString) :: shapes).
Proof.
  intros Hc H fuel i Hf. destruct fuel as [|fuel]; [cbn in Hf; lia|].
  assert (byte_of c < 128 /\ IsSpace (byte_of c) = false /\ (byte_of c =? 39) || (byte_of c =? 34) = false /\
    existsb (Z.eqb (byte_of c)) [40; 41; 44; 126] = true) as (Hb & H1 & H2 & H3).
  { rewrite !elem_of_cons in Hc. destruct Hc as [->|[->|[->|[->|Hc]]]]; [by vm_compute..|]. by apply not_elem_of_nil in Hc. }
  cbn [lex_from]. rewrite decode_ascii, H1, H2, H3 by done. apply lexed_emit; [done|]. cbn in Hf. lia.
Qed.

(** The signs a comparison is written with, each before a space. *)
Lemma lexed_sign o s shapes : o ∈ ["="; "!="; "<"; "<="; ">"; ">="] -> lexed s shapes ->
  lexed (o +:+ String " " s) ((tokenSymbol, o) :: shapes).
Proof.
  intros Ho H. pose proof (lexed_space s shapes H) as Hs. intros fuel i Hf.
  rewrite !elem_of_cons in Ho.
  destruct Ho as [->|[->|[->|[->|[->|[->|Ho]]]]]]; [..|by apply not_elem_of_nil in Ho];
    (destruct fuel as [|fuel]; [cbn in Hf; lia|]); cbn [String.append lex_from]; rewrite decode_ascii by done;
    cbn -[lex_from String.length]; (apply lexed_emit; [exact Hs|cbn in Hf |- *; lia]).
Qed.

Lemma word_end_plain w s fuel : str_forallb plain w = true -> clean s = true ->
  (String.length (w +:+ s) <= fuel)%nat -> word_end fuel (w +:+ s) = s.
Proof.
  intros Hw Hs. revert fuel. induction w as [|c w IH]; intros fuel Hf; cbn [String.append] in *.
  - destruct fuel as [|fuel], s as [|c s]; try done. cbn in Hs |- *. apply andb_true_iff in Hs as [Hb Hs].
    rewrite decode_ascii by lia. by rewrite Hs.
  - cbn in Hw. apply andb_true_iff in Hw as [Hc Hw]. unfold plain in Hc. bools.
    destruct fuel as [|fuel]; [cbn in Hf; lia|]. cbn [word_end]. rewrite decode_ascii by lia.
    match goal with H : breaks_word _ = false |- _ => rewrite H end. apply IH; [done|]. cbn in Hf. lia.
Qed.

Lemma take_word w s : str_take (String.length (w +:+ s) - String.length s) (w +:+ s) = w.
Proof.
  rewrite str_app_length. replace (String.length w + String.length s - String.length s)%nat with (String.length w) by lia.
  induction w as [|c w IH]; cbn; [by destruct s|]. by rewrite IH.
Qed.

Lemma breaks_space r : breaks_word r = false -> IsSpace r = false /\ (r =? 39) || (r =? 34) = false /\
  existsb (Z.eqb r) [40; 41; 44; 126] = false /\ existsb (Z.eqb r) [61; 33; 60; 62] = false.
Proof.
  unfold breaks_word. intros H. apply orb_false_iff in H as [H1 H2]. split; [done|]. cbn in H2 |- *.
  repeat match goal with H : _ || _ = false |- _ => apply orb_false_iff in H as [? ?] end.
  repeat match goal with H : (?a =? ?b) = false |- _ => rewrite H; clear H end. done.
Qed.

Lemma lexed_word w s shapes : str_forallb plain w = true -> w <> "" -> clean s = true -> lexed s shapes ->
  lexed (w +:+ s) ((tokenWord, w) :: shapes).
Proof.
  intros Hw Hne Hs H fuel i Hf. pose proof (word_end_plain w s (String.length (w +:+ s)) Hw Hs ltac:(lia)) as Hend.
  pose proof (take_word w s) as Htake. destruct w as [|c w]; [done|].
  assert (Hc : plain c = true) by (cbn in Hw; by apply andb_true_iff in Hw as [? _]).
  unfold plain in Hc. bools. match goal with H : breaks_word _ = false |- _ => apply breaks_space in H as (E1 & E2 & E3 & E4) end.
  cbn [String.append] in *. destruct fuel as [|fuel]; [cbn in Hf; lia|]. cbn [lex_from].
  rewrite decode_ascii, E1, E2, E3, E4 by lia. rewrite Hend, Htake. apply lexed_emit; [done|].
  cbn in Hf. rewrite str_app_length in Hf. lia.
Qed.

Lemma quoted_escape t s : quoted single_quote (escape t +:+ String single_quote s) = Some (t, s).
Proof.
  induction t as [|c t IH]; cbn [escape]; [done|].
  destruct (Ascii.eqb_spec c backslash) as [->|Hb]; [cbn; cbn in IH; by rewrite IH|].
  destruct (Ascii.eqb_spec c single_quote) as [->|Hq]; [cbn; cbn in IH; by rewrite IH|].
  cbn [orb String.append quoted]. destruct (Ascii.eqb_spec c backslash); [done|].
  destruct (Ascii.eqb_spec c single_quote); [done|]. by rewrite IH.
Qed.

Lemma lexed_quote t s shapes : lexed s shapes -> lexed (quote_text t +:+ s) ((tokenText, t) :: shapes).
Proof.
  intros H fuel i Hf. unfold quote_text in *. cbn [String.append] in *. rewrite <- str_app_assoc in *.
  cbn [String.append] in *. destruct fuel as [|fuel]; [cbn in Hf; lia|]. cbn [lex_from]. rewrite decode_ascii by done.
  change (IsSpace (byte_of single_quote)) with false. change (byte_of single_quote =? 39) with true. cbn [orb].
  rewrite quoted_escape. apply lexed_emit; [done|]. cbn in Hf. rewrite str_app_length in Hf. cbn in Hf. lia.
Qed.

(** ** Words that are no keywords *)

Lemma keyword_start c s : byte_of c < 65 -> isKeyword (String c s) = false.
Proof.
  intros Hc. apply not_true_iff_false. intros H. apply contains_in in H.
  assert (Hu : exists rest, ToUpper (String c s) = String c rest).
  { cbn [ToUpper]. rewrite (proj2 (Z.leb_gt 97 _)) by lia. cbn [andb]. destruct s as [|d s]; [eauto|].
    rewrite (proj2 (Z.eqb_neq _ 197)), (proj2 (Z.eqb_neq _ 196)) by lia. cbn [andb]. eauto. }
  destruct Hu as [rest Hu]. rewrite Hu in H.
  assert (Hk : Forall (fun k => match k with String d _ => 65 <= byte_of d | _ => False end) keywords)
    by (repeat constructor; vm_compute; congruence).
  rewrite Forall_forall in Hk. specialize (Hk _ H). cbn in Hk. lia.
Qed.

Lemma decimal_char_bound c : decimal_char c = true -> byte_of c < 65 /\ plain c = true.
Proof.
  unfold decimal_char. destruct (Ascii.eqb_spec c ".") as [->|_]; [by vm_compute|]. cbn [orb].
  unfold digit_value. change (Z.of_N (N_of_ascii c)) with (byte_of c).
  destruct ((48 <=? byte_of c) && (byte_of c <=? 57)) eqn:E; [|done]. bools. intros _. split; [lia|].
  unfold plain. rewrite (proj2 (Z.ltb_lt (byte_of c) 128)) by lia. cbn [andb]. apply negb_true_iff.
  assert (Hn : forall n, n < 48 \/ 57 < n -> (byte_of c =? n) = false) by (intros; lia).
  unfold breaks_word, IsSpace. cbn [existsb]. rewrite !Hn by lia.
  repeat match goal with |- context [?a <=? byte_of c] => rewrite (proj2 (Z.leb_gt a (byte_of c))) by lia end.
  rewrite (proj2 (Z.leb_gt (byte_of c) 13)) by lia. by rewrite andb_false_r.
Qed.

Lemma forallb_impl (f g : ascii -> bool) s : (forall c, f c = true -> g c = true) ->
  str_forallb f s = true -> str_forallb g s = true.
Proof. intros H. induction s as [|c s IH]; cbn; [done|]. intros. bools. by rewrite H, IH. Qed.

(** The text of a number is a word, and none the grammar reserves. *)
Lemma number_word x : str_forallb plain (FormatFloat x) = true /\ FormatFloat x <> "" /\ isKeyword (FormatFloat x) = false /\
  FormatFloat x <> "true" /\ FormatFloat x <> "false".
Proof.
  destruct (format_chars x) as (neg & u & -> & Hu & Hne).
  assert (Hstart : exists c s, (if neg then "-" else "") +:+ u = String c s /\ byte_of c < 65).
  { destruct neg; [by eexists _, _|]. destruct u as [|c u]; [done|]. exists c, u. split; [done|].
    cbn in Hu. apply andb_true_iff in Hu as [Hu _]. by apply decimal_char_bound. }
  destruct Hstart as (c & s & E & Hc). split; [|rewrite E; split; [done|split; [by apply keyword_start|]]].
  - rewrite str_forallb_app. rewrite (forallb_impl decimal_char plain u); [by destruct neg| |done].
    intros d Hd. by apply decimal_char_bound.
  - split; intros E'; injection E' as -> _; by vm_compute in Hc.
Qed.

(** A plain word folds to its upper case. *)
Lemma fold_plain w : str_forallb plain w = true -> fold_case w = ToUpper w.
Proof.
  induction w as [|c w IH]; [done|]. intros H. cbn in H. apply andb_true_iff in H as [Hc Hw]. specialize (IH Hw).
  assert (Hb : byte_of c < 128) by (unfold plain in Hc; bools; lia). cbn [fold_case ToUpper].
  destruct (_ && _); [by rewrite IH|]. destruct w as [|d w]; [done|].
  rewrite !(proj2 (Z.eqb_neq (byte_of c) _)) by lia. cbn [andb]. rewrite IH. by destruct w.
Qed.

(** No keyword, whatever its case. *)
Definition quiet (k : tokenKind) (w : string) : Prop :=
  forall kw a ts, In kw keywords -> at_keyword kw (mkToken k w a :: ts) = false.

Lemma quiet_word w : str_forallb plain w = true -> isKeyword w = false -> quiet tokenWord w.
Proof.
  intros Hp Hk kw a ts Hin. cbn [at_keyword tk_kind tk_text]. unfold EqualFold. rewrite (fold_plain w Hp).
  apply andb_false_iff. right. apply String.eqb_neq. intros E. unfold isKeyword in Hk.
  apply not_true_iff_false in Hk. apply Hk. rewrite E. apply contains_in. by apply list_elem_of_In.
Qed.

Lemma quiet_text t : quiet tokenText t.
Proof. by intros kw a ts _. Qed.

(** ** Values *)

(** A document a JSON decoder hands over: floats in their one representation,
    no Go integers - and a whole number is spelt by the digits of an [int64],
    as every one but the least is. *)
Fixpoint spelled (raw : any) : bool :=
  match raw with
  | ANull | ABool _ | AText _ => true
  | ANumber x =>
      canonical x &&
      match integerOf raw with
      | Some _ => match ParseInt (FormatFloat x) with Some _ => true | None => false end
      | None => true
      end
  | AInt _ | AInt64 _ => false
  | AList elements => forallb spelled elements
  | AObject fields => forallb (fun kv => spelled kv.2) fields
  end.

Lemma spelled_read fields key : spelled (AObject fields) = true -> spelled (read fields key) = true.
Proof.
  unfold read. cbn [spelled]. induction fields as [|[k v] rest IH]; [done|]. cbn. intros. bools.
  destruct (String.eqb k key); [done|]. by apply IH.
Qed.

(** Two floats that are the same integer. *)
Lemma whole_number x n m : canonical x = true -> integerOf (ANumber x) = Some n -> ParseInt (FormatFloat x) = Some m ->
  integerOf (ANumber (float_of_int64 m)) = Some n.
Proof.
  intros Hcan Hx Hm. pose proof (format_parse x Hcan) as Hp.
  destruct (parse_int_float _ _ Hm) as (neg & Hf & Hneg). rewrite Hf in Hp.
  destruct (Z.eq_dec m 0) as [->|Hm0].
  - cbn in Hp. injection Hp as <-. destruct neg; cbn in Hx |- *; exact Hx.
  - rewrite (Hneg Hm0) in Hp. unfold float_of_int64. by rewrite Hp.
Qed.

Section reads.
Context (path line : string).

(** A value's text is one token, which reads as the value [v']. *)
Definition value_spelt (target : Field) (v v' : any) : Prop :=
  exists k w, quiet k w /\
    (forall s shapes, clean s = true -> lexed s shapes -> lexed (formatValue v +:+ s) ((k, w) :: shapes)) /\
    (forall a ts, value path line target (mkToken k w a :: ts) = Ok (v', ts)).

Lemma text_spelt target s : value_spelt target (AText s) (AText s).
Proof. exists tokenText, s. split; [apply quiet_text|]. split; [|done]. intros. by apply lexed_quote. Qed.

Lemma word_spelt target v w v' : formatValue v = w -> str_forallb plain w = true -> w <> "" -> isKeyword w = false ->
  bareValue w (f_kind target) = v' -> value_spelt target v v'.
Proof.
  intros <- Hp Hne Hk Hb. exists tokenWord, (formatValue v). split; [by apply quiet_word|]. split.
  - intros. by apply lexed_word.
  - intros a ts. unfold value. cbn [tk_kind tk_text]. by rewrite Hk, Hb.
Qed.

(** A value that parses is read back as one that parses alike. *)
Lemma value_reads target v p val : spelled v = true -> parseValue v target p = Ok val ->
  exists v', value_spelt target v v' /\ parseValue v' target p = Ok val /\ is_nil v' = false.
Proof.
  intros Hs H. destruct v as [|b|x|n|n|s|l|fs]; try done.
  - exfalso. revert H. unfold parseValue, parseKindValue. by destruct (f_kind target).
  - exists (ABool b). assert (Hk : f_kind target = KindBool \/ f_kind target = KindCustom).
    { revert H. unfold parseValue, parseKindValue. destruct (f_kind target); try done; auto. }
    repeat split; [|done]. apply (word_spelt _ _ (if b then "true" else "false")); try (by destruct b).
    destruct Hk as [-> | ->]; by destruct b.
  - cbn in Hs. apply andb_true_iff in Hs as [Hcan Hs].
    destruct (number_word x) as (Hp & Hne & Hk & Ht & Hf).
    assert (Hkind : f_kind target = KindInt \/ f_kind target = KindCustom).
    { revert H. unfold parseValue, parseKindValue. destruct (f_kind target); try done; auto. }
    destruct Hkind as [E|E].
    + unfold parseValue, parseKindValue in H. rewrite E in H.
      destruct (integerOf (ANumber x)) as [n|] eqn:Hi; [|done].
      cbn [integerOf] in Hi. rewrite Hi in Hs. destruct (ParseInt (FormatFloat x)) as [m|] eqn:Hm; [|done].
      exists (ANumber (float_of_int64 m)). split; [|split; [|done]].
      * eapply word_spelt; try done. cbn [formatValue]. rewrite E. unfold bareValue. by rewrite Hm.
      * unfold parseValue, parseKindValue. rewrite E. by rewrite (whole_number x n m).
    + exists (ANumber x). repeat split; [|done]. eapply word_spelt; try done. cbn [formatValue].
      rewrite E. unfold bareValue. rewrite (proj2 (String.eqb_neq _ _) Ht), (proj2 (String.eqb_neq _ _) Hf).
      by rewrite format_parse.
  - exists (AText s). split; [apply text_spelt|done].
  - exfalso. revert H. unfold parseValue, parseKindValue. by destruct (f_kind target).
  - exfalso. revert H. unfold parseValue, parseKindValue. by destruct (f_kind target).
Qed.

(** Taking a token off. *)
Lemma peel ts k w shapes : map shape_of ts = (k, w) :: shapes ->
  exists a ts', ts = mkToken k w a :: ts' /\ map shape_of ts' = shapes.
Proof.
  destruct ts as [|[k' w' a] ts]; [done|]. intros H. injection H as -> -> H. by exists a, ts.
Qed.

(** The values of a list, up to the closing parenthesis. *)
Lemma list_spelt target vs vs' : Forall2 (value_spelt target) vs vs' -> vs <> [] ->
  exists shapes_,
    (List.length vs <= List.length shapes_)%nat /\
    (forall s shapes, lexed s shapes ->
      lexed (join_with ", " (map formatValue vs) +:+ String ")" s) (shapes_ ++ shapes)) /\
    (forall fuel acc ts shapes, (List.length vs <= fuel)%nat -> Z.of_nat (List.length acc + List.length vs) <= MaxValues + 1 ->
      map shape_of ts = shapes_ ++ shapes ->
      exists ts', map shape_of ts' = shapes /\ list_values path line fuel target acc ts = Ok (acc ++ vs', ts')).
Proof.
  intros H. induction H as [|v v' vs vs' (k & w & _ & Hlex & Hval) Hvs IH]; [done|]. intros _.
  assert (Hstep : forall fuel acc a ts, Z.of_nat (List.length acc + 1) <= MaxValues + 1 ->
    list_values path line (S fuel) target acc (mkToken k w a :: ts) =
    (if at_symbol "," ts then list_values path line fuel target (acc ++ [v']) (tail ts)
     else if negb (at_symbol ")" ts) then fail path line ts else Ok (acc ++ [v'], tail ts))).
  { intros fuel acc a ts Hl. cbn [list_values]. rewrite (proj2 (Z.ltb_ge MaxValues _)) by lia. by rewrite Hval. }
  destruct vs as [|v2 vs].
  - inversion Hvs; subst. exists [(k, w); (tokenSymbol, ")")]. split; [cbn; lia|]. split.
    + intros s shapes Hs. cbn [map join_with String.concat app]. apply Hlex; [done|]. apply lexed_symbol; [by repeat constructor|done].
    + intros fuel acc ts shapes Hf Hb Hts. destruct fuel as [|fuel]; [cbn in Hf; lia|].
      apply peel in Hts as (a & ts1 & -> & Hts). apply peel in Hts as (b & ts2 & -> & Hts).
      exists ts2. split; [done|]. rewrite Hstep by (cbn in Hb |- *; lia). done.
  - destruct IH as (shs & Hl & Hx & Hp); [done|]. exists ((k, w) :: (tokenSymbol, ",") :: shs).
    split; [cbn in Hl |- *; lia|]. split.
    + intros s shapes Hs. specialize (Hx s shapes Hs). cbn [map app] in *.
      change (join_with ", " (formatValue v :: formatValue v2 :: map formatValue vs))
        with (formatValue v +:+ ", " +:+ join_with ", " (formatValue v2 :: map formatValue vs)).
      rewrite <- !str_app_assoc. apply Hlex; [done|]. cbn [String.append].
      apply lexed_symbol; [by repeat constructor|]. by apply lexed_space.
    + intros fuel acc ts shapes Hf Hb Hts. destruct fuel as [|fuel]; [cbn in Hf; lia|].
      cbn [app] in Hts. apply peel in Hts as (a & ts1 & -> & Hts). apply peel in Hts as (b & ts2 & -> & Hts).
      destruct (Hp fuel (acc ++ [v']) ts2 shapes) as (ts' & Hts' & E); [cbn in *; lia|rewrite length_app; cbn in *; lia|done|].
      exists ts'. split; [done|]. rewrite Hstep by (cbn in Hb |- *; lia). cbn [at_symbol tk_kind tk_text tail].
      change (bool_decide (tokenSymbol = tokenSymbol) && (",," =? ",")%string) with false.
      rewrite bool_decide_true by done. cbn [String.eqb Ascii.eqb Bool.eqb andb]. rewrite E. by rewrite <- app_assoc.
Qed.
End reads.

(** ** Field names *)

Lemma word_byte c : lower_byte c = true \/ (48 <=? byte_of c) && (byte_of c <=? 57) = true \/ byte_of c = 95 -> plain c = true.
Proof.
  intros H. assert (Hb : 48 <= byte_of c <= 57 \/ 95 <= byte_of c <= 122).
  { unfold lower_byte in H. destruct H as [H|[H|H]]; bools; lia. }
  unfold plain. rewrite (proj2 (Z.ltb_lt (byte_of c) 128)) by lia. cbn [andb]. apply negb_true_iff.
  assert (Hn : forall n, ~ (48 <= n <= 57 \/ 95 <= n <= 122) -> (byte_of c =? n) = false) by (intros; lia).
  unfold breaks_word, IsSpace. cbn [existsb]. rewrite !Hn by lia.
  repeat match goal with |- context [?a <=? byte_of c] => lazymatch a with 9 => fail | _ => rewrite (proj2 (Z.leb_gt a (byte_of c))) by lia end end.
  rewrite (proj2 (Z.leb_gt (byte_of c) 13)) by lia. by rewrite andb_false_r.
Qed.

(** Names of fields are words. *)
Lemma known_plain f : known_field f -> str_forallb plain (f_name f) = true /\ f_name f <> "".
Proof.
  intros [Hin|(key & Hc & _)].
  - assert (H : forallb (fun f => str_forallb plain (f_name f) && negb (String.eqb (f_name f) "")) catalogue = true)
      by (vm_compute; reflexivity).
    rewrite List.forallb_forall in H. specialize (H f Hin). bools. done.
  - unfold CustomField in Hc. destruct (str_has_prefix CustomFieldPrefix (f_name f)) eqn:Hp; [|done].
    apply has_prefix_split in Hp. rewrite Hp. split; [|by intros E].
    rewrite str_forallb_app. destruct (key_shaped _ _) eqn:Hk; [|done].
    change (str_forallb plain CustomFieldPrefix) with true. cbn [andb].
    destruct (str_drop _ _) as [|c key']; [done|]. cbn in Hk. bools. cbn [str_forallb].
    rewrite word_byte by auto. cbn [andb]. apply (forallb_impl key_byte); [|done].
    intros d Hd. apply word_byte. unfold key_byte in Hd. rewrite !orb_true_iff in Hd. rewrite Z.eqb_eq in Hd. tauto.
Qed.

(** The name of a field, spelt without spaces, is the field's. *)
Lemma bare_name name k : bareField name = true -> TrimSpace name = k -> str_forallb plain k = true -> k <> "" -> name = k.
Proof.
  unfold bareField, TrimSpace. intros Hb Ht Hp Hne. bools.
  match goal with H : existsb _ _ = false |- _ => rename H into Hr end.
  assert (Hleft : trim_space_left (String.length name) name = name).
  { destruct name as [|c rest]; [done|]. cbn [trim_space_left String.length]. unfold runes in Hr. cbn [runes_from String.length] in Hr.
    destruct (decode_tail c rest) as [r rest']. cbn in Hr. apply orb_false_iff in Hr as [Hr _].
    unfold breaks_word in Hr. apply orb_false_iff in Hr as [Hr _]. by rewrite Hr. }
  rewrite Hleft in Ht. destruct (trim_right_split name) as (w & Hw & Ho). rewrite Ht in Hw.
  destruct w as [|c w]; [by rewrite str_app_nil_r in Hw|exfalso].
  assert (Hruns : forall k, str_forallb plain k = true -> existsb breaks_word (runes (k +:+ String c w)) = false ->
    existsb breaks_word (runes (String c w)) = false).
  { clear. generalize (String c w). clear. intros w. induction k as [|c k IH]; [done|]. cbn [str_forallb String.append]. intros H. bools.
    unfold plain in *. bools. unfold runes at 1. cbn [String.length runes_from]. rewrite decode_ascii by lia.
    cbn [existsb]. intros H'. apply orb_false_iff in H' as [_ H']. by apply IH. }
  rewrite Hw in Hr. apply Hruns in Hr; [|done]. unfold only_spaces in Ho.
  assert (Hne' : exists r rs, runes (String c w) = r :: rs).
  { unfold runes. cbn [String.length runes_from]. destruct (decode_tail c w) as [r rest']. eauto. }
  destruct Hne' as (r & rs & E). rewrite E in *. cbn in Ho, Hr. apply andb_true_iff in Ho as [Ho _].
  apply orb_false_iff in Hr as [Hr _]. unfold breaks_word in Hr. by rewrite Ho in Hr.
Qed.

(** ** Comparisons *)

Lemma field_any_path name p f q : field name p = Ok f -> field name q = Ok f.
Proof.
  unfold field. destruct (String.eqb _ ""); [done|]. destruct (CustomField _); [done|]. by destruct (FieldByName _).
Qed.

(** A comparison that parses, its values aside. *)
Lemma leaf_same document d' op p n name :
  parseLeaf document op p = Ok n -> read document "field" = AText name -> read d' "field" = AText name ->
  present d' "nodes" = false ->
  (forall target vs, field name (p +:+ "/field") = Ok target -> parseValues document target op p = Ok vs ->
    parseValues d' target op p = Ok vs) ->
  parseLeaf d' op p = Ok n.
Proof.
  unfold parseLeaf. intros H Hf Hf' Hn Hv. rewrite Hn, Hf'. rewrite Hf in H. destruct (present document "nodes"); [done|].
  cbn [stringOf] in *. destruct (field name (p +:+ "/field")) as [target|e|]; [|done|done].
  cbn in H |- *. destruct (negb _); [done|]. destruct (_ && _); [done|].
  destruct (parseValues document target op p) as [vs|e|] eqn:E; [|done|done]. by rewrite (Hv target vs).
Qed.

(** The tests of the parser on tokens that are known. *)
Ltac words :=
  repeat match goal with
  | |- context [at_keyword ?w (mkToken tokenWord ?t ?a :: ?ts)] =>
      let r := eval vm_compute in (EqualFold t w) in change (at_keyword w (mkToken tokenWord t a :: ts)) with r
  | |- context [at_keyword ?w (mkToken tokenSymbol ?t ?a :: ?ts)] =>
      change (at_keyword w (mkToken tokenSymbol t a :: ts)) with false
  | |- context [at_symbol ?w (mkToken tokenWord ?t ?a :: ?ts)] =>
      change (at_symbol w (mkToken tokenWord t a :: ts)) with false
  | |- context [at_symbol ?w (mkToken tokenSymbol ?t ?a :: ?ts)] =>
      let r := eval vm_compute in (String.eqb t w) in change (at_symbol w (mkToken tokenSymbol t a :: ts)) with r
  | |- context [operator_at (mkToken tokenWord ?t ?a :: ?ts)] =>
      change (operator_at (mkToken tokenWord t a :: ts)) with (@None Operator)
  | |- context [operator_at (mkToken tokenSymbol ?t ?a :: ?ts)] =>
      let r := eval vm_compute in (symbol_operator t) in change (operator_at (mkToken tokenSymbol t a :: ts)) with r
  | |- context [tail (?t :: ?ts)] => change (tail (t :: ts)) with ts
  end; cbn [negb andb orb].

Section comparisons.
Context (path line : string).

Lemma comparison_named name target q a ts : isKeyword name = false -> field name q = Ok target ->
  comparison path line (mkToken tokenWord name a :: ts) =
    match operator_at ts with
    | Some op => valued path line name op target (tail ts)
    | None =>
        if at_keyword "IN" ts then list_ path line name OpIn target (tail ts)
        else if at_keyword "NOT" ts then
          if negb (at_keyword "IN" (tail ts)) then fail path line (tail ts)
          else list_ path line name OpNotIn target (tail (tail ts))
        else if at_keyword "IS" ts then
          let negated := at_keyword "NOT" (tail ts) in
          let ts := if negated then tail (tail ts) else tail ts in
          if negb (at_keyword "EMPTY" ts) && negb (at_keyword "NULL" ts) then fail path line ts
          else Ok (if negated then not_document (leaf name OpIsNull None) else leaf name OpIsNull None, tail ts)
        else if at_keyword "BETWEEN" ts then
          '(low, ts) ← value path line target (tail ts);
          if negb (at_keyword "AND" ts) then fail path line ts
          else
            '(high, ts) ← value path line target (tail ts);
            Ok (leaf name OpBetween (Some (AList [low; high])), ts)
        else if at_keyword "CONTAINS" ts then
          if at_keyword "ANY" (tail ts) then list_ path line name OpContainsAny target (tail (tail ts))
          else if at_keyword "ALL" (tail ts) then list_ path line name OpContainsAll target (tail (tail ts))
          else valued path line name OpContains target (tail ts)
        else if at_keyword "STARTS" ts then
          if negb (at_keyword "WITH" (tail ts)) then fail path line (tail ts)
          else valued path line name OpStartsWith target (tail (tail ts))
        else if at_keyword "MATCHES" ts then valued path line name OpMatches target (tail ts)
        else fail path line ts
    end.
Proof.
  intros Hk Hf. unfold comparison. cbn [tk_kind tk_text]. rewrite Hk, bool_decide_true by done. cbn [negb orb].
  by rewrite (field_any_path _ _ _ path Hf).
Qed.

(** The words of a comparison and what they build: the texts after the name,
    the tokens, the leaf. *)
Definition comparison_spelt (name text : string) (d' : list (string * any)) : Prop :=
  exists shapes_,
    (forall s shapes, clean s = true -> lexed s shapes -> lexed (text +:+ s) (shapes_ ++ shapes)) /\
    (forall a ts shapes, map shape_of ts = shapes_ ++ shapes ->
      exists ts', map shape_of ts' = shapes /\
        comparison path line (mkToken tokenWord name a :: ts) = Ok (AObject d', ts')).

Definition leaf_entries (name : string) (op : Operator) (v : any) : list (string * any) :=
  [("field", AText name); ("op", AText (op_text op)); ("value", v)].

Context (name : string) (target : Field) (q : string).
Hypothesis Hkeyword : isKeyword name = false.
Hypothesis Htarget : field name q = Ok target.

(** An operator word and a space before what follows. *)
Lemma lexed_word_space w s shapes : str_forallb plain w = true -> w <> "" -> lexed s shapes ->
  lexed (String " " (w +:+ String " " s)) ((tokenWord, w) :: shapes).
Proof. intros Hw Hne H. apply lexed_space, lexed_word; [done|done|done|]. by apply lexed_space. Qed.

Lemma lexed_sign_space o s shapes : o ∈ ["="; "!="; "<"; "<="; ">"; ">="] -> lexed s shapes ->
  lexed (String " " (o +:+ String " " s)) ((tokenSymbol, o) :: shapes).
Proof. intros Ho H. by apply lexed_space, lexed_sign. Qed.

Lemma empty_spelt : comparison_spelt name " IS EMPTY" [("field", AText name); ("op", AText "IS_NULL")].
Proof.
  exists [(tokenWord, "IS"); (tokenWord, "EMPTY")]. split.
  - intros s shapes Hs H. apply (lexed_word_space "IS"); [done|done|]. by apply (lexed_word "EMPTY").
  - intros a ts shapes Hts. apply peel in Hts as (b & ts1 & -> & Hts). apply peel in Hts as (c & ts2 & -> & Hts).
    exists ts2. split; [done|]. rewrite (comparison_named name target q) by done. words. done.
Qed.

Lemma between_spelt low high low' high' :
  value_spelt path line target low low' -> value_spelt path line target high high' ->
  comparison_spelt name (" BETWEEN " +:+ formatValue low +:+ " AND " +:+ formatValue high)
    (leaf_entries name OpBetween (AList [low'; high'])).
Proof.
  intros (k & w & _ & Hlex & Hval) (k' & w' & _ & Hlex' & Hval').
  exists [(tokenWord, "BETWEEN"); (k, w); (tokenWord, "AND"); (k', w')]. split.
  - intros s shapes Hs H. rewrite <- !str_app_assoc. apply (lexed_word_space "BETWEEN"); [done|done|].
    apply Hlex; [done|]. apply (lexed_word_space "AND"); [done|done|]. by apply Hlex'.
  - intros a ts shapes Hts. apply peel in Hts as (b & ts1 & -> & Hts). apply peel in Hts as (c & ts2 & -> & Hts).
    apply peel in Hts as (d & ts3 & -> & Hts). apply peel in Hts as (e & ts4 & -> & Hts).
    exists ts4. split; [done|]. rewrite (comparison_named name target q) by done. words.
    rewrite Hval. cbn -[at_keyword value]. words. by rewrite Hval'.
Qed.

Lemma single_spelt op word v v' :
  match op with OpIsNull | OpBetween | OpIn | OpNotIn | OpContainsAny | OpContainsAll => False | _ => True end ->
  operator_word op = Some word -> value_spelt path line target v v' ->
  comparison_spelt name (" " +:+ word +:+ " " +:+ formatValue v) (leaf_entries name op v').
Proof.
  intros Hop Hword (k & w & Hq & Hlex & Hval).
  assert (Hquiet : forall kw a ts, In kw ["ANY"; "ALL"] -> at_keyword kw (mkToken k w a :: ts) = false).
  { intros kw a ts Hin. apply Hq. cbn in Hin |- *. tauto. }
  assert (Hv : forall a ts, valued path line name op target (mkToken k w a :: ts) =
    Ok (AObject (leaf_entries name op v'), ts)) by (intros; unfold valued; by rewrite Hval).
  assert (Hsign : forall o, word = o -> o ∈ ["="; "!="; "<"; "<="; ">"; ">="] ->
    (forall a ts, operator_at (mkToken tokenSymbol o a :: ts) = Some op) ->
    comparison_spelt name (" " +:+ word +:+ " " +:+ formatValue v) (leaf_entries name op v')).
  { intros o -> Ho Hat. exists [(tokenSymbol, o); (k, w)]. split.
    - intros s shapes Hs H. rewrite <- !str_app_assoc. apply lexed_sign_space; [done|]. by apply Hlex.
    - intros a ts shapes Hts. apply peel in Hts as (b & ts1 & -> & Hts). apply peel in Hts as (c & ts2 & -> & Hts).
      exists ts2. split; [done|]. rewrite (comparison_named name target q), Hat by done. apply Hv. }
  destruct op; try done; injection Hword as <-;
    try (eapply Hsign; [reflexivity|by repeat constructor|reflexivity]); clear Hsign.
  - exists [(tokenWord, "CONTAINS"); (k, w)]. split.
    + intros s shapes Hs H. rewrite <- !str_app_assoc. apply (lexed_word_space "CONTAINS"); [done|done|]. by apply Hlex.
    + intros a ts shapes Hts. apply peel in Hts as (b & ts1 & -> & Hts). apply peel in Hts as (c & ts2 & -> & Hts).
      exists ts2. split; [done|]. rewrite (comparison_named name target q) by done. words.
      rewrite !Hquiet by (cbn; tauto). apply Hv.
  - exists [(tokenWord, "STARTS"); (tokenWord, "WITH"); (k, w)]. split.
    + intros s shapes Hs H. rewrite <- !str_app_assoc. apply (lexed_word_space "STARTS"); [done|done|].
      apply (lexed_word "WITH"); [done|done|done|]. apply lexed_space. by apply Hlex.
    + intros a ts shapes Hts. apply peel in Hts as (b & ts1 & -> & Hts). apply peel in Hts as (b' & ts1' & -> & Hts).
      apply peel in Hts as (c & ts2 & -> & Hts).
      exists ts2. split; [done|]. rewrite (comparison_named name target q) by done. words. apply Hv.
  - exists [(tokenWord, "MATCHES"); (k, w)]. split.
    + intros s shapes Hs H. rewrite <- !str_app_assoc. apply (lexed_word_space "MATCHES"); [done|done|]. by apply Hlex.
    + intros a ts shapes Hts. apply peel in Hts as (b & ts1 & -> & Hts). apply peel in Hts as (c & ts2 & -> & Hts).
      exists ts2. split; [done|]. rewrite (comparison_named name target q) by done. words. apply Hv.
Qed.

Lemma list_op_spelt op word vs vs' :
  match op with OpIn | OpNotIn | OpContainsAny | OpContainsAll => True | _ => False end ->
  operator_word op = Some word -> Forall2 (value_spelt path line target) vs vs' -> vs <> [] ->
  Z.of_nat (List.length vs) <= MaxValues ->
  comparison_spelt name (" " +:+ word +:+ " (" +:+ join_with ", " (map formatValue vs) +:+ ")")
    (leaf_entries name op (AList vs')).
Proof.
  intros Hop Hword Hvs Hne Hmax. destruct (list_spelt path line target vs vs' Hvs Hne) as (shs & Hlen & Hlex & Hval).
  assert (Hlist : forall a ts shapes, map shape_of ts = shs ++ shapes -> exists ts', map shape_of ts' = shapes /\
    list_ path line name op target (mkToken tokenSymbol "(" a :: ts) = Ok (AObject (leaf_entries name op (AList vs')), ts')).
  { intros a ts shapes Hts.
    assert (List.length shs <= List.length ts)%nat.
    { apply (f_equal (@List.length _)) in Hts. rewrite length_map, length_app in Hts. lia. }
    destruct (Hval (S (List.length ts)) [] ts shapes) as (ts' & Hts' & E); [lia|cbn; lia|done|].
    exists ts'. split; [done|]. unfold list_. words. by rewrite E. }
  assert (Hopen : forall s shapes, lexed s shapes ->
    lexed (String "(" (join_with ", " (map formatValue vs) +:+ String ")" s)) ((tokenSymbol, "(") :: shs ++ shapes)).
  { intros s shapes H. apply (lexed_symbol "("); [by repeat constructor|]. by apply Hlex. }
  destruct op; try done; injection Hword as <-.
  - exists ((tokenWord, "IN") :: (tokenSymbol, "(") :: shs). split.
    + intros s shapes Hs H. rewrite <- !str_app_assoc. apply (lexed_word_space "IN"); [done|done|]. by apply Hopen.
    + intros a ts shapes Hts. apply peel in Hts as (b & ts1 & -> & Hts). apply peel in Hts as (c & ts2 & -> & Hts).
      rewrite (comparison_named name target q) by done. words. by apply Hlist.
  - exists ((tokenWord, "NOT") :: (tokenWord, "IN") :: (tokenSymbol, "(") :: shs). split.
    + intros s shapes Hs H. rewrite <- !str_app_assoc. apply (lexed_word_space "NOT"); [done|done|].
      apply (lexed_word "IN"); [done|done|done|]. apply lexed_space. by apply Hopen.
    + intros a ts shapes Hts. apply peel in Hts as (b & ts1 & -> & Hts). apply peel in Hts as (b' & ts1' & -> & Hts).
      apply peel in Hts as (c & ts2 & -> & Hts). rewrite (comparison_named name target q) by done. words. by apply Hlist.
  - exists ((tokenWord, "CONTAINS") :: (tokenWord, "ANY") :: (tokenSymbol, "(") :: shs). split.
    + intros s shapes Hs H. rewrite <- !str_app_assoc. apply (lexed_word_space "CONTAINS"); [done|done|].
      apply (lexed_word "ANY"); [done|done|done|]. apply lexed_space. by apply Hopen.
    + intros a ts shapes Hts. apply peel in Hts as (b & ts1 & -> & Hts). apply peel in Hts as (b' & ts1' & -> & Hts).
      apply peel in Hts as (c & ts2 & -> & Hts). rewrite (comparison_named name target q) by done. words. by apply Hlist.
  - exists ((tokenWord, "CONTAINS") :: (tokenWord, "ALL") :: (tokenSymbol, "(") :: shs). split.
    + intros s shapes Hs H. rewrite <- !str_app_assoc. apply (lexed_word_space "CONTAINS"); [done|done|].
      apply (lexed_word "ALL"); [done|done|done|]. apply lexed_space. by apply Hopen.
    + intros a ts shapes Hts. apply peel in Hts as (b & ts1 & -> & Hts). apply peel in Hts as (b' & ts1' & -> & Hts).
      apply peel in Hts as (c & ts2 & -> & Hts). rewrite (comparison_named name target q) by done. words. by apply Hlist.
Qed.
End comparisons.

(** ** Leaves *)

(** A name the parser takes for a field. *)
Definition name_word (name : string) : Prop :=
  str_forallb plain name = true /\ name <> "" /\ isKeyword name = false.

Section leaves.
Context (path line : string).

Lemma elements_read target p l : forall i vs, forallb spelled l = true -> parse_elements l target p i = Ok vs ->
  exists l', Forall2 (value_spelt path line target) l l' /\ parse_elements l' target p i = Ok vs.
Proof.
  induction l as [|v l IH]; intros i vs Hs H; cbn [parse_elements forallb] in Hs, H.
  - exists []. by split.
  - apply andb_true_iff in Hs as [Hv Hl]. apply bind_ok in H as (val & Hval & H). apply bind_ok in H as (vals & Hvals & [= <-]).
    destruct (value_reads path line target v _ _ Hv Hval) as (v' & Hsp & Hp & _).
    destruct (IH _ _ Hl Hvals) as (l' & Hl' & Hp'). exists (v' :: l'). split; [by constructor|].
    cbn [parse_elements]. by rewrite Hp, Hp'.
Qed.

(** The values of a leaf are read back as values that parse alike. *)
Lemma leaf_values target document op p vs name text q :
  spelled (AObject document) = true -> Combines op = false -> isKeyword name = false -> field name q = Ok target ->
  format_comparison op (read document "value") = Some text -> parseValues document target op p = Ok vs ->
  exists d', comparison_spelt path line name text d' /\
    read d' "field" = AText name /\ read d' "op" = AText (op_text op) /\ present d' "nodes" = false /\
    parseValues d' target op p = Ok vs.
Proof.
  intros Hs Hop Hk Ht Htext Hv. apply (spelled_read _ "value") in Hs.
  assert (Hentries : forall v', read (leaf_entries name op v') "field" = AText name /\
    read (leaf_entries name op v') "op" = AText (op_text op) /\ present (leaf_entries name op v') "nodes" = false)
    by (intros; done).
  assert (Hone : match op with OpIsNull | OpBetween | OpIn | OpNotIn | OpContainsAny | OpContainsAll => False | _ => True end ->
    forall word, operator_word op = Some word -> text = " " +:+ word +:+ " " +:+ formatValue (read document "value") ->
    (is_nil (read document "value") = false /\
     (v ← parseValue (read document "value") target (p +:+ "/value"); Ok [v]) = Ok vs) ->
    exists d', comparison_spelt path line name text d' /\
    read d' "field" = AText name /\ read d' "op" = AText (op_text op) /\ present d' "nodes" = false /\
    (if is_nil (read d' "value") then Err (fieldError (p +:+ "/value") "query.value_required" [])
     else v ← parseValue (read d' "value") target (p +:+ "/value"); Ok [v]) = Ok vs).
  { intros Hsingle word Hword -> [_ Hval]. apply bind_ok in Hval as (val & Hval & [= <-]).
    destruct (value_reads path line target _ _ _ Hs Hval) as (v' & Hsp & Hp & Hnil).
    exists (leaf_entries name op v'). split; [by apply (single_spelt path line name target q)|].
    split; [done|]. split; [done|]. split; [done|].
    change (read (leaf_entries name op v') "value") with v'. by rewrite Hnil, Hp. }
  assert (Hmany : match op with OpIn | OpNotIn | OpContainsAny | OpContainsAll => True | _ => False end ->
    forall word, operator_word op = Some word ->
    text = " " +:+ word +:+ " (" +:+ join_with ", " (map formatValue (listed (read document "value"))) +:+ ")" ->
    parseList (read document "value") target (p +:+ "/value") 1 MaxValues = Ok vs ->
    exists d', comparison_spelt path line name text d' /\
    read d' "field" = AText name /\ read d' "op" = AText (op_text op) /\ present d' "nodes" = false /\
    parseList (read d' "value") target (p +:+ "/value") 1 MaxValues = Ok vs).
  { intros Hlist word Hword -> Hval. unfold parseList in Hval. apply bind_ok in Hval as (l & Hl & Hval).
    destruct ((Z.of_nat (List.length l) <? 1) || (MaxValues <? Z.of_nat (List.length l))) eqn:Hcount; [done|].
    assert (listed (read document "value") = l /\ forallb spelled l = true) as [-> Hsl].
    { destruct (read document "value"); try done; injection Hl as <-; (split; [done|]); cbn in Hs |- *; rewrite ?Hs; done. }
    destruct (elements_read target _ l _ _ Hsl Hval) as (l' & Hl' & Hp). pose proof (Forall2_length _ _ _ Hl') as Hlen. bools.
    exists (leaf_entries name op (AList l')). split.
    - apply (list_op_spelt path line name target q); try done. intros ->. cbn in *. lia.
    - split; [done|]. split; [done|]. split; [done|]. change (read (leaf_entries name op (AList l')) "value") with (AList l').
      unfold parseList. cbn -[parse_elements]. rewrite <- Hlen.
      rewrite (proj2 (Z.ltb_ge _ 1)), (proj2 (Z.ltb_ge MaxValues _)) by lia. done. }
  unfold parseValues, format_comparison in *. destruct op; try done;
    try (apply (Hone I _ eq_refl); [by injection Htext as <-|]; destruct (is_nil (read document "value")); done);
    try (apply (Hmany I _ eq_refl); [by injection Htext as <-|done]); clear Hone Hmany.
  - destruct (read document "value") as [| | | | | |[|low [|high [|]]]|]; try done. injection Htext as <-.
    unfold parseList in Hv. cbn -[parse_elements] in Hv.
    destruct (elements_read target _ [low; high] _ _ Hs Hv) as (l' & Hl' & Hp).
    apply Forall2_cons_inv_l in Hl' as (low' & l1 & Hlow & Hl' & ->).
    apply Forall2_cons_inv_l in Hl' as (high' & l2 & Hhigh & Hl' & ->). apply Forall2_nil_inv_l in Hl' as ->.
    exists (leaf_entries name OpBetween (AList [low'; high'])). split; [by apply (between_spelt path line name target q)|].
    split; [done|]. split; [done|]. split; [done|].
    change (read (leaf_entries name OpBetween (AList [low'; high'])) "value") with (AList [low'; high']).
    unfold parseList. cbn -[parse_elements]. done.
  - injection Htext as <-. destruct (is_nil (read document "value")); [|done]. injection Hv as <-.
    exists [("field", AText name); ("op", AText "IS_NULL")].
    split; [by apply (empty_spelt path line name target q)|]. done.
Qed.

Lemma leaf_reads document op p n text :
  spelled (AObject document) = true -> Combines op = false -> parseLeaf document op p = Ok n ->
  bareField (stringOf (read document "field")) = true -> format_comparison op (read document "value") = Some text ->
  exists d' name, name = stringOf (read document "field") /\ name_word name /\ comparison_spelt path line name text d' /\
    read d' "op" = AText (op_text op) /\ parseLeaf d' op p = Ok n.
Proof.
  intros Hs Hop Hl Hbare Htext.
  assert (Hf : exists name, read document "field" = AText name).
  { destruct (read document "field"); try done. eauto. }
  destruct Hf as [name Hf]. rewrite Hf in Hbare. cbn [stringOf] in Hbare.
  assert (Hparts : exists target vs, field name (p +:+ "/field") = Ok target /\ parseValues document target op p = Ok vs).
  { unfold parseLeaf in Hl. destruct (present document "nodes"); [done|]. rewrite Hf in Hl.
    apply bind_ok in Hl as (target & Ht & Hl). destruct (negb _); [done|]. destruct (_ && _); [done|].
    apply bind_ok in Hl as (vs & Hv & _). by exists target, vs. }
  destruct Hparts as (target & vs & Ht & Hv). pose proof Ht as Hname. apply field_known in Hname as [Hknown Hname].
  destruct (known_plain target Hknown) as [Hplain Hne].
  assert (E : name = f_name target) by (by apply bare_name).
  assert (Hkey : isKeyword name = false) by (unfold bareField in Hbare; bools; done).
  destruct (leaf_values target document op p vs name text _ Hs Hop Hkey Ht Htext Hv) as (d' & Hsp & Hfd & Hopd & Hnodes & Hvd).
  exists d', name. rewrite Hf. split; [done|]. split; [by rewrite E; repeat split; [..|rewrite <- E]|].
  split; [done|]. split; [done|]. apply (leaf_same document d' op p n name); try done.
  intros target' vs' Ht' Hv'. rewrite Ht in Ht'. injection Ht' as <-. rewrite Hv in Hv'. by injection Hv' as <-.
Qed.
End leaves.

(** ** Combinations *)

(** What may stand after a run of operands. *)
Definition follow (shapes : list shape) : Prop :=
  match shapes with [] => True | (k, w) :: _ => k = tokenSymbol \/ (k, w) = (tokenWord, "ORDER") end.

Lemma follow_stops ts : follow (map shape_of ts) -> at_keyword "AND" ts = false /\ at_keyword "OR" ts = false.
Proof.
  destruct ts as [|[k w a] ts]; [done|]. cbn [map shape_of follow tk_kind tk_text].
  by intros [->|[= -> ->]].
Qed.

Lemma join_cons sep t ts : join_with sep (t :: ts) = t +:+ String.concat "" (map (fun u => sep +:+ u) ts).
Proof.
  revert t. induction ts as [|u ts IH]; intros t; cbn; [by rewrite str_app_nil_r|].
  unfold join_with in IH. cbn in IH. rewrite IH. destruct ts; cbn; [by rewrite ?str_app_nil_r|].
  by rewrite <- !str_app_assoc.
Qed.

(** Tokens that are some, and do not start an ORDER BY. *)
Definition opens (shapes : list shape) : Prop :=
  match shapes with (k, w) :: _ => forall a ts, at_keyword "ORDER" (mkToken k w a :: ts) = false | [] => False end.

Lemma opens_tokens shapes_ shapes ts : opens shapes_ -> map shape_of ts = shapes_ ++ shapes ->
  ts <> [] /\ at_keyword "ORDER" ts = false.
Proof.
  destruct shapes_ as [|[k w] rest]; [done|]. intros Ho Hts. cbn [app] in Hts. apply peel in Hts as (a & ts' & -> & _).
  split; [done|apply Ho].
Qed.

Lemma opens_app a b : opens a -> opens (a ++ b).
Proof. by destruct a as [|[k w] a]. Qed.

Section chains.
Context (kw : string) (P : list token -> res (any * list token)).
Hypothesis Hkw : In kw ["AND"; "OR"].

(** What may stand after one operand of the run. *)
Definition allowed (shapes : list shape) : Prop := follow shapes \/ exists rest, shapes = (tokenWord, kw) :: rest.

Definition operand_spelt (text : string) (d : any) : Prop :=
  exists shapes_, opens shapes_ /\
    (forall s shapes, clean s = true -> lexed s shapes -> lexed (text +:+ s) (shapes_ ++ shapes)) /\
    (forall ts shapes, allowed shapes -> map shape_of ts = shapes_ ++ shapes ->
      exists ts', map shape_of ts' = shapes /\ P ts = Ok (d, ts')).

Definition infix_ : string := " " +:+ kw +:+ " ".

Lemma keyword_word s shapes : lexed s shapes -> lexed (infix_ +:+ s) ((tokenWord, kw) :: shapes).
Proof.
  intros H. unfold infix_. rewrite <- !str_app_assoc. apply lexed_word_space; [..|done];
    (destruct Hkw as [<-|[<-|[]]]; done).
Qed.

Lemma at_infix a ts : at_keyword kw (mkToken tokenWord kw a :: ts) = true.
Proof. by destruct Hkw as [<-|[<-|[]]]. Qed.

Lemma more_spelt texts ds : Forall2 operand_spelt texts ds ->
  exists shapes_, (List.length texts <= List.length shapes_)%nat /\
    (forall s shapes, clean s = true -> lexed s shapes ->
      lexed (String.concat "" (map (fun u => infix_ +:+ u) texts) +:+ s) (shapes_ ++ shapes)) /\
    (forall shapes, follow shapes -> allowed (shapes_ ++ shapes)) /\
    (forall fuel nodes ts shapes, follow shapes -> (List.length texts <= fuel)%nat -> map shape_of ts = shapes_ ++ shapes ->
      exists ts', map shape_of ts' = shapes /\ more_operands fuel kw P nodes ts = Ok (nodes ++ ds, ts')).
Proof.
  intros H. induction H as [|t d texts ds (shs & _ & Hlex & Hp) Hrest IH].
  - exists []. split; [done|]. split; [done|]. split; [by left|]. intros fuel nodes ts shapes Hf _ Hts.
    exists ts. split; [done|]. cbn in Hts. rewrite <- Hts in Hf. apply follow_stops in Hf as [Hand Hor].
    assert (at_keyword kw ts = false) as E by (destruct Hkw as [<-|[<-|[]]]; done).
    rewrite app_nil_r. destruct fuel; cbn [more_operands]; by rewrite E.
  - destruct IH as (shs' & Hlen & Hlex' & Hal & Hp'). exists ((tokenWord, kw) :: shs ++ shs').
    split; [cbn; rewrite length_app; lia|]. split; [|split].
    + intros s shapes Hs H. cbn [map]. assert (Hc : String.concat "" ((infix_ +:+ t) :: map (fun u => infix_ +:+ u) texts) =
        infix_ +:+ t +:+ String.concat "" (map (fun u => infix_ +:+ u) texts)).
      { cbn. destruct (map _ texts); [by rewrite str_app_nil_r|]. by rewrite <- str_app_assoc. }
      rewrite Hc, <- !str_app_assoc. cbn [app]. apply keyword_word. rewrite <- app_assoc. apply Hlex; [|by apply Hlex'].
      destruct texts as [|u texts]; [exact Hs|]. cbn. destruct (map _ texts); done.
    + intros shapes Hf. right. by eexists.
    + intros fuel nodes ts shapes Hf Hl Hts. destruct fuel as [|fuel]; [cbn in Hl; lia|].
      cbn [app] in Hts. apply peel in Hts as (a & ts1 & -> & Hts). cbn [more_operands]. rewrite at_infix. cbn [tail].
      rewrite <- app_assoc in Hts. destruct (Hp ts1 (shs' ++ shapes)) as (ts2 & Hts2 & E); [by apply Hal|done|].
      destruct (Hp' fuel (nodes ++ [d]) ts2 shapes) as (ts' & Hts' & E'); [done|cbn in Hl; lia|done|].
      exists ts'. split; [done|]. rewrite E. cbn. rewrite E'. by rewrite <- app_assoc.
Qed.

(** Two operands or more are one combination. *)
Lemma chain_spelt texts ds : Forall2 operand_spelt texts ds -> (2 <= List.length texts)%nat ->
  exists shapes_, opens shapes_ /\
    (forall s shapes, clean s = true -> lexed s shapes -> lexed (join_with infix_ texts +:+ s) (shapes_ ++ shapes)) /\
    (forall ts shapes, follow shapes -> map shape_of ts = shapes_ ++ shapes ->
      exists ts', map shape_of ts' = shapes /\
        combination kw P ts = Ok (AObject [("op", AText kw); ("nodes", AList ds)], ts')).
Proof.
  intros H Hl. destruct H as [|t d texts ds (shs & Ho & Hlex & Hp) Hrest]; [cbn in Hl; lia|].
  destruct (more_spelt texts ds Hrest) as (shs' & Hlen & Hlex' & Hal & Hp'). exists (shs ++ shs'). split; [by apply opens_app|]. split.
  - intros s shapes Hs H. rewrite join_cons, <- !str_app_assoc, <- app_assoc. apply Hlex; [|by apply Hlex'].
    destruct texts as [|u texts]; [exact Hs|]. cbn. destruct (map _ texts); done.
  - intros ts shapes Hf Hts. rewrite <- app_assoc in Hts.
    destruct (Hp ts (shs' ++ shapes)) as (ts2 & Hts2 & E); [by apply Hal|done|].
    destruct (Hp' (List.length ts2) [d] ts2 shapes) as (ts' & Hts' & E'); [done| |done|].
    { apply (f_equal (@List.length _)) in Hts2. rewrite length_map, length_app in Hts2. lia. }
    exists ts'. split; [done|]. unfold combination. rewrite E. cbn -[more_operands]. rewrite E'. cbn.
    destruct Hrest; [cbn in Hl; lia|]. done.
Qed.

(** One operand alone is itself. *)
Lemma lone_operand d ts ts' : P ts = Ok (d, ts') -> at_keyword kw ts' = false -> combination kw P ts = Ok (d, ts').
Proof.
  intros E Hk. unfold combination. rewrite E. cbn -[more_operands].
  destruct ts'; cbn [List.length more_operands]; by rewrite Hk.
Qed.
End chains.

(** ** Nodes *)

Lemma op_trim name op : operator_named name = Some op -> TrimSpace name = name /\ name = op_text op.
Proof.
  unfold operator_named. intros H. apply find_some in H as [_ H]. apply String.eqb_eq in H as <-. by destruct op.
Qed.

Lemma op_parsed op q : parseOperator (AText (op_text op)) q = Ok op.
Proof. by destruct op. Qed.

(** [formatNode] with the children found by name. *)
Definition node_text (nested : bool) (fields : list (string * any)) : option string :=
  let texts := match entry fields "nodes" with Some (AList nodes) => map (formatNode true) nodes | _ => [] end in
  match operator_named (stringOf (read fields "op")) with
  | Some op =>
      match op with
      | OpAnd | OpOr =>
          if Nat.ltb (List.length texts) 2 then None
          else
            option_map
              (fun ts => let s := join_with (" " +:+ op_text op +:+ " ") ts in if nested then "(" +:+ s +:+ ")" else s)
              (all_texts texts)
      | OpNot => match texts with [t] => option_map (fun s => "NOT " +:+ s) t | _ => None end
      | _ =>
          let name := stringOf (read fields "field") in
          if negb (bareField name) then None
          else option_map (fun s => name +:+ s) (format_comparison op (read fields "value"))
      end
  | None => None
  end.

Lemma format_node_text nested fields : formatNode nested (AObject fields) = node_text nested fields.
Proof.
  unfold node_text. cbn [formatNode].
  set (go := fix nodes_of (fs : list (string * any)) : list (option string) :=
        match fs with
        | [] => []
        | (k, v) :: rest =>
            if String.eqb k "nodes" then match v with AList nodes => map (formatNode true) nodes | _ => [] end
            else nodes_of rest
        end).
  assert (E : forall fs, go fs = match entry fs "nodes" with Some (AList nodes) => map (formatNode true) nodes | _ => [] end).
  { induction fs as [|[k v] rest IH]; [done|]. cbn. destruct (String.eqb k "nodes"); [done|]. apply IH. }
  by rewrite E.
Qed.

Lemma all_texts_some texts ts : all_texts texts = Some ts -> texts = map Some ts.
Proof.
  revert ts. induction texts as [|[t|] rest IH]; intros ts; cbn; [by intros [= <-]| |done].
  destruct (all_texts rest) as [ts'|]; [|done]. intros [= <-]. cbn. by rewrite (IH ts').
Qed.

Section nodes.
Context (path line : string).

(** A text whose tokens the parser [P] reads as the document, before what
    [after] allows. *)
Definition spelt (P : list token -> res (any * list token)) (after : list shape -> Prop) (text : string) (d : any) : Prop :=
  exists shapes_, opens shapes_ /\
    (forall s shapes, clean s = true -> lexed s shapes -> lexed (text +:+ s) (shapes_ ++ shapes)) /\
    (forall ts shapes, after shapes -> map shape_of ts = shapes_ ++ shapes ->
      exists ts', map shape_of ts' = shapes /\ P ts = Ok (d, ts')).

(** An operand, whatever follows it; a whole filter, before its end, a closing
    parenthesis or an ORDER BY. *)
Definition node_spelt (levels : nat) : string -> any -> Prop := spelt (not_ path line levels) (fun _ => True).
Definition filter_spelt (levels : nat) : string -> any -> Prop := spelt (or_ path line levels) follow.

Lemma node_operand kw levels text d : node_spelt levels text d -> operand_spelt kw (not_ path line levels) text d.
Proof.
  intros (shs & Ho & Hlex & Hp). exists shs. split; [done|]. split; [done|]. intros ts shapes _ Hts. by apply Hp.
Qed.

(** An operand of OR: a run of one under AND. *)
Lemma node_or_operand levels text d : node_spelt levels text d ->
  operand_spelt "OR" (combination "AND" (not_ path line levels)) text d.
Proof.
  intros (shs & Ho & Hlex & Hp). exists shs. split; [done|]. split; [done|]. intros ts shapes Hal Hts.
  destruct (Hp ts shapes I Hts) as (ts' & Hts' & E). exists ts'. split; [done|].
  apply lone_operand; [done|]. destruct Hal as [Hf|[rest ->]].
  - rewrite <- Hts' in Hf. by apply follow_stops in Hf as [? _].
  - by apply peel in Hts' as (a & ts2 & -> & _).
Qed.

Lemma node_filter levels text d : node_spelt levels text d -> filter_spelt levels text d.
Proof.
  intros (shs & Ho & Hlex & Hp). exists shs. split; [done|]. split; [done|]. intros ts shapes Hf Hts.
  destruct (Hp ts shapes I Hts) as (ts' & Hts' & E).
  exists ts'. split; [done|]. rewrite <- Hts' in Hf. apply follow_stops in Hf as [Hand Hor].
  unfold or_. apply lone_operand; [|done]. by apply lone_operand.
Qed.

Definition combined (op : Operator) (ds : list any) : any := AObject [("op", AText (op_text op)); ("nodes", AList ds)].

(** A combination without parentheses. *)
Lemma chain_filter op levels texts ds : op = OpAnd \/ op = OpOr ->
  Forall2 (node_spelt levels) texts ds -> (2 <= List.length texts)%nat ->
  filter_spelt levels (join_with (" " +:+ op_text op +:+ " ") texts) (combined op ds).
Proof.
  intros Hop H Hl. destruct Hop as [-> | ->].
  - destruct (chain_spelt "AND" (not_ path line levels) ltac:(cbn; tauto) texts ds) as (shs & Ho & Hlex & Hp); [|done|].
    { eapply Forall2_impl; [exact H|]. intros. by apply node_operand. }
    exists shs. split; [done|]. split; [done|]. intros ts shapes Hf Hts. destruct (Hp ts shapes Hf Hts) as (ts' & Hts' & E).
    exists ts'. split; [done|]. unfold or_. apply lone_operand; [done|]. rewrite <- Hts' in Hf. by apply follow_stops in Hf as [_ ?].
  - destruct (chain_spelt "OR" (combination "AND" (not_ path line levels)) ltac:(cbn; tauto) texts ds) as (shs & Ho & Hlex & Hp); [|done|].
    { eapply Forall2_impl; [exact H|]. intros. by apply node_or_operand. }
    exists shs. by split; [|split].
Qed.

(** Parentheses, a NOT, a leaf. *)
Lemma paren_node levels text d : filter_spelt levels text d -> node_spelt (S levels) ("(" +:+ text +:+ ")") d.
Proof.
  intros (shs & Ho & Hlex & Hp). exists ((tokenSymbol, "(") :: shs ++ [(tokenSymbol, ")")]).
  split; [by intros a ts|]. split.
  - intros s shapes Hs H. rewrite <- !str_app_assoc. cbn [app]. rewrite <- app_assoc.
    apply (lexed_symbol "("); [by repeat constructor|]. apply Hlex; [done|]. apply (lexed_symbol ")"); [by repeat constructor|done].
  - intros ts shapes _ Hts. cbn [app] in Hts. rewrite <- app_assoc in Hts. apply peel in Hts as (a & ts1 & -> & Hts).
    destruct (Hp ts1 ((tokenSymbol, ")") :: shapes)) as (ts2 & Hts2 & E); [by left|done|].
    apply peel in Hts2 as (b & ts3 & -> & Hts3). exists ts3. split; [done|].
    cbn [not_]. words. unfold or_ in E. rewrite E. cbn [mbind result_bind]. words. done.
Qed.

Lemma not_node levels text d : node_spelt levels text d -> node_spelt (S levels) ("NOT " +:+ text) (combined OpNot [d]).
Proof.
  intros (shs & Ho & Hlex & Hp). exists ((tokenWord, "NOT") :: shs). split; [by intros a ts|]. split.
  - intros s shapes Hs H. rewrite <- str_app_assoc. cbn [app].
    change ("NOT " +:+ text +:+ s) with ("NOT" +:+ String " " (text +:+ s)).
    apply lexed_word; [done|done|done|]. apply lexed_space. by apply Hlex.
  - intros ts shapes _ Hts. cbn [app] in Hts. apply peel in Hts as (a & ts1 & -> & Hts).
    destruct (Hp ts1 shapes I Hts) as (ts2 & Hts2 & E). exists ts2. split; [done|].
    cbn [not_]. words. by rewrite E.
Qed.

Lemma leaf_node levels name text d' : name_word name -> comparison_spelt path line name text d' ->
  clean (text +:+ " ") = true -> node_spelt levels (name +:+ text) (AObject d').
Proof.
  intros (Hplain & Hne & Hk) (shs & Hlex & Hp) Hclean. exists ((tokenWord, name) :: shs).
  pose proof (quiet_word name Hplain Hk) as Hq. split; [intros a ts; apply Hq; cbn; tauto|]. split.
  - intros s shapes Hs H. rewrite <- str_app_assoc. cbn [app]. apply lexed_word; [done|done| |by apply Hlex].
    destruct text; [exact Hs|exact Hclean].
  - intros ts shapes _ Hts. cbn [app] in Hts. apply peel in Hts as (a & ts1 & -> & Hts).
    destruct (Hp a ts1 shapes Hts) as (ts' & Hts' & E). exists ts'. split; [done|].
    destruct levels; cbn [not_]; rewrite Hq by (cbn; tauto);
      change (at_symbol "(" (mkToken tokenWord name a :: ts1)) with false; exact E.
Qed.

Lemma comparison_clean op v text : format_comparison op v = Some text -> exists rest, text = String " " rest.
Proof.
  unfold format_comparison. destruct op; try (destruct (operator_word _) as [w|]; [|done]); cbn; try (intros [= <-]; by eexists).
  destruct v as [| | | | | |[|? [|? [|]]]|]; try done. intros [= <-]. by eexists.
Qed.

(** The children of a combination, each read back under [levels]. *)
Lemma children_read (parse : any -> string -> Z -> res (Node * Z)) levels children p :
  (forall raw q c n c' text, spelled raw = true -> parse raw q c = Ok (n, c') -> formatNode true raw = Some text ->
    exists d, parse d q c = Ok (n, c') /\ node_spelt levels text d) ->
  forall texts i c ns c', forallb spelled children = true ->
  map (formatNode true) children = map Some texts -> parse_children parse children p i c = Ok (ns, c') ->
  exists ds, Forall2 (node_spelt levels) texts ds /\ parse_children parse ds p i c = Ok (ns, c') /\
    List.length ds = List.length children.
Proof.
  intros Hread. induction children as [|child rest IH]; intros texts i c ns c' Hs Ht H.
  - destruct texts; [|done]. exists []. split; [apply Forall2_nil_2|]. by split.
  - destruct texts as [|t texts]; [done|]. cbn [map forallb] in Ht, Hs. injection Ht as Ht Hts. apply andb_true_iff in Hs as [Hs Hss].
    cbn [parse_children] in H. apply bind_ok in H as ([n c1] & Hn & H). apply bind_ok in H as ([ns' c2] & Hns & [= <- <-]).
    destruct (Hread _ _ _ _ _ _ Hs Hn Ht) as (d & Hd & Hsp). destruct (IH _ _ _ _ _ Hss Hts Hns) as (ds & Hds & Hps & Hl).
    exists (d :: ds). split; [by constructor|]. cbn [parse_children]. rewrite Hd. cbn -[parse_children].
    rewrite Hps. split; [done|]. cbn. by rewrite Hl.
Qed.

(** The documents of a combination and of a NOT parse like the original. *)
Lemma combined_parse levels op fields children p c ns c' ds : Combines op = true -> (MaxFilterNodes <? c + 1) = false ->
  combination_children fields op p = Ok children -> List.length ds = List.length children ->
  parse_children (parseNode levels) ds p 0 (c + 1) = Ok (ns, c') ->
  parseNode (S levels) (combined op ds) p c = Ok (mkNode op zero_field [] ns, c').
Proof.
  intros Hop Hc Hch Hl Hds. unfold combined. cbn [parseNode]. rewrite Hc.
  change (read [("op", AText (op_text op)); ("nodes", AList ds)] "op") with (AText (op_text op)).
  rewrite op_parsed. cbn -[combination_children parse_children]. rewrite Hop.
  assert (combination_children [("op", AText (op_text op)); ("nodes", AList ds)] op p = Ok ds) as ->.
  { unfold combination_children in Hch |- *. destruct (present fields "field"), (present fields "value"); try done.
    destruct (read fields "nodes") as [| | | | | |[|c0 cs]|]; try done.
    change (present [("op", AText (op_text op)); ("nodes", AList ds)] "field") with false.
    change (present [("op", AText (op_text op)); ("nodes", AList ds)] "value") with false.
    change (read [("op", AText (op_text op)); ("nodes", AList ds)] "nodes") with (AList ds).
    destruct (bool_decide (op = OpNot) && negb (Nat.eqb (List.length (c0 :: cs)) 1)) eqn:E; [done|].
    injection Hch as <-. destruct ds as [|d ds]; [done|]. by rewrite Hl, E. }
  cbn -[parse_children]. by rewrite Hds.
Qed.

Lemma node_reads levels : forall raw p c n c' text nested lv, spelled raw = true ->
  parseNode levels raw p c = Ok (n, c') -> formatNode nested raw = Some text -> (levels <= S lv)%nat ->
  exists d, parseNode levels d p c = Ok (n, c') /\ is_nil d = false /\
    (if nested then node_spelt lv text d else filter_spelt lv text d).
Proof.
  induction levels as [|levels IH]; intros raw p c n c' text nested lv Hs Hp Hf Hl; [done|].
  cbn [parseNode] in Hp. destruct (MaxFilterNodes <? c + 1) eqn:Hc; [done|].
  destruct raw as [| | | | | | |fields]; try done. rewrite format_node_text in Hf. unfold node_text in Hf.
  apply bind_ok in Hp as (op & Hop & Hp).
  destruct (operator_named (stringOf (read fields "op"))) as [op'|] eqn:Hop'; [|done].
  assert (op' = op) as ->.
  { pose proof Hop' as Hnamed. apply op_trim in Hnamed as [Htrim _]. unfold parseOperator in Hop.
    destruct (read fields "op"); try done. cbn [stringOf] in Htrim, Hop'. rewrite Htrim, Hop' in Hop.
    destruct (String.eqb _ ""); congruence. }
  assert (Hdone : forall d, parseNode (S levels) d p c = Ok (n, c') -> is_nil d = false ->
    node_spelt lv text d -> exists d, parseNode (S levels) d p c = Ok (n, c') /\ is_nil d = false /\
    (if nested then node_spelt lv text d else filter_spelt lv text d)).
  { intros d Hd Hn Hsp. exists d. split; [done|]. split; [done|]. destruct nested; [done|]. by apply node_filter. }
  destruct (Combines op) eqn:Hcomb.
  - apply bind_ok in Hp as (children & Hch & Hp). apply bind_ok in Hp as ([ns c1] & Hns & [= <- <-]).
    assert (Hnodes : entry fields "nodes" = Some (AList children) /\ children <> []).
    { unfold combination_children in Hch. destruct (present fields "field"), (present fields "value"); try done.
      unfold read in Hch. destruct (entry fields "nodes") as [[| | | | | |[|c0 cs]|]|]; try done.
      cbn [from_option id] in Hch. destruct (_ && _); [done|]. by injection Hch as <-. }
    destruct Hnodes as [Hnodes Hne]. rewrite Hnodes in Hf.
    assert (Hsc : forallb spelled children = true).
    { pose proof (spelled_read fields "nodes" Hs) as H. unfold read in H. by rewrite Hnodes in H. }
    assert (Hread : forall lv', (levels <= S lv')%nat -> forall texts, map (formatNode true) children = map Some texts ->
      exists ds, Forall2 (node_spelt lv') texts ds /\ parse_children (parseNode levels) ds p 0 (c + 1) = Ok (ns, c1) /\
        List.length ds = List.length children).
    { intros lv' Hlv texts Ht. eapply children_read; try done. intros raw q c2 n2 c2' t2 Hs2 Hp2 Hf2.
      destruct (IH raw q c2 n2 c2' t2 true lv' Hs2 Hp2 Hf2 Hlv) as (d & Hd & _ & Hsp). by exists d. }
    assert (Hpos : exists levels', levels = S levels').
    { destruct levels; [|eauto]. destruct children as [|c0 cs]; [done|]. by cbn in Hns. }
    assert (Hchain : op = OpAnd \/ op = OpOr -> forall ts, all_texts (map (formatNode true) children) = Some ts ->
      (2 <= List.length ts)%nat ->
      text = (if nested then "(" +:+ join_with (" " +:+ op_text op +:+ " ") ts +:+ ")" else join_with (" " +:+ op_text op +:+ " ") ts) ->
      exists d, parseNode (S levels) d p c = Ok (mkNode op zero_field [] ns, c1) /\ is_nil d = false /\
        (if nested then node_spelt lv text d else filter_spelt lv text d)).
    { intros Hao ts Hts Htwo ->. apply all_texts_some in Hts. destruct nested.
      - destruct lv as [|lv]; [destruct Hpos as [levels' ->]; lia|].
        destruct (Hread lv ltac:(lia) ts Hts) as (ds & Hds & Hps & Hlen). exists (combined op ds).
        split; [by eapply combined_parse|]. split; [done|]. apply paren_node. by apply chain_filter.
      - destruct (Hread lv ltac:(lia) ts Hts) as (ds & Hds & Hps & Hlen). exists (combined op ds).
        split; [by eapply combined_parse|]. split; [done|]. by apply chain_filter. }
    destruct op; try done.
    + destruct (Nat.ltb_spec (List.length (map (formatNode true) children)) 2) as [|Htwo]; [done|].
      destruct (all_texts _) as [ts|] eqn:Hts; [|done]. injection Hf as Htext.
      apply (Hchain (or_introl eq_refl) ts); [done| |done].
      pose proof (all_texts_some _ _ Hts) as E. rewrite E, length_map in Htwo. done.
    + destruct (Nat.ltb_spec (List.length (map (formatNode true) children)) 2) as [|Htwo]; [done|].
      destruct (all_texts _) as [ts|] eqn:Hts; [|done]. injection Hf as Htext.
      apply (Hchain (or_intror eq_refl) ts); [done| |done].
      pose proof (all_texts_some _ _ Hts) as E. rewrite E, length_map in Htwo. done.
    + destruct children as [|child [|]]; try done. cbn [map] in Hf.
      destruct (formatNode true child) as [t|] eqn:Ht; [|done]. injection Hf as <-.
      destruct lv as [|lv]; [destruct Hpos as [levels' ->]; lia|].
      destruct (Hread lv ltac:(lia) [t]) as (ds & Hds & Hps & Hlen); [cbn; by rewrite Ht|].
      apply Forall2_cons_inv_l in Hds as (d & ds' & Hd & Hnil & ->). apply Forall2_nil_inv_l in Hnil as ->.
      apply (Hdone (combined OpNot [d])); [by eapply combined_parse|done|]. by apply not_node.
  - apply bind_ok in Hp as (leaf & Hleaf & [= <- <-]).
    assert (Hfmt : bareField (stringOf (read fields "field")) = true /\
      exists t, format_comparison op (read fields "value") = Some t /\ text = stringOf (read fields "field") +:+ t).
    { destruct op; try done; destruct (bareField _); try done; cbn [negb] in Hf;
        destruct (format_comparison _ _) as [t|]; try done; injection Hf as <-; eauto. }
    destruct Hfmt as (Hbare & t & Ht & ->).
    destruct (leaf_reads path line fields op p leaf t Hs Hcomb Hleaf Hbare Ht) as (d' & name & -> & Hname & Hsp & Hopd & Hld).
    apply (Hdone (AObject d')); [|done|].
    + cbn [parseNode]. rewrite Hc, Hopd, op_parsed. cbn -[parseLeaf]. by rewrite Hcomb, Hld.
    + apply leaf_node; [done|done|]. apply comparison_clean in Ht as [rest ->]. done.
Qed.
End nodes.

(** ** The order *)

(** The directions of a term are spelt without spaces around them. *)
Definition plain_term (raw : any) : bool :=
  match raw with
  | AObject term =>
      let dir := stringOf (read term "dir") in
      let nulls := stringOf (read term "nulls") in
      String.eqb (TrimSpace dir) dir && String.eqb (TrimSpace nulls) nulls
  | _ => true
  end.

Section orders.
Context (path line : string).

(** The shapes of the direction and of the place of the nulls. *)
Definition term_words (dir nulls : string) : list shape :=
  (if String.eqb dir "" then [] else [(tokenWord, dir)]) ++
  (if String.eqb nulls "" then [] else [(tokenWord, "NULLS"); (tokenWord, nulls)]).
Definition term_entries (name dir nulls : string) : list (string * any) :=
  ("field", AText name) :: (if String.eqb dir "" then [] else [("dir", AText dir)]) ++
                           (if String.eqb nulls "" then [] else [("nulls", AText nulls)]).
Definition term_text (name dir nulls : string) : string :=
  name +:+ (if String.eqb dir "" then "" else " " +:+ dir) +:+ (if String.eqb nulls "" then "" else " NULLS " +:+ nulls).

(** What follows a term: a comma, or nothing. *)
Definition term_end (shapes : list shape) : Prop :=
  match shapes with [] => True | (k, w) :: _ => (k, w) = (tokenSymbol, ",") end.

Lemma term_lexed name dir nulls s shapes : name_word name -> dir ∈ [""; "ASC"; "DESC"] -> nulls ∈ [""; "LAST"; "FIRST"] ->
  clean s = true -> lexed s shapes ->
  lexed (term_text name dir nulls +:+ s) ((tokenWord, name) :: term_words dir nulls ++ shapes).
Proof.
  intros (Hp & Hne & _) Hdir Hnulls Hs H. unfold term_text, term_words.
  assert (Hn : clean ((if String.eqb nulls "" then "" else " NULLS " +:+ nulls) +:+ s) = true /\
    lexed ((if String.eqb nulls "" then "" else " NULLS " +:+ nulls) +:+ s)
          ((if String.eqb nulls "" then [] else [(tokenWord, "NULLS"); (tokenWord, nulls)]) ++ shapes)).
  { rewrite !elem_of_cons in Hnulls. destruct Hnulls as [->|[->|[->|Hnulls]]]; [by split| | |by apply not_elem_of_nil in Hnulls];
      (split; [done|]); cbn [String.eqb Ascii.eqb Bool.eqb app]; rewrite <- str_app_assoc;
      apply (lexed_word_space "NULLS"); try done; by apply lexed_word. }
  destruct Hn as [Hc Hn]. rewrite <- !str_app_assoc.
  rewrite !elem_of_cons in Hdir. destruct Hdir as [->|[->|[->|Hdir]]]; [| | |by apply not_elem_of_nil in Hdir];
    cbn [String.eqb Ascii.eqb Bool.eqb app]; rewrite <- ?app_assoc, <- ?str_app_assoc.
  - by apply lexed_word.
  - apply lexed_word; [done|done|done|]. apply lexed_space. by apply (lexed_word "ASC").
  - apply lexed_word; [done|done|done|]. apply lexed_space. by apply (lexed_word "DESC").
Qed.

Lemma term_step name dir nulls fuel acc a ts shapes : name_word name ->
  dir ∈ [""; "ASC"; "DESC"] -> nulls ∈ [""; "LAST"; "FIRST"] -> Z.of_nat (List.length acc) <= MaxSortTerms ->
  term_end shapes -> map shape_of ts = term_words dir nulls ++ shapes ->
  exists ts', map shape_of ts' = shapes /\
    sort_list path line (S fuel) acc (mkToken tokenWord name a :: ts) =
    (let terms := acc ++ [AObject (term_entries name dir nulls)] in
     if at_symbol "," ts' then sort_list path line fuel terms (tail ts') else Ok (terms, ts')).
Proof.
  intros (_ & _ & Hk) Hdir Hnulls Hacc Hend Hts.
  assert (Hstop : forall ts0, map shape_of ts0 = shapes ->
    at_keyword "ASC" ts0 = false /\ at_keyword "DESC" ts0 = false /\ at_keyword "NULLS" ts0 = false).
  { intros ts0 H0. destruct ts0 as [|[k w b] ts0]; [done|]. cbn in H0. subst shapes. cbn in Hend.
    injection Hend as -> ->. done. }
  assert (Hstart : forall ts0, sort_list path line (S fuel) acc (mkToken tokenWord name a :: ts0) =
    (let directed := at_keyword "ASC" ts0 || at_keyword "DESC" ts0 in
     let dir := if directed then [("dir", AText (ToUpper (default "" (tk_text <$> head ts0))))] else [] in
     let ts1 := if directed then tail ts0 else ts0 in
     '(nulls, ts2) ←
       (if at_keyword "NULLS" ts1 then
          if negb (at_keyword "FIRST" (tail ts1)) && negb (at_keyword "LAST" (tail ts1)) then fail path line (tail ts1)
          else Ok ([("nulls", AText (ToUpper (default "" (tk_text <$> head (tail ts1)))))], tail (tail ts1))
        else Ok ([], ts1));
     let terms := acc ++ [AObject (("field", AText name) :: dir ++ nulls)] in
     if at_symbol "," ts2 then sort_list path line fuel terms (tail ts2) else Ok (terms, ts2))).
  { intros ts0. cbn [sort_list tk_kind tk_text]. rewrite Hk, bool_decide_true by done.
    by rewrite (proj2 (Z.ltb_ge MaxSortTerms _)) by lia. }
  rewrite Hstart. clear Hstart. unfold term_words in Hts. unfold term_entries.
  rewrite !elem_of_cons in Hdir, Hnulls.
  destruct Hdir as [->|[->|[->|Hdir]]]; [| | |by apply not_elem_of_nil in Hdir];
    (destruct Hnulls as [->|[->|[->|Hnulls]]]; [| | |by apply not_elem_of_nil in Hnulls]);
    cbn [String.eqb Ascii.eqb Bool.eqb app] in Hts;
    repeat (match type of Hts with map shape_of _ = (_, _) :: _ =>
      let b := fresh "b" in let ts' := fresh "ts" in apply peel in Hts as (b & ts' & -> & Hts) end);
    destruct (Hstop _ Hts) as (E1 & E2 & E3); cbv zeta; words; rewrite ?E1, ?E2; words; rewrite ?E3; words;
    (eexists; split; [exact Hts|reflexivity]).
Qed.

(** The terms of a list, up to its end. *)
Definition term_spelt (text : string) (d : any) : Prop :=
  exists name dir nulls, name_word name /\ dir ∈ [""; "ASC"; "DESC"] /\ nulls ∈ [""; "LAST"; "FIRST"] /\
    text = term_text name dir nulls /\ d = AObject (term_entries name dir nulls).

Lemma terms_spelt texts ds : Forall2 term_spelt texts ds -> texts <> [] ->
  exists shapes_, (List.length texts <= List.length shapes_)%nat /\ lexed (join_with ", " texts) shapes_ /\
    forall fuel acc ts, (List.length texts <= fuel)%nat -> Z.of_nat (List.length acc + List.length texts) <= MaxSortTerms + 1 ->
      map shape_of ts = shapes_ -> sort_list path line fuel acc ts = Ok (acc ++ ds, []).
Proof.
  intros H. induction H as [|t d texts ds (name & dir & nulls & Hn & Hd & Hu & -> & ->) Hrest IH]; [done|]. intros _.
  destruct texts as [|t2 texts].
  - inversion Hrest; subst. exists ((tokenWord, name) :: term_words dir nulls). split; [cbn; lia|]. split.
    + change (join_with ", " [term_text name dir nulls]) with (term_text name dir nulls).
      rewrite <- (str_app_nil_r (term_text name dir nulls)), <- (app_nil_r (term_words dir nulls)).
      apply term_lexed; try done. apply lexed_nil.
    + intros fuel acc ts Hf Hb Hts. destruct fuel as [|fuel]; [cbn in Hf; lia|].
      apply peel in Hts as (a & ts1 & -> & Hts). rewrite <- (app_nil_r (term_words dir nulls)) in Hts.
      destruct (term_step name dir nulls fuel acc a ts1 [] Hn Hd Hu ltac:(cbn [List.length] in Hb; lia) I Hts) as (ts' & Hts' & ->).
      by destruct ts'.
  - destruct IH as (shs & Hl & Hx & Hp); [done|].
    exists (((tokenWord, name) :: term_words dir nulls) ++ (tokenSymbol, ",") :: shs).
    split; [rewrite length_app; cbn in Hl |- *; unfold shape in *; lia|]. split.
    + change (join_with ", " (term_text name dir nulls :: t2 :: texts))
        with (term_text name dir nulls +:+ ", " +:+ join_with ", " (t2 :: texts)).
      cbn [app]. apply term_lexed; try done. cbn [String.append]. apply (lexed_symbol ","); [by repeat constructor|].
      by apply lexed_space.
    + intros fuel acc ts Hf Hb Hts. destruct fuel as [|fuel]; [cbn in Hf; lia|]. cbn [app] in Hts.
      apply peel in Hts as (a & ts1 & -> & Hts).
      destruct (term_step name dir nulls fuel acc a ts1 ((tokenSymbol, ",") :: shs) Hn Hd Hu ltac:(cbn [List.length] in Hb; lia) eq_refl Hts)
        as (ts' & Hts' & ->).
      apply peel in Hts' as (b & ts2 & -> & Hts'). words.
      rewrite Hp; [by rewrite <- app_assoc|cbn [List.length] in Hf |- *; lia|rewrite length_app; cbn [List.length] in *; lia|done].
Qed.

(** A term that parses is read back as one that parses alike. *)
Lemma term_reads raw p t text : plain_term raw = true -> format_term raw = Some text -> parseSortTerm raw p = Ok t ->
  exists d, term_spelt text d /\ parseSortTerm d p = Ok t.
Proof.
  destruct raw as [| | | | | | |term]; try done. cbn [plain_term format_term parseSortTerm]. intros Hplain Hf Hp.
  destruct (bareField (stringOf (read term "field"))) eqn:Hbare; [|done]. cbn [negb] in Hf. injection Hf as <-.
  apply bind_ok in Hp as (target & Ht & Hp). destruct (f_sortable target) eqn:Hsort; [|done]. cbn [negb] in Hp.
  set (name := stringOf (read term "field")) in *. set (dir := stringOf (read term "dir")) in *.
  set (nulls := stringOf (read term "nulls")) in *. bools.
  match goal with H : TrimSpace dir = dir |- _ => rewrite H in Hp end.
  match goal with H : TrimSpace nulls = nulls |- _ => rewrite H in Hp end.
  pose proof Ht as Hname. apply field_known in Hname as [Hknown Hname]. destruct (known_plain target Hknown) as [Hpl Hne].
  assert (E : name = f_name target) by (by apply bare_name).
  assert (Hword : name_word name).
  { split; [by rewrite E|]. split; [by rewrite E|]. unfold bareField in Hbare. bools. done. }
  apply bind_ok in Hp as (desc & Hd & Hp). apply bind_ok in Hp as (first & Hu & [= <-]).
  assert (Hdir : dir ∈ [""; "ASC"; "DESC"]).
  { rewrite !elem_of_cons. destruct (String.eqb_spec dir ""); [auto|]. destruct (String.eqb_spec dir "ASC"); [auto|].
    destruct (String.eqb_spec dir "DESC"); [auto|done]. }
  assert (Hnul : nulls ∈ [""; "LAST"; "FIRST"]).
  { rewrite !elem_of_cons. destruct (String.eqb_spec nulls ""); [auto|]. destruct (String.eqb_spec nulls "LAST"); [auto|].
    destruct (String.eqb_spec nulls "FIRST"); [auto|done]. }
  exists (AObject (term_entries name dir nulls)). split; [by exists name, dir, nulls|].
  cbn [parseSortTerm]. change (stringOf (read (term_entries name dir nulls) "field")) with name. rewrite Ht.
  cbn -[read TrimSpace]. rewrite Hsort. cbn -[read TrimSpace].
  rewrite !elem_of_cons in Hdir, Hnul.
  destruct Hdir as [->|[->|[->|Hdir]]]; [| | |by apply not_elem_of_nil in Hdir];
    (destruct Hnul as [->|[->|[->|Hnul]]]; [| | |by apply not_elem_of_nil in Hnul]);
    injection Hd as <-; injection Hu as <-; reflexivity.
Qed.

Lemma terms_read sort p : forall texts i seen ts, forallb plain_term sort = true -> map format_term sort = map Some texts ->
  parse_terms sort p i seen = Ok ts ->
  exists ds, Forall2 term_spelt texts ds /\ parse_terms ds p i seen = Ok ts /\ List.length ds = List.length sort.
Proof.
  induction sort as [|raw rest IH]; intros texts i seen ts Hpl Hf Hp.
  - destruct texts; [|done]. exists []. split; [apply Forall2_nil_2|]. by split.
  - destruct texts as [|text texts]; [done|]. cbn [map forallb parse_terms] in Hpl, Hf, Hp.
    injection Hf as Hf Hfs. apply andb_true_iff in Hpl as [Hpl Hpls]. apply bind_ok in Hp as (t & Ht & Hp).
    destruct (contains seen _) eqn:Hc; [done|]. apply bind_ok in Hp as (ts' & Hts & [= <-]).
    destruct (term_reads raw _ t text Hpl Hf Ht) as (d & Hsp & Hd). destruct (IH _ _ _ _ Hpls Hfs Hts) as (ds & Hds & Hps & Hl).
    exists (d :: ds). split; [by constructor|]. cbn [parse_terms]. rewrite Hd. cbn -[parse_terms contains].
    rewrite Hc, Hps. split; [done|]. cbn. by rewrite Hl.
Qed.
End orders.

(** ** The round trip *)

Section trip.
Context (path line : string).

(** The order's part of a line. *)
Lemma order_spelt sort texts p ts : forallb plain_term sort = true -> all_texts (map format_term sort) = Some texts ->
  sort <> [] -> ParseSort (AList sort) p = Ok ts ->
  exists ds shapes_, lexed ("ORDER BY " +:+ join_with ", " texts) ((tokenWord, "ORDER") :: (tokenWord, "BY") :: shapes_) /\
    ParseSort (AList ds) p = Ok ts /\
    forall toks, map shape_of toks = shapes_ -> sort_list path line (S (List.length toks)) [] toks = Ok (ds, []).
Proof.
  intros Hpl Hf Hne Hp. apply all_texts_some in Hf. destruct sort as [|t0 rest]; [done|].
  unfold ParseSort in Hp. cbn [is_nil parseSortTerms] in Hp.
  destruct (Z.ltb_spec MaxSortTerms (Z.of_nat (List.length (t0 :: rest)))) as [|Hmax]; [done|].
  destruct (terms_read (t0 :: rest) p texts 0 [] ts Hpl Hf Hp) as (ds & Hds & Hps & Hl).
  assert (Hlt : List.length texts = List.length (t0 :: rest)).
  { apply (f_equal (@List.length _)) in Hf. by rewrite !length_map in Hf. }
  destruct (terms_spelt path line texts ds Hds) as (shs & Hlen & Hlex & Hpt); [by destruct texts|].
  exists ds, shs. split; [|split].
  - apply (lexed_word "ORDER"); [done|done|done|]. apply lexed_space. apply (lexed_word "BY"); [done|done|done|].
    by apply lexed_space.
  - unfold ParseSort. destruct ds as [|d ds]; [done|]. cbn [is_nil parseSortTerms]. rewrite Hl.
    by rewrite (proj2 (Z.ltb_ge MaxSortTerms _)) by done.
  - intros toks Htoks. apply Hpt; [|cbn [List.length] in *; lia|done].
    apply (f_equal (@List.length _)) in Htoks. rewrite length_map in Htoks. unfold shape in *. lia.
Qed.

Lemma filter_part filter p n text : spelled filter = true -> is_nil filter = false ->
  formatNode false filter = Some text -> ParseFilter filter p = Ok n ->
  exists d, ParseFilter d p = Ok n /\ filter_spelt path line maxLineNesting text d.
Proof.
  intros Hs Hnil Hf Hp. unfold ParseFilter in Hp. rewrite Hnil in Hp.
  apply bind_ok in Hp as ([n' c] & Hn & Hp).
  destruct (node_reads path line MaxFilterDepth filter p 0 n' c text false maxLineNesting Hs Hn Hf) as (d & Hd & Hdn & Hsp).
  { unfold maxLineNesting, MaxFilterDepth. lia. }
  exists d. split; [|done]. unfold ParseFilter. by rewrite Hdn, Hd.
Qed.
End trip.

Lemma spelt_not_empty path line levels d : filter_spelt path line levels "" d -> False.
Proof.
  intros (shs & Ho & Hlex & _). specialize (Hlex "" [] eq_refl lexed_nil). cbn in Hlex.
  destruct (Hlex O O ltac:(done)) as (ts & [= <-] & E). rewrite app_nil_r in E. cbn in E. by subst shs.
Qed.

Lemma or_unless_order path line ts : at_keyword "ORDER" ts = false -> ts <> [] ->
  (if negb (at_keyword "ORDER" ts) && negb (Nat.eqb (List.length ts) 0) then or_ path line maxLineNesting ts else Ok (ANull, ts)) =
  or_ path line maxLineNesting ts.
Proof. intros -> Hne. by destruct ts. Qed.


Definition trip_filter : any :=
  AObject [("op", AText "OR");
           ("nodes", AList
             [AObject [("op", AText "AND"); ("nodes", AList
                [leaf_document "status" "EQ" (AText "it's \ open"); leaf_document "depth" "BETWEEN" (AList [three; three]);
                 leaf_document "custom_fields.price" "GTE" (ANumber (mkFloat true 7205759403792794 (-56)))])];
              AObject [("op", AText "NOT"); ("nodes", AList [leaf_document "labels" "CONTAINS_ANY"
                (AList [AText "01920000-0000-7000-8000-000000000001"; AText "01920000-0000-7000-8000-000000000002"])])];
              AObject [("field", AText "due_at"); ("op", AText "IS_NULL")];
              leaf_document "is_completed" "EQ" (ABool true)])].
Definition trip_sort : list any :=
  [AObject [("field", AText "due_at"); ("dir", AText "DESC"); ("nulls", AText "FIRST")]; sort_document "title" ""].
Definition trip_line : string := Eval vm_compute in (default "" (FormatLine trip_filter trip_sort)).
Definition trip_node : option Node := Eval vm_compute in (match ParseFilter trip_filter "/filter" with Ok n => n | _ => None end).
Definition trip_terms : list SortTerm := Eval vm_compute in (match ParseSort (AList trip_sort) "/sort" with Ok ts => ts | _ => [] end).


(** ** Where a line does not spell its query

    The round trip asks for a line of at most 4000 bytes, for Go integers to be
    absent, and for whole numbers above the least [int64]: without them the
    printer answers a line that does not read back. *)

Definition long_leaf (key : string) : any := leaf_document ("custom_fields." +:+ key) "EQ" (AText (zeros 500)).
Definition long_filter : any :=
  AObject [("op", AText "AND"); ("nodes", AList (map long_leaf ["a"; "b"; "c"; "d"; "e"; "f"; "g"; "h"; "i"]))].

(** Nine comparisons with texts of 500 characters are a filter, and no line. *)
Example long_filter_parses : is_ok (ParseFilter long_filter "/filter") = true.
Proof. vm_compute. reflexivity. Qed.
Example long_filter_no_line : option_map (fun line => ParseLine line "/q") (FormatLine long_filter []) =
  Some (Err (fieldError "/q" "query.line_too_long" [("maximum", "4000")])).
Proof. vm_compute. reflexivity. Qed.

Definition least_filter : any := leaf_document "depth" "GT" (ANumber (float_of_int64 (- 2 ^ 63))).

Example least_parses : is_ok (ParseFilter least_filter "/filter") = true.
Proof. vm_compute. reflexivity. Qed.
Example least_line : FormatLine least_filter [] = Some "depth > -9223372036854776000".
Proof. vm_compute. reflexivity. Qed.
Example least_not_read : (match ParseLine "depth > -9223372036854776000" "/q" with
    Ok (f, _) => ParseFilter f "/filter" | _ => Panic end) =
  Err (fieldError "/filter/value" "query.value_type_invalid" [("field", "depth"); ("kind", "integer")]).
Proof. vm_compute. reflexivity. Qed.

Example go_int_line : FormatLine (leaf_document "depth" "GT" (AInt 3)) [] = Some ("depth > " +:+ quote_text "").
Proof. vm_compute. reflexivity. Qed.
