(* ===== verification/Resolve.v ===== *)
(** * Relative values of a query

    The second half of core/domain/model/view/Placeholder.go: what [@today],
    [@end_of_week-P1W] or [@me] stand for at the moment a query is answered,
    for the person who asks.  A moment keeps its location, as Go's [time.Time]
    does, so it is read and moved in it; an offset is applied calendar parts
    first. *)

From Stdlib Require Import ZArith Lia String Ascii List Bool.
From stdpp Require Import base list strings.
From S2P Require Import Prelude Shared Hlc Text Civil Literal Query.

Open Scope string_scope.
Open Scope list_scope.
Open Scope Z_scope.

Record Resolution := mkResolution {
  re_now : Time;
  re_location : option Location;
  re_actor : ID;
  re_week_start : Z;
  re_week_start_set : bool
}.

(** [time.Weekday] of the three days a week may start with. *)
Definition weekdays : list (string * Z) := [("MONDAY", 1); ("SUNDAY", 0); ("SATURDAY", 6)].

Definition WithWeekStart (r : Resolution) (day : string) : Resolution :=
  match find (fun p => String.eqb p.1 day) weekdays with
  | Some (_, weekday) => mkResolution (re_now r) (re_location r) (re_actor r) weekday true
  | None => r
  end.

Definition weekStart (r : Resolution) : Z := if re_week_start_set r then re_week_start r else 1.

(** [t.AddDate(years, months, days)] of a moment in a location. *)
Definition AddDate (l : Location) (t : Time) (years months days : Z) : Time :=
  let '(y, m, d) := date_in l t in
  let '(hh, mm, ss) := clock_in l t in
  go_date l (y + years) (m + months) (d + days) hh mm ss (nanosecond_of t).

(** [t.Weekday()]. *)
Definition weekday_in (l : Location) (t : Time) : Z := weekday (local_second l t / day_seconds).

(** [(int(day.Weekday()) - int(weekStart) + 7) % 7]; no operand is negative. *)
Definition daysSinceWeekStart (l : Location) (day : Time) (start : Z) : Z := (weekday_in l day - start + 7) mod 7.

Definition Microsecond : Z := 1000.

(** What one stored timestamp can distinguish. *)
Definition resolution : Z := Microsecond.

(** The anchor, and whether it is the beginning of the period after an end. *)
Definition anchor (p : PlaceholderKind) (l : Location) (now : Time) (start : Z) : Time * bool :=
  let '(y, m, d) := date_in l now in
  let startOfDay := go_date l y m d 0 0 0 0 in
  let startOfMonth := go_date l y m 1 0 0 0 0 in
  match p with
  | PlaceholderToday => (startOfDay, false)
  | PlaceholderEndOfDay => (AddDate l startOfDay 0 0 1, true)
  | PlaceholderStartOfWeek => (AddDate l startOfDay 0 0 (- daysSinceWeekStart l startOfDay start), false)
  | PlaceholderEndOfWeek => (AddDate l startOfDay 0 0 (7 - daysSinceWeekStart l startOfDay start), true)
  | PlaceholderStartOfMonth => (startOfMonth, false)
  | PlaceholderEndOfMonth => (AddDate l startOfMonth 0 1 0, true)
  | _ => (now, false)
  end.

(** Whole months on, the day kept inside the month it lands in. *)
Definition addMonthsClamped (l : Location) (moment : Time) (months : Z) : Time :=
  if months =? 0 then moment
  else
    let '(y, m, d) := date_in l moment in
    let '(hh, mm, ss) := clock_in l moment in
    let first := go_date l y m 1 hh mm ss (nanosecond_of moment) in
    let target := AddDate l first 0 months 0 in
    let '(_, _, lastDay) := date_in l (AddDate l target 0 1 (-1)) in
    let '(ty, tm, _) := date_in l target in
    go_date l ty tm (Z.min d lastDay) hh mm ss (nanosecond_of moment).

(** The calendar parts, then the clock; products and sums of [int]s wrap. *)
Definition offset_apply (o : Offset) (l : Location) (moment : Time) : Time :=
  let sign := if of_negative o then -1 else 1 in
  let months := wrap_int64 (sign * wrap_int64 (of_years o * 12 + of_months o)) in
  let shifted := AddDate l (addMonthsClamped l moment months) 0 0 (wrap_int64 (sign * of_days o)) in
  shifted + wrap_int64 (sign * of_clock o).

(** [Placeholder.Resolve]. *)
Definition resolve_placeholder (p : Placeholder) (at_ : Resolution) (path : string) : res Value :=
  if bool_decide (ph_kind p = PlaceholderMe) then
    if id_is_zero (re_actor at_) then
      Err (fieldError path "query.placeholder_needs_actor" [("placeholder", "@me")])
    else Ok (id_value (re_actor at_))
  else
    let location := default UTC (re_location at_) in
    let '(moment, inclusiveEnd) := anchor (ph_kind p) location (re_now at_) (weekStart at_) in
    let moment := if offset_is_zero (ph_offset p) then moment else offset_apply (ph_offset p) location moment in
    Ok (time_value (if inclusiveEnd then moment - resolution else moment)).

Definition FieldGroupQueueOf : string := "group_queue_of".

(** One value of a leaf, resolved; a group's queue is the asker's own. *)
Definition resolve_value (target : Field) (at_ : Resolution) (path : string) (index : Z) (v : Value) : res Value :=
  v ← (if IsPlaceholder v then resolve_placeholder (v_placeholder v) at_ (path +:+ "/value/" +:+ itoa index) else Ok v);
  if String.eqb (f_name target) FieldGroupQueueOf && negb (String.eqb (v_id v) (re_actor at_)) then
    Err (fieldError (path +:+ "/value") "query.group_queue_not_yours" [])
  else Ok v.

Fixpoint resolve_values (target : Field) (at_ : Resolution) (path : string) (index : Z) (vs : list Value) : res (list Value) :=
  match vs with
  | [] => Ok []
  | v :: rest =>
      v ← resolve_value target at_ path index v;
      rest ← resolve_values target at_ path (index + 1) rest;
      Ok (v :: rest)
  end.

(** The children in order, each at its index. *)
Definition resolve_children (resolve : Node -> string -> res Node) : list Node -> string -> Z -> res (list Node) :=
  fix go nodes path index :=
    match nodes with
    | [] => Ok []
    | child :: rest =>
        n ← resolve child (path +:+ "/nodes/" +:+ itoa index);
        rest ← go rest path (index + 1);
        Ok (n :: rest)
    end.

(** [Node.Resolve]. *)
Fixpoint resolve_node (at_ : Resolution) (n : Node) (path : string) : res Node :=
  let 'mkNode op target values nodes := n in
  if Combines op then
    nodes ← resolve_children (resolve_node at_) nodes path 0;
    Ok (mkNode op zero_field [] nodes)
  else
    values ← resolve_values target at_ path 0 values;
    Ok (mkNode op target values []).

(** ** Small runs *)

Definition wednesday : Resolution := mkResolution (1784548920 * Second + 5) None "01920000-0000-7000-8000-00000000000a" 0 false.

(** 2026-07-20 is a Monday; a week may start on its Sunday. *)
Example relative_values : map (fun raw =>
    match parsePlaceholder raw KindTimestamp "" with
    | Ok p => match resolve_placeholder p (WithWeekStart wednesday "SUNDAY") "" with Ok v => format_rfc3339_nano (v_time v) | _ => "" end
    | _ => ""
    end) ["@now"; "@today"; "@end_of_day"; "@start_of_week"; "@end_of_week"; "@end_of_month+P1M"; "@today+P11D"; "@start_of_month-P1YT1H"] =
  ["2026-07-20T12:02:00.000000005Z"; "2026-07-20T00:00:00Z"; "2026-07-20T23:59:59.999999Z"; "2026-07-19T00:00:00Z";
   "2026-07-25T23:59:59.999999Z"; "2026-08-31T23:59:59.999999Z"; "2026-07-31T00:00:00Z"; "2025-06-30T23:00:00Z"].
Proof. vm_compute. reflexivity. Qed.
Example month_clamped : map (fun months => format_rfc3339 (addMonthsClamped UTC (go_date UTC 2026 1 31 9 0 0 0) months)) [1; 13; -2] =
  ["2026-02-28T09:00:00Z"; "2027-02-28T09:00:00Z"; "2025-11-30T09:00:00Z"].
Proof. vm_compute. reflexivity. Qed.

(** ** A resolved filter *)

Inductive filter_literal : nat -> Node -> Prop :=
  | literal_leaf levels op target values :
      Combines op = false -> known_field target -> Permits target op = true ->
      arity_ok op (Z.of_nat (List.length values)) -> Forall (literal_fits target) values ->
      filter_literal (S levels) (mkNode op target values [])
  | literal_combination levels op nodes :
      Combines op = true -> nodes <> [] -> (op = OpNot -> List.length nodes = 1%nat) ->
      Forall (filter_literal levels) nodes -> filter_literal (S levels) (mkNode op zero_field [] nodes).

(** Every comparison with the queue of a group's member asks for this one. *)
Inductive queue_of (actor : ID) : Node -> Prop :=
  | queue_leaf op target values :
      (f_name target = FieldGroupQueueOf -> Forall (fun v => v_id v = actor) values) ->
      queue_of actor (mkNode op target values [])
  | queue_combination op nodes : Forall (queue_of actor) nodes -> queue_of actor (mkNode op zero_field [] nodes).

Lemma literal_no_placeholder f v : literal_fits f v -> IsPlaceholder v = false.
Proof.
  unfold literal_fits. destruct (f_kind f); intros H; try (by destruct H as (x & ->)); try (by destruct H as (x & -> & _)).
  destruct H as [(x & ->)|[(x & -> & _)|(x & ->)]]; done.
Qed.

Lemma resolve_value_ok f at_ path i v v' : looksLikeUUID (re_actor at_) = true -> value_fits f v ->
  resolve_value f at_ path i v = Ok v' -> literal_fits f v' /\ (f_name f = FieldGroupQueueOf -> v_id v' = re_actor at_).
Proof.
  intros Hactor Hfit H. unfold resolve_value in H. apply bind_ok in H as (w & Hw & H).
  assert (v' = w /\ (f_name f = FieldGroupQueueOf -> v_id w = re_actor at_)) as [-> Hq].
  { destruct (String.eqb_spec (f_name f) FieldGroupQueueOf) as [E|E]; [|by injection H as <-].
    destruct (String.eqb_spec (v_id w) (re_actor at_)); [by injection H as <-|done]. }
  split; [|done]. clear H Hq. destruct Hfit as [(Htakes & p & -> & Hz & Hme & _)|Hlit].
  - unfold IsPlaceholder in Hw. cbn in Hw. rewrite bool_decide_false in Hw by done. cbn [negb] in Hw.
    unfold resolve_placeholder in Hw. unfold literal_fits. destruct (bool_decide (ph_kind p = PlaceholderMe)) eqn:Hd; bools.
    + destruct (id_is_zero (re_actor at_)); [done|]. injection Hw as <-.
      destruct (proj1 Hme Hd) as [-> | ->]; by exists (re_actor at_).
    + destruct (anchor _ _ _ _) as [moment ends]. injection Hw as <-.
      destruct (f_kind f) eqn:Hk; try done; [destruct Hd; apply Hme; auto| |destruct Hd; apply Hme; auto]. by eexists.
  - rewrite (literal_no_placeholder f v Hlit) in Hw. by injection Hw as <-.
Qed.

Lemma resolve_values_ok f at_ path vs : looksLikeUUID (re_actor at_) = true -> Forall (value_fits f) vs ->
  forall i vs', resolve_values f at_ path i vs = Ok vs' ->
  List.length vs' = List.length vs /\ Forall (literal_fits f) vs' /\
  (f_name f = FieldGroupQueueOf -> Forall (fun v => v_id v = re_actor at_) vs').
Proof.
  intros Hactor. induction 1 as [|v vs Hv Hvs IH]; intros i vs'; cbn [resolve_values].
  - intros [= <-]. repeat split; constructor.
  - intros H. apply bind_ok in H as (w & Hw & H). apply bind_ok in H as (ws & Hws & [= <-]).
    apply resolve_value_ok in Hw as [Hl Hq]; [|done..]. apply IH in Hws as (Hlen & Hls & Hqs).
    split; [cbn; by rewrite Hlen|]. split; [by constructor|]. intros E. constructor; auto.
Qed.

(** C22. A parsed filter is resolved whole: what comes out asks the same
    comparisons with the same operators, every value is a literal of its
    field's kind with no placeholder left, and the queue of a person's groups
    is only ever the asker's own; resolving never stops the program. *)
Theorem resolve_safe levels at_ n path : filter_ok levels n -> looksLikeUUID (re_actor at_) = true ->
  (exists e, resolve_node at_ n path = Err e) \/
  exists n', resolve_node at_ n path = Ok n' /\ filter_literal levels n' /\ queue_of (re_actor at_) n' /\ size n' = size n.
Proof.
  intros Hok Hactor. revert n path Hok. induction levels as [|levels IH]; intros n path Hok; [inversion Hok|].
  inversion Hok as [l op target values Hop Hk Hp Hn Ha Hv|l op nodes Hop Hne Hnot Hns]; subst; cbn [resolve_node]; rewrite Hop.
  - destruct (resolve_values target at_ path 0 values) as [vs|e|] eqn:E; [right|left; by exists e|].
    + apply resolve_values_ok in E as (Hl & Hlit & Hq); [|done..]. eexists. split; [reflexivity|].
      split; [constructor; try done; by rewrite Hl|]. split; [by constructor|done].
    + exfalso. revert E. generalize 0. clear -Hactor. induction values as [|v vs IHv]; intros i; cbn [resolve_values]; [done|].
      unfold resolve_value at 1, resolve_placeholder.
      destruct (IsPlaceholder v); [destruct (bool_decide _); [destruct (id_is_zero _); [done|]|destruct (anchor _ _ _ _)]|];
        cbn -[resolve_values]; (destruct (_ && _); [done|]); cbn -[resolve_values];
        destruct (resolve_values _ _ _ (i + 1) vs) eqn:Er; try done; exact (fun _ => IHv _ Er).
  - assert (Hch : forall i, (exists e, resolve_children (resolve_node at_) nodes path i = Err e) \/
      exists ns, resolve_children (resolve_node at_) nodes path i = Ok ns /\ Forall (filter_literal levels) ns /\
        Forall (queue_of (re_actor at_)) ns /\ List.length ns = List.length nodes /\
        fold_right Z.add 0 (map size ns) = fold_right Z.add 0 (map size nodes)).
    { clear Hok Hne Hnot. induction Hns as [|child rest Hc Hrest IHr]; intros i; cbn [resolve_children].
      - right. exists []. by repeat split; constructor.
      - destruct (IH child (path +:+ "/nodes/" +:+ itoa i) Hc) as [[e ->]|(n' & -> & Hlit & Hq & Hs)]; [left; by exists e|].
        destruct (IHr (i + 1)) as [[e Hr]|(ns & Hr & Hlits & Hqs & Hl & Hsum)]; cbn -[resolve_children]; rewrite Hr.
        + left. by exists e.
        + right. exists (n' :: ns). split; [done|]. split; [by constructor|]. split; [by constructor|].
          split; [cbn; by rewrite Hl|]. cbn. lia. }
    destruct (Hch 0) as [[e ->]|(ns & -> & Hlits & Hqs & Hl & Hsum)]; [left; by exists e|right].
    exists (mkNode op zero_field [] ns). split; [done|]. split; [|split; [by constructor|cbn; lia]].
    constructor; try done; [by destruct ns, nodes|by rewrite Hl].
Qed.

Definition relative_filter : any :=
  AObject [("op", AText "AND");
           ("nodes", AList [leaf_document "group_queue_of" "EQ" (AText "@me"); leaf_document "due_at" "LTE" (AText "@end_of_week")])].
Definition relative_node : Node := Eval vm_compute in
  (match ParseFilter relative_filter "/filter" with Ok (Some n) => n | _ => mkNode OpAnd zero_field [] [] end).

Lemma resolve_safe_witness :
  (exists e, resolve_node wednesday relative_node "/filter" = Err e) \/
  exists n', resolve_node wednesday relative_node "/filter" = Ok n' /\ filter_literal MaxFilterDepth n' /\
    queue_of (re_actor wednesday) n' /\ size n' = size relative_node.
Proof.
  apply (resolve_safe MaxFilterDepth wednesday relative_node "/filter"); [|vm_compute; reflexivity].
  apply parse_node_ok with (raw := relative_filter) (path := "/filter") (count := 0) (count' := 3). vm_compute. reflexivity.
Defined.

(** ** Days and weeks *)

Section fixed_offset.
Context (offset : Z).
Let l : Location := fixed_zone offset.

Lemma fixed_date y m d : go_date l y m d 0 0 0 0 = (date_days y m d * day_seconds - offset) * Second.
Proof.
  unfold go_date, l, fixed_zone. cbn -[Z.mul date_days Z.add]. rewrite Zdiv_0_l, Zmod_0_l.
  destruct (Z.eqb_spec offset 0) as [->|]; cbn [negb]; [unfold day_seconds; lia|].
  unfold zone_offset. cbn [fst]. destruct (_ || _); unfold day_seconds; lia.
Qed.

(** The midnight [k] days after the one of a moment. *)
Definition midnight (day : Z) : Time := (day * day_seconds - offset) * Second.

Lemma local_midnight day : local_second l (midnight day) = day * day_seconds.
Proof.
  unfold local_second, midnight, l, fixed_zone, zone_offset. cbn [fst]. rewrite Z.div_mul by done. lia.
Qed.

Lemma midnight_clock day : clock_in l (midnight day) = (0, 0, 0) /\ nanosecond_of (midnight day) = 0 /\
  date_in l (midnight day) = civil_from_days day /\ weekday_in l (midnight day) = weekday day.
Proof.
  unfold clock_in, date_in, weekday_in, nanosecond_of. rewrite local_midnight, Z.mod_mul, Z.div_mul by done.
  split; [done|]. split; [|done]. unfold midnight. by apply Z.mod_mul.
Qed.

Lemma add_days_midnight day k : AddDate l (midnight day) 0 0 k = midnight (day + k).
Proof.
  unfold AddDate. destruct (midnight_clock day) as (-> & -> & -> & _). pose proof (date_days_step day k) as H.
  destruct (civil_from_days day) as [[y m] d]. rewrite !Z.add_0_r, fixed_date, H. done.
Qed.

(** The midnight a moment's day begins with. *)
Lemma start_of_day now : let '(y, m, d) := date_in l now in
  go_date l y m d 0 0 0 0 = midnight (local_second l now / day_seconds).
Proof.
  unfold date_in. pose proof (date_days_step (local_second l now / day_seconds) 0) as H.
  destruct (civil_from_days _) as [[y m] d]. by rewrite fixed_date, <- (Z.add_0_r d), H, Z.add_0_r.
Qed.

Lemma midnight_before now : let day := local_second l now / day_seconds in
  midnight day <= now < midnight (day + 1).
Proof.
  cbv zeta. unfold midnight, local_second, l, fixed_zone, zone_offset. cbn [fst].
  pose proof (Z.div_mod now Second ltac:(done)) as Hn. pose proof (Z.mod_pos_bound now Second ltac:(done)) as Hb.
  set (s := now / Second) in *. pose proof (Z.div_mod (s + offset) day_seconds ltac:(done)) as Hd.
  pose proof (Z.mod_pos_bound (s + offset) day_seconds ltac:(done)) as Hm.
  set (day := (s + offset) / day_seconds) in *. unfold Second, day_seconds, Millisecond in *. lia.
Qed.
End fixed_offset.

(** In a location of a fixed offset [@start_of_week] is the local midnight
    of the last day the week starts with, on or before the moment of asking
    and less than a week ago; [@end_of_week] is the last microsecond of the
    seven days it begins, and [@end_of_day] that of the day of [@today]. *)
Theorem week_anchors offset now start : 0 <= start < 7 ->
  let l := fixed_zone offset in
  let week := (anchor PlaceholderStartOfWeek l now start).1 in
  let today := (anchor PlaceholderToday l now start).1 in
  weekday_in l week = start /\ local_second l week mod day_seconds = 0 /\
  week <= now < week + 7 * day_seconds * Second /\
  anchor PlaceholderEndOfWeek l now start = (week + 7 * day_seconds * Second, true) /\
  today <= now < today + day_seconds * Second /\
  anchor PlaceholderEndOfDay l now start = (today + day_seconds * Second, true).
Proof.
  intros Hs. cbv zeta. unfold anchor. pose proof (start_of_day offset now) as Hday. cbv zeta in Hday.
  destruct (date_in (fixed_zone offset) now) as [[y m] d] eqn:Hd. cbn [fst]. rewrite Hday.
  pose proof (midnight_before offset now) as Hb. cbv zeta in Hb.
  set (day := local_second (fixed_zone offset) now / day_seconds) in *.
  unfold daysSinceWeekStart. destruct (midnight_clock offset day) as (_ & _ & _ & ->).
  rewrite !add_days_midnight. set (k := (weekday day - start + 7) mod 7).
  assert (Hk : 0 <= k < 7) by (apply Z.mod_pos_bound; lia).
  assert (Hstep : forall a b, midnight offset (a + b) = midnight offset a + b * day_seconds * Second)
    by (intros; unfold midnight; ring).
  destruct (midnight_clock offset (day + - k)) as (_ & _ & _ & ->). rewrite local_midnight, Z.mod_mul by done.
  rewrite (Hstep day 1) in Hb |- *. rewrite !(Hstep day).
  assert (0 < day_seconds * Second) by done.
  split; [|split; [done|split; [nia|split; [f_equal; ring|split; [lia|f_equal; ring]]]]].
  subst k. clear -Hs. unfold weekday. Z.to_euclidean_division_equations. lia.
Qed.

Lemma week_anchors_witness : 0 <= 0 < 7 /\
  weekday_in UTC (anchor PlaceholderStartOfWeek UTC (re_now wednesday) 0).1 = 0.
Proof. split; [done|]. by apply (week_anchors 0 (re_now wednesday) 0). Defined.
